(* ===== verification/_CoqProject ===== *)
-Q . S2P
Prelude.v
PyStr.v
Glob.v
PyFloat.v
PyVal.v
Bytes.v
Json.v
JsonParse.v
StrictJson.v
StrictJsonSound.v
Verdict.v
Harness.v
RecordPaths.v
Policy.v
Request.v
Config.v
JUnit.v
RepoPhase.v
RecordReport.v
RecordPolicy.v
RecordTypes.v
RecordVerifier.v
RecordSoundness.v
RecordEvidence.v
RecordSamples.v
Decision.v
Continuity.v
RepoResult.v
Assurance.v
ProducerAgree.v
Finalization.v
FinalizationSound.v
Regex.v
Edits.v
Shlex.v
Runners.v
Candidate.v
HarnessPolicy.v
PackageJson.v
PackManifest.v
GitObjects.v
EvidencePrimitives.v
Materialize.v
MaterializeSound.v
Effects.v
RepoOps.v
RepoRun.v
RepoVerifier.v
RepoVerifierKeeps.v
RepoVerifierEvidence.v
RepoVerifierSound.v
BlackboxFinalization.v
BlackboxSound.v
Derivation.v
AgentChange.v
DerivationSound.v
DerivationSamples.v
ZipArchive.v
EvidenceBundle.v
TrustedFinalizer.v
FinalizerSound.v
FinalizerSamples.v
AgentAdmission.v
AgentAdmissionSound.v
AgentAdmissionSamples.v
CandidateTree.v
CandidateAgree.v
CandidateSamples.v
PatchRisk.v
CandidateRunner.v
BlackboxCandidate.v
BlackboxPack.v
BlackboxRun.v
BlackboxRunSound.v
BlackboxRunSamples.v
Baseline.v
DiffCoverage.v
Guard.v
GuardSound.v
GuardSamples.v
