(* ===== verification/Prelude.v ===== *)
(** * EvoOM Guard in Rocq

    EvoOM Guard judges a candidate change of a repository: it decides which paths
    a candidate may touch, applies the candidate to a private copy, runs the
    repository's tests and optionally a judge-owned verifier pack there, turns what
    was observed into one verdict with a reason, demotes a PASS whose promised
    evidence is missing, and writes a verdict record.  A portable verifier
    re-checks such a record offline, without the producer's code.  A trusted
    finalizer re-derives what was judged from raw Git objects and seals the record
    with its materials in a signed bundle, and an admission contract binds a change
    that an agent made to the scope that was authorized.  This library is a shallow
    embedding of the judged path of src/evoom_guard/ with the theorems that make it
    correct.

    ** Parts and files

    Foundations (Python semantics the sources rely on):
    - [Prelude]: strings as lists of code points, the error monad
      ([result], [let*]), sorting and set helpers, automation;
    - [PyStr]: string methods, [repr]; [Glob]: [fnmatch]; [Regex]: a backtracking
      matcher for the expressions of the block parser; [Shlex]: [shlex.split];
      [PyFloat]: binary64 floats through [SpecFloat], exact comparisons, [round];
      [PyVal]: JSON-like dynamic values, [dict] access, [==], truthiness; [Bytes]:
      UTF-8, big-endian packing and an executable SHA-256; [Json]:
      [json.dumps(sort_keys=True)]; [JsonParse]: [json.loads];
    - [Effects]: programs that ask their environment ([prog]), their
      executions as logs of operations and replies ([exec], computed by [run]), a
      state and refusal monad over them ([M]), and its program logic: a weakest
      precondition over the log ([wp], [triple]), sound for [exec] ([wp_sound]).

    Contract and policy:
    - [Verdict]: domain/verdict.py and verdict_contract_v1_11/_v1_12.py - verdicts,
      execution states, reasons and the versioned reason contracts;
    - [Harness]: domain/harness.py - portable paths, canonical [harness_inputs],
      path and setup-output conflicts;
    - [HarnessPolicy]: verifiers/harness_policy.py and candidate_preflight.py -
      which paths are protected, the preflight and the verifier's own rejection;
    - [Policy]: domain/policy.py, domain/isolation.py, policy/effective.py - the
      effective policy, its payload and digest, operating profiles;
    - [StrictJson]: strict_json.py; [Config]: policy/config.py - the policy file,
      key by key, with its cross-field rules;
    - [Request]: application/request_preparation.py - validation and
      canonicalization of one invocation into an effective policy.

    Candidate:
    - [Edits], [Candidate]: candidate/ and patchmin.py - FILE and PATCH blocks, the
      identity of a candidate, search and replace, patch minimization;
    - [CandidateTree]: workspace/candidate_tree.py - the walk of two directory trees
      and the blocks and deletions between them;
    - [PackageJson]: harness_policy.py, [restore_judge_package_json] with
      [json.dumps(indent=2)];
    - [PatchRisk]: patchmin.py and the helpers of guard.py - line counts over a model of
      [difflib], the bounded advisory score;
    - [Materialize]: verifiers/repo_candidate.py and repo_materialization.py -
      admission, and the application of edits and deletions to a workspace (class
      [Workspace]: contained reads, writes and deletions of a tree).

    Judgment (the producer):
    - [Runners]: runners/ - recognition and instrumentation of test commands;
    - [JUnit]: verifiers/junit_oracle.py and grading.py - counts of an XML report and
      of a report set with its digest, grading, tamper detection;
    - [RepoPhase]: verifiers/repo_phase_contracts.py - interpretation of a suite run
      and of a pack run, and their composition;
    - [Continuity]: repo_runtime_continuity.py and repo_pack_continuity.py - the two
      owners of tree and pack identity as state machines;
    - [RepoResult]: repo_execution.py, repo_result.py, repo_evidence.py - the trace,
      the completed artifact, and the evidence projected from it;
    - [RepoOps], [RepoRun], [RepoVerifier]: repo_verifier.py with repo_setup.py,
      repo_suite.py, repo_pack.py, repo_pack_intake.py and cleanup_repo_workspaces:
      one verification as a program over the operations [RepoOps.op]; the command
      lines and the diagnostics are in [RepoOps], the phases in [RepoRun], the
      session from harness binding to cleanup in [RepoVerifier];
    - [Decision]: application/repo_decision.py, decision_gates.py, pipeline.py - the
      core decision and the three gates that may demote it;
    - [Assurance]: application/assurance.py - the delivered assurance profile and the
      shortfall against the required floors;
    - [Finalization]: application/repo_finalization.py and attestation.py;
    - [BlackboxFinalization]: application/blackbox_finalization.py;
    - [CandidateRunner], [BlackboxCandidate], [BlackboxPack], [BlackboxRun]: the external
      judge, a program over the same operations - the candidate boundary and its launcher
      (isolation/candidate.py), the evidence of an invocation and the removal of containers
      (verifiers/blackbox_candidate_runtime.py, isolation/docker.py), the execution of a
      pack (verifiers/blackbox_pack.py), and one run from its workspaces to their removal
      with the precedence of cleanup failures ([run_blackbox], blackbox.py);
    - [Baseline]: verifiers/repo_baseline.py - the run of the suite on a copy of the
      pristine base, from its workspace to its removal ([run_repo_baseline]);
    - [DiffCoverage]: evidence.py - the changed lines of a candidate, the suite under
      coverage on a copy of its own, and the account of every changed line
      ([collect_diff_coverage]);
    - [PackManifest]: pack_manifest.py - validation of a verifier pack, its inventory,
      framed digest and snapshots;
    - [Guard]: guard.py and application/repo_judgment.py - [guard] from the raw
      invocation to the reported result, which composes all of the above.

    Record verification (the consumer):
    - [RecordReport]: the list of checks and its rendered report;
      [RecordPaths], [RecordPolicy], [RecordTypes]: the verifier's own
      re-derivations and type projections; [RecordVerifier]: every semantic check
      record_verifier.py and record_isolation.py, composed by [verify_record].

    Finalization outside the judge (the witness):
    - [GitObjects], [Derivation], [AgentChange]: finalizer_derivation.py - the reader of raw
      Git objects, candidate blocks, deletions and pack identity re-derived from two
      commits, the bindings of a tracked change in both formats;
    - [EvidencePrimitives], [ZipArchive], [EvidenceBundle]: evidence_bundle.py and the key
      identities of signing.py - stable reads, canonical documents and archives,
      inspection, authentication and creation of bundles;
    - [TrustedFinalizer]: trusted_finalizer.py - handoff, sealing, verification;
    - [AgentAdmission]: admission/agent_change.py - proposals, authorizations and the
      contract between them and the raw-Git facts.

    Theorems: [RecordSoundness], [RecordEvidence] and [RecordSamples] (what an accepted
    record proves, with concrete accepted records), [ProducerAgree] (the producer's
    results satisfy the verifier), [FinalizationSound], [BlackboxSound],
    [MaterializeSound], [StrictJsonSound], [DerivationSound], [FinalizerSound],
    [AgentAdmissionSound], [CandidateAgree] (the runner's candidate is the one the
    finalizer derives), [BlackboxRunSound], [Baseline], [DiffCoverage], [GuardSound], each with its
    concrete inputs in the file of the same stem that ends in [Samples] where it has
    one ([GuardSamples] has those of [DiffCoverage]); [RepoVerifierKeeps] (which stages cannot touch the record of a run),
    [RepoVerifierEvidence] and [RepoVerifierSound] (every execution of a verification,
    with concrete ones); the other files close with the theorems of their component.

    ** How the parts interact

    [Guard.guard] composes one judgment.  A request is prepared into a policy
    ([Config], [Request] -> [Policy]); declared harness inputs and the requirements the
    judge can enforce are checked, and the preflight ([HarnessPolicy]) decides whether
    anything runs.
    [RepoVerifier.verify] binds the declared harness inputs of the trusted base,
    admits the candidate ([Edits] -> [Materialize] over [HarnessPolicy] and [Harness]),
    applies it to an owned copy, takes in the pack, binds the copy's harness, runs
    setup, suite and pack ([RepoRun], their commands instrumented by [Runners]) between
    the checks of [Continuity], reads the reports ([JUnit] -> [RepoPhase]) and projects
    one result ([RepoResult]) before the workspaces are removed.
    [Decision.compose_repo_decision] reads the preflight's findings before it looks at
    that evidence; [Finalization] threads the decision through the coverage, baseline
    and assurance gates of [Decision] with the profile of [Assurance], over the evidence of
    [DiffCoverage.collect_diff_coverage] and then of [Baseline.run_repo_baseline] where
    they are asked for;
    [BlackboxFinalization] does so for the external judge, which [BlackboxRun.run_blackbox]
    runs on its own copy through the boundary that [CandidateRunner.prepare] delivered, and
    composes the repository suite after a green pack.  The record that reports the outcome is what
    [RecordVerifier] accepts or refuses.  [Derivation] re-derives the candidate that
    [CandidateTree] gave the judge; [TrustedFinalizer] compares the record and its
    context with these bindings ([RecordVerifier], [Derivation]) and seals them with
    [EvidenceBundle]; [AgentAdmission] verifies such a bundle against an authorization.

    State is explicit: the session of a verification ([RepoVerifier.session]: trace,
    sticky facts, owned workspaces), the two continuity owners, the decision of a
    [VerificationPipeline], the counters and digest frame of a report set
    ([JUnit.set_state]) and the list of checks of a report.  Pure code that raises
    returns [result]; the error type names the exception.  An effectful step asks
    one operation; the reply is a value, a declared refusal or an error of a process
    runner, and a reply of any other shape is an exception the code does not catch,
    which passes through [finally].

    ** What the theorems show

    - Guard: a PASS of [guard], in any execution, passed every stage from a valid
      request to the gates, a required coverage floor rests on a measurement that was
      earned and a required fix on a base that failed, each in a run of its own; what the preflight refuses never runs; the advisory score
      is bounded.
    - Verification: a passing result was earned step by step - harness bound before
      and after the suite, admitted edits applied, pack accepted under its pin and
      verified twice, no judged change of the tree, a clean non-empty report wherever
      one was promised or is demanded; no process runs on an unbound candidate or outside its limits and isolation; no
      report is read from an unchecked tree; the lifecycle evidence is a function of
      what happened; every owned workspace is removed, or the verification raises.
      These quantify over all executions, whatever the environment replies.
    - External judge: in every execution its process is started at most once, on a
      verified pack, with the candidate bound and the boundary delivered; a graded result
      has a report that agrees with the exit code, a pack verified again, an invocation
      that was observed if it is claimed, every listed container proved absent and both
      workspaces removed; whatever happens every workspace is given to a removal and the
      diagnostics of a cleanup stay short; the launcher puts the pack's arguments after
      the pinned image.
    - Baseline: a verdict on the pristine base rests on an unchanged harness, a setup that
      changed nothing judged, a started suite and a report that agrees with its exit code.
    - Coverage: what a candidate adds or replaces is among the changed lines, and the lines
      left out are lines of the base in their order; every changed line of code is executed
      or missed, executed only by direct evidence; a measurement rests on the candidate
      applied to a copy, an unchanged harness, a setup that changed nothing judged, a suite
      that passed where that is required, and a bounded report read after it; whatever is
      collected has the shape the record verifier demands.
    - Record soundness: a record that [verify_record] accepts obeys the reason
      contract of its schema; an accepted PASS completed with all tests passed,
      left the declared harness inputs untouched, has a policy bound by digest,
      the evidence channel its policy demands, an intact pack, coverage that meets
      the floor by exact arithmetic, assurance at or above the required floors, and
      a demonstrated fix when one is required; composite counts decompose exactly.
      [verify_record] is total and its counts partition the checks.
    - Decision: total on typed results, inside the reason contract, a PASS only
      from clean evidence; the gates and both finalizations only demote; a green
      black-box pack never masks a repository failure.
    - Harness: a candidate that the preflight lets run touches no protected path,
      and the preflight agrees with the rejection inside the verifier; portable
      paths stay inside the repository; conflicts are ancestor-or-equal up to case
      folding.
    - Candidate: admitted edits spare the text of the judge's files and materialization
      writes exactly the content the blocks denote; candidate identities are injective;
      a patch applies to a unique anchor only; serialized blocks parse back;
      minimization ends in a one-minimal patch, and refuses exactly where neither the
      empty nor the full patch passes.
      The blocks and deletions of the runner are those the finalizer derives from the
      commits, and applied to the base they give the head.
    - Finalizer: an allow of a finalized bundle is bound to one signed manifest, to the
      record in it and to raw Git; the manifest gives the digest and the size of every
      file of the bundle; an accepted record agrees with the derived bindings; a pack's
      identity is the digest of one framed text of its paths and contents, and so is the
      identity derived from the base.  That equal digests mean equal contents is stated
      for byte strings that SHA-256 tells apart: [PackManifest.collision_free] names the
      strings in question, those of the two bundles or packs that are compared.
    - Admission: what is sealed for an agent stays inside the authorized scope and
      budget, with two distinct keys, and touches no control path.
    - Input: strict JSON accepts only bounded, duplicate-free, well-formed values and
      reads back what is written; a configuration is accepted exactly when every
      rule holds.
    - Oracle: report counts are the counts of the test cases, report sets cover every
      report with an injective frame, a graded run passes only with agreeing exit
      code and report; instrumentation keeps the judged command, and cuts a shell script
      at its last operator by an independent grammar of shell text
      ([Runners.ShellText]).
    - Agreement of producer and verifier: floors, coverage thresholds, policy digests,
      operating profiles, harness paths, composite identities and assurance
      profiles; finalized repository and black-box records pass the lifecycle and
      isolation checks - except one case, proved as such: a failed opt-in host setup
      of a container run is reported with an isolation its own verifier refuses
      ([FinalizationSound.host_setup_record_refused]).

    ** Parameters, bounds and fuel

    - [UnicodeDB] is the Unicode database (case mapping, digits, printability): a
      class with the documented behaviour on ASCII as laws; [ascii_unicode] is an
      instance, used by the witnesses.
    - The XML parser, the report directory, system calls ([HarnessPolicy.tree],
      [Materialize.Workspace], what they observe of a path in [CandidateTree] and
      [PackManifest], the views of a file while it is read in [EvidencePrimitives]), the
      Python executable and the user of the judge, the collectors, runners and builders
      injected into the finalizations, the clock and the candidate digest are arguments;
      [Guard] instantiates the builders, [restore_judge_package_json], the external judge,
      the coverage run and the run on the base.
    - The parser and the tokenizer of Python, which decide what is a line of code, are
      arguments of [DiffCoverage] ([py_parse], [py_tokens]).
    - A tree of files is read through [Materialize.Workspace]; its laws say what a write
      or a deletion leaves alone: the text of every other path (not below the deleted
      one), and all of an unrelated path - a directory above a written file changes from
      absent to unreadable.  [MaterializeSound.gmap_workspace] is an instance.
    - Git is the function from a command to its output ([GitObjects.git_reader]), the
      parser of archives and the Ed25519 primitives are arguments, the bytes of a
      published archive are the state of its path.
    - The judge runs on a POSIX host (path separator, resource limits).
    - Python integers are unbounded and are [Z]; floats are binary64 with the
      rounding of [SpecFloat].  JUnit nesting is bounded by the source's own limit.
      The fuel of glob parsing is the length of the pattern ([Glob.glob_parse_enough]:
      more changes nothing), of [json.loads] twice the length of the
      text ([JsonParse.json_loads_fuel_enough]), of decimal digits the binary length of
      the number ([Json.digits_value]: the digits denote it), and of float printing
      seventeen digits, after which every binary64 value round-trips.  The nesting
      limit of [strict_json_loads] is below the interpreter's recursion limit, so
      [RecursionError] is not modelled; [json.loads] of a package manifest refuses
      integers of more than 4300 digits, as the interpreter does by default.

    ** Not modelled

    Human messages of checks and most diagnostics of decisions beyond the text the
    source assembles; the effects themselves behind [RepoOps.op] and the injected
    services: processes, containers and their clients (execution/, isolation/),
    the bounded process and process group of the external judge ([_run_judge_process]),
    the receipt socket (isolation/invocation.py), exceptions that cannot be printed during
    a cleanup, copies of trees, live tree hashing (runtime_identity.py), the descriptor-relative snapshots of harness inputs and
    setup output; the process of Git and its pinned executable, private temporary
    files, key files and the writing of outputs, the Windows handle calls of
    candidate_tree.py; release admission, receipts, GitHub clients and the command
    line.  admission/decision_envelope.py has no caller in the judged path. *)
From Stdlib Require Export ZArith NArith Bool Lia Strings.String.
From Stdlib Require Export Sorting.Sorted Sorting.Permutation.
From stdpp Require Export base option numbers list.

(** ** Python strings as sequences of code points *)

(** A Python [str] is a sequence of Unicode code points. *)
Definition str : Type := list N.

#[export] Instance str_eq_dec : EqDecision str := _.

(** Literals: a Rocq string literal stands for its ASCII code points. *)
Fixpoint u (s : string) : str :=
  match s with
  | EmptyString => []
  | String c s' => Ascii.N_of_ascii c :: u s'
  end.

Coercion u : string >-> str.
Arguments u : simpl never.

(** Lists of literals. *)
Definition us (l : list string) : list str := map u l.
Arguments us : simpl never.

Declare Scope py_scope.
Delimit Scope py_scope with py.

(** Equality of strings, as [==] computes it. *)
Fixpoint str_eqb (a b : str) : bool :=
  match a, b with
  | [], [] => true
  | x :: a', y :: b' => N.eqb x y && str_eqb a' b'
  | _, _ => false
  end.

Infix "=s?" := str_eqb (at level 70, no associativity) : py_scope.
Global Open Scope py_scope.
Global Open Scope string_scope.
Global Open Scope list_scope.

Lemma str_eqb_eq a b : (a =s? b) = true <-> a = b.
Proof.
  revert b; induction a as [|x a IH]; intros [|y b]; simpl; try (split; congruence).
  rewrite andb_true_iff, N.eqb_eq, IH. split; [intros [-> ->]|intros [= -> ->]]; done.
Qed.

Lemma str_eqb_neq a b : (a =s? b) = false <-> a <> b.
Proof. rewrite <- str_eqb_eq. destruct (a =s? b); split; congruence. Qed.

Lemma str_eqb_refl a : (a =s? a) = true.
Proof. by apply str_eqb_eq. Qed.

Lemma str_eqb_sym a b : (a =s? b) = (b =s? a).
Proof. apply eq_true_iff_eq. rewrite !str_eqb_eq. done. Qed.

(** [not l] of a list *)
Definition is_empty {A} (l : list A) : bool := match l with [] => true | _ => false end.

Lemma is_empty_iff {A} (l : list A) : is_empty l = true <-> l = [].
Proof. by destruct l. Qed.

(** Membership in a tuple or set of strings ([x in (...)]). *)
Definition str_in (s : str) (l : list str) : bool := existsb (str_eqb s) l.
Arguments str_in : simpl never.

Lemma str_in_In s l : str_in s l = true <-> In s l.
Proof.
  unfold str_in. rewrite existsb_exists. split.
  - intros (x & Hin & ->%str_eqb_eq). done.
  - intros Hin. exists s. by rewrite str_eqb_refl.
Qed.

Lemma str_in_not_In s l : str_in s l = false <-> ~ In s l.
Proof. rewrite <- str_in_In. destruct (str_in s l); split; congruence. Qed.

(** ** Results of fallible code *)

(** Code that may raise: a value, or the exception it raises. *)
Inductive result (E A : Type) : Type :=
| Ok (a : A)
| Err (e : E).
Arguments Ok {E A} a.
Arguments Err {E A} e.

Definition rbind {E A B} (m : result E A) (f : A -> result E B) : result E B :=
  match m with Ok a => f a | Err e => Err e end.

Notation "'let*' x ':=' m 'in' k" := (rbind m (fun x => k))
  (at level 10, x pattern, m at level 100, k at level 200) : py_scope.
Notation "'guard*' b 'else' e 'in' k" := (if (b : bool) then k else Err e)
  (at level 10, b at level 100, e at level 100, k at level 200) : py_scope.

Definition is_ok {E A} (r : result E A) : bool :=
  match r with Ok _ => true | Err _ => false end.

Lemma rbind_ok {E A B} (m : result E A) (f : A -> result E B) b :
  rbind m f = Ok b <-> exists a, m = Ok a /\ f a = Ok b.
Proof. destruct m; simpl; naive_solver. Qed.

Lemma rbind_ext {E A B} (m : result E A) (f g : A -> result E B) :
  (forall a, m = Ok a -> f a = g a) -> rbind m f = rbind m g.
Proof. destruct m; simpl; auto. Qed.

Lemma Ok_inj {E A} (a b : A) : @Ok E A a = Ok b -> a = b.
Proof. congruence. Qed.

Lemma Ok_pair_inj {E A B} (a c : A) (b d : B) : @Ok E _ (a, b) = Ok (c, d) -> a = c /\ b = d.
Proof. split; congruence. Qed.

(** Left-to-right traversal that stops at the first exception. *)
Fixpoint rmap {E A B} (f : A -> result E B) (l : list A) : result E (list B) :=
  match l with
  | [] => Ok []
  | x :: l' => let* y := f x in let* ys := rmap f l' in Ok (y :: ys)
  end.

Lemma rmap_ok {E A B} (f : A -> result E B) l l' :
  rmap f l = Ok l' <-> Forall2 (fun x y => f x = Ok y) l l'.
Proof.
  revert l'; induction l as [|x l IH]; intros l'; simpl.
  - split; [intros [= <-]; constructor|inversion 1; done].
  - rewrite rbind_ok. split.
    + intros (y & Hy & (ys & Hys & [= <-])%rbind_ok). constructor; [done|by apply IH].
    + inversion 1; subst. eexists; split; [done|]. apply rbind_ok.
      eexists; split; [by apply IH|done].
Qed.

(** ** Booleans *)

Create Rewrite HintDb brefl.
#[export] Hint Rewrite andb_true_iff orb_true_iff negb_true_iff negb_false_iff andb_false_iff
  orb_false_iff str_eqb_eq str_eqb_neq Z.eqb_eq Z.eqb_neq Z.leb_le Z.leb_gt Z.ltb_lt Z.ltb_ge
  Nat.eqb_eq Nat.eqb_neq Nat.leb_le Nat.leb_gt Nat.ltb_lt Nat.ltb_ge
  N.eqb_eq N.eqb_neq N.leb_le N.leb_gt N.ltb_lt N.ltb_ge
  str_in_In str_in_not_In forallb_forall : brefl.

(** Turn boolean tests, in the goal and the hypotheses, into propositions. *)
Ltac brefl := autorewrite with brefl in *; destruct_and?.

(** Split the first conditional or match of the goal or of a hypothesis. *)
Ltac case_if :=
  match goal with
  | |- context [if ?b then _ else _] => destruct b eqn:?
  | H : context [if ?b then _ else _] |- _ => destruct b eqn:?
  end.

(** ** Lists *)

Section Lists.
Context {A : Type}.
Implicit Types (l : list A) (f : A -> bool).

Lemma forallb_app_iff f l l' : forallb f (l ++ l') = forallb f l && forallb f l'.
Proof. induction l as [|x l IH]; simpl; [done|]. by rewrite IH, andb_assoc. Qed.

Lemma existsb_false f l : existsb f l = false <-> forall x, In x l -> f x = false.
Proof.
  induction l as [|x l IH]; simpl; [naive_solver|].
  rewrite orb_false_iff, IH. naive_solver.
Qed.

Lemma forallb_false f l : forallb f l = false <-> exists x, In x l /\ f x = false.
Proof.
  induction l as [|x l IH]; simpl; [naive_solver|].
  rewrite andb_false_iff, IH. naive_solver.
Qed.

Lemma existsb_app_iff f l l' : existsb f (l ++ l') = existsb f l || existsb f l'.
Proof. induction l as [|x l IH]; simpl; [done|]. by rewrite IH, orb_assoc. Qed.

Lemma filter_nil_iff f l : List.filter f l = [] <-> forall x, In x l -> f x = false.
Proof.
  induction l as [|x l IH]; simpl; [naive_solver|].
  destruct (f x) eqn:E; [|rewrite IH; naive_solver].
  split; [done|intros H]. specialize (H x (or_introl eq_refl)). congruence.
Qed.

(** [sum(f(x) for x in l)] *)
Definition sumZ (f : A -> Z) l : Z := fold_right (fun x acc => (f x + acc)%Z) 0%Z l.

Lemma sumZ_nonneg (g : A -> Z) l : (forall x, In x l -> 0 <= g x)%Z -> (0 <= sumZ g l)%Z.
Proof.
  induction l as [|x l IH]; simpl; intros H; [lia|].
  assert (0 <= g x)%Z by auto. assert (0 <= sumZ g l)%Z by auto. lia.
Qed.

Lemma sumZ_app (g : A -> Z) l l' : sumZ g (l ++ l') = (sumZ g l + sumZ g l')%Z.
Proof. induction l as [|x l IH]; simpl; [done|]. rewrite IH. lia. Qed.

Lemma sumZ_perm (g : A -> Z) l l' : Permutation l l' -> sumZ g l = sumZ g l'.
Proof. induction 1; simpl in *; lia. Qed.

(** [len(set(l)) == len(l)] is the absence of duplicates. *)
Fixpoint nodupb (eqb : A -> A -> bool) l : bool :=
  match l with
  | [] => true
  | x :: l' => negb (existsb (eqb x) l') && nodupb eqb l'
  end.

Lemma nodupb_NoDup (eqb : A -> A -> bool) l :
  (forall x y, eqb x y = true <-> x = y) -> nodupb eqb l = true <-> NoDup l.
Proof.
  intros Heq. induction l as [|x l IH]; simpl; [split; [constructor|done]|].
  rewrite andb_true_iff, IH, negb_true_iff, existsb_false, NoDup_cons, list_elem_of_In.
  split; intros [H1 H2]; split; try done.
  - intros Hin. specialize (H1 _ Hin). assert (eqb x x = true) by by apply Heq. congruence.
  - intros y Hy. destruct (eqb x y) eqn:E; [|done]. apply Heq in E as <-. done.
Qed.
End Lists.

(** ** Stable sorting by a total order *)

Section Sort.
Context {A : Type} (leb : A -> A -> bool).

(** [sorted]: the result is the stable sort of the list; insertion keeps
    equal elements in their order of appearance. *)
Fixpoint insert_sorted (x : A) (l : list A) : list A :=
  match l with
  | [] => [x]
  | y :: l' => if leb x y then x :: y :: l' else y :: insert_sorted x l'
  end.

Definition py_sort (l : list A) : list A := fold_right insert_sorted [] l.

Lemma insert_sorted_perm x l : Permutation (x :: l) (insert_sorted x l).
Proof.
  induction l as [|y l IH]; simpl; [done|].
  destruct (leb x y); [done|]. rewrite <- IH. constructor.
Qed.

Lemma py_sort_perm l : Permutation l (py_sort l).
Proof. induction l as [|x l IH]; simpl; [done|]. by rewrite <- insert_sorted_perm, <- IH. Qed.

Lemma py_sort_In x l : In x (py_sort l) <-> In x l.
Proof. split; apply Permutation_in; [symmetry|]; apply py_sort_perm. Qed.

Lemma py_sort_nil l : py_sort l = [] <-> l = [].
Proof.
  split; [|by intros ->]. intros H. apply Permutation_nil. rewrite <- H.
  symmetry. apply py_sort_perm.
Qed.

Definition sortedb (l : list A) : bool :=
  (fix go (l : list A) : bool :=
     match l with
     | x :: ((y :: _) as l') => leb x y && go l'
     | _ => true
     end) l.

Definition leR (x y : A) : Prop := leb x y = true.

Lemma sortedb_Sorted l : sortedb l = true <-> Sorted leR l.
Proof.
  induction l as [|x [|y l] IH]; simpl in *; [split; [constructor|done]| |].
  - split; [repeat constructor|done].
  - rewrite andb_true_iff, IH. split.
    + intros [Hxy Hs]. constructor; [done|by constructor].
    + intros [Hs Hh]%Sorted_inv. split; [by inversion Hh|done].
Qed.

Context (leb_total : forall x y, leb x y = true \/ leb y x = true).

Lemma insert_sorted_Sorted x l : Sorted leR l -> Sorted leR (insert_sorted x l).
Proof.
  induction l as [|y l IH]; simpl; intros Hs; [repeat constructor|].
  destruct (leb x y) eqn:E; [constructor; [done|by constructor]|].
  apply Sorted_inv in Hs as [Hs Hh]. constructor; [auto|].
  assert (leR y x) by (destruct (leb_total x y); unfold leR; congruence).
  destruct l as [|z l]; simpl; [by constructor|].
  destruct (leb x z); constructor; [done|by inversion Hh].
Qed.

Lemma py_sort_Sorted l : Sorted leR (py_sort l).
Proof. induction l; simpl; [constructor|by apply insert_sorted_Sorted]. Qed.

Lemma py_sort_id l : Sorted leR l -> py_sort l = l.
Proof.
  induction l as [|x l IH]; simpl; intros Hs; [done|].
  apply Sorted_inv in Hs as [Hs Hh]. rewrite IH by done.
  destruct l as [|y l]; simpl; [done|]. inversion Hh; subst. by rewrite H0.
Qed.

Context (leb_trans : forall x y z, leb x y = true -> leb y z = true -> leb x z = true).
(** Two sorted lists with the same elements are equal, when the order separates
    those elements. *)
Lemma Sorted_perm_eq_on l l' :
  (forall x y, In x l -> In y l -> leb x y = true -> leb y x = true -> x = y) ->
  Sorted leR l -> Sorted leR l' -> Permutation l l' -> l = l'.
Proof.
  intros Hanti Hl Hl'. apply Sorted_StronglySorted in Hl; [|intros x y z; apply leb_trans].
  apply Sorted_StronglySorted in Hl'; [|intros x y z; apply leb_trans].
  revert l' Hl'. induction Hl as [|x l Hl IH Hx]; intros l' Hl' Hp.
  - symmetry. by apply Permutation_nil.
  - destruct Hl' as [|y l' Hl' Hy]; [by apply Permutation_sym, Permutation_nil in Hp|].
    assert (x = y) as <-.
    { rewrite Stdlib.Lists.List.Forall_forall in Hx, Hy.
      assert (In y (x :: l)) as [->|Hin]
        by (eapply Permutation_in; [symmetry; exact Hp|left; done]); [done|].
      assert (In x (y :: l')) as [->|Hin']
        by (eapply Permutation_in; [exact Hp|left; done]); [done|].
      apply Hanti; [by left|by right|by apply Hx|by apply Hy]. }
    f_equal. apply IH; [|done|by apply Permutation_cons_inv in Hp].
    intros a b Ha Hb. apply Hanti; by right.
Qed.

Context (leb_antisym : forall x y, leb x y = true -> leb y x = true -> x = y).

Lemma Sorted_perm_eq l l' :
  Sorted leR l -> Sorted leR l' -> Permutation l l' -> l = l'.
Proof. apply Sorted_perm_eq_on. intros x y _ _. apply leb_antisym. Qed.
End Sort.

(** The code-point order of Python strings. *)
Fixpoint str_leb (a b : str) : bool :=
  match a, b with
  | [], _ => true
  | _ :: _, [] => false
  | x :: a', y :: b' => N.ltb x y || (N.eqb x y && str_leb a' b')
  end.

Lemma str_leb_total a b : str_leb a b = true \/ str_leb b a = true.
Proof.
  revert b; induction a as [|x a IH]; intros [|y b]; simpl; auto.
  specialize (IH b). rewrite !orb_true_iff, !andb_true_iff, !N.ltb_lt, !N.eqb_eq.
  destruct (N.lt_trichotomy x y) as [|[->|]]; naive_solver.
Qed.

Lemma str_leb_trans a b c : str_leb a b = true -> str_leb b c = true -> str_leb a c = true.
Proof.
  revert b c; induction a as [|x a IH]; intros [|y b] [|z c]; simpl; try done.
  rewrite !orb_true_iff, !andb_true_iff, !N.ltb_lt, !N.eqb_eq.
  intros [?|[-> ?]] [?|[-> ?]]; try (left; lia). right. split; [done|]. by eapply IH.
Qed.

Lemma str_leb_antisym a b : str_leb a b = true -> str_leb b a = true -> a = b.
Proof.
  revert b; induction a as [|x a IH]; intros [|y b]; simpl; try done.
  rewrite !orb_true_iff, !andb_true_iff, !N.ltb_lt, !N.eqb_eq.
  intros [?|[-> ?]] [?|[? ?]]; try lia. f_equal. by apply IH.
Qed.

Lemma str_leb_refl a : str_leb a a = true.
Proof. destruct (str_leb_total a a); done. Qed.

(** [sorted(l)] on strings and [sorted(set(l))]. *)
Definition sort_str : list str -> list str := py_sort str_leb.

Definition dedup_str (l : list str) : list str :=
  fold_right (fun x acc => if str_in x acc then acc else x :: acc) [] l.

Lemma dedup_str_In x l : In x (dedup_str l) <-> In x l.
Proof.
  induction l as [|y l IH]; simpl; [done|].
  destruct (str_in y (dedup_str l)) eqn:E; simpl; rewrite IH; [|done].
  apply str_in_In in E. split; [auto|]. intros [<-|]; [by apply IH|done].
Qed.

Lemma dedup_str_NoDup l : NoDup (dedup_str l).
Proof.
  induction l as [|y l IH]; simpl; [constructor|].
  destruct (str_in y (dedup_str l)) eqn:E; [done|].
  constructor; [|done]. rewrite list_elem_of_In. by apply str_in_not_In.
Qed.

Definition sorted_set (l : list str) : list str := sort_str (dedup_str l).

Lemma sorted_set_In x l : In x (sorted_set l) <-> In x l.
Proof. unfold sorted_set, sort_str. by rewrite py_sort_In, dedup_str_In. Qed.

Lemma sort_str_Sorted l : Sorted (leR str_leb) (sort_str l).
Proof. apply py_sort_Sorted, str_leb_total. Qed.

Lemma sort_str_NoDup l : NoDup l -> NoDup (sort_str l).
Proof. intros H. by rewrite <- (py_sort_perm str_leb l). Qed.

Lemma sorted_set_id l :
  Sorted (leR str_leb) l -> NoDup l -> sorted_set l = l.
Proof.
  intros Hs Hn. apply (Sorted_perm_eq str_leb str_leb_trans str_leb_antisym).
  - apply sort_str_Sorted.
  - done.
  - unfold sorted_set, sort_str. rewrite <- py_sort_perm. apply NoDup_Permutation; [apply dedup_str_NoDup|done|].
    intros x. by rewrite !list_elem_of_In, dedup_str_In.
Qed.

(** [", ".join(l)] *)
Fixpoint py_join (sep : str) (l : list str) : str :=
  match l with
  | [] => []
  | [x] => x
  | x :: l' => x ++ sep ++ py_join sep l'
  end.
