(* ===== verification/PyStr.v ===== *)
(** Python string operations used by EvoOM Guard: prefixes, searches, splits,
    strips, line splitting, case mapping and [fnmatch].

    Strings are sequences of code points.  Case mapping and decimal digits are
    the only operations that consult the Unicode character database of the
    interpreter; that table is the class [UnicodeDB], whose laws fix the ASCII
    range and what the code relies on outside it.  [ascii_unicode] is an
    executable instance. *)
From S2P Require Import Prelude.

(** ** Characters *)

Definition ch_slash : N := 47.
Definition ch_dot : N := 46.
Definition ch_bslash : N := 92.
Definition ch_colon : N := 58.
Definition ch_dash : N := 45.
Definition ch_bang : N := 33.
Definition ch_lbracket : N := 91.
Definition ch_rbracket : N := 93.
Definition ch_star : N := 42.
Definition ch_qmark : N := 63.
Definition ch_quote : N := 34.
Definition ch_apos : N := 39.
Definition ch_nl : N := 10.
Definition ch_cr : N := 13.

Definition is_ascii (c : N) : bool := (c <? 128)%N.

Definition ascii_lower (c : N) : N :=
  if ((65 <=? c) && (c <=? 90))%N then (c + 32)%N else c.

Definition is_ascii_digit (c : N) : bool := ((48 <=? c) && (c <=? 57))%N.

Definition ascii_letter (c : N) : bool :=
  ((65 <=? c) && (c <=? 90) || (97 <=? c) && (c <=? 122))%N.

(** [str.isspace] of one character, the set [str.strip] removes. *)
Definition is_space (c : N) : bool :=
  ((9 <=? c) && (c <=? 13) || (28 <=? c) && (c <=? 32) || (c =? 133) || (c =? 160)
   || (c =? 5760) || (8192 <=? c) && (c <=? 8202) || (c =? 8232) || (c =? 8233)
   || (c =? 8239) || (c =? 8287) || (c =? 12288))%N.

(** The line boundaries of [str.splitlines] other than the pair CR LF. *)
Definition is_linebreak (c : N) : bool :=
  ((10 <=? c) && (c <=? 13) || (28 <=? c) && (c <=? 30) || (c =? 133)
   || (c =? 8232) || (c =? 8233))%N.

(** ** Prefixes, suffixes, occurrences *)

Fixpoint starts_with (p s : str) : bool :=
  match p, s with
  | [], _ => true
  | x :: p', y :: s' => N.eqb x y && starts_with p' s'
  | _ :: _, [] => false
  end.

Definition ends_with (p s : str) : bool := starts_with (rev p) (rev s).

Lemma starts_with_spec p s : starts_with p s = true <-> exists r, s = p ++ r.
Proof.
  revert s; induction p as [|x p IH]; intros s; simpl; [naive_solver|].
  destruct s as [|y s]; simpl; [split; [done|naive_solver]|].
  rewrite andb_true_iff, N.eqb_eq, IH. naive_solver.
Qed.

Lemma ends_with_spec p s : ends_with p s = true <-> exists r, s = r ++ p.
Proof.
  unfold ends_with. rewrite starts_with_spec. split.
  - intros [r Hr]. exists (rev r). apply (f_equal (@rev N)) in Hr.
    by rewrite rev_involutive, rev_app_distr, rev_involutive in Hr.
  - intros [r ->]. exists (rev r). by rewrite rev_app_distr.
Qed.

(** [s.find(sub)]: the first offset at which [sub] occurs. *)
Fixpoint find (sub s : str) : option nat :=
  if starts_with sub s then Some 0
  else match s with
       | [] => None
       | _ :: s' => S <$> find sub s'
       end.

Definition contains (sub s : str) : bool :=
  match find sub s with Some _ => true | None => false end.

Definition char_in (c : N) (s : str) : bool := existsb (N.eqb c) s.

Lemma char_in_In c s : char_in c s = true <-> In c s.
Proof.
  unfold char_in. rewrite existsb_exists. split.
  - intros (x & Hin & <-%N.eqb_eq). done.
  - intros Hin. exists c. by rewrite N.eqb_refl.
Qed.

Lemma find_some sub s i :
  find sub s = Some i -> exists pre post, s = pre ++ sub ++ post /\ length pre = i.
Proof.
  revert i; induction s as [|x s IH]; intros i; simpl.
  - destruct (starts_with sub []) eqn:E; [|done]. intros [= <-].
    apply starts_with_spec in E as [r Hr]. by exists [], r.
  - destruct (starts_with sub (x :: s)) eqn:E.
    + intros [= <-]. apply starts_with_spec in E as [r Hr]. by exists [], r.
    + destruct (find sub s) as [j|] eqn:Ej; [|done]. intros [= <-].
      destruct (IH j eq_refl) as (pre & post & -> & <-). by exists (x :: pre), post.
Qed.

Lemma find_none sub s : find sub s = None <-> ~ exists pre post, s = pre ++ sub ++ post.
Proof.
  split.
  - induction s as [|x s IH]; simpl; intros Hf (pre & post & Hs).
    + destruct (starts_with sub []) eqn:E; [done|].
      destruct pre; [|done]. apply not_true_iff_false in E. apply E, starts_with_spec.
      by exists post.
    + destruct (starts_with sub (x :: s)) eqn:E; [done|].
      destruct (find sub s) eqn:Ef; [done|].
      destruct pre as [|y pre].
      * apply not_true_iff_false in E. apply E, starts_with_spec. by exists post.
      * injection Hs as <- Hs. apply IH; [done|]. by exists pre, post.
  - intros Hn. destruct (find sub s) as [i|] eqn:E; [|done].
    destruct Hn. apply find_some in E as (pre & post & -> & _). by exists pre, post.
Qed.

(** The occurrence that [find] reports is the leftmost one. *)
Lemma find_least sub pre post i :
  find sub (pre ++ sub ++ post) = Some i -> i <= length pre.
Proof.
  revert i; induction pre as [|x pre IH]; intros i; simpl.
  - destruct (sub ++ post) eqn:E; simpl; rewrite <- E;
      (replace (starts_with sub (sub ++ post)) with true
         by (symmetry; apply starts_with_spec; by exists post)); by intros [= <-].
  - destruct (starts_with _ _); [intros [= <-]; lia|].
    destruct (find sub (pre ++ sub ++ post)) as [j|] eqn:E; [|done].
    intros [= <-]. specialize (IH j eq_refl). lia.
Qed.

(** ** Splits *)

(** [s.split(c)] for a one-character separator. *)
Fixpoint split_char (c : N) (s : str) : list str :=
  match s with
  | [] => [[]]
  | x :: s' =>
      if N.eqb x c then [] :: split_char c s'
      else match split_char c s' with
           | [] => [[x]]
           | w :: ws => (x :: w) :: ws
           end
  end.

(** [s.split(c, 1)[0]]: what precedes the first [c]. *)
Fixpoint before_char (c : N) (s : str) : str :=
  match s with
  | [] => []
  | x :: s' => if N.eqb x c then [] else x :: before_char c s'
  end.

(** [s.rsplit(c, 1)[-1]] and [s.split(c)[-1]]: what follows the last [c]. *)
Definition after_last (c : N) (s : str) : str := List.last (split_char c s) [].

Definition path_parts (p : str) : list str := split_char ch_slash p.

Lemma split_char_nonempty c s : split_char c s <> [].
Proof. destruct s as [|x s]; simpl; [done|]. destruct (x =? c)%N; [done|]. by destruct (split_char c s). Qed.

Lemma split_char_no_sep c s w : In w (split_char c s) -> ~ In c w.
Proof.
  revert w; induction s as [|x s IH]; simpl; intros w.
  - intros [<-|[]]. by intros [].
  - destruct (N.eqb_spec x c) as [->|Hx].
    + intros [<-|Hin]; [by intros []|by apply IH].
    + destruct (split_char c s) as [|v vs] eqn:E; [by apply split_char_nonempty in E|].
      intros [<-|Hin]; [|apply IH; by right].
      intros [->|Hin]; [done|]. by apply (IH v (or_introl eq_refl)).
Qed.

Lemma split_join c s : py_join [c] (split_char c s) = s.
Proof.
  induction s as [|x s IH]; simpl; [done|].
  destruct (N.eqb_spec x c) as [->|Hx]; simpl.
  - destruct (split_char c s) eqn:E; [by apply split_char_nonempty in E|].
    rewrite <- IH. done.
  - destruct (split_char c s) as [|v vs] eqn:E; [by apply split_char_nonempty in E|].
    rewrite <- IH. destruct vs; done.
Qed.

Lemma split_char_inj c s s' : split_char c s = split_char c s' -> s = s'.
Proof. intros H. by rewrite <- (split_join c s), H, split_join. Qed.

Lemma split_char_app c w s :
  ~ In c w -> split_char c (w ++ c :: s) = w :: split_char c s.
Proof.
  induction w as [|x w IH]; simpl; intros Hn; [by rewrite N.eqb_refl|].
  destruct (N.eqb_spec x c) as [->|]; [naive_solver|]. by rewrite IH by naive_solver.
Qed.

Lemma split_char_single c w : ~ In c w -> split_char c w = [w].
Proof.
  induction w as [|x w IH]; simpl; intros Hn; [done|].
  destruct (N.eqb_spec x c) as [->|]; [naive_solver|]. by rewrite IH by naive_solver.
Qed.

Lemma split_char_prefix c f t v vs :
  ~ In c f -> split_char c t = v :: vs -> split_char c (f ++ t) = (f ++ v) :: vs.
Proof.
  intros Hn Ht. induction f as [|y f IH]; simpl; [done|].
  destruct (N.eqb_spec y c) as [->|]; [naive_solver|]. by rewrite IH by naive_solver.
Qed.

(** ** Strips *)

Fixpoint drop_while (f : N -> bool) (s : str) : str :=
  match s with
  | x :: s' => if f x then drop_while f s' else s
  | [] => []
  end.

Definition lstrip_by (f : N -> bool) (s : str) : str := drop_while f s.
Definition rstrip_by (f : N -> bool) (s : str) : str := rev (drop_while f (rev s)).
Definition strip_by (f : N -> bool) (s : str) : str := rstrip_by f (lstrip_by f s).

(** [s.strip()], [s.rstrip()] *)
Definition strip : str -> str := strip_by is_space.
Definition rstrip : str -> str := rstrip_by is_space.

(** [s.rstrip(" .")] *)
Definition rstrip_space_dot : str -> str := rstrip_by (fun c => (c =? 32) || (c =? 46))%N.

Lemma drop_while_suffix f s : exists p, s = p ++ drop_while f s /\ forallb f p = true.
Proof.
  induction s as [|x s (p & Hs & Hp)]; simpl; [by exists []|].
  destruct (f x) eqn:E; [|by exists []]. exists (x :: p). simpl. by rewrite E, Hp, <- Hs.
Qed.

Lemma rstrip_by_prefix f s : exists p, s = rstrip_by f s ++ p /\ forallb f p = true.
Proof.
  unfold rstrip_by. destruct (drop_while_suffix f (rev s)) as (p & Hs & Hp).
  exists (rev p). split.
  - rewrite <- rev_app_distr, <- Hs. by rewrite rev_involutive.
  - rewrite forallb_forall in *. intros x Hx. apply Hp. by rewrite in_rev.
Qed.

Lemma strip_by_split f s :
  exists p q, s = p ++ strip_by f s ++ q /\ forallb f p = true /\ forallb f q = true.
Proof.
  unfold strip_by. destruct (drop_while_suffix f s) as (p & Hs & Hp).
  destruct (rstrip_by_prefix f (lstrip_by f s)) as (q & Hq & Hq').
  exists p, q. split; [|done]. rewrite <- Hq. done.
Qed.

(** ** Lines *)

(** [s.splitlines()] *)
Fixpoint splitlines_acc (acc : str) (s : str) : list str :=
  match s with
  | [] => match acc with [] => [] | _ => [rev acc] end
  | x :: s' =>
      if N.eqb x ch_cr then
        match s' with
        | y :: s'' => if N.eqb y ch_nl then rev acc :: splitlines_acc [] s''
                      else rev acc :: splitlines_acc [] s'
        | [] => [rev acc]
        end
      else if is_linebreak x then rev acc :: splitlines_acc [] s'
      else splitlines_acc (x :: acc) s'
  end.

Definition splitlines (s : str) : list str := splitlines_acc [] s.

(** ** Case mapping and digits *)

(** The interpreter's Unicode character database, as far as the program
    consults it: [str.casefold] maps each code point to its full folding,
    [str.lower] is given on whole strings (it is context sensitive for one
    letter), [ucd_decimal] is the value of a decimal digit ([\d] and [int]). *)
Class UnicodeDB := {
  ucd_fold : N -> str;
  py_lower : str -> str;
  ucd_decimal : N -> option N;
  (** [str.isprintable] of a character outside ASCII *)
  ucd_printable : N -> bool;
  (** ASCII letters fold to lower case, other ASCII characters to themselves. *)
  ucd_fold_ascii : forall c, is_ascii c = true -> ucd_fold c = [ascii_lower c];
  (** A character outside ASCII never folds to an ASCII non-letter. *)
  ucd_fold_other : forall c d, is_ascii c = false -> In d (ucd_fold c) ->
    is_ascii d = true -> ascii_letter d = true;
  (** No character folds to the empty string. *)
  ucd_fold_nonempty : forall c, ucd_fold c <> [];
  py_lower_ascii : forall s, forallb is_ascii s = true -> py_lower s = map ascii_lower s;
  (** Lower-casing a string that has a non-ASCII character leaves a non-ASCII
      character, or an 'i' (from U+0130) or a 'k' (from U+212A). *)
  py_lower_other : forall s, forallb is_ascii s = false ->
    exists d, In d (py_lower s) /\ (is_ascii d = false \/ d = 105%N \/ d = 107%N);
  ucd_decimal_ascii : forall c, is_ascii c = true ->
    ucd_decimal c = if is_ascii_digit c then Some (c - 48)%N else None;
  ucd_decimal_bound : forall c d, ucd_decimal c = Some d -> (d < 10)%N
}.

Definition casefold `{UnicodeDB} (s : str) : str := flat_map ucd_fold s.

(** [repr(s)]: quotes, escapes of the quote, the backslash, control characters
    and characters that are not printable. *)
Definition hex_digit_char (n : N) : N := (if n <? 10 then 48 + n else 87 + n)%N.
Fixpoint hex_chars (width : nat) (n : N) : str :=
  match width with
  | O => []
  | S w => hex_chars w (n / 16) ++ [hex_digit_char (n mod 16)]
  end.

Definition repr_char `{UnicodeDB} (quote c : N) : str :=
  if N.eqb c quote || N.eqb c ch_bslash then [ch_bslash; c]
  else if N.eqb c 9 then u "\t" else if N.eqb c 10 then u "\n" else if N.eqb c 13 then u "\r"
  else if ((c <? 32) || (c =? 127))%N then u "\x" ++ hex_chars 2 c
  else if is_ascii c || ucd_printable c then [c]
  else if (c <? 256)%N then u "\x" ++ hex_chars 2 c
  else if (c <? 65536)%N then u "\u" ++ hex_chars 4 c
  else u "\U" ++ hex_chars 8 c.

Definition py_repr `{UnicodeDB} (s : str) : str :=
  let quote := if char_in ch_apos s && negb (char_in ch_quote s) then ch_quote else ch_apos in
  quote :: flat_map (repr_char quote) s ++ [quote].

(** The restriction of the database to ASCII. *)
Definition ascii_unicode : UnicodeDB.
Proof.
  refine {|
    ucd_fold c := [ascii_lower c];
    py_lower s := map ascii_lower s;
    ucd_decimal c := if is_ascii_digit c then Some (c - 48)%N else None;
    ucd_printable c := false
  |}; try done.
  - intros c d Hc [<-|[]] Hd. unfold is_ascii, ascii_lower, ascii_letter in *.
    destruct ((65 <=? c) && (c <=? 90))%N eqn:E; brefl; lia.
  - intros s (c & Hc & Ha)%forallb_false. exists (ascii_lower c). split; [by apply in_map|]. left.
    unfold is_ascii, ascii_lower in *. destruct ((65 <=? c) && (c <=? 90))%N eqn:E; brefl; lia.
  - intros c d. unfold is_ascii_digit.
    destruct ((48 <=? c) && (c <=? 57))%N eqn:E; [|done]. intros [= <-]. brefl. lia.
Defined.

Section Casefold.
Context `{UnicodeDB}.

Lemma casefold_app s t : casefold (s ++ t) = casefold s ++ casefold t.
Proof. unfold casefold. by rewrite flat_map_app. Qed.

Lemma casefold_ascii s : forallb is_ascii s = true -> casefold s = map ascii_lower s.
Proof.
  unfold casefold. induction s as [|c s IH]; simpl; [done|].
  rewrite andb_true_iff. intros [Hc Hs]. rewrite ucd_fold_ascii by done. simpl. by rewrite IH.
Qed.

Lemma casefold_nil s : casefold s = [] <-> s = [].
Proof.
  split; [|by intros ->]. destruct s as [|c s]; simpl; [done|].
  intros [Hc _]%app_eq_nil. by apply ucd_fold_nonempty in Hc.
Qed.

(** Folding neither creates nor removes an ASCII character that is not a
    letter; in particular it preserves the path separators. *)
Lemma casefold_In_nonletter c s :
  is_ascii c = true -> ascii_letter c = false -> In c (casefold s) <-> In c s.
Proof.
  intros Ha Hl. unfold casefold. rewrite in_flat_map. split.
  - intros (x & Hx & Hin). destruct (is_ascii x) eqn:Ex.
    + rewrite ucd_fold_ascii in Hin by done. destruct Hin as [<-|[]].
      unfold ascii_lower, ascii_letter in *.
      destruct ((65 <=? x) && (x <=? 90))%N eqn:E; [|done]. brefl. lia.
    + assert (ascii_letter c = true) by by eapply ucd_fold_other. congruence.
  - intros Hin. exists c. split; [done|]. rewrite ucd_fold_ascii by done. left.
    unfold ascii_lower, ascii_letter in *.
    destruct ((65 <=? c) && (c <=? 90))%N eqn:E; [|done]. brefl. lia.
Qed.

Lemma split_char_casefold c s :
  is_ascii c = true -> ascii_letter c = false ->
  split_char c (casefold s) = map casefold (split_char c s).
Proof.
  intros Ha Hl. induction s as [|x s IH]; simpl; [done|].
  assert (Hc : ucd_fold c = [c]).
  { rewrite ucd_fold_ascii by done. f_equal. unfold ascii_lower, ascii_letter in *.
    destruct ((65 <=? c) && (c <=? 90))%N eqn:E; [|done]. brefl. lia. }
  destruct (N.eqb_spec x c) as [->|Hx].
  - rewrite Hc. simpl. rewrite N.eqb_refl. by rewrite IH.
  - destruct (split_char c s) as [|w ws] eqn:E; [by apply split_char_nonempty in E|].
    apply (split_char_prefix c (ucd_fold x) (casefold s) (casefold w)); [|done].
    intros Hin. apply Hx. pose proof (proj1 (casefold_In_nonletter c [x] Ha Hl)) as Hr.
    simpl in Hr. rewrite app_nil_r in Hr. destruct (Hr Hin) as [|[]]; done.
Qed.
End Casefold.

Example repr_samples :
  map (@py_repr ascii_unicode) [u "docker"; u "it's"; [39; 34; 92; 10; 27; 233; 8212]%N]
  = [u "'docker'"; 34%N :: u "it's" ++ [34%N]; u "'\'" ++ [34%N] ++ u "\\\n\x1b\xe9\u2014'"].
Proof. vm_compute. reflexivity. Qed.

(** [s.split()] *)
Fixpoint split_words (word : str) (s : str) : list str :=
  let flush := match word with [] => [] | _ => [rev word] end in
  match s with
  | [] => flush
  | c :: s' => if is_space c then flush ++ split_words [] s' else split_words (c :: word) s'
  end.
Definition py_split (s : str) : list str := split_words [] s.

(** ** [int(s)]: digits with single underscores between them, at most 4300 *)

Fixpoint int_literal `{UnicodeDB} (acc : Z) (after_digit : bool) (s : str) : option Z :=
  match s with
  | [] => if after_digit then Some acc else None
  | c :: s' =>
      match ucd_decimal c with
      | Some d => int_literal (acc * 10 + Z.of_N d)%Z true s'
      | None => if N.eqb c 95 && after_digit then int_literal acc false s' else None
      end
  end.

Definition count_digits `{UnicodeDB} (s : str) : nat :=
  length (List.filter (fun c => match ucd_decimal c with Some _ => true | None => false end) s).

Definition int_of_text `{UnicodeDB} (s : str) : option Z :=
  let s := strip s in
  let '(neg, digits) := match s with
                        | c :: s' => if N.eqb c ch_dash then (true, s')
                                     else if N.eqb c 43 then (false, s') else (false, s)
                        | [] => (false, s)
                        end in
  if Nat.leb (count_digits digits) 4300 then
    (fun n => if neg : bool then (- n)%Z else n) <$> int_literal 0 false digits
  else None.
