(* ===== verification/Glob.v ===== *)
(** [fnmatch.fnmatch]: shell-style patterns over strings, on a POSIX host where
    [os.path.normcase] is the identity.

    A pattern is translated once into tokens ([glob_parse] follows the
    standard library's [fnmatch.translate], character classes included) and the
    tokens are matched against the whole name.  [gmatches] is the declarative
    meaning of the tokens, [gmatch_spec] relates the two. *)
From S2P Require Import Prelude PyStr.

Inductive citem :=
| CSingle (c : N)
| CRange (lo hi : N).

Inductive gtok :=
| GStar
| GAny
| GLit (c : N)
| GClass (neg : bool) (items : list citem).

(** ** Parsing *)

Fixpoint break_at (c : N) (s : str) : option (str * str) :=
  match s with
  | [] => None
  | x :: s' =>
      if N.eqb x c then Some ([], s')
      else match break_at c s' with
           | Some (a, b) => Some (x :: a, b)
           | None => None
           end
  end.

Definition take_char (c : N) (s : str) : str * str :=
  match s with
  | x :: s' => if N.eqb x c then ([x], s') else ([], s)
  | [] => ([], [])
  end.

(** The text between the brackets of a class and what follows it. *)
Definition class_span (s : str) : option (str * str) :=
  let '(h1, s1) := take_char ch_bang s in
  let '(h2, s2) := take_char ch_rbracket s1 in
  match break_at ch_rbracket s2 with
  | Some (m, rest) => Some (h1 ++ h2 ++ m, rest)
  | None => None
  end.

(** Cut the class text at the dashes that denote ranges; [skip] characters must
    precede the next such dash. *)
Fixpoint class_chunks (skip : nat) (cur : str) (s : str) : list str :=
  match s with
  | [] => [rev cur]
  | x :: s' =>
      match skip with
      | O => if N.eqb x ch_dash then rev cur :: class_chunks 2 [] s'
             else class_chunks 0 (x :: cur) s'
      | S k => class_chunks k (x :: cur) s'
      end
  end.

(** A trailing range dash is literal. *)
Fixpoint close_chunks (l : list str) : list str :=
  match l with
  | [x; []] => [x ++ [ch_dash]]
  | x :: l' => x :: close_chunks l'
  | [] => []
  end.

(** Drop the ranges whose bounds are out of order. *)
Definition drop_empty_ranges (l : list str) : list str :=
  fold_right
    (fun x acc =>
       match acc with
       | [] => [x]
       | y :: ys =>
           if (List.hd 0 y <? List.last x 0)%N
           then (removelast x ++ List.tl y) :: ys else x :: y :: ys
       end) [] l.

Inductive ctok := CL (c : N) | CD.

Fixpoint class_tokens (l : list str) : list ctok :=
  match l with
  | [] => []
  | [x] => map CL x
  | x :: l' => map CL x ++ CD :: class_tokens l'
  end.

Fixpoint class_items (l : list ctok) : list citem :=
  match l with
  | [] => []
  | CL a :: CD :: CL b :: l' => CRange a b :: class_items l'
  | CL a :: l' => CSingle a :: class_items l'
  | CD :: l' => CSingle ch_dash :: class_items l'
  end.

Definition parse_class (stuff : str) : gtok :=
  let skip := match stuff with x :: _ => if N.eqb x ch_bang then 2 else 1 | [] => 1 end in
  let toks := class_tokens (drop_empty_ranges (close_chunks (class_chunks skip [] stuff))) in
  match toks with
  | CL x :: toks' =>
      if N.eqb x ch_bang then GClass true (class_items toks') else GClass false (class_items toks)
  | _ => GClass false (class_items toks)
  end.

Fixpoint glob_parse_fuel (fuel : nat) (p : str) : list gtok :=
  match fuel, p with
  | O, _ | _, [] => []
  | S n, x :: p' =>
      if N.eqb x ch_star then GStar :: glob_parse_fuel n p'
      else if N.eqb x ch_qmark then GAny :: glob_parse_fuel n p'
      else if N.eqb x ch_lbracket then
        match class_span p' with
        | Some (stuff, rest) => parse_class stuff :: glob_parse_fuel n rest
        | None => GLit x :: glob_parse_fuel n p'
        end
      else GLit x :: glob_parse_fuel n p'
  end.

Definition glob_parse (p : str) : list gtok := glob_parse_fuel (length p) p.

Lemma break_at_length c s a b : break_at c s = Some (a, b) -> (length b <= length s)%nat.
Proof.
  revert a b. induction s as [|x s IH]; intros a b Hb; simpl in *; [done|].
  destruct (N.eqb x c); [injection Hb as _ <-; lia|].
  destruct (break_at c s) as [[a' b']|] eqn:E; [|done]. injection Hb as _ <-. specialize (IH _ _ eq_refl). lia.
Qed.

Lemma take_char_length c s : (length (snd (take_char c s)) <= length s)%nat.
Proof. destruct s as [|x s]; simpl; [lia|]. destruct (N.eqb x c); simpl; lia. Qed.

Lemma class_span_length s stuff rest : class_span s = Some (stuff, rest) -> (length rest <= length s)%nat.
Proof.
  unfold class_span. pose proof (take_char_length ch_bang s) as H1.
  destruct (take_char ch_bang s) as [h1 s1]. pose proof (take_char_length ch_rbracket s1) as H2.
  destruct (take_char ch_rbracket s1) as [h2 s2]. simpl in *.
  destruct (break_at ch_rbracket s2) as [[m r]|] eqn:E; [|done]. apply break_at_length in E.
  intros [= _ <-]. lia.
Qed.

(** The length of the pattern is enough fuel: more changes nothing. *)
Lemma glob_parse_enough fuel p : (length p <= fuel)%nat -> glob_parse_fuel fuel p = glob_parse p.
Proof.
  unfold glob_parse. assert (Hboth : forall n m q, (length q <= n)%nat -> (length q <= m)%nat ->
    glob_parse_fuel n q = glob_parse_fuel m q); [|intros; by apply Hboth].
  induction n as [|n IH]; intros m [|x q] Hn Hm; simpl in Hn; try (destruct m; done); try lia.
  destruct m as [|m]; simpl in Hm; [lia|]. cbn [glob_parse_fuel].
  rewrite (IH m q) by lia. destruct (class_span q) as [[st r]|] eqn:E; [|done].
  apply class_span_length in E. by rewrite (IH m r) by lia.
Qed.

(** ** Matching *)

Definition item_match (c : N) (i : citem) : bool :=
  match i with
  | CSingle x => N.eqb c x
  | CRange lo hi => (lo <=? c)%N && (c <=? hi)%N
  end.

Definition char_match (c : N) (t : gtok) : bool :=
  match t with
  | GStar => false
  | GAny => true
  | GLit x => N.eqb c x
  | GClass neg items => xorb neg (existsb (item_match c) items)
  end.

Fixpoint gmatch (toks : list gtok) (s : str) : bool :=
  match toks with
  | [] => match s with [] => true | _ => false end
  | GStar :: ts =>
      (fix star (s : str) : bool :=
         gmatch ts s || match s with [] => false | _ :: s' => star s' end) s
  | t :: ts => match s with
               | c :: s' => char_match c t && gmatch ts s'
               | [] => false
               end
  end.

(** [fnmatch(name, pat)] *)
Definition fnmatch (name pat : str) : bool := gmatch (glob_parse pat) name.

(** ** Declarative meaning *)

Inductive gmatches : list gtok -> str -> Prop :=
| gm_nil : gmatches [] []
| gm_star ts s1 s2 : gmatches ts s2 -> gmatches (GStar :: ts) (s1 ++ s2)
| gm_char t ts c s : t <> GStar -> char_match c t = true -> gmatches ts s ->
    gmatches (t :: ts) (c :: s).

Lemma gmatch_star ts s :
  gmatch (GStar :: ts) s = true <-> exists s1 s2, s = s1 ++ s2 /\ gmatch ts s2 = true.
Proof.
  induction s as [|c s IH].
  - simpl. rewrite orb_false_r. split; [intros H; by exists [], []|].
    intros (s1 & s2 & Hs & H). symmetry in Hs. by apply app_eq_nil in Hs as [-> ->].
  - change (gmatch (GStar :: ts) (c :: s))
      with (gmatch ts (c :: s) || gmatch (GStar :: ts) s).
    rewrite orb_true_iff, IH. split.
    + intros [H|(s1 & s2 & -> & H)]; [by exists [], (c :: s)|by exists (c :: s1), s2].
    + intros ([|d s1] & s2 & Hs & H); simpl in Hs; [left; by subst|].
      injection Hs as <- ->. right. by exists s1, s2.
Qed.

Lemma gmatch_spec ts s : gmatch ts s = true <-> gmatches ts s.
Proof.
  revert s. induction ts as [|t ts IH]; intros s.
  - simpl. destruct s; split; try done; [constructor|inversion 1].
  - destruct (match t with GStar => true | _ => false end) eqn:Et.
    + destruct t; try done. rewrite gmatch_star. split.
      * intros (s1 & s2 & -> & H). constructor. by apply IH.
      * inversion 1; subst; [|done]. exists s1, s2. split; [done|]. by apply IH.
    + destruct s as [|c s].
      * split; [by destruct t|]. inversion 1; subst; done.
      * replace (gmatch (t :: ts) (c :: s)) with (char_match c t && gmatch ts s) by by destruct t.
        rewrite andb_true_iff, IH. split.
        -- intros [H1 H2]. constructor; [by destruct t|done|done].
        -- inversion 1; subst; [done|]. done.
Qed.

Definition glob_special (c : N) : bool :=
  N.eqb c ch_star || N.eqb c ch_qmark || N.eqb c ch_lbracket.

Lemma glob_parse_lits fuel p rest :
  forallb (fun c => negb (glob_special c)) p = true ->
  glob_parse_fuel (length p + fuel) (p ++ rest) = map GLit p ++ glob_parse_fuel fuel rest.
Proof.
  induction p as [|c p IH]; simpl; [done|]. unfold glob_special.
  rewrite andb_true_iff, negb_true_iff, !orb_false_iff.
  intros [[[-> ->] ->] Hp]. by rewrite IH.
Qed.

Lemma gmatch_lits p ts s :
  gmatch (map GLit p ++ ts) s = true <-> exists s', s = p ++ s' /\ gmatch ts s' = true.
Proof.
  revert s; induction p as [|c p IH]; intros s; simpl; [naive_solver|].
  destruct s as [|d s]; [split; [done|naive_solver]|].
  rewrite andb_true_iff, N.eqb_eq, IH. naive_solver.
Qed.

(** A pattern without special characters matches only itself. *)
Lemma fnmatch_literal p s :
  forallb (fun c => negb (glob_special c)) p = true -> fnmatch s p = true <-> s = p.
Proof.
  intros Hp. unfold fnmatch, glob_parse. pose proof (glob_parse_lits 0 p [] Hp) as Hl.
  rewrite Nat.add_0_r, app_nil_r in Hl. rewrite Hl. simpl. rewrite gmatch_lits.
  split.
  - intros ([|? ?] & -> & H); [by rewrite app_nil_r|done].
  - intros ->. exists []. by rewrite app_nil_r.
Qed.

(** [prefix*] matches exactly the names with that prefix. *)
Lemma fnmatch_prefix p s :
  forallb (fun c => negb (glob_special c)) p = true ->
  fnmatch s (p ++ [ch_star]) = true <-> starts_with p s = true.
Proof.
  intros Hp. unfold fnmatch, glob_parse. rewrite length_app, glob_parse_lits by done.
  rewrite gmatch_lits, starts_with_spec. split.
  - intros (s' & -> & _). by exists s'.
  - intros (r & ->). exists r. split; [done|]. apply gmatch_star. exists r, [].
    by rewrite app_nil_r.
Qed.

(** [*suffix] matches exactly the names with that suffix. *)
Lemma fnmatch_suffix p s :
  forallb (fun c => negb (glob_special c)) p = true ->
  fnmatch s (ch_star :: p) = true <-> ends_with p s = true.
Proof.
  intros Hp. unfold fnmatch, glob_parse. simpl length.
  change (glob_parse_fuel (S (length p)) (ch_star :: p))
    with (GStar :: glob_parse_fuel (length p) p).
  pose proof (glob_parse_lits 0 p [] Hp) as Hl. rewrite Nat.add_0_r, app_nil_r in Hl.
  rewrite Hl, gmatch_star, ends_with_spec. simpl. split.
  - intros (s1 & s2 & -> & H). apply gmatch_lits in H as ([|? ?] & -> & H); [|done].
    exists s1. by rewrite app_nil_r.
  - intros (r & ->). exists r, p. split; [done|]. apply gmatch_lits. exists [].
    by rewrite app_nil_r.
Qed.

Example glob_ex1 : map (fun n => fnmatch n "test_*.py") (us ["test_a.py"; "test.py"; "test_.pyc"])
                   = [true; false; false].
Proof. reflexivity. Qed.
Example glob_ex2 : map (fun n => fnmatch n "[!a-c]x[]-]") (us ["dx]"; "dx-"; "ax]"; "dxx"])
                   = [true; true; false; false].
Proof. reflexivity. Qed.
Example glob_ex3 : map (fun n => fnmatch n "[b-a!x]") (us ["x"; "!"; "q"]) = [false; true; true].
Proof. reflexivity. Qed.
