(* ===== verification/PyFloat.v ===== *)
(** Python numbers: binary64 floats (through the executable, axiom-free
    [SpecFloat] of the Standard Library), their exact comparison with integers,
    true division, [round(x, 1)], [as_integer_ratio] and [repr]. *)
From Stdlib Require Import Floats.SpecFloat.
From S2P Require Export Prelude.
Open Scope Z_scope.

(** ** binary64 *)

Definition prec : Z := 53.
Definition emax : Z := 1024.

Abbreviation float := spec_float.

Definition fadd : float -> float -> float := SFadd prec emax.
Definition fsub : float -> float -> float := SFsub prec emax.
Definition fmul : float -> float -> float := SFmul prec emax.
Definition fdiv : float -> float -> float := SFdiv prec emax.

(** [float(z)] for an integer in range. *)
Definition float_of_Z (z : Z) : float := binary_normalize prec emax z 0 false.

(** [a / b] on integers: the correctly rounded quotient ([b <> 0]). *)
Definition int_truediv (a b : Z) : float :=
  match a, b with
  | Zpos p, Zpos q => fdiv (S754_finite false p 0) (S754_finite false q 0)
  | Zneg p, Zneg q => fdiv (S754_finite false p 0) (S754_finite false q 0)
  | Zneg p, Zpos q => fdiv (S754_finite true p 0) (S754_finite false q 0)
  | Zpos p, Zneg q => fdiv (S754_finite true p 0) (S754_finite false q 0)
  | Z0, Zneg _ => S754_zero true
  | _, _ => S754_zero false
  end.

(** Decimal literals of the source: the float nearest to [n / 10^d]. *)
Definition dec (n : Z) (d : Z) : float := int_truediv n (10 ^ d).

Definition is_finite (x : float) : bool :=
  match x with S754_zero _ | S754_finite _ _ _ => true | _ => false end.

(** ** Exact comparison *)

(** An integer or a float, as the numeric tower of the language compares them. *)
Inductive num := NInt (z : Z) | NFloat (f : float).

(** A finite float as the integer it denotes times [2^e]. *)
Definition sf_scaled (f : float) : option (Z * Z) :=
  match f with
  | S754_zero _ => Some (0, 0)
  | S754_finite s m e => Some (if s then Zneg m else Zpos m, e)
  | _ => None
  end.

Definition cmp_scaled (a ea b eb : Z) : comparison :=
  if ea <=? eb then Z.compare a (b * 2 ^ (eb - ea)) else Z.compare (a * 2 ^ (ea - eb)) b.

Definition sf_is_inf (f : float) : option bool :=
  match f with S754_infinity s => Some s | _ => None end.

(** [None] stands for the unordered comparison with NaN. *)
Definition num_cmp (x y : num) : option comparison :=
  match x, y with
  | NInt a, NInt b => Some (Z.compare a b)
  | NFloat f, NFloat g =>
      match sf_scaled f, sf_scaled g with
      | Some (a, ea), Some (b, eb) => Some (cmp_scaled a ea b eb)
      | _, _ => SFcompare f g
      end
  | NInt a, NFloat g =>
      match sf_scaled g with
      | Some (b, eb) => Some (cmp_scaled a 0 b eb)
      | None => match sf_is_inf g with Some s => Some (if s then Gt else Lt) | None => None end
      end
  | NFloat f, NInt b =>
      match sf_scaled f with
      | Some (a, ea) => Some (cmp_scaled a ea b 0)
      | None => match sf_is_inf f with Some s => Some (if s then Lt else Gt) | None => None end
      end
  end.

Definition num_leb (x y : num) : bool :=
  match num_cmp x y with Some Lt | Some Eq => true | _ => false end.
Definition num_ltb (x y : num) : bool :=
  match num_cmp x y with Some Lt => true | _ => false end.
Definition num_eqb (x y : num) : bool :=
  match num_cmp x y with Some Eq => true | _ => false end.

Definition fleb (x y : float) : bool := num_leb (NFloat x) (NFloat y).
Definition fltb (x y : float) : bool := num_ltb (NFloat x) (NFloat y).
Definition feqb (x y : float) : bool := num_eqb (NFloat x) (NFloat y).

(** [min(a, b)]: the second argument only when it is strictly smaller. *)
Definition fmin (a b : float) : float := if fltb b a then b else a.

Lemma cmp_scaled_spec a ea b eb k :
  k <= ea -> k <= eb ->
  cmp_scaled a ea b eb = Z.compare (a * 2 ^ (ea - k)) (b * 2 ^ (eb - k)).
Proof.
  intros Ha Hb. unfold cmp_scaled.
  assert (Hs : forall x y d, 0 <= d -> Z.compare (x * 2 ^ d) (y * 2 ^ d) = Z.compare x y).
  { intros x y d Hd. pose proof (Z.pow_pos_nonneg 2 d ltac:(lia) Hd).
    destruct (Z.compare_spec x y) as [->|Hc|Hc].
    - apply Z.compare_refl.
    - apply Z.compare_lt_iff. nia.
    - apply Z.compare_gt_iff. nia. }
  destruct (Z.leb_spec ea eb).
  - rewrite <- (Hs a (b * 2 ^ (eb - ea)) (ea - k)) by lia.
    rewrite <- Z.mul_assoc, <- Z.pow_add_r by lia. do 3 f_equal. lia.
  - rewrite <- (Hs (a * 2 ^ (ea - eb)) b (eb - k)) by lia.
    rewrite <- Z.mul_assoc, <- Z.pow_add_r by lia. do 3 f_equal. lia.
Qed.

Lemma cmp_scaled_refl a e : cmp_scaled a e a e = Eq.
Proof. rewrite (cmp_scaled_spec a e a e e) by lia. apply Z.compare_refl. Qed.

Lemma fleb_refl x : is_finite x = true -> fleb x x = true.
Proof.
  unfold fleb, num_leb, num_cmp. destruct x; try done; intros _; simpl;
    by rewrite ?cmp_scaled_refl.
Qed.

Lemma fltb_fleb x y : fltb x y = true -> fleb x y = true.
Proof. unfold fltb, fleb, num_ltb, num_leb. by destruct (num_cmp _ _) as [[]|]. Qed.

(** [min(a, x)] never exceeds a finite [a]. *)
Lemma fmin_le_l a x : is_finite a = true -> fleb (fmin a x) a = true.
Proof.
  intros Ha. unfold fmin. destruct (fltb x a) eqn:E; [by apply fltb_fleb|by apply fleb_refl].
Qed.

(** ** Non-negative floats *)

(** Neither NaN nor below zero. *)
Definition fnonneg (x : float) : bool :=
  match x with
  | S754_zero _ => true
  | S754_finite s _ _ | S754_infinity s => negb s
  | S754_nan => false
  end.

Lemma shr_1_nonneg r : 0 <= shr_m r -> 0 <= shr_m (shr_1 r).
Proof. destruct r as [[|[p|p|]|[p|p|]] ? ?]; simpl; lia. Qed.

Lemma shr_nonneg r e n : 0 <= shr_m r -> 0 <= shr_m (fst (shr r e n)).
Proof.
  destruct n as [|p|p]; simpl; try done. revert r.
  induction p as [p IH|p IH|]; intros r Hr; simpl; auto using shr_1_nonneg.
Qed.

Lemma shr_fexp_nonneg m e l : 0 <= m -> 0 <= shr_m (fst (shr_fexp prec emax m e l)).
Proof. intros Hm. apply shr_nonneg. by destruct l as [|[]]. Qed.

Lemma binary_round_aux_nonneg m e l :
  0 <= m -> fnonneg (binary_round_aux prec emax false m e l) = true.
Proof.
  intros Hm. unfold binary_round_aux.
  pose proof (shr_fexp_nonneg m e l Hm) as H1.
  destruct (shr_fexp prec emax m e l) as [r1 e1]. simpl in H1.
  set (m1 := round_nearest_even _ _).
  assert (0 <= m1) as H2.
  { subst m1. destruct (loc_of_shr_record r1) as [|[]]; simpl; try lia. destruct (Z.even _); lia. }
  pose proof (shr_fexp_nonneg m1 e1 loc_Exact H2) as H3.
  destruct (shr_fexp prec emax m1 e1 loc_Exact) as [r2 e2]. simpl in H3.
  destruct (shr_m r2); [done|by destruct (e2 <=? _)|lia].
Qed.

Lemma fmul_nonneg x y :
  is_finite x = true -> is_finite y = true -> fnonneg x = true -> fnonneg y = true ->
  fnonneg (fmul x y) = true.
Proof.
  destruct x as [| | |[]], y as [| | |[]]; try done. intros _ _ _ _.
  apply binary_round_aux_nonneg. lia.
Qed.

Lemma fadd_nonneg x y : fnonneg x = true -> fnonneg y = true -> fnonneg (fadd x y) = true.
Proof.
  destruct x as [[]|[]| |[]], y as [[]|[]| |[]]; try done. intros _ _.
  unfold fadd, SFadd, cond_Zopp.
  match goal with |- context [binary_normalize _ _ ?t _ _] =>
    assert (0 < t) by lia; destruct t end; [done| |lia].
  unfold binary_normalize, binary_round. destruct (shl_align _ _ _). apply binary_round_aux_nonneg. lia.
Qed.

Lemma int_truediv_nonneg a b : 0 <= a -> 0 < b -> fnonneg (int_truediv a b) = true.
Proof.
  intros Ha Hb. destruct a as [|p|], b as [|q|]; try lia; [done|]. simpl.
  unfold fdiv, SFdiv. destruct (SFdiv_core_binary _ _ _ _ _ _) as [[m e] l] eqn:E.
  apply binary_round_aux_nonneg. unfold SFdiv_core_binary in E.
  destruct (Z.div_eucl _ _) as [q' r] eqn:Ed. injection E as <- <- <-.
  match type of Ed with Z.div_eucl ?x _ = _ => assert (0 <= x) as Hx end.
  { destruct (_ - _ - _) eqn:Es; try lia. apply Z.shiftl_nonneg. lia. }
  match type of Ed with Z.div_eucl ?x ?y = _ =>
    replace q' with (x / y) by (unfold Z.div; by rewrite Ed) end.
  apply Z.div_pos; lia.
Qed.

Lemma fmin_nonneg a b : fnonneg a = true -> fnonneg b = true -> fnonneg (fmin a b) = true.
Proof. unfold fmin. by destruct (fltb b a). Qed.

Lemma fmin_finite a b :
  is_finite a = true -> fnonneg b = true -> is_finite (fmin a b) = true.
Proof.
  intros Ha Hb. unfold fmin. destruct (fltb b a) eqn:E; [|done].
  destruct b as [| [] | |]; try done. unfold fltb, num_ltb, num_cmp in E.
  destruct a as [| | |]; try done; simpl in E; destruct s; done.
Qed.

Lemma fnonneg_leb x : fnonneg x = true -> fleb (S754_zero false) x = true.
Proof.
  destruct x as [|[]| |[]]; try done. intros _. unfold fleb, num_leb, num_cmp. simpl.
  rewrite (cmp_scaled_spec 0 0 (Z.pos m) e (Z.min 0 e)) by lia.
  rewrite Z.mul_0_l. destruct (Z.compare_spec 0 (Z.pos m * 2 ^ (e - Z.min 0 e))); try done.
  pose proof (Z.pow_pos_nonneg 2 (e - Z.min 0 e)). nia.
Qed.

(** ** Ratios, rounding and printing *)

(** [x.as_integer_ratio()] for a finite float; [None] where it raises. *)
Definition as_integer_ratio (x : float) : option (Z * Z) :=
  match sf_scaled x with
  | Some (a, e) =>
      if 0 <=? e then Some (a * 2 ^ e, 1)
      else let g := Z.gcd a (2 ^ (- e)) in Some (a / g, 2 ^ (- e) / g)
  | None => None
  end.

Lemma as_integer_ratio_pos x :
  is_finite x = true -> exists n m, as_integer_ratio x = Some (n, m) /\ 0 < m.
Proof.
  intros Hf. unfold as_integer_ratio. destruct (sf_scaled x) as [[a e]|] eqn:E; [|by destruct x].
  destruct (Z.leb_spec 0 e); [eexists _, _; split; [reflexivity|lia]|].
  eexists _, _. split; [reflexivity|].
  assert (0 < 2 ^ (- e)) by (apply Z.pow_pos_nonneg; lia).
  destruct (Z.gcd_divide_r a (2 ^ (- e))) as [k Hk].
  pose proof (Z.gcd_nonneg a (2 ^ (- e))) as Hg.
  assert (0 < Z.gcd a (2 ^ (- e))) by (destruct (Z.eq_dec (Z.gcd a (2 ^ (- e))) 0) as [E0|]; [rewrite E0 in Hk|]; lia).
  rewrite Hk at 1. rewrite Z.div_mul by lia. nia.
Qed.

(** Round the rational [a / b] ([b > 0]) to the nearest integer, ties to even. *)
Definition round_half_even (a b : Z) : Z :=
  let q := a / b in
  let r := a mod b in
  match Z.compare (2 * r) b with
  | Lt => q
  | Gt => q + 1
  | Eq => if Z.even q then q else q + 1
  end.

(** [round(x, 1)] for a finite float: exact decimal rounding, then back. *)
Definition round1 (x : float) : float :=
  match sf_scaled x with
  | Some (a, e) =>
      let '(n, d) := if 0 <=? e then (10 * a * 2 ^ e, 1) else (10 * a, 2 ^ (- e)) in
      dec (round_half_even n d) 1
  | None => x
  end.
