(* ===== verification/PyVal.v ===== *)
(** Python values of the verdict record: the dynamically typed values that
    [json] decodes and that the record verifier inspects, with [dict] access,
    [==], truthiness and the type predicates the sources share. *)
From S2P Require Export Prelude PyFloat.
Open Scope Z_scope.

(** A dictionary is its items in insertion order.  Keys are values, so that the
    checks "all keys must be strings" are about something. *)
Inductive value :=
| VNone
| VBool (b : bool)
| VInt (z : Z)
| VFloat (f : float)
| VStr (s : str)
| VList (l : list value)
| VDict (d : list (value * value)).

Abbreviation dict := (list (value * value)).

(** Induction over nested values. *)
Lemma value_nested_ind (P : value -> Prop)
  (Hnone : P VNone) (Hbool : forall b, P (VBool b)) (Hint : forall z, P (VInt z))
  (Hfloat : forall f, P (VFloat f)) (Hstr : forall s, P (VStr s))
  (Hlist : forall l, Forall P l -> P (VList l))
  (Hdict : forall d, Forall (fun kv => P (snd kv)) d -> P (VDict d)) :
  forall v, P v.
Proof.
  fix IH 1. intros [ | b | z | f | s | l | d].
  - exact Hnone.
  - apply Hbool.
  - apply Hint.
  - apply Hfloat.
  - apply Hstr.
  - apply Hlist. induction l as [|x l IHl]; constructor; [apply IH|apply IHl].
  - apply Hdict. induction d as [|[k x] d IHd]; constructor; [apply IH|apply IHd].
Qed.

(** ** Dictionary access with a string key *)

Definition is_key (k : str) (v : value) : bool :=
  match v with VStr s => s =s? k | _ => false end.

(** [d[k]] when [k in d] *)
Fixpoint dlookup (k : str) (d : dict) : option value :=
  match d with
  | [] => None
  | (k', v) :: d' => if is_key k k' then Some v else dlookup k d'
  end.

(** [d.get(k)] *)
Definition dget (d : dict) (k : str) : value :=
  match dlookup k d with Some v => v | None => VNone end.

(** [k in d] *)
Definition dmem (k : str) (d : dict) : bool :=
  match dlookup k d with Some _ => true | None => false end.

(** [d[k] = v]: overwrite in place or append. *)
Fixpoint dset (k : str) (v : value) (d : dict) : dict :=
  match d with
  | [] => [(VStr k, v)]
  | (k', v') :: d' => if is_key k k' then (k', v) :: d' else (k', v') :: dset k v d'
  end.

(** [del d[k]] (or [d.pop(k, None)]) *)
Fixpoint ddel (k : str) (d : dict) : dict :=
  match d with
  | [] => []
  | (k', v') :: d' => if is_key k k' then d' else (k', v') :: ddel k d'
  end.

(** [d.update(e)] for a mapping with string keys. *)
Definition dupdate (d : dict) (e : list (str * value)) : dict :=
  fold_left (fun acc kv => dset (fst kv) (snd kv) acc) e d.

(** A dictionary literal with string keys. *)
Definition dict_of (l : list (string * value)) : dict :=
  map (fun kv => (VStr (u (fst kv)), snd kv)) l.

Lemma dlookup_dset_eq k v d : dlookup k (dset k v d) = Some v.
Proof.
  induction d as [|[k' v'] d IH]; simpl; [by rewrite str_eqb_refl|].
  destruct (is_key k k') eqn:E; simpl; by rewrite E.
Qed.

Lemma dlookup_dset_ne k k' v d : k <> k' -> dlookup k' (dset k v d) = dlookup k' d.
Proof.
  intros Hne. assert (Hk : forall x, is_key k x = true -> is_key k' x = false).
  { intros [] Hx; try done. simpl in *. apply str_eqb_eq in Hx as ->. by apply str_eqb_neq. }
  induction d as [|[k2 v2] d IH]; simpl.
  - by rewrite (proj2 (str_eqb_neq _ _) Hne).
  - destruct (is_key k k2) eqn:E; simpl; [by rewrite (Hk _ E)|by rewrite IH].
Qed.

(** ** Type predicates *)

Definition is_none (v : value) : bool := match v with VNone => true | _ => false end.
Definition is_bool (v : value) : bool := match v with VBool _ => true | _ => false end.
Definition is_str (v : value) : bool := match v with VStr _ => true | _ => false end.
Definition is_dict (v : value) : bool := match v with VDict _ => true | _ => false end.
Definition is_list (v : value) : bool := match v with VList _ => true | _ => false end.

(** [value is True], [value is False] *)
Definition is_true_v (v : value) : bool := match v with VBool b => b | _ => false end.
Definition is_false_v (v : value) : bool := match v with VBool b => negb b | _ => false end.

(** [isinstance(value, str) and bool(value)] *)
Definition is_nonempty_str (v : value) : bool := match v with VStr (_ :: _) => true | _ => false end.

(** [bool(value)] *)
Definition truthy (v : value) : bool :=
  match v with
  | VNone => false
  | VBool b => b
  | VInt z => negb (z =? 0)
  | VFloat (SpecFloat.S754_zero _) => false
  | VFloat _ => true
  | VStr s => match s with [] => false | _ => true end
  | VList l => match l with [] => false | _ => true end
  | VDict d => match d with [] => false | _ => true end
  end.

(** ** Equality *)

(** The number a value is in the numeric tower ([True == 1 == 1.0]). *)
Definition as_num (v : value) : option num :=
  match v with
  | VBool b => Some (NInt (if b then 1 else 0))
  | VInt z => Some (NInt z)
  | VFloat f => Some (NFloat f)
  | _ => None
  end.

(** [a == b] *)
Fixpoint py_eq (a b : value) {struct a} : bool :=
  match as_num a, as_num b with
  | Some x, Some y => num_eqb x y
  | _, _ =>
      match a, b with
      | VNone, VNone => true
      | VStr s, VStr t => s =s? t
      | VList l, VList m =>
          (fix go (l m : list value) : bool :=
             match l, m with
             | [], [] => true
             | x :: l', y :: m' => py_eq x y && go l' m'
             | _, _ => false
             end) l m
      | VDict d, VDict e =>
          Nat.eqb (length d) (length e) &&
          (fix go (d : dict) : bool :=
             match d with
             | [] => true
             | (k, v) :: d' =>
                 (fix look (e : dict) : bool :=
                    match e with
                    | [] => false
                    | (k', v') :: e' => if py_eq k k' then py_eq v v' else look e'
                    end) e && go d'
             end) d
      | _, _ => false
      end
  end.

(** Comparison with a string constant. *)
Definition eq_str (v : value) (s : str) : bool := match v with VStr t => t =s? s | _ => false end.

Lemma py_eq_str v s : py_eq v (VStr s) = eq_str v s.
Proof. by destruct v. Qed.

Lemma eq_str_eq v s : eq_str v s = true <-> v = VStr s.
Proof. destruct v; simpl; try (split; congruence). rewrite str_eqb_eq. split; congruence. Qed.

Lemma py_eq_none v : py_eq v VNone = is_none v.
Proof. by destruct v. Qed.

Lemma num_eqb_int a b : num_eqb (NInt a) (NInt b) = (a =? b).
Proof.
  unfold num_eqb, num_cmp. destruct (Z.compare_spec a b); symmetry;
    [by apply Z.eqb_eq|apply Z.eqb_neq; lia|apply Z.eqb_neq; lia].
Qed.

Lemma py_eq_int a b : py_eq (VInt a) (VInt b) = (a =? b).
Proof. apply num_eqb_int. Qed.

Lemma py_eq_str_r s v : py_eq (VStr s) v = eq_str v s.
Proof.
  destruct v; try done. simpl. destruct (s =s? s0) eqn:E; symmetry.
  - apply str_eqb_eq in E as ->. apply str_eqb_refl.
  - apply str_eqb_neq in E. apply str_eqb_neq. congruence.
Qed.

(** ** Predicates shared by the record verifier and its projections *)

(** [_is_int]: an integer that is not a boolean. *)
Definition v_is_int (v : value) : bool := match v with VInt _ => true | _ => false end.

(** [_is_number]: an integer, or a finite float; never a boolean. *)
Definition v_is_number (v : value) : bool :=
  match v with VInt _ => true | VFloat f => is_finite f | _ => false end.

(** [_is_string_list] *)
Definition v_is_string_list (v : value) : bool :=
  match v with VList l => forallb is_str l | _ => false end.

Definition v_is_nullable_int (v : value) : bool := is_none v || v_is_int v.
Definition v_is_nullable_bool (v : value) : bool := is_none v || is_bool v.
Definition v_is_nullable_string (v : value) : bool := is_none v || is_str v.

(** [_known_string] *)
Definition known_string (v : value) (allowed : list str) : bool :=
  match v with VStr s => str_in s allowed | _ => false end.

(** The strings of a list value. *)
Fixpoint str_items (l : list value) : list str :=
  match l with
  | [] => []
  | VStr s :: l' => s :: str_items l'
  | _ :: l' => str_items l'
  end.

Definition v_strings (v : value) : list str := match v with VList l => str_items l | _ => [] end.

Lemma str_items_map l : forallb is_str l = true -> l = map VStr (str_items l).
Proof.
  induction l as [|[] l IH]; simpl; try done. intros H. by rewrite <- IH.
Qed.

Lemma v_is_string_list_spec v :
  v_is_string_list v = true <-> v = VList (map VStr (v_strings v)).
Proof.
  split.
  - destruct v; try done. simpl. intros H. by rewrite <- str_items_map.
  - intros ->. simpl. rewrite forallb_forall. intros x. rewrite in_map_iff.
    intros (s & <- & _). done.
Qed.

Lemma known_string_spec v allowed :
  known_string v allowed = true <-> exists s, v = VStr s /\ In s allowed.
Proof.
  destruct v; simpl; try (split; [done|naive_solver]).
  rewrite str_in_In. naive_solver.
Qed.

(** The keys of a dictionary, those that are strings. *)
Definition dict_str_keys (d : dict) : list str := str_items (map fst d).

(** [any(not isinstance(key, str) for key in d)] *)
Definition has_non_str_key (d : dict) : bool := existsb (fun kv => negb (is_str (fst kv))) d.

(** [sorted(required - d.keys())] *)
Definition missing_keys (required : list str) (d : dict) : list str :=
  sort_str (List.filter (fun k => negb (dmem k d)) required).

Lemma missing_keys_nil required d :
  missing_keys required d = [] <-> forall k, In k required -> dmem k d = true.
Proof.
  unfold missing_keys, sort_str. rewrite py_sort_nil, filter_nil_iff.
  split; intros H k Hk; specialize (H k Hk); destruct (dmem k d); done.
Qed.

(** [frozenset(d) <= keys] for a dictionary with string keys only. *)
Definition keys_subset (d : dict) (keys : list str) : bool :=
  forallb (fun k => str_in k keys) (dict_str_keys d).

Definition keys_superset (d : dict) (keys : list str) : bool :=
  forallb (fun k => dmem k d) keys.

(** [frozenset(d) == keys] *)
Definition keys_eq (d : dict) (keys : list str) : bool := keys_subset d keys && keys_superset d keys.

Create Rewrite HintDb pyval.
#[export] Hint Rewrite py_eq_str py_eq_str_r py_eq_none py_eq_int eq_str_eq : pyval.

(** Case analysis on the dynamic type of a value under a type test. *)
Ltac inv_test :=
  repeat match goal with
  | H : v_is_int ?v = true |- _ => destruct v eqn:?; try discriminate H; clear H
  | H : is_bool ?v = true |- _ => destruct v eqn:?; try discriminate H; clear H
  | H : is_str ?v = true |- _ => destruct v eqn:?; try discriminate H; clear H
  | H : is_dict ?v = true |- _ => destruct v eqn:?; try discriminate H; clear H
  | H : is_none ?v = true |- _ => destruct v eqn:?; try discriminate H; clear H
  end.
