(* ===== verification/Bytes.v ===== *)
(** Byte-level encodings the program relies on: UTF-8, 64-bit big-endian
    integers ([struct.pack(">Q", n)]) and [hashlib.sha256(...).hexdigest()].
    Bytes are numbers below 256. *)
From S2P Require Export Prelude.
Open Scope Z_scope.

Abbreviation bytes := (list Z).

(** [data[:n]] and a [read(n)] that delivers all there is: the count stays a binary
    number. *)
Fixpoint first_bytes (n : Z) (data : bytes) : bytes :=
  match data with
  | [] => []
  | x :: data' => if n <=? 0 then [] else x :: first_bytes (n - 1) data'
  end.

Lemma first_bytes_take n data : first_bytes n data = take (Z.to_nat n) data.
Proof.
  revert n. induction data as [|x data IH]; intros n; cbn [first_bytes]; [by rewrite take_nil|].
  destruct (Z.leb_spec n 0); [by replace (Z.to_nat n) with 0%nat by lia|].
  replace (Z.to_nat n) with (S (Z.to_nat (n - 1))) by lia. cbn [take]. by rewrite IH.
Qed.

(** ** UTF-8 *)

(** [c.encode("utf-8")] of one code point; surrogates are not encodable. *)
Definition utf8_char (c : N) : option bytes :=
  let z := Z.of_N c in
  if z <? 128 then Some [z]
  else if z <? 2048 then Some [192 + z / 64; 128 + z mod 64]
  else if (55296 <=? z) && (z <=? 57343) then None
  else if z <? 65536 then Some [224 + z / 4096; 128 + z / 64 mod 64; 128 + z mod 64]
  else if z <? 1114112 then
    Some [240 + z / 262144; 128 + z / 4096 mod 64; 128 + z / 64 mod 64; 128 + z mod 64]
  else None.

(** [s.encode("utf-8")]; [None] where it raises [UnicodeEncodeError]. *)
Fixpoint utf8 (s : str) : option bytes :=
  match s with
  | [] => Some []
  | c :: s' =>
      match utf8_char c, utf8 s' with
      | Some a, Some b => Some (a ++ b)
      | _, _ => None
      end
  end.

(** The length of a UTF-8 sequence is announced by its first byte, and the
    code point can be read back from the sequence. *)
Definition utf8_decode1 (b : bytes) : option (N * bytes) :=
  match b with
  | a :: r =>
      if a <? 128 then Some (Z.to_N a, r)
      else if a <? 224 then
        match r with x :: r' => Some (Z.to_N ((a - 192) * 64 + (x - 128)), r') | _ => None end
      else if a <? 240 then
        match r with
        | x :: y :: r' => Some (Z.to_N ((a - 224) * 4096 + (x - 128) * 64 + (y - 128)), r')
        | _ => None
        end
      else
        match r with
        | x :: y :: w :: r' =>
            Some (Z.to_N ((a - 240) * 262144 + (x - 128) * 4096 + (y - 128) * 64 + (w - 128)), r')
        | _ => None
        end
  | [] => None
  end.

Lemma utf8_char_decode c a r : utf8_char c = Some a -> utf8_decode1 (a ++ r) = Some (c, r).
Proof.
  unfold utf8_char. set (z := Z.of_N c).
  assert (Hz : 0 <= z) by (subst z; lia). assert (Hc : c = Z.to_N z) by (subst z; lia).
  clearbody z. subst c.
  assert (H64 : z = 64 * (z / 64) + z mod 64 /\ 0 <= z mod 64 < 64)
    by (split; [apply Z.div_mod; lia|apply Z.mod_pos_bound; lia]).
  assert (H4096 : z / 64 = 64 * (z / 4096) + z / 64 mod 64 /\ 0 <= z / 64 mod 64 < 64).
  { replace (z / 4096) with (z / 64 / 64) by (rewrite Z.div_div by lia; done).
    split; [apply Z.div_mod; lia|apply Z.mod_pos_bound; lia]. }
  assert (H18 : z / 4096 = 64 * (z / 262144) + z / 4096 mod 64 /\ 0 <= z / 4096 mod 64 < 64).
  { replace (z / 262144) with (z / 4096 / 64) by (rewrite Z.div_div by lia; done).
    split; [apply Z.div_mod; lia|apply Z.mod_pos_bound; lia]. }
  repeat case_if; brefl; intros [= <-]; simpl; repeat case_if; brefl; repeat f_equal; lia.
Qed.

Lemma utf8_char_nonempty c a : utf8_char c = Some a -> a <> [].
Proof. unfold utf8_char. repeat case_if; by intros [= <-]. Qed.

(** UTF-8 is injective on the strings it encodes. *)
Lemma utf8_inj s t b : utf8 s = Some b -> utf8 t = Some b -> s = t.
Proof.
  revert t b; induction s as [|c s IH]; intros t b Hs Ht.
  - simpl in Hs. injection Hs as <-. destruct t as [|d t]; [done|]. simpl in Ht.
    destruct (utf8_char d) as [a|] eqn:E; [|done]. destruct (utf8 t); [|done].
    injection Ht as Ht. apply app_eq_nil in Ht as [-> _]. by apply utf8_char_nonempty in E.
  - simpl in Hs. destruct (utf8_char c) as [a|] eqn:Ec; [|done].
    destruct (utf8 s) as [bs|] eqn:Es; [|done]. injection Hs as <-.
    destruct t as [|d t]; simpl in Ht.
    { injection Ht as Ht. symmetry in Ht. apply app_eq_nil in Ht as [-> _].
      by apply utf8_char_nonempty in Ec. }
    destruct (utf8_char d) as [a'|] eqn:Ed; [|done].
    destruct (utf8 t) as [bt|] eqn:Et; [|done]. injection Ht as Ht.
    pose proof (utf8_char_decode c a bs Ec) as H1.
    pose proof (utf8_char_decode d a' bt Ed) as H2. rewrite Ht, H1 in H2.
    injection H2 as -> ->. f_equal. by eapply IH.
Qed.

(** [data.decode("utf-8", "strict")]: every sequence must be the encoding of the
    code point read from it. *)
Fixpoint bytes_eqb (a b : bytes) : bool :=
  match a, b with
  | [], [] => true
  | x :: a', y :: b' => (x =? y) && bytes_eqb a' b'
  | _, _ => false
  end.

Lemma bytes_eqb_eq a b : bytes_eqb a b = true <-> a = b.
Proof.
  revert b; induction a as [|x a IH]; intros [|y b]; simpl; try done.
  rewrite andb_true_iff, Z.eqb_eq, IH. naive_solver.
Qed.

Fixpoint utf8_decode_fuel (fuel : nat) (b : bytes) : option str :=
  match fuel, b with
  | _, [] => Some []
  | O, _ => None
  | S n, _ =>
      match utf8_decode1 b with
      | Some (c, _) =>
          match utf8_char c with
          | Some a => if bytes_eqb a (take (length a) b) then cons c <$> utf8_decode_fuel n (drop (length a) b) else None
          | None => None
          end
      | None => None
      end
  end.
Definition utf8_decode (b : bytes) : option str := utf8_decode_fuel (length b) b.

(** Decoding is the inverse of encoding. *)
Lemma utf8_decode_iff b s : utf8_decode b = Some s <-> utf8 s = Some b.
Proof.
  unfold utf8_decode. assert (Hn : (length b <= length b)%nat) by done. revert Hn.
  generalize (length b) at 2 3. intros n. revert b s. induction n as [|n IH]; intros [|x b] s Hn; simpl in Hn; try lia.
  1,2: split; [intros [= <-]; done|intros Hs; destruct s as [|c s]; [done|]; simpl in Hs;
    destruct (utf8_char c) as [a|] eqn:Ec; [|done]; destruct (utf8 s); [|done]; injection Hs as Hs;
    apply app_eq_nil in Hs as [-> _]; by apply utf8_char_nonempty in Ec].
  cbn [utf8_decode_fuel]. split.
  - destruct (utf8_decode1 (x :: b)) as [[c r]|]; [|done]. destruct (utf8_char c) as [a|] eqn:Ec; [|done].
    destruct (bytes_eqb a _) eqn:Eb; [|done]. apply bytes_eqb_eq in Eb.
    intros (t & Ht & ->)%fmap_Some. apply IH in Ht.
    + cbn [utf8]. rewrite Ec, Ht. by rewrite Eb at 1; rewrite take_drop.
    + rewrite length_drop. cbn [length]. destruct a; [by apply utf8_char_nonempty in Ec|]. cbn [length]. lia.
  - intros Hs. destruct s as [|c s]; [done|]. simpl in Hs. destruct (utf8_char c) as [a|] eqn:Ec; [|done].
    destruct (utf8 s) as [r|] eqn:Es; [|done]. injection Hs as Hs. rewrite <- Hs, (utf8_char_decode c a r Ec), Ec.
    rewrite take_app_length, drop_app_length. assert (bytes_eqb a a = true) as -> by by apply bytes_eqb_eq.
    assert (Hr : utf8_decode_fuel n r = Some s); [|by rewrite Hr]. apply IH; [|done].
    apply (f_equal length) in Hs. rewrite length_app in Hs. simpl in Hs.
    destruct a; [by apply utf8_char_nonempty in Ec|]. simpl in Hs. lia.
Qed.

(** The UTF-8 bytes of an ASCII string are its code points. *)
Definition ascii_bytes (s : str) : bytes := map Z.of_N s.

(** ** 64-bit big-endian integers *)

Fixpoint be_bytes (n : nat) (z : Z) : bytes :=
  match n with
  | O => []
  | S k => be_bytes k (z / 256) ++ [z mod 256]
  end.

(** [struct.pack(">Q", z)] for [0 <= z < 2^64] *)
Definition pack_u64 (z : Z) : bytes := be_bytes 8 z.

Definition be_value (b : bytes) : Z := fold_left (fun acc x => acc * 256 + x) b 0.

Lemma length_be_bytes n z : length (be_bytes n z) = n.
Proof. revert z; induction n; intros z; simpl; [done|]. rewrite length_app, IHn. simpl. lia. Qed.

Lemma be_value_be_bytes n z : 0 <= z < 256 ^ Z.of_nat n -> be_value (be_bytes n z) = z.
Proof.
  revert z; induction n as [|n IH]; intros z Hz; [simpl in *; unfold be_value; simpl; lia|].
  simpl. unfold be_value in *. rewrite fold_left_app. simpl.
  rewrite Nat2Z.inj_succ, Z.pow_succ_r in Hz by lia. rewrite IH.
  - pose proof (Z.div_mod z 256 ltac:(lia)). lia.
  - split; [apply Z.div_pos; lia|]. apply Z.div_lt_upper_bound; lia.
Qed.

Lemma pack_u64_inj a b :
  0 <= a < 2 ^ 64 -> 0 <= b < 2 ^ 64 -> pack_u64 a = pack_u64 b -> a = b.
Proof.
  intros Ha Hb H. rewrite <- (be_value_be_bytes 8 a), <- (be_value_be_bytes 8 b) by (simpl; lia).
  unfold pack_u64 in H. by rewrite H.
Qed.

Lemma length_pack_u64 z : length (pack_u64 z) = 8%nat.
Proof. apply length_be_bytes. Qed.

(** ** SHA-256 *)

Module Sha256.
Definition w32 (z : Z) : Z := Z.land z 4294967295.
Definition rotr (n x : Z) : Z := Z.lor (Z.shiftr x n) (w32 (Z.shiftl x (32 - n))).
Definition add32 (a b : Z) : Z := w32 (a + b).

Definition K : list Z :=
[1116352408; 1899447441; 3049323471; 3921009573; 961987163; 1508970993; 2453635748;
 2870763221; 3624381080; 310598401; 607225278; 1426881987; 1925078388; 2162078206;
 2614888103; 3248222580; 3835390401; 4022224774; 264347078; 604807628; 770255983; 1249150122;
 1555081692; 1996064986; 2554220882; 2821834349; 2952996808; 3210313671; 3336571891;
 3584528711; 113926993; 338241895; 666307205; 773529912; 1294757372; 1396182291; 1695183700;
 1986661051; 2177026350; 2456956037; 2730485921; 2820302411; 3259730800; 3345764771;
 3516065817; 3600352804; 4094571909; 275423344; 430227734; 506948616; 659060556; 883997877;
 958139571; 1322822218; 1537002063; 1747873779; 1955562222; 2024104815; 2227730452;
 2361852424; 2428436474; 2756734187; 3204031479; 3329325298].
Definition H0 : list Z :=
[1779033703; 3144134277; 1013904242; 2773480762; 1359893119; 2600822924; 528734635;
 1541459225].

Definition pad (b : bytes) : bytes :=
  let n := Z.of_nat (length b) in
  b ++ [128] ++ repeat 0 (Z.to_nat ((55 - n) mod 64)) ++ be_bytes 8 (8 * n).

Fixpoint words (b : bytes) : list Z :=
  match b with
  | a :: b' :: c :: d :: r => (((a * 256 + b') * 256 + c) * 256 + d) :: words r
  | _ => []
  end.

(** The message schedule, newest word first. *)
Fixpoint extend (n : nat) (w : list Z) : list Z :=
  match n with
  | O => w
  | S k =>
      let w2 := nth 1 w 0 in let w7 := nth 6 w 0 in
      let w15 := nth 14 w 0 in let w16 := nth 15 w 0 in
      let s0 := Z.lxor (Z.lxor (rotr 7 w15) (rotr 18 w15)) (Z.shiftr w15 3) in
      let s1 := Z.lxor (Z.lxor (rotr 17 w2) (rotr 19 w2)) (Z.shiftr w2 10) in
      extend k (w32 (w16 + s0 + w7 + s1) :: w)
  end.

Definition round (st : list Z) (kw : Z * Z) : list Z :=
  match st with
  | [a; b; c; d; e; f; g; h] =>
      let s1 := Z.lxor (Z.lxor (rotr 6 e) (rotr 11 e)) (rotr 25 e) in
      let ch := Z.lxor (Z.land e f) (Z.land (4294967295 - e) g) in
      let t1 := h + s1 + ch + fst kw + snd kw in
      let s0 := Z.lxor (Z.lxor (rotr 2 a) (rotr 13 a)) (rotr 22 a) in
      let maj := Z.lxor (Z.lxor (Z.land a b) (Z.land a c)) (Z.land b c) in
      [w32 (t1 + s0 + maj); a; b; c; w32 (d + t1); e; f; g]
  | _ => st
  end.

Definition compress (st : list Z) (blk : list Z) : list Z :=
  let w := rev (extend 48 (rev blk)) in
  zip_with add32 st (fold_left round (zip K w) st).

Fixpoint blocks (n : nat) (w : list Z) (st : list Z) : list Z :=
  match n with
  | O => st
  | S k => blocks k (drop 16 w) (compress st (take 16 w))
  end.

Definition digest (b : bytes) : list Z :=
  let p := pad b in
  blocks (Nat.div (length p) 64) (words p) H0.

Definition hex_digit (z : Z) : N := Z.to_N (if z <? 10 then 48 + z else 87 + z).
Definition hex_byte (z : Z) : str := [hex_digit (z / 16); hex_digit (z mod 16)].
Definition hexdigest (b : bytes) : str :=
  flat_map hex_byte (flat_map (be_bytes 4) (digest b)).
End Sha256.

(** [hashlib.sha256(b).hexdigest()] *)
Definition sha256_hex (b : bytes) : str := Sha256.hexdigest b.

Lemma sha256_round_length st kw : length st = 8%nat -> length (Sha256.round st kw) = 8%nat.
Proof. intros H. by destruct st as [|? [|? [|? [|? [|? [|? [|? [|? [|? ?]]]]]]]]]. Qed.

Lemma sha256_digest_length b : length (Sha256.digest b) = 8%nat.
Proof.
  unfold Sha256.digest.
  generalize (Nat.div (length (Sha256.pad b)) 64) as n, (Sha256.words (Sha256.pad b)) as w.
  assert (H : length Sha256.H0 = 8%nat) by done. revert H. generalize Sha256.H0 as st.
  intros st H n; revert st H; induction n as [|n IH]; intros st H w; [done|].
  apply IH. unfold Sha256.compress. rewrite length_zip_with.
  assert (Hr : length (fold_left Sha256.round
    (zip Sha256.K (rev (Sha256.extend 48 (rev (take 16 w))))) st) = 8%nat); [|lia].
  revert H. generalize st. induction (zip _ _) as [|kw l IHl]; intros st' H; [done|].
  simpl. by apply IHl, sha256_round_length.
Qed.

(** [re.fullmatch("[0-9a-f]{64}", s)] *)
Definition is_hex_lower (c : N) : bool := ((48 <=? c) && (c <=? 57) || (97 <=? c) && (c <=? 102))%N.
Definition is_hex_any (c : N) : bool := (is_hex_lower c || (65 <=? c) && (c <=? 70))%N.
Definition hex64_lower (s : str) : bool := Nat.eqb (length s) 64 && forallb is_hex_lower s.
Definition hex64_any (s : str) : bool := Nat.eqb (length s) 64 && forallb is_hex_any s.

Lemma hex_digit_lower z : 0 <= z < 16 -> is_hex_lower (Sha256.hex_digit z) = true.
Proof.
  unfold is_hex_lower, Sha256.hex_digit. intros Hz. rewrite orb_true_iff, !andb_true_iff, !N.leb_le.
  destruct (Z.ltb_spec z 10); lia.
Qed.

Lemma be_bytes_range n z x : In x (be_bytes n z) -> 0 <= x < 256.
Proof.
  revert z; induction n as [|n IH]; simpl; intros z; [done|].
  rewrite in_app_iff. intros [H|[<-|[]]]; [by eapply IH|apply Z.mod_pos_bound; lia].
Qed.

(** A digest is printed as 64 lower-case hexadecimal characters. *)
Lemma sha256_hex_shape b : hex64_lower (sha256_hex b) = true.
Proof.
  unfold hex64_lower. rewrite andb_true_iff, Nat.eqb_eq, forallb_forall. split.
  - unfold sha256_hex, Sha256.hexdigest. pose proof (sha256_digest_length b) as H. revert H.
    generalize (Sha256.digest b) as l. intros l Hn.
    assert (Hl : length (flat_map (be_bytes 4) l) = (4 * length l)%nat).
    { clear. induction l as [|x l IH]; [done|]. cbn [flat_map].
      rewrite length_app, length_be_bytes, IH. simpl. lia. }
    revert Hl. generalize (flat_map (be_bytes 4) l) as m. intros m Hm.
    assert (Hx : length (flat_map Sha256.hex_byte m) = (2 * length m)%nat).
    { clear. induction m as [|x m IH]; [done|]. simpl. rewrite IH. lia. }
    rewrite Hx, Hm. lia.
  - intros c. unfold sha256_hex, Sha256.hexdigest. rewrite in_flat_map.
    intros (x & Hx & Hc). apply in_flat_map in Hx as (w & _ & Hx). apply be_bytes_range in Hx.
    destruct Hc as [<-|[<-|[]]]; apply hex_digit_lower.
    + split; [apply Z.div_pos; lia|apply Z.div_lt_upper_bound; lia].
    + apply Z.mod_pos_bound. lia.
Qed.

Example sha256_abc :
  sha256_hex [97; 98; 99]
  = u "ba7816bf8f01cfea414140de5dae2223b00361a396177a9cb410ff61f20015ad".
Proof. vm_compute. reflexivity. Qed.

Example sha256_two_blocks :
  sha256_hex (repeat 97 100)
  = u "2816597888e4a0d3a36b82b83316ab32680eb8f00f8cd3b904d681246d285a0e".
Proof. vm_compute. reflexivity. Qed.
