(* ===== verification/Json.v ===== *)
(** [json.dumps(value, sort_keys=True)]: the canonical text whose digest
    identifies an effective policy ([effective_policy_sha256] in
    policy/effective.py, [_policy_sha256] in record_verifier.py).  Default
    separators, [ensure_ascii], floats printed by [float.__repr__]. *)
From Stdlib Require Import Floats.SpecFloat.
From S2P Require Export Prelude PyFloat PyVal Bytes.
Open Scope Z_scope.

(** ** Numbers *)

Fixpoint digits_fuel (fuel : nat) (acc : str) (z : Z) : str :=
  match fuel with
  | O => acc
  | S n => let acc' := Z.to_N (48 + z mod 10) :: acc in
           if z <? 10 then acc' else digits_fuel n acc' (z / 10)
  end.

(** The decimal digits of a non-negative integer. *)
Definition digits (z : Z) : str := digits_fuel (S (Z.to_nat (Z.log2 z))) [] z.

(** The number a run of decimal digits denotes. *)
Definition digits_denote (l : str) : Z := fold_left (fun n c => 10 * n + (Z.of_N c - 48)) l 0.

Lemma digits_fuel_value fuel acc z :
  0 <= z < 2 ^ Z.of_nat fuel -> (0 < fuel)%nat ->
  exists l, digits_fuel fuel acc z = l ++ acc /\ digits_denote l = z.
Proof.
  revert acc z. induction fuel as [|n IH]; intros acc z Hz Hf; [lia|]. cbn [digits_fuel].
  pose proof (Z.mod_pos_bound z 10 eq_refl) as Hm.
  pose proof (Z.div_mod z 10 ltac:(lia)) as Hd. destruct (z <? 10) eqn:E.
  - apply Z.ltb_lt in E. exists [Z.to_N (48 + z mod 10)]. split; [done|].
    cbn [digits_denote fold_left]. rewrite Z2N.id by lia. rewrite Z.mod_small by lia. lia.
  - apply Z.ltb_ge in E. rewrite Nat2Z.inj_succ, Z.pow_succ_r in Hz by lia.
    assert (Hq : 0 <= z / 10 < 2 ^ Z.of_nat n).
    { split; [apply Z.div_pos; lia|]. apply Z.div_lt_upper_bound; lia. }
    assert (Hn : (0 < n)%nat).
    { destruct n; [|lia]. change (2 ^ Z.of_nat 0) with 1 in Hz. lia. }
    destruct (IH (Z.to_N (48 + z mod 10) :: acc) (z / 10) Hq Hn) as (l & -> & Hl).
    exists (l ++ [Z.to_N (48 + z mod 10)]). split; [by rewrite <- app_assoc|].
    unfold digits_denote in *. rewrite fold_left_app, Hl. cbn [fold_left]. rewrite Z2N.id by lia. lia.
Qed.

(** The digits of a number denote it: the fuel, one more than its binary
    logarithm, is enough. *)
Lemma digits_value z : 0 <= z -> digits_denote (digits z) = z.
Proof.
  intros Hz. unfold digits.
  destruct (digits_fuel_value (S (Z.to_nat (Z.log2 z))) [] z) as (l & -> & Hl); [|lia|by rewrite app_nil_r].
  split; [done|]. rewrite Nat2Z.inj_succ, Z2Nat.id by apply Z.log2_nonneg.
  destruct (Z.eq_dec z 0) as [->|]; [done|]. apply Z.log2_spec. lia.
Qed.

(** [str(z)] *)
Definition str_of_Z (z : Z) : str :=
  match z with Zneg p => 45%N :: digits (Zpos p) | _ => digits z end.

(** The exponent [E] with [10^E <= num/den < 10^(E+1)]. *)
Definition dec_exp (num den : Z) : Z :=
  let d := Z.of_nat (length (digits num)) - Z.of_nat (length (digits den)) in
  let ge k := if 0 <=? k then den * 10 ^ k <=? num else den <=? num * 10 ^ (- k) in
  if ge d then d else d - 1.

(** The float nearest to [c * 10^-s]. *)
Definition scaled_float (c s : Z) : float :=
  if 0 <=? s then int_truediv c (10 ^ s) else int_truediv (c * 10 ^ (- s)) 1.

(** The shortest digits that read back as [x = num/den], the nearest such. *)
Fixpoint shortest_fuel (fuel : nat) (k : Z) (num den E : Z) (x : float) : Z * Z :=
  let s := k - 1 - E in
  let '(n, d) := if 0 <=? s then (num * 10 ^ s, den) else (num, den * 10 ^ (- s)) in
  let c := n / d in
  let lo := feqb (scaled_float c s) x in
  let hi := feqb (scaled_float (c + 1) s) x in
  match fuel with
  | O => (c, s)
  | S f =>
      if lo && hi then (if n - c * d <=? (c + 1) * d - n then (c, s) else (c + 1, s))
      else if lo then (c, s)
      else if hi then (c + 1, s)
      else shortest_fuel f (k + 1) num den E x
  end.

Definition strip_zeros (s : str) : str :=
  rev ((fix go (l : str) : str :=
          match l with x :: l' => if N.eqb x 48 then go l' else l | [] => [] end) (rev s)).

Definition zeros (n : Z) : str := repeat 48%N (Z.to_nat n).

(** Lay out the digits with the decimal point after [decpt] of them. *)
Definition layout_float (ds : str) (decpt : Z) : str :=
  let n := Z.of_nat (length ds) in
  if (-4 <? decpt) && (decpt <=? 16) then
    if decpt <=? 0 then u "0." ++ zeros (- decpt) ++ ds
    else if n <=? decpt then ds ++ zeros (decpt - n) ++ u ".0"
    else take (Z.to_nat decpt) ds ++ [46%N] ++ drop (Z.to_nat decpt) ds
  else
    let e := decpt - 1 in
    let ed := digits (Z.abs e) in
    take 1 ds ++ (match drop 1 ds with [] => [] | r => 46%N :: r end) ++ u "e" ++
    (if e <? 0 then u "-" else u "+") ++ (if Nat.ltb (length ed) 2 then 48%N :: ed else ed).

(** [repr(x)] *)
Definition float_repr (x : float) : str :=
  match x with
  | S754_zero s => if s then u "-0.0" else u "0.0"
  | S754_infinity s => if s then u "-Infinity" else u "Infinity"
  | S754_nan => u "NaN"
  | S754_finite s m e =>
      let '(num, den) := if 0 <=? e then (Zpos m * 2 ^ e, 1) else (Zpos m, 2 ^ (- e)) in
      let E := dec_exp num den in
      let '(c, sc) := shortest_fuel 17 1 num den E (S754_finite false m e) in
      let ds := digits c in
      (if s then u "-" else []) ++
      layout_float (strip_zeros ds) (Z.of_nat (length ds) - sc)
  end.

(** ** Strings *)

Definition hex4 (z : Z) : str :=
  Sha256.hex_byte (z / 256) ++ Sha256.hex_byte (z mod 256).

Definition bslash_u (z : Z) : str := 92%N :: 117%N :: hex4 z.

Definition json_char (c : N) : str :=
  let z := Z.of_N c in
  if z =? 34 then [92; 34]%N
  else if z =? 92 then [92; 92]%N
  else if z =? 10 then [92; 110]%N
  else if z =? 13 then [92; 114]%N
  else if z =? 9 then [92; 116]%N
  else if z =? 12 then [92; 102]%N
  else if z =? 8 then [92; 98]%N
  else if (32 <=? z) && (z <=? 126) then [c]
  else if z <? 65536 then bslash_u z
  else bslash_u (55296 + (z - 65536) / 1024) ++ bslash_u (56320 + (z - 65536) mod 1024).

Definition json_string (s : str) : str := 34%N :: flat_map json_char s ++ [34%N].

(** ** Values *)

Definition pair_leb (a b : str * str) : bool := str_leb (fst a) (fst b).

(** [None] where [json.dumps] raises: a non-finite float under
    [allow_nan=False].  [sp] follows each comma and colon.  A dictionary with a key that is not a string is outside
    the documents considered and is refused as well. *)
Fixpoint json_text (sp : str) (allow_nan : bool) (v : value) {struct v} : option str :=
  match v with
  | VNone => Some (u "null")
  | VBool b => Some (if b then u "true" else u "false")
  | VInt z => Some (str_of_Z z)
  | VFloat f => if is_finite f || allow_nan then Some (float_repr f) else None
  | VStr s => Some (json_string s)
  | VList l =>
      match (fix go (l : list value) : option (list str) :=
               match l with
               | [] => Some []
               | x :: l' =>
                   match json_text sp allow_nan x, go l' with
                   | Some a, Some b => Some (a :: b)
                   | _, _ => None
                   end
               end) l with
      | Some items => Some (u "[" ++ py_join (44%N :: sp) items ++ u "]")
      | None => None
      end
  | VDict d =>
      match (fix go (d : dict) : option (list (str * str)) :=
               match d with
               | [] => Some []
               | (VStr k, x) :: d' =>
                   match json_text sp allow_nan x, go d' with
                   | Some a, Some b => Some ((k, a) :: b)
                   | _, _ => None
                   end
               | _ => None
               end) d with
      | Some items =>
          Some (u "{" ++ py_join (44%N :: sp)
                  (map (fun ka => json_string (fst ka) ++ 58%N :: sp ++ snd ka)
                       (py_sort pair_leb items)) ++ u "}")
      | None => None
      end
  end.

(** The default separators are followed by a space. *)
Abbreviation json_encode := (json_text [32%N]).

Definition json_dumps (allow_nan : bool) (v : value) : option str := json_encode allow_nan v.

(** What an encoding that refuses non-finite floats accepts, the permissive one
    encodes to the same text. *)
Lemma json_encode_mono sp v s : json_text sp false v = Some s -> json_text sp true v = Some s.
Proof.
  revert s. induction v as [ | | |f| |l IH|d IH] using value_nested_ind; intros out; try done.
  - simpl. by destruct (is_finite f).
  - cbn [json_text].
    set (go b := fix go (l : list value) : option (list str) := match l with
      | [] => Some []
      | x :: l' => match json_text sp b x, go l' with
                   | Some a, Some b => Some (a :: b) | _, _ => None end end).
    change (match go false l with
            | Some items => Some (u "[" ++ py_join (44%N :: sp) items ++ u "]")
            | None => None end = Some out ->
            match go true l with
            | Some items => Some (u "[" ++ py_join (44%N :: sp) items ++ u "]")
            | None => None end = Some out).
    assert (Hgo : forall r, go false l = Some r -> go true l = Some r).
    { induction IH as [|x l Hx _ IHl]; [done|]. intros r. simpl.
      destruct (json_text sp false x) as [a|] eqn:Ex; [|done]. rewrite (Hx _ eq_refl).
      destruct (go false l) as [b|] eqn:El; [|done]. by rewrite (IHl _ eq_refl). }
    destruct (go false l) as [r|]; [|done]. by rewrite (Hgo _ eq_refl).
  - cbn [json_text].
    set (go b := fix go (d : dict) : option (list (str * str)) := match d with
      | [] => Some []
      | (VStr k, x) :: d' => match json_text sp b x, go d' with
                   | Some a, Some b => Some ((k, a) :: b) | _, _ => None end
      | _ => None end).
    set (wrap items := u "{" ++ py_join (44%N :: sp)
           (map (fun ka => json_string (fst ka) ++ 58%N :: sp ++ snd ka)
              (py_sort pair_leb items)) ++ u "}").
    change (match go false d with Some items => Some (wrap items) | None => None end = Some out ->
            match go true d with Some items => Some (wrap items) | None => None end = Some out).
    assert (Hgo : forall r, go false d = Some r -> go true d = Some r).
    { induction IH as [|[k x] d Hx _ IHd]; [done|]. intros r. simpl in *.
      destruct k; try done.
      destruct (json_text sp false x) as [a|] eqn:Ex; [|done]. rewrite (Hx _ eq_refl).
      destruct (go false d) as [b|] eqn:El; [|done]. by rewrite (IHd _ eq_refl). }
    destruct (go false d) as [r|]; [|done]. by rewrite (Hgo _ eq_refl).
Qed.

(** Values the strict encoder accepts. *)
Fixpoint encodable (v : value) : bool :=
  match v with
  | VFloat f => is_finite f
  | VList l => forallb encodable l
  | VDict d => forallb (fun kv => is_str (fst kv) && encodable (snd kv)) d
  | _ => true
  end.

Lemma json_encode_encodable sp v : encodable v = true -> exists s, json_text sp false v = Some s.
Proof.
  induction v as [ | | |f| |l IH|d IH] using value_nested_ind; simpl; try by eauto.
  - intros ->. eauto.
  - intros Hl.
    match goal with |- exists s, match ?g with _ => _ end = _ => assert (exists r, g = Some r) as [r ->] end;
      [|by eauto].
    induction IH as [|x l Hx _ IHl]; [by eauto|]. simpl in Hl.
    apply andb_true_iff in Hl as [H1 H2]. destruct (Hx H1) as [a ->], (IHl H2) as [b ->]. eauto.
  - intros Hd.
    match goal with |- exists s, match ?g with _ => _ end = _ => assert (exists r, g = Some r) as [r ->] end;
      [|by eauto].
    induction IH as [|[k x] d Hx _ IHd]; [by eauto|]. simpl in Hd, Hx.
    rewrite !andb_true_iff in Hd. destruct Hd as [[Hk H1] H2]. destruct k; try done.
    destruct (Hx H1) as [a ->], (IHd H2) as [b ->]. eauto.
Qed.

Example repr_ex :
  map float_repr [dec 800 1; dec 1 1; float_of_Z (10 ^ 22); dec 123456789123 3; dec 1 5;
                  dec 15 6; S754_finite false 1 (-1074); dec 331 1; int_truediv 2 3;
                  float_of_Z (2 ^ 60)]
  = us ["80.0"; "0.1"; "1e+22"; "123456789.123"; "1e-05"; "1.5e-05"; "5e-324"; "33.1";
        "0.6666666666666666"; "1.152921504606847e+18"].
Proof. vm_compute. reflexivity. Qed.

Example dumps_ex :
  json_dumps true (VDict (dict_of [("b", VList [VInt (-12); VBool true; VNone]);
                                   ("a", VStr [233; 10; 128512]%N); ("c", VDict [])]))
  = Some ([123; 34; 97; 34; 58; 32; 34; 92; 117; 48; 48; 101; 57; 92; 110; 92; 117; 100; 56; 51;
          100; 92; 117; 100; 101; 48; 48; 34; 44; 32; 34; 98; 34; 58; 32; 91; 45; 49; 50; 44; 32;
          116; 114; 117; 101; 44; 32; 110; 117; 108; 108; 93; 44; 32; 34; 99; 34; 58; 32; 123;
          125; 125]%N).
Proof. vm_compute. reflexivity. Qed.
