(* ===== verification/JsonParse.v ===== *)
(** [json.loads] of the language's standard library: the scanner the strict
    reader and the evidence consumers call, with the hooks they install.  Text
    is a list of code points; the scanner is the one of the standard library
    (whitespace, strict strings, joined surrogate pairs, numbers that stop
    before an incomplete fraction or exponent, the constants the dialect adds). *)
From Stdlib Require Import Floats.SpecFloat.
From S2P Require Export Prelude PyStr PyFloat PyVal Json.
Open Scope Z_scope.

(** ** Characters *)

Definition is_ws (c : N) : bool :=
  (N.eqb c 32 || N.eqb c 9 || N.eqb c 10 || N.eqb c 13)%bool.

Definition is_digit09 (c : N) : bool := (N.leb 48 c && N.leb c 57)%bool.

Fixpoint skip_ws (s : str) : str :=
  match s with c :: s' => if is_ws c then skip_ws s' else s | [] => [] end.

Definition hex_value (c : N) : option Z :=
  if is_digit09 c then Some (Z.of_N c - 48)
  else if (N.leb 97 c && N.leb c 102)%bool then Some (Z.of_N c - 87)
  else if (N.leb 65 c && N.leb c 70)%bool then Some (Z.of_N c - 55)
  else None.

(** The rest of a text that starts with the character [c]. *)
Definition eat (c : N) (s : str) : option str :=
  match s with x :: s' => if N.eqb x c then Some s' else None | [] => None end.

(** Four hexadecimal digits. *)
Definition scan_hex4 (s : str) : option (Z * str) :=
  match s with
  | a :: b :: c :: d :: s' =>
      match hex_value a, hex_value b, hex_value c, hex_value d with
      | Some x, Some y, Some z, Some w => Some (((x * 16 + y) * 16 + z) * 16 + w, s')
      | _, _, _, _ => None
      end
  | _ => None
  end.

Definition is_high_surrogate (z : Z) : bool := (55296 <=? z) && (z <=? 56319).
Definition is_low_surrogate (z : Z) : bool := (56320 <=? z) && (z <=? 57343).
Definition join_surrogates (a b : Z) : Z := 65536 + (a - 55296) * 1024 + (b - 56320).

(** The escape after a backslash that is not [\u]. *)
Definition simple_escape (c : N) : option N :=
  if N.eqb c 34 then Some 34%N
  else if N.eqb c 92 then Some 92%N
  else if N.eqb c 47 then Some 47%N
  else if N.eqb c 98 then Some 8%N
  else if N.eqb c 102 then Some 12%N
  else if N.eqb c 110 then Some 10%N
  else if N.eqb c 114 then Some 13%N
  else if N.eqb c 116 then Some 9%N
  else None.

(** A second escape that continues a high surrogate: [None] when its digits are
    not hexadecimal, which is an error of the text. *)
Definition scan_low (s : str) : option (option (Z * str)) :=
  match eat 92 s with
  | Some s1 =>
      match eat 117 s1 with
      | Some s2 =>
          match scan_hex4 s2 with
          | Some (c2, r) => Some (if is_low_surrogate c2 then Some (c2, r) else None)
          | None => None
          end
      | None => Some None
      end
  | None => Some None
  end.

(** A [\u] escape after its letter. *)
Definition scan_unicode (s : str) : option (N * str) :=
  match scan_hex4 s with
  | Some (c, r) =>
      if is_high_surrogate c then
        match scan_low r with
        | Some (Some (c2, r2)) => Some (Z.to_N (join_surrogates c c2), r2)
        | Some None => Some (Z.to_N c, r)
        | None => None
        end
      else Some (Z.to_N c, r)
  | None => None
  end.

(** One character of a string body; [None] is a decoding error. *)
Definition scan_char (s : str) : option (N * str) :=
  match s with
  | c :: s' =>
      if N.eqb c 92 then
        match s' with
        | e :: s2 =>
            if N.eqb e 117 then scan_unicode s2
            else match simple_escape e with Some x => Some (x, s2) | None => None end
        | [] => None
        end
      else if N.leb c 31 then None else Some (c, s')
  | [] => None
  end.

(** The body of a string up to its closing quote. *)
Fixpoint scan_string (fuel : nat) (s : str) : option (str * str) :=
  match fuel with
  | O => None
  | S n =>
      match eat 34 s with
      | Some s' => Some ([], s')
      | None =>
          match scan_char s with
          | Some (c, r) =>
              match scan_string n r with Some (t, r') => Some (c :: t, r') | None => None end
          | None => None
          end
      end
  end.

(** ** Numbers *)

Fixpoint span_digits (s : str) : str * str :=
  match s with
  | c :: s' => if is_digit09 c then let '(d, r) := span_digits s' in (c :: d, r) else ([], s)
  | [] => ([], [])
  end.

Definition scan_int (s : str) : option (str * str) :=
  match s with
  | c :: s' =>
      if N.eqb c 48 then Some ([48%N], s')
      else if is_digit09 c then Some (span_digits s) else None
  | [] => None
  end.

Definition scan_sign (s : str) : str * str :=
  match eat 45 s with Some s' => ([45%N], s') | None => ([], s) end.

(** A fraction: a point followed by at least one digit. *)
Definition scan_frac (s : str) : str * str :=
  match eat 46 s with
  | Some s' => let '(d, r) := span_digits s' in if is_empty d then ([], s) else (46%N :: d, r)
  | None => ([], s)
  end.

(** An exponent, given back when no digit follows. *)
Definition scan_exp (s : str) : str * str :=
  match s with
  | c :: s' =>
      if (N.eqb c 101 || N.eqb c 69)%bool then
        let '(sg, s2) := match s' with
                         | x :: s2 => if (N.eqb x 45 || N.eqb x 43)%bool then ([x], s2) else ([], s')
                         | [] => ([], [])
                         end in
        let '(d, r) := span_digits s2 in
        if is_empty d then ([], s) else (c :: sg ++ d, r)
      else ([], s)
  | [] => ([], [])
  end.

(** The text of a number, whether it is a float, and what follows. *)
Definition match_number (s : str) : option (str * bool * str) :=
  let '(sg, s1) := scan_sign s in
  match scan_int s1 with
  | Some (ip, s2) =>
      let '(fp, s3) := scan_frac s2 in
      let '(ep, s4) := scan_exp s3 in
      Some (sg ++ ip ++ fp ++ ep, negb (is_empty fp && is_empty ep), s4)
  | None => None
  end.

(** [int(text)] of a scanned integer. *)
Definition py_int (t : str) : Z :=
  match eat 45 t with Some d => - digits_denote d | None => digits_denote t end.

(** [float(text)] of a scanned number: the binary64 number nearest to it.  A
    decimal exponent beyond four hundred is past the range of binary64 on either
    side, whatever the digits. *)
Definition py_float (t : str) : float :=
  let '(sg, s1) := scan_sign t in
  let '(ip, s2) := span_digits s1 in
  let '(fp, s3) := match eat 46 s2 with Some s' => span_digits s' | None => ([], s2) end in
  let ex := match s3 with
            | _ :: e =>
                match eat 45 e with
                | Some d => - digits_denote d
                | None => match eat 43 e with Some d => digits_denote d | None => digits_denote e end
                end
            | [] => 0
            end in
  let m := digits_denote (ip ++ fp) in
  let e := ex - Z.of_nat (length fp) in
  let n := Z.of_nat (length (ip ++ fp)) in
  let x :=
    if m =? 0 then S754_zero false
    else if 400 <? e then S754_infinity false
    else if e + n <? -400 then S754_zero false
    else scaled_float m (- e) in
  if is_empty sg then x else SFopp x.

(** ** Values *)

Section decoder.
Context {E : Type}.

(** The arguments [json.loads] is called with, and the exception of a text that
    is not JSON. *)
Record hooks := {
  object_pairs_hook : list (str * value) -> result E value;
  parse_constant : str -> result E value;
  parse_float : str -> result E value;
  parse_int : str -> result E value;
  decode_error : E;
}.

Variable h : hooks.

(** [s] without the prefix [p] *)
Fixpoint strip_prefix (p s : str) : option str :=
  match p, s with
  | [], _ => Some s
  | x :: p', y :: s' => if N.eqb x y then strip_prefix p' s' else None
  | _ :: _, [] => None
  end.

Definition scan_number (s : str) : result E (value * str) :=
  match match_number s with
  | Some (t, fl, r) =>
      let* v := (if fl : bool then parse_float h t else parse_int h t) in Ok (v, r)
  | None => Err (decode_error h)
  end.

(** The literals, tried in the order of the scanner; numbers come last. *)
Definition scan_literal (s : str) : result E (value * str) :=
  match strip_prefix (u "null") s with
  | Some r => Ok (VNone, r)
  | None =>
  match strip_prefix (u "true") s with
  | Some r => Ok (VBool true, r)
  | None =>
  match strip_prefix (u "false") s with
  | Some r => Ok (VBool false, r)
  | None =>
  match strip_prefix (u "NaN") s with
  | Some r => let* v := parse_constant h (u "NaN") in Ok (v, r)
  | None =>
  match strip_prefix (u "Infinity") s with
  | Some r => let* v := parse_constant h (u "Infinity") in Ok (v, r)
  | None =>
  match strip_prefix (u "-Infinity") s with
  | Some r => let* v := parse_constant h (u "-Infinity") in Ok (v, r)
  | None => scan_number s
  end end end end end end.

(** A string body as an operation that may raise. *)
Definition scanstring (s : str) : result E (str * str) :=
  match scan_string (S (length s)) s with
  | Some r => Ok r
  | None => Err (decode_error h)
  end.

(** A value, the elements of an array after its first bracket or comma, and the
    members of an object after its first brace or comma. *)
Fixpoint scan_once (fuel : nat) (s : str) {struct fuel} : result E (value * str) :=
  match fuel with
  | O => Err (decode_error h)
  | S n =>
      match eat 34 s, eat 91 s, eat 123 s with
      | Some s', _, _ => let* (t, r) := scanstring s' in Ok (VStr t, r)
      | _, Some s', _ =>
          match eat 93 (skip_ws s') with
          | Some r => Ok (VList [], r)
          | None => let* (l, r) := scan_items n (skip_ws s') in Ok (VList l, r)
          end
      | _, _, Some s' =>
          match eat 125 (skip_ws s') with
          | Some r => let* v := object_pairs_hook h [] in Ok (v, r)
          | None =>
              let* (l, r) := scan_pairs n (skip_ws s') in
              let* v := object_pairs_hook h l in Ok (v, r)
          end
      | _, _, _ => scan_literal s
      end
  end
with scan_items (fuel : nat) (s : str) {struct fuel} : result E (list value * str) :=
  match fuel with
  | O => Err (decode_error h)
  | S n =>
      let* (v, r) := scan_once n s in
      match eat 93 (skip_ws r), eat 44 (skip_ws r) with
      | Some r', _ => Ok ([v], r')
      | _, Some r' => let* (l, r2) := scan_items n (skip_ws r') in Ok (v :: l, r2)
      | _, _ => Err (decode_error h)
      end
  end
with scan_pairs (fuel : nat) (s : str) {struct fuel} : result E (list (str * value) * str) :=
  match fuel with
  | O => Err (decode_error h)
  | S n =>
      match eat 34 s with
      | Some s' =>
          let* (k, r) := scanstring s' in
          match eat 58 (skip_ws r) with
          | Some r1 =>
              let* (v, r2) := scan_once n (skip_ws r1) in
              match eat 125 (skip_ws r2), eat 44 (skip_ws r2) with
              | Some r', _ => Ok ([(k, v)], r')
              | _, Some r' => let* (l, r3) := scan_pairs n (skip_ws r') in Ok ((k, v) :: l, r3)
              | _, _ => Err (decode_error h)
              end
          | None => Err (decode_error h)
          end
      | None => Err (decode_error h)
      end
  end.

(** [json.loads(text, ...)]; the fuel counts nested calls, two for each bracket
    at most ([json_loads_fuel_enough]). *)
Definition json_loads_fuel (fuel : nat) (s : str) : result E value :=
  match eat 65279 s with
  | Some _ => Err (decode_error h)
  | None =>
      let* (v, r) := scan_once fuel (skip_ws s) in
      if is_empty (skip_ws r) then Ok v else Err (decode_error h)
  end.

Definition json_loads (s : str) : result E value := json_loads_fuel (S (2 * length s)) s.

End decoder.
Arguments hooks : clear implicits.

(** ** What a scan consumes *)

Lemma eat_some c s r : eat c s = Some r -> s = c :: r.
Proof. destruct s as [|x s]; simpl; [done|]. destruct (N.eqb_spec x c) as [->|]; congruence. Qed.

Lemma eat_eq c s : eat c (c :: s) = Some s.
Proof. simpl. by rewrite N.eqb_refl. Qed.

Lemma eat_ne c x s : x <> c -> eat c (x :: s) = None.
Proof. simpl. by intros ->%N.eqb_neq. Qed.

Lemma skip_ws_split s : exists p, s = p ++ skip_ws s /\ forallb is_ws p = true.
Proof.
  induction s as [|c s (p & IH & Hp)]; [by exists []|]. simpl. destruct (is_ws c) eqn:E; [|by exists []].
  exists (c :: p). simpl. by rewrite <- IH, E.
Qed.

Lemma skip_ws_length s : (length (skip_ws s) <= length s)%nat.
Proof.
  destruct (skip_ws_split s) as (p & Hs & _). apply (f_equal length) in Hs.
  rewrite length_app in Hs. lia.
Qed.

Lemma scan_hex4_split s z r :
  scan_hex4 s = Some (z, r) ->
  exists a b c d, s = a :: b :: c :: d :: r /\
    (hex_value a <> None /\ hex_value b <> None /\ hex_value c <> None /\ hex_value d <> None).
Proof.
  destruct s as [|a [|b [|c [|d s]]]]; simpl; try done.
  destruct (hex_value a) eqn:?, (hex_value b) eqn:?, (hex_value c) eqn:?, (hex_value d) eqn:?; try done.
  intros [= _ <-]. exists a, b, c, d. repeat split; congruence.
Qed.

Lemma scan_char_length s c r : scan_char s = Some (c, r) -> (length r < length s)%nat.
Proof.
  destruct s as [|x s]; [done|]. simpl. destruct (N.eqb x 92); [|case_if; intros [= _ <-]; lia].
  destruct s as [|e s]; [done|]. destruct (N.eqb e 117); [|destruct (simple_escape e); intros [= _ <-]; simpl; lia].
  unfold scan_unicode. destruct (scan_hex4 s) as [[z r1]|] eqn:Eh; [|done].
  apply scan_hex4_split in Eh as (?&?&?&?&->&_).
  destruct (is_high_surrogate z); [|intros [= _ <-]; simpl; lia].
  unfold scan_low. destruct (eat 92 r1) as [r2|] eqn:E1; [|intros [= _ <-]; simpl; lia].
  destruct (eat 117 r2) as [r3|] eqn:E2; [|intros [= _ <-]; simpl; lia].
  apply eat_some in E1 as ->, E2 as ->.
  destruct (scan_hex4 r3) as [[z2 r4]|] eqn:Eh2; [|done].
  apply scan_hex4_split in Eh2 as (?&?&?&?&->&_).
  destruct (is_low_surrogate z2); intros [= _ <-]; simpl; lia.
Qed.

Lemma scan_string_length n s t r : scan_string n s = Some (t, r) -> (length r < length s)%nat.
Proof.
  revert s t. induction n as [|n IH]; [done|]. intros s t. simpl.
  destruct (eat 34 s) as [s'|] eqn:E; [apply eat_some in E as ->; intros [= _ ->]; simpl; lia|].
  destruct (scan_char s) as [[c r1]|] eqn:Ec; [|done]. apply scan_char_length in Ec.
  destruct (scan_string n r1) as [[t' r']|] eqn:Es; [|done]. intros [= _ <-]. apply IH in Es. lia.
Qed.

(** The fuel of a string body is enough: more changes nothing. *)
Lemma scan_string_fuel n m s :
  (length s < n)%nat -> (length s < m)%nat -> scan_string n s = scan_string m s.
Proof.
  revert m s. induction n as [|n IH]; intros [|m] s Hn Hm; try lia. simpl.
  destruct (eat 34 s); [done|]. destruct (scan_char s) as [[c r]|] eqn:Ec; [|done].
  apply scan_char_length in Ec. by rewrite (IH m) by lia.
Qed.

Lemma span_digits_split s d r : span_digits s = (d, r) -> s = d ++ r /\ forallb is_digit09 d = true.
Proof.
  revert d. induction s as [|c s IH]; intros d; simpl; [by intros [= <- <-]|].
  destruct (is_digit09 c) eqn:E; [|by intros [= <- <-]].
  destruct (span_digits s) as [d' r'] eqn:Es. intros [= <- <-].
  destruct (IH _ eq_refl) as [-> H]. simpl. by rewrite E.
Qed.

(** The characters of a number. *)
Definition is_number_char (c : N) : bool :=
  (is_digit09 c || N.eqb c 45 || N.eqb c 43 || N.eqb c 46 || N.eqb c 101 || N.eqb c 69)%bool.

Lemma digits_number_chars d : forallb is_digit09 d = true -> forallb is_number_char d = true.
Proof.
  rewrite !forallb_forall. intros H x Hx%H. unfold is_number_char. by rewrite Hx.
Qed.

(** [p] is a run of characters of a number. *)
Definition number_part (s p r : str) : Prop := s = p ++ r /\ forallb is_number_char p = true.

Lemma number_part_nil s : number_part s [] s.
Proof. done. Qed.

Lemma number_part_app s p r q t : number_part s p r -> number_part r q t -> number_part s (p ++ q) t.
Proof. intros [-> Hp] [-> Hq]. split; [by rewrite app_assoc|]. by rewrite forallb_app, Hp, Hq. Qed.

Lemma number_part_digits s d r : span_digits s = (d, r) -> number_part s d r.
Proof. intros [H1 H2]%span_digits_split. split; [done|by apply digits_number_chars]. Qed.

Lemma number_part_cons c s p r : is_number_char c = true -> number_part s p r -> number_part (c :: s) (c :: p) r.
Proof. intros Hc [-> Hp]. split; [done|]. simpl. by rewrite Hc. Qed.

Lemma scan_sign_part s p r : scan_sign s = (p, r) -> number_part s p r.
Proof.
  unfold scan_sign. destruct (eat 45 s) eqn:E; intros [= <- <-]; [|apply number_part_nil].
  by apply eat_some in E as ->.
Qed.

Lemma scan_int_part s p r : scan_int s = Some (p, r) -> number_part s p r /\ p <> [].
Proof.
  destruct s as [|c s]; simpl; [done|]. destruct (N.eqb_spec c 48) as [->|]; [by intros [= <- <-]|].
  destruct (is_digit09 c) eqn:E; [|done]. destruct (span_digits s) as [d r'] eqn:Es. intros [= <- <-].
  split; [|done]. apply number_part_cons; [|by apply number_part_digits].
  unfold is_number_char. by rewrite E.
Qed.

Lemma scan_frac_part s p r : scan_frac s = (p, r) -> number_part s p r.
Proof.
  unfold scan_frac. destruct (eat 46 s) as [s'|] eqn:E; [|intros [= <- <-]; apply number_part_nil].
  apply eat_some in E as ->. destruct (span_digits s') as [d r'] eqn:Es.
  destruct (is_empty d); intros [= <- <-]; [apply number_part_nil|].
  apply number_part_cons; [done|by apply number_part_digits].
Qed.

Lemma scan_exp_part s p r : scan_exp s = (p, r) -> number_part s p r.
Proof.
  destruct s as [|c s]; [by intros [= <- <-]|]. unfold scan_exp.
  destruct (N.eqb c 101 || N.eqb c 69)%bool eqn:Ec; [|intros [= <- <-]; apply number_part_nil].
  set (sg := match s with
             | [] => ([], [])
             | x :: s2 => if (N.eqb x 45 || N.eqb x 43)%bool then ([x], s2) else ([], s)
             end).
  assert (Hs : number_part s (fst sg) (snd sg)).
  { subst sg. destruct s as [|x s2]; [done|]. destruct (N.eqb x 45 || N.eqb x 43)%bool eqn:Ex; [|done].
    split; [done|]. simpl. unfold is_number_char. apply orb_true_iff in Ex as [->| ->];
      by rewrite ?orb_true_r. }
  destruct sg as [g s2]. destruct (span_digits s2) as [d r'] eqn:Es.
  destruct (is_empty d); intros [= <- <-]; [apply number_part_nil|].
  apply number_part_cons.
  - unfold is_number_char. apply orb_true_iff in Ec as [->| ->]; by rewrite ?orb_true_r.
  - eapply number_part_app; [apply Hs|by apply number_part_digits].
Qed.

(** A number is the run of characters in front of what follows. *)
Lemma match_number_part s t fl r :
  match_number s = Some (t, fl, r) -> number_part s t r /\ t <> [].
Proof.
  unfold match_number. destruct (scan_sign s) as [sg s1] eqn:E1.
  destruct (scan_int s1) as [[ip s2]|] eqn:E2; [|done]. destruct (scan_frac s2) as [fp s3] eqn:E3.
  destruct (scan_exp s3) as [ep s4] eqn:E4. intros [= <- _ <-].
  apply scan_int_part in E2 as [E2 Hne]. split.
  - eapply number_part_app; [by apply scan_sign_part|]. eapply number_part_app; [done|].
    eapply number_part_app; [by apply scan_frac_part|by apply scan_exp_part].
  - intros [_ H]%app_eq_nil. apply app_eq_nil in H as [H _]. done.
Qed.

Lemma strip_prefix_some p s r : strip_prefix p s = Some r -> s = p ++ r.
Proof.
  revert s. induction p as [|x p IH]; intros [|y s]; simpl; try congruence.
  destruct (N.eqb_spec x y) as [->|]; [|done]. by intros ->%IH.
Qed.

(** ** The fuel of the decoder is enough *)

Section fuel.
Context {E : Type} (h : hooks E).

Lemma rbind_pair {A B} (m : result E A) (r r' : B) v : rbind m (fun v => Ok (v, r)) = Ok (v, r') -> r = r'.
Proof. destruct m; simpl; congruence. Qed.

(** A literal or a number is a non-empty run of characters in front of what
    follows, none of which opens or closes anything. *)
Definition is_literal_char (c : N) : bool := (is_number_char c || char_in c (u "nulltruefalseNaInfinity"))%bool.

Lemma scan_literal_split s v r :
  scan_literal h s = Ok (v, r) -> exists p, s = p ++ r /\ p <> [] /\ forallb is_literal_char p = true.
Proof.
  unfold scan_literal.
  destruct (strip_prefix (u "null") s) eqn:H1; [apply strip_prefix_some in H1 as ->|clear H1].
  { intros [= _ <-]. eauto. }
  destruct (strip_prefix (u "true") s) eqn:H1; [apply strip_prefix_some in H1 as ->|clear H1].
  { intros [= _ <-]. eauto. }
  destruct (strip_prefix (u "false") s) eqn:H1; [apply strip_prefix_some in H1 as ->|clear H1].
  { intros [= _ <-]. eauto. }
  destruct (strip_prefix (u "NaN") s) eqn:H1; [apply strip_prefix_some in H1 as ->|clear H1].
  { intros <-%rbind_pair. eauto. }
  destruct (strip_prefix (u "Infinity") s) eqn:H1; [apply strip_prefix_some in H1 as ->|clear H1].
  { intros <-%rbind_pair. eauto. }
  destruct (strip_prefix (u "-Infinity") s) eqn:H1; [apply strip_prefix_some in H1 as ->|clear H1].
  { intros <-%rbind_pair. eauto. }
  unfold scan_number. destruct (match_number s) as [[[t fl] r']|] eqn:Em; [|done].
  intros <-%rbind_pair. apply match_number_part in Em as [[-> Hc] Hn]. exists t. repeat split; [done|].
  rewrite forallb_forall in Hc |- *. intros x Hx%Hc. unfold is_literal_char. by rewrite Hx.
Qed.

Lemma scan_literal_length s v r : scan_literal h s = Ok (v, r) -> (length r < length s)%nat.
Proof.
  intros ([|c p] & -> & Hp & _)%scan_literal_split; [done|]. rewrite length_app. simpl. lia.
Qed.

Lemma scanstring_length s t r : scanstring h s = Ok (t, r) -> (length r < length s)%nat.
Proof.
  unfold scanstring. destruct (scan_string _ s) as [[t' r']|] eqn:Es; [|done].
  intros [= _ <-]. by apply scan_string_length in Es.
Qed.

(** Every scanner consumes at least one character. *)
Lemma scan_lengths n :
  (forall s v r, scan_once h n s = Ok (v, r) -> (length r < length s)%nat) /\
  (forall s l r, scan_items h n s = Ok (l, r) -> (length r < length s)%nat) /\
  (forall s l r, scan_pairs h n s = Ok (l, r) -> (length r < length s)%nat).
Proof.
  induction n as [|n (IHo & IHi & IHp)]; [done|]. split; [|split].
  - intros s v r. cbn [scan_once].
    destruct (eat 34 s) as [s'|] eqn:E1.
    { apply eat_some in E1 as ->. rewrite rbind_ok. intros ([t r'] & Ht%scanstring_length & [= _ <-]). simpl. lia. }
    destruct (eat 91 s) as [s'|] eqn:E2.
    { apply eat_some in E2 as ->. pose proof (skip_ws_length s').
      destruct (eat 93 _) as [r'|] eqn:E3.
      - apply eat_some in E3. rewrite E3 in *. intros [= _ <-]. simpl in *. lia.
      - rewrite rbind_ok. intros ([l r'] & Ht%IHi & [= _ <-]). simpl. lia. }
    destruct (eat 123 s) as [s'|] eqn:E3; [|apply scan_literal_length].
    apply eat_some in E3 as ->. pose proof (skip_ws_length s').
    destruct (eat 125 _) as [r'|] eqn:E4.
    + apply eat_some in E4. rewrite E4 in *. intros <-%rbind_pair. simpl in *. lia.
    + rewrite rbind_ok. intros ([l r'] & Ht%IHp & <-%rbind_pair). simpl. lia.
  - intros s l r. cbn [scan_items]. rewrite rbind_ok. intros ([v r1] & Ho%IHo & H).
    pose proof (skip_ws_length r1). destruct (eat 93 _) as [r'|] eqn:E1.
    { apply eat_some in E1. rewrite E1 in *. injection H as _ <-. simpl in *. lia. }
    destruct (eat 44 _) as [r'|] eqn:E2; [|done]. apply eat_some in E2. rewrite E2 in *.
    apply rbind_ok in H as ([l' r2] & Hi%IHi & [= _ <-]). pose proof (skip_ws_length r'). simpl in *. lia.
  - intros s l r. cbn [scan_pairs]. destruct (eat 34 s) as [s'|] eqn:E0; [|done]. apply eat_some in E0 as ->.
    rewrite rbind_ok. intros ([k r1] & Hk%scanstring_length & H). pose proof (skip_ws_length r1).
    destruct (eat 58 _) as [r2|] eqn:E1; [|done]. apply eat_some in E1. rewrite E1 in *.
    apply rbind_ok in H as ([v r3] & Ho%IHo & H). pose proof (skip_ws_length r2). pose proof (skip_ws_length r3).
    destruct (eat 125 _) as [r'|] eqn:E2.
    { apply eat_some in E2. rewrite E2 in *. injection H as _ <-. simpl in *. lia. }
    destruct (eat 44 _) as [r'|] eqn:E3; [|done]. apply eat_some in E3. rewrite E3 in *.
    apply rbind_ok in H as ([l' r4] & Hi%IHp & [= _ <-]). pose proof (skip_ws_length r'). simpl in *. lia.
Qed.

(** Two units of fuel for each character left are enough: more changes nothing. *)
Lemma scan_fuel n :
  (forall m s, (2 * length s < n)%nat -> (2 * length s < m)%nat -> scan_once h n s = scan_once h m s) /\
  (forall m s, (2 * length s + 1 < n)%nat -> (2 * length s + 1 < m)%nat -> scan_items h n s = scan_items h m s) /\
  (forall m s, (2 * length s + 1 < n)%nat -> (2 * length s + 1 < m)%nat -> scan_pairs h n s = scan_pairs h m s).
Proof.
  induction n as [|n (IHo & IHi & IHp)]; [repeat split; intros; lia|]. split; [|split].
  - intros [|m] s Hn Hm; [lia|]. cbn [scan_once].
    destruct (eat 34 s) as [s'|]; [done|]. destruct (eat 91 s) as [s'|] eqn:E2.
    { apply eat_some in E2 as ->. pose proof (skip_ws_length s'). simpl in *.
      destruct (eat 93 _); [done|]. by rewrite (IHi m) by lia. }
    destruct (eat 123 s) as [s'|] eqn:E3; [|done].
    apply eat_some in E3 as ->. pose proof (skip_ws_length s'). simpl in *.
    destruct (eat 125 _); [done|]. by rewrite (IHp m) by lia.
  - intros [|m] s Hn Hm; [lia|]. cbn [scan_items]. rewrite (IHo m) by lia.
    apply rbind_ext. intros [v r1] Ho%scan_lengths. pose proof (skip_ws_length r1).
    destruct (eat 93 _); [done|]. destruct (eat 44 _) as [r'|] eqn:E2; [|done]. apply eat_some in E2.
    rewrite E2 in *. pose proof (skip_ws_length r'). simpl in *. by rewrite (IHi m) by lia.
  - intros [|m] s Hn Hm; [lia|]. cbn [scan_pairs]. destruct (eat 34 s) as [s'|] eqn:E0; [|done].
    apply eat_some in E0 as ->. apply rbind_ext. intros [k r1] Hk%scanstring_length.
    pose proof (skip_ws_length r1). destruct (eat 58 _) as [r2|] eqn:E1; [|done].
    apply eat_some in E1. rewrite E1 in *. pose proof (skip_ws_length r2). simpl in *.
    rewrite (IHo m) by lia. apply rbind_ext. intros [v r3] Ho%scan_lengths. pose proof (skip_ws_length r3).
    destruct (eat 125 _); [done|]. destruct (eat 44 _) as [r'|] eqn:E3; [|done]. apply eat_some in E3.
    rewrite E3 in *. pose proof (skip_ws_length r'). simpl in *. by rewrite (IHp m) by lia.
Qed.

Lemma json_loads_fuel_enough n s : (2 * length s < n)%nat -> json_loads_fuel h n s = json_loads h s.
Proof.
  intros Hn. unfold json_loads, json_loads_fuel. destruct (eat _ s); [done|].
  pose proof (skip_ws_length s). apply f_equal2; [|done]. apply scan_fuel; lia.
Qed.
End fuel.
