(* ===== verification/StrictJson.v ===== *)
(** The bounded, unambiguous JSON reader of strict_json.py, through which every
    record, configuration and envelope enters the program: the nesting check
    that runs before the recursive decoder, the hooks that refuse duplicate keys,
    constants outside JSON and oversized numbers, and the final walk that refuses
    strings that are not Unicode. *)
From Stdlib Require Import Floats.SpecFloat.
From S2P Require Export Prelude PyStr PyFloat PyVal Bytes Json JsonParse.
Open Scope Z_scope.

(** ** The reader *)

Definition MAX_JSON_DEPTH : Z := 256.
Definition MAX_JSON_INTEGER_DIGITS : Z := 128.
Definition MAX_JSON_NUMBER_CHARS : Z := 256.

(** The refusals, all of them [ValueError] to the caller. *)
Inductive json_error :=
| JSONDecodeError
| NestingLimit
| DuplicateKey (key : str)
| NonFiniteNumber (text : str)
| NumberTooLong
| IntegerTooLong
| UnpairedSurrogate.

(** Where the nesting check stands in the text. *)
Record nesting := { depth : Z; in_string : bool; escaped : bool }.

Definition nesting_step (st : nesting) (character : N) : result json_error nesting :=
  if in_string st then
    if escaped st then Ok {| depth := depth st; in_string := true; escaped := false |}
    else if N.eqb character 92 then Ok {| depth := depth st; in_string := true; escaped := true |}
    else if N.eqb character 34 then Ok {| depth := depth st; in_string := false; escaped := escaped st |}
    else Ok st
  else if N.eqb character 34 then
    Ok {| depth := depth st; in_string := true; escaped := escaped st |}
  else if (N.eqb character 91 || N.eqb character 123)%bool then
    guard* (depth st + 1 <=? MAX_JSON_DEPTH) else NestingLimit in
    Ok {| depth := depth st + 1; in_string := false; escaped := escaped st |}
  else if (N.eqb character 93 || N.eqb character 125)%bool then
    Ok {| depth := depth st - 1; in_string := false; escaped := escaped st |}
  else Ok st.

Fixpoint nesting_run (st : nesting) (text : str) : result json_error nesting :=
  match text with
  | [] => Ok st
  | c :: text' => let* st' := nesting_step st c in nesting_run st' text'
  end.

Definition nesting_start : nesting := {| depth := 0; in_string := false; escaped := false |}.

Definition _check_nesting (text : str) : result json_error unit :=
  let* _ := nesting_run nesting_start text in Ok tt.

Fixpoint unique_from (result : dict) (pairs : list (str * value)) : Prelude.result json_error dict :=
  match pairs with
  | [] => Ok result
  | (key, v) :: pairs' =>
      guard* negb (dmem key result) else DuplicateKey key in
      unique_from (dset key v result) pairs'
  end.

Definition _unique_object (pairs : list (str * value)) : result json_error value :=
  let* d := unique_from [] pairs in Ok (VDict d).

Definition _reject_constant (text : str) : result json_error value := Err (NonFiniteNumber text).

Definition _bounded_float (text : str) : result json_error value :=
  guard* (Z.of_nat (length text) <=? MAX_JSON_NUMBER_CHARS) else NumberTooLong in
  let parsed := py_float text in
  guard* is_finite parsed else NonFiniteNumber text in
  Ok (VFloat parsed).

Definition _bounded_int (text : str) : result json_error value :=
  guard* (Z.of_nat (length (lstrip_by (N.eqb 45) text)) <=? MAX_JSON_INTEGER_DIGITS)
    else IntegerTooLong in
  Ok (VInt (py_int text)).

(** The worklist of the surrogate walk, with its top first. *)
Fixpoint surrogate_walk (fuel : nat) (pending : list value) : result json_error unit :=
  match fuel with
  | O => Ok tt
  | S n =>
      match pending with
      | [] => Ok tt
      | item :: rest =>
          match item with
          | VStr s => match utf8 s with Some _ => surrogate_walk n rest | None => Err UnpairedSurrogate end
          | VDict d => surrogate_walk n (rev (map snd d) ++ rev (map fst d) ++ rest)
          | VList l => surrogate_walk n (rev l ++ rest)
          | _ => surrogate_walk n rest
          end
      end
  end.

(** The number of values a value holds, itself included. *)
Fixpoint nodes (v : value) : nat :=
  match v with
  | VList l => S (list_sum (map nodes l))
  | VDict d => S (list_sum (map (fun kv => nodes (fst kv) + nodes (snd kv))%nat d))
  | _ => 1
  end.

Definition _reject_unpaired_surrogates (v : value) : result json_error unit :=
  surrogate_walk (S (nodes v)) [v].

Definition strict_hooks : hooks json_error := {|
  object_pairs_hook := _unique_object;
  parse_constant := _reject_constant;
  parse_float := _bounded_float;
  parse_int := _bounded_int;
  decode_error := JSONDecodeError;
|}.

Definition strict_json_loads (text : str) : result json_error value :=
  let* _ := _check_nesting text in
  let* v := json_loads strict_hooks text in
  let* _ := _reject_unpaired_surrogates v in
  Ok v.

Example strict_ex :
  map (fun t => strict_json_loads (u t))
    ["{}"; "[1, -2.5e1 ,true]"; "{1:2}"; "[NaN]"; "[1,]"; "01"; "1.e5"; "  null "; "-"; "1e400"; "[-Infinity]"]
  = [Ok (VDict []); Ok (VList [VInt 1; VFloat (float_of_Z (-25)); VBool true]); Err JSONDecodeError;
     Err (NonFiniteNumber (u "NaN")); Err JSONDecodeError; Err JSONDecodeError; Err JSONDecodeError;
     Ok VNone; Err JSONDecodeError; Err (NonFiniteNumber (u "1e400"));
     Err (NonFiniteNumber (u "-Infinity"))].
Proof. vm_compute. reflexivity. Qed.

Example strict_strings_ex :
  let q := [34]%N in
  map strict_json_loads
    [q ++ u "a\u0041\ud83d\ude00\n" ++ q; q ++ u "\ud83d" ++ q; q ++ u "\ud83d\u0041" ++ q;
     u "{" ++ q ++ u "a" ++ q ++ u ":1," ++ q ++ u "a" ++ q ++ u ":2}"; q ++ [10]%N ++ q]
  = [Ok (VStr [97; 65; 128512; 10]%N); Err UnpairedSurrogate; Err UnpairedSurrogate;
     Err (DuplicateKey (u "a")); Err JSONDecodeError].
Proof. vm_compute. reflexivity. Qed.
