(* ===== verification/StrictJsonSound.v ===== *)
(** What a document accepted by the strict reader is: the nesting check of the
    text bounds the depth of the decoded value, the hooks leave no duplicate key,
    no float outside the finite ones and no oversized integer, and the final walk
    leaves Unicode only.  The fuel of the reader is enough. *)
From Stdlib Require Import Floats.SpecFloat.
From S2P Require Export StrictJson.
Open Scope Z_scope.

(** ** Decoded values *)

Definition distinct_keys (d : dict) : bool :=
  negb (has_non_str_key d) && nodupb str_eqb (dict_str_keys d).

(** Values the hooks let through. *)
Fixpoint bounded_value (v : value) : bool :=
  match v with
  | VInt z => Z.abs z <? 10 ^ MAX_JSON_INTEGER_DIGITS
  | VFloat f => is_finite f
  | VList l => forallb bounded_value l
  | VDict d => distinct_keys d && forallb (fun kv => bounded_value (snd kv)) d
  | _ => true
  end.

(** Values whose strings, keys included, are Unicode. *)
Fixpoint scalar_value (v : value) : bool :=
  match v with
  | VStr s => match utf8 s with Some _ => true | None => false end
  | VList l => forallb scalar_value l
  | VDict d => forallb (fun kv => scalar_value (fst kv) && scalar_value (snd kv)) d
  | _ => true
  end.

(** How deep arrays and objects nest. *)
Fixpoint vdepth (v : value) : Z :=
  match v with
  | VList l => 1 + fold_right (fun x a => Z.max (vdepth x) a) 0 l
  | VDict d => 1 + fold_right (fun kv a => Z.max (vdepth (snd kv)) a) 0 d
  | _ => 0
  end.

(** ** The walk over the strings *)

Lemma nodes_positive v : (0 < nodes v)%nat.
Proof. destruct v; simpl; lia. Qed.

Lemma nodes_rev_values l : list_sum (map nodes (rev l)) = list_sum (map nodes l).
Proof. induction l as [|x l IH]; [done|]. simpl. rewrite map_app, list_sum_app, IH. simpl. lia. Qed.

Lemma nodes_dict (d : dict) :
  list_sum (map (fun kv => nodes (fst kv) + nodes (snd kv))%nat d)
  = (list_sum (map nodes (map snd d)) + list_sum (map nodes (map fst d)))%nat.
Proof. induction d as [|[k v] d IH]; [done|]. simpl in *. lia. Qed.

Lemma forallb_rev {A} (f : A -> bool) l : forallb f (rev l) = forallb f l.
Proof. induction l as [|x l IH]; [done|]. simpl. rewrite forallb_app, IH. simpl. by rewrite andb_true_r, andb_comm. Qed.

Lemma forallb_map_comp {A B} (f : B -> bool) (g : A -> B) l : forallb f (map g l) = forallb (fun x => f (g x)) l.
Proof. induction l as [|x l IH]; [done|]. simpl. by rewrite IH. Qed.

Lemma scalar_dict (d : dict) :
  forallb (fun kv => scalar_value (fst kv) && scalar_value (snd kv)) d
  = forallb scalar_value (map snd d) && forallb scalar_value (map fst d).
Proof.
  induction d as [|[k v] d IH]; [done|]. simpl. rewrite IH.
  destruct (scalar_value k), (scalar_value v), (forallb scalar_value (map snd d)); simpl; auto with bool.
Qed.

(** With fuel for every value it holds, the worklist decides whether all pending
    values are Unicode. *)
Lemma surrogate_walk_spec n pending :
  (list_sum (map nodes pending) < n)%nat ->
  surrogate_walk n pending = if forallb scalar_value pending then Ok tt else Err UnpairedSurrogate.
Proof.
  revert pending. induction n as [|n IH]; intros [|v rest] Hn; try done; simpl in Hn; [lia|].
  destruct v as [ | | | |s|l|d]; cbn [surrogate_walk forallb scalar_value]; try (apply IH; simpl in Hn; lia).
  - destruct (utf8 s); [|done]. apply IH. simpl in Hn. lia.
  - rewrite IH.
    + by rewrite forallb_app, forallb_rev.
    + rewrite map_app, list_sum_app, nodes_rev_values. simpl in Hn. lia.
  - rewrite IH.
    + by rewrite !forallb_app, !forallb_rev, scalar_dict, andb_assoc.
    + rewrite !map_app, !list_sum_app, !nodes_rev_values. simpl in Hn. rewrite nodes_dict in Hn. lia.
Qed.

Lemma reject_unpaired_spec v :
  _reject_unpaired_surrogates v = if scalar_value v then Ok tt else Err UnpairedSurrogate.
Proof.
  unfold _reject_unpaired_surrogates. rewrite surrogate_walk_spec by (simpl; lia). simpl.
  by rewrite andb_true_r.
Qed.

(** ** The nesting check of a text *)

Definition out_at (d : Z) : nesting := {| depth := d; in_string := false; escaped := false |}.
Definition in_at (d : Z) : nesting := {| depth := d; in_string := true; escaped := false |}.

(** The check reaches [r] from [s], [delta] brackets further, having been at most
    [k] brackets deeper on the way. *)
Definition nests (delta : Z) (s r : str) (k : Z) : Prop :=
  forall d st, d <= MAX_JSON_DEPTH -> nesting_run (out_at d) s = Ok st ->
    nesting_run (out_at (d + delta)) r = Ok st /\ d + k <= MAX_JSON_DEPTH.

Lemma nests_trans da db s r t ka kb :
  da <= ka -> nests da s r ka -> nests db r t kb -> nests (da + db) s t (Z.max ka (da + kb)).
Proof.
  intros Hk Ha Hb d st Hd Hs. destruct (Ha d st Hd Hs) as [H1 H2].
  destruct (Hb (d + da) st ltac:(lia) H1) as [H3 H4]. rewrite Z.add_assoc. split; [done|lia].
Qed.

Lemma nests_refl s : nests 0 s s 0.
Proof. intros d st Hd Hs. rewrite Z.add_0_r. split; [done|lia]. Qed.

(** Characters that neither open, close nor quote. *)
Definition neutral (c : N) : bool :=
  negb (N.eqb c 34 || N.eqb c 91 || N.eqb c 123 || N.eqb c 93 || N.eqb c 125)%bool.

Lemma nesting_step_neutral d c : neutral c = true -> nesting_step (out_at d) c = Ok (out_at d).
Proof.
  unfold neutral. rewrite negb_true_iff, !orb_false_iff. intros [[[[H1 H2] H3] H4] H5].
  unfold nesting_step. simpl. by rewrite H1, H2, H3, H4, H5.
Qed.

Lemma nesting_run_neutral d p r :
  forallb neutral p = true -> nesting_run (out_at d) (p ++ r) = nesting_run (out_at d) r.
Proof.
  induction p as [|c p IH]; [done|]. simpl. intros [Hc Hp]%andb_true_iff.
  rewrite nesting_step_neutral by done. simpl. auto.
Qed.

Lemma neutral_sub (f : N -> bool) p :
  (forall c, f c = true -> neutral c = true) -> forallb f p = true -> forallb neutral p = true.
Proof. rewrite !forallb_forall. auto. Qed.

Lemma ws_neutral c : is_ws c = true -> neutral c = true.
Proof. unfold is_ws. rewrite !orb_true_iff, !N.eqb_eq. intros H. repeat destruct H as [H|H]; by subst. Qed.

Lemma literal_char_neutral c : is_literal_char c = true -> neutral c = true.
Proof.
  unfold is_literal_char, is_number_char, is_digit09, char_in, neutral. intros H.
  apply negb_true_iff. rewrite !orb_false_iff, !N.eqb_neq. apply orb_true_iff in H as [H|H].
  - rewrite !orb_true_iff, andb_true_iff, !N.leb_le, !N.eqb_eq in H. lia.
  - rewrite existsb_exists in H. destruct H as (x & Hin & ->%N.eqb_eq).
    vm_compute in Hin. repeat destruct Hin as [<-|Hin]; try done; repeat split; discriminate.
Qed.

Lemma nests_neutral p r : forallb neutral p = true -> nests 0 (p ++ r) r 0.
Proof. intros Hp d st Hd. rewrite nesting_run_neutral by done. rewrite !Z.add_0_r. done. Qed.

Lemma nests_ws s : nests 0 s (skip_ws s) 0.
Proof.
  destruct (skip_ws_split s) as (p & Hs & Hp). rewrite Hs at 1.
  apply nests_neutral, (neutral_sub is_ws); auto using ws_neutral.
Qed.

Lemma nests_char c r : neutral c = true -> nests 0 (c :: r) r 0.
Proof. intros Hc. apply (nests_neutral [c]). simpl. by rewrite Hc. Qed.

Lemma nests_open c r : c = 91%N \/ c = 123%N -> nests 1 (c :: r) r 1.
Proof.
  intros Hc d st Hd. cbn [nesting_run]. unfold nesting_step. simpl.
  destruct Hc as [-> | ->]; simpl; destruct (Z.leb_spec (d + 1) MAX_JSON_DEPTH); simpl; by intros.
Qed.

Lemma nests_close c r : c = 93%N \/ c = 125%N -> nests (-1) (c :: r) r 0.
Proof.
  intros Hc d st Hd. cbn [nesting_run]. unfold nesting_step. simpl.
  destruct Hc as [-> | ->]; simpl; rewrite Z.add_0_r; by intros.
Qed.

(** ** Strings *)

Lemma hex_value_plain c : hex_value c <> None -> N.eqb c 92 = false /\ N.eqb c 34 = false.
Proof.
  unfold hex_value, is_digit09. rewrite !N.eqb_neq. intros H.
  split; intros ->; by apply H.
Qed.

Lemma nesting_hex4 d s z r :
  scan_hex4 s = Some (z, r) -> nesting_run (in_at d) s = nesting_run (in_at d) r.
Proof.
  intros (a & b & c & e & -> & Ha & Hb & Hc & He)%scan_hex4_split.
  apply hex_value_plain in Ha as [Ha1 Ha2], Hb as [Hb1 Hb2], Hc as [Hc1 Hc2], He as [He1 He2].
  cbn [nesting_run]. unfold nesting_step. simpl.
  repeat (rewrite ?Ha1, ?Ha2, ?Hb1, ?Hb2, ?Hc1, ?Hc2, ?He1, ?He2; simpl). done.
Qed.

(** The check walks over an escape as over its first two characters. *)
Lemma nesting_escape d e s : nesting_run (in_at d) (92%N :: e :: s) = nesting_run (in_at d) s.
Proof. done. Qed.

Lemma nesting_char d s c r :
  eat 34 s = None -> scan_char s = Some (c, r) -> nesting_run (in_at d) s = nesting_run (in_at d) r.
Proof.
  intros Hq. destruct s as [|x s]; [done|]. simpl in Hq.
  destruct (N.eqb x 34) eqn:Ex; [done|]. cbn [scan_char]. destruct (N.eqb x 92) eqn:E92.
  - apply N.eqb_eq in E92 as ->. destruct s as [|e s]; [done|]. rewrite nesting_escape.
    destruct (N.eqb e 117); [|by destruct (simple_escape e); [intros [= _ <-]|]].
    unfold scan_unicode. destruct (scan_hex4 s) as [[z r1]|] eqn:Eh; [|done].
    rewrite (nesting_hex4 d _ _ _ Eh). destruct (is_high_surrogate z); [|by intros [= _ <-]].
    unfold scan_low. destruct (eat 92 r1) as [r2|] eqn:E1; [|by intros [= _ <-]].
    destruct (eat 117 r2) as [r3|] eqn:E2; [|by intros [= _ <-]].
    destruct (scan_hex4 r3) as [[z2 r4]|] eqn:Eh2; [|done].
    destruct (is_low_surrogate z2); [|by intros [= _ <-]].
    intros [= _ <-]. apply eat_some in E1 as ->, E2 as ->. rewrite nesting_escape. by eapply nesting_hex4.
  - destruct (N.leb x 31); [done|]. intros [= _ <-]. cbn [nesting_run]. unfold nesting_step. simpl.
    by rewrite E92, Ex.
Qed.

Lemma nesting_string d n s t r :
  scan_string n s = Some (t, r) -> nesting_run (in_at d) s = nesting_run (out_at d) r.
Proof.
  revert s t. induction n as [|n IH]; [done|]. intros s t. simpl.
  destruct (eat 34 s) as [s'|] eqn:E; [by apply eat_some in E as ->; intros [= _ ->]|].
  destruct (scan_char s) as [[c r1]|] eqn:Ec; [|done].
  destruct (scan_string n r1) as [[t' r']|] eqn:Es; [|done]. intros [= _ <-].
  rewrite (nesting_char d _ _ _ E Ec). by eapply IH.
Qed.

Lemma nests_scanstring {E} (h : hooks E) s t r : scanstring h s = Ok (t, r) -> nests 0 (34%N :: s) r 0.
Proof.
  unfold scanstring. destruct (scan_string _ s) as [[t' r']|] eqn:Es; [|done]. intros [= _ <-] d st Hd.
  change (nesting_run (out_at d) (34%N :: s)) with (nesting_run (in_at d) s).
  rewrite (nesting_string d _ _ _ _ Es), !Z.add_0_r. done.
Qed.

(** ** What the hooks let through *)

Lemma digits_denote_bound d :
  forallb is_digit09 d = true -> 0 <= digits_denote d < 10 ^ Z.of_nat (length d).
Proof.
  induction d as [|c d IH] using rev_ind; [done|]. rewrite forallb_app, andb_true_iff. intros [Hd Hc].
  specialize (IH Hd). simpl in Hc. rewrite andb_true_r in Hc.
  unfold is_digit09 in Hc. rewrite andb_true_iff, !N.leb_le in Hc.
  unfold digits_denote in *. rewrite fold_left_app. simpl. rewrite length_app, Nat2Z.inj_add, Z.pow_add_r by lia.
  change (10 ^ Z.of_nat (length [c])) with 10. lia.
Qed.

Lemma lstrip_dash d : forallb is_digit09 d = true -> lstrip_by (N.eqb 45) d = d.
Proof.
  destruct d as [|c d]; [done|]. intros Hc. unfold lstrip_by, drop_while.
  destruct (N.eqb_spec 45 c) as [<-|]; done.
Qed.

(** The text of an integer: an optional sign and digits. *)
Lemma match_number_int s t r :
  match_number s = Some (t, false, r) ->
  exists d, forallb is_digit09 d = true /\ (t = d \/ t = 45%N :: d).
Proof.
  unfold match_number. destruct (scan_sign s) as [sg s1] eqn:E1.
  destruct (scan_int s1) as [[ip s2]|] eqn:E2; [|done]. destruct (scan_frac s2) as [fp s3] eqn:E3.
  destruct (scan_exp s3) as [ep s4] eqn:E4. intros [= <- Hfl <-].
  apply negb_false_iff, andb_true_iff in Hfl as [Hf He]. apply is_empty_iff in Hf as ->, He as ->.
  rewrite !app_nil_r. exists ip. split.
  - destruct s1 as [|c s1]; [done|]. simpl in E2. destruct (N.eqb_spec c 48) as [->|]; [by injection E2 as <- _|].
    destruct (is_digit09 c) eqn:Ec; [|done]. destruct (span_digits s1) as [d r'] eqn:Ed.
    injection E2 as <- _. apply span_digits_split in Ed as [_ Ed]. simpl. by rewrite Ec.
  - unfold scan_sign in E1. destruct (eat 45 s); injection E1 as <- _; auto.
Qed.

Lemma int_text_bound d t k :
  forallb is_digit09 d = true -> t = d \/ t = 45%N :: d ->
  Z.of_nat (length (lstrip_by (N.eqb 45) t)) <= k -> Z.abs (py_int t) < 10 ^ k.
Proof.
  intros Hd Ht Hk. pose proof (digits_denote_bound d Hd) as Hb.
  assert (Hl : Z.of_nat (length d) <= k).
  { destruct Ht as [-> | ->]; [by rewrite lstrip_dash in Hk|].
    change (lstrip_by (N.eqb 45) (45%N :: d)) with (lstrip_by (N.eqb 45) d) in Hk.
    by rewrite lstrip_dash in Hk. }
  pose proof (Z.pow_le_mono_r 10 _ _ ltac:(lia) Hl).
  destruct Ht as [-> | ->]; unfold py_int.
  - assert (eat 45 d = None) as ->; [|lia]. destruct d as [|c d]; [done|]. apply eat_ne. by intros ->.
  - rewrite eat_eq. lia.
Qed.

Lemma bounded_int_ok d t v :
  forallb is_digit09 d = true -> t = d \/ t = 45%N :: d -> _bounded_int t = Ok v ->
  bounded_value v = true.
Proof.
  intros Hd Ht. unfold _bounded_int. case_if; [|done]. intros [= <-]. cbn [bounded_value].
  apply Z.leb_le in Heqb. by apply Z.ltb_lt, (int_text_bound d).
Qed.

Lemma bounded_float_ok t v : _bounded_float t = Ok v -> bounded_value v = true.
Proof. unfold _bounded_float. repeat (case_if; [|done]). by intros [= <-]. Qed.

(** *** Objects *)

Lemma dlookup_app k (d e : dict) :
  dlookup k (d ++ e) = match dlookup k d with Some v => Some v | None => dlookup k e end.
Proof. induction d as [|[k' v] d IH]; [done|]. simpl. by destruct (is_key k k'). Qed.

Lemma dset_append k v (d : dict) : dmem k d = false -> dset k v d = d ++ [(VStr k, v)].
Proof.
  unfold dmem. induction d as [|[k' v'] d IH]; [done|]. simpl. destruct (is_key k k'); [done|].
  by intros ->%IH.
Qed.

Definition pair_of (kv : str * value) : value * value := (VStr (fst kv), snd kv).

Lemma dmem_pairs k pairs : dmem k (map pair_of pairs) = str_in k (map fst pairs).
Proof.
  unfold dmem, str_in. induction pairs as [|[k' v] pairs IH]; [done|]. simpl.
  rewrite (str_eqb_sym k k'). by destruct (k' =s? k).
Qed.

(** The pairs of an object become its dictionary, in order, exactly when their
    keys are distinct. *)
Lemma unique_from_ok pre pairs d :
  NoDup (map fst pre) ->
  unique_from (map pair_of pre) pairs = Ok d <->
  d = map pair_of (pre ++ pairs) /\ NoDup (map fst (pre ++ pairs)).
Proof.
  revert pre. induction pairs as [|[k v] pairs IH]; intros pre Hn; simpl.
  - rewrite app_nil_r. naive_solver.
  - rewrite dmem_pairs. destruct (str_in k (map fst pre)) eqn:E.
    + simpl. split; [done|]. intros [_ Hd]. apply str_in_In in E. rewrite map_app in Hd.
      apply NoDup_app in Hd as (_ & Hd & _). exfalso.
      apply list_elem_of_In in E. apply (Hd _ E). simpl. left.
    + simpl. rewrite dset_append by by rewrite dmem_pairs.
      change [(VStr k, v)] with (map pair_of [(k, v)]). rewrite <- map_app, IH, <- app_assoc; [done|].
      rewrite map_app. apply NoDup_app. split; [done|]. split; [|apply NoDup_singleton].
      intros x Hx Hx'. simpl in Hx'. apply list_elem_of_singleton in Hx' as ->.
      apply str_in_not_In in E. by apply E, list_elem_of_In.
Qed.

Lemma unique_object_ok pairs v :
  _unique_object pairs = Ok v <-> v = VDict (map pair_of pairs) /\ NoDup (map fst pairs).
Proof.
  unfold _unique_object. rewrite rbind_ok. pose proof (unique_from_ok [] pairs) as H. simpl in H.
  setoid_rewrite H; [|constructor]. naive_solver.
Qed.

Lemma pairs_keys pairs : dict_str_keys (map pair_of pairs) = map fst pairs.
Proof. unfold dict_str_keys. induction pairs as [|[k v] pairs IH]; [done|]. simpl in *. by rewrite IH. Qed.

Lemma pairs_distinct pairs : NoDup (map fst pairs) -> distinct_keys (map pair_of pairs) = true.
Proof.
  intros Hn. unfold distinct_keys. rewrite pairs_keys. apply andb_true_iff. split.
  - apply negb_true_iff, existsb_false. by intros x ([k v] & <- & _)%in_map_iff.
  - apply nodupb_NoDup; [apply str_eqb_eq|done].
Qed.

(** *** Values *)

Definition list_depth (l : list value) : Z := fold_right (fun x a => Z.max (vdepth x) a) 0 l.
Definition pairs_depth (l : list (str * value)) : Z := fold_right (fun kv a => Z.max (vdepth (snd kv)) a) 0 l.

Lemma vdepth_nonneg v : 0 <= vdepth v.
Proof.
  induction v as [ | | | | |l IH|d IH] using value_nested_ind; simpl; try lia;
    induction IH; simpl; lia.
Qed.

Lemma vdepth_pairs l : vdepth (VDict (map pair_of l)) = 1 + pairs_depth l.
Proof. simpl. f_equal. induction l as [|[k v] l IH]; [done|]. simpl in *. by rewrite IH. Qed.

Lemma scan_number_ok s v r :
  scan_number strict_hooks s = Ok (v, r) -> bounded_value v = true /\ vdepth v = 0.
Proof.
  unfold scan_number. destruct (match_number s) as [[[t fl] r']|] eqn:Em; [|done].
  rewrite rbind_ok. intros (v' & Hv & [= -> _]). destruct fl; simpl in Hv; split.
  - by eapply bounded_float_ok.
  - revert Hv. unfold _bounded_float. repeat (case_if; [|done]). by intros [= <-].
  - apply match_number_int in Em as (d & Hd & Ht). by eapply bounded_int_ok.
  - revert Hv. unfold _bounded_int. case_if; [|done]. by intros [= <-].
Qed.

Lemma scan_literal_ok s v r :
  scan_literal strict_hooks s = Ok (v, r) -> bounded_value v = true /\ vdepth v = 0 /\ nests 0 s r 0.
Proof.
  intros H. apply and_assoc. split.
  - unfold scan_literal in H.
    repeat match type of H with
    | match ?m with _ => _ end = _ => destruct m; [by simplify_eq/=|]
    end. by eapply scan_number_ok.
  - destruct (scan_literal_split _ _ _ _ H) as (p & Hs & _ & Hp).
    rewrite Hs. apply nests_neutral, (neutral_sub is_literal_char); auto using literal_char_neutral.
Qed.

Lemma nests_step d0 k0 d1 k1 s r t d k :
  nests d0 s r k0 -> nests d1 r t k1 -> d0 <= k0 -> d = d0 + d1 -> k <= Z.max k0 (d0 + k1) -> nests d s t k.
Proof.
  intros H0 H1 Hd -> Hk e st He Hs.
  destruct (nests_trans _ _ _ _ _ _ _ Hd H0 H1 e st He Hs) as [? ?]. split; [done|lia].
Qed.

Lemma nests_skip d s r k : nests d (skip_ws s) r k -> nests d s r k.
Proof. intros H. eapply (nests_step 0 0 d k); [apply nests_ws|done|lia..]. Qed.

Lemma nests_group c s r k : c = 91%N \/ c = 123%N -> nests (-1) s r k -> nests 0 (c :: s) r (1 + k).
Proof. intros Hc H. eapply (nests_step 1 1 (-1) k); [by apply nests_open|done|lia..]. Qed.

Lemma nests_then d s r t k k' : 0 <= k -> nests 0 s r k -> nests d r t k' -> nests d s t (Z.max k k').
Proof. intros Hk H H'. eapply (nests_step 0 k d k'); [done|done|lia..]. Qed.

Lemma nests_plain c d s t k : neutral c = true -> nests d s t k -> nests d (c :: s) t k.
Proof. intros Hc H. eapply (nests_step 0 0 d k); [by apply nests_char|done|lia..]. Qed.

Lemma nests_last c s r k : c = 93%N \/ c = 125%N -> 0 <= k -> nests 0 s (c :: r) k -> nests (-1) s r (Z.max k 0).
Proof. intros Hc Hk H. eapply nests_then; [done|done|by apply nests_close]. Qed.

Lemma nests_to_skip d s r k : nests d s r k -> nests d s (skip_ws r) k.
Proof.
  intros H e st He Hs. destruct (H e st He Hs) as [H1 H2]. split; [|done].
  destruct (skip_ws_split r) as (p & Hr & Hp). rewrite Hr in H1.
  rewrite nesting_run_neutral in H1; [done|]. eapply neutral_sub; [apply ws_neutral|done].
Qed.

Create HintDb nests discriminated.
#[local] Hint Resolve nests_skip nests_to_skip nests_then nests_plain nests_last nests_group
  nests_close nests_scanstring vdepth_nonneg : nests.

(** A value in the text: what the hooks let through, and the check of the text
    has seen every bracket of it. *)
Lemma scan_ok n :
  (forall s v r, scan_once strict_hooks n s = Ok (v, r) ->
     bounded_value v = true /\ nests 0 s r (vdepth v)) /\
  (forall s l r, scan_items strict_hooks n s = Ok (l, r) ->
     forallb bounded_value l = true /\ nests (-1) s r (list_depth l)) /\
  (forall s l r, scan_pairs strict_hooks n s = Ok (l, r) ->
     forallb (fun kv => bounded_value (snd kv)) l = true /\ nests (-1) s r (pairs_depth l)).
Proof.
  induction n as [|n (IHo & IHi & IHp)]; [done|]. split; [|split].
  - intros s v r. cbn [scan_once]. destruct (eat 34 s) as [s'|] eqn:E1.
    { apply eat_some in E1 as ->. rewrite rbind_ok. intros ([t r'] & Ht%nests_scanstring & [= <- <-]). done. }
    destruct (eat 91 s) as [s'|] eqn:E2.
    { apply eat_some in E2 as ->. destruct (eat 93 _) as [r'|] eqn:E3.
      - apply eat_some in E3. intros [= <- <-]. split; [done|].
        apply nests_group; [auto|]. apply nests_skip. rewrite E3. apply nests_close. auto.
      - rewrite rbind_ok. intros ([l r'] & [Hl Hn]%IHi & [= <- <-]). split; [done|].
        apply nests_group; [auto|]. by apply nests_skip. }
    destruct (eat 123 s) as [s'|] eqn:E3.
    2: { intros (? & -> & ?)%scan_literal_ok. done. }
    apply eat_some in E3 as ->. destruct (eat 125 _) as [r'|] eqn:E3.
    + apply eat_some in E3. intros [= <- <-]. split; [done|].
      apply nests_group; [auto|]. apply nests_skip. rewrite E3. apply nests_close. auto.
    + rewrite rbind_ok. intros ([l r'] & [Hl Hn]%IHp & Hv). apply rbind_ok in Hv as (v' & Hv & [= <- <-]).
      apply unique_object_ok in Hv as [-> Hd]. split.
      * cbn [bounded_value]. rewrite pairs_distinct by done. by rewrite forallb_map_comp.
      * rewrite vdepth_pairs. apply nests_group; [auto|]. by apply nests_skip.
  - intros s l r. cbn [scan_items]. rewrite rbind_ok. intros ([v r1] & [Hv Hn]%IHo & H).
    apply nests_to_skip in Hn. destruct (eat 93 _) as [r'|] eqn:E1.
    { apply eat_some in E1. rewrite E1 in Hn. injection H as <- <-. simpl. rewrite Hv. eauto with nests. }
    destruct (eat 44 _) as [r'|] eqn:E2; [|done]. apply eat_some in E2. rewrite E2 in Hn.
    apply rbind_ok in H as ([l' r2] & [Hl Hn']%IHi & [= <- <-]). simpl. rewrite Hv. split; [done|].
    eapply nests_then; [auto with nests|done|]. apply nests_plain; [done|]. by apply nests_skip.
  - intros s l r. cbn [scan_pairs]. destruct (eat 34 s) as [s'|] eqn:E0; [|done]. apply eat_some in E0 as ->.
    rewrite rbind_ok. intros ([k r1] & Hk%nests_scanstring & H). apply nests_to_skip in Hk.
    destruct (eat 58 _) as [r2|] eqn:E1; [|done]. apply eat_some in E1. rewrite E1 in Hk.
    apply rbind_ok in H as ([v r3] & [Hv Hn]%IHo & H). apply nests_to_skip, nests_skip in Hn.
    assert (Hkv : nests 0 (34%N :: s') (skip_ws r3) (vdepth v)).
    { pose proof (vdepth_nonneg v). replace (vdepth v) with (Z.max 0 (vdepth v)) by lia.
      eapply nests_then; [lia|done|]. by apply nests_plain. }
    destruct (eat 125 _) as [r'|] eqn:E2.
    { apply eat_some in E2. rewrite E2 in Hkv. injection H as <- <-. simpl. rewrite Hv. eauto with nests. }
    destruct (eat 44 _) as [r'|] eqn:E3; [|done]. apply eat_some in E3. rewrite E3 in Hkv.
    apply rbind_ok in H as ([l' r4] & [Hl Hn']%IHp & [= <- <-]). simpl. rewrite Hv. split; [done|].
    eapply nests_then; [auto with nests|done|]. apply nests_plain; [done|]. by apply nests_skip.
Qed.

Lemma json_loads_ok text st v :
  nesting_run nesting_start text = Ok st -> json_loads strict_hooks text = Ok v ->
  bounded_value v = true /\ vdepth v <= MAX_JSON_DEPTH.
Proof.
  intros Hn. unfold json_loads, json_loads_fuel. destruct (eat 65279 text); [done|]. rewrite rbind_ok.
  intros ([v' r] & [Hv Hd]%scan_ok & H). case_if; [|done]. injection H as ->. split; [done|].
  apply nests_skip in Hd. by apply (Hd 0 st).
Qed.

Lemma bounded_encodable v : bounded_value v = true -> encodable v = true.
Proof.
  induction v as [ | | | | |l IH|d IH] using value_nested_ind; try done; cbn [bounded_value encodable].
  - rewrite !forallb_forall. rewrite List.Forall_forall in IH. auto.
  - rewrite andb_true_iff, !forallb_forall. unfold distinct_keys. rewrite andb_true_iff, negb_true_iff.
    unfold has_non_str_key. rewrite existsb_false. intros [[Hk _] Hv] kv Hin.
    rewrite List.Forall_forall in IH. specialize (Hk kv Hin). apply negb_false_iff in Hk.
    rewrite Hk. simpl. auto.
Qed.

(** C32: A document that the strict reader accepts is a typed value: every object has
    distinct string keys, every integer is below 10^128 in magnitude, every float
    is finite, every string and key is encodable as UTF-8, arrays and objects nest
    at most 256 deep - so the nesting check, which only looks at characters,
    protects the recursive decoder - and the canonical encoder that refuses
    non-finite numbers can write the value back. *)
Theorem strict_json_typed text v :
  strict_json_loads text = Ok v ->
  bounded_value v = true /\ scalar_value v = true /\ vdepth v <= MAX_JSON_DEPTH /\
  exists out, json_encode false v = Some out.
Proof.
  unfold strict_json_loads, _check_nesting.
  destruct (nesting_run nesting_start text) as [st|] eqn:Hn; [|done]. simpl.
  rewrite rbind_ok. intros (v' & Hv & H). rewrite reject_unpaired_spec in H.
  destruct (scalar_value v') eqn:Es; [|done]. injection H as ->.
  destruct (json_loads_ok _ _ _ Hn Hv) as [Hb Hd].
  repeat split; [done..|]. by apply json_encode_encodable, bounded_encodable.
Qed.

Definition sample_document : str :=
  flat_map (fun c => if N.eqb c 39 then [34%N] else [c])
    (u " {'a': [1, -2.5, {'b': null}], 'c': '\ud83d\ude00'} ").

Lemma strict_json_typed_witness :
  let v := VDict (dict_of [("a", VList [VInt 1; VFloat (dec (-25) 1); VDict (dict_of [("b", VNone)])]);
                           ("c", VStr [128512%N])]) in
  bounded_value v = true /\ scalar_value v = true /\ vdepth v <= MAX_JSON_DEPTH /\
  exists out, json_encode false v = Some out.
Proof. apply (strict_json_typed sample_document). vm_compute. reflexivity. Defined.

(** The strict reader terminates: its decoder needs two nested calls for each
    character at most, and running it with any larger bound gives the same value
    or the same error, so the bound never shows in a result. *)
Theorem strict_json_terminates text fuel :
  (2 * length text < fuel)%nat ->
  strict_json_loads text =
    (let* _ := _check_nesting text in
     let* v := json_loads_fuel strict_hooks fuel text in
     if scalar_value v then Ok v else Err UnpairedSurrogate).
Proof.
  intros Hf. rewrite json_loads_fuel_enough by done. unfold strict_json_loads.
  destruct (_check_nesting text); [|done]. simpl. destruct (json_loads _ _) as [v|]; [|done]. simpl.
  rewrite reject_unpaired_spec. by destruct (scalar_value v).
Qed.

Lemma strict_json_terminates_witness :
  strict_json_loads (u "[[1],2]") =
    (let* _ := _check_nesting (u "[[1],2]") in
     let* v := json_loads_fuel strict_hooks 1000 (u "[[1],2]") in
     if scalar_value v then Ok v else Err UnpairedSurrogate).
Proof. apply strict_json_terminates. vm_compute. lia. Defined.

(** * Reading back what is written *)

(** ** Characters and strings *)

Lemma hex_value_digit z : 0 <= z < 16 -> hex_value (Sha256.hex_digit z) = Some z.
Proof.
  intros Hz. assert (Hc : In z (map Z.of_nat (seq 0 16))).
  { apply in_map_iff. exists (Z.to_nat z). split; [lia|]. apply in_seq. lia. }
  repeat destruct Hc as [<-|Hc]; done.
Qed.

Lemma scan_hex4_hex z r : 0 <= z < 65536 -> scan_hex4 (hex4 z ++ r) = Some (z, r).
Proof.
  intros Hz. unfold hex4, Sha256.hex_byte. simpl.
  assert (0 <= z / 256 < 256) by (split; [apply Z.div_pos; lia|apply Z.div_lt_upper_bound; lia]).
  pose proof (Z.mod_pos_bound z 256 eq_refl).
  assert (forall x, 0 <= x < 256 -> 0 <= x / 16 < 16 /\ 0 <= x mod 16 < 16) as Hx.
  { intros x Hx. split; [|by apply Z.mod_pos_bound]. split; [apply Z.div_pos; lia|apply Z.div_lt_upper_bound; lia]. }
  destruct (Hx (z / 256)), (Hx (z mod 256)); try done. rewrite !hex_value_digit by done.
  do 2 f_equal. pose proof (Z.div_mod (z / 256) 16 ltac:(lia)).
  pose proof (Z.div_mod (z mod 256) 16 ltac:(lia)). pose proof (Z.div_mod z 256 ltac:(lia)). lia.
Qed.

Definition scalar_char (c : N) : Prop := utf8_char c <> None.

Lemma scalar_char_range c :
  scalar_char c -> Z.of_N c < 55296 \/ 57343 < Z.of_N c < 1114112.
Proof.
  unfold scalar_char, utf8_char. repeat case_if; try done; intros _; brefl; lia.
Qed.

Lemma scan_unicode_escape z r :
  0 <= z < 65536 -> is_high_surrogate z = false -> scan_char (bslash_u z ++ r) = Some (Z.to_N z, r).
Proof.
  intros Hz Hs. change (scan_unicode (hex4 z ++ r) = Some (Z.to_N z, r)). unfold scan_unicode. rewrite scan_hex4_hex by done. by rewrite Hs.
Qed.

(** An escaped character reads back, whatever follows it. *)
Lemma scan_json_char c r : scalar_char c -> scan_char (json_char c ++ r) = Some (c, r).
Proof.
  intros Hc%scalar_char_range. unfold json_char. set (z := Z.of_N c) in *.
  assert (Hz : 0 <= z) by lia. assert (Hcz : c = Z.to_N z) by lia.
  repeat match goal with
  | |- context [if z =? ?k then _ else _] =>
      destruct (Z.eqb_spec z k) as [Hk|]; [rewrite Hcz, Hk; reflexivity|]
  end.
  destruct ((32 <=? z) && (z <=? 126)) eqn:Ep.
  { simpl. apply andb_true_iff in Ep as [?%Z.leb_le ?%Z.leb_le].
    destruct (N.eqb_spec c 92); [lia|]. destruct (N.leb_spec c 31); [lia|done]. }
  destruct (Z.ltb_spec z 65536).
  - rewrite scan_unicode_escape; [by rewrite <- Hcz|lia|]. unfold is_high_surrogate.
    apply andb_false_iff. rewrite !Z.leb_gt. lia.
  - set (hi := 55296 + (z - 65536) / 1024). set (lo := 56320 + (z - 65536) mod 1024).
    pose proof (Z.div_mod (z - 65536) 1024 ltac:(lia)). pose proof (Z.mod_pos_bound (z - 65536) 1024 eq_refl).
    assert (0 <= (z - 65536) / 1024 < 1024) by (split; [apply Z.div_pos; lia|apply Z.div_lt_upper_bound; lia]).
    rewrite <- app_assoc. change (scan_unicode (hex4 hi ++ bslash_u lo ++ r) = Some (c, r)). unfold scan_unicode.
    rewrite scan_hex4_hex by (subst hi; lia).
    assert (is_high_surrogate hi = true) as -> by (unfold is_high_surrogate; subst hi; apply andb_true_iff; rewrite !Z.leb_le; lia).
    change (bslash_u lo ++ r) with (92%N :: 117%N :: (hex4 lo ++ r)). unfold scan_low. rewrite !eat_eq.
    rewrite scan_hex4_hex by (subst lo; lia).
    assert (is_low_surrogate lo = true) as -> by (unfold is_low_surrogate; subst lo; apply andb_true_iff; rewrite !Z.leb_le; lia).
    unfold join_surrogates. subst hi lo. do 2 f_equal. rewrite Hcz. f_equal. lia.
Qed.

Lemma json_char_head c r : exists x t, json_char c ++ r = x :: t /\ x <> 34%N.
Proof.
  unfold json_char. repeat (case_if; [by eexists _, _|]). case_if; [|case_if; by eexists _, _].
  eexists _, _. split; [done|]. brefl. intros ->. done.
Qed.

Lemma utf8_cons c s : utf8 (c :: s) <> None -> scalar_char c /\ utf8 s <> None.
Proof. unfold scalar_char. simpl. destruct (utf8_char c), (utf8 s); done. Qed.

(** A string body whose characters are written by [enc], up to its closing quote. *)
Section Encoded.
Context (enc : N -> str) (ok : N -> Prop).
Context (Hscan : forall c r, ok c -> scan_char (enc c ++ r) = Some (c, r)).
Context (Hhead : forall c r, exists x t, enc c ++ r = x :: t /\ x <> 34%N).

Lemma scan_encoded s r n :
  Forall ok s -> (length s < n)%nat -> scan_string n (flat_map enc s ++ 34%N :: r) = Some (s, r).
Proof.
  revert n. induction s as [|c s IH]; intros [|n] Hs Hn; simpl in Hn; try lia; [done|].
  apply Forall_cons in Hs as [Hc Hs]. cbn [flat_map]. rewrite <- app_assoc. cbn [scan_string].
  destruct (Hhead c (flat_map enc s ++ 34%N :: r)) as (x & t & Hx & Hne).
  rewrite Hx, eat_ne by done. rewrite <- Hx, Hscan by done. rewrite IH by (done || lia). done.
Qed.

Lemma scanstring_encoded {E} (h : hooks E) s r :
  Forall ok s -> scanstring h (flat_map enc s ++ 34%N :: r) = Ok (s, r).
Proof.
  intros Hs. unfold scanstring. rewrite scan_encoded; [done|done|].
  rewrite length_app. simpl. assert (length s <= length (flat_map enc s))%nat; [|lia].
  clear Hs. induction s as [|c s IH]; [done|]. simpl. rewrite length_app.
  destruct (Hhead c []) as (x & t & Hx & _). rewrite app_nil_r in Hx. rewrite Hx. simpl. lia.
Qed.
End Encoded.

Lemma utf8_scalar s : utf8 s <> None -> Forall scalar_char s.
Proof. induction s as [|c s IH]; [done|]. intros [Hc Hs]%utf8_cons. by constructor; auto. Qed.

Lemma scan_json_string s r n :
  utf8 s <> None -> (length s < n)%nat -> scan_string n (flat_map json_char s ++ 34%N :: r) = Some (s, r).
Proof. intros Hs%utf8_scalar. by apply (scan_encoded json_char scalar_char scan_json_char json_char_head). Qed.

Lemma scanstring_json {E} (h : hooks E) s r :
  utf8 s <> None -> scanstring h (flat_map json_char s ++ 34%N :: r) = Ok (s, r).
Proof. intros Hs%utf8_scalar. by apply (scanstring_encoded json_char scalar_char scan_json_char json_char_head). Qed.

Lemma nesting_json_string d s r :
  utf8 s <> None -> nesting_run (out_at d) (json_string s ++ r) = nesting_run (out_at d) r.
Proof.
  intros Hs. unfold json_string. cbn [app]. rewrite <- app_assoc. cbn [app].
  change (nesting_run (in_at d) (flat_map json_char s ++ 34%N :: r) = nesting_run (out_at d) r).
  eapply nesting_string, scan_json_string; [done|]. apply Nat.lt_succ_diag_r.
Qed.

(** ** Numbers *)

(** What may follow a value in a document: a comma, a closing bracket, a new line,
    the end. *)
Definition delimited (r : str) : bool :=
  match r with [] => true | c :: _ => (N.eqb c 44 || N.eqb c 93 || N.eqb c 125 || N.eqb c 10)%bool end.

Lemma delimited_head c r : delimited (c :: r) = true -> c = 44%N \/ c = 93%N \/ c = 125%N \/ c = 10%N.
Proof. simpl. rewrite !orb_true_iff, !N.eqb_eq. tauto. Qed.

Lemma span_digits_app s d t r :
  span_digits s = (d, t) -> delimited r = true -> span_digits (s ++ r) = (d, t ++ r).
Proof.
  intros Hs Hr. revert d Hs. induction s as [|c s IH]; intros d; simpl.
  - intros [= <- <-]. destruct r as [|c r]; [done|].
    apply delimited_head in Hr as [->|[->|[-> | ->]]]; done.
  - destruct (is_digit09 c); [|by intros [= <- <-]]. destruct (span_digits s) as [d' t'].
    intros [= <- <-]. by rewrite (IH _ eq_refl).
Qed.

Lemma eat_app c s r : c <> 44%N -> c <> 93%N -> c <> 125%N -> c <> 10%N -> delimited r = true ->
  eat c (s ++ r) = match eat c s with Some t => Some (t ++ r) | None => None end.
Proof.
  intros H1 H2 H3 H4 Hr. destruct s as [|x s]; simpl; [|by destruct (N.eqb x c)].
  destruct r as [|x r]; [done|]. apply eat_ne. apply delimited_head in Hr. naive_solver.
Qed.

Lemma scan_frac_app s p t r :
  scan_frac s = (p, t) -> delimited r = true -> scan_frac (s ++ r) = (p, t ++ r).
Proof.
  intros Hs Hr. unfold scan_frac in *. rewrite eat_app by done.
  destruct (eat 46 s) as [s'|]; [|by injection Hs as <- <-].
  destruct (span_digits s') as [d t'] eqn:Ed. rewrite (span_digits_app _ _ _ _ Ed Hr).
  destruct (is_empty d); by injection Hs as <- <-.
Qed.

Lemma scan_exp_app s p t r :
  scan_exp s = (p, t) -> delimited r = true -> scan_exp (s ++ r) = (p, t ++ r).
Proof.
  intros Hs Hr. destruct s as [|c s].
  { injection Hs as <- <-. destruct r as [|c r]; [done|].
    by apply delimited_head in Hr as [->|[->|[-> | ->]]]. }
  unfold scan_exp in *. cbn [app]. destruct (N.eqb c 101 || N.eqb c 69)%bool; [|by injection Hs as <- <-].
  destruct s as [|x s].
  - cbn in Hs. injection Hs as <- <-. cbn [app]. destruct r as [|x r]; [done|].
    by apply delimited_head in Hr as [->|[->|[-> | ->]]].
  - cbn [app] in *. destruct (N.eqb x 45 || N.eqb x 43)%bool.
    + destruct (span_digits s) as [d t'] eqn:Ed. rewrite (span_digits_app _ _ _ _ Ed Hr).
      destruct (is_empty d); by injection Hs as <- <-.
    + destruct (span_digits (x :: s)) as [d t'] eqn:Ed.
      change (x :: s ++ r) with ((x :: s) ++ r). rewrite (span_digits_app _ _ _ _ Ed Hr).
      destruct (is_empty d); by injection Hs as <- <-.
Qed.

Lemma scan_int_app s p t r :
  scan_int s = Some (p, t) -> delimited r = true -> scan_int (s ++ r) = Some (p, t ++ r).
Proof.
  intros Hs Hr. destruct s as [|c s]; [done|]. cbn [scan_int app] in *.
  destruct (N.eqb c 48); [by injection Hs as <- <-|]. destruct (is_digit09 c); [|done].
  injection Hs as Hs. change (c :: s ++ r) with ((c :: s) ++ r). by rewrite (span_digits_app (c :: s) _ _ _ Hs Hr).
Qed.

(** A number that ends its text also ends before a delimiter. *)
Lemma match_number_app s t fl r' r :
  match_number s = Some (t, fl, r') -> delimited r = true -> match_number (s ++ r) = Some (t, fl, r' ++ r).
Proof.
  intros Hs Hr. unfold match_number in *. destruct (scan_sign s) as [sg s1] eqn:E1.
  destruct (scan_int s1) as [[ip s2]|] eqn:E2; [|done]. destruct (scan_frac s2) as [fp s3] eqn:E3.
  destruct (scan_exp s3) as [ep s4] eqn:E4. injection Hs as <- <- <-.
  assert (scan_sign (s ++ r) = (sg, s1 ++ r)) as ->.
  { unfold scan_sign in *. rewrite eat_app by done. destruct (eat 45 s); by injection E1 as <- <-. }
  rewrite (scan_int_app _ _ _ _ E2 Hr), (scan_frac_app _ _ _ _ E3 Hr), (scan_exp_app _ _ _ _ E4 Hr). done.
Qed.

(** The decimal digits of a number: no superfluous zero in front. *)
Lemma digits_fuel_shape n acc z :
  0 <= z -> (0 < n)%nat -> z < 2 ^ Z.of_nat n ->
  exists c l, digits_fuel n acc z = (c :: l) ++ acc /\
    forallb is_digit09 (c :: l) = true /\ (z <> 0 -> c <> 48%N) /\ (z = 0 -> l = []).
Proof.
  revert acc z. induction n as [|n IH]; intros acc z Hz Hn Hb; [lia|]. cbn [digits_fuel].
  pose proof (Z.mod_pos_bound z 10 eq_refl).
  assert (Hd : is_digit09 (Z.to_N (48 + z mod 10)) = true).
  { unfold is_digit09. rewrite andb_true_iff, !N.leb_le. lia. }
  destruct (Z.ltb_spec z 10).
  - exists (Z.to_N (48 + z mod 10)), []. cbn [forallb]. rewrite Hd, Z.mod_small by lia.
    repeat split; lia.
  - rewrite Nat2Z.inj_succ, Z.pow_succ_r in Hb by lia.
    assert (z / 10 < 2 ^ Z.of_nat n) by (apply Z.div_lt_upper_bound; lia).
    assert (1 <= z / 10) by (apply Z.div_le_lower_bound; lia).
    destruct (IH (Z.to_N (48 + z mod 10) :: acc) (z / 10)) as (c & l & -> & Hl & Hc & _); try lia.
    { destruct n; [change (2 ^ Z.of_nat 0) with 1 in *; lia|lia]. }
    exists c, (l ++ [Z.to_N (48 + z mod 10)]). rewrite app_comm_cons, <- app_assoc.
    split; [done|]. rewrite forallb_app, Hl. cbn [forallb]. rewrite Hd.
    split; [done|]. split; [intros _; apply Hc; lia|lia].
Qed.

Lemma digits_shape z :
  0 <= z -> exists c l, digits z = c :: l /\ forallb is_digit09 (c :: l) = true /\
    (z <> 0 -> c <> 48%N) /\ (z = 0 -> l = []).
Proof.
  intros Hz. destruct (digits_fuel_shape (S (Z.to_nat (Z.log2 z))) [] z Hz) as (c & l & H & ?); [lia| |].
  - rewrite Nat2Z.inj_succ, Z2Nat.id by apply Z.log2_nonneg.
    destruct (Z.eq_dec z 0) as [->|]; [done|]. apply Z.log2_spec. lia.
  - exists c, l. unfold digits. by rewrite H, app_nil_r.
Qed.

Lemma span_digits_all d : forallb is_digit09 d = true -> span_digits d = (d, []).
Proof. induction d as [|c d IH]; [done|]. simpl. intros [-> H]%andb_true_iff. by rewrite (IH H). Qed.

Lemma match_number_digits z : 0 <= z -> match_number (digits z) = Some (digits z, false, []).
Proof.
  intros Hz. destruct (digits_shape z Hz) as (c & l & -> & Hd & Hc & Hl). unfold match_number, scan_sign.
  assert (Hs : eat 45 (c :: l) = None) by (apply eat_ne; by intros ->). rewrite Hs. cbn [scan_int].
  destruct (N.eqb_spec c 48) as [->|].
  - destruct (Z.eq_dec z 0) as [H0|H0]; [|by specialize (Hc H0)]. by rewrite (Hl H0).
  - pose proof Hd as Hd'. cbn [forallb] in Hd. apply andb_true_iff in Hd as [-> _].
    rewrite span_digits_all by done. simpl. by rewrite app_nil_r.
Qed.

Lemma match_number_int_text z : match_number (str_of_Z z) = Some (str_of_Z z, false, []).
Proof.
  destruct z as [|p|p]; [done|by apply match_number_digits|].
  cbn [str_of_Z]. pose proof (match_number_digits (Zpos p) ltac:(lia)) as H. unfold match_number in *.
  unfold scan_sign at 1. rewrite eat_eq. unfold scan_sign in H.
  destruct (digits_shape (Zpos p) ltac:(lia)) as (c & l & E & Hd & _). rewrite E in *.
  rewrite (eat_ne 45 c) in H by by intros ->. destruct (scan_int (c :: l)) as [[ip s2]|]; [|done].
  destruct (scan_frac s2) as [fp s3]. destruct (scan_exp s3) as [ep s4]. injection H as H1 H2 H3.
  cbn [app] in *. by rewrite H1, H2, H3.
Qed.

Lemma digits_denote_cons c l : digits_denote (c :: l) = (Z.of_N c - 48) * 10 ^ Z.of_nat (length l) + digits_denote l.
Proof.
  induction l as [|x l IH] using rev_ind; [unfold digits_denote; simpl; lia|].
  rewrite app_comm_cons. unfold digits_denote in *. rewrite !fold_left_app, IH. simpl.
  rewrite length_app, Nat2Z.inj_add, Z.pow_add_r by lia. change (10 ^ Z.of_nat (length [x])) with 10. lia.
Qed.

Lemma digits_length z k : 0 <= z < 10 ^ k -> 1 <= k -> Z.of_nat (length (digits z)) <= k.
Proof.
  intros Hz Hk. destruct (digits_shape z ltac:(lia)) as (c & l & E & Hd & Hc & Hl).
  pose proof (digits_value z ltac:(lia)) as Hv. rewrite E in *. rewrite digits_denote_cons in Hv.
  destruct (Z.eq_dec z 0) as [H0|H0]; [rewrite (Hl H0); simpl; lia|]. specialize (Hc H0).
  cbn [forallb] in Hd. apply andb_true_iff in Hd as [Hcd Hld]. pose proof (digits_denote_bound l Hld).
  unfold is_digit09 in Hcd. rewrite andb_true_iff, !N.leb_le in Hcd.
  assert (10 ^ Z.of_nat (length l) < 10 ^ k) as Hlt by nia.
  apply Z.pow_lt_mono_r_iff in Hlt; simpl; lia.
Qed.

Lemma digits_no_sign z : 0 <= z -> eat 45 (digits z) = None /\ lstrip_by (N.eqb 45) (digits z) = digits z.
Proof.
  intros Hz. destruct (digits_shape z Hz) as (c & l & -> & Hd & _). split; [|by apply lstrip_dash].
  apply eat_ne. by intros ->.
Qed.

Lemma bounded_int_text z : Z.abs z < 10 ^ MAX_JSON_INTEGER_DIGITS -> _bounded_int (str_of_Z z) = Ok (VInt z).
Proof.
  intros Hz. unfold _bounded_int.
  pose proof (digits_length (Z.abs z) MAX_JSON_INTEGER_DIGITS ltac:(lia) ltac:(done)) as Hl.
  destruct (digits_no_sign (Z.abs z) ltac:(lia)) as [He Hs]. pose proof (digits_value (Z.abs z) ltac:(lia)) as Hv.
  assert (lstrip_by (N.eqb 45) (str_of_Z z) = digits (Z.abs z)) as -> by by destruct z.
  apply Z.leb_le in Hl as ->. do 2 f_equal.
  destruct z as [|p|p]; [done| |]; unfold py_int; cbn [str_of_Z].
  - change (Z.abs (Z.pos p)) with (Z.pos p) in *. by rewrite He, Hv.
  - change (Z.abs (Z.neg p)) with (Z.pos p) in *. by rewrite eat_eq, Hv.
Qed.

(** ** Values *)

Definition float_same (f g : float) : bool :=
  match f, g with
  | S754_zero s, S754_zero s' | S754_infinity s, S754_infinity s' => Bool.eqb s s'
  | S754_finite s m e, S754_finite s' m' e' => Bool.eqb s s' && Pos.eqb m m' && (e =? e')
  | S754_nan, S754_nan => true
  | _, _ => false
  end.

Lemma float_same_eq f g : float_same f g = true -> f = g.
Proof.
  destruct f, g; simpl; try done; rewrite ?andb_true_iff, ?Bool.eqb_true_iff, ?Pos.eqb_eq, ?Z.eqb_eq;
    intros; destruct_and?; by subst.
Qed.

(** The printed digits of a float denote the float. *)
Definition reads_back (f : float) : bool :=
  match match_number (float_repr f) with
  | Some (t, true, []) =>
      match _bounded_float t with Ok (VFloat g) => float_same g f | _ => false end
  | _ => false
  end.

Fixpoint floats_read_back (v : value) : bool :=
  match v with
  | VFloat f => reads_back f
  | VList l => forallb floats_read_back l
  | VDict d => forallb (fun kv => floats_read_back (snd kv)) d
  | _ => true
  end.

Definition vkey_leb (a b : value * value) : bool :=
  match fst a, fst b with VStr s, VStr t => str_leb s t | _, _ => true end.

(** A value with every object in key order. *)
Fixpoint canonical (v : value) : value :=
  match v with
  | VList l => VList (map canonical l)
  | VDict d => VDict (py_sort vkey_leb (map (fun kv => (fst kv, canonical (snd kv))) d))
  | _ => v
  end.

(** *** What the encoder writes *)

Lemma json_encode_list sp b l t :
  json_text sp b (VList l) = Some t ->
  exists items, Forall2 (fun x i => json_text sp b x = Some i) l items /\
    t = u "[" ++ py_join (44%N :: sp) items ++ u "]".
Proof.
  cbn [json_text]. match goal with |- match ?g with _ => _ end = _ -> _ => destruct g as [items|] eqn:E end;
    [|done]. intros [= <-]. exists items. split; [|done]. revert items E.
  induction l as [|x l IH]; intros items; [by intros [= <-]|].
  destruct (json_text sp b x) eqn:Ex; [|done].
  match goal with |- match ?g with _ => _ end = _ -> _ => destruct g as [items'|] end; [|done].
  intros [= <-]. constructor; auto.
Qed.

(** A member of an object: key, value and the text of the value. *)
Definition member : Type := str * value * str.
Definition m_key (m : member) : str := fst (fst m).
Definition m_value (m : member) : value := snd (fst m).
Definition m_text (m : member) : str := snd m.
Definition m_leb (a b : member) : bool := str_leb (m_key a) (m_key b).
Definition m_source (sp : str) (m : member) : str := json_string (m_key m) ++ 58%N :: sp ++ m_text m.

Lemma py_sort_map {A B} (f : A -> B) lea leb l :
  (forall x y, leb (f x) (f y) = lea x y) -> py_sort leb (map f l) = map f (py_sort lea l).
Proof.
  intros Hf. assert (Hi : forall x l, insert_sorted leb (f x) (map f l) = map f (insert_sorted lea x l)).
  { intros x l'. induction l' as [|y l' IH]; [done|]. simpl. rewrite Hf. destruct (lea x y); [done|].
    simpl. by rewrite IH. }
  unfold py_sort. induction l as [|x l IH]; [done|]. simpl. by rewrite IH, Hi.
Qed.

Lemma json_encode_dict sp b d t :
  json_text sp b (VDict d) = Some t ->
  exists ms : list member, d = map (fun m => (VStr (m_key m), m_value m)) ms /\
    Forall (fun m => json_text sp b (m_value m) = Some (m_text m)) ms /\
    t = u "{" ++ py_join (44%N :: sp) (map (m_source sp) (py_sort m_leb ms)) ++ u "}".
Proof.
  cbn [json_text]. match goal with |- match ?g with _ => _ end = _ -> _ => destruct g as [items|] eqn:E end;
    [|done]. intros [= <-].
  assert (Hm : exists ms : list member, d = map (fun m => (VStr (m_key m), m_value m)) ms /\
    Forall (fun m => json_text sp b (m_value m) = Some (m_text m)) ms /\
    items = map (fun m => (m_key m, m_text m)) ms).
  { revert items E. induction d as [|[k x] d IH]; intros items; [intros [= <-]; by exists []|].
    destruct k as [| | | |k| |]; try done. destruct (json_text sp b x) as [a|] eqn:Ex; [|done].
    match goal with |- match ?g with _ => _ end = _ -> _ => destruct g as [items'|] end; [|done].
    intros [= <-]. destruct (IH _ eq_refl) as (ms & -> & Hf & ->).
    exists ((k, x, a) :: ms). repeat split. by constructor. }
  destruct Hm as (ms & Hd & Hf & ->). exists ms. repeat split; [done..|].
  rewrite (py_sort_map _ m_leb) by done. by rewrite map_map.
Qed.

(** *** How the scanner reads it *)

(** A text that starts where a value starts. *)
Definition opens (t : str) : Prop := exists c t', t = c :: t' /\ is_ws c = false /\ c <> 93%N /\ c <> 125%N.

(** [t], before a delimiter, is scanned as [v]. *)
Definition reads_with {E} (h : hooks E) (t : str) (v : value) : Prop :=
  forall n r, delimited r = true -> (2 * length (t ++ r) < n)%nat -> scan_once h n (t ++ r) = Ok (v, r).
Abbreviation reads := (reads_with strict_hooks).

Lemma opens_skip t r : opens t -> skip_ws (t ++ r) = t ++ r.
Proof. intros (c & t' & -> & Hc & _). simpl. by rewrite Hc. Qed.

Lemma opens_eat t r c : opens t -> c = 93%N \/ c = 125%N -> eat c (t ++ r) = None.
Proof. intros (x & t' & -> & _ & H1 & H2) Hc. apply eat_ne. naive_solver. Qed.

Lemma skip_ws_app w s : forallb is_ws w = true -> skip_ws (w ++ s) = skip_ws s.
Proof. induction w as [|c w IH]; [done|]. simpl. by intros [-> Hw]%andb_true_iff; apply IH. Qed.

(** The items of a group: separated by a comma and the whitespace [w], closed after
    the whitespace [fin]. *)
Section Layout.
Context {E : Type} (h : hooks E) (w fin : str).
Context (Hw : forallb is_ws w = true) (Hfin : forallb is_ws fin = true).
Context (Hdelimited : forall c r, delimited (c :: r) = true -> delimited (fin ++ c :: r) = true).

Lemma join_cons (x y : str) l r :
  py_join (44%N :: w) (x :: y :: l) ++ r = x ++ 44%N :: w ++ py_join (44%N :: w) (y :: l) ++ r.
Proof.
  change (py_join (44%N :: w) (x :: y :: l)) with (x ++ (44%N :: w) ++ py_join (44%N :: w) (y :: l)).
  by rewrite <- !app_assoc.
Qed.

Lemma join_opens x l : opens x -> opens (py_join (44%N :: w) (x :: l)).
Proof. intros (c & t & -> & H). destruct l as [|y l]; [by exists c, t|]. by eexists c, _. Qed.

Lemma close_skip c r : is_ws c = false -> skip_ws (fin ++ c :: r) = c :: r.
Proof. intros Hc. rewrite skip_ws_app by done. simpl. by rewrite Hc. Qed.

Lemma comma_skip t r : opens t -> skip_ws (w ++ t ++ r) = t ++ r.
Proof. intros Ht. rewrite skip_ws_app by done. by apply opens_skip. Qed.

Lemma scan_items_reads (l : list (str * value)) n r :
  l <> [] -> Forall (fun tw => opens (fst tw) /\ reads_with h (fst tw) (snd tw)) l ->
  (2 * length (py_join (44%N :: w) (map fst l) ++ fin ++ 93%N :: r) + 1 < n)%nat ->
  scan_items h n (py_join (44%N :: w) (map fst l) ++ fin ++ 93%N :: r) = Ok (map snd l, r).
Proof.
  revert n. induction l as [|[t v] l IH]; intros n Hne Hl Hn; [done|].
  apply Forall_cons in Hl as [[_ Ht] Hl]. destruct n as [|n]; [lia|]. cbn [scan_items].
  destruct l as [|[t2 v2] l].
  - cbn [map fst snd py_join] in *. rewrite Ht by (lia || by apply Hdelimited). cbn [rbind].
    rewrite close_skip by done. done.
  - cbn [map fst snd] in *. rewrite join_cons in *. rewrite Ht by (done || lia). cbn [rbind].
    change (skip_ws (44%N :: ?x)) with (44%N :: x). rewrite eat_ne, eat_eq by done.
    assert (Ho : opens t2) by (apply Forall_cons in Hl as [[? _] _]; done).
    rewrite comma_skip by by apply join_opens. rewrite IH; [done..|].
    rewrite length_app in Hn. cbn [length] in Hn. rewrite length_app in Hn. lia.
Qed.

(** The members of an object; [quote] writes the characters of a key, [sp] follows
    the colon. *)
Context (sp : str) (Hsp : forallb is_ws sp = true).
Context (quote : str -> str) (readable_key : str -> Prop).
Context (Hquote : forall k r, readable_key k -> scanstring h (quote k ++ 34%N :: r) = Ok (k, r)).

(** A member whose text reads as its value. *)
Definition member_reads (m : member) : Prop :=
  readable_key (m_key m) /\ opens (m_text m) /\ reads_with h (m_text m) (m_value m).

Definition quoted_source (m : member) : str := 34%N :: quote (m_key m) ++ 34%N :: 58%N :: sp ++ m_text m.

Lemma quoted_opens m : opens (quoted_source m).
Proof. by eexists 34%N, _. Qed.

Lemma scan_pairs_reads (ms : list member) n r :
  ms <> [] -> Forall member_reads ms ->
  (2 * length (py_join (44%N :: w) (map quoted_source ms) ++ fin ++ 125%N :: r) + 1 < n)%nat ->
  scan_pairs h n (py_join (44%N :: w) (map quoted_source ms) ++ fin ++ 125%N :: r) = Ok (map fst ms, r).
Proof.
  revert n. induction ms as [|m ms IH]; intros n Hne Hl Hn; [done|].
  apply Forall_cons in Hl as [(Hk & Ho & Ht) Hl]. destruct n as [|n]; [lia|].
  assert (Hstep : forall rest, delimited rest = true -> (2 * length (quoted_source m ++ rest) < S n)%nat ->
    scan_pairs h (S n) (quoted_source m ++ rest) =
      match eat 125 (skip_ws rest), eat 44 (skip_ws rest) with
      | Some r', _ => Ok ([fst m], r')
      | _, Some r' => let* (l, r3) := scan_pairs h n (skip_ws r') in Ok (fst m :: l, r3)
      | _, _ => Err (decode_error h)
      end).
  { intros rest Hrest Hlen.
    assert (Hs : quoted_source m ++ rest = 34%N :: quote (m_key m) ++ 34%N :: 58%N :: sp ++ m_text m ++ rest).
    { unfold quoted_source. by rewrite <- app_comm_cons, <- app_assoc, <- !app_comm_cons, <- app_assoc. }
    rewrite Hs in *. cbn [scan_pairs]. rewrite eat_eq, Hquote by done.
    cbn [rbind]. change (skip_ws (58%N :: ?x)) with (58%N :: x). rewrite eat_eq.
    rewrite skip_ws_app, opens_skip by done.
    rewrite Ht; [|done|]; [cbn [rbind]; by destruct m as [[k v] t]|].
    cbn [length] in Hlen. rewrite length_app in Hlen. cbn [length] in Hlen. rewrite length_app in Hlen. lia. }
  destruct ms as [|m2 ms].
  - cbn [map py_join] in *. rewrite Hstep by (lia || by apply Hdelimited). by rewrite close_skip.
  - cbn [map] in *. rewrite join_cons in *. rewrite Hstep by (done || lia).
    change (skip_ws (44%N :: ?x)) with (44%N :: x).
    rewrite eat_ne, eat_eq by done. rewrite comma_skip by apply join_opens, quoted_opens.
    rewrite IH; [done..|]. rewrite length_app in Hn. cbn [length] in Hn. rewrite length_app in Hn. lia.
Qed.
End Layout.

Lemma m_source_quoted sp m :
  quoted_source sp (flat_map json_char) (m_key m, canonical (m_value m), m_text m) = m_source sp m.
Proof. unfold quoted_source, m_source, json_string. by rewrite <- !app_comm_cons, <- !app_assoc. Qed.

(** A member as it is read back. *)
Definition m_read (m : member) : member := (m_key m, canonical (m_value m), m_text m).
Definition m_pair (m : member) : str * value := (m_key m, canonical (m_value m)).

(** *** The nesting check lets it pass *)

Definition passes (t : str) (k : Z) : Prop :=
  forall d r, d + k <= MAX_JSON_DEPTH -> nesting_run (out_at d) (t ++ r) = nesting_run (out_at d) r.

Lemma passes_neutral t k : forallb neutral t = true -> passes t k.
Proof. intros Ht d r _. by apply nesting_run_neutral. Qed.

Lemma passes_app s t k : passes s k -> passes t k -> passes (s ++ t) k.
Proof. intros Hs Ht d r Hd. rewrite <- app_assoc, Hs, Ht; done. Qed.

Lemma passes_join sep l k : forallb neutral sep = true -> Forall (fun t => passes t k) l -> passes (py_join sep l) k.
Proof.
  intros Hsep. induction 1 as [|x [|y l] Hx Hl IH]; [by intros d r Hd|done|].
  change (py_join sep (x :: y :: l)) with (x ++ sep ++ py_join sep (y :: l)).
  apply passes_app; [done|]. apply passes_app; [by apply passes_neutral|done].
Qed.

Lemma passes_group o c t k :
  (o = 91%N /\ c = 93%N) \/ (o = 123%N /\ c = 125%N) -> 0 <= k -> passes t k -> passes (o :: t ++ [c]) (1 + k).
Proof.
  intros Hoc Hk Ht d r Hd. rewrite <- app_comm_cons, <- app_assoc. cbn [nesting_run].
  assert (Hs : nesting_step (out_at d) o = Ok (out_at (d + 1))).
  { unfold nesting_step. simpl. destruct (Z.leb_spec (d + 1) MAX_JSON_DEPTH); [|lia].
    by destruct Hoc as [[-> _]|[-> _]]. }
  rewrite Hs. cbn [rbind]. rewrite Ht by lia. cbn [app nesting_run].
  assert (nesting_step (out_at (d + 1)) c = Ok (out_at d)) as ->; [|done].
  unfold nesting_step. simpl. unfold out_at. destruct Hoc as [[_ ->]|[_ ->]]; simpl; do 2 f_equal; lia.
Qed.

Lemma passes_mono t k k' : k <= k' -> passes t k -> passes t k'.
Proof. intros Hk Ht d r Hd. apply Ht. lia. Qed.

Lemma passes_json_string s k : utf8 s <> None -> passes (json_string s) k.
Proof. intros Hs d r _. by apply nesting_json_string. Qed.

(** *** Every value *)

(** What the round trip asks of a value. *)
Definition readable (v : value) : bool := bounded_value v && scalar_value v && floats_read_back v.

Lemma utf8_some s : match utf8 s with Some _ => true | None => false end = true -> utf8 s <> None.
Proof. by destruct (utf8 s). Qed.

(** Where a number starts, no literal does. *)
Lemma scan_literal_number {E} (h : hooks E) s :
  match_number s <> None -> scan_literal h s = scan_number h s.
Proof.
  intros Hm. unfold scan_literal.
  repeat match goal with
  | |- match strip_prefix ?q s with _ => _ end = _ =>
      let H := fresh in destruct (strip_prefix q s) eqn:H;
      [apply strip_prefix_some in H; exfalso; apply Hm; rewrite H; reflexivity|]
  end. done.
Qed.

Lemma number_reads {E} (h : hooks E) t fl v :
  match_number t = Some (t, fl, []) -> (if fl : bool then parse_float h t else parse_int h t) = Ok v ->
  opens t /\ reads_with h t v.
Proof.
  intros Hm Hv. destruct (match_number_part _ _ _ _ Hm) as [[_ Hc] Hne].
  destruct t as [|c t]; [done|]. assert (Hin : is_number_char c = true) by (by apply andb_true_iff in Hc as [? _]).
  assert (Hcc : (48 <= c <= 57 \/ c = 45 \/ c = 43 \/ c = 46 \/ c = 101 \/ c = 69)%N).
  { revert Hin. unfold is_number_char, is_digit09. rewrite !orb_true_iff, andb_true_iff, !N.leb_le, !N.eqb_eq. lia. }
  split.
  - exists c, t. repeat split; [|lia..]. unfold is_ws. rewrite !orb_false_iff, !N.eqb_neq. lia.
  - intros n r Hr Hn. destruct n as [|n]; [lia|]. cbn [scan_once app].
    rewrite !eat_ne by lia. pose proof (match_number_app _ _ _ _ _ Hm Hr) as Ha. cbn [app] in Ha.
    rewrite scan_literal_number by (by rewrite Ha). unfold scan_number. rewrite Ha.
    destruct fl; simpl; by rewrite Hv.
Qed.

Lemma atom_reads {E} (h : hooks E) c t' v :
  is_ws c = false -> neutral c = true -> (forall r, scan_literal h ((c :: t') ++ r) = Ok (v, r)) ->
  opens (c :: t') /\ reads_with h (c :: t') v.
Proof.
  intros Hw Hc Hs. unfold neutral in Hc. rewrite negb_true_iff, !orb_false_iff, !N.eqb_neq in Hc.
  destruct Hc as [[[[H1 H2] H3] H4] H5]. split; [by exists c, t'|].
  intros [|n] r Hr Hlen; [lia|]. cbn [scan_once app] in *. rewrite !eat_ne by done. apply Hs.
Qed.

Lemma reads_number t fl v :
  match_number t = Some (t, fl, []) ->
  (if fl : bool then _bounded_float t else _bounded_int t) = Ok v ->
  opens t /\ reads t v /\ forall k, passes t k.
Proof.
  intros Hm Hv. destruct (number_reads strict_hooks t fl v Hm) as [Ho Hr]; [by destruct fl|].
  split; [done|]. split; [done|]. intros k.
  destruct (match_number_part _ _ _ _ Hm) as [[_ Hc] _]. apply passes_neutral, (neutral_sub is_number_char); [|done].
  intros x. unfold is_number_char, is_digit09, neutral.
  rewrite !orb_true_iff, andb_true_iff, !N.leb_le, !N.eqb_eq, negb_true_iff, !orb_false_iff, !N.eqb_neq. lia.
Qed.

Lemma reads_atom c t' v :
  let t := c :: t' in
  is_ws c = false -> forallb neutral t = true ->
  (forall r, scan_literal strict_hooks (t ++ r) = Ok (v, r)) ->
  opens t /\ reads t v /\ forall k, passes t k.
Proof.
  intros t Hw Hn Hs. assert (Hc : neutral c = true) by (by apply andb_true_iff in Hn as [? _]).
  destruct (atom_reads strict_hooks c t' v Hw Hc Hs) as [Ho Hr].
  split; [done|]. split; [done|]. intros k. by apply passes_neutral.
Qed.

Lemma canonical_dict (ms : list member) :
  canonical (VDict (map (fun m => (VStr (m_key m), m_value m)) ms))
  = VDict (map pair_of (map m_pair (py_sort m_leb ms))).
Proof.
  cbn [canonical]. rewrite !map_map. cbn [fst snd]. f_equal. by apply py_sort_map.
Qed.

Lemma list_depth_In x l : In x l -> vdepth x <= list_depth l.
Proof. induction l as [|y l IH]; [done|]. intros [->|H]; simpl; [lia|]. specialize (IH H). unfold list_depth in *. lia. Qed.

Lemma list_depth_nonneg l : 0 <= list_depth l.
Proof. unfold list_depth. induction l; simpl; lia. Qed.

(** The space after separators is white. *)
Section Spaced.
Context (sp : str) (Hsp : forallb is_ws sp = true).

Lemma separator_neutral c : neutral c = true -> forallb neutral (c :: sp) = true.
Proof. intros Hc. simpl. rewrite Hc. by apply (neutral_sub is_ws); [apply ws_neutral|]. Qed.

Lemma reads_list l t :
  json_text sp false (VList l) = Some t ->
  Forall (fun v => forall t, json_text sp false v = Some t ->
    opens t /\ reads t (canonical v) /\ passes t (vdepth v)) l ->
  opens t /\ reads t (canonical (VList l)) /\ passes t (vdepth (VList l)).
Proof.
  intros (items & Hi & ->)%json_encode_list IH. split; [by eexists 91%N, _|]. split.
  - intros [|n] r Hr Hn; [lia|]. cbn [scan_once canonical].
    change ((u "[" ++ py_join (44%N :: sp) items ++ u "]") ++ r)
      with (91%N :: (py_join (44%N :: sp) items ++ u "]") ++ r) in *.
    rewrite <- app_assoc in *. change (u "]" ++ r) with (93%N :: r) in *.
    rewrite eat_ne, eat_eq by done.
    assert (Hz : exists tws, items = map fst tws /\ map canonical l = map snd tws /\
      Forall (fun tw => opens (fst tw) /\ reads (fst tw) (snd tw)) tws).
    { clear Hn. induction Hi as [|x i l items Hx Hi IHi]; [by exists []|].
      apply Forall_cons in IH as [IHx IH]. destruct (IHi IH) as (tws & -> & Hl & Ht).
      destruct (IHx _ Hx) as (? & ? & _). exists ((i, canonical x) :: tws). simpl. rewrite Hl.
      repeat split. by constructor. }
    destruct Hz as (tws & -> & Hl & Ht). destruct tws as [|[t0 w0] tws].
    { destruct l; [|done]. done. }
    assert (Ho : opens (py_join (44%N :: sp) (map fst ((t0, w0) :: tws)))).
    { apply join_opens. by apply Forall_cons in Ht as [[? _] _]. }
    rewrite opens_skip by done. rewrite opens_eat by auto.
    assert (Hs : scan_items strict_hooks n (py_join (44%N :: sp) (map fst ((t0, w0) :: tws)) ++ 93%N :: r)
                 = Ok (map snd ((t0, w0) :: tws), r)).
    { apply (scan_items_reads strict_hooks sp [] Hsp eq_refl (fun _ _ H => H));
        [done|done|]. cbn [length] in Hn. cbn [app]. lia. }
    rewrite Hl. exact (f_equal (fun m => let* (l0, r0) := m in Ok (VList l0, r0)) Hs).
  - change (passes (91%N :: py_join (44%N :: sp) items ++ [93%N]) (1 + list_depth l)).
    apply passes_group; [auto|apply list_depth_nonneg|]. apply passes_join; [by apply separator_neutral|].
    assert (Hk : forall x, In x l -> vdepth x <= list_depth l) by (intros x; apply list_depth_In).
    revert Hk. generalize (list_depth l). intros k Hk.
    induction Hi as [|x i l items Hx Hi IHi]; constructor.
    + apply Forall_cons in IH as [IHx _]. destruct (IHx _ Hx) as (_ & _ & Hp).
      eapply passes_mono; [|done]. apply Hk. by left.
    + apply Forall_cons in IH as [_ IH]. apply IHi; [done|]. intros y Hy. apply Hk. by right.
Qed.

(** Everything proved of a value in its text, for a member. *)
Definition member_ok (m : member) : Prop :=
  utf8 (m_key m) <> None /\ opens (m_text m) /\ reads (m_text m) (canonical (m_value m)) /\
  passes (m_text m) (vdepth (m_value m)).

Lemma reads_dict (ms : list member) :
  let v := VDict (map (fun m => (VStr (m_key m), m_value m)) ms) in
  let t := u "{" ++ py_join (44%N :: sp) (map (m_source sp) (py_sort m_leb ms)) ++ u "}" in
  Forall member_ok ms -> NoDup (map m_key ms) ->
  opens t /\ reads t (canonical v) /\ passes t (vdepth v).
Proof.
  intros v t Hms Hnd. split; [by eexists 123%N, _|]. split.
  - intros [|n] r Hr Hn; [lia|]. unfold v. rewrite canonical_dict. cbn [scan_once].
    assert (Ht : t ++ r = 123%N :: py_join (44%N :: sp) (map (m_source sp) (py_sort m_leb ms)) ++ 125%N :: r).
    { unfold t. by rewrite <- !app_assoc. }
    rewrite Ht in *. rewrite !eat_ne, eat_eq by done.
    assert (Hs : Forall (member_reads strict_hooks (fun k => utf8 k <> None)) (map m_read (py_sort m_leb ms))).
    { rewrite Forall_map, <- py_sort_perm. eapply Forall_impl; [done|]. intros m (? & ? & ? & _). done. }
    assert (Hd : NoDup (map fst (map m_pair (py_sort m_leb ms)))).
    { rewrite map_map. change (NoDup (map m_key (py_sort m_leb ms))). by rewrite <- py_sort_perm. }
    assert (Hu : _unique_object (map m_pair (py_sort m_leb ms))
                 = Ok (VDict (map pair_of (map m_pair (py_sort m_leb ms))))) by (by apply unique_object_ok).
    destruct (py_sort m_leb ms) as [|m ms']; [done|].
    assert (Ho : opens (py_join (44%N :: sp) (map (m_source sp) (m :: ms')))).
    { apply join_opens. by eexists 34%N, _. }
    rewrite opens_skip by done. rewrite opens_eat by auto.
    assert (Hp : scan_pairs strict_hooks n (py_join (44%N :: sp) (map (m_source sp) (m :: ms')) ++ 125%N :: r)
                 = Ok (map m_pair (m :: ms'), r)).
    { rewrite <- (map_ext _ _ (m_source_quoted sp)), <- (map_map m_read (quoted_source sp _)).
      rewrite <- (map_map m_read fst).
      refine (scan_pairs_reads strict_hooks sp [] Hsp eq_refl (fun _ _ H => H) sp Hsp (flat_map json_char)
                (fun k => utf8 k <> None) (scanstring_json strict_hooks) _ n r _ Hs _); [done|].
      rewrite map_map, (map_ext _ _ (m_source_quoted sp)). cbn [length] in Hn. cbn [app]. lia. }
    etransitivity; [exact (f_equal (fun m => let* (l, r0) := m in
                            let* v := object_pairs_hook strict_hooks l in Ok (v, r0)) Hp)|]. cbn [rbind].
    change (object_pairs_hook strict_hooks) with _unique_object. by rewrite Hu.
  - unfold v. set (k := fold_right (fun m a => Z.max (vdepth (m_value m)) a) 0 ms).
    assert (vdepth (VDict (map (fun m => (VStr (m_key m), m_value m)) ms)) = 1 + k) as ->.
    { subst k. simpl. f_equal. clear. induction ms as [|m ms IH]; [done|]. simpl. by rewrite IH. }
    apply (passes_group 123 125); [auto|subst k; clear; induction ms; simpl; lia|].
    apply passes_join; [by apply separator_neutral|].
    rewrite <- py_sort_perm. assert (Hk : forall m, In m ms -> vdepth (m_value m) <= k).
    { subst k. clear. induction ms as [|x ms IH]; [done|]. intros m [->|H]; simpl; [lia|]. specialize (IH m H). lia. }
    clearbody k. clear t v Hnd. induction Hms as [|m ms (Hu & _ & _ & Hp) Hms IH]; constructor.
    + unfold m_source. apply passes_app; [by apply passes_json_string|].
      change (58%N :: sp ++ m_text m) with ((58%N :: sp) ++ m_text m).
      apply passes_app; [by apply passes_neutral, separator_neutral|]. eapply passes_mono; [|done]. apply Hk. by left.
    + apply IH. intros y Hy. apply Hk. by right.
Qed.

Lemma bounded_dict_members (ms : list member) :
  let d := map (fun m => (VStr (m_key m), m_value m)) ms in
  readable (VDict d) = true ->
  NoDup (map m_key ms) /\ Forall (fun m => utf8 (m_key m) <> None /\ readable (m_value m) = true) ms.
Proof.
  intros d. unfold readable. cbn [bounded_value scalar_value floats_read_back].
  rewrite !andb_true_iff, !forallb_forall. unfold distinct_keys. rewrite andb_true_iff.
  intros [[[[_ Hk] Hb] Hs] Hf]. split.
  - apply nodupb_NoDup in Hk; [|apply str_eqb_eq].
    assert (Hd : d = map pair_of (map (fun m => (m_key m, m_value m)) ms)) by (unfold d; by rewrite map_map).
    rewrite Hd, pairs_keys, map_map in Hk. done.
  - apply List.Forall_forall. intros m Hm.
    assert (Hin : In (VStr (m_key m), m_value m) d) by (apply in_map_iff; eauto).
    specialize (Hb _ Hin). specialize (Hs _ Hin). specialize (Hf _ Hin). cbn [fst snd scalar_value] in *.
    apply andb_true_iff in Hs as [Hu Hs]. apply utf8_some in Hu. by rewrite Hb, Hs, Hf.
Qed.

Lemma readable_list l : readable (VList l) = true -> Forall (fun v => readable v = true) l.
Proof.
  unfold readable. cbn [bounded_value scalar_value floats_read_back].
  rewrite !andb_true_iff, !forallb_forall, List.Forall_forall.
  intros [[Hb Hs] Hf] v Hv. by rewrite Hb, Hs, Hf.
Qed.

(** The text of a readable value reads as its canonical form, whatever delimiter
    follows it. *)
Lemma encoded_reads v t :
  readable v = true -> json_text sp false v = Some t ->
  opens t /\ reads t (canonical v) /\ passes t (vdepth v).
Proof.
  revert t. induction v as [ |b|z|f|s|l IH|d IH] using value_nested_ind; intros t Hv.
  - intros [= <-]. destruct (reads_atom 110 (u "ull") VNone) as (? & ? & ?); done.
  - intros [= <-]. destruct b.
    + destruct (reads_atom 116 (u "rue") (VBool true)) as (? & ? & ?); done.
    + destruct (reads_atom 102 (u "alse") (VBool false)) as (? & ? & ?); done.
  - intros [= <-]. destruct (reads_number (str_of_Z z) false (VInt z)) as (? & ? & ?);
      [apply match_number_int_text| |done].
    apply bounded_int_text. unfold readable in Hv. cbn [bounded_value scalar_value floats_read_back] in Hv.
    rewrite !andb_true_r in Hv. by apply Z.ltb_lt.
  - assert (Hr : reads_back f = true) by (by apply andb_true_iff in Hv as [_ ?]).
    cbn [json_text]. case_if; [|done]. intros [= <-]. unfold reads_back in Hr.
    destruct (match_number (float_repr f)) as [[[t fl] r]|] eqn:Em; [|done].
    destruct fl; [|done]. destruct r; [|done].
    destruct (match_number_part _ _ _ _ Em) as [[Ht _] _]. rewrite app_nil_r in Ht. rewrite <- Ht in *.
    destruct (_bounded_float (float_repr f)) as [[| | |g| | |]|] eqn:Eb; try done.
    apply float_same_eq in Hr as ->.
    destruct (reads_number _ true _ Em Eb) as (? & ? & ?). done.
  - intros [= <-]. assert (Hu : utf8 s <> None).
    { unfold readable in Hv. cbn [bounded_value scalar_value floats_read_back] in Hv.
      rewrite andb_true_r in Hv. by apply utf8_some. }
    split; [by eexists 34%N, _|]. split; [|by apply passes_json_string].
    intros [|n] r Hr Hn; [lia|]. unfold json_string. cbn [app]. rewrite <- app_assoc. cbn [app scan_once].
    rewrite eat_eq, scanstring_json by done. done.
  - intros Ht. apply (reads_list l t Ht). apply readable_list in Hv.
    eapply Forall_impl; [by apply Forall_and; split; [apply IH|apply Hv]|].
    intros v [IHv Hv'] t' Ht'. by apply IHv.
  - intros (ms & -> & Hms & ->)%json_encode_dict.
    destruct (bounded_dict_members ms Hv) as [Hnd Hok]. apply reads_dict; [|done].
    rewrite Forall_map in IH. rewrite !Forall_forall in *. intros m Hm.
    destruct (Hok m Hm) as [Hu Hr]. split; [done|]. by apply IH; [..|apply Hms].
Qed.

End Spaced.

Lemma scalar_canonical v : scalar_value v = true -> scalar_value (canonical v) = true.
Proof.
  induction v as [ | | | | |l IH|d IH] using value_nested_ind; try done; cbn [scalar_value canonical].
  - rewrite forallb_map_comp, !forallb_forall. rewrite List.Forall_forall in IH. auto.
  - rewrite !forallb_forall. intros Hd kv Hin%py_sort_In. apply in_map_iff in Hin as (kv' & <- & Hin).
    rewrite List.Forall_forall in IH. specialize (Hd _ Hin). apply andb_true_iff in Hd as [H1 H2].
    simpl. rewrite H1. simpl. auto.
Qed.

(** The text is read back whatever white space follows it. *)
Lemma strict_json_reads sp v text tail :
  forallb is_ws sp = true -> readable v = true -> vdepth v <= MAX_JSON_DEPTH -> json_text sp false v = Some text ->
  delimited tail = true -> forallb is_ws tail = true -> strict_json_loads (text ++ tail) = Ok (canonical v).
Proof.
  intros Hsp Hv Hd Ht Hdel Htail. destruct (encoded_reads sp Hsp v text Hv Ht) as (Ho & Hr & Hp).
  unfold strict_json_loads, _check_nesting. specialize (Hp 0 tail Hd).
  change nesting_start with (out_at 0). rewrite Hp, <- (app_nil_r tail), nesting_run_neutral, app_nil_r;
    [|by apply (neutral_sub is_ws); [apply ws_neutral|]].
  cbn [nesting_run rbind].
  assert (Hj : json_loads strict_hooks (text ++ tail) = Ok (canonical v)).
  { assert (He : eat 65279 (text ++ tail) = None).
    { destruct Ho as (c & t' & -> & Hc & _). apply eat_ne. intros ->.
      by specialize (Hr (S (2 * length (65279%N :: t' ++ []))) [] eq_refl (Nat.lt_succ_diag_r _)). }
    unfold json_loads, json_loads_fuel. rewrite He, opens_skip by done. rewrite Hr; [|done|lia]. cbn [rbind].
    rewrite <- (app_nil_r tail), skip_ws_app by done. done. }
  rewrite Hj. cbn [rbind]. rewrite reject_unpaired_spec.
  rewrite scalar_canonical; [done|]. apply andb_true_iff in Hv as [Hv _]. by apply andb_true_iff in Hv as [_ ?].
Qed.

(** C33: Writing and reading are inverse: for a value whose objects have distinct
    Unicode keys, whose strings are Unicode, whose integers have at most 128
    digits, whose floats read back from their printed form and that nests at most
    256 deep, the text of [json.dumps(value, sort_keys=True)] is accepted by the
    strict reader, which returns the value with every object in key order. *)
Theorem strict_json_roundtrip v text :
  readable v = true -> vdepth v <= MAX_JSON_DEPTH -> json_encode false v = Some text ->
  strict_json_loads text = Ok (canonical v).
Proof.
  intros Hv Hd Ht. rewrite <- (app_nil_r text). by apply (strict_json_reads [32%N]).
Qed.

Definition sample_value : value :=
  VDict (dict_of [("verdict", VStr (u "PASS")); ("exit", VInt (-1)); ("coverage", VFloat (dec 875 1));
                  ("notes", VList [VStr [34; 92; 8232; 128512]%N; VNone; VBool false; VDict []])]).

Lemma strict_json_roundtrip_witness :
  match json_encode false sample_value with
  | Some text => strict_json_loads text = Ok (canonical sample_value)
  | None => False
  end.
Proof.
  assert (Hd : vdepth sample_value <= MAX_JSON_DEPTH) by (vm_compute; discriminate).
  destruct (json_encode false sample_value) as [text|] eqn:E; [|vm_compute in E; discriminate].
  exact (strict_json_roundtrip sample_value text eq_refl Hd E).
Defined.
