(* ===== verification/Verdict.v ===== *)
(** The verdict, lifecycle and reason vocabulary (domain/verdict.py) and the
    versioned record contracts (verdict_contract_v1_11.py, _v1_12.py).

    In the sources these are string constants; here each vocabulary is an
    inductive type with its wire spelling, and the contracts are functions on
    them.  Fields that may hold any string (a record under verification) stay
    strings and are compared with the wire spellings. *)
From S2P Require Export Prelude.

(** ** Lifecycle states and verdicts *)

Inductive execution_state :=
| EXECUTION_STATIC_GATE
| EXECUTION_NOT_STARTED
| EXECUTION_STARTED_INCOMPLETE
| EXECUTION_COMPLETED.

Definition EXECUTION_STATES : list execution_state :=
  [EXECUTION_STATIC_GATE; EXECUTION_NOT_STARTED; EXECUTION_STARTED_INCOMPLETE; EXECUTION_COMPLETED].

Definition state_wire (s : execution_state) : str :=
  match s with
  | EXECUTION_STATIC_GATE => "static_gate"
  | EXECUTION_NOT_STARTED => "not_started"
  | EXECUTION_STARTED_INCOMPLETE => "started_incomplete"
  | EXECUTION_COMPLETED => "completed"
  end.

Inductive verdict := PASS | REJECTED | FAIL | ERROR | TAMPERED.

Definition VERDICTS : list verdict := [PASS; REJECTED; FAIL; ERROR; TAMPERED].

Definition verdict_wire (v : verdict) : str :=
  match v with
  | PASS => "PASS"
  | REJECTED => "REJECTED"
  | FAIL => "FAIL"
  | ERROR => "ERROR"
  | TAMPERED => "TAMPERED"
  end.

#[export] Instance execution_state_eq_dec : EqDecision execution_state.
Proof. solve_decision. Defined.
#[export] Instance verdict_eq_dec : EqDecision verdict.
Proof. solve_decision. Defined.

(** ** Reason codes *)

Inductive reason_code :=
| REASON_TESTS_PASSED
| REASON_PROTECTED_HARNESS_EDIT
| REASON_TESTS_FAILED
| REASON_NO_PARSEABLE_EDITS
| REASON_UNSAFE_PATH
| REASON_PATCH_APPLY_FAILED
| REASON_NO_TEST_VERDICT
| REASON_JUNIT_EXIT_MISMATCH
| REASON_EMPTY_DIFF
| REASON_BINARY_PATCH
| REASON_REVERSE_APPLY_FAILED
| REASON_NO_VERIFIABLE_CHANGES
| REASON_DIFF_COVERAGE_BELOW_THRESHOLD
| REASON_TEST_TIMEOUT
| REASON_SETUP_TIMEOUT
| REASON_SETUP_FAILED
| REASON_ASSURANCE_REQUIREMENT_NOT_MET
| REASON_FIX_NOT_DEMONSTRATED
| REASON_POLICY_REQUIREMENT_UNSUPPORTED
| REASON_VERIFIER_PACK_IDENTITY_MISMATCH
| REASON_VERIFIER_PACK_INVALID
| REASON_VERIFIER_PACK_REQUIRED
| REASON_VERIFIER_PACK_NOT_FOUND
| REASON_VERIFIER_PACK_SNAPSHOT_CHANGED
| REASON_CANDIDATE_NOT_EXERCISED
| REASON_CANDIDATE_TREE_CHANGED
| REASON_TEST_COMMAND_UNAVAILABLE
| REASON_RUNTIME_CLEANUP_FAILED
| REASON_ASSERTION_LIVENESS_FAILED.

#[export] Instance reason_code_eq_dec : EqDecision reason_code.
Proof. solve_decision. Defined.

Definition REASON_CODES : list reason_code :=
  [REASON_TESTS_PASSED;
   REASON_PROTECTED_HARNESS_EDIT;
   REASON_TESTS_FAILED;
   REASON_NO_PARSEABLE_EDITS;
   REASON_UNSAFE_PATH;
   REASON_PATCH_APPLY_FAILED;
   REASON_NO_TEST_VERDICT;
   REASON_JUNIT_EXIT_MISMATCH;
   REASON_EMPTY_DIFF;
   REASON_BINARY_PATCH;
   REASON_REVERSE_APPLY_FAILED;
   REASON_NO_VERIFIABLE_CHANGES;
   REASON_DIFF_COVERAGE_BELOW_THRESHOLD;
   REASON_TEST_TIMEOUT;
   REASON_SETUP_TIMEOUT;
   REASON_SETUP_FAILED;
   REASON_ASSURANCE_REQUIREMENT_NOT_MET;
   REASON_FIX_NOT_DEMONSTRATED;
   REASON_POLICY_REQUIREMENT_UNSUPPORTED;
   REASON_VERIFIER_PACK_IDENTITY_MISMATCH;
   REASON_VERIFIER_PACK_INVALID;
   REASON_VERIFIER_PACK_REQUIRED;
   REASON_VERIFIER_PACK_NOT_FOUND;
   REASON_VERIFIER_PACK_SNAPSHOT_CHANGED;
   REASON_CANDIDATE_NOT_EXERCISED;
   REASON_CANDIDATE_TREE_CHANGED;
   REASON_TEST_COMMAND_UNAVAILABLE;
   REASON_RUNTIME_CLEANUP_FAILED;
   REASON_ASSERTION_LIVENESS_FAILED].

Definition reason_wire (r : reason_code) : str :=
  match r with
  | REASON_TESTS_PASSED => "tests_passed"
  | REASON_PROTECTED_HARNESS_EDIT => "protected_harness_edit"
  | REASON_TESTS_FAILED => "tests_failed"
  | REASON_NO_PARSEABLE_EDITS => "no_parseable_edits"
  | REASON_UNSAFE_PATH => "unsafe_path"
  | REASON_PATCH_APPLY_FAILED => "patch_apply_failed"
  | REASON_NO_TEST_VERDICT => "no_test_verdict"
  | REASON_JUNIT_EXIT_MISMATCH => "junit_exit_mismatch"
  | REASON_EMPTY_DIFF => "empty_diff"
  | REASON_BINARY_PATCH => "binary_patch"
  | REASON_REVERSE_APPLY_FAILED => "reverse_apply_failed"
  | REASON_NO_VERIFIABLE_CHANGES => "no_verifiable_changes"
  | REASON_DIFF_COVERAGE_BELOW_THRESHOLD => "diff_coverage_below_threshold"
  | REASON_TEST_TIMEOUT => "test_timeout"
  | REASON_SETUP_TIMEOUT => "setup_timeout"
  | REASON_SETUP_FAILED => "setup_failed"
  | REASON_ASSURANCE_REQUIREMENT_NOT_MET => "assurance_requirement_not_met"
  | REASON_FIX_NOT_DEMONSTRATED => "fix_not_demonstrated"
  | REASON_POLICY_REQUIREMENT_UNSUPPORTED => "policy_requirement_unsupported"
  | REASON_VERIFIER_PACK_IDENTITY_MISMATCH => "verifier_pack_identity_mismatch"
  | REASON_VERIFIER_PACK_INVALID => "verifier_pack_invalid"
  | REASON_VERIFIER_PACK_REQUIRED => "verifier_pack_required"
  | REASON_VERIFIER_PACK_NOT_FOUND => "verifier_pack_not_found"
  | REASON_VERIFIER_PACK_SNAPSHOT_CHANGED => "verifier_pack_snapshot_changed"
  | REASON_CANDIDATE_NOT_EXERCISED => "candidate_not_exercised"
  | REASON_CANDIDATE_TREE_CHANGED => "candidate_tree_changed_during_run"
  | REASON_TEST_COMMAND_UNAVAILABLE => "test_command_unavailable"
  | REASON_RUNTIME_CLEANUP_FAILED => "runtime_cleanup_failed"
  | REASON_ASSERTION_LIVENESS_FAILED => "assertion_liveness_failed"
  end.

(** Reason -> (permitted verdicts, permitted execution states). *)
Definition REASON_CONTRACT (r : reason_code) : list verdict * list execution_state :=
  match r with
  | REASON_TESTS_PASSED =>
      ([PASS], [EXECUTION_COMPLETED])
  | REASON_PROTECTED_HARNESS_EDIT =>
      ([REJECTED], [EXECUTION_STATIC_GATE])
  | REASON_TESTS_FAILED =>
      ([FAIL], [EXECUTION_COMPLETED])
  | REASON_NO_PARSEABLE_EDITS =>
      ([ERROR], [EXECUTION_STATIC_GATE])
  | REASON_UNSAFE_PATH =>
      ([ERROR], [EXECUTION_STATIC_GATE; EXECUTION_NOT_STARTED])
  | REASON_PATCH_APPLY_FAILED =>
      ([ERROR], [EXECUTION_NOT_STARTED])
  | REASON_NO_TEST_VERDICT =>
      ([FAIL; ERROR], [EXECUTION_COMPLETED])
  | REASON_JUNIT_EXIT_MISMATCH =>
      ([TAMPERED], [EXECUTION_COMPLETED])
  | REASON_EMPTY_DIFF =>
      ([ERROR], [EXECUTION_NOT_STARTED])
  | REASON_BINARY_PATCH =>
      ([ERROR], [EXECUTION_NOT_STARTED])
  | REASON_REVERSE_APPLY_FAILED =>
      ([ERROR], [EXECUTION_NOT_STARTED])
  | REASON_NO_VERIFIABLE_CHANGES =>
      ([ERROR], [EXECUTION_NOT_STARTED])
  | REASON_DIFF_COVERAGE_BELOW_THRESHOLD =>
      ([FAIL], [EXECUTION_COMPLETED])
  | REASON_TEST_TIMEOUT =>
      ([FAIL; ERROR], [EXECUTION_STARTED_INCOMPLETE])
  | REASON_SETUP_TIMEOUT =>
      ([ERROR], [EXECUTION_STARTED_INCOMPLETE])
  | REASON_SETUP_FAILED =>
      ([ERROR], [EXECUTION_NOT_STARTED; EXECUTION_STARTED_INCOMPLETE])
  | REASON_ASSURANCE_REQUIREMENT_NOT_MET =>
      ([ERROR], [EXECUTION_NOT_STARTED; EXECUTION_STARTED_INCOMPLETE; EXECUTION_COMPLETED])
  | REASON_FIX_NOT_DEMONSTRATED =>
      ([FAIL], [EXECUTION_COMPLETED])
  | REASON_POLICY_REQUIREMENT_UNSUPPORTED =>
      ([ERROR], [EXECUTION_NOT_STARTED])
  | REASON_VERIFIER_PACK_IDENTITY_MISMATCH =>
      ([ERROR], [EXECUTION_NOT_STARTED])
  | REASON_VERIFIER_PACK_INVALID =>
      ([ERROR], [EXECUTION_NOT_STARTED])
  | REASON_VERIFIER_PACK_REQUIRED =>
      ([ERROR], [EXECUTION_NOT_STARTED])
  | REASON_VERIFIER_PACK_NOT_FOUND =>
      ([ERROR], [EXECUTION_NOT_STARTED])
  | REASON_VERIFIER_PACK_SNAPSHOT_CHANGED =>
      ([TAMPERED], [EXECUTION_NOT_STARTED; EXECUTION_STARTED_INCOMPLETE; EXECUTION_COMPLETED])
  | REASON_CANDIDATE_NOT_EXERCISED =>
      ([ERROR], [EXECUTION_COMPLETED])
  | REASON_CANDIDATE_TREE_CHANGED =>
      ([TAMPERED], [EXECUTION_STARTED_INCOMPLETE; EXECUTION_COMPLETED])
  | REASON_TEST_COMMAND_UNAVAILABLE =>
      ([ERROR], [EXECUTION_NOT_STARTED; EXECUTION_STARTED_INCOMPLETE])
  | REASON_RUNTIME_CLEANUP_FAILED =>
      ([ERROR], [EXECUTION_STARTED_INCOMPLETE])
  | REASON_ASSERTION_LIVENESS_FAILED =>
      ([TAMPERED], [EXECUTION_COMPLETED])
  end.

(** Decoding of the wire spellings. *)
Definition reason_of_wire (s : str) : option reason_code :=
  List.find (fun r => reason_wire r =s? s) REASON_CODES.
Definition verdict_of_wire (s : str) : option verdict :=
  List.find (fun v => verdict_wire v =s? s) VERDICTS.
Definition state_of_wire (s : str) : option execution_state :=
  List.find (fun v => state_wire v =s? s) EXECUTION_STATES.

Lemma reason_of_wire_wire r : reason_of_wire (reason_wire r) = Some r.
Proof. by destruct r. Qed.
Lemma verdict_of_wire_wire v : verdict_of_wire (verdict_wire v) = Some v.
Proof. by destruct v. Qed.
Lemma state_of_wire_wire s : state_of_wire (state_wire s) = Some s.
Proof. by destruct s. Qed.

Lemma reason_wire_inj r r' : reason_wire r = reason_wire r' -> r = r'.
Proof. intros H. apply (f_equal reason_of_wire) in H. rewrite !reason_of_wire_wire in H. congruence. Qed.
Lemma verdict_wire_inj v v' : verdict_wire v = verdict_wire v' -> v = v'.
Proof. intros H. apply (f_equal verdict_of_wire) in H. rewrite !verdict_of_wire_wire in H. congruence. Qed.
Lemma state_wire_inj s s' : state_wire s = state_wire s' -> s = s'.
Proof. intros H. apply (f_equal state_of_wire) in H. rewrite !state_of_wire_wire in H. congruence. Qed.

Lemma reason_of_wire_some s r : reason_of_wire s = Some r <-> s = reason_wire r.
Proof.
  split; [|intros ->; apply reason_of_wire_wire].
  intros H. apply find_some in H as [_ H]. symmetry. by apply str_eqb_eq.
Qed.

Definition verdict_eqb (a b : verdict) : bool := bool_decide (a = b).
Definition state_eqb (a b : execution_state) : bool := bool_decide (a = b).

(** A verdict and state permitted together with a reason. *)
Definition contract_allows (r : reason_code) (v : verdict) (s : execution_state) : bool :=
  existsb (verdict_eqb v) (fst (REASON_CONTRACT r)) &&
  existsb (state_eqb s) (snd (REASON_CONTRACT r)).

(** Which reasons permit which verdict, for any state. *)
Definition contract_verdict (r : reason_code) (v : verdict) : bool :=
  existsb (verdict_eqb v) (fst (REASON_CONTRACT r)).

(** ** Versioned contracts *)

Module V1_11.
Definition SCHEMA_VERSION : str := "1.11".

Definition POLICY_KEYS : list str := us
  ["mode"; "isolation"; "docker_image"; "docker_network"; "test_command"; "setup_command";
   "trust_setup_on_host"; "setup_output_globs"; "protected"; "allow"; "allow_new_tests";
   "timeout"; "mem_limit_mb"; "verifier_pack_required"; "expect_verifier_pack_sha256";
   "blackbox"; "blackbox_only"; "require_report_integrity"; "require_candidate_isolation";
   "min_diff_coverage"; "baseline_evidence"; "require_demonstrated_fix"; "policy_id";
   "policy_version"].

Definition OPTIONAL_POLICY_KEYS : list str := us ["strict_harness"].
Definition ALLOWED_POLICY_KEYS : list str := POLICY_KEYS ++ OPTIONAL_POLICY_KEYS.

Definition REQUIRED_TOP_LEVEL : list str := us
  ["schema_version"; "tool"; "tool_version"; "verdict"; "passed"; "exit_code"; "reason_code";
   "reason"; "files_changed"; "protected_violations"; "risk_level"; "risk_score";
   "tests_passed"; "tests_total"; "test_command_ran"; "execution_state"; "execution_phase";
   "verdict_source"; "isolation"; "source"; "base_reconstruction"; "assurance";
   "diff_coverage"; "baseline"; "attestation"; "diagnostics"].

Definition REQUIRED_ASSURANCE : list str := us
  ["execution_state"; "execution_phase"; "harness_integrity"; "report_integrity";
   "candidate_isolation"; "suite_isolation"; "setup_isolation"; "runtime_continuity";
   "verifier_pack"; "overall_profile"].

Definition REQUIRED_ATTESTATION : list str := us
  ["created_utc"; "guard_version"; "mode"; "candidate_sha256"; "effective_policy";
   "policy_sha256"; "execution_state"; "execution_phase"; "test_command_started";
   "delivered_isolation"; "effective_candidate_isolation"; "candidate_invocations";
   "candidate_launcher_invocation_observed"; "verifier_pack_sha256";
   "verifier_pack_digest_format"; "verifier_pack_tests_passed"; "verifier_pack_tests_total";
   "verifier_pack_present"; "verifier_pack_started"; "verifier_pack_completed"].

Definition REASON_CONTRACT := REASON_CONTRACT.
End V1_11.

Module V1_12.
Definition SCHEMA_VERSION : str := "1.12".
(** A candidate-tree change may also be found before any execution. *)
Definition REASON_CONTRACT (r : reason_code) : list verdict * list execution_state :=
  match r with
  | REASON_CANDIDATE_TREE_CHANGED =>
      (fst (V1_11.REASON_CONTRACT r), snd (V1_11.REASON_CONTRACT r) ++ [EXECUTION_NOT_STARTED])
  | _ => V1_11.REASON_CONTRACT r
  end.
Definition POLICY_KEYS : list str := V1_11.POLICY_KEYS.
Definition OPTIONAL_POLICY_KEYS : list str :=
  us ["harness_inputs"; "operating_profile"; "strict_harness"].
Definition ALLOWED_POLICY_KEYS : list str := POLICY_KEYS ++ OPTIONAL_POLICY_KEYS.
End V1_12.

(** The contract module a record's [schema_version] selects
    ([_POLICY_CONTRACTS.get(schema_version, _contract)]). *)
Record versioned_contract := {
  vc_reason_contract : reason_code -> list verdict * list execution_state;
  vc_policy_keys : list str;
  vc_allowed_policy_keys : list str
}.

Definition contract_1_11 : versioned_contract := {|
  vc_reason_contract := V1_11.REASON_CONTRACT;
  vc_policy_keys := V1_11.POLICY_KEYS;
  vc_allowed_policy_keys := V1_11.ALLOWED_POLICY_KEYS |}.

Definition contract_1_12 : versioned_contract := {|
  vc_reason_contract := V1_12.REASON_CONTRACT;
  vc_policy_keys := V1_12.POLICY_KEYS;
  vc_allowed_policy_keys := V1_12.ALLOWED_POLICY_KEYS |}.

Definition contract_for (schema_version : str) : versioned_contract :=
  if schema_version =s? V1_12.SCHEMA_VERSION then contract_1_12 else contract_1_11.
