(* ===== verification/Harness.v ===== *)
(** Repository-relative paths and explicit judge inputs (domain/harness.py):
    which spellings of a path are unambiguous on every platform, the canonical
    form of a [harness_inputs] declaration, and which candidate paths conflict
    with one. *)
From S2P Require Export Prelude PyStr Glob.

Definition _PATTERN_CHARACTERS : str := u "*?[]{}".
Definition _WINDOWS_INVALID_CHARACTERS : str := u "<>:|?*" ++ [ch_quote].

Definition _WINDOWS_RESERVED_STEMS : list str :=
  us ["aux"; "clock$"; "con"; "nul"; "prn"]
  ++ map (fun d => u "com" ++ [d]) [49; 50; 51; 52; 53; 54; 55; 56; 57]%N
  ++ map (fun d => u "lpt" ++ [d]) [49; 50; 51; 52; 53; 54; 55; 56; 57]%N
  ++ map (fun d => u "com" ++ [d]) [185; 178; 179]%N
  ++ map (fun d => u "lpt" ++ [d]) [185; 178; 179]%N.

(** What may follow the tilde of a short alias: digits, then the end or a dot
    and any text without a line feed. *)
Definition alias_tail (s : str) : bool :=
  let rest := drop_while is_ascii_digit s in
  negb (Nat.eqb (length rest) (length s)) &&
  match rest with
  | [] => true
  | c :: b => N.eqb c ch_dot && negb (char_in ch_nl b)
  end.

(** Full match of the short-alias expression: any text without a line feed, a
    tilde, digits, and optionally a dot followed by more such text. *)
Fixpoint _WINDOWS_SHORT_ALIAS (s : str) : bool :=
  match s with
  | [] => false
  | c :: s' =>
      (N.eqb c 126 && alias_tail s') || (negb (N.eqb c ch_nl) && _WINDOWS_SHORT_ALIAS s')
  end.

(** [ord(c) < 32 or ord(c) == 127] *)
Definition is_control (c : N) : bool := ((c <? 32) || (c =? 127))%N.

(** [part in {"", ".", ".."}] *)
Definition dot_segment (p : str) : bool := str_in p [[]; u "."; u ".."].

(** [ntpath.isabs(s)] *)
Definition ntpath_isabs (s : str) : bool :=
  let s' := map (fun c => if N.eqb c ch_slash then ch_bslash else c) (take 3 s) in
  starts_with [ch_bslash] s' || starts_with [ch_colon; ch_bslash] (drop 1 s').

(** Why a declaration is refused.  The argument is typed, a sequence of
    strings, so the two guards on its dynamic type have no counterpart. *)
Inductive HarnessInputPolicyError :=
| HE_not_portable      (** not an exact portable forward-slash path *)
| HE_not_normalized    (** a '.', '..' or empty segment *)
| HE_duplicate
| HE_case_collision.

Section Harness.
Context `{UnicodeDB}.

Definition is_windows_ambiguous_path_segment (segment : str) : bool :=
  if match segment with [] => true | _ => false end
     || ends_with (u " ") segment || ends_with (u ".") segment
     || existsb (fun c => is_control c || char_in c _WINDOWS_INVALID_CHARACTERS) segment
     || _WINDOWS_SHORT_ALIAS segment
  then true
  else str_in (casefold (rstrip_space_dot (before_char ch_dot segment)))
         _WINDOWS_RESERVED_STEMS.

Definition is_portable_repo_path (path : str) : bool :=
  if match path with [] => true | _ => false end
     || char_in ch_bslash path || starts_with [ch_slash] path || ntpath_isabs path
  then false
  else forallb (fun part => negb (dot_segment part)
                            && negb (is_windows_ambiguous_path_segment part))
         (path_parts path).

(** The two checks of one declared path, in their order. *)
Definition check_harness_input (value : str) : result HarnessInputPolicyError str :=
  guard* negb (negb (is_portable_repo_path value)
               || existsb (fun c => char_in c value) _PATTERN_CHARACTERS)
    else HE_not_portable in
  guard* negb (existsb dot_segment (path_parts value)) else HE_not_normalized in
  Ok value.

Definition normalize_harness_inputs (values : list str)
  : result HarnessInputPolicyError (list str) :=
  let* normalized := rmap check_harness_input values in
  guard* nodupb str_eqb normalized else HE_duplicate in
  guard* nodupb str_eqb (map casefold normalized) else HE_case_collision in
  Ok (sort_str normalized).

Definition is_harness_input_path (path : str) (roots : list str)
  : result HarnessInputPolicyError bool :=
  let* rs := normalize_harness_inputs roots in
  Ok (existsb (fun root => casefold path =s? casefold root) rs).

Definition conflicts_with_root (path root : str) : bool :=
  (casefold path =s? casefold root)
  || starts_with (casefold path ++ [ch_slash]) (casefold root).

Definition harness_input_path_conflicts (path : str) (roots : list str)
  : result HarnessInputPolicyError bool :=
  let* rs := normalize_harness_inputs roots in
  Ok (existsb (conflicts_with_root path) rs).

(** The prefixes of a path, each with and without a trailing slash. *)
Definition setup_candidates (path : str) : list str :=
  let parts := path_parts path in
  flat_map (fun n => let p := py_join [ch_slash] (take n parts) in [p; p ++ [ch_slash]])
    (seq 1 (length parts)).

Definition hidden_by_globs (path : str) (globs : list str) : bool :=
  existsb (fun candidate =>
    existsb (fun pattern => fnmatch (casefold candidate) (casefold pattern)) globs)
    (setup_candidates path).

Definition setup_output_harness_conflicts (harness_inputs setup_output_globs : list str)
  : result HarnessInputPolicyError (list str) :=
  let* rs := normalize_harness_inputs harness_inputs in
  Ok (List.filter (fun path => hidden_by_globs path setup_output_globs) rs).

(** ** Portable paths *)

Lemma portable_parts path :
  is_portable_repo_path path = true ->
  path <> [] /\ ~ In ch_bslash path /\ starts_with [ch_slash] path = false /\
  Forall (fun part => dot_segment part = false
                      /\ is_windows_ambiguous_path_segment part = false) (path_parts path).
Proof.
  unfold is_portable_repo_path. destruct path as [|c path]; [done|]. rewrite orb_false_l.
  destruct (char_in ch_bslash (c :: path)) eqn:Eb; [done|].
  destruct (starts_with [ch_slash] (c :: path)) eqn:Es; [done|].
  destruct (ntpath_isabs (c :: path)); [done|]. cbn [orb].
  intros Hp. split; [done|]. split; [intros Hin%char_in_In; congruence|]. split; [done|].
  apply List.Forall_forall. intros part Hin. rewrite forallb_forall in Hp.
  specialize (Hp part Hin). brefl. done.
Qed.

Lemma ambiguous_chars seg c :
  is_windows_ambiguous_path_segment seg = false -> In c seg ->
  is_control c = false /\ char_in c _WINDOWS_INVALID_CHARACTERS = false.
Proof.
  unfold is_windows_ambiguous_path_segment. destruct (_ || _) eqn:E; [done|].
  rewrite !orb_false_iff in E. destruct E as [[_ E] _]. rewrite existsb_false in E.
  intros _ Hc. specialize (E c Hc). by rewrite orb_false_iff in E.
Qed.

Lemma path_char_part path c :
  c <> ch_slash -> In c path -> exists part, In part (path_parts path) /\ In c part.
Proof.
  intros Hc. unfold path_parts. induction path as [|x p IH]; simpl; [done|].
  destruct (N.eqb_spec x ch_slash) as [->|Hx].
  - intros [<-|Hin]; [done|]. destruct (IH Hin) as (part & Hp & Hi). exists part. by split; [right|].
  - destruct (split_char ch_slash p) as [|w ws] eqn:E; [by apply split_char_nonempty in E|].
    intros [->|Hin]; [exists (c :: w); split; by left|].
    destruct (IH Hin) as (part & [<-|Hp] & Hi); [exists (x :: w)|exists part];
      (split; [by (left + right)|by (right + idtac)]).
Qed.

(** A portable path contains no control character and no character Win32
    reserves, in particular no colon. *)
Lemma portable_chars path c :
  is_portable_repo_path path = true -> In c path ->
  is_control c = false /\ char_in c _WINDOWS_INVALID_CHARACTERS = false.
Proof.
  intros (_ & _ & _ & Hp)%portable_parts Hc.
  destruct (N.eq_dec c ch_slash) as [->|Hne]; [by vm_compute|].
  destruct (path_char_part path c Hne Hc) as (part & Hin & Hi).
  rewrite List.Forall_forall in Hp. destruct (Hp part Hin) as [_ Ha].
  by eapply ambiguous_chars.
Qed.

(** ** Resolution below a root *)

(** The directory stack a POSIX walk of the segments reaches from the
    repository root; [None] when it leaves the root. *)
Fixpoint walk (stack : list str) (parts : list str) : option (list str) :=
  match parts with
  | [] => Some stack
  | p :: ps =>
      if p =s? [] then walk stack ps
      else if p =s? u "." then walk stack ps
      else if p =s? u ".." then match stack with [] => None | _ :: st => walk st ps end
      else walk (p :: stack) ps
  end.

Lemma walk_plain stack parts :
  Forall (fun p => dot_segment p = false) parts -> walk stack parts = Some (rev parts ++ stack).
Proof.
  revert stack; induction parts as [|p ps IH]; intros stack; simpl; [done|].
  intros [Hp Hps]%Forall_cons. unfold dot_segment, str_in in Hp. simpl in Hp.
  rewrite !orb_false_iff in Hp. destruct Hp as (-> & -> & -> & _).
  rewrite IH by done. by rewrite <- app_assoc.
Qed.

(** ** Canonical declarations *)

Lemma rmap_check_ok values l :
  rmap check_harness_input values = Ok l <->
  l = values /\ Forall (fun v => check_harness_input v = Ok v) values.
Proof.
  rewrite rmap_ok. split.
  - induction 1 as [|v v' vs l Hv Hf [-> IH]]; [by split|].
    assert (v' = v) as -> by (unfold check_harness_input in Hv; repeat case_if; congruence).
    split; [done|by constructor].
  - intros [-> Hf]. by apply Forall_Forall2_diag.
Qed.

Lemma normalize_ok values l :
  normalize_harness_inputs values = Ok l <->
  Forall (fun v => check_harness_input v = Ok v) values /\ NoDup values /\
  NoDup (map casefold values) /\ l = sort_str values.
Proof.
  unfold normalize_harness_inputs. rewrite rbind_ok. setoid_rewrite rmap_check_ok.
  split.
  - intros (n & (-> & Hf) & Hr).
    destruct (nodupb str_eqb values) eqn:E1; [|done].
    destruct (nodupb str_eqb (map casefold values)) eqn:E2; [|done].
    injection Hr as <-. rewrite nodupb_NoDup in E1, E2 by apply str_eqb_eq. done.
  - intros (Hf & H1 & H2 & ->). exists values. split; [done|].
    rewrite <- (nodupb_NoDup str_eqb) in H1, H2 by apply str_eqb_eq. by rewrite H1, H2.
Qed.

Lemma normalize_sorted values l :
  normalize_harness_inputs values = Ok l ->
  Sorted (leR str_leb) l /\ NoDup l /\ NoDup (map casefold l) /\ Permutation values l /\
  Forall (fun v => check_harness_input v = Ok v) l.
Proof.
  intros (Hf & H1 & H2 & ->)%normalize_ok.
  pose proof (py_sort_perm str_leb values) as Hp. fold sort_str in Hp.
  split; [apply sort_str_Sorted|]. split; [by apply sort_str_NoDup|].
  split; [by rewrite <- Hp|]. split; [done|]. by rewrite <- Hp.
Qed.

(** Normalization is idempotent: its results are fixed points. *)
Lemma normalize_idem values l :
  normalize_harness_inputs values = Ok l -> normalize_harness_inputs l = Ok l.
Proof.
  intros (Hs & H1 & H2 & _ & Hf)%normalize_sorted. apply normalize_ok.
  split; [done|]. split; [done|]. split; [done|]. symmetry. by apply py_sort_id.
Qed.

Lemma check_harness_input_ok v :
  check_harness_input v = Ok v <->
  is_portable_repo_path v = true /\ existsb (fun c => char_in c v) _PATTERN_CHARACTERS = false.
Proof.
  unfold check_harness_input. split.
  - destruct (is_portable_repo_path v); [|done]. by destruct (existsb _ _PATTERN_CHARACTERS).
  - intros [Hp ->]. rewrite Hp. simpl.
    apply portable_parts in Hp as (_ & _ & _ & Hp). rewrite List.Forall_forall in Hp.
    assert (existsb dot_segment (path_parts v) = false) as ->; [|done].
    apply existsb_false. intros x Hx. by apply Hp.
Qed.

(** ** Conflicts *)

Lemma py_join_app sep l l' :
  l <> [] -> l' <> [] -> py_join sep (l ++ l') = py_join sep l ++ sep ++ py_join sep l'.
Proof.
  intros Hl Hl'. induction l as [|x l IH]; [done|]. destruct l as [|y l].
  - simpl. by destruct l'.
  - change (py_join sep ((x :: y :: l) ++ l')) with (x ++ sep ++ py_join sep ((y :: l) ++ l')).
    rewrite IH by done. change (py_join sep (x :: y :: l)) with (x ++ sep ++ py_join sep (y :: l)).
    by rewrite <- !app_assoc.
Qed.

(** Splitting commutes with gluing at a separator. *)
Lemma split_char_glue c s t : split_char c (s ++ c :: t) = split_char c s ++ split_char c t.
Proof.
  induction s as [|x s IH]; simpl; [by rewrite N.eqb_refl|].
  destruct (N.eqb_spec x c); [by rewrite IH|]. rewrite IH.
  destruct (split_char c s) eqn:E; [by apply split_char_nonempty in E|done].
Qed.

(** [root] lies strictly below [path] iff the segments of [path] are a proper
    prefix of those of [root]. *)
Lemma starts_with_sep c path root :
  starts_with (path ++ [c]) root = true <->
  exists rest, rest <> [] /\ split_char c root = split_char c path ++ rest.
Proof.
  rewrite starts_with_spec. split.
  - intros [r ->]. exists (split_char c r). split; [apply split_char_nonempty|].
    rewrite <- app_assoc. simpl. apply split_char_glue.
  - intros (rest & Hne & Hs). exists (py_join [c] rest).
    rewrite <- (split_join c root), Hs, py_join_app, split_join, <- app_assoc; try done.
    apply split_char_nonempty.
Qed.

Lemma casefold_parts p : path_parts (casefold p) = map casefold (path_parts p).
Proof. by apply split_char_casefold. Qed.

Lemma conflicts_with_root_spec path root :
  conflicts_with_root path root = true <->
  exists rest, map casefold (path_parts root) = map casefold (path_parts path) ++ rest.
Proof.
  unfold conflicts_with_root. rewrite orb_true_iff, str_eqb_eq, starts_with_sep.
  fold path_parts. setoid_rewrite <- casefold_parts. split.
  - intros [<-|(rest & _ & Hr)]; [exists []; by rewrite app_nil_r|by exists rest].
  - intros [[|x rest] Hr]; [left|right; by exists (x :: rest)].
    rewrite app_nil_r in Hr. symmetry. by eapply split_char_inj.
Qed.

(** a portable path stays below the repository root.  Walking its segments
    from the root descends through each of them in turn, never steps out and
    never stays in place; no character of it is a backslash, a control character
    or one that Win32 reserves. *)
Theorem portable_path_confined path :
  is_portable_repo_path path = true ->
  walk [] (path_parts path) = Some (rev (path_parts path)) /\
  starts_with [ch_slash] path = false /\
  (forall c, In c path -> c <> ch_bslash /\ is_control c = false /\
                         char_in c _WINDOWS_INVALID_CHARACTERS = false).
Proof.
  intros Hp. destruct (portable_parts path Hp) as (_ & Hb & Hs & Hf).
  split; [rewrite walk_plain, app_nil_r; [done|]|split; [done|]].
  - eapply Forall_impl; [exact Hf|]. by intros ? [? _].
  - intros c Hc. split; [congruence|]. by apply (portable_chars path).
Qed.

(** a declaration of harness inputs is accepted exactly when every path is
    portable and free of glob characters and no two are equal or differ in case
    only; the result is the sorted declaration, and normalizing it again
    changes nothing. *)
Theorem harness_inputs_canonical values :
  (forall l, normalize_harness_inputs values = Ok l <->
     (forall v, In v values -> is_portable_repo_path v = true /\
        existsb (fun c => char_in c v) _PATTERN_CHARACTERS = false) /\
     NoDup (map casefold values) /\ l = sort_str values) /\
  (forall l, normalize_harness_inputs values = Ok l -> normalize_harness_inputs l = Ok l).
Proof.
  split; [|apply normalize_idem]. intros l. rewrite normalize_ok, List.Forall_forall.
  setoid_rewrite check_harness_input_ok. split; [naive_solver|].
  intros (Hf & Hn & ->). repeat split; try done; try by apply Hf.
  clear -Hn. induction values as [|v vs IH]; [constructor|]. simpl in Hn.
  apply NoDup_cons in Hn as [Hv Hn]. constructor; [|by apply IH].
  rewrite list_elem_of_In in *. intros Hin. by apply Hv, in_map.
Qed.

(** a candidate path conflicts with a declaration exactly when, case
    insensitively, its segments are an initial run of the segments of one of the
    declared files: the path is the declared file or a directory above it. *)
Theorem harness_conflict_spec path roots r :
  normalize_harness_inputs roots = Ok r ->
  exists b, harness_input_path_conflicts path roots = Ok b /\
  (b = true <-> exists root rest, In root roots /\
     map casefold (path_parts root) = map casefold (path_parts path) ++ rest).
Proof.
  intros Hn. unfold harness_input_path_conflicts. rewrite Hn. eexists; split; [done|].
  rewrite existsb_exists. apply normalize_ok in Hn as (_ & _ & _ & ->).
  unfold sort_str. setoid_rewrite py_sort_In. setoid_rewrite conflicts_with_root_spec. naive_solver.
Qed.
End Harness.

Lemma portable_path_confined_witness :
  let U := ascii_unicode in
  walk [] (path_parts (u "src/app.py")) = Some (rev (path_parts (u "src/app.py"))).
Proof.
  intros U. apply (proj1 (@portable_path_confined U (u "src/app.py") ltac:(vm_compute; reflexivity))).
Defined.

Lemma harness_conflict_spec_witness :
  let U := ascii_unicode in
  exists b, harness_input_path_conflicts (u "Tools") (us ["tools/judge.py"]) = Ok b /\
  (b = true <-> exists root rest, In root (us ["tools/judge.py"]) /\
     map casefold (path_parts root) = map casefold (path_parts (u "Tools")) ++ rest).
Proof.
  intros U. apply (@harness_conflict_spec U (u "Tools") (us ["tools/judge.py"])
                     (us ["tools/judge.py"])). vm_compute. reflexivity.
Defined.
