(* ===== verification/RecordPaths.v ===== *)
(** The record verifier's own path predicates (record_verifier.py, lines
    163-245): it re-derives, without importing the producer's code, what a
    canonical [harness_inputs] list is, which changed paths can reach a declared
    input, and which setup globs would hide one.  The lemmas relate each of them
    to its producer-side counterpart of [Harness]. *)
From S2P Require Export Harness PyVal.

Section RecordPaths.
Context `{UnicodeDB}.

Definition _windows_ambiguous_path_segment (segment : str) : bool :=
  if match segment with [] => true | _ => false end
     || (ends_with (u " ") segment || ends_with (u ".") segment)
     || existsb (fun c => (c <? 32)%N || (c =? 127)%N
                          || char_in c _WINDOWS_INVALID_CHARACTERS) segment
     || _WINDOWS_SHORT_ALIAS segment
  then true
  else str_in (casefold (rstrip_space_dot (before_char ch_dot segment)))
         _WINDOWS_RESERVED_STEMS.

(** The disjunction that disqualifies one path of the list. *)
Definition _bad_harness_path (path : str) : bool :=
  match path with [] => true | _ => false end
  || existsb (fun c => (c <? 32)%N || (c =? 127)%N) path
  || char_in ch_bslash path
  || char_in ch_colon path
  || starts_with [ch_slash] path
  || existsb (fun c => char_in c path) (u "*?[]{}")
  || existsb (fun part => str_in part [[]; u "."; u ".."]) (split_char ch_slash path)
  || existsb _windows_ambiguous_path_segment (split_char ch_slash path).

Definition _is_canonical_harness_input_list (v : value) : bool :=
  if negb (v_is_string_list v) || negb (truthy v) then false
  else
    let paths := v_strings v in
    if negb (if decide (paths = sort_str paths) then true else false)
       || negb (nodupb str_eqb paths) then false
    else if negb (nodupb str_eqb (map casefold paths)) then false
    else negb (existsb _bad_harness_path paths).

Definition _harness_segment_can_alias (candidate declared : str) : bool :=
  if casefold candidate =s? casefold declared then true
  else if casefold (rstrip_space_dot candidate) =s? casefold declared then true
  else if casefold (before_char ch_colon candidate) =s? casefold declared then true
  else _WINDOWS_SHORT_ALIAS candidate.

(** [all(f(x, y) for x, y in zip(l, m))] *)
Fixpoint zip_all (f : str -> str -> bool) (l m : list str) : bool :=
  match l, m with
  | x :: l', y :: m' => f x y && zip_all f l' m'
  | _, _ => true
  end.

Definition _touched_path_can_target_harness (path : str) (harness_inputs : list str) : bool :=
  let candidate_parts := split_char ch_slash path in
  existsb (fun declared_parts =>
      Nat.leb (length candidate_parts) (length declared_parts)
      && zip_all _harness_segment_can_alias candidate_parts declared_parts)
    (map (split_char ch_slash) harness_inputs).

Definition _setup_output_hides_harness_input (path : str) (patterns : list str) : bool :=
  let parts := split_char ch_slash path in
  let candidates :=
    flat_map (fun e => map (fun suffix => py_join [ch_slash] (take e parts) ++ suffix)
                         [u ""; u "/"])
      (seq 1 (length parts)) in
  existsb (fun candidate =>
      existsb (fun pattern => fnmatch (casefold candidate) (casefold pattern)) patterns)
    candidates.

(** ** The two ambiguity predicates are the same function *)

Lemma windows_ambiguous_agree seg :
  _windows_ambiguous_path_segment seg = is_windows_ambiguous_path_segment seg.
Proof.
  unfold _windows_ambiguous_path_segment, is_windows_ambiguous_path_segment, is_control.
  by rewrite !orb_assoc.
Qed.

Lemma setup_hides_agree path patterns :
  _setup_output_hides_harness_input path patterns = hidden_by_globs path patterns.
Proof.
  unfold _setup_output_hides_harness_input, hidden_by_globs, setup_candidates. f_equal.
  apply flat_map_ext. intros e. simpl. by rewrite app_nil_r.
Qed.

(** ** Canonical lists *)

Lemma ntpath_isabs_plain path :
  char_in ch_bslash path = false -> char_in ch_colon path = false ->
  starts_with [ch_slash] path = false -> ntpath_isabs path = false.
Proof.
  intros Hb Hc Hs. unfold ntpath_isabs. destruct path as [|x path]; [done|].
  unfold char_in in *. cbn -[N.eqb existsb] in *.
  change (existsb (N.eqb ch_bslash) (x :: path)) with
    ((ch_bslash =? x)%N || existsb (N.eqb ch_bslash) path) in Hb.
  rewrite andb_true_r, N.eqb_sym in Hs. rewrite Hs.
  apply orb_false_iff in Hb as [-> Hb]. cbn -[N.eqb].
  destruct path as [|y path]; [done|]. cbn -[N.eqb] in *.
  rewrite !orb_false_iff in Hc. destruct Hc as (_ & Hc & _).
  destruct (N.eqb_spec y ch_slash) as [->|]; [done|]. by rewrite Hc.
Qed.

(** One path is acceptable to the verifier exactly when the producer's check
    accepts it. *)
Lemma bad_harness_path_agree path :
  _bad_harness_path path = false <-> check_harness_input path = Ok path.
Proof.
  rewrite check_harness_input_ok. unfold _bad_harness_path. split.
  - rewrite !orb_false_iff. intros [[[[[[[Hn _] Hb] Hc] Hs] Hp] Hd] Ha]. split; [|done].
    unfold is_portable_repo_path. rewrite Hn, Hb, Hs, ntpath_isabs_plain by done. simpl.
    apply forallb_forall. intros part Hin. rewrite existsb_false in Hd, Ha.
    unfold dot_segment. rewrite (Hd _ Hin), <- windows_ambiguous_agree, (Ha _ Hin). done.
  - intros [Hp Hpat]. pose proof (portable_parts path Hp) as (Hne & Hb & Hs & Hparts).
    rewrite List.Forall_forall in Hparts. rewrite !orb_false_iff. repeat split; try done.
    + by destruct path.
    + apply existsb_false. intros c Hin. by destruct (portable_chars path c Hp Hin) as [? _].
    + apply not_true_iff_false. by rewrite char_in_In.
    + apply not_true_iff_false. rewrite char_in_In. intros Hin.
      by destruct (portable_chars path _ Hp Hin) as [_ ?].
    + apply existsb_false. intros part Hin. by apply Hparts.
    + apply existsb_false. intros part Hin. rewrite windows_ambiguous_agree. by apply Hparts.
Qed.

Lemma canonical_list_agree l :
  _is_canonical_harness_input_list (VList (map VStr l)) = true <->
  l <> [] /\ normalize_harness_inputs l = Ok l.
Proof.
  assert (Hs : v_is_string_list (VList (map VStr l)) = true).
  { simpl. apply forallb_forall. intros x (s & <- & _)%in_map_iff. done. }
  assert (Hv : v_strings (VList (map VStr l)) = l).
  { simpl. clear. by induction l as [|x l IH]; simpl; [|rewrite IH]. }
  unfold _is_canonical_harness_input_list. rewrite Hs, Hv, normalize_ok.
  destruct l as [|x l]; [naive_solver|]. simpl truthy. cbn [negb orb].
  rewrite <- !(nodupb_NoDup str_eqb) by apply str_eqb_eq.
  set (L := x :: l). case_decide as Hd; cbn [negb orb].
  - rewrite !if_negb. destruct (nodupb str_eqb L); cbn [negb]; [|naive_solver].
    destruct (nodupb str_eqb (map casefold L)); cbn [negb]; [|naive_solver].
    rewrite negb_true_iff, existsb_false. split.
    + intros Hb. split; [done|]. repeat split; try done.
      apply List.Forall_forall. intros p Hp. by apply bad_harness_path_agree, Hb.
    + intros (_ & Hf & _) p Hp. rewrite List.Forall_forall in Hf.
      by apply bad_harness_path_agree, Hf.
  - naive_solver.
Qed.

(** ** Paths that can reach a declared input *)

Lemma zip_all_spec f l m :
  (length l <= length m)%nat ->
  zip_all f l m = true <-> exists m1 m2, m = m1 ++ m2 /\ Forall2 (fun x y => f x y = true) l m1.
Proof.
  revert m; induction l as [|x l IH]; intros m Hl.
  - simpl. split; [|done]. intros _. exists [], m. by split; [|constructor].
  - destruct m as [|y m]; simpl in *; [lia|]. rewrite andb_true_iff, IH by lia. split.
    + intros (Hf & m1 & m2 & -> & Hm). exists (y :: m1), m2. by split; [|constructor].
    + intros (m1 & m2 & Hm & Hf). destruct m1 as [|z k]; [by inversion Hf|].
      apply Forall2_cons in Hf as [Hf Hk]. injection Hm as <- ->.
      split; [done|]. by exists k, m2.
Qed.

Lemma touched_spec path l :
  _touched_path_can_target_harness path l = true <->
  exists root m1 m2, In root l /\ path_parts root = m1 ++ m2 /\
    Forall2 (fun x y => _harness_segment_can_alias x y = true) (path_parts path) m1.
Proof.
  unfold _touched_path_can_target_harness. rewrite existsb_exists. split.
  - intros (ps & (root & <- & Hin)%in_map_iff & [Hl Hz]%andb_true_iff).
    apply Nat.leb_le in Hl. apply zip_all_spec in Hz as (m1 & m2 & Hm & Hf); [|done].
    by exists root, m1, m2.
  - intros (root & m1 & m2 & Hin & Hr & Hf). exists (path_parts root).
    split; [apply in_map_iff; by exists root|]. fold (path_parts path).
    assert (Hl : (length (path_parts path) <= length (path_parts root))%nat).
    { rewrite Hr, length_app, (Forall2_length _ _ _ Hf). lia. }
    apply andb_true_iff. split; [by apply Nat.leb_le|].
    apply zip_all_spec; [done|]. by exists m1, m2.
Qed.

Lemma can_alias_fold c d : casefold c = casefold d -> _harness_segment_can_alias c d = true.
Proof. intros E. unfold _harness_segment_can_alias. by rewrite E, str_eqb_refl. Qed.

Lemma rstrip_id seg :
  ends_with (u " ") seg = false -> ends_with (u ".") seg = false -> rstrip_space_dot seg = seg.
Proof.
  change (u " ") with [32%N]. change (u ".") with [46%N].
  unfold ends_with, rstrip_space_dot, rstrip_by. intros H1 H2.
  destruct (rev seg) as [|c r] eqn:E; simpl.
  - by rewrite <- (rev_involutive seg), E.
  - cbn -[N.eqb] in *. rewrite andb_true_r in *.
    rewrite (N.eqb_sym c 32), (N.eqb_sym c 46), H1, H2. cbn [orb].
    by rewrite <- (rev_involutive seg), E.
Qed.

Lemma before_char_id c s : char_in c s = false -> before_char c s = s.
Proof.
  unfold char_in. induction s as [|x s IH]; cbn; [done|].
  rewrite orb_false_iff, N.eqb_sym. intros [-> Hs]. by rewrite IH.
Qed.

(** On a segment with a portable spelling the alias test is case-insensitive
    equality. *)
Lemma can_alias_portable c d :
  is_windows_ambiguous_path_segment c = false ->
  _harness_segment_can_alias c d = true <-> casefold c = casefold d.
Proof.
  intros Ha. split; [|apply can_alias_fold].
  assert (Hc : char_in ch_colon c = false).
  { apply not_true_iff_false. rewrite char_in_In. intros Hin.
    by destruct (ambiguous_chars c _ Ha Hin). }
  unfold is_windows_ambiguous_path_segment in Ha. destruct (_ || _) eqn:E; [done|].
  rewrite !orb_false_iff in E. destruct E as [[[[_ E1] E2] _] E3].
  unfold _harness_segment_can_alias.
  rewrite rstrip_id, before_char_id, E3 by done.
  destruct (str_eqb (casefold c) (casefold d)) eqn:Eq; [|done]. intros _. by apply str_eqb_eq.
Qed.

(** ** Agreement of the producer and the verifier *)

Lemma conflicts_ok path roots r b :
  normalize_harness_inputs roots = Ok r ->
  harness_input_path_conflicts path roots = Ok b <-> existsb (conflicts_with_root path) r = b.
Proof. intros E. unfold harness_input_path_conflicts. rewrite E. simpl. naive_solver. Qed.

Lemma conflict_touched path r :
  existsb (conflicts_with_root path) r = true -> _touched_path_can_target_harness path r = true.
Proof.
  intros (root & Hin & (rest & Hr)%conflicts_with_root_spec)%existsb_exists.
  apply touched_spec. symmetry in Hr.
  exists root, (take (length (path_parts path)) (path_parts root)),
    (drop (length (path_parts path)) (path_parts root)).
  split; [done|]. split; [by rewrite take_drop|].
  apply (f_equal (take (length (path_parts path)))) in Hr.
  rewrite take_app_length' in Hr by by rewrite length_map.
  change (@map str str casefold) with (fmap (M := list) casefold) in Hr.
  rewrite <- fmap_take in Hr. rewrite list_eq_Forall2, Forall2_fmap in Hr.
  eapply Forall2_impl; [exact Hr|]. simpl. apply can_alias_fold.
Qed.

Lemma touched_conflict path r :
  is_portable_repo_path path = true ->
  _touched_path_can_target_harness path r = true -> existsb (conflicts_with_root path) r = true.
Proof.
  intros (_ & _ & _ & Hp)%portable_parts (root & m1 & m2 & Hin & Hr & Hf)%touched_spec.
  apply existsb_exists. exists root. split; [done|]. apply conflicts_with_root_spec.
  exists (map casefold m2). rewrite Hr, map_app. f_equal. clear Hr.
  induction Hf as [|x y xs ys Hxy Hf IH]; [done|].
  apply Forall_cons in Hp as [[_ Hx] Hp]. simpl. rewrite IH by done. f_equal.
  symmetry. by apply can_alias_portable.
Qed.

(** the record verifier accepts a [harness_inputs] value exactly when it is
    a non-empty array that the producer's normalization returns unchanged, so
    the two independent implementations agree on what a canonical declaration
    is. *)
Theorem canonical_harness_inputs_agree (v : value) :
  _is_canonical_harness_input_list v = true <->
  exists l, v = VList (map VStr l) /\ l <> [] /\ normalize_harness_inputs l = Ok l.
Proof.
  split.
  - intros Hv. exists (v_strings v).
    assert (Hs : v = VList (map VStr (v_strings v))).
    { apply v_is_string_list_spec. unfold _is_canonical_harness_input_list in Hv.
      by destruct (v_is_string_list v). }
    split; [done|]. apply canonical_list_agree. by rewrite <- Hs.
  - intros (l & -> & Hl). by apply canonical_list_agree.
Qed.

(** for a normalized declaration the verifier flags every changed path the
    producer's conflict predicate blocks (the file itself or an ancestor, case
    insensitively), and on a portable path it flags nothing more. *)
Theorem touched_harness_agree path roots r :
  normalize_harness_inputs roots = Ok r ->
  (harness_input_path_conflicts path roots = Ok true ->
   _touched_path_can_target_harness path r = true) /\
  (is_portable_repo_path path = true ->
   harness_input_path_conflicts path roots = Ok (_touched_path_can_target_harness path r)).
Proof.
  intros Hn. split.
  - intros Hc. apply conflict_touched. by apply (conflicts_ok path roots).
  - intros Hp. apply (conflicts_ok path roots r); [done|]. apply eq_true_iff_eq.
    split; [apply conflict_touched|by apply touched_conflict].
Qed.
End RecordPaths.

Lemma touched_harness_agree_witness :
  let U := ascii_unicode in
  harness_input_path_conflicts (u "Tests") (us ["tests/conftest.py"]) = Ok true /\
  _touched_path_can_target_harness (u "Tests") (us ["tests/conftest.py"]) = true.
Proof.
  intros U. split; [vm_compute; reflexivity|].
  apply (proj1 (@touched_harness_agree U (u "Tests") (us ["tests/conftest.py"])
                  (us ["tests/conftest.py"]) ltac:(vm_compute; reflexivity))).
  vm_compute; reflexivity.
Defined.
