(* ===== verification/Policy.v ===== *)
(** Effective policy: the values that shape one judgment (domain/policy.py,
    domain/isolation.py), their canonical construction and wire payload
    (policy/effective.py) and the validation and capture of one Guard request
    (application/request_preparation.py). *)
From S2P Require Export Harness PyVal Bytes Json.

Definition OPERATING_PROFILES : list str := us ["local"; "protected"; "hostile"].
Definition SUPPORTED_ISOLATION_MODES : list str := us ["subprocess"; "docker"; "gvisor"].

(** A pin is exactly 64 hexadecimal digits of either case. *)
Definition is_verifier_pack_sha256 (v : option str) : bool :=
  match v with Some s => hex64_any s | None => false end.

Definition unsupported_policy_requirements (require_demonstrated_fix : bool)
    (min_diff_coverage : option float) (blackbox : bool) (isolation : str)
    (setup_command_present : bool) : list str :=
  (if require_demonstrated_fix && (blackbox || negb (isolation =s? u "subprocess"))
   then [u "require_demonstrated_fix"] else [])
  ++ (if match min_diff_coverage with Some _ => true | None => false end
         && (blackbox || negb (isolation =s? u "subprocess"))
      then [u "min_diff_coverage"] else [])
  ++ (if blackbox && setup_command_present then [u "setup_command"] else []).

Record EffectivePolicy := {
  mode : str;
  isolation : str;
  docker_image : option str;
  docker_network : str;
  test_command : option (list str);
  setup_command : option (list str);
  trust_setup_on_host : bool;
  setup_output_globs : list str;
  protected : list str;
  allow : list str;
  allow_new_tests : bool;
  timeout : Z;
  mem_limit_mb : Z;
  verifier_pack_required : bool;
  expect_verifier_pack_sha256 : option str;
  blackbox : bool;
  blackbox_only : bool;
  require_report_integrity : option str;
  require_candidate_isolation : option str;
  min_diff_coverage : option float;
  baseline_evidence : bool;
  require_demonstrated_fix : bool;
  strict_harness : bool;
  policy_id : option str;
  policy_version : option str;
  operating_profile : option str;
  harness_inputs : list str
}.

Definition opt_eqb (a : option str) (b : str) : bool :=
  match a with Some s => s =s? b | None => false end.

Definition note (b : bool) (msg : string) : list str := if b then [u msg] else [].

(** The contradictions of a selected operating profile, in the order the code
    appends them. *)
Definition operating_profile_violations (operating_profile : option str)
    (isolation : str) (docker_image_present : bool) (docker_network : str)
    (setup_command_present trust_setup_on_host : bool) (mem_limit_mb : Z)
    (verifier_pack_required : bool) (expect_verifier_pack_sha256 : option str)
    (blackbox blackbox_only : bool)
    (require_report_integrity require_candidate_isolation : option str) : list str :=
  match operating_profile with
  | None => []
  | Some profile =>
      if negb (str_in profile OPERATING_PROFILES) then
        [u "operating_profile must be one of 'local', 'protected', 'hostile'"]
      else if profile =s? u "local" then []
      else
        note (negb blackbox) "requires blackbox=true"
        ++ note (negb blackbox_only) "requires blackbox_only=true"
        ++ note setup_command_present "forbids setup_command in black-box-only mode"
        ++ note trust_setup_on_host "requires trust_setup_on_host=false"
        ++ note (negb verifier_pack_required) "requires a verifier_pack"
        ++ note (negb (is_verifier_pack_sha256 expect_verifier_pack_sha256))
             "requires expect_verifier_pack_sha256"
        ++ note (negb (opt_eqb require_report_integrity (u "external_process_isolated")))
             "requires require_report_integrity='external_process_isolated'"
        ++ note (negb (docker_network =s? u "none")) "requires docker_network='none'"
        ++ note (negb docker_image_present) "requires docker_image"
        ++ (if profile =s? u "protected" then
              note (negb (str_in isolation (us ["docker"; "gvisor"])))
                "requires isolation='docker' or 'gvisor'"
              ++ note (negb (opt_eqb require_candidate_isolation isolation))
                   "requires require_candidate_isolation to match isolation"
            else
              note (negb (isolation =s? u "gvisor")) "requires isolation='gvisor'"
              ++ note (negb (opt_eqb require_candidate_isolation (u "gvisor")))
                   "requires require_candidate_isolation='gvisor'"
              ++ note (mem_limit_mb <=? 0) "requires a non-zero mem_limit")
  end.

(** [bool(x)] of an optional string or list. *)
Definition present {A} (x : option (list A)) : bool :=
  match x with Some (_ :: _) => true | _ => false end.

(** [tuple(x) if x else None] *)
Definition nonempty {A} (x : option (list A)) : option (list A) :=
  match x with Some (y :: l) => Some (y :: l) | _ => None end.

Section Policy.
Context `{UnicodeDB}.

Definition build_effective_policy
    (mode isolation : str) (docker_image : option str) (docker_network : str)
    (test_command setup_command : option (list str)) (trust_setup_on_host : bool)
    (setup_output_globs protected allow : list str) (allow_new_tests : bool)
    (timeout mem_limit_mb : Z) (verifier_pack expect_verifier_pack_sha256 : option str)
    (blackbox blackbox_only : bool)
    (require_report_integrity require_candidate_isolation : option str)
    (min_diff_coverage : option float)
    (baseline_evidence require_demonstrated_fix strict_harness : bool)
    (policy_id policy_version operating_profile : option str)
    (harness_inputs : list str) : result HarnessInputPolicyError EffectivePolicy :=
  let* inputs := normalize_harness_inputs harness_inputs in
  Ok {|
    mode := mode;
    isolation := isolation;
    docker_image := docker_image;
    docker_network := docker_network;
    test_command := nonempty test_command;
    setup_command := nonempty setup_command;
    trust_setup_on_host := trust_setup_on_host;
    setup_output_globs := sort_str setup_output_globs;
    protected := sort_str protected;
    allow := sort_str allow;
    allow_new_tests := allow_new_tests;
    timeout := timeout;
    mem_limit_mb := mem_limit_mb;
    verifier_pack_required := present verifier_pack;
    expect_verifier_pack_sha256 := py_lower <$> nonempty expect_verifier_pack_sha256;
    blackbox := blackbox;
    blackbox_only := blackbox_only;
    require_report_integrity := require_report_integrity;
    require_candidate_isolation := require_candidate_isolation;
    min_diff_coverage := min_diff_coverage;
    baseline_evidence := baseline_evidence;
    require_demonstrated_fix := require_demonstrated_fix;
    strict_harness := strict_harness;
    policy_id := policy_id;
    policy_version := policy_version;
    operating_profile := operating_profile;
    harness_inputs := inputs
  |}.
End Policy.

(** ** The wire payload *)

Definition DEFAULT_TEST_COMMAND_MARKER : str := "default:python -m pytest".

Definition v_opt_str (x : option str) : value :=
  match x with Some s => VStr s | None => VNone end.
Definition v_str_list (l : list str) : value := VList (map VStr l).

Definition effective_policy_payload (policy : EffectivePolicy) : dict :=
  let payload := dict_of [
    ("mode", VStr (mode policy));
    ("isolation", VStr (isolation policy));
    ("docker_image", v_opt_str (docker_image policy));
    ("docker_network", VStr (docker_network policy));
    ("test_command", match test_command policy with
                     | Some (c :: l) => v_str_list (c :: l)
                     | _ => VStr DEFAULT_TEST_COMMAND_MARKER
                     end);
    ("setup_command", match setup_command policy with
                      | Some (c :: l) => v_str_list (c :: l)
                      | _ => VNone
                      end);
    ("trust_setup_on_host", VBool (trust_setup_on_host policy));
    ("setup_output_globs", v_str_list (setup_output_globs policy));
    ("protected", v_str_list (protected policy));
    ("allow", v_str_list (allow policy));
    ("allow_new_tests", VBool (allow_new_tests policy));
    ("timeout", VInt (timeout policy));
    ("mem_limit_mb", VInt (mem_limit_mb policy));
    ("verifier_pack_required", VBool (verifier_pack_required policy));
    ("expect_verifier_pack_sha256", v_opt_str (expect_verifier_pack_sha256 policy));
    ("blackbox", VBool (blackbox policy));
    ("blackbox_only", VBool (blackbox_only policy));
    ("require_report_integrity", v_opt_str (require_report_integrity policy));
    ("require_candidate_isolation", v_opt_str (require_candidate_isolation policy));
    ("min_diff_coverage", match min_diff_coverage policy with
                          | Some f => VFloat f
                          | None => VNone
                          end);
    ("baseline_evidence", VBool (baseline_evidence policy));
    ("require_demonstrated_fix", VBool (require_demonstrated_fix policy));
    ("strict_harness", VBool (strict_harness policy));
    ("policy_id", v_opt_str (policy_id policy));
    ("policy_version", v_opt_str (policy_version policy))] in
  let payload := match operating_profile policy with
                 | Some p => dset (u "operating_profile") (VStr p) payload
                 | None => payload
                 end in
  match harness_inputs policy with
  | [] => payload
  | l => dset (u "harness_inputs") (v_str_list l) payload
  end.

(** [None] when a value has no JSON encoding ([json.dumps] raises). *)
Definition effective_policy_sha256 (policy : dict) : option str :=
  (fun s => sha256_hex (ascii_bytes s)) <$> json_dumps true (VDict policy).
