(* ===== verification/Request.v ===== *)
(** Validation, capture and canonicalization of one Guard invocation
    (application/request_preparation.py, domain/request.py).

    Fields whose runtime type the code checks are dynamic values; the others
    have their declared type.  The injected factories are the domain
    constructors that [guard.py] injects. *)
From S2P Require Export Policy.

Record GuardRequestPreparationInput := {
  raw_repository_path : str;
  raw_candidate_text : str;
  raw_deleted_paths : list str;
  raw_test_command : option (list str);
  raw_setup_command : option (list str);
  raw_trust_setup_on_host : bool;
  raw_setup_output_globs : list str;
  raw_protected : list str;
  raw_allow : list str;
  raw_allow_new_tests : bool;
  raw_timeout : value;
  raw_mem_limit_mb : value;
  raw_isolation : value;
  raw_docker_image : option str;
  raw_docker_network : str;
  raw_verifier_pack_path : option str;
  raw_expect_verifier_pack_sha256 : option str;
  raw_collect_diff_coverage : bool;
  raw_min_diff_coverage : value;
  raw_blackbox : bool;
  raw_blackbox_only : bool;
  raw_require_report_integrity : option str;
  raw_require_candidate_isolation : option str;
  raw_base_sha : option str;
  raw_head_sha : option str;
  raw_base_tree_sha : option str;
  raw_head_tree_sha : option str;
  raw_policy_id : option str;
  raw_policy_version : option str;
  raw_baseline_evidence : bool;
  raw_require_demonstrated_fix : bool;
  raw_strict_harness : value;
  raw_file_blocks : option (list (str * str));
  raw_operating_profile : option str;
  raw_harness_inputs : list str
}.

Record CandidateInput := {
  ci_text : str;
  ci_deleted_paths : list str;
  ci_file_blocks : option (list (str * str))
}.

Record SourceIdentity := {
  si_base_sha : option str;
  si_head_sha : option str;
  si_base_tree_sha : option str;
  si_head_tree_sha : option str
}.

Record GuardRequest := {
  gr_repository : str;
  gr_candidate : CandidateInput;
  gr_source : SourceIdentity;
  gr_policy : EffectivePolicy;
  gr_verifier_pack_path : option str;
  gr_collect_diff_coverage : bool
}.

Record PreparedGuardRequest := {
  pg_request : GuardRequest;
  pg_effective_policy : dict
}.

(** The exceptions of the validation, in the order they are tested. *)
Inductive preparation_error :=
| PR_timeout
| PR_mem_limit
| PR_strict_harness
| PR_harness_inputs (e : HarnessInputPolicyError)
| PR_setup_globs_hide (conflicts : list str)
| PR_isolation
| PR_min_diff_coverage
| PR_blackbox_only
| PR_pack_digest_shape
| PR_pack_digest_without_pack
| PR_profile (violations : list str).

Definition lift_harness {A} (r : result HarnessInputPolicyError A) : result preparation_error A :=
  match r with Ok a => Ok a | Err e => Err (PR_harness_inputs e) end.

Definition is_some {A} (x : option A) : bool := match x with Some _ => true | None => false end.

(** [type(v) is int and v >= lo] *)
Definition int_at_least (lo : Z) (v : value) : bool :=
  match v with VInt z => lo <=? z | _ => false end.

(** The accepted coverage floors, and the number they become under [float]. *)
Definition coverage_floor_ok (v : value) : bool :=
  match v with
  | VNone => true
  | VInt z => (0 <=? z) && (z <=? 100)
  | VFloat f => num_leb (NInt 0) (NFloat f) && num_leb (NFloat f) (NInt 100) && is_finite f
  | _ => false
  end.

Definition coverage_floor (v : value) : option float :=
  match v with VInt z => Some (float_of_Z z) | VFloat f => Some f | _ => None end.

Section Request.
Context `{UnicodeDB}.

Definition validate_isolation_mode (v : value) : result preparation_error str :=
  match v with
  | VStr s => guard* str_in s SUPPORTED_ISOLATION_MODES else PR_isolation in Ok s
  | _ => Err PR_isolation
  end.

Definition prepare_guard_request (raw : GuardRequestPreparationInput)
  : result preparation_error PreparedGuardRequest :=
  guard* int_at_least 1 (raw_timeout raw) else PR_timeout in
  guard* int_at_least 0 (raw_mem_limit_mb raw) else PR_mem_limit in
  guard* is_bool (raw_strict_harness raw) else PR_strict_harness in
  let* declared_harness_inputs := lift_harness (normalize_harness_inputs (raw_harness_inputs raw)) in
  let* fidelity_conflicts := lift_harness
    (setup_output_harness_conflicts declared_harness_inputs (raw_setup_output_globs raw)) in
  guard* match fidelity_conflicts with [] => true | _ => false end
    else PR_setup_globs_hide fidelity_conflicts in
  let* isolation := validate_isolation_mode (raw_isolation raw) in
  guard* coverage_floor_ok (raw_min_diff_coverage raw) else PR_min_diff_coverage in
  let collect_diff_coverage :=
    raw_collect_diff_coverage raw || negb (is_none (raw_min_diff_coverage raw)) in
  guard* negb (raw_blackbox_only raw && negb (raw_blackbox raw)) else PR_blackbox_only in
  guard* negb (is_some (raw_expect_verifier_pack_sha256 raw)
               && negb (is_verifier_pack_sha256 (raw_expect_verifier_pack_sha256 raw)))
    else PR_pack_digest_shape in
  guard* negb (is_some (raw_expect_verifier_pack_sha256 raw)
               && negb (present (raw_verifier_pack_path raw)))
    else PR_pack_digest_without_pack in
  let mem_limit := match raw_mem_limit_mb raw with VInt z => z | _ => 0 end in
  let timeout := match raw_timeout raw with VInt z => z | _ => 0 end in
  let profile_violations := operating_profile_violations (raw_operating_profile raw)
    isolation (present (raw_docker_image raw)) (raw_docker_network raw)
    (present (raw_setup_command raw)) (raw_trust_setup_on_host raw) mem_limit
    (present (raw_verifier_pack_path raw)) (raw_expect_verifier_pack_sha256 raw)
    (raw_blackbox raw) (raw_blackbox_only raw) (raw_require_report_integrity raw)
    (raw_require_candidate_isolation raw) in
  guard* match profile_violations with [] => true | _ => false end
    else PR_profile profile_violations in
  let* policy := lift_harness (build_effective_policy
    (if raw_blackbox raw then u "blackbox" else u "repo") isolation (raw_docker_image raw)
    (raw_docker_network raw) (raw_test_command raw) (raw_setup_command raw)
    (raw_trust_setup_on_host raw) (raw_setup_output_globs raw) (raw_protected raw)
    (raw_allow raw) (raw_allow_new_tests raw) timeout mem_limit (raw_verifier_pack_path raw)
    (raw_expect_verifier_pack_sha256 raw) (raw_blackbox raw) (raw_blackbox_only raw)
    (raw_require_report_integrity raw) (raw_require_candidate_isolation raw)
    (coverage_floor (raw_min_diff_coverage raw)) (raw_baseline_evidence raw)
    (raw_require_demonstrated_fix raw) (is_true_v (raw_strict_harness raw))
    (raw_policy_id raw) (raw_policy_version raw) (raw_operating_profile raw)
    declared_harness_inputs) in
  let request := {|
    gr_repository := raw_repository_path raw;
    gr_candidate := {| ci_text := raw_candidate_text raw;
                       ci_deleted_paths := raw_deleted_paths raw;
                       ci_file_blocks := raw_file_blocks raw |};
    gr_source := {| si_base_sha := raw_base_sha raw; si_head_sha := raw_head_sha raw;
                    si_base_tree_sha := raw_base_tree_sha raw;
                    si_head_tree_sha := raw_head_tree_sha raw |};
    gr_policy := policy;
    gr_verifier_pack_path := raw_verifier_pack_path raw;
    gr_collect_diff_coverage := collect_diff_coverage |} in
  Ok {| pg_request := request; pg_effective_policy := effective_policy_payload policy |}.
End Request.
