(* ===== verification/Config.v ===== *)
(** The fail-closed loader of the trusted repository policy file
    (policy/config.py): strict JSON, no unknown key, one typed check per key, the
    cross-field rules, and the operating profile as a whole. *)
From S2P Require Export StrictJson StrictJsonSound Policy Request.
Open Scope Z_scope.

(** ** The accepted keys *)

Definition _CONFIG_KEYS : list str := us [
  "test_command"; "setup_command"; "protected"; "allow"; "timeout"; "mem_limit"; "allow_new_tests";
  "trust_setup_on_host"; "setup_output_globs"; "strict_harness"; "harness_inputs"; "operating_profile";
  "isolation"; "docker_image"; "docker_network"; "blackbox"; "blackbox_only"; "diff_coverage";
  "baseline_evidence"; "require_demonstrated_fix"; "verifier_pack"; "expect_verifier_pack_sha256";
  "require_report_integrity"; "require_candidate_isolation"; "min_diff_coverage"; "policy_id";
  "policy_version"].

Definition _REPORT_INTEGRITY_VALUES : list str :=
  us ["same_process_candidate_writable"; "external_process_isolated"].
Definition _ISOLATION_VALUES : list str := us ["subprocess"; "docker"; "gvisor"].

(** The refusals; an invalid value names its key. *)
Inductive ConfigError :=
| MissingPolicyFile
| UnreadablePolicy
| NotAnObject
| UnknownKeys (keys : list str)
| Invalid (key : str)
| HarnessPolicyError (e : HarnessInputPolicyError).

(** The policy path: nothing there, a file that cannot be read as UTF-8 text, or
    its text. *)
Inductive policy_file := Absent | Unreadable | Contents (text : str).

(** ** One check per key *)

(** A value the key accepts, as it is stored; [None] is a refusal. *)
Abbreviation checker := (value -> option value).

Definition accept_if (check : value -> bool) : checker := fun v => if check v then Some v else None.

Definition nonblank_str (v : value) : bool :=
  match v with VStr s => negb (is_empty (strip s)) | _ => false end.

Definition docker_word (v : value) : bool :=
  match v with VStr s => negb (is_empty (strip s)) && negb (char_in 0 s) | _ => false end.

Definition check_command : checker := accept_if (fun v => is_str v || v_is_string_list v).
Definition check_tokens : checker := accept_if v_is_string_list.
Definition check_timeout : checker := accept_if (int_at_least 1).
Definition check_mem_limit : checker := accept_if (int_at_least 0).
Definition check_flag : checker := accept_if is_bool.
Definition check_word (allowed : list str) : checker := accept_if (fun v => known_string v allowed).

Definition check_coverage : checker := fun v =>
  if is_none v || negb (coverage_floor_ok v) then None else VFloat <$> coverage_floor v.

Section Config.
Context `{UnicodeDB}.

Definition check_pin : checker := fun v =>
  match v with
  | VStr s => if is_verifier_pack_sha256 (Some s) then Some (VStr (py_lower s)) else None
  | _ => None
  end.

Definition check_harness_inputs : checker := fun v =>
  if v_is_string_list v then
    match normalize_harness_inputs (v_strings v) with
    | Ok l => Some (v_str_list l)
    | Err _ => None
    end
  else None.

(** [if key in data: ...; cfg[key] = ...] *)
Definition field (data : dict) (key : str) (check : checker) (cfg : dict) : result ConfigError dict :=
  match dlookup key data with
  | None => Ok cfg
  | Some v =>
      match check v with
      | Some w => Ok (dset key w cfg)
      | None => Err (Invalid key)
      end
  end.

(** A run of such checks. *)
Fixpoint fields (data : dict) (checks : list (str * checker)) (cfg : dict) : result ConfigError dict :=
  match checks with
  | [] => Ok cfg
  | (key, check) :: checks' => let* cfg := field data key check cfg in fields data checks' cfg
  end.

Definition path_checks : list (str * checker) := [
  (u "protected", check_tokens);
  (u "allow", check_tokens);
  (u "setup_output_globs", check_tokens);
  (u "harness_inputs", check_harness_inputs)].

Definition _validated_path_policy (data : dict) : result ConfigError dict :=
  let* cfg := fields data path_checks [] in
  let harness_values := dget cfg (u "harness_inputs") in
  let setup_glob_values := dget cfg (u "setup_output_globs") in
  if is_list harness_values && is_list setup_glob_values then
    match setup_output_harness_conflicts (v_strings harness_values) (v_strings setup_glob_values) with
    | Ok conflicts =>
        guard* is_empty conflicts else Invalid (u "setup_output_globs") in Ok cfg
    | Err e => Err (HarnessPolicyError e)
    end
  else Ok cfg.

(** [cfg.update(d)]: the keys of [d] are strings. *)
Definition update (cfg d : dict) : dict :=
  fold_left (fun acc kv => match fst kv with VStr k => dset k (snd kv) acc | _ => acc end) d cfg.

Definition command_checks : list (str * checker) := [
  (u "test_command", check_command);
  (u "setup_command", check_tokens)].

Definition limit_checks : list (str * checker) := [
  (u "timeout", check_timeout);
  (u "mem_limit", check_mem_limit)].

Definition flag_checks : list (str * checker) :=
  map (fun key => (key, check_flag))
    (us ["allow_new_tests"; "trust_setup_on_host"; "strict_harness"; "blackbox"; "blackbox_only";
         "diff_coverage"; "baseline_evidence"; "require_demonstrated_fix"]).

Definition word_checks : list (str * checker) := [
  (u "isolation", check_word _ISOLATION_VALUES);
  (u "operating_profile", check_word OPERATING_PROFILES);
  (u "docker_image", accept_if docker_word);
  (u "docker_network", accept_if docker_word);
  (u "verifier_pack", accept_if nonblank_str);
  (u "expect_verifier_pack_sha256", check_pin);
  (u "require_report_integrity", check_word _REPORT_INTEGRITY_VALUES);
  (u "require_candidate_isolation", check_word _ISOLATION_VALUES);
  (u "min_diff_coverage", check_coverage);
  (u "policy_id", accept_if nonblank_str);
  (u "policy_version", accept_if nonblank_str)].

(** [value if isinstance(value, str) else None] *)
Definition as_str (v : value) : option str := match v with VStr s => Some s | _ => None end.

(** The profile violations of a checked configuration. *)
Definition profile_violations (cfg : dict) : list str :=
  let get k := dget cfg (u k) in
  match get "operating_profile" with
  | VStr operating_profile =>
      operating_profile_violations (Some operating_profile)
        (default (u "subprocess") (as_str (get "isolation")))
        (is_str (get "docker_image"))
        (default (u "none") (as_str (get "docker_network")))
        (negb (is_none (get "setup_command")))
        (is_true_v (get "trust_setup_on_host"))
        (match get "mem_limit" with VInt z => z | _ => 1024 end)
        (is_str (get "verifier_pack"))
        (as_str (get "expect_verifier_pack_sha256"))
        (is_true_v (get "blackbox"))
        (is_true_v (get "blackbox_only"))
        (as_str (get "require_report_integrity"))
        (as_str (get "require_candidate_isolation"))
  | _ => []
  end.

(** The body of the loader once the document is an object. *)
Definition validate_document (data : dict) : result ConfigError dict :=
  let unknown := sorted_set (List.filter (fun k => negb (str_in k _CONFIG_KEYS)) (dict_str_keys data)) in
  guard* is_empty unknown else UnknownKeys unknown in
  let* cfg := fields data command_checks [] in
  let* paths := _validated_path_policy data in
  let cfg := update cfg paths in
  let* cfg := fields data (limit_checks ++ flag_checks) cfg in
  guard* negb (is_true_v (dget data (u "blackbox_only")) && negb (is_true_v (dget data (u "blackbox"))))
    else Invalid (u "blackbox_only") in
  let* cfg := fields data word_checks cfg in
  guard* is_empty (profile_violations cfg) else Invalid (u "operating_profile") in
  Ok cfg.

Definition load_config (file : policy_file) (required : bool) : result ConfigError dict :=
  match file with
  | Absent => if required then Err MissingPolicyFile else Ok []
  | Unreadable => Err UnreadablePolicy
  | Contents text =>
      match strict_json_loads text with
      | Err _ => Err UnreadablePolicy
      | Ok (VDict data) => validate_document data
      | Ok _ => Err NotAnObject
      end
  end.
End Config.

(** ** The runs of checks *)

Section ConfigSound.
Context `{UnicodeDB}.

(** The checks of all keys. *)
Definition all_checks : list (str * checker) :=
  word_checks ++ (limit_checks ++ flag_checks) ++ path_checks ++ command_checks.

Fixpoint check_of (checks : list (str * checker)) (k : str) : option checker :=
  match checks with
  | [] => None
  | (k', c) :: checks' => if k' =s? k then Some c else check_of checks' k
  end.

(** What the checks make of a key of the document. *)
Definition checked (checks : list (str * checker)) (data : dict) (k : str) : option value :=
  match check_of checks k, dlookup k data with
  | Some check, Some v => check v
  | _, _ => None
  end.

Lemma check_of_app l l' k :
  check_of (l ++ l') k = match check_of l k with Some c => Some c | None => check_of l' k end.
Proof. induction l as [|[k' c] l IH]; [done|]. simpl. by destruct (k' =s? k). Qed.

Lemma check_of_none l k : ~ In k (map fst l) -> check_of l k = None.
Proof.
  induction l as [|[k' c] l IH]; [done|]. simpl. intros Hn.
  destruct (k' =s? k) eqn:E; [apply str_eqb_eq in E; naive_solver|]. apply IH. naive_solver.
Qed.

Lemma check_of_In l k c : check_of l k = Some c -> In (k, c) l.
Proof.
  induction l as [|[k' c'] l IH]; [done|]. simpl. destruct (k' =s? k) eqn:E.
  - apply str_eqb_eq in E as ->. intros [= ->]. by left.
  - auto.
Qed.

Lemma dlookup_dset k k' v d : dlookup k (dset k' v d) = if k' =s? k then Some v else dlookup k d.
Proof.
  destruct (k' =s? k) eqn:E.
  - apply str_eqb_eq in E as ->. apply dlookup_dset_eq.
  - apply str_eqb_neq in E. by apply dlookup_dset_ne.
Qed.

(** A run of checks over distinct keys: every key of the document it covers has
    passed its check and is stored; the other keys are as before. *)
Lemma fields_ok data checks cfg cfg' :
  NoDup (map fst checks) -> fields data checks cfg = Ok cfg' ->
  forall k,
    (dlookup k data <> None -> check_of checks k <> None -> checked checks data k <> None) /\
    dlookup k cfg' = match checked checks data k with Some w => Some w | None => dlookup k cfg end.
Proof.
  unfold checked. revert cfg. induction checks as [|[key check] checks IH]; intros cfg Hnd.
  { simpl. intros [= ->] k. done. }
  cbn [map fst fields] in *. apply NoDup_cons in Hnd as [Hin Hnd]. rewrite list_elem_of_In in Hin.
  rewrite rbind_ok. intros (cfg1 & Hf & Hfs) k. destruct (IH cfg1 Hnd Hfs k) as [IH1 IH2].
  cbn [check_of]. unfold field in Hf. destruct (key =s? k) eqn:E; [apply str_eqb_eq in E as ->|].
  - rewrite (check_of_none _ _ Hin) in IH2. rewrite IH2. destruct (dlookup k data) as [v|] eqn:Ev.
    + destruct (check v) as [w|]; [|done]. injection Hf as <-. by rewrite dlookup_dset_eq.
    + by injection Hf as <-.
  - split; [done|]. rewrite IH2.
    assert (Hk : dlookup k cfg1 = dlookup k cfg); [|by rewrite Hk].
    destruct (dlookup key data); [destruct (check v); [|done]|]; injection Hf as <-; [|done].
    by rewrite dlookup_dset, E.
Qed.

(** *** Distinct keys *)

Definition str_keyed (d : dict) : Prop := exists l, d = map pair_of l /\ NoDup (map fst l).

Lemma nil_keyed : str_keyed [].
Proof. exists []. split; [done|constructor]. Qed.

Lemma dset_keyed k v d : str_keyed d -> str_keyed (dset k v d).
Proof.
  intros (l & -> & Hn). induction l as [|[k' v'] l IH].
  - exists [(k, v)]. split; [done|]. apply NoDup_singleton.
  - cbn [map fst] in Hn. apply NoDup_cons in Hn as [Hin Hn]. simpl. destruct (k' =s? k) eqn:E.
    + exists ((k', v) :: l). split; [done|]. by apply NoDup_cons.
    + destruct (IH Hn) as (l' & Hl' & Hn'). exists ((k', v') :: l'). cbn [map]. split.
      { unfold pair_of at 2. cbn [fst snd]. by rewrite Hl'. }
      cbn [fst]. apply NoDup_cons. split; [|done]. rewrite list_elem_of_In in *. intros Hk.
      apply str_in_In in Hk. rewrite <- dmem_pairs, <- Hl' in Hk. unfold dmem in Hk.
      rewrite dlookup_dset in Hk. rewrite str_eqb_sym, E in Hk.
      apply Hin, str_in_In. rewrite <- dmem_pairs. apply Hk.
Qed.

Lemma fields_keyed data checks cfg cfg' :
  str_keyed cfg -> fields data checks cfg = Ok cfg' -> str_keyed cfg'.
Proof.
  revert cfg. induction checks as [|[k c] checks IH]; intros cfg Hk; simpl; [by intros [= <-]|].
  rewrite rbind_ok. intros (cfg1 & Hf & Hfs). apply (IH cfg1); [|done]. unfold field in Hf.
  destruct (dlookup k data); [destruct (c v); [|done]|]; injection Hf as <-; [by apply dset_keyed|done].
Qed.

Lemma dlookup_update cfg d k :
  str_keyed d -> dlookup k (update cfg d) = match dlookup k d with Some v => Some v | None => dlookup k cfg end.
Proof.
  intros (l & -> & Hn). unfold update. revert cfg. induction l as [|[k' v] l IH]; intros cfg; [done|].
  cbn [map fst] in Hn. apply NoDup_cons in Hn as [Hin Hn]. cbn [map fold_left].
  change (pair_of (k', v)) with (VStr k', v). cbn [fst snd dlookup]. rewrite (IH Hn). change (is_key k (VStr k')) with (k' =s? k).
  rewrite dlookup_dset. destruct (k' =s? k) eqn:E; [|done]. apply str_eqb_eq in E as ->.
  rewrite list_elem_of_In in Hin. apply str_in_not_In in Hin. rewrite <- dmem_pairs in Hin.
  unfold dmem in Hin. by destruct (dlookup k (map pair_of l)).
Qed.

(** ** The whole document *)

Lemma checked_app l l' data k :
  (dlookup k data <> None -> check_of l k <> None -> checked l data k <> None) ->
  checked (l ++ l') data k = match checked l data k with Some w => Some w | None => checked l' data k end.
Proof.
  unfold checked. rewrite check_of_app. destruct (check_of l k) as [c|]; [|done].
  destruct (dlookup k data) as [v|]; [|by destruct (check_of l' k)].
  intros Hc. specialize (Hc ltac:(done) ltac:(done)). by destruct (c v).
Qed.

Lemma distinct_check_keys :
  NoDup (map fst word_checks) /\ NoDup (map fst (limit_checks ++ flag_checks)) /\
  NoDup (map fst path_checks) /\ NoDup (map fst command_checks).
Proof.
  repeat split; apply (nodupb_NoDup str_eqb); try apply str_eqb_eq; vm_compute; reflexivity.
Qed.

Lemma check_of_map l k : In k (map fst l) -> check_of l k <> None.
Proof.
  induction l as [|[k' c] l IH]; [done|]. simpl. destruct (k' =s? k) eqn:E; [done|].
  intros [->|Hin]; [by rewrite str_eqb_refl in E|auto].
Qed.

Lemma config_key_checked k : In k _CONFIG_KEYS -> check_of all_checks k <> None.
Proof.
  intros Hk. apply check_of_map.
  assert (Hs : forallb (fun k => str_in k (map fst all_checks)) _CONFIG_KEYS = true) by (vm_compute; reflexivity).
  rewrite forallb_forall in Hs. by apply str_in_In, Hs.
Qed.

Lemma dlookup_keys k d : dlookup k d <> None -> In k (dict_str_keys d).
Proof.
  unfold dict_str_keys. induction d as [|[k' v] d IH]; [done|]. simpl. destruct k' as [| | | |s| |]; simpl; auto.
  destruct (s =s? k) eqn:E; [apply str_eqb_eq in E as ->; by left|]. auto.
Qed.

Lemma path_policy_ok data paths :
  _validated_path_policy data = Ok paths ->
  fields data path_checks [] = Ok paths /\
  (is_list (dget paths (u "harness_inputs")) && is_list (dget paths (u "setup_output_globs")) = true ->
   setup_output_harness_conflicts (v_strings (dget paths (u "harness_inputs")))
     (v_strings (dget paths (u "setup_output_globs"))) = Ok []).
Proof.
  unfold _validated_path_policy. rewrite rbind_ok. intros (cfg & Hf & Hc). case_if.
  - destruct (setup_output_harness_conflicts _ _) as [[|c l]|] eqn:Es; try done. injection Hc as <-. auto.
  - injection Hc as <-. by rewrite Heqb.
Qed.

(** What an accepted document guarantees. *)
Record accepted_config (data cfg : dict) : Prop := {
  ac_lookup : forall k, dlookup k cfg = checked all_checks data k;
  ac_complete : forall k, dmem k data = true -> dmem k cfg = true;
  ac_known : forall k, dmem k data = true -> In k _CONFIG_KEYS;
  ac_blackbox : dget cfg (u "blackbox_only") = VBool true -> dget cfg (u "blackbox") = VBool true;
  ac_visible : forall inputs globs,
    dget cfg (u "harness_inputs") = v_str_list inputs ->
    dget cfg (u "setup_output_globs") = v_str_list globs ->
    setup_output_harness_conflicts inputs globs = Ok [];
  ac_profile : profile_violations cfg = [];
}.

Lemma str_items_VStr l : str_items (map VStr l) = l.
Proof. induction l as [|x l IH]; [done|]. simpl. by rewrite IH. Qed.

Lemma validate_lookup data cfg :
  validate_document data = Ok cfg ->
  (forall k, dlookup k cfg = checked all_checks data k) /\
  (forall k, dlookup k data <> None -> check_of all_checks k <> None -> checked all_checks data k <> None) /\
  exists paths, _validated_path_policy data = Ok paths /\
    forall k, In k (map fst path_checks) -> dlookup k cfg = dlookup k paths.
Proof.
  unfold validate_document. case_if; [|done]. rewrite rbind_ok. intros (c1 & H1 & H2).
  apply rbind_ok in H2 as (paths & H2 & H3). apply rbind_ok in H3 as (c3 & H3 & H4).
  case_if; [|done]. apply rbind_ok in H4 as (c4 & H4 & H5). case_if; [|done]. injection H5 as <-.
  destruct distinct_check_keys as (D1 & D2 & D3 & D4). pose proof (path_policy_ok _ _ H2) as [Hp _].
  assert (Hk : str_keyed paths) by (eapply fields_keyed; [|done]; apply nil_keyed).
  pose proof (fields_ok _ _ _ _ D4 H1) as F1. pose proof (fields_ok _ _ _ _ D3 Hp) as F2.
  pose proof (fields_ok _ _ _ _ D2 H3) as F3. pose proof (fields_ok _ _ _ _ D1 H4) as F4.
  assert (Hl : forall k, dlookup k c4 = checked all_checks data k).
  { intros k. destruct (F1 k) as [F1a F1b], (F2 k) as [F2a F2b], (F3 k) as [F3a F3b], (F4 k) as [F4a F4b].
    unfold all_checks. rewrite (checked_app word_checks), (checked_app (_ ++ _)), (checked_app path_checks) by done.
    rewrite F4b, F3b, dlookup_update, F2b, F1b by done. simpl.
    by destruct (checked word_checks data k), (checked _ data k), (checked path_checks data k), (checked command_checks data k). }
  split; [done|]. split.
  - intros k Hd Hc. specialize (F1 k) as [F1 _]. specialize (F2 k) as [F2 _].
    specialize (F3 k) as [F3 _]. specialize (F4 k) as [F4 _]. unfold all_checks in *.
    rewrite (checked_app word_checks), (checked_app (_ ++ _)), (checked_app path_checks) by done.
    rewrite (check_of_app word_checks), (check_of_app (_ ++ _)), (check_of_app path_checks) in Hc.
    destruct (checked word_checks data k) eqn:E4; [done|].
    destruct (check_of word_checks k) eqn:C4; [exfalso; apply F4; congruence|].
    destruct (checked (limit_checks ++ flag_checks) data k) eqn:E3; [done|].
    destruct (check_of (limit_checks ++ flag_checks) k) eqn:C3; [exfalso; apply F3; congruence|].
    destruct (checked path_checks data k) eqn:E2; [done|].
    destruct (check_of path_checks k) eqn:C2; [exfalso; apply F2; congruence|]. by apply F1.
  - exists paths. split; [done|]. intros k Hin.
    destruct (F2 k) as [_ F2b], (F3 k) as [_ F3b], (F4 k) as [_ F4b].
    rewrite F4b, F3b, dlookup_update by done.
    assert (forall l, ~ In k (map fst l) -> checked l data k = None) as Hout.
    { intros l Hn. unfold checked. by rewrite check_of_none. }
    rewrite !Hout; [|vm_compute in Hin; vm_compute; intuition congruence..].
    destruct (F1 k) as [_ F1b]. rewrite F1b, Hout; [by destruct (dlookup k paths)|].
    vm_compute in Hin; vm_compute; intuition congruence.
Qed.

Lemma unknown_nil (keys data_keys : list str) :
  is_empty (sorted_set (List.filter (fun k => negb (str_in k keys)) data_keys)) = true ->
  forall k, In k data_keys -> In k keys.
Proof.
  intros He%is_empty_iff k Hk. destruct (str_in k keys) eqn:E; [by apply str_in_In|].
  assert (Hin : In k (sorted_set (List.filter (fun k => negb (str_in k keys)) data_keys))).
  { apply sorted_set_In, filter_In. by rewrite E. }
  by rewrite He in Hin.
Qed.

Lemma is_true_v_eq v : is_true_v v = true <-> v = VBool true.
Proof. destruct v as [|[]| | | | |]; simpl; naive_solver. Qed.

Lemma dget_lookup d e k : dlookup k d = dlookup k e -> dget d k = dget e k.
Proof. unfold dget. by intros ->. Qed.

Lemma flag_kept data cfg k :
  (forall k, dlookup k cfg = checked all_checks data k) -> check_of all_checks k = Some check_flag ->
  is_true_v (dget cfg k) = true -> is_true_v (dget data k) = true.
Proof.
  intros Hl Hc. unfold dget. rewrite Hl. unfold checked. rewrite Hc. destruct (dlookup k data) as [v|]; [|done].
  unfold check_flag, accept_if. by destruct (is_bool v) eqn:E.
Qed.

Lemma flag_stored data cfg k :
  (forall k, dlookup k cfg = checked all_checks data k) ->
  (forall k, dlookup k data <> None -> check_of all_checks k <> None -> checked all_checks data k <> None) ->
  check_of all_checks k = Some check_flag -> is_true_v (dget data k) = true -> is_true_v (dget cfg k) = true.
Proof.
  intros Hl Hok Hc Ht. specialize (Hok k). unfold dget in *. rewrite Hl. unfold checked in *. rewrite Hc in *.
  destruct (dlookup k data) as [v|]; [|done]. apply is_true_v_eq in Ht as ->. done.
Qed.

Lemma validate_document_ok data cfg : validate_document data = Ok cfg -> accepted_config data cfg.
Proof.
  intros Hv. destruct (validate_lookup _ _ Hv) as (Hl & Hok & paths & Hp & Hpk).
  unfold validate_document in Hv. destruct (is_empty _) eqn:Hu in Hv; [|done].
  apply rbind_ok in Hv as (c1 & _ & Hv). apply rbind_ok in Hv as (c2 & _ & Hv).
  apply rbind_ok in Hv as (c3 & _ & Hv). destruct (negb (_ && _)) eqn:Hbb in Hv; [|done].
  apply rbind_ok in Hv as (c4 & _ & Hv). destruct (is_empty (profile_violations c4)) eqn:Hpv; [|done].
  injection Hv as ->. apply is_empty_iff in Hpv.
  assert (Hknown : forall k, dlookup k data <> None -> In k _CONFIG_KEYS).
  { intros k Hk. by apply (unknown_nil _ _ Hu), dlookup_keys. }
  assert (Hmem : forall k, dmem k data = true -> dlookup k data <> None).
  { intros k. unfold dmem. by destruct (dlookup k data). }
  split; [done| | | | |done].
  - intros k Hk%Hmem. unfold dmem. rewrite Hl.
    specialize (Hok k Hk (config_key_checked k (Hknown k Hk))). by destruct (checked all_checks data k).
  - auto.
  - rewrite <- !is_true_v_eq. intros Hb.
    pose proof (flag_kept data cfg (u "blackbox_only") Hl eq_refl Hb) as Hbo.
    rewrite Hbo in Hbb. simpl in Hbb. rewrite negb_involutive in Hbb. by apply (flag_stored data).
  - intros inputs globs Hi Hg. apply path_policy_ok in Hp as [_ Hp].
    rewrite (dget_lookup cfg paths) in Hi by (apply Hpk; vm_compute; tauto).
    rewrite (dget_lookup cfg paths) in Hg by (apply Hpk; vm_compute; tauto).
    rewrite Hi, Hg in Hp. specialize (Hp eq_refl). cbn [v_strings v_str_list] in Hp.
    by rewrite !str_items_VStr in Hp.
Qed.

(** C31: The policy loader is fail-closed and exact.  From a policy file it returns
    only configurations whose every entry is the checked form of the same key of a
    strict JSON object; no key of the document is dropped and none is unknown;
    black-box-only implies black-box; no setup output pattern hides a declared
    harness input; and the operating profile holds as a whole. *)
Theorem load_config_exact text required cfg :
  load_config (Contents text) required = Ok cfg ->
  exists data, strict_json_loads text = Ok (VDict data) /\ accepted_config data cfg.
Proof.
  unfold load_config. destruct (strict_json_loads text) as [[]|]; try done.
  intros Hv. eexists. split; [done|]. by apply validate_document_ok.
Qed.
End ConfigSound.

(** A local-profile policy, and what the loader makes of it. *)
Definition sample_policy : str :=
  flat_map (fun c => if N.eqb c 39 then [34%N] else [c])
    (u "{'test_command': ['pytest', '-q'], 'harness_inputs': ['tools/b.py', 'bin/a.sh'], 'mem_limit': 512,
         'min_diff_coverage': 80, 'protected': ['conf/*'], 'operating_profile': 'local', 'strict_harness': true}").

Lemma load_config_exact_witness :
  exists cfg data,
    @load_config ascii_unicode (Contents sample_policy) true = Ok cfg /\
    dget cfg (u "harness_inputs") = v_str_list (us ["bin/a.sh"; "tools/b.py"]) /\
    dget cfg (u "min_diff_coverage") = VFloat (float_of_Z 80) /\
    strict_json_loads sample_policy = Ok (VDict data) /\ @accepted_config ascii_unicode data cfg.
Proof.
  destruct (@load_config ascii_unicode (Contents sample_policy) true) as [cfg|e] eqn:E;
    [|vm_compute in E; discriminate E].
  destruct (@load_config_exact ascii_unicode sample_policy true cfg E) as (data & Hd & Ha).
  exists cfg, data. split; [reflexivity|].
  assert (Hc : @load_config ascii_unicode (Contents sample_policy) true = Ok cfg) by exact E.
  vm_compute in Hc. injection Hc as <-. split; [vm_compute; reflexivity|].
  split; [vm_compute; reflexivity|]. split; [exact Hd|exact Ha].
Defined.

Example misspelled_key :
  @load_config ascii_unicode (Contents (flat_map (fun c => if N.eqb c 39 then [34%N] else [c])
    (u "{'protect': []}"))) false = Err (UnknownKeys [u "protect"]).
Proof. vm_compute. reflexivity. Qed.
