(* ===== verification/JUnit.v ===== *)
(** The JUnit oracle (verifiers/junit_oracle.py) and the score gradient
    (verifiers/grading.py): counts derived from an XML element tree without
    counting nested suites twice, report sets and their digest, the grading of a
    finished run and the detection of an exit code that contradicts its report.

    The XML parser of the standard library is a parameter; its result is an
    element tree. *)
From S2P Require Export PyStr PyFloat Bytes.
Local Open Scope Z_scope.

(** An element: its tag ([None] for a comment or a processing instruction), its
    attributes and its children. *)
Inductive element := Elem (tag : option str) (attrib : list (str * str)) (children : list element).

Definition elem_tag (e : element) : option str := match e with Elem t _ _ => t end.
Definition elem_children (e : element) : list element := match e with Elem _ _ l => l end.

(** [element.get(name)] *)
Fixpoint assoc (k : str) (l : list (str * str)) : option str :=
  match l with
  | [] => None
  | (k', v) :: l' => if k =s? k' then Some v else assoc k l'
  end.

Definition elem_get (e : element) (name : str) : option str :=
  match e with Elem _ a _ => assoc name a end.

Lemma element_nested_ind (P : element -> Prop) :
  (forall t a l, Forall P l -> P (Elem t a l)) -> forall e, P e.
Proof.
  intros Helem. fix IH 1. intros [t a l]. apply Helem.
  induction l as [|x l IHl]; constructor; [apply IH|apply IHl].
Qed.

Record JUnitCounts := { jc_passed : Z; jc_total : Z; jc_failures : Z; jc_errors : Z }.

(** Raw [(tests, failures, errors, skipped)] counters. *)
Record raw_counts := { rc_tests : Z; rc_failures : Z; rc_errors : Z; rc_skipped : Z }.

Definition raw_zero : raw_counts :=
  {| rc_tests := 0; rc_failures := 0; rc_errors := 0; rc_skipped := 0 |}.

(** The internal fail-closed signal. *)
Inductive _InvalidJUnit := invalid_junit.

Definition _MAX_JUNIT_COUNTER : Z := 10 ^ 12.
Definition _MAX_JUNIT_COUNTER_DIGITS : nat := 13.
Definition _MAX_JUNIT_NESTING : nat := 128.
Definition _TERMINAL_CASE_STATES : list str := us ["failure"; "error"; "skipped"].

Definition _local_name (e : element) : str :=
  match elem_tag e with None => [] | Some tag => after_last 125%N tag end.

Definition is_suite (e : element) : bool :=
  str_in (_local_name e) (us ["testsuite"; "testsuites"]).

(** [int] of a string of ASCII digits. *)
Definition int_of_digits (s : str) : Z :=
  fold_left (fun acc c => acc * 10 + (Z.of_N c - 48)) s 0.

(** One counter attribute: absent, or a bounded canonical number. *)
Definition declared_counter (e : element) (name : str) : result _InvalidJUnit (option Z) :=
  match elem_get e name with
  | None => Ok None
  | Some raw =>
      guard* negb (match raw with [] => true | _ => false end
                   || negb (Nat.leb (length raw) _MAX_JUNIT_COUNTER_DIGITS)
                   || existsb (fun c => negb (is_ascii_digit c)) raw) else invalid_junit in
      let v := int_of_digits raw in
      guard* v <=? _MAX_JUNIT_COUNTER else invalid_junit in
      Ok (Some v)
  end.

(** The dictionary of declared counters. *)
Record declared := {
  d_tests : option Z; d_failures : option Z; d_errors : option Z; d_skipped : option Z
}.

Definition no_declared : declared :=
  {| d_tests := None; d_failures := None; d_errors := None; d_skipped := None |}.

Definition or_zero (x : option Z) : Z := match x with Some z => z | None => 0 end.

Definition _declared_counts (e : element) : result _InvalidJUnit declared :=
  let* t := declared_counter e (u "tests") in
  let* f := declared_counter e (u "failures") in
  let* er := declared_counter e (u "errors") in
  let* s := declared_counter e (u "skipped") in
  guard* match t with
         | Some tests => or_zero f + or_zero er + or_zero s <=? tests
         | None => true
         end else invalid_junit in
  Ok {| d_tests := t; d_failures := f; d_errors := er; d_skipped := s |}.

Definition _add_raw_counts (l r : raw_counts) : raw_counts :=
  {| rc_tests := rc_tests l + rc_tests r;
     rc_failures := rc_failures l + rc_failures r;
     rc_errors := rc_errors l + rc_errors r;
     rc_skipped := rc_skipped l + rc_skipped r |}.

Definition b2z (b : bool) : Z := if b then 1 else 0.

(** The counters of one testcase whose terminal state is [state]. *)
Definition case_counts (state : str) : raw_counts :=
  {| rc_tests := 1;
     rc_failures := b2z (state =s? u "failure");
     rc_errors := b2z (state =s? u "error");
     rc_skipped := b2z (state =s? u "skipped") |}.

Definition terminal_states (testcase : element) : list str :=
  dedup_str (List.filter (fun n => str_in n _TERMINAL_CASE_STATES)
               (map _local_name (elem_children testcase))).

Definition _testcase_counts (testcase : element) : result _InvalidJUnit raw_counts :=
  match terminal_states testcase with
  | [] => Ok (case_counts [])
  | [state] => Ok (case_counts state)
  | _ => Err invalid_junit
  end.

(** [declared[name] == actual] when declared. *)
Definition agrees (d : option Z) (actual : Z) : bool :=
  match d with Some z => actual =? z | None => true end.

Definition declared_as (d : option Z) (actual : Z) : bool :=
  match d with Some z => z =? actual | None => false end.

Definition _validate_declared_counts (d : declared) (actual : raw_counts) : result _InvalidJUnit unit :=
  guard* match d_tests d with
         | Some tests =>
             (tests =? rc_tests actual)
             || ((rc_tests actual <? tests)
                 && declared_as (d_failures d) (rc_failures actual)
                 && declared_as (d_errors d) (rc_errors actual)
                 && declared_as (d_skipped d) (rc_skipped actual))
         | None => true
         end else invalid_junit in
  guard* agrees (d_failures d) (rc_failures actual) && agrees (d_errors d) (rc_errors actual)
         && agrees (d_skipped d) (rc_skipped actual) else invalid_junit in
  Ok tt.

Definition aggregate (d : declared) : raw_counts :=
  {| rc_tests := or_zero (d_tests d); rc_failures := or_zero (d_failures d);
     rc_errors := or_zero (d_errors d); rc_skipped := or_zero (d_skipped d) |}.

(** The recursion over a report; the second component tells whether any
    evidence was seen. *)
Fixpoint _element_counts (depth : nat) (e : element) {struct e}
  : result _InvalidJUnit (raw_counts * bool) :=
  match e with
  | Elem tag attrib children =>
      guard* Nat.leb depth _MAX_JUNIT_NESTING else invalid_junit in
      let* d := if is_suite e then _declared_counts e else Ok no_declared in
      let* (counts, seen) :=
        (fix go (l : list element) (counts : raw_counts) (seen : bool)
           : result _InvalidJUnit (raw_counts * bool) :=
           match l with
           | [] => Ok (counts, seen)
           | child :: l' =>
               if _local_name child =s? u "testcase" then
                 let* c := _testcase_counts child in go l' (_add_raw_counts counts c) true
               else if is_suite child || negb (match elem_children child with [] => true | _ => false end)
               then
                 let* (cc, child_seen) := _element_counts (S depth) child in
                 if child_seen then go l' (_add_raw_counts counts cc) true else go l' counts seen
               else go l' counts seen
           end) children raw_zero false in
      if seen then
        let* ok := _validate_declared_counts d counts in Ok (counts, true)
      else if _local_name e =s? u "testsuite" then Ok (aggregate d, true)
      else Ok (counts, false)
  end.

Definition _count_testcases (root : element) : option JUnitCounts :=
  if negb (is_suite root) then None
  else match _element_counts 0 root with
  | Err _ => None
  | Ok (_, false) => None
  | Ok (raw, true) =>
      let effective_total := rc_tests raw - rc_skipped raw in
      let passed := effective_total - rc_failures raw - rc_errors raw in
      if (effective_total <? 0) || (passed <? 0) then None
      else Some {| jc_passed := passed; jc_total := effective_total;
                   jc_failures := rc_failures raw; jc_errors := rc_errors raw |}
  end.

Definition _MAX_REPORT_BYTES : Z := 8 * 1024 * 1024.
Definition _MAX_REPORT_CHARS : Z := _MAX_REPORT_BYTES.
Definition _MAX_REPORT_SET_BYTES : Z := 16 * 1024 * 1024.
Definition _MAX_REPORT_FILES : Z := 2048.

(** The screening of a report text before it is parsed. *)
Definition report_screened (xml_text : str) : bool :=
  match strip xml_text with [] => false | _ => true end
  && (Z.of_nat (length xml_text) <=? _MAX_REPORT_CHARS)
  && negb (contains (u "<!DOCTYPE") xml_text) && negb (contains (u "<!ENTITY") xml_text).

(** [root.iter()]: an element before its descendants. *)
Fixpoint elem_iter (e : element) : list element :=
  match e with
  | Elem _ _ children =>
      e :: (fix go (l : list element) : list element :=
              match l with [] => [] | c :: l' => elem_iter c ++ go l' end) children
  end.

Definition JUNIT_XML_DIGEST_FORMAT : str := "JUNIT_XML_SHA256".
Definition JUNIT_REPORT_SET_DIGEST_FORMAT : str := "EVOGUARD_JUNIT_REPORT_SET_V1".
Definition JUNIT_COMPOSITE_DIGEST_FORMAT : str := "EVOGUARD_JUNIT_COMPOSITE_V2".

Section Oracle.
Context `{UnicodeDB}.
(** [ET.fromstring]; [None] when it raises [ParseError]. *)
Context (et_fromstring : str -> option element).

Definition parse_junit_xml (xml_text : str) : option JUnitCounts :=
  if negb (report_screened xml_text) then None
  else match et_fromstring xml_text with
       | Some root => _count_testcases root
       | None => None
       end.

Definition canary_case_failed (xml_text testid : str) : bool :=
  if negb (report_screened xml_text) then false
  else match et_fromstring xml_text with
       | None => false
       | Some root =>
           existsb (fun e =>
               (_local_name e =s? u "testcase")
               && match elem_get e (u "name") with Some n => n =s? testid | None => false end
               && existsb (fun c => str_in (_local_name c) (us ["failure"; "error"])) (elem_children e))
             (elem_iter root)
       end.

(** ** Report sets *)

(** One directory entry: its name, the facts [lstat] reports ([None] when it
    fails) and the bounded text of the file ([None] when it cannot be read). *)
Record dir_entry := {
  de_name : str;
  de_regular : option bool;
  de_size : Z;
  de_text : option str
}.

(** The counts and the digest input accumulated over the entries. *)
Record set_state := {
  ss_counts : JUnitCounts;
  ss_bytes : bytes;
  ss_report_bytes : Z;
  ss_report_files : Z;
  ss_seen : bool
}.

Definition set_start : set_state := {|
  ss_counts := {| jc_passed := 0; jc_total := 0; jc_failures := 0; jc_errors := 0 |};
  ss_bytes := ascii_bytes JUNIT_REPORT_SET_DIGEST_FORMAT ++ [0];
  ss_report_bytes := 0;
  ss_report_files := 0;
  ss_seen := false
|}.

Definition add_counts (a b : JUnitCounts) : JUnitCounts :=
  {| jc_passed := jc_passed a + jc_passed b; jc_total := jc_total a + jc_total b;
     jc_failures := jc_failures a + jc_failures b; jc_errors := jc_errors a + jc_errors b |}.

(** The framing of one report in the digest input. *)
Definition framed (name text : bytes) : bytes :=
  pack_u64 (Z.of_nat (length name)) ++ name ++ pack_u64 (Z.of_nat (length text)) ++ text.

Definition is_report_name (fn : str) : bool := ends_with (u ".xml") (py_lower fn).

(** One iteration of the loop; [None] rejects the whole set. *)
Definition set_step (st : set_state) (e : dir_entry) : option set_state :=
  if negb (is_report_name (de_name e)) then Some st
  else match de_regular e with
  | Some true =>
      let report_files := ss_report_files st + 1 in
      let report_bytes := ss_report_bytes st + de_size e in
      if (_MAX_REPORT_FILES <? report_files) || (_MAX_REPORT_BYTES <? de_size e)
         || (_MAX_REPORT_SET_BYTES <? report_bytes) then None
      else match de_text e with
      | None => None
      | Some text =>
          match parse_junit_xml text, utf8 (de_name e), utf8 text with
          | Some counts, Some name_bytes, Some text_bytes =>
              Some {| ss_counts := add_counts (ss_counts st) counts;
                      ss_bytes := ss_bytes st ++ framed name_bytes text_bytes;
                      ss_report_bytes := report_bytes;
                      ss_report_files := report_files;
                      ss_seen := true |}
          | _, _, _ => None
          end
      end
  | _ => None
  end.

Fixpoint set_loop (st : set_state) (entries : list dir_entry) : option set_state :=
  match entries with
  | [] => Some st
  | e :: l => match set_step st e with Some st' => set_loop st' l | None => None end
  end.

Definition entry_leb (a b : dir_entry) : bool := str_leb (de_name a) (de_name b).

(** The report set of a directory listing ([None] when it cannot be listed). *)
Definition parse_junit_dir_with_digest (listing : option (list dir_entry))
  : option (JUnitCounts * str) :=
  match listing with
  | None => None
  | Some entries =>
      match set_loop set_start (py_sort entry_leb entries) with
      | Some st => if ss_seen st then Some (ss_counts st, sha256_hex (ss_bytes st)) else None
      | None => None
      end
  end.

Definition parse_junit_dir (listing : option (list dir_entry)) : option JUnitCounts :=
  match parse_junit_dir_with_digest listing with Some (c, _) => Some c | None => None end.
End Oracle.

(** ** Grading *)

Definition PARTIAL_FLOOR : float := dec 25 2.
Definition PARTIAL_CEIL : float := dec 95 2.

Definition partial_score (stderr : str) : float :=
  if contains (u "SyntaxError") stderr then dec 5 2
  else if contains (u "NameError") stderr then dec 10 2
  else dec 25 2.

Definition fraction_score (passed total : Z) (stderr : str) : float :=
  if (passed <=? 0) || (total <=? 0) then partial_score stderr
  else if total <=? passed then dec 10 1
  else fadd PARTIAL_FLOOR (fmul (fsub PARTIAL_CEIL PARTIAL_FLOOR) (int_truediv passed total)).

Record grade := { g_passed : bool; g_score : float; g_tests_passed : Z; g_tests_total : Z }.

Definition grade_repo_run (returncode : Z) (junit : option JUnitCounts) (report_expected : bool) : grade :=
  match junit with
  | Some j =>
      if (returncode =? 0) && (0 <? jc_total j) && (jc_failures j =? 0) && (jc_errors j =? 0) then
        {| g_passed := true; g_score := dec 10 1;
           g_tests_passed := jc_passed j; g_tests_total := jc_total j |}
      else if (returncode =? 1) && (0 <? jc_total j) && ((0 <? jc_failures j) || (0 <? jc_errors j)) then
        {| g_passed := false; g_score := fraction_score (jc_passed j) (jc_total j) [];
           g_tests_passed := jc_passed j; g_tests_total := jc_total j |}
      else {| g_passed := false; g_score := dec 10 2;
              g_tests_passed := jc_passed j; g_tests_total := jc_total j |}
  | None =>
      if report_expected then
        {| g_passed := false; g_score := dec 10 2; g_tests_passed := 0; g_tests_total := 0 |}
      else if returncode =? 0 then
        {| g_passed := true; g_score := dec 10 1; g_tests_passed := 0; g_tests_total := 0 |}
      else if returncode =? 1 then
        {| g_passed := false; g_score := dec 25 2; g_tests_passed := 0; g_tests_total := 0 |}
      else {| g_passed := false; g_score := dec 10 2; g_tests_passed := 0; g_tests_total := 0 |}
  end.

Definition detect_tamper (returncode : Z) (junit : option JUnitCounts) (report_expected : bool) : bool :=
  match junit with
  | None => false
  | Some j =>
      let all_pass := (0 <? jc_total j) && (jc_failures j =? 0) && (jc_errors j =? 0) in
      let has_failures := (0 <? jc_failures j) || (0 <? jc_errors j) in
      if all_pass && negb (returncode =? 0) then true
      else if has_failures && (returncode =? 0) then true
      else false
  end.

(** ** The evidence of a report *)

Definition raw_sum (l : list raw_counts) : raw_counts := fold_left _add_raw_counts l raw_zero.

(** An attribute as a number, 0 when absent or not a number. *)
Definition counter_of (e : element) (name : string) : Z :=
  match declared_counter e (u name) with Ok (Some z) => z | _ => 0 end.

(** The counters a leaf suite declares. *)
Definition suite_aggregate (e : element) : raw_counts :=
  {| rc_tests := counter_of e "tests"; rc_failures := counter_of e "failures";
     rc_errors := counter_of e "errors"; rc_skipped := counter_of e "skipped" |}.

(** The pieces of evidence below an element, in document order: one per
    testcase, and one per suite with no evidence below it.  The aggregate
    attributes of any other element are not evidence. *)
Fixpoint evidence (e : element) : list raw_counts :=
  match e with
  | Elem _ _ children =>
      let below :=
        (fix go (l : list element) : list raw_counts :=
           match l with
           | [] => []
           | c :: l' =>
               (if _local_name c =s? u "testcase" then
                  [case_counts (match terminal_states c with s :: _ => s | [] => [] end)]
                else if is_suite c || negb (match elem_children c with [] => true | _ => false end)
                then evidence c else []) ++ go l'
           end) children in
      match below with
      | [] => if _local_name e =s? u "testsuite" then [suite_aggregate e] else []
      | _ => below
      end
  end.

Lemma raw_eq a b :
  rc_tests a = rc_tests b -> rc_failures a = rc_failures b -> rc_errors a = rc_errors b ->
  rc_skipped a = rc_skipped b -> a = b.
Proof. destruct a, b; simpl; congruence. Qed.

Lemma add_raw_assoc a b c :
  _add_raw_counts (_add_raw_counts a b) c = _add_raw_counts a (_add_raw_counts b c).
Proof. apply raw_eq; simpl; lia. Qed.

Lemma add_raw_zero a : _add_raw_counts raw_zero a = a.
Proof. by apply raw_eq. Qed.

Lemma add_raw_zero_r a : _add_raw_counts a raw_zero = a.
Proof. apply raw_eq; simpl; lia. Qed.

Lemma raw_sum_from l a : fold_left _add_raw_counts l a = _add_raw_counts a (raw_sum l).
Proof.
  unfold raw_sum. revert a; induction l as [|x l IH]; intros a; simpl; [by rewrite add_raw_zero_r|].
  by rewrite IH, (IH (_add_raw_counts raw_zero x)), add_raw_zero, add_raw_assoc.
Qed.

Lemma raw_sum_app l l' : raw_sum (l ++ l') = _add_raw_counts (raw_sum l) (raw_sum l').
Proof. unfold raw_sum at 1. rewrite fold_left_app. apply raw_sum_from. Qed.

Lemma raw_sum_single a : raw_sum [a] = a.
Proof. unfold raw_sum. simpl. apply add_raw_zero. Qed.

Lemma testcase_ok c r :
  _testcase_counts c = Ok r ->
  r = case_counts (match terminal_states c with s :: _ => s | [] => [] end).
Proof.
  unfold _testcase_counts. destruct (terminal_states c) as [|s [|]]; intros Hr; by inversion Hr.
Qed.

Lemma declared_ok e d : _declared_counts e = Ok d -> aggregate d = suite_aggregate e.
Proof.
  unfold _declared_counts, suite_aggregate, counter_of.
  intros (t & -> & (f & -> & (er & -> & (s & -> & Hd)%rbind_ok)%rbind_ok)%rbind_ok)%rbind_ok.
  case_if; [|done]. apply Ok_inj in Hd as <-. done.
Qed.

(** The two recursions below an element's children, named so that their lemmas
    can be stated. *)
Definition counts_of_children (depth : nat) :=
  fix go (l : list element) (counts : raw_counts) (seen : bool)
    : result _InvalidJUnit (raw_counts * bool) :=
    match l with
    | [] => Ok (counts, seen)
    | child :: l' =>
        if _local_name child =s? u "testcase" then
          let* c := _testcase_counts child in go l' (_add_raw_counts counts c) true
        else if is_suite child || negb (match elem_children child with [] => true | _ => false end)
        then
          let* (cc, child_seen) := _element_counts (S depth) child in
          if child_seen then go l' (_add_raw_counts counts cc) true else go l' counts seen
        else go l' counts seen
    end.

Definition evidence_of_child (c : element) : list raw_counts :=
  if _local_name c =s? u "testcase" then
    [case_counts (match terminal_states c with s :: _ => s | [] => [] end)]
  else if is_suite c || negb (match elem_children c with [] => true | _ => false end)
  then evidence c else [].

Lemma element_counts_eq depth t a l :
  _element_counts depth (Elem t a l) =
  guard* Nat.leb depth _MAX_JUNIT_NESTING else invalid_junit in
  let* d := if is_suite (Elem t a l) then _declared_counts (Elem t a l) else Ok no_declared in
  let* (counts, seen) := counts_of_children depth l raw_zero false in
  if seen then let* ok := _validate_declared_counts d counts in Ok (counts, true)
  else if _local_name (Elem t a l) =s? u "testsuite" then Ok (aggregate d, true)
  else Ok (counts, false).
Proof. reflexivity. Qed.

Lemma evidence_eq t a l :
  evidence (Elem t a l) =
  match flat_map evidence_of_child l with
  | [] => if _local_name (Elem t a l) =s? u "testsuite" then [suite_aggregate (Elem t a l)] else []
  | below => below
  end.
Proof.
  cbn [evidence].
  match goal with |- match ?g l with _ => _ end = _ => assert (g l = flat_map evidence_of_child l) as -> end;
    [|by destruct (flat_map evidence_of_child l)].
  induction l as [|c l IH]; simpl; [done|]. by rewrite <- IH.
Qed.

(** A counted element: its counts are the sum of its evidence, and it was seen
    exactly when there is some. *)
Definition counted (depth : nat) (e : element) : Prop :=
  forall c seen, _element_counts depth e = Ok (c, seen) ->
    c = raw_sum (evidence e) /\ seen = negb (match evidence e with [] => true | _ => false end).

Lemma counts_of_children_ok depth l :
  Forall (counted (S depth)) l ->
  forall counts seen c s, counts_of_children depth l counts seen = Ok (c, s) ->
  c = _add_raw_counts counts (raw_sum (flat_map evidence_of_child l)) /\
  s = seen || negb (match flat_map evidence_of_child l with [] => true | _ => false end).
Proof.
  induction 1 as [|child l Hc Hl IH]; intros counts seen c s.
  - simpl. intros [<- <-]%Ok_pair_inj. by rewrite add_raw_zero_r, orb_false_r.
  - cbn [counts_of_children flat_map]. unfold evidence_of_child at 1 3.
    rewrite raw_sum_app, <- add_raw_assoc.
    destruct (_local_name child =s? u "testcase").
    + intros (r & ->%testcase_ok & Hr)%rbind_ok. apply IH in Hr as [-> ->].
      rewrite raw_sum_single. split; [done|]. by rewrite orb_true_r.
    + destruct (is_suite child || _).
      * intros ([cc cs] & Hcc & Hr)%rbind_ok. apply Hc in Hcc as [-> ->].
        destruct (evidence child) as [|x ev] eqn:Ee; cbn [negb] in Hr; apply IH in Hr as [-> ->].
        -- change (raw_sum []) with raw_zero. by rewrite add_raw_zero_r.
        -- split; [done|]. by rewrite orb_true_r.
      * intros Hr. apply IH in Hr as [-> ->]. change (raw_sum []) with raw_zero.
        by rewrite add_raw_zero_r.
Qed.

Lemma element_counts_ok e : forall depth, counted depth e.
Proof.
  induction e as [t a l IH] using element_nested_ind. intros depth c seen.
  rewrite element_counts_eq, evidence_eq. case_if; [|done].
  intros (d & Hd & Hr)%rbind_ok. apply rbind_ok in Hr as ([counts sn] & Hcs & Hr).
  apply counts_of_children_ok in Hcs as [-> ->];
    [|eapply Forall_impl; [exact IH|]; intros e He; exact (He (S depth))].
  rewrite add_raw_zero in Hr. cbn [orb] in Hr.
  destruct (flat_map evidence_of_child l) as [|x ev]; cbn [negb] in Hr.
  - destruct (_local_name (Elem t a l) =s? u "testsuite") eqn:En.
    + assert (is_suite (Elem t a l) = true) as Hs.
      { unfold is_suite. apply str_in_In. apply str_eqb_eq in En as ->. by left. }
      rewrite Hs in Hd. apply declared_ok in Hd. apply Ok_pair_inj in Hr as [<- <-].
      by rewrite raw_sum_single, Hd.
    + by apply Ok_pair_inj in Hr as [<- <-].
  - apply rbind_ok in Hr as (ok & _ & Hr). by apply Ok_pair_inj in Hr as [<- <-].
Qed.

(** ** Coherent counts *)

Definition raw_nonneg (r : raw_counts) : Prop :=
  0 <= rc_tests r /\ 0 <= rc_failures r /\ 0 <= rc_errors r /\ 0 <= rc_skipped r.

Lemma raw_sum_nonneg l : Forall raw_nonneg l -> raw_nonneg (raw_sum l).
Proof.
  induction 1 as [|x l Hx Hl IH]; [by (unfold raw_nonneg; simpl)|].
  change (x :: l) with ([x] ++ l). rewrite raw_sum_app, raw_sum_single.
  unfold raw_nonneg in *. simpl. lia.
Qed.

Lemma int_of_digits_nonneg s :
  existsb (fun c => negb (is_ascii_digit c)) s = false -> 0 <= int_of_digits s.
Proof.
  unfold int_of_digits. intros Hs.
  assert (Hgen : forall a, 0 <= a -> 0 <= fold_left (fun acc c => acc * 10 + (Z.of_N c - 48)) s a);
    [|by apply Hgen].
  induction s as [|c s IH]; intros a Ha; simpl; [done|].
  cbn [existsb] in Hs. apply orb_false_iff in Hs as [Hc Hs]. apply IH; [done|].
  unfold is_ascii_digit in Hc. apply negb_false_iff, andb_true_iff in Hc as [Hc _].
  apply N.leb_le in Hc. lia.
Qed.

Lemma counter_of_nonneg e name : 0 <= counter_of e name.
Proof.
  unfold counter_of, declared_counter. destruct (elem_get e (u name)) as [raw|]; [|done].
  destruct (negb _) eqn:E; [|done]. destruct (_ <=? _); [|done].
  apply int_of_digits_nonneg. apply negb_true_iff in E. rewrite !orb_false_iff in E. naive_solver.
Qed.

Lemma b2z_range b : 0 <= b2z b <= 1.
Proof. destruct b; simpl; lia. Qed.

Lemma case_counts_nonneg s : raw_nonneg (case_counts s).
Proof.
  unfold raw_nonneg, case_counts. simpl. pose proof (b2z_range (s =s? u "failure")).
  pose proof (b2z_range (s =s? u "error")). pose proof (b2z_range (s =s? u "skipped")). lia.
Qed.

Lemma evidence_nonneg e : Forall raw_nonneg (evidence e).
Proof.
  induction e as [t a l IH] using element_nested_ind. rewrite evidence_eq.
  assert (Hb : Forall raw_nonneg (flat_map evidence_of_child l)).
  { induction IH as [|c l Hc Hl IHl]; simpl; [constructor|]. apply Forall_app. split; [|done].
    unfold evidence_of_child. destruct (_ =s? _); [repeat constructor; apply case_counts_nonneg|].
    destruct (_ || _); [done|constructor]. }
  destruct (flat_map evidence_of_child l); [|done].
  destruct (_ =s? _); [|constructor]. repeat constructor; apply counter_of_nonneg.
Qed.

Lemma count_testcases_ok root j :
  _count_testcases root = Some j ->
  is_suite root = true /\ evidence root <> [] /\
  let total := raw_sum (evidence root) in
  jc_total j = rc_tests total - rc_skipped total /\ jc_failures j = rc_failures total /\
  jc_errors j = rc_errors total /\ jc_passed j = jc_total j - jc_failures j - jc_errors j /\
  0 <= jc_passed j /\ 0 <= jc_failures j /\ 0 <= jc_errors j.
Proof.
  unfold _count_testcases. destruct (is_suite root); [|done]. cbn [negb].
  destruct (_element_counts 0 root) as [[raw [|]]|] eqn:E; try done.
  apply element_counts_ok in E as [-> Hs].
  pose proof (raw_sum_nonneg _ (evidence_nonneg root)) as (_ & Hf & He & _).
  destruct (_ || _) eqn:Eb; [done|]. intros [= <-]. simpl.
  apply orb_false_iff in Eb as [_ Hp%Z.ltb_ge]. split; [done|]. split; [by destruct (evidence root)|].
  repeat split; done || lia.
Qed.

(** ** Report sets *)

(** What a member of an accepted report set is. *)
Record member := { m_name : bytes; m_text : bytes; m_counts : JUnitCounts }.

Definition frame_member (m : member) : bytes := framed (m_name m) (m_text m).

Definition sum_counts (l : list member) : JUnitCounts :=
  {| jc_passed := sumZ (fun m => jc_passed (m_counts m)) l;
     jc_total := sumZ (fun m => jc_total (m_counts m)) l;
     jc_failures := sumZ (fun m => jc_failures (m_counts m)) l;
     jc_errors := sumZ (fun m => jc_errors (m_counts m)) l |}.

Section ReportSet.
Context `{UnicodeDB} (et_fromstring : str -> option element).

(** A directory entry read as a member. *)
Definition member_of (e : dir_entry) (m : member) : Prop :=
  de_regular e = Some true /\ de_size e <= _MAX_REPORT_BYTES /\
  utf8 (de_name e) = Some (m_name m) /\
  exists text, de_text e = Some text /\ utf8 text = Some (m_text m) /\
    parse_junit_xml et_fromstring text = Some (m_counts m).

Definition reports (entries : list dir_entry) : list dir_entry :=
  List.filter (fun e => is_report_name (de_name e)) entries.

Lemma add_counts_assoc a b c : add_counts (add_counts a b) c = add_counts a (add_counts b c).
Proof. unfold add_counts. simpl. f_equal; lia. Qed.

Lemma set_step_ok st e st' :
  is_report_name (de_name e) = true -> set_step et_fromstring st e = Some st' ->
  exists m, member_of e m /\
    ss_counts st' = add_counts (ss_counts st) (m_counts m) /\
    ss_bytes st' = ss_bytes st ++ frame_member m /\
    ss_report_files st' = ss_report_files st + 1 /\
    ss_report_bytes st' = ss_report_bytes st + de_size e /\
    ss_report_files st' <= _MAX_REPORT_FILES /\ ss_report_bytes st' <= _MAX_REPORT_SET_BYTES /\
    ss_seen st' = true.
Proof.
  unfold set_step. intros ->. cbn [negb].
  destruct (de_regular e) as [[|]|] eqn:Er; try done.
  destruct (_ || _) eqn:Eb; [done|].
  destruct (de_text e) as [text|] eqn:Et; [|done].
  destruct (parse_junit_xml et_fromstring text) as [c|] eqn:Ep; [|done].
  destruct (utf8 (de_name e)) as [nb|] eqn:En; [|done].
  destruct (utf8 text) as [tb|] eqn:Eu; [|done].
  intros [= <-]. rewrite !orb_false_iff, !Z.ltb_ge in Eb. simpl.
  exists {| m_name := nb; m_text := tb; m_counts := c |}.
  split; [|naive_solver]. split; [done|]. split; [naive_solver|]. split; [done|]. by exists text.
Qed.

Lemma set_loop_ok entries st st' :
  set_loop et_fromstring st entries = Some st' ->
  exists ms, Forall2 member_of (reports entries) ms /\
    ss_counts st' = add_counts (ss_counts st) (sum_counts ms) /\
    ss_bytes st' = ss_bytes st ++ flat_map frame_member ms /\
    ss_report_files st' = ss_report_files st + Z.of_nat (length ms) /\
    (ms = [] -> st' = st) /\
    (ms <> [] -> ss_seen st' = true /\ ss_report_files st' <= _MAX_REPORT_FILES /\
                ss_report_bytes st' <= _MAX_REPORT_SET_BYTES).
Proof.
  revert st; induction entries as [|e l IH]; intros st; cbn [set_loop].
  - intros [= <-]. exists []. split; [constructor|]. split.
    { unfold add_counts. simpl. destruct (ss_counts st). simpl. f_equal; lia. }
    simpl. split; [by rewrite app_nil_r|]. split; [lia|]. by split.
  - destruct (set_step et_fromstring st e) as [st1|] eqn:Es; [|done]. intros Hl.
    destruct (IH st1 Hl) as (ms & Hf & Hc & Hb & Hn & Hnil & Hcons).
    unfold reports. cbn [List.filter]. destruct (is_report_name (de_name e)) eqn:Er.
    + destruct (set_step_ok _ _ _ Er Es) as (m & Hm & Hc1 & Hb1 & Hn1 & _ & Hfl & Hby & Hseen).
      exists (m :: ms). split; [by constructor|].
      split; [rewrite Hc, Hc1, add_counts_assoc; f_equal; done|].
      split; [rewrite Hb, Hb1; cbn [flat_map]; by rewrite <- app_assoc|].
      split; [rewrite Hn, Hn1; cbn [length]; lia|]. split; [done|]. intros _.
      destruct ms as [|m' ms]; [rewrite (Hnil eq_refl); done|by apply Hcons].
    + assert (st1 = st) as -> by (unfold set_step in Es; rewrite Er in Es; by injection Es).
      by exists ms.
Qed.

Lemma framed_inj n t n' t' r r' :
  Z.of_nat (length n) < 2 ^ 64 -> Z.of_nat (length n') < 2 ^ 64 ->
  Z.of_nat (length t) < 2 ^ 64 -> Z.of_nat (length t') < 2 ^ 64 ->
  framed n t ++ r = framed n' t' ++ r' -> n = n' /\ t = t' /\ r = r'.
Proof.
  unfold framed. intros Hn Hn' Ht Ht'. rewrite <- !app_assoc.
  intros (Hl1 & Hr1)%app_inj_1; [|by rewrite !length_pack_u64].
  apply pack_u64_inj in Hl1; [|lia..]. apply Nat2Z.inj in Hl1.
  apply app_inj_1 in Hr1 as [-> Hr2]; [|done].
  apply app_inj_1 in Hr2 as [Hl2 Hr3]; [|by rewrite !length_pack_u64].
  apply pack_u64_inj in Hl2; [|lia..]. apply Nat2Z.inj in Hl2.
  by apply app_inj_1 in Hr3 as [-> ->].
Qed.

(** Lengths that fit the 64-bit frame headers. *)
Definition frame_sized (m : member) : Prop :=
  Z.of_nat (length (m_name m)) < 2 ^ 64 /\ Z.of_nat (length (m_text m)) < 2 ^ 64.

Lemma framed_nonempty m r : frame_member m ++ r <> [].
Proof.
  unfold frame_member, framed. intros Heq. apply (f_equal length) in Heq.
  rewrite !length_app, length_pack_u64 in Heq. simpl in Heq. lia.
Qed.

Lemma frames_inj ms ms' :
  Forall frame_sized ms -> Forall frame_sized ms' ->
  flat_map frame_member ms = flat_map frame_member ms' ->
  map (fun m => (m_name m, m_text m)) ms = map (fun m => (m_name m, m_text m)) ms'.
Proof.
  intros Hs. revert ms'. induction Hs as [|m ms [Hn Ht] Hs IH]; intros [|m' ms'] Hs' Heq;
    cbn [flat_map map] in *; [done|symmetry in Heq|..];
    try (by apply framed_nonempty in Heq).
  - apply Forall_cons in Hs' as [[Hn' Ht'] Hs'].
    destruct (framed_inj _ _ _ _ _ _ Hn Hn' Ht Ht' Heq) as (-> & -> & Hr).
    by rewrite (IH ms' Hs' Hr).
Qed.
End ReportSet.

(** ** Properties *)

Section Properties.
Context `{UnicodeDB} (et_fromstring : str -> option element).

(** Coherent counts: every executed test passed, failed or errored. *)
Definition coherent (j : JUnitCounts) : Prop :=
  0 <= jc_passed j /\ 0 <= jc_failures j /\ 0 <= jc_errors j /\
  jc_passed j + jc_failures j + jc_errors j = jc_total j.

Lemma parse_coherent text j : parse_junit_xml et_fromstring text = Some j -> coherent j.
Proof.
  unfold parse_junit_xml. destruct (negb _); [done|]. destruct (et_fromstring text) as [root|]; [|done].
  intros (_ & _ & _ & _ & _ & Hp & ? & ? & ?)%count_testcases_ok. unfold coherent. lia.
Qed.

(** the counts read from a report are exactly its evidence: one unit per
    testcase element and, for a suite with nothing below it, the counters it
    declares.  Enclosing suites add nothing, skipped tests are not counted, no
    count is negative and passed, failed and errored tests add up to the total.
    A text with a document type or an entity declaration yields nothing. *)
Theorem junit_counts_are_evidence text j :
  parse_junit_xml et_fromstring text = Some j ->
  exists root, et_fromstring text = Some root /\ is_suite root = true /\ evidence root <> [] /\
    contains (u "<!DOCTYPE") text = false /\ contains (u "<!ENTITY") text = false /\
    let total := raw_sum (evidence root) in
    jc_total j = rc_tests total - rc_skipped total /\
    jc_failures j = rc_failures total /\ jc_errors j = rc_errors total /\ coherent j.
Proof.
  intros Hp. pose proof (parse_coherent _ _ Hp) as Hco. unfold parse_junit_xml in Hp.
  destruct (report_screened text) eqn:Es; [|done]. cbn [negb] in Hp.
  destruct (et_fromstring text) as [root|]; [|done]. exists root.
  apply count_testcases_ok in Hp as (Hs & Hne & Ht & Hf & He & _).
  unfold report_screened in Es. rewrite !andb_true_iff, !negb_true_iff in Es. naive_solver.
Qed.

(** an accepted report set loses no report.  Every entry with a report name
    is a regular file within the size limits that parses; the counts are the
    sums over all of them and stay coherent; and the digest is the SHA-256 of an
    injective framing of the names and contents, so two sets of representable
    members with the same digest input have the same members. *)
Theorem report_set_complete entries c h :
  parse_junit_dir_with_digest et_fromstring (Some entries) = Some (c, h) ->
  exists ms, ms <> [] /\
    Forall2 (member_of et_fromstring) (reports (py_sort entry_leb entries)) ms /\
    Z.of_nat (length ms) <= _MAX_REPORT_FILES /\ c = sum_counts ms /\ coherent c /\
    h = sha256_hex (ss_bytes set_start ++ flat_map frame_member ms) /\
    (forall ms', Forall frame_sized ms -> Forall frame_sized ms' ->
       ss_bytes set_start ++ flat_map frame_member ms
         = ss_bytes set_start ++ flat_map frame_member ms' ->
       map (fun m => (m_name m, m_text m)) ms = map (fun m => (m_name m, m_text m)) ms').
Proof.
  unfold parse_junit_dir_with_digest.
  destruct (set_loop et_fromstring set_start (py_sort entry_leb entries)) as [st|] eqn:El; [|done].
  destruct (ss_seen st) eqn:Es; [|done]. intros [= <- <-].
  apply set_loop_ok in El as (ms & Hf & Hc & Hb & Hn & Hnil & Hcons).
  assert (Hne : ms <> []) by (intros ->; rewrite (Hnil eq_refl) in Es; done).
  exists ms. split; [done|]. split; [done|].
  destruct (Hcons Hne) as (_ & Hfl & _). rewrite Hn in Hfl. split; [exact Hfl|].
  assert (Hcs : ss_counts st = sum_counts ms).
  { rewrite Hc. unfold add_counts. cbn [ss_counts set_start jc_passed jc_total jc_failures jc_errors].
    by destruct (sum_counts ms). }
  split; [exact Hcs|]. split.
  { rewrite Hcs. clear -Hf. unfold coherent, sum_counts. cbn [jc_passed jc_total jc_failures jc_errors].
    induction Hf as [|e m es ms Hm Hf IH]; [done|]. cbn [sumZ fold_right].
    destruct Hm as (_ & _ & _ & text & _ & _ & Hp). apply parse_coherent in Hp.
    unfold coherent, sumZ in *. lia. }
  split; [by rewrite Hb|]. intros ms' Hs Hs' Heq. apply app_inv_head in Heq. by apply frames_inj.
Qed.
End Properties.

Lemma grade_passed_iff rc j re :
  g_passed (grade_repo_run rc j re) = true <->
  rc = 0 /\ match j with
            | Some j => 0 < jc_total j /\ jc_failures j = 0 /\ jc_errors j = 0
            | None => re = false
            end.
Proof.
  unfold grade_repo_run. destruct j as [j|].
  - destruct (rc =? 0) eqn:Er; cbn [andb];
      [destruct (0 <? jc_total j) eqn:Et; destruct (jc_failures j =? 0) eqn:Ef;
       destruct (jc_errors j =? 0) eqn:Ee; cbn [andb]|];
      repeat case_if; simpl; rewrite ?Z.eqb_eq, ?Z.eqb_neq, ?Z.ltb_lt, ?Z.ltb_ge in *;
      split; try done; lia.
  - destruct re; simpl; [naive_solver|]. destruct (rc =? 0) eqn:Er; simpl.
    + apply Z.eqb_eq in Er. naive_solver.
    + apply Z.eqb_neq in Er. destruct (rc =? 1); naive_solver.
Qed.

Lemma detect_tamper_iff rc j re :
  detect_tamper rc (Some j) re = true <->
  (0 < jc_total j /\ jc_failures j = 0 /\ jc_errors j = 0 /\ rc <> 0) \/
  ((0 < jc_failures j \/ 0 < jc_errors j) /\ rc = 0).
Proof.
  unfold detect_tamper.
  destruct (rc =? 0) eqn:Er; destruct (0 <? jc_total j) eqn:Et; destruct (jc_failures j =? 0) eqn:Ef;
    destruct (jc_errors j =? 0) eqn:Ee; destruct (0 <? jc_failures j) eqn:Egf;
    destruct (0 <? jc_errors j) eqn:Ege; cbn [andb orb negb];
    rewrite ?Z.eqb_eq, ?Z.eqb_neq, ?Z.ltb_lt, ?Z.ltb_ge in *; split; (done || lia || (intros; lia) || idtac).
Qed.

(** a run graded against a coherent report with at least one executed test
    passes exactly when the exit code is 0 and the report is clean, and is
    flagged as tampered exactly when the exit code and the report disagree about
    success; a passing run is never flagged, all its tests passed, and the
    graded counts are always an ordered pair. *)
Theorem graded_run_sound rc j re :
  coherent j -> 0 < jc_total j ->
  let clean := (jc_failures j =? 0) && (jc_errors j =? 0) in
  g_passed (grade_repo_run rc (Some j) re) = ((rc =? 0) && clean) /\
  detect_tamper rc (Some j) re = negb (eqb (rc =? 0) clean) /\
  (g_passed (grade_repo_run rc (Some j) re) = true ->
     g_tests_passed (grade_repo_run rc (Some j) re) = g_tests_total (grade_repo_run rc (Some j) re) /\
     0 < g_tests_total (grade_repo_run rc (Some j) re) /\
     detect_tamper rc (Some j) re = false) /\
  0 <= g_tests_passed (grade_repo_run rc (Some j) re) <= g_tests_total (grade_repo_run rc (Some j) re).
Proof.
  intros (Hp & Hf & He & Hsum) Ht clean.
  assert (Hg : g_passed (grade_repo_run rc (Some j) re) = ((rc =? 0) && clean)).
  { apply eq_true_iff_eq. rewrite grade_passed_iff. unfold clean. rewrite !andb_true_iff, !Z.eqb_eq. naive_solver. }
  assert (Hd : detect_tamper rc (Some j) re = negb (eqb (rc =? 0) clean)).
  { apply eq_true_iff_eq. rewrite detect_tamper_iff. unfold clean.
    destruct (Z.eqb_spec rc 0), (Z.eqb_spec (jc_failures j) 0), (Z.eqb_spec (jc_errors j) 0);
      cbn [andb eqb negb]; split; (done || lia || (intros; lia) || idtac). }
  assert (Hc : g_tests_passed (grade_repo_run rc (Some j) re) = jc_passed j /\
               g_tests_total (grade_repo_run rc (Some j) re) = jc_total j).
  { unfold grade_repo_run. repeat case_if; done. }
  destruct Hc as [-> ->]. split; [done|]. split; [done|]. split; [|lia].
  intros Hpass. rewrite Hg in Hpass. apply andb_true_iff in Hpass as [Hr Hcl].
  rewrite Hd, Hr, Hcl. unfold clean in Hcl. apply andb_true_iff in Hcl as [?%Z.eqb_eq ?%Z.eqb_eq].
  repeat split; lia.
Qed.

(** ** Concrete reports *)

Definition el (tag : string) (attrs : list (string * string)) (l : list element) : element :=
  Elem (Some (u tag)) (map (fun kv => (u (fst kv), u (snd kv))) attrs) l.

(** Two suites below a root that repeats their totals, a namespaced one and a
    leaf suite with declared counters. *)
Definition sample_report : element :=
  el "testsuites" [("tests", "6"); ("failures", "1")]
    [el "testsuite" [("tests", "2"); ("failures", "1")]
       [el "testcase" [] []; el "testcase" [] [el "failure" [] []]];
     el "{urn:x}testsuite" [("tests", "4"); ("skipped", "1")] []].

Example sample_counts :
  _count_testcases sample_report =
  Some {| jc_passed := 4; jc_total := 5; jc_failures := 1; jc_errors := 0 |}.
Proof. vm_compute. reflexivity. Qed.

Example contradictory_counts :
  map _count_testcases
    [el "testsuite" [("tests", "3")] [el "testcase" [] []];
     el "testsuite" [] [el "testcase" [] [el "skipped" [] []; el "failure" [] []]];
     el "testsuite" [("tests", "-1")] []; el "report" [] [el "testcase" [] []]]
  = [None; None; None; None].
Proof. vm_compute. reflexivity. Qed.

Definition sample_parser (text : str) : option element :=
  if text =s? u "<report>" then Some sample_report else None.

Lemma junit_counts_are_evidence_witness :
  exists root, sample_parser (u "<report>") = Some root /\ evidence root <> [].
Proof.
  destruct (junit_counts_are_evidence sample_parser (u "<report>")
              {| jc_passed := 4; jc_total := 5; jc_failures := 1; jc_errors := 0 |})
    as (root & H1 & _ & H2 & _); [vm_compute; reflexivity|].
  exists root. split; [exact H1|exact H2].
Defined.

Definition sample_dir : list dir_entry :=
  [{| de_name := u "B.XML"; de_regular := Some true; de_size := 8; de_text := Some (u "<report>") |};
   {| de_name := u "a.xml"; de_regular := Some true; de_size := 8; de_text := Some (u "<report>") |};
   {| de_name := u "notes.txt"; de_regular := Some false; de_size := 1; de_text := None |}].

Lemma report_set_complete_witness :
  exists c h ms,
    @parse_junit_dir_with_digest ascii_unicode sample_parser (Some sample_dir) = Some (c, h) /\
    ms <> [] /\ c = sum_counts ms.
Proof.
  destruct (@parse_junit_dir_with_digest ascii_unicode sample_parser (Some sample_dir)) as [[c h]|] eqn:E;
    [|vm_compute in E; discriminate E].
  destruct (@report_set_complete ascii_unicode sample_parser sample_dir c h E)
    as (ms & Hne & _ & _ & Hc & _).
  exists c, h, ms. split; [reflexivity|]. split; [exact Hne|exact Hc].
Defined.

Lemma graded_run_sound_witness :
  detect_tamper 0 (Some {| jc_passed := 4; jc_total := 5; jc_failures := 1; jc_errors := 0 |}) true = true.
Proof.
  destruct (graded_run_sound 0 {| jc_passed := 4; jc_total := 5; jc_failures := 1; jc_errors := 0 |} true)
    as (_ & H & _); [unfold coherent; simpl; lia|simpl; lia|].
  rewrite H. reflexivity.
Defined.
