(* ===== verification/RepoPhase.v ===== *)
(** Repository-suite and verifier-pack phases (domain/verification.py,
    verifiers/repo_phase_contracts.py): the interpretation of completed runs, and
    the composition of the repository result with the mandatory pack. *)
From S2P Require Export JUnit.
Local Open Scope Z_scope.

Record CompletedRunEvidence := {
  ev_returncode : Z;
  ev_junit : option JUnitCounts;
  ev_report_expected : bool;
  ev_stdout : str;
  ev_stderr : str;
  ev_junit_text : str;
  ev_junit_sha256 : option str;
  ev_junit_digest_format : option str
}.

Record RepoPhaseResult := {
  rp_passed : bool;
  rp_score : float;
  rp_tests_passed : Z;
  rp_tests_total : Z;
  rp_tampered : bool;
  rp_output : str;
  rp_verdict_source : option str;
  rp_outcome : option str;
  rp_returncode : Z;
  rp_junit_text : str;
  rp_junit_sha256 : option str;
  rp_junit_digest_format : option str
}.

Record PackPhaseResult := {
  pp_passed : bool;
  pp_score : float;
  pp_tests_passed : Z;
  pp_tests_total : Z;
  pp_tampered : bool;
  pp_output_suffix : str;
  pp_verdict_source : option str;
  pp_outcome : option str;
  pp_junit_text : str;
  pp_junit_sha256 : option str;
  pp_junit_digest_format : option str
}.

Record CompositePhaseResult := {
  cp_passed : bool;
  cp_score : float;
  cp_tests_passed : Z;
  cp_tests_total : Z;
  cp_tampered : bool;
  cp_output : str;
  cp_verdict_source : option str;
  cp_outcome : option str;
  cp_returncode : Z;
  cp_junit_sha256 : option str;
  cp_junit_digest_format : option str
}.

Definition newline : str := [10%N].

Definition rc_zero_or_one (returncode : Z) : bool := (returncode =? 0) || (returncode =? 1).

Definition clean_verdict_source (returncode : Z) (junit : option JUnitCounts) (report_expected : bool)
  : option str :=
  match junit with
  | Some j => if (0 <? jc_total j) && rc_zero_or_one returncode then Some (u "junit+exit") else None
  | None => if negb report_expected && rc_zero_or_one returncode then Some (u "exit") else None
  end.

Definition evaluate_repo_phase (evidence : CompletedRunEvidence) (strict_harness : bool)
  : RepoPhaseResult :=
  let rc := ev_returncode evidence in
  let g := grade_repo_run rc (ev_junit evidence) (ev_report_expected evidence) in
  let tampered := detect_tamper rc (ev_junit evidence) (ev_report_expected evidence) in
  let output := ev_stdout evidence ++ newline ++ ev_stderr evidence in
  let source := clean_verdict_source rc (ev_junit evidence) (ev_report_expected evidence) in
  let rejected := strict_harness && match ev_junit evidence with
                                    | None => true
                                    | Some j => jc_total j <=? 0
                                    end in
  let verdict_source := if rejected then None else source in
  {| rp_passed := if rejected then false else g_passed g;
     rp_score := if rejected then dec 0 1 else g_score g;
     rp_tests_passed := g_tests_passed g;
     rp_tests_total := g_tests_total g;
     rp_tampered := tampered;
     rp_output := if rejected
                  then output ++ newline ++ u "strict_harness requires a non-empty structured JUnit test verdict; exit-only/zero-test success was rejected"
                  else output;
     rp_verdict_source := verdict_source;
     rp_outcome := match verdict_source with Some _ => None | None => Some (u "no_test_verdict") end;
     rp_returncode := rc;
     rp_junit_text := ev_junit_text evidence;
     rp_junit_sha256 := ev_junit_sha256 evidence;
     rp_junit_digest_format := ev_junit_digest_format evidence |}.

Definition evaluate_pack_phase (evidence : CompletedRunEvidence) : PackPhaseResult :=
  let rc := ev_returncode evidence in
  let g := grade_repo_run rc (ev_junit evidence) (ev_report_expected evidence) in
  let verdict_source := clean_verdict_source rc (ev_junit evidence) (ev_report_expected evidence) in
  let '(passed, score, outcome, diagnostic) :=
    if g_tests_total g =? 0 then
      match ev_junit evidence with
      | Some _ => (false, dec 0 1, Some (u "pack_no_tests"),
                   newline ++ u "verifier pack collected zero tests")
      | None => (false, dec 0 1, Some (u "pack_no_verdict"),
                 newline ++ u "verifier pack produced no valid JUnit verdict")
      end
    else match verdict_source with
         | None => (false, dec 0 1, Some (u "pack_no_verdict"),
                    newline ++ u "verifier pack produced no clean pass/fail verdict")
         | Some _ => (g_passed g, g_score g, None, [])
         end in
  {| pp_passed := passed;
     pp_score := score;
     pp_tests_passed := g_tests_passed g;
     pp_tests_total := g_tests_total g;
     pp_tampered := detect_tamper rc (ev_junit evidence) (ev_report_expected evidence);
     pp_output_suffix := diagnostic ++ newline ++ ev_stdout evidence ++ newline ++ ev_stderr evidence;
     pp_verdict_source := verdict_source;
     pp_outcome := outcome;
     pp_junit_text := ev_junit_text evidence;
     pp_junit_sha256 := ev_junit_sha256 evidence;
     pp_junit_digest_format := ev_junit_digest_format evidence |}.

Definition opt_str_in (x : option str) (l : list str) : bool :=
  match x with Some s => str_in s l | None => false end.

(** [hashlib.sha256(s.encode("utf-8")).hexdigest()]; [None] where the text has a
    code point UTF-8 cannot encode and [encode] raises. *)
Definition sha256_text (s : str) : option str := sha256_hex <$> utf8 s.

(** The digest of a composite and its format. *)
Definition composite_digest (repo : RepoPhaseResult) (pack : PackPhaseResult)
  : option (option str * option str) :=
  match rp_junit_digest_format repo with
  | Some format =>
      if str_in format [JUNIT_XML_DIGEST_FORMAT; JUNIT_REPORT_SET_DIGEST_FORMAT] then
        match rp_junit_sha256 repo, pp_junit_sha256 pack with
        | Some repo_sha256, Some pack_sha256 =>
            let identity :=
              JUNIT_COMPOSITE_DIGEST_FORMAT ++ [0%N] ++ u "repo" ++ [0%N] ++ format ++ [0%N]
              ++ repo_sha256 ++ [0%N] ++ u "verifier-pack" ++ [0%N] ++ JUNIT_XML_DIGEST_FORMAT
              ++ [0%N] ++ pack_sha256 in
            (fun h => (Some h, Some JUNIT_COMPOSITE_DIGEST_FORMAT)) <$> sha256_text identity
        | _, _ => Some (None, None)
        end
      else
        (fun h => (Some h, Some (u "EVOGUARD_JUNIT_COMPOSITE_V1")))
          <$> sha256_text (u "repo" ++ [0%N] ++ rp_junit_text repo ++ [0%N] ++ u "verifier-pack"
                           ++ [0%N] ++ pp_junit_text pack)
  | None =>
      (fun h => (Some h, Some (u "EVOGUARD_JUNIT_COMPOSITE_V1")))
        <$> sha256_text (u "repo" ++ [0%N] ++ rp_junit_text repo ++ [0%N] ++ u "verifier-pack"
                         ++ [0%N] ++ pp_junit_text pack)
  end.

Definition compose_repo_and_pack (repo : RepoPhaseResult) (pack : PackPhaseResult)
  : option CompositePhaseResult :=
  (fun '(junit_sha256, junit_digest_format) =>
    {| cp_passed := rp_passed repo && pp_passed pack;
       cp_score := fmin (rp_score repo) (pp_score pack);
       cp_tests_passed := rp_tests_passed repo + pp_tests_passed pack;
       cp_tests_total := rp_tests_total repo + pp_tests_total pack;
       cp_tampered := rp_tampered repo || pp_tampered pack;
       cp_output := rp_output repo ++ pp_output_suffix pack;
       cp_verdict_source := match rp_verdict_source repo, pp_verdict_source pack with
                            | Some _, Some _ => Some (u "composite:repo+verifier-pack")
                            | _, _ => None
                            end;
       cp_outcome := match pp_outcome pack with Some o => Some o | None => rp_outcome repo end;
       cp_returncode := rp_returncode repo;
       cp_junit_sha256 := junit_sha256;
       cp_junit_digest_format := junit_digest_format |}) <$> composite_digest repo pack.

(** ** Phase results *)

(** The evidence of a completed run is well formed: its report, if any, is
    coherent. *)
Definition run_coherent (e : CompletedRunEvidence) : Prop :=
  match ev_junit e with Some j => coherent j | None => True end.

Lemma grade_counts rc j re :
  match j with Some j => coherent j | None => True end ->
  0 <= g_tests_passed (grade_repo_run rc j re) <= g_tests_total (grade_repo_run rc j re).
Proof.
  unfold grade_repo_run. destruct j as [j|]; [unfold coherent; intros Hc; repeat case_if; simpl; lia|].
  intros _. repeat case_if; simpl; lia.
Qed.

Lemma pass_source rc j re :
  g_passed (grade_repo_run rc j re) = true ->
  clean_verdict_source rc j re = Some (match j with Some _ => u "junit+exit" | None => u "exit" end).
Proof.
  intros [-> Hj]%grade_passed_iff. unfold clean_verdict_source. destruct j as [j|].
  - destruct Hj as [Ht%Z.ltb_lt _]. by rewrite Ht.
  - by rewrite Hj.
Qed.

Lemma pass_not_tampered rc j re :
  g_passed (grade_repo_run rc j re) = true -> detect_tamper rc j re = false.
Proof.
  intros [-> Hj]%grade_passed_iff. destruct j as [j|]; [|done].
  apply not_true_iff_false. rewrite detect_tamper_iff. lia.
Qed.

(** What a passing phase proves. *)
Lemma repo_phase_passed e strict :
  run_coherent e -> rp_passed (evaluate_repo_phase e strict) = true ->
  ev_returncode e = 0 /\ rp_tampered (evaluate_repo_phase e strict) = false /\
  rp_outcome (evaluate_repo_phase e strict) = None /\
  rp_tests_passed (evaluate_repo_phase e strict) = rp_tests_total (evaluate_repo_phase e strict) /\
  match ev_junit e with
  | Some j => rp_verdict_source (evaluate_repo_phase e strict) = Some (u "junit+exit")
              /\ 0 < rp_tests_total (evaluate_repo_phase e strict)
  | None => strict = false /\ ev_report_expected e = false /\
            rp_verdict_source (evaluate_repo_phase e strict) = Some (u "exit") /\
            rp_tests_total (evaluate_repo_phase e strict) = 0
  end.
Proof.
  intros Hco. unfold evaluate_repo_phase. cbv zeta. simpl.
  destruct (strict && _) eqn:Er; [done|]. intros Hp. pose proof Hp as [Hrc Hj]%grade_passed_iff.
  rewrite (pass_source _ _ _ Hp), (pass_not_tampered _ _ _ Hp).
  split; [done|]. split; [done|]. split; [done|]. unfold run_coherent, coherent in *.
  unfold grade_repo_run. rewrite Hrc. destruct (ev_junit e) as [j|].
  - destruct Hj as (Ht & Hf & He). rewrite Hf, He. apply Z.ltb_lt in Ht as Ht'. rewrite Ht'. simpl.
    split; [lia|]. by split.
  - rewrite Hj. simpl. repeat split; try done. by destruct strict.
Qed.

Lemma pack_phase_passed e :
  run_coherent e -> pp_passed (evaluate_pack_phase e) = true ->
  ev_returncode e = 0 /\ pp_tampered (evaluate_pack_phase e) = false /\
  pp_outcome (evaluate_pack_phase e) = None /\
  pp_verdict_source (evaluate_pack_phase e) = Some (u "junit+exit") /\
  pp_tests_passed (evaluate_pack_phase e) = pp_tests_total (evaluate_pack_phase e) /\
  0 < pp_tests_total (evaluate_pack_phase e).
Proof.
  intros Hco. unfold evaluate_pack_phase. cbv zeta.
  destruct (g_tests_total _ =? 0) eqn:Et; [by destruct (ev_junit e)|].
  destruct (clean_verdict_source _ _ _) as [src|] eqn:Es; [|done]. simpl.
  intros Hp. pose proof Hp as [Hrc Hj]%grade_passed_iff. rewrite (pass_source _ _ _ Hp) in Es.
  rewrite (pass_not_tampered _ _ _ Hp). injection Es as <-.
  unfold run_coherent, coherent in *. unfold grade_repo_run in *. rewrite Hrc in *.
  destruct (ev_junit e) as [j|].
  - destruct Hj as (Ht & Hf & He). rewrite Hf, He in *. apply Z.ltb_lt in Ht as Ht'.
    rewrite Ht' in *. simpl in *. repeat split; try done; lia.
  - rewrite Hj in Et. done.
Qed.

(** a strict repository phase accepts structured evidence only, and no phase
    can pass without a named clean source.  A passing phase exited with code 0,
    is not tampered, passed all its tests, and names [junit+exit] with at least
    one test or, only when the judge is not strict and expected no report,
    [exit] with no tests.  The counts of any phase are an ordered pair. *)
Theorem repo_phase_sound e strict :
  run_coherent e ->
  let r := evaluate_repo_phase e strict in
  0 <= rp_tests_passed r <= rp_tests_total r /\
  (rp_verdict_source r = None <-> rp_outcome r = Some (u "no_test_verdict")) /\
  (rp_passed r = true ->
     rp_returncode r = 0 /\ rp_tampered r = false /\ rp_outcome r = None /\
     rp_tests_passed r = rp_tests_total r /\
     ((rp_verdict_source r = Some (u "junit+exit") /\ 0 < rp_tests_total r) \/
      (rp_verdict_source r = Some (u "exit") /\ rp_tests_total r = 0 /\
       strict = false /\ ev_report_expected e = false))).
Proof.
  intros Hco r. split; [by apply grade_counts|]. split.
  - unfold r, evaluate_repo_phase. cbv zeta. cbn [rp_verdict_source rp_outcome].
    match goal with |- ?x = None <-> _ => destruct x end; split; done.
  - intros Hp. destruct (repo_phase_passed e strict Hco Hp) as (Hrc & Ht & Ho & Hc & Hj).
    split; [done|]. split; [done|]. split; [done|]. split; [done|].
    destruct (ev_junit e); naive_solver.
Qed.

(** composing the repository phase with a mandatory pack never strengthens
    either: the composite passes exactly when both phases pass, its counts are
    the sums, it is tampered when either is, it has a source only when both
    have one, and its outcome is the pack's when the pack has one.  A passing
    composite ran at least one pack test and passed everything. *)
Theorem composite_weakest_channel re pe strict c :
  run_coherent re -> run_coherent pe ->
  compose_repo_and_pack (evaluate_repo_phase re strict) (evaluate_pack_phase pe) = Some c ->
  let r := evaluate_repo_phase re strict in
  let p := evaluate_pack_phase pe in
  (cp_passed c = true <-> rp_passed r = true /\ pp_passed p = true) /\
  cp_tests_passed c = rp_tests_passed r + pp_tests_passed p /\
  cp_tests_total c = rp_tests_total r + pp_tests_total p /\
  cp_tampered c = rp_tampered r || pp_tampered p /\
  (cp_verdict_source c <> None <-> rp_verdict_source r <> None /\ pp_verdict_source p <> None) /\
  (cp_passed c = true ->
     cp_verdict_source c = Some (u "composite:repo+verifier-pack") /\ cp_tampered c = false /\
     cp_outcome c = None /\ cp_returncode c = 0 /\ 0 < pp_tests_total p /\
     cp_tests_passed c = cp_tests_total c).
Proof.
  intros Hr Hp. unfold compose_repo_and_pack.
  destruct (composite_digest _ _) as [[h f]|]; [|done]. intros Hc. apply (inj Some) in Hc as <-. cbv zeta.
  set (r := evaluate_repo_phase re strict) in *. set (p := evaluate_pack_phase pe) in *.
  cbn [cp_passed cp_tests_passed cp_tests_total cp_tampered cp_verdict_source cp_outcome cp_returncode].
  split; [by rewrite andb_true_iff|]. split; [done|]. split; [done|]. split; [done|]. split.
  { destruct (rp_verdict_source r), (pp_verdict_source p); intuition congruence. }
  intros [H1 H2]%andb_true_iff.
  destruct (repo_phase_passed re strict Hr H1) as (E1 & E2 & E3 & E4 & E5). fold r in E2, E3, E4, E5.
  destruct (pack_phase_passed pe Hp H2) as (P1 & P2 & P3 & P4 & P5 & P6). fold p in P2, P3, P4, P5, P6.
  assert (Hrc : rp_returncode r = 0) by done.
  assert (Hs : exists s, rp_verdict_source r = Some s)
    by (destruct (ev_junit re); naive_solver).
  destruct Hs as [s ->]. rewrite P4, E2, P2, P3, E3, E4, P5. repeat split; done.
Qed.

(** ** Concrete phases *)

Definition sample_run (rc : Z) (j : option JUnitCounts) : CompletedRunEvidence :=
  {| ev_returncode := rc; ev_junit := j; ev_report_expected := true;
     ev_stdout := u "out"; ev_stderr := []; ev_junit_text := u "<report>";
     ev_junit_sha256 := Some (u "ab"); ev_junit_digest_format := Some JUNIT_XML_DIGEST_FORMAT |}.

Definition three_passed : JUnitCounts := {| jc_passed := 3; jc_total := 3; jc_failures := 0; jc_errors := 0 |}.

Lemma three_passed_coherent rc : run_coherent (sample_run rc (Some three_passed)).
Proof. unfold run_coherent, coherent; simpl; lia. Qed.

Lemma repo_phase_sound_witness :
  rp_verdict_source (evaluate_repo_phase (sample_run 0 None) true) = None /\
  rp_verdict_source (evaluate_repo_phase (sample_run 0 (Some three_passed)) true) = Some (u "junit+exit").
Proof.
  split.
  - apply (proj2 (proj1 (proj2 (repo_phase_sound (sample_run 0 None) true I)))). reflexivity.
  - destruct (repo_phase_sound (sample_run 0 (Some three_passed)) true (three_passed_coherent 0)) as (_ & _ & H).
    destruct (H eq_refl) as (_ & _ & _ & _ & [[H' _]|[H' _]]); [exact H'|discriminate H'].
Defined.

Lemma composite_weakest_channel_witness :
  exists c, compose_repo_and_pack (evaluate_repo_phase (sample_run 0 (Some three_passed)) true)
                                  (evaluate_pack_phase (sample_run 1 (Some three_passed))) = Some c
            /\ cp_tampered c = true /\ cp_tests_total c = 6.
Proof.
  destruct (compose_repo_and_pack (evaluate_repo_phase (sample_run 0 (Some three_passed)) true)
              (evaluate_pack_phase (sample_run 1 (Some three_passed)))) as [c|] eqn:E;
    [|vm_compute in E; discriminate E].
  destruct (composite_weakest_channel _ _ true c (three_passed_coherent 0) (three_passed_coherent 1) E)
    as (_ & _ & H1 & H2 & _).
  exists c. split; [reflexivity|]. split; [rewrite H2; reflexivity|rewrite H1; reflexivity].
Defined.
