(* ===== verification/RecordReport.v ===== *)
(** The record verifier's report (verifiers/record_report.py): an append-only
    list of checks and the envelope rendered from it, and the exceptions and
    messages its checks share.

    A check keeps its identifier and status; the human-readable message of a
    check is not modelled.  The error lists of the type projections, whose
    emptiness decides a check, keep their texts. *)
From S2P Require Export PyVal.
Local Open Scope Z_scope.

(** A message: literal text and interpolated values of an f-string. *)
Inductive piece := T (s : str) | I (v : value).
Definition msg : Type := list piece.
Definition text (s : string) : msg := [T (u s)].
Definition err (b : bool) (s : string) : list msg := if b then [text s] else [].

(** The exceptions the verifier can raise on a JSON value; its public wrapper
    catches them. *)
Inductive exn :=
| TypeError_unhashable     (** set membership of a list or a dict *)
| ValueError_int_digits    (** [int] of a string over the digit limit *)
| OverflowError_int_float  (** an integer too large for a float *).

Inductive status := pass_ | fail | skip.

#[export] Instance status_eq_dec : EqDecision status.
Proof. solve_decision. Defined.

Record check := { check_id : str; check_status : status }.

(** The items a step appends to [RecordChecks.items]. *)
Abbreviation checks := (list check).

Definition c_pass (id : string) : checks := [{| check_id := u id; check_status := pass_ |}].
Definition c_fail (id : string) : checks := [{| check_id := u id; check_status := fail |}].
Definition c_skip (id : string) : checks := [{| check_id := u id; check_status := skip |}].
Definition c_expect (id : string) (condition : bool) : checks :=
  if condition then c_pass id else c_fail id.

Definition count_status (s : status) (items : checks) : Z :=
  sumZ (fun c => if decide (check_status c = s) then 1 else 0) items.

Definition RECORD_VERIFIER_VERSION : str := "1.0".
Definition SUPPORTED_SCHEMA_VERSIONS : list str := us ["1.11"; "1.12"].

Record report := {
  r_record_verifier : str;
  r_record_verifier_version : str;
  r_scope : str;
  r_signature_checked : bool;
  r_supported_schema_versions : list str;
  r_record_schema_version : option str;
  r_ok : bool;
  r_passed : Z;
  r_failed : Z;
  r_skipped : Z;
  r_total : Z;
  r_checks : checks
}.

Definition render_report (items : checks) (record_schema_version : value) : report := {|
  r_record_verifier := u "evoguard";
  r_record_verifier_version := RECORD_VERIFIER_VERSION;
  r_scope := u "semantic_consistency_only";
  r_signature_checked := false;
  r_supported_schema_versions := sort_str SUPPORTED_SCHEMA_VERSIONS;
  r_record_schema_version :=
    match record_schema_version with VStr s => Some s | _ => None end;
  r_ok := count_status fail items =? 0;
  r_passed := count_status pass_ items;
  r_failed := count_status fail items;
  r_skipped := count_status skip items;
  r_total := Z.of_nat (length items);
  r_checks := items
|}.

(** ** Properties of the envelope *)

Lemma count_status_nonneg s items : 0 <= count_status s items.
Proof. apply sumZ_nonneg. intros c _. by destruct (decide _). Qed.

Lemma count_status_zero s items :
  count_status s items = 0 <-> forall c, In c items -> check_status c <> s.
Proof.
  unfold count_status. induction items as [|c l IH]; simpl; [naive_solver|].
  pose proof (count_status_nonneg s l) as Hl. unfold count_status in Hl.
  destruct (decide (check_status c = s)) as [Hs|Hs].
  - split; [lia|]. intros Hc. destruct (Hc c (or_introl eq_refl) Hs).
  - rewrite Z.add_0_l, IH. naive_solver.
Qed.

Lemma render_ok items sv :
  r_ok (render_report items sv) = true <-> forall c, In c items -> check_status c <> fail.
Proof. simpl. by rewrite Z.eqb_eq, count_status_zero. Qed.

Lemma counts_partition items :
  count_status pass_ items + count_status fail items + count_status skip items
  = Z.of_nat (length items).
Proof.
  unfold count_status. induction items as [|c l IH]; [done|]. simpl length.
  rewrite Nat2Z.inj_succ, <- IH. simpl. destruct (check_status c); simpl; lia.
Qed.

(** No check of the list failed. *)
Definition no_fail (items : checks) : Prop := forall c, In c items -> check_status c <> fail.

Lemma no_fail_nil : no_fail [].
Proof. by intros c []. Qed.

Lemma no_fail_app l l' : no_fail (l ++ l') <-> no_fail l /\ no_fail l'.
Proof. unfold no_fail. setoid_rewrite in_app_iff. naive_solver. Qed.

Lemma no_fail_expect id b : no_fail (c_expect id b) <-> b = true.
Proof.
  unfold no_fail, c_expect. destruct b; simpl; split; try done.
  - by intros _ c [<-|[]].
  - intros H. specialize (H _ (or_introl eq_refl)). done.
Qed.

Lemma no_fail_fail id : no_fail (c_fail id) <-> False.
Proof. split; [|done]. intros H. by specialize (H _ (or_introl eq_refl)). Qed.

Lemma no_fail_skip id : no_fail (c_skip id) <-> True.
Proof. split; [done|]. by intros _ c [<-|[]]. Qed.

Lemma no_fail_pass id : no_fail (c_pass id) <-> True.
Proof. split; [done|]. by intros _ c [<-|[]]. Qed.

Create Rewrite HintDb nofail.
#[export] Hint Rewrite no_fail_app no_fail_expect no_fail_fail no_fail_skip no_fail_pass : nofail.
