(* ===== verification/RecordPolicy.v ===== *)
(** The record verifier's policy checks: the operating profile re-derived from
    raw policy data (verifiers/record_policy.py), the ordered type and shape
    errors of an effective policy (verifiers/record_policy_types.py), and their
    composition under the contract of a schema version
    (record_verifier._policy_type_errors, _policy_sha256). *)
From S2P Require Export RecordPaths Request Verdict RecordReport.
Local Open Scope Z_scope.

Definition _PROFILES : list str := us ["local"; "protected"; "hostile"].

Definition hashable (v : value) : bool := negb (is_list v || is_dict v).

Definition check_operating_profile (policy : dict) : result exn (list str) :=
  let get k := dget policy (u k) in
  match get "operating_profile" with
  | VStr profile =>
      if negb (str_in profile _PROFILES) then Ok []
      else if profile =s? u "local" then Ok []
      else
        guard* negb ((profile =s? u "protected") && negb (hashable (get "isolation")))
          else TypeError_unhashable in
        Ok (note (negb (is_true_v (get "blackbox"))) "requires blackbox=true"
        ++ note (negb (is_true_v (get "blackbox_only"))) "requires blackbox_only=true"
        ++ note (negb (is_none (get "setup_command")))
             "forbids setup_command in black-box-only mode"
        ++ note (negb (is_false_v (get "trust_setup_on_host")))
             "requires trust_setup_on_host=false"
        ++ note (negb (is_true_v (get "verifier_pack_required"))) "requires a verifier_pack"
        ++ note (negb match get "expect_verifier_pack_sha256" with
                      | VStr s => hex64_lower s
                      | _ => false
                      end) "requires expect_verifier_pack_sha256"
        ++ note (negb (py_eq (get "require_report_integrity") (VStr "external_process_isolated")))
             "requires require_report_integrity='external_process_isolated'"
        ++ note (negb (py_eq (get "docker_network") (VStr "none")))
             "requires docker_network='none'"
        ++ note (negb (is_nonempty_str (get "docker_image"))) "requires docker_image"
        ++ (let isolation := get "isolation" in
            let isolation_floor := get "require_candidate_isolation" in
            if profile =s? u "protected" then
              note (negb (known_string isolation (us ["docker"; "gvisor"])))
                "requires isolation='docker' or 'gvisor'"
              ++ note (negb (py_eq isolation_floor isolation))
                   "requires require_candidate_isolation to match isolation"
            else
              note (negb (py_eq isolation (VStr "gvisor"))) "requires isolation='gvisor'"
              ++ note (negb (py_eq isolation_floor (VStr "gvisor")))
                   "requires require_candidate_isolation='gvisor'"
              ++ note (negb match get "mem_limit_mb" with VInt z => (0 <? z)%Z | _ => false end)
                   "requires a non-zero mem_limit"))
  | _ => Ok []
  end.

(** ** Type and shape errors *)

Definition _MODES : list str := us ["repo"; "blackbox"].
Definition _REQUESTED_ISOLATIONS : list str := us ["subprocess"; "docker"; "gvisor"].
Definition _REPORT_INTEGRITIES : list str :=
  us ["same_process_candidate_writable"; "external_process_isolated"].
Definition _BOOLEAN_FIELDS : list str :=
  us ["trust_setup_on_host"; "allow_new_tests"; "verifier_pack_required"; "blackbox";
      "blackbox_only"; "baseline_evidence"; "require_demonstrated_fix"].

Definition _schema_errors (policy : dict) (schema_version : value)
    (policy_keys allowed_policy_keys : list str) : list msg :=
  let missing := missing_keys policy_keys policy in
  let extra := sort_str (List.filter (fun k => negb (str_in k allowed_policy_keys))
                           (dict_str_keys policy)) in
  match missing with
  | [] => []
  | _ => [[T (u "missing keys: " ++ py_join (u ", ") missing)]]
  end
  ++ match extra with
     | [] => []
     | _ => [[T (u "unexpected schema-"); I schema_version;
              T (u " keys: " ++ py_join (u ", ") extra)]]
     end
  ++ err (has_non_str_key policy) "all policy keys must be strings".

Definition _execution_errors (policy : dict) : list msg :=
  let get k := dget policy (u k) in
  err (negb (known_string (get "mode") _MODES)) "mode must be repo or blackbox"
  ++ err (negb (known_string (get "isolation") _REQUESTED_ISOLATIONS))
       "isolation must be subprocess, docker, or gvisor"
  ++ err (negb (v_is_nullable_string (get "docker_image")))
       "docker_image must be a string or null"
  ++ err (negb (is_str (get "docker_network"))) "docker_network must be a string".

Definition _command_errors (policy : dict) : list msg :=
  let test_command := dget policy (u "test_command") in
  let setup_command := dget policy (u "setup_command") in
  err (negb (py_eq test_command (VStr "default:python -m pytest")
             || (v_is_string_list test_command && truthy test_command)))
    "test_command must be the default marker or a non-empty string array"
  ++ err (negb (is_none setup_command)
          && negb (v_is_string_list setup_command && truthy setup_command))
       "setup_command must be a non-empty string array or null".

Definition _collection_and_boolean_errors (policy : dict) : list msg :=
  flat_map (fun field => if v_is_string_list (dget policy field) then []
                         else [[T (field ++ u " must be an array of strings")]])
    (us ["setup_output_globs"; "protected"; "allow"])
  ++ flat_map (fun field => if is_bool (dget policy field) then []
                            else [[T (field ++ u " must be a boolean")]]) _BOOLEAN_FIELDS
  ++ err (dmem (u "strict_harness") policy && negb (is_bool (dget policy (u "strict_harness"))))
       "strict_harness must be a boolean when present".

Definition _harness_errors (policy : dict) (harness_input_validator : value -> bool)
    (setup_conflict_predicate : str -> list str -> bool) : list msg :=
  match dlookup (u "harness_inputs") policy with
  | None => []
  | Some inputs =>
      if negb (harness_input_validator inputs) then
        [text "harness_inputs must be a non-empty sorted unique array of exact canonical repository-relative paths when present"]
      else
        let setup_globs := dget policy (u "setup_output_globs") in
        if negb (v_is_string_list setup_globs) then []
        else
          match List.filter (fun path => setup_conflict_predicate path (v_strings setup_globs))
                  (v_strings inputs) with
          | [] => []
          | conflicts => [[T (u "setup_output_globs cannot exclude harness_inputs: "
                              ++ py_join (u ", ") conflicts)]]
          end
  end.

Definition _profile_and_limit_errors (policy : dict) (operating_profile_supported : bool)
  : list msg * option str :=
  let get k := dget policy (u k) in
  let valid_profile := operating_profile_supported
                       && known_string (get "operating_profile") _PROFILES in
  (err (operating_profile_supported && dmem (u "operating_profile") policy && negb valid_profile)
     "operating_profile must be local, protected, or hostile when present"
   ++ err (negb (int_at_least 1 (get "timeout"))) "timeout must be a positive integer"
   ++ err (negb (int_at_least 0 (get "mem_limit_mb")))
        "mem_limit_mb must be a non-negative integer",
   match get "operating_profile" with
   | VStr p => if valid_profile then Some p else None
   | _ => None
   end).

Definition coverage_in_range (v : value) : bool :=
  match as_num v with
  | Some n => v_is_number v && num_leb (NInt 0) n && num_leb n (NInt 100)
  | None => false
  end.

Definition _assurance_limit_errors (policy : dict) : list msg :=
  let get k := dget policy (u k) in
  err (negb (is_none (get "expect_verifier_pack_sha256"))
       && negb match get "expect_verifier_pack_sha256" with VStr s => hex64_lower s | _ => false end)
    "expect_verifier_pack_sha256 must be a lowercase SHA-256 or null"
  ++ err (negb (is_none (get "require_report_integrity"))
          && negb (known_string (get "require_report_integrity") _REPORT_INTEGRITIES))
       "require_report_integrity is invalid"
  ++ err (negb (is_none (get "require_candidate_isolation"))
          && negb (known_string (get "require_candidate_isolation") _REQUESTED_ISOLATIONS))
       "require_candidate_isolation is invalid"
  ++ err (negb (is_none (get "min_diff_coverage"))
          && negb (coverage_in_range (get "min_diff_coverage")))
       "min_diff_coverage must be a finite number in 0..100 or null".

Definition _identity_and_semantic_errors (policy : dict) : list msg :=
  let get k := dget policy (u k) in
  flat_map (fun field => if v_is_nullable_string (dget policy field) then []
                         else [[T (field ++ u " must be a string or null")]])
    (us ["policy_id"; "policy_version"])
  ++ match get "blackbox", get "mode" with
     | VBool b, VStr m => err (negb (eqb b (m =s? u "blackbox"))) "mode must agree with blackbox"
     | _, _ => []
     end
  ++ err (is_true_v (get "blackbox_only") && negb (is_true_v (get "blackbox")))
       "blackbox_only requires blackbox"
  ++ err (negb (is_none (get "expect_verifier_pack_sha256"))
          && negb (is_true_v (get "verifier_pack_required")))
       "an expected pack digest requires verifier_pack_required".

Record PolicyTypeProjection := {
  ptp_errors : list msg;
  ptp_operating_profile : option str
}.

Definition project_policy_type_validation (policy : dict) (schema_version : value)
    (policy_keys allowed_policy_keys : list str) (harness_input_validator : value -> bool)
    (setup_conflict_predicate : str -> list str -> bool) : PolicyTypeProjection :=
  let '(profile_errors, operating_profile) :=
    _profile_and_limit_errors policy (str_in (u "operating_profile") allowed_policy_keys) in
  {| ptp_errors :=
       _schema_errors policy schema_version policy_keys allowed_policy_keys
       ++ _execution_errors policy
       ++ _command_errors policy
       ++ _collection_and_boolean_errors policy
       ++ _harness_errors policy harness_input_validator setup_conflict_predicate
       ++ profile_errors
       ++ _assurance_limit_errors policy
       ++ _identity_and_semantic_errors policy;
     ptp_operating_profile := operating_profile |}.

Definition contract_of_value (schema_version : value) : versioned_contract :=
  match schema_version with VStr s => contract_for s | _ => contract_1_11 end.

Section RecordPolicy.
Context `{UnicodeDB}.

Definition _policy_type_errors (policy : dict) (schema_version : value) : result exn (list msg) :=
  let policy_contract := contract_of_value schema_version in
  let projection := project_policy_type_validation policy schema_version
    (vc_policy_keys policy_contract) (vc_allowed_policy_keys policy_contract)
    _is_canonical_harness_input_list _setup_output_hides_harness_input in
  match ptp_operating_profile projection with
  | Some p =>
      let* profile_violations := check_operating_profile policy in
      Ok (ptp_errors projection
          ++ map (fun violation => [T (u "operating_profile '" ++ p ++ u "' " ++ violation)])
               profile_violations)
  | None => Ok (ptp_errors projection)
  end.
End RecordPolicy.

(** [None] when a value has no JSON encoding, a NaN or an infinity included. *)
Definition _policy_sha256 (policy : dict) : option str :=
  (fun s => sha256_hex (ascii_bytes s)) <$> json_dumps false (VDict policy).

(** ** The fields of a payload *)

Lemma payload_fields p :
  let get k := dget (effective_policy_payload p) (u k) in
  get "mode" = VStr (mode p) /\
  get "isolation" = VStr (isolation p) /\
  get "docker_image" = v_opt_str (docker_image p) /\
  get "docker_network" = VStr (docker_network p) /\
  get "test_command" = match test_command p with
                       | Some (c :: l) => v_str_list (c :: l)
                       | _ => VStr DEFAULT_TEST_COMMAND_MARKER
                       end /\
  get "setup_command" = match setup_command p with
                        | Some (c :: l) => v_str_list (c :: l)
                        | _ => VNone
                        end /\
  get "trust_setup_on_host" = VBool (trust_setup_on_host p) /\
  get "setup_output_globs" = v_str_list (setup_output_globs p) /\
  get "protected" = v_str_list (protected p) /\
  get "allow" = v_str_list (allow p) /\
  get "allow_new_tests" = VBool (allow_new_tests p) /\
  get "timeout" = VInt (timeout p) /\
  get "mem_limit_mb" = VInt (mem_limit_mb p) /\
  get "verifier_pack_required" = VBool (verifier_pack_required p) /\
  get "expect_verifier_pack_sha256" = v_opt_str (expect_verifier_pack_sha256 p) /\
  get "blackbox" = VBool (blackbox p) /\
  get "blackbox_only" = VBool (blackbox_only p) /\
  get "require_report_integrity" = v_opt_str (require_report_integrity p) /\
  get "require_candidate_isolation" = v_opt_str (require_candidate_isolation p) /\
  get "min_diff_coverage" = match min_diff_coverage p with
                            | Some f => VFloat f
                            | None => VNone
                            end /\
  get "baseline_evidence" = VBool (baseline_evidence p) /\
  get "require_demonstrated_fix" = VBool (require_demonstrated_fix p) /\
  get "strict_harness" = VBool (strict_harness p) /\
  get "policy_id" = v_opt_str (policy_id p) /\
  get "policy_version" = v_opt_str (policy_version p) /\
  get "operating_profile" = v_opt_str (operating_profile p) /\
  dmem (u "operating_profile") (effective_policy_payload p)
    = match operating_profile p with Some _ => true | None => false end /\
  dlookup (u "harness_inputs") (effective_policy_payload p)
    = match harness_inputs p with [] => None | l => Some (v_str_list l) end.
Proof.
  unfold effective_policy_payload.
  destruct (operating_profile p), (harness_inputs p); repeat split.
Qed.

(** Rewrite every lookup in a payload to the policy's field. *)
Ltac payload p :=
  let H := fresh in
  pose proof (payload_fields p) as H; cbv zeta in H; destruct_and! H;
  repeat match goal with
  | E : dget (effective_policy_payload p) _ = _ |- _ => rewrite ?E; clear E
  | E : dmem _ (effective_policy_payload p) = _ |- _ => rewrite ?E; clear E
  | E : dlookup _ (effective_policy_payload p) = _ |- _ => rewrite ?E; clear E
  end.

Lemma payload_schema p sv :
  _schema_errors (effective_policy_payload p) sv V1_12.POLICY_KEYS V1_12.ALLOWED_POLICY_KEYS = [].
Proof.
  unfold effective_policy_payload.
  destruct (operating_profile p), (harness_inputs p); vm_compute; reflexivity.
Qed.

Lemma payload_schema_1_11 p sv :
  operating_profile p = None -> harness_inputs p = [] ->
  _schema_errors (effective_policy_payload p) sv V1_11.POLICY_KEYS V1_11.ALLOWED_POLICY_KEYS = [].
Proof. intros E1 E2. unfold effective_policy_payload. rewrite E1, E2. vm_compute. reflexivity. Qed.

Lemma v_is_string_list_list l : v_is_string_list (v_str_list l) = true.
Proof. simpl. apply forallb_forall. intros x (s & <- & _)%in_map_iff. done. Qed.

Lemma v_strings_list l : v_strings (v_str_list l) = l.
Proof. simpl. by induction l as [|x l IH]; simpl; [|rewrite IH]. Qed.

Lemma nullable_opt o : v_is_nullable_string (v_opt_str o) = true.
Proof. by destruct o. Qed.
#[local] Hint Rewrite v_is_string_list_list v_strings_list nullable_opt : pyval.

Section Agreement.
Context `{UnicodeDB}.

(** ** Digest pins: either case at the producer, lower case in the record *)

Lemma hex_lower_of_any s : hex64_any s = true -> hex64_lower (py_lower s) = true.
Proof.
  unfold hex64_any, hex64_lower. intros [Hl Hc]%andb_true_iff.
  rewrite py_lower_ascii, length_map, Hl; [cbn [andb]|].
  - rewrite forallb_forall in Hc |- *. intros d (c & <- & Hd)%in_map_iff. specialize (Hc c Hd).
    unfold is_hex_any, is_hex_lower, ascii_lower in *.
    destruct ((65 <=? c) && (c <=? 90))%N eqn:E; brefl; repeat rewrite ?orb_true_iff, ?andb_true_iff in *;
      rewrite ?N.leb_le in *; lia.
  - rewrite forallb_forall in Hc |- *. intros c Hd. specialize (Hc c Hd).
    unfold is_hex_any, is_hex_lower, is_ascii in *. rewrite !orb_true_iff, !andb_true_iff, !N.leb_le in Hc.
    apply N.ltb_lt. lia.
Qed.

Lemma hex_any_of_lower s : hex64_lower (py_lower s) = true -> hex64_any s = true.
Proof.
  unfold hex64_any, hex64_lower. intros [Hl Hc]%andb_true_iff. rewrite forallb_forall in Hc.
  destruct (forallb is_ascii s) eqn:Ha.
  - rewrite py_lower_ascii, length_map in Hl by done. rewrite Hl. simpl.
    rewrite py_lower_ascii in Hc by done. apply forallb_forall. intros c Hin.
    specialize (Hc _ (in_map ascii_lower _ _ Hin)). unfold is_hex_any, is_hex_lower, ascii_lower in *.
    destruct ((65 <=? c) && (c <=? 90))%N eqn:E; repeat rewrite ?orb_true_iff, ?andb_true_iff in *;
      rewrite ?N.leb_le in *; lia.
  - destruct (py_lower_other s Ha) as (d & Hin & Hd). specialize (Hc d Hin). exfalso.
    unfold is_hex_lower, is_ascii in *. rewrite !orb_true_iff, !andb_true_iff, !N.leb_le in Hc.
    destruct Hd as [Hd|Hd]; [apply N.ltb_ge in Hd|]; lia.
Qed.

Lemma pin_agree x :
  match v_opt_str (py_lower <$> nonempty x) with VStr s => hex64_lower s | _ => false end
  = is_verifier_pack_sha256 x.
Proof.
  destruct x as [[|c s]|]; simpl; try done. apply eq_true_iff_eq.
  split; [apply hex_any_of_lower|apply hex_lower_of_any].
Qed.

(** ** Operating profiles *)

Lemma note_ext b b' s : b = b' -> note b s = note b' s.
Proof. by intros ->. Qed.

Lemma is_false_v_bool b : is_false_v (VBool b) = negb b.
Proof. done. Qed.

Lemma py_eq_opt o s : py_eq (v_opt_str o) (VStr s) = opt_eqb o s.
Proof. by destruct o. Qed.

Lemma setup_none_nonempty (c : option (list str)) :
  is_none match nonempty c with Some (x :: l) => v_str_list (x :: l) | _ => VNone end
  = negb (present c).
Proof. by destruct c as [[|]|]. Qed.

Lemma docker_present o : is_nonempty_str (v_opt_str o) = present o.
Proof. by destruct o as [[|]|]. Qed.

(** The verifier's violations of a built policy are the producer's. *)
Lemma profile_violations_agree
    mode isolation docker_image docker_network test_command setup_command trust_setup globs
    protected allow allow_new timeout mem pack pin blackbox blackbox_only report_floor
    isolation_floor min_cov baseline fix_req strict pid pver profile inputs p :
  build_effective_policy mode isolation docker_image docker_network test_command setup_command
    trust_setup globs protected allow allow_new timeout mem pack pin blackbox blackbox_only
    report_floor isolation_floor min_cov baseline fix_req strict pid pver profile inputs = Ok p ->
  match profile with Some s => In s OPERATING_PROFILES | None => True end ->
  check_operating_profile (effective_policy_payload p) =
  Ok (operating_profile_violations profile isolation (present docker_image) docker_network
        (present setup_command) trust_setup mem (present pack) pin blackbox blackbox_only
        report_floor isolation_floor).
Proof.
  unfold build_effective_policy. intros (l & _ & [= <-])%rbind_ok Hprof.
  unfold check_operating_profile, operating_profile_violations.
  match goal with |- context [effective_policy_payload ?q] => payload q end.
  simpl.
  destruct profile as [prof|]; [|done].
  simpl.
  fold _PROFILES. change OPERATING_PROFILES with _PROFILES in *.
  apply str_in_In in Hprof as ->. cbn [negb]. destruct (prof =s? u "local"); [done|].
  rewrite andb_false_r. cbn [negb]. f_equal. rewrite pin_agree, setup_none_nonempty, negb_involutive.
  rewrite !py_eq_opt, negb_involutive, docker_present, Z.leb_antisym. done.
Qed.

(** ** What a prepared request guarantees of its policy *)

Record policy_wf (p : EffectivePolicy) : Prop := {
  wf_mode : mode p = if blackbox p then u "blackbox" else u "repo";
  wf_isolation : In (isolation p) SUPPORTED_ISOLATION_MODES;
  wf_timeout : 1 <= timeout p;
  wf_mem : 0 <= mem_limit_mb p;
  wf_test : test_command p <> Some [];
  wf_setup : setup_command p <> Some [];
  wf_pin : forall s, expect_verifier_pack_sha256 p = Some s ->
             hex64_lower s = true /\ verifier_pack_required p = true;
  wf_coverage : forall f, min_diff_coverage p = Some f -> coverage_in_range (VFloat f) = true;
  wf_only : blackbox_only p = true -> blackbox p = true;
  wf_inputs : normalize_harness_inputs (harness_inputs p) = Ok (harness_inputs p);
  wf_globs : forall path, In path (harness_inputs p) ->
               hidden_by_globs path (setup_output_globs p) = false;
  wf_profile : match operating_profile p with Some s => In s OPERATING_PROFILES | None => True end;
  wf_profile_ok : check_operating_profile (effective_policy_payload p) = Ok []
}.

Lemma float_of_small z : 0 <= z <= 100 -> coverage_in_range (VFloat (float_of_Z z)) = true.
Proof.
  intros Hz. assert (Hall : forallb (fun n => coverage_in_range (VFloat (float_of_Z (Z.of_nat n))))
                              (seq 0 101) = true) by (vm_compute; reflexivity).
  rewrite forallb_forall in Hall. specialize (Hall (Z.to_nat z)).
  rewrite Z2Nat.id in Hall by lia. apply Hall, in_seq. lia.
Qed.

Lemma floor_in_range v f :
  coverage_floor_ok v = true -> coverage_floor v = Some f -> coverage_in_range (VFloat f) = true.
Proof.
  destruct v; try done; simpl.
  - intros [? ?]%andb_true_iff [= <-]. brefl. by apply float_of_small.
  - intros [[? ?]%andb_true_iff Hf]%andb_true_iff [= <-]. unfold coverage_in_range. simpl.
    by rewrite Hf, H0, H1.
Qed.

Lemma hidden_by_globs_perm path l l' :
  Permutation l l' -> hidden_by_globs path l = hidden_by_globs path l'.
Proof.
  intros Hp. unfold hidden_by_globs. apply eq_true_iff_eq. rewrite !existsb_exists.
  setoid_rewrite existsb_exists. split; intros (c & Hc & pat & Hin & Hm); exists c; (split; [done|]);
    exists pat; (split; [|done]); [by rewrite <- Hp|by rewrite Hp].
Qed.

Lemma setup_conflicts_nil inputs globs r :
  setup_output_harness_conflicts inputs globs = Ok [] -> normalize_harness_inputs inputs = Ok r ->
  forall path, In path r -> hidden_by_globs path globs = false.
Proof.
  unfold setup_output_harness_conflicts. intros Hc Hn. rewrite Hn in Hc. injection Hc as Hc.
  by apply filter_nil_iff.
Qed.

(** One guard of a chain that returned a value was true. *)
Ltac step_guard H :=
  match type of H with
  | (if ?b then _ else Err _) = Ok _ => destruct b eqn:?; [|discriminate H]
  | rbind _ _ = Ok _ => apply rbind_ok in H as (? & ? & H)
  end.

Lemma lift_ok {A} (r : result HarnessInputPolicyError A) a : lift_harness r = Ok a <-> r = Ok a.
Proof. destruct r; simpl; naive_solver. Qed.

Lemma nonempty_not_nil {A} (x : option (list A)) : nonempty x <> Some [].
Proof. by destruct x as [[|]|]. Qed.

Lemma prepare_wf raw pg :
  prepare_guard_request raw = Ok pg ->
  policy_wf (gr_policy (pg_request pg)) /\
  pg_effective_policy pg = effective_policy_payload (gr_policy (pg_request pg)) /\
  require_report_integrity (gr_policy (pg_request pg)) = raw_require_report_integrity raw /\
  require_candidate_isolation (gr_policy (pg_request pg)) = raw_require_candidate_isolation raw.
Proof.
  unfold prepare_guard_request. intros Hp. cbv zeta in Hp.
  do 13 step_guard Hp. injection Hp as <-. simpl.
  repeat match goal with H : lift_harness _ = Ok _ |- _ => apply lift_ok in H end.
  match goal with Hb : build_effective_policy _ _ _ _ _ _ _ _ _ _ _ _ _ _ _ _ _ _ _ _ _ _ _ _ _ _ _ = Ok ?p |- _ =>
    rename Hb into Hbuild; pose proof Hbuild as Hbuild'; rename p into pol end.
  unfold build_effective_policy in Hbuild'. apply rbind_ok in Hbuild' as (inp & Hinp & [= Hpol]).
  destruct (raw_timeout raw) as [| |t| | | |]; try discriminate.
  destruct (raw_mem_limit_mb raw) as [| |m| | | |]; try discriminate.
  destruct (raw_isolation raw) as [| | | |iso| |]; try discriminate.
  simpl in *.
  step_guard H2. injection H2 as <-. destruct x0; [|discriminate].
  destruct (operating_profile_violations _ _ _ _ _ _ _ _ _ _ _ _ _) eqn:Hviol; [|discriminate].
  assert (Hprof : match raw_operating_profile raw with
                  | Some s => In s OPERATING_PROFILES | None => True end).
  { unfold operating_profile_violations in Hviol. destruct (raw_operating_profile raw) as [pr|]; [|done].
    destruct (str_in pr OPERATING_PROFILES) eqn:E; [by apply str_in_In|done]. }
  pose proof (normalize_idem _ _ H0) as Hx. assert (inp = x) as -> by congruence.
  split; [|by rewrite <- Hpol].
  constructor.
  12: by rewrite <- Hpol.
  12: erewrite profile_violations_agree; [rewrite Hviol; done|exact Hbuild|done].
  all: rewrite <- Hpol; simpl; brefl; try done; try apply nonempty_not_nil; try lia.
  - intros s Hs. pose proof (pin_agree (raw_expect_verifier_pack_sha256 raw)) as Hpin. rewrite Hs in Hpin.
    destruct (raw_expect_verifier_pack_sha256 raw) as [[|c d]|]; try done. simpl in *.
    rewrite Hpin. split; by (destruct Heqb5, Heqb6).
  - intros f. by apply floor_in_range.
  - intros E. destruct Heqb4; congruence.
  - intros path Hin. rewrite (hidden_by_globs_perm _ _ (raw_setup_output_globs raw))
      by (symmetry; apply py_sort_perm).
    by eapply setup_conflicts_nil.
Qed.

(** ** A well-formed policy satisfies the verifier's contract *)

Lemma harness_errors_nil p :
  policy_wf p ->
  _harness_errors (effective_policy_payload p) _is_canonical_harness_input_list
    _setup_output_hides_harness_input = [].
Proof.
  intros Hwf. unfold _harness_errors. payload p.
  destruct (harness_inputs p) as [|x l] eqn:E; [done|].
  assert (_is_canonical_harness_input_list (v_str_list (x :: l)) = true) as ->.
  { apply canonical_list_agree. split; [done|]. rewrite <- E. apply (wf_inputs p Hwf). }
  rewrite v_is_string_list_list, !v_strings_list. cbn [negb].
  replace (List.filter _ (x :: l)) with (@nil str); [done|]. symmetry. apply filter_nil_iff.
  intros path Hin. rewrite setup_hides_agree. apply (wf_globs p Hwf). by rewrite E.
Qed.

Lemma assurance_limit_nil p :
  policy_wf p ->
  match require_report_integrity p with Some s => In s _REPORT_INTEGRITIES | None => True end ->
  match require_candidate_isolation p with Some s => In s _REQUESTED_ISOLATIONS | None => True end ->
  _assurance_limit_errors (effective_policy_payload p) = [].
Proof.
  intros Hwf Hr Hi. unfold _assurance_limit_errors. payload p.
  pose proof (wf_pin p Hwf) as Hpin. pose proof (wf_coverage p Hwf) as Hcov.
  destruct (expect_verifier_pack_sha256 p) as [d|];
    [destruct (Hpin d eq_refl) as [Hd _]; simpl; rewrite Hd|];
    (destruct (require_report_integrity p); [apply str_in_In in Hr; simpl; rewrite Hr|]);
    (destruct (require_candidate_isolation p); [apply str_in_In in Hi; simpl; rewrite Hi|]);
    (destruct (min_diff_coverage p) as [f|]; [rewrite (Hcov f eq_refl)|]); done.
Qed.

Lemma semantic_nil p : policy_wf p -> _identity_and_semantic_errors (effective_policy_payload p) = [].
Proof.
  intros Hwf. unfold _identity_and_semantic_errors. payload p. rewrite (wf_mode p Hwf).
  unfold us. cbn [map flat_map]. payload p. rewrite !nullable_opt. cbn [app].
  pose proof (wf_pin p Hwf) as Hpin. pose proof (wf_only p Hwf) as Ho. simpl.
  destruct (expect_verifier_pack_sha256 p) as [d|];
    [destruct (Hpin d eq_refl) as [_ ->]|];
    destruct (blackbox_only p); try rewrite (Ho eq_refl); destruct (blackbox p); done.
Qed.

Lemma shape_nil p :
  policy_wf p ->
  _execution_errors (effective_policy_payload p) = [] /\
  _command_errors (effective_policy_payload p) = [] /\
  _collection_and_boolean_errors (effective_policy_payload p) = [].
Proof.
  intros Hwf. unfold _execution_errors, _command_errors, _collection_and_boolean_errors, _BOOLEAN_FIELDS.
  unfold us. cbn [map flat_map]. payload p. rewrite !v_is_string_list_list, nullable_opt. repeat split.
  - pose proof (wf_isolation p Hwf) as Hi%str_in_In. rewrite (wf_mode p Hwf). simpl.
    change _REQUESTED_ISOLATIONS with SUPPORTED_ISOLATION_MODES. rewrite Hi. by destruct (blackbox p).
  - pose proof (wf_test p Hwf). pose proof (wf_setup p Hwf).
    destruct (test_command p) as [[|c l]|], (setup_command p) as [[|c' l']|]; try done;
      rewrite ?v_is_string_list_list; done.
  - simpl. by rewrite andb_false_r.
Qed.

Lemma profile_limit p :
  policy_wf p -> _profile_and_limit_errors (effective_policy_payload p) true = ([], operating_profile p).
Proof.
  intros Hwf. unfold _profile_and_limit_errors. payload p.
  pose proof (wf_profile p Hwf) as Hp. pose proof (wf_timeout p Hwf) as Ht. pose proof (wf_mem p Hwf) as Hm.
  apply Z.leb_le in Ht, Hm. simpl. rewrite Ht, Hm.
  destruct (operating_profile p) as [s|]; [|done].
  change OPERATING_PROFILES with _PROFILES in Hp. apply str_in_In in Hp. simpl. by rewrite Hp.
Qed.

Lemma wf_no_errors p :
  policy_wf p ->
  match require_report_integrity p with Some s => In s _REPORT_INTEGRITIES | None => True end ->
  match require_candidate_isolation p with Some s => In s _REQUESTED_ISOLATIONS | None => True end ->
  _policy_type_errors (effective_policy_payload p) (VStr "1.12") = Ok [].
Proof.
  intros Hwf Hr Hi. unfold _policy_type_errors, project_policy_type_validation.
  change (contract_of_value (VStr "1.12")) with contract_1_12. cbn [vc_policy_keys vc_allowed_policy_keys contract_1_12].
  change (str_in "operating_profile" V1_12.ALLOWED_POLICY_KEYS) with true.
  destruct (shape_nil p Hwf) as (He & Hc & Hb).
  rewrite payload_schema, He, Hc, Hb, harness_errors_nil, profile_limit, assurance_limit_nil,
    semantic_nil by done. simpl.
  destruct (operating_profile p); [|done]. by rewrite (wf_profile_ok p Hwf).
Qed.

(** for every policy that is built, the record verifier re-derives from the
    payload exactly the operating-profile violations the producer computes from
    the raw arguments, in the same order, whenever the selected profile is a
    known one (or none is selected). *)
Theorem operating_profile_agree
    mode isolation docker_image docker_network test_command setup_command trust_setup globs
    protected allow allow_new timeout mem pack pin blackbox blackbox_only report_floor
    isolation_floor min_cov baseline fix_req strict pid pver profile inputs p :
  build_effective_policy mode isolation docker_image docker_network test_command setup_command
    trust_setup globs protected allow allow_new timeout mem pack pin blackbox blackbox_only
    report_floor isolation_floor min_cov baseline fix_req strict pid pver profile inputs = Ok p ->
  match profile with Some s => In s OPERATING_PROFILES | None => True end ->
  check_operating_profile (effective_policy_payload p) =
  Ok (operating_profile_violations profile isolation (present docker_image) docker_network
        (present setup_command) trust_setup mem (present pack) pin blackbox blackbox_only
        report_floor isolation_floor).
Proof. apply profile_violations_agree. Qed.

(** C40: every request the producer accepts carries a policy the record verifier
    accepts: the payload of a prepared request has no type, shape, harness or
    profile error under the 1.12 contract.  (The two assurance floors are not
    validated by the preparation, so they are assumed to be known words.) *)
Theorem prepared_policy_conforms raw pg :
  prepare_guard_request raw = Ok pg ->
  match raw_require_report_integrity raw with Some s => In s _REPORT_INTEGRITIES | None => True end ->
  match raw_require_candidate_isolation raw with
  | Some s => In s _REQUESTED_ISOLATIONS | None => True end ->
  _policy_type_errors (pg_effective_policy pg) (VStr "1.12") = Ok [].
Proof.
  intros (Hwf & -> & Hr & Hi)%prepare_wf H1 H2. apply wf_no_errors; [done| |].
  - by rewrite Hr.
  - by rewrite Hi.
Qed.

(** ** Policy digests *)

Lemma encodable_dset k v d :
  encodable v = true -> encodable (VDict d) = true -> encodable (VDict (dset k v d)) = true.
Proof.
  intros Hv. induction d as [|[k' v'] d IH]; simpl; [by rewrite Hv|].
  rewrite !andb_true_iff. intros [[Hk Hv'] Hd]. destruct (is_key k k'); simpl; rewrite ?Hk, ?Hv, ?Hv', ?Hd; [done|].
  by apply IH.
Qed.

Lemma encodable_list l : encodable (v_str_list l) = true.
Proof. simpl. apply forallb_forall. intros x (s & <- & _)%in_map_iff. done. Qed.

Lemma encodable_dict_of l :
  encodable (VDict (dict_of l)) = forallb (fun kv => encodable (snd kv)) l.
Proof. simpl. induction l as [|[k v] l IH]; simpl; [done|by rewrite IH]. Qed.

Lemma payload_encodable p : policy_wf p -> encodable (VDict (effective_policy_payload p)) = true.
Proof.
  intros Hwf. unfold effective_policy_payload. cbv zeta.
  assert (Hcov : encodable match min_diff_coverage p with Some f => VFloat f | None => VNone end = true).
  { pose proof (wf_coverage p Hwf) as Hc. destruct (min_diff_coverage p) as [f|]; [|done].
    specialize (Hc f eq_refl). unfold coverage_in_range in Hc. simpl in *. by destruct (is_finite f). }
  match goal with |- context [dict_of ?l] => assert (Hbase : encodable (VDict (dict_of l)) = true) end.
  { assert (Ho : forall o, encodable (v_opt_str o) = true) by by intros [].
    assert (Ht : encodable match test_command p with
      | Some (c :: l) => v_str_list (c :: l) | _ => VStr DEFAULT_TEST_COMMAND_MARKER end = true).
    { destruct (test_command p) as [[|]|]; by rewrite ?encodable_list. }
    assert (Hs : encodable match setup_command p with
      | Some (c :: l) => v_str_list (c :: l) | _ => VNone end = true).
    { destruct (setup_command p) as [[|]|]; by rewrite ?encodable_list. }
    rewrite encodable_dict_of. cbn [forallb snd].
    rewrite !Ho, Ht, Hs, Hcov, !encodable_list. done. }
  destruct (operating_profile p), (harness_inputs p); repeat apply encodable_dset; try done; apply encodable_list.
Qed.

Lemma policy_sha256_agree d :
  encodable (VDict d) = true ->
  exists h, effective_policy_sha256 d = Some h /\ _policy_sha256 d = Some h /\ hex64_lower h = true.
Proof.
  intros He. destruct (json_encode_encodable [32%N] _ He) as [s Hs].
  exists (sha256_hex (ascii_bytes s)). unfold effective_policy_sha256, _policy_sha256, json_dumps.
  rewrite Hs, (json_encode_mono _ _ _ Hs). repeat split. apply sha256_hex_shape.
Qed.

(** the policy digest the producer attests is the one the verifier
    recomputes: for every accepted request both canonical encodings exist, hash
    to the same value, and that value is 64 lower-case hexadecimal digits. *)
Theorem policy_digest_agree raw pg :
  prepare_guard_request raw = Ok pg ->
  exists h, effective_policy_sha256 (pg_effective_policy pg) = Some h /\
            _policy_sha256 (pg_effective_policy pg) = Some h /\ hex64_lower h = true.
Proof.
  intros (Hwf & -> & _)%prepare_wf. by apply policy_sha256_agree, payload_encodable.
Qed.
End Agreement.

(** A complete request under the hostile profile. *)
Definition hostile_request : GuardRequestPreparationInput := {|
  raw_repository_path := u "repo";
  raw_candidate_text := [];
  raw_deleted_paths := [];
  raw_test_command := Some (us ["python"; "-m"; "pytest"]);
  raw_setup_command := None;
  raw_trust_setup_on_host := false;
  raw_setup_output_globs := us ["build/*"];
  raw_protected := us ["ops/*"; "ci/*"];
  raw_allow := [];
  raw_allow_new_tests := true;
  raw_timeout := VInt 300;
  raw_mem_limit_mb := VInt 1024;
  raw_isolation := VStr "gvisor";
  raw_docker_image := Some (u "python:3.12");
  raw_docker_network := u "none";
  raw_verifier_pack_path := Some (u "pack");
  raw_expect_verifier_pack_sha256 := Some (repeat 65%N 64);
  raw_collect_diff_coverage := false;
  raw_min_diff_coverage := VInt 80;
  raw_blackbox := true;
  raw_blackbox_only := true;
  raw_require_report_integrity := Some (u "external_process_isolated");
  raw_require_candidate_isolation := Some (u "gvisor");
  raw_base_sha := None;
  raw_head_sha := None;
  raw_base_tree_sha := None;
  raw_head_tree_sha := None;
  raw_policy_id := Some (u "p1");
  raw_policy_version := None;
  raw_baseline_evidence := false;
  raw_require_demonstrated_fix := false;
  raw_strict_harness := VBool true;
  raw_file_blocks := None;
  raw_operating_profile := Some (u "hostile");
  raw_harness_inputs := us ["tools/judge.py"; "bin/run.sh"]
|}.

Definition hostile_prepared : result preparation_error PreparedGuardRequest :=
  @prepare_guard_request ascii_unicode hostile_request.

Lemma prepared_policy_conforms_witness :
  exists pg, hostile_prepared = Ok pg /\
    @_policy_type_errors ascii_unicode (pg_effective_policy pg) (VStr "1.12") = Ok [].
Proof.
  destruct hostile_prepared as [pg|e] eqn:E; [|vm_compute in E; discriminate E].
  exists pg. split; [reflexivity|].
  apply (@prepared_policy_conforms ascii_unicode hostile_request pg E).
  - vm_compute. tauto.
  - vm_compute. tauto.
Defined.

Lemma policy_digest_agree_witness :
  exists pg h, hostile_prepared = Ok pg /\ _policy_sha256 (pg_effective_policy pg) = Some h.
Proof.
  destruct hostile_prepared as [pg|e] eqn:E; [|vm_compute in E; discriminate E].
  destruct (@policy_digest_agree ascii_unicode hostile_request pg E) as (h & _ & Hh & _).
  exists pg, h. split; [reflexivity|exact Hh].
Defined.

Lemma operating_profile_agree_witness :
  exists p, check_operating_profile (effective_policy_payload p) =
    Ok (us ["requires blackbox=true"; "requires isolation='gvisor'"]).
Proof.
  destruct (@build_effective_policy ascii_unicode (u "blackbox") (u "docker") (Some (u "img"))
    (u "none") None None false [] [] [] false 60 512 (Some (u "pack")) (Some (repeat 65%N 64))
    false true (Some (u "external_process_isolated")) (Some (u "gvisor")) None false false false
    None None (Some (u "hostile")) []) as [p|e] eqn:E; [|vm_compute in E; discriminate E].
  exists p. rewrite (@operating_profile_agree ascii_unicode _ _ _ _ _ _ _ _ _ _ _ _ _ _ _ _ _ _ _
    _ _ _ _ _ _ _ _ _ E); [vm_compute; reflexivity|vm_compute; tauto].
Defined.
