(* ===== verification/RecordTypes.v ===== *)
(** Type and shape projections of a verdict record: the envelope
    (verifiers/record_envelope_types.py), diff-coverage evidence
    (record_coverage_types.py), baseline evidence (record_baseline_types.py) and
    the nested assurance and attestation objects (record_nested.py).  Each
    returns the ordered list of its errors. *)
From S2P Require Export PyStr Bytes Verdict JUnit RecordReport.
Local Open Scope Z_scope.

Definition v_valid_sha256 (v : value) : bool :=
  match v with VStr s => hex64_lower s | _ => false end.

(** [f"{field} {requirement}"] for the fields present with a bad value. *)
Definition _field_type_errors (d : dict) (fields : list str) (predicate : value -> bool)
    (requirement : string) : list msg :=
  flat_map (fun field =>
      match dlookup field d with
      | Some v => if predicate v then [] else [[T (field ++ u " " ++ u requirement)]]
      | None => []
      end) fields.

(** ** The envelope *)

Module Envelope.

Definition _STRING_FIELDS : list str :=
  us ["schema_version"; "tool"; "tool_version"; "verdict"; "reason_code"; "reason"; "risk_level";
      "execution_state"; "execution_phase"; "isolation"; "diagnostics"].
Definition _BOOLEAN_FIELDS : list str := us ["passed"; "test_command_ran"].
Definition _NULLABLE_INTEGER_FIELDS : list str := us ["tests_passed"; "tests_total"].
Definition _STRING_LIST_FIELDS : list str := us ["files_changed"; "protected_violations"].
Definition _NULLABLE_STRING_FIELDS : list str :=
  us ["verdict_source"; "source"; "base_reconstruction"].
Definition _NULLABLE_OBJECT_FIELDS : list str := us ["diff_coverage"; "baseline"].

Definition _string_field_errors (record : dict) : list msg :=
  _field_type_errors record _STRING_FIELDS is_str "must be a string".

Definition _boolean_field_errors (record : dict) : list msg :=
  _field_type_errors record _BOOLEAN_FIELDS is_bool "must be a boolean".

Definition _numeric_field_errors (record : dict) : list msg :=
  err (dmem (u "exit_code") record && negb (v_is_int (dget record (u "exit_code"))))
    "exit_code must be an integer"
  ++ err (dmem (u "risk_score") record && negb (v_is_number (dget record (u "risk_score"))))
       "risk_score must be a number".

Definition _nullable_integer_errors (record : dict) : list msg :=
  _field_type_errors record _NULLABLE_INTEGER_FIELDS v_is_nullable_int
    "must be a non-boolean integer or null".

Definition _string_list_errors (record : dict) : list msg :=
  _field_type_errors record _STRING_LIST_FIELDS v_is_string_list "must be an array of strings".

Definition _nullable_string_errors (record : dict) : list msg :=
  _field_type_errors record _NULLABLE_STRING_FIELDS v_is_nullable_string "must be a string or null".

Definition _nullable_object_errors (record : dict) : list msg :=
  _field_type_errors record _NULLABLE_OBJECT_FIELDS (fun v => is_none v || is_dict v)
    "must be an object or null".

Definition _assurance_object_errors (record : dict) : list msg :=
  err (dmem (u "assurance") record && negb (is_dict (dget record (u "assurance"))))
    "assurance must be an object"
  ++ err (dmem (u "attestation") record && negb (is_none (dget record (u "attestation")))
          && negb (is_dict (dget record (u "attestation"))))
       "attestation must be an object or null".

Definition project_envelope_type_errors (record : dict) : list msg :=
  _string_field_errors record
  ++ _boolean_field_errors record
  ++ _numeric_field_errors record
  ++ _nullable_integer_errors record
  ++ _string_list_errors record
  ++ _nullable_string_errors record
  ++ _nullable_object_errors record
  ++ _assurance_object_errors record.

End Envelope.

(** ** Diff coverage *)

Module Coverage.

Definition _MEASURED_COVERAGE_KEYS : list str :=
  us ["measured"; "percent"; "executed"; "total"; "files"; "unmeasured_files"; "caveat"].
Definition _UNMEASURED_COVERAGE_KEYS : list str := us ["measured"; "note"].
Definition _UNMEASURED_COVERAGE_DETAIL_KEYS : list str :=
  us ["measured"; "note"; "unmeasured_files"; "caveat"].
Definition _FILE_DETAIL_KEYS : list str := us ["executed"; "missed"].
Definition _FILE_DETAIL_KEYS_WITH_NOTE : list str := us ["executed"; "missed"; "note"].

Fixpoint int_items (l : list value) : option (list Z) :=
  match l with
  | [] => Some []
  | VInt z :: l' => match int_items l' with Some zs => Some (z :: zs) | None => None end
  | _ => None
  end.

(** [l == sorted(set(l))] on integers: strictly increasing. *)
Fixpoint strictly_increasing (l : list Z) : bool :=
  match l with
  | x :: ((y :: _) as l') => (x <? y) && strictly_increasing l'
  | _ => true
  end.

(** The lines of an array of sorted unique positive integers. *)
Definition _positive_line_array (v : value) : option (list Z) :=
  match v with
  | VList l =>
      match int_items l with
      | Some zs => if forallb (fun z => 0 <? z) zs && strictly_increasing zs then Some zs else None
      | None => None
      end
  | _ => None
  end.

Definition _coverage_path (v : value) (python : bool) : bool :=
  match v with
  | VStr s =>
      if match s with [] => true | _ => false end || char_in ch_bslash s || starts_with [ch_slash] s
      then false
      else if existsb (fun part => str_in part [[]; u "."; u ".."]) (path_parts s) then false
      else if python then ends_with (u ".py") s else negb (ends_with (u ".py") s)
  | _ => false
  end.

(** [l == sorted(set(l))] on strings. *)
Definition sorted_unique (l : list str) : bool :=
  if decide (l = sorted_set l) then true else false.

Definition num_in_range (v : value) (hi : Z) : bool :=
  match as_num v with
  | Some n => v_is_number v && num_leb (NInt 0) n && num_leb n (NInt hi)
  | None => false
  end.

Definition _measured_scalar_errors (coverage : dict) : list msg :=
  err (negb (num_in_range (dget coverage (u "percent")) 100))
    "percent must be a finite number in 0..100"
  ++ err (negb match dget coverage (u "executed"), dget coverage (u "total") with
               | VInt executed, VInt total => (0 <=? executed) && (executed <=? total)
               | _, _ => false
               end) "executed/total must be non-negative ordered integers".

Definition _file_detail_projection (path detail : value) : list msg * Z * Z :=
  if negb (_coverage_path path true) then
    ([text "files keys must be safe repo-relative .py paths"], 0, 0)
  else match detail with
  | VDict d =>
      if has_non_str_key d then
        ([[T (u "files["); I path; T (u "] must be an object with string keys")]], 0, 0)
      else
        let shape_errors :=
          if keys_eq d _FILE_DETAIL_KEYS || keys_eq d _FILE_DETAIL_KEYS_WITH_NOTE then []
          else [[T (u "files["); I path; T (u "] has an invalid producer shape")]] in
        match _positive_line_array (dget d (u "executed")),
              _positive_line_array (dget d (u "missed")) with
        | Some executed_lines, Some missed_lines =>
            let overlap_errors :=
              if existsb (fun z => existsb (Z.eqb z) missed_lines) executed_lines
              then [[T (u "files["); I path; T (u "] executed and missed lines overlap")]]
              else [] in
            let note_errors :=
              if dmem (u "note") d && negb (is_nonempty_str (dget d (u "note")))
              then [[T (u "files["); I path; T (u "].note must be non-empty")]]
              else [] in
            (shape_errors ++ overlap_errors ++ note_errors,
             Z.of_nat (length executed_lines),
             Z.of_nat (length executed_lines) + Z.of_nat (length missed_lines))
        | _, _ =>
            (shape_errors ++ [[T (u "files["); I path;
               T (u "] executed/missed must be sorted unique positive lines")]], 0, 0)
        end
  | _ => ([[T (u "files["); I path; T (u "] must be an object with string keys")]], 0, 0)
  end.

(** The loop over the per-file details, which accumulates errors and totals. *)
Fixpoint _files_loop (items : dict) (errors : list msg) (file_executed file_total : Z)
  : list msg * Z * Z :=
  match items with
  | [] => (errors, file_executed, file_total)
  | (path, detail) :: items' =>
      let '(detail_errors, detail_executed, detail_total) := _file_detail_projection path detail in
      _files_loop items' (errors ++ detail_errors) (file_executed + detail_executed)
        (file_total + detail_total)
  end.

Definition _measured_file_projection (files : value) : list msg * Z * Z :=
  match files with
  | VDict items => _files_loop items [] 0 0
  | _ => ([text "files must be an object"], 0, 0)
  end.

Definition _measured_path_and_caveat_errors (coverage : dict) : list msg :=
  let unmeasured := dget coverage (u "unmeasured_files") in
  err (negb (v_is_string_list unmeasured && sorted_unique (v_strings unmeasured)
             && forallb (fun p => _coverage_path (VStr p) false) (v_strings unmeasured)))
    "unmeasured_files must be sorted unique safe non-Python paths"
  ++ err (negb (is_nonempty_str (dget coverage (u "caveat")))) "caveat must be a non-empty string".

(** [round(100.0 * executed / total, 1) if total else 100.0] *)
Definition calculated_percent (executed total : Z) : result exn float :=
  if total =? 0 then Ok (dec 1000 1)
  else
    let e := float_of_Z executed in
    guard* is_finite e else OverflowError_int_float in
    let t := float_of_Z total in
    guard* is_finite t else OverflowError_int_float in
    Ok (round1 (fdiv (fmul (dec 1000 1) e) t)).

Definition _measured_consistency_errors (coverage : dict) (file_executed file_total : Z)
  : result exn (list msg) :=
  let executed := dget coverage (u "executed") in
  let total := dget coverage (u "total") in
  let percent := dget coverage (u "percent") in
  let total_errors :=
    err (match executed with VInt e => negb (e =? file_executed) | _ => false end)
      "executed does not equal the per-file executed-line total"
    ++ err (match total with VInt t => negb (t =? file_total) | _ => false end)
         "total does not equal the per-file measurable-line total" in
  match executed, total with
  | VInt e, VInt t =>
      if v_is_number percent then
        let* calculated := calculated_percent e t in
        Ok (total_errors
            ++ if py_eq percent (VFloat calculated) then []
               else [[T (u "percent must equal the producer calculation "); I (VFloat calculated)]])
      else Ok total_errors
  | _, _ => Ok total_errors
  end.

Definition _measured_errors (coverage : dict) : result exn (list msg) :=
  let '(file_errors, file_executed, file_total) :=
    _measured_file_projection (dget coverage (u "files")) in
  let* consistency := _measured_consistency_errors coverage file_executed file_total in
  Ok (err (negb (keys_eq coverage _MEASURED_COVERAGE_KEYS))
        "measured coverage must contain exactly the seven producer keys"
      ++ _measured_scalar_errors coverage
      ++ file_errors
      ++ _measured_path_and_caveat_errors coverage
      ++ consistency).

Definition _unmeasured_errors (coverage : dict) : list msg :=
  let unmeasured := dget coverage (u "unmeasured_files") in
  err (negb (keys_eq coverage _UNMEASURED_COVERAGE_KEYS
             || keys_eq coverage _UNMEASURED_COVERAGE_DETAIL_KEYS))
    "unmeasured coverage has an invalid producer shape"
  ++ err (negb (is_nonempty_str (dget coverage (u "note"))))
       "unmeasured coverage note must be non-empty"
  ++ if keys_eq coverage _UNMEASURED_COVERAGE_DETAIL_KEYS then
       err (negb (v_is_string_list unmeasured && sorted_unique (v_strings unmeasured)
                  && forallb (fun p => is_nonempty_str (VStr p)) (v_strings unmeasured)))
         "unmeasured_files must be a sorted unique string array"
       ++ err (negb (is_nonempty_str (dget coverage (u "caveat"))))
            "unmeasured coverage caveat must be non-empty"
     else [].

Definition project_diff_coverage_type_errors (coverage : dict) : result exn (list msg) :=
  if has_non_str_key coverage then Ok [text "all diff_coverage keys must be strings"]
  else match dget coverage (u "measured") with
       | VBool true => _measured_errors coverage
       | VBool false => Ok (_unmeasured_errors coverage)
       | _ => Ok [text "measured must be a boolean"]
       end.

End Coverage.

(** [_valid_count_pair] *)
Definition _valid_count_pair (passed total : value) : bool :=
  if is_none passed || is_none total then is_none passed && is_none total
  else match passed, total with
       | VInt p, VInt t => (0 <=? p) && (p <=? t)
       | _, _ => false
       end.

(** [v in ("a", "b", ...)] for string constants: equality with one of them. *)
Definition v_in (v : value) (l : list str) : bool := existsb (fun s => py_eq v (VStr s)) l.

(** ** Baseline *)

Module Baseline.

Definition _BASELINE_KEYS : list str :=
  us ["verdict"; "tests_passed"; "tests_total"; "repair_effect"; "scope"; "note"].
Definition _BASELINE_SETUP_KEYS : list str := us ["setup_fidelity"; "setup_fidelity_changes"].

Definition _unsupported_errors (baseline : dict) (verdict passed total effect : value) : list msg :=
  err (negb (keys_eq baseline _BASELINE_KEYS))
    "unsupported-mode baseline cannot contain setup fields"
  ++ err (negb (is_none verdict && is_none passed && is_none total
                && py_eq effect (VStr "unmeasured")))
       "unsupported-mode baseline must contain only null evidence".

Definition both_ints (passed total : value) : bool := v_is_int passed && v_is_int total.

Definition _count_errors (verdict passed total : value) : list msg :=
  err (negb (_valid_count_pair passed total))
    "baseline counts must be a null or ordered integer pair"
  ++ err (v_in verdict (us ["PASS"; "FAIL"]) && negb (both_ints passed total))
       "clean baseline verdicts require integer counts"
  ++ (if py_eq verdict (VStr "PASS") then
        match passed, total with
        | VInt p, VInt t =>
            err (negb (((p =? t) && (t =? 0)) || ((0 <? t) && (p =? t))))
              "a PASS baseline must have all-passing counts"
        | _, _ => []
        end
      else [])
  ++ (if py_eq verdict (VStr "FAIL") then
        match passed, total with
        | VInt p, VInt t =>
            err (negb (((p =? t) && (t =? 0)) || ((0 <? t) && (p <? t))))
              "a FAIL baseline must have zero exit-only counts or a failed test"
        | _, _ => []
        end
      else []).

Definition _repair_effect_errors (verdict effect : value) : list msg :=
  if py_eq verdict (VStr "NO_CLEAN_VERDICT") then
    err (negb (py_eq effect (VStr "unmeasured")))
      "NO_CLEAN_VERDICT requires an unmeasured repair effect"
  else
    err (negb (v_in effect (us ["demonstrated"; "not_demonstrated"])))
      "clean baseline verdict requires a measured repair effect".

Definition _repo_suite_errors (scope verdict passed total effect : value) : list msg :=
  err (negb (py_eq scope (VStr "repo_suite_only"))) "baseline.scope is invalid"
  ++ err (negb (v_in verdict (us ["PASS"; "FAIL"; "NO_CLEAN_VERDICT"])))
       "baseline.verdict is invalid"
  ++ _count_errors verdict passed total
  ++ _repair_effect_errors verdict effect.

Definition _setup_errors (baseline : dict) (setup changes verdict effect : value) : list msg :=
  (if dmem (u "setup_fidelity") baseline then
     err (negb (v_in setup (us ["unverified"; "setup_failed"; "changed_judged_tree"])))
       "setup_fidelity is invalid"
     ++ err (negb (py_eq verdict (VStr "NO_CLEAN_VERDICT"))
             || negb (py_eq effect (VStr "unmeasured")))
          "setup fidelity failures require an unclean baseline"
   else [])
  ++ (if py_eq setup (VStr "changed_judged_tree") then
        err (negb (v_is_string_list changes && truthy changes
                   && Coverage.sorted_unique (v_strings changes)))
          "changed judged tree requires sorted unique changed paths"
      else
        err (dmem (u "setup_fidelity_changes") baseline)
          "setup_fidelity_changes requires changed_judged_tree").

Definition project_baseline_type_errors (baseline : dict) : list msg :=
  if has_non_str_key baseline then [text "all baseline keys must be strings"]
  else
    let get k := dget baseline (u k) in
    let key_errors :=
      err (negb (keys_superset baseline _BASELINE_KEYS)
           || negb (keys_subset baseline (_BASELINE_KEYS ++ _BASELINE_SETUP_KEYS)))
        "baseline has missing or unknown producer keys"
      ++ err (negb (is_nonempty_str (get "note"))) "baseline.note must be a non-empty string" in
    if py_eq (get "scope") (VStr "unsupported_mode") then
      key_errors ++ _unsupported_errors baseline (get "verdict") (get "tests_passed")
                      (get "tests_total") (get "repair_effect")
    else
      key_errors
      ++ _repo_suite_errors (get "scope") (get "verdict") (get "tests_passed")
           (get "tests_total") (get "repair_effect")
      ++ _setup_errors baseline (get "setup_fidelity") (get "setup_fidelity_changes")
           (get "verdict") (get "repair_effect").

End Baseline.

(** ** Nested objects *)

Module Nested.

Definition _ISOLATIONS : list str := us ["not_run"; "subprocess"; "docker"; "gvisor"].
Definition _SETUP_ISOLATIONS : list str :=
  us ["subprocess"; "docker"; "gvisor"; "subprocess_host_opt_in"; "unavailable"].
Definition _REPORT_INTEGRITIES : list str :=
  us ["same_process_candidate_writable"; "external_process_isolated";
      "not_applicable_static_gate"; "not_applicable_not_run"].
Definition _OVERALL_PROFILES : list str :=
  us ["static_gate"; "preflight"; "execution_incomplete_before_tests"; "execution_incomplete";
      "repo_native_same_process"; "isolated_repo_native"; "mixed_host_setup_repo_native";
      "black_box_external_judge"; "composite_blackbox_repo_native";
      "blackbox_composite_short_circuit"].
Definition _REPO_SUITE_STATES : list str :=
  us ["not_required_blackbox_only"; "required_not_run_short_circuit"; "required_not_started";
      "required_started_incomplete"; "composed_completed"].
Definition _PACK_INTEGRITIES : list str :=
  us ["not_evaluated_static_gate"; "not_evaluated_missing"; "invalid";
      "snapshot_identity_mismatch"; "verified_snapshot_pre_execution";
      "verified_snapshot_pre_post"; "verified_snapshot_read_only"; "snapshot_changed";
      "not_evaluated"].
Definition _PACK_SECRECY : list str :=
  us ["not_evaluated_static_gate"; "not_evaluated_no_execution"; "readable_in_judge_process";
      "not_evaluated_no_candidate_execution"; "reachable_same_host"; "unmounted_from_candidate"].
Definition _PACK_ASSURANCE_KEYS : list str :=
  us ["configured"; "present"; "integrity"; "identity_verified"; "execution_state"; "secrecy";
      "snapshot_sha256"].
Definition _JUNIT_PHASE_FORMATS : list str :=
  [JUNIT_XML_DIGEST_FORMAT; JUNIT_REPORT_SET_DIGEST_FORMAT].
Definition _JUNIT_TOP_FORMATS : list str :=
  [JUNIT_XML_DIGEST_FORMAT; JUNIT_REPORT_SET_DIGEST_FORMAT; u "EVOGUARD_JUNIT_COMPOSITE_V1";
   JUNIT_COMPOSITE_DIGEST_FORMAT].
Definition EXECUTION_STATES : list str := map state_wire EXECUTION_STATES.

Definition _ASSURANCE_STRING_FIELDS : list str :=
  us ["execution_state"; "execution_phase"; "harness_integrity"; "report_integrity";
      "candidate_isolation"; "suite_isolation"; "runtime_continuity"; "overall_profile"].
Definition _ATTESTATION_STRING_FIELDS : list str :=
  us ["created_utc"; "guard_version"; "mode"; "candidate_sha256"; "policy_sha256";
      "execution_state"; "execution_phase"; "delivered_isolation";
      "effective_candidate_isolation"].
Definition _PACK_BOOL_FIELDS : list str :=
  us ["verifier_pack_present"; "verifier_pack_started"; "verifier_pack_completed"].
Definition _PACK_INT_FIELDS : list str :=
  us ["verifier_pack_tests_passed"; "verifier_pack_tests_total"].
Definition _REPO_INT_FIELDS : list str :=
  us ["repo_suite_tests_passed"; "repo_suite_tests_total"; "repo_suite_returncode"].
Definition _REPO_BOOL_FIELDS : list str :=
  us ["repo_suite_started"; "repo_suite_completed"; "repo_suite_passed"].
Definition _ATTESTATION_NULLABLE_STRING_FIELDS : list str :=
  us ["junit_sha256"; "junit_digest_format"; "verifier_pack_junit_sha256";
      "verifier_pack_junit_digest_format"; "repo_suite_state"; "repo_suite_junit_sha256";
      "repo_suite_junit_digest_format"; "repo_suite_verdict_source"].
Definition _PACK_NULLABLE_STRING_FIELDS : list str :=
  us ["verifier_pack_sha256"; "verifier_pack_digest_format"].

Record NestedObjectValidation := {
  missing_fields : list str;
  type_errors : list msg;
  shape_errors : list msg
}.

Record NestedValidationProjection := {
  nv_assurance : option NestedObjectValidation;
  nv_attestation : option NestedObjectValidation
}.

(** *** Timestamps *)

Definition digit_val (c : N) : option Z :=
  if is_ascii_digit c then Some (Z.of_N c - 48) else None.

(** The value of a string of ASCII digits. *)
Fixpoint digits_val (acc : Z) (s : str) : option Z :=
  match s with
  | [] => Some acc
  | c :: s' => match digit_val c with Some d => digits_val (acc * 10 + d) s' | None => None end
  end.

Definition is_leap (y : Z) : bool :=
  (y mod 4 =? 0) && (negb (y mod 100 =? 0) || (y mod 400 =? 0)).

Definition days_in_month (y m : Z) : Z :=
  if m =? 2 then (if is_leap y then 29 else 28)
  else if (m =? 4) || (m =? 6) || (m =? 9) || (m =? 11) then 30 else 31.

(** The fields of [YYYY-MM-DDTHH:MM:SSZ], by position. *)
Definition utc_fields (s : str) : option (Z * Z * Z * Z * Z * Z) :=
  match digits_val 0 (take 4 s), digits_val 0 (take 2 (drop 5 s)), digits_val 0 (take 2 (drop 8 s)),
        digits_val 0 (take 2 (drop 11 s)), digits_val 0 (take 2 (drop 14 s)),
        digits_val 0 (take 2 (drop 17 s)) with
  | Some y, Some mo, Some d, Some h, Some mi, Some sec =>
      if Nat.eqb (length s) 20 && starts_with (u "-") (drop 4 s) && starts_with (u "-") (drop 7 s)
         && starts_with (u "T") (drop 10 s) && starts_with (u ":") (drop 13 s)
         && starts_with (u ":") (drop 16 s) && starts_with (u "Z") (drop 19 s)
      then Some (y, mo, d, h, mi, sec) else None
  | _, _, _, _, _, _ => None
  end.

Definition _valid_utc_timestamp (v : value) : bool :=
  match v with
  | VStr s =>
      match utc_fields s with
      | Some (y, mo, d, h, mi, sec) =>
          (1 <=? y) && (1 <=? mo) && (mo <=? 12) && (1 <=? d) && (d <=? days_in_month y mo)
          && (h <=? 23) && (mi <=? 59) && (sec <=? 59)
      | None => false
      end
  | _ => false
  end.

(** *** Assurance *)

Definition _allows_null_effective_isolation (attestation : dict) : bool :=
  is_none (dget attestation (u "effective_candidate_isolation"))
  && py_eq (dget attestation (u "execution_state")) (VStr "not_started")
  && is_false_v (dget attestation (u "test_command_started"))
  && py_eq (dget attestation (u "delivered_isolation")) (VStr "not_run").

Definition _pack_shape_errors (pack : dict) : list msg :=
  let get k := dget pack (u k) in
  match missing_keys _PACK_ASSURANCE_KEYS pack with
  | [] => []
  | missing => [[T (u "missing pack assurance keys: " ++ py_join (u ", ") missing)]]
  end
  ++ err (negb (is_true_v (get "configured"))) "configured must be true"
  ++ err (negb (v_is_nullable_bool (get "present"))) "present must be a boolean or null"
  ++ err (negb (known_string (get "integrity") _PACK_INTEGRITIES)) "integrity is invalid"
  ++ err (negb (v_is_nullable_bool (get "identity_verified")))
       "identity_verified must be a boolean or null"
  ++ err (negb (known_string (get "execution_state") EXECUTION_STATES)) "execution_state is invalid"
  ++ err (negb (known_string (get "secrecy") _PACK_SECRECY)) "secrecy is invalid"
  ++ err (negb (is_none (get "snapshot_sha256")) && negb (v_valid_sha256 (get "snapshot_sha256")))
       "snapshot_sha256 must be a lowercase SHA-256 or null".

Definition _assurance_type_errors (assurance : dict) : list msg :=
  let pack := dget assurance (u "verifier_pack") in
  _field_type_errors assurance _ASSURANCE_STRING_FIELDS is_str "must be a string"
  ++ err (dmem (u "setup_isolation") assurance
          && negb (v_is_nullable_string (dget assurance (u "setup_isolation"))))
       "setup_isolation must be a string or null"
  ++ err (negb (is_none pack) && negb (is_dict pack)) "verifier_pack must be an object or null".

Definition _assurance_nested_shape_errors (assurance : dict) : list msg :=
  let repo_suite := dget assurance (u "repo_native_suite") in
  match dget assurance (u "verifier_pack") with VDict pack => _pack_shape_errors pack | _ => [] end
  ++ err (negb (is_none repo_suite) && negb (known_string repo_suite _REPO_SUITE_STATES))
       "repo_native_suite is invalid".

Definition _assurance_shape_errors (assurance : dict) : list msg :=
  let get k := dget assurance (u k) in
  err (negb (known_string (get "execution_state") EXECUTION_STATES)) "execution_state is invalid"
  ++ err (negb (is_nonempty_str (get "execution_phase"))) "execution_phase must be non-empty"
  ++ err (negb (py_eq (get "harness_integrity") (VStr "pre_gate_enforced")))
       "harness_integrity must be pre_gate_enforced"
  ++ err (negb (known_string (get "report_integrity") _REPORT_INTEGRITIES))
       "report_integrity is invalid"
  ++ flat_map (fun field => if known_string (dget assurance field) _ISOLATIONS then []
                            else [[T (field ++ u " is invalid")]])
       (us ["candidate_isolation"; "suite_isolation"])
  ++ err (negb (is_none (get "setup_isolation"))
          && negb (known_string (get "setup_isolation") _SETUP_ISOLATIONS))
       "setup_isolation is invalid"
  ++ err (negb (known_string (get "overall_profile") _OVERALL_PROFILES))
       "overall_profile is invalid"
  ++ _assurance_nested_shape_errors assurance.

(** *** Attestation *)

Definition _attestation_type_errors (attestation : dict) : list msg :=
  flat_map (fun field =>
      match dlookup field attestation with
      | None => []
      | Some v =>
          if (field =s? u "effective_candidate_isolation")
             && _allows_null_effective_isolation attestation then []
          else if is_str v then [] else [[T (field ++ u " must be a string")]]
      end) _ATTESTATION_STRING_FIELDS
  ++ err (dmem (u "effective_policy") attestation
          && negb (is_dict (dget attestation (u "effective_policy"))))
       "effective_policy must be an object"
  ++ err (dmem (u "test_command_started") attestation
          && negb (is_bool (dget attestation (u "test_command_started"))))
       "test_command_started must be a boolean"
  ++ _field_type_errors attestation (us ["candidate_invocations"]) v_is_nullable_int
       "must be an integer or null"
  ++ _field_type_errors attestation (us ["candidate_launcher_invocation_observed"])
       v_is_nullable_bool "must be a boolean or null"
  ++ _field_type_errors attestation _PACK_BOOL_FIELDS v_is_nullable_bool "must be a boolean or null"
  ++ _field_type_errors attestation _PACK_INT_FIELDS v_is_nullable_int "must be an integer or null"
  ++ _field_type_errors attestation _REPO_INT_FIELDS v_is_nullable_int "must be an integer or null"
  ++ _field_type_errors attestation _REPO_BOOL_FIELDS v_is_nullable_bool "must be a boolean or null"
  ++ _field_type_errors attestation _ATTESTATION_NULLABLE_STRING_FIELDS v_is_nullable_string
       "must be a string or null"
  ++ _field_type_errors attestation _PACK_NULLABLE_STRING_FIELDS v_is_nullable_string
       "must be a string or null".

Definition _recognized_digest_pair (digest digest_format : value) (allowed : list str) : bool :=
  (is_none digest && is_none digest_format)
  || (v_valid_sha256 digest && known_string digest_format allowed).

Definition _attestation_identity_shape_errors (attestation : dict) : list msg :=
  let get k := dget attestation (u k) in
  err (negb (_valid_utc_timestamp (get "created_utc")))
    "created_utc must be a valid YYYY-MM-DDTHH:MM:SSZ timestamp"
  ++ err (negb (is_nonempty_str (get "guard_version"))) "guard_version must be non-empty"
  ++ err (negb (known_string (get "mode") (us ["repo"; "blackbox"]))) "mode is invalid"
  ++ err (negb (v_valid_sha256 (get "candidate_sha256")))
       "candidate_sha256 must be a lowercase SHA-256"
  ++ err (negb (v_valid_sha256 (get "policy_sha256"))) "policy_sha256 must be a lowercase SHA-256".

Definition _attestation_junit_shape_errors (attestation : dict) : list msg :=
  let get k := dget attestation (u k) in
  err (negb (_recognized_digest_pair (get "junit_sha256") (get "junit_digest_format")
               _JUNIT_TOP_FORMATS))
    "junit digest and format must form a recognized SHA-256 pair"
  ++ err (dmem (u "repo_suite_junit_digest_format") attestation
          && negb (_recognized_digest_pair (get "repo_suite_junit_sha256")
                     (get "repo_suite_junit_digest_format") _JUNIT_PHASE_FORMATS))
       "repo-suite JUnit digest and format must form a recognized SHA-256 pair"
  ++ err (dmem (u "verifier_pack_junit_digest_format") attestation
          && negb (_recognized_digest_pair (get "verifier_pack_junit_sha256")
                     (get "verifier_pack_junit_digest_format") [JUNIT_XML_DIGEST_FORMAT]))
       "verifier-pack JUnit digest and format must form a recognized SHA-256 pair".

Definition _attestation_execution_shape_errors (attestation : dict) : list msg :=
  let get k := dget attestation (u k) in
  err (negb (known_string (get "execution_state") EXECUTION_STATES)) "execution_state is invalid"
  ++ err (negb (is_nonempty_str (get "execution_phase"))) "execution_phase must be non-empty"
  ++ err (negb (known_string (get "delivered_isolation") _ISOLATIONS))
       "delivered_isolation is invalid"
  ++ err (negb (known_string (get "effective_candidate_isolation") _ISOLATIONS
                || _allows_null_effective_isolation attestation))
       "effective_candidate_isolation is invalid"
  ++ err (match get "candidate_invocations" with VInt n => n <? 0 | _ => false end)
       "candidate_invocations must be non-negative".

Definition _attestation_shape_errors (attestation : dict) : list msg :=
  _attestation_identity_shape_errors attestation
  ++ _attestation_junit_shape_errors attestation
  ++ _attestation_execution_shape_errors attestation.

Definition project_nested_validation (assurance attestation : option dict)
  : NestedValidationProjection := {|
  nv_assurance :=
    (fun a => {| missing_fields := missing_keys V1_11.REQUIRED_ASSURANCE a;
                 type_errors := _assurance_type_errors a;
                 shape_errors := _assurance_shape_errors a |}) <$> assurance;
  nv_attestation :=
    (fun a => {| missing_fields := missing_keys V1_11.REQUIRED_ATTESTATION a;
                 type_errors := _attestation_type_errors a;
                 shape_errors := _attestation_shape_errors a |}) <$> attestation
|}.

Example timestamps :
  map (fun s => _valid_utc_timestamp (VStr s))
    (us ["2012-06-30T23:59:60Z"; "0000-01-01T00:00:00Z"; "2023-02-29T00:00:00Z";
         "2024-02-29T00:00:00Z"; "2024-00-10T00:00:00Z"; "2024-01-00T00:00:00Z";
         "2024-01-31T24:00:00Z"; "1900-02-29T00:00:00Z"; "2000-02-29T00:00:00Z";
         "2026-07-01T10:20:30Z"; "2026-07-01 10:20:30Z"])
  = [false; false; false; true; false; false; false; false; true; true; false].
Proof. vm_compute. reflexivity. Qed.

End Nested.
