(* ===== verification/RecordVerifier.v ===== *)
(** Offline semantic verification of verdict records (record_verifier.py and
    verifiers/record_isolation.py).  [_verify_record] runs the checks in the order of
    the source on an arbitrary JSON value; each [_check_*] returns the checks it
    appends, and [verify_record] is the total public wrapper that turns an
    exception into a failed report. *)
From S2P Require Export RecordPolicy RecordTypes.
Local Open Scope Z_scope.

Definition PACK_DIGEST_FORMAT : str := "EVOGUARD_PACK_V2".

Definition _VERDICTS : list str := map verdict_wire VERDICTS.
Definition _EXECUTION_STATES : list str := map state_wire EXECUTION_STATES.
Definition _REASON_CODES : list str := map reason_wire REASON_CODES.
Definition _VERDICT_SOURCES : list str :=
  us ["junit+exit"; "exit"; "blackbox"; "composite:repo+verifier-pack"; "composite:blackbox+repo"].
Definition _RISK_LEVELS : list str := us ["low"; "medium"; "high"].
Definition _REPORT_INTEGRITY_RANK (s : str) (default : Z) : Z :=
  if s =s? u "same_process_candidate_writable" then 0
  else if s =s? u "external_process_isolated" then 1
  else default.
Definition _ISOLATION_RANK (s : str) (default : Z) : Z :=
  if s =s? u "not_run" then -1
  else if s =s? u "subprocess" then 0
  else if s =s? u "docker" then 1
  else if s =s? u "gvisor" then 2
  else default.

(** [actual if isinstance(actual, str) else ""] *)
Definition str_or_empty (v : value) : str := match v with VStr s => s | _ => [] end.

(** [v in (None, False)] *)
Definition none_or_false (v : value) : bool := py_eq v VNone || py_eq v (VBool false).

(** The exact comparison of the executed/total ratio with a threshold. *)
Definition _coverage_meets_threshold (coverage : option dict) (threshold : value) : bool :=
  match coverage with
  | None => false
  | Some c =>
      if negb (is_true_v (dget c (u "measured"))) then false
      else match dget c (u "executed"), dget c (u "total") with
           | VInt executed, VInt total =>
               match threshold with
               | VInt n => n * total <=? 100 * executed
               | VFloat f =>
                   match as_integer_ratio f with
                   | Some (num, den) => num * total <=? 100 * executed * den
                   | None => false
                   end
               | _ => false
               end
           | _, _ => false
           end
  end.

(** ** Nested objects and lifecycle *)

Definition _nested_type_checks (assurance attestation : option dict) : checks :=
  let projection := Nested.project_nested_validation assurance attestation in
  match Nested.nv_assurance projection with
  | None => c_skip "assurance.required_fields" ++ c_skip "assurance.types"
            ++ c_skip "assurance.shape"
  | Some r =>
      c_expect "assurance.required_fields" (is_empty (Nested.missing_fields r))
      ++ c_expect "assurance.types" (is_empty (Nested.type_errors r))
      ++ c_expect "assurance.shape" (is_empty (Nested.shape_errors r))
  end
  ++ match Nested.nv_attestation projection with
     | None => c_skip "attestation.required_fields" ++ c_skip "attestation.types"
               ++ c_skip "attestation.shape"
     | Some r =>
         c_expect "attestation.required_fields" (is_empty (Nested.missing_fields r))
         ++ c_expect "attestation.types" (is_empty (Nested.type_errors r))
         ++ c_expect "attestation.shape" (is_empty (Nested.shape_errors r))
     end.

Definition _check_lifecycle (record : dict) (assurance attestation : option dict) : checks :=
  let state := dget record (u "execution_state") in
  let phase := dget record (u "execution_phase") in
  let started := dget record (u "test_command_ran") in
  match assurance with
  | None => c_skip "lifecycle.assurance_parity"
  | Some a =>
      c_expect "lifecycle.assurance_parity"
        (py_eq (dget a (u "execution_state")) state && py_eq (dget a (u "execution_phase")) phase)
  end
  ++ match attestation with
     | None => c_skip "lifecycle.attestation_parity"
     | Some a =>
         c_expect "lifecycle.attestation_parity"
           (py_eq (dget a (u "execution_state")) state
            && py_eq (dget a (u "execution_phase")) phase
            && py_eq (dget a (u "test_command_started")) started)
     end
  ++ match started with
     | VBool ran =>
         if negb (known_string state _EXECUTION_STATES) then c_skip "lifecycle.state_semantics"
         else
           let source := dget record (u "verdict_source") in
           let isolation := dget record (u "isolation") in
           let counts_empty := is_none (dget record (u "tests_passed"))
                               && is_none (dget record (u "tests_total")) in
           c_expect "lifecycle.state_semantics"
             (if v_in state (us ["static_gate"; "not_started"]) then
                negb ran && is_none source && py_eq isolation (VStr "not_run") && counts_empty
              else if py_eq state (VStr "completed") then ran
              else is_none source && counts_empty)
     | _ => c_skip "lifecycle.state_semantics"
     end.

(** ** Verdict, reason and counts *)

Definition _completed_all_pass_evidence (record : dict) : bool :=
  let passed := dget record (u "tests_passed") in
  let total := dget record (u "tests_total") in
  let source := dget record (u "verdict_source") in
  let count_evidence :=
    if py_eq source (VStr "exit") then py_eq passed (VInt 0) && py_eq total (VInt 0)
    else match passed, total with
         | VInt p, VInt t => (0 <? t) && (p =? t)
         | _, _ => false
         end in
  py_eq (dget record (u "execution_state")) (VStr "completed")
  && is_true_v (dget record (u "test_command_ran"))
  && known_string source _VERDICT_SOURCES
  && count_evidence.

Definition reason_valid (schema_version reason verdict state : value) : bool :=
  match reason with
  | VStr r =>
      match reason_of_wire r with
      | Some code =>
          let '(verdicts, states) := vc_reason_contract (contract_of_value schema_version) code in
          known_string verdict (map verdict_wire verdicts)
          && known_string state (map state_wire states)
      | None => false
      end
  | _ => false
  end.

Definition _check_verdict_and_counts (record : dict) (schema_version : value) : checks :=
  let get k := dget record (u k) in
  let verdict := get "verdict" in
  let reason_code := get "reason_code" in
  let tests_passed := get "tests_passed" in
  let tests_total := get "tests_total" in
  let source := get "verdict_source" in
  let is_pass := py_eq verdict (VStr "PASS") in
  c_expect "verdict.boolean_exit"
    (known_string verdict _VERDICTS
     && match get "passed", get "exit_code" with
        | VBool passed, VInt exit_code =>
            eqb passed is_pass && (exit_code =? if is_pass then 0 else 1)
        | _, _ => false
        end)
  ++ c_expect "verdict.reason_code"
       (reason_valid schema_version reason_code verdict (get "execution_state"))
  ++ c_expect "verdict.protected_violations"
       (v_is_string_list (get "protected_violations")
        && eqb (truthy (get "protected_violations")) (py_eq verdict (VStr "REJECTED")))
  ++ c_expect "counts.range_pair" (_valid_count_pair tests_passed tests_total)
  ++ c_expect "counts.source_semantics"
       (if py_eq source (VStr "exit") then py_eq tests_passed (VInt 0) && py_eq tests_total (VInt 0)
        else if v_in source (us ["junit+exit"; "blackbox"; "composite:repo+verifier-pack";
                                 "composite:blackbox+repo"]) then
          match tests_passed, tests_total with VInt _, VInt t => 0 <? t | _, _ => false end
        else is_none source)
  ++ (if py_eq reason_code (VStr "tests_failed") then
        c_expect "verdict.failure_evidence"
          match tests_passed, tests_total with
          | VInt p, VInt t => (0 <? t) && (0 <=? p) && (p <? t)
          | _, _ => false
          end
      else c_skip "verdict.failure_evidence")
  ++ (if py_eq reason_code (VStr "junit_exit_mismatch") then
        c_expect "verdict.tamper_evidence"
          match tests_passed, tests_total with
          | VInt p, VInt t => (0 <? t) && (0 <=? p) && (p <=? t)
          | _, _ => false
          end
      else c_skip "verdict.tamper_evidence")
  ++ (if negb is_pass then c_skip "verdict.pass_evidence"
      else c_expect "verdict.pass_evidence" (_completed_all_pass_evidence record)).

(** ** Policy *)

Section RecordVerifier.
Context `{UnicodeDB}.

Definition _check_policy (record : dict) (attestation : option dict) (schema_version : value)
  : result exn (checks * option dict) :=
  match attestation with
  | None => Ok (c_skip "policy.digest" ++ c_skip "policy.contract"
                ++ c_skip "policy.context_parity", None)
  | Some att =>
      match dget att (u "effective_policy"), dget att (u "policy_sha256") with
      | VDict policy, VStr claimed =>
          let* policy_errors := _policy_type_errors policy schema_version in
          let contract := c_expect "policy.contract" (is_empty policy_errors) in
          match _policy_sha256 policy with
          | None =>
              Ok (contract ++ c_fail "policy.digest" ++ c_skip "policy.context_parity", Some policy)
          | Some calculated =>
              let mode := dget att (u "mode") in
              let context_valid :=
                known_string mode (us ["repo"; "blackbox"])
                && py_eq (dget policy (u "mode")) mode
                && py_eq (dget policy (u "blackbox")) (VBool (py_eq mode (VStr "blackbox")))
                && py_eq (dget policy (u "policy_id")) (dget att (u "policy_id"))
                && py_eq (dget policy (u "policy_version")) (dget att (u "policy_version")) in
              Ok (contract
                  ++ c_expect "policy.digest" (hex64_lower claimed && (claimed =s? calculated))
                  ++ c_expect "policy.context_parity" context_valid, Some policy)
          end
      | _, _ =>
          Ok (c_fail "policy.digest" ++ c_fail "policy.contract"
              ++ c_skip "policy.context_parity", None)
      end
  end.

Definition _check_harness_input_change_exclusion (record : dict) (attestation policy : option dict)
  : checks :=
  match policy with
  | None => []
  | Some p =>
      if negb (dmem (u "harness_inputs") p) then []
      else if negb (py_eq (dget record (u "verdict")) (VStr "PASS")) then
        c_skip "policy.harness_change_exclusion"
      else
        let harness_inputs := dget p (u "harness_inputs") in
        let changed_paths := dget record (u "files_changed") in
        let deleted_paths := match attestation with
                             | Some a => dget a (u "deleted_paths")
                             | None => VNone
                             end in
        if negb (_is_canonical_harness_input_list harness_inputs
                 && v_is_string_list changed_paths && v_is_string_list deleted_paths) then
          c_fail "policy.harness_change_exclusion"
        else
          let intersections := sorted_set
            (List.filter (fun path => _touched_path_can_target_harness path (v_strings harness_inputs))
               (v_strings changed_paths ++ v_strings deleted_paths)) in
          c_expect "policy.harness_change_exclusion" (is_empty intersections)
  end.

Definition _check_harness_input_reason_scope (record : dict) (policy : option dict)
    (schema_version : value) : checks :=
  if negb (py_eq schema_version (VStr "1.12")
           && py_eq (dget record (u "reason_code")) (VStr "candidate_tree_changed_during_run")
           && py_eq (dget record (u "execution_state")) (VStr "not_started")) then []
  else
    c_expect "policy.harness_reason_scope"
      (_is_canonical_harness_input_list
         match policy with Some p => dget p (u "harness_inputs") | None => VNone end).

(** ** Producer version and repo-phase evidence *)

(** The maximal run of decimal digits and the rest. *)
Fixpoint span_decimal (s : str) : str * str :=
  match s with
  | c :: s' => match ucd_decimal c with
               | Some _ => let '(a, b) := span_decimal s' in (c :: a, b)
               | None => ([], s)
               end
  | [] => ([], [])
  end.

(** [int] of a run of decimal digits; over 4300 digits it raises. *)
Definition int_of_decimal (s : str) : result exn Z :=
  guard* Nat.leb (length s) 4300 else ValueError_int_digits in
  Ok (fold_left (fun acc c => match ucd_decimal c with
                              | Some d => acc * 10 + Z.of_N d
                              | None => acc
                              end) s 0).

(** The three numeric groups of [(\d+)\.(\d+)\.(\d+)] followed by nothing or by
    a character that is not a digit and a tail without a line feed. *)
Definition version_groups (s : str) : option (str * str * str) :=
  let '(a, r1) := span_decimal s in
  match a, r1 with
  | _ :: _, d1 :: r1' =>
      if negb (N.eqb d1 ch_dot) then None
      else let '(b, r2) := span_decimal r1' in
      match b, r2 with
      | _ :: _, d2 :: r2' =>
          if negb (N.eqb d2 ch_dot) then None
          else let '(c, r3) := span_decimal r2' in
          match c, r3 with
          | _ :: _, [] => Some (a, b, c)
          | _ :: _, _ :: tail => if char_in ch_nl tail then None else Some (a, b, c)
          | _, _ => None
          end
      | _, _ => None
      end
  | _, _ => None
  end.

Definition triple_geb (x y : Z * Z * Z) : bool :=
  let '(a, b, c) := x in
  let '(a', b', c') := y in
  (a' <? a) || ((a =? a') && ((b' <? b) || ((b =? b') && (c' <=? c)))).

Definition _producer_version_at_least (attestation : dict) (minimum : Z * Z * Z) : result exn bool :=
  match dget attestation (u "guard_version") with
  | VStr version =>
      match version_groups version with
      | None => Ok false
      | Some (a, b, c) =>
          let* x := int_of_decimal a in
          let* y := int_of_decimal b in
          let* z := int_of_decimal c in
          Ok (triple_geb (x, y, z) minimum)
      end
  | _ => Ok false
  end.

Definition _requires_repo_phase_evidence (attestation : dict) : result exn bool :=
  match dget attestation (u "effective_policy") with
  | VDict policy =>
      if py_eq (dget policy (u "mode")) (VStr "repo")
         && is_true_v (dget policy (u "verifier_pack_required"))
      then _producer_version_at_least attestation (4, 0, 2)
      else Ok false
  | _ => Ok false
  end.

(** The repo-suite JUnit identity agrees with the kind of its verdict source. *)
Definition suite_digest_valid (attestation : dict) : bool :=
  let suite_digest := dget attestation (u "repo_suite_junit_sha256") in
  let suite_digest_format := dget attestation (u "repo_suite_junit_digest_format") in
  if py_eq (dget attestation (u "repo_suite_verdict_source")) (VStr "junit+exit") then
    v_valid_sha256 suite_digest && known_string suite_digest_format Nested._JUNIT_PHASE_FORMATS
  else is_none suite_digest && is_none suite_digest_format.

Definition _repo_suite_pass_evidence (record : dict) (attestation : option dict) : result exn bool :=
  match attestation with
  | None => Ok (_completed_all_pass_evidence record)
  | Some att =>
      let suite_passed := dget att (u "repo_suite_passed") in
      let suite_source := dget att (u "repo_suite_verdict_source") in
      let incomplete :=
        let* required := _requires_repo_phase_evidence att in
        if required then Ok false else Ok (_completed_all_pass_evidence record) in
      match dget att (u "repo_suite_tests_passed"), dget att (u "repo_suite_tests_total"),
            dget att (u "repo_suite_returncode") with
      | VInt suite_count, VInt suite_total, VInt suite_returncode =>
          let phase_complete :=
            is_true_v (dget att (u "repo_suite_started"))
            && is_true_v (dget att (u "repo_suite_completed"))
            && py_eq (dget att (u "repo_suite_state")) (VStr "repo_phase_completed")
            && is_bool suite_passed
            && ((suite_returncode =? 0) || (suite_returncode =? 1))
            && v_in suite_source (us ["junit+exit"; "exit"])
            && suite_digest_valid att in
          if negb phase_complete then incomplete
          else
            let count_pass :=
              if py_eq suite_source (VStr "exit") then
                (suite_returncode =? 0) && (suite_count =? 0) && (suite_total =? 0)
              else (suite_returncode =? 0) && (0 <? suite_total) && (suite_count =? suite_total) in
            let verdict := is_true_v suite_passed && count_pass in
            if py_eq (dget record (u "verdict_source")) (VStr "composite:repo+verifier-pack") then
              match dget record (u "tests_passed"), dget record (u "tests_total"),
                    dget att (u "verifier_pack_tests_passed"),
                    dget att (u "verifier_pack_tests_total") with
              | VInt top_passed, VInt top_total, VInt pack_passed, VInt pack_total =>
                  if negb (suite_count =? top_passed - pack_passed)
                     || negb (suite_total =? top_total - pack_total)
                  then Ok false else Ok verdict
              | _, _, _, _ => Ok false
              end
            else Ok verdict
      | _, _, _ => incomplete
      end
  end.

(** ** Coverage and baseline evidence *)

Definition _required_coverage_unmeasured (record policy : dict) : bool :=
  v_is_number (dget policy (u "min_diff_coverage"))
  && py_eq (dget policy (u "mode")) (VStr "repo")
  && py_eq (dget policy (u "isolation")) (VStr "subprocess")
  && match dget record (u "diff_coverage") with
     | VDict coverage => is_false_v (dget coverage (u "measured"))
     | _ => false
     end
  && _completed_all_pass_evidence record.

(** The shape check of an optional evidence object: the checks, whether the
    shape is valid, and the object. *)
Definition shape_check (id : string) (v : value) (errors : dict -> result exn (list msg))
  : result exn (checks * bool * option dict) :=
  match v with
  | VNone => Ok (c_skip id, true, None)
  | VDict d => let* es := errors d in Ok (c_expect id (is_empty es), is_empty es, Some d)
  | _ => Ok (c_fail id, false, None)
  end.

Definition coverage_policy_semantics (record policy : dict) (coverage : option dict)
    (coverage_shape_valid : bool) : bool :=
  let threshold := dget policy (u "min_diff_coverage") in
  let reason := dget record (u "reason_code") in
  let verdict := dget record (u "verdict") in
  let measured_coverage :=
    match coverage with
    | Some c => if coverage_shape_valid && is_true_v (dget c (u "measured")) then Some c else None
    | None => None
    end in
  let has_measured := is_some measured_coverage in
  let measured_meets_threshold := _coverage_meets_threshold measured_coverage threshold in
  let repo_subprocess := py_eq (dget policy (u "mode")) (VStr "repo")
                         && py_eq (dget policy (u "isolation")) (VStr "subprocess") in
  if py_eq reason (VStr "diff_coverage_below_threshold") then
    v_is_number threshold && has_measured && negb measured_meets_threshold
    && repo_subprocess && _completed_all_pass_evidence record
  else if py_eq reason (VStr "assurance_requirement_not_met") && py_eq verdict (VStr "ERROR")
          && negb (is_none threshold) && _completed_all_pass_evidence record then
    _required_coverage_unmeasured record policy || (has_measured && measured_meets_threshold)
  else if py_eq verdict (VStr "PASS") && negb (is_none threshold) then
    v_is_number threshold && has_measured && measured_meets_threshold && repo_subprocess
  else true.

(** [repair_effect] the baseline must declare, given the candidate suite. *)
Definition expected_effect (baseline_verdict : value) (candidate_suite_passed : bool) : str :=
  if py_eq baseline_verdict (VStr "NO_CLEAN_VERDICT") then u "unmeasured"
  else if py_eq baseline_verdict (VStr "FAIL") && candidate_suite_passed then u "demonstrated"
  else u "not_demonstrated".

Definition baseline_policy_semantics (record policy : dict) (attestation baseline : option dict)
    (baseline_shape_valid : bool) : result exn bool :=
  let reason := dget record (u "reason_code") in
  let is_pass := py_eq (dget record (u "verdict")) (VStr "PASS") in
  let evidence := is_true_v (dget policy (u "baseline_evidence")) in
  let fix_required := is_true_v (dget policy (u "require_demonstrated_fix")) in
  let requested_baseline := evidence || fix_required in
  let bget k := match baseline with Some b => dget b (u k) | None => VNone end in
  let repo_suite := is_some baseline && py_eq (bget "scope") (VStr "repo_suite_only") in
  let scope_ok :=
    match baseline with
    | None => true
    | Some _ =>
        requested_baseline
        && (if py_eq (bget "scope") (VStr "repo_suite_only") then
              py_eq (dget policy (u "mode")) (VStr "repo")
              && py_eq (dget policy (u "isolation")) (VStr "subprocess")
            else if py_eq (bget "scope") (VStr "unsupported_mode") then
              evidence && is_false_v (dget policy (u "require_demonstrated_fix"))
              && (py_eq (dget policy (u "mode")) (VStr "blackbox")
                  || negb (py_eq (dget policy (u "isolation")) (VStr "subprocess")))
            else true)
    end in
  let* effect_ok :=
    if repo_suite then
      let* candidate_suite_passed := _repo_suite_pass_evidence record attestation in
      Ok (py_eq (bget "repair_effect")
            (VStr (expected_effect (bget "verdict") candidate_suite_passed)))
    else Ok true in
  let fix_ok :=
    if is_pass && is_some baseline && fix_required then
      repo_suite && py_eq (bget "verdict") (VStr "FAIL")
      && py_eq (bget "repair_effect") (VStr "demonstrated")
    else true in
  let gate_ok :=
    if py_eq reason (VStr "fix_not_demonstrated") then
      fix_required && repo_suite
      && ((py_eq (bget "verdict") (VStr "PASS")
           && py_eq (bget "repair_effect") (VStr "not_demonstrated"))
          || (py_eq (bget "verdict") (VStr "NO_CLEAN_VERDICT")
              && py_eq (bget "repair_effect") (VStr "unmeasured")))
      && _completed_all_pass_evidence record
    else true in
  Ok (baseline_shape_valid && scope_ok
      && (negb (is_pass && requested_baseline) || is_some baseline)
      && effect_ok && fix_ok && gate_ok).

Definition _check_evidence_contracts (record : dict) (policy attestation : option dict)
  : result exn checks :=
  let* (coverage_checks, coverage_shape_valid, coverage) :=
    shape_check "diff_coverage.shape" (dget record (u "diff_coverage"))
      Coverage.project_diff_coverage_type_errors in
  let* (baseline_checks, baseline_shape_valid, baseline) :=
    shape_check "baseline.shape" (dget record (u "baseline"))
      (fun b => Ok (Baseline.project_baseline_type_errors b)) in
  match policy with
  | None => Ok (coverage_checks ++ baseline_checks
                ++ c_skip "diff_coverage.policy_semantics" ++ c_skip "baseline.policy_semantics")
  | Some p =>
      let* baseline_semantics :=
        baseline_policy_semantics record p attestation baseline baseline_shape_valid in
      Ok (coverage_checks ++ baseline_checks
          ++ c_expect "diff_coverage.policy_semantics"
               (coverage_policy_semantics record p coverage coverage_shape_valid)
          ++ c_expect "baseline.policy_semantics" baseline_semantics)
  end.

(** ** Runtime bindings of the policy *)

Definition report_shortfall (policy assurance : dict) : bool :=
  match dget policy (u "require_report_integrity") with
  | VStr report_floor =>
      _REPORT_INTEGRITY_RANK (str_or_empty (dget assurance (u "report_integrity"))) (-1)
      <? _REPORT_INTEGRITY_RANK report_floor 99
  | _ => false
  end.

Definition isolation_shortfall (policy assurance : dict) : bool :=
  match dget policy (u "require_candidate_isolation") with
  | VStr isolation_floor =>
      _ISOLATION_RANK (str_or_empty (dget assurance (u "candidate_isolation"))) (-2)
      <? _ISOLATION_RANK isolation_floor 99
  | _ => false
  end.

Definition pin_valid (record policy assurance attestation : dict) : bool :=
  let expected := dget policy (u "expect_verifier_pack_sha256") in
  let observed := dget attestation (u "verifier_pack_sha256") in
  let reason := dget record (u "reason_code") in
  let named := py_eq reason (VStr "verifier_pack_identity_mismatch") in
  let is_pass := py_eq (dget record (u "verdict")) (VStr "PASS") in
  match expected with
  | VNone => negb named
  | VStr _ =>
      let pass_ok := if is_pass then py_eq observed expected else true in
      match observed with
      | VStr _ =>
          if negb (py_eq observed expected) then
            pass_ok
            && named
            && py_eq (dget record (u "verdict")) (VStr "ERROR")
            && py_eq (dget record (u "execution_state")) (VStr "not_started")
            && is_none (dget record (u "verdict_source"))
            && match dget assurance (u "verifier_pack") with
               | VDict pack =>
                   is_true_v (dget pack (u "present"))
                   && is_false_v (dget pack (u "identity_verified"))
                   && py_eq (dget pack (u "integrity")) (VStr "snapshot_identity_mismatch")
               | _ => false
               end
          else pass_ok && negb named
      | _ => if named then false else pass_ok
      end
  | _ => false
  end.

Definition _check_policy_runtime_bindings (record : dict) (assurance attestation policy : option dict)
  : checks :=
  match policy, assurance with
  | Some p, Some a =>
      let floor_shortfall := report_shortfall p a || isolation_shortfall p a in
      let coverage_shortfall := _required_coverage_unmeasured record p in
      c_expect "policy.assurance_floors"
        (if py_eq (dget record (u "verdict")) (VStr "PASS") then negb floor_shortfall
         else if py_eq (dget record (u "reason_code")) (VStr "assurance_requirement_not_met")
                 && py_eq (dget record (u "execution_state")) (VStr "completed") then
           (floor_shortfall || coverage_shortfall) && _completed_all_pass_evidence record
         else true)
  | _, _ => c_skip "policy.assurance_floors"
  end
  ++ match policy, assurance, attestation with
     | Some p, Some a, Some att => c_expect "policy.pack_digest_pin" (pin_valid record p a att)
     | _, _, _ => c_skip "policy.pack_digest_pin"
     end.

(** ** Candidate receipts and isolation *)

Definition _check_receipts (record : dict) (assurance attestation : option dict) : checks :=
  match attestation with
  | None => c_skip "candidate_receipt.zero_nonzero" ++ c_skip "candidate_receipt.isolation"
  | Some att =>
      let mode := dget att (u "mode") in
      let invocations := dget att (u "candidate_invocations") in
      let observed := dget att (u "candidate_launcher_invocation_observed") in
      let state := dget record (u "execution_state") in
      let isolation := dget record (u "isolation") in
      let effective := dget att (u "effective_candidate_isolation") in
      if py_eq mode (VStr "repo") then
        c_expect "candidate_receipt.zero_nonzero" (is_none invocations && is_none observed)
        ++ c_skip "candidate_receipt.isolation"
      else if negb (py_eq mode (VStr "blackbox")) then
        c_skip "candidate_receipt.zero_nonzero" ++ c_skip "candidate_receipt.isolation"
      else if known_string state (us ["static_gate"; "not_started"]) then
        c_expect "candidate_receipt.zero_nonzero"
          ((is_none invocations && is_none observed)
           || (py_eq invocations (VInt 0) && is_false_v observed))
        ++ c_expect "candidate_receipt.isolation"
             (py_eq isolation (VStr "not_run")
              && (if py_eq state (VStr "static_gate") then py_eq effective (VStr "not_run")
                  else is_none effective || py_eq effective (VStr "not_run")))
      else
        let receipt_valid :=
          match invocations, observed with
          | VInt n, VBool o => (0 <=? n) && eqb o (0 <? n)
          | _, _ => false
          end in
        let assurance_isolation := match assurance with
                                   | Some a => dget a (u "candidate_isolation")
                                   | None => VNone
                                   end in
        let isolation_valid :=
          match observed with
          | VBool o =>
              ((o && known_string isolation _REQUESTED_ISOLATIONS)
               || (negb o && py_eq isolation (VStr "not_run")))
              && py_eq assurance_isolation isolation && py_eq effective isolation
          | _ => false
          end in
        c_expect "candidate_receipt.zero_nonzero" receipt_valid
        ++ c_expect "candidate_receipt.isolation"
             (isolation_valid
              && (negb (py_eq (dget record (u "reason_code")) (VStr "candidate_not_exercised"))
                  || (py_eq invocations (VInt 0) && is_false_v observed))
              && (negb (py_eq (dget record (u "verdict")) (VStr "PASS")) || is_true_v observed))
  end.

Definition _check_isolation (record : dict) (assurance attestation : option dict) : checks :=
  let isolation := dget record (u "isolation") in
  match assurance with
  | None => c_skip "isolation.assurance_parity"
  | Some a => c_expect "isolation.assurance_parity"
                (py_eq (dget a (u "candidate_isolation")) isolation)
  end
  ++ match attestation with
     | None => c_skip "isolation.attestation_parity"
     | Some att =>
         let effective := dget att (u "effective_candidate_isolation") in
         let valid :=
           if py_eq (dget record (u "execution_state")) (VStr "not_started")
              && is_false_v (dget record (u "test_command_ran"))
              && py_eq isolation (VStr "not_run") && is_none effective
           then true else py_eq effective isolation in
         c_expect "isolation.attestation_parity"
           (valid && match assurance with
                     | Some a => py_eq (dget att (u "delivered_isolation"))
                                   (dget a (u "suite_isolation"))
                     | None => true
                     end)
     end.

(** ** Verdict source *)

(** Whether the JUnit identity fits the declared source. *)
Definition source_identity_valid (attestation : dict) (source : value) : result exn bool :=
  let junit_digest := dget attestation (u "junit_sha256") in
  let junit_format := dget attestation (u "junit_digest_format") in
  let* current := _producer_version_at_least attestation (4, 0, 2) in
  let legacy_missing_junit_identity :=
    negb current && is_none junit_digest && is_none junit_format in
  if py_eq source (VStr "junit+exit") then
    Ok ((v_valid_sha256 junit_digest && known_string junit_format Nested._JUNIT_PHASE_FORMATS)
        || legacy_missing_junit_identity)
  else if py_eq source (VStr "exit") then Ok (is_none junit_digest && is_none junit_format)
  else if v_in source (us ["blackbox"; "composite:blackbox+repo"]) then
    Ok ((v_valid_sha256 junit_digest && py_eq junit_format (VStr JUNIT_XML_DIGEST_FORMAT))
        || legacy_missing_junit_identity)
  else if py_eq source (VStr "composite:repo+verifier-pack") then
    let* required := _requires_repo_phase_evidence attestation in
    let expected_composite_format :=
      if required && py_eq (dget attestation (u "repo_suite_verdict_source")) (VStr "junit+exit")
      then JUNIT_COMPOSITE_DIGEST_FORMAT else u "EVOGUARD_JUNIT_COMPOSITE_V1" in
    Ok ((v_valid_sha256 junit_digest && py_eq junit_format (VStr expected_composite_format))
        || legacy_missing_junit_identity)
  else Ok true.

Definition phase_by_source (source : value) : value :=
  match source with
  | VStr s =>
      if s =s? u "junit+exit" then VStr "repo_suite"
      else if s =s? u "exit" then VStr "repo_suite"
      else if s =s? u "blackbox" then VStr "blackbox_pack"
      else if s =s? u "composite:repo+verifier-pack" then VStr "verifier_pack"
      else if s =s? u "composite:blackbox+repo" then VStr "repo_suite"
      else VNone
  | _ => VNone
  end.

Definition source_mode_policy (record assurance attestation policy : dict) : bool :=
  let mode := dget policy (u "mode") in
  let source := dget record (u "verdict_source") in
  let state := dget record (u "execution_state") in
  let is_pass := py_eq (dget record (u "verdict")) (VStr "PASS") in
  let pack_is_required := is_true_v (dget policy (u "verifier_pack_required")) in
  let blackbox_is_only := is_true_v (dget policy (u "blackbox_only")) in
  let pack_completed := is_true_v (dget attestation (u "verifier_pack_completed")) in
  let repo_native_suite := dget assurance (u "repo_native_suite") in
  let from s := py_eq source (VStr (u s)) in
  (is_none source
   || (py_eq state (VStr "completed")
       && py_eq (dget record (u "execution_phase")) (phase_by_source source)))
  && if py_eq mode (VStr "repo") then
       negb (v_in source (us ["blackbox"; "composite:blackbox+repo"]))
       && (negb (from "composite:repo+verifier-pack") || (pack_is_required && pack_completed))
       && (negb (v_in source (us ["junit+exit"; "exit"])) || negb pack_is_required)
       && (negb is_pass
           || if pack_is_required then from "composite:repo+verifier-pack"
              else v_in source (us ["junit+exit"; "exit"]))
     else
       negb (v_in source (us ["junit+exit"; "exit"; "composite:repo+verifier-pack"]))
       && (v_in state (us ["static_gate"; "not_started"]) || pack_is_required)
       && (if from "composite:blackbox+repo" then
             negb blackbox_is_only && pack_completed
             && py_eq repo_native_suite (VStr "composed_completed")
           else if from "blackbox" then
             pack_completed
             && (blackbox_is_only
                 || py_eq repo_native_suite (VStr "required_not_run_short_circuit"))
           else true)
       && (negb is_pass
           || if blackbox_is_only then from "blackbox" else from "composite:blackbox+repo").

Definition _check_source_contract (record : dict) (assurance attestation policy : option dict)
  : result exn checks :=
  match attestation, policy, assurance with
  | Some att, Some p, Some a =>
      let source := dget record (u "verdict_source") in
      let shape :=
        known_string (dget p (u "mode")) (us ["repo"; "blackbox"])
        && is_bool (dget p (u "blackbox_only"))
        && is_bool (dget p (u "verifier_pack_required"))
        && (is_none source || known_string source _VERDICT_SOURCES) in
      let* identity := source_identity_valid att source in
      if negb (shape && identity) then Ok (c_fail "source.mode_policy")
      else Ok (c_expect "source.mode_policy" (source_mode_policy record a att p))
  | _, _, _ => Ok (c_skip "source.mode_policy")
  end.

(** ** Assurance semantics *)

(** The report integrity and profile of a run that started its tests, by
    lifecycle and mode. *)
Definition started_profile_valid (assurance policy : dict) (state : value) : bool :=
  let get k := dget assurance (u k) in
  let mode_repo := py_eq (dget policy (u "mode")) (VStr "repo") in
  let report s := py_eq (get "report_integrity") (VStr (u s)) in
  let profile s := py_eq (get "overall_profile") (VStr (u s)) in
  let repo_state := get "repo_native_suite" in
  if py_eq state (VStr "started_incomplete") then
    profile "execution_incomplete"
    && (if mode_repo then report "same_process_candidate_writable"
        else if v_in repo_state (us ["required_started_incomplete"; "composed_completed"])
             then report "same_process_candidate_writable"
             else report "external_process_isolated")
  else if mode_repo then
    report "same_process_candidate_writable"
    && (if py_eq (get "setup_isolation") (VStr "subprocess_host_opt_in")
        then profile "mixed_host_setup_repo_native"
        else if v_in (get "suite_isolation") (us ["docker"; "gvisor"])
        then profile "isolated_repo_native"
        else profile "repo_native_same_process")
  else
    let blackbox_only := dget policy (u "blackbox_only") in
    if is_true_v blackbox_only then
      py_eq repo_state (VStr "not_required_blackbox_only")
      && report "external_process_isolated" && profile "black_box_external_judge"
    else if is_false_v blackbox_only && py_eq repo_state (VStr "composed_completed") then
      report "same_process_candidate_writable" && profile "composite_blackbox_repo_native"
    else
      v_in repo_state (us ["required_not_run_short_circuit"; "required_not_started";
                           "required_started_incomplete"])
      && report "external_process_isolated" && profile "blackbox_composite_short_circuit".

Definition _check_assurance_semantics (record : dict) (assurance policy : option dict) : checks :=
  match assurance with
  | None => c_skip "assurance.lifecycle_profile"
  | Some a =>
      let get k := dget a (u k) in
      let has k s := py_eq (get k) (VStr (u s)) in
      let state := dget record (u "execution_state") in
      let ran := dget record (u "test_command_ran") in
      let harness := has "harness_integrity" "pre_gate_enforced" in
      if py_eq state (VStr "static_gate") then
        c_expect "assurance.lifecycle_profile"
          (harness && has "overall_profile" "static_gate"
           && has "report_integrity" "not_applicable_static_gate"
           && has "candidate_isolation" "not_run" && has "suite_isolation" "not_run"
           && has "runtime_continuity" "not_applicable")
      else if py_eq state (VStr "not_started") then
        c_expect "assurance.lifecycle_profile"
          (harness && has "overall_profile" "preflight"
           && has "report_integrity" "not_applicable_not_run"
           && has "candidate_isolation" "not_run" && has "suite_isolation" "not_run")
      else if py_eq state (VStr "started_incomplete") && is_false_v ran then
        c_expect "assurance.lifecycle_profile"
          (harness && has "overall_profile" "execution_incomplete_before_tests"
           && has "report_integrity" "not_applicable_not_run"
           && has "candidate_isolation" "not_run" && has "suite_isolation" "not_run")
      else if v_in state (us ["started_incomplete"; "completed"]) && is_true_v ran then
        match policy with
        | Some p =>
            if known_string (dget p (u "mode")) (us ["repo"; "blackbox"]) then
              c_expect "assurance.lifecycle_profile" (harness && started_profile_valid a p state)
            else c_skip "assurance.lifecycle_profile"
        | None => c_skip "assurance.lifecycle_profile"
        end
      else c_fail "assurance.lifecycle_profile"
  end.

(** ** Verifier pack *)

Definition pack_identity_valid (attestation : dict) (pack : value) : bool :=
  let digest := dget attestation (u "verifier_pack_sha256") in
  let digest_format := dget attestation (u "verifier_pack_digest_format") in
  let present := dget attestation (u "verifier_pack_present") in
  match pack with
  | VDict pk =>
      py_eq (dget pk (u "snapshot_sha256")) digest
      && py_eq (dget pk (u "present")) present
      && (if is_none digest then is_none digest_format
          else v_valid_sha256 digest && py_eq digest_format (VStr PACK_DIGEST_FORMAT))
      && (negb (is_true_v (dget pk (u "identity_verified"))) || negb (is_none digest))
      && (negb (is_false_v present) || is_none digest)
  | _ => is_none digest && is_none digest_format && none_or_false present
  end.

Definition pack_lifecycle_valid (attestation : dict) (pack top_state : value) : bool :=
  let started := dget attestation (u "verifier_pack_started") in
  let completed := dget attestation (u "verifier_pack_completed") in
  match pack with
  | VDict pk =>
      let pack_state := dget pk (u "execution_state") in
      if py_eq top_state (VStr "static_gate") then
        py_eq pack_state (VStr "static_gate") && none_or_false started && none_or_false completed
      else if py_eq top_state (VStr "not_started") then
        py_eq pack_state (VStr "not_started") && none_or_false started && none_or_false completed
      else
        let expected_state :=
          if is_true_v completed then u "completed"
          else if is_true_v started then u "started_incomplete"
          else u "not_started" in
        match started, completed with
        | VBool s, VBool c => (negb c || s) && py_eq pack_state (VStr expected_state)
        | _, _ => false
        end
  | _ => none_or_false started && none_or_false completed
  end.

Definition pack_counts_valid (record attestation : dict) : bool :=
  let pack_passed := dget attestation (u "verifier_pack_tests_passed") in
  let pack_total := dget attestation (u "verifier_pack_tests_total") in
  let pack_completed := is_true_v (dget attestation (u "verifier_pack_completed")) in
  let null_counts := is_none pack_passed && is_none pack_total in
  let post_execution_tamper :=
    v_in (dget record (u "reason_code"))
      (us ["verifier_pack_snapshot_changed"; "candidate_tree_changed_during_run"]) in
  let completed_zero_test_error :=
    pack_completed && py_eq pack_passed (VInt 0) && py_eq pack_total (VInt 0)
    && py_eq (dget record (u "execution_state")) (VStr "completed")
    && py_eq (dget record (u "verdict")) (VStr "ERROR")
    && py_eq (dget record (u "reason_code")) (VStr "no_test_verdict")
    && is_none (dget record (u "verdict_source")) in
  _valid_count_pair pack_passed pack_total
  && ((pack_completed
       && (match pack_passed, pack_total with VInt _, VInt t => 0 <? t | _, _ => false end
           || completed_zero_test_error
           || (post_execution_tamper && null_counts)))
      || (negb pack_completed && null_counts)).

Definition pack_pass_valid (attestation : dict) (pack : value) : bool :=
  match pack with
  | VDict pk =>
      is_true_v (dget pk (u "configured"))
      && is_true_v (dget pk (u "present"))
      && is_true_v (dget pk (u "identity_verified"))
      && known_string (dget pk (u "integrity"))
           (us ["verified_snapshot_pre_post"; "verified_snapshot_read_only"])
      && py_eq (dget pk (u "execution_state")) (VStr "completed")
      && v_valid_sha256 (dget attestation (u "verifier_pack_sha256"))
      && is_true_v (dget attestation (u "verifier_pack_present"))
      && is_true_v (dget attestation (u "verifier_pack_started"))
      && is_true_v (dget attestation (u "verifier_pack_completed"))
      && match dget attestation (u "verifier_pack_tests_passed"),
               dget attestation (u "verifier_pack_tests_total") with
         | VInt p, VInt t => (0 <? t) && (p =? t)
         | _, _ => false
         end
  | _ => false
  end.

Definition _check_pack (record : dict) (assurance attestation policy : option dict) : checks :=
  match assurance, policy with
  | Some a, Some p =>
      let configured := dget p (u "verifier_pack_required") in
      let pack := dget a (u "verifier_pack") in
      let config_valid :=
        match configured with
        | VBool c => if c then is_dict pack else is_none pack
        | _ => false
        end
        && match pack with VDict pk => is_true_v (dget pk (u "configured")) | _ => true end in
      c_expect "pack.configuration_parity" config_valid
      ++ match attestation with
         | None =>
             c_skip "pack.identity_parity" ++ c_skip "pack.lifecycle_parity" ++ c_skip "pack.counts"
             ++ c_skip "pack.blackbox_count_parity" ++ c_skip "pack.pass_evidence"
         | Some att =>
             c_expect "pack.identity_parity" (pack_identity_valid att pack)
             ++ c_expect "pack.lifecycle_parity"
                  (pack_lifecycle_valid att pack (dget record (u "execution_state")))
             ++ c_expect "pack.counts" (pack_counts_valid record att)
             ++ (if py_eq (dget record (u "verdict_source")) (VStr "blackbox") then
                   c_expect "pack.blackbox_count_parity"
                     match dget record (u "tests_passed"), dget record (u "tests_total"),
                           dget att (u "verifier_pack_tests_passed"),
                           dget att (u "verifier_pack_tests_total") with
                     | VInt tp, VInt tot, VInt pp, VInt pt => (tp =? pp) && (tot =? pt) && (0 <? pt)
                     | _, _, _, _ => false
                     end
                 else c_skip "pack.blackbox_count_parity")
             ++ (if negb (py_eq (dget record (u "verdict")) (VStr "PASS"))
                    || negb (is_true_v configured)
                 then c_skip "pack.pass_evidence"
                 else c_expect "pack.pass_evidence" (pack_pass_valid att pack))
         end
  | _, _ =>
      c_skip "pack.configuration_parity" ++ c_skip "pack.identity_parity"
      ++ c_skip "pack.lifecycle_parity" ++ c_skip "pack.counts"
      ++ c_skip "pack.blackbox_count_parity" ++ c_skip "pack.pass_evidence"
  end.

(** ** Composites *)

(** The four counts a composite is decomposed with. *)
Definition numeric_counts (record attestation : dict) : option (Z * Z * Z * Z) :=
  match dget record (u "tests_passed"), dget record (u "tests_total"),
        dget attestation (u "verifier_pack_tests_passed"),
        dget attestation (u "verifier_pack_tests_total") with
  | VInt tp, VInt tot, VInt pp, VInt pt => Some (tp, tot, pp, pt)
  | _, _, _, _ => None
  end.

Definition composite_counts_valid (n : option (Z * Z * Z * Z)) : bool :=
  match n with
  | Some (tp, tot, pp, pt) =>
      (0 <=? pp) && (pp <=? pt) && (pt <=? tot) && (pp <=? tp)
      && (0 <=? tp - pp) && (tp - pp <=? tot - pt)
  | None => false
  end.

Definition _REPO_PHASE_FIELDS : list str :=
  us ["repo_suite_started"; "repo_suite_completed"; "repo_suite_state"; "repo_suite_passed";
      "repo_suite_tests_passed"; "repo_suite_tests_total"; "repo_suite_verdict_source";
      "repo_suite_returncode"; "repo_suite_junit_sha256"; "repo_suite_junit_digest_format"].

Definition blackbox_composite_valid (assurance : option dict) (attestation : dict)
    (n : option (Z * Z * Z * Z)) : bool :=
  is_true_v (dget attestation (u "repo_suite_started"))
  && is_true_v (dget attestation (u "repo_suite_completed"))
  && py_eq (dget attestation (u "repo_suite_state")) (VStr "composed_completed")
  && is_bool (dget attestation (u "repo_suite_passed"))
  && match assurance with
     | Some a => py_eq (dget a (u "repo_native_suite")) (VStr "composed_completed")
                 && py_eq (dget a (u "report_integrity")) (VStr "same_process_candidate_writable")
     | None => false
     end
  && match n with
     | Some (tp, tot, pp, pt) =>
         let repo_passed := tp - pp in
         let repo_total := tot - pt in
         (0 <? pt) && (pp =? pt)
         && if is_true_v (dget attestation (u "repo_suite_passed"))
            then (0 <? repo_total) && (repo_passed =? repo_total)
            else (0 <? repo_total) && (repo_passed <? repo_total)
     | None => true
     end.

(** The identity a composite V2 digest commits to. *)
Definition composite_identity (suite_format suite_digest pack_digest : str) : str :=
  JUNIT_COMPOSITE_DIGEST_FORMAT ++ [0%N] ++ u "repo" ++ [0%N] ++ suite_format ++ [0%N]
  ++ suite_digest ++ [0%N] ++ u "verifier-pack" ++ [0%N] ++ JUNIT_XML_DIGEST_FORMAT ++ [0%N]
  ++ pack_digest.

Definition composite_digest_valid (attestation : dict) : result exn bool :=
  let get k := dget attestation (u k) in
  if py_eq (get "junit_digest_format") (VStr JUNIT_COMPOSITE_DIGEST_FORMAT) then
    Ok match get "repo_suite_junit_sha256", get "repo_suite_junit_digest_format",
             get "verifier_pack_junit_sha256", get "junit_sha256" with
       | VStr suite_digest, VStr suite_format, VStr pack_digest, VStr top_digest =>
           hex64_lower suite_digest && str_in suite_format Nested._JUNIT_PHASE_FORMATS
           && hex64_lower pack_digest
           && py_eq (get "verifier_pack_junit_digest_format") (VStr JUNIT_XML_DIGEST_FORMAT)
           && hex64_lower top_digest
           && (sha256_hex (ascii_bytes (composite_identity suite_format suite_digest pack_digest))
               =s? top_digest)
       | _, _, _, _ => false
       end
  else if py_eq (get "repo_suite_junit_digest_format") (VStr JUNIT_REPORT_SET_DIGEST_FORMAT)
  then Ok false
  else
    let* required := _requires_repo_phase_evidence attestation in
    Ok (negb (required && py_eq (get "repo_suite_verdict_source") (VStr "junit+exit"))).

Definition repo_composite_valid (attestation : dict) (n : option (Z * Z * Z * Z))
  : result exn bool :=
  let get k := dget attestation (u k) in
  let suite_passed := get "repo_suite_tests_passed" in
  let suite_total := get "repo_suite_tests_total" in
  let suite_source := get "repo_suite_verdict_source" in
  let suite_returncode := get "repo_suite_returncode" in
  let* digest_ok := composite_digest_valid attestation in
  Ok (is_true_v (get "repo_suite_started")
      && is_true_v (get "repo_suite_completed")
      && py_eq (get "repo_suite_state") (VStr "repo_phase_completed")
      && is_bool (get "repo_suite_passed")
      && v_is_int suite_passed && v_is_int suite_total
      && v_in suite_source (us ["junit+exit"; "exit"])
      && match suite_returncode with VInt r => (r =? 0) || (r =? 1) | _ => false end
      && suite_digest_valid attestation
      && digest_ok
      && match n, suite_passed, suite_total with
         | Some (tp, tot, pp, pt), VInt sp, VInt st =>
             let clean_repo_pass :=
               py_eq suite_returncode (VInt 0)
               && (if py_eq suite_source (VStr "exit") then (sp =? 0) && (st =? 0)
                   else (0 <? st) && (sp =? st)) in
             (0 <? pt) && (sp =? tp - pp) && (st =? tot - pt)
             && match get "repo_suite_passed" with
                | VBool b => eqb b clean_repo_pass
                | _ => false
                end
         | _, _, _ => true
         end).

Definition _check_composite (record : dict) (assurance attestation : option dict)
  : result exn checks :=
  let source := dget record (u "verdict_source") in
  if negb (known_string source (us ["composite:repo+verifier-pack"; "composite:blackbox+repo"]))
  then Ok (c_skip "composite.counts" ++ c_skip "composite.phase_semantics")
  else match attestation with
  | None => Ok (c_fail "composite.counts" ++ c_fail "composite.phase_semantics")
  | Some att =>
      let n := numeric_counts record att in
      let phase_valid :=
        py_eq (dget record (u "execution_state")) (VStr "completed")
        && is_true_v (dget record (u "test_command_ran"))
        && is_true_v (dget att (u "verifier_pack_started"))
        && is_true_v (dget att (u "verifier_pack_completed")) in
      let repo_phase_claimed := existsb (fun f => negb (is_none (dget att f))) _REPO_PHASE_FIELDS in
      let* branch_valid :=
        if py_eq source (VStr "composite:blackbox+repo") then
          Ok (blackbox_composite_valid assurance att n)
        else
          let* required := _requires_repo_phase_evidence att in
          if required && negb repo_phase_claimed then Ok false
          else if repo_phase_claimed then repo_composite_valid att n
          else Ok true in
      Ok (c_expect "composite.counts" (composite_counts_valid n)
          ++ c_expect "composite.phase_semantics" (phase_valid && branch_valid))
  end.

(** ** The whole record *)

Definition as_dict (v : value) : option dict := match v with VDict d => Some d | _ => None end.

Definition envelope_shape (record : dict) : bool :=
  is_nonempty_str (dget record (u "reason"))
  && is_nonempty_str (dget record (u "execution_phase"))
  && match dget record (u "diagnostics") with
     | VStr s => Nat.leb (length s) 2000
     | _ => false
     end
  && (is_none (dget record (u "base_reconstruction"))
      || v_in (dget record (u "base_reconstruction")) (us ["ok"; "failed"])).

Definition identity_enums (record : dict) : bool :=
  known_string (dget record (u "verdict")) _VERDICTS
  && known_string (dget record (u "reason_code")) _REASON_CODES
  && known_string (dget record (u "risk_level")) _RISK_LEVELS
  && known_string (dget record (u "execution_state")) _EXECUTION_STATES
  && (is_none (dget record (u "verdict_source"))
      || known_string (dget record (u "verdict_source")) _VERDICT_SOURCES)
  && known_string (dget record (u "isolation")) Nested._ISOLATIONS.

(** The checks on the envelope, before the nested objects are opened. *)
Definition envelope_checks (record : dict) : checks :=
  c_pass "document.object"
  ++ c_expect "envelope.required_fields" (is_empty (missing_keys V1_11.REQUIRED_TOP_LEVEL record))
  ++ c_expect "envelope.types" (is_empty (Envelope.project_envelope_type_errors record))
  ++ c_expect "envelope.shape" (envelope_shape record)
  ++ c_expect "identity.schema_version"
       (known_string (dget record (u "schema_version")) SUPPORTED_SCHEMA_VERSIONS)
  ++ c_expect "identity.tool" (py_eq (dget record (u "tool")) (VStr "evoguard"))
  ++ c_expect "identity.tool_version" (is_nonempty_str (dget record (u "tool_version")))
  ++ c_expect "identity.enums" (identity_enums record)
  ++ c_expect "risk.range" (Coverage.num_in_range (dget record (u "risk_score")) 1).

Definition record_checks (record : dict) : result exn checks :=
  let schema_version := dget record (u "schema_version") in
  let assurance := as_dict (dget record (u "assurance")) in
  let attestation := as_dict (dget record (u "attestation")) in
  let* (policy_checks, policy) := _check_policy record attestation schema_version in
  let* evidence := _check_evidence_contracts record policy attestation in
  let* source_contract := _check_source_contract record assurance attestation policy in
  let* composite := _check_composite record assurance attestation in
  Ok (envelope_checks record
      ++ _nested_type_checks assurance attestation
      ++ match attestation with
         | None => c_skip "identity.guard_version_parity"
         | Some att => c_expect "identity.guard_version_parity"
                         (py_eq (dget att (u "guard_version")) (dget record (u "tool_version")))
         end
      ++ _check_lifecycle record assurance attestation
      ++ _check_verdict_and_counts record schema_version
      ++ policy_checks
      ++ _check_harness_input_reason_scope record policy schema_version
      ++ _check_harness_input_change_exclusion record attestation policy
      ++ evidence
      ++ _check_policy_runtime_bindings record assurance attestation policy
      ++ _check_receipts record assurance attestation
      ++ _check_isolation record assurance attestation
      ++ source_contract
      ++ _check_assurance_semantics record assurance policy
      ++ _check_pack record assurance attestation policy
      ++ composite).

Definition _verify_record (record : value) : result exn report :=
  match record with
  | VDict d =>
      let* items := record_checks d in
      Ok (render_report items (dget d (u "schema_version")))
  | _ => Ok (render_report (c_fail "document.object") VNone)
  end.

Definition verify_record (record : value) : report :=
  match _verify_record record with
  | Ok r => r
  | Err _ =>
      render_report (c_fail "document.semantic_processing")
        match record with VDict d => dget d (u "schema_version") | _ => VNone end
  end.

Definition invalid_json_report : report := render_report (c_fail "document.json") VNone.
End RecordVerifier.
