(* ===== verification/RecordSoundness.v ===== *)
(** What an accepted record proves.  Each theorem assumes that [verify_record]
    reports [ok] and concludes facts about the record itself, stated without
    reference to the checks. *)
From S2P Require Export RecordVerifier.
Local Open Scope Z_scope.

(** Booleans of the checks as propositions. *)
Ltac checks := autorewrite with nofail brefl pyval in *; destruct_and?.

Section Soundness.
Context `{UnicodeDB}.

(** ** Opening an accepted report *)

Record accepted (d : dict) : Prop := {
  ac_assurance := as_dict (dget d (u "assurance"));
  ac_attestation := as_dict (dget d (u "attestation"));
  ac_version := dget d (u "schema_version");
  ac_envelope : no_fail (envelope_checks d);
  ac_nested : no_fail (_nested_type_checks ac_assurance ac_attestation);
  ac_lifecycle : no_fail (_check_lifecycle d ac_assurance ac_attestation);
  ac_verdict : no_fail (_check_verdict_and_counts d ac_version);
  ac_policy : exists items policy,
    _check_policy d ac_attestation ac_version = Ok (items, policy) /\ no_fail items /\
    no_fail (_check_harness_input_reason_scope d policy ac_version) /\
    no_fail (_check_harness_input_change_exclusion d ac_attestation policy) /\
    (exists ev, _check_evidence_contracts d policy ac_attestation = Ok ev /\ no_fail ev) /\
    no_fail (_check_policy_runtime_bindings d ac_assurance ac_attestation policy) /\
    (exists src, _check_source_contract d ac_assurance ac_attestation policy = Ok src
                 /\ no_fail src) /\
    no_fail (_check_assurance_semantics d ac_assurance policy) /\
    no_fail (_check_pack d ac_assurance ac_attestation policy);
  ac_receipts : no_fail (_check_receipts d ac_assurance ac_attestation);
  ac_isolation : no_fail (_check_isolation d ac_assurance ac_attestation);
  ac_composite : exists items,
    _check_composite d ac_assurance ac_attestation = Ok items /\ no_fail items
}.

Lemma verify_record_dict v :
  r_ok (verify_record v) = true ->
  exists d items, v = VDict d /\ record_checks d = Ok items /\ no_fail items.
Proof.
  unfold verify_record. destruct v; try (by cbn; rewrite Z.eqb_eq).
  simpl _verify_record. destruct (record_checks d) as [items|e] eqn:E; cbn [rbind].
  - intros Hok. rewrite render_ok in Hok. by exists d, items.
  - intros Hok. rewrite render_ok in Hok. specialize (Hok _ (or_introl eq_refl)). done.
Qed.

Lemma verify_record_accepted v :
  r_ok (verify_record v) = true -> exists d, v = VDict d /\ accepted d.
Proof.
  intros (d & items & -> & Hr & Hn)%verify_record_dict. exists d. split; [done|].
  unfold record_checks in Hr. cbv zeta in Hr.
  apply rbind_ok in Hr as ([pc policy] & Hp & Hr).
  apply rbind_ok in Hr as (ev & Hev & Hr).
  apply rbind_ok in Hr as (src & Hsrc & Hr).
  apply rbind_ok in Hr as (comp & Hcomp & Hr). apply Ok_inj in Hr as <-.
  rewrite !no_fail_app in Hn.
  destruct Hn as (H1 & H2 & _ & H4 & H5 & H6 & H7 & H8 & H9 & H10 & H11 & H12 & H13 & H14 & H15 & H16).
  constructor; try done; [|by exists comp].
  exists pc, policy. repeat split; try done; [by exists ev|by exists src].
Qed.

(** ** Verdict, reason and counts *)

Lemma known_map {A} (f : A -> str) v l :
  known_string v (map f l) = true <-> exists a, In a l /\ v = VStr (f a).
Proof.
  rewrite known_string_spec. setoid_rewrite in_map_iff. naive_solver.
Qed.

Lemma reason_valid_spec sv reason verdict state :
  reason_valid sv reason verdict state = true ->
  exists r v s, reason = VStr (reason_wire r) /\ verdict = VStr (verdict_wire v) /\
    state = VStr (state_wire s) /\
    In v (fst (vc_reason_contract (contract_of_value sv) r)) /\
    In s (snd (vc_reason_contract (contract_of_value sv) r)).
Proof.
  unfold reason_valid. destruct reason as [| | | |w| |]; try done.
  destruct (reason_of_wire w) as [r|] eqn:E; [|done]. apply reason_of_wire_some in E as ->.
  destruct (vc_reason_contract _ r) as [vs ss] eqn:Ec. intros [Hv Hs]%andb_true_iff.
  apply known_map in Hv as (v & Hv & ->). apply known_map in Hs as (s & Hs & ->).
  exists r, v, s. by rewrite Ec.
Qed.

Lemma eq_str_wire v w : eq_str (VStr (verdict_wire v)) (verdict_wire w) = bool_decide (v = w).
Proof. by destruct v, w. Qed.

Lemma accepted_verdict_facts d :
  accepted d ->
  exists r v s l,
    dget d (u "reason_code") = VStr (reason_wire r) /\
    dget d (u "verdict") = VStr (verdict_wire v) /\
    dget d (u "execution_state") = VStr (state_wire s) /\
    In v (fst (vc_reason_contract (contract_of_value (dget d (u "schema_version"))) r)) /\
    In s (snd (vc_reason_contract (contract_of_value (dget d (u "schema_version"))) r)) /\
    dget d (u "passed") = VBool (bool_decide (v = PASS)) /\
    dget d (u "exit_code") = VInt (if decide (v = PASS) then 0 else 1) /\
    dget d (u "protected_violations") = VList (map VStr l) /\ (l <> [] <-> v = REJECTED) /\
    (v = PASS -> _completed_all_pass_evidence d = true).
Proof.
  intros Ha. pose proof (ac_verdict _ Ha) as Hv. unfold _check_verdict_and_counts in Hv. cbv zeta in Hv.
  rewrite !no_fail_app, !no_fail_expect in Hv.
  destruct Hv as ([_ Hb]%andb_true_iff & Hr & [Hpl Hpv]%andb_true_iff & _ & _ & _ & _ & Hp).
  apply reason_valid_spec in Hr as (r & v & s & Er & Ev & Es & Hin & Hst).
  apply v_is_string_list_spec in Hpl. rewrite Ev in *.
  change (VStr (u "PASS")) with (VStr (verdict_wire PASS)) in *.
  change (VStr (u "REJECTED")) with (VStr (verdict_wire REJECTED)) in *.
  rewrite !py_eq_str, !eq_str_wire in *.
  exists r, v, s, (v_strings (dget d (u "protected_violations"))).
  destruct (dget d (u "passed")) as [|b| | | | |]; try done.
  destruct (dget d (u "exit_code")) as [| |z| | | |]; try done.
  apply andb_true_iff in Hb as [Hb Hz]. apply eqb_prop in Hb as ->. apply Z.eqb_eq in Hz as ->.
  repeat split; try done.
  - by destruct v.
  - intros Hne. rewrite Hpl in Hpv. destruct (v_strings _); [done|]. simpl in Hpv.
    by destruct v.
  - intros -> Hn. rewrite Hpl, Hn in Hpv. done.
  - intros ->. simpl in Hp. by rewrite no_fail_expect in Hp.
Qed.

Lemma all_pass_evidence_spec d :
  _completed_all_pass_evidence d = true ->
  dget d (u "execution_state") = VStr "completed" /\
  dget d (u "test_command_ran") = VBool true /\
  exists src, dget d (u "verdict_source") = VStr src /\ In src _VERDICT_SOURCES /\
    ((src = u "exit" /\ py_eq (dget d (u "tests_passed")) (VInt 0) = true
                     /\ py_eq (dget d (u "tests_total")) (VInt 0) = true) \/
     (src <> u "exit" /\ exists n, 0 < n /\ dget d (u "tests_passed") = VInt n
                                         /\ dget d (u "tests_total") = VInt n)).
Proof.
  unfold _completed_all_pass_evidence. cbv zeta. rewrite !andb_true_iff, !py_eq_str, !eq_str_eq.
  intros [[[Hs Hr] Hk] Hc]. split; [done|]. split.
  { destruct (dget d (u "test_command_ran")) as [|[]| | | | |]; try done. }
  apply known_string_spec in Hk as (src & Es & Hin). exists src. split; [done|]. split; [done|].
  rewrite Es in Hc. simpl in Hc. destruct (src =s? u "exit") eqn:Ee.
  - left. apply str_eqb_eq in Ee as ->. rewrite andb_true_iff in Hc. naive_solver.
  - right. split; [by apply str_eqb_neq|].
    destruct (dget d (u "tests_passed")) as [| |n| | | |]; try done.
    destruct (dget d (u "tests_total")) as [| |t| | | |]; try done.
    apply andb_true_iff in Hc as [Ht Hn]. brefl. subst. by exists t.
Qed.

(** C19: a record the verifier accepts carries a reason, a verdict and a
    lifecycle state that its schema version's contract permits together; the
    boolean and the exit code follow from the verdict, and protected violations
    are listed exactly for a rejection. *)
Theorem accepted_record_contract v :
  r_ok (verify_record v) = true ->
  exists d r w s l, v = VDict d /\
    dget d (u "reason_code") = VStr (reason_wire r) /\
    dget d (u "verdict") = VStr (verdict_wire w) /\
    dget d (u "execution_state") = VStr (state_wire s) /\
    In w (fst (vc_reason_contract (contract_of_value (dget d (u "schema_version"))) r)) /\
    In s (snd (vc_reason_contract (contract_of_value (dget d (u "schema_version"))) r)) /\
    dget d (u "passed") = VBool (bool_decide (w = PASS)) /\
    dget d (u "exit_code") = VInt (if decide (w = PASS) then 0 else 1) /\
    dget d (u "protected_violations") = VList (map VStr l) /\ (l <> [] <-> w = REJECTED).
Proof.
  intros (d & -> & (r & w & s & l & ?)%accepted_verdict_facts)%verify_record_accepted.
  exists d, r, w, s, l. naive_solver.
Qed.

(** The contract leaves a PASS one reason and one state. *)
Lemma contract_pass sv r s :
  In PASS (fst (vc_reason_contract (contract_of_value sv) r)) ->
  In s (snd (vc_reason_contract (contract_of_value sv) r)) ->
  r = REASON_TESTS_PASSED /\ s = EXECUTION_COMPLETED.
Proof.
  assert (Hc : contract_of_value sv = contract_1_11 \/ contract_of_value sv = contract_1_12).
  { destruct sv; simpl; auto. unfold contract_for. destruct (_ =s? _); auto. }
  destruct Hc as [-> | ->]; destruct r; simpl; intuition congruence.
Qed.

(** C13: a record accepted with verdict PASS is fully backed: the reason is
    tests_passed, execution completed, the test command ran, no protected path
    was touched, and either the source is the exit code with zero counts or a
    positive number of tests ran and all of them passed. *)
Theorem accepted_pass_sound d :
  r_ok (verify_record (VDict d)) = true ->
  dget d (u "verdict") = VStr (verdict_wire PASS) ->
  dget d (u "passed") = VBool true /\ dget d (u "exit_code") = VInt 0 /\
  dget d (u "reason_code") = VStr (reason_wire REASON_TESTS_PASSED) /\
  dget d (u "execution_state") = VStr (state_wire EXECUTION_COMPLETED) /\
  dget d (u "test_command_ran") = VBool true /\
  dget d (u "protected_violations") = VList [] /\
  exists src, dget d (u "verdict_source") = VStr src /\ In src _VERDICT_SOURCES /\
    ((src = u "exit" /\ py_eq (dget d (u "tests_passed")) (VInt 0) = true
                     /\ py_eq (dget d (u "tests_total")) (VInt 0) = true) \/
     (src <> u "exit" /\ exists n, 0 < n /\ dget d (u "tests_passed") = VInt n
                                         /\ dget d (u "tests_total") = VInt n)).
Proof.
  intros (d' & [= <-] & Ha)%verify_record_accepted Hv.
  destruct (accepted_verdict_facts d Ha) as (r & w & s & l & Er & Ew & Es & Hin & Hst & Hp & Hx & Hl & Hrej & Hev).
  assert (w = PASS) as -> by (apply verdict_wire_inj; congruence).
  destruct (contract_pass _ _ _ Hin Hst) as [-> ->].
  destruct (all_pass_evidence_spec d (Hev eq_refl)) as (_ & Hran & Hsrc).
  repeat split; try done. rewrite Hl. destruct l; [done|]. assert (PASS = REJECTED) by (by apply Hrej). done.
Qed.

(** ** Policy binding *)

Lemma as_dict_some v d : as_dict v = Some d <-> v = VDict d.
Proof. destruct v; simpl; naive_solver. Qed.

(** The policy of an accepted, attested record. *)
Record policy_bound (d att policy : dict) (claimed : str) : Prop := {
  pb_policy : dget att (u "effective_policy") = VDict policy;
  pb_claimed : dget att (u "policy_sha256") = VStr claimed;
  pb_digest : _policy_sha256 policy = Some claimed;
  pb_types : _policy_type_errors policy (dget d (u "schema_version")) = Ok [];
  pb_mode : known_string (dget att (u "mode")) (us ["repo"; "blackbox"]) = true
            /\ py_eq (dget policy (u "mode")) (dget att (u "mode")) = true
            /\ py_eq (dget policy (u "policy_id")) (dget att (u "policy_id")) = true
            /\ py_eq (dget policy (u "policy_version")) (dget att (u "policy_version")) = true
}.

Lemma check_policy_bound d att sv items policy :
  _check_policy d (Some att) sv = Ok (items, policy) -> no_fail items ->
  exists p claimed, policy = Some p /\ dget att (u "effective_policy") = VDict p /\
    dget att (u "policy_sha256") = VStr claimed /\ _policy_sha256 p = Some claimed /\
    _policy_type_errors p sv = Ok [] /\
    known_string (dget att (u "mode")) (us ["repo"; "blackbox"]) = true
    /\ py_eq (dget p (u "mode")) (dget att (u "mode")) = true
    /\ py_eq (dget p (u "policy_id")) (dget att (u "policy_id")) = true
    /\ py_eq (dget p (u "policy_version")) (dget att (u "policy_version")) = true.
Proof.
  unfold _check_policy.
  destruct (dget att (u "effective_policy")) as [| | | | | |p];
    destruct (dget att (u "policy_sha256")) as [| | | |claimed| |];
    try (intros [<- _]%Ok_pair_inj Hn; rewrite no_fail_app, no_fail_fail in Hn; tauto).
  intros (es & Hes & Hf)%rbind_ok Hn. cbv zeta in Hf.
  destruct (_policy_sha256 p) as [h|] eqn:Eh; apply Ok_pair_inj in Hf as [<- <-];
    rewrite !no_fail_app, ?no_fail_fail, !no_fail_expect in Hn; [|tauto].
  destruct Hn as (He & [_ Hc]%andb_true_iff & Hm). apply is_empty_iff in He as ->.
  apply str_eqb_eq in Hc as ->. rewrite !andb_true_iff in Hm. exists p, h. naive_solver.
Qed.

(** The policy-dependent checks of an accepted record that has an attestation. *)
Lemma accepted_policy d att :
  accepted d -> dget d (u "attestation") = VDict att ->
  exists p claimed, policy_bound d att p claimed /\
    no_fail (_check_harness_input_change_exclusion d (Some att) (Some p)) /\
    (exists ev, _check_evidence_contracts d (Some p) (Some att) = Ok ev /\ no_fail ev) /\
    no_fail (_check_policy_runtime_bindings d (as_dict (dget d (u "assurance"))) (Some att) (Some p)) /\
    (exists src, _check_source_contract d (as_dict (dget d (u "assurance"))) (Some att) (Some p) = Ok src
                 /\ no_fail src) /\
    no_fail (_check_assurance_semantics d (as_dict (dget d (u "assurance"))) (Some p)) /\
    no_fail (_check_pack d (as_dict (dget d (u "assurance"))) (Some att) (Some p)).
Proof.
  intros Ha Hatt. destruct (ac_policy _ Ha) as (items & policy & Hp & Hn & _ & Hrest).
  unfold ac_attestation in *. rewrite Hatt in *. cbn [as_dict] in *.
  destruct (check_policy_bound _ _ _ _ _ Hp Hn) as (p & claimed & -> & H1 & H2 & H3 & H4 & H5).
  exists p, claimed. split; [by constructor|done].
Qed.

(** an accepted record with an attestation binds its policy: the attested
    digest is the SHA-256 of the canonical encoding of the effective policy, the
    policy has no type, shape or profile error under the record's schema, and
    its mode and identity are the attested ones. *)
Theorem accepted_policy_binding d att :
  r_ok (verify_record (VDict d)) = true -> dget d (u "attestation") = VDict att ->
  exists policy claimed text,
    dget att (u "effective_policy") = VDict policy /\
    json_dumps false (VDict policy) = Some text /\
    dget att (u "policy_sha256") = VStr claimed /\ claimed = sha256_hex (ascii_bytes text) /\
    _policy_type_errors policy (dget d (u "schema_version")) = Ok [] /\
    py_eq (dget policy (u "mode")) (dget att (u "mode")) = true.
Proof.
  intros (d' & [= <-] & Ha)%verify_record_accepted Hatt.
  destruct (accepted_policy d att Ha Hatt) as (p & claimed & [H1 H2 H3 H4 H5] & _).
  unfold _policy_sha256 in H3. destruct (json_dumps false (VDict p)) as [txt|] eqn:Ej; [|done].
  injection H3 as <-. exists p, (sha256_hex (ascii_bytes txt)), txt. naive_solver.
Qed.

(** ** Declared harness inputs *)

(** no accepted PASS touches the judge.  If the attested policy declares
    harness inputs, the declaration is canonical and no changed or deleted path
    of the record conflicts with it: none is a declared file or an ancestor of
    one, even up to case. *)
Theorem accepted_pass_harness_untouched d att policy inputs :
  r_ok (verify_record (VDict d)) = true ->
  dget d (u "verdict") = VStr "PASS" ->
  dget d (u "attestation") = VDict att ->
  dget att (u "effective_policy") = VDict policy ->
  dlookup (u "harness_inputs") policy = Some inputs ->
  exists l changed deleted,
    inputs = VList (map VStr l) /\ normalize_harness_inputs l = Ok l /\
    dget d (u "files_changed") = VList (map VStr changed) /\
    dget att (u "deleted_paths") = VList (map VStr deleted) /\
    forall path, In path (changed ++ deleted) -> harness_input_path_conflicts path l = Ok false.
Proof.
  intros (d' & [= <-] & Ha)%verify_record_accepted Hv Hatt Hpol Hin.
  destruct (accepted_policy d att Ha Hatt) as (p & claimed & Hb & Hex & _).
  assert (p = policy) as -> by (pose proof (pb_policy _ _ _ _ Hb); congruence).
  assert (Hg : dget policy (u "harness_inputs") = inputs) by (unfold dget; by rewrite Hin).
  unfold _check_harness_input_change_exclusion, dmem in Hex. cbv zeta in Hex.
  rewrite Hin, Hv, Hg in Hex. cbn [negb] in Hex. rewrite py_eq_str in Hex. cbn [eq_str] in Hex.
  rewrite str_eqb_refl in Hex. cbn [negb] in Hex.
  destruct (_is_canonical_harness_input_list inputs) eqn:Hc; [|cbn [andb negb] in Hex; rewrite no_fail_fail in Hex; tauto].
  destruct (v_is_string_list (dget d (u "files_changed"))) eqn:Hch; [|cbn [andb negb] in Hex; rewrite no_fail_fail in Hex; tauto].
  destruct (v_is_string_list (dget att (u "deleted_paths"))) eqn:Hdel; [|cbn [andb negb] in Hex; rewrite no_fail_fail in Hex; tauto].
  cbn [andb negb] in Hex. rewrite no_fail_expect, is_empty_iff in Hex.
  assert (Hl : inputs = VList (map VStr (v_strings inputs))).
  { apply v_is_string_list_spec. unfold _is_canonical_harness_input_list in Hc.
    by destruct (v_is_string_list inputs). }
  apply v_is_string_list_spec in Hch, Hdel.
  assert (Hnorm : normalize_harness_inputs (v_strings inputs) = Ok (v_strings inputs)).
  { rewrite Hl in Hc. by apply canonical_list_agree. }
  exists (v_strings inputs), (v_strings (dget d (u "files_changed"))),
    (v_strings (dget att (u "deleted_paths"))).
  repeat split; try done. intros path Hpath.
  apply (conflicts_ok path _ _ false Hnorm). apply not_true_iff_false.
  intros Hcf%conflict_touched. cut (In path (@nil str)); [by intros []|]. rewrite <- Hex, sorted_set_In.
  by apply List.filter_In.
Qed.

(** ** Assurance floors *)

(** an accepted PASS meets both assurance floors of its policy: the observed
    report integrity and candidate isolation rank at least as high as the
    required ones, and a required level that is unknown is never met. *)
Theorem accepted_pass_floors d att assurance policy :
  r_ok (verify_record (VDict d)) = true ->
  dget d (u "verdict") = VStr "PASS" ->
  dget d (u "attestation") = VDict att -> dget d (u "assurance") = VDict assurance ->
  dget att (u "effective_policy") = VDict policy ->
  (forall floor, dget policy (u "require_report_integrity") = VStr floor ->
     _REPORT_INTEGRITY_RANK floor 99
     <= _REPORT_INTEGRITY_RANK (str_or_empty (dget assurance (u "report_integrity"))) (-1)) /\
  (forall floor, dget policy (u "require_candidate_isolation") = VStr floor ->
     _ISOLATION_RANK floor 99
     <= _ISOLATION_RANK (str_or_empty (dget assurance (u "candidate_isolation"))) (-2)).
Proof.
  intros (d' & [= <-] & Ha)%verify_record_accepted Hv Hatt Has Hpol.
  destruct (accepted_policy d att Ha Hatt) as (p & claimed & Hb & _ & _ & Hfl & _).
  assert (p = policy) as -> by (pose proof (pb_policy _ _ _ _ Hb); congruence).
  rewrite Has in Hfl. unfold _check_policy_runtime_bindings in Hfl. cbn [as_dict] in Hfl.
  rewrite Hv, py_eq_str in Hfl. cbn [eq_str] in Hfl. rewrite str_eqb_refl in Hfl.
  rewrite no_fail_app, no_fail_expect in Hfl.
  destruct Hfl as [[Hr Hi]%negb_true_iff%orb_false_iff _].
  unfold report_shortfall, isolation_shortfall in *.
  split; intros floor E; rewrite E in *; by apply Z.ltb_ge.
Qed.

(** ** The report *)

Lemma verify_record_render v :
  exists items sv, verify_record v = render_report items sv /\ items <> [].
Proof.
  unfold verify_record. destruct v; try (eexists _, _; split; [reflexivity|discriminate]).
  cbn [_verify_record]. destruct (record_checks d) as [items|e] eqn:E; cbn [rbind];
    [|eexists _, _; split; [reflexivity|discriminate]].
  exists items, (dget d (u "schema_version")). split; [done|]. intros ->.
  unfold record_checks in E. cbv zeta in E.
  apply rbind_ok in E as ([pc pol] & _ & E). do 3 apply rbind_ok in E as (? & _ & E).
  by apply Ok_inj in E.
Qed.

(** the verifier is total and its report is coherent: every value, a malformed
    one included, yields at least one check; the three counts add up to the
    number of checks; the record is ok exactly when no check failed; and a value
    that is not an object or whose processing raises is never ok. *)
Theorem verify_record_report v :
  let r := verify_record v in
  r_checks r <> [] /\
  r_passed r + r_failed r + r_skipped r = r_total r /\ r_total r = Z.of_nat (length (r_checks r)) /\
  (r_ok r = true <-> forall c, In c (r_checks r) -> check_status c <> fail) /\
  (is_dict v = false -> r_ok r = false) /\
  (forall e, _verify_record v = Err e -> r_ok r = false).
Proof.
  intros r. destruct (verify_record_render v) as (items & sv & Hr & Hne).
  assert (Hok : r_ok r = true <-> forall c, In c (r_checks r) -> check_status c <> fail).
  { unfold r. rewrite Hr. apply render_ok. }
  split; [unfold r; by rewrite Hr|]. split; [unfold r; rewrite Hr; apply counts_partition|].
  split; [unfold r; by rewrite Hr|]. split; [done|]. unfold r in *. split.
  - intros Hd. apply not_true_iff_false. intros (d & _ & -> & _)%verify_record_dict. done.
  - intros e He. apply not_true_iff_false. intros (d & items' & -> & Hrec & _)%verify_record_dict.
    cbn [_verify_record] in He. by rewrite Hrec in He.
Qed.
End Soundness.
