(* ===== verification/RecordEvidence.v ===== *)
(** What an accepted record proves about its evidence: measured coverage, the
    verifier pack, the decomposition of composite counts, candidate receipts and
    the baseline. *)
From S2P Require Export RecordSoundness.
Local Open Scope Z_scope.

Lemma err_nil b s : err b s = [] <-> b = false.
Proof. by destruct b. Qed.

Lemma app_nil_iff {A} (l l' : list A) : l ++ l' = [] <-> l = [] /\ l' = [].
Proof. destruct l; naive_solver. Qed.

(** ** Measured coverage *)

Section CoverageSpec.
Import Coverage.

(** One file of a measured report: executed and missed lines, each strictly
    increasing and positive, without a common line. *)
Record file_lines := { fl_path : str; fl_executed : list Z; fl_missed : list Z }.

Definition file_lines_ok (f : file_lines) : Prop :=
  ends_with (u ".py") (fl_path f) = true /\
  strictly_increasing (fl_executed f) = true /\ strictly_increasing (fl_missed f) = true /\
  (forall z, In z (fl_executed f ++ fl_missed f) -> 0 < z) /\
  (forall z, In z (fl_executed f) -> ~ In z (fl_missed f)).

Definition files_executed (l : list file_lines) : Z :=
  sumZ (fun f => Z.of_nat (length (fl_executed f))) l.
Definition files_total (l : list file_lines) : Z :=
  sumZ (fun f => Z.of_nat (length (fl_executed f)) + Z.of_nat (length (fl_missed f))) l.

Lemma positive_line_array_spec v zs :
  _positive_line_array v = Some zs ->
  strictly_increasing zs = true /\ forall z, In z zs -> 0 < z.
Proof.
  destruct v; try done. simpl. destruct (int_items l) as [l'|]; [|done].
  destruct (forallb _ l' && strictly_increasing l') eqn:E; [|done]. intros [= <-].
  apply andb_true_iff in E as [Hp Hs]. split; [done|]. rewrite forallb_forall in Hp.
  intros z Hz. by apply Z.ltb_lt, Hp.
Qed.

Lemma file_detail_ok path detail e t :
  _file_detail_projection path detail = ([], e, t) ->
  exists f, file_lines_ok f /\ path = VStr (fl_path f) /\ e = Z.of_nat (length (fl_executed f)) /\
    t = Z.of_nat (length (fl_executed f)) + Z.of_nat (length (fl_missed f)).
Proof.
  unfold _file_detail_projection. destruct (_coverage_path path true) eqn:Ep; [|done]. cbn [negb].
  destruct detail as [| | | | | |d]; try done. destruct (has_non_str_key d); [done|].
  destruct (_positive_line_array (dget d (u "executed"))) as [ex|] eqn:Ee;
    [|intros [= Hf _ _]; apply app_nil_iff in Hf; naive_solver].
  destruct (_positive_line_array (dget d (u "missed"))) as [ms|] eqn:Em;
    [|intros [= Hf _ _]; apply app_nil_iff in Hf; naive_solver].
  intros [= Hf <- <-]. rewrite !app_nil_iff in Hf. destruct Hf as (_ & Ho & _).
  destruct (existsb _ ex) eqn:Eo; [done|]. rewrite existsb_false in Eo.
  apply positive_line_array_spec in Ee as [He Hpe], Em as [Hm Hpm].
  unfold _coverage_path in Ep. destruct path as [| | | |s| |]; try done.
  destruct (_ || _) in Ep; [done|]. destruct (existsb _ _) in Ep; [done|].
  exists {| fl_path := s; fl_executed := ex; fl_missed := ms |}. repeat split; try done; simpl.
  - intros z [Hz|Hz]%in_app_iff; auto.
  - intros z Hz Hz'. specialize (Eo z Hz). rewrite existsb_false in Eo.
    specialize (Eo z Hz'). by rewrite Z.eqb_refl in Eo.
Qed.

Lemma files_loop_ok items errors e t e' t' :
  _files_loop items errors e t = ([], e', t') ->
  errors = [] /\ exists fs, Forall file_lines_ok fs /\ map fst items = map (fun f => VStr (fl_path f)) fs /\
    e' = e + files_executed fs /\ t' = t + files_total fs.
Proof.
  revert errors e t; induction items as [|[path detail] items IH]; intros errors e t; cbn [_files_loop].
  - intros [= -> <- <-]. split; [done|]. exists []. simpl. repeat split; [constructor|lia|lia].
  - destruct (_file_detail_projection path detail) as [[de ex] to] eqn:Ed.
    intros (Hnil & fs & Hfs & Hp & -> & ->)%IH. apply app_nil_iff in Hnil as [-> ->]. split; [done|].
    apply file_detail_ok in Ed as (f & Hf & -> & -> & ->). exists (f :: fs).
    split; [by constructor|]. split; [simpl; by rewrite Hp|].
    unfold files_executed, files_total. simpl. split; lia.
Qed.

Lemma measured_errors_nil c :
  _measured_errors c = Ok [] ->
  exists executed total fs,
    dget c (u "executed") = VInt executed /\ dget c (u "total") = VInt total /\
    0 <= executed <= total /\ Forall file_lines_ok fs /\
    executed = files_executed fs /\ total = files_total fs.
Proof.
  unfold _measured_errors.
  destruct (_measured_file_projection (dget c (u "files"))) as [[fe ex] to] eqn:Ef.
  intros (cons & Hcons & Hf)%rbind_ok. apply Ok_inj in Hf. rewrite !app_nil_iff in Hf.
  destruct Hf as (_ & Hsc & -> & _ & ->).
  unfold _measured_scalar_errors in Hsc. rewrite app_nil_iff, !err_nil in Hsc.
  destruct Hsc as [_ Hsc%negb_false_iff].
  destruct (dget c (u "executed")) as [| |e| | | |] eqn:Ee; try done.
  destruct (dget c (u "total")) as [| |t| | | |] eqn:Et; try done.
  unfold _measured_file_projection in Ef. destruct (dget c (u "files")) as [| | | | | |items]; try done.
  apply files_loop_ok in Ef as (_ & fs & Hfs & _ & -> & ->). exists e, t, fs.
  unfold _measured_consistency_errors in Hcons. rewrite Ee, Et in Hcons. cbv zeta in Hcons.
  assert (Htot : err (negb (e =? 0 + files_executed fs))
                   "executed does not equal the per-file executed-line total" ++
                 err (negb (t =? 0 + files_total fs))
                   "total does not equal the per-file measurable-line total" = []).
  { destruct (v_is_number (dget c (u "percent"))).
    - apply rbind_ok in Hcons as (f & _ & Hc). apply Ok_inj in Hc.
      rewrite app_nil_iff in Hc. by destruct Hc.
    - by apply Ok_inj in Hcons. }
  rewrite app_nil_iff, !err_nil, !negb_false_iff, !Z.eqb_eq in Htot.
  apply andb_true_iff in Hsc. brefl. repeat split; try done; lia.
Qed.
End CoverageSpec.

(** The executed/total ratio reaches a threshold in percent, exactly. *)
Definition ratio_meets (executed total : Z) (threshold : value) : Prop :=
  (exists n, threshold = VInt n /\ n * total <= 100 * executed) \/
  (exists f num den, threshold = VFloat f /\ as_integer_ratio f = Some (num, den) /\
     num * total <= 100 * executed * den).

Lemma coverage_meets_spec c threshold executed total :
  dget c (u "executed") = VInt executed -> dget c (u "total") = VInt total ->
  _coverage_meets_threshold (Some c) threshold = true -> ratio_meets executed total threshold.
Proof.
  intros E1 E2. unfold _coverage_meets_threshold. destruct (negb _); [done|]. rewrite E1, E2.
  destruct threshold; try done.
  - intros Hz%Z.leb_le. left. by exists z.
  - destruct (as_integer_ratio f) as [[num den]|] eqn:E; [|done]. intros Hz%Z.leb_le.
    right. by exists f, num, den.
Qed.

Lemma py_eq_true v s : py_eq v (VStr s) = true <-> v = VStr s.
Proof. by rewrite py_eq_str, eq_str_eq. Qed.

Section Evidence.
Context `{UnicodeDB}.

(** an accepted PASS under a coverage floor is backed by measured lines: the
    record carries per-file line sets, its executed and total counts are the
    sums over the files, and the exact ratio (not the displayed percentage)
    reaches the floor; the judge ran in repo mode in a subprocess. *)
Theorem accepted_pass_coverage d att policy threshold :
  r_ok (verify_record (VDict d)) = true ->
  dget d (u "verdict") = VStr "PASS" -> dget d (u "attestation") = VDict att ->
  dget att (u "effective_policy") = VDict policy ->
  dget policy (u "min_diff_coverage") = threshold -> threshold <> VNone ->
  exists coverage executed total fs,
    dget d (u "diff_coverage") = VDict coverage /\
    dget coverage (u "measured") = VBool true /\
    dget coverage (u "executed") = VInt executed /\ dget coverage (u "total") = VInt total /\
    Forall file_lines_ok fs /\ executed = files_executed fs /\ total = files_total fs /\
    ratio_meets executed total threshold /\
    dget policy (u "mode") = VStr "repo" /\ dget policy (u "isolation") = VStr "subprocess".
Proof.
  intros (d' & [= <-] & Ha)%verify_record_accepted Hv Hatt Hpol Hth Hnn.
  destruct (accepted_policy d att Ha Hatt) as (p & claimed & Hb & _ & (ev & Hev & Hn) & _).
  assert (p = policy) as -> by (pose proof (pb_policy _ _ _ _ Hb); congruence).
  destruct (accepted_verdict_facts d Ha) as (r & w & s & l & Er & Ew & Es & Hin & Hst & _).
  assert (w = PASS) as -> by (apply verdict_wire_inj; change (verdict_wire PASS) with (u "PASS"); congruence).
  destruct (contract_pass _ _ _ Hin Hst) as [-> _].
  unfold _check_evidence_contracts in Hev.
  apply rbind_ok in Hev as ([[cc cv] cov] & Hcc & Hev).
  apply rbind_ok in Hev as ([[bc bv] bas] & Hbc & Hev).
  apply rbind_ok in Hev as (bs & _ & Hev). apply Ok_inj in Hev as <-.
  rewrite !no_fail_app, !no_fail_expect in Hn. destruct Hn as (Hcn & _ & Hsem & _).
  unfold coverage_policy_semantics in Hsem. cbv zeta in Hsem.
  rewrite Hv, Er, Hth in Hsem. rewrite !py_eq_str in Hsem. cbn [eq_str] in Hsem.
  change (reason_wire REASON_TESTS_PASSED =s? u "diff_coverage_below_threshold") with false in Hsem.
  change (reason_wire REASON_TESTS_PASSED =s? u "assurance_requirement_not_met") with false in Hsem.
  rewrite str_eqb_refl in Hsem. cbn [andb] in Hsem.
  assert (is_none threshold = false) as Hnone by by destruct threshold. rewrite Hnone in Hsem.
  cbn [negb andb] in Hsem. rewrite !andb_true_iff, !eq_str_eq in Hsem.
  destruct Hsem as [[[_ Hsome] Hmeet] [Hmode Hiso]].
  unfold shape_check in Hcc.
  destruct (dget d (u "diff_coverage")) as [| | | | | |c];
    try (injection Hcc as <- <- <-; done).
  apply rbind_ok in Hcc as (es & Hes & Hcc). injection Hcc as <- <- <-.
  destruct (is_empty es) eqn:Enil; [|done]. apply is_empty_iff in Enil as ->. cbn [andb] in *.
  destruct (dget c (u "measured")) as [|[]| | | | |] eqn:Em; try done. cbn [is_true_v] in *.
  unfold Coverage.project_diff_coverage_type_errors in Hes. rewrite Em in Hes.
  destruct (has_non_str_key c); [done|].
  destruct (measured_errors_nil c Hes) as (e & t & fs & He & Ht & _ & Hfs & Hse & Hst').
  exists c, e, t, fs. repeat split; try done. by eapply coverage_meets_spec.
Qed.

(** ** Judgment channels *)

Lemma v_in_spec v l : v_in v l = true <-> exists s, v = VStr s /\ In s l.
Proof.
  unfold v_in. rewrite existsb_exists. setoid_rewrite py_eq_str. setoid_rewrite eq_str_eq.
  naive_solver.
Qed.

Lemma is_true_v_spec v : is_true_v v = true <-> v = VBool true.
Proof. destruct v as [|[]| | | | |]; simpl; naive_solver. Qed.

Lemma is_false_v_spec v : is_false_v v = true <-> v = VBool false.
Proof. destruct v as [|[]| | | | |]; simpl; naive_solver. Qed.

Lemma negb_or b c : negb b || c = true <-> (b = true -> c = true).
Proof. destruct b, c; simpl; naive_solver. Qed.

(** The facts the remaining theorems about an accepted PASS start from. *)
Record pass_context (d att assurance policy : dict) : Prop := {
  pc_accepted : accepted d;
  pc_verdict : dget d (u "verdict") = VStr "PASS";
  pc_reason : dget d (u "reason_code") = VStr "tests_passed";
  pc_state : dget d (u "execution_state") = VStr "completed";
  pc_evidence : _completed_all_pass_evidence d = true;
  pc_contracts : exists ev,
    _check_evidence_contracts d (Some policy) (Some att) = Ok ev /\ no_fail ev;
  pc_bindings : no_fail (_check_policy_runtime_bindings d (Some assurance) (Some att) (Some policy));
  pc_source : exists src,
    _check_source_contract d (Some assurance) (Some att) (Some policy) = Ok src /\ no_fail src;
  pc_pack : no_fail (_check_pack d (Some assurance) (Some att) (Some policy));
  pc_receipts : no_fail (_check_receipts d (Some assurance) (Some att));
  pc_isolation : no_fail (_check_isolation d (Some assurance) (Some att));
  pc_mode : known_string (dget att (u "mode")) (us ["repo"; "blackbox"]) = true
            /\ py_eq (dget policy (u "mode")) (dget att (u "mode")) = true;
  pc_composite : exists items,
    _check_composite d (Some assurance) (Some att) = Ok items /\ no_fail items
}.

Lemma pass_context_intro d att assurance policy :
  r_ok (verify_record (VDict d)) = true ->
  dget d (u "verdict") = VStr "PASS" ->
  dget d (u "attestation") = VDict att -> dget d (u "assurance") = VDict assurance ->
  dget att (u "effective_policy") = VDict policy ->
  pass_context d att assurance policy.
Proof.
  intros (d' & [= <-] & Ha)%verify_record_accepted Hv Hatt Has Hpol.
  destruct (accepted_policy d att Ha Hatt) as (p & claimed & Hb & _ & Hev & Hfl & Hsrc & _ & Hpack).
  assert (p = policy) as -> by (pose proof (pb_policy _ _ _ _ Hb); congruence).
  destruct (accepted_verdict_facts d Ha) as (r & w & s & l & Er & Ew & Es & Hin & Hst & _ & _ & _ & _ & He).
  assert (w = PASS) as -> by (apply verdict_wire_inj; change (verdict_wire PASS) with (u "PASS"); congruence).
  destruct (contract_pass _ _ _ Hin Hst) as [-> ->]. rewrite Has in *. cbn [as_dict] in *.
  pose proof (ac_receipts _ Ha) as Hr. pose proof (ac_isolation _ Ha) as Hi.
  pose proof (ac_composite _ Ha) as Hc. unfold ac_assurance, ac_attestation in *.
  rewrite Has, Hatt in *. cbn [as_dict] in *.
  pose proof (pb_mode _ _ _ _ Hb). constructor; naive_solver.
Qed.

Lemma source_contract_ok d att assurance policy :
  pass_context d att assurance policy ->
  source_mode_policy d assurance att policy = true /\
  is_bool (dget policy (u "blackbox_only")) = true /\
  is_bool (dget policy (u "verifier_pack_required")) = true /\
  known_string (dget policy (u "mode")) (us ["repo"; "blackbox"]) = true.
Proof.
  intros Hp. destruct (pc_source _ _ _ _ Hp) as (src & Hs & Hn).
  unfold _check_source_contract in Hs. apply rbind_ok in Hs as (idn & _ & Hs).
  destruct (_ && idn) eqn:E; cbn [negb] in Hs; apply Ok_inj in Hs as <-;
    [|rewrite no_fail_fail in Hn; tauto].
  rewrite no_fail_expect in Hn. rewrite !andb_true_iff in E. naive_solver.
Qed.

(** an accepted PASS used every judgment channel its policy requires.  In
    repo mode the source is the composite with the verifier pack when a pack is
    required, and the repository suite alone when none is; in black-box mode it
    is the pack alone when the policy says so, and the composite with the
    repository suite otherwise.  A pack that is part of the source completed. *)
Theorem accepted_pass_channels d att assurance policy :
  r_ok (verify_record (VDict d)) = true ->
  dget d (u "verdict") = VStr "PASS" ->
  dget d (u "attestation") = VDict att -> dget d (u "assurance") = VDict assurance ->
  dget att (u "effective_policy") = VDict policy ->
  (dget policy (u "mode") = VStr "repo" /\
   ((dget policy (u "verifier_pack_required") = VBool true /\
     dget d (u "verdict_source") = VStr "composite:repo+verifier-pack" /\
     dget att (u "verifier_pack_completed") = VBool true) \/
    (dget policy (u "verifier_pack_required") = VBool false /\
     (dget d (u "verdict_source") = VStr "junit+exit" \/ dget d (u "verdict_source") = VStr "exit"))))
  \/
  (dget policy (u "mode") = VStr "blackbox" /\
   dget policy (u "verifier_pack_required") = VBool true /\
   dget att (u "verifier_pack_completed") = VBool true /\
   ((dget policy (u "blackbox_only") = VBool true /\ dget d (u "verdict_source") = VStr "blackbox") \/
    (dget policy (u "blackbox_only") = VBool false /\
     dget d (u "verdict_source") = VStr "composite:blackbox+repo" /\
     dget assurance (u "repo_native_suite") = VStr "composed_completed"))).
Proof.
  intros Hok Hv Hatt Has Hpol. pose proof (pass_context_intro _ _ _ _ Hok Hv Hatt Has Hpol) as Hp.
  destruct (source_contract_ok _ _ _ _ Hp) as (Hs & Hbo & Hpk & Hm).
  unfold source_mode_policy in Hs. cbv zeta in Hs. rewrite Hv, (pc_state _ _ _ _ Hp) in Hs.
  rewrite (py_eq_str (VStr "PASS")) in Hs. cbn [eq_str] in Hs. rewrite str_eqb_refl in Hs.
  apply andb_true_iff in Hs as [_ Hs]. apply known_string_spec in Hm as (m & Em & Hm).
  destruct (dget policy (u "blackbox_only")) as [|bo| | | | |]; try done.
  destruct (dget policy (u "verifier_pack_required")) as [|pk| | | | |]; try done.
  rewrite Em in *. destruct Hm as [<-|[<-|[]]].
  - left. split; [done|]. change (py_eq (VStr (u "repo")) (VStr "repo")) with true in Hs.
    cbv iota in Hs. cbn [is_true_v negb orb] in Hs. rewrite !andb_true_iff, !negb_or in Hs.
    destruct Hs as [[[_ Hpack] _] Hpass]. destruct pk; [left|right]; (split; [done|]).
    + rewrite Hpass in Hpack. apply py_eq_true in Hpass. split; [done|].
      specialize (Hpack eq_refl). by apply is_true_v_spec.
    + apply v_in_spec in Hpass as (s & Es & [<-|[<-|[]]]); auto.
  - right. split; [done|]. change (py_eq (VStr (u "blackbox")) (VStr "repo")) with false in Hs.
    cbv iota in Hs. cbn [is_true_v negb orb] in Hs. rewrite !andb_true_iff in Hs.
    change (v_in (VStr "completed") (us ["static_gate"; "not_started"])) with false in Hs. cbn [orb] in Hs.
    destruct Hs as [[[_ ->] Hsrc] Hpass]. split; [done|].
    destruct bo.
    + apply py_eq_true in Hpass. rewrite Hpass in Hsrc. cbn in Hsrc.
      rewrite andb_true_r in Hsrc. split; [by apply is_true_v_spec|]. by left.
    + rewrite Hpass in Hsrc. apply py_eq_true in Hpass. cbn [negb andb] in Hsrc.
      apply andb_true_iff in Hsrc as [H1 H2]. apply py_eq_true in H2. split; [by apply is_true_v_spec|].
      by right.
Qed.

(** ** Verifier pack *)

Lemma v_valid_sha256_spec v : v_valid_sha256 v = true <-> exists h, v = VStr h /\ hex64_lower h = true.
Proof. destruct v; simpl; naive_solver. Qed.

Lemma all_pass_counts a b :
  match a, b with VInt p, VInt t => (0 <? t) && (p =? t) | _, _ => false end = true ->
  exists n, 0 < n /\ a = VInt n /\ b = VInt n.
Proof.
  destruct a as [| |p| | | |], b as [| |t| | | |]; try done.
  intros [? ?]%andb_true_iff. brefl. subst. by exists t.
Qed.

(** an accepted PASS whose policy requires a verifier pack proves the pack
    ran: it is present, its identity was verified against an unchanged snapshot,
    it completed, a positive number of its tests ran and all of them passed; and
    if the policy pins a digest, the observed snapshot is the pinned one. *)
Theorem accepted_pass_pack d att assurance policy :
  r_ok (verify_record (VDict d)) = true ->
  dget d (u "verdict") = VStr "PASS" ->
  dget d (u "attestation") = VDict att -> dget d (u "assurance") = VDict assurance ->
  dget att (u "effective_policy") = VDict policy ->
  dget policy (u "verifier_pack_required") = VBool true ->
  exists pack digest n,
    dget assurance (u "verifier_pack") = VDict pack /\
    dget pack (u "present") = VBool true /\ dget pack (u "identity_verified") = VBool true /\
    dget pack (u "execution_state") = VStr "completed" /\
    In (dget pack (u "integrity"))
       [VStr "verified_snapshot_pre_post"; VStr "verified_snapshot_read_only"] /\
    dget att (u "verifier_pack_sha256") = VStr digest /\ hex64_lower digest = true /\
    0 < n /\ dget att (u "verifier_pack_tests_passed") = VInt n /\
    dget att (u "verifier_pack_tests_total") = VInt n /\
    (forall pin, dget policy (u "expect_verifier_pack_sha256") = VStr pin -> digest = pin).
Proof.
  intros Hok Hv Hatt Has Hpol Hreq. pose proof (pass_context_intro _ _ _ _ Hok Hv Hatt Has Hpol) as Hp.
  pose proof (pc_pack _ _ _ _ Hp) as Hk. unfold _check_pack in Hk. cbv zeta in Hk.
  rewrite Hreq, Hv, (py_eq_str (VStr "PASS")) in Hk. cbn [eq_str is_true_v] in Hk.
  rewrite str_eqb_refl in Hk. cbn [negb orb] in Hk.
  rewrite !no_fail_app, !no_fail_expect in Hk. destruct Hk as (_ & _ & _ & _ & _ & Hpass).
  unfold pack_pass_valid in Hpass.
  destruct (dget assurance (u "verifier_pack")) as [| | | | | |pack] eqn:Epk; try done.
  rewrite !andb_true_iff in Hpass.
  destruct Hpass as [[[[[[[[[_ H1] H2] H3] H4] H5] _] _] _] H6].
  apply is_true_v_spec in H1, H2. apply py_eq_true in H4.
  apply v_valid_sha256_spec in H5 as (digest & Hd & Hhex).
  apply all_pass_counts in H6 as (n & Hn & Hnp & Hnt).
  apply known_string_spec in H3 as (i & Hi & Hin).
  exists pack, digest, n. rewrite Hi. repeat split; try done.
  - destruct Hin as [<-|[<-|[]]]; [by left|by right; left].
  - intros pin Hpin. pose proof (pc_bindings _ _ _ _ Hp) as Hb.
    unfold _check_policy_runtime_bindings in Hb. rewrite no_fail_app, !no_fail_expect in Hb.
    destruct Hb as [_ Hb]. unfold pin_valid in Hb. cbv zeta in Hb.
    rewrite Hpin, Hd, Hv, (py_eq_str (VStr "PASS")) in Hb. cbn [eq_str] in Hb.
    rewrite str_eqb_refl, (py_eq_str (VStr digest)) in Hb. cbn [eq_str] in Hb.
    destruct (digest =s? pin) eqn:E; [by apply str_eqb_eq|]. cbn [negb andb] in Hb. done.
Qed.

(** ** Composite counts *)

Lemma composite_checked d att assurance src :
  accepted d -> dget d (u "attestation") = VDict att -> dget d (u "assurance") = VDict assurance ->
  dget d (u "verdict_source") = VStr src ->
  In src (us ["composite:repo+verifier-pack"; "composite:blackbox+repo"]) ->
  composite_counts_valid (numeric_counts d att) = true /\
  (src = u "composite:blackbox+repo" ->
   blackbox_composite_valid (Some assurance) att (numeric_counts d att) = true) /\
  (src = u "composite:repo+verifier-pack" ->
   existsb (fun f => negb (is_none (dget att f))) _REPO_PHASE_FIELDS = true ->
   repo_composite_valid att (numeric_counts d att) = Ok true).
Proof.
  intros Ha Hatt Has Hsrc Hin. destruct (ac_composite _ Ha) as (items & Hc & Hn).
  unfold ac_assurance, ac_attestation in Hc. rewrite Hatt, Has in Hc. cbn [as_dict] in Hc.
  unfold _check_composite in Hc. rewrite Hsrc in Hc. cbv zeta in Hc.
  cbn [known_string] in Hc. apply str_in_In in Hin as Hin'. rewrite Hin' in Hc. cbn [negb] in Hc.
  apply rbind_ok in Hc as (bv & Hbv & Hc). apply Ok_inj in Hc as <-.
  rewrite no_fail_app, !no_fail_expect, andb_true_iff in Hn. destruct Hn as (Hcnt & _ & ->).
  split; [done|]. rewrite py_eq_str in Hbv. cbn [eq_str] in Hbv. split.
  - intros ->. rewrite str_eqb_refl in Hbv. by apply Ok_inj in Hbv.
  - intros -> Hcl. change (u "composite:repo+verifier-pack" =s? u "composite:blackbox+repo")
      with false in Hbv. cbv iota in Hbv. apply rbind_ok in Hbv as (req & _ & Hbv).
    rewrite Hcl, andb_false_r in Hbv. done.
Qed.

Lemma numeric_counts_some d att tp tot pp pt :
  numeric_counts d att = Some (tp, tot, pp, pt) <->
  dget d (u "tests_passed") = VInt tp /\ dget d (u "tests_total") = VInt tot /\
  dget att (u "verifier_pack_tests_passed") = VInt pp /\
  dget att (u "verifier_pack_tests_total") = VInt pt.
Proof.
  unfold numeric_counts. destruct (dget d (u "tests_passed")); try naive_solver.
  destruct (dget d (u "tests_total")); try naive_solver.
  destruct (dget att (u "verifier_pack_tests_passed")); try naive_solver.
  destruct (dget att (u "verifier_pack_tests_total")); naive_solver.
Qed.

(** the totals of an accepted composite decompose: the pack counts are a
    valid pair within the totals and leave a valid pair for the repository
    suite; and for a PASS both remainders are complete, so the total hides no
    failure of either channel. *)
Theorem accepted_composite_decomposes d att assurance src :
  r_ok (verify_record (VDict d)) = true ->
  dget d (u "attestation") = VDict att -> dget d (u "assurance") = VDict assurance ->
  dget d (u "verdict_source") = VStr src ->
  In src (us ["composite:repo+verifier-pack"; "composite:blackbox+repo"]) ->
  exists tests_passed tests_total pack_passed pack_total,
    dget d (u "tests_passed") = VInt tests_passed /\ dget d (u "tests_total") = VInt tests_total /\
    dget att (u "verifier_pack_tests_passed") = VInt pack_passed /\
    dget att (u "verifier_pack_tests_total") = VInt pack_total /\
    0 <= pack_passed <= pack_total /\
    0 <= tests_passed - pack_passed <= tests_total - pack_total /\
    (dget d (u "verdict") = VStr "PASS" ->
     pack_passed = pack_total /\ tests_passed - pack_passed = tests_total - pack_total).
Proof.
  intros (d' & [= <-] & Ha)%verify_record_accepted Hatt Has Hsrc Hin.
  destruct (composite_checked d att assurance src Ha Hatt Has Hsrc Hin) as (Hc & _ & _).
  destruct (numeric_counts d att) as [[[[tp tot] pp] pt]|] eqn:En; [|done].
  unfold composite_counts_valid in Hc. rewrite !andb_true_iff, !Z.leb_le in Hc.
  apply numeric_counts_some in En as (E1 & E2 & E3 & E4).
  exists tp, tot, pp, pt. repeat (split; [done || lia|]). intros Hv.
  destruct (accepted_verdict_facts d Ha) as (r & w & s & l & Er & Ew & Es & _ & _ & _ & _ & _ & _ & He).
  assert (w = PASS) as -> by (apply verdict_wire_inj; change (verdict_wire PASS) with (u "PASS"); congruence).
  destruct (all_pass_evidence_spec d (He eq_refl)) as (_ & _ & s' & Es' & _ & Hcnt).
  destruct Hcnt as [(-> & _)|(_ & n & _ & Hp & Ht)].
  - rewrite Hsrc in Es'. injection Es' as ->. destruct Hin as [Hin|[Hin|[]]]; done.
  - assert (tp = tot) by congruence. lia.
Qed.

(** an accepted repository-plus-pack composite that carries repository-phase
    evidence is exact: the phase counts are the totals less the pack's, the pack
    ran at least one test, and the phase is marked as passed exactly when it was
    clean (exit code 0 and, for a structured report, a non-empty all-passing
    count). *)
Theorem accepted_repo_composite_exact d att assurance :
  r_ok (verify_record (VDict d)) = true ->
  dget d (u "attestation") = VDict att -> dget d (u "assurance") = VDict assurance ->
  dget d (u "verdict_source") = VStr "composite:repo+verifier-pack" ->
  existsb (fun f => negb (is_none (dget att f))) _REPO_PHASE_FIELDS = true ->
  exists tp tot pp pt sp st rc clean,
    numeric_counts d att = Some (tp, tot, pp, pt) /\ 0 < pt /\
    dget att (u "repo_suite_tests_passed") = VInt sp /\ sp = tp - pp /\
    dget att (u "repo_suite_tests_total") = VInt st /\ st = tot - pt /\
    dget att (u "repo_suite_returncode") = VInt rc /\ (rc = 0 \/ rc = 1) /\
    dget att (u "repo_suite_passed") = VBool clean /\
    (clean = true <-> rc = 0 /\
       if py_eq (dget att (u "repo_suite_verdict_source")) (VStr "exit")
       then sp = 0 /\ st = 0 else 0 < st /\ sp = st).
Proof.
  intros (d' & [= <-] & Ha)%verify_record_accepted Hatt Has Hsrc Hcl.
  destruct (composite_checked d att assurance _ Ha Hatt Has Hsrc) as (Hc & _ & Hr); [by left|].
  specialize (Hr eq_refl Hcl). unfold repo_composite_valid in Hr. cbv zeta in Hr.
  apply rbind_ok in Hr as (dg & _ & Hr). apply Ok_inj in Hr. rewrite !andb_true_iff in Hr.
  destruct Hr as ((((((((((_ & _) & _) & _) & Hsp) & Hst) & _) & Hrc) & _) & _) & Hm).
  destruct (numeric_counts d att) as [[[[tp tot] pp] pt]|] eqn:En; [|done].
  destruct (dget att (u "repo_suite_tests_passed")) as [| |sp| | | |]; try done.
  destruct (dget att (u "repo_suite_tests_total")) as [| |st| | | |]; try done.
  destruct (dget att (u "repo_suite_returncode")) as [| |rc| | | |]; try done.
  destruct (dget att (u "repo_suite_passed")) as [|cl| | | | |] eqn:Ecl;
    try (rewrite andb_false_r in Hm; done).
  rewrite !andb_true_iff, !Z.eqb_eq, Z.ltb_lt in Hm. destruct Hm as (((Hpt & Esp) & Est) & Hcl').
  apply eqb_prop in Hcl'. exists tp, tot, pp, pt, sp, st, rc, cl.
  repeat match goal with |- _ /\ _ => split; [done|] end.
  split; [by apply orb_true_iff in Hrc as [?%Z.eqb_eq|?%Z.eqb_eq]; auto|]. split; [done|].
  rewrite Hcl', andb_true_iff, py_eq_int, Z.eqb_eq.
  destruct (py_eq (dget att (u "repo_suite_verdict_source")) (VStr "exit"));
    rewrite andb_true_iff, ?Z.eqb_eq, ?Z.ltb_lt; done.
Qed.

(** ** Candidate receipts and demonstrated fixes *)

(** an accepted black-box PASS exercised the candidate: the launcher
    counted at least one invocation, and the top-level, the assurance and the
    attested isolation all name the same delivered boundary. *)
Theorem accepted_blackbox_pass_exercised d att assurance policy :
  r_ok (verify_record (VDict d)) = true ->
  dget d (u "verdict") = VStr "PASS" ->
  dget d (u "attestation") = VDict att -> dget d (u "assurance") = VDict assurance ->
  dget att (u "effective_policy") = VDict policy ->
  dget policy (u "mode") = VStr "blackbox" ->
  exists n boundary,
    dget att (u "candidate_invocations") = VInt n /\ 0 < n /\
    dget d (u "isolation") = VStr boundary /\ In boundary _REQUESTED_ISOLATIONS /\
    dget assurance (u "candidate_isolation") = VStr boundary /\
    dget att (u "effective_candidate_isolation") = VStr boundary.
Proof.
  intros Hok Hv Hatt Has Hpol Hmode. pose proof (pass_context_intro _ _ _ _ Hok Hv Hatt Has Hpol) as Hp.
  destruct (pc_mode _ _ _ _ Hp) as [Hk Hm]. rewrite Hmode, py_eq_str_r, eq_str_eq in Hm.
  pose proof (pc_receipts _ _ _ _ Hp) as Hr. unfold _check_receipts in Hr. cbv zeta in Hr.
  rewrite Hm, (pc_state _ _ _ _ Hp), Hv in Hr.
  change (py_eq (VStr (u "blackbox")) (VStr "repo")) with false in Hr.
  change (py_eq (VStr (u "blackbox")) (VStr "blackbox")) with true in Hr.
  change (known_string (VStr (u "completed")) (us ["static_gate"; "not_started"])) with false in Hr.
  cbn [negb] in Hr. rewrite no_fail_app, !no_fail_expect, !andb_true_iff in Hr.
  destruct Hr as (Hrec & [Hiso _] & Hpass).
  change (py_eq (VStr (u "PASS")) (VStr "PASS")) with true in Hpass. cbn [negb orb] in Hpass.
  apply is_true_v_spec in Hpass. rewrite Hpass in *.
  destruct (dget att (u "candidate_invocations")) as [| |n| | | |]; try done.
  apply andb_true_iff in Hrec as [_ Hn]. apply eqb_prop in Hn. symmetry in Hn. apply Z.ltb_lt in Hn.
  rewrite !andb_true_iff in Hiso. destruct Hiso as [[Hi1 Hi2] Hi3]. cbn [negb andb] in Hi1.
  rewrite orb_false_r in Hi1. apply known_string_spec in Hi1 as (b & Eb & Hb).
  rewrite Eb in *. apply py_eq_true in Hi2, Hi3. exists n, b. naive_solver.
Qed.

(** an accepted PASS under a required demonstrated fix proves the repair:
    the baseline ran the repository suite alone, failed, and its declared effect
    is a demonstrated one. *)
Theorem accepted_pass_fix_demonstrated d att assurance policy :
  r_ok (verify_record (VDict d)) = true ->
  dget d (u "verdict") = VStr "PASS" ->
  dget d (u "attestation") = VDict att -> dget d (u "assurance") = VDict assurance ->
  dget att (u "effective_policy") = VDict policy ->
  dget policy (u "require_demonstrated_fix") = VBool true ->
  exists baseline, dget d (u "baseline") = VDict baseline /\
    Baseline.project_baseline_type_errors baseline = [] /\
    dget baseline (u "scope") = VStr "repo_suite_only" /\
    dget baseline (u "verdict") = VStr "FAIL" /\
    dget baseline (u "repair_effect") = VStr "demonstrated" /\
    _repo_suite_pass_evidence d (Some att) = Ok true.
Proof.
  intros Hok Hv Hatt Has Hpol Hfix. pose proof (pass_context_intro _ _ _ _ Hok Hv Hatt Has Hpol) as Hp.
  destruct (pc_contracts _ _ _ _ Hp) as (ev & Hev & Hn). unfold _check_evidence_contracts in Hev.
  apply rbind_ok in Hev as ([[cc cv] cov] & _ & Hev).
  apply rbind_ok in Hev as ([[bc bv] bas] & Hbc & Hev).
  apply rbind_ok in Hev as (bs & Hbs & Hev). apply Ok_inj in Hev as <-.
  rewrite !no_fail_app, !no_fail_expect in Hn. destruct Hn as (_ & _ & _ & ->).
  unfold baseline_policy_semantics in Hbs. cbv zeta in Hbs. rewrite Hv, Hfix in Hbs.
  change (py_eq (VStr (u "PASS")) (VStr "PASS")) with true in Hbs. cbn [is_true_v] in Hbs.
  rewrite orb_true_r in Hbs. cbn [andb negb orb] in Hbs.
  apply rbind_ok in Hbs as (eff & Heff & Hbs). apply Ok_inj in Hbs. rewrite !andb_true_iff in Hbs.
  destruct Hbs as (((((-> & _) & Hsome) & ->) & Hfixok) & _).
  destruct bas as [b|]; [|done]. cbn [is_some andb] in *.
  rewrite !andb_true_iff in Hfixok. destruct Hfixok as [[H1 H2] H3]. apply py_eq_true in H2, H3.
  rewrite H1 in Heff. apply rbind_ok in Heff as (cand & Hcand & Heff). apply Ok_inj in Heff.
  rewrite H2, H3 in Heff. apply py_eq_true in H1. unfold shape_check in Hbc.
  destruct (dget d (u "baseline")) as [| | | | | |b']; try (injection Hbc; done).
  cbn [rbind] in Hbc. injection Hbc as _ Hnil ->. apply is_empty_iff in Hnil.
  exists b. repeat split; try done. rewrite Hcand. f_equal.
  destruct cand; [done|]. by vm_compute in Heff.
Qed.
End Evidence.
