(* ===== verification/RecordSamples.v ===== *)
(** Concrete records: a repository PASS with a verifier pack, a coverage floor, a
    demonstrated fix and declared harness inputs, and a black-box PASS.  They
    are accepted by the verifier, so the theorems about accepted records apply to
    them. *)
From S2P Require Export RecordEvidence.
Local Open Scope Z_scope.

#[local] Existing Instance ascii_unicode.

Definition strs (l : list string) : value := v_str_list (us l).
Definition hex (n : N) : str := repeat n 64.

(** A policy given by the fields that differ between the samples. *)
Definition sample_policy (blackbox : bool) (isolation : string) (image floor : value)
    (min_coverage : value) (fix_required : bool) (extra : dict) : dict :=
  dict_of [
    ("mode", VStr (if blackbox then u "blackbox" else u "repo"));
    ("isolation", VStr (u isolation)); ("docker_image", image); ("docker_network", VStr "none");
    ("test_command", VStr "default:python -m pytest"); ("setup_command", VNone);
    ("trust_setup_on_host", VBool false); ("setup_output_globs", VList []);
    ("protected", strs ["ops/*"]); ("allow", VList []); ("allow_new_tests", VBool true);
    ("timeout", VInt 300); ("mem_limit_mb", VInt 1024);
    ("verifier_pack_required", VBool true);
    ("expect_verifier_pack_sha256", VStr (hex 97)); ("blackbox", VBool blackbox);
    ("blackbox_only", VBool blackbox); ("require_report_integrity", floor);
    ("require_candidate_isolation", VStr (u isolation)); ("min_diff_coverage", min_coverage);
    ("baseline_evidence", VBool fix_required); ("require_demonstrated_fix", VBool fix_required);
    ("strict_harness", VBool true); ("policy_id", VStr "p1"); ("policy_version", VNone)] ++ extra.

Definition sample_pack (integrity secrecy : string) : value :=
  VDict (dict_of [
    ("configured", VBool true); ("present", VBool true); ("integrity", VStr (u integrity));
    ("identity_verified", VBool true); ("execution_state", VStr "completed");
    ("secrecy", VStr (u secrecy)); ("snapshot_sha256", VStr (hex 97))]).

Definition digest_of (policy : dict) : str :=
  match _policy_sha256 policy with Some h => h | None => [] end.

Definition sample_attestation (policy : dict) (mode isolation : string) (phase : string)
    (invocations observed : value) (extra : dict) : dict :=
  dict_of [
    ("created_utc", VStr "2026-07-01T10:20:30Z"); ("guard_version", VStr "4.1.0");
    ("mode", VStr (u mode)); ("candidate_sha256", VStr (hex 98));
    ("effective_policy", VDict policy); ("policy_sha256", VStr (digest_of policy));
    ("execution_state", VStr "completed"); ("execution_phase", VStr (u phase));
    ("test_command_started", VBool true); ("delivered_isolation", VStr "subprocess");
    ("effective_candidate_isolation", VStr (u isolation));
    ("candidate_invocations", invocations);
    ("candidate_launcher_invocation_observed", observed);
    ("verifier_pack_sha256", VStr (hex 97));
    ("verifier_pack_digest_format", VStr PACK_DIGEST_FORMAT);
    ("verifier_pack_tests_passed", VInt 3); ("verifier_pack_tests_total", VInt 3);
    ("verifier_pack_present", VBool true); ("verifier_pack_started", VBool true);
    ("verifier_pack_completed", VBool true); ("deleted_paths", strs ["src/old.py"]); ("policy_id", VStr "p1")] ++ extra.

Definition sample_assurance (isolation report profile phase : string) (pack : value) (extra : dict)
  : dict :=
  dict_of [
    ("execution_state", VStr "completed"); ("execution_phase", VStr (u phase));
    ("harness_integrity", VStr "pre_gate_enforced"); ("report_integrity", VStr (u report));
    ("candidate_isolation", VStr (u isolation)); ("suite_isolation", VStr "subprocess");
    ("setup_isolation", VNone); ("runtime_continuity", VStr "verified");
    ("verifier_pack", pack); ("overall_profile", VStr (u profile))] ++ extra.

Definition sample_record (isolation source phase : string) (passed total : Z) (coverage baseline : value)
    (assurance attestation : dict) : dict :=
  dict_of [
    ("schema_version", VStr "1.12"); ("tool", VStr "evoguard"); ("tool_version", VStr "4.1.0");
    ("verdict", VStr "PASS"); ("passed", VBool true); ("exit_code", VInt 0);
    ("reason_code", VStr "tests_passed"); ("reason", VStr "all tests passed");
    ("files_changed", strs ["src/app.py"]); ("protected_violations", VList []);
    ("risk_level", VStr "low"); ("risk_score", VFloat (dec 1 1)); ("tests_passed", VInt passed);
    ("tests_total", VInt total); ("test_command_ran", VBool true);
    ("execution_state", VStr "completed"); ("execution_phase", VStr (u phase));
    ("verdict_source", VStr (u source)); ("isolation", VStr (u isolation)); ("source", VNone);
    ("base_reconstruction", VNone); ("assurance", VDict assurance); ("diff_coverage", coverage);
    ("baseline", baseline); ("attestation", VDict attestation); ("diagnostics", VStr "")].

(** ** Repository mode *)

Definition repo_policy : dict :=
  sample_policy false "subprocess" VNone (VStr "same_process_candidate_writable")
    (VFloat (dec 750 1)) true
    (dict_of [("harness_inputs", strs ["tools/judge.py"])]).

Definition repo_coverage : dict := dict_of [
  ("measured", VBool true); ("percent", VFloat (dec 750 1)); ("executed", VInt 3);
  ("total", VInt 4);
  ("files", VDict (dict_of [("src/app.py", VDict (dict_of [
     ("executed", VList [VInt 1; VInt 2; VInt 5]); ("missed", VList [VInt 7])]))]));
  ("unmeasured_files", VList []); ("caveat", VStr "line coverage")].

Definition repo_baseline : dict := dict_of [
  ("verdict", VStr "FAIL"); ("tests_passed", VInt 1); ("tests_total", VInt 2);
  ("repair_effect", VStr "demonstrated"); ("scope", VStr "repo_suite_only");
  ("note", VStr "baseline run")].

Definition repo_attestation : dict :=
  sample_attestation repo_policy "repo" "subprocess" "verifier_pack" VNone VNone (dict_of [
    ("repo_suite_started", VBool true); ("repo_suite_completed", VBool true);
    ("repo_suite_state", VStr "repo_phase_completed"); ("repo_suite_passed", VBool true);
    ("repo_suite_tests_passed", VInt 4); ("repo_suite_tests_total", VInt 4);
    ("repo_suite_verdict_source", VStr "junit+exit"); ("repo_suite_returncode", VInt 0);
    ("repo_suite_junit_sha256", VStr (hex 99));
    ("repo_suite_junit_digest_format", VStr JUNIT_XML_DIGEST_FORMAT);
    ("verifier_pack_junit_sha256", VStr (hex 100));
    ("verifier_pack_junit_digest_format", VStr JUNIT_XML_DIGEST_FORMAT);
    ("junit_sha256", VStr (sha256_hex (ascii_bytes
       (composite_identity JUNIT_XML_DIGEST_FORMAT (hex 99) (hex 100)))));
    ("junit_digest_format", VStr JUNIT_COMPOSITE_DIGEST_FORMAT)]).

Definition repo_assurance : dict :=
  sample_assurance "subprocess" "same_process_candidate_writable" "repo_native_same_process"
    "verifier_pack" (sample_pack "verified_snapshot_pre_post" "readable_in_judge_process") [].

Definition repo_pass_record : dict :=
  sample_record "subprocess" "composite:repo+verifier-pack" "verifier_pack" 7 7
    (VDict repo_coverage) (VDict repo_baseline) repo_assurance repo_attestation.

(** ** Black-box mode *)

Definition blackbox_policy : dict :=
  sample_policy true "gvisor" (VStr "python:3.12") (VStr "external_process_isolated") VNone false
    (dict_of [("operating_profile", VStr "hostile")]).

Definition blackbox_attestation : dict :=
  sample_attestation blackbox_policy "blackbox" "gvisor" "blackbox_pack" (VInt 5) (VBool true)
    (dict_of [("junit_sha256", VStr (hex 100));
              ("junit_digest_format", VStr JUNIT_XML_DIGEST_FORMAT)]).

Definition blackbox_assurance : dict :=
  sample_assurance "gvisor" "external_process_isolated" "black_box_external_judge"
    "blackbox_pack" (sample_pack "verified_snapshot_read_only" "unmounted_from_candidate")
    (dict_of [("repo_native_suite", VStr "not_required_blackbox_only")]).

Definition blackbox_pass_record : dict :=
  sample_record "gvisor" "blackbox" "blackbox_pack" 3 3 VNone VNone blackbox_assurance
    blackbox_attestation.

Lemma repo_pass_accepted : r_ok (verify_record (VDict repo_pass_record)) = true.
Proof. vm_compute. reflexivity. Qed.

Lemma blackbox_pass_accepted : r_ok (verify_record (VDict blackbox_pass_record)) = true.
Proof. vm_compute. reflexivity. Qed.

(** One corrupted field is enough to be refused. *)
Example tampered_records :
  map (fun kv => r_ok (verify_record (VDict (dset (fst kv) (snd kv) repo_pass_record))))
    [(u "tests_passed", VInt 6); (u "reason_code", VStr "tests_failed");
     (u "files_changed", strs ["TOOLS"]); (u "risk_score", VInt 2);
     (u "isolation", VStr "docker"); (u "exit_code", VInt 1)]
  = [false; false; false; false; false; false].
Proof. vm_compute. reflexivity. Qed.

(** ** The theorems applied to the samples *)

Ltac at_sample :=
  lazymatch goal with
  | |- r_ok (verify_record (VDict repo_pass_record)) = true => exact repo_pass_accepted
  | |- r_ok (verify_record (VDict blackbox_pass_record)) = true => exact blackbox_pass_accepted
  | |- _ <> _ => discriminate
  | |- _ => vm_compute; reflexivity
  end.

Lemma accepted_record_contract_witness :
  exists d r w s l, VDict repo_pass_record = VDict d /\
    dget d (u "reason_code") = VStr (reason_wire r) /\
    dget d (u "verdict") = VStr (verdict_wire w) /\
    dget d (u "execution_state") = VStr (state_wire s) /\
    In w (fst (vc_reason_contract (contract_of_value (dget d (u "schema_version"))) r)) /\
    In s (snd (vc_reason_contract (contract_of_value (dget d (u "schema_version"))) r)) /\
    dget d (u "passed") = VBool (bool_decide (w = PASS)) /\
    dget d (u "exit_code") = VInt (if decide (w = PASS) then 0 else 1) /\
    dget d (u "protected_violations") = VList (map VStr l) /\ (l <> [] <-> w = REJECTED).
Proof. apply (accepted_record_contract (VDict repo_pass_record)). at_sample. Defined.

Lemma accepted_pass_sound_witness :
  dget repo_pass_record (u "passed") = VBool true /\
  dget repo_pass_record (u "reason_code") = VStr (reason_wire REASON_TESTS_PASSED).
Proof.
  destruct (accepted_pass_sound repo_pass_record) as (H1 & _ & H2 & _); [at_sample..|].
  split; [exact H1|exact H2].
Defined.

Lemma accepted_policy_binding_witness :
  exists policy claimed, dget repo_attestation (u "effective_policy") = VDict policy /\
    dget repo_attestation (u "policy_sha256") = VStr claimed.
Proof.
  destruct (accepted_policy_binding repo_pass_record repo_attestation) as (p & c & t & H1 & _ & H2 & _);
    [at_sample..|]. exists p, c. split; [exact H1|exact H2].
Defined.

Lemma accepted_pass_harness_untouched_witness :
  exists l changed, dget repo_pass_record (u "files_changed") = VList (map VStr changed) /\
    normalize_harness_inputs l = Ok l.
Proof.
  destruct (accepted_pass_harness_untouched repo_pass_record repo_attestation repo_policy
              (strs ["tools/judge.py"])) as (l & ch & _ & _ & Hl & Hc & _); [at_sample..|].
  exists l, ch. split; [exact Hc|exact Hl].
Defined.

Lemma accepted_pass_floors_witness :
  exists floor, dget blackbox_policy (u "require_report_integrity") = VStr floor /\
    1 <= _REPORT_INTEGRITY_RANK (str_or_empty (dget blackbox_assurance (u "report_integrity"))) (-1).
Proof.
  destruct (accepted_pass_floors blackbox_pass_record blackbox_attestation blackbox_assurance blackbox_policy)
    as [H _]; [at_sample..|].
  exists (u "external_process_isolated"). split; [reflexivity|].
  exact (H (u "external_process_isolated") eq_refl).
Defined.

Lemma accepted_pass_coverage_witness :
  exists executed total, ratio_meets executed total (VFloat (dec 750 1)) /\
    dget repo_coverage (u "executed") = VInt executed.
Proof.
  destruct (accepted_pass_coverage repo_pass_record repo_attestation repo_policy (VFloat (dec 750 1)))
    as (c & e & t & fs & Hc & _ & He & _ & _ & _ & _ & Hr & _); [at_sample..|].
  exists e, t. split; [exact Hr|]. injection Hc as <-. exact He.
Defined.

Lemma accepted_pass_channels_witness :
  dget repo_policy (u "mode") = VStr "repo" \/ dget repo_policy (u "mode") = VStr "blackbox".
Proof.
  destruct (accepted_pass_channels repo_pass_record repo_attestation repo_assurance repo_policy)
    as [[H _]|[H _]]; [at_sample..|left; exact H|right; exact H].
Defined.

Lemma accepted_pass_pack_witness :
  exists n, 0 < n /\ dget repo_attestation (u "verifier_pack_tests_passed") = VInt n.
Proof.
  destruct (accepted_pass_pack repo_pass_record repo_attestation repo_assurance repo_policy)
    as (pk & dg & n & _ & _ & _ & _ & _ & _ & _ & Hn & Hp & _); [at_sample..|].
  exists n. split; [exact Hn|exact Hp].
Defined.

Lemma accepted_composite_decomposes_witness :
  exists pack_passed pack_total, 0 <= pack_passed <= pack_total /\
    dget repo_attestation (u "verifier_pack_tests_passed") = VInt pack_passed.
Proof.
  destruct (accepted_composite_decomposes repo_pass_record repo_attestation repo_assurance
              (u "composite:repo+verifier-pack"))
    as (tp & tot & pp & pt & _ & _ & Hp & _ & Hle & _); [at_sample..|left; reflexivity|].
  exists pp, pt. split; [exact Hle|exact Hp].
Defined.

Lemma accepted_repo_composite_exact_witness :
  exists sp, dget repo_attestation (u "repo_suite_tests_passed") = VInt sp.
Proof.
  destruct (accepted_repo_composite_exact repo_pass_record repo_attestation repo_assurance)
    as (tp & tot & pp & pt & sp & st & rc & cl & _ & _ & Hs & _); [at_sample..|].
  exists sp. exact Hs.
Defined.

Lemma accepted_blackbox_pass_exercised_witness :
  exists n, dget blackbox_attestation (u "candidate_invocations") = VInt n /\ 0 < n.
Proof.
  destruct (accepted_blackbox_pass_exercised blackbox_pass_record blackbox_attestation
              blackbox_assurance blackbox_policy) as (n & b & Hn & Hpos & _); [at_sample..|].
  exists n. split; [exact Hn|exact Hpos].
Defined.

Lemma accepted_pass_fix_demonstrated_witness :
  exists b, dget repo_pass_record (u "baseline") = VDict b /\ dget b (u "verdict") = VStr "FAIL".
Proof.
  destruct (accepted_pass_fix_demonstrated repo_pass_record repo_attestation repo_assurance repo_policy)
    as (b & Hb & _ & _ & Hv & _); [at_sample..|].
  exists b. split; [exact Hb|exact Hv].
Defined.
