(* ===== verification/Decision.v ===== *)
(** From verification facts to one decision (domain/decision.py,
    domain/evidence.py, domain/execution.py, application/repo_decision.py,
    application/decision_gates.py, application/pipeline.py): the frozen priority
    of the repository decision, and the ordered gates that demote a PASS.

    The explanation of a decision is a list of f-string parts; its literal text
    is kept, formatting of the interpolated values is not evaluated. *)
From S2P Require Export PyVal Verdict.
From S2P Require Import PyStr.
Local Open Scope Z_scope.

(** A source literal whose bytes are UTF-8. *)
Fixpoint decode_literal (s : str) : str :=
  match s with
  | a :: ((b :: ((c :: s3) as s2)) as s1) =>
      if (224 <=? a)%N then ((a - 224) * 4096 + (b - 128) * 64 + (c - 128))%N :: decode_literal s3
      else if (192 <=? a)%N then ((a - 192) * 64 + (b - 128))%N :: decode_literal s2
      else a :: decode_literal s1
  | _ => s
  end.

Example decode_dash : decode_literal (u "a — b") = [97; 32; 8212; 32; 98]%N.
Proof. reflexivity. Qed.

(** The parts of an f-string: text, [{v}], [{v!r}] and [{v:g}]. *)
Inductive part := Txt (s : str) | Fmt (v : value) | FmtR (v : value) | FmtG (v : num).
Definition txt (s : string) : part := Txt (decode_literal (u s)).
Definition opt_int (x : option Z) : value := match x with Some z => VInt z | None => VNone end.

(** The exceptions of the gates and of the finalization. *)
Inductive gate_exn := KeyError (k : string) | TypeError | ValueError | OverflowError | AssertionError.

(** ** Values *)

Record GuardDecision := { gd_verdict : verdict; gd_reason_code : reason_code; gd_reason : list part }.

Definition passed (d : GuardDecision) : bool := verdict_eqb (gd_verdict d) PASS.

Record IsolationObservation := {
  io_requested : str; io_delivered : str; io_image_digest : option str;
  io_network : option str; io_runtime : option str; io_note : option str }.

Record ExecutionPhaseResult := {
  ex_execution_state : str;
  ex_execution_phase : str;
  ex_test_command_started : bool;
  ex_test_command_completed : bool;
  ex_verifier_pack_started : bool;
  ex_verifier_pack_completed : bool;
  ex_delivered_isolation : str;
  ex_setup_isolation_evidence : option IsolationObservation;
  ex_repo_suite_isolation_evidence : option IsolationObservation;
  ex_verifier_pack_isolation_evidence : option IsolationObservation;
  ex_primary_isolation_evidence : option IsolationObservation }.

Record VerifierPackEvidence := {
  vp_present : option bool;
  vp_sha256 : option str;
  vp_manifest : option dict;
  vp_tests_passed : option Z;
  vp_tests_total : option Z;
  vp_junit_sha256 : option str;
  vp_junit_digest_format : option str;
  vp_started : option bool;
  vp_completed : option bool }.

Record IsolationPayloadEvidence := {
  ip_primary : option dict; ip_setup : option dict;
  ip_repo_suite : option dict; ip_verifier_pack : option dict }.

Record RepositorySuiteEvidence := {
  rs_started : option bool;
  rs_completed : option bool;
  rs_state : option str;
  rs_passed : option bool;
  rs_tests_passed : option Z;
  rs_tests_total : option Z;
  rs_verdict_source : option str;
  rs_returncode : option Z;
  rs_junit_sha256 : option str;
  rs_junit_digest_format : option str;
  rs_image_digest : option str }.

Record RuntimeIdentityEvidence := {
  ri_tree_sha256 : option str;
  ri_tree_digest_format : option str;
  ri_tree_entries : option Z;
  ri_tree_bytes : option Z;
  ri_elapsed_ms : option float;
  ri_continuity : option str }.

Record VerificationEvidence := {
  ve_execution : ExecutionPhaseResult;
  ve_outcome : option str;
  ve_tamper : option bool;
  ve_tests_passed : option Z;
  ve_tests_total : option Z;
  ve_tests_passed_present : bool;
  ve_tests_total_present : bool;
  ve_verdict_source : option str;
  ve_junit_sha256 : option str;
  ve_junit_digest_format : option str;
  ve_setup_isolation : option str;
  ve_isolation_payloads : IsolationPayloadEvidence;
  ve_verifier_pack : VerifierPackEvidence;
  ve_repo_suite : RepositorySuiteEvidence;
  ve_runtime : RuntimeIdentityEvidence }.

(** ** Outcome tables *)

(** [MAPPING.get(key)] of a constant table. *)
Fixpoint assoc {A} (k : str) (l : list (string * A)) : option A :=
  match l with
  | [] => None
  | (k', a) :: l' => if u k' =s? k then Some a else assoc k l'
  end.

Definition OUTCOME_REASON_POLICY : list (string * (verdict * reason_code)) :=
  [("test_timeout", (FAIL, REASON_TEST_TIMEOUT));
   ("test_output_limit", (ERROR, REASON_TEST_TIMEOUT));
   ("setup_timeout", (ERROR, REASON_SETUP_TIMEOUT));
   ("setup_output_limit", (ERROR, REASON_SETUP_TIMEOUT));
   ("setup_failed", (ERROR, REASON_SETUP_FAILED));
   ("runtime_containment_error", (ERROR, REASON_RUNTIME_CLEANUP_FAILED));
   ("isolation_unavailable", (ERROR, REASON_ASSURANCE_REQUIREMENT_NOT_MET));
   ("assert_liveness_unavailable", (ERROR, REASON_ASSURANCE_REQUIREMENT_NOT_MET));
   ("structured_verdict_unavailable", (ERROR, REASON_ASSURANCE_REQUIREMENT_NOT_MET));
   ("runtime_identity_unavailable", (ERROR, REASON_ASSURANCE_REQUIREMENT_NOT_MET));
   ("pack_identity_mismatch", (ERROR, REASON_VERIFIER_PACK_IDENTITY_MISMATCH));
   ("pack_invalid", (ERROR, REASON_VERIFIER_PACK_INVALID));
   ("test_command_unavailable", (ERROR, REASON_TEST_COMMAND_UNAVAILABLE));
   ("pack_no_tests", (ERROR, REASON_NO_TEST_VERDICT));
   ("pack_no_verdict", (ERROR, REASON_NO_TEST_VERDICT));
   ("no_test_verdict", (ERROR, REASON_NO_TEST_VERDICT))].

Definition TAMPER_OUTCOME_REASON_POLICY : list (string * (reason_code * string)) :=
  [("candidate_tree_changed",
    (REASON_CANDIDATE_TREE_CHANGED,
     "prepared candidate runtime tree changed during the repo-suite/verifier-pack run"));
   ("pack_snapshot_changed",
    (REASON_VERIFIER_PACK_SNAPSHOT_CHANGED,
     "the accepted verifier-pack snapshot changed before or during execution"));
   ("assertion_liveness_failed",
    (REASON_ASSERTION_LIVENESS_FAILED,
     "the judge-owned assertion-liveness canary failed — candidate-imported code neutered the test framework's assertion machinery, so the report's passes cannot be trusted"))].

(** ** The repository decision *)

Definition decide_as (v : verdict) (r : reason_code) (text : list part) : result gate_exn GuardDecision :=
  Ok {| gd_verdict := v; gd_reason_code := r; gd_reason := text |}.

(** [diagnostics or f"run ended: {outcome}"] *)
Definition diagnostics_or (diagnostics : str) (default : list part) : list part :=
  match diagnostics with [] => default | _ => [Txt diagnostics] end.

(** The outcome of the evidence, its entry of a table. *)
Definition outcome_of (evidence : option VerificationEvidence) : option str :=
  e ← evidence; ve_outcome e.
Definition outcome_entry {A} (table : list (string * A)) (evidence : option VerificationEvidence) : option A :=
  o ← outcome_of evidence; assoc o table.

Definition opt_true (b : option bool) : bool := match b with Some b => b | None => false end.
Definition outcome_is (evidence : option VerificationEvidence) (o : string) : bool :=
  match outcome_of evidence with Some o' => o' =s? u o | None => false end.

Definition shown_passed (e : VerificationEvidence) : part :=
  Fmt (opt_int (if ve_tests_passed_present e then ve_tests_passed e else Some 0)).
Definition shown_total (e : VerificationEvidence) : part :=
  Fmt (opt_int (if ve_tests_total_present e then ve_tests_total e else Some 0)).
Definition run_ended (evidence : option VerificationEvidence) : list part :=
  [txt "run ended: "; Fmt (match outcome_of evidence with Some o => VStr o | None => VNone end)].

(** The last branches: no evidence decides. *)
Definition unclassified_decision (verifier_present : bool) (verifier_score : option float)
  : result gate_exn GuardDecision :=
  let no_verdict := decide_as FAIL REASON_NO_TEST_VERDICT
    [txt "the test session produced no clean verdict (collection/usage error)"] in
  if verifier_present then
    match verifier_score with
    | None => Err TypeError
    | Some score =>
        if fleb score (dec 8 2)
        then decide_as ERROR REASON_PATCH_APPLY_FAILED
               [txt "the patch did not apply cleanly (a PATCH anchor did not match)"]
        else no_verdict
    end
  else no_verdict.

(** The branches from [if verifier_passed] on. *)
Definition verifier_decision (verifier_present : bool) (verifier_passed : option bool)
    (verifier_score : option float) (diagnostics : str) (evidence : option VerificationEvidence)
  : result gate_exn GuardDecision :=
  let last := unclassified_decision verifier_present verifier_score in
  if opt_true verifier_passed then
    decide_as PASS REASON_TESTS_PASSED
      [txt "the selected repo judge passed, and the patch did not edit or delete a path covered by the active harness policy"]
  else
    match evidence with
    | Some e =>
        if match ve_tests_total e with Some n => negb (n =? 0) | None => false end then
          decide_as FAIL REASON_TESTS_FAILED
            [txt "the repo's tests fail on this patch ("; shown_passed e; txt "/";
             Fmt (opt_int (ve_tests_total e)); txt " passed)"]
        else match outcome_entry OUTCOME_REASON_POLICY evidence with
             | Some (v, r) => decide_as v r (diagnostics_or diagnostics (run_ended evidence))
             | None => last
             end
    | None => last
    end.

Definition compose_repo_decision (has_changes : bool) (unsafe_paths protected_violations : list str)
    (verifier_present : bool) (verifier_passed : option bool) (verifier_score : option float)
    (diagnostics : str) (evidence : option VerificationEvidence) : result gate_exn GuardDecision :=
  let judged := verifier_decision verifier_present verifier_passed verifier_score diagnostics evidence in
  if negb has_changes then
    decide_as ERROR REASON_NO_PARSEABLE_EDITS
      [txt "no parseable edit blocks — the patch produced no <<<FILE>>> or <<<PATCH>>> edits (and no deletions) to verify"]
  else if negb (is_empty unsafe_paths) then
    decide_as ERROR REASON_UNSAFE_PATH
      [txt "the patch references an unsafe path (absolute, '..', or escaping the repo root) — refusing to apply: ";
       Txt (py_join (u ", ") unsafe_paths)]
  else if negb (is_empty protected_violations) then
    decide_as REJECTED REASON_PROTECTED_HARNESS_EDIT
      [txt "protected-path policy: the patch edits or deletes a path covered by the active judge policy; use the candidate lane for source changes and a separately trusted maintenance lane for judge inputs (";
       Txt (py_join (u ", ") protected_violations); txt ")"]
  else match outcome_entry TAMPER_OUTCOME_REASON_POLICY evidence with
  | Some (r, summary) => decide_as TAMPERED r [txt summary; txt ": "; Txt diagnostics]
  | None =>
      match evidence with
      | Some e =>
          if opt_true (ve_tamper e) then
            decide_as TAMPERED REASON_JUNIT_EXIT_MISMATCH
              [txt "tamper signature: the suite's exit code and its judge-owned JUnit report disagree (";
               shown_passed e; txt "/"; shown_total e;
               txt " in the report) — refusing to read this as a pass"]
          else if outcome_is evidence "pack_invalid"
                  && match vp_present (ve_verifier_pack e) with Some b => negb b | None => false end then
            decide_as ERROR REASON_VERIFIER_PACK_NOT_FOUND
              (diagnostics_or diagnostics [txt "the configured verifier-pack path does not exist"])
          else match outcome_entry OUTCOME_REASON_POLICY evidence with
               | Some (v, r) =>
                   if outcome_is evidence "no_test_verdict" then judged
                   else decide_as v r (diagnostics_or diagnostics (run_ended evidence))
               | None => judged
               end
      | None => judged
      end
  end.

(** ** Gates *)

(** [int(value)] *)
Section Gates.
Context `{UnicodeDB}.

Definition int_of_str (s : str) : result gate_exn Z :=
  match int_of_text s with Some n => Ok n | None => Err ValueError end.

Definition py_int (v : value) : result gate_exn Z :=
  match v with
  | VBool b => Ok (if b then 1 else 0)
  | VInt z => Ok z
  | VFloat f =>
      match sf_scaled f with
      | Some (a, e) => Ok (if 0 <=? e then a * 2 ^ e else Z.quot a (2 ^ (- e)))
      | None => Err (match sf_is_inf f with Some _ => OverflowError | None => ValueError end)
      end
  | VStr s => int_of_str s
  | _ => Err TypeError
  end.

(** [mapping[key]] *)
Definition subscript (d : dict) (k : string) : result gate_exn value :=
  match dlookup (u k) d with Some v => Ok v | None => Err (KeyError k) end.

Definition get_or (d : dict) (k : string) (default : value) : value :=
  match dlookup (u k) d with Some v => v | None => default end.

(** [min_diff_coverage] as a ratio. *)
Definition floor_ratio (f : num) : result gate_exn (Z * Z) :=
  match f with
  | NInt z => Ok (z, 1)
  | NFloat x => match as_integer_ratio x with
                | Some r => Ok r
                | None => Err (match sf_is_inf x with Some _ => OverflowError | None => ValueError end)
                end
  end.

Definition shortfall_evaluator_t : Type :=
  dict -> option str -> option str -> result gate_exn (option (list part)).

Definition apply_assurance_gate (decision : GuardDecision) (assurance : dict) (execution_state : str)
    (execution_requested : bool) (require_report_integrity require_candidate_isolation : option str)
    (shortfall_evaluator : shortfall_evaluator_t) (eager_shortfall : bool) : result gate_exn GuardDecision :=
  let demoted shortfall := {| gd_verdict := ERROR;
                              gd_reason_code := REASON_ASSURANCE_REQUIREMENT_NOT_MET;
                              gd_reason := shortfall |} in
  let completed := execution_state =s? state_wire EXECUTION_COMPLETED in
  if eager_shortfall then
    let* shortfall := shortfall_evaluator assurance require_report_integrity require_candidate_isolation in
    match shortfall with
    | Some text => Ok (if completed && verdict_eqb (gd_verdict decision) PASS then demoted text else decision)
    | None => Ok decision
    end
  else if execution_requested && completed && verdict_eqb (gd_verdict decision) PASS then
    let* shortfall := shortfall_evaluator assurance require_report_integrity require_candidate_isolation in
    match shortfall with Some text => Ok (demoted text) | None => Ok decision end
  else Ok decision.

Definition apply_diff_coverage_gate (decision : GuardDecision) (coverage_evidence : dict)
    (min_diff_coverage : option num) : result gate_exn GuardDecision :=
  match min_diff_coverage with
  | None => Ok decision
  | Some floor =>
      if negb (verdict_eqb (gd_verdict decision) PASS) then Ok decision
      else if negb (is_true_v (dget coverage_evidence (u "measured"))) then
        decide_as ERROR REASON_ASSURANCE_REQUIREMENT_NOT_MET
          [txt "required changed-line coverage could not be measured: ";
           Fmt (get_or coverage_evidence "note" (VStr (u "the collector returned no reason")))]
      else
        let* executed := subscript coverage_evidence "executed" in
        let* coverage_executed := py_int executed in
        let* total := subscript coverage_evidence "total" in
        let* coverage_total := py_int total in
        let* (floor_numerator, floor_denominator) := floor_ratio floor in
        if (0 <? coverage_total)
           && (100 * coverage_executed * floor_denominator <? floor_numerator * coverage_total) then
          let* percent := subscript coverage_evidence "percent" in
          decide_as FAIL REASON_DIFF_COVERAGE_BELOW_THRESHOLD
            [txt "the suite passes but executed only "; Fmt executed; txt "/"; Fmt total;
             txt " of the changed executable lines; the exact ratio is below the required ";
             FmtG floor; txt "% (the evidence display rounds it to "; Fmt percent;
             txt "%) — the change is largely unexercised by the tests that judged it"]
        else Ok decision
  end.

Definition apply_demonstrated_fix_gate (decision : GuardDecision) (baseline_evidence : dict)
    (require_demonstrated_fix : bool) : result gate_exn GuardDecision :=
  if require_demonstrated_fix && verdict_eqb (gd_verdict decision) PASS then
    let* effect := subscript baseline_evidence "repair_effect" in
    if negb (py_eq effect (VStr (u "demonstrated"))) then
      decide_as FAIL REASON_FIX_NOT_DEMONSTRATED
        [txt "the suite passes on the candidate, but the fix is not demonstrated: the pristine base ";
         txt (if py_eq (dget baseline_evidence (u "verdict")) (VStr (verdict_wire PASS))
              then "already passes the same suite" else "produced no clean baseline verdict");
         txt " — --require-demonstrated-fix demands baseline FAIL → candidate PASS under the same base-owned judge policy"]
    else Ok decision
  else Ok decision.

(** ** The pipeline cursor *)

Record VerificationPipeline := { decision : GuardDecision }.

Definition from_repo_facts has_changes unsafe_paths protected_violations verifier_present
    verifier_passed verifier_score diagnostics evidence : result gate_exn VerificationPipeline :=
  let* d := compose_repo_decision has_changes unsafe_paths protected_violations verifier_present
              verifier_passed verifier_score diagnostics evidence in
  Ok {| decision := d |}.

Definition from_decision (d : GuardDecision) : VerificationPipeline := {| decision := d |}.

Definition apply_diff_coverage (p : VerificationPipeline) coverage_evidence min_diff_coverage
  : result gate_exn VerificationPipeline :=
  let* d := apply_diff_coverage_gate (decision p) coverage_evidence min_diff_coverage in
  Ok {| decision := d |}.

Definition apply_demonstrated_fix (p : VerificationPipeline) baseline_evidence require_demonstrated_fix
  : result gate_exn VerificationPipeline :=
  let* d := apply_demonstrated_fix_gate (decision p) baseline_evidence require_demonstrated_fix in
  Ok {| decision := d |}.

Definition apply_assurance (p : VerificationPipeline) assurance execution_state execution_requested
    require_report_integrity require_candidate_isolation shortfall_evaluator eager_shortfall
  : result gate_exn VerificationPipeline :=
  let* d := apply_assurance_gate (decision p) assurance execution_state execution_requested
              require_report_integrity require_candidate_isolation shortfall_evaluator eager_shortfall in
  Ok {| decision := d |}.

End Gates.

(** ** Properties *)

Definition decided (d : GuardDecision) : Prop :=
  contract_verdict (gd_reason_code d) (gd_verdict d) = true.

Lemma assoc_In {A} k (l : list (string * A)) a : assoc k l = Some a -> exists s, u s = k /\ In (s, a) l.
Proof.
  induction l as [|[k' b] l IH]; simpl; [done|].
  destruct (u k' =s? k) eqn:E; [apply str_eqb_eq in E; intros [= ->]; by exists k'; auto|].
  intros (s & ? & ?)%IH. by exists s; auto.
Qed.

(** The tables name contract rows, and never PASS. *)
Lemma outcome_table_contract o v r :
  assoc o OUTCOME_REASON_POLICY = Some (v, r) -> contract_verdict r v = true /\ v <> PASS.
Proof.
  intros (s & _ & Hin)%assoc_In.
  assert (H : forallb (fun '(_, (v, r)) => contract_verdict r v && negb (verdict_eqb v PASS))
                      OUTCOME_REASON_POLICY = true) by reflexivity.
  rewrite forallb_forall in H. apply H in Hin. apply andb_true_iff in Hin as [Hc Hv].
  split; [done|]. by intros ->.
Qed.

Lemma tamper_table_contract o r s :
  assoc o TAMPER_OUTCOME_REASON_POLICY = Some (r, s) -> contract_verdict r TAMPERED = true.
Proof.
  intros (k & _ & Hin)%assoc_In.
  assert (H : forallb (fun '(_, (r, _)) => contract_verdict r TAMPERED) TAMPER_OUTCOME_REASON_POLICY = true)
    by reflexivity.
  rewrite forallb_forall in H. by apply H in Hin.
Qed.

Lemma outcome_entry_contract e v r :
  outcome_entry OUTCOME_REASON_POLICY e = Some (v, r) -> contract_verdict r v = true /\ v <> PASS.
Proof. unfold outcome_entry. destruct (outcome_of e); [apply outcome_table_contract|done]. Qed.

Lemma tamper_entry_contract e r s :
  outcome_entry TAMPER_OUTCOME_REASON_POLICY e = Some (r, s) -> contract_verdict r TAMPERED = true.
Proof. unfold outcome_entry. destruct (outcome_of e); [apply tamper_table_contract|done]. Qed.

Lemma decide_as_ok v r t d :
  decide_as v r t = Ok d -> gd_verdict d = v /\ gd_reason_code d = r.
Proof. unfold decide_as. intros H. apply Ok_inj in H as <-. done. Qed.

Lemma decide_as_decided v r t d : contract_verdict r v = true -> decide_as v r t = Ok d -> decided d.
Proof. unfold decided. by intros ? [-> ->]%decide_as_ok. Qed.
#[local] Hint Resolve decide_as_decided : core.

(** The evidence does not veto a pass: no tamper outcome, no mismatch, and no
    tabulated outcome other than [no_test_verdict]. *)
Definition evidence_clear (evidence : option VerificationEvidence) : bool :=
  match outcome_entry TAMPER_OUTCOME_REASON_POLICY evidence with Some _ => false | None => true end
  && match evidence with Some e => negb (opt_true (ve_tamper e)) | None => true end
  && (outcome_is evidence "no_test_verdict"
      || match outcome_entry OUTCOME_REASON_POLICY evidence with Some _ => false | None => true end).

Lemma unclassified_spec vp vs d :
  unclassified_decision vp vs = Ok d -> decided d /\ gd_verdict d <> PASS.
Proof.
  unfold unclassified_decision. cbv zeta.
  destruct vp; [destruct vs as [s|]; [destruct (fleb _ _)|done]|];
    intros H; (split; [by eapply decide_as_decided in H|by apply decide_as_ok in H as [-> _]]).
Qed.

Lemma verifier_spec vp vpass vs dg ev d :
  verifier_decision vp vpass vs dg ev = Ok d ->
  decided d /\ (gd_verdict d = PASS <-> vpass = Some true).
Proof.
  unfold verifier_decision. cbv zeta. destruct (opt_true vpass) eqn:Ev.
  - intros H. split; [by eapply decide_as_decided in H|]. apply decide_as_ok in H as [-> _].
    destruct vpass as [[]|]; done.
  - assert (Hn : vpass <> Some true) by (intros ->; done).
    assert (Hu : unclassified_decision vp vs = Ok d -> decided d /\ (gd_verdict d = PASS <-> vpass = Some true))
      by (intros [? ?]%unclassified_spec; tauto).
    destruct ev as [e|]; [|done]. destruct (match ve_tests_total e with Some _ => _ | None => _ end).
    { intros H. split; [by eapply decide_as_decided in H|]. by apply decide_as_ok in H as [-> _]. }
    destruct (outcome_entry _ _) as [[v r]|] eqn:Eo; [|done].
    apply outcome_entry_contract in Eo as [Hc Hv]. intros H.
    split; [by eapply decide_as_decided in H|]. apply decide_as_ok in H as [-> _]. tauto.
Qed.

Lemma unclassified_total vp vs :
  (vp = true -> vs <> None) -> exists d, unclassified_decision vp vs = Ok d.
Proof.
  intros H. unfold unclassified_decision. cbv zeta. destruct vp; [|by eexists].
  destruct vs as [s|]; [destruct (fleb _ _); by eexists|by destruct H].
Qed.

Lemma verifier_total vp vpass vs dg ev :
  (vp = true -> vs <> None) -> exists d, verifier_decision vp vpass vs dg ev = Ok d.
Proof.
  intros H. unfold verifier_decision. cbv zeta. destruct (opt_true vpass); [by eexists|].
  destruct ev as [e|]; [|by apply unclassified_total].
  destruct (match ve_tests_total e with Some _ => _ | None => _ end); [by eexists|].
  destruct (outcome_entry _ _) as [[v r]|]; [by eexists|by apply unclassified_total].
Qed.

Lemma compose_total hc up pv vp vpass vs dg ev :
  (vp = true -> vs <> None) -> exists d, compose_repo_decision hc up pv vp vpass vs dg ev = Ok d.
Proof.
  intros H. destruct (verifier_total vp vpass vs dg ev H) as [d Hd].
  unfold compose_repo_decision. cbv zeta. rewrite Hd.
  destruct (negb hc); [by eexists|]. destruct (negb (is_empty up)); [by eexists|].
  destruct (negb (is_empty pv)); [by eexists|].
  destruct (outcome_entry TAMPER_OUTCOME_REASON_POLICY ev) as [[r s]|]; [by eexists|].
  destruct ev as [e|]; [|by eexists]. destruct (opt_true _); [by eexists|].
  destruct (outcome_is _ _ && _); [by eexists|].
  destruct (outcome_entry OUTCOME_REASON_POLICY _) as [[v r]|]; [|by eexists].
  destruct (outcome_is _ _); by eexists.
Qed.

Lemma compose_spec hc up pv vp vpass vs dg ev d :
  compose_repo_decision hc up pv vp vpass vs dg ev = Ok d ->
  decided d /\
  (gd_verdict d = PASS <-> hc = true /\ up = [] /\ pv = [] /\ evidence_clear ev = true /\ vpass = Some true).
Proof.
  unfold compose_repo_decision. cbv zeta.
  assert (Hno : forall v r t (P : Prop), ~ P -> v <> PASS -> contract_verdict r v = true ->
                decide_as v r t = Ok d -> decided d /\ (gd_verdict d = PASS <-> P)).
  { intros v r t P HP Hv Hc H. split; [by eapply decide_as_decided in H|].
    apply decide_as_ok in H as [-> _]. tauto. }
  destruct hc; [|by apply Hno; [intros []|..]].
  destruct (is_empty up) eqn:Eu; [|apply Hno; [intros (_ & -> & _)|..]; done].
  destruct (is_empty pv) eqn:Ep; [|apply Hno; [intros (_ & _ & -> & _)|..]; done].
  apply is_empty_iff in Eu as ->. apply is_empty_iff in Ep as ->. simpl negb. cbv match.
  assert (Hj : evidence_clear ev = true -> verifier_decision vp vpass vs dg ev = Ok d ->
               decided d /\ (gd_verdict d = PASS <-> true = true /\ [] = [] :> list str /\ [] = [] :> list str
                              /\ evidence_clear ev = true /\ vpass = Some true)).
  { intros Hcl H. apply verifier_spec in H as [H1 H2]. split; [done|]. rewrite H2. tauto. }
  assert (Hnc : evidence_clear ev = false ->
                ~ (true = true /\ [] = [] :> list str /\ [] = [] :> list str
                   /\ evidence_clear ev = true /\ vpass = Some true)) by (intros ->; naive_solver).
  unfold evidence_clear in Hnc, Hj |- *.
  destruct (outcome_entry TAMPER_OUTCOME_REASON_POLICY ev) as [[r s]|] eqn:Et.
  { apply Hno; [by apply Hnc|done|by eapply tamper_entry_contract]. }
  destruct ev as [e|]; [|by apply Hj].
  destruct (opt_true (ve_tamper e)); [by apply Hno; [apply Hnc|..]|].
  destruct (outcome_entry OUTCOME_REASON_POLICY (Some e)) as [[v r]|] eqn:Eo.
  - pose proof (outcome_entry_contract _ _ _ Eo) as [Hc Hv].
    destruct (outcome_is (Some e) "pack_invalid" && _) eqn:Epi.
    + apply andb_true_iff in Epi as [Epi _]. apply Hno; [|done|done]. apply Hnc.
      unfold outcome_is in *. destruct (outcome_of _) as [o|]; [|done]. by apply str_eqb_eq in Epi as ->.
    + destruct (outcome_is (Some e) "no_test_verdict"); [by apply Hj|].
      apply Hno; [by apply Hnc|done|done].
  - destruct (outcome_is (Some e) "pack_invalid" && _) eqn:Epi.
    + apply andb_true_iff in Epi as [Epi _]. exfalso. unfold outcome_is, outcome_entry in *.
      destruct (outcome_of _) as [o|]; [|done]. by apply str_eqb_eq in Epi as ->.
    + apply Hj. by rewrite orb_true_r.
Qed.

(** C20: the decision is total on well-typed verifier results, always names a
    reason the contract permits for its verdict, and passes exactly when there
    are changes, no unsafe path, no protected violation, no evidence of tampering
    and no tabulated outcome other than [no_test_verdict], and the verifier
    passed. *)
Theorem repo_decision_sound hc up pv vp vpass vs dg ev :
  (vp = true -> vs <> None) ->
  exists d, compose_repo_decision hc up pv vp vpass vs dg ev = Ok d /\
    contract_verdict (gd_reason_code d) (gd_verdict d) = true /\
    (gd_verdict d = PASS <->
       hc = true /\ up = [] /\ pv = [] /\ evidence_clear ev = true /\ vpass = Some true).
Proof.
  intros Hvs. destruct (compose_repo_decision hc up pv vp vpass vs dg ev) as [d|x] eqn:E.
  - exists d. split; [done|]. exact (compose_spec _ _ _ _ _ _ _ _ _ E).
  - destruct (compose_total hc up pv vp vpass vs dg ev Hvs) as [d Hd]. congruence.
Qed.

(** ** The gates only demote *)

Lemma verdict_eqb_iff a b : verdict_eqb a b = true <-> a = b.
Proof. apply bool_decide_eq_true. Qed.

Section GateProperties.
Context `{UnicodeDB}.

(** The measured ratio meets the floor, compared exactly. *)
Definition floor_met (coverage : dict) (floor : num) : Prop :=
  is_true_v (dget coverage (u "measured")) = true /\
  exists ve vt e t n m,
    dlookup (u "executed") coverage = Some ve /\ py_int ve = Ok e /\
    dlookup (u "total") coverage = Some vt /\ py_int vt = Ok t /\
    floor_ratio floor = Ok (n, m) /\ (t <= 0 \/ n * t <= 100 * e * m).

(** A gate that returned either kept its decision, or demoted a PASS to a
    decision of the contract. *)
Definition gate_step (d d' : GuardDecision) : Prop :=
  d' = d \/ (gd_verdict d = PASS /\ gd_verdict d' <> PASS /\ decided d').

Lemma gate_step_demote d v r t d' :
  gd_verdict d = PASS -> v <> PASS -> contract_verdict r v = true -> decide_as v r t = Ok d' ->
  gate_step d d' /\ gd_verdict d' <> PASS.
Proof.
  intros Hd Hv Hc Ht. assert (gd_verdict d' <> PASS) by (apply decide_as_ok in Ht as [-> _]; done).
  split; [right; split_and!|]; try done. by eapply decide_as_decided in Ht.
Qed.

Lemma subscript_ok d k v : subscript d k = Ok v -> dlookup (u k) d = Some v.
Proof. unfold subscript. destruct (dlookup _ _); [by intros [= ->]|done]. Qed.

Lemma coverage_gate_step d c f d' :
  apply_diff_coverage_gate d c f = Ok d' ->
  gate_step d d' /\ (gd_verdict d' = PASS -> forall fl, f = Some fl -> floor_met c fl).
Proof.
  unfold apply_diff_coverage_gate. destruct f as [fl|]; [|by intros H'%Ok_inj; subst; split; [left|]].
  destruct (verdict_eqb (gd_verdict d) PASS) eqn:Ev; simpl negb; cbv match;
    [apply verdict_eqb_iff in Ev
    |intros H'%Ok_inj; subst; split; [by left|]; intros Hp%verdict_eqb_iff; congruence].
  destruct (is_true_v _) eqn:Em; simpl negb; cbv match;
    [|intros H'; eapply gate_step_demote in H' as [? ?]; done].
  intros (ve & He%subscript_ok & H')%rbind_ok. apply rbind_ok in H' as (e & He' & H').
  apply rbind_ok in H' as (vt & Ht%subscript_ok & H'). apply rbind_ok in H' as (t & Ht' & H').
  apply rbind_ok in H' as ([n m] & Hf & H').
  destruct ((0 <? t) && _) eqn:Eb.
  - apply rbind_ok in H' as (p & _ & H'). eapply gate_step_demote in H' as [? ?]; done.
  - apply Ok_inj in H' as <-. split; [by left|]. intros _ fl' [= <-]. split; [done|].
    exists ve, vt, e, t, n, m. split_and!; try done. lia.
Qed.

Lemma fix_gate_step d b r d' :
  apply_demonstrated_fix_gate d b r = Ok d' ->
  gate_step d d' /\
  (gd_verdict d' = PASS -> r = true ->
   exists v, dlookup (u "repair_effect") b = Some v /\ py_eq v (VStr (u "demonstrated")) = true).
Proof.
  unfold apply_demonstrated_fix_gate.
  destruct (r && verdict_eqb (gd_verdict d) PASS) eqn:Er.
  - apply andb_true_iff in Er as [_ Ev%verdict_eqb_iff].
    intros (v & Hv%subscript_ok & H')%rbind_ok.
    destruct (py_eq v _) eqn:Ee; simpl negb in H'; cbv match in H'.
    + apply Ok_inj in H' as <-. split; [by left|]. intros _ _. by exists v.
    + eapply gate_step_demote in H' as [? ?]; done.
  - intros H'%Ok_inj. subst. split; [by left|]. intros Hp%verdict_eqb_iff ->. by rewrite Hp in Er.
Qed.

Lemma assurance_gate_step d a s req ri ci ev eager d' :
  apply_assurance_gate d a s req ri ci ev eager = Ok d' ->
  gate_step d d' /\
  (gd_verdict d' = PASS -> s = state_wire EXECUTION_COMPLETED -> req = true \/ eager = true ->
   ev a ri ci = Ok None).
Proof.
  unfold apply_assurance_gate. cbv zeta.
  destruct (s =s? _) eqn:Es; [|destruct eager; [intros (x & Hx & H')%rbind_ok|];
    [destruct x|rewrite andb_false_r]; simpl in *; intros; simplify_eq/=;
    (split; [by left|intros _ ->; by rewrite str_eqb_refl in Es])].
  simpl. rewrite andb_true_r.
  assert (Hd : forall x, gd_verdict d = PASS ->
            gate_step d {| gd_verdict := ERROR; gd_reason_code := REASON_ASSURANCE_REQUIREMENT_NOT_MET;
                           gd_reason := x |}) by (intros x Hv; right; done).
  destruct eager.
  - intros (x & Hx & H')%rbind_ok. destruct x as [x|].
    + destruct (verdict_eqb _ _) eqn:Ev; apply Ok_inj in H' as <-.
      * apply verdict_eqb_iff in Ev. split; [by apply Hd|done].
      * split; [by left|]. intros Hp%verdict_eqb_iff. congruence.
    + apply Ok_inj in H' as <-. by split; [left|].
  - destruct (req && verdict_eqb _ _) eqn:Er.
    + apply andb_true_iff in Er as [-> Ev%verdict_eqb_iff]. intros (x & Hx & H')%rbind_ok.
      destruct x as [x|]; apply Ok_inj in H' as <-; [by split; [apply Hd|]|by split; [left|]].
    + intros <-%Ok_inj. split; [by left|]. intros Hp%verdict_eqb_iff _ [->|]; [|done].
      by rewrite Hp in Er.
Qed.

Lemma gate_step_trans d d' d'' : gate_step d d' -> gate_step d' d'' -> gate_step d d''.
Proof. unfold gate_step. intros [->|(? & ? & ?)]; [done|]. intros [->|(? & ? & ?)]; [by right|done]. Qed.

Lemma gate_step_decided d d' : decided d -> gate_step d d' -> decided d'.
Proof. by intros Hd [->|(_ & _ & H')]. Qed.

(** the gates only demote.  Whatever evidence they read, the three gates in
    pipeline order leave every decision that is not a PASS untouched, return
    decisions of the reason contract, and return a PASS only when it is the
    decision they were given, the exact coverage ratio meets the configured
    floor, a required fix was demonstrated, and (for a completed execution) the
    delivered assurance has no shortfall. *)
Theorem pipeline_only_demotes p coverage floor baseline fix_required assurance state requested ri ci
    evaluator eager p1 p2 p3 :
  decided (decision p) ->
  apply_diff_coverage p coverage floor = Ok p1 ->
  apply_demonstrated_fix p1 baseline fix_required = Ok p2 ->
  apply_assurance p2 assurance state requested ri ci evaluator eager = Ok p3 ->
  decided (decision p3) /\
  (gd_verdict (decision p) <> PASS -> decision p3 = decision p) /\
  (gd_verdict (decision p3) = PASS ->
     decision p3 = decision p /\
     (forall f, floor = Some f -> floor_met coverage f) /\
     (fix_required = true -> py_eq (dget baseline (u "repair_effect")) (VStr (u "demonstrated")) = true) /\
     (state = state_wire EXECUTION_COMPLETED -> requested = true \/ eager = true ->
      evaluator assurance ri ci = Ok None)).
Proof.
  intros Hdec (d1 & [S1 C1]%coverage_gate_step & H1%Ok_inj)%rbind_ok
    (d2 & [S2 C2]%fix_gate_step & H2%Ok_inj)%rbind_ok (d3 & [S3 C3]%assurance_gate_step & H3%Ok_inj)%rbind_ok.
  subst p1 p2 p3. simpl in *.
  pose proof (gate_step_trans _ _ _ S1 S2) as S12. pose proof (gate_step_trans _ _ _ S12 S3) as S.
  split; [by eapply gate_step_decided|]. split; [intros Hn; by destruct S as [|[? _]]|].
  intros Hp. assert (E3 : d3 = d2) by (destruct S3 as [|(_ & ? & _)]; done). subst d3.
  assert (E2 : d2 = d1) by (destruct S2 as [|(_ & ? & _)]; done). subst d2.
  split; [by destruct S as [|(_ & ? & _)]|]. split; [by apply C1|]. split; [|by apply C3].
  intros Hr. destruct (C2 Hp Hr) as (v & Hv & Hq). unfold dget. by rewrite Hv.
Qed.

(** The two timing modes of the assurance gate decide alike.  When the
    evaluator returns, evaluating the floor eagerly (black-box) and evaluating
    it only for a completed passing execution (repository) give the same
    decision; the lazy mode returns even where the evaluator would raise,
    unless the decision is a completed PASS. *)
Theorem assurance_gate_timing d a s ri ci evaluator shortfall :
  evaluator a ri ci = Ok shortfall ->
  apply_assurance_gate d a s true ri ci evaluator true = apply_assurance_gate d a s true ri ci evaluator false /\
  forall failing, s <> state_wire EXECUTION_COMPLETED \/ gd_verdict d <> PASS ->
    apply_assurance_gate d a s true ri ci failing false = Ok d.
Proof.
  intros He. unfold apply_assurance_gate. cbv zeta. rewrite He. split.
  - simpl. destruct shortfall, (s =s? _), (verdict_eqb _ _); done.
  - intros failing [Hs|Hv].
    + apply str_eqb_neq in Hs. by rewrite Hs.
    + destruct (verdict_eqb _ _) eqn:Ev; [by apply verdict_eqb_iff in Ev|]. by rewrite andb_false_r.
Qed.

End GateProperties.

(** ** Concrete decisions *)

Lemma repo_decision_sound_witness :
  exists d, compose_repo_decision true [] [] true (Some true) (Some (dec 1 0)) [] None = Ok d
            /\ gd_verdict d = PASS.
Proof.
  destruct (repo_decision_sound true [] [] true (Some true) (Some (dec 1 0)) [] None ltac:(discriminate))
    as (d & H1 & _ & H2).
  exists d. split; [exact H1|]. apply H2. repeat split; reflexivity.
Defined.

Definition passing : GuardDecision :=
  {| gd_verdict := PASS; gd_reason_code := REASON_TESTS_PASSED; gd_reason := [] |}.
Definition half_covered : dict :=
  dict_of [("measured", VBool true); ("executed", VInt 1); ("total", VInt 2); ("percent", VFloat (dec 50 0))].
Definition repaired : dict := dict_of [("verdict", VStr (u "FAIL")); ("repair_effect", VStr (u "demonstrated"))].
Definition no_shortfall : shortfall_evaluator_t := fun _ _ _ => Ok None.

(** A ratio of 1/2 meets 50 % and misses 50.1 %. *)
Example coverage_floor_exact :
  (exists d, @apply_diff_coverage_gate ascii_unicode passing half_covered (Some (NInt 50)) = Ok d /\ d = passing) /\
  (exists d, @apply_diff_coverage_gate ascii_unicode passing half_covered (Some (NFloat (dec 501 1))) = Ok d
             /\ gd_reason_code d = REASON_DIFF_COVERAGE_BELOW_THRESHOLD).
Proof. split; (eexists; split; [vm_compute; reflexivity|reflexivity]). Qed.

Lemma pipeline_only_demotes_witness : @floor_met ascii_unicode half_covered (NInt 50).
Proof.
  destruct (@pipeline_only_demotes ascii_unicode (from_decision passing) half_covered (Some (NInt 50)) repaired true
              [] (state_wire EXECUTION_COMPLETED) true None None no_shortfall false
              (from_decision passing) (from_decision passing) (from_decision passing)
              eq_refl ltac:(vm_compute; reflexivity) ltac:(vm_compute; reflexivity)
              ltac:(vm_compute; reflexivity)) as (_ & _ & H).
  exact (proj1 (proj2 (H eq_refl)) (NInt 50) eq_refl).
Defined.

Lemma assurance_gate_timing_witness :
  apply_assurance_gate passing [] (u "x") true None None no_shortfall true
  = apply_assurance_gate passing [] (u "x") true None None no_shortfall false.
Proof. exact (proj1 (assurance_gate_timing passing [] (u "x") None None no_shortfall None eq_refl)). Defined.
