(* ===== verification/Continuity.v ===== *)
(** The two continuity protocols of a judgment (verifiers/repo_runtime_continuity.py,
    verifiers/repo_pack_continuity.py): the candidate tree and the accepted pack
    snapshot are identified before execution and compared after it, and the claim
    "nothing changed" is made only at the end of a clean run.

    A protocol object is its state; an operation maps the state and the answer of
    the injected provider to the next state and what the call does: return a
    failure or nothing, or raise. *)
From S2P Require Export Decision PyFloat.
From S2P Require Import PyStr.
Local Open Scope Z_scope.

(** ** Runtime identity *)

Module Runtime.

(** runtime_identity.py: what a capture of the tree reports. *)
Record RuntimeIdentity := {
  id_sha256 : str;
  id_digest_format : str;
  id_entries : Z;
  id_regular_bytes : Z;
  id_elapsed_ms : float }.

(** An answer of a provider: a value, its declared error with a message, or any
    other exception, which passes through. *)
Inductive answer (A : Type) := Answer (a : A) | DeclaredError (message : str) | OtherError.
Arguments Answer {A} a.
Arguments DeclaredError {A} message.
Arguments OtherError {A}.

Inductive failure_kind := capture_error | verification_error | suite_drift | pack_drift.

Inductive phase_t := not_required | not_captured | captured | suite_verified | delivered | failed.

#[export] Instance phase_eq_dec : EqDecision phase_t.
Proof. solve_decision. Defined.

Definition _BENIGN_RUNTIME_WRITE_SEGMENTS : list str :=
  us ["__pycache__"; ".pytest_cache"; ".ruff_cache"; ".mypy_cache"; ".hypothesis"].
Definition _BENIGN_RUNTIME_WRITE_SUFFIXES : list str := us [".pyc"; ".pyo"].

Definition _is_benign_runtime_write (path : str) : bool :=
  let segments := split_char ch_slash (map (fun c => if N.eqb c ch_bslash then ch_slash else c) path) in
  if existsb (fun s => str_in s _BENIGN_RUNTIME_WRITE_SEGMENTS) segments then true
  else
    let basename := List.last segments path in
    if existsb (fun s => ends_with s basename) _BENIGN_RUNTIME_WRITE_SUFFIXES then true
    else (basename =s? u ".coverage") || starts_with (u ".coverage.") basename.

Record RepoRuntimeContinuityRequest := {
  rq_candidate_copy : str;
  rq_pack_configured : bool;
  rq_container_mode : bool;
  rq_setup_configured : bool;
  rq_trust_setup_on_host : bool;
  rq_require_suite_continuity : bool }.

Record RepoRuntimeContinuityFailure := {
  fl_kind : failure_kind;
  fl_diagnostics : str;
  fl_status : str;
  fl_changes : list str }.

(** The protocol object, with the field of the trace it writes. *)
Record RepoRuntimeContinuity := {
  rc_request : RepoRuntimeContinuityRequest;
  rc_baseline : option RuntimeIdentity;
  rc_elapsed_ms : float;
  rc_continuity : str;
  rc_delivery : str;
  rc_phase : phase_t;
  rc_failure : option RepoRuntimeContinuityFailure;
  rc_trace_phase : str }.

Definition required (q : RepoRuntimeContinuityRequest) : bool :=
  rq_pack_configured q || rq_require_suite_continuity q.

(** Construction, with [__post_init__]. *)
Definition new_continuity (q : RepoRuntimeContinuityRequest) (trace_phase : str) : RepoRuntimeContinuity :=
  let need := required q in
  {| rc_request := q; rc_baseline := None; rc_elapsed_ms := dec 0 1;
     rc_continuity := u "not_applicable";
     rc_delivery :=
       if need then
         if rq_container_mode q && negb (rq_setup_configured q && rq_trust_setup_on_host q)
         then u "read_only_enforced" else u "snapshot_boundary_checked"
       else u "not_applicable";
     rc_phase := if need then not_captured else not_required;
     rc_failure := None; rc_trace_phase := trace_phase |}.

Definition evidence (c : RepoRuntimeContinuity) : RuntimeIdentityEvidence :=
  {| ri_tree_sha256 := id_sha256 <$> rc_baseline c;
     ri_tree_digest_format := id_digest_format <$> rc_baseline c;
     ri_tree_entries := id_entries <$> rc_baseline c;
     ri_tree_bytes := id_regular_bytes <$> rc_baseline c;
     ri_elapsed_ms := Some (rc_elapsed_ms c);
     ri_continuity := Some (rc_continuity c) |}.

(** What a call does. *)
Inductive outcome := Returned (f : option RepoRuntimeContinuityFailure) | WrongPhase | ProviderRaised.

(** Field updates. *)
Definition set_trace (c : RepoRuntimeContinuity) : RepoRuntimeContinuity :=
  {| rc_request := rc_request c; rc_baseline := rc_baseline c; rc_elapsed_ms := rc_elapsed_ms c;
     rc_continuity := rc_continuity c; rc_delivery := rc_delivery c; rc_phase := rc_phase c;
     rc_failure := rc_failure c; rc_trace_phase := u "runtime_verification" |}.
Definition set_continuity (c : RepoRuntimeContinuity) (s : str) : RepoRuntimeContinuity :=
  {| rc_request := rc_request c; rc_baseline := rc_baseline c; rc_elapsed_ms := rc_elapsed_ms c;
     rc_continuity := s; rc_delivery := rc_delivery c; rc_phase := rc_phase c;
     rc_failure := rc_failure c; rc_trace_phase := rc_trace_phase c |}.
Definition set_phase (c : RepoRuntimeContinuity) (p : phase_t) : RepoRuntimeContinuity :=
  {| rc_request := rc_request c; rc_baseline := rc_baseline c; rc_elapsed_ms := rc_elapsed_ms c;
     rc_continuity := rc_continuity c; rc_delivery := rc_delivery c; rc_phase := p;
     rc_failure := rc_failure c; rc_trace_phase := rc_trace_phase c |}.
Definition set_observed (c : RepoRuntimeContinuity) (baseline : option RuntimeIdentity) (ms : float)
  : RepoRuntimeContinuity :=
  {| rc_request := rc_request c; rc_baseline := baseline; rc_elapsed_ms := fadd (rc_elapsed_ms c) ms;
     rc_continuity := rc_continuity c; rc_delivery := rc_delivery c; rc_phase := rc_phase c;
     rc_failure := rc_failure c; rc_trace_phase := rc_trace_phase c |}.

Definition _record_failure (c : RepoRuntimeContinuity) (f : RepoRuntimeContinuityFailure)
  : RepoRuntimeContinuity * outcome :=
  ({| rc_request := rc_request c; rc_baseline := rc_baseline c; rc_elapsed_ms := rc_elapsed_ms c;
      rc_continuity := fl_status f; rc_delivery := rc_delivery c; rc_phase := failed;
      rc_failure := Some f; rc_trace_phase := rc_trace_phase c |}, Returned (Some f)).

(** [_require_phase] *)
Definition in_phase (c : RepoRuntimeContinuity) (p : phase_t) : bool := bool_decide (rc_phase c = p).

Definition capture_baseline (c : RepoRuntimeContinuity) (observe : answer RuntimeIdentity)
  : RepoRuntimeContinuity * outcome :=
  if negb (required (rc_request c)) then (c, Returned None)
  else match rc_failure c with
  | Some f => (c, Returned (Some f))
  | None =>
      if negb (in_phase c not_captured) then (c, WrongPhase)
      else
        let c := set_continuity (set_trace c) (u "unavailable") in
        match observe with
        | Answer observed =>
            (set_phase (set_continuity (set_observed c (Some observed) (id_elapsed_ms observed))
                          (u "incomplete")) captured, Returned None)
        | DeclaredError exc =>
            _record_failure c {| fl_kind := capture_error;
              fl_diagnostics := u "candidate runtime identity failed: " ++ exc;
              fl_status := u "unavailable"; fl_changes := [] |}
        | OtherError => (c, ProviderRaised)
        end
  end.

(** [_verify]: the state afterwards with the changes or the failure, or an
    exception. *)
Definition _verify (c : RepoRuntimeContinuity) (observe : answer (RuntimeIdentity * list str))
  : RepoRuntimeContinuity * (list str + (RepoRuntimeContinuityFailure + outcome)) :=
  match rc_baseline c with
  | None => (c, inr (inr WrongPhase))
  | Some baseline =>
      let c := set_trace c in
      match observe with
      | Answer (observed, changes) => (set_observed c (Some baseline) (id_elapsed_ms observed), inl changes)
      | DeclaredError exc =>
          (c, inr (inl {| fl_kind := verification_error;
            fl_diagnostics := u "candidate runtime identity verification failed: " ++ exc;
            fl_status := u "verification_failed"; fl_changes := [] |}))
      | OtherError => (c, inr (inr ProviderRaised))
      end
  end.

Definition drift (kind : failure_kind) (text : string) (changes : list str) : RepoRuntimeContinuityFailure :=
  {| fl_kind := kind; fl_diagnostics := u text ++ py_join (u ", ") (take 20 changes);
     fl_status := u "verification_failed"; fl_changes := changes |}.

Definition judged_changes (q : RepoRuntimeContinuityRequest) (changes : list str) : list str :=
  if negb (is_empty changes) && negb (rq_pack_configured q)
  then List.filter (fun p => negb (_is_benign_runtime_write p)) changes else changes.

Definition verify_after_suite (c : RepoRuntimeContinuity) (observe : answer (RuntimeIdentity * list str))
  : RepoRuntimeContinuity * outcome :=
  match rc_failure c with
  | Some f => (c, Returned (Some f))
  | None =>
      if negb (in_phase c captured) then (c, WrongPhase)
      else
        let '(c, r) := _verify c observe in
        match r with
        | inr (inl f) => _record_failure c f
        | inr (inr o) => (c, o)
        | inl changes =>
            let changes := judged_changes (rc_request c) changes in
            if is_empty changes then (set_phase c suite_verified, Returned None)
            else _record_failure c
                   (drift suite_drift "repo suite modified the candidate tree before verifier-pack execution: " changes)
        end
  end.

Definition finalize_suite_only (c : RepoRuntimeContinuity) : RepoRuntimeContinuity :=
  if rq_pack_configured (rc_request c) then c
  else if negb (in_phase c suite_verified) then c
  else set_phase (set_continuity c (rc_delivery c)) delivered.

Definition verify_after_pack (c : RepoRuntimeContinuity) (observe : answer (RuntimeIdentity * list str))
  : RepoRuntimeContinuity * outcome :=
  match rc_failure c with
  | Some f => (c, Returned (Some f))
  | None =>
      if negb (in_phase c suite_verified) then (c, WrongPhase)
      else
        let '(c, r) := _verify c observe in
        match r with
        | inr (inl f) => _record_failure c f
        | inr (inr o) => (c, o)
        | inl changes =>
            if is_empty changes then (set_phase (set_continuity c (rc_delivery c)) delivered, Returned None)
            else _record_failure c
                   (drift pack_drift "verifier-pack execution modified the candidate tree: " changes)
        end
  end.

Definition opt_wire (x : option str) : value := match x with Some s => VStr s | None => VNone end.

Definition runtime_identity_evidence_payload (e : RuntimeIdentityEvidence) : list (str * value) :=
  [(u "runtime_tree_sha256", opt_wire (ri_tree_sha256 e));
   (u "runtime_tree_digest_format", opt_wire (ri_tree_digest_format e));
   (u "runtime_tree_entries", opt_int (ri_tree_entries e));
   (u "runtime_tree_bytes", opt_int (ri_tree_bytes e));
   (u "runtime_identity_elapsed_ms", match ri_elapsed_ms e with Some f => VFloat f | None => VNone end);
   (u "runtime_continuity", opt_wire (ri_continuity e))].

(** ** Reachable states *)

(** A provider answer that reached the protocol. *)
Inductive event := Captured (i : RuntimeIdentity) | Compared (i : RuntimeIdentity) (changes : list str).

(** One call, with the events it consumes. *)
Inductive step : RepoRuntimeContinuity -> list event -> RepoRuntimeContinuity -> Prop :=
| StepCapture c observe :
    step c (match observe, in_phase c not_captured with Answer i, true => [Captured i] | _, _ => [] end)
      (fst (capture_baseline c observe))
| StepSuite c observe :
    step c (match observe, in_phase c captured with Answer (i, ch), true => [Compared i ch] | _, _ => [] end)
      (fst (verify_after_suite c observe))
| StepPack c observe :
    step c (match observe, in_phase c suite_verified with Answer (i, ch), true => [Compared i ch] | _, _ => [] end)
      (fst (verify_after_pack c observe))
| StepFinalize c : step c [] (finalize_suite_only c).

Inductive reachable (q : RepoRuntimeContinuityRequest) : list event -> RepoRuntimeContinuity -> Prop :=
| reach_new trace : reachable q [] (new_continuity q trace)
| reach_step es c es' c' : reachable q es c -> step c es' c' -> reachable q (es ++ es') c'.

(** What holds of every state: the phase tells which observations were made and
    what they said, and the continuity claim is the phase's. *)
Definition phase_ok (c : RepoRuntimeContinuity) (es : list event) : Prop :=
  let q := rc_request c in
  match rc_phase c with
  | not_required => required q = false /\ rc_failure c = None /\ rc_continuity c = u "not_applicable"
  | not_captured => required q = true /\ rc_failure c = None /\ rc_baseline c = None /\ es = [] /\
      In (rc_continuity c) (us ["not_applicable"; "unavailable"])
  | captured => required q = true /\ rc_failure c = None /\ rc_continuity c = u "incomplete" /\
      exists b, rc_baseline c = Some b /\ es = [Captured b]
  | suite_verified => required q = true /\ rc_failure c = None /\ rc_continuity c = u "incomplete" /\
      exists b i ch, rc_baseline c = Some b /\ es = [Captured b; Compared i ch] /\ judged_changes q ch = []
  | delivered => required q = true /\ rc_failure c = None /\ rc_continuity c = rc_delivery c /\
      exists b i ch rest, rc_baseline c = Some b /\ es = [Captured b; Compared i ch] ++ rest /\
        judged_changes q ch = [] /\
        ((exists i', rest = [Compared i' []]) \/ (rest = [] /\ rq_pack_configured q = false))
  | failed => required q = true /\
      exists f, rc_failure c = Some f /\ rc_continuity c = fl_status f /\
        In (fl_status f) (us ["unavailable"; "verification_failed"])
  end.

Definition inv (q : RepoRuntimeContinuityRequest) (es : list event) (c : RepoRuntimeContinuity) : Prop :=
  rc_request c = q /\ rc_delivery c = rc_delivery (new_continuity q []) /\ phase_ok c es.

Lemma in_phase_true c p : in_phase c p = true <-> rc_phase c = p.
Proof. unfold in_phase. apply bool_decide_eq_true. Qed.

Lemma in_phase_false c p : in_phase c p = false <-> rc_phase c <> p.
Proof. unfold in_phase. apply bool_decide_eq_false. Qed.

Lemma inv_new q trace : inv q [] (new_continuity q trace).
Proof.
  unfold inv, phase_ok, new_continuity. cbn. split; [done|]. split; [done|].
  destruct (required q) eqn:E; [|done]. repeat split. by left.
Qed.

(** Recording a failure ends in the failed phase. *)
Lemma inv_failed q es c f :
  required q = true -> rc_request c = q -> rc_delivery c = rc_delivery (new_continuity q []) ->
  In (fl_status f) (us ["unavailable"; "verification_failed"]) -> inv q es (fst (_record_failure c f)).
Proof.
  intros Hr Hq Hd Hf. split; [done|]. split; [done|].
  unfold phase_ok. cbn. rewrite Hq. split; [done|]. by exists f.
Qed.

Lemma inv_capture q es c observe :
  inv q es c ->
  inv q (es ++ match observe, in_phase c not_captured with Answer i, true => [Captured i] | _, _ => [] end)
    (fst (capture_baseline c observe)).
Proof.
  intros Hi. pose proof Hi as (Hq & Hd & Hp). unfold capture_baseline.
  destruct (in_phase c not_captured) eqn:Ep.
  - apply in_phase_true in Ep. unfold phase_ok in Hp. rewrite Ep in Hp.
    destruct Hp as (Hr & Hf & Hb & -> & Hc). rewrite Hr, Hf. cbn [negb app].
    destruct observe as [i|m|].
    + split; [done|]. split; [done|]. unfold phase_ok. cbn. repeat split; [done..|]. by exists i.
    + apply inv_failed; [by rewrite <- Hq|done|done|by left].
    + split; [done|]. split; [done|]. unfold phase_ok. cbn. rewrite Ep. repeat split; [done..|].
      right. by left.
  - assert (Hes : es ++ match observe with Answer _ | DeclaredError _ | OtherError => [] end = es)
      by (destruct observe; apply app_nil_r).
    rewrite Hes. cbn [negb]. destruct (negb (required (rc_request c))); [done|].
    by destruct (rc_failure c).
Qed.

(** A comparison from a phase with a baseline: either it fails, or the next state
    is given by the changes found. *)
Lemma inv_verify q es c p observe (k : list str -> RepoRuntimeContinuity -> RepoRuntimeContinuity * outcome) :
  inv q es c -> rc_phase c = p -> p <> not_required -> p <> not_captured -> p <> failed -> p <> delivered ->
  (forall i ch c', inv q es (set_phase c' p) -> rc_phase c' = p -> rc_request c' = q ->
     inv q (es ++ [Compared i ch]) (fst (k ch c'))) ->
  inv q (es ++ match observe with Answer (i, ch) => [Compared i ch] | _ => [] end)
    (fst (let '(c, r) := _verify c observe in
          match r with
          | inr (inl f) => _record_failure c f
          | inr (inr o) => (c, o)
          | inl changes => k changes c
          end)).
Proof.
  intros Hi Hp H1 H2 H3 H4 Hk. pose proof Hi as (Hq & Hd & Hok). unfold phase_ok in Hok. rewrite Hp in Hok.
  assert (Hb : exists b, rc_baseline c = Some b /\ required (rc_request c) = true /\ rc_failure c = None).
  { destruct p; try done; naive_solver. }
  destruct Hb as (b & Hb & Hr & Hf). unfold _verify. rewrite Hb.
  destruct observe as [[i ch]|m|]; cbv beta iota zeta.
  - apply Hk; [|done|done]. split; [done|]. split; [done|]. unfold phase_ok in *. cbn. rewrite Hb in Hok.
    destruct p; try done; exact Hok.
  - rewrite app_nil_r. apply inv_failed; [by rewrite <- Hq|done|done|right; by left].
  - rewrite app_nil_r. split; [done|]. split; [done|]. unfold phase_ok. cbn. rewrite Hp.
    destruct p; try done; exact Hok.
Qed.

Lemma inv_suite q es c observe :
  inv q es c ->
  inv q (es ++ match observe, in_phase c captured with Answer (i, ch), true => [Compared i ch] | _, _ => [] end)
    (fst (verify_after_suite c observe)).
Proof.
  intros Hi. unfold verify_after_suite. destruct (in_phase c captured) eqn:Ep.
  - apply in_phase_true in Ep. pose proof Hi as (Hq & Hd & Hp). unfold phase_ok in Hp. rewrite Ep in Hp.
    destruct Hp as (Hr & Hf & _). rewrite Hf. cbn [negb].
    apply (inv_verify q es c captured observe
      (fun changes c => if is_empty (judged_changes (rc_request c) changes)
        then (set_phase c suite_verified, Returned None)
        else _record_failure c (drift suite_drift _ (judged_changes (rc_request c) changes)))); try done.
    intros i ch c' Hi' Hp' Hq'. destruct Hi' as (_ & Hd' & Hok'). unfold phase_ok in Hok'. cbn in Hok', Hd'.
    destruct Hok' as (Hr' & Hf' & Hc' & b & Hb' & ->).
    destruct (is_empty _) eqn:Ee.
    + apply is_empty_iff in Ee. split; [done|]. split; [done|]. unfold phase_ok. cbn.
      repeat split; [done..|]. by exists b, i, ch.
    + apply inv_failed; [by rewrite <- Hq'|done|done|right; by left].
  - destruct observe as [[]| |]; rewrite app_nil_r; by destruct (rc_failure c).
Qed.

Lemma inv_pack q es c observe :
  inv q es c ->
  inv q (es ++ match observe, in_phase c suite_verified with Answer (i, ch), true => [Compared i ch] | _, _ => [] end)
    (fst (verify_after_pack c observe)).
Proof.
  intros Hi. unfold verify_after_pack. destruct (in_phase c suite_verified) eqn:Ep.
  - apply in_phase_true in Ep. pose proof Hi as (Hq & Hd & Hp). unfold phase_ok in Hp. rewrite Ep in Hp.
    destruct Hp as (Hr & Hf & _). rewrite Hf. cbn [negb].
    apply (inv_verify q es c suite_verified observe
      (fun changes c => if is_empty changes
        then (set_phase (set_continuity c (rc_delivery c)) delivered, Returned None)
        else _record_failure c (drift pack_drift _ changes))); try done.
    intros i ch c' Hi' Hp' Hq'. destruct Hi' as (_ & Hd' & Hok'). unfold phase_ok in Hok'. cbn in Hok', Hd'.
    destruct Hok' as (Hr' & Hf' & Hc' & b & i0 & ch0 & Hb' & -> & Hj).
    destruct (is_empty ch) eqn:Ee.
    + apply is_empty_iff in Ee as ->. split; [done|]. split; [done|]. unfold phase_ok. cbn.
      repeat split; [done..|]. exists b, i0, ch0, [Compared i []]. repeat split; [done..|]. left. by exists i.
    + apply inv_failed; [by rewrite <- Hq'|done|done|right; by left].
  - destruct observe as [[]| |]; rewrite app_nil_r; by destruct (rc_failure c).
Qed.

Lemma inv_finalize q es c : inv q es c -> inv q (es ++ []) (finalize_suite_only c).
Proof.
  rewrite app_nil_r. intros Hi. unfold finalize_suite_only.
  destruct (rq_pack_configured (rc_request c)) eqn:Epc; [done|].
  destruct (in_phase c suite_verified) eqn:Ep; [|done]. cbn [negb]. apply in_phase_true in Ep.
  destruct Hi as (Hq & Hd & Hp). unfold phase_ok in Hp. rewrite Ep in Hp.
  destruct Hp as (Hr & Hf & Hc & b & i & ch & Hb & -> & Hj).
  split; [done|]. split; [done|]. unfold phase_ok. cbn. repeat split; [done..|].
  exists b, i, ch, []. repeat split; [done..|]. by right.
Qed.

Lemma reachable_inv q es c : reachable q es c -> inv q es c.
Proof.
  induction 1 as [trace|es c es' c' _ IH Hs]; [apply inv_new|].
  destruct Hs; [by apply inv_capture|by apply inv_suite|by apply inv_pack|by apply inv_finalize].
Qed.

(** The words that claim continuity. *)
Definition claims_continuity (w : str) : bool :=
  str_in w (us ["read_only_enforced"; "snapshot_boundary_checked"]).

(** C30: The continuity claim is earned.  Whatever sequence of calls, provider
    answers and exceptions a judgment makes, evidence that claims runtime
    continuity means: a baseline was captured, its digest is the one attested, the
    comparison after the suite found no change of a judged file, and with a
    verifier pack a second comparison found no change at all.  The claim is
    [read_only_enforced] only for a container whose setup did not run on the host,
    and a recorded failure never coexists with a claim. *)
Theorem runtime_continuity_sound q es c :
  reachable q es c ->
  (forall w, ri_continuity (evidence c) = Some w -> claims_continuity w = true ->
     rc_failure c = None /\
     (w = u "read_only_enforced" <->
        rq_container_mode q = true /\ (rq_setup_configured q && rq_trust_setup_on_host q) = false) /\
     exists b i ch rest,
       es = [Captured b; Compared i ch] ++ rest /\ judged_changes q ch = [] /\
       ri_tree_sha256 (evidence c) = Some (id_sha256 b) /\
       (rq_pack_configured q = true -> exists i', rest = [Compared i' []])) /\
  (forall f, rc_failure c = Some f -> claims_continuity (rc_continuity c) = false /\ rc_phase c = failed).
Proof.
  intros (Hq & Hd & Hp)%reachable_inv. unfold phase_ok in Hp. rewrite Hq in Hp. split.
  - intros w [= <-] Hw. destruct (rc_phase c).
    + destruct Hp as (_ & _ & Hc). by rewrite Hc in Hw.
    + destruct Hp as (_ & _ & _ & _ & [Hc|[Hc|[]]]); by rewrite <- Hc in Hw.
    + destruct Hp as (_ & _ & Hc & _). by rewrite Hc in Hw.
    + destruct Hp as (_ & _ & Hc & _). by rewrite Hc in Hw.
    + destruct Hp as (Hr & Hf & Hc & b & i & ch & rest & Hb & -> & Hj & Hrest).
      split; [done|]. split.
      * rewrite Hc, Hd. unfold new_continuity. cbn. rewrite Hr.
        destruct (rq_container_mode q), (rq_setup_configured q && rq_trust_setup_on_host q); cbn; split;
          try done; intros [? ?]; done.
      * exists b, i, ch, rest. cbn. rewrite Hb. repeat split; [done..|]. intros Hpc.
        destruct Hrest as [?|[_ Hn]]; [done|]. by rewrite Hpc in Hn.
    + destruct Hp as (_ & f & _ & Hc & [Hs|[Hs|[]]]); rewrite Hc, <- Hs in Hw; done.
  - intros f Hf. destruct (rc_phase c); destruct Hp as [_ Hp]; try (destruct Hp as [Hn _]; by rewrite Hf in Hn).
    destruct Hp as (f' & _ & -> & [Hs|[Hs|[]]]); by rewrite <- Hs.
Qed.

(** The calls of a run in their order. *)
Definition clean_run (q : RepoRuntimeContinuityRequest) (b i j : RuntimeIdentity) (benign : list str)
  : RepoRuntimeContinuity :=
  let c := fst (capture_baseline (new_continuity q (u "repo_suite")) (Answer b)) in
  let c := fst (verify_after_suite c (Answer (i, benign))) in
  let c := finalize_suite_only c in
  if rq_pack_configured q then fst (verify_after_pack c (Answer (j, []))) else c.

Lemma judged_nil q : judged_changes q [] = [].
Proof. done. Qed.

Lemma judged_benign q l :
  rq_pack_configured q = false -> forallb _is_benign_runtime_write l = true -> judged_changes q l = [].
Proof.
  intros Hp Hl. unfold judged_changes. rewrite Hp. destruct l as [|x l]; [done|]. cbn [is_empty negb andb].
  apply filter_nil_iff. rewrite forallb_forall in Hl. intros y Hy. by rewrite (Hl y Hy).
Qed.

(** Where a clean call leads. *)
Definition clean_at (q : RepoRuntimeContinuityRequest) (p : phase_t) (c : RepoRuntimeContinuity) : Prop :=
  rc_phase c = p /\ rc_failure c = None /\ rc_request c = q /\
  rc_delivery c = rc_delivery (new_continuity q []) /\
  (p = captured \/ p = suite_verified -> rc_baseline c <> None) /\
  (p = delivered -> rc_continuity c = rc_delivery c).

Lemma clean_capture q c b :
  required q = true -> clean_at q not_captured c -> clean_at q captured (fst (capture_baseline c (Answer b))).
Proof.
  intros Hr (Hp & Hf & Hq & Hd & _). unfold capture_baseline. rewrite Hq, Hr, Hf.
  apply in_phase_true in Hp as ->. by repeat split.
Qed.

Lemma clean_suite q c i ch :
  clean_at q captured c -> judged_changes q ch = [] ->
  clean_at q suite_verified (fst (verify_after_suite c (Answer (i, ch)))).
Proof.
  intros (Hp & Hf & Hq & Hd & Hb & _) Hj. unfold verify_after_suite, _verify. rewrite Hf.
  apply in_phase_true in Hp as ->. specialize (Hb ltac:(by left)).
  destruct (rc_baseline c) as [b|]; [|done]. cbn [negb]. cbv beta iota zeta.
  change (rc_request (set_observed _ _ _)) with (rc_request c). rewrite Hq, Hj. by repeat split.
Qed.

Lemma clean_pack q c i :
  clean_at q suite_verified c -> clean_at q delivered (fst (verify_after_pack c (Answer (i, [])))).
Proof.
  intros (Hp & Hf & Hq & Hd & Hb & _). unfold verify_after_pack, _verify. rewrite Hf.
  apply in_phase_true in Hp as ->. specialize (Hb ltac:(by right)).
  destruct (rc_baseline c) as [b|]; [|done]. repeat split; try done; by intros [?|?].
Qed.

Lemma clean_finalize q c :
  clean_at q suite_verified c ->
  clean_at q (if rq_pack_configured q then suite_verified else delivered) (finalize_suite_only c).
Proof.
  intros Hc. pose proof Hc as (Hp & Hf & Hq & Hd & Hb & _). unfold finalize_suite_only. rewrite Hq.
  destruct (rq_pack_configured q); [done|]. apply in_phase_true in Hp as ->.
  repeat split; try done; by intros [?|?].
Qed.

(** A clean run is delivered: when the baseline is captured, the comparison
    after the suite reports nothing (or, without a pack, runner bookkeeping only)
    and the comparison after the pack nothing, the protocol ends delivered, with
    the continuity claim of its request and without a failure. *)
Theorem clean_run_delivered q b i j benign :
  required q = true ->
  benign = [] \/ (rq_pack_configured q = false /\ forallb _is_benign_runtime_write benign = true) ->
  let c := clean_run q b i j benign in
  rc_phase c = delivered /\ rc_failure c = None /\ claims_continuity (rc_continuity c) = true.
Proof.
  intros Hr Hb c. assert (Hj : judged_changes q benign = []).
  { destruct Hb as [->|[? ?]]; [apply judged_nil|by apply judged_benign]. }
  assert (H0 : clean_at q not_captured (new_continuity q (u "repo_suite"))).
  { unfold clean_at, new_continuity. cbn. rewrite Hr. repeat split; try done; by intros [?|?]. }
  pose proof (clean_finalize _ _ (clean_suite _ _ i _ (clean_capture _ _ b Hr H0) Hj)) as H1.
  assert (H2 : clean_at q delivered c).
  { unfold c, clean_run. destruct (rq_pack_configured q); [by apply clean_pack|done]. }
  destruct H2 as (Hp & Hf & _ & Hd & _ & Hc). split; [done|]. split; [done|].
  rewrite Hc, Hd by done. unfold new_continuity. cbn. rewrite Hr. by case_if.
Qed.

Definition sample_request (pack : bool) : RepoRuntimeContinuityRequest :=
  {| rq_candidate_copy := u "/copy"; rq_pack_configured := pack; rq_container_mode := true;
     rq_setup_configured := true; rq_trust_setup_on_host := false; rq_require_suite_continuity := true |}.
Definition sample_identity : RuntimeIdentity :=
  {| id_sha256 := u "ab"; id_digest_format := u "F"; id_entries := 2; id_regular_bytes := 10;
     id_elapsed_ms := dec 15 1 |}.

Lemma clean_run_delivered_witness :
  let c := clean_run (sample_request false) sample_identity sample_identity sample_identity
             (us ["src/__pycache__/a.pyc"; ".coverage.host"]) in
  rc_phase c = delivered /\ rc_failure c = None /\ claims_continuity (rc_continuity c) = true.
Proof. apply clean_run_delivered; [reflexivity|right; split; vm_compute; reflexivity]. Defined.

Lemma runtime_continuity_sound_witness :
  exists es c, reachable (sample_request true) es c /\ rc_failure c = None /\
    exists i', drop 2 es = [Compared i' []].
Proof.
  set (c0 := new_continuity (sample_request true) (u "repo_suite")).
  set (c1 := fst (capture_baseline c0 (Answer sample_identity))).
  set (c2 := fst (verify_after_suite c1 (Answer (sample_identity, [])))).
  set (c3 := fst (verify_after_pack c2 (Answer (sample_identity, [])))).
  assert (H : reachable (sample_request true)
    ((([] ++ [Captured sample_identity]) ++ [Compared sample_identity []]) ++ [Compared sample_identity []]) c3).
  { apply (reach_step _ _ c2); [|exact (StepPack c2 (Answer (sample_identity, [])))].
    apply (reach_step _ _ c1); [|exact (StepSuite c1 (Answer (sample_identity, [])))].
    apply (reach_step _ _ c0); [|exact (StepCapture c0 (Answer sample_identity))]. constructor. }
  eexists _, c3. split; [exact H|].
  destruct (runtime_continuity_sound _ _ _ H) as [Hc _].
  destruct (Hc (u "read_only_enforced") eq_refl eq_refl) as (Hf & _ & b & i & ch & rest & He & _ & _ & Hp).
  split; [exact Hf|]. destruct (Hp eq_refl) as (i' & ->). exists i'. rewrite He. reflexivity.
Defined.
End Runtime.

(** ** Pack continuity *)

Module Pack.
Import Runtime (answer, Answer, DeclaredError, OtherError).

Inductive checkpoint := before_execution | after_execution.
Inductive phase_t := accepted | pre_execution_verified | delivered | failed.

#[export] Instance pack_phase_eq_dec : EqDecision phase_t.
Proof. solve_decision. Defined.

Record AcceptedRepoPackIdentity := { ai_sha256 : str; ai_manifest : option dict }.

Definition concrete (i : AcceptedRepoPackIdentity) : str * option dict := (ai_sha256 i, ai_manifest i).

Record RepoPackContinuityRequest := { pc_pack_snapshot : str; pc_identity : AcceptedRepoPackIdentity }.

Record RepoPackContinuityFailure := { pf_checkpoint : checkpoint; pf_diagnostics : str }.

(** [pc_provider_failed]: an exception of the provider was recorded; every later
    call raises it again. *)
Record RepoPackContinuity := {
  pc_request : RepoPackContinuityRequest;
  pc_phase : phase_t;
  pc_failure : option RepoPackContinuityFailure;
  pc_provider_failed : bool }.

Definition new_pack_continuity (q : RepoPackContinuityRequest) : RepoPackContinuity :=
  {| pc_request := q; pc_phase := accepted; pc_failure := None; pc_provider_failed := false |}.

Inductive outcome := Returned (f : option RepoPackContinuityFailure) | WrongPhase | ProviderRaised.

(** The provider compares the snapshot with an expected identity. *)
Abbreviation verify_snapshot_t := (str -> str * option dict -> answer unit).

Definition _verify (c : RepoPackContinuity) (cp : checkpoint) (expected_phase delivered_phase : phase_t)
    (prefix : string) (verify_snapshot : verify_snapshot_t) : RepoPackContinuity * outcome :=
  match pc_failure c with
  | Some f => (c, Returned (Some f))
  | None =>
      if pc_provider_failed c then (c, ProviderRaised)
      else if negb (bool_decide (pc_phase c = expected_phase)) then (c, WrongPhase)
      else
        let q := pc_request c in
        match verify_snapshot (pc_pack_snapshot q) (concrete (pc_identity q)) with
        | Answer _ =>
            ({| pc_request := q; pc_phase := delivered_phase; pc_failure := None; pc_provider_failed := false |},
             Returned None)
        | DeclaredError exc =>
            let f := {| pf_checkpoint := cp; pf_diagnostics := u prefix ++ u ": " ++ exc |} in
            ({| pc_request := q; pc_phase := failed; pc_failure := Some f; pc_provider_failed := false |},
             Returned (Some f))
        | OtherError =>
            ({| pc_request := q; pc_phase := failed; pc_failure := None; pc_provider_failed := true |},
             ProviderRaised)
        end
  end.

Definition verify_before_execution (c : RepoPackContinuity) (v : verify_snapshot_t) : RepoPackContinuity * outcome :=
  _verify c before_execution accepted pre_execution_verified "verifier pack was changed before execution" v.

Definition verify_after_execution (c : RepoPackContinuity) (v : verify_snapshot_t) : RepoPackContinuity * outcome :=
  _verify c after_execution pre_execution_verified delivered "verifier pack changed while executing" v.

(** A judgment calls the two checks in any order, any number of times; the
    provider may answer differently each time. *)
Inductive call := Before (v : verify_snapshot_t) | After (v : verify_snapshot_t).

Definition do_call (c : RepoPackContinuity) (k : call) : RepoPackContinuity * outcome :=
  match k with Before v => verify_before_execution c v | After v => verify_after_execution c v end.

Fixpoint run_calls (c : RepoPackContinuity) (ks : list call) : RepoPackContinuity :=
  match ks with [] => c | k :: ks' => run_calls (fst (do_call c k)) ks' end.

(** The provider accepted the snapshot of the request under its identity. *)
Definition vouches (q : RepoPackContinuityRequest) (v : verify_snapshot_t) : Prop :=
  v (pc_pack_snapshot q) (concrete (pc_identity q)) = Answer tt.

Definition terminal (c : RepoPackContinuity) : Prop :=
  pc_phase c = failed /\ (pc_failure c <> None \/ pc_provider_failed c = true).

Lemma terminal_sticky c ks : terminal c -> run_calls c ks = c.
Proof.
  intros [Hp Hf]. induction ks as [|k ks IH]; [done|]. cbn [run_calls].
  assert (fst (do_call c k) = c) as ->; [|done].
  destruct k; unfold do_call, verify_before_execution, verify_after_execution, _verify;
    destruct (pc_failure c); [done| |done|]; destruct (pc_provider_failed c); try done;
    by destruct Hf as [?|?].
Qed.

Lemma verify_cases c cp e d prefix v :
  pc_failure c = None -> pc_provider_failed c = false ->
  let c' := fst (_verify c cp e d prefix v) in
  c' = c \/ terminal c' \/
  (pc_phase c = e /\ vouches (pc_request c) v /\ pc_phase c' = d /\ pc_failure c' = None /\
   pc_provider_failed c' = false /\ pc_request c' = pc_request c).
Proof.
  intros Hf Hp. unfold _verify, vouches, terminal. rewrite Hf, Hp.
  case_bool_decide as He; [|by left]. cbn [negb].
  destruct (v _ _) as [[]|m|] eqn:Ev; cbn; [|by right; left; split; [|left]|by right; left; split; [|right]].
  right. right. done.
Qed.

(** What a call expects and reaches. *)
Definition call_from (k : call) : phase_t := match k with Before _ => accepted | After _ => pre_execution_verified end.
Definition call_to (k : call) : phase_t := match k with Before _ => pre_execution_verified | After _ => delivered end.
Definition call_provider (k : call) : verify_snapshot_t := match k with Before v | After v => v end.

Lemma call_cases c k :
  pc_failure c = None -> pc_provider_failed c = false ->
  let c' := fst (do_call c k) in
  c' = c \/ terminal c' \/
  (pc_phase c = call_from k /\ vouches (pc_request c) (call_provider k) /\ pc_phase c' = call_to k /\
   pc_failure c' = None /\ pc_provider_failed c' = false /\ pc_request c' = pc_request c).
Proof. intros Hf Hp. destruct k; by apply verify_cases. Qed.

Lemma run_calls_app c ks more : run_calls c (ks ++ more) = run_calls (run_calls c ks) more.
Proof. revert c. induction ks as [|k ks IH]; intros c; [done|]. apply IH. Qed.

(** Not failed, for the request [q], in the phase [p]. *)
Definition sound_at (q : RepoPackContinuityRequest) (p : phase_t) (c : RepoPackContinuity) : Prop :=
  pc_request c = q /\ pc_failure c = None /\ pc_provider_failed c = false /\ pc_phase c = p.

Lemma terminal_not_delivered c ks : terminal c -> pc_phase (run_calls c ks) <> delivered.
Proof. intros Ht. rewrite terminal_sticky by done. destruct Ht as [Ht _]. by rewrite Ht. Qed.

Lemma delivered_after_pre q ks c :
  sound_at q pre_execution_verified c -> pc_phase (run_calls c ks) = delivered ->
  exists ks2 w ks3, ks = ks2 ++ [After w] ++ ks3 /\ vouches q w.
Proof.
  revert c. induction ks as [|k ks IH]; intros c Hs Hd; destruct Hs as (Hq & Hf & Hp & Hph).
  { cbn in Hd. by rewrite Hph in Hd. }
  cbn [run_calls] in Hd. destruct (call_cases c k Hf Hp) as [H|[H|(H & Hv & _)]].
  - rewrite H in Hd. destruct (IH c) as (k2 & w & k3 & -> & Hw); [by repeat split|done|by exists (k :: k2), w, k3].
  - by apply terminal_not_delivered in Hd.
  - rewrite Hph in H. destruct k as [v|v]; [done|]. rewrite Hq in Hv. by exists [], v, ks.
Qed.

Lemma delivered_after_accepted q ks c :
  sound_at q accepted c -> pc_phase (run_calls c ks) = delivered ->
  exists ks1 ks2 ks3 v w, ks = ks1 ++ [Before v] ++ ks2 ++ [After w] ++ ks3 /\ vouches q v /\ vouches q w.
Proof.
  revert c. induction ks as [|k ks IH]; intros c Hs Hd; destruct Hs as (Hq & Hf & Hp & Hph).
  { cbn in Hd. by rewrite Hph in Hd. }
  cbn [run_calls] in Hd. destruct (call_cases c k Hf Hp) as [H|[H|(H & Hv & H1 & H2 & H3 & H4)]].
  - rewrite H in Hd. destruct (IH c) as (k1 & k2 & k3 & v' & w' & -> & ?);
      [by repeat split|done|by exists (k :: k1), k2, k3, v', w'].
  - by apply terminal_not_delivered in Hd.
  - rewrite Hph in H. destruct k as [v|v]; [|done]. rewrite Hq in *.
    destruct (delivered_after_pre q ks _ ltac:(by repeat split) Hd) as (k2 & w & k3 & -> & Hw).
    by exists [], k2, k3, v, w.
Qed.

(** A delivered pack was checked on both sides of its execution.  After any
    sequence of calls, the protocol is delivered only if the provider vouched for
    the accepted snapshot and identity before execution and again, in a later
    call, after it; and once a check failed or its provider raised, no further
    call changes the state, so a failure cannot be retried away. *)
Theorem pack_delivered_checked_twice q ks :
  let c := run_calls (new_pack_continuity q) ks in
  (pc_phase c = delivered ->
     exists ks1 ks2 ks3 v w, ks = ks1 ++ [Before v] ++ ks2 ++ [After w] ++ ks3 /\
       vouches q v /\ vouches q w) /\
  (terminal c -> forall more, run_calls (new_pack_continuity q) (ks ++ more) = c).
Proof.
  split; [by apply delivered_after_accepted|]. intros Ht more. rewrite run_calls_app. by apply terminal_sticky.
Qed.

Definition sample_pack : RepoPackContinuityRequest :=
  {| pc_pack_snapshot := u "/pack"; pc_identity := {| ai_sha256 := u "ab"; ai_manifest := None |} |}.

Lemma pack_delivered_checked_twice_witness :
  let ok : verify_snapshot_t := fun _ _ => Answer tt in
  exists ks1 ks2 ks3 v w, [Before ok; Before ok; After ok] = ks1 ++ [Before v] ++ ks2 ++ [After w] ++ ks3 /\
    vouches sample_pack v /\ vouches sample_pack w.
Proof.
  intros ok. apply (proj1 (pack_delivered_checked_twice sample_pack [Before ok; Before ok; After ok])).
  reflexivity.
Defined.
End Pack.
