(* ===== verification/RepoResult.v ===== *)
(** The result artifact of the repository verifier and the typed evidence read
    back from it (verifiers/repo_execution.py, repo_result.py, repo_evidence.py):
    the lifecycle trace, the sticky pack and suite facts, the completed artifact,
    and the projection onto the evidence of the decision layer and of the
    attestation.

    Deep copies and the freezing of mappings are invisible here: values are
    immutable.  The evidence projection casts without checking, so it is defined
    on artifacts whose fields have their declared type; [Err] is everything else. *)
From S2P Require Export RepoPhase Decision Continuity.
Local Open Scope Z_scope.

(** ** The lifecycle trace (repo_execution.py) *)

Record RepoExecutionTrace := {
  tr_execution_state : str;
  tr_execution_phase : str;
  tr_test_command_started : bool;
  tr_test_command_completed : bool;
  tr_verifier_pack_started : bool;
  tr_verifier_pack_completed : bool;
  tr_delivered_isolation : str;
  tr_setup_isolation_evidence : option IsolationObservation;
  tr_repo_suite_isolation_evidence : option IsolationObservation;
  tr_verifier_pack_isolation_evidence : option IsolationObservation;
  tr_primary_isolation_evidence : option IsolationObservation }.

Definition new_trace : RepoExecutionTrace :=
  {| tr_execution_state := u "not_started"; tr_execution_phase := u "preflight";
     tr_test_command_started := false; tr_test_command_completed := false;
     tr_verifier_pack_started := false; tr_verifier_pack_completed := false;
     tr_delivered_isolation := u "not_run"; tr_setup_isolation_evidence := None;
     tr_repo_suite_isolation_evidence := None; tr_verifier_pack_isolation_evidence := None;
     tr_primary_isolation_evidence := None |}.

Definition snapshot (t : RepoExecutionTrace) : ExecutionPhaseResult :=
  {| ex_execution_state := tr_execution_state t; ex_execution_phase := tr_execution_phase t;
     ex_test_command_started := tr_test_command_started t;
     ex_test_command_completed := tr_test_command_completed t;
     ex_verifier_pack_started := tr_verifier_pack_started t;
     ex_verifier_pack_completed := tr_verifier_pack_completed t;
     ex_delivered_isolation := tr_delivered_isolation t;
     ex_setup_isolation_evidence := tr_setup_isolation_evidence t;
     ex_repo_suite_isolation_evidence := tr_repo_suite_isolation_evidence t;
     ex_verifier_pack_isolation_evidence := tr_verifier_pack_isolation_evidence t;
     ex_primary_isolation_evidence := tr_primary_isolation_evidence t |}.

(** An optional text, number or flag on the wire. *)
Definition w_str (x : option str) : value := match x with Some s => VStr s | None => VNone end.
Definition w_bool (x : option bool) : value := match x with Some b => VBool b | None => VNone end.
Definition w_dict (x : option dict) : value := match x with Some d => VDict d | None => VNone end.

Definition isolation_observation_payload (o : IsolationObservation) : dict :=
  let payload := dict_of [
    ("requested", VStr (io_requested o)); ("delivered", VStr (io_delivered o));
    ("image_digest", w_str (io_image_digest o)); ("network", w_str (io_network o));
    ("runtime", w_str (io_runtime o))] in
  match io_note o with
  | Some (c :: n) => dset (u "note") (VStr (c :: n)) payload
  | _ => payload
  end.

Definition observation_value (o : option IsolationObservation) : value :=
  match o with Some o => VDict (isolation_observation_payload o) | None => VNone end.

Definition execution_phase_items (r : ExecutionPhaseResult) : list (str * value) :=
  [(u "execution_state", VStr (ex_execution_state r));
   (u "execution_phase", VStr (ex_execution_phase r));
   (u "test_command_started", VBool (ex_test_command_started r));
   (u "test_command_completed", VBool (ex_test_command_completed r));
   (u "verifier_pack_started", VBool (ex_verifier_pack_started r));
   (u "verifier_pack_completed", VBool (ex_verifier_pack_completed r));
   (u "delivered_isolation", VStr (ex_delivered_isolation r));
   (u "setup_isolation_evidence", observation_value (ex_setup_isolation_evidence r));
   (u "repo_suite_isolation_evidence", observation_value (ex_repo_suite_isolation_evidence r));
   (u "verifier_pack_isolation_evidence", observation_value (ex_verifier_pack_isolation_evidence r))].

Definition execution_phase_payload (r : ExecutionPhaseResult) : list (str * value) :=
  execution_phase_items r ++
  match ex_primary_isolation_evidence r with
  | Some o => [(u "isolation_evidence", VDict (isolation_observation_payload o))]
  | None => []
  end.

(** ** The result artifact (repo_result.py) *)

Record RepoPackIdentityArtifact := { pi_sha256 : str; pi_manifest : option dict }.

Definition pack_identity_payload (p : RepoPackIdentityArtifact) : list (str * value) :=
  [(u "verifier_pack_sha256", VStr (pi_sha256 p)); (u "verifier_pack_manifest", w_dict (pi_manifest p))].

Record RepoSuitePhaseArtifact := {
  sp_passed : option bool;
  sp_tests_passed : Z;
  sp_tests_total : Z;
  sp_verdict_source : option str;
  sp_returncode : Z;
  sp_junit_sha256 : option str;
  sp_junit_digest_format : option str }.

Definition suite_from_phase (phase : RepoPhaseResult) : RepoSuitePhaseArtifact :=
  {| sp_passed := match rp_verdict_source phase with Some _ => Some (rp_passed phase) | None => None end;
     sp_tests_passed := rp_tests_passed phase; sp_tests_total := rp_tests_total phase;
     sp_verdict_source := rp_verdict_source phase; sp_returncode := rp_returncode phase;
     sp_junit_sha256 := rp_junit_sha256 phase; sp_junit_digest_format := rp_junit_digest_format phase |}.

Definition suite_phase_payload (s : RepoSuitePhaseArtifact) : list (str * value) :=
  [(u "repo_suite_started", VBool true);
   (u "repo_suite_completed", VBool true);
   (u "repo_suite_state", VStr (u "repo_phase_completed"));
   (u "repo_suite_passed", w_bool (sp_passed s));
   (u "repo_suite_tests_passed", VInt (sp_tests_passed s));
   (u "repo_suite_tests_total", VInt (sp_tests_total s));
   (u "repo_suite_verdict_source", w_str (sp_verdict_source s));
   (u "repo_suite_returncode", VInt (sp_returncode s));
   (u "repo_suite_junit_sha256", w_str (sp_junit_sha256 s));
   (u "repo_suite_junit_digest_format", w_str (sp_junit_digest_format s))].

Record RepoPackPhaseArtifact := {
  pk_tests_passed : Z;
  pk_tests_total : Z;
  pk_junit_sha256 : option str;
  pk_junit_digest_format : option str }.

Definition pack_from_phase (phase : PackPhaseResult) : RepoPackPhaseArtifact :=
  {| pk_tests_passed := pp_tests_passed phase; pk_tests_total := pp_tests_total phase;
     pk_junit_sha256 := pp_junit_sha256 phase; pk_junit_digest_format := pp_junit_digest_format phase |}.

(** The sticky facts of one judgment. *)
Record RepoResultProjection := {
  rr_pack_identity : option RepoPackIdentityArtifact;
  rr_repo_suite_phase : option RepoSuitePhaseArtifact }.

Definition new_projection : RepoResultProjection :=
  {| rr_pack_identity := None; rr_repo_suite_phase := None |}.

Definition bind_pack_identity (p : RepoResultProjection) (sha256 : str) (manifest : option dict)
  : RepoResultProjection :=
  {| rr_pack_identity := Some {| pi_sha256 := sha256; pi_manifest := manifest |};
     rr_repo_suite_phase := rr_repo_suite_phase p |}.

Definition bind_repo_suite_phase (p : RepoResultProjection) (phase : RepoPhaseResult) : RepoResultProjection :=
  {| rr_pack_identity := rr_pack_identity p; rr_repo_suite_phase := Some (suite_from_phase phase) |}.

Definition sticky_payload (p : RepoResultProjection) : list (str * value) :=
  match rr_pack_identity p with Some i => pack_identity_payload i | None => [] end ++
  match rr_repo_suite_phase p with Some s => suite_phase_payload s | None => [] end.

(** contracts.py *)
Record VerdictResult := { vr_passed : bool; vr_score : float; vr_diagnostics : str; vr_artifact : dict }.

(** [d.setdefault(k, v)] *)
Definition setdefault (k : str) (v : value) (d : dict) : dict := if dmem k d then d else dset k v d.

Definition finalize (p : RepoResultProjection) (r : VerdictResult) (execution : ExecutionPhaseResult)
    (verifier_pack_present : bool) : VerdictResult :=
  let artifact := dupdate (vr_artifact r) (sticky_payload p) in
  let artifact := dupdate artifact (execution_phase_payload execution) in
  {| vr_passed := vr_passed r; vr_score := vr_score r; vr_diagnostics := vr_diagnostics r;
     vr_artifact := setdefault (u "verifier_pack_present") (VBool verifier_pack_present) artifact |}.

Inductive FinalRepoPhase := OfRepo (p : RepoPhaseResult) | OfComposite (p : CompositePhaseResult).

Definition fp_passed p := match p with OfRepo p => rp_passed p | OfComposite p => cp_passed p end.
Definition fp_score p := match p with OfRepo p => rp_score p | OfComposite p => cp_score p end.
Definition fp_tests_passed p := match p with OfRepo p => rp_tests_passed p | OfComposite p => cp_tests_passed p end.
Definition fp_tests_total p := match p with OfRepo p => rp_tests_total p | OfComposite p => cp_tests_total p end.
Definition fp_tampered p := match p with OfRepo p => rp_tampered p | OfComposite p => cp_tampered p end.
Definition fp_verdict_source p := match p with OfRepo p => rp_verdict_source p | OfComposite p => cp_verdict_source p end.
Definition fp_outcome p := match p with OfRepo p => rp_outcome p | OfComposite p => cp_outcome p end.
Definition fp_junit_sha256 p := match p with OfRepo p => rp_junit_sha256 p | OfComposite p => cp_junit_sha256 p end.
Definition fp_junit_digest_format p :=
  match p with OfRepo p => rp_junit_digest_format p | OfComposite p => cp_junit_digest_format p end.

Record RepoFinalArtifactRequest := {
  fa_returncode : Z;
  fa_elapsed_seconds : float;
  fa_phase : FinalRepoPhase;
  fa_files_changed : list str;
  fa_files_deleted : list str;
  fa_pack_identity : option RepoPackIdentityArtifact;
  fa_expected_pack_sha256 : str;
  fa_pack_phase : option RepoPackPhaseArtifact;
  fa_pack_configured : bool;
  fa_setup_isolation : option str;
  fa_setup_configured : bool;
  fa_runtime_evidence : list (str * value);
  fa_resolved_image : option str;
  fa_suite_isolation_evidence : IsolationObservation;
  fa_container_mode : bool }.

Definition build_final_repo_artifact (r : RepoFinalArtifactRequest) : dict :=
  let phase := fa_phase r in
  let artifact := dict_of [
    ("returncode", VInt (fa_returncode r));
    ("elapsed", VFloat (fa_elapsed_seconds r));
    ("tests_passed", VInt (fp_tests_passed phase));
    ("tests_total", VInt (fp_tests_total phase));
    ("files_changed", VList (map VStr (fa_files_changed r)));
    ("files_deleted", VList (map VStr (fa_files_deleted r)));
    ("verdict_source", w_str (fp_verdict_source phase));
    ("outcome", w_str (fp_outcome phase));
    ("tamper", VBool (fp_tampered phase));
    ("junit_sha256", w_str (fp_junit_sha256 phase));
    ("junit_digest_format", w_str (fp_junit_digest_format phase));
    ("verifier_pack_sha256", w_str (pi_sha256 <$> fa_pack_identity r));
    ("expected_verifier_pack_sha256",
      match fa_expected_pack_sha256 r with [] => VNone | s => VStr s end);
    ("verifier_pack_manifest", w_dict (i ← fa_pack_identity r; pi_manifest i));
    ("verifier_pack_tests_passed", opt_int (pk_tests_passed <$> fa_pack_phase r));
    ("verifier_pack_tests_total", opt_int (pk_tests_total <$> fa_pack_phase r))] in
  let artifact :=
    if fa_pack_configured r then
      dupdate artifact
        [(u "verifier_pack_junit_sha256", w_str (p ← fa_pack_phase r; pk_junit_sha256 p));
         (u "verifier_pack_junit_digest_format", w_str (p ← fa_pack_phase r; pk_junit_digest_format p))]
    else artifact in
  let artifact := dupdate artifact
    [(u "setup_isolation", w_str (fa_setup_isolation r));
     (u "setup_fidelity", VStr (if fa_setup_configured r then u "verified" else u "not_applicable"));
     (u "candidate_fidelity", VStr (if fa_pack_configured r then u "verified" else u "not_applicable"))] in
  let artifact := dupdate artifact (fa_runtime_evidence r) in
  dupdate artifact
    [(u "image_digest", w_str (fa_resolved_image r));
     (u "isolation_evidence",
       if fa_container_mode r then VDict (isolation_observation_payload (fa_suite_isolation_evidence r))
       else VNone)].

(** ** Evidence read from an artifact (repo_evidence.py) *)

Definition _INCOMPLETE_OUTCOMES : list str :=
  us ["test_timeout"; "test_output_limit"; "setup_timeout"; "setup_output_limit"; "runtime_containment_error"].

(** A field outside its declared type. *)
Inductive ill_typed := IllTyped.

Definition cast_str (v : value) : result ill_typed (option str) :=
  match v with VStr s => Ok (Some s) | VNone => Ok None | _ => Err IllTyped end.
Definition cast_int (v : value) : result ill_typed (option Z) :=
  match v with VInt z => Ok (Some z) | VNone => Ok None | _ => Err IllTyped end.
Definition cast_bool (v : value) : result ill_typed (option bool) :=
  match v with VBool b => Ok (Some b) | VNone => Ok None | _ => Err IllTyped end.
Definition cast_float (v : value) : result ill_typed (option float) :=
  match v with VFloat f => Ok (Some f) | VNone => Ok None | _ => Err IllTyped end.

(** [str(artifact.get(k, default))] of a text *)
Definition text_or (v : option value) (default : str) : result ill_typed str :=
  match v with None => Ok default | Some (VStr s) => Ok s | Some _ => Err IllTyped end.

(** [bool(artifact.get(k, default))] *)
Definition flag_or (v : option value) (default : bool) : bool :=
  match v with None => default | Some v => truthy v end.

Definition _isolation_observation (v : value) : result ill_typed (option IsolationObservation) :=
  match v with
  | VDict d =>
      let* requested := text_or (dlookup (u "requested") d) [] in
      let* delivered := text_or (dlookup (u "delivered") d) [] in
      let* image_digest := cast_str (dget d (u "image_digest")) in
      let* network := cast_str (dget d (u "network")) in
      let* runtime := cast_str (dget d (u "runtime")) in
      let* note := cast_str (dget d (u "note")) in
      Ok (Some {| io_requested := requested; io_delivered := delivered; io_image_digest := image_digest;
                  io_network := network; io_runtime := runtime; io_note := note |})
  | _ => Ok None
  end.

Definition _isolation_wire_payload (v : value) : option dict :=
  match v with VDict d => Some d | _ => None end.

Definition execution_from_artifact (artifact : dict) (outcome verdict_source : option str)
    (default_isolation : str) : result ill_typed ExecutionPhaseResult :=
  let look k := dlookup (u k) artifact in
  let get k := dget artifact (u k) in
  let outcome_in l := match outcome with Some o => str_in o l | None => false end in
  let fallback_started :=
    match verdict_source with Some _ => true | None => false end || outcome_in (us ["test_timeout"; "test_output_limit"]) in
  let* execution_state := text_or (look "execution_state")
    (if match verdict_source with Some (_ :: _) => true | _ => false end then u "completed"
     else if outcome_in _INCOMPLETE_OUTCOMES then u "started_incomplete" else u "not_started") in
  let* execution_phase := text_or (look "execution_phase") (u "repo_suite") in
  let test_command_started := flag_or (look "test_command_started") fallback_started in
  let test_command_completed := flag_or (look "test_command_completed")
    (test_command_started && (execution_state =s? u "completed")) in
  let* recorded_isolation := text_or (look "delivered_isolation")
    (if test_command_started then default_isolation else u "not_run") in
  let delivered_isolation := if test_command_started then recorded_isolation else u "not_run" in
  let* setup := _isolation_observation (get "setup_isolation_evidence") in
  let* suite := _isolation_observation (get "repo_suite_isolation_evidence") in
  let* pack := _isolation_observation (get "verifier_pack_isolation_evidence") in
  let* primary := _isolation_observation (get "isolation_evidence") in
  Ok {| ex_execution_state := execution_state; ex_execution_phase := execution_phase;
        ex_test_command_started := test_command_started;
        ex_test_command_completed := test_command_completed;
        ex_verifier_pack_started := flag_or (look "verifier_pack_started") false;
        ex_verifier_pack_completed := flag_or (look "verifier_pack_completed") false;
        ex_delivered_isolation := delivered_isolation;
        ex_setup_isolation_evidence := setup; ex_repo_suite_isolation_evidence := suite;
        ex_verifier_pack_isolation_evidence := pack; ex_primary_isolation_evidence := primary |}.

Definition pack_from_artifact (artifact : dict) : result ill_typed VerifierPackEvidence :=
  let get k := dget artifact (u k) in
  let* present := cast_bool (get "verifier_pack_present") in
  let* sha256 := cast_str (get "verifier_pack_sha256") in
  let* tests_passed := cast_int (get "verifier_pack_tests_passed") in
  let* tests_total := cast_int (get "verifier_pack_tests_total") in
  let* junit_sha256 := cast_str (get "verifier_pack_junit_sha256") in
  let* junit_digest_format := cast_str (get "verifier_pack_junit_digest_format") in
  let* started := cast_bool (get "verifier_pack_started") in
  let* completed := cast_bool (get "verifier_pack_completed") in
  Ok {| vp_present := present; vp_sha256 := sha256;
        vp_manifest := _isolation_wire_payload (get "verifier_pack_manifest");
        vp_tests_passed := tests_passed; vp_tests_total := tests_total;
        vp_junit_sha256 := junit_sha256; vp_junit_digest_format := junit_digest_format;
        vp_started := started; vp_completed := completed |}.

Definition suite_from_artifact (artifact : dict) : result ill_typed RepositorySuiteEvidence :=
  let get k := dget artifact (u k) in
  let* started := cast_bool (get "repo_suite_started") in
  let* completed := cast_bool (get "repo_suite_completed") in
  let* state := cast_str (get "repo_suite_state") in
  let* passed := cast_bool (get "repo_suite_passed") in
  let* tests_passed := cast_int (get "repo_suite_tests_passed") in
  let* tests_total := cast_int (get "repo_suite_tests_total") in
  let* verdict_source := cast_str (get "repo_suite_verdict_source") in
  let* returncode := cast_int (get "repo_suite_returncode") in
  let* junit_sha256 := cast_str (get "repo_suite_junit_sha256") in
  let* junit_digest_format := cast_str (get "repo_suite_junit_digest_format") in
  let* image_digest := cast_str (get "repo_suite_image_digest") in
  Ok {| rs_started := started; rs_completed := completed; rs_state := state; rs_passed := passed;
        rs_tests_passed := tests_passed; rs_tests_total := tests_total;
        rs_verdict_source := verdict_source; rs_returncode := returncode;
        rs_junit_sha256 := junit_sha256; rs_junit_digest_format := junit_digest_format;
        rs_image_digest := image_digest |}.

Definition runtime_from_artifact (artifact : dict) : result ill_typed RuntimeIdentityEvidence :=
  let get k := dget artifact (u k) in
  let* tree_sha256 := cast_str (get "runtime_tree_sha256") in
  let* tree_digest_format := cast_str (get "runtime_tree_digest_format") in
  let* tree_entries := cast_int (get "runtime_tree_entries") in
  let* tree_bytes := cast_int (get "runtime_tree_bytes") in
  let* elapsed_ms := cast_float (get "runtime_identity_elapsed_ms") in
  let* continuity := cast_str (get "runtime_continuity") in
  Ok {| ri_tree_sha256 := tree_sha256; ri_tree_digest_format := tree_digest_format;
        ri_tree_entries := tree_entries; ri_tree_bytes := tree_bytes; ri_elapsed_ms := elapsed_ms;
        ri_continuity := continuity |}.

Definition repo_verification_evidence_from_artifact (artifact : dict) (default_isolation : str)
  : result ill_typed VerificationEvidence :=
  let get k := dget artifact (u k) in
  let* outcome := cast_str (get "outcome") in
  let* verdict_source := cast_str (get "verdict_source") in
  let* execution := execution_from_artifact artifact outcome verdict_source default_isolation in
  let* tamper := cast_bool (get "tamper") in
  let* tests_passed := cast_int (get "tests_passed") in
  let* tests_total := cast_int (get "tests_total") in
  let* junit_sha256 := cast_str (get "junit_sha256") in
  let* junit_digest_format := cast_str (get "junit_digest_format") in
  let* setup_isolation := cast_str (get "setup_isolation") in
  let* pack := pack_from_artifact artifact in
  let* suite := suite_from_artifact artifact in
  let* runtime := runtime_from_artifact artifact in
  Ok {| ve_execution := execution; ve_outcome := outcome; ve_tamper := tamper;
        ve_tests_passed := tests_passed; ve_tests_total := tests_total;
        ve_tests_passed_present := dmem (u "tests_passed") artifact;
        ve_tests_total_present := dmem (u "tests_total") artifact;
        ve_verdict_source := verdict_source; ve_junit_sha256 := junit_sha256;
        ve_junit_digest_format := junit_digest_format; ve_setup_isolation := setup_isolation;
        ve_isolation_payloads :=
          {| ip_primary := _isolation_wire_payload (get "isolation_evidence");
             ip_setup := _isolation_wire_payload (get "setup_isolation_evidence");
             ip_repo_suite := _isolation_wire_payload (get "repo_suite_isolation_evidence");
             ip_verifier_pack := _isolation_wire_payload (get "verifier_pack_isolation_evidence") |};
        ve_verifier_pack := pack; ve_repo_suite := suite; ve_runtime := runtime |}.

Definition w_float (x : option float) : value := match x with Some f => VFloat f | None => VNone end.

Definition repo_attestation_evidence_payload (e : VerificationEvidence) : dict :=
  let execution := ve_execution e in
  let isolation := ve_isolation_payloads e in
  let pack := ve_verifier_pack e in
  let suite := ve_repo_suite e in
  let runtime := ve_runtime e in
  dict_of [
    ("junit_sha256", w_str (ve_junit_sha256 e));
    ("junit_digest_format", w_str (ve_junit_digest_format e));
    ("verifier_pack_sha256", w_str (vp_sha256 pack));
    ("verifier_pack_manifest", w_dict (vp_manifest pack));
    ("verifier_pack_tests_passed", opt_int (vp_tests_passed pack));
    ("verifier_pack_tests_total", opt_int (vp_tests_total pack));
    ("verifier_pack_junit_sha256", w_str (vp_junit_sha256 pack));
    ("verifier_pack_junit_digest_format", w_str (vp_junit_digest_format pack));
    ("isolation_evidence", w_dict (ip_primary isolation));
    ("setup_isolation_evidence", w_dict (ip_setup isolation));
    ("repo_suite_isolation_evidence", w_dict (ip_repo_suite isolation));
    ("verifier_pack_isolation_evidence", w_dict (ip_verifier_pack isolation));
    ("repo_suite_junit_sha256", w_str (rs_junit_sha256 suite));
    ("repo_suite_junit_digest_format", w_str (rs_junit_digest_format suite));
    ("repo_suite_tests_passed", opt_int (rs_tests_passed suite));
    ("repo_suite_tests_total", opt_int (rs_tests_total suite));
    ("repo_suite_verdict_source", w_str (rs_verdict_source suite));
    ("repo_suite_returncode", opt_int (rs_returncode suite));
    ("repo_suite_passed", w_bool (rs_passed suite));
    ("repo_suite_started", w_bool (rs_started suite));
    ("repo_suite_completed", w_bool (rs_completed suite));
    ("repo_suite_state", w_str (rs_state suite));
    ("repo_suite_image_digest", w_str (rs_image_digest suite));
    ("execution_state", VStr (ex_execution_state execution));
    ("execution_phase", VStr (ex_execution_phase execution));
    ("test_command_started", VBool (ex_test_command_started execution));
    ("delivered_isolation", VStr (ex_delivered_isolation execution));
    ("verifier_pack_present", w_bool (vp_present pack));
    ("verifier_pack_started", w_bool (vp_started pack));
    ("verifier_pack_completed", w_bool (vp_completed pack));
    ("setup_isolation", w_str (ve_setup_isolation e));
    ("runtime_tree_sha256", w_str (ri_tree_sha256 runtime));
    ("runtime_tree_digest_format", w_str (ri_tree_digest_format runtime));
    ("runtime_tree_entries", opt_int (ri_tree_entries runtime));
    ("runtime_tree_bytes", opt_int (ri_tree_bytes runtime));
    ("runtime_identity_elapsed_ms", w_float (ri_elapsed_ms runtime));
    ("runtime_continuity", w_str (ri_continuity runtime))].

(** ** The artifact as its lookups *)

Lemma u_eqb a b : (u a =s? u b) = String.eqb a b.
Proof.
  revert b. induction a as [|x a IH]; intros [|y b]; try done.
  change (u (String x a)) with (Ascii.N_of_ascii x :: u a). change (u (String y b)) with (Ascii.N_of_ascii y :: u b).
  cbn [str_eqb String.eqb]. rewrite IH. destruct (Ascii.eqb_spec x y) as [->|Hn]; [by rewrite N.eqb_refl|].
  destruct (N.eqb_spec (Ascii.N_of_ascii x) (Ascii.N_of_ascii y)) as [He|]; [|done].
  apply (f_equal Ascii.ascii_of_N) in He. by rewrite !Ascii.ascii_N_embedding in He.
Qed.

(** The last binding of a key in a list of items. *)
Fixpoint last_binding (k : str) (l : list (str * value)) : option value :=
  match l with
  | [] => None
  | (k', v) :: l' =>
      match last_binding k l' with Some w => Some w | None => if k' =s? k then Some v else None end
  end.

Lemma dlookup_dupdate k d l :
  dlookup k (dupdate d l) = match last_binding k l with Some v => Some v | None => dlookup k d end.
Proof.
  unfold dupdate. revert d. induction l as [|[k' v] l IH]; intros d; [done|]. cbn [fold_left fst snd last_binding].
  rewrite IH. destruct (last_binding k l); [done|]. destruct (k' =s? k) eqn:E.
  - apply str_eqb_eq in E as ->. apply dlookup_dset_eq.
  - apply str_eqb_neq in E. by apply dlookup_dset_ne.
Qed.

Lemma dlookup_dict_of k l :
  dlookup (u k) (dict_of l) = (fix go l := match l with
    | [] => None | (k', v) :: l' => if String.eqb k' k then Some v else go l' end) l.
Proof.
  unfold dict_of. induction l as [|[k' v] l IH]; [done|]. cbn [map dlookup fst snd is_key].
  rewrite u_eqb. by destruct (String.eqb k' k).
Qed.

(** A completed verification: what the verifier returns at its last line. *)
Record completed_run := {
  cr_request : RepoFinalArtifactRequest;
  cr_projection : RepoResultProjection;
  cr_trace : RepoExecutionTrace;
  cr_runtime : RuntimeIdentityEvidence;
  cr_pack_present : bool;
  cr_diagnostics : str }.

Definition with_runtime (c : completed_run) : RepoFinalArtifactRequest :=
  let r := cr_request c in
  {| fa_returncode := fa_returncode r; fa_elapsed_seconds := fa_elapsed_seconds r; fa_phase := fa_phase r;
     fa_files_changed := fa_files_changed r; fa_files_deleted := fa_files_deleted r;
     fa_pack_identity := rr_pack_identity (cr_projection c);
     fa_expected_pack_sha256 := fa_expected_pack_sha256 r; fa_pack_phase := fa_pack_phase r;
     fa_pack_configured := fa_pack_configured r; fa_setup_isolation := fa_setup_isolation r;
     fa_setup_configured := fa_setup_configured r;
     fa_runtime_evidence := Runtime.runtime_identity_evidence_payload (cr_runtime c);
     fa_resolved_image := fa_resolved_image r;
     fa_suite_isolation_evidence := fa_suite_isolation_evidence r; fa_container_mode := fa_container_mode r |}.

Definition completed_result (c : completed_run) : VerdictResult :=
  let phase := fa_phase (cr_request c) in
  finalize (cr_projection c)
    {| vr_passed := fp_passed phase; vr_score := fp_score phase; vr_diagnostics := cr_diagnostics c;
       vr_artifact := build_final_repo_artifact (with_runtime c) |}
    (snapshot (cr_trace c)) (cr_pack_present c).

Lemma dlookup_setdefault k k' v d :
  dlookup k (setdefault k' v d) =
    match dlookup k d with Some w => Some w | None => if k' =s? k then Some v else None end.
Proof.
  unfold setdefault, dmem. destruct (dlookup k' d) eqn:E.
  - destruct (dlookup k d) eqn:Ek; [done|]. destruct (k' =s? k) eqn:Eq; [|done].
    apply str_eqb_eq in Eq as ->. congruence.
  - destruct (k' =s? k) eqn:Eq.
    + apply str_eqb_eq in Eq as ->. rewrite dlookup_dset_eq. by rewrite E.
    + apply str_eqb_neq in Eq. rewrite dlookup_dset_ne by done. by destruct (dlookup k d).
Qed.

Lemma completed_lookup c k :
  dlookup (u k) (vr_artifact (completed_result c)) =
  match last_binding (u k) (execution_phase_payload (snapshot (cr_trace c))) with Some v => Some v | None =>
  match last_binding (u k) (sticky_payload (cr_projection c)) with Some v => Some v | None =>
  match dlookup (u k) (build_final_repo_artifact (with_runtime c)) with Some v => Some v | None =>
    if (u "verifier_pack_present" =s? u k) then Some (VBool (cr_pack_present c)) else None end end end.
Proof.
  unfold completed_result, finalize. cbn [vr_artifact]. rewrite dlookup_setdefault, !dlookup_dupdate.
  by repeat case_match.
Qed.

(** The fields the evidence projection reads, as the completed run sets them. *)
Definition completed_table (c : completed_run) : list (string * option value) :=
  let r := cr_request c in
  let phase := fa_phase r in
  let t := cr_trace c in
  let pack := rr_pack_identity (cr_projection c) in
  let suite {A} (f : RepoSuitePhaseArtifact -> A) := f <$> rr_repo_suite_phase (cr_projection c) in
  let configured (v : value) := if fa_pack_configured r then Some v else None in
  [("outcome", Some (w_str (fp_outcome phase)));
   ("verdict_source", Some (w_str (fp_verdict_source phase)));
   ("tamper", Some (VBool (fp_tampered phase)));
   ("tests_passed", Some (VInt (fp_tests_passed phase)));
   ("tests_total", Some (VInt (fp_tests_total phase)));
   ("junit_sha256", Some (w_str (fp_junit_sha256 phase)));
   ("junit_digest_format", Some (w_str (fp_junit_digest_format phase)));
   ("setup_isolation", Some (w_str (fa_setup_isolation r)));
   ("execution_state", Some (VStr (tr_execution_state t)));
   ("execution_phase", Some (VStr (tr_execution_phase t)));
   ("test_command_started", Some (VBool (tr_test_command_started t)));
   ("test_command_completed", Some (VBool (tr_test_command_completed t)));
   ("delivered_isolation", Some (VStr (tr_delivered_isolation t)));
   ("setup_isolation_evidence", Some (observation_value (tr_setup_isolation_evidence t)));
   ("repo_suite_isolation_evidence", Some (observation_value (tr_repo_suite_isolation_evidence t)));
   ("verifier_pack_isolation_evidence", Some (observation_value (tr_verifier_pack_isolation_evidence t)));
   ("isolation_evidence", Some (match tr_primary_isolation_evidence t with
      | Some o => VDict (isolation_observation_payload o)
      | None => if fa_container_mode r then VDict (isolation_observation_payload (fa_suite_isolation_evidence r))
                else VNone
      end));
   ("verifier_pack_present", Some (VBool (cr_pack_present c)));
   ("verifier_pack_started", Some (VBool (tr_verifier_pack_started t)));
   ("verifier_pack_completed", Some (VBool (tr_verifier_pack_completed t)));
   ("verifier_pack_sha256", Some (w_str (pi_sha256 <$> pack)));
   ("verifier_pack_manifest", Some (w_dict (i ← pack; pi_manifest i)));
   ("verifier_pack_tests_passed", Some (opt_int (pk_tests_passed <$> fa_pack_phase r)));
   ("verifier_pack_tests_total", Some (opt_int (pk_tests_total <$> fa_pack_phase r)));
   ("verifier_pack_junit_sha256", configured (w_str (p ← fa_pack_phase r; pk_junit_sha256 p)));
   ("verifier_pack_junit_digest_format", configured (w_str (p ← fa_pack_phase r; pk_junit_digest_format p)));
   ("repo_suite_started", suite (fun _ => VBool true));
   ("repo_suite_completed", suite (fun _ => VBool true));
   ("repo_suite_state", suite (fun _ => VStr (u "repo_phase_completed")));
   ("repo_suite_passed", suite (fun s => w_bool (sp_passed s)));
   ("repo_suite_tests_passed", suite (fun s => VInt (sp_tests_passed s)));
   ("repo_suite_tests_total", suite (fun s => VInt (sp_tests_total s)));
   ("repo_suite_verdict_source", suite (fun s => w_str (sp_verdict_source s)));
   ("repo_suite_returncode", suite (fun s => VInt (sp_returncode s)));
   ("repo_suite_junit_sha256", suite (fun s => w_str (sp_junit_sha256 s)));
   ("repo_suite_junit_digest_format", suite (fun s => w_str (sp_junit_digest_format s)));
   ("repo_suite_image_digest", None);
   ("runtime_tree_sha256", Some (w_str (ri_tree_sha256 (cr_runtime c))));
   ("runtime_tree_digest_format", Some (w_str (ri_tree_digest_format (cr_runtime c))));
   ("runtime_tree_entries", Some (opt_int (ri_tree_entries (cr_runtime c))));
   ("runtime_tree_bytes", Some (opt_int (ri_tree_bytes (cr_runtime c))));
   ("runtime_identity_elapsed_ms", Some (w_float (ri_elapsed_ms (cr_runtime c))));
   ("runtime_continuity", Some (w_str (ri_continuity (cr_runtime c))))].

Lemma completed_table_ok c :
  Forall (fun kv => dlookup (u (fst kv)) (vr_artifact (completed_result c)) = snd kv) (completed_table c).
Proof.
  unfold completed_table. cbv zeta. repeat constructor;
  destruct c as [[? ? ? ? ? ? ? ? [|] ? ? ? ? ? ?] [[?|] [?|]] [? ? ? ? ? ? ? ? ? ? [?|]] [] ? ?];
  vm_compute; reflexivity.
Qed.

Fixpoint table_get (k : string) (table : list (string * option value)) : option value :=
  match table with
  | [] => None
  | (k', v) :: table' => if String.eqb k' k then v else table_get k table'
  end.

Lemma completed_at c k :
  existsb (fun kv => String.eqb (fst kv) k) (completed_table c) = true ->
  dlookup (u k) (vr_artifact (completed_result c)) = table_get k (completed_table c).
Proof.
  pose proof (completed_table_ok c) as Ht. induction Ht as [|[k' v] l Hk _ IH]; [done|]. cbn [existsb fst table_get].
  destruct (String.eqb k' k) eqn:E; [|done]. apply String.eqb_eq in E as ->. done.
Qed.

(** *** Reading the fields back *)

Lemma cast_w_str x : cast_str (w_str x) = Ok x.
Proof. by destruct x. Qed.
Lemma cast_w_bool x : cast_bool (w_bool x) = Ok x.
Proof. by destruct x. Qed.
Lemma cast_opt_int x : cast_int (opt_int x) = Ok x.
Proof. by destruct x. Qed.
Lemma cast_w_float x : cast_float (w_float x) = Ok x.
Proof. by destruct x. Qed.
Lemma wire_w_dict x : _isolation_wire_payload (w_dict x) = x.
Proof. by destruct x. Qed.

(** An observation as it comes back: an empty note is not written. *)
Definition read_observation (o : IsolationObservation) : IsolationObservation :=
  {| io_requested := io_requested o; io_delivered := io_delivered o; io_image_digest := io_image_digest o;
     io_network := io_network o; io_runtime := io_runtime o;
     io_note := match io_note o with Some (c :: n) => Some (c :: n) | _ => None end |}.

Lemma observation_roundtrip o : _isolation_observation (observation_value o) = Ok (read_observation <$> o).
Proof.
  destruct o as [[rq dl im nw rt [[|c n]|]]|]; [| | |done];
    destruct im, nw, rt; vm_compute; reflexivity.
Qed.

(** The evidence a completed run stands for. *)
Definition completed_evidence (c : completed_run) : VerificationEvidence :=
  let r := cr_request c in
  let phase := fa_phase r in
  let t := cr_trace c in
  let pack := rr_pack_identity (cr_projection c) in
  let suite := rr_repo_suite_phase (cr_projection c) in
  let configured {A} (v : option A) := if fa_pack_configured r then v else None in
  let primary := match tr_primary_isolation_evidence t with
                 | Some o => Some o
                 | None => if fa_container_mode r then Some (fa_suite_isolation_evidence r) else None
                 end in
  {| ve_execution :=
       {| ex_execution_state := tr_execution_state t; ex_execution_phase := tr_execution_phase t;
          ex_test_command_started := tr_test_command_started t;
          ex_test_command_completed := tr_test_command_completed t;
          ex_verifier_pack_started := tr_verifier_pack_started t;
          ex_verifier_pack_completed := tr_verifier_pack_completed t;
          ex_delivered_isolation := if tr_test_command_started t then tr_delivered_isolation t else u "not_run";
          ex_setup_isolation_evidence := read_observation <$> tr_setup_isolation_evidence t;
          ex_repo_suite_isolation_evidence := read_observation <$> tr_repo_suite_isolation_evidence t;
          ex_verifier_pack_isolation_evidence := read_observation <$> tr_verifier_pack_isolation_evidence t;
          ex_primary_isolation_evidence := read_observation <$> primary |};
     ve_outcome := fp_outcome phase; ve_tamper := Some (fp_tampered phase);
     ve_tests_passed := Some (fp_tests_passed phase); ve_tests_total := Some (fp_tests_total phase);
     ve_tests_passed_present := true; ve_tests_total_present := true;
     ve_verdict_source := fp_verdict_source phase; ve_junit_sha256 := fp_junit_sha256 phase;
     ve_junit_digest_format := fp_junit_digest_format phase; ve_setup_isolation := fa_setup_isolation r;
     ve_isolation_payloads :=
       {| ip_primary := isolation_observation_payload <$> primary;
          ip_setup := isolation_observation_payload <$> tr_setup_isolation_evidence t;
          ip_repo_suite := isolation_observation_payload <$> tr_repo_suite_isolation_evidence t;
          ip_verifier_pack := isolation_observation_payload <$> tr_verifier_pack_isolation_evidence t |};
     ve_verifier_pack :=
       {| vp_present := Some (cr_pack_present c); vp_sha256 := pi_sha256 <$> pack;
          vp_manifest := i ← pack; pi_manifest i;
          vp_tests_passed := pk_tests_passed <$> fa_pack_phase r;
          vp_tests_total := pk_tests_total <$> fa_pack_phase r;
          vp_junit_sha256 := configured (p ← fa_pack_phase r; pk_junit_sha256 p);
          vp_junit_digest_format := configured (p ← fa_pack_phase r; pk_junit_digest_format p);
          vp_started := Some (tr_verifier_pack_started t);
          vp_completed := Some (tr_verifier_pack_completed t) |};
     ve_repo_suite :=
       {| rs_started := (fun _ => true) <$> suite; rs_completed := (fun _ => true) <$> suite;
          rs_state := (fun _ => u "repo_phase_completed") <$> suite; rs_passed := s ← suite; sp_passed s;
          rs_tests_passed := sp_tests_passed <$> suite; rs_tests_total := sp_tests_total <$> suite;
          rs_verdict_source := s ← suite; sp_verdict_source s; rs_returncode := sp_returncode <$> suite;
          rs_junit_sha256 := s ← suite; sp_junit_sha256 s;
          rs_junit_digest_format := s ← suite; sp_junit_digest_format s; rs_image_digest := None |};
     ve_runtime := cr_runtime c |}.

(** Replace the fields of the completed artifact by their values. *)
Ltac read_fields :=
  unfold dget, dmem; rewrite !completed_at by reflexivity;
  cbn [table_get completed_table String.eqb Ascii.eqb Bool.eqb].

Section Read.
Context (c : completed_run).
Abbreviation art := (vr_artifact (completed_result c)).

Lemma read_pack : pack_from_artifact art = Ok (ve_verifier_pack (completed_evidence c)).
Proof.
  unfold pack_from_artifact. read_fields. rewrite !cast_w_str, !cast_opt_int, wire_w_dict. cbn [cast_bool rbind].
  cbn. destruct (fa_pack_configured (cr_request c)); by rewrite ?cast_w_str.
Qed.

Lemma read_suite : suite_from_artifact art = Ok (ve_repo_suite (completed_evidence c)).
Proof.
  unfold suite_from_artifact. read_fields. cbn.
  destruct (rr_repo_suite_phase (cr_projection c)) as [s|]; cbn; [|done].
  by rewrite cast_w_bool, !cast_w_str.
Qed.

Lemma read_runtime : runtime_from_artifact art = Ok (cr_runtime c).
Proof.
  unfold runtime_from_artifact. read_fields. rewrite !cast_w_str, !cast_opt_int, cast_w_float. cbn.
  by destruct (cr_runtime c).
Qed.

Lemma read_primary t m o :
  _isolation_observation (match t with
    | Some o => VDict (isolation_observation_payload o)
    | None => if m : bool then VDict (isolation_observation_payload o) else VNone
    end) = Ok (read_observation <$> match t with Some o => Some o | None => if m then Some o else None end).
Proof.
  destruct t as [o'|]; [apply (observation_roundtrip (Some o'))|].
  destruct m; [apply (observation_roundtrip (Some o))|done].
Qed.

Lemma read_execution outcome source default :
  execution_from_artifact art outcome source default = Ok (ve_execution (completed_evidence c)).
Proof.
  unfold execution_from_artifact. read_fields. cbn [text_or rbind flag_or truthy].
  rewrite !observation_roundtrip, read_primary. done.
Qed.

Lemma wire_observation o :
  _isolation_wire_payload (observation_value o) = isolation_observation_payload <$> o.
Proof. by destruct o. Qed.

Lemma wire_primary t m o :
  _isolation_wire_payload (match t with
    | Some o => VDict (isolation_observation_payload o)
    | None => if m : bool then VDict (isolation_observation_payload o) else VNone
    end) = isolation_observation_payload <$> match t with Some o => Some o | None => if m then Some o else None end.
Proof. destruct t; [done|]. by destruct m. Qed.

Lemma read_completed default :
  repo_verification_evidence_from_artifact art default = Ok (completed_evidence c).
Proof.
  unfold repo_verification_evidence_from_artifact.
  unfold dget, dmem. rewrite !(completed_at c) by reflexivity.
  cbn [table_get completed_table String.eqb Ascii.eqb Bool.eqb].
  rewrite !cast_w_str. cbn [rbind cast_bool cast_int]. rewrite read_execution. cbn [rbind].
  rewrite ?cast_w_str. cbn [rbind]. rewrite read_pack, read_suite, read_runtime. cbn [rbind].
  by rewrite !wire_observation, wire_primary.
Qed.
End Read.

(** The artifact of a completed verification is read back exactly.  For every
    completed run - suite alone or with its pack, any trace, any isolation
    observations, any runtime identity - the evidence projected from the finalized
    artifact exists and is the evidence of the run: the counts, source, outcome,
    tamper flag and digests of its final phase, the pack identity and pack counts,
    the sticky suite facts, the runtime identity and the lifecycle of the trace, with
    the delivered isolation reported only if the test command started and an empty
    observation note dropped. *)
Theorem completed_artifact_roundtrip c default_isolation :
  repo_verification_evidence_from_artifact (vr_artifact (completed_result c)) default_isolation
  = Ok (completed_evidence c).
Proof. apply read_completed. Qed.

(** ** From runs to a decision *)

(** The final phase of the suite run [re] and, when a pack is configured, of the
    pack run [pe]. *)
Definition final_phase (strict : bool) (re : CompletedRunEvidence) (pe : option CompletedRunEvidence)
  : option FinalRepoPhase :=
  let repo := evaluate_repo_phase re strict in
  match pe with
  | None => Some (OfRepo repo)
  | Some pe => OfComposite <$> compose_repo_and_pack repo (evaluate_pack_phase pe)
  end.

(** The run exited cleanly with a report of at least one test and no failure, or,
    where no report was expected and the judge is not strict, with code 0. *)
Definition clean_suite (strict : bool) (e : CompletedRunEvidence) : Prop :=
  ev_returncode e = 0 /\
  match ev_junit e with
  | Some j => 0 < jc_total j /\ jc_failures j = 0 /\ jc_errors j = 0
  | None => strict = false /\ ev_report_expected e = false
  end.

Definition clean_pack (e : CompletedRunEvidence) : Prop :=
  ev_returncode e = 0 /\
  match ev_junit e with
  | Some j => 0 < jc_total j /\ jc_failures j = 0 /\ jc_errors j = 0
  | None => False
  end.

Lemma suite_passed_iff strict e : rp_passed (evaluate_repo_phase e strict) = true <-> clean_suite strict e.
Proof.
  unfold evaluate_repo_phase, clean_suite. cbv zeta. cbn [rp_passed].
  destruct (strict && _) eqn:Er.
  - apply andb_true_iff in Er as [-> Hj]. split; [done|]. intros [_ Hc].
    destruct (ev_junit e) as [j|]; [|by destruct Hc]. apply Z.leb_le in Hj. lia.
  - rewrite grade_passed_iff. destruct (ev_junit e) as [j|]; [done|].
    rewrite andb_true_r in Er. rewrite Er. tauto.
Qed.

Lemma pack_passed_iff e : run_coherent e -> pp_passed (evaluate_pack_phase e) = true <-> clean_pack e.
Proof.
  intros Hco. unfold clean_pack. split.
  - intros Hp. destruct (pack_phase_passed e Hco Hp) as (Hrc & _ & _ & Hs & _ & Ht). split; [done|].
    unfold evaluate_pack_phase in Hp. cbv zeta in Hp. destruct (g_tests_total _ =? 0) eqn:Et.
    { by destruct (ev_junit e). }
    destruct (clean_verdict_source _ _ _); [|done]. cbn [pp_passed] in Hp. apply grade_passed_iff in Hp as [_ Hj].
    destruct (ev_junit e) as [j|]; [done|]. unfold grade_repo_run in Et. by rewrite Hj, Hrc in Et.
  - intros [Hrc Hj]. destruct (ev_junit e) as [j|] eqn:Ej; [|done].
    assert (Hg : g_passed (grade_repo_run (ev_returncode e) (ev_junit e) (ev_report_expected e)) = true).
    { apply grade_passed_iff. by rewrite Ej. }
    unfold evaluate_pack_phase. cbv zeta. rewrite (pass_source _ _ _ Hg).
    assert ((g_tests_total (grade_repo_run (ev_returncode e) (ev_junit e) (ev_report_expected e)) =? 0) = false) as ->.
    { unfold grade_repo_run. rewrite Ej. apply Z.eqb_neq. repeat case_if; cbn [g_tests_total]; lia. }
    cbn [pp_passed]. done.
Qed.

(** A passing final phase leaves nothing for the decision to veto. *)
Lemma final_passed strict re pe phase :
  run_coherent re -> match pe with Some pe => run_coherent pe | None => True end ->
  final_phase strict re pe = Some phase ->
  (fp_passed phase = true <->
     clean_suite strict re /\ match pe with Some pe => clean_pack pe | None => True end) /\
  (fp_passed phase = true -> fp_outcome phase = None /\ fp_tampered phase = false).
Proof.
  intros Hr Hp. destruct pe as [pe|]; cbn [final_phase].
  - unfold compose_repo_and_pack. destruct (composite_digest _ _) as [[h f]|]; [|done].
    intros Hc. apply (inj Some) in Hc as <-. cbn [fp_passed fp_outcome fp_tampered cp_passed cp_outcome cp_tampered].
    rewrite andb_true_iff, suite_passed_iff, pack_passed_iff by done. split; [done|].
    intros [H1 H2]. apply suite_passed_iff in H1. apply pack_passed_iff in H2; [|done].
    destruct (repo_phase_passed re strict Hr H1) as (_ & Ht & Ho & _).
    destruct (pack_phase_passed pe Hp H2) as (_ & Ht' & Ho' & _). by rewrite Ho, Ho', Ht, Ht'.
  - intros Hc. apply (inj Some) in Hc as <-. cbn [fp_passed fp_outcome fp_tampered].
    rewrite suite_passed_iff. split; [tauto|]. intros H1. apply suite_passed_iff in H1.
    by destruct (repo_phase_passed re strict Hr H1) as (_ & Ht & Ho & _).
Qed.

(** From test runs to the verdict.  Take a completed suite run and, if a pack
    is configured, its completed run, interpret and compose them, write the result
    artifact, read the evidence back and decide: for a candidate that touches
    nothing unsafe or protected the verdict is PASS exactly when the suite exited
    with code 0 and a report of at least one test without failures or errors (or,
    unless the judge is strict, without an expected report), and the pack likewise
    with a report. *)
Theorem judged_run_passes_iff_clean strict re pe phase c default_isolation d :
  run_coherent re -> match pe with Some pe => run_coherent pe | None => True end ->
  final_phase strict re pe = Some phase -> fa_phase (cr_request c) = phase ->
  (let* e := match repo_verification_evidence_from_artifact (vr_artifact (completed_result c)) default_isolation with
             | Ok e => Ok e | Err _ => Err TypeError end in
   compose_repo_decision true [] [] true (Some (vr_passed (completed_result c)))
     (Some (vr_score (completed_result c))) (vr_diagnostics (completed_result c)) (Some e)) = Ok d ->
  (gd_verdict d = PASS <->
   clean_suite strict re /\ match pe with Some pe => clean_pack pe | None => True end).
Proof.
  intros Hr Hp Hf Hc. rewrite read_completed. cbn [rbind]. intros [_ Hd]%compose_spec. rewrite Hd. clear Hd.
  destruct (final_passed _ _ _ _ Hr Hp Hf) as [Hiff Hcl]. rewrite <- Hiff.
  change (vr_passed (completed_result c)) with (fp_passed (fa_phase (cr_request c))). rewrite Hc. split.
  - intros (_ & _ & _ & _ & [= ->]). done.
  - intros Hpass. rewrite Hpass. do 3 (split; [done|]). split; [|done]. destruct (Hcl Hpass) as [Ho Ht].
    unfold evidence_clear, outcome_entry, outcome_is, outcome_of. cbn [ve_outcome ve_tamper completed_evidence mbind option_bind].
    rewrite Hc, Ho, Ht. done.
Qed.

Definition sample_trace : RepoExecutionTrace :=
  {| tr_execution_state := u "completed"; tr_execution_phase := u "repo_suite";
     tr_test_command_started := true; tr_test_command_completed := true;
     tr_verifier_pack_started := false; tr_verifier_pack_completed := false;
     tr_delivered_isolation := u "subprocess"; tr_setup_isolation_evidence := None;
     tr_repo_suite_isolation_evidence := None; tr_verifier_pack_isolation_evidence := None;
     tr_primary_isolation_evidence := None |}.

Definition sample_completed (phase : FinalRepoPhase) : completed_run :=
  {| cr_request := {| fa_returncode := 0; fa_elapsed_seconds := dec 15 1; fa_phase := phase;
       fa_files_changed := us ["src/a.py"]; fa_files_deleted := []; fa_pack_identity := None;
       fa_expected_pack_sha256 := []; fa_pack_phase := None; fa_pack_configured := false;
       fa_setup_isolation := None; fa_setup_configured := false; fa_runtime_evidence := [];
       fa_resolved_image := None;
       fa_suite_isolation_evidence := {| io_requested := u "subprocess"; io_delivered := u "subprocess";
         io_image_digest := None; io_network := None; io_runtime := None; io_note := None |};
       fa_container_mode := false |};
     cr_projection := new_projection; cr_trace := sample_trace;
     cr_runtime := {| ri_tree_sha256 := None; ri_tree_digest_format := None; ri_tree_entries := None;
       ri_tree_bytes := None; ri_elapsed_ms := None; ri_continuity := Some (u "not_applicable") |};
     cr_pack_present := false; cr_diagnostics := [] |}.

Lemma judged_run_passes_iff_clean_witness :
  let re := sample_run 0 (Some three_passed) in
  PASS = PASS <-> clean_suite true re /\ True.
Proof.
  intros re.
  destruct (final_phase true re None) as [phase|] eqn:Ef; [|discriminate Ef].
  set (c := sample_completed phase).
  destruct (compose_repo_decision true [] [] true (Some (vr_passed (completed_result c)))
    (Some (vr_score (completed_result c))) (vr_diagnostics (completed_result c))
    (Some (completed_evidence c))) as [d|e] eqn:Ed.
  2: { injection Ef as <-. vm_compute in Ed. discriminate Ed. }
  assert (Hd : gd_verdict d = PASS).
  { injection Ef as <-. vm_compute in Ed. injection Ed as <-. reflexivity. }
  rewrite <- Hd at 1.
  apply (judged_run_passes_iff_clean true re None phase c (u "subprocess") d).
  - exact (three_passed_coherent 0).
  - exact I.
  - exact Ef.
  - reflexivity.
  - rewrite read_completed. exact Ed.
Defined.
