(* ===== verification/Assurance.v ===== *)
(** Delivered assurance (domain/assurance.py, application/assurance.py): the
    profile a run may claim, the facts about a configured verifier pack, and the
    evaluation of required floors against what was delivered. *)
From S2P Require Export Decision.
Local Open Scope Z_scope.

Definition vopt_str (x : option str) : value := match x with Some s => VStr s | None => VNone end.
Definition vopt_bool (x : option bool) : value := match x with Some b => VBool b | None => VNone end.
(** [bool(s)] of an optional string *)
Definition given (x : option str) : bool := match x with Some (_ :: _) => true | _ => false end.

Record VerifierPackAssurance := {
  va_configured : bool;
  va_present : option bool;
  va_integrity : str;
  va_identity_verified : option bool;
  va_execution_state : str;
  va_secrecy : str;
  va_snapshot_sha256 : option str
}.

Module VerifierPackAssurance.
Definition to_payload (p : VerifierPackAssurance) : dict := dict_of
  [("configured", VBool (va_configured p));
   ("present", vopt_bool (va_present p));
   ("integrity", VStr (va_integrity p));
   ("identity_verified", vopt_bool (va_identity_verified p));
   ("execution_state", VStr (va_execution_state p));
   ("secrecy", VStr (va_secrecy p));
   ("snapshot_sha256", vopt_str (va_snapshot_sha256 p))].
End VerifierPackAssurance.

Record AssuranceProfile := {
  ap_execution_state : str;
  ap_execution_phase : str;
  ap_harness_integrity : str;
  ap_report_integrity : str;
  ap_candidate_isolation : str;
  ap_suite_isolation : str;
  ap_setup_isolation : option str;
  ap_runtime_continuity : str;
  ap_verifier_pack : option VerifierPackAssurance;
  ap_overall_profile : str;
  ap_note : str;
  ap_repo_native_suite : option str;
  ap_repo_native_suite_present : bool
}.

Module AssuranceProfile.
Definition to_payload (p : AssuranceProfile) : dict :=
  dict_of
    [("execution_state", VStr (ap_execution_state p));
     ("execution_phase", VStr (ap_execution_phase p));
     ("harness_integrity", VStr (ap_harness_integrity p));
     ("report_integrity", VStr (ap_report_integrity p));
     ("candidate_isolation", VStr (ap_candidate_isolation p));
     ("suite_isolation", VStr (ap_suite_isolation p));
     ("setup_isolation", vopt_str (ap_setup_isolation p));
     ("runtime_continuity", VStr (ap_runtime_continuity p));
     ("verifier_pack", match ap_verifier_pack p with
                       | Some v => VDict (VerifierPackAssurance.to_payload v)
                       | None => VNone
                       end)]
  ++ (if ap_repo_native_suite_present p
      then dict_of [("repo_native_suite", vopt_str (ap_repo_native_suite p))] else [])
  ++ dict_of
    [("overall_profile", VStr (ap_overall_profile p)); ("note", VStr (ap_note p))].
End AssuranceProfile.

(** ** Required floors *)

Definition REPORT_INTEGRITY_RANK_POLICY : list (string * Z) :=
  [("same_process_candidate_writable", 0); ("external_process_isolated", 1)].
Definition ISOLATION_RANK_POLICY : list (string * Z) :=
  [("subprocess", 0); ("docker", 1); ("gvisor", 2)].

(** [RANK.get(value, -1)]: an unhashable value raises. *)
Definition rank_of (table : list (string * Z)) (v : value) : result gate_exn Z :=
  match v with
  | VStr s => Ok (match assoc s table with Some r => r | None => -1 end)
  | VList _ | VDict _ => Err TypeError
  | _ => Ok (-1)
  end.

(** One floor: the level required, the table that ranks it, the delivered field. *)
Definition floor_shortfall (table : list (string * Z)) (delivered : value) (required : option str)
    (unknown below : str -> list part) : result gate_exn (option (list part)) :=
  match required with
  | Some (c :: s) =>
      let want := assoc (c :: s) table in
      let* got := rank_of table delivered in
      match want with
      | None => Ok (Some (unknown (c :: s)))
      | Some w => Ok (if got <? w then Some (below (c :: s)) else None)
      end
  | _ => Ok None
  end.

Definition assurance_shortfall : shortfall_evaluator_t :=
  fun assurance require_report_integrity require_candidate_isolation =>
  let* report := floor_shortfall REPORT_INTEGRITY_RANK_POLICY
    (get_or assurance "report_integrity" (VStr [])) require_report_integrity
    (fun r => [txt "unknown --require-report-integrity value: "; FmtR (VStr r)])
    (fun r => [txt "required report_integrity ≥ '"; Txt r; txt "' but the run delivered '";
               Fmt (dget assurance (u "report_integrity"));
               txt "' (use --blackbox for external_process_isolated)"]) in
  match report with
  | Some reason => Ok (Some reason)
  | None => floor_shortfall ISOLATION_RANK_POLICY
      (get_or assurance "candidate_isolation" (VStr [])) require_candidate_isolation
      (fun r => [txt "unknown --require-candidate-isolation value: "; FmtR (VStr r)])
      (fun r => [txt "required candidate_isolation ≥ '"; Txt r; txt "' but the run used '";
                 Fmt (dget assurance (u "candidate_isolation")); txt "'"])
  end.

(** ** Pack facts *)

(** What [_pack_assurance_parts] returns: nothing is configured, a typed value,
    or the payload of untyped historical evidence. *)
Inductive pack_parts :=
| NoPack
| TypedPack (p : VerifierPackAssurance)
| LegacyPack (payload : dict).

Definition container (isolation : str) : bool := str_in isolation (us ["docker"; "gvisor"]).

(** Integrity and identity of the pack snapshot. *)
Definition pack_integrity (present outcome : value) (snapshot_accepted completed : bool)
    (isolation : str) (blackbox : bool) : str * option bool :=
  let is_outcome s := py_eq outcome (VStr (u s)) in
  if is_false_v present then (u "not_evaluated_missing", None)
  else if is_outcome "pack_invalid" then (u "invalid", None)
  else if is_outcome "pack_identity_mismatch" then (u "snapshot_identity_mismatch", Some false)
  else if is_outcome "pack_snapshot_changed" then (u "snapshot_changed", Some false)
  else if snapshot_accepted && completed then
    (if negb blackbox && container isolation
     then u "verified_snapshot_read_only" else u "verified_snapshot_pre_post", Some true)
  else if snapshot_accepted then (u "verified_snapshot_pre_execution", Some true)
  else (u "not_evaluated", None).

Definition pack_secrecy (started blackbox unobserved : bool) (isolation : str) : str :=
  if negb started then u "not_evaluated_no_execution"
  else if blackbox && unobserved then u "not_evaluated_no_candidate_execution"
  else if blackbox && container isolation then u "unmounted_from_candidate"
  else if blackbox then u "reachable_same_host"
  else u "readable_in_judge_process".

Definition _pack_assurance_parts (verifier_pack : option str) (isolation : str) (blackbox : bool)
    (evidence : option dict) : pack_parts :=
  if negb (given verifier_pack) then NoPack
  else
    let ev := match evidence with Some d => d | None => [] end in
    let get k := dget ev (u k) in
    let present := get "present" in
    let snapshot_sha256 := get "snapshot_sha256" in
    let snapshot_accepted := truthy (get "snapshot_accepted") || truthy snapshot_sha256 in
    let started := truthy (get "started") in
    let completed := truthy (get "completed") in
    let '(integrity, identity_verified) :=
      pack_integrity present (get "outcome") snapshot_accepted completed isolation blackbox in
    let pack_execution :=
      state_wire (if completed then EXECUTION_COMPLETED
                  else if started then EXECUTION_STARTED_INCOMPLETE else EXECUTION_NOT_STARTED) in
    let secrecy := pack_secrecy started blackbox
      (is_false_v (get "candidate_launcher_invocation_observed")) isolation in
    let legacy := LegacyPack (dict_of
      [("configured", VBool true); ("present", present); ("integrity", VStr integrity);
       ("identity_verified", vopt_bool identity_verified); ("execution_state", VStr pack_execution);
       ("secrecy", VStr secrecy); ("snapshot_sha256", snapshot_sha256)]) in
    let typed p s := TypedPack
      {| va_configured := true; va_present := p; va_integrity := integrity;
         va_identity_verified := identity_verified; va_execution_state := pack_execution;
         va_secrecy := secrecy; va_snapshot_sha256 := s |} in
    match present, snapshot_sha256 with
    | VNone, VNone => typed None None
    | VNone, VStr s => typed None (Some s)
    | VBool b, VNone => typed (Some b) None
    | VBool b, VStr s => typed (Some b) (Some s)
    | _, _ => legacy
    end.

Definition pack_assurance (verifier_pack : option str) (isolation : str) (blackbox : bool)
    (evidence : option dict) : value :=
  match _pack_assurance_parts verifier_pack isolation blackbox evidence with
  | NoPack => VNone
  | TypedPack p => VDict (VerifierPackAssurance.to_payload p)
  | LegacyPack payload => VDict payload
  end.

(** The domain value carries the typed pack; an untyped one is put into the
    payload in its place. *)
Definition typed_pack (p : pack_parts) : option VerifierPackAssurance :=
  match p with TypedPack v => Some v | _ => None end.
Definition _profile_payload (profile : AssuranceProfile) (p : pack_parts) : dict :=
  match p with
  | LegacyPack payload => dset (u "verifier_pack") (VDict payload) (AssuranceProfile.to_payload profile)
  | _ => AssuranceProfile.to_payload profile
  end.

(** ** Profiles *)

Definition static_assurance_profile (verifier_pack : option str) : dict :=
  _profile_payload
    {| ap_execution_state := state_wire EXECUTION_STATIC_GATE;
       ap_execution_phase := u "pre_gate";
       ap_harness_integrity := u "pre_gate_enforced";
       ap_report_integrity := u "not_applicable_static_gate";
       ap_candidate_isolation := u "not_run";
       ap_suite_isolation := u "not_run";
       ap_setup_isolation := None;
       ap_runtime_continuity := u "not_applicable";
       ap_verifier_pack :=
         if given verifier_pack then Some
           {| va_configured := true; va_present := None;
              va_integrity := u "not_evaluated_static_gate"; va_identity_verified := None;
              va_execution_state := state_wire EXECUTION_STATIC_GATE;
              va_secrecy := u "not_evaluated_static_gate"; va_snapshot_sha256 := None |}
         else None;
       ap_overall_profile := u "static_gate";
       ap_note := u "the diff pre-gate decided this result before candidate execution; no test command, runtime boundary, report channel, setup, or verifier pack was exercised. Requested runtime policy is recorded only in attestation.effective_policy.";
       ap_repo_native_suite := None;
       ap_repo_native_suite_present := false |} NoPack.

(** [value or default] of an optional string *)
Definition str_or (x : option str) (default : str) : str :=
  match x with Some (c :: s) => c :: s | _ => default end.
(** An optional string in an f-string *)
Definition shown_opt (x : option str) : str := match x with Some s => s | None => u "None" end.

Definition preflight_assurance_profile (verifier_pack : option str) (execution_state execution_phase : str)
    (setup_isolation runtime_continuity : option str) (pack_evidence : option dict) : dict :=
  let parts := _pack_assurance_parts verifier_pack (u "not_run") false pack_evidence in
  _profile_payload
    {| ap_execution_state := execution_state;
       ap_execution_phase := execution_phase;
       ap_harness_integrity := u "pre_gate_enforced";
       ap_report_integrity := u "not_applicable_not_run";
       ap_candidate_isolation := u "not_run";
       ap_suite_isolation := u "not_run";
       ap_setup_isolation := setup_isolation;
       ap_runtime_continuity := str_or runtime_continuity (u "not_applicable");
       ap_verifier_pack := typed_pack parts;
       ap_overall_profile :=
         if execution_state =s? state_wire EXECUTION_STARTED_INCOMPLETE
         then u "execution_incomplete_before_tests" else u "preflight";
       ap_note := u "runtime verification did not start a test command (furthest phase: "
                  ++ execution_phase
                  ++ u "); no candidate isolation or report-integrity boundary is claimed. Requested policy remains in attestation.effective_policy.";
       ap_repo_native_suite := None;
       ap_repo_native_suite_present := false |} parts.

Definition HOST_OPT_IN : str := u "subprocess_host_opt_in".
Definition opted_in (setup_isolation : option str) : bool :=
  match setup_isolation with Some s => s =s? HOST_OPT_IN | None => false end.

Definition incomplete_note (execution_state : str) : str :=
  if negb (execution_state =s? state_wire EXECUTION_COMPLETED)
  then u "Execution did not complete, so no clean verdict source is claimed. " else [].

Definition assurance_profile (isolation : str) (verifier_pack : option str) (blackbox composed_repo_suite
    repo_suite_required : bool) (repo_suite_state candidate_isolation setup_isolation
    runtime_continuity : option str) (execution_state execution_phase : str)
    (test_command_started : bool) (pack_evidence : option dict) : dict :=
  if (execution_state =s? state_wire EXECUTION_NOT_STARTED) || negb test_command_started then
    preflight_assurance_profile verifier_pack execution_state execution_phase setup_isolation
      runtime_continuity pack_evidence
  else
    let completed := execution_state =s? state_wire EXECUTION_COMPLETED in
    let pack_evidence :=
      match pack_evidence with
      | None => if given verifier_pack
                then Some (dict_of [("present", VBool true); ("snapshot_accepted", VBool true);
                                    ("started", VBool true); ("completed", VBool completed)])
                else None
      | Some _ => pack_evidence
      end in
    let effective_isolation := if opted_in setup_isolation then u "subprocess" else isolation in
    let effective_candidate_isolation :=
      match candidate_isolation with Some c => c | None => effective_isolation end in
    let parts := _pack_assurance_parts verifier_pack
      (if blackbox then effective_candidate_isolation else isolation) blackbox pack_evidence in
    if blackbox then
      _profile_payload
        {| ap_execution_state := execution_state;
           ap_execution_phase := execution_phase;
           ap_harness_integrity := u "pre_gate_enforced";
           ap_report_integrity := if composed_repo_suite then u "same_process_candidate_writable"
                                  else u "external_process_isolated";
           ap_candidate_isolation := effective_candidate_isolation;
           ap_suite_isolation := isolation;
           ap_setup_isolation := setup_isolation;
           ap_runtime_continuity := str_or runtime_continuity (u "not_applicable");
           ap_verifier_pack := typed_pack parts;
           ap_repo_native_suite := Some (str_or repo_suite_state
             (if composed_repo_suite then u "composed_completed"
              else if repo_suite_required then u "required_not_run_short_circuit"
              else u "not_required_blackbox_only"));
           ap_repo_native_suite_present := true;
           ap_overall_profile :=
             if completed then
               (if composed_repo_suite then u "composite_blackbox_repo_native"
                else if repo_suite_required then u "blackbox_composite_short_circuit"
                else u "black_box_external_judge")
             else u "execution_incomplete";
           ap_note :=
             u "The black-box phase has external_process_isolated report integrity: its judge-owned pytest does not import the candidate, so candidate report/exit forgery cannot reach that phase. "
             ++ (if composed_repo_suite then
                   u "The required repo-native phase has same_process_candidate_writable report integrity, so the composite reports that weaker level; use --blackbox-only when an external_process_isolated floor is required. "
                 else if repo_suite_required then
                   u "The repo-native phase remained required by policy but did not become an executed report channel; the required pipeline stopped in state '"
                   ++ shown_opt repo_suite_state ++ u "'. "
                 else u "The black-box phase is the only required report channel. ")
             ++ u "candidate_isolation is what was OBSERVED during a launcher invocation ('"
             ++ effective_candidate_isolation ++ u "'); preparing '" ++ isolation
             ++ u "' alone is not evidence. Container modes omit the pack mount and use a read-only candidate mount; those scoped controls are not proof against container escape. "
             ++ incomplete_note execution_state ++ u "See docs/BLACKBOX.md." |} parts
    else
      let overall :=
        if opted_in setup_isolation then u "mixed_host_setup_repo_native"
        else if container isolation then u "isolated_repo_native" else u "repo_native_same_process" in
      _profile_payload
        {| ap_execution_state := execution_state;
           ap_execution_phase := execution_phase;
           ap_harness_integrity := u "pre_gate_enforced";
           ap_report_integrity := u "same_process_candidate_writable";
           ap_candidate_isolation := effective_isolation;
           ap_suite_isolation := isolation;
           ap_setup_isolation := setup_isolation;
           ap_runtime_continuity := str_or runtime_continuity (u "not_applicable");
           ap_verifier_pack := typed_pack parts;
           ap_repo_native_suite := None;
           ap_repo_native_suite_present := false;
           ap_overall_profile := if completed then overall else u "execution_incomplete";
           ap_note :=
             u "report_integrity is same_process_candidate_writable: a determined in-process patch can forge the JUnit report and exit code together. Guard blocks candidate edits/deletions to the modelled protected path set and detects persistent declared-input drift at execution checkpoints; it does not discover every transitive harness dependency or stop deliberate process-level forgery in source. The container modes isolate the host, not the report. Use --blackbox for external_process_isolated. "
             ++ incomplete_note execution_state ++ u "See docs/ASSURANCE.md." |} parts.

(** ** Properties *)

Lemma floor_shortfall_none table v required f g :
  (forall s r, assoc s table = Some r -> 0 <= r) ->
  floor_shortfall table v required f g = Ok None ->
  forall r, required = Some r -> r <> [] ->
    exists d w k, v = VStr d /\ assoc r table = Some w /\ assoc d table = Some k /\ w <= k.
Proof.
  intros Hpos H r -> Hr. destruct r as [|c s]; [done|]. simpl in H.
  apply rbind_ok in H as (got & Hg & H). destruct (assoc (c :: s) table) as [w|] eqn:Ew; [|done].
  apply Ok_inj in H. pose proof (Hpos _ _ Ew). destruct (Z.ltb_spec got w); [done|].
  unfold rank_of in Hg. destruct v; try done; try (apply Ok_inj in Hg; lia).
  destruct (assoc s0 table) as [k|] eqn:Ek; apply Ok_inj in Hg; [|lia].
  exists s0, w, k. subst. done.
Qed.

Lemma report_ranks s r : assoc s REPORT_INTEGRITY_RANK_POLICY = Some r -> 0 <= r.
Proof. simpl. repeat case_if; intros H; inversion H; lia. Qed.
Lemma isolation_ranks s r : assoc s ISOLATION_RANK_POLICY = Some r -> 0 <= r.
Proof. simpl. repeat case_if; intros H; inversion H; lia. Qed.

Lemma get_or_dget d k : dget d (u k) <> VNone -> forall v, get_or d k v = dget d (u k).
Proof. unfold get_or, dget. by destruct (dlookup _ _). Qed.

(** ** Payload access *)

Lemma profile_get profile parts k :
  k <> u "verifier_pack" -> dget (_profile_payload profile parts) k = dget (AssuranceProfile.to_payload profile) k.
Proof. intros Hk. destruct parts; try done. unfold _profile_payload, dget. by rewrite dlookup_dset_ne. Qed.

(** The pack payload a profile carries. *)
Definition pack_value (parts : pack_parts) : value :=
  match parts with
  | NoPack => VNone
  | TypedPack p => VDict (VerifierPackAssurance.to_payload p)
  | LegacyPack payload => VDict payload
  end.

Lemma profile_get_pack profile parts :
  ap_verifier_pack profile = typed_pack parts ->
  dget (_profile_payload profile parts) (u "verifier_pack") = pack_value parts.
Proof.
  intros Hp. destruct parts as [|p|payload]; unfold _profile_payload, dget.
  - destruct profile; simpl in Hp; subst; done.
  - destruct profile; simpl in Hp; subst; done.
  - by rewrite dlookup_dset_eq.
Qed.

(** Reading a field of a profile payload. *)
Ltac profile_field :=
  rewrite profile_get by (vm_compute; discriminate); reflexivity.

Section Fields.
Variables (profile : AssuranceProfile) (parts : pack_parts).
Lemma get_execution_state : dget (_profile_payload profile parts) (u "execution_state") = VStr (ap_execution_state profile).
Proof. profile_field. Qed.
Lemma get_execution_phase : dget (_profile_payload profile parts) (u "execution_phase") = VStr (ap_execution_phase profile).
Proof. profile_field. Qed.
Lemma get_harness_integrity : dget (_profile_payload profile parts) (u "harness_integrity") = VStr (ap_harness_integrity profile).
Proof. profile_field. Qed.
Lemma get_report_integrity : dget (_profile_payload profile parts) (u "report_integrity") = VStr (ap_report_integrity profile).
Proof. profile_field. Qed.
Lemma get_candidate_isolation : dget (_profile_payload profile parts) (u "candidate_isolation") = VStr (ap_candidate_isolation profile).
Proof. profile_field. Qed.
Lemma get_suite_isolation : dget (_profile_payload profile parts) (u "suite_isolation") = VStr (ap_suite_isolation profile).
Proof. profile_field. Qed.
Lemma get_setup_isolation : dget (_profile_payload profile parts) (u "setup_isolation") = vopt_str (ap_setup_isolation profile).
Proof. profile_field. Qed.
Lemma get_runtime_continuity : dget (_profile_payload profile parts) (u "runtime_continuity") = VStr (ap_runtime_continuity profile).
Proof. profile_field. Qed.
Lemma get_repo_native_suite :
  dget (_profile_payload profile parts) (u "repo_native_suite") =
  (if ap_repo_native_suite_present profile then vopt_str (ap_repo_native_suite profile) else VNone).
Proof.
  rewrite profile_get by (vm_compute; discriminate). unfold AssuranceProfile.to_payload.
  destruct (ap_repo_native_suite_present profile); reflexivity.
Qed.
Lemma get_overall_profile : dget (_profile_payload profile parts) (u "overall_profile") = VStr (ap_overall_profile profile).
Proof.
  rewrite profile_get by (vm_compute; discriminate). unfold AssuranceProfile.to_payload.
  destruct (ap_repo_native_suite_present profile); reflexivity.
Qed.
End Fields.

(** A profile never claims more than what ran.  A report channel is claimed
    to be external only by a started black-box run that composed no repository
    suite; a run that started no test claims no channel and no isolation; the
    claimed candidate isolation is the observed one, or [not_run], and a trusted
    host setup step reduces a repository run to [subprocess]. *)
Theorem profile_never_overclaims isolation pack blackbox composed required repo_state candidate setup
    continuity state phase started evidence :
  let a := assurance_profile isolation pack blackbox composed required repo_state candidate setup
             continuity state phase started evidence in
  let ran := started && negb (state =s? state_wire EXECUTION_NOT_STARTED) in
  let observed := if blackbox && negb (match candidate with None => true | _ => false end) then candidate
                  else Some (if opted_in setup then u "subprocess" else isolation) in
  (dget a (u "report_integrity") = VStr (u "external_process_isolated") <->
     ran = true /\ blackbox = true /\ composed = false) /\
  (ran = false -> dget a (u "report_integrity") = VStr (u "not_applicable_not_run") /\
     dget a (u "candidate_isolation") = VStr (u "not_run") /\
     dget a (u "suite_isolation") = VStr (u "not_run")) /\
  (ran = true -> dget a (u "candidate_isolation") = vopt_str observed /\
     dget a (u "suite_isolation") = VStr isolation).
Proof.
  cbv zeta. unfold assurance_profile, preflight_assurance_profile. cbv zeta.
  destruct (state =s? state_wire EXECUTION_NOT_STARTED), started; cbn [orb andb negb]; cbv match;
    [| |destruct blackbox; [destruct composed, candidate|]|]; rewrite ?get_report_integrity, ?get_candidate_isolation, ?get_suite_isolation;
    cbn [ap_report_integrity ap_candidate_isolation ap_suite_isolation andb negb].
  all: split; [split; [intros Hx; first [by repeat split | vm_compute in Hx; discriminate Hx]
                      |intros (? & ? & ?); first [discriminate | reflexivity]]|].
  all: split; intros Hx; first [discriminate Hx | repeat split; reflexivity].
Qed.
