(* ===== verification/ProducerAgree.v ===== *)
(** Agreement of the producer with the record verifier: what the application
    layer composes is what the portable verifier independently checks.  Required
    floors, the coverage threshold, the composite identity of a repository run
    with a mandatory pack, and the shape and semantics of assurance profiles. *)
From S2P Require Import PyStr Bytes Verdict JUnit RepoPhase RecordReport RecordPolicy RecordTypes RecordVerifier.
From S2P Require Import Decision Assurance.
Local Open Scope Z_scope.

(** ** Floors *)

(** The required level is known, and the delivered level ranks at least as high. *)
Definition level_met (table : list (string * Z)) (delivered required : str) : Prop :=
  match assoc required table with
  | Some w => w <= default (-1) (assoc delivered table)
  | None => False
  end.

Lemma floor_cases table delivered r f g :
  r <> [] -> exists x, floor_shortfall table (VStr delivered) (Some r) f g = Ok x /\
                       (x = None <-> level_met table delivered r).
Proof.
  intros Hr. destruct r as [|c s]; [done|]. unfold level_met. simpl.
  destruct (assoc (c :: s) table) as [w|]; [|by eexists].
  assert (E : match assoc delivered table with Some r => r | None => -1 end
              = default (-1) (assoc delivered table)) by by destruct (assoc _ _).
  eexists. split; [reflexivity|]. rewrite E. destruct (Z.ltb_spec (default (-1) (assoc delivered table)) w).
  - split; [done|lia].
  - split; [lia|done].
Qed.

(** The verifier's two rank functions say the same. *)
Lemma report_level_agree delivered r :
  level_met REPORT_INTEGRITY_RANK_POLICY delivered r <->
  _REPORT_INTEGRITY_RANK r 99 <= _REPORT_INTEGRITY_RANK delivered (-1).
Proof.
  unfold level_met, _REPORT_INTEGRITY_RANK, REPORT_INTEGRITY_RANK_POLICY. cbn [assoc].
  rewrite !(str_eqb_sym (u "same_process_candidate_writable")), !(str_eqb_sym (u "external_process_isolated")).
  repeat case_if; simpl; lia.
Qed.

Lemma isolation_level_agree delivered r :
  r <> u "not_run" ->
  level_met ISOLATION_RANK_POLICY delivered r <->
  _ISOLATION_RANK r 99 <= _ISOLATION_RANK delivered (-2).
Proof.
  intros Hr%str_eqb_neq. unfold level_met, _ISOLATION_RANK, ISOLATION_RANK_POLICY. rewrite Hr. cbn [assoc].
  rewrite !(str_eqb_sym (u "subprocess")), !(str_eqb_sym (u "docker")), !(str_eqb_sym (u "gvisor")).
  destruct (delivered =s? u "not_run") eqn:E; [apply str_eqb_eq in E as ->; vm_compute (_ =s? _)|];
    repeat case_if; simpl; lia.
Qed.

(** the producer and the verifier rank assurance alike.  For a record whose
    assurance names its levels with strings and whose policy carries non-empty
    floors (the isolation floor not being [not_run]), the producer finds no
    shortfall exactly when the verifier finds none. *)
Theorem floors_agree policy assurance report isolation delivered_report delivered_isolation :
  dget policy (u "require_report_integrity") = VStr report -> report <> [] ->
  dget policy (u "require_candidate_isolation") = VStr isolation -> isolation <> [] ->
  isolation <> u "not_run" ->
  dget assurance (u "report_integrity") = VStr delivered_report ->
  dget assurance (u "candidate_isolation") = VStr delivered_isolation ->
  assurance_shortfall assurance (Some report) (Some isolation) = Ok None <->
  report_shortfall policy assurance || isolation_shortfall policy assurance = false.
Proof.
  intros Hp1 Hr Hp2 Hi Hnr Ha1 Ha2. unfold report_shortfall, isolation_shortfall.
  rewrite Hp1, Hp2, Ha1, Ha2. cbn [str_or_empty]. rewrite orb_false_iff, !Z.ltb_ge.
  assert (G1 : get_or assurance "report_integrity" (VStr []) = VStr delivered_report)
    by (rewrite get_or_dget; [done|by rewrite Ha1]).
  assert (G2 : get_or assurance "candidate_isolation" (VStr []) = VStr delivered_isolation)
    by (rewrite get_or_dget; [done|by rewrite Ha2]).
  rewrite <- report_level_agree, <- isolation_level_agree by done.
  unfold assurance_shortfall. rewrite G1, G2.
  edestruct (floor_cases REPORT_INTEGRITY_RANK_POLICY delivered_report report) as (x & -> & Hx); [done|].
  cbn [rbind]. rewrite <- Hx. destruct x as [x|]; [split; [intros ?%Ok_inj|intros [? _]]; done|].
  edestruct (floor_cases ISOLATION_RANK_POLICY delivered_isolation isolation) as (y & -> & Hy); [done|].
  rewrite <- Hy. split; [by intros ->%Ok_inj|by intros [_ ->]].
Qed.

(** ** The coverage threshold *)

(** the exact ratio test of the producer's coverage gate and the verifier's
    threshold test agree: for a PASS with measured, non-negative integer counts
    and a finite threshold, the gate keeps the PASS exactly when the verifier
    finds that the evidence meets the threshold. *)
Theorem coverage_threshold_agree `{UnicodeDB} d coverage threshold floor executed total percent :
  match threshold with VInt n => floor = NInt n | VFloat x => floor = NFloat x | _ => False end ->
  (forall x, threshold = VFloat x -> is_finite x = true) ->
  gd_verdict d = PASS ->
  dget coverage (u "measured") = VBool true ->
  dlookup (u "executed") coverage = Some (VInt executed) -> 0 <= executed ->
  dlookup (u "total") coverage = Some (VInt total) -> 0 <= total ->
  dlookup (u "percent") coverage = Some percent ->
  exists d', apply_diff_coverage_gate d coverage (Some floor) = Ok d' /\
             (gd_verdict d' = PASS <-> _coverage_meets_threshold (Some coverage) threshold = true).
Proof.
  intros Hf Hfin Hd Hm He Hen Ht Htn Hpc.
  assert (Hratio : exists n m, floor_ratio floor = Ok (n, m) /\ 0 < m /\
            _coverage_meets_threshold (Some coverage) threshold = (n * total <=? 100 * executed * m)).
  { unfold _coverage_meets_threshold. rewrite Hm. cbn [is_true_v negb]. cbv match.
    unfold dget. rewrite He, Ht. destruct threshold; try done; subst floor; simpl.
    - exists z, 1. split_and!; [done|lia|]. by rewrite Z.mul_1_r.
    - specialize (Hfin f eq_refl). destruct (as_integer_ratio_pos f Hfin) as (n & m & -> & Hm').
      by exists n, m. }
  destruct Hratio as (n & m & Hr & Hmpos & ->).
  unfold apply_diff_coverage_gate, subscript. rewrite Hd, Hm, He, Ht, Hr, Hpc.
  cbn [verdict_eqb is_true_v negb rbind py_int]. cbv match. change (verdict_eqb PASS PASS) with true. cbv match.
  destruct (Z.ltb_spec 0 total); destruct (Z.ltb_spec (100 * executed * m) (n * total)); cbn [andb rbind].
  - eexists. split; [reflexivity|]. cbn [gd_verdict]. split; [done|]. intros ?%Z.leb_le. lia.
  - eexists. split; [reflexivity|]. rewrite Hd, Z.leb_le. split; [lia|done].
  - exfalso. assert (total = 0) by lia. subst. nia.
  - eexists. split; [reflexivity|]. rewrite Hd, Z.leb_le. split; [lia|done].
Qed.

(** ** The composite of a repository run and its mandatory pack *)

(** An attestation that reports the phases and the identity of a composite, as
    the repository evidence does. *)
Record attests_composite (att : dict) (r : RepoPhaseResult) (p : PackPhaseResult)
    (c : CompositePhaseResult) : Prop := {
  at_started : dget att (u "repo_suite_started") = VBool true;
  at_completed : dget att (u "repo_suite_completed") = VBool true;
  at_state : dget att (u "repo_suite_state") = VStr (u "repo_phase_completed");
  at_passed : dget att (u "repo_suite_passed") = VBool (rp_passed r);
  at_tests_passed : dget att (u "repo_suite_tests_passed") = VInt (rp_tests_passed r);
  at_tests_total : dget att (u "repo_suite_tests_total") = VInt (rp_tests_total r);
  at_source : dget att (u "repo_suite_verdict_source") = vopt_str (rp_verdict_source r);
  at_returncode : dget att (u "repo_suite_returncode") = VInt (rp_returncode r);
  at_suite_digest : dget att (u "repo_suite_junit_sha256") = vopt_str (rp_junit_sha256 r);
  at_suite_format : dget att (u "repo_suite_junit_digest_format") = vopt_str (rp_junit_digest_format r);
  at_pack_digest : dget att (u "verifier_pack_junit_sha256") = vopt_str (pp_junit_sha256 p);
  at_pack_format : dget att (u "verifier_pack_junit_digest_format") = vopt_str (pp_junit_digest_format p);
  at_digest : dget att (u "junit_sha256") = vopt_str (cp_junit_sha256 c);
  at_format : dget att (u "junit_digest_format") = vopt_str (cp_junit_digest_format c) }.

(** A completed run identified by the digest of one report or of a report set. *)
Definition identified (e : CompletedRunEvidence) (formats : list str) : Prop :=
  exists h f, ev_junit_sha256 e = Some h /\ hex64_lower h = true /\
              ev_junit_digest_format e = Some f /\ In f formats.

Lemma utf8_ascii s : forallb is_ascii s = true -> utf8 s = Some (ascii_bytes s).
Proof.
  induction s as [|c s IH]; [done|]. cbn [forallb]. intros [Hc Hs]%andb_true_iff.
  cbn [utf8 ascii_bytes map]. rewrite (IH Hs). unfold utf8_char, is_ascii in *. apply N.ltb_lt in Hc.
  replace (Z.of_N c <? 128) with true by (symmetry; apply Z.ltb_lt; lia). done.
Qed.

Lemma hex_ascii s : hex64_lower s = true -> forallb is_ascii s = true.
Proof.
  unfold hex64_lower. intros [_ H]%andb_true_iff. rewrite forallb_forall in H |- *.
  intros c Hc%H. unfold is_hex_lower, is_ascii_digit in Hc.
  rewrite orb_true_iff, !andb_true_iff, !N.leb_le in Hc. apply N.ltb_lt. lia.
Qed.

(** The identity text is ASCII, so its encoding never fails. *)
Lemma composite_identity_encodes f h g :
  In f [JUNIT_XML_DIGEST_FORMAT; JUNIT_REPORT_SET_DIGEST_FORMAT] ->
  hex64_lower h = true -> hex64_lower g = true ->
  sha256_text (composite_identity f h g) = Some (sha256_hex (ascii_bytes (composite_identity f h g))).
Proof.
  intros Hf Hh%hex_ascii Hg%hex_ascii. unfold sha256_text. rewrite utf8_ascii; [done|].
  assert (Hfa : forallb is_ascii f = true) by by destruct Hf as [<-|[<-|[]]].
  unfold composite_identity. rewrite !forallb_app_iff, Hh, Hg, Hfa. reflexivity.
Qed.

(** A structured phase with a clean source: its report ran tests, its exit code
    is 0 or 1, and it passed exactly when the code is 0 and every test passed. *)
Lemma structured_phase e strict j :
  run_coherent e -> ev_junit e = Some j ->
  rp_verdict_source (evaluate_repo_phase e strict) <> None ->
  let r := evaluate_repo_phase e strict in
  rp_verdict_source r = Some (u "junit+exit") /\ 0 < rp_tests_total r /\
  (rp_returncode r = 0 \/ rp_returncode r = 1) /\
  rp_passed r = ((rp_returncode r =? 0) && (rp_tests_passed r =? rp_tests_total r)).
Proof.
  unfold run_coherent, coherent. intros Hc Hj. rewrite Hj in Hc. cbv zeta. unfold evaluate_repo_phase. cbv zeta.
  rewrite Hj. cbn [rp_verdict_source rp_tests_total rp_returncode rp_passed rp_tests_passed].
  unfold clean_verdict_source, rc_zero_or_one.
  destruct (Z.ltb_spec 0 (jc_total j)); [|simpl; by case_if].
  destruct (Z.leb_spec (jc_total j) 0); [lia|]. rewrite andb_false_r. cbv match. cbn [andb].
  destruct ((ev_returncode e =? 0) || (ev_returncode e =? 1)) eqn:Erc; [|done]. intros _.
  assert (Hg : g_tests_passed (grade_repo_run (ev_returncode e) (Some j) (ev_report_expected e)) = jc_passed j /\
               g_tests_total (grade_repo_run (ev_returncode e) (Some j) (ev_report_expected e)) = jc_total j).
  { unfold grade_repo_run. repeat case_if; done. }
  destruct Hg as [-> ->]. split; [done|]. split; [done|]. split; [lia|].
  apply eq_true_iff_eq. rewrite grade_passed_iff. lia.
Qed.

Lemma pack_verdict_counts e :
  run_coherent e -> pp_outcome (evaluate_pack_phase e) = None -> 0 < pp_tests_total (evaluate_pack_phase e).
Proof.
  intros Hc. pose proof (grade_counts (ev_returncode e) (ev_junit e) (ev_report_expected e) Hc) as Hg.
  unfold evaluate_pack_phase. cbv zeta.
  destruct (Z.eqb_spec (g_tests_total (grade_repo_run (ev_returncode e) (ev_junit e) (ev_report_expected e))) 0);
    [by destruct (ev_junit e)|].
  destruct (clean_verdict_source _ _ _); cbn [pp_outcome pp_tests_total]; [lia|done].
Qed.

Lemma pack_identity pe :
  pp_junit_sha256 (evaluate_pack_phase pe) = ev_junit_sha256 pe /\
  pp_junit_digest_format (evaluate_pack_phase pe) = ev_junit_digest_format pe.
Proof.
  unfold evaluate_pack_phase. cbv zeta. destruct (g_tests_total _ =? 0); [by destruct (ev_junit pe)|].
  by destruct (clean_verdict_source _ _ _).
Qed.

(** The digest of a composite of identified phases. *)
Lemma identified_composite_digest r p f h g :
  rp_junit_digest_format r = Some f -> rp_junit_sha256 r = Some h -> pp_junit_sha256 p = Some g ->
  In f [JUNIT_XML_DIGEST_FORMAT; JUNIT_REPORT_SET_DIGEST_FORMAT] ->
  hex64_lower h = true -> hex64_lower g = true ->
  composite_digest r p =
  Some (Some (sha256_hex (ascii_bytes (composite_identity f h g))), Some JUNIT_COMPOSITE_DIGEST_FORMAT).
Proof.
  intros Hf Hh Hg Hin Hhx Hgx. unfold composite_digest. rewrite Hf, Hh, Hg.
  rewrite (proj2 (str_in_In _ _) Hin).
  pose proof (composite_identity_encodes f h g Hin Hhx Hgx) as He.
  unfold composite_identity in He. by rewrite He.
Qed.

(** the verifier accepts the composites the producer composes.  For a
    structured repository run with a clean source and a pack run with a verdict,
    both identified by lowercase SHA-256 digests, an attestation that reports
    the phases and the composite identity satisfies the verifier's composite
    contract: the recomputed digest, the pass evidence and the count
    subtraction all agree. *)
Theorem composite_accepted `{UnicodeDB} re pe strict c att j :
  let r := evaluate_repo_phase re strict in
  let p := evaluate_pack_phase pe in
  run_coherent re -> run_coherent pe ->
  ev_junit re = Some j -> rp_verdict_source r <> None -> pp_outcome p = None ->
  identified re [JUNIT_XML_DIGEST_FORMAT; JUNIT_REPORT_SET_DIGEST_FORMAT] ->
  identified pe [JUNIT_XML_DIGEST_FORMAT] ->
  compose_repo_and_pack r p = Some c -> attests_composite att r p c ->
  repo_composite_valid att (Some (cp_tests_passed c, cp_tests_total c, pp_tests_passed p, pp_tests_total p))
  = Ok true.
Proof.
  intros r p Hre Hpe Hj Hs Ho (h & f & Hh & Hhx & Hf & Hfin) (g & f' & Hg & Hgx & Hf' & Hf'in) Hc Ha.
  destruct Hf'in as [<-|[]].
  destruct (structured_phase re strict j Hre Hj Hs) as (Es & Ht & Hrc & Hp). fold r in Es, Ht, Hrc, Hp.
  pose proof (pack_verdict_counts pe Hpe Ho) as Hpt. fold p in Hpt.
  assert (Ef : str_in f [JUNIT_XML_DIGEST_FORMAT; JUNIT_REPORT_SET_DIGEST_FORMAT] = true) by by apply str_in_In.
  destruct (pack_identity pe) as [Hps2 Hps]. fold p in Hps2, Hps. rewrite Hg in Hps2. rewrite Hf' in Hps.
  pose proof (identified_composite_digest r p f h g Hf Hh Hps2 Hfin Hhx Hgx) as Hd.
  unfold compose_repo_and_pack in Hc. rewrite Hd in Hc. apply (inj Some) in Hc. subst c.
  destruct Ha as [A1 A2 A3 A4 A5 A6 A7 A8 A9 A10 A11 A12 A13 A14].
  cbn [cp_junit_sha256 cp_junit_digest_format cp_tests_passed cp_tests_total vopt_str] in *.
  change (rp_junit_sha256 r) with (ev_junit_sha256 re) in A9.
  change (rp_junit_digest_format r) with (ev_junit_digest_format re) in A10.
  rewrite Hh in A9. rewrite Hf in A10. rewrite Hps2 in A11. rewrite Hps in A12. rewrite Es in A7.
  cbn [vopt_str] in *.
  assert (Hdig : composite_digest_valid att = Ok true).
  { unfold composite_digest_valid. cbv zeta. rewrite A14, A9, A10, A11, A12, A13, !py_eq_str. cbn [eq_str].
    rewrite !str_eqb_refl, Hhx, Hgx, sha256_hex_shape. unfold Nested._JUNIT_PHASE_FORMATS.
    by rewrite Ef. }
  unfold repo_composite_valid. cbv zeta. rewrite Hdig. cbn [rbind].
  unfold suite_digest_valid. rewrite A1, A2, A3, A4, A5, A6, A7, A8, A9, A10.
  cbn [is_true_v is_bool v_is_int v_valid_sha256 known_string]. unfold Nested._JUNIT_PHASE_FORMATS.
  rewrite !py_eq_str, !py_eq_int, Hhx, Ef, Hp. cbn [eq_str andb]. rewrite !str_eqb_refl.
  change (u "junit+exit" =s? u "exit") with false. cbn [andb is_true_v str_in existsb v_in].
  change (v_in (VStr "junit+exit") (us ["junit+exit"; "exit"])) with true.
  replace (0 <? rp_tests_total r) with true by (symmetry; by apply Z.ltb_lt).
  replace (0 <? pp_tests_total p) with true by (symmetry; by apply Z.ltb_lt).
  replace ((rp_returncode r =? 0) || (rp_returncode r =? 1)) with true by lia.
  rewrite !Z.add_simpl_r, !Z.eqb_refl. cbn [andb]. by rewrite eqb_reflx.
Qed.

(** ** Concrete agreements *)

Definition sample_floor_policy : dict :=
  dict_of [("require_report_integrity", VStr (u "external_process_isolated"));
           ("require_candidate_isolation", VStr (u "docker"))].
Definition sample_delivered : dict :=
  dict_of [("report_integrity", VStr (u "same_process_candidate_writable"));
           ("candidate_isolation", VStr (u "gvisor"))].

Lemma floors_agree_witness :
  assurance_shortfall sample_delivered (Some (u "external_process_isolated")) (Some (u "docker")) <> Ok None.
Proof.
  intros H.
  apply (proj1 (floors_agree sample_floor_policy sample_delivered (u "external_process_isolated") (u "docker")
                  (u "same_process_candidate_writable") (u "gvisor") eq_refl ltac:(discriminate) eq_refl
                  ltac:(discriminate) ltac:(vm_compute; discriminate) eq_refl eq_refl)) in H.
  vm_compute in H. discriminate H.
Defined.

Lemma coverage_threshold_agree_witness :
  exists d', @apply_diff_coverage_gate ascii_unicode passing half_covered (Some (NFloat (dec 501 1))) = Ok d'
             /\ gd_verdict d' <> PASS.
Proof.
  destruct (@coverage_threshold_agree ascii_unicode passing half_covered (VFloat (dec 501 1)) (NFloat (dec 501 1))
              1 2 (VFloat (dec 50 0)) eq_refl
              ltac:(intros x H; injection H as H; subst x; vm_compute; reflexivity)
              eq_refl eq_refl eq_refl ltac:(lia) eq_refl ltac:(lia) eq_refl) as (d' & H1 & H2).
  exists d'. split; [exact H1|]. intros Hp%H2. vm_compute in Hp. discriminate Hp.
Defined.

Definition digest_run (rc : Z) : CompletedRunEvidence :=
  {| ev_returncode := rc; ev_junit := Some three_passed; ev_report_expected := true;
     ev_stdout := []; ev_stderr := []; ev_junit_text := u "<report>";
     ev_junit_sha256 := Some (sha256_hex [1]); ev_junit_digest_format := Some JUNIT_XML_DIGEST_FORMAT |}.

Definition composite_attestation (r : RepoPhaseResult) (p : PackPhaseResult) (c : CompositePhaseResult) : dict :=
  dict_of [("repo_suite_started", VBool true); ("repo_suite_completed", VBool true);
           ("repo_suite_state", VStr (u "repo_phase_completed")); ("repo_suite_passed", VBool (rp_passed r));
           ("repo_suite_tests_passed", VInt (rp_tests_passed r)); ("repo_suite_tests_total", VInt (rp_tests_total r));
           ("repo_suite_verdict_source", vopt_str (rp_verdict_source r));
           ("repo_suite_returncode", VInt (rp_returncode r));
           ("repo_suite_junit_sha256", vopt_str (rp_junit_sha256 r));
           ("repo_suite_junit_digest_format", vopt_str (rp_junit_digest_format r));
           ("verifier_pack_junit_sha256", vopt_str (pp_junit_sha256 p));
           ("verifier_pack_junit_digest_format", vopt_str (pp_junit_digest_format p));
           ("junit_sha256", vopt_str (cp_junit_sha256 c));
           ("junit_digest_format", vopt_str (cp_junit_digest_format c))].

Lemma composite_accepted_witness :
  exists c, compose_repo_and_pack (evaluate_repo_phase (digest_run 0) true) (evaluate_pack_phase (digest_run 0)) = Some c
    /\ @repo_composite_valid ascii_unicode
         (composite_attestation (evaluate_repo_phase (digest_run 0) true) (evaluate_pack_phase (digest_run 0)) c)
         (Some (6, 6, 3, 3)) = Ok true.
Proof.
  destruct (compose_repo_and_pack (evaluate_repo_phase (digest_run 0) true) (evaluate_pack_phase (digest_run 0)))
    as [c|] eqn:E; [|vm_compute in E; discriminate E].
  assert (Hc : cp_tests_passed c = 6 /\ cp_tests_total c = 6)
    by (vm_compute in E; injection E as <-; split; reflexivity).
  exists c. split; [reflexivity|]. destruct Hc as [Hc1 Hc2].
  assert (Hid : forall l, In JUNIT_XML_DIGEST_FORMAT l -> identified (digest_run 0) l).
  { intros l Hl. exists (sha256_hex [1]), JUNIT_XML_DIGEST_FORMAT.
    split; [reflexivity|]. split; [vm_compute; reflexivity|]. split; [reflexivity|exact Hl]. }
  assert (Hco : run_coherent (digest_run 0)) by (unfold run_coherent, coherent; simpl; lia).
  pose proof (@composite_accepted ascii_unicode (digest_run 0) (digest_run 0) true c
    (composite_attestation (evaluate_repo_phase (digest_run 0) true) (evaluate_pack_phase (digest_run 0)) c)
    three_passed Hco Hco eq_refl ltac:(vm_compute; discriminate) eq_refl
    (Hid [JUNIT_XML_DIGEST_FORMAT; JUNIT_REPORT_SET_DIGEST_FORMAT] ltac:(left; reflexivity))
    (Hid [JUNIT_XML_DIGEST_FORMAT] ltac:(left; reflexivity)) E) as H.
  rewrite Hc1, Hc2 in H. apply H. constructor; reflexivity.
Defined.

(** * Agreement on assurance profiles *)

(** ** The shape of a payload *)

(** A typed pack value whose words are those of the wire contract. *)
Definition pack_ok (parts : pack_parts) : Prop :=
  match parts with
  | NoPack => True
  | TypedPack p =>
      va_configured p = true /\
      str_in (va_integrity p) Nested._PACK_INTEGRITIES = true /\
      str_in (va_execution_state p) Nested.EXECUTION_STATES = true /\
      str_in (va_secrecy p) Nested._PACK_SECRECY = true /\
      match va_snapshot_sha256 p with Some s => hex64_lower s = true | None => True end
  | LegacyPack _ => False
  end.

(** The words of a profile are those of the wire contract. *)
Record profile_ok (p : AssuranceProfile) : Prop := {
  ok_state : str_in (ap_execution_state p) Nested.EXECUTION_STATES = true;
  ok_phase : ap_execution_phase p <> [];
  ok_harness : ap_harness_integrity p = u "pre_gate_enforced";
  ok_report : str_in (ap_report_integrity p) Nested._REPORT_INTEGRITIES = true;
  ok_candidate : str_in (ap_candidate_isolation p) Nested._ISOLATIONS = true;
  ok_suite : str_in (ap_suite_isolation p) Nested._ISOLATIONS = true;
  ok_setup : match ap_setup_isolation p with
             | Some s => str_in s Nested._SETUP_ISOLATIONS = true | None => True end;
  ok_overall : str_in (ap_overall_profile p) Nested._OVERALL_PROFILES = true;
  ok_repo_suite : ap_repo_native_suite_present p = true ->
                  match ap_repo_native_suite p with
                  | Some s => str_in s Nested._REPO_SUITE_STATES = true | None => True end }.

(** The three error lists of the nested validation are empty. *)
Definition well_shaped (a : dict) : Prop :=
  missing_keys V1_11.REQUIRED_ASSURANCE a = [] /\
  Nested._assurance_type_errors a = [] /\ Nested._assurance_shape_errors a = [].

Lemma err_false s : err false s = [].
Proof. done. Qed.

Lemma pack_shape parts p :
  pack_ok parts -> pack_value parts = VDict p -> Nested._pack_shape_errors p = [].
Proof.
  destruct parts as [|v|]; [done| |done]. intros (Hc & Hi & He & Hs & Hh) Hp.
  injection Hp as <-. destruct v as [c pr i iv es se sh]. simpl in *. subst c.
  unfold Nested._pack_shape_errors. cbv zeta.
  change (missing_keys Nested._PACK_ASSURANCE_KEYS (VerifierPackAssurance.to_payload _)) with (@nil str).
  change (dget (VerifierPackAssurance.to_payload _) (u "integrity")) with (VStr i).
  change (dget (VerifierPackAssurance.to_payload _) (u "execution_state")) with (VStr es).
  change (dget (VerifierPackAssurance.to_payload _) (u "secrecy")) with (VStr se).
  change (dget (VerifierPackAssurance.to_payload _) (u "configured")) with (VBool true).
  change (dget (VerifierPackAssurance.to_payload _) (u "present")) with (vopt_bool pr).
  change (dget (VerifierPackAssurance.to_payload _) (u "identity_verified")) with (vopt_bool iv).
  change (dget (VerifierPackAssurance.to_payload _) (u "snapshot_sha256")) with (vopt_str sh).
  cbn [known_string is_true_v negb]. rewrite Hi, He, Hs.
  destruct pr as [[]|], iv as [[]|], sh as [h|]; simpl; rewrite ?Hh; reflexivity.
Qed.

Lemma not_legacy profile parts :
  pack_ok parts -> _profile_payload profile parts = AssuranceProfile.to_payload profile.
Proof. by destruct parts. Qed.

Lemma profile_shape p parts :
  ap_verifier_pack p = typed_pack parts -> pack_ok parts -> profile_ok p ->
  well_shaped (_profile_payload p parts).
Proof.
  intros Hv Hpk [H1 H2 H3 H4 H5 H6 H7 H8 H9]. split; [|split].
  - rewrite not_legacy by done. unfold AssuranceProfile.to_payload.
    destruct (ap_repo_native_suite_present p); reflexivity.
  - unfold Nested._assurance_type_errors. cbv zeta. rewrite profile_get_pack by done.
    rewrite not_legacy, <- (not_legacy p parts) by done. rewrite get_setup_isolation.
    replace (_field_type_errors _ _ _ _) with (@nil msg)
      by (rewrite not_legacy by done; unfold AssuranceProfile.to_payload;
          destruct (ap_repo_native_suite_present p); reflexivity).
    destruct (ap_setup_isolation p); simpl; rewrite andb_false_r; destruct parts; done.
  - unfold Nested._assurance_shape_errors, Nested._assurance_nested_shape_errors. cbv zeta.
    unfold us. cbn [map flat_map].
    rewrite get_execution_state, get_execution_phase, get_harness_integrity, get_report_integrity,
      get_candidate_isolation, get_suite_isolation, get_setup_isolation, get_overall_profile,
      get_repo_native_suite, profile_get_pack by done.
    cbn [known_string]. rewrite H1, H3, H4, H5, H6, H8, py_eq_str. cbn [eq_str]. rewrite str_eqb_refl.
    destruct (ap_execution_phase p) as [|c ph]; [done|]. cbn [is_nonempty_str negb]. rewrite !err_false. cbn [app].
    replace (match pack_value parts with VDict pack => Nested._pack_shape_errors pack | _ => [] end)
      with (@nil msg) by (destruct (pack_value parts) eqn:Ep; try done; symmetry; by eapply pack_shape).
    destruct (ap_setup_isolation p) as [s|]; cbn [vopt_str is_none known_string]; rewrite ?H7; cbn [negb andb err app];
      (destruct (ap_repo_native_suite_present p); [specialize (H9 eq_refl)|done];
       destruct (ap_repo_native_suite p); cbn [vopt_str is_none known_string]; rewrite ?H9; done).
Qed.

(** ** Pack facts *)

(** Evidence of the runner: presence is a flag or unknown, and the snapshot is
    identified by a digest or not at all. *)
Definition typed_evidence (evidence : option dict) : Prop :=
  match evidence with
  | None => True
  | Some ev =>
      (dget ev (u "present") = VNone \/ exists b, dget ev (u "present") = VBool b) /\
      (dget ev (u "snapshot_sha256") = VNone \/
       exists s, dget ev (u "snapshot_sha256") = VStr s /\ hex64_lower s = true)
  end.

Lemma pack_integrity_known present outcome accepted completed isolation blackbox :
  str_in (fst (pack_integrity present outcome accepted completed isolation blackbox))
    Nested._PACK_INTEGRITIES = true.
Proof. unfold pack_integrity. cbv zeta. repeat case_if; reflexivity. Qed.

Lemma pack_secrecy_known started blackbox unobserved isolation :
  str_in (pack_secrecy started blackbox unobserved isolation) Nested._PACK_SECRECY = true.
Proof. unfold pack_secrecy. repeat case_if; reflexivity. Qed.

Lemma state_known s : str_in (state_wire s) Nested.EXECUTION_STATES = true.
Proof. destruct s; reflexivity. Qed.

Lemma pack_parts_ok pack isolation blackbox evidence :
  typed_evidence evidence -> pack_ok (_pack_assurance_parts pack isolation blackbox evidence).
Proof.
  intros He. unfold _pack_assurance_parts. destruct (negb (given pack)); [done|]. cbv zeta.
  set (ev := match evidence with Some d => d | None => [] end).
  assert (Hev : (dget ev (u "present") = VNone \/ exists b, dget ev (u "present") = VBool b) /\
                (dget ev (u "snapshot_sha256") = VNone \/
                 exists s, dget ev (u "snapshot_sha256") = VStr s /\ hex64_lower s = true)).
  { unfold ev. destruct evidence; [done|]. by split; left. }
  destruct Hev as [Hp Hs].
  match goal with |- context [pack_integrity ?a ?b ?c ?d ?e ?f] =>
    pose proof (pack_integrity_known a b c d e f) as Hi; destruct (pack_integrity a b c d e f) as [i iv] end.
  simpl in Hi.
  destruct Hp as [->|[b ->]]; (destruct Hs as [->|(s & -> & Hx)]);
    (split; [reflexivity|]; split; [exact Hi|]; split; [apply state_known|];
     split; [apply pack_secrecy_known|]; cbn [va_snapshot_sha256]; done).
Qed.

(** ** The profiles *)

Definition known_isolation (s : str) : bool := str_in s (us ["subprocess"; "docker"; "gvisor"]).
Definition known_setup (s : option str) : bool :=
  match s with Some s => str_in s Nested._SETUP_ISOLATIONS | None => true end.

(** The lifecycle of a runtime evaluation: tests were started, or not. *)
Definition lifecycle (state : execution_state) (started : bool) : bool :=
  match state, started with
  | EXECUTION_NOT_STARTED, false | EXECUTION_STARTED_INCOMPLETE, _ | EXECUTION_COMPLETED, true => true
  | _, _ => false
  end.

Definition judged_record (record : dict) (state : execution_state) (started : bool) : Prop :=
  dget record (u "execution_state") = VStr (state_wire state) /\
  dget record (u "test_command_ran") = VBool started.

(** The verifier's check passes. *)
Definition semantics_accepted (record a : dict) (policy : option dict) : Prop :=
  _check_assurance_semantics record (Some a) policy = c_pass "assurance.lifecycle_profile".

Lemma known_isolation_nested s : known_isolation s = true -> str_in s Nested._ISOLATIONS = true.
Proof. unfold known_isolation, Nested._ISOLATIONS. rewrite !str_in_In. simpl. naive_solver. Qed.

Lemma preflight_shape pack state phase setup continuity evidence :
  phase <> [] -> known_setup setup = true -> typed_evidence evidence ->
  well_shaped (preflight_assurance_profile pack (state_wire state) phase setup continuity evidence).
Proof.
  intros Hph Hset He. unfold preflight_assurance_profile. cbv zeta.
  apply profile_shape; [reflexivity|by apply pack_parts_ok|]. constructor; simpl; try done.
  - apply state_known.
  - by destruct setup.
  - case_if; reflexivity.
Qed.

Lemma preflight_semantics record policy pack state phase setup continuity evidence :
  judged_record record state false -> lifecycle state false = true ->
  semantics_accepted record
    (preflight_assurance_profile pack (state_wire state) phase setup continuity evidence) policy.
Proof.
  intros [Hs Hr] Hl. unfold semantics_accepted, _check_assurance_semantics. cbv zeta.
  rewrite Hs, Hr. unfold preflight_assurance_profile. cbv zeta.
  rewrite get_harness_integrity, get_overall_profile, get_report_integrity, get_candidate_isolation,
    get_suite_isolation.
  destruct state; try done; reflexivity.
Qed.

(** A statically gated record carries an accepted profile: the shape of its
    assurance has no error, and the verifier's lifecycle semantics hold. *)
Theorem static_profile_accepted record policy pack :
  judged_record record EXECUTION_STATIC_GATE false ->
  well_shaped (static_assurance_profile pack) /\
  semantics_accepted record (static_assurance_profile pack) policy.
Proof.
  intros [Hs Hr]. split.
  - unfold static_assurance_profile. destruct (given pack); split_and!; vm_compute; reflexivity.
  - unfold semantics_accepted, _check_assurance_semantics. cbv zeta. rewrite Hs.
    destruct pack as [[]|]; vm_compute; reflexivity.
Qed.

(** The evidence of a completed helper call is typed. *)
Lemma evidence_default_typed evidence pack completed :
  typed_evidence evidence ->
  typed_evidence
    match evidence with
    | None => if given pack
              then Some (dict_of [("present", VBool true); ("snapshot_accepted", VBool true);
                                  ("started", VBool true); ("completed", VBool completed)])
              else None
    | Some _ => evidence
    end.
Proof.
  destruct evidence; [done|]. destruct (given pack); [|done]. intros _. split; [right; by exists true|by left].
Qed.

(** every profile of the repository judge is accepted.  For a lifecycle that
    started tests or not, a supported isolation and setup boundary, and typed
    pack evidence, the profile the producer delivers has the shape the verifier
    requires and satisfies its lifecycle semantics under a repository policy. *)
Theorem repo_profile_accepted record policy isolation pack setup continuity state phase started evidence :
  judged_record record state started -> lifecycle state started = true ->
  dget policy (u "mode") = VStr (u "repo") ->
  known_isolation isolation = true -> known_setup setup = true -> phase <> [] -> typed_evidence evidence ->
  let a := assurance_profile isolation pack false false false None None setup continuity
             (state_wire state) phase started evidence in
  well_shaped a /\ semantics_accepted record a (Some policy).
Proof.
  intros Hrec Hl Hm Hi Hset Hph He. cbv zeta. unfold assurance_profile. destruct started; cbv zeta.
  2:{ rewrite orb_true_r. split; [by apply preflight_shape|by apply preflight_semantics]. }
  pose proof (evidence_default_typed evidence pack (state_wire state =s? state_wire EXECUTION_COMPLETED) He) as He'.
  pose proof (pack_parts_ok pack isolation false _ He') as Hpk.
  replace ((state_wire state =s? state_wire EXECUTION_NOT_STARTED) || negb true) with false
    by (destruct state; done). cbv match. split.
  - apply profile_shape; [reflexivity|exact Hpk|]. constructor; cbn -[str_in us]; try done.
    + apply state_known.
    + case_if; [done|by apply known_isolation_nested].
    + by apply known_isolation_nested.
    + by destruct setup.
    + repeat case_if; reflexivity.
  - destruct Hrec as [Hs Hr]. unfold semantics_accepted, _check_assurance_semantics. cbv zeta.
    rewrite Hs, Hr, Hm, get_harness_integrity. unfold started_profile_valid. cbv zeta.
    rewrite Hm, get_overall_profile, get_report_integrity, get_setup_isolation, get_suite_isolation.
    cbn [ap_overall_profile ap_report_integrity ap_setup_isolation ap_suite_isolation].
    destruct state; try done.
    unfold known_isolation in Hi. apply str_in_In in Hi. unfold opted_in, container.
    rewrite (py_eq_str (vopt_str setup)).
    destruct setup as [st|]; [|destruct Hi as [<-|[<-|[<-|[]]]]; reflexivity].
    cbn [vopt_str eq_str]. fold HOST_OPT_IN.
    destruct (st =s? HOST_OPT_IN); destruct Hi as [<-|[<-|[<-|[]]]]; reflexivity.
Qed.

(** ** Concrete records *)

Definition sample_judged (state : execution_state) (started : bool) : dict :=
  dict_of [("execution_state", VStr (state_wire state)); ("test_command_ran", VBool started)].

Lemma static_profile_accepted_witness :
  well_shaped (static_assurance_profile (Some (u "packs/p"))) /\
  semantics_accepted (sample_judged EXECUTION_STATIC_GATE false)
    (static_assurance_profile (Some (u "packs/p"))) None.
Proof.
  apply (static_profile_accepted (sample_judged EXECUTION_STATIC_GATE false) None (Some (u "packs/p"))).
  split; reflexivity.
Defined.

Definition sample_pack_evidence : dict :=
  dict_of [("present", VBool true); ("snapshot_sha256", VNone); ("started", VBool true);
           ("completed", VBool true); ("outcome", VNone)].

Lemma repo_profile_accepted_witness :
  semantics_accepted (sample_judged EXECUTION_COMPLETED true)
    (assurance_profile (u "docker") (Some (u "packs/p")) false false false None None
       (Some HOST_OPT_IN) None (state_wire EXECUTION_COMPLETED) (u "complete") true (Some sample_pack_evidence))
    (Some (dict_of [("mode", VStr (u "repo"))])).
Proof.
  refine (proj2 (repo_profile_accepted _ _ (u "docker") (Some (u "packs/p")) (Some HOST_OPT_IN) None
            EXECUTION_COMPLETED (u "complete") true (Some sample_pack_evidence) _ _ _ _ _ _ _)).
  - split; reflexivity.
  - reflexivity.
  - reflexivity.
  - reflexivity.
  - reflexivity.
  - discriminate.
  - split; [right; exists true; reflexivity|left; reflexivity].
Defined.
