(* ===== verification/Finalization.v ===== *)
(** Finalization of a repository verification (application/repo_finalization.py)
    and the attestation payload (application/attestation.py): the frozen sequence
    of coverage, baseline, attestation and assurance after the core decision.

    The services are the injected effects of the source: functions that return a
    value or raise. *)
From S2P Require Export Assurance.
From S2P Require Import PyStr.
Local Open Scope Z_scope.

(** ** Attestation *)

(** The fields copied from the artifacts, in order; [verifier_pack_digest_format]
    is computed between them. *)
Definition ATTESTATION_HEAD_FIELDS : list string :=
  ["junit_sha256"; "junit_digest_format"; "verifier_pack_sha256"; "verifier_pack_manifest";
   "verifier_pack_tests_passed"; "verifier_pack_tests_total"; "verifier_pack_junit_sha256";
   "verifier_pack_junit_digest_format"].
Definition ATTESTATION_TAIL_FIELDS : list string :=
  ["isolation_evidence"; "setup_isolation_evidence"; "repo_suite_isolation_evidence";
   "verifier_pack_isolation_evidence"; "blackbox_pack_isolation_evidence"; "deleted_paths_applied";
   "repo_suite_junit_sha256"; "repo_suite_junit_digest_format"; "repo_suite_tests_passed";
   "repo_suite_tests_total"; "repo_suite_verdict_source"; "repo_suite_returncode"; "repo_suite_passed";
   "repo_suite_started"; "repo_suite_completed"; "repo_suite_state"; "repo_suite_image_digest";
   "base_sha"; "head_sha"; "base_tree_sha"; "head_tree_sha"; "policy_id"; "policy_version";
   "execution_state"; "execution_phase"; "test_command_started"; "delivered_isolation";
   "effective_candidate_isolation"; "candidate_invocations"; "candidate_launcher_invocation_observed";
   "verifier_pack_present"; "verifier_pack_started"; "verifier_pack_completed"; "setup_isolation";
   "runtime_tree_sha256"; "runtime_tree_digest_format"; "runtime_tree_entries"; "runtime_tree_bytes";
   "runtime_identity_elapsed_ms"; "runtime_continuity"].

Definition str_list (l : list str) : value := VList (map VStr l).

Definition build_attestation (candidate : str) (safe_deleted : list str) (test_command : option (list str))
    (effective_policy artifacts : dict) (mode : str) (now guard_version : str)
    (candidate_digest : str -> str) (policy_digest : dict -> str) (pack_digest_format : str) : dict :=
  let copy k := (k, dget artifacts (u k)) in
  dict_of
    ([("created_utc", VStr now);
      ("guard_version", VStr guard_version);
      ("mode", VStr mode);
      ("candidate_sha256", VStr (candidate_digest candidate));
      ("deleted_paths", str_list safe_deleted);
      ("test_command", match test_command with
                       | Some (c :: l) => str_list (c :: l)
                       | _ => VStr (u "default:python -m pytest")
                       end);
      ("effective_policy", VDict effective_policy);
      ("policy_sha256", VStr (policy_digest effective_policy))]
     ++ map copy ATTESTATION_HEAD_FIELDS
     ++ [("verifier_pack_digest_format",
          if truthy (dget artifacts (u "verifier_pack_sha256")) then VStr pack_digest_format else VNone)]
     ++ map copy ATTESTATION_TAIL_FIELDS).

(** ** Inputs, services and outcome *)

Record RepoFinalizationInput := {
  fi_pipeline : VerificationPipeline;
  fi_verification_evidence : option VerificationEvidence;
  fi_raw_artifact : dict;
  fi_run_suite : bool;
  fi_repository_path : str;
  fi_candidate_text : str;
  fi_safe_deleted_paths : list str;
  fi_test_command : option (list str);
  fi_setup_command : option (list str);
  fi_setup_output_globs : list str;
  fi_file_blocks : option (list (str * str));
  fi_timeout : Z;
  fi_mem_limit_mb : Z;
  fi_strict_harness : bool;
  fi_isolation : str;
  fi_judgment_mode : str;
  fi_verifier_pack_path : option str;
  fi_collect_diff_coverage : bool;
  fi_min_diff_coverage : option num;
  fi_collect_baseline_evidence : bool;
  fi_require_demonstrated_fix : bool;
  fi_require_report_integrity : option str;
  fi_require_candidate_isolation : option str;
  fi_effective_policy : dict;
  fi_base_sha : option str;
  fi_head_sha : option str;
  fi_base_tree_sha : option str;
  fi_head_tree_sha : option str;
  fi_policy_id : option str;
  fi_policy_version : option str;
  fi_harness_inputs : list str
}.

Record RepoFinalizationServices := {
  fs_coverage_collector : RepoFinalizationInput -> bool -> result gate_exn dict;
  fs_baseline_runner : RepoFinalizationInput -> result gate_exn dict;
  fs_attestation_builder :
    str -> list str -> option (list str) -> dict -> dict -> str -> result gate_exn dict;
  fs_runtime_assurance_builder :
    str -> option str -> option str -> option str -> str -> str -> bool -> option dict -> result gate_exn dict;
  fs_static_assurance_builder : option str -> result gate_exn dict;
  fs_assurance_shortfall : shortfall_evaluator_t;
  fs_attestation_evidence_projector : VerificationEvidence -> list (str * value);
  fs_pack_directory_predicate : str -> bool
}.

Record RepoFinalizationOutcome := {
  fo_decision : GuardDecision;
  fo_execution_state : str;
  fo_execution_phase : str;
  fo_test_command_started : bool;
  fo_effective_candidate_isolation : str;
  fo_diff_coverage : option dict;
  fo_baseline : option dict;
  fo_attestation : dict;
  fo_assurance : dict
}.

(** ** The stages *)

Section Finalization.
Context `{UnicodeDB}.
Variables (request : RepoFinalizationInput) (services : RepoFinalizationServices).

Definition subprocess_judge : bool := fi_isolation request =s? u "subprocess".

(** The facts of the candidate's suite before any gate: was it judged, and did
    it pass.  The repository phase is preferred when it completed. *)
Definition candidate_suite_facts : bool * bool :=
  let verdict := gd_verdict (decision (fi_pipeline request)) in
  let core_verdict_completed := verdict_eqb verdict PASS || verdict_eqb verdict FAIL in
  let core_verdict_passed := verdict_eqb verdict PASS in
  let suite := ve_repo_suite <$> fi_verification_evidence request in
  let completed := match suite with
                   | Some s => opt_true (rs_started s) && opt_true (rs_completed s)
                               && match rs_passed s with Some _ => true | None => false end
                   | None => false
                   end in
  (completed || core_verdict_completed,
   if completed then opt_true (suite ≫= rs_passed) else core_verdict_passed).

Definition core_completed : bool :=
  let verdict := gd_verdict (decision (fi_pipeline request)) in
  verdict_eqb verdict PASS || verdict_eqb verdict FAIL.

(** The coverage run is asked for; a floor on a passing verdict demands a passing suite. *)
Definition coverage_asked : bool := fi_collect_diff_coverage request && subprocess_judge && core_completed.
Definition require_passing_suite : bool :=
  verdict_eqb (gd_verdict (decision (fi_pipeline request))) PASS
  && match fi_min_diff_coverage request with Some _ => true | None => false end.

(** Changed-line coverage and its gate. *)
Definition coverage_stage (p : VerificationPipeline) : result gate_exn (VerificationPipeline * option dict) :=
  if fi_collect_diff_coverage request then
    if negb subprocess_judge then
      Ok (p, Some (dict_of
        [("measured", VBool false);
         ("note", VStr (u "changed-line coverage runs under the subprocess judge only; isolation "
                        ++ py_repr (fi_isolation request) ++ u " did not measure it"))]))
    else if core_completed then
      let* coverage := fs_coverage_collector services request require_passing_suite in
      let* p := apply_diff_coverage p coverage (fi_min_diff_coverage request) in
      Ok (p, Some coverage)
    else Ok (p, None)
  else Ok (p, None).

Definition unsupported_baseline : dict := dict_of
  [("verdict", VNone); ("tests_passed", VNone); ("tests_total", VNone);
   ("repair_effect", VStr (u "unmeasured")); ("scope", VStr (u "unsupported_mode"));
   ("note", VStr (u "baseline differential evidence runs under the subprocess judge only; isolation "
                  ++ py_repr (fi_isolation request) ++ u " did not measure it"))].

(** The effect a baseline run is recorded with. *)
Definition repair_effect (baseline : dict) (candidate_suite_passed : bool) : str :=
  if py_eq (dget baseline (u "verdict")) (VStr (u "NO_CLEAN_VERDICT")) then u "unmeasured"
  else if py_eq (dget baseline (u "verdict")) (VStr (u "FAIL")) && candidate_suite_passed then u "demonstrated"
  else u "not_demonstrated".

Definition BASELINE_NOTE : str :=
  u "counterfactual suite-transition evidence, not a causal proof: the same judge and environment ran the REPO suite on the pristine base and on the candidate; 'demonstrated' means the base failed and the candidate passed. A verifier pack (if any) is exercised only on the candidate run — see scope.".

(** The baseline run, recorded in the dictionary it returned, and its gate. *)
(** The run on the base is asked for, by the evidence option or by the gate. *)
Definition baseline_asked : bool :=
  (fi_collect_baseline_evidence request || fi_require_demonstrated_fix request)
  && fst candidate_suite_facts && subprocess_judge.

Definition baseline_stage (p : VerificationPipeline) : result gate_exn (VerificationPipeline * option dict) :=
  let suite_passed := snd candidate_suite_facts in
  let unsupported := if fi_collect_baseline_evidence request && negb subprocess_judge
                     then Some unsupported_baseline else None in
  if baseline_asked then
    let* run := fs_baseline_runner services request in
    let recorded :=
      dset (u "note") (VStr (decode_literal BASELINE_NOTE))
        (dset (u "scope") (VStr (u "repo_suite_only"))
           (dset (u "repair_effect") (VStr (repair_effect run suite_passed)) run)) in
    let* p := apply_demonstrated_fix p recorded (fi_require_demonstrated_fix request) in
    Ok (p, Some recorded)
  else Ok (p, unsupported).

(** State, phase, started and delivered isolation of the execution. *)
Definition execution_facts : result gate_exn (str * str * bool * str) :=
  if fi_run_suite request then
    match fi_verification_evidence request with
    | Some e => let x := ve_execution e in
        Ok (ex_execution_state x, ex_execution_phase x, ex_test_command_started x, ex_delivered_isolation x)
    | None => Err AssertionError
    end
  else Ok (state_wire EXECUTION_STATIC_GATE, u "pre_gate", false, u "not_run").

Definition setup_isolation_of : option str := fi_verification_evidence request ≫= ve_setup_isolation.

Definition effective_isolation_of (delivered : str) : str :=
  if opted_in setup_isolation_of then u "subprocess" else delivered.

Definition pack_evidence_of : option dict :=
  if negb (given (fi_verifier_pack_path request)) then None
  else match fi_verification_evidence request with
  | None => Some (dict_of [("present", VNone); ("snapshot_sha256", VNone); ("started", VBool false);
                           ("completed", VBool false); ("outcome", VNone)])
  | Some e =>
      let pack := ve_verifier_pack e in
      let present :=
        match vp_present pack with
        | Some b => Some b
        | None => if given (vp_sha256 pack) then Some true
                  else if outcome_is (Some e) "pack_invalid"
                  then Some (fs_pack_directory_predicate services (str_or (fi_verifier_pack_path request) []))
                  else None
        end in
      Some (dict_of [("present", vopt_bool present); ("snapshot_sha256", vopt_str (vp_sha256 pack));
                     ("started", VBool (ex_verifier_pack_started (ve_execution e)));
                     ("completed", VBool (ex_verifier_pack_completed (ve_execution e)));
                     ("outcome", vopt_str (ve_outcome e))])
  end.

Definition attestation_artifacts (state phase : str) (started : bool) (delivered : str) : dict :=
  let base := match fi_verification_evidence request with
              | Some e => dupdate (fi_raw_artifact request) (fs_attestation_evidence_projector services e)
              | None => fi_raw_artifact request
              end in
  dupdate base
    [(u "execution_state", VStr state); (u "execution_phase", VStr phase);
     (u "test_command_started", VBool started); (u "delivered_isolation", VStr delivered);
     (u "effective_candidate_isolation", VStr (effective_isolation_of delivered));
     (u "base_sha", vopt_str (fi_base_sha request)); (u "head_sha", vopt_str (fi_head_sha request));
     (u "base_tree_sha", vopt_str (fi_base_tree_sha request));
     (u "head_tree_sha", vopt_str (fi_head_tree_sha request));
     (u "policy_id", vopt_str (fi_policy_id request));
     (u "policy_version", vopt_str (fi_policy_version request))].

Definition finalize_repo_verification : result gate_exn RepoFinalizationOutcome :=
  let* (p1, coverage) := coverage_stage (fi_pipeline request) in
  let* (p2, baseline) := baseline_stage p1 in
  let* (state, phase, started, delivered) := execution_facts in
  let pack := pack_evidence_of in
  let* attestation := fs_attestation_builder services (fi_candidate_text request)
    (fi_safe_deleted_paths request) (fi_test_command request) (fi_effective_policy request)
    (attestation_artifacts state phase started delivered) (fi_judgment_mode request) in
  let* assurance :=
    if fi_run_suite request then
      fs_runtime_assurance_builder services delivered (fi_verifier_pack_path request) setup_isolation_of
        (fi_verification_evidence request ≫= fun e => ri_continuity (ve_runtime e))
        state phase started pack
    else fs_static_assurance_builder services (fi_verifier_pack_path request) in
  let* p3 := apply_assurance p2 assurance state (fi_run_suite request) (fi_require_report_integrity request)
               (fi_require_candidate_isolation request) (fs_assurance_shortfall services) false in
  Ok {| fo_decision := decision p3;
        fo_execution_state := state;
        fo_execution_phase := phase;
        fo_test_command_started := started;
        fo_effective_candidate_isolation := effective_isolation_of delivered;
        fo_diff_coverage := coverage;
        fo_baseline := baseline;
        fo_attestation := attestation;
        fo_assurance := assurance |}.

End Finalization.
