(* ===== verification/FinalizationSound.v ===== *)
(** What finalization guarantees: a final PASS is the initial one with its gates
    met, the recorded baseline effect is the one the verifier recomputes, the
    attestation is complete, and the finalized parts of a record agree with each
    other the way the record verifier demands. *)
From S2P Require Import PyStr Bytes Verdict RecordReport RecordPolicy RecordTypes RecordVerifier.
From S2P Require Import Decision Assurance ProducerAgree Finalization.
Local Open Scope Z_scope.

Section Sound.
Context `{UnicodeDB}.

(** The facts the stages establish of the decision they return. *)
Lemma coverage_stage_ok request services p p' coverage :
  coverage_stage request services p = Ok (p', coverage) ->
  gate_step (decision p) (decision p') /\
  (gd_verdict (decision p') = PASS -> fi_collect_diff_coverage request = true ->
   subprocess_judge request = true -> core_completed request = true ->
   exists c, coverage = Some c /\ (forall f, fi_min_diff_coverage request = Some f -> floor_met c f) /\
     fs_coverage_collector services request (require_passing_suite request) = Ok c).
Proof.
  unfold coverage_stage. destruct (fi_collect_diff_coverage request);
    [|intros [<- <-]%Ok_pair_inj; by split; [left|]].
  destruct (subprocess_judge request); cbn [negb];
    [|intros [<- <-]%Ok_pair_inj; by split; [left|]].
  destruct (core_completed request);
    [|intros [<- <-]%Ok_pair_inj; by split; [left|]].
  intros (c & Hcov & Hr)%rbind_ok. apply rbind_ok in Hr as (q & Hq & [<- <-]%Ok_pair_inj).
  apply rbind_ok in Hq as (d & Hd & <-%Ok_inj). apply coverage_gate_step in Hd as [Hs Hf].
  split; [done|]. intros Hp _ _ _. exists c. split; [done|]. split; [by apply Hf|done].
Qed.

Lemma repair_effect_demonstrated run b :
  repair_effect run b = u "demonstrated" -> dget run (u "verdict") = VStr (u "FAIL") /\ b = true.
Proof.
  unfold repair_effect. rewrite !py_eq_str. destruct (eq_str _ _); [done|].
  destruct (eq_str _ _) eqn:E; [|done]. apply eq_str_eq in E. by destruct b.
Qed.

Lemma baseline_stage_ok request services p p' baseline :
  baseline_stage request services p = Ok (p', baseline) ->
  gate_step (decision p) (decision p') /\
  (forall b, subprocess_judge request = true -> baseline = Some b ->
     exists run, dget b (u "verdict") = dget run (u "verdict") /\
       dget b (u "repair_effect") = VStr (repair_effect run (snd (candidate_suite_facts request)))) /\
  (gd_verdict (decision p') = PASS -> fi_require_demonstrated_fix request = true ->
   subprocess_judge request = true -> fst (candidate_suite_facts request) = true ->
   snd (candidate_suite_facts request) = true /\
   exists b run, baseline = Some b /\ dget b (u "verdict") = VStr (u "FAIL") /\
     fs_baseline_runner services request = Ok run /\ dget run (u "verdict") = VStr (u "FAIL")).
Proof.
  unfold baseline_stage, baseline_asked. destruct (candidate_suite_facts request) as [completed passed_]. cbn [fst snd].
  destruct (_ && subprocess_judge request) eqn:Eg.
  - apply andb_true_iff in Eg as [_ Hsub]. intros (run & Hrun & Hr)%rbind_ok.
    apply rbind_ok in Hr as (q & Hq & [<- <-]%Ok_pair_inj).
    apply rbind_ok in Hq as (d & Hd & <-%Ok_inj). apply fix_gate_step in Hd as [Hs Hf].
    match type of Hf with context [dlookup _ ?b] => set (rec := b) in * end.
    assert (Hv : dget rec (u "verdict") = dget run (u "verdict"))
      by (unfold rec, dget; by rewrite !dlookup_dset_ne by (vm_compute; discriminate)).
    assert (He : dlookup (u "repair_effect") rec = Some (VStr (repair_effect run passed_)))
      by (unfold rec; rewrite !dlookup_dset_ne by (vm_compute; discriminate); by rewrite dlookup_dset_eq).
    split; [done|]. split.
    + intros b _ [= <-]. exists run. split; [done|]. unfold dget at 1. by rewrite He.
    + intros Hp Hfix _ _. destruct (Hf Hp Hfix) as (v & Hv' & Hq). rewrite He in Hv'.
      injection Hv' as <-. rewrite py_eq_str in Hq. apply eq_str_eq in Hq. injection Hq as Hq.
      apply repair_effect_demonstrated in Hq as [Hfail ->]. split; [done|]. exists rec, run. by rewrite Hv.
  - intros [<- <-]%Ok_pair_inj. split; [by left|]. split.
    + intros b Hsub. rewrite Hsub. by rewrite andb_false_r.
    + intros _ Hfix Hsub Hc. rewrite Hfix, Hsub, Hc in Eg. by rewrite orb_true_r in Eg.
Qed.

(** Destructuring a finalization. *)
Lemma finalize_ok request services out :
  finalize_repo_verification request services = Ok out ->
  exists p1 p2 state phase started delivered,
    coverage_stage request services (fi_pipeline request) = Ok (p1, fo_diff_coverage out) /\
    baseline_stage request services p1 = Ok (p2, fo_baseline out) /\
    execution_facts request = Ok (state, phase, started, delivered) /\
    fs_attestation_builder services (fi_candidate_text request)
      (fi_safe_deleted_paths request) (fi_test_command request) (fi_effective_policy request)
      (attestation_artifacts request services state phase started delivered) (fi_judgment_mode request)
      = Ok (fo_attestation out) /\
    (if fi_run_suite request then
       fs_runtime_assurance_builder services delivered (fi_verifier_pack_path request)
         (setup_isolation_of request)
         (fi_verification_evidence request ≫= fun e => ri_continuity (ve_runtime e))
         state phase started (pack_evidence_of request services)
     else fs_static_assurance_builder services (fi_verifier_pack_path request)) = Ok (fo_assurance out) /\
    apply_assurance_gate (decision p2) (fo_assurance out) state (fi_run_suite request)
      (fi_require_report_integrity request) (fi_require_candidate_isolation request)
      (fs_assurance_shortfall services) false = Ok (fo_decision out) /\
    fo_execution_state out = state /\ fo_execution_phase out = phase /\
    fo_test_command_started out = started /\
    fo_effective_candidate_isolation out = effective_isolation_of request delivered.
Proof.
  unfold finalize_repo_verification. intros ([p1 c] & H1 & Hr)%rbind_ok.
  apply rbind_ok in Hr as ([p2 b] & H2 & Hr). apply rbind_ok in Hr as ([[[state phase] started] delivered] & H3 & Hr).
  apply rbind_ok in Hr as (att & H4 & Hr). apply rbind_ok in Hr as (a & H5 & Hr).
  apply rbind_ok in Hr as (p3 & H6 & <-%Ok_inj). apply rbind_ok in H6 as (d & H6 & <-%Ok_inj).
  exists p1, p2, state, phase, started, delivered. by repeat split.
Qed.

Lemma pass_completes request :
  gd_verdict (decision (fi_pipeline request)) = PASS ->
  core_completed request = true /\ fst (candidate_suite_facts request) = true.
Proof. unfold core_completed, candidate_suite_facts. intros ->. simpl. by rewrite orb_true_r. Qed.

(** finalization only demotes, and a final PASS is earned.  Whatever the
    injected services return, a finalization that returns leaves a decision that
    is not a PASS untouched and stays inside the reason contract; its PASS is
    the initial decision, and under the subprocess judge a collected coverage
    meets the configured floor exactly and a required fix rests on a baseline
    FAIL with a passing candidate suite; a completed execution has no assurance
    shortfall. *)
Theorem final_pass_sound request services out :
  finalize_repo_verification request services = Ok out ->
  decided (decision (fi_pipeline request)) ->
  let initial := decision (fi_pipeline request) in
  decided (fo_decision out) /\
  (gd_verdict initial <> PASS -> fo_decision out = initial) /\
  (gd_verdict (fo_decision out) = PASS ->
     fo_decision out = initial /\
     (subprocess_judge request = true -> fi_collect_diff_coverage request = true ->
        exists c, fo_diff_coverage out = Some c /\
                  (forall f, fi_min_diff_coverage request = Some f -> floor_met c f) /\
                  fs_coverage_collector services request (require_passing_suite request) = Ok c) /\
     (subprocess_judge request = true -> fi_require_demonstrated_fix request = true ->
        snd (candidate_suite_facts request) = true /\
        exists b run, fo_baseline out = Some b /\ dget b (u "verdict") = VStr (u "FAIL") /\
          fs_baseline_runner services request = Ok run /\ dget run (u "verdict") = VStr (u "FAIL")) /\
     (fi_run_suite request = true -> fo_execution_state out = state_wire EXECUTION_COMPLETED ->
        fs_assurance_shortfall services (fo_assurance out) (fi_require_report_integrity request)
          (fi_require_candidate_isolation request) = Ok None)).
Proof.
  intros (p1 & p2 & st & ph & sta & del & H1 & H2 & _ & _ & _ & H3 & Hst & _)%finalize_ok Hd. cbv zeta.
  apply coverage_stage_ok in H1 as [S1 C1]. apply baseline_stage_ok in H2 as (S2 & _ & C2).
  apply assurance_gate_step in H3 as [S3 C3].
  pose proof (gate_step_trans _ _ _ (gate_step_trans _ _ _ S1 S2) S3) as S.
  split; [by eapply gate_step_decided|]. split; [intros Hn; by destruct S as [|[? _]]|]. intros Hp.
  assert (E3 : fo_decision out = decision p2) by (destruct S3 as [|(_ & ? & _)]; done).
  assert (P2 : gd_verdict (decision p2) = PASS) by congruence.
  assert (E2 : decision p2 = decision p1) by (destruct S2 as [|(_ & ? & _)]; done).
  assert (P1 : gd_verdict (decision p1) = PASS) by congruence.
  assert (E1 : decision p1 = decision (fi_pipeline request)) by (destruct S1 as [|(_ & ? & _)]; done).
  assert (P0 : gd_verdict (decision (fi_pipeline request)) = PASS) by congruence.
  destruct (pass_completes request P0) as [Hc Hf]. split; [congruence|].
  split; [by auto|]. split; [by auto|]. intros Hr Hs. apply C3; [done|congruence|by left].
Qed.

(** the baseline effect the producer records is the one the verifier
    recomputes: under the subprocess judge, a recorded baseline carries the
    [repair_effect] that follows from its verdict and the candidate suite. *)
Theorem baseline_effect_agree request services out b :
  finalize_repo_verification request services = Ok out ->
  subprocess_judge request = true -> fo_baseline out = Some b ->
  dget b (u "repair_effect") =
  VStr (expected_effect (dget b (u "verdict")) (snd (candidate_suite_facts request))).
Proof.
  intros (p1 & p2 & st & ph & sta & del & _ & H2 & _)%finalize_ok Hs Hb.
  apply baseline_stage_ok in H2 as (_ & C & _). destruct (C b Hs Hb) as (run & -> & ->). done.
Qed.

(** ** The finalized record *)

(** The services are the ones of the application layer. *)
Definition application_services (services : RepoFinalizationServices) (now version : str)
    (candidate_digest : str -> str) (policy_digest : dict -> str) (format : str) : Prop :=
  (forall c d t p a m, fs_attestation_builder services c d t p a m =
     Ok (build_attestation c d t p a m now version candidate_digest policy_digest format)) /\
  (forall iso pack setup cont state phase started ev,
     fs_runtime_assurance_builder services iso pack setup cont state phase started ev =
     Ok (assurance_profile iso pack false false false None None setup cont state phase started ev)) /\
  (forall pack, fs_static_assurance_builder services pack = Ok (static_assurance_profile pack)).

(** A record that reports the outcome. *)
Definition reports (record : dict) (out : RepoFinalizationOutcome) : Prop :=
  dget record (u "execution_state") = VStr (fo_execution_state out) /\
  dget record (u "execution_phase") = VStr (fo_execution_phase out) /\
  dget record (u "test_command_ran") = VBool (fo_test_command_started out) /\
  dget record (u "isolation") = VStr (fo_effective_candidate_isolation out).

(** Runner evidence that is coherent about an execution that started no test. *)
Definition coherent_execution (e : VerificationEvidence) : Prop :=
  let x := ve_execution e in
  (ex_test_command_started x = false -> ex_delivered_isolation x = u "not_run") /\
  (ex_execution_state x = state_wire EXECUTION_NOT_STARTED -> ex_test_command_started x = false).

(** Fields of the attestation built from the finalization's artifacts. *)
Lemma attestation_fields candidate deleted cmd policy request services state phase started delivered mode
    now version cd pd format :
  let att := build_attestation candidate deleted cmd policy
               (attestation_artifacts request services state phase started delivered) mode now version cd pd format in
  dget att (u "execution_state") = VStr state /\ dget att (u "execution_phase") = VStr phase /\
  dget att (u "test_command_started") = VBool started /\
  dget att (u "delivered_isolation") = VStr delivered /\
  dget att (u "effective_candidate_isolation") = VStr (effective_isolation_of request delivered).
Proof.
  cbv zeta. unfold attestation_artifacts.
  match goal with |- context [build_attestation _ _ _ _ ?a] => set (arts := a) end.
  assert (Hcopy : forall k, In k ["execution_state"; "execution_phase"; "test_command_started";
                                  "delivered_isolation"; "effective_candidate_isolation"]%string ->
            dget (build_attestation candidate deleted cmd policy arts mode now version cd pd format) (u k)
            = dget arts (u k)).
  { intros k Hk. simpl in Hk. destruct Hk as [<-|[<-|[<-|[<-|[<-|[]]]]]]; reflexivity. }
  rewrite !Hcopy by (simpl; tauto). unfold arts, dupdate. cbn [fold_left fst snd]. unfold dget.
  repeat split; rewrite !dlookup_dset_ne by (vm_compute; discriminate); by rewrite dlookup_dset_eq.
Qed.

(** The attestation is complete and faithful: it has every field the
    verifier requires, binds the candidate, the policy and its digest, and
    carries the pack digest format exactly when it carries a pack digest. *)
Theorem attestation_complete candidate deleted cmd policy artifacts mode now version cd pd format :
  let att := build_attestation candidate deleted cmd policy artifacts mode now version cd pd format in
  missing_keys V1_11.REQUIRED_ATTESTATION att = [] /\
  length att = 57%nat /\
  dget att (u "candidate_sha256") = VStr (cd candidate) /\
  dget att (u "effective_policy") = VDict policy /\ dget att (u "policy_sha256") = VStr (pd policy) /\
  (forall k, In k (ATTESTATION_HEAD_FIELDS ++ ATTESTATION_TAIL_FIELDS) ->
     dget att (u k) = dget artifacts (u k)) /\
  (dget att (u "verifier_pack_digest_format") = VStr format <->
     truthy (dget att (u "verifier_pack_sha256")) = true).
Proof.
  cbv zeta. split; [reflexivity|]. split; [reflexivity|]. split; [reflexivity|]. split; [reflexivity|].
  split; [reflexivity|]. split.
  - intros k Hk. unfold ATTESTATION_HEAD_FIELDS, ATTESTATION_TAIL_FIELDS in Hk. cbn [app In] in Hk.
    repeat match type of Hk with _ \/ _ => destruct Hk as [<-|Hk]; [reflexivity|] end. destruct Hk.
  - change (dget (build_attestation candidate deleted cmd policy artifacts mode now version cd pd format)
      (u "verifier_pack_digest_format"))
      with (if truthy (dget artifacts (u "verifier_pack_sha256")) then VStr format else VNone).
    change (dget (build_attestation candidate deleted cmd policy artifacts mode now version cd pd format)
      (u "verifier_pack_sha256")) with (dget artifacts (u "verifier_pack_sha256")).
    destruct (truthy _); split; done.
Qed.

(** The assurance of a finalization with the application's services. *)
Lemma assurance_fields isolation pack setup continuity state phase started evidence :
  let a := assurance_profile isolation pack false false false None None setup continuity state phase started evidence in
  dget a (u "execution_state") = VStr state /\ dget a (u "execution_phase") = VStr phase /\
  (if started && negb (state =s? state_wire EXECUTION_NOT_STARTED)
   then dget a (u "candidate_isolation") = VStr (if opted_in setup then u "subprocess" else isolation) /\
        dget a (u "suite_isolation") = VStr isolation
   else dget a (u "candidate_isolation") = VStr (u "not_run") /\ dget a (u "suite_isolation") = VStr (u "not_run")).
Proof.
  cbv zeta. unfold assurance_profile, preflight_assurance_profile. cbv zeta.
  destruct (state =s? state_wire EXECUTION_NOT_STARTED), started; cbn [orb andb negb]; cbv match;
    rewrite ?get_execution_state, ?get_execution_phase, ?get_candidate_isolation, ?get_suite_isolation;
    repeat split; reflexivity.
Qed.

(** Which boundary the verifier compares with [record.isolation]. *)
Definition isolation_parity (record : dict) (out : RepoFinalizationOutcome) : Prop :=
  _check_isolation record (Some (fo_assurance out)) (Some (fo_attestation out)) =
  c_pass "isolation.assurance_parity" ++ c_pass "isolation.attestation_parity".

(** The fields of a finalization with the application's services. *)
Lemma finalized_fields request services out now version cd pd format e :
  finalize_repo_verification request services = Ok out ->
  application_services services now version cd pd format ->
  fi_run_suite request = true -> fi_verification_evidence request = Some e -> coherent_execution e ->
  let x := ve_execution e in
  let a := fo_assurance out in let att := fo_attestation out in
  fo_execution_state out = ex_execution_state x /\ fo_execution_phase out = ex_execution_phase x /\
  fo_test_command_started out = ex_test_command_started x /\
  fo_effective_candidate_isolation out = effective_isolation_of request (ex_delivered_isolation x) /\
  dget a (u "execution_state") = VStr (ex_execution_state x) /\
  dget a (u "execution_phase") = VStr (ex_execution_phase x) /\
  dget a (u "candidate_isolation") =
    VStr (if ex_test_command_started x then fo_effective_candidate_isolation out else u "not_run") /\
  dget a (u "suite_isolation") = VStr (ex_delivered_isolation x) /\
  dget att (u "execution_state") = VStr (ex_execution_state x) /\
  dget att (u "execution_phase") = VStr (ex_execution_phase x) /\
  dget att (u "test_command_started") = VBool (ex_test_command_started x) /\
  dget att (u "delivered_isolation") = VStr (ex_delivered_isolation x) /\
  dget att (u "effective_candidate_isolation") = VStr (fo_effective_candidate_isolation out).
Proof.
  intros (p1 & p2 & st & ph & sta & del & _ & _ & H3 & H4 & H5 & _ & Hst & Hph & Hsta & Hdel)%finalize_ok
    (Sa & Sr & _) Hrun He [Hc1 Hc2]. cbv zeta.
  unfold execution_facts in H3. rewrite Hrun, He in H3. apply Ok_inj in H3. injection H3 as <- <- <- <-.
  rewrite Sa in H4. apply Ok_inj in H4. rewrite Hrun, Sr in H5. apply Ok_inj in H5.
  set (x := ve_execution e) in *. rewrite Hdel, Hst, Hph, Hsta.
  destruct (attestation_fields (fi_candidate_text request) (fi_safe_deleted_paths request)
    (fi_test_command request) (fi_effective_policy request) request services (ex_execution_state x)
    (ex_execution_phase x) (ex_test_command_started x) (ex_delivered_isolation x) (fi_judgment_mode request)
    now version cd pd format) as (A1 & A2 & A3 & A4 & A5). rewrite H4 in A1, A2, A3, A4, A5.
  match type of H5 with assurance_profile ?i ?p _ _ _ _ _ ?s ?c ?st ?ph ?b ?ev = _ =>
    destruct (assurance_fields i p s c st ph b ev) as (B1 & B2 & B3) end.
  rewrite H5 in B1, B2, B3. do 4 (split; [done|]). split; [done|]. split; [done|].
  destruct (ex_test_command_started x) eqn:Ex.
  - destruct (ex_execution_state x =s? state_wire EXECUTION_NOT_STARTED) eqn:Es.
    { apply str_eqb_eq in Es. apply Hc2 in Es. congruence. }
    cbn [andb negb] in B3. destruct B3 as [-> ->]. by split_and!.
  - cbn [andb] in B3. destruct B3 as [-> ->]. rewrite Hc1 in * by done. by split_and!.
Qed.

Lemma py_eq_bool a b : py_eq (VBool a) (VBool b) = eqb a b.
Proof. by destruct a, b. Qed.

(** C37: a finalized record is internally consistent.  With the application's
    services and a coherent execution, a record that reports the outcome passes
    the verifier's lifecycle parity checks; it passes both isolation parity
    checks exactly when the tests were started, or the candidate is reported as
    not isolated at all. *)
Theorem finalized_record_parity request services out now version cd pd format e record :
  finalize_repo_verification request services = Ok out ->
  application_services services now version cd pd format ->
  fi_run_suite request = true -> fi_verification_evidence request = Some e -> coherent_execution e ->
  reports record out ->
  (exists rest, _check_lifecycle record (Some (fo_assurance out)) (Some (fo_attestation out)) =
     c_pass "lifecycle.assurance_parity" ++ c_pass "lifecycle.attestation_parity" ++ rest) /\
  (isolation_parity record out <->
   fo_test_command_started out = true \/ fo_effective_candidate_isolation out = u "not_run").
Proof.
  intros Hf Hsrv Hrun He Hc (R1 & R2 & R3 & R4).
  destruct (finalized_fields request services out now version cd pd format e Hf Hsrv Hrun He Hc)
    as (E1 & E2 & E3 & _ & A1 & A2 & A3 & A4 & T1 & T2 & T3 & T4 & T5).
  rewrite E1 in R1. rewrite E2 in R2. rewrite E3 in R3. split.
  - unfold _check_lifecycle. cbv zeta. rewrite A1, A2, T1, T2, T3, R1, R2, R3, !py_eq_str.
    cbn [eq_str]. rewrite !str_eqb_refl, py_eq_bool, eqb_reflx. cbn [andb c_expect app]. eexists. reflexivity.
  - unfold isolation_parity, _check_isolation. cbv zeta. rewrite A3, A4, T4, T5, R1, R3, R4, E3.
    rewrite !py_eq_str. cbn [eq_str is_none is_false_v]. rewrite !str_eqb_refl, !andb_false_r. cbn [andb].
    destruct (ex_test_command_started (ve_execution e)).
    + rewrite str_eqb_refl. split; [by left|done].
    + destruct (u "not_run" =s? fo_effective_candidate_isolation out) eqn:En.
      * apply str_eqb_eq in En. split; [by right|done].
      * apply str_eqb_neq in En. split; [done|]. intros [?|Hn]; [done|]. by destruct En.
Qed.

(** the tool's own verifier refuses a record of a failed trusted host setup.
    When a container run takes the opt-in host setup and stops before its tests,
    the reported isolation is [subprocess] while the assurance says [not_run],
    so the record's isolation parity fails. *)
Theorem host_setup_record_refused request services out now version cd pd format e record :
  finalize_repo_verification request services = Ok out ->
  application_services services now version cd pd format ->
  fi_run_suite request = true -> fi_verification_evidence request = Some e -> coherent_execution e ->
  reports record out ->
  ve_setup_isolation e = Some HOST_OPT_IN -> ex_test_command_started (ve_execution e) = false ->
  fo_effective_candidate_isolation out = u "subprocess" /\
  dget (fo_assurance out) (u "candidate_isolation") = VStr (u "not_run") /\
  exists rest, _check_isolation record (Some (fo_assurance out)) (Some (fo_attestation out)) =
               c_fail "isolation.assurance_parity" ++ rest.
Proof.
  intros Hf Hsrv Hrun He Hc (R1 & R2 & R3 & R4) Hset Hns.
  destruct (finalized_fields request services out now version cd pd format e Hf Hsrv Hrun He Hc)
    as (_ & _ & _ & E4 & _ & _ & A3 & _). rewrite Hns in A3.
  assert (Heff : fo_effective_candidate_isolation out = u "subprocess").
  { rewrite E4. unfold effective_isolation_of, setup_isolation_of. rewrite He. cbn. by rewrite Hset. }
  split; [done|]. split; [done|]. unfold _check_isolation. cbv zeta. rewrite A3, R4, Heff.
  change (py_eq (VStr (u "not_run")) (VStr (u "subprocess"))) with false. cbn [c_expect]. by eexists.
Qed.
End Sound.

(** ** Concrete finalizations *)

Definition sample_execution (state : execution_state) (started : bool) (delivered : str) : ExecutionPhaseResult :=
  {| ex_execution_state := state_wire state; ex_execution_phase := u "repo_suite";
     ex_test_command_started := started; ex_test_command_completed := started;
     ex_verifier_pack_started := false; ex_verifier_pack_completed := false;
     ex_delivered_isolation := delivered;
     ex_setup_isolation_evidence := None; ex_repo_suite_isolation_evidence := None;
     ex_verifier_pack_isolation_evidence := None; ex_primary_isolation_evidence := None |}.

Definition sample_evidence (x : ExecutionPhaseResult) (setup : option str) (suite_passed : option bool)
  : VerificationEvidence :=
  {| ve_execution := x; ve_outcome := None; ve_tamper := None; ve_tests_passed := None;
     ve_tests_total := None; ve_tests_passed_present := false; ve_tests_total_present := false;
     ve_verdict_source := None; ve_junit_sha256 := None; ve_junit_digest_format := None;
     ve_setup_isolation := setup;
     ve_isolation_payloads := {| ip_primary := None; ip_setup := None; ip_repo_suite := None; ip_verifier_pack := None |};
     ve_verifier_pack := {| vp_present := None; vp_sha256 := None; vp_manifest := None; vp_tests_passed := None;
                            vp_tests_total := None; vp_junit_sha256 := None; vp_junit_digest_format := None;
                            vp_started := None; vp_completed := None |};
     ve_repo_suite := {| rs_started := Some true; rs_completed := Some true; rs_state := None;
                         rs_passed := suite_passed; rs_tests_passed := None; rs_tests_total := None;
                         rs_verdict_source := None; rs_returncode := None; rs_junit_sha256 := None;
                         rs_junit_digest_format := None; rs_image_digest := None |};
     ve_runtime := {| ri_tree_sha256 := None; ri_tree_digest_format := None; ri_tree_entries := None;
                      ri_tree_bytes := None; ri_elapsed_ms := None; ri_continuity := None |} |}.

Definition sample_request (d : GuardDecision) (e : VerificationEvidence) (isolation : str) (gated : bool)
  : RepoFinalizationInput :=
  {| fi_pipeline := {| decision := d |}; fi_verification_evidence := Some e; fi_raw_artifact := [];
     fi_run_suite := true; fi_repository_path := u "/repo"; fi_candidate_text := u "patch";
     fi_safe_deleted_paths := []; fi_test_command := None; fi_setup_command := None;
     fi_setup_output_globs := []; fi_file_blocks := None; fi_timeout := 60; fi_mem_limit_mb := 512;
     fi_strict_harness := false; fi_isolation := isolation; fi_judgment_mode := u "repo";
     fi_verifier_pack_path := None; fi_collect_diff_coverage := gated;
     fi_min_diff_coverage := if gated then Some (NInt 50) else None;
     fi_collect_baseline_evidence := false; fi_require_demonstrated_fix := gated;
     fi_require_report_integrity := None; fi_require_candidate_isolation := None;
     fi_effective_policy := []; fi_base_sha := None; fi_head_sha := None; fi_base_tree_sha := None;
     fi_head_tree_sha := None; fi_policy_id := None; fi_policy_version := None; fi_harness_inputs := [] |}.

Definition sample_services : RepoFinalizationServices :=
  {| fs_coverage_collector := fun _ _ => Ok half_covered;
     fs_baseline_runner := fun _ => Ok (dict_of [("verdict", VStr (u "FAIL"))]);
     fs_attestation_builder := fun c d t p a m =>
       Ok (build_attestation c d t p a m (u "now") (u "4.1.0") (fun s => s) (fun _ => u "digest") (u "V2"));
     fs_runtime_assurance_builder := fun iso pack setup cont state phase started ev =>
       Ok (assurance_profile iso pack false false false None None setup cont state phase started ev);
     fs_static_assurance_builder := fun pack => Ok (static_assurance_profile pack);
     fs_assurance_shortfall := assurance_shortfall;
     fs_attestation_evidence_projector := fun _ => [];
     fs_pack_directory_predicate := fun _ => true |}.

Lemma sample_services_application :
  application_services sample_services (u "now") (u "4.1.0") (fun s => s) (fun _ => u "digest") (u "V2").
Proof. split; [|split]; reflexivity. Qed.

(** A passing run with a half-covered change and a demonstrated fix. *)
Definition gated_request : RepoFinalizationInput :=
  sample_request passing (sample_evidence (sample_execution EXECUTION_COMPLETED true (u "subprocess")) None (Some true))
    (u "subprocess") true.

(** A docker run whose trusted host setup failed before the tests. *)
Definition failed_setup : GuardDecision :=
  {| gd_verdict := ERROR; gd_reason_code := REASON_SETUP_FAILED; gd_reason := [] |}.
Definition host_setup_request : RepoFinalizationInput :=
  sample_request failed_setup
    (sample_evidence (sample_execution EXECUTION_STARTED_INCOMPLETE false (u "not_run")) (Some HOST_OPT_IN) None)
    (u "docker") false.

Definition reported (out : RepoFinalizationOutcome) : dict :=
  dict_of [("execution_state", VStr (fo_execution_state out)); ("execution_phase", VStr (fo_execution_phase out));
           ("test_command_ran", VBool (fo_test_command_started out));
           ("isolation", VStr (fo_effective_candidate_isolation out))].

Definition finalize (r : RepoFinalizationInput) : result gate_exn RepoFinalizationOutcome :=
  @finalize_repo_verification ascii_unicode r sample_services.

Lemma final_pass_sound_witness :
  exists out, finalize gated_request = Ok out /\ exists b, fo_baseline out = Some b /\
              dget b (u "verdict") = VStr (u "FAIL").
Proof.
  destruct (finalize gated_request) as [out|] eqn:E; [|vm_compute in E; discriminate E].
  assert (Hp : gd_verdict (fo_decision out) = PASS) by (vm_compute in E; injection E as <-; reflexivity).
  destruct (@final_pass_sound ascii_unicode gated_request sample_services out E eq_refl) as (_ & _ & H).
  exists out. split; [reflexivity|]. destruct (proj2 (proj1 (proj2 (proj2 (H Hp))) eq_refl eq_refl)) as (b & _ & Hb & Hv & _).
  exists b. split; [exact Hb|exact Hv].
Defined.

Lemma baseline_effect_agree_witness :
  exists out b, finalize gated_request = Ok out /\ fo_baseline out = Some b /\
                dget b (u "repair_effect") = VStr (u "demonstrated").
Proof.
  destruct (finalize gated_request) as [out|] eqn:E; [|vm_compute in E; discriminate E].
  destruct (fo_baseline out) as [b|] eqn:Eb; [|vm_compute in E; injection E as <-; discriminate Eb].
  assert (Hv : dget b (u "verdict") = VStr (u "FAIL"))
    by (vm_compute in E; injection E as <-; injection Eb as <-; reflexivity).
  exists out, b. split; [reflexivity|]. split; [exact Eb|].
  rewrite (@baseline_effect_agree ascii_unicode gated_request sample_services out b E eq_refl Eb), Hv. reflexivity.
Defined.

Lemma finalized_record_parity_witness :
  exists out, finalize gated_request = Ok out /\ isolation_parity (reported out) out.
Proof.
  destruct (finalize gated_request) as [out|] eqn:E; [|vm_compute in E; discriminate E].
  assert (Hs : fo_test_command_started out = true) by (vm_compute in E; injection E as <-; reflexivity).
  exists out. split; [reflexivity|].
  refine (proj2 (proj2 (@finalized_record_parity ascii_unicode gated_request sample_services out _ _ _ _ _ _
            (reported out) E sample_services_application eq_refl eq_refl _ _)) (or_introl Hs)).
  - split; intros H; discriminate H.
  - repeat split; reflexivity.
Defined.

Lemma host_setup_record_refused_witness :
  exists out, finalize host_setup_request = Ok out /\ fo_effective_candidate_isolation out = u "subprocess".
Proof.
  destruct (finalize host_setup_request) as [out|] eqn:E; [|vm_compute in E; discriminate E].
  exists out. split; [reflexivity|].
  refine (proj1 (@host_setup_record_refused ascii_unicode host_setup_request sample_services out _ _ _ _ _ _
            (reported out) E sample_services_application eq_refl eq_refl _ _ eq_refl eq_refl)).
  - split; intros H; reflexivity.
  - repeat split; reflexivity.
Defined.
