(* ===== verification/Regex.v ===== *)
(** Regular expressions as Python's [re] matches them: a backtracking matcher over
    strings of code points, greedy and lazy repetitions of one character class,
    optional parts and named groups, and [finditer]. *)
From S2P Require Export Prelude PyStr.

(** ** Patterns *)

Inductive regex :=
| Eps
| Chr (p : N -> bool)
| Seq (r1 r2 : regex)
| Opt (r : regex)
| Star (greedy : bool) (p : N -> bool)
| Group (name : string) (r : regex).

(** A class repeated at least once. *)
Definition Plus (greedy : bool) (p : N -> bool) : regex := Seq (Chr p) (Star greedy p).

Declare Scope regex_scope.
Delimit Scope regex_scope with regex.
Infix "*>" := Seq (at level 60, right associativity) : regex_scope.

(** A literal text. *)
Fixpoint lit (s : str) : regex :=
  match s with [] => Eps | c :: s' => Seq (Chr (N.eqb c)) (lit s') end.

(** A case-insensitive literal: [i] and [s] have folding partners outside ASCII
    (U+0130, U+0131 and U+017F). *)
Definition letter_ignorecase (c x : N) : bool :=
  N.eqb (ascii_lower x) (ascii_lower c)
  || (N.eqb (ascii_lower c) 105 && (N.eqb x 304 || N.eqb x 305))
  || (N.eqb (ascii_lower c) 115 && N.eqb x 383).
Fixpoint ilit (s : str) : regex :=
  match s with [] => Eps | c :: s' => Seq (Chr (letter_ignorecase c)) (ilit s') end.

Definition any (_ : N) : bool := true.

(** ** Matching *)

(** The groups captured so far, the latest first. *)
Abbreviation groups := (list (string * str)).

Section Match.
Context {R : Type}.

(** Repeat [p] as long as possible and give back, or as short as needed. *)
Fixpoint star (greedy : bool) (p : N -> bool) (s : str) (k : str -> option R) : option R :=
  match s with
  | [] => k []
  | c :: s' =>
      if negb (p c) then k s
      else if greedy then match star greedy p s' k with Some x => Some x | None => k s end
      else match k s with Some x => Some x | None => star greedy p s' k end
  end.

(** Match [r] at the start of [s] and continue with [k] on the rest. *)
Fixpoint match_k (r : regex) (s : str) (g : groups) (k : str -> groups -> option R) : option R :=
  match r with
  | Eps => k s g
  | Chr p => match s with
             | c :: s' => if p c then k s' g else None
             | [] => None
             end
  | Seq r1 r2 => match_k r1 s g (fun s' g' => match_k r2 s' g' k)
  | Opt r1 => match match_k r1 s g k with Some x => Some x | None => k s g end
  | Star greedy p => star greedy p s (fun s' => k s' g)
  | Group name r1 =>
      match_k r1 s g (fun s' g' => k s' ((name, firstn (length s - length s') s) :: g'))
  end.
End Match.

(** [pattern.match] at the start of [s]: what follows the match, and its groups. *)
Definition match_here (r : regex) (s : str) : option (str * groups) :=
  match_k r s [] (fun s' g => Some (s', g)).

Fixpoint group (name : string) (g : groups) : option str :=
  match g with
  | [] => None
  | (n, x) :: g' => if String.eqb n name then Some x else group name g'
  end.

(** [pattern.finditer(s)] for a pattern that matches no empty string: the groups
    of the successive matches.  Every step consumes a character. *)
Fixpoint finditer_fuel (fuel : nat) (r : regex) (s : str) : list groups :=
  match fuel with
  | O => []
  | S fuel' =>
      match s with
      | [] => []
      | _ :: s' =>
          match match_here r s with
          | Some (rest, g) => g :: finditer_fuel fuel' r rest
          | None => finditer_fuel fuel' r s'
          end
      end
  end.
Definition finditer (r : regex) (s : str) : list groups := finditer_fuel (length s) r s.

(** ** Lemmas *)

Lemma forallb_any s : forallb any s = true.
Proof. by induction s. Qed.

Lemma capture_app (a b : str) : firstn (length (a ++ b) - length b) (a ++ b) = a.
Proof. rewrite length_app, Nat.add_sub. apply take_app_length. Qed.

Section Lemmas.
Context {R : Type}.

(** A literal prefix is consumed or nothing matches. *)
Lemma match_lit w s g (k : str -> groups -> option R) : match_k (lit w) (w ++ s) g k = k s g.
Proof. induction w as [|c w IH]; [done|]. simpl. by rewrite N.eqb_refl. Qed.

Lemma match_lit_fail w s g (k : str -> groups -> option R) :
  starts_with w s = false -> match_k (lit w) s g k = None.
Proof.
  revert s. induction w as [|c w IH]; intros [|x s]; simpl; try done.
  destruct (N.eqb c x); [|done]. simpl. apply IH.
Qed.

(** A lazy repetition stops at the first place where the rest matches. *)
Lemma star_lazy p a b (k : str -> option R) x :
  forallb p a = true ->
  (forall a1 a2, a = a1 ++ a2 -> a2 <> [] -> k (a2 ++ b) = None) ->
  k b = Some x -> star false p (a ++ b) k = Some x.
Proof.
  induction a as [|c a IH]; intros Hp Hno Hk.
  - destruct b as [|d b]; simpl; [done|]. destruct (p d); simpl; by rewrite Hk.
  - simpl in *. apply andb_true_iff in Hp as [-> Hp]. cbn [negb].
    pose proof (Hno [] (c :: a) eq_refl ltac:(discriminate)) as H0. simpl in H0. rewrite H0.
    apply IH; [done| |done].
    intros a1 a2 -> Hne. by apply (Hno (c :: a1) a2).
Qed.

(** A greedy repetition takes the whole run when the rest matches there. *)
Lemma star_greedy p a b (k : str -> option R) x :
  forallb p a = true -> match b with c :: _ => p c = false | [] => True end ->
  k b = Some x -> star true p (a ++ b) k = Some x.
Proof.
  intros Hp Hb Hk. induction a as [|c a IH].
  - destruct b as [|d b]; simpl; [done|]. by rewrite Hb.
  - simpl in *. apply andb_true_iff in Hp as [-> Hp]. cbn [negb]. by rewrite IH.
Qed.

(** Every continuation of a repetition sees a suffix. *)
Lemma star_none greedy p s (k : str -> option R) :
  (forall s1 s2, s = s1 ++ s2 -> forallb p s1 = true -> k s2 = None) -> star greedy p s k = None.
Proof.
  induction s as [|c s IH]; intros Hk; simpl; [by apply (Hk [] [])|].
  assert (H0 : k (c :: s) = None) by (by apply (Hk [] (c :: s))).
  destruct (p c) eqn:E; cbn [negb]; [|done].
  assert (Hs : star greedy p s k = None).
  { apply IH. intros s1 s2 -> Hs1. apply (Hk (c :: s1)); [done|]. simpl. by rewrite E. }
  rewrite Hs, H0. by destruct greedy.
Qed.
End Lemmas.
