(* ===== verification/Edits.v ===== *)
(** The textual candidate formats (candidate/edits.py): strict and lenient parsing
    of FILE and PATCH blocks, and the serialization of structured blocks
    ([serialize_candidate_blocks] in workspace/candidate_tree.py). *)
From S2P Require Export Regex.

(** ** Patterns *)

Definition path_char (c : N) : bool := negb (N.eqb c 62 || N.eqb c ch_nl).
Definition spaces : regex := Star true is_space.
Definition cr : regex := Opt (Chr (N.eqb ch_cr)).
Definition nl : regex := Chr (N.eqb ch_nl).

Definition _BLOCK_RE : regex :=
  (lit (u "<<<FILE:") *> spaces *> Group "path" (Plus false path_char) *> spaces *> lit (u ">>>") *> cr *> nl
   *> Group "body" (Star false any) *> cr *> Opt nl *> lit (u "<<<END") *> spaces *> lit (u "FILE>>>"))%regex.

Definition _PATCH_BLOCK_RE : regex :=
  (lit (u "<<<PATCH:") *> spaces *> Group "path" (Plus false path_char) *> spaces *> lit (u ">>>") *> cr *> nl
   *> lit (u "<<<SEARCH>>>") *> cr *> nl *> Group "search" (Star false any) *> cr *> nl
   *> lit (u "<<<REPLACE>>>") *> cr *> nl *> Group "replace" (Star false any) *> cr *> Opt nl
   *> lit (u "<<<END") *> spaces *> lit (u "PATCH>>>"))%regex.

Definition open_ : regex := (Plus true (N.eqb 60) *> spaces)%regex.
Definition close_ : regex := (spaces *> Plus true (N.eqb 62))%regex.
(** The optional slash, and the optional END, of a closing marker. *)
Definition closing_prefix : regex :=
  (open_ *> Opt (Chr (N.eqb ch_slash)) *> spaces *> Opt (ilit (u "END") *> spaces))%regex.
(** An optional explicit closing marker of a SEARCH or REPLACE part. *)
Definition optional_closing (word : string) : regex :=
  Opt (open_ *> Chr (N.eqb ch_slash) *> spaces *> ilit (u word) *> close_ *> spaces)%regex.

Definition _LENIENT_FILE_RE : regex :=
  (open_ *> ilit (u "FILE") *> spaces *> lit (u ":") *> spaces *> Group "path" (Plus false path_char) *> close_
   *> cr *> Opt nl *> Group "body" (Star false any) *> cr *> Opt nl *> closing_prefix *> ilit (u "FILE")
   *> close_)%regex.

Definition _LENIENT_PATCH_RE : regex :=
  (open_ *> ilit (u "PATCH") *> spaces *> Opt (lit (u ":") *> spaces *> Group "path" (Star false path_char))
   *> close_ *> spaces
   *> open_ *> ilit (u "SEARCH") *> close_ *> cr *> Opt nl *> Group "search" (Star false any) *> spaces
   *> optional_closing "SEARCH"
   *> open_ *> ilit (u "REPLACE") *> close_ *> cr *> Opt nl *> Group "replace" (Star false any) *> spaces
   *> optional_closing "REPLACE"
   *> closing_prefix *> ilit (u "PATCH") *> close_)%regex.

(** ** Parsers *)

Definition group_text (name : string) (g : groups) : str :=
  match group name g with Some s => s | None => [] end.

(** [blocks[path] = body]: the first insertion of a key fixes its place. *)
Fixpoint set_item (path body : str) (blocks : list (str * str)) : list (str * str) :=
  match blocks with
  | [] => [(path, body)]
  | (p, b) :: blocks' => if p =s? path then (p, body) :: blocks' else (p, b) :: set_item path body blocks'
  end.

Definition collect_files (matches : list groups) : list (str * str) :=
  fold_left (fun blocks g => set_item (strip (group_text "path" g)) (group_text "body" g) blocks) matches [].

Definition parse_file_blocks (hypothesis : str) : list (str * str) :=
  collect_files (finditer _BLOCK_RE hypothesis).

Record PatchBlock := { pb_path : str; pb_search : str; pb_replace : str }.

Definition parse_patch_blocks (hypothesis : str) : list PatchBlock :=
  map (fun g => {| pb_path := strip (group_text "path" g); pb_search := group_text "search" g;
                   pb_replace := group_text "replace" g |}) (finditer _PATCH_BLOCK_RE hypothesis).

Definition parse_blocks_lenient (hypothesis : str) (default_path : option str)
  : list (str * str) * list PatchBlock :=
  (collect_files (finditer _LENIENT_FILE_RE hypothesis),
   flat_map (fun g =>
     let path := match strip (group_text "path" g), default_path with
                 | [], Some d => d
                 | p, _ => p
                 end in
     match path with
     | [] => []
     | _ => [{| pb_path := path; pb_search := group_text "search" g; pb_replace := group_text "replace" g |}]
     end) (finditer _LENIENT_PATCH_RE hypothesis)).

(** ** Serialization *)

Fixpoint item (path : str) (blocks : list (str * str)) : str :=
  match blocks with
  | [] => []
  | (p, b) :: blocks' => if p =s? path then b else item path blocks'
  end.

Definition serialize_block (rel content : str) : str :=
  u "<<<FILE: " ++ rel ++ u ">>>" ++ [ch_nl] ++ content ++ [ch_nl] ++ u "<<<END FILE>>>".

Definition serialize_candidate_blocks (blocks : list (str * str)) : str :=
  py_join [ch_nl] (map (fun rel => serialize_block rel (item rel blocks)) (sort_str (map fst blocks))).

(** ** Round trip *)

(** A path that a block header can carry: no marker character and no white space
    at its ends. *)
Definition plain_path (p : str) : bool :=
  forallb path_char p && match p with c :: _ => negb (is_space c) | [] => false end
  && match rev p with c :: _ => negb (is_space c) | [] => false end.

(** A text that a block can carry: no terminator inside, no carriage return at
    the end. *)
Definition plain_body (b : str) : bool :=
  negb (contains (u "<<<END") b) && match rev b with c :: _ => negb (N.eqb c ch_cr) | [] => true end.

Section RoundTrip.
Context {R : Type}.
Implicit Types k : str -> groups -> option R.

(** The marker text after the body. *)
Definition terminator (tail : str) : str := ch_nl :: u "<<<END" ++ u " " ++ u "FILE>>>" ++ tail.
Definition terminator_re : regex := (lit (u "<<<END") *> spaces *> lit (u "FILE>>>"))%regex.

Lemma terminator_matches tail g k x :
  k tail g = Some x -> match_k (cr *> Opt nl *> terminator_re)%regex (terminator tail) g k = Some x.
Proof.
  intros E. unfold terminator, terminator_re. cbn [match_k cr nl]. simpl (N.eqb ch_cr ch_nl).
  rewrite N.eqb_refl. rewrite match_lit. cbn [match_k spaces].
  change (u " " ++ u "FILE>>>" ++ tail) with ([32%N] ++ u "FILE>>>" ++ tail).
  erewrite star_greedy; [reflexivity|done|done|]. by rewrite match_lit.
Qed.

(** No terminator starts where its marker does not follow the line end. *)
Lemma terminator_fails s g k :
  starts_with (u "<<<END") s = false ->
  (forall c s', s = c :: s' -> c = ch_cr \/ c = ch_nl -> starts_with (u "<<<END") s' = false) ->
  (forall s', s = ch_cr :: ch_nl :: s' -> starts_with (u "<<<END") s' = false) ->
  match_k (cr *> Opt nl *> terminator_re)%regex s g k = None.
Proof.
  intros H0 H1 H2. assert (Ht : forall s', starts_with (u "<<<END") s' = false -> match_k terminator_re s' g k = None).
  { intros s' Hs. unfold terminator_re. cbn [match_k]. by apply match_lit_fail. }
  assert (Hn : forall s', (s' = s \/ s = ch_cr :: s') -> match_k (Opt nl *> terminator_re)%regex s' g k = None).
  { intros s' Hs'. cbn [match_k nl]. assert (Hs : starts_with (u "<<<END") s' = false)
      by (destruct Hs' as [->| ->]; [done|by eapply H1; [|left]]).
    rewrite (Ht s' Hs). destruct s' as [|c s']; [done|]. destruct (N.eqb ch_nl c) eqn:E; [|done].
    apply N.eqb_eq in E as <-. rewrite Ht; [done|].
    destruct Hs' as [<-| ->]; [by eapply H1; [|right]|by apply H2]. }
  set (K := fun s' g' => match_k (Opt nl *> terminator_re)%regex s' g' k).
  change (match match_k (Chr (N.eqb ch_cr)) s g K with Some x => Some x | None => K s g end = None).
  assert (HK : forall s', s' = s \/ s = ch_cr :: s' -> K s' g = None) by exact Hn. clearbody K.
  rewrite (HK s) by by left. destruct s as [|c s']; [done|]. cbn [match_k].
  destruct (N.eqb ch_cr c) eqn:E; [|done]. apply N.eqb_eq in E as <-. by rewrite (HK s') by by right.
Qed.
End RoundTrip.

Lemma marker_not_across w r :
  contains (u "<<<END") w = false -> starts_with (u "<<<END") (w ++ ch_nl :: r) = false.
Proof.
  intros Hw. destruct (starts_with _ _) eqn:E; [|done]. exfalso.
  apply starts_with_spec in E as [t Ht].
  assert (Hex : exists b, w = u "<<<END" ++ b).
  { do 6 (destruct w as [|? w]; [vm_compute in Ht; discriminate Ht|]).
    exists w. cbn [app] in Ht. injection Ht as -> -> -> -> -> -> _. done. }
  destruct Hex as [b ->]. unfold contains in Hw. destruct (PyStr.find _ _) eqn:Ef; [done|].
  apply find_none in Ef. apply Ef. by exists [], b.
Qed.

Lemma contains_suffix sub a b : contains sub (a ++ b) = false -> contains sub b = false.
Proof.
  unfold contains. destruct (PyStr.find sub (a ++ b)) eqn:E; [done|]. intros _.
  destruct (PyStr.find sub b) eqn:E'; [|done]. apply find_some in E' as (pre & post & -> & _).
  apply find_none in E. destruct E. exists (a ++ pre), post. by rewrite <- app_assoc.
Qed.

(** One serialized block is matched, and its groups are its path and its text. *)
Definition block_text (p b : str) (tail : str) : str :=
  u "<<<FILE:" ++ u " " ++ p ++ u ">>>" ++ ch_nl :: b ++ terminator tail.

Lemma body_matches p b tail :
  plain_body b = true ->
  match_k (cr *> nl *> Group "body" (Star false any) *> cr *> Opt nl *> terminator_re)%regex
    (ch_nl :: b ++ terminator tail) [("path", p)%string] (fun s' g' => Some (s', g'))
  = Some (tail, [("body", b); ("path", p)]%string).
Proof.
  unfold plain_body. intros [Hc Hcr]%andb_true_iff. apply negb_true_iff in Hc.
  set (K := fun s' g' => match_k (cr *> Opt nl *> terminator_re)%regex s' g' (fun s'' g'' => Some (s'', g''))).
  set (s := b ++ terminator tail).
  change (match_k (Group "body" (Star false any)) s [("path", p)%string] K = Some (tail, [("body", b); ("path", p)]%string)).
  change (star false any s (fun s' => K s' [("body", firstn (length s - length s') s); ("path", p)]%string)
          = Some (tail, [("body", b); ("path", p)]%string)).
  unfold s. apply star_lazy.
  - apply forallb_any.
  - intros a1 a2 -> Hne. apply contains_suffix in Hc. unfold terminator.
    set (r := u "<<<END" ++ u " " ++ u "FILE>>>" ++ tail). apply terminator_fails.
    + by apply marker_not_across.
    + intros c s' Hs _. destruct a2 as [|c2 a2]; [done|]. injection Hs as <- <-.
      apply marker_not_across. by apply (contains_suffix _ [c2]).
    + intros s' Hs. destruct a2 as [|c2 [|c3 a2]]; [done| |].
      * exfalso. injection Hs as -> _. rewrite rev_app_distr in Hcr. cbn in Hcr. done.
      * injection Hs as -> -> <-. apply marker_not_across. by apply (contains_suffix _ [ch_cr; ch_nl]).
  - unfold K. rewrite capture_app. by apply terminator_matches.
Qed.

(** What follows a proper prefix of a plain path is no header end. *)
Lemma header_not_inside a2 r g (k : str -> groups -> option (str * groups)) :
  a2 <> [] -> forallb path_char a2 = true ->
  match rev a2 with c :: _ => negb (is_space c) | [] => false end = true ->
  match_k (spaces *> lit (u ">>>"))%regex (a2 ++ r) g k = None.
Proof.
  intros Hne Hp Hl. cbn [match_k spaces]. apply star_none. intros s1 s2 Hs Hs1. apply match_lit_fail.
  assert (Hbad : forallb is_space a2 = true -> False).
  { intros Ha. destruct (rev a2) as [|c t] eqn:E; [done|].
    assert (Hin : In c a2) by (rewrite in_rev, E; by left).
    rewrite List.forallb_forall in Ha. by rewrite (Ha c Hin) in Hl. }
  apply app_eq_inv in Hs as [(w & -> & ->)|(w & -> & _)].
  - destruct w as [|c w]; [destruct Hbad; by rewrite app_nil_r|].
    rewrite forallb_app_iff in Hp. apply andb_true_iff in Hp as [_ [Hc _]%andb_true_iff].
    change (u ">>>") with [62%N; 62%N; 62%N]. cbn [starts_with app].
    unfold path_char in Hc. destruct (N.eqb c 62) eqn:E; [done|]. by rewrite N.eqb_sym, E.
  - destruct Hbad. rewrite forallb_app_iff in Hs1. by apply andb_true_iff in Hs1 as [? _].
Qed.

Definition block_groups (p b : str) : groups := [("body", b); ("path", p)]%string.

Lemma block_matches p b tail :
  plain_path p = true -> plain_body b = true ->
  match_here _BLOCK_RE (block_text p b tail) = Some (tail, block_groups p b).
Proof.
  intros [[Hp Hf]%andb_true_iff Hl]%andb_true_iff Hb. destruct p as [|c p]; [done|].
  pose proof (body_matches (c :: p) b tail Hb) as Hbody.
  set (rest := ch_nl :: b ++ terminator tail) in *.
  set (B := (cr *> nl *> Group "body" (Star false any) *> cr *> Opt nl *> terminator_re)%regex) in Hbody.
  set (k := fun (s' : str) (g' : groups) => Some (s', g')) in *.
  set (K := fun s' g' => match_k (spaces *> lit (u ">>>") *> B)%regex s' g' k).
  assert (HK : K (u ">>>" ++ rest) [("path", c :: p)%string] = Some (tail, block_groups (c :: p) b)).
  { unfold K. cbn [match_k spaces]. change (u ">>>" ++ rest) with ([] ++ u ">>>" ++ rest).
    erewrite star_greedy; [reflexivity|done|done|]. by rewrite match_lit. }
  change (match_k (lit (u "<<<FILE:")) (u "<<<FILE:" ++ u " " ++ (c :: p) ++ u ">>>" ++ rest) []
    (fun s g => star true is_space s (fun s => match_k (Group "path" (Plus false path_char)) s g K)) =
    Some (tail, block_groups (c :: p) b)).
  rewrite match_lit. change (u " ") with [32%N]. apply star_greedy; [done| |].
  { cbn [app]. by apply negb_true_iff. }
  cbn [forallb] in Hp. apply andb_true_iff in Hp as [Hc Hp].
  set (s := (c :: p) ++ u ">>>" ++ rest).
  change ((if path_char c then star false path_char (p ++ u ">>>" ++ rest)
             (fun s' => K s' [("path", firstn (length s - length s') s)%string]) else None)
          = Some (tail, block_groups (c :: p) b)).
  rewrite Hc. apply star_lazy; [done| |unfold s; by rewrite capture_app].
  intros a1 a2 -> Hne. unfold K. set (g := [_]). clearbody g.
  change (match_k (spaces *> lit (u ">>>"))%regex (a2 ++ u ">>>" ++ rest) g (fun s' g' => match_k B s' g' k) = None).
  apply header_not_inside; [done| |].
  - rewrite forallb_app_iff in Hp. by apply andb_true_iff in Hp as [_ ?].
  - change (c :: a1 ++ a2) with ((c :: a1) ++ a2) in Hl. rewrite rev_app_distr in Hl.
    destruct a2 as [|d a2] using rev_ind; [done|]. rewrite rev_app_distr in *. done.
Qed.

(** ** The serialized text *)

Lemma serialize_block_text p b tail : serialize_block p b ++ tail = block_text p b tail.
Proof.
  unfold serialize_block, block_text, terminator. change (u "<<<FILE: ") with (u "<<<FILE:" ++ u " ").
  change (u "<<<END FILE>>>") with (u "<<<END" ++ u " " ++ u "FILE>>>"). by rewrite <- !app_assoc.
Qed.

Lemma no_match_at_newline s : match_here _BLOCK_RE (ch_nl :: s) = None.
Proof. done. Qed.

Definition plain_block (pb : str * str) : Prop := plain_path (fst pb) = true /\ plain_body (snd pb) = true.

Lemma finditer_serialized items fuel :
  Forall plain_block items ->
  let text := py_join [ch_nl] (map (fun pb => serialize_block (fst pb) (snd pb)) items) in
  (length text <= fuel)%nat ->
  finditer_fuel fuel _BLOCK_RE text = map (fun pb => block_groups (fst pb) (snd pb)) items.
Proof.
  cbv zeta. intros Hi. revert fuel. induction Hi as [|[p b] items [Hp Hb] Hi IH]; intros fuel Hl.
  { by destruct fuel. }
  assert (Hstep : forall tail fuel', (length (serialize_block p b ++ tail) <= fuel')%nat ->
            exists fuel'', fuel' = S fuel'' /\ (length tail <= fuel'')%nat /\
            finditer_fuel fuel' _BLOCK_RE (serialize_block p b ++ tail)
            = block_groups p b :: finditer_fuel fuel'' _BLOCK_RE tail).
  { intros tail fuel' Hf. assert (Hlen : (length tail < length (serialize_block p b ++ tail))%nat)
      by (rewrite length_app; unfold serialize_block; rewrite length_app; simpl; lia).
    destruct fuel' as [|fuel'']; [lia|]. exists fuel''. split; [done|]. split; [lia|].
    rewrite serialize_block_text. cbn [finditer_fuel]. by rewrite block_matches. }
  cbn [map fst snd] in *. destruct items as [|pb items].
  - cbn [map py_join] in *. specialize (Hstep [] fuel). rewrite app_nil_r in Hstep.
    destruct (Hstep Hl) as (f & -> & _ & ->). by destruct f.
  - cbn [map] in *. set (rest := py_join [ch_nl] (serialize_block (fst pb) (snd pb) :: _)) in IH.
    change (py_join [ch_nl] (serialize_block p b :: serialize_block (fst pb) (snd pb) :: _))
      with (serialize_block p b ++ [ch_nl] ++ rest) in *.
    destruct (Hstep _ _ Hl) as (f & -> & Hf & ->). f_equal.
    cbn [app length] in Hf. destruct f as [|f]; [lia|]. cbn [app finditer_fuel].
    rewrite no_match_at_newline. apply IH. lia.
Qed.

(** ** Collecting the matches *)

Lemma strip_plain p : plain_path p = true -> strip p = p.
Proof.
  intros [[_ Hf]%andb_true_iff Hl]%andb_true_iff. unfold strip, strip_by, lstrip_by, rstrip_by.
  destruct p as [|c p]; [done|]. cbn [drop_while]. apply negb_true_iff in Hf as ->.
  destruct (rev (c :: p)) as [|d t] eqn:E; [done|]. cbn [drop_while]. apply negb_true_iff in Hl as ->.
  by rewrite <- E, rev_involutive.
Qed.

Lemma set_item_fresh p b blocks : ~ In p (map fst blocks) -> set_item p b blocks = blocks ++ [(p, b)].
Proof.
  induction blocks as [|[q c] blocks IH]; [done|]. cbn [map In set_item fst]. intros Hn.
  destruct (q =s? p) eqn:E; [apply str_eqb_eq in E; by destruct Hn; left|].
  cbn [app]. f_equal. apply IH. tauto.
Qed.

Lemma collect_block_groups items :
  Forall plain_block items -> NoDup (map fst items) ->
  collect_files (map (fun pb => block_groups (fst pb) (snd pb)) items) = items.
Proof.
  intros Hi Hd. unfold collect_files.
  enough (Hg : forall acc, NoDup (map fst (acc ++ items)) ->
    fold_left (fun blocks g => set_item (strip (group_text "path" g)) (group_text "body" g) blocks)
      (map (fun pb => block_groups (fst pb) (snd pb)) items) acc = acc ++ items) by by apply (Hg []).
  clear Hd. induction Hi as [|[p b] items [Hp _] Hi IH]; intros acc Hd; [by rewrite app_nil_r|].
  cbn [map fold_left fst snd]. change (group_text "path" (block_groups p b)) with p.
  change (group_text "body" (block_groups p b)) with b. cbn [fst] in Hp. rewrite (strip_plain p Hp).
  assert (Hn : ~ In p (map fst acc)).
  { rewrite map_app in Hd. apply NoDup_app in Hd as (_ & Hd & _). rewrite <- list_elem_of_In.
    intros Hin. apply (Hd p Hin). by left. }
  rewrite set_item_fresh by done. rewrite IH by (by rewrite <- app_assoc). by rewrite <- app_assoc.
Qed.

Lemma item_lookup p b blocks : NoDup (map fst blocks) -> In (p, b) blocks -> item p blocks = b.
Proof.
  induction blocks as [|[q c] blocks IH]; [done|]. cbn [map item fst]. intros [Hn Hd]%NoDup_cons [[= -> ->]|Hin].
  - by rewrite str_eqb_refl.
  - destruct (q =s? p) eqn:E; [|by apply IH]. apply str_eqb_eq in E as ->.
    destruct Hn. rewrite list_elem_of_In, in_map_iff. by exists (p, b).
Qed.

(** The items of a map in the order of their sorted paths. *)
Definition sorted_items (blocks : list (str * str)) : list (str * str) :=
  map (fun rel => (rel, item rel blocks)) (sort_str (map fst blocks)).

Lemma sorted_items_perm blocks : NoDup (map fst blocks) -> Permutation blocks (sorted_items blocks).
Proof.
  intros Hd. unfold sorted_items, sort_str. rewrite <- (py_sort_perm str_leb (map fst blocks)), map_map.
  rewrite <- (map_id blocks) at 1. apply Permutation_refl'. apply map_ext_in. intros [p b] Hin.
  cbn [fst]. by rewrite (item_lookup p b).
Qed.

(** structured blocks survive the text format.  For a map of files whose
    paths carry no marker character or outer white space, and whose texts contain
    no terminator and end in no carriage return, parsing the serialization with
    the backtracking FILE pattern gives back exactly the map, in the order of its
    sorted paths. *)
Theorem serialized_blocks_parse blocks :
  NoDup (map fst blocks) -> Forall plain_block blocks ->
  parse_file_blocks (serialize_candidate_blocks blocks) = sorted_items blocks /\
  Permutation blocks (sorted_items blocks) /\
  map fst (sorted_items blocks) = sort_str (map fst blocks).
Proof.
  intros Hd Hp. pose proof (sorted_items_perm blocks Hd) as Hperm.
  assert (Hkeys : map fst (sorted_items blocks) = sort_str (map fst blocks))
    by (unfold sorted_items; rewrite map_map; apply map_id).
  split; [|done]. rewrite Hperm in Hp.
  assert (Hs : serialize_candidate_blocks blocks =
    py_join [ch_nl] (map (fun pb => serialize_block (fst pb) (snd pb)) (sorted_items blocks)))
    by (unfold serialize_candidate_blocks, sorted_items; by rewrite map_map).
  unfold parse_file_blocks, finditer. rewrite Hs, finditer_serialized by done.
  apply collect_block_groups; [done|]. rewrite Hkeys. by apply sort_str_NoDup.
Qed.

Definition sample_blocks : list (str * str) :=
  [(u "src/b.py", u "x = 1" ++ [ch_nl]); (u "a b.txt", u "<<< not a marker >>>")].

Lemma serialized_blocks_parse_witness :
  parse_file_blocks (serialize_candidate_blocks sample_blocks) = sorted_items sample_blocks.
Proof.
  refine (proj1 (serialized_blocks_parse sample_blocks _ _)).
  - apply (bool_decide_unpack _). vm_compute. exact I.
  - repeat constructor.
Defined.

(** The text format is not injective: a body that contains a terminator reads
    back as a different map. *)
Example marker_in_body_is_ambiguous :
  parse_file_blocks (serialize_candidate_blocks [(u "a", u "x" ++ [ch_nl] ++ u "<<<END FILE>>> y")])
  = [(u "a", u "x")].
Proof. vm_compute. reflexivity. Qed.
