(* ===== verification/Shlex.v ===== *)
(** Command-line text of the language's standard library: [shlex.split],
    [shlex.quote] and [shlex.join], and the Windows path splitting
    ([ntpath.basename], [ntpath.splitext]) that the runner grammar relies on. *)
From S2P Require Export Prelude PyStr.

(** ** [shlex.split] in POSIX mode, without comments *)

(** Where the lexer is: between words, in a word, in a quotation, or after the
    escape character in one of the last two. *)
Inductive lex_state := LSpace | LWord | LQuote (q : N) | LEscape (from : option N).

Definition is_shell_ws (c : N) : bool := ((c =? 32) || (c =? 9) || (c =? 13) || (c =? 10))%N.
Definition is_shell_quote (c : N) : bool := ((c =? 39) || (c =? 34))%N.

(** The words of the rest of a text; [None] where the lexer raises.  A word is
    emitted at whitespace or at the end when it has a character or a quotation. *)
Fixpoint lex (st : lex_state) (token : str) (quoted : bool) (s : str) : option (list str) :=
  match s with
  | [] =>
      match st with
      | LSpace => Some []
      | LWord => Some (if quoted || negb (is_empty token) then [token] else [])
      | _ => None
      end
  | c :: s' =>
      match st with
      | LSpace =>
          if is_shell_ws c then lex LSpace token quoted s'
          else if (c =? 92)%N then lex (LEscape None) token quoted s'
          else if is_shell_quote c then lex (LQuote c) token quoted s'
          else lex LWord [c] quoted s'
      | LQuote q =>
          if (c =? q)%N then lex LWord token true s'
          else if (c =? 92)%N && (q =? 34)%N then lex (LEscape (Some q)) token true s'
          else lex (LQuote q) (token ++ [c]) true s'
      | LEscape from =>
          let kept := match from with
                      | Some q => if (c =? 92)%N || (c =? q)%N then [] else [92%N]
                      | None => []
                      end in
          lex (match from with Some q => LQuote q | None => LWord end) (token ++ kept ++ [c]) quoted s'
      | LWord =>
          if is_shell_ws c then
            if quoted || negb (is_empty token)
            then match lex LSpace [] false s' with Some l => Some (token :: l) | None => None end
            else lex LSpace token quoted s'
          else if is_shell_quote c then lex (LQuote c) token quoted s'
          else if (c =? 92)%N then lex (LEscape None) token quoted s'
          else lex LWord (token ++ [c]) quoted s'
      end
  end.

Definition shlex_split (s : str) : option (list str) := lex LSpace [] false s.

(** ** [shlex.quote] and [shlex.join] *)

(** The characters no shell gives a meaning: [\w] in ASCII and [@%+=:,./-]. *)
Definition shell_safe (c : N) : bool :=
  ascii_letter c || is_ascii_digit c || char_in c (u "_@%+=:,./-").

Definition shlex_quote (s : str) : str :=
  if is_empty s then [39; 39]%N
  else if forallb shell_safe s then s
  else 39%N :: flat_map (fun c => if (c =? 39)%N then [39; 34; 39; 34; 39]%N else [c]) s ++ [39%N].

Definition shlex_join (l : list str) : str := py_join (u " ") (map shlex_quote l).

(** A word being read, quotation seen or a character read. *)
Definition word_open (quoted : bool) (token : str) : bool := quoted || negb (is_empty token).

Lemma shell_safe_plain c :
  shell_safe c = true -> is_shell_ws c = false /\ is_shell_quote c = false /\ (c =? 92)%N = false.
Proof.
  unfold shell_safe, ascii_letter, is_ascii_digit, is_shell_ws, is_shell_quote. intros Hc.
  assert (Hb : (c = 95 \/ c = 64 \/ c = 37 \/ (43 <= c <= 58) \/ c = 61 \/ 65 <= c <= 90 \/ 97 <= c <= 122)%N).
  { rewrite !orb_true_iff, !andb_true_iff, !N.leb_le in Hc. destruct Hc as [[Hc|Hc]|Hc]; [lia|lia|].
    unfold char_in in Hc. rewrite existsb_exists in Hc. destruct Hc as (x & Hin & ->%N.eqb_eq).
    vm_compute in Hin. repeat destruct Hin as [<-|Hin]; try done; lia. }
  rewrite !orb_false_iff, !N.eqb_neq. lia.
Qed.

Lemma lex_safe_word token quoted w r :
  forallb shell_safe w = true -> lex LWord token quoted (w ++ r) = lex LWord (token ++ w) quoted r.
Proof.
  revert token. induction w as [|c w IH]; intros token; [by rewrite app_nil_r|].
  simpl. intros [Hc Hw]%andb_true_iff. destruct (shell_safe_plain c Hc) as (H1 & H2 & H3).
  rewrite H1, H2, H3, IH by done. by rewrite <- app_assoc.
Qed.

Lemma lex_quoted_body token w r :
  lex (LQuote 39) token true
    (flat_map (fun c => if (c =? 39)%N then [39; 34; 39; 34; 39]%N else [c]) w ++ 39%N :: r)
  = lex LWord (token ++ w) true r.
Proof.
  revert token. induction w as [|c w IH]; intros token; [by rewrite app_nil_r|].
  cbn [flat_map]. destruct (N.eqb_spec c 39) as [->|Hc].
  - rewrite <- app_assoc. simpl. rewrite IH, <- app_assoc. done.
  - simpl. apply N.eqb_neq in Hc as ->. rewrite andb_false_r, IH, <- app_assoc. done.
Qed.

Lemma lex_quote_seen q token s : s <> [] -> lex (LQuote q) token false s = lex (LQuote q) token true s.
Proof. by destruct s. Qed.

(** Reading a quoted word from between words leaves the lexer inside it, with the
    original characters read. *)
Lemma lex_quote w r :
  exists quoted, word_open quoted w = true /\
    lex LSpace [] false (shlex_quote w ++ r) = lex LWord w quoted r.
Proof.
  unfold shlex_quote, word_open. destruct w as [|c w]; [exists true; done|]. cbn [is_empty].
  destruct (forallb shell_safe (c :: w)) eqn:E.
  - exists false. split; [done|]. simpl in E. apply andb_true_iff in E as [Hc Hw].
    destruct (shell_safe_plain c Hc) as (H1 & H2 & H3). simpl. rewrite H1, H2, H3. by apply lex_safe_word.
  - exists true. split; [done|]. rewrite <- app_comm_cons, <- app_assoc.
    match goal with |- lex _ _ _ (39%N :: ?x) = _ =>
      change (lex LSpace [] false (39%N :: x)) with (lex (LQuote 39) [] false x);
      rewrite lex_quote_seen; [apply (lex_quoted_body [] (c :: w) r)|] end.
    intros Hn. apply app_eq_nil in Hn as [_ Hn]. done.
Qed.

Lemma lex_word_space token quoted r :
  lex LWord token quoted (32%N :: r) =
    if word_open quoted token
    then match lex LSpace [] false r with Some l => Some (token :: l) | None => None end
    else lex LSpace token quoted r.
Proof. done. Qed.

Lemma join_cons_space (x y : str) l :
  py_join (u " ") (x :: y :: l) = x ++ 32%N :: py_join (u " ") (y :: l).
Proof. done. Qed.

(** [shlex.split(shlex.join(words))] is [words]. *)
Lemma shlex_split_join words : shlex_split (shlex_join words) = Some words.
Proof.
  unfold shlex_split, shlex_join. induction words as [|w words IH]; [done|].
  destruct words as [|w2 words].
  - cbn [map py_join]. destruct (lex_quote w []) as (q & Hq & Hl). rewrite app_nil_r in Hl.
    rewrite Hl. simpl. unfold word_open in Hq. by rewrite Hq.
  - cbn [map] in *. rewrite join_cons_space.
    destruct (lex_quote w (32%N :: py_join (u " ") (shlex_quote w2 :: map shlex_quote words))) as (q & Hq & Hl).
    by rewrite Hl, lex_word_space, Hq, IH.
Qed.

(** Words after a complete command: a space ends its last word. *)
Lemma lex_app st token quoted s l r :
  (st = LSpace -> token = [] /\ quoted = false) ->
  lex st token quoted s = Some l ->
  lex st token quoted (s ++ 32%N :: r) =
    match lex LSpace [] false r with Some l' => Some (l ++ l') | None => None end.
Proof.
  revert st token quoted l. induction s as [|c s IH]; intros st token quoted l Hst.
  - destruct st; try done.
    + destruct (Hst eq_refl) as [-> ->]. intros [= <-]. simpl. by destruct (lex LSpace [] false r).
    + cbn [app]. rewrite lex_word_space. unfold word_open. simpl.
      destruct (quoted || negb (is_empty token)) eqn:E; intros [= <-]; [done|].
      apply orb_false_iff in E as [-> E]. apply negb_false_iff, is_empty_iff in E as ->.
      by destruct (lex LSpace [] false r).
  - cbn [app lex]. destruct st as [| |q|from].
    + specialize (Hst eq_refl) as [-> ->].
      repeat case_if; apply IH; done.
    + destruct (is_shell_ws c).
      * destruct (quoted || negb (is_empty token)) eqn:E.
        -- destruct (lex LSpace [] false s) as [l'|] eqn:El; [|done]. intros [= <-].
           rewrite (IH LSpace [] false l') by done. by destruct (lex LSpace [] false r).
        -- apply IH. intros _. apply orb_false_iff in E as [-> E].
           by apply negb_false_iff, is_empty_iff in E as ->.
      * repeat case_if; apply IH; done.
    + repeat case_if; apply IH; done.
    + apply IH. by destruct from.
Qed.

Lemma shlex_split_app s l words :
  shlex_split s = Some l ->
  shlex_split (s ++ 32%N :: shlex_join words) = Some (l ++ words).
Proof.
  intros Hs. unfold shlex_split. rewrite (lex_app _ _ _ _ l) by done.
  change (lex LSpace [] false (shlex_join words)) with (shlex_split (shlex_join words)).
  by rewrite shlex_split_join.
Qed.

(** ** Windows paths *)

Definition is_sep (c : N) : bool := ((c =? 92) || (c =? 47))%N.

(** What follows the first separator at or after position [start]. *)
Fixpoint after_sep (s : str) : option str :=
  match s with
  | c :: s' => if is_sep c then Some s' else after_sep s'
  | [] => None
  end.

Definition is_unc_prefix (s : str) : bool :=
  match s with
  | [a; b; q; c; x; y; z; d] =>
      is_sep a && is_sep b && (q =? 63)%N && is_sep c
      && ((x =? 85)%N || (x =? 117)%N) && ((y =? 78)%N || (y =? 110)%N)
      && ((z =? 67)%N || (z =? 99)%N) && is_sep d
  | _ => false
  end.

(** The part of a path after its drive and root ([ntpath.splitroot]). *)
Definition nt_tail (p : str) : str :=
  match p with
  | a :: p1 =>
      if is_sep a then
        match p1 with
        | b :: p2 =>
            if is_sep b then
              let rest := if is_unc_prefix (take 8 p) then drop 8 p else p2 in
              match after_sep rest with
              | Some r => match after_sep r with Some t => t | None => [] end
              | None => []
              end
            else p1
        | [] => p1
        end
      else
        match p1 with
        | b :: p2 =>
            if (b =? 58)%N then
              match p2 with c :: p3 => if is_sep c then p3 else p2 | [] => p2 end
            else p
        | [] => p
        end
  | [] => []
  end.

(** The characters after the last one that satisfies [f]. *)
Fixpoint after_last_by (f : N -> bool) (s : str) : str :=
  match s with
  | c :: s' => if existsb f s' then after_last_by f s' else if f c then s' else s
  | [] => []
  end.

(** [ntpath.basename] *)
Definition nt_basename (p : str) : str := after_last_by is_sep (nt_tail p).

(** [ntpath.splitext]: the last dot, unless only dots precede it in the name. *)
Definition nt_splitext (p : str) : str * str :=
  let name := after_last_by is_sep p in
  let suffix := after_last_by (N.eqb 46) name in
  if char_in 46 name then
    let stem := take (length name - length suffix - 1) name in
    if forallb (N.eqb 46) stem then (p, [])
    else (take (length p - length suffix - 1) p, 46%N :: suffix)
  else (p, []).

Example shlex_ex :
  map shlex_split [u "a 'b c' d\ e ''"; u "a 'b"; u "a\"; [34; 97; 92; 34; 92; 98; 34]%N; u "  "]
  = [Some (us ["a"; "b c"; "d e"; ""]); None; None; Some [[97; 34; 92; 98]%N]; Some []].
Proof. vm_compute. reflexivity. Qed.

Example ntpath_ex :
  map nt_basename [u "C:\Tools\pytest.exe"; u "C:pytest"; u "/usr/bin/x"; u "\\srv\share\x"; u "a"]
  = us ["pytest.exe"; "pytest"; "x"; "x"; "a"]
  /\ map nt_splitext [u "pytest.exe"; u ".exe"; u "a.b.c"; u "..x"; u "x."]
  = [(u "pytest", u ".exe"); (u ".exe", []); (u "a.b", u ".c"); (u "..x", []); (u "x", u ".")].
Proof. split; vm_compute; reflexivity. Qed.
