(* ===== verification/Runners.v ===== *)
(** Test-runner adapters (runners/): which command line invokes which runner, the
    judge-owned JUnit report each adapter wires in, the instrumentation of the
    last segment of a shell script, and the ordered registry.  [ShellText] is a grammar
    of shell text, apart from the code, that says where the last segment begins.  Tokens are strings;
    a command index is the number of tokens before the command. *)
From S2P Require Export Prelude PyStr Shlex.

(** ** Recognition of commands (runners/_command.py) *)

Definition _WINDOWS_EXECUTABLE_SUFFIXES : list str := us [".bat"; ".cmd"; ".com"; ".exe"].

(** [token.split("=", 1)[0]] and ["=" in token] *)
Definition option_name (token : str) : str := before_char 61 token.
Definition has_equals (token : str) : bool := char_in 61 token.

(** The position of a command after launcher options, from position [i] on. *)
Fixpoint option_value_end (i : nat) (tokens : list str) (value_options : list str) : nat :=
  match tokens with
  | [] => i
  | token :: rest =>
      if token =s? u "--" then S i
      else if negb (starts_with (u "-") token) then i
      else if negb (has_equals token) && str_in (option_name token) value_options then
        match rest with
        | _ :: rest' => option_value_end (S (S i)) rest' value_options
        | [] => S (S i)
        end
      else option_value_end (S i) rest value_options
  end.

Definition _option_value_end (tokens : list str) (start : nat) (value_options : list str) : nat :=
  option_value_end start (drop start tokens) value_options.

(** The first position at or after [i] with a token in [words]. *)
Fixpoint first_index (words : list str) (i : nat) (tokens : list str) : option nat :=
  match tokens with
  | [] => None
  | t :: tokens' => if str_in t words then Some i else first_index words (S i) tokens'
  end.

(** [i < len(tokens) and tokens[i] in words] *)
Definition token_in (tokens : list str) (i : nat) (words : list str) : bool :=
  match tokens !! i with Some t => str_in t words | None => false end.

Section Command.
Context `{UnicodeDB}.

Definition _executable_name (token : str) : str :=
  let name := casefold (nt_basename (rstrip_by is_sep token)) in
  let '(stem, suffix) := nt_splitext name in
  if str_in suffix _WINDOWS_EXECUTABLE_SUFFIXES then stem else name.

Definition _wrapped_command_index (tokens : list str) : option nat :=
  match tokens with
  | [] => None
  | first :: _ =>
      let launcher := _executable_name first in
      if str_in launcher (us ["npx"; "bunx"]) then
        Some (_option_value_end tokens 1 (us ["-p"; "--package"; "-c"; "--call"]))
      else if launcher =s? u "pnpm" then
        let i := _option_value_end tokens 1 (us ["-C"; "--dir"; "-F"; "--filter"; "--config-dir"]) in
        if token_in tokens i (us ["dlx"; "exec"; "run"])
        then Some (_option_value_end tokens (S i) (us ["-c"; "--shell-mode"]))
        else Some i
      else if str_in launcher (us ["yarn"; "yarnpkg"]) then
        let i := _option_value_end tokens 1
                   (us ["--cwd"; "--use-yarnrc"; "--cache-folder"; "--mutex"]) in
        if token_in tokens i (us ["dlx"; "exec"; "run"])
        then Some (_option_value_end tokens (S i) [])
        else Some i
      else if launcher =s? u "npm" then
        match first_index (us ["exec"; "x"]) 1 (drop 1 tokens) with
        | None => None
        | Some marker => Some (_option_value_end tokens (S marker) (us ["-c"; "--call"; "--package"]))
        end
      else if (launcher =s? u "bundle") && (3 <=? length tokens)%nat && token_in tokens 1 [u "exec"] then
        Some 2
      else if str_in launcher (us ["poetry"; "pipenv"; "uv"]) && (3 <=? length tokens)%nat
              && token_in tokens 1 [u "run"] then
        Some 2
      else None
  end.

Definition _invokes_runner (cmd : list str) (runner : str) : bool :=
  match cmd with
  | [] => false
  | first :: _ =>
      if _executable_name first =s? runner then true
      else match _wrapped_command_index cmd with
           | Some wrapped =>
               match cmd !! wrapped with
               | Some token => _executable_name token =s? runner
               | None => false
               end
           | None => false
           end
  end.

(** [\d+] *)
Definition decimals (s : str) : bool :=
  negb (is_empty s) && forallb (fun c => match ucd_decimal c with Some _ => true | None => false end) s.

(** The pattern [python(?:\d+(?:\.\d+)?)?\Z] over a whole name. *)
Definition _PYTHON_EXECUTABLE_RE (name : str) : bool :=
  starts_with (u "python") name &&
  match split_char ch_dot (drop 6 name) with
  | [major] => is_empty major || decimals major
  | [major; minor] => decimals major && decimals minor
  | _ => false
  end.

Definition _is_python_executable (token : str) : bool :=
  let executable := _executable_name token in
  (executable =s? u "py") || _PYTHON_EXECUTABLE_RE executable.

Definition python_module_at (tokens : list str) (module : str) (start : nat) : bool :=
  match drop start tokens with
  | t0 :: t1 :: t2 :: _ => _is_python_executable t0 && (t1 =s? u "-m") && (casefold t2 =s? module)
  | _ => false
  end.

Definition _invokes_python_module (tokens : list str) (module : str) : bool :=
  existsb (python_module_at tokens module)
    (0 :: match _wrapped_command_index tokens with Some wrapped => [wrapped] | None => [] end).
End Command.

(** ** The adapters *)

(** runners/protocol.py; [report_env] is absent from most adapters. *)
Record RunnerAdapter := {
  name : str;
  matches : list str -> bool;
  instrument : list str -> str -> option (list str);
  report_env : option (str -> list (str * str));
}.

Definition any_token (f : str -> bool) (cmd : list str) : bool := existsb f cmd.

(** The tokens before and from the first one equal to [t]. *)
Fixpoint split_at (t : str) (cmd : list str) : list str * list str :=
  match cmd with
  | [] => ([], [])
  | x :: cmd' => if x =s? t then ([], cmd) else let '(a, b) := split_at t cmd' in (x :: a, b)
  end.

Section Adapters.
Context `{UnicodeDB}.

Definition PytestAdapter : RunnerAdapter := {|
  name := u "pytest";
  matches cmd := _invokes_runner cmd (u "pytest") || _invokes_python_module cmd (u "pytest");
  instrument cmd report_path :=
    Some (cmd ++ [u "--junitxml=" ++ report_path; u "-o"; u "junit_family=xunit2"]);
  report_env := None;
|}.

Definition NodeTestAdapter : RunnerAdapter := {|
  name := u "node --test";
  matches cmd :=
    match cmd with
    | [] => false
    | first :: _ => (_executable_name first =s? u "node") && str_in (u "--test") cmd
    end;
  instrument cmd report_path :=
    if any_token (starts_with (u "--test-reporter")) cmd then None
    else
      let '(before, from) := split_at (u "--test") cmd in
      Some (before ++ take 1 from ++
            [u "--test-reporter=junit"; u "--test-reporter-destination=" ++ report_path;
             u "--test-reporter=spec"; u "--test-reporter-destination=stdout"] ++ drop 1 from);
  report_env := None;
|}.

Definition VitestAdapter : RunnerAdapter := {|
  name := u "vitest";
  matches cmd := _invokes_runner cmd (u "vitest");
  instrument cmd report_path :=
    if any_token (fun t => starts_with (u "--reporter") t || starts_with (u "--outputFile") t) cmd then None
    else Some (cmd ++ [u "--reporter=default"; u "--reporter=junit"; u "--outputFile=" ++ report_path]);
  report_env := None;
|}.

Definition JestAdapter : RunnerAdapter := {|
  name := u "jest";
  matches cmd := _invokes_runner cmd (u "jest");
  instrument cmd report_path :=
    if any_token (starts_with (u "--reporters")) cmd then None
    else Some (cmd ++ [u "--reporters=default"; u "--reporters=jest-junit"]);
  report_env := Some (fun report_path => [(u "JEST_JUNIT_OUTPUT_FILE", report_path)]);
|}.

Definition GotestsumAdapter : RunnerAdapter := {|
  name := u "gotestsum";
  matches cmd := _invokes_runner cmd (u "gotestsum");
  instrument cmd report_path :=
    if any_token (starts_with (u "--junitfile")) cmd then None
    else
      let flag := u "--junitfile=" ++ report_path in
      if str_in (u "--") cmd
      then let '(before, from) := split_at (u "--") cmd in Some (before ++ [flag] ++ from)
      else Some (cmd ++ [flag]);
  report_env := None;
|}.

Definition RspecAdapter : RunnerAdapter := {|
  name := u "rspec";
  matches cmd := _invokes_runner cmd (u "rspec");
  instrument cmd report_path :=
    if any_token (fun t => str_in t (us ["--format"; "-f"]) || starts_with (u "--format=") t
                           || starts_with (u "--out") t) cmd then None
    else Some (cmd ++ us ["--format"; "progress"; "--format"; "RspecJunitFormatter"; "--out"] ++ [report_path]);
  report_env := None;
|}.

Definition MochaAdapter : RunnerAdapter := {|
  name := u "mocha";
  matches cmd := _invokes_runner cmd (u "mocha");
  instrument cmd report_path :=
    if any_token (fun t => str_in t (us ["--reporter"; "-R"]) || starts_with (u "--reporter=") t
                           || starts_with (u "--reporter-options") t) cmd then None
    else Some (cmd ++ us ["--reporter"; "mocha-junit-reporter"; "--reporter-options"]
                   ++ [u "mochaFile=" ++ report_path]);
  report_env := None;
|}.

Definition MavenAdapter : RunnerAdapter := {|
  name := u "maven";
  matches cmd :=
    match cmd with [] => false | first :: _ => str_in (_executable_name first) (us ["mvn"; "mvnw"]) end;
  instrument cmd report_path :=
    if any_token (starts_with (u "-Dsurefire.reportsDirectory")) cmd then None
    else Some (cmd ++ [u "-Dsurefire.reportsDirectory=" ++ report_path ++ u ".d"]);
  report_env := None;
|}.

End Adapters.

(** ** Shell scripts (runners/shell.py) *)

Module ShellAdapter.
Section Shell.
Context `{UnicodeDB}.

Definition _SHELLS : list str := us ["sh"; "bash"; "zsh"; "dash"].

Definition shell_matches (cmd : list str) : bool :=
  match cmd with
  | shell :: flag :: _ :: _ => str_in (_executable_name shell) _SHELLS && (flag =s? u "-c")
  | _ => false
  end.

(** The scan for top-level operators: quotation, escape, depth of substitution,
    and the operators found, the last one first, as position and width. *)
Record scan := {
  sc_quote : option N;
  sc_escaped : bool;
  sc_depth : nat;
  sc_operators : list (nat * nat);
}.

Definition with_op (st : scan) (i width : nat) : scan :=
  {| sc_quote := sc_quote st; sc_escaped := sc_escaped st; sc_depth := sc_depth st;
     sc_operators := (i, width) :: sc_operators st |}.
Definition with_quote (st : scan) (q : option N) : scan :=
  {| sc_quote := q; sc_escaped := sc_escaped st; sc_depth := sc_depth st; sc_operators := sc_operators st |}.
Definition with_escaped (st : scan) (b : bool) : scan :=
  {| sc_quote := sc_quote st; sc_escaped := b; sc_depth := sc_depth st; sc_operators := sc_operators st |}.
Definition with_depth (st : scan) (d : nat) : scan :=
  {| sc_quote := sc_quote st; sc_escaped := sc_escaped st; sc_depth := d; sc_operators := sc_operators st |}.

(** What one character does to the scan, and whether the next one is consumed
    with it. *)
Definition scan_step (st : scan) (i : nat) (prev : option N) (char : N) (following : option N) : scan * bool :=
  let next c := match following with Some d => (d =? c)%N | None => false end in
  if sc_escaped st then (with_escaped st false, false)
  else if (char =? 92)%N && negb (match sc_quote st with Some q => (q =? 39)%N | None => false end) then
    (with_escaped st true, false)
  else match sc_quote st with
  | Some q => (if (char =? q)%N then with_quote st None else st, false)
  | None =>
      if ((char =? 39) || (char =? 34) || (char =? 96))%N then (with_quote st (Some char), false)
      else if ((char =? 36) || (char =? 60) || (char =? 62))%N && next 40%N then
        (with_depth st (S (sc_depth st)), true)
      else if (0 <? sc_depth st)%nat then
        (if (char =? 41)%N then with_depth st (pred (sc_depth st))
         else if (char =? 40)%N then with_depth st (S (sc_depth st)) else st, false)
      else if ((char =? 38)%N && next 38%N) || ((char =? 124)%N && next 124%N) then (with_op st i 2, true)
      else if (char =? 124)%N && next 38%N then (with_op st i 2, true)
      else if (char =? 124)%N then (with_op st i 1, false)
      else if (char =? 38)%N then
        (if match prev with Some p => negb ((p =? 60) || (p =? 62))%N | None => false end && negb (next 62%N)
         then with_op st i 1 else st, false)
      else if ((char =? 59) || (char =? 10))%N then (with_op st i 1, false)
      else if (char =? 35)%N && match prev with Some p => is_space p | None => true end then
        (with_op st i 1, false)
      else (st, false)
  end.

Fixpoint scan_from (st : scan) (i : nat) (prev : option N) (s : str) : scan :=
  match s with
  | [] => st
  | char :: s' =>
      let '(st', two) := scan_step st i prev char (head s') in
      match two, s' with
      | true, d :: s'' => scan_from st' (S (S i)) (Some d) s''
      | _, _ => scan_from st' (S i) (Some char) s'
      end
  end.

Definition scan_start : scan :=
  {| sc_quote := None; sc_escaped := false; sc_depth := 0; sc_operators := [] |}.

Definition _split_last_cmd (shell_str : str) : str * str * str :=
  match sc_operators (scan_from scan_start 0 None shell_str) with
  | [] => ([], [], strip shell_str)
  | (start, width) :: _ =>
      let prefix := rstrip (take start shell_str) in
      let post := lstrip_by is_space (drop (start + width) shell_str) in
      let left := length prefix in
      let right := length shell_str - length post in
      (prefix, take (right - left) (drop left shell_str), strip post)
  end.

(** The environment assignments in front of the segment. *)
Definition prefix_env (adapter : RunnerAdapter) (report_path : str) : str :=
  match report_env adapter with
  | Some env_fn => py_join (u " ") (map (fun kv => fst kv ++ [61%N] ++ shlex_quote (snd kv)) (env_fn report_path))
  | None => []
  end.

(** [instrumented[: len(last_tokens)] == last_tokens] *)
Definition tokens_eqb (a b : list str) : bool := bool_decide (a = b).

Definition instrument_segment (adapter : RunnerAdapter) (last_str : str) (last_tokens : list str)
    (report_path : str) : option str :=
  match instrument adapter last_tokens report_path with
  | None => None
  | Some instrumented =>
      let n := length last_tokens in
      let new_last :=
        if tokens_eqb (take n instrumented) last_tokens then
          let extra_tokens := drop n instrumented in
          Some (rstrip last_str ++ (if is_empty extra_tokens then [] else u " " ++ shlex_join extra_tokens))
        else if shlex_join last_tokens =s? strip last_str then Some (shlex_join instrumented)
        else None in
      match new_last with
      | None => None
      | Some new_last =>
          let env := prefix_env adapter report_path in
          Some (if is_empty env then new_last else env ++ u " " ++ new_last)
      end
  end.

Definition instrument_with_adapters (cmd : list str) (report_path : str)
    (inner_adapters : list RunnerAdapter) : option (list str) :=
  match cmd with
  | shell :: _ :: shell_str :: _ =>
      let '(prefix, operator, last_str) := _split_last_cmd shell_str in
      match shlex_split last_str with
      | None => None
      | Some last_tokens =>
          match List.find (fun adapter => matches adapter last_tokens) inner_adapters with
          | None => None
          | Some adapter =>
              match instrument_segment adapter last_str last_tokens report_path with
              | None => None
              | Some new_last =>
                  Some [shell; u "-c"; if is_empty operator then new_last else prefix ++ operator ++ new_last]
              end
          end
      end
  | _ => None
  end.
End Shell.
End ShellAdapter.

(** ** The registry (runners/registry.py) *)

Section Registry.
Context `{UnicodeDB}.

Definition INNER_ADAPTERS : list RunnerAdapter :=
  [PytestAdapter; NodeTestAdapter; VitestAdapter; JestAdapter; GotestsumAdapter; RspecAdapter;
   MochaAdapter; MavenAdapter].

(** The shell adapter is told apart by its type. *)
Inductive adapter := AShell | AInner (a : RunnerAdapter).

Definition ADAPTERS : list adapter := AShell :: map AInner INNER_ADAPTERS.

Definition adapter_matches (a : adapter) (cmd : list str) : bool :=
  match a with AShell => ShellAdapter.shell_matches cmd | AInner a => matches a cmd end.

Definition instrument_with_registry (cmd : list str) (report_path : str)
    (adapters : list adapter) (inner_adapters : list RunnerAdapter)
    : list str * bool * list (str * str) :=
  match List.find (fun a => adapter_matches a cmd) adapters with
  | None => (cmd, false, [])
  | Some a =>
      let instrumented := match a with
        | AShell => ShellAdapter.instrument_with_adapters cmd report_path inner_adapters
        | AInner a => instrument a cmd report_path
        end in
      match instrumented with
      | Some out =>
          (out, true, match a with
                      | AInner a => match report_env a with Some env_fn => env_fn report_path | None => [] end
                      | AShell => []
                      end)
      | None => (cmd, false, [])
      end
  end.

Definition instrument_command (cmd : list str) (report_path : str) : list str * bool * list (str * str) :=
  instrument_with_registry cmd report_path ADAPTERS INNER_ADAPTERS.
End Registry.

(** ** The shell text that the split reads *)

Module ShellText.

(** At the top level of a script or inside a substitution. *)
Inductive place := Top | Nested.

Definition is_quotation (c : N) : Prop := (c = 39 \/ c = 34 \/ c = 96)%N.
Definition is_opener (c : N) : Prop := (c = 36 \/ c = 60 \/ c = 62)%N.

(** The text between two quotation marks [q]: a backslash escapes the next
    character, but not in single quotes. *)
Inductive quoted (q : N) : str -> Prop :=
| quoted_nil : quoted q []
| quoted_char c body : c <> q -> (c = 92%N -> q = 39%N) -> quoted q body -> quoted q (c :: body)
| quoted_escape c body : q <> 39%N -> quoted q body -> quoted q (92%N :: c :: body).

(** A control operator, between the characters around it; the mark of a comment
    counts as one, and the ampersand of a redirection does not. *)
Inductive operator (prev : option N) : str -> option N -> Prop :=
| operator_and next : operator prev (u "&&") next
| operator_or next : operator prev (u "||") next
| operator_pipe_all next : operator prev (u "|&") next
| operator_pipe next : next <> Some 124%N -> next <> Some 38%N -> operator prev (u "|") next
| operator_background p next : prev = Some p -> p <> 60%N -> p <> 62%N ->
    next <> Some 38%N -> next <> Some 62%N -> operator prev (u "&") next
| operator_semicolon next : operator prev (u ";") next
| operator_newline next : operator prev [10%N] next
| operator_comment next : (forall p, prev = Some p -> is_space p = true) -> operator prev (u "#") next.

(** A character that starts nothing. *)
Definition plain (at_ : place) (prev : option N) (c : N) (next : option N) : Prop :=
  c <> 92%N /\ ~ is_quotation c /\ ~ (is_opener c /\ next = Some 40%N) /\
  match at_ with
  | Top => ~ operator prev [c] next /\ forall d, next = Some d -> ~ operator prev [c; d] None
  | Nested => c <> 40%N /\ c <> 41%N
  end.

(** The character after a text that starts with [s] and goes on with [next]. *)
Definition after (s : str) (next : option N) : option N := match s with c :: _ => Some c | [] => next end.

(** [reads at_ prev ops s next]: between the characters [prev] and [next], [s] is a
    sequence of complete pieces - plain characters, escapes, quotations,
    substitutions and, at the top level, the operators [ops]. *)
Inductive reads : place -> option N -> list str -> str -> option N -> Prop :=
| reads_nil at_ prev next : reads at_ prev [] [] next
| reads_plain at_ prev c s ops next :
    plain at_ prev c (after s next) -> reads at_ (Some c) ops s next -> reads at_ prev ops (c :: s) next
| reads_escape at_ prev c s ops next :
    reads at_ (Some c) ops s next -> reads at_ prev ops (92%N :: c :: s) next
| reads_quotation at_ prev q body s ops next :
    is_quotation q -> quoted q body -> reads at_ (Some q) ops s next ->
    reads at_ prev ops (q :: body ++ q :: s) next
| reads_substitution at_ prev o body s ops next :
    is_opener o -> reads Nested (Some 40%N) [] body (Some 41%N) -> reads at_ (Some 41%N) ops s next ->
    reads at_ prev ops (o :: 40%N :: body ++ 41%N :: s) next
| reads_group prev body s next :
    reads Nested (Some 40%N) [] body (Some 41%N) -> reads Nested (Some 41%N) [] s next ->
    reads Nested prev [] (40%N :: body ++ 41%N :: s) next
| reads_operator prev w s ops next :
    operator prev w (after s next) -> reads Top (last w) ops s next -> reads Top prev (w :: ops) (w ++ s) next.

(** What may be left open at the end of a script: an escape, a quotation or a
    substitution. *)
Inductive unfinished : place -> str -> Prop :=
| unfinished_nothing at_ : unfinished at_ []
| unfinished_escape at_ : unfinished at_ [92%N]
| unfinished_quotation at_ q body rest :
    is_quotation q -> quoted q body -> rest = [] \/ (rest = [92%N] /\ q <> 39%N) ->
    unfinished at_ (q :: body ++ rest)
| unfinished_substitution at_ o body rest :
    is_opener o -> reads Nested (Some 40%N) [] body (head rest) -> unfinished Nested rest ->
    unfinished at_ (o :: 40%N :: body ++ rest)
| unfinished_group body rest :
    reads Nested (Some 40%N) [] body (head rest) -> unfinished Nested rest ->
    unfinished Nested (40%N :: body ++ rest).

(** A text to the end of the script without an operator at its top level. *)
Definition command_text (prev : option N) (s : str) : Prop :=
  exists text tail, s = text ++ tail /\ reads Top prev [] text (head tail) /\ unfinished Top tail.

(** The character before a text that comes after [front] and [prev]. *)
Definition before (prev : option N) (front : str) : option N :=
  match last front with Some c => Some c | None => prev end.

(** [s] ends with a command text behind its last operator; [ops] are the
    operators in front of that one. *)
Definition cut_at (prev : option N) (s front op seg : str) (ops : list str) : Prop :=
  s = front ++ op ++ seg /\ reads Top prev ops front (head (op ++ seg)) /\
  operator (before prev front) op (head seg) /\ command_text (last op) seg.

(** [last] is the text of the last command of a script, [kept] the text in front
    of it, [commented] whether the mark of a comment is among the operators there. *)
Definition last_command (commented : bool) (script kept last : str) : Prop :=
  exists lead trail, forallb is_space lead = true /\ forallb is_space trail = true /\
    ((script = lead ++ last ++ trail /\ command_text None script /\ kept = [] /\ commented = false) \/
     (exists front op ws, cut_at None script front op (lead ++ last ++ trail) ws /\
        kept = front ++ op ++ lead /\ commented = str_in (u "#") (ws ++ [op]))).
End ShellText.


(** * What instrumentation keeps *)

(** ** The contract of an adapter *)

(** [path] occurs in [w]. *)
Definition mentions (path w : str) : Prop := exists a b, w = a ++ path ++ b.

Definition env_of (a : RunnerAdapter) (path : str) : list (str * str) :=
  match report_env a with Some f => f path | None => [] end.

(** The laws the registry and the shell adapter rely on. *)
Class JudgeWired (a : RunnerAdapter) : Prop := {
  wired_keeps : forall cmd path out, instrument a cmd path = Some out -> cmd `sublist_of` out;
  wired_program : forall cmd path out, matches a cmd = true -> instrument a cmd path = Some out ->
    head out = head cmd;
  wired_report : forall cmd path out, matches a cmd = true -> instrument a cmd path = Some out ->
    exists w, In w (out ++ map snd (env_of a path)) /\ mentions path w;
  wired_names : forall path k v, In (k, v) (env_of a path) -> k <> [] /\ forallb shell_safe k = true;
}.

Lemma sublist_append {A} (l extra : list A) : l `sublist_of` l ++ extra.
Proof. by apply sublist_inserts_r. Qed.

Lemma sublist_between {A} (l1 extra l2 : list A) : l1 ++ l2 `sublist_of` l1 ++ extra ++ l2.
Proof. apply sublist_app; [done|by apply sublist_inserts_l]. Qed.

Lemma split_at_app t cmd before from : split_at t cmd = (before, from) -> cmd = before ++ from.
Proof.
  revert before. induction cmd as [|x cmd IH]; intros before; simpl; [by intros [= <- <-]|].
  destruct (x =s? t); [by intros [= <- <-]|]. destruct (split_at t cmd) as [a b].
  intros [= <- <-]. by rewrite (IH a).
Qed.

Lemma split_at_from t cmd before from :
  split_at t cmd = (before, from) -> str_in t cmd = true -> exists from', from = t :: from'.
Proof.
  unfold str_in. revert before. induction cmd as [|x cmd IH]; intros before; simpl; [done|].
  rewrite (str_eqb_sym t x). destruct (x =s? t) eqn:E.
  - intros [= <- <-] _. apply str_eqb_eq in E as ->. eauto.
  - destruct (split_at t cmd) as [a b]. intros [= <- <-] Hin. by apply (IH a).
Qed.

Lemma mentions_suffix a path : mentions path (a ++ path).
Proof. exists a, []. by rewrite app_nil_r. Qed.

Lemma head_app {A} (l extra : list A) : l <> [] -> head (l ++ extra) = head l.
Proof. by destruct l. Qed.

Section Wired.
Context `{UnicodeDB}.

Lemma invokes_nonempty cmd r : _invokes_runner cmd r = true -> cmd <> [].
Proof. by destruct cmd. Qed.

Lemma module_nonempty cmd m : _invokes_python_module cmd m = true -> cmd <> [].
Proof. by destruct cmd. Qed.

(** Adapters that only append tokens. *)
Lemma append_wired a :
  (forall cmd, matches a cmd = true -> cmd <> []) ->
  (forall cmd path out, instrument a cmd path = Some out ->
     exists extra, out = cmd ++ extra /\
       exists w, In w (extra ++ map snd (env_of a path)) /\ mentions path w) ->
  (forall path k v, In (k, v) (env_of a path) -> k <> [] /\ forallb shell_safe k = true) ->
  JudgeWired a.
Proof.
  intros Hne Ho Hn. split; [..|done].
  - intros cmd path out (extra & -> & _)%Ho. apply sublist_append.
  - intros cmd path out Hm%Hne (extra & -> & _)%Ho. by apply head_app.
  - intros cmd path out _ (extra & -> & w & Hw & Hp)%Ho. exists w. split; [|done].
    rewrite <- app_assoc. apply in_or_app. by right.
Qed.

#[export] Instance pytest_wired : JudgeWired PytestAdapter.
Proof.
  apply append_wired; [| |done].
  - intros cmd [Hm|Hm]%orb_true_iff; [by eapply invokes_nonempty|by eapply module_nonempty].
  - intros cmd path out [= <-]. eexists. split; [done|].
    exists (u "--junitxml=" ++ path). split; [by left|apply mentions_suffix].
Qed.

#[export] Instance vitest_wired : JudgeWired VitestAdapter.
Proof.
  apply append_wired; [intros cmd; apply invokes_nonempty| |done].
  intros cmd path out. simpl. case_if; [done|]. intros [= <-]. eexists. split; [done|].
  exists (u "--outputFile=" ++ path). split; [do 2 right; by left|apply mentions_suffix].
Qed.

#[export] Instance jest_wired : JudgeWired JestAdapter.
Proof.
  apply append_wired; [intros cmd; apply invokes_nonempty| |].
  - intros cmd path out. simpl. case_if; [done|]. intros [= <-]. eexists. split; [done|].
    exists path. split; [do 2 right; by left|by exists [], []; rewrite app_nil_r].
  - intros path k v [[= <- <-]|[]]. split; [done|]. vm_compute. reflexivity.
Qed.

#[export] Instance rspec_wired : JudgeWired RspecAdapter.
Proof.
  apply append_wired; [intros cmd; apply invokes_nonempty| |done].
  intros cmd path out. simpl. case_if; [done|]. intros [= <-]. eexists. split; [done|].
  exists path. split; [do 5 right; by left|by exists [], []; rewrite app_nil_r].
Qed.

#[export] Instance mocha_wired : JudgeWired MochaAdapter.
Proof.
  apply append_wired; [intros cmd; apply invokes_nonempty| |done].
  intros cmd path out. simpl. case_if; [done|]. intros [= <-]. eexists. split; [done|].
  exists (u "mochaFile=" ++ path). split; [do 3 right; by left|apply mentions_suffix].
Qed.

#[export] Instance maven_wired : JudgeWired MavenAdapter.
Proof.
  apply append_wired; [by intros []| |done].
  intros cmd path out. simpl. case_if; [done|]. intros [= <-]. eexists. split; [done|].
  exists (u "-Dsurefire.reportsDirectory=" ++ path ++ u ".d"). split; [by left|]. by exists (u "-Dsurefire.reportsDirectory="), (u ".d").
Qed.

#[export] Instance node_wired : JudgeWired NodeTestAdapter.
Proof.
  split; [| | |done].
  - intros cmd path out. simpl. case_if; [done|].
    destruct (split_at (u "--test") cmd) as [b f] eqn:E. intros [= <-].
    apply split_at_app in E as ->. apply sublist_app; [done|]. destruct f as [|x f]; [apply sublist_nil_l|].
    simpl. by repeat constructor.
  - intros cmd path out Hm. simpl in *. destruct cmd as [|x cmd]; [done|].
    apply andb_true_iff in Hm as [_ Hm]. case_if; [done|].
    destruct (split_at (u "--test") (x :: cmd)) as [b f] eqn:E. intros [= <-].
    pose proof (split_at_app _ _ _ _ E) as Hc. destruct (split_at_from _ _ _ _ E Hm) as (f' & ->).
    rewrite Hc. by destruct b.
  - intros cmd path out _. simpl. case_if; [done|].
    destruct (split_at (u "--test") cmd) as [b f] eqn:E. intros [= <-].
    exists (u "--test-reporter-destination=" ++ path). split; [|apply mentions_suffix].
    rewrite app_nil_r. do 2 (apply in_or_app; right). right. by left.
Qed.

(** A command that starts with the end-of-options marker invokes no runner. *)
Lemma marker_invokes_none r cmd : r <> u "--" -> _invokes_runner (u "--" :: cmd) r = false.
Proof.
  intros Hr. assert (He : _executable_name (u "--") = u "--").
  { unfold _executable_name. change (nt_basename (rstrip_by is_sep (u "--"))) with [45; 45]%N.
    cbn [casefold flat_map]. rewrite !ucd_fold_ascii by done. reflexivity. }
  unfold _invokes_runner, _wrapped_command_index. rewrite He.
  assert (Hf : (u "--" =s? r) = false) by (by apply str_eqb_neq, not_eq_sym). by rewrite Hf.
Qed.

#[export] Instance gotestsum_wired : JudgeWired GotestsumAdapter.
Proof.
  split; [| | |done].
  - intros cmd path out. simpl. case_if; [done|]. case_if.
    + destruct (split_at (u "--") cmd) as [b f] eqn:E. intros [= <-]. apply split_at_app in E as ->.
      apply sublist_app; [done|by constructor].
    + intros [= <-]. apply sublist_append.
  - intros cmd path out Hm. simpl in *. case_if; [done|]. pose proof (invokes_nonempty _ _ Hm) as Hne. case_if.
    + destruct (split_at (u "--") cmd) as [b f] eqn:E. intros [= <-].
      destruct (split_at_from _ _ _ _ E Heqb0) as (f' & ->). apply split_at_app in E as ->.
      destruct b as [|x b]; [|done]. cbn [app] in Hm. by rewrite marker_invokes_none in Hm.
    + intros [= <-]. by apply head_app.
  - intros cmd path out _. simpl. case_if; [done|]. rewrite app_nil_r.
    intros Ho. exists (u "--junitfile=" ++ path). split; [|apply mentions_suffix]. revert Ho. case_if.
    + destruct (split_at (u "--") cmd) as [b f] eqn:E. intros [= <-]. apply in_or_app. right. by left.
    + intros [= <-]. apply in_or_app. right. by left.
Qed.

Lemma inner_wired a : In a INNER_ADAPTERS -> JudgeWired a.
Proof. intros Ha. repeat destruct Ha as [<-|Ha]; try apply _. done. Qed.
End Wired.

(** ** The words of an instrumented segment *)

Lemma lex_quote_word token w r :
  exists quoted, lex LWord token false (shlex_quote w ++ r) = lex LWord (token ++ w) quoted r.
Proof.
  unfold shlex_quote. destruct w as [|c w]; [exists true; by rewrite app_nil_r|]. cbn [is_empty].
  destruct (forallb shell_safe (c :: w)) eqn:E.
  - exists false. by apply lex_safe_word.
  - exists true. rewrite <- app_comm_cons, <- app_assoc.
    match goal with |- lex _ _ _ (39%N :: ?x) = _ =>
      change (lex LWord token false (39%N :: x)) with (lex (LQuote 39) token false x);
      rewrite lex_quote_seen; [apply (lex_quoted_body token (c :: w) r)|] end.
    intros Hn. apply app_eq_nil in Hn as [_ Hn]. done.
Qed.

(** An assignment as the shell reads it, and as it is written. *)
Definition assignment (kv : str * str) : str := fst kv ++ [61%N] ++ snd kv.
Definition assignment_text (kv : str * str) : str := fst kv ++ [61%N] ++ shlex_quote (snd kv).

Lemma lex_assignment kv r :
  fst kv <> [] -> forallb shell_safe (fst kv) = true ->
  exists quoted, word_open quoted (assignment kv) = true /\
    lex LSpace [] false (assignment_text kv ++ r) = lex LWord (assignment kv) quoted r.
Proof.
  destruct kv as [[|c k] v]; [done|]. intros _ Hk. unfold assignment, assignment_text. cbn [fst snd] in *.
  pose proof Hk as Hk'. cbn [forallb] in Hk'. apply andb_true_iff in Hk' as [Hc Hk'].
  destruct (shell_safe_plain c Hc) as (H1 & H2 & H3).
  destruct (lex_quote_word ((c :: k) ++ [61%N]) v r) as (q & Hq). exists q.
  split; [unfold word_open; by rewrite orb_true_r|]. rewrite <- !app_assoc. cbn [app lex].
  rewrite H1, H2, H3, lex_safe_word by done. cbn [app lex] in *. rewrite <- app_assoc in Hq. exact Hq.
Qed.

(** Assignments in front of a command are read as words of their own. *)
Lemma lex_assignments env s :
  env <> [] -> (forall kv, In kv env -> fst kv <> [] /\ forallb shell_safe (fst kv) = true) ->
  shlex_split (py_join (u " ") (map assignment_text env) ++ 32%N :: s)
  = match shlex_split s with Some l => Some (map assignment env ++ l) | None => None end.
Proof.
  intros Hne Hok. unfold shlex_split. induction env as [|kv env IH]; [done|].
  destruct (Hok kv ltac:(by left)) as [Hk Hs]. destruct env as [|kv2 env].
  - cbn [map py_join]. destruct (lex_assignment kv (32%N :: s) Hk Hs) as (q & Hq & Hl).
    rewrite Hl, lex_word_space, Hq. done.
  - cbn [map] in *. rewrite join_cons_space, <- app_assoc, <- app_comm_cons.
    match goal with |- lex _ _ _ (_ ++ 32%N :: ?x) = _ =>
      destruct (lex_assignment kv (32%N :: x) Hk Hs) as (q & Hq & Hl) end.
    rewrite Hl, lex_word_space, Hq, IH; [|done|intros kv' Hin; apply Hok; by right].
    by destruct (lex LSpace [] false s).
Qed.

Lemma join_nonempty x l : x <> [] -> py_join (u " ") (x :: l) <> [].
Proof. destruct x; [done|]. by destruct l. Qed.

Lemma drop_while_idem f s : drop_while f (drop_while f s) = drop_while f s.
Proof. induction s as [|c s IH]; [done|]. simpl. destruct (f c) eqn:E; [done|]. simpl. by rewrite E. Qed.

Lemma rstrip_strip s : rstrip (strip s) = strip s.
Proof. unfold rstrip, strip, strip_by, rstrip_by. by rewrite rev_involutive, drop_while_idem. Qed.

(** ** The split is at the last operator *)

Section ShellTextProofs.
Import ShellAdapter ShellText.
Abbreviation mk q e d ops := {| sc_quote := q; sc_escaped := e; sc_depth := d; sc_operators := ops |}.

Lemma head_after (a b : str) : head (a ++ b) = after a (head b).
Proof. by destruct a. Qed.

Lemma quotation_bool c : is_quotation c <-> ((c =? 39) || (c =? 34) || (c =? 96))%N = true.
Proof. unfold is_quotation. rewrite !orb_true_iff, !N.eqb_eq. tauto. Qed.

Lemma opener_bool c : is_opener c <-> ((c =? 36) || (c =? 60) || (c =? 62))%N = true.
Proof. unfold is_opener. rewrite !orb_true_iff, !N.eqb_eq. tauto. Qed.

(** ** The scan, step by step *)

Lemma scan_escape q d ops i p c s :
  q <> Some 39%N ->
  scan_from (mk q false d ops) i p (92%N :: c :: s) = scan_from (mk q false d ops) (S (S i)) (Some c) s.
Proof.
  intros Hq. cbn [scan_from]. unfold scan_step. cbn [sc_escaped sc_quote].
  assert (match q with Some q => (q =? 39)%N | None => false end = false) as ->
    by (destruct q; [apply N.eqb_neq; congruence|done]). done.
Qed.

Lemma scan_escape_end q d ops i p :
  q <> Some 39%N -> sc_operators (scan_from (mk q false d ops) i p [92%N]) = ops.
Proof.
  intros Hq. cbn [scan_from]. unfold scan_step. cbn [sc_escaped sc_quote].
  assert (match q with Some q => (q =? 39)%N | None => false end = false) as ->
    by (destruct q; [apply N.eqb_neq; congruence|done]). done.
Qed.

Lemma scan_in_quote q d ops i p c s :
  (c = 92%N -> q = 39%N) ->
  scan_from (mk (Some q) false d ops) i p (c :: s)
  = scan_from (mk (if (c =? q)%N then None else Some q) false d ops) (S i) (Some c) s.
Proof.
  intros Hc. cbn [scan_from]. unfold scan_step. cbn [sc_escaped sc_quote].
  assert ((c =? 92)%N && negb (q =? 39)%N = false) as ->.
  { destruct (N.eqb_spec c 92) as [He|]; [|done]. by rewrite (Hc He). }
  by destruct (c =? q)%N.
Qed.

Lemma scan_open_quote d ops i p c s :
  is_quotation c ->
  scan_from (mk None false d ops) i p (c :: s) = scan_from (mk (Some c) false d ops) (S i) (Some c) s.
Proof.
  intros Hc. assert ((c =? 92)%N = false) as E by (apply N.eqb_neq; destruct Hc as [->|[->| ->]]; done).
  apply quotation_bool in Hc. cbn [scan_from]. unfold scan_step. cbn [sc_escaped sc_quote]. by rewrite E, Hc.
Qed.

Lemma scan_open_substitution d ops i p o s :
  is_opener o ->
  scan_from (mk None false d ops) i p (o :: 40%N :: s) = scan_from (mk None false (S d) ops) (S (S i)) (Some 40%N) s.
Proof. by intros [->|[->| ->]]. Qed.

Lemma scan_nested d ops i p c s :
  c <> 92%N -> ~ is_quotation c -> ~ (is_opener c /\ head s = Some 40%N) ->
  scan_from (mk None false (S d) ops) i p (c :: s)
  = scan_from (mk None false (if (c =? 41)%N then d else if (c =? 40)%N then S (S d) else S d) ops)
      (S i) (Some c) s.
Proof.
  intros H1 H2 H3. cbn [scan_from]. unfold scan_step. cbn [sc_escaped sc_quote sc_depth].
  apply N.eqb_neq in H1. rewrite H1. cbn [andb].
  rewrite quotation_bool in H2. apply not_true_is_false in H2. rewrite H2.
  rewrite opener_bool in H3.
  match goal with |- context [?a && ?b] => assert (a && b = false) as -> end.
  { apply not_true_is_false. intros [Ho Hn]%andb_true_iff. apply H3. split; [done|].
    destruct (head s); [by apply N.eqb_eq in Hn as ->|done]. }
  cbn [Nat.ltb Nat.leb]. by destruct (c =? 41)%N, (c =? 40)%N.
Qed.

(** What the scan finds inside a quotation. *)
Lemma scan_quotation q d ops n s i p :
  is_quotation q -> (length s <= n)%nat ->
  (exists body s', s = body ++ q :: s' /\ quoted q body /\
     scan_from (mk (Some q) false d ops) i p s = scan_from (mk None false d ops) (i + length body + 1) (Some q) s') \/
  (exists body rest, s = body ++ rest /\ quoted q body /\ (rest = [] \/ rest = [92%N] /\ q <> 39%N) /\
     sc_operators (scan_from (mk (Some q) false d ops) i p s) = ops).
Proof.
  intros Hq. assert (H92 : q <> 92%N) by (destruct Hq as [->|[->| ->]]; done).
  revert s i p. induction n as [|n IH]; intros [|c s] i p Hl; simpl in Hl; try lia;
    try (right; exists [], []; split_and!; [done|constructor|by left|done]).
  destruct (decide (c = q)) as [->|Hcq].
  { left. exists [], s. split_and!; [done|constructor|]. rewrite scan_in_quote by done.
    rewrite N.eqb_refl. simpl. f_equal. lia. }
  destruct (decide (c = 92%N /\ q <> 39%N)) as [[-> H39]|Hplain].
  - destruct s as [|c s]; [right; exists [], [92%N]; split_and!; [done|constructor|by right|]|].
    { apply scan_escape_end. congruence. }
    rewrite scan_escape by congruence.
    destruct (IH s (S (S i)) (Some c)) as [(body & s' & -> & Hb & ->)|(body & rest & -> & Hb & Hr & ->)]; [simpl in Hl; lia| |].
    + left. exists (92%N :: c :: body), s'. split_and!; [done|by constructor|]. f_equal. simpl. lia.
    + right. exists (92%N :: c :: body), rest. split_and!; [done|by constructor|done|done].
  - assert (Hc : c = 92%N -> q = 39%N) by (intros ->; destruct (decide (q = 39%N)); [done|by destruct Hplain]).
    rewrite scan_in_quote by done. apply N.eqb_neq in Hcq as ->%not_true_iff_false || (assert ((c =? q)%N = false) as -> by by apply N.eqb_neq).
    destruct (IH s (S i) (Some c)) as [(body & s' & -> & Hb & ->)|(body & rest & -> & Hb & Hr & ->)]; [lia| |].
    + left. exists (c :: body), s'. split_and!; [done|by constructor|]. f_equal. simpl. lia.
    + right. exists (c :: body), rest. split_and!; [done|by constructor|done|done].
Qed.

(** What the scan of a place does with a piece [w]: nothing but to move behind it. *)
Definition piece at_ d ops i p w p' s : Prop :=
  scan_from (mk None false d ops) i p (w ++ s) = scan_from (mk None false d ops) (i + length w) p' s /\
  forall ws text next, after text next = head s -> reads at_ p' ws text next -> reads at_ p ws (w ++ text) next.

Definition piece_result at_ d ops i p s : Prop :=
  (exists w c s', s = w ++ s' /\ last w = Some c /\ piece at_ d ops i p w (Some c) s') \/
  (unfinished at_ s /\ sc_operators (scan_from (mk None false d ops) i p s) = ops).

(** What the scan finds inside a substitution. *)
Definition nested_result d ops i p s : Prop :=
  (exists body s', s = body ++ 41%N :: s' /\ reads Nested p [] body (Some 41%N) /\
     scan_from (mk None false (S d) ops) i p s = scan_from (mk None false d ops) (i + length body + 1) (Some 41%N) s') \/
  (exists body rest, s = body ++ rest /\ reads Nested p [] body (head rest) /\ unfinished Nested rest /\
     sc_operators (scan_from (mk None false (S d) ops) i p s) = ops).

Definition starts_piece (c : N) (s : str) : Prop :=
  c = 92%N \/ is_quotation c \/ (is_opener c /\ head s = Some 40%N).

Lemma enclosed (a : str) (b : list N) (q : N) (s : str) : a ++ b ++ q :: s = (a ++ b ++ [q]) ++ s.
Proof. by rewrite <- !app_assoc. Qed.

Lemma scan_piece at_ c s d ops i p :
  starts_piece c s ->
  (forall s' i p, (length s' < length s)%nat -> nested_result d ops i p s') ->
  piece_result at_ d ops i p (c :: s).
Proof.
  intros Hc IH. destruct Hc as [->|[Hq|[Ho Hh]]].
  - destruct s as [|c s]; [right; split; [constructor|by apply scan_escape_end]|].
    left. exists [92; c]%N, c, s. split_and!; [done|done|]. split; [|intros ws text next _; apply reads_escape].
    cbn [app]. rewrite scan_escape by done. f_equal. simpl. lia.
  - destruct (scan_quotation c d ops (length s) s (S i) (Some c) Hq)
      as [(body & s' & -> & Hb & He)|(body & rest & -> & Hb & Hr & He)]; [done| |].
    + left. exists ([c] ++ body ++ [c]), c, s'. rewrite <- enclosed. split_and!; [done|by rewrite !last_app|]. split.
      * rewrite <- enclosed. cbn [app]. rewrite scan_open_quote, He by done. f_equal. simpl. rewrite length_app. simpl. lia.
      * intros ws text next _ Hr. rewrite <- enclosed. by apply reads_quotation.
    + right. split; [by constructor|]. by rewrite scan_open_quote.
  - destruct s as [|x s]; [done|]. injection Hh as ->.
    destruct (IH s (S (S i)) (Some 40%N)) as [(body & s' & -> & Hb & He)|(body & rest & -> & Hb & Hr & He)]; [simpl; lia| |].
    + left. exists ([c; 40%N] ++ body ++ [41%N]), 41%N, s'. rewrite <- enclosed. split_and!; [done|by rewrite !last_app|]. split.
      * rewrite <- enclosed. cbn [app]. rewrite scan_open_substitution, He by done. f_equal.
        simpl. rewrite length_app. simpl. lia.
      * intros ws text next _ Hr. rewrite <- enclosed. by apply reads_substitution.
    + right. split; [by constructor|]. by rewrite scan_open_substitution.
Qed.

Lemma starts_piece_dec c s : starts_piece c s \/ ~ starts_piece c s.
Proof.
  unfold starts_piece. rewrite quotation_bool, opener_bool.
  destruct (decide (c = 92%N)); [tauto|]. destruct ((c =? 39) || (c =? 34) || (c =? 96))%N; [tauto|].
  destruct ((c =? 36) || (c =? 60) || (c =? 62))%N; [|right; naive_solver].
  destruct (decide (head s = Some 40%N)); [tauto|right; naive_solver].
Qed.

(** A piece in front of what is found from its last character on. *)
Lemma nested_piece d ops i p w p' s :
  piece Nested (S d) ops i p w p' s -> nested_result d ops (i + length w) p' s -> nested_result d ops i p (w ++ s).
Proof.
  intros [Hs Hw] [(body & s' & -> & Hr & He)|(body & rest & -> & Hr & Hu & He)].
  - left. exists (w ++ body), s'. rewrite Hs, He, <- app_assoc. split_and!; [done| |].
    + apply Hw; [by rewrite head_after|done].
    + f_equal. rewrite length_app. lia.
  - right. exists (w ++ body), rest. rewrite Hs, He, <- app_assoc. split_and!; [done| |done|done].
    apply Hw; [by rewrite head_after|done].
Qed.

Lemma nested_open d ops i p s :
  unfinished Nested s -> sc_operators (scan_from (mk None false (S d) ops) i p s) = ops -> nested_result d ops i p s.
Proof. intros Hu Ho. right. exists [], s. split_and!; [done|constructor|done|done]. Qed.

Lemma scan_substitution n s d ops i p : (length s <= n)%nat -> nested_result d ops i p s.
Proof.
  revert s d i p. induction n as [|n IH]; intros [|c s] d i p Hl; simpl in Hl; try lia;
    try (by apply nested_open; [constructor|]).
  destruct (starts_piece_dec c s) as [Hc|Hc].
  { destruct (scan_piece Nested c s (S d) ops i p Hc) as [(w & p' & s' & Hs & Hne & Hp)|[Hu Ho]].
    - intros s' i' p' Hl'. apply IH. lia.
    - rewrite Hs. apply (nested_piece _ _ _ _ _ (Some p')); [done|]. apply IH.
      apply (f_equal length) in Hs. rewrite length_app in Hs. destruct w; [done|]. simpl in Hs. lia.
    - by apply nested_open. }
  unfold starts_piece in Hc. assert (c <> 92%N /\ ~ is_quotation c /\ ~ (is_opener c /\ head s = Some 40%N)) as (H1 & H2 & H3) by tauto.
  pose proof (scan_nested d ops i p c s H1 H2 H3) as Hs.
  destruct (N.eqb_spec c 41) as [->|H41].
  { left. exists [], s. split_and!; [done|constructor|]. rewrite Hs. f_equal. simpl. lia. }
  destruct (N.eqb_spec c 40) as [->|H40].
  - destruct (IH s (S d) (S i) (Some 40%N)) as [(body & s' & -> & Hb & He)|(body & rest & -> & Hb & Hr & He)]; [lia| |].
    + change (40%N :: body ++ 41%N :: s') with ([40%N] ++ body ++ 41%N :: s').
      rewrite enclosed. apply (nested_piece _ _ _ _ _ (Some 41%N)).
      * split; [rewrite <- enclosed; cbn [app]; rewrite Hs, He; f_equal; simpl; rewrite length_app; simpl; lia|].
        intros ws text next _ Hr. rewrite <- enclosed. 
        assert (ws = []) as -> by (remember Nested as pl; clear -Hr Heqpl; induction Hr; auto; done).
        by apply reads_group.
      * apply IH. rewrite length_app in Hl. simpl in Hl. lia.
    + apply nested_open; [by constructor|]. by rewrite Hs.
  - change (c :: s) with ([c] ++ s). apply (nested_piece _ _ _ _ _ (Some c)); [|apply IH; lia].
    split; [cbn [app]; rewrite Hs; f_equal; simpl; lia|].
    intros ws text next Ha. apply reads_plain. rewrite Ha. done.
Qed.

(** ** The top level *)

Definition top_result ops i p s : Prop :=
  let final := sc_operators (scan_from (mk None false 0 ops) i p s) in
  (command_text p s /\ final = ops) \/
  (exists front op seg ws, cut_at p s front op seg ws /\ head final = Some (i + length front, length op)%nat).

Lemma two_character_operator p c d next : operator p [c; d] next -> (c = 38 /\ d = 38 \/ c = 124 /\ d = 124 \/ c = 124 /\ d = 38)%N.
Proof. remember [c; d] as w. intros Ho. destruct Ho; vm_compute in Heqw; try discriminate Heqw; injection Heqw as <- <-; tauto. Qed.

Lemma one_character_operator p c next :
  operator p [c] next ->
  (c = 124 /\ next <> Some 124 /\ next <> Some 38)%N \/
  (c = 38 /\ next <> Some 38 /\ next <> Some 62 /\ exists q, p = Some q /\ q <> 60 /\ q <> 62)%N \/
  (c = 59 \/ c = 10)%N \/ (c = 35%N /\ forall q, p = Some q -> is_space q = true).
Proof.
  remember [c] as w. intros Ho. destruct Ho; vm_compute in Heqw; try discriminate Heqw; injection Heqw as <-;
    [left|right; left|right; right; left|right; right; left|do 3 right]; naive_solver.
Qed.

(** One character at the top level that starts no piece. *)
Lemma scan_top p c s ops i :
  ~ starts_piece c s ->
  (exists op s', c :: s = op ++ s' /\ operator p op (head s') /\
     scan_from (mk None false 0 ops) i p (c :: s)
     = scan_from (mk None false 0 ((i, length op) :: ops)) (i + length op) (last op) s') \/
  (plain Top p c (head s) /\
     scan_from (mk None false 0 ops) i p (c :: s) = scan_from (mk None false 0 ops) (S i) (Some c) s).
Proof.
  intros Hc. unfold starts_piece in Hc.
  assert (c <> 92%N /\ ~ is_quotation c /\ ~ (is_opener c /\ head s = Some 40%N)) as (H1 & H2 & H3) by tauto.
  cbn [scan_from]. unfold scan_step. cbn [sc_escaped sc_quote sc_depth].
  pose proof H1 as E1. apply N.eqb_neq in E1. rewrite E1. cbn [andb].
  pose proof H2 as E2. rewrite quotation_bool in E2. apply not_true_is_false in E2. rewrite E2.
  pose proof H3 as E3. rewrite opener_bool in E3.
  match goal with |- context [?a && ?b] => assert (a && b = false) as -> end.
  { apply not_true_is_false. intros [Ho Hn]%andb_true_iff. apply E3. split; [done|].
    destruct (head s); [by apply N.eqb_eq in Hn as ->|done]. }
  change (0 <? 0)%nat with false. cbv iota. unfold with_op. cbn [sc_quote sc_escaped sc_depth sc_operators].
  assert (Hplain : (~ operator p [c] (head s)) -> (forall d, head s = Some d -> ~ operator p [c; d] None) ->
    plain Top p c (head s)) by (intros; split_and!; done).
  destruct (N.eqb_spec c 38) as [->|H38]; cbn [andb orb].
  { destruct s as [|d s]; cbn [head] in *.
    - change (38 =? 124)%N with false. cbn [andb orb].
      destruct p as [q|].
      + cbn [negb andb]. rewrite andb_true_r. destruct ((q =? 60) || (q =? 62))%N eqn:Eq; cbn [negb].
        * right. split; [|done]. apply Hplain; [|done]. rewrite orb_true_iff, !N.eqb_eq in Eq.
          intros Ho%one_character_operator. naive_solver.
        * left. exists [38%N], []. split_and!; [done| |f_equal; simpl; lia].
          apply orb_false_iff in Eq as [?%N.eqb_neq ?%N.eqb_neq]. by eapply operator_background.
      + right. split; [|done]. apply Hplain; [|done]. intros Ho%one_character_operator. naive_solver.
    - destruct (N.eqb_spec d 38) as [->|Hd]; cbn [andb orb].
      + left. exists [38; 38]%N, s. split_and!; [done|constructor|f_equal; simpl; lia].
      + change (38 =? 124)%N with false. cbn [andb orb].
        destruct (match p with Some p => negb ((p =? 60) || (p =? 62))%N | None => false end && negb (d =? 62)%N) eqn:Eq.
        * left. exists [38%N], (d :: s). split_and!; [done| |f_equal; simpl; lia].
          apply andb_true_iff in Eq as [Ep Ed]. destruct p as [q|]; [|done].
          apply negb_true_iff, orb_false_iff in Ep as [?%N.eqb_neq ?%N.eqb_neq]. apply negb_true_iff, N.eqb_neq in Ed.
          apply (operator_background _ q); simpl; [done|done|done|congruence|congruence].
        * right. split; [|done]. apply Hplain.
          -- intros Ho%one_character_operator. destruct Ho as [Ho|[Ho|[Ho|Ho]]]; [naive_solver| |naive_solver|naive_solver].
             destruct Ho as (_ & _ & H62 & q & -> & Hq1 & Hq2).
             apply N.eqb_neq in Hq1, Hq2. rewrite Hq1, Hq2 in Eq. cbn [orb negb andb] in Eq.
             apply negb_false_iff, N.eqb_eq in Eq. congruence.
          -- intros d' [= <-] Ho%two_character_operator. naive_solver. }
  destruct (N.eqb_spec c 124) as [->|H124]; cbn [andb orb].
  { destruct s as [|d s]; cbn [head] in *.
    - left. exists [124%N], []. split_and!; [done|by constructor|f_equal; simpl; lia].
    - destruct (N.eqb_spec d 124) as [->|Hd]; cbn [andb orb].
      { left. exists [124; 124]%N, s. split_and!; [done|constructor|f_equal; simpl; lia]. }
      destruct (N.eqb_spec d 38) as [->|Hd'].
      { left. exists [124; 38]%N, s. split_and!; [done|constructor|f_equal; simpl; lia]. }
      left. exists [124%N], (d :: s). split_and!; [done|constructor; simpl; congruence|f_equal; simpl; lia]. }
  destruct ((c =? 59) || (c =? 10))%N eqn:Esep.
  { left. exists [c], s. split_and!; [done| |f_equal; simpl; lia].
    rewrite orb_true_iff, !N.eqb_eq in Esep. destruct Esep as [->| ->]; constructor. }
  apply orb_false_iff in Esep as [H59%N.eqb_neq H10%N.eqb_neq].
  destruct ((c =? 35)%N && match p with Some p => is_space p | None => true end) eqn:Ehash.
  { left. apply andb_true_iff in Ehash as [->%N.eqb_eq Hp]. exists [35%N], s. split_and!; [done| |f_equal; simpl; lia].
    constructor. by intros q ->. }
  right. split; [|done]. apply Hplain.
  - intros Ho%one_character_operator. destruct Ho as [Ho|[Ho|[Ho|[-> Ho]]]]; [naive_solver|naive_solver|naive_solver|].
    cbn in Ehash. destruct p as [q|]; [|done]. by rewrite (Ho q) in Ehash.
  - intros d _ Ho%two_character_operator. naive_solver.
Qed.

Lemma before_app p (w front : str) p' : last w = Some p' -> before p (w ++ front) = before (Some p') front.
Proof. intros Hw. unfold before. rewrite last_app, Hw. by destruct (last front). Qed.

(** A piece, or an operator, in front of what is found behind it. *)
Lemma top_piece ops i p w p' s :
  last w = Some p' -> piece Top 0 ops i p w (Some p') s -> top_result ops (i + length w) (Some p') s -> top_result ops i p (w ++ s).
Proof.
  intros Hl [Hs Hw] [((text & tail & -> & Hr & Hu) & He)|(front & op & seg & ws & (-> & Hr & Ho & Hc) & He)];
    unfold top_result; cbv zeta; rewrite Hs; [left|right].
  - split; [|done]. exists (w ++ text), tail. rewrite <- app_assoc. split_and!; [done| |done].
    apply Hw; [by rewrite head_after|done].
  - exists (w ++ front), op, seg, ws. rewrite He, length_app. split; [|do 2 f_equal; lia].
    split_and!; [by rewrite <- app_assoc| | |done].
    + apply Hw; [by rewrite (head_after front)|done].
    + by rewrite (before_app _ _ _ p').
Qed.

Lemma operator_last p op next : operator p op next -> exists c, last op = Some c.
Proof. destruct 1; eexists; reflexivity. Qed.

Lemma top_operator ops i p op s :
  operator p op (head s) ->
  scan_from (mk None false 0 ops) i p (op ++ s)
  = scan_from (mk None false 0 ((i, length op) :: ops)) (i + length op) (last op) s ->
  top_result ((i, length op) :: ops) (i + length op) (last op) s -> top_result ops i p (op ++ s).
Proof.
  intros Ho Hs Hr. destruct (operator_last _ _ _ Ho) as (x & Hx).
  unfold top_result in *. cbv zeta in *. rewrite Hs. right.
  destruct Hr as [(Hc & He)|(front & op' & seg & ws & (-> & Hr & Ho' & Hc) & He)].
  - exists [], op, s, []. split; [|rewrite He; simpl; do 2 f_equal; lia].
    split_and!; [done|constructor|done|done].
  - exists (op ++ front), op', seg, (op :: ws). rewrite He, length_app. split; [|do 2 f_equal; lia].
    split_and!; [by rewrite <- app_assoc| | |done].
    + apply reads_operator; [by rewrite <- head_after|done].
    + rewrite (before_app _ _ _ x) by done. by rewrite Hx in Ho'.
Qed.

Lemma scan_script n s ops i p : (length s <= n)%nat -> top_result ops i p s.
Proof.
  revert s ops i p. induction n as [|n IH]; intros [|c s] ops i p Hl; simpl in Hl; try lia;
    try (by left; split; [exists [], []; split_and!; constructor|]).
  destruct (starts_piece_dec c s) as [Hc|Hc].
  - destruct (scan_piece Top c s 0 ops i p Hc) as [(w & p' & s' & Hs & Hne & Hp)|[Hu Ho]].
    + intros s' i' p' Hl'. eapply scan_substitution. done.
    + rewrite Hs. apply (top_piece _ _ _ _ p'); [done|done|]. apply IH.
      apply (f_equal length) in Hs. rewrite length_app in Hs. destruct w; [done|]. simpl in Hs. lia.
    + left. split; [exists [], (c :: s); split_and!; [done|constructor|done]|done].
  - destruct (scan_top p c s ops i Hc) as [(op & s' & Hs & Ho & He)|[Hp He]].
    + rewrite Hs in *. apply top_operator; [done|done|]. apply IH.
      apply (f_equal length) in Hs. rewrite length_app in Hs. destruct (operator_last _ _ _ Ho) as [x Hx].
      destruct op; [done|]. simpl in Hs. lia.
    + change (c :: s) with ([c] ++ s). apply (top_piece _ _ _ _ c); [done| |apply IH; lia].
      split; [cbn [app]; rewrite He; f_equal; simpl; lia|].
      intros ws text next Ha. apply reads_plain. by rewrite Ha.
Qed.
(** ** The grammar determines the scan *)

Lemma before_cons p c (s : str) : before p (c :: s) = before (Some c) s.
Proof. apply (before_app p [c] s c). done. Qed.

Lemma before_end p (a : str) c (s : str) : before p (a ++ c :: s) = before (Some c) s.
Proof. change (c :: s) with ([c] ++ s). rewrite app_assoc. apply before_app. by rewrite last_app. Qed.

Lemma quoted_scan q body d ops i p s :
  is_quotation q -> quoted q body ->
  scan_from (mk (Some q) false d ops) i p (body ++ s)
  = scan_from (mk (Some q) false d ops) (i + length body) (before p body) s.
Proof.
  intros Hq Hb. revert i p. induction Hb as [|c body Hc H92 _ IH|c body H39 _ IH]; intros i p.
  - cbn [app length]. by rewrite Nat.add_0_r.
  - cbn [app]. rewrite scan_in_quote by done. apply N.eqb_neq in Hc. rewrite Hc, IH, before_cons. f_equal. simpl. lia.
  - cbn [app]. rewrite scan_escape by congruence. rewrite IH, !before_cons. f_equal. simpl. lia.
Qed.

Lemma plain_no_piece at_ p c s : plain at_ p c (head s) -> ~ starts_piece c s.
Proof. unfold plain, starts_piece. tauto. Qed.

Lemma operator_shape p op next :
  operator p op next -> (exists c, op = [c]) \/ (exists c d, op = [c; d] /\ forall next', operator p op next').
Proof. destruct 1; first [left; eexists; reflexivity | right; do 2 eexists; split; [reflexivity|constructor]]. Qed.

Lemma plain_scan p c s ops i :
  plain Top p c (head s) ->
  scan_from (mk None false 0 ops) i p (c :: s) = scan_from (mk None false 0 ops) (S i) (Some c) s.
Proof.
  intros Hp. destruct (scan_top p c s ops i (plain_no_piece _ _ _ _ Hp)) as [(op & s' & Hs & Ho & _)|[_ He]]; [|done].
  exfalso. destruct Hp as (_ & _ & _ & H1 & H2).
  destruct (operator_shape _ _ _ Ho) as [(x & ->)|(x & d & -> & Hall)]; injection Hs as <- ->; [done|].
  by apply (H2 d).
Qed.

Lemma operator_scan p op s ops i :
  operator p op (head s) ->
  scan_from (mk None false 0 ops) i p (op ++ s)
  = scan_from (mk None false 0 ((i, length op) :: ops)) (i + length op) (last op) s.
Proof.
  remember (head s) as next eqn:Hs. intros Ho. rewrite (Nat.add_comm i).
  destruct Ho as [| | |next H1 H2|q next -> H1 H2 H3 H4| | |next Hp]; try done.
  - destruct s as [|d s]; [done|]. subst next. simpl. unfold scan_step. simpl.
    destruct (N.eqb_spec d 124) as [->|]; [done|]. by destruct (N.eqb_spec d 38) as [->|].
  - apply N.eqb_neq in H1, H2. destruct s as [|d s]; subst next; simpl; unfold scan_step; simpl; rewrite H1, H2; [done|].
    destruct (N.eqb_spec d 38) as [->|]; [done|]. by destruct (N.eqb_spec d 62) as [->|].
  - simpl. unfold scan_step. simpl. destruct p as [q|]; [by rewrite (Hp q)|done].
Qed.

Definition depth_at (at_ : place) (d : nat) : Prop := match at_ with Top => d = 0%nat | Nested => d <> 0%nat end.

Lemma reads_scan at_ p ws text next :
  reads at_ p ws text next -> forall d s i ops, depth_at at_ d -> head s = next ->
  exists found, (ws = [] -> found = []) /\
    scan_from (mk None false d ops) i p (text ++ s)
    = scan_from (mk None false d (found ++ ops)) (i + length text) (before p text) s.
Proof.
  induction 1 as [at_ p next|at_ p c text ws next Hp _ IH|at_ p c text ws next _ IH
      |at_ p q body text ws next Hq Hb _ IH|at_ p o body text ws next Ho _ IHb _ IH
      |p body text next _ IHb _ IH|p w text ws next Ho _ IH]; intros d s i ops Hd Hs.
  - exists []. split; [done|]. cbn [app length]. by rewrite Nat.add_0_r.
  - destruct (IH d s (S i) ops Hd Hs) as (found & Hf & He). exists found. split; [done|]. cbn [app].
    rewrite before_cons. replace (i + length (c :: text))%nat with (S i + length text)%nat by (simpl; lia).
    rewrite <- He. subst next. rewrite <- head_after in Hp. destruct at_; simpl in Hd.
    + subst d. by apply plain_scan.
    + destruct d as [|d]; [done|]. destruct Hp as (H1 & H2 & H3 & H40 & H41).
      rewrite scan_nested by done. apply N.eqb_neq in H40, H41. by rewrite H40, H41.
  - destruct (IH d s (S (S i)) ops Hd Hs) as (found & Hf & He). exists found. split; [done|].
    cbn [app]. rewrite scan_escape, He, !before_cons by done. f_equal. simpl. lia.
  - destruct (IH d s (i + length body + 2)%nat ops Hd Hs) as (found & Hf & He). exists found. split; [done|].
    cbn [app]. rewrite scan_open_quote by done. rewrite <- app_assoc, quoted_scan by done. cbn [app].
    assert (Hq92 : q = 92%N -> q = 39%N) by (destruct Hq as [->|[->| ->]]; done).
    rewrite scan_in_quote, N.eqb_refl by done.
    replace (S (S i + length body)) with (i + length body + 2)%nat by lia.
    rewrite He, before_cons, before_end. f_equal. simpl. rewrite length_app. simpl. lia.
  - destruct (IHb (S d) (41%N :: text ++ s) (S (S i)) ops) as (found' & Hf' & He'); [done|done|].
    rewrite Hf' in He' by done. cbn [app] in He'.
    destruct (IH d s (i + length body + 3)%nat ops Hd Hs) as (found & Hf & He). exists found. split; [done|].
    cbn [app]. rewrite scan_open_substitution by done. rewrite <- app_assoc. cbn [app]. rewrite He'.
    rewrite scan_nested; [|done|by intros [|[|]]|by intros [[|[|]] _]]. cbn [N.eqb Pos.eqb].
    replace (S (S (S i) + length body)) with (i + length body + 3)%nat by lia.
    rewrite He, !before_cons, before_end. f_equal. simpl. rewrite length_app. simpl. lia.
  - destruct d as [|d]; [done|].
    destruct (IHb (S (S d)) (41%N :: text ++ s) (S i) ops) as (found' & Hf' & He'); [done|done|].
    rewrite Hf' in He' by done. cbn [app] in He'.
    destruct (IH (S d) s (i + length body + 2)%nat ops Hd Hs) as (found & Hf & He). exists found. split; [done|].
    cbn [app]. rewrite scan_nested; [|done|by intros [|[|]]|by intros [[|[|]] _]]. cbn [N.eqb Pos.eqb].
    rewrite <- app_assoc. cbn [app]. rewrite He'.
    rewrite scan_nested; [|done|by intros [|[|]]|by intros [[|[|]] _]]. cbn [N.eqb Pos.eqb].
    replace (S (S i + length body)) with (i + length body + 2)%nat by lia.
    rewrite He, before_cons, before_end. f_equal. simpl. rewrite length_app. simpl. lia.
  - simpl in Hd. subst d next. rewrite <- head_after in Ho.
    destruct (IH 0%nat s (i + length w)%nat ((i, length w) :: ops)) as (found & _ & He); [done|done|].
    exists (found ++ [(i, length w)]). split; [done|].
    rewrite <- app_assoc, operator_scan, He by done. rewrite <- app_assoc. cbn [app].
    destruct (operator_last _ _ _ Ho) as [x Hx]. rewrite (before_app p w text x) by done. rewrite Hx.
    f_equal. rewrite length_app. lia.
Qed.

Lemma unfinished_scan at_ s :
  unfinished at_ s -> forall d i p ops, depth_at at_ d -> sc_operators (scan_from (mk None false d ops) i p s) = ops.
Proof.
  induction 1 as [|at_|at_ q body rest Hq Hb Hr|at_ o body rest Ho Hb _ IH|body rest Hb _ IH]; intros d i p ops Hd.
  - done.
  - by apply scan_escape_end.
  - rewrite scan_open_quote, quoted_scan by done. destruct Hr as [->|[-> H39]]; [done|]. apply scan_escape_end. congruence.
  - rewrite scan_open_substitution by done.
    destruct (reads_scan _ _ _ _ _ Hb (S d) rest (S (S i)) ops) as (found & Hf & ->); [done|done|].
    rewrite Hf by done. by apply IH.
  - destruct d as [|d]; [done|]. rewrite scan_nested; [|done|by intros [|[|]]|by intros [[|[|]] _]]. cbn [N.eqb Pos.eqb].
    destruct (reads_scan _ _ _ _ _ Hb (S (S d)) rest (S i) ops) as (found & Hf & ->); [done|done|].
    rewrite Hf by done. by apply IH.
Qed.

Lemma command_text_scan p s i ops : command_text p s -> sc_operators (scan_from (mk None false 0 ops) i p s) = ops.
Proof.
  intros (text & tail & -> & Hr & Hu).
  destruct (reads_scan _ _ _ _ _ Hr 0%nat tail i ops) as (found & Hf & ->); [done|done|].
  rewrite Hf by done. by apply (unfinished_scan Top).
Qed.

Lemma cut_scan p s front op seg ws i :
  cut_at p s front op seg ws ->
  head (sc_operators (scan_from (mk None false 0 []) i p s)) = Some (i + length front, length op)%nat.
Proof.
  intros (-> & Hr & Ho & Hc).
  destruct (reads_scan _ _ _ _ _ Hr 0%nat (op ++ seg) i []) as (found & _ & ->); [done|done|].
  by rewrite operator_scan, command_text_scan.
Qed.

(** A script has one cut: at its last operator. *)
Lemma cut_unique s front op seg ws front' op' seg' ws' :
  cut_at None s front op seg ws -> cut_at None s front' op' seg' ws' -> front = front' /\ op = op' /\ seg = seg'.
Proof.
  intros Hc Hc'. pose proof (cut_scan _ _ _ _ _ _ 0%nat Hc) as H1. rewrite (cut_scan _ _ _ _ _ _ 0%nat Hc') in H1.
  injection H1 as Hf Ho. destruct Hc as (Hs & _), Hc' as (Hs' & _). rewrite Hs in Hs'.
  apply app_inj_1 in Hs' as [-> Hs']; [|lia]. by apply app_inj_1 in Hs' as [-> ->]; [|lia].
Qed.

Lemma command_text_no_cut s front op seg ws : command_text None s -> ~ cut_at None s front op seg ws.
Proof.
  intros Hc Hcut. apply (cut_scan _ _ _ _ _ _ 0%nat) in Hcut. by rewrite command_text_scan in Hcut.
Qed.

Lemma operator_nonempty p op next : operator p op next -> op <> [].
Proof. by destruct 1. Qed.

Lemma split_last_cmd_last script prefix op last :
  _split_last_cmd script = (prefix, op, last) ->
  rstrip last = last /\ (op = [] -> prefix = []) /\
  exists commented, last_command commented script (prefix ++ op) last.
Proof.
  unfold _split_last_cmd. change scan_start with (mk None false 0 []).
  destruct (scan_script _ script [] 0%nat None (le_n _)) as [(Hc & ->)|(front & w & seg & ws & Hcut & He)].
  - intros [= <- <- <-]. split_and!; [apply rstrip_strip|done|].
    destruct (strip_by_split is_space script) as (lead & trail & Hs & Hl & Ht).
    exists false, lead, trail. split_and!; [done|done|]. by left.
  - destruct (sc_operators _) as [|x ops]; [done|]. injection He as ->. cbn [plus].
    pose proof Hcut as (Hs & _ & Ho & _). apply operator_nonempty in Ho.
    assert (take (length front) script = front) as -> by (rewrite Hs; apply take_app_length).
    assert (drop (length front + length w) script = seg) as ->
      by (rewrite Hs, app_assoc, <- length_app; apply drop_app_length).
    destruct (rstrip_by_prefix is_space front) as (ws1 & Hpre & _). fold (rstrip front) in Hpre.
    destruct (drop_while_suffix is_space seg) as (lead & Hrest & Hl). fold (lstrip_by is_space seg) in Hrest.
    set (prefix' := rstrip front) in *. set (post := lstrip_by is_space seg) in *.
    assert (Hpost : exists trail, post = strip post ++ trail /\ forallb is_space trail = true).
    { unfold strip, strip_by. assert (lstrip_by is_space post = post) as -> by apply drop_while_idem.
      apply rstrip_by_prefix. }
    destruct Hpost as (trail & Hpost & Htr).
    assert (Hop : take (length script - length post - length prefix') (drop (length prefix') script) = ws1 ++ w ++ lead).
    { rewrite Hs, Hpre, Hrest. replace ((prefix' ++ ws1) ++ w ++ lead ++ post) with (prefix' ++ (ws1 ++ w ++ lead) ++ post)
        by (by rewrite <- !app_assoc).
      rewrite drop_app_length. replace (_ - _ - _)%nat with (length (ws1 ++ w ++ lead)) by (rewrite !length_app; lia).
      apply take_app_length. }
    rewrite Hop. intros [= <- <- <-]. split_and!; [apply rstrip_strip| |].
    + intros Hn. apply app_eq_nil in Hn as [_ [Hn _]%app_eq_nil]. done.
    + exists (str_in (u "#") (ws ++ [w])), lead, trail. split_and!; [done|done|]. right.
      exists front, w, ws. rewrite <- Hpost, <- Hrest. split_and!; [done| |done].
      rewrite Hpre. by rewrite <- !app_assoc.
Qed.
End ShellTextProofs.

Section Shell.
Context `{UnicodeDB}.
Import ShellAdapter ShellText.

Lemma prefix_env_text a path : prefix_env a path = py_join (u " ") (map assignment_text (env_of a path)).
Proof. unfold prefix_env, env_of. by destruct (report_env a). Qed.

(** The instrumented segment reads as the environment assignments followed by
    exactly the instrumented words. *)
Lemma instrument_segment_words a last tokens path new :
  JudgeWired a -> rstrip last = last -> shlex_split last = Some tokens ->
  instrument_segment a last tokens path = Some new ->
  exists out, instrument a tokens path = Some out /\
    shlex_split new = Some (map assignment (env_of a path) ++ out).
Proof.
  intros Hw Hr Hs. unfold instrument_segment.
  destruct (instrument a tokens path) as [out|] eqn:Ei; [|done]. intros Hn. exists out. split; [done|].
  match type of Hn with match ?e with _ => _ end = _ => destruct e as [nl|] eqn:E; [|done] end.
  injection Hn as <-. assert (Hnl : shlex_split nl = Some out).
  { unfold tokens_eqb in E. case_bool_decide as Ht.
    - injection E as <-. rewrite Hr. pose proof (take_drop (length tokens) out) as Ho. rewrite Ht in Ho.
      destruct (drop (length tokens) out) as [|x extra]; cbn [is_empty]; rewrite <- Ho.
      + by rewrite !app_nil_r.
      + by apply shlex_split_app.
    - destruct (_ =s? _); [|done]. injection E as <-. apply shlex_split_join. }
  clear E. rewrite prefix_env_text. pose proof (wired_names (a := a) path) as Hnames.
  destruct (env_of a path) as [|kv env] eqn:Eenv; [done|].
  destruct (is_empty _) eqn:Eempty.
  - apply is_empty_iff in Eempty. exfalso. apply (join_nonempty (assignment_text kv) (map assignment_text env)); [|exact Eempty].
    unfold assignment_text. intros Hk%app_eq_nil. destruct Hk as [_ Hk]. done.
  - change (u " " ++ nl) with (32%N :: nl).
    rewrite lex_assignments; [by rewrite Hnl|done|]. intros [k v] Hin.
    by apply (Hnames k v).
Qed.

(** ** The registry *)

(** [words] is [tokens] with a runner's judge-owned report wired in. *)
Definition wired (a : RunnerAdapter) (tokens : list str) (path : str) (words : list str) : Prop :=
  In a INNER_ADAPTERS /\ matches a tokens = true /\ tokens `sublist_of` words /\
  head words = head tokens /\
  exists w, In w (words ++ map snd (env_of a path)) /\ mentions path w.

Lemma wired_intro a tokens path words :
  In a INNER_ADAPTERS -> matches a tokens = true -> instrument a tokens path = Some words ->
  wired a tokens path words.
Proof.
  intros Ha Hm Hi. pose proof (inner_wired a Ha) as Hw.
  split; [done|]. split; [done|]. split; [by eapply wired_keeps|].
  split; [by eapply wired_program|by eapply wired_report].
Qed.

(** A shell script whose last command is wired, the text in front of it kept. *)
Definition wired_script (commented : bool) (path : str) (cmd out : list str) : Prop :=
  exists shell script rest a kept last new tokens words,
    cmd = shell :: u "-c" :: script :: rest /\ out = [shell; u "-c"; kept ++ new] /\
    last_command commented script kept last /\
    shlex_split last = Some tokens /\
    shlex_split new = Some (map assignment (env_of a path) ++ words) /\
    wired a tokens path words.

Lemma shell_instrument_ok cmd path out :
  shell_matches cmd = true -> instrument_with_adapters cmd path INNER_ADAPTERS = Some out ->
  exists commented, wired_script commented path cmd out.
Proof.
  destruct cmd as [|shell [|flag [|script rest]]]; try done. intros [_ ->%str_eqb_eq]%andb_true_iff.
  unfold instrument_with_adapters. destruct (_split_last_cmd script) as [[prefix op] last] eqn:Es.
  destruct (shlex_split last) as [tokens|] eqn:El; [|done].
  destruct (List.find _ _) as [a|] eqn:Ef; [|done]. apply List.find_some in Ef as [Ha Hm].
  destruct (instrument_segment a last tokens path) as [new|] eqn:En; [|done]. intros [= <-].
  destruct (split_last_cmd_last _ _ _ _ Es) as (Hr & Hop & commented & Hc).
  pose proof (inner_wired a Ha) as Hw.
  destruct (instrument_segment_words _ _ _ _ _ Hw Hr El En) as (words & Hi & Hwords).
  exists commented, shell, script, rest, a, (prefix ++ op), last, new, tokens, words.
  split; [done|]. split.
  { destruct (is_empty op) eqn:Eop; [|by rewrite <- app_assoc].
    apply is_empty_iff in Eop. subst op. by rewrite Hop. }
  do 3 (split; [done|]). by apply wired_intro.
Qed.

(** C36: Instrumentation keeps the command it wires.  When the registry reports
    success, the command is either an argument vector that keeps every token of the
    original in order, starts the same program and names the judge-owned report in a
    token or in its adapter's environment, or a shell script.  The script is then cut at
    its last operator outside quotations, escapes and nested substitutions, of which
    there is one ([cut_unique]); the text up to the cut is kept, no operator follows it,
    and shlex reads the new last command as the adapter's assignments followed by such a
    vector of the words it reads in the old one.  The grammar is that of the scan, which
    counts the mark of a comment as an operator: where one stands in front of the cut
    ([commented]), the vector can be text that no shell runs ([commented_runner_wired]);
    positional parameters are dropped ([shell_parameters_dropped]).  In every other case
    the command is returned unchanged with no environment. *)
Theorem instrument_command_sound cmd path out ok env :
  instrument_command cmd path = (out, ok, env) ->
  if ok : bool then
    (exists a, env = env_of a path /\ wired a cmd path out) \/
    (env = [] /\ exists commented, wired_script commented path cmd out)
  else out = cmd /\ env = [].
Proof.
  unfold instrument_command, instrument_with_registry.
  destruct (List.find _ ADAPTERS) as [[|a]|] eqn:Ef; [| |by intros [= <- <- <-]];
    apply List.find_some in Ef as [Hin Hm]; cbn [adapter_matches] in Hm.
  - destruct (instrument_with_adapters cmd path INNER_ADAPTERS) eqn:Ei; intros [= <- <- <-]; [|done].
    right. split; [done|]. by apply shell_instrument_ok.
  - assert (Ha : In a INNER_ADAPTERS).
    { destruct Hin as [|Hin]; [done|]. apply in_map_iff in Hin as (a' & [= ->] & Ha). done. }
    destruct (instrument a cmd path) eqn:Ei; intros [= <- <- <-]; [|done].
    left. exists a. split; [done|]. by apply wired_intro.
Qed.
End Shell.

Lemma instrument_command_sound_witness :
  let cmd := us ["sh"; "-c"; "cd app && npx jest 'a b'"] in
  let out := us ["sh"; "-c";
    "cd app && JEST_JUNIT_OUTPUT_FILE=/r.xml npx jest 'a b' --reporters=default --reporters=jest-junit"] in
  (exists a, [] = env_of a (u "/r.xml") /\ @wired ascii_unicode a cmd (u "/r.xml") out) \/
  ([] = [] :> list (str * str) /\ exists commented, @wired_script ascii_unicode commented (u "/r.xml") cmd out).
Proof.
  intros cmd out. apply (@instrument_command_sound ascii_unicode cmd (u "/r.xml") out true []).
  vm_compute. reflexivity.
Defined.

(** Arguments of the script beyond the third token are positional parameters of
    the shell; the instrumented command does not pass them on. *)
Lemma shell_parameters_dropped :
  @instrument_command ascii_unicode [u "sh"; u "-c"; u "pytest $1"; u "_"; u "tests/unit"] (u "/r.xml")
  = ([u "sh"; u "-c"; u "pytest $1 --junitxml=/r.xml -o junit_family=xunit2"], true, []).
Proof. vm_compute. reflexivity. Qed.

(** The text of a comment is taken for the last command: the instrumented command is
    reported as wired, although the shell runs no test. *)
Lemma commented_runner_wired :
  @instrument_command ascii_unicode [u "sh"; u "-c"; u "true # pytest"] (u "/r.xml")
  = ([u "sh"; u "-c"; u "true # pytest --junitxml=/r.xml -o junit_family=xunit2"], true, []).
Proof. vm_compute. reflexivity. Qed.

(** A runner is taken for the command also when it is an argument of a script
    that [npm] runs: any later token [x] or [exec] counts as the subcommand. *)
Lemma npm_argument_selects_runner :
  @instrument_command ascii_unicode (us ["npm"; "test"; "--"; "x"; "pytest"]) (u "/r.xml")
  = (us ["npm"; "test"; "--"; "x"; "pytest"; "--junitxml=/r.xml"; "-o"; "junit_family=xunit2"], true, []).
Proof. vm_compute. reflexivity. Qed.
