(* ===== verification/Candidate.v ===== *)
(** Candidate text (candidate/identity.py, candidate/patch.py, patchmin.py): the
    injective framing that identifies a map of files, the search-and-replace
    transform of a PATCH block, and the minimization of a list of edits. *)
From S2P Require Export PyStr Bytes.
Local Open Scope Z_scope.

(** ** Identity of a candidate text map *)

Definition CANDIDATE_TEXT_MAP_IDENTITY_FORMAT : str := u "EVOGUARD_CANDIDATE_TEXT_MAP_V2".
Definition AGENT_CHANGE_CANDIDATE_IGNORED_BASENAMES : list str := us
  [".git"; "__pycache__"; ".venv"; "venv"; "node_modules"; ".evo_runs"; ".pytest_cache"; ".mypy_cache";
   "dist"; "build"].
Definition _DOMAIN : bytes := ascii_bytes CANDIDATE_TEXT_MAP_IDENTITY_FORMAT ++ [0].
Definition _ENTRY_TAG : bytes := [70].
Definition MAX_IDENTITY_COMPONENT_BYTES : Z := 2 ^ 64 - 1.

(** Why a map has no identity. *)
Inductive CandidateIdentityError := InvalidUnicode | ComponentTooLong | TooManyEntries.

Definition _utf8 (value : str) : result CandidateIdentityError bytes :=
  match utf8 value with
  | None => Err InvalidUnicode
  | Some encoded =>
      if MAX_IDENTITY_COMPONENT_BYTES <? Z.of_nat (length encoded) then Err ComponentTooLong else Ok encoded
  end.

Definition candidate_path_order_key (path : str) : result CandidateIdentityError bytes := _utf8 path.

Definition agent_change_candidate_path_is_ignored (path : str) : result CandidateIdentityError bool :=
  let* _ := candidate_path_order_key path in
  Ok (existsb (fun segment => str_in segment AGENT_CHANGE_CANDIDATE_IGNORED_BASENAMES) (path_parts path)).

(** The order of [bytes]. *)
Fixpoint bytes_leb (a b : bytes) : bool :=
  match a, b with
  | [], _ => true
  | _ :: _, [] => false
  | x :: a', y :: b' => (x <? y) || ((x =? y) && bytes_leb a' b')
  end.

(** A map is the list of its items; [dict] keys are distinct. *)
Definition entry_of (item : str * str) : result CandidateIdentityError (bytes * bytes) :=
  let* path_bytes := candidate_path_order_key (fst item) in
  let* content_bytes := _utf8 (snd item) in
  Ok (path_bytes, content_bytes).

Definition entry_leb (a b : bytes * bytes) : bool := bytes_leb (fst a) (fst b).

Definition frame_entry (e : bytes * bytes) : bytes :=
  _ENTRY_TAG ++ pack_u64 (Z.of_nat (length (fst e))) ++ fst e
  ++ pack_u64 (Z.of_nat (length (snd e))) ++ snd e.

Definition candidate_text_map_identity_bytes (blocks : list (str * str)) : result CandidateIdentityError bytes :=
  if MAX_IDENTITY_COMPONENT_BYTES <? Z.of_nat (length blocks) then Err TooManyEntries
  else
    let* entries := rmap entry_of blocks in
    Ok (_DOMAIN ++ pack_u64 (Z.of_nat (length entries)) ++ flat_map frame_entry (py_sort entry_leb entries)).

Record CandidateTextMapIdentity := { ci_sha256 : str; ci_size : Z; ci_file_count : Z }.

Definition candidate_text_map_identity (blocks : list (str * str))
  : result CandidateIdentityError CandidateTextMapIdentity :=
  let* framed := candidate_text_map_identity_bytes blocks in
  Ok {| ci_sha256 := sha256_hex framed; ci_size := Z.of_nat (length framed);
        ci_file_count := Z.of_nat (length blocks) |}.

(** ** Search and replace *)

(** [PatchError] and [ValueError] *)
Inductive patch_error :=
| EmptySearch | NoMatchError | AmbiguousMatchError (found : nat) | InvalidCount (count : Z).

(** The offsets of the non-overlapping occurrences at or after [start]. *)
Fixpoint occurrences (fuel : nat) (source search : str) (start : nat) : list nat :=
  match fuel with
  | O => []
  | S fuel' =>
      match PyStr.find search (skipn start source) with
      | None => []
      | Some offset =>
          let pos := (start + offset)%nat in
          pos :: occurrences fuel' source search (pos + length search)
      end
  end.

(** [result[:pos] + replace + result[pos + len(search):]] *)
Definition splice (search replace result_ : str) (pos : nat) : str :=
  firstn pos result_ ++ replace ++ skipn (pos + length search) result_.

Definition apply_patch (source search replace : str) (count : Z) : result patch_error str :=
  match search with
  | [] => Err EmptySearch
  | _ =>
      let positions := occurrences (S (length source)) source search 0 in
      match positions with
      | [] => Err NoMatchError
      | pos :: rest =>
          if count =? 1 then
            match rest with
            | _ :: _ => Err (AmbiguousMatchError (length positions))
            | [] => Ok (splice search replace source pos)
            end
          else if count =? -1 then Ok (fold_left (splice search replace) (rev positions) source)
          else if 1 <? count then
            Ok (fold_left (splice search replace) (rev (firstn (Z.to_nat count) positions)) source)
          else Err (InvalidCount count)
      end
  end.

(** ** Minimization of a list of edits *)

Section Minimize.
Context {T : Type} (passes : list T -> bool).

(** [current[:i] + current[i + 1:]] *)
Definition without (i : nat) (current : list T) : list T := firstn i current ++ skipn (S i) current.

(** One sweep: the first index whose removal still passes. *)
Definition sweep (current : list T) : option (list T) :=
  match List.find (fun i => passes (without i current)) (seq 0 (length current)) with
  | Some i => Some (without i current)
  | None => None
  end.

(** [while changed]; [None] when the fuel runs out. *)
Fixpoint sweeps (fuel : nat) (current : list T) : option (list T) :=
  match fuel with
  | O => None
  | S fuel' => match sweep current with
               | Some smaller => sweeps fuel' smaller
               | None => Some current
               end
  end.

(** The full patch does not pass. *)
Inductive minimize_error := DoesNotPass | OutOfFuel.

Definition minimize_patch (edits : list T) : result minimize_error (list T) :=
  if passes [] then Ok []
  else if negb (passes edits) then Err DoesNotPass
  else match sweeps (S (length edits)) edits with
       | Some minimal => Ok minimal
       | None => Err OutOfFuel
       end.
End Minimize.

(** ** The framing is injective *)

Definition sized (b : bytes) : Prop := Z.of_nat (length b) < 2 ^ 64.

Lemma length_prefixed_inj a b r r' :
  sized a -> sized b ->
  pack_u64 (Z.of_nat (length a)) ++ a ++ r = pack_u64 (Z.of_nat (length b)) ++ b ++ r' -> a = b /\ r = r'.
Proof.
  intros Ha Hb. intros (Hl & Hr)%app_inj_1; [|by rewrite !length_pack_u64].
  unfold sized in *. apply pack_u64_inj in Hl; [|lia..]. apply Nat2Z.inj in Hl. by apply app_inj_1 in Hr.
Qed.

Definition entry_sized (e : bytes * bytes) : Prop := sized (fst e) /\ sized (snd e).

Lemma frame_entries_inj l l' :
  Forall entry_sized l -> Forall entry_sized l' -> flat_map frame_entry l = flat_map frame_entry l' -> l = l'.
Proof.
  intros Hl. revert l'. induction Hl as [|[p c] l [Hp Hc] Hl IH]; intros [|[p' c'] l'] Hl' Heq; try done.
  apply Forall_cons in Hl' as [[Hp' Hc'] Hl']. cbn [fst snd] in *.
  unfold frame_entry in Heq. cbn [flat_map fst snd] in Heq. rewrite <- !app_assoc in Heq. apply app_inv_head in Heq.
  apply length_prefixed_inj in Heq as [-> Heq]; [|done..].
  apply length_prefixed_inj in Heq as [-> Heq]; [|done..]. f_equal. by apply IH.
Qed.

Lemma _utf8_ok s b : _utf8 s = Ok b <-> utf8 s = Some b /\ sized b.
Proof.
  unfold _utf8, sized, MAX_IDENTITY_COMPONENT_BYTES. destruct (utf8 s) as [e|]; [|naive_solver].
  destruct (_ <? _) eqn:E; [apply Z.ltb_lt in E|apply Z.ltb_ge in E].
  - split; [done|]. intros [[= ->] ?]. lia.
  - split; [intros <-%Ok_inj; split; [done|lia]|by intros [[= ->] _]].
Qed.

Lemma entry_of_ok item e :
  entry_of item = Ok e <->
  utf8 (fst item) = Some (fst e) /\ utf8 (snd item) = Some (snd e) /\ entry_sized e.
Proof.
  unfold entry_of, candidate_path_order_key, entry_sized. rewrite rbind_ok. setoid_rewrite rbind_ok.
  setoid_rewrite _utf8_ok. split.
  - intros (a & [? ?] & b & [? ?] & <-%Ok_inj). done.
  - destruct e as [a b]. intros (? & ? & ? & ?). exists a. split; [done|]. by exists b.
Qed.

(** The frames of a map, and the entries they list. *)
Lemma identity_bytes_ok blocks framed :
  candidate_text_map_identity_bytes blocks = Ok framed ->
  exists entries, Forall2 (fun item e => entry_of item = Ok e) blocks entries /\
    Forall entry_sized (py_sort entry_leb entries) /\ Z.of_nat (length entries) < 2 ^ 64 /\
    framed = _DOMAIN ++ pack_u64 (Z.of_nat (length entries)) ++ flat_map frame_entry (py_sort entry_leb entries).
Proof.
  unfold candidate_text_map_identity_bytes, MAX_IDENTITY_COMPONENT_BYTES. destruct (_ <? _) eqn:E; [done|].
  apply Z.ltb_ge in E. intros (entries & He & <-%Ok_inj)%rbind_ok. apply rmap_ok in He.
  exists entries. split; [done|]. split; [|split; [|done]].
  - rewrite <- (py_sort_perm entry_leb entries). clear E.
    induction He as [|item e items es H1 H2 IH]; constructor; [|done]. by apply entry_of_ok in H1 as (_ & _ & ?).
  - rewrite <- (Forall2_length _ _ _ He). lia.
Qed.

Lemma entry_of_inj item item' e : entry_of item = Ok e -> entry_of item' = Ok e -> item = item'.
Proof.
  destruct item as [p c], item' as [p' c']. rewrite !entry_of_ok. cbn [fst snd].
  intros (H1 & H2 & _) (H3 & H4 & _). f_equal; by eapply utf8_inj.
Qed.

Lemma bytes_leb_total a b : bytes_leb a b = true \/ bytes_leb b a = true.
Proof.
  revert b; induction a as [|x a IH]; intros [|y b]; simpl; auto.
  specialize (IH b). rewrite !orb_true_iff, !andb_true_iff, !Z.ltb_lt, !Z.eqb_eq.
  destruct (Z.lt_trichotomy x y) as [|[->|]]; naive_solver.
Qed.

Lemma bytes_leb_trans a b c : bytes_leb a b = true -> bytes_leb b c = true -> bytes_leb a c = true.
Proof.
  revert b c; induction a as [|x a IH]; intros [|y b] [|z c]; simpl; try done.
  rewrite !orb_true_iff, !andb_true_iff, !Z.ltb_lt, !Z.eqb_eq.
  intros [?|[-> ?]] [?|[-> ?]]; try (left; lia). right. split; [done|]. by eapply IH.
Qed.

Lemma bytes_leb_antisym a b : bytes_leb a b = true -> bytes_leb b a = true -> a = b.
Proof.
  revert b; induction a as [|x a IH]; intros [|y b]; simpl; try done.
  rewrite !orb_true_iff, !andb_true_iff, !Z.ltb_lt, !Z.eqb_eq.
  intros [?|[-> ?]] [?|[? ?]]; try lia. f_equal. by apply IH.
Qed.

(** Items of a map with one key are one item. *)
Lemma key_unique {A B} (l : list (A * B)) x y :
  NoDup (map fst l) -> In x l -> In y l -> fst x = fst y -> x = y.
Proof.
  induction l as [|z l IH]; [done|]. cbn [map]. intros [Hn Hd]%NoDup_cons Hx Hy Hk.
  rewrite list_elem_of_In, in_map_iff in Hn.
  destruct Hx as [->|Hx], Hy as [->|Hy]; [done|..|by apply IH]; destruct Hn; eauto.
Qed.

Lemma entries_separated blocks entries :
  NoDup (map fst blocks) -> Forall2 (fun item e => entry_of item = Ok e) blocks entries ->
  forall x y, In x entries -> In y entries -> entry_leb x y = true -> entry_leb y x = true -> x = y.
Proof.
  intros Hd Hf x y Hx Hy Hxy Hyx. pose proof (bytes_leb_antisym _ _ Hxy Hyx) as Hk.
  assert (Hin : forall e, In e entries -> exists item, In item blocks /\ entry_of item = Ok e).
  { clear -Hf. induction Hf as [|item e' items es H1 H2 IH]; [done|]. intros e [<-|He]; [by exists item; split; [left|]|].
    destruct (IH e He) as (i & ? & ?). by exists i; split; [right|]. }
  destruct (Hin x Hx) as (i & Hi & Hix), (Hin y Hy) as (j & Hj & Hjy).
  assert (i = j) as <-; [|congruence]. apply (key_unique blocks); [done..|].
  apply entry_of_ok in Hix as (H1 & _), Hjy as (H2 & _). rewrite Hk in H1. by eapply utf8_inj.
Qed.

Lemma entries_permutation blocks blocks' entries entries' :
  Forall2 (fun item e => entry_of item = Ok e) blocks entries ->
  Forall2 (fun item e => entry_of item = Ok e) blocks' entries' ->
  Permutation blocks blocks' <-> Permutation entries entries'.
Proof.
  intros H1 H2. split; intros Hp.
  - destruct (Permutation_Forall2 Hp H1) as (es & Hes & H3).
    replace entries' with es; [done|]. clear -H2 H3. revert entries' H2.
    induction H3 as [|i e items es Hi His IH]; intros entries' H2; inversion H2; subst; [done|].
    f_equal; [congruence|by apply IH].
  - apply Forall2_flip in H1. destruct (Permutation_Forall2 Hp H1) as (bs & Hbs & H3).
    replace blocks' with bs; [done|]. clear -H2 H3. revert blocks' H2.
    induction H3 as [|e i es items Hi His IH]; intros blocks' H2; inversion H2; subst; [done|].
    f_equal; [by eapply entry_of_inj|by apply IH].
Qed.

(** C34: the candidate identity is injective on maps and independent of their
    order.  Two maps of files that the V2 identity accepts have the same framed
    bytes exactly when they are the same map: whatever text the files contain, no
    two different maps share an identity input, and reordering a map never
    changes it. *)
Theorem candidate_identity_injective blocks blocks' framed framed' :
  NoDup (map fst blocks) -> NoDup (map fst blocks') ->
  candidate_text_map_identity_bytes blocks = Ok framed ->
  candidate_text_map_identity_bytes blocks' = Ok framed' ->
  framed = framed' <-> Permutation blocks blocks'.
Proof.
  intros Hd Hd' (es & Hf & Hs & _ & ->)%identity_bytes_ok (es' & Hf' & Hs' & _ & ->)%identity_bytes_ok.
  rewrite (entries_permutation _ _ _ _ Hf Hf'). split.
  - intros Heq. apply app_inv_head in Heq. apply app_inj_1 in Heq as [_ Heq]; [|by rewrite !length_pack_u64].
    apply frame_entries_inj in Heq; [|done..].
    rewrite (py_sort_perm entry_leb es), Heq. by rewrite <- py_sort_perm.
  - intros Hp. pose proof (Permutation_length Hp) as Hl. rewrite Hl. do 3 f_equal.
    apply (Sorted_perm_eq_on entry_leb); [intros x y z; apply bytes_leb_trans| | | |].
    + intros x y Hx Hy. rewrite py_sort_In in Hx, Hy. by apply (entries_separated blocks es).
    + apply py_sort_Sorted. intros x y. apply bytes_leb_total.
    + apply py_sort_Sorted. intros x y. apply bytes_leb_total.
    + by rewrite <- !py_sort_perm.
Qed.

(** ** Search and replace, forwards *)

(** The text cut at the non-overlapping occurrences of [search], leftmost first. *)
Fixpoint segments (fuel : nat) (search source : str) : list str :=
  match fuel with
  | O => [source]
  | S fuel' =>
      match PyStr.find search source with
      | None => [source]
      | Some i => (firstn i source : str) :: segments fuel' search (skipn (i + length search) source)
      end
  end.

(** The segments joined with [replace] at the first [k] cuts. *)
Fixpoint join_first (k : nat) (search replace : str) (segs : list str) {struct segs} : str :=
  match segs with
  | [] => []
  | [x] => x
  | x :: segs' =>
      match k with
      | O => x ++ search ++ py_join search segs'
      | S k' => x ++ replace ++ join_first k' search replace segs'
      end
  end.

Lemma segments_nonempty fuel search source : segments fuel search source <> [].
Proof. destruct fuel; simpl; [done|]. by destruct (PyStr.find search source). Qed.

Lemma find_cut search source i :
  PyStr.find search source = Some i ->
  source = firstn i source ++ search ++ skipn (i + length search) source /\
  (length (firstn i source) = i)%nat.
Proof.
  intros (pre & post & -> & <-)%PyStr.find_some. rewrite take_app_length, drop_app_add.
  by rewrite drop_app_length.
Qed.

Lemma join_cut search replace k x segs :
  segs <> [] ->
  py_join replace (x :: segs) = x ++ replace ++ py_join replace segs /\
  join_first (S k) search replace (x :: segs) = x ++ replace ++ join_first k search replace segs.
Proof. by destruct segs. Qed.

Lemma join_first_all k search replace segs :
  (length segs <= S k)%nat -> join_first k search replace segs = py_join replace segs.
Proof.
  revert k. induction segs as [|x segs IH]; intros k Hk; [done|].
  destruct segs as [|y segs]; [done|]. destruct k as [|k]; [simpl in Hk; lia|].
  rewrite (proj2 (join_cut search replace k x (y :: segs) ltac:(done))).
  rewrite (proj1 (join_cut search replace k x (y :: segs) ltac:(done))). rewrite IH; [done|]. simpl in *. lia.
Qed.

Lemma join_first_none search replace segs : join_first 0 search replace segs = py_join search segs.
Proof. by destruct segs as [|x [|y segs]]. Qed.

Lemma segments_join fuel search source : py_join search (segments fuel search source) = source.
Proof.
  revert source. induction fuel as [|n IH]; intros source; [done|]. cbn [segments].
  destruct (PyStr.find search source) as [i|] eqn:Ef; [|done].
  rewrite (proj1 (join_cut search search 0 _ _ (segments_nonempty _ _ _))), IH. symmetry. by apply find_cut.
Qed.

(** Before the leftmost occurrence there is none. *)
Lemma find_prefix_free search source i :
  search <> [] -> PyStr.find search source = Some i -> contains search (firstn i source) = false.
Proof.
  intros Hne Hf. unfold contains. destruct (PyStr.find search (firstn i source)) as [j|] eqn:Ej; [|done].
  destruct (find_cut _ _ _ Hf) as [Hs Hl]. apply PyStr.find_some in Ej as (pre & post & Hp & <-).
  exfalso. rewrite Hp in Hl. rewrite !length_app in Hl.
  assert (0 < length search)%nat by (destruct search; [done|simpl; lia]).
  rewrite Hs, Hp, <- !app_assoc in Hf. apply PyStr.find_least in Hf. lia.
Qed.

Lemma segments_free fuel search source :
  search <> [] -> (length source < fuel)%nat ->
  Forall (fun seg => contains search seg = false) (segments fuel search source).
Proof.
  intros Hne. revert source. induction fuel as [|n IH]; intros source Hl; [lia|]. cbn [segments].
  destruct (PyStr.find search source) as [i|] eqn:Ef.
  - constructor; [by apply find_prefix_free|]. apply IH. rewrite length_skipn.
    assert (0 < length search)%nat by (destruct search; [done|simpl; lia]).
    destruct (find_cut _ _ _ Ef) as [Hs _].
    apply (f_equal length) in Hs. rewrite !length_app in Hs. lia.
  - constructor; [|done]. unfold contains. by rewrite Ef.
Qed.

Lemma occurrences_count fuel source search start :
  S (length (occurrences fuel source search start)) = length (segments fuel search (skipn start source)).
Proof.
  revert start. induction fuel as [|n IH]; intros start; [done|]. cbn [occurrences segments].
  destruct (PyStr.find search (skipn start source)) as [i|]; [|done]. cbn [length]. rewrite IH, skipn_skipn.
  do 4 f_equal. lia.
Qed.

(** Splicing backwards at the first [k] occurrences is joining the segments
    forwards. *)
Lemma splice_backwards fuel k source search replace done_ rest :
  source = done_ ++ rest ->
  fold_left (splice search replace) (rev (firstn k (occurrences fuel source search (length done_)))) source
  = done_ ++ join_first k search replace (segments fuel search rest).
Proof.
  revert k done_ rest. induction fuel as [|n IH]; intros k done_ rest ->; [by destruct k|].
  cbn [occurrences segments]. rewrite drop_app_length.
  destruct (PyStr.find search rest) as [i|] eqn:Ef; [|by destruct k].
  destruct (find_cut _ _ _ Ef) as [Hs Hl]. set (x := firstn i rest) in *.
  set (tl := skipn (i + length search) rest) in *.
  assert (Hlen : (length done_ + i + length search)%nat = length (done_ ++ x ++ search))
    by (rewrite !length_app; lia).
  destruct k as [|k].
  - cbn [firstn rev fold_left]. rewrite join_first_none.
    rewrite (proj1 (join_cut search search 0 x (segments n search tl) (segments_nonempty _ _ _))).
    rewrite segments_join. by rewrite <- Hs.
  - cbn [firstn rev]. rewrite fold_left_app, Hlen.
    rewrite (IH k (done_ ++ x ++ search) tl) by (by rewrite <- !app_assoc, <- Hs).
    rewrite (proj2 (join_cut search replace k x (segments n search tl) (segments_nonempty _ _ _))).
    cbn [fold_left]. unfold splice.
    replace (length done_ + i)%nat with (length (done_ ++ x)) by (rewrite length_app; lia).
    rewrite <- (length_app (done_ ++ x) search).
    rewrite (app_assoc done_ x search), drop_app_length, <- (app_assoc (done_ ++ x) search), take_app_length.
    by rewrite <- !app_assoc.
Qed.

(** the patch transform is exact replacement.  Cutting the source at the
    leftmost non-overlapping occurrences of a non-empty anchor gives segments that
    contain no further occurrence and that join back to the source; the transform
    refuses when there is no cut, and for the default count when there is more than
    one, and otherwise returns the segments joined with the replacement - all of
    them, or the first [count]. *)
Theorem apply_patch_exact source search replace count :
  search <> [] ->
  let segs := segments (S (length source)) search source in
  let cuts := pred (length segs) in
  py_join search segs = source /\ Forall (fun seg => contains search seg = false) segs /\
  apply_patch source search replace count =
    (if Nat.eqb cuts 0 then Err NoMatchError
     else if count =? 1 then if Nat.eqb cuts 1 then Ok (py_join replace segs) else Err (AmbiguousMatchError cuts)
     else if count =? -1 then Ok (py_join replace segs)
     else if 1 <? count then Ok (join_first (Z.to_nat count) search replace segs)
     else Err (InvalidCount count)).
Proof.
  intros Hne. cbv zeta. split; [apply segments_join|]. split; [apply segments_free; [done|lia]|].
  assert (Hm : apply_patch source search replace count =
    match occurrences (S (length source)) source search 0 with
    | [] => Err NoMatchError
    | pos :: rest => if count =? 1 then match rest with
                       | _ :: _ => Err (AmbiguousMatchError (S (length rest)))
                       | [] => Ok (splice search replace source pos) end
                     else if count =? -1 then Ok (fold_left (splice search replace) (rev (pos :: rest)) source)
                     else if 1 <? count then
                       Ok (fold_left (splice search replace) (rev (firstn (Z.to_nat count) (pos :: rest))) source)
                     else Err (InvalidCount count)
    end).
  { unfold apply_patch. destruct search as [|c s]; [congruence|]. by destruct (occurrences _ _ _ _). }
  rewrite Hm. clear Hm.
  pose proof (occurrences_count (S (length source)) source search 0) as Hc. rewrite drop_0 in Hc.
  pose proof (fun k => splice_backwards (S (length source)) k source search replace [] source eq_refl) as Hsp.
  cbn [length app] in Hsp.
  set (segs := segments (S (length source)) search source) in *.
  set (occs := occurrences (S (length source)) source search 0) in *. rewrite <- Hc. cbn [pred].
  destruct occs as [|pos rest]; [done|]. cbn [length] in *. cbn [Nat.eqb].
  pose proof (Hsp (S (length rest))) as Hall. rewrite (firstn_all2 (pos :: rest)) in Hall by done.
  rewrite join_first_all in Hall by lia. destruct (count =? 1).
  - destruct rest as [|p rest]; [|done]. cbn [rev fold_left app] in Hall. by rewrite Hall.
  - destruct (count =? -1); [by rewrite Hall|]. destruct (1 <? count); [|done]. by rewrite Hsp.
Qed.

(** ** Minimization *)

Section Minimization.
Context {T : Type} (passes : list T -> bool).

Lemma without_sublist i (current : list T) : without i current `sublist_of` current.
Proof.
  unfold without. rewrite <- (take_drop i current) at 3. apply sublist_app; [done|].
  replace (S i) with (i + 1)%nat by lia. rewrite <- drop_drop. apply sublist_drop.
Qed.

Lemma without_length i (current : list T) :
  (i < length current)%nat -> S (length (without i current)) = length current.
Proof. intros Hi. unfold without. rewrite length_app, length_take, length_drop. lia. Qed.

(** A current list no single removal of which passes. *)
Definition one_minimal (current : list T) : Prop :=
  forall i, (i < length current)%nat -> passes (without i current) = false.

Lemma sweep_spec current :
  match sweep passes current with
  | Some smaller => passes smaller = true /\ smaller `sublist_of` current /\ S (length smaller) = length current
  | None => one_minimal current
  end.
Proof.
  unfold sweep. destruct (List.find _ _) as [i|] eqn:E.
  - apply List.find_some in E as [Hi Hp]. apply in_seq in Hi.
    split; [done|]. split; [apply without_sublist|]. apply without_length. lia.
  - intros i Hi. apply (List.find_none _ _ E). apply in_seq. lia.
Qed.

Lemma sweeps_spec fuel current :
  (length current < fuel)%nat -> passes current = true ->
  exists m, sweeps passes fuel current = Some m /\ passes m = true /\ m `sublist_of` current /\ one_minimal m.
Proof.
  revert current. induction fuel as [|n IH]; intros current Hl Hp; [lia|]. cbn [sweeps].
  pose proof (sweep_spec current) as Hs. destruct (sweep passes current) as [smaller|].
  - destruct Hs as (Hs & Hsub & Hlen). destruct (IH smaller) as (m & Hm & Hpm & Hsm & Hmin); [lia|done|].
    exists m. split; [done|]. split; [done|]. split; [by transitivity smaller|done].
  - exists current. done.
Qed.

(** C35: minimization terminates with a 1-minimal patch.  For every predicate the
    loop reaches its fixpoint within one sweep more than there are edits; its
    result passes, keeps the order of the edits, and no single remaining edit can
    be dropped.  When the empty patch passes the result is empty; otherwise there is a
    result exactly when the whole patch passes, and a patch that does not is refused. *)
Theorem minimize_patch_one_minimal edits :
  match minimize_patch passes edits with
  | Ok minimal =>
      (if passes [] then minimal = [] else passes edits = true) /\
      passes minimal = true /\ minimal `sublist_of` edits /\ one_minimal minimal
  | Err DoesNotPass => passes [] = false /\ passes edits = false
  | Err OutOfFuel => False
  end.
Proof.
  unfold minimize_patch. destruct (passes []) eqn:E0.
  { split; [done|]. split; [done|]. split; [apply sublist_nil_l|]. intros i Hi. simpl in Hi. lia. }
  destruct (passes edits) eqn:Ep; cbn [negb]; [|done].
  destruct (sweeps_spec (S (length edits)) edits) as (m & -> & Hm); [lia|done|done].
Qed.
End Minimization.

(** ** Concrete candidates *)

(** A map of two files, and the same map in another order. *)
Definition two_files : list (str * str) := [(u "a.py", u "x = 1"); (u "b.py", u "y = 2")].
Definition two_files_reordered : list (str * str) := [(u "b.py", u "y = 2"); (u "a.py", u "x = 1")].

Lemma candidate_identity_injective_witness :
  exists f f', candidate_text_map_identity_bytes two_files = Ok f /\
    candidate_text_map_identity_bytes two_files_reordered = Ok f' /\ f = f'.
Proof.
  destruct (candidate_text_map_identity_bytes two_files) as [f|] eqn:E; [|vm_compute in E; discriminate E].
  destruct (candidate_text_map_identity_bytes two_files_reordered) as [f'|] eqn:E';
    [|vm_compute in E'; discriminate E'].
  exists f, f'. split; [reflexivity|]. split; [reflexivity|].
  apply (candidate_identity_injective two_files two_files_reordered f f').
  - apply (bool_decide_unpack _). vm_compute. exact I.
  - apply (bool_decide_unpack _). vm_compute. exact I.
  - exact E.
  - exact E'.
  - apply perm_swap.
Defined.

(** The overlapping occurrence of [aa] in [aaa] does not make it ambiguous. *)
Lemma apply_patch_exact_witness : apply_patch (u "aaa") (u "aa") (u "b") 1 = Ok (u "ba").
Proof. exact (proj2 (proj2 (apply_patch_exact (u "aaa") (u "aa") (u "b") 1 ltac:(discriminate)))). Defined.
