(* ===== verification/HarnessPolicy.v ===== *)
(** The protected-harness path policy (verifiers/harness_policy.py) and the
    candidate preflight (verifiers/candidate_preflight.py): which paths a
    candidate may touch before anything of it is executed.

    The trusted base tree is reached through the record [tree] of system calls,
    whose results the functions inspect as the source does. *)
From S2P Require Export PyStr Glob Harness PyVal.
Local Open Scope Z_scope.

(** ** Tables *)

Definition _PROTECTED_BASENAMES : list str := us
  ["test_*.py"; "*_test.py"; "conftest.py"; "*.test.ts"; "*.test.tsx"; "*.test.js"; "*.test.jsx";
   "*.spec.ts"; "*.spec.tsx"; "*.spec.js"; "*.spec.jsx"; "*.cy.*"; "*_test.go"; "*_spec.rb"; "*.snap"].
Definition _PROTECTED_CONFIG : list str := us
  [".evoguard.json"; "pytest.ini"; ".pytest.ini"; "tox.ini"; "setup.cfg"; "pyproject.toml";
   "vitest.config.*"; "vite.config.*"; "jest.config.*"; "jest.setup.*"; ".mocharc.*"; "karma.conf.*";
   "cypress.config.*"; "playwright.config.*"; "ava.config.*"; ".nycrc"; ".nycrc.*"; ".rspec"; "pom.xml";
   "foundry.toml"; "echidna.yaml"; "slither.config.json"; "Makefile"; "GNUmakefile"; "noxfile.py";
   "Justfile"; "Rakefile"; "rakefile"; "pnpm-lock.yaml"; "package-lock.json"; "yarn.lock"; "Cargo.lock";
   "Gemfile.lock"; "poetry.lock"; "go.sum"].
Definition _STRICT_HARNESS_BASENAMES : list str := us
  ["requirements*.txt"; "constraints*.txt"; "pipfile"; "pipfile.lock"; "uv.lock"; "pdm.lock"; "pixi.lock";
   "setup.py"; "package.json"; "npm-shrinkwrap.json"; "bun.lock"; "bun.lockb"; "pnpm-workspace.yaml";
   "tsconfig*.json"; "babel.config.*"; ".babelrc"; ".babelrc.*"; ".swcrc"; "go.mod"; "go.work"; "cargo.toml";
   "gemfile"; "composer.json"; "composer.lock"; "build.gradle"; "build.gradle.kts"; "settings.gradle";
   "settings.gradle.kts"; "gradle.properties"].
Definition _STRICT_HARNESS_EXACT_PATHS : list str := us [".cargo/config"; ".cargo/config.toml"].
Definition _PROTECTED_AUTOEXEC : list str := us ["sitecustomize.py"; "usercustomize.py"; "*.pth"].
Definition _PROTECTED_CI_PREFIXES : list str := us [".github/workflows/"; ".github/actions/"].
Definition _PROTECTED_CI_MANIFESTS : list str := us ["action.yml"; "action.yaml"].
Definition _PROTECTED_TEST_DIR_SEGMENTS : list str := us ["tests"; "test"; "__tests__"; "spec"].
Definition _AUTOEXEC_TESTLIKE : list str := us ["conftest.py"].
Definition _PKG_RUNNER_KEYS : list str := us ["jest"; "vitest"; "mocha"; "ava"; "c8"; "nyc"].
Definition VERIFIER_PACK_DIR : str := u "evoguard_verifier_pack".

(** ** Classification of a path *)

Section Classification.
Context `{UnicodeDB}.

Definition basename (path : str) : str := List.last (path_parts path) [].
Definition directories (path : str) : list str := map py_lower (removelast (path_parts path)).

(** [fnmatch(name, pattern.lower())] for some pattern *)
Definition matches_any (name : str) (patterns : list str) : bool :=
  existsb (fun pattern => fnmatch name (py_lower pattern)) patterns.

Definition matches_globs (path : str) (globs : list str) : bool := matches_any (py_lower path) globs.

(** [zip(directories, directories[1:])] *)
Fixpoint adjacent (l : list str) : list (str * str) :=
  match l with
  | a :: ((b :: _) as l') => (a, b) :: adjacent l'
  | _ => []
  end.

Definition is_safe_relpath (path : str) : bool := is_portable_repo_path path.

Definition is_protected (path : str) (extra_globs : list str) : bool :=
  existsb (fun part => str_in part _PROTECTED_TEST_DIR_SEGMENTS) (directories path)
  || existsb (fun '(first, second) => (first =s? u "cypress") && (second =s? u "e2e"))
       (adjacent (directories path))
  || matches_any (py_lower (basename path)) _PROTECTED_BASENAMES
  || matches_globs path extra_globs.

Definition is_strict_harness_manifest (path : str) : bool :=
  let normalized := py_lower path in
  str_in normalized _STRICT_HARNESS_EXACT_PATHS
  || matches_any (after_last ch_slash normalized) _STRICT_HARNESS_BASENAMES.

Definition is_protected_config (path : str) (strict_harness : bool) : bool :=
  matches_any (py_lower (basename path)) _PROTECTED_CONFIG
  || (strict_harness && is_strict_harness_manifest path).

Definition is_judge_autoexec (path : str) : bool :=
  matches_any (py_lower (basename path)) _PROTECTED_AUTOEXEC.

Definition strip_slashes (s : str) : str := strip_by (N.eqb ch_slash) s.

Definition _is_inside_local_action_dir (path : str) (local_action_dirs : list str) : bool :=
  let normalized := py_lower path in
  existsb (fun directory =>
    let action_dir := py_lower (strip_slashes directory) in
    match action_dir with
    | [] => false
    | _ => (normalized =s? action_dir) || starts_with (action_dir ++ [ch_slash]) normalized
    end) local_action_dirs.

Definition is_protected_ci (path : str) (local_action_dirs : list str) : bool :=
  let normalized := py_lower path in
  existsb (fun prefix => starts_with prefix normalized) _PROTECTED_CI_PREFIXES
  || str_in normalized _PROTECTED_CI_MANIFESTS
  || existsb (fun name => ends_with (ch_slash :: name) normalized) _PROTECTED_CI_MANIFESTS
  || _is_inside_local_action_dir path local_action_dirs.

Definition is_allowlist_exemptible (path : str) (local_action_dirs : list str) (strict_harness : bool) : bool :=
  negb (is_protected path []
        || is_protected_config path strict_harness
        || is_protected_ci path local_action_dirs
        || is_judge_autoexec path).

Definition is_addable_new_test (path : str) (extra : list str) (is_new : bool)
    (local_action_dirs : list str) (strict_harness : bool) : bool :=
  is_new
  && is_protected path []
  && negb (str_in (py_lower (basename path)) _AUTOEXEC_TESTLIKE)
  && negb (matches_globs path extra)
  && negb (is_protected_config path strict_harness)
  && negb (is_judge_autoexec path)
  && negb (is_protected_ci path local_action_dirs).

(** ** The trusted base tree *)

(** What [lstat] reports of an entry. *)
Record stat_info := {
  st_symlink : bool;
  st_reparse : bool;
  st_directory : bool;
  st_regular : bool;
  st_nlink : Z
}.

(** The system calls; [None] where they raise [OSError].  [fs_walk dir] are the
    regular entries of every directory below [dir] that is not reached through a
    symlinked directory. *)
Record tree := {
  fs_listdir : str -> option (list str);
  fs_lstat : str -> option stat_info;
  fs_exists : str -> bool;
  fs_lexists : str -> bool;
  fs_isdir : str -> bool;
  fs_isfile : str -> bool;
  fs_samefile : str -> str -> option bool;
  fs_walk : str -> list (str * list str);
  fs_readlines : str -> option (list str)
}.
Variable fs : tree.

(** [os.path.join] with one relative component *)
Definition path_join (a b : str) : str :=
  if starts_with [ch_slash] b then b
  else match a with
       | [] => b
       | _ => if ends_with [ch_slash] a then a ++ b else a ++ ch_slash :: b
       end.
Definition path_join_all (a : str) (parts : list str) : str := fold_left path_join parts a.

(** Why a declared harness input is refused. *)
Inductive harness_problem :=
| CannotInspectParent | CaseDiffers (entry : str) | Absent | CannotInspectEntry
| SymlinkInput | ParentNotDirectory | NotRegular | Hardlinked.

(** Walk the components of one declaration below [parent]. *)
Fixpoint check_components (parent : str) (parts : list str) : option harness_problem :=
  match parts with
  | [] => None
  | part :: rest =>
      match fs_listdir fs parent with
      | None => Some CannotInspectParent
      | Some names =>
          if negb (str_in part names) then
            Some (match List.filter (fun name => casefold name =s? casefold part) names with
                  | name :: _ => CaseDiffers name
                  | [] => Absent
                  end)
          else
            let current := path_join parent part in
            match fs_lstat fs current with
            | None => Some CannotInspectEntry
            | Some info =>
                if st_symlink info || st_reparse info then Some SymlinkInput
                else match rest with
                     | _ :: _ => if negb (st_directory info) then Some ParentNotDirectory
                                 else check_components current rest
                     | [] => if negb (st_regular info) then Some NotRegular
                             else if negb (st_nlink info =? 1) then Some Hardlinked
                             else None
                     end
            end
      end
  end.

Definition validate_harness_input_files (repo_path : str) (harness_inputs : list str)
  : result HarnessInputPolicyError (list (str * harness_problem)) :=
  let* normalized := normalize_harness_inputs harness_inputs in
  Ok (flat_map (fun relative_path =>
        match check_components repo_path (path_parts relative_path) with
        | Some problem => [(relative_path, problem)]
        | None => []
        end) normalized).

(** A checkpoint: the type, mode and digest of every declared input. *)
Abbreviation snapshot := (list (str * (str * Z * str))).

Definition state_eqb (a b : option (str * Z * str)) : bool := bool_decide (a = b).

Fixpoint snapshot_get (path : str) (s : snapshot) : option (str * Z * str) :=
  match s with
  | [] => None
  | (p, x) :: s' => if p =s? path then Some x else snapshot_get path s'
  end.

Definition harness_input_snapshot_changes (before after : snapshot) : list str :=
  sort_str (List.filter (fun path => negb (state_eqb (snapshot_get path before) (snapshot_get path after)))
              (dedup_str (map fst before ++ map fst after))).

(** The candidate path and one ancestor of a declared input are one file. *)
Definition same_entry (candidate trusted : str) : bool :=
  match fs_samefile fs candidate trusted with
  | Some b => b
  | None => fs_lexists fs trusted
  end.

Definition candidate_path_targets_harness_input (repo_path path : str) (harness_inputs : list str)
  : result HarnessInputPolicyError bool :=
  let* normalized := normalize_harness_inputs harness_inputs in
  let* conflict := harness_input_path_conflicts path normalized in
  if conflict : bool then Ok true
  else if match path with [] => true | _ => false end || starts_with [ch_slash] path || char_in ch_bslash path || char_in ch_colon path
          || existsb dot_segment (path_parts path) then Ok false
  else
    let candidate_path := path_join_all repo_path (path_parts path) in
    if negb (fs_lexists fs candidate_path) then Ok false
    else Ok (existsb (fun harness_path =>
               existsb (fun end_ => same_entry candidate_path
                                      (path_join_all repo_path (firstn end_ (path_parts harness_path))))
                 (seq 1 (length (path_parts harness_path))))
             normalized).

(** ** Local actions of the base workflows *)

(** [re.IGNORECASE] on the letters of [uses]: U+017F folds to [s]. *)
Definition eq_ignorecase (letter c : N) : bool :=
  N.eqb (ascii_lower c) letter || (N.eqb letter 115 && N.eqb c 383).

Fixpoint skip_word (word s : str) : option str :=
  match word, s with
  | [], _ => Some s
  | w :: word', c :: s' => if eq_ignorecase w c then skip_word word' s' else None
  | _ :: _, [] => None
  end.

Definition skip_char (x : N) (s : str) : option str :=
  match s with c :: s' => if N.eqb c x then Some s' else None | [] => None end.

Definition skip_spaces (s : str) : str := drop_while is_space s.

(** The longest prefix of characters that satisfy [f], and the rest. *)
Fixpoint span (f : N -> bool) (s : str) : str * str :=
  match s with
  | c :: s' => if f c then let '(a, b) := span f s' in (c :: a, b) else ([], s)
  | [] => ([], [])
  end.

(** Only spaces and a comment remain on the line. *)
Definition line_end (s : str) : bool :=
  match skip_spaces s with
  | [] => true
  | c :: s' => N.eqb c 35 && match snd (span (fun c => negb (N.eqb c ch_nl)) s') with
                            | [] | [_] => true
                            | _ => false
                            end
  end.

(** [\./] and a non-empty run of characters that satisfy [f] *)
Definition dot_slash_run (f : N -> bool) (s : str) : option (str * str) :=
  s ← skip_char ch_dot s;
  s ← skip_char ch_slash s;
  match span f s with
  | ([], _) => None
  | (run, rest) => Some (run, rest)
  end.

Definition is_quote (c : N) : bool := N.eqb c ch_quote || N.eqb c ch_apos.

(** The path after [./] of a matching line, [_LOCAL_ACTION_USES.match(line)]. *)
Definition local_action_use (line : str) : option str :=
  let s := skip_spaces line in
  let s := match skip_char ch_dash s with Some s' => skip_spaces s' | None => s end in
  s ← skip_word (u "uses") s;
  s ← skip_char ch_colon (skip_spaces s);
  let s := skip_spaces s in
  match s with
  | c :: s' =>
      if is_quote c then
        '(run, rest) ← dot_slash_run (fun c => negb (is_quote c)) s';
        match rest with
        | q :: rest' => if is_quote q && line_end rest' then Some run else None
        | [] => None
        end
      else
        '(run, rest) ← dot_slash_run (fun c => negb (is_space c || N.eqb c 35)) s;
        if line_end rest then Some run else None
  | [] => None
  end.

(** The actions named by the lines of one workflow file. *)
Definition actions_of_line (repo_path line : str) : list str :=
  match local_action_use line with
  | None => []
  | Some raw =>
      let relative := strip_slashes raw in
      let action_dir := path_join_all repo_path (path_parts relative) in
      if match relative with [] => true | _ => false end || negb (is_safe_relpath relative)
         || negb (fs_isdir fs action_dir)
         || negb (existsb (fun manifest => fs_isfile fs (path_join action_dir manifest)) _PROTECTED_CI_MANIFESTS)
      then [] else [relative]
  end.

(** [sorted(action_dirs, key=str.lower)] of a set: equal keys keep no defined
    order. *)
Definition lower_leb (a b : str) : bool := str_leb (py_lower a) (py_lower b).

Definition discover_local_action_dirs (repo_path : str) : list str :=
  let workflow_root := path_join (path_join repo_path (u ".github")) (u "workflows") in
  if negb (fs_isdir fs workflow_root) then []
  else
    let files := flat_map (fun '(current, names) => map (path_join current)
                   (List.filter (fun name => ends_with (u ".yml") (py_lower name)
                                             || ends_with (u ".yaml") (py_lower name)) names))
                   (fs_walk fs workflow_root) in
    let found := flat_map (fun path => match fs_readlines fs path with
                                       | Some lines => flat_map (actions_of_line repo_path) lines
                                       | None => []
                                       end) files in
    py_sort lower_leb (dedup_str found).

(** ** Rejection of a set of paths *)

Inductive rejection :=
| UnsafePath (path : str) | HarnessInput (path : str) | JudgeConfiguration (path : str)
| JudgingTests (path : str) | CiDefinition (path : str) | AutoExecuted (path : str).

(** The checks of one path, in order; [None] is [continue]. *)
Definition reject_path (extra harness_inputs : list str) (repo_path : option str) (allow_new_tests : bool)
    (new_paths allow local_action_dirs : list str) (strict_harness : bool) (path : str)
  : result HarnessInputPolicyError (option rejection) :=
  if negb (is_safe_relpath path) then Ok (Some (UnsafePath path))
  else
    let* targets := match repo_path with
                    | Some repo => candidate_path_targets_harness_input repo path harness_inputs
                    | None => harness_input_path_conflicts path harness_inputs
                    end in
    if targets : bool then Ok (Some (HarnessInput path))
    else if is_protected_config path strict_harness then Ok (Some (JudgeConfiguration path))
    else if is_protected path extra then
      Ok (if allow_new_tests
             && is_addable_new_test path extra (str_in path new_paths) local_action_dirs strict_harness
          then None
          else if is_allowlist_exemptible path local_action_dirs strict_harness && matches_globs path allow
          then None
          else Some (JudgingTests path))
    else if is_protected_ci path local_action_dirs then Ok (Some (CiDefinition path))
    else if is_judge_autoexec path then Ok (Some (AutoExecuted path))
    else Ok None.

Fixpoint reject_unsafe_or_protected (paths extra harness_inputs : list str) (repo_path : option str)
    (allow_new_tests : bool) (new_paths allow local_action_dirs : list str) (strict_harness : bool)
  : result HarnessInputPolicyError (option rejection) :=
  match paths with
  | [] => Ok None
  | path :: rest =>
      let* r := reject_path extra harness_inputs repo_path allow_new_tests new_paths allow
                  local_action_dirs strict_harness path in
      match r with
      | Some r => Ok (Some r)
      | None => reject_unsafe_or_protected rest extra harness_inputs repo_path allow_new_tests new_paths
                  allow local_action_dirs strict_harness
      end
  end.

(** ** Preflight *)

Record CandidatePreflightRequest := {
  pr_repo_path : str;
  pr_changed_paths : list str;
  pr_deleted_paths : list str;
  pr_protected : list str;
  pr_allow : list str;
  pr_allow_new_tests : bool;
  pr_strict_harness : bool;
  pr_harness_inputs : list str
}.

Record CandidatePreflight := {
  cf_changed_paths : list str;
  cf_all_touched_paths : list str;
  cf_unsafe_paths : list str;
  cf_protected_violations : list str;
  cf_safe_deleted_paths : list str;
  cf_new_paths : list str;
  cf_local_action_dirs : list str
}.

Definition may_execute (p : CandidatePreflight) : bool :=
  negb (is_empty (cf_all_touched_paths p)) && is_empty (cf_unsafe_paths p)
  && is_empty (cf_protected_violations p).

Definition in_pack_dir (path : str) : bool :=
  (path =s? VERIFIER_PACK_DIR) || starts_with (VERIFIER_PACK_DIR ++ [ch_slash]) path.

Definition is_violation (request : CandidatePreflightRequest) (harness_inputs new_paths local_action_dirs : list str)
    (path : str) : result HarnessInputPolicyError bool :=
  let strict := pr_strict_harness request in
  if in_pack_dir path then Ok true
  else
    let* targets := candidate_path_targets_harness_input (pr_repo_path request) path harness_inputs in
    Ok (if targets : bool then true
        else if is_judge_autoexec path then true
        else if is_protected_config path strict || is_protected_ci path local_action_dirs then true
        else if is_protected path (pr_protected request) then
          if pr_allow_new_tests request
             && is_addable_new_test path (pr_protected request) (str_in path new_paths) local_action_dirs strict
          then false
          else if negb (is_allowlist_exemptible path local_action_dirs strict) then true
          else negb (matches_globs path (pr_allow request))
        else false).

(** The paths of a list that satisfy a test that may raise. *)
Fixpoint rfilter {E} (f : str -> result E bool) (l : list str) : result E (list str) :=
  match l with
  | [] => Ok []
  | x :: l' => let* b := f x in
               let* rest := rfilter f l' in
               Ok (if b : bool then x :: rest else rest)
  end.

Definition evaluate_candidate_preflight (request : CandidatePreflightRequest)
  : result HarnessInputPolicyError CandidatePreflight :=
  let changed := pr_changed_paths request in
  let deleted := pr_deleted_paths request in
  let* harness_inputs := normalize_harness_inputs (pr_harness_inputs request) in
  let all_touched := changed ++ List.filter (fun path => negb (str_in path changed)) deleted in
  let unsafe := sort_str (List.filter (fun path => negb (is_safe_relpath path)) all_touched) in
  let new_paths := List.filter (fun path => is_safe_relpath path
                                  && negb (fs_exists fs (path_join (pr_repo_path request) path))) changed in
  let local_action_dirs := discover_local_action_dirs (pr_repo_path request) in
  let violation := is_violation request harness_inputs new_paths local_action_dirs in
  let* violations := rfilter violation all_touched in
  let* safe_deleted := rfilter (fun path => if is_safe_relpath path
                                            then let* v := violation path in Ok (negb v)
                                            else Ok false) deleted in
  Ok {| cf_changed_paths := changed;
        cf_all_touched_paths := all_touched;
        cf_unsafe_paths := unsafe;
        cf_protected_violations := sort_str violations;
        cf_safe_deleted_paths := sort_str safe_deleted;
        cf_new_paths := new_paths;
        cf_local_action_dirs := local_action_dirs |}.

End Classification.

(** * What the preflight protects *)

Section Policy.
Context `{UnicodeDB}.
Variable fs : tree.

(** ** Lists of paths *)

Lemma rfilter_ok {E} (f : str -> result E bool) l l' :
  rfilter f l = Ok l' ->
  (forall x, In x l -> exists b, f x = Ok b) /\ (forall x, In x l' <-> In x l /\ f x = Ok true).
Proof.
  revert l'; induction l as [|y l IH]; intros l' Hr; simpl in Hr.
  { apply Ok_inj in Hr. subst. naive_solver. }
  apply rbind_ok in Hr as (b & Hb & Hr). apply rbind_ok in Hr as (r & Hr & <-%Ok_inj).
  destruct (IH r Hr) as [IH1 IH2]. split.
  - intros x [<-|Hx]; [by exists b|by apply IH1].
  - intros x. destruct b; simpl; rewrite IH2; [naive_solver|].
    split; [naive_solver|]. intros [[<-|?] Hx]; [congruence|done].
Qed.

Lemma sort_str_nil l : sort_str l = [] <-> l = [].
Proof. apply py_sort_nil. Qed.

Lemma sort_str_In x l : In x (sort_str l) <-> In x l.
Proof. apply py_sort_In. Qed.

(** ** One path *)

(** The reasons a path may be touched. *)
Definition admitted (protected allow : list str) (allow_new is_new strict : bool) (dirs : list str) (path : str) : bool :=
  if is_protected path protected then
    (allow_new && is_addable_new_test path protected is_new dirs strict)
    || (is_allowlist_exemptible path dirs strict && matches_globs path allow)
  else negb (is_judge_autoexec path || is_protected_config path strict || is_protected_ci path dirs).

(** A new test or an exempted path is none of the other judge-owned files. *)
Lemma addable_plain path protected is_new dirs strict :
  is_addable_new_test path protected is_new dirs strict = true ->
  is_new = true /\ is_judge_autoexec path = false /\ is_protected_config path strict = false /\
  is_protected_ci path dirs = false.
Proof. unfold is_addable_new_test. rewrite !andb_true_iff, !negb_true_iff. tauto. Qed.

Lemma exemptible_plain path dirs strict :
  is_allowlist_exemptible path dirs strict = true ->
  is_protected path [] = false /\ is_judge_autoexec path = false /\
  is_protected_config path strict = false /\ is_protected_ci path dirs = false.
Proof. unfold is_allowlist_exemptible. rewrite negb_true_iff, !orb_false_iff. tauto. Qed.

(** The preflight's test of one path. *)
Lemma is_violation_spec request inputs new dirs path :
  is_violation fs request inputs new dirs path = Ok false <->
  in_pack_dir path = false /\
  candidate_path_targets_harness_input fs (pr_repo_path request) path inputs = Ok false /\
  admitted (pr_protected request) (pr_allow request) (pr_allow_new_tests request) (str_in path new)
    (pr_strict_harness request) dirs path = true.
Proof.
  unfold is_violation, admitted. cbv zeta.
  destruct (in_pack_dir path); [naive_solver|].
  destruct (candidate_path_targets_harness_input _ _ _ _) as [[]|e]; cbn [rbind]; [naive_solver| |naive_solver].
  set (allow_new := pr_allow_new_tests request). set (strict := pr_strict_harness request).
  destruct (is_protected path (pr_protected request)).
  - destruct (allow_new && _) eqn:Ea.
    + apply andb_true_iff in Ea as [_ Hadd]. apply addable_plain in Hadd as (_ & -> & -> & ->). naive_solver.
    + destruct (is_allowlist_exemptible path dirs strict) eqn:Ee; cbn [negb andb orb].
      * apply exemptible_plain in Ee as (_ & -> & -> & ->). cbn [orb]. destruct (matches_globs path (pr_allow request)); naive_solver.
      * repeat case_if; naive_solver.
  - destruct (is_judge_autoexec path), (is_protected_config path strict), (is_protected_ci path dirs); naive_solver.
Qed.

(** The verifier's test of one safe path. *)
Lemma reject_path_spec protected inputs repo allow_new new allow dirs strict path :
  reject_path fs protected inputs (Some repo) allow_new new allow dirs strict path = Ok None <->
  is_safe_relpath path = true /\
  candidate_path_targets_harness_input fs repo path inputs = Ok false /\
  admitted protected allow allow_new (str_in path new) strict dirs path = true.
Proof.
  unfold reject_path, admitted. destruct (is_safe_relpath path); cbn [negb]; cbv match; [|naive_solver].
  destruct (candidate_path_targets_harness_input _ _ _ _) as [[]|e]; cbn [rbind]; [naive_solver| |naive_solver].
  destruct (is_protected path protected).
  - destruct (allow_new && _) eqn:Ea.
    + apply andb_true_iff in Ea as [_ Hadd]. apply addable_plain in Hadd as (_ & _ & -> & _). naive_solver.
    + destruct (is_allowlist_exemptible path dirs strict) eqn:Ee; cbn [andb orb].
      * apply exemptible_plain in Ee as (_ & _ & -> & _). destruct (matches_globs path allow); naive_solver.
      * case_if; naive_solver.
  - destruct (is_protected_config path strict), (is_protected_ci path dirs), (is_judge_autoexec path); naive_solver.
Qed.

Lemma reject_all_spec protected inputs repo allow_new new allow dirs strict paths :
  reject_unsafe_or_protected fs paths protected inputs (Some repo) allow_new new allow dirs strict = Ok None <->
  forall path, In path paths ->
    reject_path fs protected inputs (Some repo) allow_new new allow dirs strict path = Ok None.
Proof.
  induction paths as [|p l IH]; simpl; [naive_solver|].
  destruct (reject_path _ _ _ _ _ _ _ _ _ p) as [[]|] eqn:E; cbn [rbind]; [| |]; rewrite ?IH; split;
    try (intros H'; first [discriminate H' | specialize (H' p (or_introl eq_refl)); congruence]); naive_solver.
Qed.

(** ** The preflight *)

Lemma preflight_ok request p :
  evaluate_candidate_preflight fs request = Ok p ->
  exists inputs, normalize_harness_inputs (pr_harness_inputs request) = Ok inputs /\
    let violation := is_violation fs request inputs (cf_new_paths p) (cf_local_action_dirs p) in
    cf_all_touched_paths p = pr_changed_paths request
      ++ List.filter (fun path => negb (str_in path (pr_changed_paths request))) (pr_deleted_paths request) /\
    cf_new_paths p = List.filter (fun path => is_safe_relpath path
        && negb (fs_exists fs (path_join (pr_repo_path request) path))) (pr_changed_paths request) /\
    (forall path, In path (cf_unsafe_paths p) <-> In path (cf_all_touched_paths p) /\ is_safe_relpath path = false) /\
    (forall path, In path (cf_all_touched_paths p) -> exists b, violation path = Ok b) /\
    (forall path, In path (cf_protected_violations p) <-> In path (cf_all_touched_paths p) /\ violation path = Ok true) /\
    (forall path, In path (cf_safe_deleted_paths p) <->
       In path (pr_deleted_paths request) /\ is_safe_relpath path = true /\ violation path = Ok false).
Proof.
  unfold evaluate_candidate_preflight. cbv zeta. intros (inputs & Hn & Hr)%rbind_ok. exists inputs.
  split; [done|]. apply rbind_ok in Hr as (vs & Hv & Hr). apply rbind_ok in Hr as (sd & Hsd & <-%Ok_inj).
  cbn [cf_all_touched_paths cf_new_paths cf_unsafe_paths cf_protected_violations cf_safe_deleted_paths
       cf_local_action_dirs].
  apply rfilter_ok in Hv as [V1 V2]. apply rfilter_ok in Hsd as [D1 D2].
  split; [done|]. split; [done|]. split_and!.
  - intros path. rewrite sort_str_In, filter_In, negb_true_iff. done.
  - exact V1.
  - intros path. rewrite sort_str_In. apply V2.
  - intros path. rewrite sort_str_In, D2. destruct (is_safe_relpath path); [|naive_solver].
    destruct (is_violation _ _ _ _ _ path) as [[]|]; cbn [rbind negb]; naive_solver.
Qed.

Lemma touched_In request p inputs path :
  cf_all_touched_paths p = pr_changed_paths request
      ++ List.filter (fun path => negb (str_in path (pr_changed_paths request))) (pr_deleted_paths request) ->
  normalize_harness_inputs (pr_harness_inputs request) = Ok inputs ->
  In path (cf_all_touched_paths p) <-> In path (pr_changed_paths request ++ pr_deleted_paths request).
Proof.
  intros -> _. rewrite !in_app_iff, filter_In, negb_true_iff, str_in_not_In.
  destruct (str_in path (pr_changed_paths request)) eqn:E; [apply str_in_In in E|apply str_in_not_In in E]; tauto.
Qed.

Lemma nil_no_In {A} (l : list A) : l = [] <-> forall x, ~ In x l.
Proof. destruct l; [naive_solver|]. split; [done|]. intros H'. destruct (H' a). by left. Qed.

Lemma may_execute_spec request p :
  evaluate_candidate_preflight fs request = Ok p -> may_execute p = true ->
  exists inputs, normalize_harness_inputs (pr_harness_inputs request) = Ok inputs /\
  cf_new_paths p = List.filter (fun path => is_safe_relpath path
        && negb (fs_exists fs (path_join (pr_repo_path request) path))) (pr_changed_paths request) /\
  cf_all_touched_paths p <> [] /\
  forall path, In path (pr_changed_paths request ++ pr_deleted_paths request) ->
    is_safe_relpath path = true /\
    is_violation fs request inputs (cf_new_paths p) (cf_local_action_dirs p) path = Ok false.
Proof.
  intros (inputs & Hn & Ht & Hnew & Hu & Hb & Hv & _)%preflight_ok. unfold may_execute.
  rewrite !andb_true_iff, negb_true_iff, !is_empty_iff. intros ((Hne & Hus) & Hvs).
  exists inputs. split; [done|]. split; [done|]. split; [by destruct (cf_all_touched_paths p)|].
  intros path Hin. apply (touched_In request p inputs path Ht Hn) in Hin.
  rewrite nil_no_In in Hus. rewrite nil_no_In in Hvs. split.
  - destruct (is_safe_relpath path) eqn:E; [done|]. destruct (Hus path). by apply Hu.
  - destruct (Hb path Hin) as [[] Hp]; [|done]. destruct (Hvs path). by apply Hv.
Qed.

Lemma is_protected_mono path globs : is_protected path [] = true -> is_protected path globs = true.
Proof. unfold is_protected. simpl. rewrite orb_false_r. by intros ->. Qed.

Lemma is_protected_globs path globs : matches_globs path globs = true -> is_protected path globs = true.
Proof. unfold is_protected. intros ->. by rewrite orb_true_r. Qed.

(** C21: a candidate that may execute cannot touch its judge.  Every changed or
    deleted path is portable, outside the reserved pack directory and none of
    the declared harness inputs; a built-in judge-owned path (test, runner
    configuration, lock, CI definition, auto-executed file) is never admitted
    except as a plain new test file where new tests are allowed, whatever the
    allowlist says; and a path of an adopter's own protected globs is admitted
    only by the allowlist. *)
Theorem preflight_protects_judge request p :
  evaluate_candidate_preflight fs request = Ok p -> may_execute p = true ->
  cf_all_touched_paths p <> [] /\
  forall path, In path (pr_changed_paths request ++ pr_deleted_paths request) ->
    let builtin := negb (is_allowlist_exemptible path (cf_local_action_dirs p) (pr_strict_harness request)) in
    is_safe_relpath path = true /\ in_pack_dir path = false /\
    candidate_path_targets_harness_input fs (pr_repo_path request) path (pr_harness_inputs request) = Ok false /\
    (builtin = true ->
       pr_allow_new_tests request = true /\ In path (pr_changed_paths request) /\
       fs_exists fs (path_join (pr_repo_path request) path) = false /\
       is_protected path [] = true /\ py_lower (basename path) <> u "conftest.py" /\
       is_judge_autoexec path = false /\ is_protected_config path (pr_strict_harness request) = false /\
       is_protected_ci path (cf_local_action_dirs p) = false) /\
    (matches_globs path (pr_protected request) = true ->
       matches_globs path (pr_allow request) = true /\ builtin = false).
Proof.
  intros Hev Hme. destruct (may_execute_spec request p Hev Hme) as (inputs & Hn & Hnew & Hne & Hall).
  split; [done|]. intros path Hin. cbv zeta. destruct (Hall path Hin) as [Hs Hv].
  apply is_violation_spec in Hv as (Hpk & Ht & Had). split; [done|]. split; [done|]. split.
  { unfold candidate_path_targets_harness_input in Ht |- *. rewrite Hn.
    by rewrite (normalize_idem _ _ Hn) in Ht. }
  unfold admitted in Had. split.
  - rewrite negb_true_iff. intros He. rewrite He in Had. cbn [andb] in Had.
    destruct (is_protected path (pr_protected request)) eqn:Ep.
    + rewrite orb_false_r in Had. apply andb_true_iff in Had as [-> Hadd].
      unfold is_addable_new_test in Hadd. rewrite !andb_true_iff, !negb_true_iff in Hadd.
      destruct Hadd as ((((((Hnw & Hp) & Hb) & _) & Hc) & Ha) & Hci).
      apply str_in_In in Hnw. rewrite Hnew in Hnw. apply filter_In in Hnw as [Hch Hex].
      apply andb_true_iff in Hex as [_ Hex%negb_true_iff].
      split_and!; try done. intros Heq. rewrite Heq in Hb. by vm_compute in Hb.
    + unfold is_allowlist_exemptible in He. rewrite negb_false_iff in He.
      rewrite negb_true_iff, !orb_false_iff in Had. destruct Had as ((Ha & Hc) & Hci).
      rewrite Ha, Hc, Hci, !orb_false_r in He. apply (is_protected_mono _ (pr_protected request)) in He. congruence.
  - intros Hg. rewrite (is_protected_globs _ _ Hg) in Had. apply orb_true_iff in Had as [Had|Had].
    + apply andb_true_iff in Had as [_ Hadd]. unfold is_addable_new_test in Hadd. rewrite Hg in Hadd.
      rewrite !andb_true_iff in Hadd. cbn [negb] in Hadd. naive_solver.
    + apply andb_true_iff in Had as [-> ->]. done.
Qed.

(** C39: the preflight and the verifier decide alike.  Outside the reserved pack
    directory, the rejection that runs inside the repository verifier accepts
    the touched paths exactly when the preflight found no unsafe path and no
    violation. *)
Theorem preflight_agrees_with_rejection request p :
  evaluate_candidate_preflight fs request = Ok p ->
  (forall path, In path (cf_all_touched_paths p) -> in_pack_dir path = false) ->
  reject_unsafe_or_protected fs (cf_all_touched_paths p) (pr_protected request) (pr_harness_inputs request)
    (Some (pr_repo_path request)) (pr_allow_new_tests request) (cf_new_paths p) (pr_allow request)
    (cf_local_action_dirs p) (pr_strict_harness request) = Ok None <->
  cf_unsafe_paths p = [] /\ cf_protected_violations p = [].
Proof.
  intros (inputs & Hn & Ht & Hnew & Hu & Hb & Hv & _)%preflight_ok Hpk.
  rewrite reject_all_spec, !nil_no_In. 
  assert (Hone : forall path, In path (cf_all_touched_paths p) ->
    (reject_path fs (pr_protected request) (pr_harness_inputs request) (Some (pr_repo_path request))
      (pr_allow_new_tests request) (cf_new_paths p) (pr_allow request) (cf_local_action_dirs p)
      (pr_strict_harness request) path = Ok None <->
     is_safe_relpath path = true /\
     is_violation fs request inputs (cf_new_paths p) (cf_local_action_dirs p) path = Ok false)).
  { intros path Hin. rewrite reject_path_spec, is_violation_spec.
    assert (E : candidate_path_targets_harness_input fs (pr_repo_path request) path (pr_harness_inputs request)
              = candidate_path_targets_harness_input fs (pr_repo_path request) path inputs).
    { unfold candidate_path_targets_harness_input. by rewrite Hn, (normalize_idem _ _ Hn). }
    rewrite E. specialize (Hpk path Hin). tauto. }
  split.
  - intros Hall. split; intros path Hin.
    + apply Hu in Hin as [Hin Hs]. pose proof (proj1 (Hone _ Hin) (Hall _ Hin)) as [? _]. congruence.
    + apply Hv in Hin as [Hin Hs]. pose proof (proj1 (Hone _ Hin) (Hall _ Hin)) as [_ ?]. congruence.
  - intros [Hnu Hnv] path Hin. apply Hone; [done|]. split.
    + destruct (is_safe_relpath path) eqn:E; [done|]. destruct (Hnu path). by apply Hu.
    + destruct (Hb path Hin) as [[] Hx]; [|done]. destruct (Hnv path). by apply Hv.
Qed.

End Policy.

(** ** Checkpoints *)

Lemma state_eqb_iff a b : state_eqb a b = true <-> a = b.
Proof. apply bool_decide_eq_true. Qed.

Lemma snapshot_get_none path s : ~ In path (map fst s) -> snapshot_get path s = None.
Proof.
  induction s as [|[p x] s IH]; simpl; [done|]. intros Hn.
  destruct (p =s? path) eqn:E; [apply str_eqb_eq in E; subst; tauto|]. apply IH. tauto.
Qed.

(** Drift detection between two checkpoints is complete: the reported changes
    are exactly the declared paths whose type, mode or digest differs, in
    order and without duplicates; nothing is reported exactly when the two
    snapshots agree everywhere. *)
Theorem snapshot_changes_complete before after :
  let changes := harness_input_snapshot_changes before after in
  (forall path, In path changes <-> snapshot_get path before <> snapshot_get path after) /\
  NoDup changes /\ Sorted (leR str_leb) changes /\
  (changes = [] <-> forall path, snapshot_get path before = snapshot_get path after).
Proof.
  cbv zeta. assert (Hin : forall path, In path (harness_input_snapshot_changes before after) <->
    snapshot_get path before <> snapshot_get path after).
  { intros path. unfold harness_input_snapshot_changes. rewrite sort_str_In, filter_In, dedup_str_In, in_app_iff, negb_true_iff.
    split.
    - intros [_ He] Heq. apply state_eqb_iff in Heq. congruence.
    - intros Hne. split.
      + destruct (in_dec str_eq_dec path (map fst before)) as [|Hb]; [by left|].
        destruct (in_dec str_eq_dec path (map fst after)) as [|Ha]; [by right|].
        destruct Hne. by rewrite !snapshot_get_none.
      + apply not_true_iff_false. by rewrite state_eqb_iff. }
  split; [done|]. split.
  { apply sort_str_NoDup, NoDup_ListNoDup, List.NoDup_filter, NoDup_ListNoDup, dedup_str_NoDup. }
  split; [apply sort_str_Sorted|]. rewrite nil_no_In. split.
  - intros Hn path. destruct (decide (snapshot_get path before = snapshot_get path after)); [done|].
    destruct (Hn path). by apply Hin.
  - intros Hall path Hp%Hin. by apply Hp.
Qed.

(** ** A concrete candidate *)

(** A base tree with a source file and a test. *)
Definition sample_tree : tree := {|
  fs_listdir := fun _ => Some [];
  fs_lstat := fun _ => None;
  fs_exists := fun p => str_in p (us ["/repo/src/app.py"; "/repo/tests/test_app.py"]);
  fs_lexists := fun p => str_in p (us ["/repo/src/app.py"; "/repo/tests/test_app.py"]);
  fs_isdir := fun _ => false;
  fs_isfile := fun _ => false;
  fs_samefile := fun a b => Some (a =s? b);
  fs_walk := fun _ => [];
  fs_readlines := fun _ => None
|}.

Definition sample_candidate (changed : list string) : CandidatePreflightRequest := {|
  pr_repo_path := u "/repo";
  pr_changed_paths := us changed;
  pr_deleted_paths := us ["docs/old.md"];
  pr_protected := us ["vendor/*"];
  pr_allow := us ["tests/*"; "vendor/ok.c"];
  pr_allow_new_tests := true;
  pr_strict_harness := false;
  pr_harness_inputs := us ["tools/run.sh"]
|}.

Definition preflight (changed : list string) : result HarnessInputPolicyError CandidatePreflight :=
  @evaluate_candidate_preflight ascii_unicode sample_tree (sample_candidate changed).

(** The allowlist admits neither the existing test nor a configuration file. *)
Example rejected_paths :
  match preflight ["src/app.py"; "tests/test_app.py"; "pytest.ini"; "TOOLS/run.sh"; "vendor/x.c"; "../up"] with
  | Ok p => cf_protected_violations p = us ["TOOLS/run.sh"; "pytest.ini"; "tests/test_app.py"; "vendor/x.c"]
            /\ cf_unsafe_paths p = us ["../up"]
  | Err _ => False
  end.
Proof. vm_compute. split; reflexivity. Qed.

Example local_actions :
  map local_action_use [u "      - uses: ./tools/act # c"; u "uses: './a/b'"; u "uses: actions/checkout"; u "uses: ./a b"]
  = [Some (u "tools/act"); Some (u "a/b"); None; None].
Proof. vm_compute. reflexivity. Qed.

Lemma preflight_protects_judge_witness :
  exists p, preflight ["src/app.py"; "tests/test_new.py"; "vendor/ok.c"] = Ok p
            /\ In (u "tests/test_new.py") (cf_changed_paths p)
            /\ fs_exists sample_tree (path_join (u "/repo") (u "tests/test_new.py")) = false.
Proof.
  destruct (preflight ["src/app.py"; "tests/test_new.py"; "vendor/ok.c"]) as [p|] eqn:E;
    [|vm_compute in E; discriminate E].
  assert (Hp : may_execute p = true /\ cf_local_action_dirs p = [] /\ In (u "tests/test_new.py") (cf_changed_paths p)).
  { vm_compute in E. injection E as <-. split; [reflexivity|]. split; [reflexivity|]. right. left. reflexivity. }
  destruct Hp as (Hm & Hd & Hc).
  destruct (@preflight_protects_judge ascii_unicode sample_tree _ p E Hm) as [_ H].
  destruct (H (u "tests/test_new.py") ltac:(right; left; reflexivity)) as (_ & _ & _ & Hb & _).
  rewrite Hd in Hb. exists p. split; [reflexivity|]. split; [exact Hc|].
  exact (proj1 (proj2 (proj2 (Hb ltac:(vm_compute; reflexivity))))).
Defined.

Lemma preflight_agrees_with_rejection_witness :
  exists p, preflight ["src/app.py"; "tests/test_app.py"] = Ok p /\
    @reject_unsafe_or_protected ascii_unicode sample_tree (cf_all_touched_paths p) (us ["vendor/*"])
      (us ["tools/run.sh"]) (Some (u "/repo")) true (cf_new_paths p) (us ["tests/*"; "vendor/ok.c"])
      (cf_local_action_dirs p) false <> Ok None.
Proof.
  destruct (preflight ["src/app.py"; "tests/test_app.py"]) as [p|] eqn:E; [|vm_compute in E; discriminate E].
  exists p. split; [reflexivity|].
  assert (Hp : (forall path, In path (cf_all_touched_paths p) -> in_pack_dir path = false)
               /\ cf_protected_violations p <> []).
  { vm_compute in E. injection E as <-. split; [|discriminate].
    intros path [<-|[<-|[<-|[]]]]; vm_compute; reflexivity. }
  destruct Hp as [Hd Hv]. intros Hr. apply Hv.
  exact (proj2 (proj1 (@preflight_agrees_with_rejection ascii_unicode sample_tree _ p E Hd) Hr)).
Defined.
