(* ===== verification/PackageJson.v ===== *)
(** Package manifests (restore_judge_package_json, verifiers/harness_policy.py): an
    edited package.json keeps the test-harness fields of the judge.  The text is
    read with [json.loads] and written with [json.dumps(indent=2,
    ensure_ascii=False)]; the order in which a set of script names is visited is
    an argument. *)
From Stdlib Require Import Floats.SpecFloat.
From S2P Require Export StrictJsonSound HarnessPolicy Config.
Local Open Scope Z_scope.

(** ** Reading *)

(** A text that is not JSON, or an integer of too many digits, raises [ValueError]. *)
Inductive load_error := ValueError.

(** The limit of the language on the digits of an integer text. *)
Definition int_max_str_digits : Z := 4300.

Definition plain_int (t : str) : result load_error value :=
  if int_max_str_digits <? Z.of_nat (length (lstrip_by (N.eqb 45) t)) then Err ValueError
  else Ok (VInt (py_int t)).

Definition plain_constant (t : str) : result load_error value :=
  Ok (VFloat (if t =s? u "NaN" then S754_nan else S754_infinity (t =s? u "-Infinity"))).

(** [json.loads(text)] without hooks: of equal keys the last value is kept. *)
Definition plain_hooks : hooks load_error :=
  {| object_pairs_hook := fun pairs => Ok (VDict (dupdate [] pairs));
     parse_constant := plain_constant;
     parse_float := fun t => Ok (VFloat (py_float t));
     parse_int := plain_int;
     decode_error := ValueError |}.

Definition plain_loads (text : str) : result load_error value := json_loads plain_hooks text.

(** ** Writing *)

Definition raw_char (c : N) : str :=
  let z := Z.of_N c in
  if z =? 34 then [92; 34]%N
  else if z =? 92 then [92; 92]%N
  else if z =? 10 then [92; 110]%N
  else if z =? 13 then [92; 114]%N
  else if z =? 9 then [92; 116]%N
  else if z =? 12 then [92; 102]%N
  else if z =? 8 then [92; 98]%N
  else if z <? 32 then bslash_u z
  else [c].

Definition raw_string (s : str) : str := 34%N :: flat_map raw_char s ++ [34%N].

Definition newline_indent (level : nat) : str := ch_nl :: repeat 32%N (2 * level).

(** A group: every item on a line of its own. *)
Definition indented (level : nat) (opening closing : N) (items : list str) : str :=
  match items with
  | [] => [opening; closing]
  | _ => opening :: newline_indent (S level) ++ py_join (44%N :: newline_indent (S level)) items
         ++ newline_indent level ++ [closing]
  end.

(** [json.dumps(v, indent=2, ensure_ascii=False)] of a loaded value, whose keys are
    strings. *)
Fixpoint dumps_indent (level : nat) (v : value) : str :=
  match v with
  | VNone => u "null"
  | VBool b => if b then u "true" else u "false"
  | VInt z => str_of_Z z
  | VFloat f => float_repr f
  | VStr s => raw_string s
  | VList l => indented level 91 93 (map (dumps_indent (S level)) l)
  | VDict d =>
      indented level 123 125
        (map (fun kv => match fst kv with VStr k => raw_string k | _ => [] end
                        ++ u ": " ++ dumps_indent (S level) (snd kv)) d)
  end.

(** ** Restoring *)

Definition _PKG_RUNNER_KEYS : list str := us ["jest"; "vitest"; "mocha"; "ava"; "c8"; "nyc"].

Definition _is_judge_script (name : str) : bool :=
  (name =s? u "test") || starts_with (u "test:") name || str_in name (us ["pretest"; "posttest"]).

(** One field: what the original has is written back when it differs under [!=];
    what the original lacks is deleted. *)
Definition restore_field (original : dict) (st : dict * bool) (key : str) : dict * bool :=
  let '(candidate, changed) := st in
  match dlookup key original with
  | Some x => if py_eq (dget candidate key) x then st else (dset key x candidate, true)
  | None => if dmem key candidate then (ddel key candidate, true) else st
  end.

Definition scripts_of (d : dict) : dict := match dget d (u "scripts") with VDict s => s | _ => [] end.

Section Restore.
(** The order in which the elements of a set are visited. *)
Context (set_order : list str -> list str).

Definition judge_scripts (candidate original : dict) : list str :=
  set_order (List.filter _is_judge_script (dedup_str (dict_str_keys candidate ++ dict_str_keys original))).

(** The restored object, and whether anything differs from the candidate. *)
Definition restore_fields (original candidate : dict) : dict * bool :=
  let st := fold_left (restore_field original) _PKG_RUNNER_KEYS (candidate, false) in
  let orig_scripts := scripts_of original in
  let cand_scripts := scripts_of (fst st) in
  let '(scripts, scripts_changed) :=
    fold_left (restore_field orig_scripts) (judge_scripts cand_scripts orig_scripts) (cand_scripts, false) in
  if scripts_changed then (dset (u "scripts") (VDict scripts) (fst st), true) else st.

(** [json.loads(original_text) if original_text else {}], an object or nothing *)
Definition original_object (original_text : option str) : dict :=
  match original_text with
  | Some (c :: t) => match plain_loads (c :: t) with Ok (VDict o) => o | _ => [] end
  | _ => []
  end.

Definition restore_judge_package_json (original_text : option str) (candidate_text : str) : str :=
  match plain_loads candidate_text with
  | Ok (VDict candidate) =>
      let '(restored, changed) := restore_fields (original_object original_text) candidate in
      if changed then dumps_indent 0 (VDict restored) ++ [ch_nl] else candidate_text
  | _ => candidate_text
  end.
End Restore.

Definition quote_ticks (s : str) : str := map (fun c => if N.eqb c 39 then 34%N else c) s.

Example restore_ex :
  restore_judge_package_json id
    (Some (quote_ticks (u "{'name':'a','scripts':{'test':'jest','build':'b'},'jest':{'bail':1}}")))
    (quote_ticks (u "{'name':'b','scripts':{'test':'true','build':'c','pretest':'x'},'nyc':{}, 'jest':{'bail':true}}"))
  = quote_ticks (u "{") ++ ch_nl :: quote_ticks (u "  'name': 'b',") ++ ch_nl :: quote_ticks (u "  'scripts': {")
    ++ ch_nl :: quote_ticks (u "    'test': 'jest',") ++ ch_nl :: quote_ticks (u "    'build': 'c'")
    ++ ch_nl :: quote_ticks (u "  },") ++ ch_nl :: quote_ticks (u "  'jest': {")
    ++ ch_nl :: quote_ticks (u "    'bail': true") ++ ch_nl :: quote_ticks (u "  }") ++ ch_nl :: u "}" ++ [ch_nl].
Proof. vm_compute. reflexivity. Qed.

(** * What the restoration keeps *)

(** ** Loaded values *)

(** What [json.loads] returns: objects with distinct string keys, integers within
    the limit of the language. *)
Fixpoint loaded_value (v : value) : bool :=
  match v with
  | VInt z => Z.abs z <? 10 ^ int_max_str_digits
  | VList l => forallb loaded_value l
  | VDict d => distinct_keys d && forallb (fun kv => loaded_value (snd kv)) d
  | _ => true
  end.

Lemma distinct_keyed d : distinct_keys d = true -> str_keyed d.
Proof.
  unfold distinct_keys. rewrite andb_true_iff. intros [Hs Hn].
  assert (Hd : exists l, d = map pair_of l).
  { clear Hn. induction d as [|[k v] d IH]; [by exists []|]. simpl in Hs. rewrite negb_orb in Hs.
    apply andb_true_iff in Hs as [Hk Hs]. destruct (IH Hs) as [l ->].
    destruct k as [| | | |k| |]; try done. by exists ((k, v) :: l). }
  destruct Hd as [l ->]. exists l. split; [done|]. apply nodupb_NoDup in Hn; [|apply str_eqb_eq].
  by rewrite pairs_keys in Hn.
Qed.

Lemma keyed_distinct d : str_keyed d -> distinct_keys d = true.
Proof. intros (l & -> & Hn). by apply pairs_distinct. Qed.

(** A property of every value the scanner builds. *)
Section Scanned.
Context {E : Type} (h : hooks E) (P : value -> Prop).
Context (Hatom : P VNone /\ (forall b, P (VBool b)) /\ forall s, P (VStr s)).
Context (Hlist : forall l, Forall P l -> P (VList l)).
Context (Hpairs : forall l v, Forall (fun kv => P (snd kv)) l -> object_pairs_hook h l = Ok v -> P v).
Context (Hconstant : forall t v, parse_constant h t = Ok v -> P v).
Context (Hnumber : forall s t fl r v, match_number s = Some (t, fl, r) ->
  (if fl : bool then parse_float h t else parse_int h t) = Ok v -> P v).

Lemma scan_literal_has s v r : scan_literal h s = Ok (v, r) -> P v.
Proof.
  destruct Hatom as (Hn & Hb & _). unfold scan_literal.
  repeat match goal with
  | |- match ?m with _ => _ end = _ -> _ =>
      destruct m; [first [by intros [= <- _]|rewrite rbind_ok; intros (v' & Hv & [= <- _]); by eapply Hconstant]|]
  end.
  unfold scan_number. destruct (match_number s) as [[[t fl] r']|] eqn:Em; [|done].
  rewrite rbind_ok. intros (v' & Hv & [= <- _]). by eapply Hnumber.
Qed.

Lemma scan_has n :
  (forall s v r, scan_once h n s = Ok (v, r) -> P v) /\
  (forall s l r, scan_items h n s = Ok (l, r) -> Forall P l) /\
  (forall s l r, scan_pairs h n s = Ok (l, r) -> Forall (fun kv => P (snd kv)) l).
Proof.
  induction n as [|n (IHo & IHi & IHp)]; [done|]. split; [|split].
  - intros s v r. cbn [scan_once]. destruct (eat 34 s) as [s'|].
    { rewrite rbind_ok. intros ([t r'] & _ & [= <- _]). apply Hatom. }
    destruct (eat 91 s) as [s'|].
    { destruct (eat 93 _); [intros [= <- _]; by apply Hlist|].
      rewrite rbind_ok. intros ([l r'] & Hl%IHi & [= <- _]). by apply Hlist. }
    destruct (eat 123 s) as [s'|]; [|apply scan_literal_has].
    destruct (eat 125 _); [rewrite rbind_ok; intros (v' & Hv & [= <- _]); by eapply Hpairs|].
    rewrite rbind_ok. intros ([l r'] & Hl%IHp & H). apply rbind_ok in H as (v' & Hv & [= <- _]). by eapply Hpairs.
  - intros s l r. cbn [scan_items]. rewrite rbind_ok. intros ([v r1] & Hv%IHo & H).
    destruct (eat 93 _); [injection H as <- _; by constructor|]. destruct (eat 44 _); [|done].
    apply rbind_ok in H as ([l' r2] & Hi%IHi & [= <- _]). by constructor.
  - intros s l r. cbn [scan_pairs]. destruct (eat 34 s); [|done].
    rewrite rbind_ok. intros ([k r1] & _ & H). destruct (eat 58 _); [|done].
    apply rbind_ok in H as ([v r2] & Hv%IHo & H).
    destruct (eat 125 _); [injection H as <- _; by constructor|]. destruct (eat 44 _); [|done].
    apply rbind_ok in H as ([l' r3] & Hi%IHp & [= <- _]). by constructor.
Qed.

Lemma json_loads_has text v : json_loads h text = Ok v -> P v.
Proof.
  unfold json_loads, json_loads_fuel. destruct (eat _ text); [done|].
  rewrite rbind_ok. intros ([v' r] & Hv%scan_has & H). case_if; [|done]. by injection H as <-.
Qed.
End Scanned.

Lemma dset_loaded k v d :
  forallb (fun kv => loaded_value (snd kv)) d = true -> loaded_value v = true ->
  forallb (fun kv => loaded_value (snd kv)) (dset k v d) = true.
Proof.
  intros Hd Hv. induction d as [|[k' v'] d IH]; simpl in *; [by rewrite Hv|].
  apply andb_true_iff in Hd as [Hv' Hd]. destruct (is_key k k'); simpl; rewrite ?Hv, ?Hv', ?Hd; auto.
Qed.

Definition loaded_dict (d : dict) : Prop := str_keyed d /\ forallb (fun kv => loaded_value (snd kv)) d = true.

Lemma loaded_dict_iff d : loaded_value (VDict d) = true <-> loaded_dict d.
Proof.
  cbn [loaded_value]. rewrite andb_true_iff. split; intros [H1 H2]; (split; [|done]);
    [by apply distinct_keyed|by apply keyed_distinct].
Qed.

Lemma dset_loaded_dict k v d : loaded_dict d -> loaded_value v = true -> loaded_dict (dset k v d).
Proof. intros [Hk Hl] Hv. split; [by apply dset_keyed|by apply dset_loaded]. Qed.

Lemma dupdate_loaded l d :
  Forall (fun kv => loaded_value (snd kv) = true) l -> loaded_dict d -> loaded_dict (dupdate d l).
Proof.
  unfold dupdate. revert d. induction l as [|[k v] l IH]; intros d Hl Hd; [done|].
  apply Forall_cons in Hl as [Hv Hl]. cbn [fold_left]. apply IH; [done|]. by apply dset_loaded_dict.
Qed.

Lemma plain_loads_loaded text v : plain_loads text = Ok v -> loaded_value v = true.
Proof.
  apply (json_loads_has plain_hooks (fun v => loaded_value v = true)); [done| | | |].
  - intros l Hl. cbn [loaded_value]. apply forallb_forall. by apply List.Forall_forall.
  - intros l v' Hl [= <-]. apply loaded_dict_iff, dupdate_loaded; [done|]. split; [apply nil_keyed|done].
  - intros t v' [= <-]. done.
  - intros s t fl r v' Hm. destruct fl; [by intros [= <-]|]. cbn [plain_hooks parse_int]. unfold plain_int.
    case_if; [done|]. intros [= <-]. apply match_number_int in Hm as (d & Hd & Ht).
    cbn [loaded_value]. apply Z.ltb_lt, (int_text_bound d); [done|done|]. by apply Z.ltb_ge in Heqb.
Qed.

(** ** The text written back is read as the object *)

(** The printed form of a float denotes it. *)
Definition float_prints (f : float) : bool :=
  match f with
  | S754_nan | S754_infinity _ => true
  | _ => match match_number (float_repr f) with
         | Some (t, true, []) => float_same (py_float t) f
         | _ => false
         end
  end.

Fixpoint floats_print (v : value) : bool :=
  match v with
  | VFloat f => float_prints f
  | VList l => forallb floats_print l
  | VDict d => forallb (fun kv => floats_print (snd kv)) d
  | _ => true
  end.

Lemma scan_raw_char c r : scan_char (raw_char c ++ r) = Some (c, r).
Proof.
  unfold raw_char. set (z := Z.of_N c) in *. assert (Hcz : c = Z.to_N z) by lia.
  repeat match goal with
  | |- context [if z =? ?k then _ else _] =>
      destruct (Z.eqb_spec z k) as [Hk|]; [rewrite Hcz, Hk; reflexivity|]
  end.
  destruct (Z.ltb_spec z 32).
  - rewrite scan_unicode_escape; [by rewrite <- Hcz|lia|]. unfold is_high_surrogate.
    apply andb_false_iff. rewrite !Z.leb_gt. lia.
  - simpl. destruct (N.eqb_spec c 92); [lia|]. destruct (N.leb_spec c 31); [lia|done].
Qed.

Lemma raw_char_head c r : exists x t, raw_char c ++ r = x :: t /\ x <> 34%N.
Proof.
  unfold raw_char. repeat (case_if; [by eexists _, _|]). eexists _, _. split; [done|].
  apply Z.eqb_neq in Heqb. intros ->. done.
Qed.

Lemma scanstring_raw {E} (h : hooks E) s r : scanstring h (flat_map raw_char s ++ 34%N :: r) = Ok (s, r).
Proof.
  apply (scanstring_encoded raw_char (fun _ => True) (fun c r _ => scan_raw_char c r) raw_char_head).
  by apply List.Forall_forall.
Qed.

Lemma plain_int_text z : Z.abs z < 10 ^ int_max_str_digits -> plain_int (str_of_Z z) = Ok (VInt z).
Proof.
  intros Hz. unfold plain_int.
  assert (Hs : Z.of_nat (length (lstrip_by (N.eqb 45) (str_of_Z z))) <= int_max_str_digits /\ py_int (str_of_Z z) = z).
  { destruct z as [|p|p]; cbn [str_of_Z].
    - split; [vm_compute; discriminate|done].
    - destruct (digits_no_sign (Z.pos p)) as [He Hl]; [lia|]. rewrite Hl. split; [apply digits_length; [by split|by vm_compute]|].
      unfold py_int. rewrite He. apply digits_value. lia.
    - destruct (digits_no_sign (Z.pos p)) as [_ Hl]; [lia|].
      change (lstrip_by (N.eqb 45) (45%N :: ?x)) with (lstrip_by (N.eqb 45) x). rewrite Hl.
      split; [apply digits_length; [by split|by vm_compute]|]. unfold py_int. rewrite eat_eq, digits_value by lia. done. }
  destruct Hs as [Hl ->]. by rewrite (proj2 (Z.ltb_ge _ _) Hl).
Qed.

Definition reads_plain (t : str) (v : value) : Prop := opens t /\ reads_with plain_hooks t v.

Lemma plain_constant_reads f : float_prints f = true -> reads_plain (float_repr f) (VFloat f).
Proof.
  intros Hf. assert (Hnum : forall t, match_number (float_repr f) = Some (t, true, []) -> py_float t = f ->
    reads_plain (float_repr f) (VFloat f)).
  { intros t Hm Hp. pose proof (match_number_part _ _ _ _ Hm) as [[Ht _] _]. rewrite app_nil_r in Ht.
    rewrite Ht in *. apply (number_reads plain_hooks t true); [done|]. simpl. by rewrite Hp. }
  unfold float_prints in Hf. destruct f as [s|[]| |s m e].
  - destruct (match_number _) as [[[t []] []]|] eqn:Em; try done. apply float_same_eq in Hf. eauto.
  - by apply atom_reads.
  - by apply atom_reads.
  - by apply atom_reads.
  - destruct (match_number _) as [[[t []] []]|] eqn:Em; try done. apply float_same_eq in Hf. eauto.
Qed.

Lemma newline_ws level : forallb is_ws (newline_indent level) = true.
Proof. simpl. induction (level + (level + 0))%nat; simpl; auto. Qed.

Lemma newline_delimits level c r : delimited (c :: r) = true -> delimited (newline_indent level ++ c :: r) = true.
Proof. done. Qed.

Lemma keyed_members d level :
  str_keyed d ->
  exists ms : list member, d = map pair_of (map fst ms) /\ NoDup (map fst (map fst ms)) /\
    Forall (fun m => m_text m = dumps_indent (S level) (m_value m)) ms /\
    map (fun kv => match fst kv with VStr k => raw_string k | _ => [] end
                   ++ u ": " ++ dumps_indent (S level) (snd kv)) d
    = map (quoted_source [32%N] (flat_map raw_char)) ms.
Proof.
  intros (l & -> & Hn). exists (map (fun kv => (kv, dumps_indent (S level) (snd kv))) l).
  assert (Hl : map fst (map (fun kv => (kv, dumps_indent (S level) (snd kv))) l) = l) by (rewrite map_map; apply map_id).
  rewrite Hl, !map_map. split; [done|]. split; [done|]. split.
  - apply Forall_map, List.Forall_forall. done.
  - apply map_ext. intros [k v]. unfold quoted_source, raw_string, m_key, m_text. simpl.
    by rewrite <- !app_assoc.
Qed.

Lemma dupdate_pairs l : NoDup (map fst l) -> dupdate [] l = map pair_of l.
Proof.
  intros Hn. unfold dupdate. change (@nil (value * value)) with (map pair_of []).
  assert (Hg : forall pre, NoDup (map fst (pre ++ l)) ->
    fold_left (fun acc kv => dset (fst kv) (snd kv) acc) l (map pair_of pre) = map pair_of (pre ++ l)).
  { clear Hn. induction l as [|[k v] l IH]; intros pre Hn; [by rewrite app_nil_r|]. cbn [fold_left].
    rewrite dset_append.
    - change [(VStr (fst (k, v)), snd (k, v))] with (map pair_of [(k, v)]). rewrite <- map_app, IH; by rewrite <- app_assoc.
    - rewrite dmem_pairs. apply str_in_not_In. intros Hk. rewrite map_app in Hn.
      apply NoDup_app in Hn as (_ & Hd & _). apply (Hd k); [by apply list_elem_of_In|]. by left. }
  by apply (Hg []).
Qed.

Lemma opening_skip t r : opens t -> forall level, skip_ws (newline_indent level ++ t ++ r) = t ++ r.
Proof. intros Ht level. rewrite skip_ws_app by apply newline_ws. by apply opens_skip. Qed.

Lemma indented_list level l :
  Forall (fun v => reads_plain (dumps_indent (S level) v) v) l ->
  reads_plain (indented level 91 93 (map (dumps_indent (S level)) l)) (VList l).
Proof.
  intros Hl. destruct l as [|v l]; [split; [by eexists 91%N, _|]; by intros [|n] r Hr Hn; [lia|]|].
  set (tws := map (fun v => (dumps_indent (S level) v, v)) (v :: l)).
  assert (Htw : map (dumps_indent (S level)) (v :: l) = map fst tws) by (unfold tws; by rewrite map_map).
  assert (Hw : VList (v :: l) = VList (map snd tws)) by (f_equal; unfold tws; rewrite map_map; symmetry; apply map_id).
  assert (Hts : Forall (fun tw => opens (fst tw) /\ reads_with plain_hooks (fst tw) (snd tw)) tws) by by apply Forall_map.
  rewrite Htw, Hw. unfold tws at 1. cbn [map fst indented]. split; [by eexists 91%N, _|].
  change (dumps_indent (S level) v :: map fst (map _ l)) with (map fst tws).
  intros [|n] r Hr Hn; [lia|]. rewrite <- app_comm_cons, <- !app_assoc in *.
  assert (Ho : opens (py_join (44%N :: newline_indent (S level)) (map fst tws))).
  { apply join_opens. by apply Forall_cons in Hts as [[? _] _]. }
  cbn [scan_once]. rewrite eat_ne, eat_eq by done. rewrite opening_skip by done. rewrite opens_eat by auto.
  assert (Hs : scan_items plain_hooks n (py_join (44%N :: newline_indent (S level)) (map fst tws)
                 ++ newline_indent level ++ [93%N] ++ r) = Ok (map snd tws, r)).
  { apply (scan_items_reads plain_hooks (newline_indent (S level)) (newline_indent level));
      [apply newline_ws|apply newline_ws|done|done|done|]. cbn [length] in Hn. rewrite length_app in Hn.
    cbn [newline_indent length] in Hn. cbn [app] in *. lia. }
  exact (f_equal (fun m => let* (l0, r0) := m in Ok (VList l0, r0)) Hs).
Qed.

Lemma indented_dict level (ms : list member) :
  Forall (fun m => reads_plain (m_text m) (m_value m)) ms -> NoDup (map fst (map fst ms)) ->
  reads_plain (indented level 123 125 (map (quoted_source [32%N] (flat_map raw_char)) ms))
    (VDict (map pair_of (map fst ms))).
Proof.
  intros Hms Hnd. destruct ms as [|m ms]; [split; [by eexists 123%N, _|]; by intros [|n] r Hr Hn; [lia|]|].
  set (texts := map (quoted_source [32%N] (flat_map raw_char)) (m :: ms)).
  assert (Hi : indented level 123 125 texts = 123%N :: newline_indent (S level)
            ++ py_join (44%N :: newline_indent (S level)) texts ++ newline_indent level ++ [125%N]) by done.
  rewrite Hi. split; [by eexists 123%N, _|].
  intros [|n] r Hr Hn; [lia|]. rewrite <- app_comm_cons, <- !app_assoc in *.
  assert (Ho : opens (py_join (44%N :: newline_indent (S level)) texts)) by apply join_opens, quoted_opens.
  cbn [scan_once]. rewrite !eat_ne, eat_eq by done. rewrite opening_skip by done. rewrite opens_eat by auto.
  assert (Hs : scan_pairs plain_hooks n (py_join (44%N :: newline_indent (S level)) texts
                 ++ newline_indent level ++ [125%N] ++ r) = Ok (map fst (m :: ms), r)).
  { apply (scan_pairs_reads plain_hooks (newline_indent (S level)) (newline_indent level)) with (readable_key := fun _ => True);
      [apply newline_ws|apply newline_ws|done|done|intros; apply scanstring_raw|done| |].
    - eapply Forall_impl; [exact Hms|]. by intros m' [? ?].
    - cbn [length] in Hn. rewrite length_app in Hn. cbn [newline_indent length] in Hn. cbn [app] in *. fold texts. lia. }
  etransitivity; [exact (f_equal (fun x => let* (l, r0) := x in
                          let* v := object_pairs_hook plain_hooks l in Ok (v, r0)) Hs)|].
  cbn [rbind plain_hooks object_pairs_hook]. by rewrite dupdate_pairs.
Qed.

(** A loaded value, written with any indentation, is read back. *)
Lemma dumps_indent_reads v level :
  loaded_value v = true -> floats_print v = true -> reads_plain (dumps_indent level v) v.
Proof.
  revert level. induction v as [ |b|z|f|s|l IH|d IH] using value_nested_ind; intros level Hv Hf.
  - by apply atom_reads.
  - destruct b; by apply atom_reads.
  - apply (number_reads plain_hooks _ false); [apply match_number_int_text|]. apply plain_int_text. by apply Z.ltb_lt.
  - by apply plain_constant_reads.
  - split; [by eexists 34%N, _|]. intros [|n] r Hr Hn; [lia|]. cbn [dumps_indent]. unfold raw_string.
    rewrite <- app_comm_cons, <- app_assoc. cbn [app scan_once]. by rewrite eat_eq, scanstring_raw.
  - cbn [dumps_indent]. apply indented_list. cbn [loaded_value floats_print] in Hv, Hf.
    rewrite forallb_forall in Hv, Hf. rewrite List.Forall_forall in *. auto.
  - apply loaded_dict_iff in Hv as [Hk Hl]. cbn [dumps_indent]. destruct (keyed_members d level Hk) as (ms & Hd & Hn & Ht & ->).
    subst d. apply indented_dict; [|done]. cbn [floats_print] in Hf. rewrite map_map in *.
    rewrite forallb_forall in Hl, Hf. rewrite !List.Forall_forall in *.
    intros m Hm. rewrite (Ht m Hm).
    assert (Hin : In (pair_of (fst m)) (map (fun x : member => pair_of (fst x)) ms)) by exact (in_map (fun x : member => pair_of (fst x)) ms m Hm).
    apply (IH _ Hin); [by apply (Hl _ Hin)|by apply (Hf _ Hin)].
Qed.

Lemma dumped_loads d tail :
  loaded_value (VDict d) = true -> floats_print (VDict d) = true -> forallb is_ws tail = true -> delimited tail = true ->
  plain_loads (dumps_indent 0 (VDict d) ++ tail) = Ok (VDict d).
Proof.
  intros Hl Hf Ht Hd. destruct (dumps_indent_reads (VDict d) 0 Hl Hf) as [Ho Hr].
  unfold plain_loads, json_loads, json_loads_fuel.
  assert (Hb : eat 65279 (dumps_indent 0 (VDict d) ++ tail) = None).
  { cbn [dumps_indent]. unfold indented. by destruct (map _ d). }
  rewrite Hb, opens_skip, Hr by (done || lia). cbn [rbind].
  assert (Hs : skip_ws tail = []); [|by rewrite Hs].
  rewrite <- (app_nil_r tail), skip_ws_app by done. done.
Qed.

(** ** One field *)

(** The field [k] of [r] is the judge's: the value of [original], up to the equality
    of the language, or absent where [original] has none. *)
Definition agrees (k : str) (original r : dict) : Prop :=
  match dlookup k original with
  | Some x => dlookup k r = Some x \/ py_eq (dget r k) x = true
  | None => dlookup k r = None
  end.

(** What is kept of objects while fields are restored. *)
Definition clean (d : dict) : Prop := loaded_value (VDict d) = true /\ floats_print (VDict d) = true.

Lemma clean_keyed d : clean d -> str_keyed d.
Proof. by intros [[? _]%loaded_dict_iff _]. Qed.

Lemma clean_lookup k v d : clean d -> dlookup k d = Some v -> loaded_value v = true /\ floats_print v = true.
Proof.
  intros [[_ Hl]%loaded_dict_iff Hf]. cbn [floats_print] in Hf. revert Hl Hf.
  induction d as [|[k' x] d IH]; [done|]. simpl. rewrite !andb_true_iff. intros [Hx Hl] [Hfx Hf].
  destruct (is_key k k'); [by intros [= <-]|auto].
Qed.

Lemma dset_clean k v d : clean d -> loaded_value v = true -> floats_print v = true -> clean (dset k v d).
Proof.
  intros [Hl Hf] Hv Hfv. split; [by apply loaded_dict_iff, dset_loaded_dict; [apply loaded_dict_iff|]|].
  cbn [floats_print] in *. clear Hl. induction d as [|[k' x] d IH]; simpl in *; [by rewrite Hfv|].
  apply andb_true_iff in Hf as [Hx Hf]. destruct (is_key k k'); simpl; rewrite ?Hfv, ?Hx, ?Hf; auto.
Qed.

Lemma ddel_pairs k l : exists l', ddel k (map pair_of l) = map pair_of l' /\ sublist l' l.
Proof.
  induction l as [|[k' v] l (l' & IH & Hs)]; [by exists []|]. simpl. destruct (k' =s? k).
  - exists l. split; [done|]. by apply sublist_cons.
  - exists ((k', v) :: l'). rewrite IH. split; [done|]. by apply sublist_skip.
Qed.

Lemma ddel_clean k d : clean d -> clean (ddel k d).
Proof.
  intros Hc. destruct (clean_keyed d Hc) as (l & -> & Hn). destruct (ddel_pairs k l) as (l' & Hl' & Hs).
  rewrite Hl'. destruct Hc as [[_ Hl]%loaded_dict_iff Hf].
  assert (Hsub : forall f : value * value -> bool, forallb f (map pair_of l) = true -> forallb f (map pair_of l') = true).
  { intros f. rewrite !forallb_map_comp, !forallb_forall. intros H x Hx. apply H.
    apply list_elem_of_In. eapply elem_of_sublist; [by apply list_elem_of_In|done]. }
  split; [|cbn [floats_print]; by apply Hsub]. apply loaded_dict_iff. split; [|by apply Hsub].
  exists l'. split; [done|]. eapply sublist_NoDup; [done|]. exact (fmap_sublist fst _ _ Hs).
Qed.

Lemma dlookup_ddel k k' d :
  str_keyed d -> dlookup k' (ddel k d) = if k =s? k' then None else dlookup k' d.
Proof.
  intros (l & -> & Hn). induction l as [|[s v] l IH]; [by destruct (k =s? k')|].
  cbn [map fst] in Hn. apply NoDup_cons in Hn as [Hin Hn]. simpl. destruct (s =s? k) eqn:Es.
  - apply str_eqb_eq in Es as ->. destruct (k =s? k') eqn:E; [|done]. apply str_eqb_eq in E as ->.
    rewrite list_elem_of_In in Hin. apply str_in_not_In in Hin. rewrite <- dmem_pairs in Hin. unfold dmem in Hin.
    by destruct (dlookup k' (map pair_of l)).
  - simpl. rewrite (IH Hn). destruct (s =s? k') eqn:E'; [|done]. apply str_eqb_eq in E' as ->.
    by rewrite str_eqb_sym, Es.
Qed.

Lemma dset_same k x d : dlookup k d = Some x -> dset k x d = d.
Proof.
  induction d as [|[k' v] d IH]; [done|]. simpl. destruct (is_key k k'); [by intros [= ->]|].
  by intros ->%IH.
Qed.

Section Fields.
Context (original : dict) (Horiginal : clean original).

Lemma restore_field_spec k d b d' b' :
  clean d -> restore_field original (d, b) k = (d', b') ->
  clean d' /\ agrees k original d' /\ (forall k', k <> k' -> dlookup k' d' = dlookup k' d) /\
  (b = true -> b' = true) /\ (b' = false -> d' = d).
Proof.
  intros Hd. unfold restore_field, agrees. destruct (dlookup k original) as [x|] eqn:Ex.
  - destruct (py_eq (dget d k) x) eqn:Eq; intros [= <- <-].
    + split; [done|]. split; [by right|]. done.
    + destruct (clean_lookup _ _ _ Horiginal Ex). split; [by apply dset_clean|].
      split; [left; apply dlookup_dset_eq|]. split; [intros k' Hk; by apply dlookup_dset_ne|]. done.
  - unfold dmem. destruct (dlookup k d) as [y|] eqn:Ey; intros [= <- <-]; [|done].
    split; [by apply ddel_clean|]. pose proof (fun k' => dlookup_ddel k k' d (clean_keyed d Hd)) as Hdel.
    split; [by rewrite Hdel, str_eqb_refl|]. split; [|done].
    intros k' Hk. rewrite Hdel. by apply str_eqb_neq in Hk as ->.
Qed.

Lemma agrees_lookup k d d' : dlookup k d' = dlookup k d -> agrees k original d -> agrees k original d'.
Proof. unfold agrees, dget. intros ->. done. Qed.

Lemma restore_fold names d b d' b' :
  clean d -> fold_left (restore_field original) names (d, b) = (d', b') ->
  clean d' /\ (forall k, In k names -> agrees k original d') /\
  (forall k, ~ In k names -> dlookup k d' = dlookup k d) /\ (b = true -> b' = true) /\ (b' = false -> d' = d).
Proof.
  revert d b. induction names as [|k names IH]; intros d b Hd; [by intros [= <- <-]|]. cbn [fold_left].
  destruct (restore_field original (d, b) k) as [d1 b1] eqn:E1. intros Hf.
  destruct (restore_field_spec _ _ _ _ _ Hd E1) as (Hd1 & Ha1 & Ho1 & Hb1 & He1).
  destruct (IH d1 b1 Hd1 Hf) as (Hd' & Ha' & Ho' & Hb' & He').
  split; [done|]. split; [|split; [|split; [auto|]]].
  - intros x [<-|Hx]; [|auto]. destruct (str_in k names) eqn:Hk; [apply Ha'; by apply str_in_In|].
    apply str_in_not_In in Hk. eapply agrees_lookup; [by apply Ho'|done].
  - intros x Hx. rewrite Ho' by (intros H; apply Hx; by right). apply Ho1. intros ->. apply Hx. by left.
  - intros Hb. rewrite He' by done. apply He1. destruct b1; [|done]. by rewrite Hb' in Hb.
Qed.

(** Fields that agree are not changed again. *)
Lemma restore_agreeing names d b :
  (forall k, In k names -> agrees k original d) ->
  exists b', fold_left (restore_field original) names (d, b) = (d, b') /\
    (b' = b \/ exists k x, In k names /\ dlookup k d = Some x).
Proof.
  revert b. induction names as [|k names IH]; intros b Ha; [exists b; split; [done|by left]|]. cbn [fold_left].
  assert (Hk : exists b1, restore_field original (d, b) k = (d, b1) /\ (b1 = b \/ exists x, dlookup k d = Some x)).
  { specialize (Ha k ltac:(by left)). unfold agrees in Ha. unfold restore_field, dmem.
    destruct (dlookup k original) as [x|]; [|rewrite Ha; exists b; split; [done|by left]].
    destruct (py_eq (dget d k) x) eqn:Eq; [exists b; split; [done|by left]|].
    destruct Ha as [Ha|]; [|congruence]. exists true. split; [by rewrite dset_same|right; eauto]. }
  destruct Hk as (b1 & -> & Hb1). destruct (IH b1) as (b' & Hf & Hb'); [intros x Hx; apply Ha; by right|].
  exists b'. split; [done|]. destruct Hb' as [->|(x & y & Hx & Hy)]; [|right; exists x, y; split; [by right|done]].
  destruct Hb1 as [->|[y Hy]]; [by left|right; exists k, y; split; [by left|done]].
Qed.
End Fields.

(** ** The whole manifest *)

Lemma scripts_clean d : clean d -> clean (scripts_of d).
Proof.
  intros Hd. unfold scripts_of, dget. destruct (dlookup (u "scripts") d) as [v|] eqn:E; [|done].
  destruct (clean_lookup _ _ _ Hd E). by destruct v.
Qed.

Lemma scripts_dset v d : scripts_of (dset (u "scripts") (VDict v) d) = v.
Proof. unfold scripts_of, dget. by rewrite dlookup_dset_eq. Qed.

Lemma scripts_same d d' : dlookup (u "scripts") d' = dlookup (u "scripts") d -> scripts_of d' = scripts_of d.
Proof. unfold scripts_of, dget. by intros ->. Qed.

Lemma runner_keys_not_scripts k : In k _PKG_RUNNER_KEYS -> k <> u "scripts".
Proof. intros Hk ->. by apply str_in_In in Hk. Qed.

Lemma agrees_absent k o d : dlookup k o = None -> dlookup k d = None -> agrees k o d.
Proof. unfold agrees. by intros ->. Qed.

Section Manifest.
Context (set_order : list str -> list str) (Horder : forall l x, In x (set_order l) <-> In x l).

Lemma judge_scripts_In k c o :
  In k (judge_scripts set_order c o) <->
  _is_judge_script k = true /\ (In k (dict_str_keys c) \/ In k (dict_str_keys o)).
Proof.
  unfold judge_scripts. rewrite Horder, filter_In, dedup_str_In, in_app_iff. tauto.
Qed.

Lemma restore_fields_spec o c r b :
  clean o -> clean c -> restore_fields set_order o c = (r, b) ->
  clean r /\ (b = false -> r = c) /\
  (forall k, In k _PKG_RUNNER_KEYS -> agrees k o r) /\
  (forall k, _is_judge_script k = true -> agrees k (scripts_of o) (scripts_of r)) /\
  (forall k, ~ In k _PKG_RUNNER_KEYS -> k <> u "scripts" -> dlookup k r = dlookup k c) /\
  (forall k, _is_judge_script k = false -> dlookup k (scripts_of r) = dlookup k (scripts_of c)).
Proof.
  intros Ho Hc. unfold restore_fields.
  destruct (fold_left (restore_field o) _PKG_RUNNER_KEYS (c, false)) as [d1 b1] eqn:E1. cbn [fst].
  destruct (restore_fold o Ho _ _ _ _ _ Hc E1) as (Hd1 & Ha1 & Ho1 & _ & He1).
  assert (Hsc : scripts_of d1 = scripts_of c).
  { apply scripts_same, Ho1. intros Hk%runner_keys_not_scripts. done. }
  rewrite Hsc. set (names := judge_scripts set_order (scripts_of c) (scripts_of o)).
  destruct (fold_left (restore_field (scripts_of o)) names (scripts_of c, false)) as [s b2] eqn:E2.
  destruct (restore_fold _ (scripts_clean o Ho) _ _ _ _ _ (scripts_clean c Hc) E2) as (Hs & Ha2 & Ho2 & _ & He2).
  assert (Hjudge : forall k, _is_judge_script k = true -> agrees k (scripts_of o) s).
  { intros k Hk. destruct (str_in k names) eqn:Ek; [apply Ha2; by apply str_in_In|].
    apply str_in_not_In in Ek. assert (Hn : ~ (In k (dict_str_keys (scripts_of c)) \/ In k (dict_str_keys (scripts_of o)))).
    { intros H. apply Ek, judge_scripts_In. done. }
    apply agrees_absent.
    - destruct (dlookup k (scripts_of o)) eqn:El; [|done]. exfalso. apply Hn. right. apply dlookup_keys. congruence.
    - rewrite Ho2 by done. destruct (dlookup k (scripts_of c)) eqn:El; [|done].
      exfalso. apply Hn. left. apply dlookup_keys. congruence. }
  assert (Hother : forall k, _is_judge_script k = false -> dlookup k s = dlookup k (scripts_of c)).
  { intros k Hk. apply Ho2. intros Hin. apply judge_scripts_In in Hin as [? _]. congruence. }
  destruct b2; intros [= <- <-].
  - split; [apply dset_clean; [done|apply Hs|apply Hs]|]. split; [done|]. rewrite scripts_dset.
    split; [|split; [done|split; [|done]]].
    + intros k Hk. eapply agrees_lookup; [|by apply Ha1]. apply dlookup_dset_ne. intros <-. by apply runner_keys_not_scripts in Hk.
    + intros k Hk Hne. rewrite dlookup_dset_ne by congruence. auto.
  - rewrite (He2 eq_refl) in *. split; [done|]. split; [exact He1|]. rewrite Hsc. auto.
Qed.

(** Fields that agree stay as they are. *)
Lemma restore_fields_again o r :
  clean r -> (forall k, In k _PKG_RUNNER_KEYS -> agrees k o r) ->
  (forall k, _is_judge_script k = true -> agrees k (scripts_of o) (scripts_of r)) ->
  exists b, restore_fields set_order o r = (r, b).
Proof.
  intros Hr Hk Hj. unfold restore_fields.
  destruct (restore_agreeing o _PKG_RUNNER_KEYS r false Hk) as (b1 & -> & _). cbn [fst].
  destruct (restore_agreeing (scripts_of o) (judge_scripts set_order (scripts_of r) (scripts_of o)) (scripts_of r) false)
    as (b2 & -> & Hb2).
  { intros k [Hjk _]%judge_scripts_In. auto. }
  destruct b2; [|eauto]. destruct Hb2 as [|(k & x & _ & Hx)]; [done|]. exists true. f_equal. apply dset_same.
  unfold scripts_of, dget in *. destruct (dlookup (u "scripts") r) as [v|]; [|done]. by destruct v.
Qed.

Lemma original_clean text :
  floats_print (VDict (original_object text)) = true -> clean (original_object text).
Proof.
  intros Hf. split; [|done]. destruct text as [[|ch t]|]; try done. cbn [original_object] in *.
  destruct (plain_loads (ch :: t)) as [v|] eqn:E; [|done]. apply plain_loads_loaded in E. by destruct v.
Qed.

(** The text returned, read again: the restored object. *)
Lemma restored_loads original_text candidate_text c :
  plain_loads candidate_text = Ok (VDict c) -> clean (original_object original_text) -> clean c ->
  plain_loads (restore_judge_package_json set_order original_text candidate_text)
  = Ok (VDict (fst (restore_fields set_order (original_object original_text) c))).
Proof.
  intros Hl Ho Hc. unfold restore_judge_package_json. rewrite Hl.
  destruct (restore_fields _ _ _) as [r b] eqn:E. destruct (restore_fields_spec _ _ _ _ Ho Hc E) as ([? ?] & Hsame & _).
  destruct b; cbn [fst]; [by apply dumped_loads|]. by rewrite (Hsame eq_refl).
Qed.
End Manifest.

(** An edited package.json keeps the judge's test harness.  When the candidate's
    text is a JSON object, the text that is written to the workspace reads as an
    object in which every runner section (jest, vitest, mocha, ava, c8, nyc) and
    every test script (test, test:*, pretest, posttest) is the one of the original
    manifest - equal under the equality of the language, or absent when the
    original has none - while every other field and script is the candidate's,
    whatever the order in which the script names are visited. *)
Theorem restored_manifest_spares_judge set_order original_text candidate_text c :
  (forall l x, In x (set_order l) <-> In x l) ->
  plain_loads candidate_text = Ok (VDict c) ->
  floats_print (VDict c) = true -> floats_print (VDict (original_object original_text)) = true ->
  exists r, plain_loads (restore_judge_package_json set_order original_text candidate_text) = Ok (VDict r) /\
    (forall k, In k _PKG_RUNNER_KEYS -> agrees k (original_object original_text) r) /\
    (forall k, _is_judge_script k = true -> agrees k (scripts_of (original_object original_text)) (scripts_of r)) /\
    (forall k, ~ In k _PKG_RUNNER_KEYS -> k <> u "scripts" -> dlookup k r = dlookup k c) /\
    (forall k, _is_judge_script k = false -> dlookup k (scripts_of r) = dlookup k (scripts_of c)).
Proof.
  intros Hord Hl Hf Hfo. assert (Hc : clean c) by (split; [by apply plain_loads_loaded in Hl|done]).
  pose proof (original_clean _ Hfo) as Ho.
  destruct (restore_fields set_order (original_object original_text) c) as [r b] eqn:E.
  destruct (restore_fields_spec set_order Hord _ _ _ _ Ho Hc E) as (_ & _ & H1 & H2 & H3 & H4).
  exists r. rewrite (restored_loads set_order Hord _ _ _ Hl Ho Hc), E. done.
Qed.

(** Restoring what was restored changes nothing. *)
Theorem restore_idempotent set_order original_text candidate_text c :
  (forall l x, In x (set_order l) <-> In x l) ->
  plain_loads candidate_text = Ok (VDict c) ->
  floats_print (VDict c) = true -> floats_print (VDict (original_object original_text)) = true ->
  let restored := restore_judge_package_json set_order original_text candidate_text in
  restore_judge_package_json set_order original_text restored = restored.
Proof.
  intros Hord Hl Hf Hfo. assert (Hc : clean c) by (split; [by apply plain_loads_loaded in Hl|done]).
  pose proof (original_clean _ Hfo) as Ho. intros restored.
  pose proof (restored_loads set_order Hord _ _ _ Hl Ho Hc) as Hr. fold restored in Hr.
  unfold restore_judge_package_json at 1. rewrite Hr.
  unfold restored, restore_judge_package_json. rewrite Hl.
  destruct (restore_fields set_order (original_object original_text) c) as [r b] eqn:E. cbn [fst].
  destruct (restore_fields_spec set_order Hord _ _ _ _ Ho Hc E) as (Hcr & Hsame & H1 & H2 & _).
  destruct (restore_fields_again set_order Hord _ _ Hcr H1 H2) as [b' Hb']. rewrite Hb'.
  destruct b, b'; try done. rewrite (Hsame eq_refl) in *. congruence.
Qed.

(** A manifest with a harness, and an edit that would replace it. *)
Definition sample_original : str :=
  quote_ticks (u "{'name':'a','scripts':{'test':'jest','build':'b'},'jest':{'bail':1,'ratio':0.5}}").
Definition sample_candidate : str :=
  quote_ticks (u "{'name':'b','scripts':{'test':'true','build':'c','pretest':'x'},'nyc':{},'jest':{'ratio':1e-1}}").

Definition object_at (text : str) : dict := match plain_loads text with Ok (VDict d) => d | _ => [] end.

Lemma restored_manifest_spares_judge_witness :
  exists r, plain_loads (restore_judge_package_json id (Some sample_original) sample_candidate) = Ok (VDict r) /\
    agrees (u "jest") (object_at sample_original) r /\
    agrees (u "test") (scripts_of (object_at sample_original)) (scripts_of r).
Proof.
  assert (Hl : plain_loads sample_candidate = Ok (VDict (object_at sample_candidate))) by (vm_compute; reflexivity).
  assert (Hf : floats_print (VDict (object_at sample_candidate)) = true) by (vm_compute; reflexivity).
  assert (Ho : floats_print (VDict (original_object (Some sample_original))) = true) by (vm_compute; reflexivity).
  destruct (restored_manifest_spares_judge id (Some sample_original) sample_candidate _ (fun l x => iff_refl _) Hl Hf Ho)
    as (r & Hr & H1 & H2 & _).
  exists r. split; [exact Hr|]. split; [apply H1; left; reflexivity|apply H2; reflexivity].
Defined.
