(* ===== verification/PackManifest.v ===== *)
(** Verifier packs (pack_manifest.py): the manifest contract, the inventory of a pack
    directory under its limits, the framed digest that identifies it, and the
    snapshot a judge executes.

    A directory is given by what the system calls of one traversal observe, so a
    tree that changes between two calls is a value like any other. *)
From S2P Require Export PackageJson Candidate.
Local Open Scope Z_scope.

Definition PACK_REQUIRED : list str := us ["id"; "version"].
Definition PACK_OPTIONAL : list str := us ["description"; "target_type"; "protocol"].
Definition PACK_KEYS : list str := PACK_REQUIRED ++ PACK_OPTIONAL.
Definition PACK_DIGEST_FORMAT : str := u "EVOGUARD_PACK_V2".
Definition MAX_PACK_FILE_BYTES : Z := 8 * 1024 * 1024.
Definition MAX_PACK_BYTES : Z := 32 * 1024 * 1024.
Definition MAX_PACK_MANIFEST_BYTES : Z := 64 * 1024.
Definition MAX_PACK_ENTRIES : Z := 10000.

(** The messages of [PackManifestError]; [PathLengthOverflow] is the [OverflowError] of
    [to_bytes]. *)
Inductive pack_error :=
| ManifestNotRegular
| ManifestTooLarge
| ManifestChanged
| ManifestUnreadable
| ManifestInvalid (problems : list str)
| RootNotDirectory
| TreeUnreadable
| DirectoryUnreadable (rel : str)
| DirectoryNotReal (rel : str)
| FileUnreadable (rel : str)
| FileNotRegular (rel : str)
| FileTooLarge (rel : str)
| PackTooLarge
| TooManyPackEntries
| PathNotEncodable (rel : str)
| PathLengthOverflow
| FileChanged (rel : str)
| NoPackTests
| SnapshotFailed
| SnapshotDiffers
| SnapshotChangedSince.

Section Pack.
Context `{UnicodeDB}.

(** ** The manifest *)

Definition is_text (v : value) : bool := match v with VStr s => negb (is_empty (strip s)) | _ => false end.

Definition manifest_problems (manifest : value) : list str :=
  match manifest with
  | VDict m =>
      flat_map (fun key => if is_text (dget m key) then []
                           else [u "pack.json missing required string field " ++ py_repr key]) PACK_REQUIRED
      ++ flat_map (fun key => if dmem key m && negb (is_str (dget m key))
                              then [u "pack.json field " ++ py_repr key ++ u " must be a string"] else []) PACK_OPTIONAL
      ++ let unknown := sorted_set (List.filter (fun k => negb (str_in k PACK_KEYS)) (dict_str_keys m)) in
         if is_empty unknown then []
         else [u "pack.json has unknown field(s): " ++ py_join (u ", ") unknown
               ++ u " (accepted: " ++ py_join (u ", ") PACK_KEYS ++ u ")"]
  | _ => [u "pack.json must be a JSON object"]
  end.

Definition extract_manifest (m : dict) : dict :=
  flat_map (fun key => match dlookup key m with Some v => [(VStr key, v)] | None => [] end) PACK_KEYS.

(** [_unique_object] *)
Fixpoint duplicate_free (keys : list str) : bool :=
  match keys with [] => true | k :: keys' => negb (str_in k keys') && duplicate_free keys' end.

Definition pack_hooks : hooks load_error :=
  {| object_pairs_hook := fun pairs => if duplicate_free (map fst pairs) then Ok (VDict (dupdate [] pairs))
                                       else Err ValueError;
     parse_constant := plain_constant;
     parse_float := fun t => Ok (VFloat (py_float t));
     parse_int := plain_int;
     decode_error := ValueError |}.

(** What the calls on pack.json observe. *)
Record manifest_observation := {
  mo_exists : bool;
  mo_link : bool;
  mo_file : bool;
  mo_size : option Z;
  mo_data : option bytes }.

Definition load_pack_manifest (o : manifest_observation) : result pack_error (option dict) :=
  if negb (mo_exists o) then Ok None
  else if mo_link o || negb (mo_file o) then Err ManifestNotRegular
  else
    match mo_size o with
    | None => Err ManifestUnreadable
    | Some size =>
        if MAX_PACK_MANIFEST_BYTES <? size then Err ManifestTooLarge
        else
          match mo_data o with
          | None => Err ManifestUnreadable
          | Some content =>
              let data := first_bytes (MAX_PACK_MANIFEST_BYTES + 1) content in
              if MAX_PACK_MANIFEST_BYTES <? Z.of_nat (length data) then Err ManifestTooLarge
              else if negb (Z.of_nat (length data) =? size) then Err ManifestChanged
              else
                match utf8_decode data with
                | None => Err ManifestUnreadable
                | Some text =>
                    match json_loads pack_hooks text with
                    | Err _ => Err ManifestUnreadable
                    | Ok decoded =>
                        match manifest_problems decoded, decoded with
                        | [], VDict m => Ok (Some (extract_manifest m))
                        | problems, _ => Err (ManifestInvalid problems)
                        end
                    end
                end
          end
    end.

(** ** The tree *)

Inductive file_kind := RegularFile | Directory | SymbolicLink | SpecialFile.

(** One name of a directory: whether the walk lists it with the directories, its
    [lstat], the size and the reads of its content ([None] is an [OSError]), and its
    own listing. *)
Inductive entry :=
  Entry (listed_as_directory : bool) (lstat : option (file_kind * Z)) (getsize : option Z)
        (reads : list (option bytes)) (listing : option (list (str * entry))).

Definition en_directory (e : entry) : bool := let '(Entry d _ _ _ _) := e in d.
Definition en_lstat (e : entry) := let '(Entry _ s _ _ _) := e in s.
Definition en_getsize (e : entry) := let '(Entry _ _ s _ _) := e in s.
Definition en_reads (e : entry) := let '(Entry _ _ _ r _) := e in r.
Definition en_listing (e : entry) := let '(Entry _ _ _ _ l) := e in l.

Definition _inspect_pack_directory (rel : str) (e : entry) : result pack_error unit :=
  match en_lstat e with
  | None => Err (DirectoryUnreadable rel)
  | Some (Directory, _) => Ok tt
  | Some _ => Err (DirectoryNotReal rel)
  end.

Definition _require_pack_file_size (size : Z) (rel : str) : result pack_error unit :=
  if MAX_PACK_FILE_BYTES <? size then Err (FileTooLarge rel) else Ok tt.
Definition _require_pack_total (total : Z) : result pack_error unit :=
  if MAX_PACK_BYTES <? total then Err PackTooLarge else Ok tt.
Definition _require_pack_entry_count (count : Z) : result pack_error unit :=
  if MAX_PACK_ENTRIES <? count then Err TooManyPackEntries else Ok tt.

Definition _inspect_pack_file (rel : str) (e : entry) : result pack_error Z :=
  match en_lstat e with
  | None => Err (FileUnreadable rel)
  | Some (RegularFile, size) => let* _ := _require_pack_file_size size rel in Ok size
  | Some _ => Err (FileNotRegular rel)
  end.

(** Directories and files found so far, and the size of the files. *)
Record inventory := { iv_directories : list str; iv_files : list (str * entry); iv_total : Z }.

Definition iv_count (v : inventory) : Z := Z.of_nat (length (iv_directories v) + length (iv_files v)).

Definition add_directory (rel : str) (e : entry) (v : inventory) : result pack_error inventory :=
  let* _ := _inspect_pack_directory rel e in
  let v := {| iv_directories := iv_directories v ++ [rel]; iv_files := iv_files v; iv_total := iv_total v |} in
  let* _ := _require_pack_entry_count (iv_count v) in Ok v.

Definition add_file (rel : str) (e : entry) (v : inventory) : result pack_error inventory :=
  let* size := _inspect_pack_file rel e in
  let total := iv_total v + size in
  let* _ := _require_pack_total total in
  let v := {| iv_directories := iv_directories v; iv_files := iv_files v ++ [(rel, e)]; iv_total := total |} in
  let* _ := _require_pack_entry_count (iv_count v) in Ok v.

(** A loop over a list that threads a state. *)
Fixpoint rfold {A S} (f : A -> S -> result pack_error S) (l : list A) (s : S) : result pack_error S :=
  match l with [] => Ok s | x :: l' => let* s := f x s in rfold f l' s end.

(** The path of a name below [rel], relative to the root of the pack. *)
Definition below (rel name : str) : str := if is_empty rel then name else rel ++ ch_slash :: name.

Definition name_leb {A} (a b : str * A) : bool := str_leb (fst a) (fst b).

(** [os.walk], top down: the directories of a directory by name, its files by name,
    then the directories below. *)
Fixpoint walk (e : entry) (rel : str) (v : inventory) {struct e} : result pack_error inventory :=
  let '(Entry _ _ _ _ listing) := e in
  match listing with
  | None => Err TreeUnreadable
  | Some l =>
      let l := py_sort name_leb (map (fun c => (fst c, (snd c, walk (snd c)))) l) in
      let dirs := List.filter (fun c => en_directory (fst (snd c))) l in
      let files := List.filter (fun c => negb (en_directory (fst (snd c)))) l in
      let* v := rfold (fun c => add_directory (below rel (fst c)) (fst (snd c))) dirs v in
      let* v := rfold (fun c => add_file (below rel (fst c)) (fst (snd c))) files v in
      rfold (fun c => snd (snd c) (below rel (fst c))) dirs v
  end.

(** [lstat] of the root: [None] when it does not exist. *)
Record pack_observation := { po_root : option file_kind; po_tree : entry; po_manifest : manifest_observation }.

Definition _require_pack_root (p : pack_observation) : result pack_error unit :=
  match po_root p with Some Directory => Ok tt | _ => Err RootNotDirectory end.

Definition _pack_inventory (p : pack_observation) : result pack_error inventory :=
  let* _ := _require_pack_root p in
  walk (po_tree p) [] {| iv_directories := []; iv_files := []; iv_total := 0 |}.

(** ** The digest *)

Definition _framed_path (kind : Z) (rel : str) : result pack_error bytes :=
  match utf8 rel with
  | None => Err (PathNotEncodable rel)
  | Some rel_bytes =>
      if Z.of_nat (length rel_bytes) <? 2 ^ 64
      then Ok (kind :: pack_u64 (Z.of_nat (length rel_bytes)) ++ rel_bytes)
      else Err PathLengthOverflow
  end.

(** The reads of a file up to the first empty one: what is hashed, and the bytes
    observed. *)
Fixpoint hash_chunks (rel : str) (chunks : list (option bytes)) (observed total : Z)
  : result pack_error (bytes * Z * Z) :=
  match chunks with
  | [] => Ok ([], observed, total)
  | None :: _ => Err (FileUnreadable rel)
  | Some [] :: _ => Ok ([], observed, total)
  | Some chunk :: chunks' =>
      let observed := observed + Z.of_nat (length chunk) in
      let total := total + Z.of_nat (length chunk) in
      let* _ := _require_pack_file_size observed rel in
      let* _ := _require_pack_total total in
      let* (rest, observed, total) := hash_chunks rel chunks' observed total in
      Ok (chunk ++ rest, observed, total)
  end.

Definition _hash_pack_file (rel : str) (e : entry) (total : Z) : result pack_error (bytes * Z) :=
  let* frame := _framed_path 70 rel in
  match en_getsize e with
  | None => Err (FileUnreadable rel)
  | Some size =>
      let* _ := _require_pack_file_size size rel in
      let* _ := _require_pack_total (total + size) in
      let* (content, observed, total) := hash_chunks rel (en_reads e) 0 total in
      if observed =? size then Ok (frame ++ pack_u64 size ++ content, total) else Err (FileChanged rel)
  end.

Fixpoint hash_files (files : list (str * entry)) (total : Z) : result pack_error bytes :=
  match files with
  | [] => Ok []
  | (rel, e) :: files' =>
      let* (b, total) := _hash_pack_file rel e total in
      let* rest := hash_files files' total in
      Ok (b ++ rest)
  end.

Definition pack_header : bytes := ascii_bytes PACK_DIGEST_FORMAT ++ [0].

(** The bytes that are hashed. *)
Definition inventory_bytes (directories : list str) (files : list (str * entry)) : result pack_error bytes :=
  let* dirs := rmap (_framed_path 68) directories in
  let* files := hash_files files 0 in
  Ok (pack_header ++ concat dirs ++ files).

Definition _digest_inventory (v : inventory) : result pack_error str :=
  let* b := inventory_bytes (iv_directories v) (iv_files v) in Ok (sha256_hex b).

Definition pack_digest (p : pack_observation) : result pack_error str :=
  let* v := _pack_inventory p in _digest_inventory v.

(** [os.path.basename] of a relative path *)
Definition path_basename (rel : str) : str := List.last (split_char ch_slash rel) [].

Definition is_pack_test (rel : str) : bool :=
  starts_with (u "test_") (path_basename rel) && ends_with (u ".py") rel.

Definition pack_test_files (p : pack_observation) : result pack_error (list str) :=
  let* v := _pack_inventory p in Ok (List.filter is_pack_test (map fst (iv_files v))).

Definition digest_and_manifest (p : pack_observation) : result pack_error (str * option dict) :=
  let* v := _pack_inventory p in
  if negb (existsb is_pack_test (map fst (iv_files v))) then Err NoPackTests
  else
    let* digest := _digest_inventory v in
    let* manifest := load_pack_manifest (po_manifest p) in
    Ok (digest, manifest).

(** ** Snapshots *)

(** [a == b] of two identities *)
Definition identity_eq (a b : str * option dict) : bool :=
  (fst a =s? fst b)
  && match snd a, snd b with
     | None, None => true
     | Some m, Some n => py_eq (VDict m) (VDict n)
     | _, _ => false
     end.

(** The source, whether [copytree] succeeds, and the copy. *)
Definition snapshot_pack (source : pack_observation) (copied : bool) (destination : pack_observation)
  : result pack_error (str * option dict) :=
  let* source_identity := digest_and_manifest source in
  if negb copied then Err SnapshotFailed
  else
    let* snapshot_identity := digest_and_manifest destination in
    if identity_eq source_identity snapshot_identity then Ok snapshot_identity else Err SnapshotDiffers.

Definition verify_pack_snapshot (snapshot : pack_observation) (expected : str * option dict)
  : result pack_error unit :=
  let* observed := digest_and_manifest snapshot in
  if identity_eq observed expected then Ok tt else Err SnapshotChangedSince.
End Pack.

(** * What an accepted snapshot proves *)

Section Sound.
Context `{UnicodeDB}.

(** ** The bytes of a digest *)

(** The bytes a sequence of reads delivers. *)
Fixpoint reads_content (reads : list (option bytes)) : bytes :=
  match reads with Some ((_ :: _) as chunk) :: reads' => chunk ++ reads_content reads' | _ => [] end.

Definition file_content (f : str * entry) : str * bytes := (fst f, reads_content (en_reads (snd f))).

(** What a pack is: its directories, and its files with their contents. *)
Definition pack_content (v : inventory) : list str * list (str * bytes) :=
  (iv_directories v, map file_content (iv_files v)).

Definition zlen {A} (l : list A) : Z := Z.of_nat (length l).

Lemma zlen_app {A} (l k : list A) : zlen (l ++ k) = zlen l + zlen k.
Proof. unfold zlen. rewrite length_app. lia. Qed.

Lemma require_size_ok size rel x : _require_pack_file_size size rel = Ok x <-> size <= MAX_PACK_FILE_BYTES.
Proof. unfold _require_pack_file_size. destruct x, (_ <? _) eqn:E; brefl; split; (done || lia). Qed.

Lemma require_total_ok total x : _require_pack_total total = Ok x <-> total <= MAX_PACK_BYTES.
Proof. unfold _require_pack_total. destruct x, (_ <? _) eqn:E; brefl; split; (done || lia). Qed.

Lemma require_count_ok count x : _require_pack_entry_count count = Ok x <-> count <= MAX_PACK_ENTRIES.
Proof. unfold _require_pack_entry_count. destruct x, (_ <? _) eqn:E; brefl; split; (done || lia). Qed.

Lemma hash_chunks_ok rel chunks observed total c o t :
  hash_chunks rel chunks observed total = Ok (c, o, t) ->
  c = reads_content chunks /\ o = observed + zlen c /\ t = total + zlen c /\ (c = [] \/ t <= MAX_PACK_BYTES).
Proof.
  revert observed total c o t. induction chunks as [|[[|x chunk]|] chunks IH]; intros observed total c o t; cbn.
  1,2: intros [= <- <- <-]; unfold zlen; simpl; split_and!; [done|lia..|by left].
  - intros (? & _ & (? & Hb%require_total_ok & ([[rest o'] t'] & H1 & H2)%rbind_ok)%rbind_ok)%rbind_ok.
    injection H2 as <- <- <-.
    apply IH in H1 as (-> & -> & -> & H3). rewrite app_comm_cons, !zlen_app. unfold zlen in *. cbn [length] in *.
    split_and!; [done|lia..|]. right. destruct H3 as [H3|H3]; [rewrite H3 in *; cbn [length] in *|]; lia.
  - done.
Qed.

(** A path record. *)
Definition path_record (kind : Z) (path : bytes) : bytes := kind :: pack_u64 (zlen path) ++ path.

Lemma framed_path_ok kind rel b :
  _framed_path kind rel = Ok b <-> exists path, utf8 rel = Some path /\ sized path /\ b = path_record kind path.
Proof.
  unfold _framed_path, sized. destruct (utf8 rel) as [path|]; [|naive_solver]. destruct (_ <? _) eqn:E; brefl.
  - split; [intros <-%Ok_inj; by exists path|by intros (? & [= <-] & _ & ->)].
  - split; [done|]. intros (? & [= <-] & ? & _). unfold sized in *. lia.
Qed.

Lemma path_record_inj kind a b r r' :
  sized a -> sized b -> path_record kind a ++ r = path_record kind b ++ r' -> a = b /\ r = r'.
Proof.
  intros Ha Hb Heq. unfold path_record in Heq. rewrite <- !app_comm_cons, <- !app_assoc in Heq.
  apply (f_equal (@tl Z)) in Heq. by apply length_prefixed_inj in Heq.
Qed.

Lemma hash_pack_file_ok rel e total b t :
  _hash_pack_file rel e total = Ok (b, t) ->
  let c := reads_content (en_reads e) in
  exists path, utf8 rel = Some path /\ sized path /\ sized c /\ zlen c <= MAX_PACK_FILE_BYTES /\ t = total + zlen c /\
    t <= MAX_PACK_BYTES /\ b = path_record 70 path ++ pack_u64 (zlen c) ++ c.
Proof.
  unfold _hash_pack_file. intros (frame & (path & Hp & Hs & ->)%framed_path_ok & Hb)%rbind_ok.
  destruct (en_getsize e) as [size|]; [|done].
  apply rbind_ok in Hb as (? & E1%require_size_ok & (? & E2%require_total_ok & ([[c o] t'] & Hc & Hb)%rbind_ok)%rbind_ok).
  apply hash_chunks_ok in Hc as (-> & -> & -> & _).
  destruct (_ =? _) eqn:E3; [|done]. injection Hb as <- <-. brefl. rewrite Z.add_0_l in E3.
  exists path. split_and!; try done; try lia; [|by rewrite E3].
  unfold sized. fold (zlen (reads_content (en_reads e))). unfold MAX_PACK_FILE_BYTES in E1. lia.
Qed.

Lemma hash_files_inj files files' total total' b :
  hash_files files total = Ok b -> hash_files files' total' = Ok b -> map file_content files = map file_content files'.
Proof.
  revert files' total total' b.
  induction files as [|[rel e] files IH]; intros [|[rel' e'] files'] total total' b; cbn.
  - done.
  - intros <-%Ok_inj ([c t] & H1 & (rest & _ & H2)%rbind_ok)%rbind_ok.
    apply hash_pack_file_ok in H1 as (p & _ & _ & _ & _ & _ & _ & ->). done.
  - intros ([c t] & H1 & (rest & _ & H2)%rbind_ok)%rbind_ok <-%Ok_inj.
    apply hash_pack_file_ok in H1 as (p & _ & _ & _ & _ & _ & _ & ->). done.
  - intros ([c t] & H1 & (rest & Hr & <-%Ok_inj)%rbind_ok)%rbind_ok ([c' t'] & H1' & (rest' & Hr' & Heq%Ok_inj)%rbind_ok)%rbind_ok.
    apply hash_pack_file_ok in H1 as (p & Hp & Hsp & Hsc & _ & _ & _ & ->).
    apply hash_pack_file_ok in H1' as (p' & Hp' & Hsp' & Hsc' & _ & _ & _ & ->).
    rewrite <- !app_assoc in Heq. apply path_record_inj in Heq as [-> Heq]; [|done..].
    apply length_prefixed_inj in Heq as [Hc ->]; [|done..].
    unfold file_content at 1 3. cbn [fst snd]. rewrite Hc, (utf8_inj rel rel' p) by done. f_equal. by eapply IH.
Qed.

Lemma hash_files_head files total b : hash_files files total = Ok b -> b = [] \/ exists r, b = 70 :: r.
Proof.
  destruct files as [|[rel e] files]; cbn; [intros <-%Ok_inj; by left|].
  intros ([c t] & (p & _ & _ & _ & _ & _ & _ & ->)%hash_pack_file_ok & (rest & _ & <-%Ok_inj)%rbind_ok)%rbind_ok.
  right. eauto.
Qed.

Lemma directories_inj dirs dirs' ds ds' fs fs' :
  rmap (_framed_path 68) dirs = Ok ds -> rmap (_framed_path 68) dirs' = Ok ds' ->
  (fs = [] \/ exists r, fs = 70 :: r) -> (fs' = [] \/ exists r, fs' = 70 :: r) ->
  concat ds ++ fs = concat ds' ++ fs' -> dirs = dirs' /\ fs = fs'.
Proof.
  intros Hd%rmap_ok Hd'%rmap_ok Hf Hf'. revert dirs' ds' Hd'.
  induction Hd as [|rel d dirs ds Hr Hd IH]; intros dirs' ds' [|rel' d' dirs'' ds'' Hr' Hd']; cbn.
  - done.
  - apply framed_path_ok in Hr' as (p & _ & _ & ->). intros ->. by destruct Hf as [|[r ?]].
  - apply framed_path_ok in Hr as (p & _ & _ & ->). intros <-. by destruct Hf' as [|[r ?]].
  - apply framed_path_ok in Hr as (p & Hp & Hs & ->), Hr' as (p' & Hp' & Hs' & ->).
    rewrite <- !app_assoc. intros [-> Heq]%path_record_inj; [|done..].
    rewrite (utf8_inj rel rel' p') by done. by destruct (IH _ _ Hd' Heq) as [-> ->].
Qed.

(** The bytes that are hashed determine the content. *)
Lemma inventory_bytes_inj v v' b :
  inventory_bytes (iv_directories v) (iv_files v) = Ok b ->
  inventory_bytes (iv_directories v') (iv_files v') = Ok b -> pack_content v = pack_content v'.
Proof.
  unfold inventory_bytes. intros (ds & Hd & (fs & Hf & <-%Ok_inj)%rbind_ok)%rbind_ok.
  intros (ds' & Hd' & (fs' & Hf' & Heq%Ok_inj)%rbind_ok)%rbind_ok. apply app_inv_head in Heq.
  pose proof (hash_files_head _ _ _ Hf) as H1. pose proof (hash_files_head _ _ _ Hf') as H2.
  destruct (directories_inj _ _ _ _ _ _ Hd' Hd H2 H1 Heq) as [Hdirs ->].
  unfold pack_content. rewrite Hdirs. f_equal. by eapply hash_files_inj.
Qed.

(** The digests of these byte strings tell them apart. *)
Definition collision_free (hashed : list bytes) : Prop :=
  forall a b, In a hashed -> In b hashed -> sha256_hex a = sha256_hex b -> a = b.

(** The bytes an inventory is hashed as. *)
Definition hashed_as (v : inventory) (b : bytes) : Prop := inventory_bytes (iv_directories v) (iv_files v) = Ok b.

Lemma digest_and_manifest_ok p d m :
  digest_and_manifest p = Ok (d, m) ->
  exists v, _pack_inventory p = Ok v /\ _digest_inventory v = Ok d /\ load_pack_manifest (po_manifest p) = Ok m /\
    existsb is_pack_test (map fst (iv_files v)) = true.
Proof.
  unfold digest_and_manifest. intros (v & Hv & Hd)%rbind_ok. destruct (existsb _ _) eqn:E; [|done].
  cbn [negb] in Hd. apply rbind_ok in Hd as (d' & Hd' & (m' & Hm & Heq)%rbind_ok).
  apply Ok_pair_inj in Heq as [-> ->]. by exists v.
Qed.

Lemma identity_eq_digest a b : identity_eq a b = true -> fst a = fst b.
Proof. unfold identity_eq. intros H1. by brefl. Qed.

(** A digest is the one of the hashed bytes, which determine the content. *)
Lemma digest_hashed v d : _digest_inventory v = Ok d -> exists b, hashed_as v b /\ sha256_hex b = d.
Proof. unfold _digest_inventory. intros (b & Hb & <-%Ok_inj)%rbind_ok. by exists b. Qed.

Lemma hashed_content v w b c :
  hashed_as v b -> hashed_as w c -> sha256_hex b = sha256_hex c -> collision_free [b; c] -> pack_content v = pack_content w.
Proof.
  intros Hb Hc Hd Hf. assert (b = c) as -> by (apply Hf; [by left|right; by left|done]). by eapply inventory_bytes_inj.
Qed.

(** An accepted pack is identified by the digest of its hashed inventory. *)
Lemma identity_hashed p i :
  digest_and_manifest p = Ok i -> exists v b, _pack_inventory p = Ok v /\ hashed_as v b /\ sha256_hex b = fst i.
Proof.
  destruct i as [d m]. intros (v & Hv & (b & Hb & Hd)%digest_hashed & _)%digest_and_manifest_ok. by exists v, b.
Qed.

(** ** The traversal *)

Section EntryInd.
Context (P : entry -> Prop)
  (Hstep : forall d s g r l, (forall c, match l with Some cs => In c cs -> P (snd c) | None => True end) ->
             P (Entry d s g r l)).

Fixpoint entry_induction (e : entry) : P e :=
  match e with
  | Entry d s g r l =>
      Hstep d s g r l
        (match l with
         | None => fun _ => I
         | Some cs =>
             (fix go (cs : list (str * entry)) : forall c, In c cs -> P (snd c) :=
                match cs with
                | [] => fun _ Hc => False_ind _ Hc
                | x :: cs' => fun c Hc =>
                    match Hc with
                    | or_introl Heq => eq_ind x (fun c => P (snd c)) (entry_induction (snd x)) c Heq
                    | or_intror Hin => go cs' c Hin
                    end
                end) cs
         end)
  end.
End EntryInd.

Lemma rfold_invariant {A S} (I : S -> Prop) (f : A -> S -> result pack_error S) l s s' :
  (forall x s s', In x l -> I s -> f x s = Ok s' -> I s') -> I s -> rfold f l s = Ok s' -> I s'.
Proof.
  revert s. induction l as [|x l IH]; intros s Hf Hs; cbn; [by intros <-%Ok_inj|].
  intros (s1 & H1 & H2)%rbind_ok. eapply IH; [|eapply Hf; [by left|done..]|done].
  intros y s2 s3 Hy. apply Hf. by right.
Qed.

(** What both additions preserve, the traversal preserves. *)
Lemma walk_invariant (I : inventory -> Prop) :
  (forall rel e v v', I v -> add_directory rel e v = Ok v' -> I v') ->
  (forall rel e v v', I v -> add_file rel e v = Ok v' -> I v') ->
  forall e rel v v', I v -> walk e rel v = Ok v' -> I v'.
Proof.
  intros Hdir Hfile e. induction e as [d s g r l IH] using entry_induction. intros rel v v' Hv.
  destruct l as [l|]; [|done]. cbn [walk].
  intros (v1 & H1 & (v2 & H2 & H3)%rbind_ok)%rbind_ok.
  apply (rfold_invariant I) in H1; [|naive_solver|done].
  apply (rfold_invariant I) in H2; [|naive_solver|done].
  apply (rfold_invariant I) in H3; [done| |done].
  intros c s1 s2 Hc Hs1. apply filter_In in Hc as [Hc _]. apply py_sort_In, in_map_iff in Hc as ([n e] & <- & Hc).
  intros Hw. by eapply (IH (n, e) Hc).
Qed.

(** ** Limits *)

Definition size_of (f : str * entry) : Z := match en_lstat (snd f) with Some (_, size) => size | None => 0 end.
Definition total_size (files : list (str * entry)) : Z := fold_right Z.add 0 (map size_of files).

Lemma total_size_app fs gs : total_size (fs ++ gs) = total_size fs + total_size gs.
Proof. unfold total_size. induction fs; cbn in *; lia. Qed.

Definition is_regular (f : str * entry) : Prop :=
  exists size, en_lstat (snd f) = Some (RegularFile, size) /\ size <= MAX_PACK_FILE_BYTES.

Definition within_limits (v : inventory) : Prop :=
  iv_count v <= MAX_PACK_ENTRIES /\ iv_total v <= MAX_PACK_BYTES /\
  iv_total v = total_size (iv_files v) /\ forall f, In f (iv_files v) -> is_regular f.

Lemma add_directory_limits rel e v v' : within_limits v -> add_directory rel e v = Ok v' -> within_limits v'.
Proof.
  intros (_ & Ht & Hs & Hf). unfold add_directory.
  intros (? & _ & (? & Hc%require_count_ok & <-%Ok_inj)%rbind_ok)%rbind_ok. done.
Qed.

Lemma add_file_limits rel e v v' : within_limits v -> add_file rel e v = Ok v' -> within_limits v'.
Proof.
  intros (_ & _ & Hs & Hf). unfold add_file, _inspect_pack_file.
  intros (size & Hi & (? & Ht%require_total_ok & (? & Hc%require_count_ok & <-%Ok_inj)%rbind_ok)%rbind_ok)%rbind_ok.
  destruct (en_lstat e) as [[[| | |] n]|] eqn:El; try done.
  apply rbind_ok in Hi as (? & Hn%require_size_ok & ->%Ok_inj).
  repeat split; cbn [iv_files iv_total] in *; [done..| |].
  - rewrite total_size_app, <- Hs. unfold total_size, size_of. cbn [map fold_right snd]. rewrite El. lia.
  - intros f [Hin|[<-|[]]]%in_app_iff; [by apply Hf|]. exists size. done.
Qed.

Lemma pack_inventory_limits p v : _pack_inventory p = Ok v -> within_limits v.
Proof.
  unfold _pack_inventory. intros (? & _ & Hw)%rbind_ok.
  eapply walk_invariant; [apply add_directory_limits|apply add_file_limits| |exact Hw].
  unfold within_limits, iv_count, MAX_PACK_ENTRIES, MAX_PACK_BYTES. cbn. repeat split; (lia || done).
Qed.

(** The bytes read while hashing are within the limits too. *)
Lemma hash_files_limits files total b :
  hash_files files total = Ok b -> total <= MAX_PACK_BYTES ->
  (forall f, In f files -> zlen (snd (file_content f)) <= MAX_PACK_FILE_BYTES) /\
  total + zlen (concat (map (fun f => snd (file_content f)) files)) <= MAX_PACK_BYTES.
Proof.
  revert total b. induction files as [|[rel e] files IH]; intros total b; cbn [hash_files map concat].
  - intros _ Ht. split; [done|]. unfold zlen. cbn. lia.
  - intros ([c t] & Hc & (rest & Hr & _)%rbind_ok)%rbind_ok _.
    apply hash_pack_file_ok in Hc as (p & _ & _ & _ & Hsize & -> & Ht & _).
    destruct (IH _ _ Hr Ht) as [H1 H2]. rewrite zlen_app. unfold file_content in *. cbn [fst snd] in *.
    split; [|lia]. intros f [<-|Hf]; [done|by apply H1].
Qed.

(** ** The order of listings *)

(** Trees that differ in the order in which directories list their names. *)
Inductive same_tree : entry -> entry -> Prop :=
| same_leaf d s g r : same_tree (Entry d s g r None) (Entry d s g r None)
| same_node d s g r l m l' :
    NoDup (map fst l) -> Permutation l m -> same_listing m l' ->
    same_tree (Entry d s g r (Some l)) (Entry d s g r (Some l'))
with same_listing : list (str * entry) -> list (str * entry) -> Prop :=
| same_nil : same_listing [] []
| same_cons n e e' l l' :
    same_tree e e' -> same_listing l l' -> same_listing ((n, e) :: l) ((n, e') :: l').

Lemma same_tree_observations e e' :
  same_tree e e' ->
  en_directory e = en_directory e' /\ en_lstat e = en_lstat e' /\ en_getsize e = en_getsize e' /\ en_reads e = en_reads e'.
Proof. by intros []. Qed.

(** Inventories and their results that agree up to such differences. *)
Definition same_file (a b : str * entry) : Prop := fst a = fst b /\ same_tree (snd a) (snd b).
Definition same_inventory (v w : inventory) : Prop :=
  iv_directories v = iv_directories w /\ iv_total v = iv_total w /\ Forall2 same_file (iv_files v) (iv_files w).

Definition same_result {A B} (R : A -> B -> Prop) (x : result pack_error A) (y : result pack_error B) : Prop :=
  match x, y with Ok a, Ok b => R a b | Err e, Err e' => e = e' | _, _ => False end.

Lemma same_bind {A B C D} (R : A -> B -> Prop) (T : C -> D -> Prop) x y f g :
  same_result R x y -> (forall a b, R a b -> same_result T (f a) (g b)) -> same_result T (rbind x f) (rbind y g).
Proof. destruct x, y; cbn; [eauto|done..|by intros ->]. Qed.

Lemma same_refl {A} (x : result pack_error A) : same_result eq x x.
Proof. by destruct x. Qed.

Lemma same_guard {C D} (T : C -> D -> Prop) (x : result pack_error unit) f g :
  same_result T (f tt) (g tt) -> same_result T (rbind x f) (rbind x g).
Proof. intros Hs. apply (same_bind eq); [apply same_refl|]. by intros [] [] _. Qed.

Lemma same_rfold {A B S T} (Q : A -> B -> Prop) (R : S -> T -> Prop) f g l l' s t :
  Forall2 Q l l' -> R s t -> (forall a b s t, Q a b -> R s t -> same_result R (f a s) (g b t)) ->
  same_result R (rfold f l s) (rfold g l' t).
Proof.
  intros Hl Hs Hf. revert s t Hs. induction Hl as [|a b l l' Hab Hl IH]; intros s t Hs; cbn; [done|].
  apply (same_bind R); [by apply Hf|]. intros s1 t1. apply IH.
Qed.

Lemma same_count v w : same_inventory v w -> iv_count v = iv_count w.
Proof. intros (H1 & _ & H2). unfold iv_count. by rewrite H1, (Forall2_length _ _ _ H2). Qed.

Lemma same_add_directory rel e e' v w :
  same_tree e e' -> same_inventory v w -> same_result same_inventory (add_directory rel e v) (add_directory rel e' w).
Proof.
  intros (_ & He & _)%same_tree_observations (H1 & H2 & H3). unfold add_directory, _inspect_pack_directory.
  rewrite <- He. apply same_guard. cbn zeta.
  assert (Hs : same_inventory {| iv_directories := iv_directories v ++ [rel]; iv_files := iv_files v; iv_total := iv_total v |}
                 {| iv_directories := iv_directories w ++ [rel]; iv_files := iv_files w; iv_total := iv_total w |})
    by (repeat split; cbn; [by rewrite H1|done..]).
  rewrite <- (same_count _ _ Hs). by apply same_guard.
Qed.

Lemma same_add_file rel e e' v w :
  same_tree e e' -> same_inventory v w -> same_result same_inventory (add_file rel e v) (add_file rel e' w).
Proof.
  intros Ht (H1 & H2 & H3). pose proof (same_tree_observations _ _ Ht) as (_ & He & _).
  unfold add_file, _inspect_pack_file. rewrite <- He, <- H2.
  apply (same_bind eq); [apply same_refl|]. intros size _ <-. apply same_guard. cbn zeta.
  assert (Hs : same_inventory
      {| iv_directories := iv_directories v; iv_files := iv_files v ++ [(rel, e)]; iv_total := iv_total v + size |}
      {| iv_directories := iv_directories w; iv_files := iv_files w ++ [(rel, e')]; iv_total := iv_total v + size |})
    by (repeat split; cbn; [done..|apply Forall2_app; [done|by repeat constructor]]).
  rewrite <- (same_count _ _ Hs). by apply same_guard.
Qed.

(** Sorting by key respects a relation that relates equal keys. *)
Lemma py_sort_Forall2 {A B} (R : str * A -> str * B -> Prop) l l' :
  (forall a b, R a b -> fst a = fst b) -> Forall2 R l l' -> Forall2 R (py_sort name_leb l) (py_sort name_leb l').
Proof.
  intros Hk. unfold py_sort. induction 1 as [|a b l l' Hab Hl IH]; cbn; [constructor|]. revert IH.
  generalize (foldr (insert_sorted name_leb) [] l) (foldr (insert_sorted name_leb) [] l'). clear Hl. intros k k'.
  induction 1 as [|c d m m' Hcd Hm IHm]; cbn; [by apply Forall2_cons|].
  unfold name_leb at 1 3. rewrite <- (Hk a b Hab), <- (Hk c d Hcd). case_if; by repeat apply Forall2_cons_2.
Qed.

Lemma py_sort_names {A} (l m : list (str * A)) :
  NoDup (map fst l) -> Permutation l m -> py_sort name_leb l = py_sort name_leb m.
Proof.
  intros Hn Hp. apply (Sorted_perm_eq_on name_leb).
  - intros x y z. apply str_leb_trans.
  - intros x y Hx Hy H1 H2. rewrite py_sort_In in Hx, Hy. apply (key_unique l); [done..|]. by apply str_leb_antisym.
  - apply py_sort_Sorted. intros x y. apply str_leb_total.
  - apply py_sort_Sorted. intros x y. apply str_leb_total.
  - by rewrite <- !py_sort_perm.
Qed.

Lemma Forall2_filter {A B} (R : A -> B -> Prop) f g l l' :
  (forall a b, R a b -> f a = g b) -> Forall2 R l l' -> Forall2 R (List.filter f l) (List.filter g l').
Proof.
  intros Hf. induction 1 as [|a b l l' Hab Hl IH]; cbn; [constructor|].
  rewrite <- (Hf a b Hab). destruct (f a); [by constructor|done].
Qed.

(** A name with the traversal of its entry. *)
Definition walked (c : str * entry) := (fst c, (snd c, walk (snd c))).

Definition same_walked (a b : str * (entry * (str -> inventory -> result pack_error inventory))) : Prop :=
  fst a = fst b /\ same_tree (fst (snd a)) (fst (snd b)) /\
  forall rel v w, same_inventory v w -> same_result same_inventory (snd (snd a) rel v) (snd (snd b) rel w).

Lemma same_walk e : forall e' rel v w,
  same_tree e e' -> same_inventory v w -> same_result same_inventory (walk e rel v) (walk e' rel w).
Proof.
  induction e as [d s g r l IH] using entry_induction. intros e' rel v w He Hv.
  inversion He as [|? ? ? ? l0 m l' Hn Hp Hm]; subst; [done|]. cbn [walk]. fold walked.
  assert (Hw : Forall2 same_walked (py_sort name_leb (map walked l0)) (py_sort name_leb (map walked l'))).
  { rewrite (py_sort_names (map walked l0) (map walked m));
      [|by rewrite map_map|by apply Permutation_map].
    apply py_sort_Forall2; [by intros a b []|].
    assert (Hin : forall c, In c m -> In c l0) by (intros c; apply Permutation_in; by symmetry).
    clear -IH Hm Hin. induction Hm as [|n e1 e2 m l' He Hm IHm]; cbn; constructor.
    - repeat split; [done|]. intros rel v w Hvw. apply (IH (n, e1)); [apply Hin; by left|done..].
    - apply IHm. intros c Hc. apply Hin. by right. }
  assert (Hd : forall a b, same_walked a b -> en_directory (fst (snd a)) = en_directory (fst (snd b)))
    by (intros a b (_ & Ht & _); by apply same_tree_observations in Ht as [? _]).
  apply (same_bind same_inventory).
  { eapply same_rfold; [by apply Forall2_filter with (1 := Hd)|done|].
    intros a b v1 w1 (Hk & Ht & _) Hvw. rewrite Hk. by apply same_add_directory. }
  intros v1 w1 Hv1. apply (same_bind same_inventory).
  { eapply same_rfold; [apply Forall2_filter with (2 := Hw)|done|]; [intros a b Hab; by rewrite (Hd a b)|].
    intros a b v2 w2 (Hk & Ht & _) Hvw. rewrite Hk. by apply same_add_file. }
  intros v2 w2 Hv2. eapply same_rfold; [by apply Forall2_filter with (1 := Hd)|done|].
  intros a b v3 w3 (Hk & _ & Hwalk) Hvw. rewrite Hk. by apply Hwalk.
Qed.

Lemma same_hash_files files files' total :
  Forall2 same_file files files' -> hash_files files total = hash_files files' total.
Proof.
  intros Hf. revert total. induction Hf as [|[rel e] [rel' e'] files files' [Hk Ht] Hf IH]; intros total; [done|].
  cbn [fst snd] in *. subst rel'. apply same_tree_observations in Ht as (_ & _ & Hs & Hr).
  cbn [hash_files]. unfold _hash_pack_file. rewrite <- Hs, <- Hr. apply rbind_ext. intros [b t]. by rewrite IH.
Qed.

(** The observations of two traversals that differ in the order of listings. *)
Definition same_pack (p q : pack_observation) : Prop :=
  po_root p = po_root q /\ same_tree (po_tree p) (po_tree q) /\ po_manifest p = po_manifest q.

(** Two successive verifications. *)
Lemma verify_pack_snapshot_ok p expected :
  verify_pack_snapshot p expected = Ok tt ->
  exists identity, digest_and_manifest p = Ok identity /\ identity_eq identity expected = true.
Proof. unfold verify_pack_snapshot. intros (i & Hi & He)%rbind_ok. exists i. by destruct (identity_eq _ _). Qed.

Lemma snapshot_pack_ok source copied destination identity :
  snapshot_pack source copied destination = Ok identity ->
  exists source_identity, digest_and_manifest source = Ok source_identity /\ copied = true /\
    digest_and_manifest destination = Ok identity /\ identity_eq source_identity identity = true.
Proof.
  unfold snapshot_pack. intros (i & Hi & Hs)%rbind_ok. destruct copied; [|done]. cbn [negb] in Hs.
  apply rbind_ok in Hs as (j & Hj & Hs). exists i. destruct (identity_eq i j) eqn:E; [|done].
  apply Ok_inj in Hs as ->. done.
Qed.

(** C25: The snapshot a judge executes is the pack that was supplied and stays so: when
    [snapshot_pack] succeeds and [verify_pack_snapshot] later accepts its identity, the
    inventories of the source, of the copy and of the tree found after the run are hashed
    as three byte strings with one digest, that of the identity; and when SHA-256 tells
    these three byte strings apart, the source, the copy and the later tree have the
    same directories and the same files with the same bytes. *)
Theorem snapshot_binds_content source copied destination later identity :
  snapshot_pack source copied destination = Ok identity ->
  verify_pack_snapshot later identity = Ok tt ->
  exists vs vd vl bs bd bl, _pack_inventory source = Ok vs /\ _pack_inventory destination = Ok vd /\
    _pack_inventory later = Ok vl /\ hashed_as vs bs /\ hashed_as vd bd /\ hashed_as vl bl /\
    sha256_hex bs = fst identity /\ sha256_hex bd = fst identity /\ sha256_hex bl = fst identity /\
    (collision_free [bs; bd; bl] -> pack_content vs = pack_content vd /\ pack_content vd = pack_content vl).
Proof.
  intros (i & (vs & bs & Hvs & Hbs & Hs)%identity_hashed & _ & (vd & bd & Hvd & Hbd & Hd)%identity_hashed
          & Hsd%identity_eq_digest)%snapshot_pack_ok.
  intros (j & (vl & bl & Hvl & Hbl & Hl)%identity_hashed & Hld%identity_eq_digest)%verify_pack_snapshot_ok.
  exists vs, vd, vl, bs, bd, bl. split_and!; try done; [congruence..|]. intros Hf.
  split; eapply hashed_content; try done; try congruence; intros x y Hx Hy; apply Hf; cbn in *; tauto.
Qed.

(** An accepted pack is within the intake limits, which are checked both on what the
    traversal reports and on the bytes that are hashed: at most 10000 entries, only
    regular files of at most 8 MiB, at most 32 MiB in total. *)
Theorem accepted_pack_bounded p d m :
  digest_and_manifest p = Ok (d, m) ->
  exists v, _pack_inventory p = Ok v /\
    Z.of_nat (length (iv_directories v) + length (iv_files v)) <= 10000 /\
    (forall f, In f (iv_files v) ->
       exists size, en_lstat (snd f) = Some (RegularFile, size) /\ size <= 8388608 /\
         zlen (reads_content (en_reads (snd f))) <= 8388608) /\
    total_size (iv_files v) <= 33554432 /\
    zlen (concat (map (fun f => snd (file_content f)) (iv_files v))) <= 33554432.
Proof.
  intros (v & Hv & Hd & _)%digest_and_manifest_ok. exists v. split; [done|].
  destruct (pack_inventory_limits _ _ Hv) as (Hc & Ht & Hs & Hf).
  unfold _digest_inventory, inventory_bytes in Hd.
  apply rbind_ok in Hd as (? & (? & _ & (fs & Hfs & _)%rbind_ok)%rbind_ok & _).
  destruct (hash_files_limits _ _ _ Hfs) as [H1 H2]; [done|].
  split; [exact Hc|]. split_and!; [|unfold MAX_PACK_BYTES in *; lia..].
  intros f Hin. destruct (Hf f Hin) as (size & Hl & Hsize). exists size. split_and!; [done..|]. by apply H1.
Qed.

(** The identity of a pack does not depend on the order in which the file system
    lists the names of its directories, errors included. *)
Theorem pack_identity_listing_order p q : same_pack p q -> digest_and_manifest p = digest_and_manifest q.
Proof.
  intros (Hr & Ht & Hm). unfold digest_and_manifest, _pack_inventory, _require_pack_root. rewrite Hr, Hm.
  destruct (match po_root q with Some Directory => _ | _ => _ end); [|done]. cbn [rbind].
  set (v := {| iv_directories := []; iv_files := []; iv_total := 0 |}).
  assert (Hv : same_inventory v v) by (repeat split; constructor).
  pose proof (same_walk _ _ [] _ _ Ht Hv) as Hw. destruct (walk (po_tree p) [] v) as [va|], (walk (po_tree q) [] v) as [vb|];
    cbn in Hw; [|done..|by rewrite Hw].
  destruct Hw as (H1 & H2 & H3). cbn [rbind].
  assert (Hk : map fst (iv_files va) = map fst (iv_files vb)).
  { clear -H3. induction H3 as [|x y l l' [Hxy _] _ IH]; cbn; [done|]. by rewrite Hxy, IH. }
  rewrite Hk. unfold _digest_inventory, inventory_bytes. by rewrite H1, (same_hash_files _ _ _ H3).
Qed.

End Sound.

(** ** A pack with a manifest, a test and a package *)

Section Sample.
#[local] Existing Instance ascii_unicode.

Definition sample_file (content : bytes) : entry :=
  Entry false (Some (RegularFile, zlen content)) (Some (zlen content)) [Some content; Some []] None.
Definition sample_manifest : bytes := ascii_bytes (quote_ticks (u "{'id':'core','version':'1'}")).
Definition sample_package : entry :=
  Entry true (Some (Directory, 0)) None [] (Some [(u "test_b.py", sample_file [98]); (u "a.txt", sample_file [97])]).

(** The pack, as two file systems may list it. *)
Definition sample_tree (swap : bool) : entry :=
  let names := [(u "lib", sample_package); (u "pack.json", sample_file sample_manifest)] in
  Entry true (Some (Directory, 0)) None [] (Some (if swap then rev names else names)).
Definition sample_pack (swap : bool) : pack_observation :=
  {| po_root := Some Directory; po_tree := sample_tree swap;
     po_manifest := {| mo_exists := true; mo_link := false; mo_file := true; mo_size := Some (zlen sample_manifest);
                       mo_data := Some sample_manifest |} |}.
Definition sample_identity : str * option dict :=
  match digest_and_manifest (sample_pack false) with Ok i => i | Err _ => ([], None) end.

Example sample_pack_files : pack_test_files (sample_pack true) = Ok (us ["lib/test_b.py"]).
Proof. vm_compute. reflexivity. Qed.

Lemma sample_identity_ok : digest_and_manifest (sample_pack false) = Ok sample_identity.
Proof. vm_compute. reflexivity. Qed.

(** One pack, listed in two orders, is hashed as the same bytes. *)
Lemma snapshot_binds_content_witness :
  exists vs vd vl, _pack_inventory (sample_pack false) = Ok vs /\ _pack_inventory (sample_pack true) = Ok vd /\
    _pack_inventory (sample_pack false) = Ok vl /\ pack_content vs = pack_content vd /\ pack_content vd = pack_content vl.
Proof.
  assert (Hs : snapshot_pack (sample_pack false) true (sample_pack true) = Ok sample_identity) by (vm_compute; reflexivity).
  assert (Hv : verify_pack_snapshot (sample_pack false) sample_identity = Ok tt) by (vm_compute; reflexivity).
  destruct (snapshot_binds_content _ _ _ _ _ Hs Hv)
    as (vs & vd & vl & bs & bd & bl & H1 & H2 & H3 & Bs & Bd & Bl & _ & _ & _ & Hc).
  exists vs, vd, vl. split; [exact H1|]. split; [exact H2|]. split; [exact H3|]. apply Hc.
  vm_compute in H1, H2, H3. apply Ok_inj in H1 as <-. apply Ok_inj in H2 as <-. apply Ok_inj in H3 as <-.
  vm_compute in Bs, Bd, Bl. apply Ok_inj in Bs as <-. apply Ok_inj in Bd as <-. apply Ok_inj in Bl as <-.
  intros a b [<-|[<-|[<-|[]]]] [<-|[<-|[<-|[]]]] _; reflexivity.
Defined.

Lemma accepted_pack_bounded_witness :
  exists v, _pack_inventory (sample_pack false) = Ok v /\ total_size (iv_files v) <= 33554432.
Proof.
  assert (Hd : digest_and_manifest (sample_pack false) = Ok (fst sample_identity, snd sample_identity))
    by (vm_compute; reflexivity).
  destruct (accepted_pack_bounded _ _ _ Hd) as (v & Hv & _ & _ & Ht & _). exists v. split; [exact Hv|exact Ht].
Defined.

Lemma same_file_tree content : same_tree (sample_file content) (sample_file content).
Proof. constructor. Qed.

Lemma same_sample_package : same_tree sample_package sample_package.
Proof.
  eapply same_node; [|reflexivity|repeat constructor]. vm_compute.
  apply NoDup_cons. split; [rewrite list_elem_of_singleton; discriminate|apply NoDup_singleton].
Qed.

Lemma pack_identity_listing_order_witness :
  digest_and_manifest (sample_pack true) = Ok sample_identity.
Proof.
  transitivity (digest_and_manifest (sample_pack false)); [|exact sample_identity_ok]. symmetry.
  apply pack_identity_listing_order. split; [reflexivity|]. split; [|reflexivity].
  eapply same_node; [|apply Permutation_rev|].
  - vm_compute. apply NoDup_cons. split; [rewrite list_elem_of_singleton; discriminate|apply NoDup_singleton].
  - cbn [rev app]. constructor; [apply same_file_tree|]. constructor; [apply same_sample_package|constructor].
Defined.
End Sample.
