(* ===== verification/GitObjects.v ===== *)
(** Raw Git objects (the reader of finalizer_derivation.py): listings of trees, blobs
    and commits are parsed from the bytes Git prints, with the limits of the
    finalizer.  Git itself is an argument: a function from the arguments of a query
    and the limit on its output to the output, the same at every call because the
    objects it names are immutable. *)
From S2P Require Export PackManifest Config HarnessPolicy Edits.
Local Open Scope Z_scope.

Definition MAX_GIT_TREE_BYTES : Z := 16 * 1024 * 1024.
Definition MAX_GIT_TREE_ENTRIES : Z := 100000.
Definition MAX_POLICY_BYTES : Z := 1 * 1024 * 1024.
Definition MAX_CANDIDATE_FILE_BYTES : Z := 1 * 1024 * 1024.
Definition MAX_BINDINGS_BYTES : Z := 512 * 1024.
Definition MAX_AGENT_CHANGE_CANDIDATE_BYTES : Z := 64 * 1024 * 1024.
Definition MAX_AGENT_CHANGE_PATHS : Z := 10000.

(** The messages of [FinalizerDerivationError], and the exceptions of another class
    that a derivation can end with ([UndecodableOutput], [PathOrder],
    [UnencodablePath], [UnencodableCandidate], [PolicyHarness], [PolicyDigest]). *)
Inductive derivation_error :=
| GitFailed (message : str)
| UndecodableOutput
| NotAGitDigest (label : string)
| InvalidTreePath
| UnsafeTreePath (path : str)
| DuplicateTreePath (path : str)
| TooManyTreeEntries
| InvalidBlobSize
| BlobTooLarge
| BlobChanged
| UnsafeRequestedPath
| NotARegularBlob
| NotARefName
| NotASingleParent
| TreeMismatch
| NoBasePolicy
| PolicyTooLarge
| PolicyNotText
| PolicyInvalid (e : ConfigError)
| MemLimitRequired
| ImageRequired
| PolicyHarness (e : HarnessInputPolicyError)
| PolicyDigest
| HarnessInputMissing (path : str)
| HarnessInputChanged (path : str)
| PackPinMissing
| PackPinMismatch
| PackPinUnused
| UnsafePackPath
| PackAbsent
| UnsafePackMember
| PackMemberNotRegular
| RawPackTooManyEntries
| RawPackTooLarge
| RawPackNoTests
| UnencodablePath
| PackManifestTooLarge
| PackManifestInvalid
| PackManifestProblems (problems : list str)
| PathOrder (e : CandidateIdentityError)
| TooManyChangedPaths
| TooManyChangedBytes
| Unrepresentable (problems : list (str * block_problem))
| UnencodableCandidate
| CandidateDiverged
| IdentityError (e : CandidateIdentityError)
| IdentityTooLarge
| InvalidBindings (what : string)
with block_problem :=
| ModeChanged
| TypeChanged
| NotRegular
| NotText
| Refused (e : derivation_error).

Definition derived (A : Type) : Type := result derivation_error A.

(** ** Bytes *)

(** [data.split(sep)] for one byte *)
Fixpoint split_byte (sep : Z) (data : bytes) : list bytes :=
  match data with
  | [] => [[]]
  | x :: data' =>
      if x =? sep then [] :: split_byte sep data'
      else match split_byte sep data' with w :: ws => (x :: w) :: ws | [] => [[x]] end
  end.

(** The parts before and after the first separator. *)
Fixpoint cut {A} (is_sep : A -> bool) (l : list A) : option (list A * list A) :=
  match l with
  | [] => None
  | x :: l' => if is_sep x then Some ([], l')
               else match cut is_sep l' with Some (a, b) => Some (x :: a, b) | None => None end
  end.

Definition ascii_decode (data : bytes) : option str :=
  if forallb (fun x => (0 <=? x) && (x <? 128)) data then Some (map Z.to_N data) else None.

(** ** Digests *)

Definition is_hex_of (n : nat) (s : str) : bool := Nat.eqb (length s) n && forallb is_hex_lower s.

(** [_SHA256] and [_GIT_SHA] *)
Definition sha256_text (s : str) : bool := is_hex_of 64 s.
Definition git_sha_text (s : str) : bool := is_hex_of 40 s || is_hex_of 64 s.

Definition _valid_git_sha (value : str) (label : string) : derived str :=
  if git_sha_text value then Ok value else Err (NotAGitDigest label).

(** ** The reader *)

(** One raw Git tree entry. *)
Record _GitEntry := { ge_mode : str; ge_type : str; ge_id : str }.

Definition regular (e : _GitEntry) : bool :=
  str_in (ge_mode e) (us ["100644"; "100755"]) && (ge_type e =s? u "blob").

#[export] Instance git_entry_eq_decision : EqDecision _GitEntry.
Proof. solve_decision. Defined.

(** The query Git is given, after its global options, and the limit on its output. *)
Definition git_reader : Type := list str -> Z -> derived bytes.

(** A tree: its entries in the order of the listing, with distinct paths. *)
Definition tree_entries : Type := list (str * _GitEntry).

Fixpoint entry_at (path : str) (entries : tree_entries) : option _GitEntry :=
  match entries with
  | [] => None
  | (p, e) :: entries' => if p =s? path then Some e else entry_at path entries'
  end.

Section Reader.
Context `{UnicodeDB} (command : git_reader).

Definition commit_tree (sha : str) : derived str :=
  let* _ := _valid_git_sha sha "commit" in
  let* output := command (us ["rev-parse"; "--verify"] ++ [sha ++ u "^{tree}"]) 256 in
  match ascii_decode output with
  | None => Err UndecodableOutput
  | Some text => _valid_git_sha (strip text) "derived tree"
  end.

(** [mode SP type SP object TAB path] *)
Definition tree_row (row : bytes) : option (str * _GitEntry) :=
  match cut (Z.eqb 9) row with
  | None => None
  | Some (metadata, raw_path) =>
      match ascii_decode metadata with
      | None => None
      | Some metadata =>
          match cut (N.eqb 32) metadata with
          | None => None
          | Some (mode, rest) =>
              match cut (N.eqb 32) rest, utf8_decode raw_path with
              | Some (object_type, object_id), Some path =>
                  Some (path, {| ge_mode := mode; ge_type := object_type; ge_id := object_id |})
              | _, _ => None
              end
          end
      end
  end.

Fixpoint tree_rows (rows : list bytes) (entries : tree_entries) : derived tree_entries :=
  match rows with
  | [] => Ok entries
  | [] :: rows' => tree_rows rows' entries
  | row :: rows' =>
      match tree_row row with
      | None => Err InvalidTreePath
      | Some (path, e) =>
          if negb (is_safe_relpath path) then Err (UnsafeTreePath path)
          else if str_in path (map fst entries) then Err (DuplicateTreePath path)
          else if MAX_GIT_TREE_ENTRIES <=? Z.of_nat (length entries) then Err TooManyTreeEntries
          else tree_rows rows' (entries ++ [(path, e)])
      end
  end.

Definition tree (sha : str) : derived tree_entries :=
  let* _ := _valid_git_sha sha "treeish" in
  let* raw := command (us ["ls-tree"; "-rz"; "--full-tree"] ++ [sha]) MAX_GIT_TREE_BYTES in
  tree_rows (split_byte 0 raw) [].

Definition blob_size (size_raw : bytes) : option Z :=
  match ascii_decode size_raw with Some text => int_of_text (strip text) | None => None end.

Definition blob (object_id : str) (maximum : Z) : derived bytes :=
  let* _ := _valid_git_sha object_id "object" in
  let* size_raw := command (us ["cat-file"; "-s"] ++ [object_id]) 128 in
  match blob_size size_raw with
  | None => Err InvalidBlobSize
  | Some size =>
      if (size <? 0) || (maximum <? size) then Err BlobTooLarge
      else
        let* data := command (us ["cat-file"; "blob"] ++ [object_id]) maximum in
        if Z.of_nat (length data) =? size then Ok data else Err BlobChanged
  end.

(** ** Queries of other components *)

(** [paths] as supplied: [None] for a value that is not a string. *)
Definition resolve_raw_git_regular_blobs (treeish : str) (paths : list (option str)) : derived (list (str * str)) :=
  if negb (forallb (fun p => match p with Some path => is_safe_relpath path | None => false end) paths)
  then Err UnsafeRequestedPath
  else
    let* entries := tree treeish in
    let fix collect (requested : list str) (blobs : list (str * str)) : derived (list (str * str)) :=
      match requested with
      | [] => Ok blobs
      | path :: requested' =>
          match entry_at path entries with
          | Some e =>
              if regular e then
                let* object := _valid_git_sha (ge_id e) "regular blob" in
                collect requested' (if str_in path (map fst blobs) then blobs else blobs ++ [(path, object)])
              else collect requested' blobs
          | None => collect requested' blobs
          end
      end in
    collect (flat_map (fun p => match p with Some path => [path] | None => [] end) paths) [].

Definition resolve_raw_git_regular_blob (treeish : str) (path : option str) : derived str :=
  match path with
  | Some path =>
      if negb (is_safe_relpath path) then Err UnsafeRequestedPath
      else
        let* entries := tree treeish in
        match entry_at path entries with
        | Some e => if regular e then _valid_git_sha (ge_id e) "regular blob" else Err NotARegularBlob
        | None => Err NotARegularBlob
        end
  | None => Err UnsafeRequestedPath
  end.

Definition derive_raw_ref_parent_pair (ref : str) : derived (str * str * str * str) :=
  if negb (starts_with (u "refs/") ref) || char_in 0 ref then Err NotARefName
  else
    let* raw_commit := command (us ["rev-parse"; "--verify"] ++ [ref ++ u "^{commit}"]) 256 in
    match ascii_decode raw_commit with
    | None => Err UndecodableOutput
    | Some text =>
        let* commit := _valid_git_sha (strip text) "derived ref" in
        let* raw_parents := command (us ["rev-list"; "--parents"; "-n"; "1"] ++ [commit]) 512 in
        match ascii_decode raw_parents with
        | None => Err UndecodableOutput
        | Some text =>
            match py_split (strip text) with
            | [first; parent] =>
                if negb (first =s? commit) then Err NotASingleParent
                else
                  let* parent := _valid_git_sha parent "derived parent commit" in
                  let* commit_tree_sha := commit_tree commit in
                  let* parent_tree_sha := commit_tree parent in
                  Ok (commit, commit_tree_sha, parent, parent_tree_sha)
            | _ => Err NotASingleParent
            end
        end
    end.
End Reader.

(** ** Listings *)

Section Listing.
Context `{UnicodeDB}.

Lemma entry_at_In path entries e : entry_at path entries = Some e -> In (path, e) entries.
Proof.
  induction entries as [|[p x] entries IH]; cbn; [done|]. case_if; brefl; [intros [= ->]; subst; by left|by right; auto].
Qed.

Lemma entry_at_None path entries : entry_at path entries = None <-> ~ In path (map fst entries).
Proof.
  induction entries as [|[p x] entries IH]; cbn; [naive_solver|]. case_if; brefl; [naive_solver|].
  rewrite IH. naive_solver.
Qed.

Lemma entry_at_unique path entries e :
  NoDup (map fst entries) -> In (path, e) entries -> entry_at path entries = Some e.
Proof.
  intros Hd Hin. destruct (entry_at path entries) as [x|] eqn:E.
  - f_equal. apply entry_at_In in E. apply (f_equal snd (key_unique entries (path, x) (path, e) Hd E Hin eq_refl)).
  - apply entry_at_None in E. destruct E. apply in_map_iff. by exists (path, e).
Qed.

(** A listing that is accepted: distinct portable paths, at most 100000 of them. *)
Record wf_tree (entries : tree_entries) : Prop := {
  wt_distinct : NoDup (map fst entries);
  wt_safe : forall path, In path (map fst entries) -> is_safe_relpath path = true;
  wt_bounded : Z.of_nat (length entries) <= MAX_GIT_TREE_ENTRIES }.

Lemma tree_rows_wf rows entries entries' :
  wf_tree entries -> tree_rows rows entries = Ok entries' -> wf_tree entries'.
Proof.
  revert entries. induction rows as [|[|b row] rows IH]; intros entries Hwf; cbn [tree_rows]; [by intros <-%Ok_inj|by apply IH|].
  destruct (tree_row (b :: row)) as [[path e]|]; [|done].
  destruct (is_safe_relpath path) eqn:Es; cbn [negb]; [|done].
  destruct (str_in path (map fst entries)) eqn:Ed; [done|].
  destruct (_ <=? _) eqn:El; [done|]. brefl. apply IH. destruct Hwf as [Hd Hs Hb]. split.
  - rewrite map_app. apply NoDup_app. split; [done|]. split; [|apply NoDup_singleton].
    intros x Hx ->%list_elem_of_singleton. apply Ed. by rewrite <- list_elem_of_In.
  - intros p. rewrite map_app, in_app_iff. intros [Hp|[<-|[]]]; [by apply Hs|done].
  - rewrite length_app. cbn [length]. lia.
Qed.

Lemma tree_wf (command : git_reader) sha entries : tree command sha = Ok entries -> wf_tree entries.
Proof.
  unfold tree. intros (? & _ & (raw & _ & Ht)%rbind_ok)%rbind_ok. eapply tree_rows_wf; [|exact Ht].
  split; cbn; [constructor|done|]. unfold MAX_GIT_TREE_ENTRIES. lia.
Qed.

Lemma blob_bounded (command : git_reader) object maximum data :
  blob command object maximum = Ok data -> zlen data <= maximum.
Proof.
  unfold blob. intros (? & _ & (raw & _ & Hb)%rbind_ok)%rbind_ok. destruct (blob_size raw) as [size|]; [|done].
  destruct (_ || _) eqn:E; [done|]. apply rbind_ok in Hb as (d & _ & Hd). destruct (_ =? _) eqn:E2; [|done].
  apply Ok_inj in Hd as ->. unfold zlen. brefl. lia.
Qed.
End Listing.
