(* ===== verification/EvidencePrimitives.v ===== *)
(** Primitives of the evidence layer (evidence_bundle.py): canonical JSON, stable
    reads of regular files, and the context that binds a record to a revision and a
    workflow run. *)
From S2P Require Export GitObjects.
Local Open Scope Z_scope.

Definition MAX_MANIFEST_BYTES : Z := 1 * 1024 * 1024.
Definition MAX_VERDICT_BYTES : Z := 8 * 1024 * 1024.
Definition MAX_MATERIAL_BYTES : Z := 32 * 1024 * 1024.
Definition MAX_TOTAL_BYTES : Z := 64 * 1024 * 1024.
Definition MAX_ARCHIVE_BYTES : Z := MAX_TOTAL_BYTES + MAX_MANIFEST_BYTES + 1 * 1024 * 1024.
Definition MAX_MATERIALS : Z := 32.
Definition MAX_ARCHIVE_MEMBERS : Z := MAX_MATERIALS + 3.
Definition MAX_CENTRAL_DIRECTORY_BYTES : Z := 64 * 1024.

Definition _CONTEXT_KEYS : list str := us [
  "repository"; "repository_id"; "run_id"; "run_attempt"; "base_sha"; "head_sha"; "base_tree_sha";
  "head_tree_sha"; "candidate_sha256"; "policy_sha256"; "verifier_pack_sha256"; "guard_artifact_sha256"].

(** The messages of [EvidenceBundleError], by what they name; [FileSystem] is an
    [OSError] that is not caught. *)
Inductive bundle_error :=
| NotCanonical
| NotJsonObject (what : string)
| UnreadableFile (what : string)
| NotRegularFile (what : string)
| FileTooBig (what : string)
| FileMoved (what : string)
| FileSystem
| WrongKeys (what : string)
| BadField (what : string)
| NotBound (what : string)
| BadArchive (what : string)
| BadManifest (what : string)
| BadSignature (what : string)
| BadMaterial (what : string)
| InvalidRecord
| OutputRefused (what : string).

Definition evidence (A : Type) : Type := result bundle_error A.

(** ** Canonical JSON *)

(** [json.dumps(value, sort_keys=True, separators=(",", ":"), ensure_ascii=True,
    allow_nan=False) + "\n"], which must be read back by the strict reader. *)
Definition _canonical_json (v : dict) : evidence bytes :=
  match json_text [] false (VDict v) with
  | None => Err NotCanonical
  | Some text =>
      match strict_json_loads (text ++ [ch_nl]) with
      | Ok _ => Ok (ascii_bytes (text ++ [ch_nl]))
      | Err _ => Err NotCanonical
      end
  end.

Definition _load_json_object (data : bytes) (label : string) : evidence dict :=
  match utf8_decode data with
  | None => Err (NotJsonObject label)
  | Some text =>
      match strict_json_loads text with
      | Ok (VDict d) => Ok d
      | _ => Err (NotJsonObject label)
      end
  end.

(** ** Stable reads *)

Record file_stat := {
  fs_regular : bool;
  fs_link_like : bool;
  fs_identity : Z * Z;
  fs_size : Z;
  fs_times : Z * Z }.

(** What the calls of one read observe: [lstat], [fstat] after the descriptor is
    open ([None] when it cannot be opened), the bytes that [read] can deliver and
    [fstat] after them ([None] for an [OSError]). *)
Record file_view := {
  fv_before : option file_stat;
  fv_opened : option file_stat;
  fv_content : option bytes;
  fv_after : option file_stat }.

Definition same_descriptor (a b : file_stat) : bool :=
  bool_decide (fs_identity a = fs_identity b /\ fs_size a = fs_size b /\ fs_times a = fs_times b).

Definition _read_regular_file (f : file_view) (limit : Z) (label : string) : evidence bytes :=
  match fv_before f with
  | None => Err (UnreadableFile label)
  | Some before =>
      if fs_link_like before || negb (fs_regular before) then Err (NotRegularFile label)
      else if limit <? fs_size before then Err (FileTooBig label)
      else
        match fv_opened f with
        | None => Err (UnreadableFile label)
        | Some opened =>
            if negb (fs_regular opened) || fs_link_like opened then Err (NotRegularFile label)
            else if negb (bool_decide (fs_identity opened = fs_identity before)) then Err (FileMoved label)
            else if limit <? fs_size opened then Err (FileTooBig label)
            else
              match fv_content f, fv_after f with
              | Some content, Some after =>
                  let data := first_bytes (limit + 1) content in
                  if negb (same_descriptor after opened) then Err (FileMoved label)
                  else if limit <? Z.of_nat (length data) then Err (FileTooBig label)
                  else if negb (Z.of_nat (length data) =? fs_size opened) then Err (FileMoved label)
                  else Ok data
              | _, _ => Err FileSystem
              end
        end
  end.

(** ** Checks of values *)

Definition _require_exact_keys (v : dict) (expected : list str) (label : string) : evidence unit :=
  if keys_eq v expected then Ok tt else Err (WrongKeys label).

(** [_required_bounded_string]; the finalizer modules repeat the check with errors of
    their own. *)
Definition bounded_string (v : value) (maximum : Z) : bool :=
  match v with
  | VStr s => negb (is_empty s) && (Z.of_nat (length s) <=? maximum)
              && match utf8 s with Some _ => true | None => false end
              && negb (existsb (fun c => (c <? 32)%N) s)
  | _ => false
  end.

Definition _required_bounded_string (v : value) (maximum : Z) (label : string) : evidence unit :=
  if bounded_string v maximum then Ok tt else Err (BadField label).

(** [type(v) is int and lo <= v <= hi] *)
Definition int_between (v : value) (lo hi : Z) : bool :=
  match v with VInt n => (lo <=? n) && (n <=? hi) | _ => false end.

Definition v_sha256 (v : value) : bool := match v with VStr s => sha256_text s | _ => false end.
Definition v_git_sha (v : value) : bool := match v with VStr s => git_sha_text s | _ => false end.

(** The first of a list of named checks that does not hold. *)
Fixpoint require_all {E} (checks : list (string * bool)) (error : string -> E) : result E unit :=
  match checks with
  | [] => Ok tt
  | (label, holds) :: checks' => if holds : bool then require_all checks' error else Err (error label)
  end.

Definition REVISION_FIELDS : list string := ["base_sha"; "head_sha"; "base_tree_sha"; "head_tree_sha"].
Definition BOUND_DIGESTS : list string := ["candidate_sha256"; "policy_sha256"; "verifier_pack_sha256"].

Definition context_checks (context : dict) : list (string * bool) :=
  [("repository", bounded_string (dget context (u "repository")) 512);
   ("repository_id", bounded_string (dget context (u "repository_id")) 256);
   ("run_id", bounded_string (dget context (u "run_id")) 256);
   ("run_attempt", int_between (dget context (u "run_attempt")) 1 2147483647)]
  ++ map (fun field => (field, is_none (dget context (u field)) || v_git_sha (dget context (u field)))) REVISION_FIELDS
  ++ map (fun field => (field, v_sha256 (dget context (u field))))
       ["candidate_sha256"; "policy_sha256"; "guard_artifact_sha256"]
  ++ [("verifier_pack_sha256", is_none (dget context (u "verifier_pack_sha256"))
                               || v_sha256 (dget context (u "verifier_pack_sha256")))].

Definition binding_checks (context attestation : dict) : list (string * bool) :=
  map (fun field => (field, py_eq (dget context (u field)) (dget attestation (u field)))) BOUND_DIGESTS
  ++ map (fun field => (field, is_none (dget attestation (u field))
                               || py_eq (dget context (u field)) (dget attestation (u field)))) REVISION_FIELDS.

Definition validate_evidence_context (context : dict) (verdict : option dict) : evidence dict :=
  let* _ := _require_exact_keys context _CONTEXT_KEYS "bundle context" in
  let* _ := require_all (context_checks context) BadField in
  match verdict with
  | None => Ok context
  | Some verdict =>
      match dget verdict (u "attestation") with
      | VDict attestation =>
          let* _ := require_all (binding_checks context attestation) NotBound in
          Ok context
      | _ => Err (BadField "attestation")
      end
  end.

(** ** What acceptance means *)

Lemma require_all_ok {E} checks (error : string -> E) x :
  require_all checks error = Ok x <-> forall c, In c checks -> snd c = true.
Proof.
  destruct x. induction checks as [|[label holds] checks IH]; cbn; [naive_solver|].
  destruct holds; [rewrite IH; naive_solver|]. split; [done|]. intros Hc. by specialize (Hc _ (or_introl eq_refl)).
Qed.

Lemma require_keys_ok v expected label x :
  _require_exact_keys v expected label = Ok x <-> keys_eq v expected = true.
Proof. unfold _require_exact_keys. destruct x. by destruct (keys_eq v expected). Qed.

(** A context that is accepted is returned; with a record, the two agree. *)
Lemma evidence_context_ok context verdict context' :
  validate_evidence_context context verdict = Ok context' ->
  context' = context /\ keys_eq context _CONTEXT_KEYS = true /\
  (forall c, In c (context_checks context) -> snd c = true) /\
  match verdict with
  | None => True
  | Some verdict => exists attestation, dget verdict (u "attestation") = VDict attestation /\
      forall c, In c (binding_checks context attestation) -> snd c = true
  end.
Proof.
  unfold validate_evidence_context.
  intros (? & Hk%require_keys_ok & (? & Hc & Hv)%rbind_ok)%rbind_ok. rewrite require_all_ok in Hc.
  destruct verdict as [verdict|]; [|by apply Ok_inj in Hv as <-].
  destruct (dget verdict (u "attestation")) as [| | | | | |attestation] eqn:Ea; try done.
  apply rbind_ok in Hv as (? & Hb & <-%Ok_inj). rewrite require_all_ok in Hb. split_and!; try done. by exists attestation.
Qed.

(** A stable read delivers a regular file that did not change, within the limit. *)
Lemma read_regular_file_ok f limit label data :
  _read_regular_file f limit label = Ok data -> zlen data <= limit.
Proof.
  unfold _read_regular_file. destruct (fv_before f) as [b|]; [|done]. repeat (case_if; [done|]).
  destruct (fv_opened f) as [o|]; [|done]. repeat (case_if; [done|]).
  destruct (fv_content f); [|done]. destruct (fv_after f); [|done]. cbn zeta. repeat (case_if; [done|]).
  intros <-%Ok_inj. unfold zlen. brefl. lia.
Qed.
