(* ===== verification/Materialize.v ===== *)
(** Admission and materialization of a repository candidate
    (verifiers/repo_candidate.py, verifiers/repo_materialization.py): which edits
    are admitted, the order in which FILE and PATCH edits are written into the
    copy, the restoration of package manifests, and the deletions.

    The copy is reached through the class [Workspace] of the injected operations;
    its laws are those of contained reads, writes and deletions of a tree. *)
From S2P Require Export Candidate Edits HarnessPolicy.

(** ** The workspace interface *)

Inductive read_outcome :=
| Found (text : str)
| Missing
| Unreadable (why : str).

(** [read_text], [write_text] and [delete_path] below one root; an [Err] is one of
    the exceptions the caller catches. *)
Class Workspace (W : Type) := {
  read_text : W -> str -> read_outcome;
  write_text : W -> str -> str -> result str W;
  delete_path : W -> str -> result str W
}.

(** The paths a deletion removes: the entry and, for a directory, its contents. *)
Definition at_or_below (p q : str) : bool := (q =s? p) || starts_with (p ++ [ch_slash]) q.

(** One of two paths is the other or a directory above it. *)
Definition related (p q : str) : bool := at_or_below p q || at_or_below q p.

Definition text_of (r : read_outcome) : option str := match r with Found t => Some t | _ => None end.

(** What the operations promise of a copy in which every entry has one name: safe paths
    are normalized, no entry is reached through a symbolic link, and the copy is made
    without hard links.  An operation leaves the text of every other file alone.  It can
    change why a path that is no file cannot be read, but only above or below its own
    path: a write creates the missing directories above it, where the reason was that
    nothing is there, and nothing is found below the new file. *)
Class WorkspaceLaws (W : Type) `{Workspace W} := {
  read_written : forall w p c w', write_text w p c = Ok w' -> read_text w' p = Found c;
  text_other : forall w p c w' q, write_text w p c = Ok w' -> q <> p ->
    text_of (read_text w' q) = text_of (read_text w q);
  read_unrelated : forall w p c w' q, write_text w p c = Ok w' -> related p q = false ->
    read_text w' q = read_text w q;
  text_undeleted : forall w p w' q, delete_path w p = Ok w' -> at_or_below p q = false ->
    text_of (read_text w' q) = text_of (read_text w q);
  read_undeleted : forall w p w' q, delete_path w p = Ok w' -> related p q = false ->
    read_text w' q = read_text w q
}.

(** ** Materialization *)

(** Why the edits were not applied. *)
Inductive apply_error :=
| EditSourceUnreadable (path why : str)
| EditTargetEscapes (path why : str)
| PatchTargetMissing (path : str)
| PatchRefused (path : str) (why : patch_error)
| ManifestDisappeared (path : str).

Definition is_manifest (path : str) : bool := basename path =s? u "package.json".

Section Materialize.
Context {W : Type} `{Workspace W}.
Variable patcher : str -> str -> str -> result patch_error str.
Variable restore_package_json : option str -> str -> str.

Definition safe_read (w : W) (path : str) : result apply_error (option str) :=
  match read_text w path with
  | Found text => Ok (Some text)
  | Missing => Ok None
  | Unreadable why => Err (EditSourceUnreadable path why)
  end.

(** A step of the loops below: the state after it, and the error that ends them. *)
Definition outcome : Type := W * option apply_error.

Definition safe_write (w : W) (path content : str) : outcome :=
  match write_text w path content with
  | Ok w' => (w', None)
  | Err why => (w, Some (EditTargetEscapes path why))
  end.

(** Run a step for every element until one fails. *)
Fixpoint each {A} (step : W -> A -> outcome) (l : list A) (w : W) : outcome :=
  match l with
  | [] => (w, None)
  | x :: l' => match step w x with
               | (w', None) => each step l' w'
               | failed => failed
               end
  end.

Definition write_file (w : W) (file : str * str) : outcome := safe_write w (fst file) (snd file).

Definition patch_file (w : W) (block : PatchBlock) : outcome :=
  match safe_read w (pb_path block) with
  | Err e => (w, Some e)
  | Ok None => (w, Some (PatchTargetMissing (pb_path block)))
  | Ok (Some source) =>
      match patcher source (pb_search block) (pb_replace block) with
      | Err e => (w, Some (PatchRefused (pb_path block) e))
      | Ok patched => safe_write w (pb_path block) patched
      end
  end.

Definition restore_manifest (originals : list (str * option str)) (w : W) (path : str) : outcome :=
  match safe_read w path with
  | Err e => (w, Some e)
  | Ok None => (w, Some (ManifestDisappeared path))
  | Ok (Some candidate_package) =>
      let original := match List.find (fun o => fst o =s? path) originals with
                      | Some (_, o) => o
                      | None => None
                      end in
      let restored := restore_package_json original candidate_package in
      if restored =s? candidate_package then (w, None) else safe_write w path restored
  end.

Definition package_paths (file_blocks : list (str * str)) (patch_blocks : list PatchBlock) : list str :=
  sorted_set (List.filter is_manifest (map fst file_blocks ++ map pb_path patch_blocks)).

Definition materialize_candidate_edits (w : W) (file_blocks : list (str * str)) (patch_blocks : list PatchBlock)
  : outcome :=
  let manifests := package_paths file_blocks patch_blocks in
  match rmap (fun path => let* o := safe_read w path in Ok (path, o)) manifests with
  | Err e => (w, Some e)
  | Ok originals =>
      match each write_file file_blocks w with
      | (w1, None) =>
          match each patch_file patch_blocks w1 with
          | (w2, None) => each (restore_manifest originals) manifests w2
          | failed => failed
          end
      | failed => failed
      end
  end.
End Materialize.

(** ** Admission *)

Record AdmittedRepoCandidate := {
  ac_repo_path : str;
  ac_file_blocks : list (str * str);
  ac_patch_blocks : list PatchBlock;
  ac_deleted_paths : list str;
  ac_files_changed : list str;
  ac_strict_harness : bool
}.

(** The values the services of the admission provide. *)
Record AdmissionSettings := {
  as_deleted_paths : list str;
  as_file_blocks_override : option (list (str * str));
  as_target_files : list str;
  as_extra_protected : list str;
  as_allow : list str;
  as_allow_new_tests : bool;
  as_strict_harness : bool;
  as_harness_inputs : list str
}.

Inductive admission :=
| AdmittedCandidate (candidate : AdmittedRepoCandidate)
| NoParseableBlocks
| RejectedPath (r : rejection).

Inductive admission_error := NotADirectory | HarnessInputs (e : HarnessInputPolicyError).

Definition lift_policy {A} (r : result HarnessInputPolicyError A) : result admission_error A :=
  match r with Ok a => Ok a | Err e => Err (HarnessInputs e) end.

Section Admission.
Context `{UnicodeDB}.
Variable fs : tree.

(** [str(path).strip()] is not empty *)
Definition nonblank (path : str) : bool := negb (is_empty (strip path)).

(** The edits of the candidate: the structured transport when it is given, else
    the strict grammar, else the lenient one. *)
Definition candidate_blocks (hypothesis : str) (s : AdmissionSettings) : list (str * str) * list PatchBlock :=
  match as_file_blocks_override s with
  | Some file_blocks => (file_blocks, [])
  | None =>
      let file_blocks := parse_file_blocks hypothesis in
      let patch_blocks := parse_patch_blocks hypothesis in
      if is_empty file_blocks && is_empty patch_blocks then
        let targets := List.filter nonblank (as_target_files s) in
        parse_blocks_lenient hypothesis (match targets with [t] => Some t | _ => None end)
      else (file_blocks, patch_blocks)
  end.

Definition admit_repo_candidate (hypothesis repo_path : str) (s : AdmissionSettings)
  : result admission_error admission :=
  if is_empty repo_path || negb (fs_isdir fs repo_path) then Err NotADirectory
  else
    let deleted_paths := List.filter nonblank (as_deleted_paths s) in
    let '(file_blocks, patch_blocks) := candidate_blocks hypothesis s in
    if is_empty file_blocks && is_empty patch_blocks && is_empty deleted_paths then Ok NoParseableBlocks
    else
      let extra := as_extra_protected s in
      let local_action_dirs := discover_local_action_dirs fs repo_path in
      let changed := sorted_set (map fst file_blocks ++ map pb_path patch_blocks) in
      let new_paths := List.filter (fun path => is_safe_relpath path
                                      && negb (fs_exists fs (path_join repo_path path))) changed in
      let* rejected := lift_policy
        (reject_unsafe_or_protected fs changed extra (as_harness_inputs s) (Some repo_path)
           (as_allow_new_tests s) new_paths (as_allow s) local_action_dirs (as_strict_harness s)) in
      match rejected with
      | Some r => Ok (RejectedPath r)
      | None =>
          let* deletion_rejected :=
            if is_empty deleted_paths then Ok None
            else lift_policy
              (reject_unsafe_or_protected fs deleted_paths extra (as_harness_inputs s) (Some repo_path)
                 false [] (as_allow s) local_action_dirs (as_strict_harness s)) in
          match deletion_rejected with
          | Some r => Ok (RejectedPath r)
          | None => Ok (AdmittedCandidate
              {| ac_repo_path := repo_path; ac_file_blocks := file_blocks; ac_patch_blocks := patch_blocks;
                 ac_deleted_paths := deleted_paths; ac_files_changed := changed;
                 ac_strict_harness := as_strict_harness s |})
          end
      end.
End Admission.

(** ** Deletions *)

(** The deletion that failed, and why. *)
Fixpoint apply_repo_candidate_deletions `{UnicodeDB} {W} `{Workspace W} (deleted_paths : list str) (w : W)
  : W * option (str * str) :=
  match deleted_paths with
  | [] => (w, None)
  | path :: rest =>
      if negb (is_safe_relpath path) then apply_repo_candidate_deletions rest w
      else match delete_path w path with
           | Ok w' => apply_repo_candidate_deletions rest w'
           | Err why => (w, Some (path, why))
           end
  end.
