(* ===== verification/MaterializeSound.v ===== *)
(** Properties of candidate materialization: the final content of every path, the
    restoration of package manifests, and that an admitted candidate leaves the
    judge's files as they were. *)
From stdpp Require Import gmap.
From S2P Require Import HarnessPolicy Materialize.

(** ** Pathwise content *)

Section Content.
Context {W : Type} `{WorkspaceLaws W}.
Variable patcher : str -> str -> str -> result patch_error str.
Variable restore_package_json : option str -> str -> str.

(** The text of a path after the FILE edits. *)
Definition after_files (files : list (str * str)) (q : str) (before : option str) : option str :=
  fold_left (fun r f => if fst f =s? q then Some (snd f) else r) files before.

(** ... and after the PATCH edits, in order. *)
Definition after_patches (blocks : list PatchBlock) (q : str) (before : option str) : option str :=
  fold_left (fun r b =>
    if pb_path b =s? q then
      match r with
      | Some source => match patcher source (pb_search b) (pb_replace b) with
                       | Ok patched => Some patched
                       | Err _ => r
                       end
      | None => r
      end
    else r) blocks before.

(** ... and once the edited manifests are restored. *)
Definition after_restore (manifest : bool) (before r : option str) : option str :=
  match r with
  | Some t => if manifest then Some (restore_package_json before t) else r
  | None => None
  end.

Definition text_at (w : W) (q : str) : option str := text_of (read_text w q).

Lemma text_at_found w q t : text_at w q = Some t <-> read_text w q = Found t.
Proof. unfold text_at. destruct (read_text w q); cbn; split; by intros [= <-]. Qed.

(** The paths an edit leaves alone altogether. *)
Definition apart_from (paths : list str) (q : str) : Prop := forall p, In p paths -> related p q = false.

Lemma safe_write_ok w p c w' :
  safe_write w p c = (w', None) ->
  forall q, text_at w' q = (if p =s? q then Some c else text_at w q) /\
            (related p q = false -> read_text w' q = read_text w q).
Proof.
  unfold safe_write, text_at. destruct (write_text w p c) as [w1|] eqn:E; [|done]. intros [= <-] q.
  split; [|intros Hq; by eapply read_unrelated].
  destruct (p =s? q) eqn:Eq; [apply str_eqb_eq in Eq as <-; by rewrite (read_written _ _ _ _ E)|].
  apply str_eqb_neq in Eq. eapply text_other; [exact E|congruence].
Qed.

Lemma files_content files w w' q :
  each write_file files w = (w', None) ->
  text_at w' q = after_files files q (text_at w q) /\
  (apart_from (map fst files) q -> read_text w' q = read_text w q).
Proof.
  revert w. induction files as [|f files IH]; intros w; cbn [each]; [by intros [= <-]|].
  unfold write_file. destruct (safe_write w (fst f) (snd f)) as [w1 [e|]] eqn:E; [done|].
  intros Hr. destruct (IH _ Hr) as [-> Ha], (safe_write_ok _ _ _ _ E q) as [-> Hu]. split; [done|].
  intros Hq. rewrite Ha, Hu; [done|apply Hq; by left|intros p Hp; apply Hq; by right].
Qed.

Lemma patch_file_ok w b w' q :
  patch_file patcher w b = (w', None) ->
  text_at w' q = after_patches [b] q (text_at w q) /\ text_at w' (pb_path b) <> None /\
  (related (pb_path b) q = false -> read_text w' q = read_text w q).
Proof.
  unfold patch_file, safe_read. destruct (read_text w (pb_path b)) as [s| |] eqn:Er; [|done..].
  destruct (patcher s (pb_search b) (pb_replace b)) as [t|] eqn:Ep; [|done]. intros Hw.
  apply text_at_found in Er. destruct (safe_write_ok _ _ _ _ Hw q) as [Hq Hu], (safe_write_ok _ _ _ _ Hw (pb_path b)) as [Hp _].
  split; [|split; [rewrite Hp, str_eqb_refl; done|done]]. rewrite Hq. cbn [after_patches fold_left].
  destruct (pb_path b =s? q) eqn:Eq; [|done]. apply str_eqb_eq in Eq as <-. by rewrite Er, Ep.
Qed.

Lemma after_patches_some blocks q t : after_patches blocks q (Some t) <> None.
Proof.
  revert t. induction blocks as [|b blocks IH]; intros t; cbn [after_patches fold_left]; [done|].
  destruct (pb_path b =s? q); [|apply IH]. destruct (patcher t _ _); apply IH.
Qed.

Lemma patches_content blocks w w' q :
  each (patch_file patcher) blocks w = (w', None) ->
  text_at w' q = after_patches blocks q (text_at w q) /\
  (In q (map pb_path blocks) -> text_at w' q <> None) /\
  (apart_from (map pb_path blocks) q -> read_text w' q = read_text w q).
Proof.
  revert w. induction blocks as [|b blocks IH]; intros w; cbn [each]; [by intros [= <-]|].
  destruct (patch_file patcher w b) as [w1 [e|]] eqn:E; [done|].
  intros Hr. destruct (IH _ Hr) as (Ht & Hin & Ha). destruct (patch_file_ok _ _ _ q E) as (Hq & Hne & Hu). split; [|split].
  - rewrite Ht, Hq. done.
  - intros [Hq'|Hq']; [|by apply Hin]. rewrite Ht. subst q. destruct (text_at w1 (pb_path b)); [apply after_patches_some|done].
  - intros Hq'. rewrite Ha, Hu; [done|apply Hq'; by left|intros p Hp; apply Hq'; by right].
Qed.

(** The recorded original of a manifest is what it read as. *)
Definition originals_of (w : W) (originals : list (str * option str)) (manifests : list str) : Prop :=
  Forall2 (fun path o => fst o = path /\ snd o = text_at w path /\
                         forall why, read_text w path <> Unreadable why) manifests originals.

Lemma originals_ok w manifests originals :
  rmap (fun path => let* o := safe_read w path in Ok (path, o)) manifests = Ok originals ->
  originals_of w originals manifests.
Proof.
  intros Hr%rmap_ok. induction Hr as [|p o ps os Ho Hr IH]; constructor; [|done].
  apply rbind_ok in Ho as (t & Ht & <-%Ok_inj). unfold safe_read in Ht.
  unfold text_at. destruct (read_text w p); try done; apply Ok_inj in Ht as <-; done.
Qed.

Lemma original_found w originals manifests path :
  originals_of w originals manifests -> In path manifests ->
  match List.find (fun o => fst o =s? path) originals with Some (_, o) => o | None => None end
  = text_at w path.
Proof.
  induction 1 as [|p [p' o] ps os (Hp & Ho & _) Hr IH]; [done|]. intros Hin. cbn [fst snd] in *. subst.
  cbn [List.find fst]. destruct (p =s? path) eqn:E; [by apply str_eqb_eq in E as ->|].
  apply IH. destruct Hin as [->|]; [by rewrite str_eqb_refl in E|done].
Qed.

Lemma restore_manifest_ok originals w path w' q :
  restore_manifest restore_package_json originals w path = (w', None) ->
  exists t, text_at w path = Some t /\
    text_at w' q = (if path =s? q
      then Some (restore_package_json
                   (match List.find (fun o => fst o =s? path) originals with Some (_, o) => o | None => None end) t)
      else text_at w q) /\
    (related path q = false -> read_text w' q = read_text w q).
Proof.
  unfold restore_manifest, safe_read. destruct (read_text w path) as [t| |] eqn:Er; [|done..].
  apply text_at_found in Er. destruct (_ =s? t) eqn:Et.
  - intros [= <-]. exists t. split; [done|]. split; [|done]. apply str_eqb_eq in Et. rewrite Et.
    destruct (path =s? q) eqn:Eq; [|done]. by apply str_eqb_eq in Eq as <-.
  - intros Hw. exists t. split; [done|]. exact (safe_write_ok _ _ _ _ Hw q).
Qed.

Lemma restores_content originals base manifests all w w' q :
  originals_of base originals all -> incl manifests all -> NoDup manifests ->
  each (restore_manifest restore_package_json originals) manifests w = (w', None) ->
  text_at w' q = after_restore (str_in q manifests) (text_at base q) (text_at w q) /\
  (apart_from manifests q -> read_text w' q = read_text w q).
Proof.
  intros Ho. revert w. induction manifests as [|p ps IH]; intros w Hincl Hd; cbn [each].
  { intros [= <-]. split; [|done]. by destruct (text_at w q). }
  apply NoDup_cons in Hd as [Hn Hd]. rewrite list_elem_of_In in Hn.
  destruct (restore_manifest _ originals w p) as [w1 [e|]] eqn:E; [done|]. intros Hr.
  assert (Hincl' : incl ps all) by (intros x Hx; apply Hincl; by right).
  destruct (IH w1 Hincl' Hd Hr) as [IH1 IH2].
  destruct (restore_manifest_ok _ _ _ _ q E) as (t & Ht & Hq & Hu). split.
  2:{ intros Ha. rewrite IH2, Hu; [done|apply Ha; by left|intros x Hx; apply Ha; by right]. }
  rewrite (original_found base _ all) in Hq by (done || (apply Hincl; by left)).
  rewrite IH1, Hq. unfold str_in in *. cbn [existsb]. rewrite (str_eqb_sym q p).
  destruct (p =s? q) eqn:Eq; [|done]. apply str_eqb_eq in Eq as <-. rewrite Ht. cbn [orb after_restore].
  assert (Hno : existsb (str_eqb p) ps = false) by by apply str_in_not_In. by rewrite Hno.
Qed.
End Content.

(** ** Materialization *)

Section Sound.
Context {W : Type} `{WorkspaceLaws W}.
Variable patcher : str -> str -> str -> result patch_error str.
Variable restore_package_json : option str -> str -> str.

(** The paths a candidate writes. *)
Definition written (files : list (str * str)) (blocks : list PatchBlock) : list str :=
  map fst files ++ map pb_path blocks.

Lemma after_files_other files q r : ~ In q (map fst files) -> after_files files q r = r.
Proof.
  unfold after_files. revert r. induction files as [|f files IH]; intros r Hn; [done|]. cbn [fold_left map In] in *.
  destruct (fst f =s? q) eqn:E; [apply str_eqb_eq in E; tauto|]. apply IH. tauto.
Qed.

Lemma after_files_found files q r : after_files files q r = None -> ~ In q (map fst files).
Proof.
  unfold after_files. revert r. induction files as [|f files IH]; intros r; [by intros _ []|]. cbn [fold_left map In].
  destruct (fst f =s? q) eqn:E; [|apply str_eqb_neq in E; intros Hf [|Hin]; [done|by apply (IH _ Hf)]].
  intros Hf. exfalso. clear -Hf. revert Hf. generalize (snd f). induction files as [|g files IH]; intros t; cbn [fold_left]; [done|].
  destruct (fst g =s? q); apply IH.
Qed.

Lemma after_patches_other blocks q r :
  ~ In q (map pb_path blocks) -> after_patches patcher blocks q r = r.
Proof.
  unfold after_patches. revert r. induction blocks as [|b blocks IH]; intros r Hn; [done|].
  cbn [fold_left map In] in *. destruct (pb_path b =s? q) eqn:E; [apply str_eqb_eq in E; tauto|]. apply IH. tauto.
Qed.

Lemma manifests_spec files blocks q :
  str_in q (package_paths files blocks) = is_manifest q && str_in q (written files blocks).
Proof.
  apply eq_true_iff_eq. unfold package_paths. fold (written files blocks).
  rewrite andb_true_iff, !str_in_In, sorted_set_In, filter_In. tauto.
Qed.

Lemma materialize_content w files blocks w' q :
  materialize_candidate_edits patcher restore_package_json w files blocks = (w', None) ->
  text_at w' q =
    after_restore restore_package_json (is_manifest q && str_in q (written files blocks)) (text_at w q)
      (after_patches patcher blocks q (after_files files q (text_at w q))) /\
  (In q (written files blocks) -> text_at w' q <> None) /\
  (apart_from (written files blocks) q -> read_text w' q = read_text w q).
Proof.
  unfold materialize_candidate_edits. destruct (rmap _ _) as [originals|] eqn:Eo; [|done].
  apply originals_ok in Eo. destruct (each write_file files w) as [w1 [e|]] eqn:E1; [done|].
  destruct (each (patch_file patcher) blocks w1) as [w2 [e|]] eqn:E2; [done|]. intros E3.
  destruct (restores_content restore_package_json originals w _ _ w2 w' q Eo (incl_refl _)
              (sort_str_NoDup _ (dedup_str_NoDup _)) E3) as [T3 R3].
  destruct (patches_content _ _ _ _ q E2) as (T2 & N2 & R2), (files_content _ _ _ q E1) as [T1 R1].
  rewrite manifests_spec in T3. split; [by rewrite T3, T2, T1|]. split.
  - intros Hin%in_app_or. assert (Hne : text_at w2 q <> None).
    { destruct Hin as [Hin|Hin]; [|by apply N2]. rewrite T2, T1.
      destruct (after_files files q (text_at w q)) eqn:Ef; [apply after_patches_some|].
      by apply after_files_found in Ef. }
    rewrite T3. destruct (text_at w2 q); [|done]. cbn [after_restore]. by destruct (_ && _).
  - intros Ha. rewrite R3, R2, R1; [done|intros p Hp..]; apply Ha; unfold written; apply in_or_app; [by left|by right|].
    assert (Hm : str_in p (package_paths files blocks) = true) by by apply str_in_In.
    rewrite manifests_spec in Hm. apply andb_true_iff in Hm as [_ Hm%str_in_In]. by apply in_app_or.
Qed.

Lemma materialize_untouched w files blocks w' q :
  materialize_candidate_edits patcher restore_package_json w files blocks = (w', None) ->
  ~ In q (written files blocks) -> text_at w' q = text_at w q.
Proof.
  intros (Hm & _)%(materialize_content _ _ _ _ q) Hn. unfold written in Hn. rewrite in_app_iff in Hn.
  rewrite Hm, after_files_other, after_patches_other by tauto.
  assert (Hf : str_in q (written files blocks) = false)
    by (apply str_in_not_In; unfold written; rewrite in_app_iff; tauto).
  rewrite Hf, andb_false_r. by destruct (text_at w q).
Qed.

(** C29: materialization refines its pathwise specification.  When it succeeds, every path
    that the candidate names is a file, whose text is its FILE text, transformed by its
    PATCH blocks in order, with an edited package manifest restored last against what was
    there before; every other path has the text it had, or none as before; and a path that
    is neither named nor above or below a named one is found exactly as before. *)
Theorem materialize_refines_content w files blocks w' :
  materialize_candidate_edits patcher restore_package_json w files blocks = (w', None) ->
  forall q,
    text_of (read_text w' q) =
      after_restore restore_package_json (is_manifest q && str_in q (written files blocks)) (text_of (read_text w q))
        (after_patches patcher blocks q (after_files files q (text_of (read_text w q)))) /\
    (In q (written files blocks) -> exists text, read_text w' q = Found text) /\
    (~ In q (written files blocks) -> text_of (read_text w' q) = text_of (read_text w q)) /\
    ((forall p, In p (written files blocks) -> related p q = false) -> read_text w' q = read_text w q).
Proof.
  intros Hm q. destruct (materialize_content _ _ _ _ q Hm) as (Ht & Hn & Hu). split; [exact Ht|]. split; [|split].
  - intros Hin. specialize (Hn Hin). unfold text_at in Hn. destruct (read_text w' q) as [t| |]; [by exists t|done..].
  - by apply materialize_untouched.
  - exact Hu.
Qed.

Lemma deletions_content `{UnicodeDB} paths w w' q :
  apply_repo_candidate_deletions paths w = (w', None) ->
  ((forall p, In p paths -> at_or_below p q = false) -> text_at w' q = text_at w q) /\
  (apart_from paths q -> read_text w' q = read_text w q).
Proof.
  revert w. induction paths as [|p paths IH]; intros w; cbn [apply_repo_candidate_deletions]; [by intros [= <-]|].
  intros Hr. destruct (negb _).
  { destruct (IH w Hr) as [D1 D2]. split; intros Hall; [apply D1|apply D2]; intros x Hx; apply Hall; by right. }
  destruct (delete_path w p) as [w1|] eqn:E; [|done]. destruct (IH w1 Hr) as [D1 D2]. split; intros Hall.
  - rewrite D1 by (intros x Hx; apply Hall; by right). eapply text_undeleted; [exact E|]. apply Hall. by left.
  - rewrite D2 by (intros x Hx; apply Hall; by right). eapply read_undeleted; [exact E|]. apply Hall. by left.
Qed.

(** ** Admission *)

Context `{UnicodeDB}.
Variable fs : tree.

Lemma admit_ok hypothesis repo s c :
  admit_repo_candidate fs hypothesis repo s = Ok (AdmittedCandidate c) ->
  let dirs := discover_local_action_dirs fs repo in
  let new := List.filter (fun path => is_safe_relpath path && negb (fs_exists fs (path_join repo path)))
               (ac_files_changed c) in
  (forall p, In p (written (ac_file_blocks c) (ac_patch_blocks c)) <-> In p (ac_files_changed c)) /\
  (forall p, In p (ac_files_changed c) ->
     reject_path fs (as_extra_protected s) (as_harness_inputs s) (Some repo) (as_allow_new_tests s) new
       (as_allow s) dirs (as_strict_harness s) p = Ok None) /\
  (forall p, In p (ac_deleted_paths c) ->
     reject_path fs (as_extra_protected s) (as_harness_inputs s) (Some repo) false []
       (as_allow s) dirs (as_strict_harness s) p = Ok None) /\
  ac_strict_harness c = as_strict_harness s /\ ac_repo_path c = repo.
Proof.
  unfold admit_repo_candidate. cbv zeta. destruct (_ || _); [done|].
  destruct (candidate_blocks hypothesis s) as [fb pb]. destruct (_ && _ && _); [done|].
  unfold lift_policy. destruct (reject_unsafe_or_protected _ _ _ _ _ _ _ _ _ _) as [[r|]|] eqn:E1;
    cbn [rbind]; [done| |done].
  intros (dr & Hd & Hr)%rbind_ok. destruct dr as [|]; [done|]. apply Ok_inj in Hr.
  injection Hr as <-. cbn [ac_file_blocks ac_patch_blocks ac_files_changed ac_deleted_paths ac_strict_harness ac_repo_path].
  split; [intros p; unfold written; by rewrite sorted_set_In|].
  rewrite reject_all_spec in E1. split; [exact E1|]. split; [|done].
  destruct (is_empty (List.filter nonblank (as_deleted_paths s))) eqn:Ee.
  - apply is_empty_iff in Ee as ->. done.
  - destruct (reject_unsafe_or_protected _ _ _ _ _ _ _ _ _ _) as [[r|]|] eqn:E2; [done| |done].
    by rewrite reject_all_spec in E2.
Qed.

(** A file of the judge that the trusted base has. *)
Definition judge_file (repo q : str) (s : AdmissionSettings) : Prop :=
  (is_allowlist_exemptible q (discover_local_action_dirs fs repo) (as_strict_harness s) = false /\
   fs_exists fs (path_join repo q) = true) \/
  candidate_path_targets_harness_input fs repo q (as_harness_inputs s) <> Ok false.

Lemma builtin_not_admitted q protected allow allow_new strict dirs :
  is_allowlist_exemptible q dirs strict = false -> admitted protected allow allow_new false strict dirs q = false.
Proof.
  intros He. unfold admitted, is_addable_new_test. rewrite He. cbn [andb]. rewrite andb_false_r.
  destruct (is_protected q protected) eqn:Ep; [done|]. apply negb_false_iff.
  unfold is_allowlist_exemptible in He. rewrite negb_false_iff in He.
  destruct (is_protected q []) eqn:E0; [apply (is_protected_mono _ protected) in E0; congruence|].
  destruct (is_protected_config q strict), (is_protected_ci q dirs), (is_judge_autoexec q); done.
Qed.

(** C28: an admitted candidate leaves its judge alone.  After admission,
    materialization and deletion succeed, every test, runner configuration, lock,
    CI definition and auto-executed file of the trusted base, and every declared
    harness input, has exactly the text it had in the copy before the candidate, or none
    where it had none - unless the caller deleted a directory above it; and where the
    candidate changed nothing above or below it, it reads the same in every respect. *)
Theorem admitted_candidate_spares_judge hypothesis repo s c w w1 w2 q :
  admit_repo_candidate fs hypothesis repo s = Ok (AdmittedCandidate c) ->
  materialize_candidate_edits patcher restore_package_json w (ac_file_blocks c) (ac_patch_blocks c) = (w1, None) ->
  apply_repo_candidate_deletions (ac_deleted_paths c) w1 = (w2, None) ->
  judge_file repo q s ->
  (forall p, In p (ac_deleted_paths c) -> starts_with (p ++ [ch_slash]) q = false) ->
  ~ In q (ac_files_changed c) /\ ~ In q (ac_deleted_paths c) /\
  text_of (read_text w2 q) = text_of (read_text w q) /\
  ((forall p, In p (ac_files_changed c ++ ac_deleted_paths c) -> related p q = false) -> read_text w2 q = read_text w q).
Proof.
  intros (Hw & Hc & Hd & _)%admit_ok Hm Hdel Hj Hbelow.
  assert (Hno : forall allow_new new, ~ In q new \/ fs_exists fs (path_join repo q) = false ->
    reject_path fs (as_extra_protected s) (as_harness_inputs s) (Some repo) allow_new new (as_allow s)
      (discover_local_action_dirs fs repo) (as_strict_harness s) q <> Ok None).
  { intros allow_new new Hn (Hs & Ht & Ha)%reject_path_spec. destruct Hj as [[He Hx]|Hj]; [|done].
    destruct Hn as [Hn|]; [|congruence]. apply str_in_not_In in Hn. rewrite Hn in Ha.
    by rewrite builtin_not_admitted in Ha. }
  assert (Hnc : ~ In q (ac_files_changed c)).
  { intros Hin. pose proof (Hc q Hin) as Hr. revert Hr. apply Hno.
    destruct (fs_exists fs (path_join repo q)) eqn:Ex; [left|by right].
    rewrite filter_In. intros [_ Hf]. rewrite Ex, andb_false_r in Hf. done. }
  assert (Hnd : ~ In q (ac_deleted_paths c)).
  { intros Hin. pose proof (Hd q Hin) as Hr. revert Hr. apply Hno. left. by intros []. }
  split; [done|]. split; [done|]. destruct (deletions_content _ _ _ q Hdel) as [Ht Hr]. split.
  - fold (text_at w2 q). rewrite Ht; [apply (materialize_untouched _ _ _ _ _ Hm); by rewrite Hw|].
    intros p Hp. unfold at_or_below. rewrite (Hbelow p Hp), orb_false_r.
    apply str_eqb_neq. intros ->. done.
  - intros Ha. rewrite Hr by (intros p Hp; apply Ha, in_or_app; by right).
    destruct (materialize_content _ _ _ _ q Hm) as (_ & _ & Hu). apply Hu.
    intros p Hp. apply Ha, in_or_app. left. by apply Hw.
Qed.
End Sound.

(** ** A finite tree *)

(** A copy as a finite map of its text files: the directories are those above a file. *)
Section Tree.
Abbreviation files := (gmap (list N) (list N)).

Definition below (p q : str) : bool := starts_with (p ++ [ch_slash]) q.
Definition some_file (f : str -> bool) (w : files) : bool := existsb f (map fst (map_to_list w)).

Definition read_map (w : files) (p : list N) : read_outcome :=
  match w !! p with
  | Some t => Found t
  | None => if some_file (below p) w then Unreadable (u "is a directory")
            else if some_file (fun k => below k p) w then Unreadable (u "not a directory")
            else Missing
  end.
Definition write_map (w : files) (p c : list N) : result str files :=
  if some_file (below p) w then Err (u "refusing to replace special path")
  else if some_file (fun k => below k p) w then Err (u "not a directory")
  else Ok (<[p := c]> w).
Definition delete_map (w : files) (p : list N) : result str files :=
  if some_file (fun k => below k p) w then Err (u "not a directory")
  else Ok (filter (fun kv : list N * list N => at_or_below p (fst kv) = false) w).

#[export] Instance gmap_workspace : Workspace files :=
  {| read_text := read_map; write_text := write_map; delete_path := delete_map |}.

Lemma some_file_spec (f : str -> bool) (w : files) : some_file f w = true <-> exists k : list N, is_Some (w !! k) /\ f k = true.
Proof.
  unfold some_file. rewrite existsb_exists. split.
  - intros (k & ([k' t] & <- & Hk)%in_map_iff & Hf). exists k'. split; [|done].
    apply list_elem_of_In, elem_of_map_to_list in Hk. by exists t.
  - intros (k & [t Ht] & Hf). exists k. split; [|done]. apply in_map_iff. exists (k, t). split; [done|].
    by apply list_elem_of_In, elem_of_map_to_list.
Qed.

Lemma some_file_ext (f : str -> bool) (w w' : files) : (forall k : list N, f k = true -> is_Some (w !! k) <-> is_Some (w' !! k)) -> some_file f w = some_file f w'.
Proof. intros Hk. apply eq_true_iff_eq. rewrite !some_file_spec. split; intros (k & Hs & Hf); exists k; naive_solver. Qed.

Lemma below_spec p q : below p q = true <-> exists r, q = p ++ ch_slash :: r.
Proof. unfold below. rewrite starts_with_spec. setoid_rewrite <- app_assoc. done. Qed.

Lemma at_or_below_spec p q : at_or_below p q = true <-> q = p \/ below p q = true.
Proof. unfold at_or_below, below. by rewrite orb_true_iff, str_eqb_eq. Qed.

(** Two paths above one path are related. *)
Lemma above_related p q k : at_or_below p k = true -> below q k = true -> related p q = true.
Proof.
  intros Hp Hq. unfold related. apply orb_true_iff. rewrite !at_or_below_spec.
  apply at_or_below_spec in Hp as [->|(r & ->)%below_spec]; [by do 2 right|].
  apply below_spec in Hq as (r' & Heq). apply app_eq_inv in Heq as [(l & -> & Hl)|(l & -> & Hl)];
    destruct l as [|x l]; rewrite ?app_nil_r; [by do 2 left| |by do 2 left|];
    injection Hl as <- _; [right|left]; right; apply below_spec; by eexists.
Qed.

Lemma below_trans p q k : at_or_below p q = true -> below q k = true -> below p k = true.
Proof.
  intros [->|(r & ->)%below_spec]%at_or_below_spec (r' & ->)%below_spec; apply below_spec; [by eexists|].
  eexists. by rewrite <- app_assoc.
Qed.

Lemma text_of_lookup (w : files) (q : list N) : text_of (read_text w q) = w !! q.
Proof.
  change (text_of (read_map w q) = w !! q). unfold read_map.
  match goal with |- text_of (match ?x with _ => _ end) = _ => change x with (w !! q) end.
  destruct (w !! q); [done|]. by repeat case_match.
Qed.

Lemma read_found (w : files) (p t : list N) : w !! p = Some t -> read_text w p = Found t.
Proof.
  intros Hw. change (read_map w p = Found t). unfold read_map.
  match goal with |- match ?x with _ => _ end = _ => change x with (w !! p) end. by rewrite Hw.
Qed.

(** What a path reads as depends on the related files only. *)
Lemma read_same (w w' : files) (q : list N) :
  w !! q = w' !! q ->
  (forall k : list N, below q k = true \/ below k q = true -> is_Some (w !! k) <-> is_Some (w' !! k)) ->
  read_text w q = read_text w' q.
Proof.
  intros Hq Hk. change (read_map w q = read_map w' q). unfold read_map.
  match goal with |- match ?x with _ => _ end = match ?y with _ => _ end =>
    change x with (w !! q); change y with (w' !! q) end.
  rewrite Hq. rewrite (some_file_ext (below q) w w') by (intros k ?; apply Hk; by left).
  by rewrite (some_file_ext (fun k => below k q) w w') by (intros k ?; apply Hk; by right).
Qed.

Lemma written_map (w : files) (p c : list N) (w' : files) : write_text w p c = Ok w' -> w' = <[p := c]> w.
Proof. change (write_map w p c = Ok w' -> w' = <[p := c]> w). unfold write_map. repeat case_if; try done. by intros <-%Ok_inj. Qed.

Lemma deleted_lookup (w : files) (p : str) (w' : files) (k : list N) :
  delete_path w p = Ok w' -> w' !! k = if at_or_below p k then None else w !! k.
Proof.
  change (delete_map w p = Ok w' -> w' !! k = if at_or_below p k then None else w !! k). unfold delete_map.
  case_if; [done|]. intros <-%Ok_inj. destruct (at_or_below p k) eqn:E.
  - apply map_lookup_filter_None. right. intros t _. cbn. congruence.
  - destruct (w !! k) as [t|] eqn:Ek; [by apply map_lookup_filter_Some|apply map_lookup_filter_None; by left].
Qed.

#[export] Instance gmap_workspace_laws : WorkspaceLaws files.
Proof.
  split.
  - intros w p c w' ->%written_map. apply read_found, lookup_insert_eq.
  - intros w p c w' q ->%written_map Hne. rewrite !text_of_lookup. by rewrite lookup_insert_ne by congruence.
  - intros w p c w' q ->%written_map Hr. unfold related in Hr. apply orb_false_iff in Hr as [H1 H2].
    assert (Hne : forall k, k = q \/ below q k = true \/ below k q = true -> p <> k).
    { intros k Hk ->. destruct Hk as [->|[Hk|Hk]]; [|rewrite (proj2 (at_or_below_spec q k)) in H2 by (by right); done
        |rewrite (proj2 (at_or_below_spec k q)) in H1 by (by right); done].
      rewrite (proj2 (at_or_below_spec q q)) in H1 by (by left). done. }
    apply read_same; [|intros k Hk]; by rewrite lookup_insert_ne by (apply Hne; tauto).
  - intros w p w' q Hd Hq. by rewrite !text_of_lookup, (deleted_lookup _ _ _ _ Hd), Hq.
  - intros w p w' q Hd Hr. pose proof Hr as Hr'. unfold related in Hr'. apply orb_false_iff in Hr' as [H1 H2].
    apply read_same; [by rewrite (deleted_lookup _ _ _ _ Hd), H1|]. intros k Hk. rewrite (deleted_lookup _ _ _ _ Hd).
    destruct (at_or_below p k) eqn:E; [|done]. exfalso. destruct Hk as [Hk|Hk].
    + by rewrite (above_related _ _ _ E Hk) in Hr.
    + rewrite (proj2 (at_or_below_spec p q)) in H1; [done|]. right. by eapply below_trans.
Qed.
End Tree.

Definition sample_copy : gmap (list N) (list N) :=
  <[u "src/app.py" := u "x = 1"]> (<[u "tests/test_app.py" := u "assert app"]>
    (<[u "package.json" := u "{judge}"]> ∅)).

Definition keep_judge (original : option str) (candidate : str) : str :=
  match original with Some o => o | None => candidate end.

Definition default_patcher (source search replace : str) : result patch_error str :=
  apply_patch source search replace 1.

(** One FILE edit, one PATCH edit and one edit of the manifest. *)
Definition sample_files : list (str * str) := [(u "src/new.py", u "y = 2"); (u "package.json", u "{mine}")].
Definition sample_patches : list PatchBlock :=
  [{| pb_path := u "src/app.py"; pb_search := u "1"; pb_replace := u "10" |}].

Lemma materialize_refines_content_witness :
  exists w', materialize_candidate_edits default_patcher keep_judge sample_copy sample_files sample_patches
             = (w', None) /\
    text_of (read_text w' (u "src/app.py")) = Some (u "x = 10") /\
    text_of (read_text w' (u "package.json")) = Some (u "{judge}") /\
    read_text w' (u "tests/test_app.py") = read_text sample_copy (u "tests/test_app.py").
Proof.
  destruct (materialize_candidate_edits default_patcher keep_judge sample_copy sample_files sample_patches)
    as [w' e] eqn:E.
  assert (e = None) as -> by (apply (f_equal snd) in E; vm_compute in E; symmetry; exact E).
  exists w'. split; [reflexivity|].
  pose proof (materialize_refines_content default_patcher keep_judge sample_copy sample_files sample_patches w' E)
    as H. split; [|split].
  - etransitivity; [exact (proj1 (H (u "src/app.py")))|]. vm_compute. reflexivity.
  - etransitivity; [exact (proj1 (H (u "package.json")))|]. vm_compute. reflexivity.
  - apply (proj2 (proj2 (proj2 (H (u "tests/test_app.py"))))). intros p [<-|[<-|[<-|[]]]]; reflexivity.
Defined.

Definition sample_base : tree := {|
  fs_listdir := fun _ => Some [];
  fs_lstat := fun _ => None;
  fs_exists := fun p => str_in p (us ["/repo/src/app.py"; "/repo/tests/test_app.py"; "/repo/package.json"]);
  fs_lexists := fun p => str_in p (us ["/repo/src/app.py"; "/repo/tests/test_app.py"; "/repo/package.json"]);
  fs_isdir := fun p => p =s? u "/repo";
  fs_isfile := fun _ => false;
  fs_samefile := fun a b => Some (a =s? b);
  fs_walk := fun _ => [];
  fs_readlines := fun _ => None
|}.

Definition sample_settings (deleted : list string) : AdmissionSettings := {|
  as_deleted_paths := us deleted; as_file_blocks_override := None; as_target_files := [];
  as_extra_protected := []; as_allow := us ["tests/*"]; as_allow_new_tests := true;
  as_strict_harness := false; as_harness_inputs := [] |}.

Definition sample_hypothesis : str := serialize_candidate_blocks [(u "src/app.py", u "x = 2")].

Definition admit_sample (deleted : list string) : result admission_error admission :=
  @admit_repo_candidate ascii_unicode sample_base sample_hypothesis (u "/repo") (sample_settings deleted).

Lemma admitted_candidate_spares_judge_witness :
  exists c w1 w2, admit_sample ["docs"] = Ok (AdmittedCandidate c) /\
    materialize_candidate_edits default_patcher keep_judge sample_copy (ac_file_blocks c) (ac_patch_blocks c) = (w1, None) /\
    @apply_repo_candidate_deletions ascii_unicode _ _ (ac_deleted_paths c) w1 = (w2, None) /\
    text_of (read_text w2 (u "tests/test_app.py")) = Some (u "assert app").
Proof.
  destruct (admit_sample ["docs"]) as [[c| |]|] eqn:Ea; try (vm_compute in Ea; discriminate Ea).
  destruct (materialize_candidate_edits default_patcher keep_judge sample_copy (ac_file_blocks c) (ac_patch_blocks c))
    as [w1 e1] eqn:Em.
  destruct (@apply_repo_candidate_deletions ascii_unicode _ _ (ac_deleted_paths c) w1) as [w2 e2] eqn:Ed.
  assert (Hc : ac_deleted_paths c = us ["docs"]) by (vm_compute in Ea; injection Ea as <-; reflexivity).
  assert (e1 = None) as -> by (vm_compute in Ea; injection Ea as <-; apply (f_equal snd) in Em; vm_compute in Em; symmetry; exact Em).
  assert (e2 = None) as ->.
  { rewrite Hc in Ed. vm_compute in Ea. injection Ea as <-. apply (f_equal fst) in Em. cbn [fst] in Em.
    rewrite <- Em in Ed. apply (f_equal snd) in Ed. vm_compute in Ed. symmetry. exact Ed. }
  exists c, w1, w2. split; [reflexivity|]. split; [exact Em|]. split; [exact Ed|].
  refine (proj1 (proj2 (proj2 (@admitted_candidate_spares_judge _ _ _ default_patcher keep_judge ascii_unicode sample_base
    sample_hypothesis (u "/repo") (sample_settings ["docs"]) c sample_copy w1 w2 (u "tests/test_app.py")
    Ea Em Ed _ _)))).
  - left. split; vm_compute; reflexivity.
  - rewrite Hc. intros p [<-|[]]. reflexivity.
Defined.

(** The path policy looks at the deleted path itself: a directory that contains
    protected tests is admitted for deletion. *)
Example deleted_test_directory_admitted :
  (exists c, admit_sample ["tests"] = Ok (AdmittedCandidate c)) /\
  @is_protected ascii_unicode (u "tests/test_app.py") [] = true.
Proof. split; [eexists|]; vm_compute; reflexivity. Qed.
