(* ===== verification/Effects.v ===== *)
(** Programs that interact with their environment, as finite trees of operations
    and replies: the execution relation with its log, a runner over a script of
    replies, and the monad of the verifier (a session, early return, exceptions). *)
From S2P Require Export Prelude.

(** ** Programs *)

Section Prog.
Context {Act Rep : Type}.

(** An operation is performed and the program goes on with the reply. *)
Inductive prog (A : Type) : Type :=
| Ret (a : A)
| Op (op : Act) (k : Rep -> prog A).
Arguments Ret {A} a.
Arguments Op {A} op k.

Fixpoint bind {A B} (p : prog A) (f : A -> prog B) : prog B :=
  match p with
  | Ret a => f a
  | Op op k => Op op (fun r => bind (k r) f)
  end.

(** An execution: what was asked and replied, in order, and the value. *)
Inductive exec {A} : prog A -> list (Act * Rep) -> A -> Prop :=
| exec_ret a : exec (Ret a) [] a
| exec_op op k r log a : exec (k r) log a -> exec (Op op k) ((op, r) :: log) a.

Lemma exec_ret_inv {A} (a b : A) log : exec (Ret a) log b <-> log = [] /\ b = a.
Proof. split; [intros E; by inversion E|]. intros [-> ->]. constructor. Qed.

Lemma exec_op_inv {A} op (k : Rep -> prog A) log b :
  exec (Op op k) log b <-> exists r log', log = (op, r) :: log' /\ exec (k r) log' b.
Proof.
  split.
  - intros E. inversion E; subst. eauto.
  - intros (r & log' & -> & E). by constructor.
Qed.

Lemma exec_bind {A B} (p : prog A) (f : A -> prog B) log b :
  exec (bind p f) log b <-> exists l1 l2 a, log = l1 ++ l2 /\ exec p l1 a /\ exec (f a) l2 b.
Proof.
  split.
  - revert log. induction p as [a|op k IH]; intros log; cbn [bind].
    + intros E. exists [], log, a. split_and!; [done|constructor|done].
    + rewrite exec_op_inv. intros (r & log' & -> & E). destruct (IH _ _ E) as (l1 & l2 & a & -> & E1 & E2).
      exists ((op, r) :: l1), l2, a. split_and!; [done|by constructor|done].
  - intros (l1 & l2 & a & -> & E1 & E2). induction E1; [done|]. cbn [bind app]. constructor. by apply IHE1.
Qed.

(** Every program runs to its end on a script that is long enough; [None] is a
    script that ended before the program. *)
Fixpoint run {A} (p : prog A) (script : list Rep) : option (list (Act * Rep) * A) :=
  match p with
  | Ret a => Some ([], a)
  | Op op k =>
      match script with
      | [] => None
      | r :: script' =>
          match run (k r) script' with
          | Some (log, a) => Some ((op, r) :: log, a)
          | None => None
          end
      end
  end.

Lemma run_exec {A} (p : prog A) script log a : run p script = Some (log, a) -> exec p log a.
Proof.
  revert script log. induction p as [b|op k IH]; intros script log; cbn [run].
  - intros [= <- <-]. constructor.
  - destruct script as [|r script]; [done|]. destruct (run (k r) script) as [[log' a']|] eqn:E; [|done].
    intros [= <- <-]. constructor. eauto.
Qed.
End Prog.
Arguments prog : clear implicits.
Arguments Ret {Act Rep A} a.
Arguments Op {Act Rep A} op k.

(** ** The verifier's monad *)

(** What a step of the verifier does: go on with a value, return a result early,
    or let an exception pass. *)
Inductive ending (R A : Type) := Done (a : A) | Returned (r : R) | Raised.
Arguments Done {R A} a.
Arguments Returned {R A} r.
Arguments Raised {R A}.

Section Monad.
Context {Act Rep S R : Type}.

Definition M (A : Type) : Type := S -> prog Act Rep (S * ending R A).

Definition vret {A} (a : A) : M A := fun s => Ret (s, Done a).
Definition refuse {A} (r : R) : M A := fun s => Ret (s, Returned r).
Definition raise {A} : M A := fun s => Ret (s, Raised).
Definition get_state : M S := fun s => Ret (s, Done s).
Definition modify (f : S -> S) : M unit := fun s => Ret (f s, Done tt).

Definition vbind {A B} (m : M A) (f : A -> M B) : M B := fun s =>
  bind (m s) (fun so =>
    match snd so with
    | Done a => f a (fst so)
    | Returned r => Ret (fst so, Returned r)
    | Raised => Ret (fst so, Raised)
    end).

(** A request, and the reading of its reply: a reply of another form is an
    exception that the code does not catch there. *)
Definition ask {A} (op : Act) (read : Rep -> option A) : M A := fun s =>
  Op op (fun r => Ret (s, match read r with Some a => Done a | None => Raised end)).

(** [try: m finally: ...], where the final part is told whether an exception is
    under way and may itself raise. *)
Definition finally {A} (m : M A) (final : bool -> M unit) : M A := fun s =>
  bind (m s) (fun so =>
    bind (final (match snd so with Raised => true | _ => false end) (fst so)) (fun sf =>
      Ret (fst sf, match snd sf with Done _ => snd so | Returned r => Returned r | Raised => Raised end))).

(** What each form executes. *)

Lemma exec_vret {A} (a : A) s log so : exec (vret a s) log so <-> log = [] /\ so = (s, Done a).
Proof. apply exec_ret_inv. Qed.
Lemma exec_refuse {A} r s log (so : S * ending R A) : exec (refuse r s) log so <-> log = [] /\ so = (s, Returned r).
Proof. apply exec_ret_inv. Qed.
Lemma exec_raise {A} s log (so : S * ending R A) : exec (raise s) log so <-> log = [] /\ so = (s, Raised).
Proof. apply exec_ret_inv. Qed.
Lemma exec_get_state s log so : exec (get_state s) log so <-> log = [] /\ so = (s, Done s).
Proof. apply exec_ret_inv. Qed.
Lemma exec_modify f s log so : exec (modify f s) log so <-> log = [] /\ so = (f s, Done tt).
Proof. apply exec_ret_inv. Qed.

Lemma exec_ask {A} op (read : Rep -> option A) s log so :
  exec (ask op read s) log so <->
  exists r, log = [(op, r)] /\ so = (s, match read r with Some a => Done a | None => Raised end).
Proof.
  unfold ask. rewrite exec_op_inv. split.
  - intros (r & log' & -> & E). apply exec_ret_inv in E as [-> ->]. eauto.
  - intros (r & -> & ->). exists r, []. split; [done|constructor].
Qed.

Lemma exec_vbind {A B} (m : M A) (f : A -> M B) s log s2 o2 :
  exec (vbind m f s) log (s2, o2) <->
  (exists a s1 l1 l2, log = l1 ++ l2 /\ exec (m s) l1 (s1, Done a) /\ exec (f a s1) l2 (s2, o2))
  \/ (exists r, exec (m s) log (s2, Returned r) /\ o2 = Returned r)
  \/ (exec (m s) log (s2, Raised) /\ o2 = Raised).
Proof.
  unfold vbind. rewrite exec_bind. split.
  - intros (l1 & l2 & [s1 o1] & -> & E1 & E2). destruct o1 as [a|r|]; cbn in E2.
    + left. eauto 10.
    + apply exec_ret_inv in E2 as [-> [= -> ->]]. right. left. rewrite app_nil_r. eauto.
    + apply exec_ret_inv in E2 as [-> [= -> ->]]. right. right. by rewrite app_nil_r.
  - intros [(a & s1 & l1 & l2 & -> & E1 & E2)|[(r & E & ->)|[E ->]]].
    + exists l1, l2, (s1, Done a). auto.
    + exists log, [], (s2, Returned r). rewrite app_nil_r. split_and!; [done|done|constructor].
    + exists log, [], (s2, Raised). rewrite app_nil_r. split_and!; [done|done|constructor].
Qed.

Lemma exec_finally {A} (m : M A) final s log s2 o2 :
  exec (finally m final s) log (s2, o2) <->
  exists s1 o1 l1 l2 o', log = l1 ++ l2 /\ exec (m s) l1 (s1, o1) /\
    exec (final (match o1 with Raised => true | _ => false end) s1) l2 (s2, o') /\
    o2 = match o' with Done _ => o1 | Returned r => Returned r | Raised => Raised end.
Proof.
  unfold finally. rewrite exec_bind. split.
  - intros (l1 & l' & [s1 o1] & -> & E1 & E2). apply exec_bind in E2 as (l2 & l3 & [s3 o3] & -> & E2 & E3).
    apply exec_ret_inv in E3 as [-> [= -> ->]]. exists s1, o1, l1, l2, o3. by rewrite app_nil_r.
  - intros (s1 & o1 & l1 & l2 & o' & -> & E1 & E2 & ->). exists l1, l2, (s1, o1). split_and!; [done|done|].
    apply exec_bind. exists l2, [], (s2, o'). rewrite app_nil_r. split_and!; [done|done|constructor].
Qed.
End Monad.
Arguments M : clear implicits.

Notation "'let!' x ':=' m 'in' k" := (vbind m (fun x => k))
  (at level 200, x name, right associativity).
Notation "'let!' ' p ':=' m 'in' k" := (vbind m (fun x => match x with p => k end))
  (at level 200, p pattern, right associativity).
Notation "m ';!' k" := (vbind m (fun _ => k)) (at level 199, right associativity).

(** * A program logic *)

(** ** Weakest preconditions *)

Section Wp.
Context {Act Rep : Type}.
Abbreviation history := (list (Act * Rep)).
(** Which operation may be performed after which history. *)
Context (allowed : history -> Act -> Prop).

Fixpoint wp {A} (p : prog Act Rep A) (h : history) (Q : history -> A -> Prop) : Prop :=
  match p with
  | Ret a => Q h a
  | Op op k => allowed h op /\ forall r, wp (k r) (h ++ [(op, r)]) Q
  end.

Lemma wp_bind {A B} (p : prog Act Rep A) (f : A -> prog Act Rep B) h Q :
  wp (bind p f) h Q <-> wp p h (fun h' a => wp (f a) h' Q).
Proof.
  revert h. induction p as [a|op k IH]; intros h; cbn [bind wp]; [done|].
  split; intros [Ha Hk]; (split; [done|]); intros r; by apply IH.
Qed.

Lemma wp_mono {A} (p : prog Act Rep A) h (Q Q' : history -> A -> Prop) :
  (forall h' a, h `prefix_of` h' -> Q h' a -> Q' h' a) -> wp p h Q -> wp p h Q'.
Proof.
  revert h. induction p as [a|op k IH]; intros h HQ; cbn [wp].
  - apply HQ. done.
  - intros [Ha Hk]. split; [done|]. intros r. apply (IH r); [|by apply Hk].
    intros h' a Hp. apply HQ. by eapply prefix_app_l.
Qed.

(** A triple describes every execution: its value, and each operation at the
    moment it is performed. *)
Lemma wp_sound {A} (p : prog Act Rep A) h Q log a :
  wp p h Q -> exec p log a ->
  Q (h ++ log) a /\ forall l1 op r l2, log = l1 ++ (op, r) :: l2 -> allowed (h ++ l1) op.
Proof.
  intros Hw E. revert h Hw. induction E as [a|op k r log a E IH]; intros h; cbn [wp].
  - intros HQ. rewrite app_nil_r. split; [done|]. by intros [|] ? ? ?.
  - intros [Ha Hk]. destruct (IH _ (Hk r)) as [HQ Hall]. rewrite <- app_assoc in HQ. split; [done|].
    intros [|e l1] op' r' l2 El; [injection El as <- <- <-|injection El as <- El].
    + by rewrite app_nil_r.
    + specialize (Hall _ _ _ _ El). by rewrite <- app_assoc in Hall.
Qed.
End Wp.

(** ** Triples of the verifier's monad *)

Section Triples.
Context {Act Rep S R : Type}.
Abbreviation history := (list (Act * Rep)).
Context (allowed : history -> Act -> Prop).

(** How a step ended: [D] for a value, [N] for a result or an exception. *)
Definition ends {A} (D : history -> S -> A -> Prop) (N : history -> S -> option R -> Prop)
    (h : history) (so : S * ending R A) : Prop :=
  match snd so with
  | Done a => D h (fst so) a
  | Returned r => N h (fst so) (Some r)
  | Raised => N h (fst so) None
  end.

Definition triple {A} (m : M Act Rep S R A) (s : S) (h : history) D N : Prop :=
  wp allowed (m s) h (ends D N).

Lemma triple_vret {A} (a : A) s h D N : D h s a -> triple (vret a) s h D N.
Proof. done. Qed.
Lemma triple_refuse {A} r s h (D : _ -> _ -> A -> Prop) N : N h s (Some r) -> triple (refuse r) s h D N.
Proof. done. Qed.
Lemma triple_raise {A} s h (D : _ -> _ -> A -> Prop) N : N h s None -> triple raise s h D N.
Proof. done. Qed.
Lemma triple_get_state s h D N : D h s s -> triple get_state s h D N.
Proof. done. Qed.
Lemma triple_modify f s h D N : D h (f s) tt -> triple (modify f) s h D N.
Proof. done. Qed.

Lemma triple_ask {A} op (read : Rep -> option A) s h D N :
  allowed h op ->
  (forall r, match read r with
             | Some a => D (h ++ [(op, r)]) s a
             | None => N (h ++ [(op, r)]) s None
             end) ->
  triple (ask op read) s h D N.
Proof. intros Ha Hr. split; [done|]. intros r. specialize (Hr r). cbn. by destruct (read r). Qed.

Lemma triple_vbind {A B} (m : M Act Rep S R A) (f : A -> M Act Rep S R B) s h D N :
  triple m s h (fun h' s' a => triple (f a) s' h' D N) N -> triple (vbind m f) s h D N.
Proof.
  unfold triple, vbind. intros Hm. apply wp_bind. revert Hm. apply wp_mono.
  intros h' [s' [a|r|]] _; done.
Qed.

Lemma triple_finally {A} (m : M Act Rep S R A) final s h D N :
  triple m s h
    (fun h' s' a => triple (final false) s' h' (fun h' s' _ => D h' s' a) N)
    (fun h' s' o => triple (final (match o with None => true | Some _ => false end)) s' h'
                      (fun h' s' _ => N h' s' o) N) ->
  triple (finally m final) s h D N.
Proof.
  unfold triple, finally. intros Hm. apply wp_bind. revert Hm. apply wp_mono.
  intros h' [s' o] _ Hf. apply wp_bind.
  destruct o as [a|r|]; cbn in *; revert Hf; apply wp_mono; intros h'' [s'' [[]|r'|]] _; exact id.
Qed.

Lemma triple_mono {A} (m : M Act Rep S R A) s h (D D' : _ -> _ -> A -> Prop) (N N' : _ -> _ -> option R -> Prop) :
  (forall h' s' a, h `prefix_of` h' -> D h' s' a -> D' h' s' a) ->
  (forall h' s' o, h `prefix_of` h' -> N h' s' o -> N' h' s' o) ->
  triple m s h D N -> triple m s h D' N'.
Proof.
  intros HD HN. apply wp_mono. intros h' [s' [a|r|]] Hp; cbn; [apply HD|apply HN|apply HN]; done.
Qed.

(** The rule of sequencing with the description of the first step. *)
Lemma triple_seq {A B} (m : M Act Rep S R A) (f : A -> M Act Rep S R B) s h E D (N N' : _ -> _ -> option R -> Prop) :
  triple m s h E N' ->
  (forall h' s' o, h `prefix_of` h' -> N' h' s' o -> N h' s' o) ->
  (forall h' s' a, h `prefix_of` h' -> E h' s' a -> triple (f a) s' h' D N) ->
  triple (vbind m f) s h D N.
Proof. intros Hm HN Hf. apply triple_vbind. revert Hm. by apply triple_mono. Qed.
End Triples.

(** A step on a part of the state, run on the whole of it. *)
Lemma triple_zoom {Act Rep S T R A} allowed (get : S -> T) (put : S -> T -> S)
    (m : M Act Rep T R A) (s : S) h D N :
  triple allowed m (get s) h (fun h' t a => D h' (put s t) a) (fun h' t o => N h' (put s t) o) ->
  triple allowed (fun s => bind (m (get s)) (fun to => Ret (put s (fst to), snd to))) s h D N.
Proof.
  unfold triple. intros Hm. apply wp_bind. revert Hm. apply wp_mono. intros h' [t [a|r|]] _; done.
Qed.

(** ** Invariants *)

Section Keeps.
Context {Act Rep S R : Type}.
Context (I : list (Act * Rep) -> S -> Prop).

(** However the step ends, the invariant of the history and the state holds. *)
Definition keeps {A} (m : M Act Rep S R A) : Prop :=
  forall s h, I h s -> triple (fun _ _ => True) m s h (fun h' s' _ => I h' s') (fun h' s' _ => I h' s').

Lemma keeps_vret {A} (a : A) : keeps (vret a).
Proof. intros s h Hi. exact Hi. Qed.
Lemma keeps_refuse {A} r : keeps (A := A) (refuse r).
Proof. intros s h Hi. exact Hi. Qed.
Lemma keeps_raise {A} : keeps (A := A) raise.
Proof. intros s h Hi. exact Hi. Qed.
Lemma keeps_get_state : keeps get_state.
Proof. intros s h Hi. exact Hi. Qed.
Lemma keeps_modify f : (forall h s, I h s -> I h (f s)) -> keeps (modify f).
Proof. intros Hf s h. apply Hf. Qed.
Lemma keeps_ask {A} op (read : Rep -> option A) :
  (forall h s r, I h s -> I (h ++ [(op, r)]) s) -> keeps (ask op read).
Proof. intros Ho s h Hi. apply triple_ask; [done|]. intros r. destruct (read r); by apply Ho. Qed.
Lemma keeps_vbind {A B} (m : M Act Rep S R A) (f : A -> M Act Rep S R B) :
  keeps m -> (forall a, keeps (f a)) -> keeps (vbind m f).
Proof.
  intros Hm Hf s h Hi. eapply triple_seq; [by apply Hm|done|]. intros h' s' a _ Hi'. by apply Hf.
Qed.
Lemma keeps_finally {A} (m : M Act Rep S R A) final : keeps m -> (forall b, keeps (final b)) -> keeps (finally m final).
Proof.
  intros Hm Hf s h Hi. apply triple_finally. eapply triple_mono; [| |by apply Hm].
  - intros h' s' a _ Hi'. by apply Hf.
  - intros h' s' o _ Hi'. by apply Hf.
Qed.
End Keeps.

Create HintDb keeps.
#[export] Hint Resolve keeps_vret keeps_refuse keeps_raise keeps_get_state : keeps.

(** Decompose a step along its binds and its case analyses. *)
Ltac keeps_step :=
  first
    [ solve [eauto 2 with keeps]
    | apply keeps_vbind; [|intros ?]
    | match goal with
      | |- keeps _ (match ?x with _ => _ end) => destruct x
      | |- keeps _ (if ?x then _ else _) => destruct x
      | |- keeps _ (let '(_, _) := ?x in _) => destruct x
      end ].
Ltac keeps_auto := repeat keeps_step.
