(* ===== verification/RepoOps.v ===== *)
(** The operations of the judges and the configuration of the repository verifier:
    what they ask of their environment and what may be replied, the container command line of
    RepoVerifier._docker_command, the diagnostics of verifiers/diagnostics.py, and
    the setters of the execution trace.

    The judge runs on a POSIX host: [os.path.join] uses the slash, [os.pathsep] is
    the colon, and resource limits are passed to host processes. *)
From S2P Require Import EvidencePrimitives.
From S2P Require Export Effects RepoResult HarnessPolicy Runners Json.
Local Open Scope Z_scope.

(** ** What the environment is asked *)

Inductive phase := SetupPhase | SuitePhase | PackPhase.

(** The CPU and address-space limits of a host process. *)
Record PosixRLimitSpec := { cpu_seconds : Z; address_space_bytes : option Z }.

(** A host process to start. *)
Record host_run := {
  hr_command : list str;
  hr_cwd : str;
  hr_environment : list (str * str);
  hr_timeout : Z;
  hr_limits : PosixRLimitSpec;
  hr_require_cleanup_proof : bool }.

(** A process that ended; [target_started] is [False] only when the trusted
    launcher could not start it. *)
Record process := { ps_returncode : Z; ps_stdout : str; ps_stderr : str; ps_target_started : bool }.

(** The exceptions of a process runner that the phases handle. *)
Inductive run_error :=
| DockerRunTimeout (container_started : bool)
| ProcessOutputLimitExceeded (docker_failure execution_started : bool) (text : str)
| ProcessContainmentError (docker_failure execution_started : bool) (text : str)
| TimeoutExpired (target_started : bool)
| FileNotFoundError
| TargetExecFailed (type_name text : str).

(** An exception that an operation raises, with the classes the code tells apart:
    [OSError], [SubprocessError] or its [TimeoutExpired], the two limits of a bounded
    process, the two of the judge's own process, any other [Exception], or one that is
    not an [Exception] (an interrupt). *)
Inductive failure_kind :=
| OSFailure | SubprocessFailure | ProcessFailure | TimeoutFailure | JudgeOutputFailure | JudgeCleanupFailure
| OtherFailure | Interrupt.
Record failure := { fl_kind : failure_kind; fl_type : str; fl_text : str }.

(** An entry of the directory of container identities: not a regular file, not
    readable, or the text that was read. *)
Inductive cid_content := NotRegular | Unreadable (text : str) | CidText (raw : str).

(** A snapshot: the type, mode and digest of every path. *)
Abbreviation path_states := (list (str * (str * Z * str))).

Inductive op {W : Type} :=
| CaptureHarness (root : str) (inputs : list str)
| AllocateWorkspace (prefix : str)
| CopyTree (source destination : str)
| TreeWritten (w : W)
| LExists (path : str)
| SnapshotPack (source destination : str)
| VerifySnapshot (snapshot : str) (identity : str * option dict)
| ResolveImage (image : str)
| PhaseEnvironment (root phase_name : str)
| ContainerToken
| MakeDirs (path : str)
| ResolveHostCommand (command : list str) (cwd : str) (environment : list (str * str))
| CaptureFidelity (root : str) (globs : list str) (baseline : option path_states)
| RunHost (p : phase) (r : host_run)
| RunDocker (p : phase) (command : list str) (name : str)
| InstallCanary (root : str)
| PerfCounter
| ReadReport (path : str)
| ListReports (path : str)
| CaptureIdentity (root : str)
| VerifyIdentity (root : str) (expected : Runtime.RuntimeIdentity)
| RemoveTree (path : str)
| PathAbsent (path : str)
(* the external judge *)
| CreateRecorder (workdir : str)
| DrainReceipts (socket : str)
| CloseRecorder (socket : str)
| DockerOnPath
| DockerControl (command : list str) (timeout : Z)
| AddressSpaceLimit
| MakeOwnedDir (path : str)
| WriteLauncher (workdir : str) (config : value)
| JudgeEnvironment (workdir : str)
| RunJudge (command : list str) (cwd : str) (environment : list (str * str)) (timeout : Z)
| ListCids (path : str)
| Sleep (milliseconds : Z)
(* the coverage run *)
| PathExists (path : str)
| ReadCoverageReport (path : str).
Arguments op : clear implicits.

(** A declared refusal carries its message; an operation that replies in a form
    it does not have stands for an exception the code does not catch there. *)
Inductive reply {W : Type} :=
| RUnit
| RBool (b : bool)
| RStr (s : str)
| RWords (l : list str)
| REnvironment (l : list (str * str))
| RSnapshot (s : path_states)
| RTree (w : W)
| RPack (identity : str * option dict)
| RProcess (p : process)
| RRunError (e : run_error)
| RFloat (f : float)
| RText (t : option str)
| RListing (l : option (list dir_entry))
| RIdentity (i : Runtime.RuntimeIdentity)
| RCompared (i : Runtime.RuntimeIdentity) (changes : list str)
| RRefused (message : str)
| RNotFound
| RFailed (e : failure)
| RRecorder (channel : option (str * str))
| RCount (n : Z)
| RLimit (observed : option (option Z * bool))
| RCids (entries : list (str * cid_content))
| RView (f : file_view).
Arguments reply : clear implicits.

(** ** Configuration *)

(** A configured command: one string, split on blanks, or its words. *)
Inductive command := CmdStr (s : str) | CmdList (l : list str).

Definition cmd_truthy (c : command) : bool :=
  match c with CmdStr s => negb (is_empty s) | CmdList l => negb (is_empty l) end.

(** [a or b] *)
Definition cmd_or (a b : option command) : option command :=
  match a with Some c => if cmd_truthy c then a else b | None => b end.

Record RepoVerifier := {
  vc_timeout : Z;
  vc_mem_limit_mb : Z;
  vc_test_command : option command;
  vc_setup_command : option command;
  vc_protected : list str;
  vc_allow : list str;
  vc_allow_new_tests : bool;
  vc_isolation : str;
  vc_docker_image : option str;
  vc_docker_network : str;
  vc_docker_runtime : option str;
  vc_trust_setup_on_host : bool;
  vc_setup_output_globs : list str;
  vc_strict_harness : bool;
  vc_harness_inputs : list str;
  vc_require_suite_continuity : bool;
  vc_require_assert_liveness : bool;
  vc_require_structured_verdict : bool }.

(** The fields of a problem the verifier reads. *)
Record RepoProblem := {
  pb_repo_path : str;
  pb_test_command : option command;
  pb_setup_command : option command;
  pb_target_files : list str;
  pb_protected : list str;
  pb_allow : list str;
  pb_allow_new_tests : bool;
  pb_strict_harness : bool;
  pb_harness_inputs : list str;
  pb_deleted : list str;
  pb_file_blocks : option (list (str * str));
  pb_verifier_pack : str;
  pb_expect_verifier_pack_sha256 : str }.

Definition container_isolation (isolation : str) : bool := str_in isolation (us ["docker"; "gvisor"]).

Definition _limits (v : RepoVerifier) : PosixRLimitSpec :=
  {| cpu_seconds := Z.max 1 (vc_timeout v + 1);
     address_space_bytes :=
       if 0 <? vc_mem_limit_mb v then Some (vc_mem_limit_mb v * 1024 * 1024) else None |}.

Definition _phase_isolation_evidence (v : RepoVerifier) (delivered : str) (image_digest note : option str)
  : IsolationObservation :=
  let container := container_isolation (vc_isolation v) in
  {| io_requested := vc_isolation v; io_delivered := delivered; io_image_digest := image_digest;
     io_network := if container then Some (vc_docker_network v) else None;
     io_runtime := if container then vc_docker_runtime v else None;
     io_note := note |}.

(** ** Commands *)

(** assert_liveness.py *)
Definition CANARY_DIRNAME : str := ".evoguard".
Definition PLUGIN_MODULE : str := "assert_liveness_plugin".
Definition CANARY_TESTID : str := "test_evoguard_assertion_liveness".
Definition plugin_command_args : list str := [u "-p"; PLUGIN_MODULE].

Fixpoint env_get (k : str) (env : list (str * str)) : option str :=
  match env with [] => None | (k', x) :: env' => if k' =s? k then Some x else env_get k env' end.
Fixpoint env_set (k x : str) (env : list (str * str)) : list (str * str) :=
  match env with
  | [] => [(k, x)]
  | (k', y) :: env' => if k' =s? k then (k', x) :: env' else (k', y) :: env_set k x env'
  end.
(** [{**env, **extra}] *)
Definition env_merge (env extra : list (str * str)) : list (str * str) :=
  fold_left (fun e kv => env_set (fst kv) (snd kv) e) extra env.

Definition prepend_pythonpath (env : list (str * str)) (entry : str) : list (str * str) :=
  let combined := entry ++ match env_get (u "PYTHONPATH") env with
                           | Some (c :: previous) => u ":" ++ c :: previous
                           | _ => []
                           end in
  env_set (u "PYTHONPATH") combined env.

Section Commands.
Context `{UnicodeDB}.
(** [sys.executable], and the user and group of the judge. *)
Context (python_executable : str) (judge_user : Z * Z).

Definition command_is_pytest (cmd : list str) : bool :=
  matches PytestAdapter (List.filter (fun t => negb (is_empty t)) cmd).

Definition _base_command (v : RepoVerifier) (p : RepoProblem) : list str :=
  match cmd_or (vc_test_command v) (pb_test_command p) with
  | Some (CmdStr s) => py_split s
  | Some (CmdList (w :: l)) => w :: l
  | _ =>
      let python := if container_isolation (vc_isolation v) then u "python" else python_executable in
      python :: us ["-m"; "pytest"; "-q"; "--color=no"; "-p"; "no:cacheprovider"]
  end.

Definition _command (v : RepoVerifier) (p : RepoProblem) : list str :=
  let base := _base_command v p in
  if vc_require_assert_liveness v && command_is_pytest base then base ++ plugin_command_args else base.

(** isolation/docker.py *)
Definition require_canonical_docker_image_id (x : str) : option str :=
  if starts_with (u "sha256:") x && hex64_lower (skipn 7 x) then Some x else None.

(** [a or b] on texts *)
Definition text_or_else (a : option str) (b : str) : str :=
  match a with Some (c :: s) => c :: s | _ => b end.

Definition volume (source target mode : str) : list str := [u "-v"; source ++ u ":" ++ target ++ u ":" ++ mode].

(** The container command; [None] when the image is not a canonical identity. *)
Definition _docker_command (v : RepoVerifier) (active_image : option str) (cmd : list str) (copy : str)
    (outdir : option str) (name : str) (report_env : list (str * str)) (work_writable : bool)
    (pack_dir : option str) : option (list str) :=
  let docker :=
    us ["docker"; "run"; "--rm"; "--name"] ++ [name; u "--network"; vc_docker_network v]
    ++ us ["--pids-limit"; "256"; "--cpus"; "1"; "--read-only";
           "--cap-drop"; "ALL"; "--security-opt"; "no-new-privileges";
           "--ulimit"; "nofile=1024:1024"; "--tmpfs"; "/tmp:rw,exec";
           "-e"; "HOME=/tmp"; "-e"; "TMPDIR=/tmp"; "-e"; "TEMP=/tmp"; "-e"; "TMP=/tmp";
           "-e"; "XDG_CACHE_HOME=/tmp"; "-e"; "PYTHONDONTWRITEBYTECODE=1"; "-e"; "PYTHONNOUSERSITE=1";
           "-e"; "LANG=C.UTF-8"]
    ++ volume copy (u "/work") (if work_writable then u "rw" else u "ro") in
  let docker := docker ++ match outdir with Some d => volume d (u "/out") (u "rw") | None => [] end in
  let docker := docker ++ match pack_dir with Some d => volume d (u "/verifier-pack") (u "ro") | None => [] end in
  let docker := docker ++ if vc_require_assert_liveness v
                          then [u "-e"; u "PYTHONPATH=/work/" ++ CANARY_DIRNAME] else [] in
  let docker := docker ++ [u "--user"; str_of_Z (fst judge_user) ++ u ":" ++ str_of_Z (snd judge_user)] in
  let docker := docker ++ us ["-w"; "/work"] in
  let docker := docker ++ match vc_docker_runtime v with
                          | Some (c :: r) => [u "--runtime"; c :: r]
                          | _ => []
                          end in
  let docker := docker ++ flat_map (fun kv => [u "-e"; fst kv ++ u "=" ++ snd kv]) report_env in
  let docker := docker ++ if 0 <? vc_mem_limit_mb v
                          then [u "--memory"; str_of_Z (vc_mem_limit_mb v) ++ u "m"] else [] in
  let image := text_or_else active_image
                 (match vc_docker_image v with Some i => i | None => u "None" end) in
  match require_canonical_docker_image_id image with
  | Some image_id => Some (docker ++ image_id :: cmd)
  | None => None
  end.
End Commands.

(** [docker_container_name]: runs of other characters become one dash. *)
Definition name_char (c : N) : bool :=
  ((48 <=? c) && (c <=? 57) || (65 <=? c) && (c <=? 90) || (97 <=? c) && (c <=? 122)
   || (c =? 95) || (c =? 46) || (c =? 45))%N.
Fixpoint dash_runs (in_run : bool) (s : str) : str :=
  match s with
  | [] => []
  | c :: s' => if name_char c then c :: dash_runs false s'
               else if in_run then dash_runs true s' else ch_dash :: dash_runs true s'
  end.
Definition docker_container_name (stage token : str) : str :=
  let safe_stage := strip_by (fun c => N.eqb c ch_dash || N.eqb c ch_dot) (dash_runs false stage) in
  let safe_stage := match safe_stage with [] => u "run" | s => s end in
  u "evoguard_" ++ firstn 32 safe_stage ++ u "_" ++ token.

(** ** Diagnostics (diagnostics.py) *)

(** The length of an escape sequence at the head of a text. *)
Fixpoint digits_or_semicolons (s : str) : nat :=
  match s with
  | c :: s' => if is_ascii_digit c || N.eqb c 59 then S (digits_or_semicolons s') else O
  | [] => O
  end.
Definition ansi_length (s : str) : option nat :=
  match s with
  | 27%N :: 91%N :: s' =>
      let n := digits_or_semicolons s' in
      match skipn n s' with 109%N :: _ => Some (n + 3)%nat | _ => None end
  | _ => None
  end.
(** [_ANSI_RE.sub("", s)]: [skip] characters of a sequence are still to drop. *)
Fixpoint ansi_sub (skip : nat) (s : str) : str :=
  match s with
  | [] => []
  | c :: s' =>
      match skip with
      | S k => ansi_sub k s'
      | O => match ansi_length s with
             | Some n => ansi_sub (Nat.pred n) s'
             | None => c :: ansi_sub O s'
             end
      end
  end.

Fixpoint some_suffix (f : str -> bool) (s : str) : bool :=
  f s || match s with [] => false | _ :: s' => some_suffix f s' end.

Definition _DIAG_LINE_RE (line : str) : bool :=
  existsb (fun w => contains (decode_literal w) line)
    (us ["FAIL"; "×"; "✗"; "Expected"; "Received"; "expected"; "received"; "Counterexample";
         "AssertionError"; "Error:"; "assert"; "Test Files"; "=== "; "--- "])
  || some_suffix (fun s => match skipn 5 s with c :: _ => starts_with (u "Tests") s && is_space c | [] => false end) line
  || some_suffix (fun s => match s with
                           | 69%N :: a :: b :: c :: _ => is_space a && is_space b && is_space c
                           | _ => false
                           end) line.

(** [s[-n:]] *)
Definition last_chars (n : nat) (s : str) : str := skipn (length s - n) s.

Definition distill_diagnostics (output : str) : str :=
  let clean := ansi_sub 0 output in
  let picked := map strip (List.filter _DIAG_LINE_RE (splitlines clean)) in
  let picked := List.filter (fun ln => let l := lstrip_by is_space ln in
                  negb (starts_with (decode_literal (u "❯")) l || starts_with (u "at ") l)) picked in
  match picked with
  | [] => last_chars 800 clean
  | _ => last_chars 1600 (py_join [ch_nl] picked)
  end.

Example distill_ex :
  distill_diagnostics (27%N :: u "[31mFAIL  a" ++ 27%N :: u "[0m" ++ [ch_nl] ++ u "noise" ++ [ch_nl]
                       ++ u " E   boom" ++ [ch_nl] ++ u "  at Error: x")
  = u "FAIL  a" ++ [ch_nl] ++ u "E   boom".
Proof. vm_compute. reflexivity. Qed.
