(* ===== verification/RepoRun.v ===== *)
(** The three process phases of a repository verification: setup
    (verifiers/repo_setup.py), the repository suite (verifiers/repo_suite.py) and
    the verifier pack (verifiers/repo_pack.py), with the intake of the pack
    (verifiers/repo_pack_intake.py) and the container facade of RepoVerifier.

    A phase is a program over the execution trace; its process is started by one
    operation, and every exception the phase handles is a reply. *)
From S2P Require Export RepoOps.
Local Open Scope Z_scope.

(** ** The trace *)

Section Setters.
Context (t : RepoExecutionTrace).

Definition with_phase (x : str) : RepoExecutionTrace :=
  {| tr_execution_state := tr_execution_state t; tr_execution_phase := x;
     tr_test_command_started := tr_test_command_started t; tr_test_command_completed := tr_test_command_completed t;
     tr_verifier_pack_started := tr_verifier_pack_started t; tr_verifier_pack_completed := tr_verifier_pack_completed t;
     tr_delivered_isolation := tr_delivered_isolation t; tr_setup_isolation_evidence := tr_setup_isolation_evidence t;
     tr_repo_suite_isolation_evidence := tr_repo_suite_isolation_evidence t;
     tr_verifier_pack_isolation_evidence := tr_verifier_pack_isolation_evidence t;
     tr_primary_isolation_evidence := tr_primary_isolation_evidence t |}.

Definition with_state (x : str) : RepoExecutionTrace :=
  {| tr_execution_state := x; tr_execution_phase := tr_execution_phase t;
     tr_test_command_started := tr_test_command_started t; tr_test_command_completed := tr_test_command_completed t;
     tr_verifier_pack_started := tr_verifier_pack_started t; tr_verifier_pack_completed := tr_verifier_pack_completed t;
     tr_delivered_isolation := tr_delivered_isolation t; tr_setup_isolation_evidence := tr_setup_isolation_evidence t;
     tr_repo_suite_isolation_evidence := tr_repo_suite_isolation_evidence t;
     tr_verifier_pack_isolation_evidence := tr_verifier_pack_isolation_evidence t;
     tr_primary_isolation_evidence := tr_primary_isolation_evidence t |}.

Definition with_setup_evidence (x : IsolationObservation) : RepoExecutionTrace :=
  {| tr_execution_state := tr_execution_state t; tr_execution_phase := tr_execution_phase t;
     tr_test_command_started := tr_test_command_started t; tr_test_command_completed := tr_test_command_completed t;
     tr_verifier_pack_started := tr_verifier_pack_started t; tr_verifier_pack_completed := tr_verifier_pack_completed t;
     tr_delivered_isolation := tr_delivered_isolation t; tr_setup_isolation_evidence := Some x;
     tr_repo_suite_isolation_evidence := tr_repo_suite_isolation_evidence t;
     tr_verifier_pack_isolation_evidence := tr_verifier_pack_isolation_evidence t;
     tr_primary_isolation_evidence := tr_primary_isolation_evidence t |}.

Definition with_suite_evidence (x : IsolationObservation) : RepoExecutionTrace :=
  {| tr_execution_state := tr_execution_state t; tr_execution_phase := tr_execution_phase t;
     tr_test_command_started := tr_test_command_started t; tr_test_command_completed := tr_test_command_completed t;
     tr_verifier_pack_started := tr_verifier_pack_started t; tr_verifier_pack_completed := tr_verifier_pack_completed t;
     tr_delivered_isolation := tr_delivered_isolation t; tr_setup_isolation_evidence := tr_setup_isolation_evidence t;
     tr_repo_suite_isolation_evidence := Some x;
     tr_verifier_pack_isolation_evidence := tr_verifier_pack_isolation_evidence t;
     tr_primary_isolation_evidence := tr_primary_isolation_evidence t |}.

Definition with_pack_evidence (x : IsolationObservation) : RepoExecutionTrace :=
  {| tr_execution_state := tr_execution_state t; tr_execution_phase := tr_execution_phase t;
     tr_test_command_started := tr_test_command_started t; tr_test_command_completed := tr_test_command_completed t;
     tr_verifier_pack_started := tr_verifier_pack_started t; tr_verifier_pack_completed := tr_verifier_pack_completed t;
     tr_delivered_isolation := tr_delivered_isolation t; tr_setup_isolation_evidence := tr_setup_isolation_evidence t;
     tr_repo_suite_isolation_evidence := tr_repo_suite_isolation_evidence t;
     tr_verifier_pack_isolation_evidence := Some x;
     tr_primary_isolation_evidence := tr_primary_isolation_evidence t |}.

(** [execution_state = "started_incomplete"; test_command_started = True;
    delivered_isolation = x] *)
Definition with_suite_started (x : str) : RepoExecutionTrace :=
  {| tr_execution_state := u "started_incomplete"; tr_execution_phase := tr_execution_phase t;
     tr_test_command_started := true; tr_test_command_completed := tr_test_command_completed t;
     tr_verifier_pack_started := tr_verifier_pack_started t; tr_verifier_pack_completed := tr_verifier_pack_completed t;
     tr_delivered_isolation := x; tr_setup_isolation_evidence := tr_setup_isolation_evidence t;
     tr_repo_suite_isolation_evidence := tr_repo_suite_isolation_evidence t;
     tr_verifier_pack_isolation_evidence := tr_verifier_pack_isolation_evidence t;
     tr_primary_isolation_evidence := tr_primary_isolation_evidence t |}.

(** The fields a completed suite sets. *)
Definition with_suite_completed (evidence : IsolationObservation) (primary : bool) (state delivered : str)
  : RepoExecutionTrace :=
  {| tr_execution_state := state; tr_execution_phase := tr_execution_phase t;
     tr_test_command_started := true; tr_test_command_completed := true;
     tr_verifier_pack_started := tr_verifier_pack_started t; tr_verifier_pack_completed := tr_verifier_pack_completed t;
     tr_delivered_isolation := delivered; tr_setup_isolation_evidence := tr_setup_isolation_evidence t;
     tr_repo_suite_isolation_evidence := Some evidence;
     tr_verifier_pack_isolation_evidence := tr_verifier_pack_isolation_evidence t;
     tr_primary_isolation_evidence := if primary then Some evidence else tr_primary_isolation_evidence t |}.

(** [execution_state = "started_incomplete"; verifier_pack_started = True] *)
Definition with_pack_started : RepoExecutionTrace :=
  {| tr_execution_state := u "started_incomplete"; tr_execution_phase := tr_execution_phase t;
     tr_test_command_started := tr_test_command_started t; tr_test_command_completed := tr_test_command_completed t;
     tr_verifier_pack_started := true; tr_verifier_pack_completed := tr_verifier_pack_completed t;
     tr_delivered_isolation := tr_delivered_isolation t; tr_setup_isolation_evidence := tr_setup_isolation_evidence t;
     tr_repo_suite_isolation_evidence := tr_repo_suite_isolation_evidence t;
     tr_verifier_pack_isolation_evidence := tr_verifier_pack_isolation_evidence t;
     tr_primary_isolation_evidence := tr_primary_isolation_evidence t |}.

(** The fields a completed pack sets. *)
Definition with_pack_completed (evidence : IsolationObservation) : RepoExecutionTrace :=
  {| tr_execution_state := u "completed"; tr_execution_phase := tr_execution_phase t;
     tr_test_command_started := tr_test_command_started t; tr_test_command_completed := tr_test_command_completed t;
     tr_verifier_pack_started := true; tr_verifier_pack_completed := true;
     tr_delivered_isolation := tr_delivered_isolation t; tr_setup_isolation_evidence := tr_setup_isolation_evidence t;
     tr_repo_suite_isolation_evidence := tr_repo_suite_isolation_evidence t;
     tr_verifier_pack_isolation_evidence := Some evidence;
     tr_primary_isolation_evidence := tr_primary_isolation_evidence t |}.
End Setters.

(** ** Results *)

(** [VerdictResult(passed=False, score=..., ...)] *)
Definition failed_result (score : float) (diagnostics : str) (artifact : list (str * value)) : VerdictResult :=
  {| vr_passed := false; vr_score := score; vr_diagnostics := diagnostics;
     vr_artifact := dupdate [] artifact |}.

Definition item (k : string) (x : value) : str * value := (u k, x).
Definition w_strs (l : list str) : value := VList (map VStr l).

(** [f"... after {timeout}s"] *)
Definition after_seconds (timeout : Z) : str := u " after " ++ str_of_Z timeout ++ u "s".

(** [process.stdout + "\n" + process.stderr], distilled *)
Definition distilled (p : process) : str := distill_diagnostics (ps_stdout p ++ ch_nl :: ps_stderr p).

(** fidelity.py: the paths whose state differs, as for harness inputs. *)
Definition setup_fidelity_changes (before after : path_states) : list str :=
  harness_input_snapshot_changes before after.

Section Phases.
Context `{UnicodeDB} {W : Type}.
Context (python_executable : str) (judge_user : Z * Z).
Context (v : RepoVerifier).

Abbreviation P A := (M (op W) (reply W) RepoExecutionTrace VerdictResult A).

(** Reading of replies. *)
Definition as_unit (r : reply W) : option unit := match r with RUnit => Some tt | _ => None end.
Definition as_bool (r : reply W) : option bool := match r with RBool b => Some b | _ => None end.
Definition as_text (r : reply W) : option str := match r with RStr s => Some s | _ => None end.
Definition as_float (r : reply W) : option float := match r with RFloat f => Some f | _ => None end.
Definition as_environment (r : reply W) : option (list (str * str)) :=
  match r with REnvironment l => Some l | _ => None end.
(** A value, or a declared refusal. *)
Definition as_snapshot (r : reply W) : option (str + path_states) :=
  match r with RSnapshot s => Some (inr s) | RRefused m => Some (inl m) | _ => None end.
Definition as_process (r : reply W) : option (run_error + process) :=
  match r with RProcess p => Some (inr p) | RRunError e => Some (inl e) | _ => None end.
(** The resolved command, or that it was not found. *)
Definition as_command (r : reply W) : option (option (list str)) :=
  match r with RWords l => Some (Some l) | RNotFound => Some None | _ => None end.

(** A directory was made, or its parent is missing. *)
Definition as_made (r : reply W) : option bool :=
  match r with RUnit => Some true | RNotFound => Some false | _ => None end.

Definition host_process (cmd : list str) (cwd : str) (env : list (str * str)) (strict : bool) : host_run :=
  {| hr_command := cmd; hr_cwd := cwd; hr_environment := env; hr_timeout := vc_timeout v;
     hr_limits := _limits v; hr_require_cleanup_proof := strict |}.

(** Resolve and run a host command; a miss of the resolver is the
    [FileNotFoundError] of the same [try]. *)
Definition run_host (ph : phase) (cmd : list str) (cwd : str) (env : list (str * str)) (strict : bool)
  : P (run_error + process) :=
  let! resolved := ask (ResolveHostCommand cmd cwd env) as_command in
  match resolved with
  | None => vret (inl FileNotFoundError)
  | Some cmd => ask (RunHost ph (host_process cmd cwd env strict)) as_process
  end.

(** [_run_docker]: the report path on the host, the process, and whether a
    structured report is expected. *)
Definition _run_docker (ph : phase) (active_image : option str) (base_cmd : list str) (copy workdir : str)
    (pack_dir : option str) : P (str * (run_error + process) * bool) :=
  let outdir := path_join workdir (u "out") in
  let host_xml := path_join outdir (u "judge-result.xml") in
  let '(cmd, report_expected, report_env) := instrument_command base_cmd (u "/out/judge-result.xml") in
  let! made := ask (MakeDirs outdir) as_made in
  if negb made then vret (host_xml, inl FileNotFoundError, report_expected) else
  let! token := ask ContainerToken as_text in
  let name := docker_container_name (after_last ch_slash (rstrip_by (N.eqb ch_slash) workdir)) token in
  match _docker_command judge_user v active_image cmd copy (Some outdir) name report_env false pack_dir with
  | None => raise
  | Some docker_cmd =>
      let! r := ask (RunDocker ph docker_cmd name) as_process in
      vret (host_xml, r, report_expected)
  end.

(** ** Setup (repo_setup.py) *)

Record RepoSetupRequest := {
  sq_configured_command : option command;
  sq_candidate_copy : str;
  sq_files_changed : list str;
  sq_environment : list (str * str);
  sq_container_mode : bool;
  sq_resolved_image : option str }.

Record RepoSetupOutcome := {
  so_requested : bool;
  so_setup_isolation : option str;
  so_terminal_result : option VerdictResult }.

Section Setup.
Context (q : RepoSetupRequest) (strict_harness : bool).

Definition setup_terminal (diagnostics outcome : str) (setup_isolation : option str) (extra : list (str * value))
  : RepoSetupOutcome :=
  {| so_requested := true; so_setup_isolation := setup_isolation;
     so_terminal_result := Some (failed_result (dec 0 1) diagnostics
       ([item "files_changed" (w_strs (sq_files_changed q)); item "outcome" (VStr outcome);
         item "setup_isolation" (w_str setup_isolation)] ++ extra)) |}.

Definition setup_evidence (delivered : str) (note : option str) : P unit :=
  modify (fun t => with_setup_evidence t (_phase_isolation_evidence v delivered (sq_resolved_image q) note)).

Definition setup_state (started : bool) : P unit :=
  modify (fun t => if started then with_state t (u "started_incomplete") else t).

Definition unavailable_payload : value :=
  VDict (dict_of [("requested", VStr (vc_isolation v)); ("delivered", VStr (u "unavailable"));
                  ("image_digest", w_str (sq_resolved_image q)); ("network", VStr (vc_docker_network v));
                  ("runtime", w_str (vc_docker_runtime v))]).

Definition _command_not_found (setup_tokens : list str) (setup_in_container : bool) : P RepoSetupOutcome :=
  setup_evidence (if setup_in_container then u "unavailable" else u "not_run") None ;!
  let finish diagnostics :=
    vret (setup_terminal diagnostics
      (if setup_in_container then u "isolation_unavailable" else u "setup_failed")
      (if setup_in_container then Some (u "unavailable") else None)
      [item "isolation_evidence" (if setup_in_container then unavailable_payload else VNone)]) in
  if setup_in_container then
    finish (vc_isolation v ++ u " isolation requested but the docker CLI was not found while starting setup_command")
  else match setup_tokens with
       | [] => raise
       | t :: _ => finish (u "setup command not found: " ++ py_repr t)
       end.

(** [_PreparedRepoSetup]: what will run, and under which isolation. *)
Inductive prepared_setup :=
| InContainer (cmd : list str) (name : str)
| OnHost (cmd : list str).

Definition _prepare_setup_execution (setup_tokens : list str) (setup_in_container : bool)
  : P (option prepared_setup) :=
  if setup_in_container then
    let! token := ask ContainerToken as_text in
    let name := docker_container_name (u "setup") token in
    match _docker_command judge_user v (sq_resolved_image q) setup_tokens (sq_candidate_copy q) None name [] true None with
    | None => raise
    | Some cmd => vret (Some (InContainer cmd name))
    end
  else
    let! resolved := ask (ResolveHostCommand setup_tokens (sq_candidate_copy q) (sq_environment q)) as_command in
    vret (option_map OnHost resolved).

Definition prepared_isolation (setup_in_container : bool) : str :=
  if setup_in_container then vc_isolation v
  else if sq_container_mode q then u "subprocess_host_opt_in" else u "subprocess".

Definition run_setup (prepared : prepared_setup) : P (run_error + process) :=
  match prepared with
  | InContainer cmd name => ask (RunDocker SetupPhase cmd name) as_process
  | OnHost cmd =>
      ask (RunHost SetupPhase (host_process cmd (sq_candidate_copy q) (sq_environment q) strict_harness)) as_process
  end.

(** The exceptions of the setup process, in the order of the handlers. *)
Definition setup_failure (e : run_error) (setup_tokens : list str) (setup_in_container : bool)
  : P RepoSetupOutcome :=
  let setup_isolation := prepared_isolation setup_in_container in
  let delivered docker_failure started :=
    if docker_failure && started then vc_isolation v
    else if negb started then u "not_run" else setup_isolation in
  let reported docker_failure started :=
    if docker_failure && started then Some (vc_isolation v)
    else if negb started then None else Some setup_isolation in
  match e with
  | DockerRunTimeout started =>
      setup_evidence (if started then vc_isolation v else u "not_run")
        (if started then None else Some (u "docker client timed out before container start was proven")) ;!
      setup_state started ;!
      vret (setup_terminal
        (if started then u "setup command timed out" ++ after_seconds (vc_timeout v)
         else vc_isolation v ++ u " setup isolation did not start: docker client timed out" ++ after_seconds (vc_timeout v))
        (if started then u "setup_timeout" else u "isolation_unavailable")
        (if started then Some (vc_isolation v) else None)
        [item "elapsed" (VInt (vc_timeout v))])
  | ProcessOutputLimitExceeded docker started text =>
      setup_state started ;!
      setup_evidence (delivered docker started)
        (if started then None
         else Some (if docker then u "docker client output limit was reached before container start was proven"
                    else u "output limit was reached before target start was proven")) ;!
      vret (setup_terminal (u "setup command output was rejected: " ++ text)
        (if started then u "setup_output_limit" else u "isolation_unavailable") (reported docker started) [])
  | ProcessContainmentError docker started text =>
      setup_state started ;!
      setup_evidence (delivered docker started)
        (Some (if docker then u "docker container cleanup was not proven"
               else if started then u "subprocess cleanup was not proven" else u "target process did not start")) ;!
      vret (setup_terminal (u "setup command containment failed: " ++ text)
        (if started then u "runtime_containment_error" else u "isolation_unavailable") (reported docker started) [])
  | TimeoutExpired started =>
      setup_state started ;!
      setup_evidence (if started then setup_isolation else u "not_run")
        (if started then None else Some (u "target exec was not reached before launcher timeout")) ;!
      vret (setup_terminal
        ((if started then u "setup command timed out" else u "setup command target did not start before timeout")
         ++ after_seconds (vc_timeout v))
        (if started then u "setup_timeout" else u "isolation_unavailable")
        (if started then Some setup_isolation else None)
        [item "elapsed" (VInt (vc_timeout v))])
  | FileNotFoundError => _command_not_found setup_tokens setup_in_container
  | TargetExecFailed type_name text =>
      setup_evidence (if setup_in_container then u "unavailable" else u "not_run")
        (Some (if setup_in_container then u "docker client exec failed before setup isolation start"
               else u "setup command exec failed before target start")) ;!
      let finish head :=
        vret (setup_terminal (head ++ u ": " ++ type_name ++ u ": " ++ text)
          (if setup_in_container then u "isolation_unavailable" else u "setup_failed")
          (if setup_in_container then Some (u "unavailable") else None)
          [item "isolation_evidence" (if setup_in_container then unavailable_payload else VNone)]) in
      if setup_in_container then finish (vc_isolation v ++ u " setup isolation could not start")
      else match setup_tokens with
           | [] => raise
           | t :: _ => finish (u "setup command could not start: " ++ py_repr t)
           end
  end.

(** A setup process that ended. *)
Definition setup_ended (p : process) (setup_before : path_states) (setup_in_container : bool) : P RepoSetupOutcome :=
  let setup_isolation := prepared_isolation setup_in_container in
  if negb (ps_target_started p) then
    setup_evidence (u "not_run") (Some (u "trusted resource-limit launcher failed before target exec")) ;!
    vret (setup_terminal (u "setup command target did not start: " ++ distilled p)
      (u "isolation_unavailable") None [])
  else if setup_in_container && (ps_returncode p =? 125) then
    setup_evidence (u "unavailable") None ;!
    vret (setup_terminal
      (u "the " ++ vc_isolation v ++ u " setup container could not be started (docker exit 125): " ++ distilled p)
      (u "isolation_unavailable") (Some (u "unavailable")) [item "isolation_evidence" unavailable_payload])
  else
    setup_state true ;!
    setup_evidence setup_isolation None ;!
    if negb (ps_returncode p =? 0) then
      vret (setup_terminal
        (u "setup command failed (exit " ++ str_of_Z (ps_returncode p) ++ u ")"
         ++ (if setup_in_container
             then u " (setup ran inside the container: the image must contain the setup tool, and --docker-network none blocks registries)"
             else []) ++ u ": " ++ distilled p)
        (u "setup_failed") (Some setup_isolation) [])
    else
      let! after := ask (CaptureFidelity (sq_candidate_copy q) (vc_setup_output_globs v) (Some setup_before)) as_snapshot in
      match after with
      | inl exc =>
          vret (setup_terminal (u "setup fidelity verification failed: " ++ exc) (u "setup_failed")
            (Some setup_isolation) [])
      | inr setup_after =>
          match setup_fidelity_changes setup_before setup_after with
          | [] => vret {| so_requested := true; so_setup_isolation := Some setup_isolation; so_terminal_result := None |}
          | changes =>
              vret (setup_terminal
                (decode_literal (u "setup_command modified the judged source/harness outside declared setup outputs — refusing to run a suite against a tree different from the candidate: ")
                 ++ py_join (u ", ") (firstn 20 changes))
                (u "setup_failed") (Some setup_isolation) [item "setup_fidelity_changes" (w_strs changes)])
          end
      end.

Definition setup_words (c : command) : list str := match c with CmdStr s => py_split s | CmdList l => l end.

Definition execute_repo_setup : P RepoSetupOutcome :=
  match sq_configured_command q with
  | Some c =>
      if negb (cmd_truthy c) then vret {| so_requested := false; so_setup_isolation := None; so_terminal_result := None |}
      else
        modify (fun t => with_phase t (u "setup")) ;!
        let setup_tokens := setup_words c in
        let setup_in_container := sq_container_mode q && negb (vc_trust_setup_on_host v) in
        let! prepared := _prepare_setup_execution setup_tokens setup_in_container in
        match prepared with
        | None => _command_not_found setup_tokens setup_in_container
        | Some prepared =>
            let! before := ask (CaptureFidelity (sq_candidate_copy q) (vc_setup_output_globs v) None) as_snapshot in
            match before with
            | inl exc =>
                vret (setup_terminal (u "setup fidelity snapshot failed: " ++ exc) (u "setup_failed") None [])
            | inr setup_before =>
                let! r := run_setup prepared in
                match r with
                | inl e => setup_failure e setup_tokens setup_in_container
                | inr p => setup_ended p setup_before setup_in_container
                end
            end
        end
  | None => vret {| so_requested := false; so_setup_isolation := None; so_terminal_result := None |}
  end.
End Setup.

(** ** The repository suite (repo_suite.py) *)

Record RepoSuiteExecutionRequest := {
  xq_candidate_copy : str;
  xq_workdir : str;
  xq_files_changed : list str;
  xq_environment : list (str * str);
  xq_container_mode : bool;
  xq_resolved_image : option str;
  xq_pack_configured : bool;
  xq_setup_isolation : option str;
  xq_strict_harness : bool }.

Record RepoSuiteCompleted := {
  sc_report_path : str;
  sc_returncode : Z;
  sc_stdout : str;
  sc_stderr : str;
  sc_report_expected : bool;
  sc_elapsed_seconds : float }.

Section Suite.
Context (q : RepoSuiteExecutionRequest) (base_command : list str) (runtime_evidence : list (str * value)).

(** A terminal result; the runtime evidence is spread last. *)
Definition suite_terminal (diagnostics : str) (artifact : list (str * value)) : VerdictResult + RepoSuiteCompleted :=
  inl (failed_result (dec 0 1) diagnostics (artifact ++ runtime_evidence)).

Definition suite_files : str * value := item "files_changed" (w_strs (xq_files_changed q)).
Definition suite_setup_isolation : str * value := item "setup_isolation" (w_str (xq_setup_isolation q)).
Definition suite_observation (delivered : str) (note : option str) : IsolationObservation :=
  _phase_isolation_evidence v delivered (xq_resolved_image q) note.
Definition suite_evidence (o : IsolationObservation) : P unit := modify (fun t => with_suite_evidence t o).
Definition suite_started (started : bool) (delivered : str) : P unit :=
  modify (fun t => if started then with_suite_started t delivered else t).
Definition payload_of (o : IsolationObservation) : value := VDict (isolation_observation_payload o).

Definition start_suite : P (str * (run_error + process) * bool) :=
  if xq_container_mode q then
    _run_docker SuitePhase (xq_resolved_image q) base_command (xq_candidate_copy q) (xq_workdir q) None
  else
    let report_path := path_join (xq_workdir q) (u "judge-result.xml") in
    let '(cmd, report_expected, report_env) := instrument_command base_command report_path in
    let! r := run_host SuitePhase cmd (xq_candidate_copy q) (env_merge (xq_environment q) report_env)
                (xq_strict_harness q) in
    vret (report_path, r, report_expected).

(** The exceptions of the suite, in the order of the handlers. *)
Definition suite_failure (e : run_error) : P (VerdictResult + RepoSuiteCompleted) :=
  let container := xq_container_mode q in
  let delivered docker started :=
    if docker && started then vc_isolation v else if negb started then u "not_run" else u "subprocess" in
  match e with
  | DockerRunTimeout started =>
      let evidence := suite_observation (if started then vc_isolation v else u "not_run")
        (if started then None else Some (u "docker client timed out before container start was proven")) in
      suite_evidence evidence ;!
      suite_started started (vc_isolation v) ;!
      vret (suite_terminal
        (if started then u "test suite timed out" ++ after_seconds (vc_timeout v)
         else vc_isolation v ++ u " isolation did not start: docker client timed out" ++ after_seconds (vc_timeout v))
        [item "elapsed" (VInt (vc_timeout v)); suite_files;
         item "outcome" (VStr (if started then u "test_timeout" else u "isolation_unavailable"));
         item "isolation_evidence" (payload_of evidence)])
  | ProcessOutputLimitExceeded docker started text =>
      suite_started started (delivered docker started) ;!
      suite_evidence (suite_observation (delivered docker started)
        (if started then None
         else Some (if docker then u "docker client output limit was reached before container start was proven"
                    else u "output limit was reached before target start was proven"))) ;!
      vret (suite_terminal (u "test suite output was rejected: " ++ text)
        [suite_files; item "outcome" (VStr (if started then u "test_output_limit" else u "isolation_unavailable"));
         suite_setup_isolation])
  | ProcessContainmentError docker started text =>
      suite_started started (delivered docker started) ;!
      suite_evidence (suite_observation (delivered docker started)
        (Some (if docker then u "docker container cleanup was not proven"
               else if started then u "subprocess cleanup was not proven" else u "target process did not start"))) ;!
      vret (suite_terminal (u "test suite containment failed: " ++ text)
        [suite_files;
         item "outcome" (VStr (if started then u "runtime_containment_error" else u "isolation_unavailable"));
         suite_setup_isolation])
  | TimeoutExpired started =>
      suite_started started (u "subprocess") ;!
      suite_evidence (suite_observation (if started then u "subprocess" else u "not_run")
        (if started then None else Some (u "target exec was not reached before launcher timeout"))) ;!
      vret (suite_terminal
        ((if started then u "test suite timed out" else u "test suite target did not start before timeout")
         ++ after_seconds (vc_timeout v))
        [item "elapsed" (VInt (vc_timeout v)); suite_files;
         item "outcome" (VStr (if started then u "test_timeout" else u "isolation_unavailable"))])
  | FileNotFoundError =>
      let evidence := suite_observation (if container then u "unavailable" else u "not_run") None in
      suite_evidence evidence ;!
      let finish diagnostics :=
        vret (suite_terminal diagnostics
          [suite_files;
           item "outcome" (VStr (if container then u "isolation_unavailable" else u "test_command_unavailable"));
           suite_setup_isolation;
           item "isolation_evidence" (if container then payload_of evidence else VNone)]) in
      if container then finish (vc_isolation v ++ u " isolation requested but the docker CLI was not found")
      else match base_command with
           | [] => raise
           | c :: _ => finish (u "test command not found: " ++ py_repr c)
           end
  | TargetExecFailed type_name text =>
      let evidence := suite_observation (if container then u "unavailable" else u "not_run")
        (Some (if container then u "docker client exec failed before isolation start"
               else u "test command exec failed before target start")) in
      suite_evidence evidence ;!
      let finish head :=
        vret (suite_terminal (head ++ u ": " ++ type_name ++ u ": " ++ text)
          [suite_files;
           item "outcome" (VStr (if container then u "isolation_unavailable" else u "test_command_unavailable"));
           suite_setup_isolation;
           item "isolation_evidence" (if container then payload_of evidence else VNone)]) in
      if container then finish (vc_isolation v ++ u " isolation could not start")
      else match base_command with
           | [] => raise
           | c :: _ => finish (u "test command could not start: " ++ py_repr c)
           end
  end.

(** A suite process that ended. *)
Definition suite_ended (report_path : str) (p : process) (report_expected : bool) (elapsed : float)
  : P (VerdictResult + RepoSuiteCompleted) :=
  if negb (ps_target_started p) then
    suite_evidence (suite_observation (u "not_run")
      (Some (u "trusted resource-limit launcher failed before target exec"))) ;!
    vret (suite_terminal (u "test suite target did not start: " ++ distilled p)
      [item "elapsed" (VFloat elapsed); suite_files; item "outcome" (VStr (u "isolation_unavailable"));
       suite_setup_isolation])
  else if xq_container_mode q && (ps_returncode p =? 125) then
    let evidence := suite_observation (u "unavailable") None in
    suite_evidence evidence ;!
    vret (suite_terminal
      (u "the " ++ vc_isolation v ++ u " suite container could not be started (docker exit 125): " ++ distilled p)
      [suite_files; item "outcome" (VStr (u "isolation_unavailable")); suite_setup_isolation;
       item "isolation_evidence" (payload_of evidence)])
  else
    let delivered := if xq_container_mode q then vc_isolation v else u "subprocess" in
    modify (fun t => with_suite_completed t (suite_observation delivered None) (xq_container_mode q)
                       (if xq_pack_configured q then u "started_incomplete" else u "completed") delivered) ;!
    vret (inr {| sc_report_path := report_path; sc_returncode := ps_returncode p; sc_stdout := ps_stdout p;
                 sc_stderr := ps_stderr p; sc_report_expected := report_expected; sc_elapsed_seconds := elapsed |}).

Definition execute_repo_suite : P (VerdictResult + RepoSuiteCompleted) :=
  modify (fun t => with_phase t (u "repo_suite")) ;!
  let! started_at := ask PerfCounter as_float in
  let! ' (report_path, r, report_expected) := start_suite in
  match r with
  | inl e => suite_failure e
  | inr p =>
      let! now := ask PerfCounter as_float in
      suite_ended report_path p report_expected (fsub now started_at)
  end.
End Suite.

(** ** Reports *)

Context (et_fromstring : str -> option element).

(** [hashlib.sha256(text.encode("utf-8")).hexdigest()] *)
Definition text_digest (text : str) : P str :=
  match utf8 text with Some b => vret (sha256_hex b) | None => raise end.

Definition as_report (r : reply W) : option (option str) := match r with RText t => Some t | _ => None end.
Definition as_listing (r : reply W) : option (option (list dir_entry)) :=
  match r with RListing l => Some l | _ => None end.

(** [read_report(path) or ""] *)
Definition read_report (path : str) : P str :=
  let! t := ask (ReadReport path) as_report in vret (default [] t).

Definition interpret_repo_suite (completed : RepoSuiteCompleted) (strict_harness : bool) : P RepoPhaseResult :=
  let! junit_text := read_report (sc_report_path completed) in
  let evidence junit junit_sha256 junit_digest_format :=
    vret (evaluate_repo_phase
      {| ev_returncode := sc_returncode completed; ev_junit := junit;
         ev_report_expected := sc_report_expected completed; ev_stdout := sc_stdout completed;
         ev_stderr := sc_stderr completed; ev_junit_text := junit_text;
         ev_junit_sha256 := junit_sha256; ev_junit_digest_format := junit_digest_format |} strict_harness) in
  match parse_junit_xml et_fromstring junit_text with
  | Some junit =>
      if is_empty junit_text then evidence (Some junit) None None
      else
        let! digest := text_digest junit_text in
        evidence (Some junit) (Some digest) (Some JUNIT_XML_DIGEST_FORMAT)
  | None =>
      let! listing := ask (ListReports (sc_report_path completed ++ u ".d")) as_listing in
      match parse_junit_dir_with_digest et_fromstring listing with
      | Some (junit, digest) => evidence (Some junit) (Some digest) (Some JUNIT_REPORT_SET_DIGEST_FORMAT)
      | None => evidence None None None
      end
  end.

(** ** Intake of the verifier pack (repo_pack_intake.py) *)

Record RepoPackIntakeRequest := {
  iq_candidate_copy : str;
  iq_files_changed : list str;
  iq_pack_dir : str;
  iq_expected_pack_sha256 : str }.

Definition reserved_mount_name : str := "evoguard_verifier_pack".

Inductive intake_failure_kind :=
| reserved_mount_collision | pack_invalid | pack_identity_missing | pack_identity_mismatch.

Record RepoPackIntakeFailure := {
  if_kind : intake_failure_kind;
  if_score : float;
  if_diagnostics : str }.

Record RepoPackIntakeResult := {
  ir_pack_workdir : option str;
  ir_pack_snapshot : option str;
  ir_pack_sha256 : option str;
  ir_pack_manifest : option dict;
  ir_failure : option RepoPackIntakeFailure }.

Definition intake_identity (r : RepoPackIntakeResult) : option (str * option dict) :=
  match ir_pack_sha256 r with Some sha => Some (sha, ir_pack_manifest r) | None => None end.

Definition no_pack (failure : option RepoPackIntakeFailure) : RepoPackIntakeResult :=
  {| ir_pack_workdir := None; ir_pack_snapshot := None; ir_pack_sha256 := None; ir_pack_manifest := None;
     ir_failure := failure |}.

(** The identity of the snapshot, or the message of a [PackManifestError]. *)
Definition as_pack (r : reply W) : option (str + str * option dict) :=
  match r with RPack i => Some (inr i) | RRefused m => Some (inl m) | _ => None end.

(** The pack workspace is registered for cleanup as soon as it is allocated: the
    state of the intake is the registered root. *)
Definition intake_repo_pack (q : RepoPackIntakeRequest)
  : M (op W) (reply W) (option str) VerdictResult RepoPackIntakeResult :=
  let expected := iq_expected_pack_sha256 q in
  if negb (is_empty expected) && is_empty (iq_pack_dir q) then
    vret (no_pack (Some {| if_kind := pack_identity_missing; if_score := dec 0 1;
      if_diagnostics := u "an expected verifier-pack SHA-256 was configured but no verifier pack was supplied" |}))
  else if is_empty (iq_pack_dir q) then vret (no_pack None)
  else
    let! collision := ask (LExists (path_join (iq_candidate_copy q) reserved_mount_name)) as_bool in
    if collision : bool then
      vret (no_pack (Some {| if_kind := reserved_mount_collision; if_score := dec 5 2;
        if_diagnostics := decode_literal (u "the repo already contains 'evoguard_verifier_pack/' — the judge-owned pack mount point must not exist in the tree") |}))
    else
      let! pack_workdir := ask (AllocateWorkspace (u "evo_pack_snapshot_")) as_text in
      modify (fun _ => Some pack_workdir) ;!
      let pack_snapshot := path_join pack_workdir (u "pack") in
      let! taken := ask (SnapshotPack (iq_pack_dir q) pack_snapshot) as_pack in
      match taken with
      | inl exc =>
          vret {| ir_pack_workdir := Some pack_workdir; ir_pack_snapshot := Some pack_snapshot;
                  ir_pack_sha256 := None; ir_pack_manifest := None;
                  ir_failure := Some {| if_kind := pack_invalid; if_score := dec 0 1; if_diagnostics := exc |} |}
      | inr (pack_sha256, pack_manifest) =>
          vret {| ir_pack_workdir := Some pack_workdir; ir_pack_snapshot := Some pack_snapshot;
                  ir_pack_sha256 := Some pack_sha256; ir_pack_manifest := pack_manifest;
                  ir_failure :=
                    if negb (is_empty expected) && negb (py_lower pack_sha256 =s? expected) then
                      Some {| if_kind := pack_identity_mismatch; if_score := dec 0 1;
                              if_diagnostics := u "verifier-pack identity mismatch: expected " ++ expected
                                                ++ u ", observed " ++ pack_sha256 |}
                    else None |}
      end.

Definition rejection_artifact (q : RepoPackIntakeRequest) (r : RepoPackIntakeResult) (f : RepoPackIntakeFailure)
  : list (str * value) :=
  let files := item "files_changed" (w_strs (iq_files_changed q)) in
  let mismatch := [item "outcome" (VStr (u "pack_identity_mismatch"));
                   item "expected_verifier_pack_sha256" (VStr (iq_expected_pack_sha256 q))] in
  match if_kind f with
  | reserved_mount_collision => [files]
  | pack_invalid => [files; item "outcome" (VStr (u "pack_invalid"))]
  | pack_identity_missing => files :: mismatch
  | pack_identity_mismatch =>
      files :: mismatch ++ [item "verifier_pack_sha256" (w_str (ir_pack_sha256 r));
                            item "verifier_pack_manifest" (w_dict (ir_pack_manifest r))]
  end.

(** ** The verifier pack (repo_pack.py) *)

Record RepoPackExecutionRequest := {
  kq_candidate_copy : str;
  kq_workdir : str;
  kq_pack_snapshot : str;
  kq_files_changed : list str;
  kq_environment : list (str * str);
  kq_container_mode : bool;
  kq_resolved_image : option str;
  kq_setup_isolation : option str;
  kq_suite_isolation_evidence : IsolationObservation;
  kq_strict_harness : bool }.

Record RepoPackCompleted := {
  kc_report_path : str;
  kc_returncode : Z;
  kc_stdout : str;
  kc_stderr : str;
  kc_report_expected : bool }.

Section PackRun.
Context (q : RepoPackExecutionRequest) (runtime_evidence : list (str * value)).

Definition pack_terminal (diagnostics : str) (artifact : list (str * value)) : VerdictResult + RepoPackCompleted :=
  inl (failed_result (dec 0 1) diagnostics (artifact ++ runtime_evidence)).

(** The head of every terminal artifact of the phase. *)
Definition pack_artifact (outcome : str) : list (str * value) :=
  [item "files_changed" (w_strs (kq_files_changed q)); item "outcome" (VStr outcome);
   item "setup_isolation" (w_str (kq_setup_isolation q))].
Definition suite_payload : str * value :=
  item "isolation_evidence" (VDict (isolation_observation_payload (kq_suite_isolation_evidence q))).
Definition suite_payload_in_container : str * value :=
  if kq_container_mode q then suite_payload else item "isolation_evidence" VNone.

Definition pack_evidence (delivered : str) (note : option str) : P unit :=
  modify (fun t => with_pack_evidence t (_phase_isolation_evidence v delivered (kq_resolved_image q) note)).
Definition pack_started (started : bool) : P unit :=
  modify (fun t => if started then with_pack_started t else t).

Definition pack_command : list str :=
  let pack_test_root := if kq_container_mode q then u "/verifier-pack" else kq_pack_snapshot q in
  (if kq_container_mode q then u "python" else python_executable)
  :: us ["-m"; "pytest"; "-q"; "--color=no"; "-p"; "no:cacheprovider"]
  ++ [u "--confcutdir=" ++ pack_test_root; pack_test_root].

Definition start_pack (pack_phase : str) : P (str * (run_error + process) * bool) :=
  if kq_container_mode q then
    _run_docker PackPhase (kq_resolved_image q) pack_command (kq_candidate_copy q) pack_phase (Some (kq_pack_snapshot q))
  else
    let report_path := path_join pack_phase (u "judge-result.xml") in
    let '(cmd, report_expected, report_env) := instrument_command pack_command report_path in
    let! r := run_host PackPhase cmd (kq_candidate_copy q) (env_merge (kq_environment q) report_env)
                (kq_strict_harness q) in
    vret (report_path, r, report_expected).

Definition pack_failure (e : run_error) : P (VerdictResult + RepoPackCompleted) :=
  let container := kq_container_mode q in
  let delivered docker started :=
    if docker && started then vc_isolation v else if negb started then u "not_run" else u "subprocess" in
  match e with
  | DockerRunTimeout started =>
      pack_evidence (if started then vc_isolation v else u "not_run")
        (if started then None else Some (u "docker client timed out before container start was proven")) ;!
      pack_started started ;!
      vret (pack_terminal
        (if started then u "verifier pack timed out" ++ after_seconds (vc_timeout v)
         else vc_isolation v ++ u " verifier-pack isolation did not start: docker client timed out"
              ++ after_seconds (vc_timeout v))
        (pack_artifact (if started then u "test_timeout" else u "isolation_unavailable") ++ [suite_payload]))
  | ProcessOutputLimitExceeded docker started text =>
      pack_started started ;!
      pack_evidence (delivered docker started)
        (if started then None
         else Some (if docker then u "docker client output limit was reached before container start was proven"
                    else u "output limit was reached before target start was proven")) ;!
      vret (pack_terminal (u "verifier pack output was rejected: " ++ text)
        (pack_artifact (if started then u "test_output_limit" else u "isolation_unavailable")
         ++ [suite_payload_in_container]))
  | ProcessContainmentError docker started text =>
      pack_started started ;!
      pack_evidence (delivered docker started)
        (Some (if docker then u "docker container cleanup was not proven"
               else if started then u "subprocess cleanup was not proven" else u "target process did not start")) ;!
      vret (pack_terminal (u "verifier pack containment failed: " ++ text)
        (pack_artifact (if started then u "runtime_containment_error" else u "isolation_unavailable")
         ++ [suite_payload_in_container]))
  | TimeoutExpired started =>
      pack_started started ;!
      pack_evidence (if started then u "subprocess" else u "not_run")
        (if started then None else Some (u "target exec was not reached before launcher timeout")) ;!
      vret (pack_terminal
        ((if started then u "verifier pack timed out" else u "verifier pack target did not start before timeout")
         ++ after_seconds (vc_timeout v))
        (pack_artifact (if started then u "test_timeout" else u "isolation_unavailable")
         ++ [suite_payload_in_container]))
  | FileNotFoundError =>
      pack_evidence (if container then u "unavailable" else u "not_run") None ;!
      vret (pack_terminal
        (if container then vc_isolation v ++ u " isolation requested but the docker CLI was not found"
         else u "verifier pack needs pytest/python in the judge environment")
        (pack_artifact (if container then u "isolation_unavailable" else u "test_command_unavailable")
         ++ [suite_payload_in_container]))
  | TargetExecFailed type_name text =>
      pack_evidence (if container then u "unavailable" else u "not_run")
        (Some (if container then u "docker client exec failed before verifier-pack isolation start"
               else u "verifier-pack command exec failed before target start")) ;!
      vret (pack_terminal
        ((if container then vc_isolation v ++ u " verifier-pack isolation could not start"
          else u "verifier-pack command could not start") ++ u ": " ++ type_name ++ u ": " ++ text)
        (pack_artifact (if container then u "isolation_unavailable" else u "test_command_unavailable")
         ++ [suite_payload_in_container]))
  end.

Definition pack_ended (report_path : str) (p : process) (report_expected : bool)
  : P (VerdictResult + RepoPackCompleted) :=
  if negb (ps_target_started p) then
    pack_evidence (u "not_run") (Some (u "trusted resource-limit launcher failed before target exec")) ;!
    vret (pack_terminal (u "verifier pack target did not start: " ++ distilled p)
      (pack_artifact (u "isolation_unavailable")))
  else if kq_container_mode q && (ps_returncode p =? 125) then
    pack_evidence (u "unavailable") None ;!
    vret (pack_terminal
      (u "the " ++ vc_isolation v ++ u " verifier-pack container could not be started (docker exit 125): " ++ distilled p)
      (pack_artifact (u "isolation_unavailable") ++ [suite_payload]))
  else
    let delivered := if kq_container_mode q then vc_isolation v else u "subprocess" in
    modify (fun t => with_pack_completed t (_phase_isolation_evidence v delivered (kq_resolved_image q) None)) ;!
    vret (inr {| kc_report_path := report_path; kc_returncode := ps_returncode p; kc_stdout := ps_stdout p;
                 kc_stderr := ps_stderr p; kc_report_expected := report_expected |}).

Definition execute_repo_pack : P (VerdictResult + RepoPackCompleted) :=
  modify (fun t => with_phase t (u "verifier_pack")) ;!
  let pack_phase := path_join (kq_workdir q) (u "pack-phase") in
  ask (MakeDirs pack_phase) as_unit ;!
  let! ' (report_path, r, report_expected) := start_pack pack_phase in
  match r with
  | inl e => pack_failure e
  | inr p => pack_ended report_path p report_expected
  end.
End PackRun.

Definition interpret_repo_pack (completed : RepoPackCompleted) : P PackPhaseResult :=
  let! junit_text := read_report (kc_report_path completed) in
  let junit := parse_junit_xml et_fromstring junit_text in
  let evidence junit_sha256 junit_digest_format :=
    vret (evaluate_pack_phase
      {| ev_returncode := kc_returncode completed; ev_junit := junit;
         ev_report_expected := kc_report_expected completed; ev_stdout := kc_stdout completed;
         ev_stderr := kc_stderr completed; ev_junit_text := junit_text;
         ev_junit_sha256 := junit_sha256; ev_junit_digest_format := junit_digest_format |}) in
  if is_empty junit_text then evidence None None
  else
    let! digest := text_digest junit_text in
    evidence (Some digest) (Some JUNIT_XML_DIGEST_FORMAT).
End Phases.
