(* ===== verification/RepoVerifier.v ===== *)
(** RepoVerifier (verifiers/repo_verifier.py): one verification of a candidate,
    from the binding of the declared harness inputs to the cleanup of the
    workspaces, over the operations of [RepoOps] and the phases of [RepoRun]. *)
From S2P Require Export Materialize RepoRun.
Local Open Scope Z_scope.

(** ** Construction *)

Inductive init_error := UnsupportedIsolation | BadHarness (e : HarnessInputPolicyError) | SetupHidesHarness (l : list str).

(** [RepoVerifier.__init__] on its arguments, given as the fields. *)
Definition init_verifier `{UnicodeDB} (a : RepoVerifier) : result init_error RepoVerifier :=
  guard* str_in (vc_isolation a) (us ["subprocess"; "docker"; "gvisor"]) else UnsupportedIsolation in
  match normalize_harness_inputs (vc_harness_inputs a) with
  | Err e => Err (BadHarness e)
  | Ok harness_inputs =>
      match setup_output_harness_conflicts harness_inputs (vc_setup_output_globs a) with
      | Err e => Err (BadHarness e)
      | Ok (c :: l) => Err (SetupHidesHarness (c :: l))
      | Ok [] =>
          Ok {| vc_timeout := vc_timeout a; vc_mem_limit_mb := vc_mem_limit_mb a;
                vc_test_command := vc_test_command a; vc_setup_command := vc_setup_command a;
                vc_protected := vc_protected a; vc_allow := vc_allow a; vc_allow_new_tests := vc_allow_new_tests a;
                vc_isolation := vc_isolation a; vc_docker_image := vc_docker_image a;
                vc_docker_network := vc_docker_network a;
                vc_docker_runtime :=
                  match vc_docker_runtime a with
                  | Some (c :: r) => Some (c :: r)
                  | _ => if vc_isolation a =s? u "gvisor" then Some (u "runsc") else None
                  end;
                vc_trust_setup_on_host := vc_trust_setup_on_host a;
                vc_setup_output_globs := vc_setup_output_globs a; vc_strict_harness := vc_strict_harness a;
                vc_harness_inputs := harness_inputs;
                vc_require_suite_continuity := vc_require_suite_continuity a;
                vc_require_assert_liveness := vc_require_assert_liveness a;
                vc_require_structured_verdict := vc_require_structured_verdict a |}
      end
  end.

(** ** The session *)

(** The trace, the sticky facts of the result, and the workspaces owned by the
    judgment (RepositoryWorkspaceLifetime). *)
Record session := {
  se_trace : RepoExecutionTrace;
  se_projection : RepoResultProjection;
  se_candidate_root : option str;
  se_pack_root : option str }.

Definition new_session : session :=
  {| se_trace := new_trace; se_projection := new_projection; se_candidate_root := None; se_pack_root := None |}.
Definition set_trace (s : session) (t : RepoExecutionTrace) : session :=
  {| se_trace := t; se_projection := se_projection s; se_candidate_root := se_candidate_root s;
     se_pack_root := se_pack_root s |}.
Definition set_projection (s : session) (p : RepoResultProjection) : session :=
  {| se_trace := se_trace s; se_projection := p; se_candidate_root := se_candidate_root s;
     se_pack_root := se_pack_root s |}.
Definition set_candidate_root (s : session) (r : str) : session :=
  {| se_trace := se_trace s; se_projection := se_projection s; se_candidate_root := Some r;
     se_pack_root := se_pack_root s |}.
Definition set_pack_root (s : session) (r : option str) : session :=
  {| se_trace := se_trace s; se_projection := se_projection s; se_candidate_root := se_candidate_root s;
     se_pack_root := r |}.

(** ** Results that end a verification *)

(** [str(exc)] of the errors of a patch. *)
Definition patch_error_text (e : patch_error) : str :=
  match e with
  | EmptySearch => u "ValueError: search string cannot be empty"
  | NoMatchError => u "NoMatchError: search string not found in source"
  | AmbiguousMatchError n =>
      u "AmbiguousMatchError: search string found " ++ str_of_Z (Z.of_nat n) ++ u " times; count=1 requires unique anchor"
  | InvalidCount n => u "ValueError: invalid count: " ++ str_of_Z n
  end.

Definition apply_error_text (e : apply_error) : str :=
  match e with
  | EditSourceUnreadable path why =>
      decode_literal (u "edit source could not be read safely — refusing to treat it as absent: ") ++ path
      ++ u " (" ++ why ++ u ")"
  | EditTargetEscapes path why =>
      decode_literal (u "edit target escapes the repo copy or changed inside it — refusing to write: ") ++ path
      ++ u " (" ++ why ++ u ")"
  | PatchTargetMissing path =>
      u "PATCH target not found: " ++ path ++ decode_literal (u " — use a <<<FILE>>> block to create new files")
  | PatchRefused path why =>
      u "PATCH did not apply to " ++ path ++ u ": " ++ patch_error_text why
      ++ decode_literal (u " — copy a unique anchor verbatim from the shown file")
  | ManifestDisappeared path => u "edited package manifest disappeared before verification: " ++ path
  end.

Definition rejection_text (r : rejection) : str :=
  match r with
  | UnsafePath path => u "unsafe path rejected: " ++ path
  | HarnessInput path =>
      u "modifying a policy-bound harness input is forbidden: " ++ path
      ++ decode_literal (u " — fix the source under test, not the command wrapper or its declared dependencies")
  | JudgeConfiguration path =>
      u "modifying the test/build configuration is forbidden: " ++ path
      ++ decode_literal (u " — fix the source under test, not the harness that judges it")
  | JudgingTests path => u "modifying the judging tests is forbidden: " ++ path
  | CiDefinition path =>
      u "modifying the CI workflow / local action that runs the gate is forbidden: " ++ path
      ++ decode_literal (u " — fix the source under test, not the gate that judges it")
  | AutoExecuted path =>
      u "writing an auto-executed judge file is forbidden: " ++ path
      ++ decode_literal (u " — it would run code inside the judge process itself (not the program under test); fix the source instead")
  end.

Definition rejection_result (r : rejection) : VerdictResult :=
  failed_result (dec 5 2) (rejection_text r) [item "files_changed" (w_strs [])].

Definition no_blocks_result : VerdictResult :=
  failed_result (dec 2 2)
    (decode_literal (u "no parseable blocks; expected <<<FILE: path>>> … <<<END FILE>>> or <<<PATCH: path>>> <<<SEARCH>>> … <<<REPLACE>>> … <<<END PATCH>>>"))
    [item "files_changed" (w_strs [])].

(** A tree that is not the one bound before. *)
Definition tree_changed_result (diagnostics : str) (changed changes : list str) (extra : list (str * value))
  : VerdictResult :=
  failed_result (dec 0 1) diagnostics
    ([item "files_changed" (w_strs changed); item "outcome" (VStr (u "candidate_tree_changed"));
      item "tamper" (VBool true); item "candidate_fidelity_changes" (w_strs changes)] ++ extra).

(** [f"{command}"] of a list of words *)
Definition words_repr `{UnicodeDB} (l : list str) : str := u "[" ++ py_join (u ", ") (map py_repr l) ++ u "]".

Section Verify.
Context `{UnicodeDB} {W : Type} `{Workspace W}.
Context (python_executable : str) (judge_user : Z * Z) (et_fromstring : str -> option element).
Context (restore_package_json : option str -> str -> str).
(** The trusted base repository. *)
Context (base : tree).
Context (v : RepoVerifier) (hypothesis : str) (p : RepoProblem).

Abbreviation V A := (M (op W) (reply W) session VerdictResult A).

(** A phase acts on the trace; the intake on the registered pack workspace. *)
Definition on_trace {A} (m : M (op W) (reply W) RepoExecutionTrace VerdictResult A) : V A := fun s =>
  bind (m (se_trace s)) (fun to => Ret (set_trace s (fst to), snd to)).
Definition on_pack_root {A} (m : M (op W) (reply W) (option str) VerdictResult A) : V A := fun s =>
  bind (m (se_pack_root s)) (fun ro => Ret (set_pack_root s (fst ro), snd ro)).
Definition set_execution_phase (x : str) : V unit :=
  modify (fun s => set_trace s (with_phase (se_trace s) x)).

(** An exception passes. *)
Definition lift {E A} (r : result E A) : V A := match r with Ok a => vret a | Err _ => raise end.

(** *** Declared harness inputs *)

Definition effective_harness_inputs : V (list str) :=
  let! inputs := lift (normalize_harness_inputs (vc_harness_inputs v ++ pb_harness_inputs p)) in
  let! conflicts :=
    match inputs with
    | [] => vret []
    | _ => lift (setup_output_harness_conflicts inputs (vc_setup_output_globs v))
    end in
  if negb (is_empty conflicts) then raise
  else
    let! problems := lift (validate_harness_input_files base (pb_repo_path p) inputs) in
    if negb (is_empty problems) then raise else vret inputs.

Definition bind_trusted_harness (inputs : list str) : V path_states :=
  let! taken := ask (CaptureHarness (pb_repo_path p) inputs) as_snapshot in
  match taken with
  | inl exc =>
      refuse (tree_changed_result
        (u "declared harness input integrity could not be bound in the trusted base: " ++ exc) [] inputs [])
  | inr s => vret s
  end.

(** *** Admission *)

Definition admission_settings (inputs : list str) : AdmissionSettings :=
  {| as_deleted_paths := pb_deleted p; as_file_blocks_override := pb_file_blocks p;
     as_target_files := pb_target_files p; as_extra_protected := vc_protected v ++ pb_protected p;
     as_allow := vc_allow v ++ pb_allow p;
     as_allow_new_tests := vc_allow_new_tests v || pb_allow_new_tests p;
     as_strict_harness := vc_strict_harness v || pb_strict_harness p;
     as_harness_inputs := inputs |}.

Definition admit_step (inputs : list str) : V AdmittedRepoCandidate :=
  let! a := lift (admit_repo_candidate base hypothesis (pb_repo_path p) (admission_settings inputs)) in
  match a with
  | AdmittedCandidate c => vret c
  | NoParseableBlocks => refuse no_blocks_result
  | RejectedPath r => refuse (rejection_result r)
  end.

(** *** The candidate copy *)

Definition as_tree (r : reply W) : option W := match r with RTree w => Some w | _ => None end.

(** [materialize_repo_candidate]: the copy, then the edits, whose writes are
    reported by the tree they leave. *)
Definition materialize_step (copy : str) (c : AdmittedRepoCandidate) : V W :=
  let! w := ask (CopyTree (ac_repo_path c) copy) as_tree in
  let '(w, error) := materialize_candidate_edits (fun a b r => apply_patch a b r 1) restore_package_json w
                       (ac_file_blocks c) (ac_patch_blocks c) in
  ask (TreeWritten w) as_unit ;!
  match error with
  | Some e => refuse (failed_result (dec 8 2) (apply_error_text e) [item "files_changed" (w_strs (ac_files_changed c))])
  | None => vret w
  end.

(** *** The verifier pack *)

Definition pack_dir : str := pb_verifier_pack p.
Definition pack_configured : bool := negb (is_empty pack_dir).
Definition expected_pack_sha256 : str := py_lower (pb_expect_verifier_pack_sha256 p).

Definition intake_step (copy : str) (changed : list str) : V (option Pack.RepoPackContinuity) :=
  let q := {| iq_candidate_copy := copy; iq_files_changed := changed; iq_pack_dir := pack_dir;
              iq_expected_pack_sha256 := expected_pack_sha256 |} in
  let! r := on_pack_root (intake_repo_pack q) in
  modify (fun s => match intake_identity r with
                   | Some (sha, manifest) => set_projection s (bind_pack_identity (se_projection s) sha manifest)
                   | None => s
                   end) ;!
  match ir_failure r with
  | Some f => refuse (failed_result (if_score f) (if_diagnostics f) (rejection_artifact q r f))
  | None =>
      match intake_identity r, ir_pack_snapshot r with
      | Some (sha, manifest), Some snapshot =>
          vret (Some (Pack.new_pack_continuity
            {| Pack.pc_pack_snapshot := snapshot;
               Pack.pc_identity := {| Pack.ai_sha256 := sha; Pack.ai_manifest := manifest |} |}))
      | Some _, None => raise
      | None, _ => vret None
      end
  end.

Definition deletion_step (c : AdmittedRepoCandidate) (w : W) : V W :=
  let '(w, error) := apply_repo_candidate_deletions (ac_deleted_paths c) w in
  ask (TreeWritten w) as_unit ;!
  match error with
  | Some (_, exc) =>
      refuse (failed_result (dec 5 2) (u "candidate deletion could not be applied safely: " ++ exc)
        [item "files_changed" (w_strs (ac_files_changed c)); item "files_deleted" (w_strs [])])
  | None => vret w
  end.

(** The copy, before anything runs in it, holds the trusted inputs. *)
Definition bind_candidate_harness (copy : str) (inputs changed : list str) (trusted : path_states) : V unit :=
  let! taken := ask (CaptureHarness copy inputs) as_snapshot in
  match taken with
  | inl exc =>
      refuse (tree_changed_result (u "declared harness input integrity could not be bound before execution: " ++ exc)
                changed inputs [])
  | inr s =>
      match harness_input_snapshot_changes trusted s with
      | [] => vret tt
      | changes =>
          refuse (tree_changed_result
            (u "candidate materialization changed a declared harness input before execution: " ++ py_join (u ", ") changes)
            changed changes [])
      end
  end.

Definition verify_harness_checkpoint (copy : str) (inputs changed : list str) (trusted : path_states)
    (checkpoint : str) (setup_isolation : option str) : V unit :=
  let extra := [item "setup_isolation" (w_str setup_isolation)] in
  let! taken := ask (CaptureHarness copy inputs) as_snapshot in
  match taken with
  | inl exc =>
      refuse (tree_changed_result
        (u "declared harness input integrity could not be proven " ++ checkpoint ++ u ": " ++ exc) changed inputs extra)
  | inr observed =>
      match harness_input_snapshot_changes trusted observed with
      | [] => vret tt
      | changes =>
          refuse (tree_changed_result
            (u "declared harness input changed " ++ checkpoint ++ u ": " ++ py_join (u ", ") changes)
            changed changes extra)
      end
  end.

(** *** Isolation *)

Definition container_mode : bool := container_isolation (vc_isolation v).

Definition isolation_unavailable (diagnostics : str) (changed : list str) (note : option str) : VerdictResult :=
  failed_result (dec 0 1) diagnostics
    [item "files_changed" (w_strs changed); item "outcome" (VStr (u "isolation_unavailable"));
     item "isolation_evidence" (VDict (dict_of (
       [("requested", VStr (vc_isolation v)); ("delivered", VStr (u "unavailable")); ("image_digest", VNone);
        ("network", VStr (vc_docker_network v)); ("runtime", w_str (vc_docker_runtime v))]
       ++ match note with Some n => [("note", VStr n)] | None => [] end)%list))].

(** The image identity, or the message of the error. *)
Definition as_image (r : reply W) : option (str + str) :=
  match r with RStr s => Some (inr s) | RRefused m => Some (inl m) | _ => None end.

Definition NON_CANONICAL_IMAGE : str :=
  u "Docker image inspection returned a non-canonical image ID; expected sha256 followed by 64 lowercase hexadecimal characters".

Definition resolve_image (changed : list str) : V (option str) :=
  if negb container_mode then vret None
  else match vc_docker_image v with
  | Some (c :: image) =>
      let! r := ask (ResolveImage (c :: image)) as_image in
      let unavailable exc :=
        refuse (isolation_unavailable (vc_isolation v ++ u " isolation unavailable: " ++ exc) changed (Some exc)) in
      match r with
      | inl exc => unavailable exc
      | inr s =>
          match require_canonical_docker_image_id s with
          | Some image_id => vret (Some image_id)
          | None => unavailable NON_CANONICAL_IMAGE
          end
      end
  | _ =>
      refuse (isolation_unavailable
        (vc_isolation v ++ u " isolation requires a docker image (--docker-image)") changed None)
  end.

(** *** Setup *)

Definition setup_command : option command := cmd_or (vc_setup_command v) (pb_setup_command p).
Definition setup_configured : bool := match setup_command with Some c => cmd_truthy c | None => false end.

Definition setup_step (workdir copy : str) (changed : list str) (strict : bool) (image : option str)
  : V (option str) :=
  if negb setup_configured then vret None
  else
    let! env := ask (PhaseEnvironment workdir (u "setup")) as_environment in
    let! outcome := on_trace (execute_repo_setup judge_user v
      {| sq_configured_command := setup_command; sq_candidate_copy := copy; sq_files_changed := changed;
         sq_environment := env; sq_container_mode := container_mode; sq_resolved_image := image |} strict) in
    match so_terminal_result outcome with
    | Some r => refuse r
    | None => vret (so_setup_isolation outcome)
    end.

(** *** Runtime continuity *)

Definition continuity_request (copy : str) : Runtime.RepoRuntimeContinuityRequest :=
  {| Runtime.rq_candidate_copy := copy; Runtime.rq_pack_configured := pack_configured;
     Runtime.rq_container_mode := container_mode; Runtime.rq_setup_configured := setup_configured;
     Runtime.rq_trust_setup_on_host :=
       if pack_configured && container_mode && setup_configured then vc_trust_setup_on_host v else false;
     Runtime.rq_require_suite_continuity := vc_require_suite_continuity v |}.

Definition runtime_evidence (c : Runtime.RepoRuntimeContinuity) : list (str * value) :=
  Runtime.runtime_identity_evidence_payload (Runtime.evidence c).

Definition answer_identity (r : reply W) : option (Runtime.answer Runtime.RuntimeIdentity) :=
  Some (match r with RIdentity i => Runtime.Answer i | RRefused m => Runtime.DeclaredError m | _ => Runtime.OtherError end).
Definition answer_compared (r : reply W) : option (Runtime.answer (Runtime.RuntimeIdentity * list str)) :=
  Some (match r with RCompared i l => Runtime.Answer (i, l) | RRefused m => Runtime.DeclaredError m | _ => Runtime.OtherError end).
Definition answer_snapshot (r : reply W) : option (Runtime.answer unit) :=
  Some (match r with RUnit => Runtime.Answer tt | RRefused m => Runtime.DeclaredError m | _ => Runtime.OtherError end).

(** The effect of a continuity operation: the object and the trace field it
    wrote, or its exception. *)
Definition continuity_result (o : Runtime.RepoRuntimeContinuity * Runtime.outcome)
  : V (Runtime.RepoRuntimeContinuity * option Runtime.RepoRuntimeContinuityFailure) :=
  set_execution_phase (Runtime.rc_trace_phase (fst o)) ;!
  match snd o with
  | Runtime.Returned f => vret (fst o, f)
  | _ => raise
  end.

Definition capture_step (copy : str) (changed : list str) (setup_isolation : option str)
    (c : Runtime.RepoRuntimeContinuity) : V Runtime.RepoRuntimeContinuity :=
  if negb (Runtime.required (Runtime.rc_request c)) then vret c
  else
    let! a := ask (CaptureIdentity copy) answer_identity in
    let! ' (c, failure) := continuity_result (Runtime.capture_baseline c a) in
    match failure with
    | Some f =>
        refuse (failed_result (dec 0 1) (Runtime.fl_diagnostics f)
          ([item "files_changed" (w_strs changed); item "outcome" (VStr (u "runtime_identity_unavailable"));
            item "setup_isolation" (w_str setup_isolation)] ++ runtime_evidence c))
    | None => vret c
    end.

(** What a continuity failure is reported as. *)
Definition drift_result (changed : list str) (setup_isolation : option str) (pack : RepoResultProjection)
    (c : Runtime.RepoRuntimeContinuity) (f : Runtime.RepoRuntimeContinuityFailure) : VerdictResult :=
  let head := [item "files_changed" (w_strs changed); item "outcome" (VStr (u "candidate_tree_changed"));
               item "tamper" (VBool true)] in
  let tail := item "setup_isolation" (w_str setup_isolation) :: runtime_evidence c in
  failed_result (dec 0 1) (Runtime.fl_diagnostics f)
    (match Runtime.fl_kind f with
     | Runtime.verification_error => head ++ tail
     | _ => head ++ [item "candidate_fidelity_changes" (w_strs (Runtime.fl_changes f));
                     item "verifier_pack_sha256" (w_str (pi_sha256 <$> rr_pack_identity pack));
                     item "verifier_pack_manifest" (w_dict (i ← rr_pack_identity pack; pi_manifest i))] ++ tail
     end).

Definition _verify_after_suite_continuity (copy : str) (changed : list str) (setup_isolation : option str)
    (c : Runtime.RepoRuntimeContinuity) : V Runtime.RepoRuntimeContinuity :=
  match Runtime.rc_baseline c with
  | None => vret c
  | Some baseline =>
      let! a := ask (VerifyIdentity copy baseline) answer_compared in
      let! ' (c, failure) := continuity_result (Runtime.verify_after_suite c a) in
      match failure with
      | None => vret c
      | Some f => let! s := get_state in refuse (drift_result changed setup_isolation (se_projection s) c f)
      end
  end.

(** *** Requirements on the suite *)

Definition _assert_liveness_preflight (copy : str) (changed : list str) (setup_isolation : option str)
    (c : Runtime.RepoRuntimeContinuity) : V unit :=
  if negb (vc_require_assert_liveness v) then vret tt
  else
    let base_command := _base_command python_executable v p in
    if negb (command_is_pytest base_command) then
      refuse (failed_result (dec 0 1)
        (u "--require-assert-liveness needs a pytest test command (the assertion-liveness canary is a pytest file); the configured command is not pytest: "
         ++ words_repr base_command)
        ([item "files_changed" (w_strs changed); item "outcome" (VStr (u "assert_liveness_unavailable"));
          item "setup_isolation" (w_str setup_isolation)] ++ runtime_evidence c))
    else ask (InstallCanary copy) as_unit.

Definition _repo_suite_requirements_preflight (copy : str) (changed : list str) (setup_isolation : option str)
    (c : Runtime.RepoRuntimeContinuity) (require_structured_verdict : bool) : V unit :=
  let base_command := _base_command python_executable v p in
  let '(_, report_expected, _) := instrument_command base_command (u "judge-result.xml") in
  if require_structured_verdict && negb report_expected then
    refuse (failed_result (dec 0 1)
      (u "a non-empty structured verdict is required, but the configured repository test command has no matching runner adapter; refusing before repository-suite execution instead of grading from the process exit code alone: "
       ++ words_repr base_command)
      ([item "files_changed" (w_strs changed); item "outcome" (VStr (u "structured_verdict_unavailable"));
        item "setup_isolation" (w_str setup_isolation)] ++ runtime_evidence c))
  else _assert_liveness_preflight copy changed setup_isolation c.

Definition _suite_env_with_liveness (env : list (str * str)) (copy : str) : list (str * str) :=
  if negb (vc_require_assert_liveness v) then env
  else prepend_pythonpath env (path_join copy CANARY_DIRNAME).

Definition _assert_liveness_tamper (report_path : str) (changed : list str) (setup_isolation : option str)
    (c : Runtime.RepoRuntimeContinuity) : V unit :=
  if negb (vc_require_assert_liveness v) then vret tt
  else
    let! text := on_trace (read_report report_path) in
    if negb (canary_case_failed et_fromstring text CANARY_TESTID) then vret tt
    else
      refuse (failed_result (dec 0 1)
        (u "the assertion-liveness canary (" ++ CANARY_TESTID
         ++ u ") failed: candidate-imported code neutered the test framework's assertion methods, so the suite's reported passes are not trustworthy")
        ([item "files_changed" (w_strs changed); item "outcome" (VStr (u "assertion_liveness_failed"));
          item "tamper" (VBool true); item "setup_isolation" (w_str setup_isolation)] ++ runtime_evidence c)).

(** *** The repository suite *)

(** The prepared run: what the stages before the suite established. *)
Record prepared := {
  pd_workdir : str;
  pd_copy : str;
  pd_inputs : list str;
  pd_trusted : path_states;
  pd_candidate : AdmittedRepoCandidate;
  pd_pack : option Pack.RepoPackContinuity;
  pd_image : option str;
  pd_setup_isolation : option str;
  pd_runtime : Runtime.RepoRuntimeContinuity }.

Section Judge.
Context (d : prepared).

Definition changed : list str := ac_files_changed (pd_candidate d).
Definition strict_harness : bool := ac_strict_harness (pd_candidate d).

(** The suite, then the harness checkpoint, which outranks the terminal result of
    the suite. *)
Definition suite_step : V (RepoSuiteCompleted * IsolationObservation) :=
  let! env := ask (PhaseEnvironment (pd_workdir d) (u "repo-suite")) as_environment in
  let! r := on_trace (execute_repo_suite judge_user v
    {| xq_candidate_copy := pd_copy d; xq_workdir := pd_workdir d; xq_files_changed := changed;
       xq_environment := _suite_env_with_liveness env (pd_copy d); xq_container_mode := container_mode;
       xq_resolved_image := pd_image d; xq_pack_configured := pack_configured;
       xq_setup_isolation := pd_setup_isolation d; xq_strict_harness := strict_harness |}
    (_command python_executable v p) (runtime_evidence (pd_runtime d))) in
  verify_harness_checkpoint (pd_copy d) (pd_inputs d) changed (pd_trusted d)
    (u "after the repository suite") (pd_setup_isolation d) ;!
  match r with
  | inl terminal => refuse terminal
  | inr completed =>
      let! s := get_state in
      match tr_repo_suite_isolation_evidence (se_trace s) with
      | Some evidence => vret (completed, evidence)
      | None => raise
      end
  end.

(** Continuity, canary and report of a completed suite. *)
Definition judge_suite (completed : RepoSuiteCompleted)
  : V (RepoPhaseResult * Runtime.RepoRuntimeContinuity) :=
  let! c := _verify_after_suite_continuity (pd_copy d) changed (pd_setup_isolation d) (pd_runtime d) in
  let c := Runtime.finalize_suite_only c in
  _assert_liveness_tamper (sc_report_path completed) changed (pd_setup_isolation d) c ;!
  let! phase := on_trace (interpret_repo_suite et_fromstring completed
    (strict_harness || vc_require_structured_verdict v)) in
  modify (fun s => if pack_configured then set_projection s (bind_repo_suite_phase (se_projection s) phase) else s) ;!
  vret (phase, c).

(** *** The verifier pack *)

Definition pack_changed_result (c : Runtime.RepoRuntimeContinuity) (pack : RepoResultProjection)
    (f : Pack.RepoPackContinuityFailure) : VerdictResult :=
  failed_result (dec 0 1) (Pack.pf_diagnostics f)
    ([item "files_changed" (w_strs changed); item "outcome" (VStr (u "pack_snapshot_changed"));
      item "tamper" (VBool true);
      item "verifier_pack_sha256" (w_str (pi_sha256 <$> rr_pack_identity pack));
      item "verifier_pack_manifest" (w_dict (i ← rr_pack_identity pack; pi_manifest i));
      item "setup_isolation" (w_str (pd_setup_isolation d))] ++ runtime_evidence c).

(** One check of the snapshot, before or after the execution. *)
Definition check_snapshot (c : Runtime.RepoRuntimeContinuity) (k : Pack.RepoPackContinuity)
    (check : Pack.RepoPackContinuity -> (str -> str * option dict -> Runtime.answer unit) ->
             Pack.RepoPackContinuity * Pack.outcome) : V Pack.RepoPackContinuity :=
  let q := Pack.pc_request k in
  let! a := ask (VerifySnapshot (Pack.pc_pack_snapshot q) (Pack.concrete (Pack.pc_identity q))) answer_snapshot in
  let '(k, o) := check k (fun _ _ => a) in
  match o with
  | Pack.Returned None => vret k
  | Pack.Returned (Some f) => let! s := get_state in refuse (pack_changed_result c (se_projection s) f)
  | _ => raise
  end.

Definition verify_after_pack_step (c : Runtime.RepoRuntimeContinuity) : V Runtime.RepoRuntimeContinuity :=
  match Runtime.rc_baseline c with
  | None => raise
  | Some baseline =>
      let! a := ask (VerifyIdentity (pd_copy d) baseline) answer_compared in
      let! ' (c, failure) := continuity_result (Runtime.verify_after_pack c a) in
      match failure with
      | None => vret c
      | Some f => let! s := get_state in refuse (drift_result changed (pd_setup_isolation d) (se_projection s) c f)
      end
  end.

Definition pack_step (suite_evidence : IsolationObservation) (repo_phase : RepoPhaseResult)
    (c : Runtime.RepoRuntimeContinuity) (k : Pack.RepoPackContinuity)
  : V (CompositePhaseResult * RepoPackPhaseArtifact * Runtime.RepoRuntimeContinuity) :=
  set_execution_phase (u "verifier_pack") ;!
  let! k := check_snapshot c k Pack.verify_before_execution in
  let! env := ask (PhaseEnvironment (pd_workdir d) (u "verifier-pack")) as_environment in
  let! r := on_trace (execute_repo_pack python_executable judge_user v
    {| kq_candidate_copy := pd_copy d; kq_workdir := pd_workdir d;
       kq_pack_snapshot := Pack.pc_pack_snapshot (Pack.pc_request k); kq_files_changed := changed;
       kq_environment := env; kq_container_mode := container_mode; kq_resolved_image := pd_image d;
       kq_setup_isolation := pd_setup_isolation d; kq_suite_isolation_evidence := suite_evidence;
       kq_strict_harness := strict_harness |} (runtime_evidence c)) in
  match r with
  | inl terminal => refuse terminal
  | inr completed =>
      set_execution_phase (u "runtime_verification") ;!
      let! k := check_snapshot c k Pack.verify_after_execution in
      let! c := verify_after_pack_step c in
      let! pack_phase := on_trace (interpret_repo_pack et_fromstring completed) in
      match compose_repo_and_pack repo_phase pack_phase with
      | None => raise
      | Some composite =>
          set_execution_phase (u "verifier_pack") ;!
          vret (composite, pack_from_phase pack_phase, c)
      end
  end.

Definition final_result (completed : RepoSuiteCompleted) (suite_evidence : IsolationObservation)
    (final_phase : FinalRepoPhase) (pack_phase : option RepoPackPhaseArtifact)
    (c : Runtime.RepoRuntimeContinuity) (projection : RepoResultProjection) : VerdictResult :=
  {| vr_passed := fp_passed final_phase; vr_score := fp_score final_phase;
     vr_diagnostics := distill_diagnostics
       (match final_phase with OfRepo r => rp_output r | OfComposite r => cp_output r end);
     vr_artifact := build_final_repo_artifact
       {| fa_returncode := sc_returncode completed; fa_elapsed_seconds := sc_elapsed_seconds completed;
          fa_phase := final_phase; fa_files_changed := changed;
          fa_files_deleted := ac_deleted_paths (pd_candidate d);
          fa_pack_identity := rr_pack_identity projection; fa_expected_pack_sha256 := expected_pack_sha256;
          fa_pack_phase := pack_phase; fa_pack_configured := pack_configured;
          fa_setup_isolation := pd_setup_isolation d; fa_setup_configured := setup_configured;
          fa_runtime_evidence := runtime_evidence c; fa_resolved_image := pd_image d;
          fa_suite_isolation_evidence := suite_evidence; fa_container_mode := container_mode |} |}.

(** From the suite to the result. *)
Definition judge_step : V VerdictResult :=
  let! ' (completed, suite_evidence) := suite_step in
  let! ' (repo_phase, c) := judge_suite completed in
  if pack_configured then
    match pd_pack d with
    | None => raise
    | Some k =>
        let! ' (composite, pack_phase, c) := pack_step suite_evidence repo_phase c k in
        let! s := get_state in
        vret (final_result completed suite_evidence (OfComposite composite) (Some pack_phase) c (se_projection s))
    end
  else
    set_execution_phase (u "repo_suite") ;!
    let! s := get_state in
    vret (final_result completed suite_evidence (OfRepo repo_phase) None c (se_projection s)).
End Judge.

(** ** One verification *)

(** The stages inside the workspace, up to the launch of the suite. *)
Definition prepare (workdir : str) (inputs : list str) (trusted : path_states) (c : AdmittedRepoCandidate)
  : V prepared :=
  let copy := path_join workdir (u "repo") in
  let changed := ac_files_changed c in
  let strict := ac_strict_harness c in
  let! w := materialize_step copy c in
  let! pack := intake_step copy changed in
  let! _ := deletion_step c w in
  bind_candidate_harness copy inputs changed trusted ;!
  let! image := resolve_image changed in
  let! setup_isolation := setup_step workdir copy changed strict image in
  verify_harness_checkpoint copy inputs changed trusted (u "before the repository suite") setup_isolation ;!
  let! s := get_state in
  let runtime := Runtime.new_continuity (continuity_request copy) (tr_execution_phase (se_trace s)) in
  _repo_suite_requirements_preflight copy changed setup_isolation runtime
    (strict || vc_require_structured_verdict v) ;!
  let! runtime := capture_step copy changed setup_isolation runtime in
  vret {| pd_workdir := workdir; pd_copy := copy; pd_inputs := inputs; pd_trusted := trusted;
          pd_candidate := c; pd_pack := pack; pd_image := image; pd_setup_isolation := setup_isolation;
          pd_runtime := runtime |}.

(** [cleanup_repo_workspaces]: every path is attempted; [true] when all are gone. *)
Definition remove_workspace (path : str) : V bool :=
  let! removed := ask (RemoveTree path) (fun r => Some (match r with RUnit => Some true | RNotFound => Some false | _ => None end)) in
  match removed with
  | Some true => vret true
  | Some false => ask (PathAbsent path) (fun r => Some (match r with RBool true => true | _ => false end))
  | None => vret false
  end.

Fixpoint remove_workspaces (paths : list (option str)) : V bool :=
  match paths with
  | [] => vret true
  | None :: paths' => remove_workspaces paths'
  | Some path :: paths' =>
      let! gone := remove_workspace path in
      let! others := remove_workspaces paths' in
      vret (gone && others)
  end.

(** A failed cleanup raises unless another exception is under way. *)
Definition cleanup (primary : bool) : V unit :=
  let! s := get_state in
  let! gone := remove_workspaces [se_candidate_root s; se_pack_root s] in
  if gone || primary then vret tt else raise.

Definition _verify : V VerdictResult :=
  let! inputs := effective_harness_inputs in
  let! trusted := bind_trusted_harness inputs in
  let! c := admit_step inputs in
  let! workdir := ask (AllocateWorkspace (u "evo_repo_")) as_text in
  modify (fun s => set_candidate_root s workdir) ;!
  finally (let! d := prepare workdir inputs trusted c in judge_step d) cleanup.

(** A refusal is a result too. *)
Definition settle (m : V VerdictResult) : V VerdictResult := fun s =>
  bind (m s) (fun so =>
    Ret (fst so, match snd so with Done r => Done r | Returned r => Done r | Raised => Raised end)).

(** [verify]: the result with the execution evidence attached. *)
Definition verify_session : V VerdictResult :=
  let! pack_present := if is_empty pack_dir then vret false else ask (LExists pack_dir) as_bool in
  let! r := settle _verify in
  let! s := get_state in
  vret (finalize (se_projection s) r (snapshot (se_trace s)) pack_present).

(** [None] is an exception. *)
Definition verify : prog (op W) (reply W) (option VerdictResult) :=
  bind (verify_session new_session) (fun so => Ret (match snd so with Done r => Some r | _ => None end)).
End Verify.
