(* ===== verification/RepoVerifierKeeps.v ===== *)
(** Invariants of a verification that its ordinary steps keep: a step that neither
    launches a process, nor allocates or removes a workspace, and leaves the
    lifecycle fields of the trace alone. *)
From S2P Require Export Effects RepoVerifier.
Local Open Scope Z_scope.

(** ** The classes of operations *)

Definition phase_eqb (a b : phase) : bool :=
  match a, b with
  | SetupPhase, SetupPhase | SuitePhase, SuitePhase | PackPhase, PackPhase => true
  | _, _ => false
  end.
Lemma phase_eqb_eq a b : phase_eqb a b = true <-> a = b.
Proof. by destruct a, b. Qed.

Section Classes.
Context {W : Type}.

(** The operation launches a process of the phase. *)
Definition starts (ph : phase) (o : op W) : bool :=
  match o with RunHost ph' _ | RunDocker ph' _ _ => phase_eqb ph ph' | _ => false end.
Definition is_launch (o : op W) : bool := match o with RunHost _ _ | RunDocker _ _ _ => true | _ => false end.
Definition in_docker (o : op W) : bool := match o with RunDocker _ _ _ => true | _ => false end.
Definition allocates (o : op W) : bool := match o with AllocateWorkspace _ => true | _ => false end.
Definition is_cleanup (o : op W) : bool := match o with RemoveTree _ | PathAbsent _ => true | _ => false end.
Definition ordinary (o : op W) : bool := negb (is_launch o || allocates o || is_cleanup o).

Lemma quiet_starts o ph : is_launch o = false -> starts ph o = false.
Proof. by destruct o. Qed.
End Classes.

(** The lifecycle fields of the evidence. *)
Record lifecycle := {
  lc_state : str;
  lc_suite_started : bool;
  lc_suite_completed : bool;
  lc_pack_started : bool;
  lc_pack_completed : bool;
  lc_delivered : str }.

Definition trace_lifecycle (t : RepoExecutionTrace) : lifecycle :=
  {| lc_state := tr_execution_state t; lc_suite_started := tr_test_command_started t;
     lc_suite_completed := tr_test_command_completed t; lc_pack_started := tr_verifier_pack_started t;
     lc_pack_completed := tr_verifier_pack_completed t; lc_delivered := tr_delivered_isolation t |}.

(** ** Stable invariants *)

Class StableTrace {W} (J : list (op W * reply W) -> RepoExecutionTrace -> Prop) := {
  stable_trace_op o r h t : ordinary o = true -> J h t -> J (h ++ [(o, r)]) t;
  stable_trace_update h t t' : trace_lifecycle t' = trace_lifecycle t -> J h t -> J h t' }.

Class Stable {W} (I : list (op W * reply W) -> session -> Prop) := {
  stable_op o r h s : ordinary o = true -> I h s -> I (h ++ [(o, r)]) s;
  stable_update h s s' :
    trace_lifecycle (se_trace s') = trace_lifecycle (se_trace s) ->
    se_candidate_root s' = se_candidate_root s -> se_pack_root s' = se_pack_root s -> I h s -> I h s' }.

#[export] Instance stable_zoom {W} I s : Stable (W := W) I -> StableTrace (fun h t => I h (set_trace s t)).
Proof.
  intros HI. split; [intros; by apply stable_op|]. intros h t t' Ht. by apply stable_update.
Qed.

Abbreviation any := (fun _ _ => True).

Section StableTraceSteps.
Context `{UnicodeDB} {W : Type} (J : list (op W * reply W) -> RepoExecutionTrace -> Prop) {HJ : StableTrace J}.
Context (et_fromstring : str -> option element).
Abbreviation P A := (M (op W) (reply W) RepoExecutionTrace VerdictResult A).

Lemma keeps_trace_ask {A} o (read : reply W -> option A) : ordinary o = true -> keeps J (ask o read : P A).
Proof. intros Ho. apply keeps_ask. intros. by apply stable_trace_op. Qed.
Lemma keeps_trace_modify f :
  (forall t, trace_lifecycle (f t) = trace_lifecycle t) -> keeps J (modify f : P unit).
Proof. intros Hf. apply keeps_modify. intros h t. by apply stable_trace_update. Qed.
Hint Extern 1 (keeps _ (ask _ _)) => apply keeps_trace_ask; reflexivity : keeps.

Lemma keeps_report path : keeps J (read_report path : P _).
Proof. unfold read_report. keeps_auto. Qed.
Lemma keeps_digest text : keeps J (text_digest text : P _).
Proof. unfold text_digest. keeps_auto. Qed.
Hint Resolve keeps_report keeps_digest : keeps.
Lemma keeps_interpret_suite completed strict : keeps J (interpret_repo_suite et_fromstring completed strict : P _).
Proof. unfold interpret_repo_suite. cbv zeta. keeps_auto. Qed.
Lemma keeps_interpret_pack completed : keeps J (interpret_repo_pack et_fromstring completed : P _).
Proof. unfold interpret_repo_pack. cbv zeta. keeps_auto. Qed.
End StableTraceSteps.

(** ** The ordinary stages *)

Section StableSteps.
Context `{UnicodeDB} {W : Type} `{Workspace W} (I : list (op W * reply W) -> session -> Prop) {HI : Stable I}.
Context (python_executable : str) (judge_user : Z * Z) (et_fromstring : str -> option element).
Context (restore_package_json : option str -> str -> str).
Context (base : tree) (v : RepoVerifier) (hypothesis : str) (p : RepoProblem).
Abbreviation V A := (M (op W) (reply W) session VerdictResult A).

Lemma keeps_session_ask {A} o (read : reply W -> option A) : ordinary o = true -> keeps I (ask o read : V A).
Proof. intros Ho. apply keeps_ask. intros. by apply stable_op. Qed.
Lemma keeps_update f :
  (forall s, trace_lifecycle (se_trace (f s)) = trace_lifecycle (se_trace s)) ->
  (forall s, se_candidate_root (f s) = se_candidate_root s /\ se_pack_root (f s) = se_pack_root s) ->
  keeps I (modify f : V unit).
Proof. intros Hf Hr. apply keeps_modify. intros h s. by apply stable_update; [|apply Hr..]. Qed.

Lemma keeps_on_trace {A} (m : M (op W) (reply W) RepoExecutionTrace VerdictResult A) :
  (forall s, keeps (fun h t => I h (set_trace s t)) m) -> keeps I (on_trace m : V A).
Proof.
  intros Hm s h Hi. apply triple_zoom. specialize (Hm s (se_trace s) h). apply Hm. by destruct s.
Qed.
Lemma keeps_lift {E A} (r : result E A) : keeps I (lift r : V A).
Proof. unfold lift. destruct r; auto with keeps. Qed.
Lemma keeps_execution_phase x : keeps I (set_execution_phase x : V unit).
Proof. by apply keeps_update. Qed.
Hint Resolve keeps_lift keeps_execution_phase : keeps.
Hint Extern 1 (keeps _ (ask _ _)) => apply keeps_session_ask; reflexivity : keeps.

Lemma keeps_inputs : keeps I (effective_harness_inputs base v p : V _).
Proof. unfold effective_harness_inputs. keeps_auto. Qed.
Lemma keeps_trusted inputs : keeps I (bind_trusted_harness p inputs : V _).
Proof. unfold bind_trusted_harness. keeps_auto. Qed.
Lemma keeps_admit inputs : keeps I (admit_step base v hypothesis p inputs : V _).
Proof. unfold admit_step. keeps_auto. Qed.
Lemma keeps_materialize copy c : keeps I (materialize_step restore_package_json copy c : V _).
Proof. unfold materialize_step. keeps_auto. Qed.
Lemma keeps_deletion c w : keeps I (deletion_step c w : V _).
Proof. unfold deletion_step. keeps_auto. Qed.
Lemma keeps_bind_candidate copy inputs changed trusted :
  keeps I (bind_candidate_harness copy inputs changed trusted : V _).
Proof. unfold bind_candidate_harness. keeps_auto. Qed.
Lemma keeps_checkpoint copy inputs changed trusted checkpoint isolation :
  keeps I (verify_harness_checkpoint copy inputs changed trusted checkpoint isolation : V _).
Proof. unfold verify_harness_checkpoint. keeps_auto. Qed.
Lemma keeps_image changed : keeps I (resolve_image v changed : V _).
Proof. unfold resolve_image. keeps_auto. Qed.
Lemma keeps_requirements copy changed isolation c b :
  keeps I (_repo_suite_requirements_preflight python_executable v p copy changed isolation c b : V _).
Proof. unfold _repo_suite_requirements_preflight, _assert_liveness_preflight. cbv zeta. keeps_auto. Qed.
Lemma keeps_continuity o : keeps I (continuity_result o : V _).
Proof. unfold continuity_result. keeps_auto. Qed.
Hint Resolve keeps_continuity : keeps.
Lemma keeps_capture copy changed isolation c : keeps I (capture_step copy changed isolation c : V _).
Proof. unfold capture_step. keeps_auto. Qed.
Lemma keeps_after_suite copy changed isolation c :
  keeps I (_verify_after_suite_continuity copy changed isolation c : V _).
Proof. unfold _verify_after_suite_continuity. keeps_auto. Qed.

Lemma keeps_session_report path : keeps I (on_trace (read_report path) : V _).
Proof. apply keeps_on_trace. intros s. apply keeps_report, _. Qed.
Lemma keeps_suite_report completed strict : keeps I (on_trace (interpret_repo_suite et_fromstring completed strict) : V _).
Proof. apply keeps_on_trace. intros s. apply keeps_interpret_suite, _. Qed.
Lemma keeps_pack_report completed : keeps I (on_trace (interpret_repo_pack et_fromstring completed) : V _).
Proof. apply keeps_on_trace. intros s. apply keeps_interpret_pack, _. Qed.
Hint Resolve keeps_session_report keeps_suite_report keeps_pack_report : keeps.

Lemma keeps_liveness path changed isolation c :
  keeps I (_assert_liveness_tamper et_fromstring v path changed isolation c : V _).
Proof. unfold _assert_liveness_tamper. keeps_auto. Qed.
Hint Resolve keeps_liveness keeps_after_suite : keeps.
Lemma keeps_judge_suite d completed : keeps I (judge_suite et_fromstring v p d completed : V _).
Proof.
  unfold judge_suite. keeps_auto. apply keeps_update; intros s; by destruct (pack_configured p).
Qed.
Lemma keeps_snapshot d c k check : keeps I (check_snapshot d c k check : V _).
Proof. unfold check_snapshot. keeps_auto. Qed.
Lemma keeps_after_pack d c : keeps I (verify_after_pack_step d c : V _).
Proof. unfold verify_after_pack_step. keeps_auto. Qed.
Hint Resolve keeps_snapshot keeps_after_pack : keeps.

Lemma keeps_present : keeps I (if is_empty (pack_dir p) then vret false else ask (LExists (pack_dir p)) as_bool : V _).
Proof. keeps_auto. Qed.

(** The stages between the setup and the suite, after the suite, and after the
    pack. *)
Lemma keeps_ready copy inputs changed trusted strict isolation k :
  (forall c, keeps I (k c : V prepared)) ->
  keeps I (verify_harness_checkpoint copy inputs changed trusted (u "before the repository suite") isolation ;!
           let! s := get_state in
           let runtime := Runtime.new_continuity (continuity_request v p copy) (tr_execution_phase (se_trace s)) in
           _repo_suite_requirements_preflight python_executable v p copy changed isolation runtime
             (strict || vc_require_structured_verdict v) ;!
           let! runtime := capture_step copy changed isolation runtime in
           k runtime).
Proof.
  intros Hk. apply keeps_vbind; [apply keeps_checkpoint|]. intros _.
  apply keeps_vbind; [apply keeps_get_state|]. intros s. cbv zeta.
  apply keeps_vbind; [apply keeps_requirements|]. intros _.
  apply keeps_vbind; [apply keeps_capture|]. exact Hk.
Qed.

Lemma keeps_pack_ended d phase c k (r : VerdictResult + RepoPackCompleted) :
  keeps I (match r with
           | inl terminal => refuse terminal
           | inr completed =>
               set_execution_phase (u "runtime_verification") ;!
               let! _ := check_snapshot d c k Pack.verify_after_execution in
               let! c := verify_after_pack_step d c in
               let! pack_phase := on_trace (interpret_repo_pack et_fromstring completed) in
               match compose_repo_and_pack phase pack_phase with
               | None => raise
               | Some composite =>
                   set_execution_phase (u "verifier_pack") ;!
                   vret (composite, pack_from_phase pack_phase, c)
               end
           end : V _).
Proof. keeps_auto. Qed.

(** An execution of [verify] is one of its session. *)
Lemma verify_exec log o :
  exec (verify python_executable judge_user et_fromstring restore_package_json base v hypothesis p) log o ->
  exists s e, exec (verify_session python_executable judge_user et_fromstring restore_package_json base v hypothesis p
                      new_session) log (s, e) /\
    o = match e with Done r => Some r | _ => None end.
Proof.
  unfold verify. intros (l1 & l2 & [s e] & -> & E1 & E2)%exec_bind. apply exec_ret_inv in E2 as [-> ->].
  rewrite app_nil_r. eauto.
Qed.
End StableSteps.
