(* ===== verification/RepoVerifierEvidence.v ===== *)
(** What the result of a verification says of its execution: the lifecycle fields
    are functions of the operations performed and their replies, and the
    workspaces of the judgment are gone when a result is returned. *)
From stdpp Require Import gmap.
From S2P Require Import MaterializeSound.
From S2P Require Export RepoVerifierKeeps.
Local Open Scope Z_scope.

(** ** What a log says of the processes *)

Section Observed.
Context {W : Type} (isolation : str).

(** The isolation under which the target of a launch ran, and whether it ended by
    itself; [None] when it is not known to have run. *)
Definition result_isolation (docker : bool) (r : run_error + process) : option (str * bool) :=
  let delivered (d : bool) := if d then isolation else u "subprocess" in
  match r with
  | inl (DockerRunTimeout true) => Some (isolation, false)
  | inl (ProcessOutputLimitExceeded d true _) | inl (ProcessContainmentError d true _) => Some (delivered d, false)
  | inl (TimeoutExpired true) => Some (u "subprocess", false)
  | inr p => if negb (ps_target_started p) || docker && (ps_returncode p =? 125) then None
             else Some (delivered docker, true)
  | inl _ => None
  end.

(** The first launch of a phase in a log, as it was observed. *)
Fixpoint observed (ph : phase) (log : list (op W * reply W)) : option (str * bool) :=
  match log with
  | [] => None
  | (o, r) :: log' =>
      if starts ph o then x ← as_process r; result_isolation (in_docker o) x else observed ph log'
  end.
Fixpoint ran (ph : phase) (log : list (op W * reply W)) : bool :=
  match log with [] => false | (o, _) :: log' => starts ph o || ran ph log' end.

Lemma observed_app ph l l' :
  observed ph (l ++ l') = if ran ph l then observed ph l else observed ph l'.
Proof. induction l as [|[o r] l IH]; [done|]. cbn. by destruct (starts ph o). Qed.
Lemma ran_app ph l l' : ran ph (l ++ l') = ran ph l || ran ph l'.
Proof. induction l as [|[o r] l IH]; [done|]. cbn. rewrite IH. by destruct (starts ph o). Qed.
Lemma not_ran_observed ph l : ran ph l = false -> observed ph l = None.
Proof. induction l as [|[o r] l IH]; [done|]. cbn. by destruct (starts ph o). Qed.

(** An operation that does not launch the phase changes nothing. *)
Lemma other_step o r ph l :
  starts ph o = false -> observed ph (l ++ [(o, r)]) = observed ph l /\ ran ph (l ++ [(o, r)]) = ran ph l.
Proof.
  intros Ho. rewrite observed_app, ran_app. cbn. rewrite Ho, orb_false_r. split; [|done].
  destruct (ran ph l) eqn:E; [done|]. by rewrite (not_ran_observed _ _ E).
Qed.
Lemma quiet_step o r ph l :
  is_launch o = false -> observed ph (l ++ [(o, r)]) = observed ph l /\ ran ph (l ++ [(o, r)]) = ran ph l.
Proof. intros Ho. by apply other_step, quiet_starts. Qed.

(** The fields of the evidence, from what was observed of setup, suite and pack. *)
Definition was_started (x : option (str * bool)) : bool := match x with Some _ => true | None => false end.
Definition was_completed (x : option (str * bool)) : bool := match x with Some (_, c) => c | None => false end.
Definition delivered_of (x : option (str * bool)) : str := match x with Some (i, _) => i | None => u "not_run" end.

Definition lifecycle_of (pack_configured : bool) (setup suite pack : option (str * bool)) : lifecycle :=
  {| lc_state := if was_completed (if pack_configured then pack else suite) then u "completed"
                 else if was_started setup || was_started suite || was_started pack then u "started_incomplete"
                 else u "not_started";
     lc_suite_started := was_started suite; lc_suite_completed := was_completed suite;
     lc_pack_started := was_started pack; lc_pack_completed := was_completed pack;
     lc_delivered := delivered_of suite |}.

Definition observed_lifecycle (pack_configured : bool) (log : list (op W * reply W)) : lifecycle :=
  lifecycle_of pack_configured (observed SetupPhase log) (observed SuitePhase log) (observed PackPhase log).

(** The fields on the wire. *)
Definition lifecycle_payload (l : lifecycle) : list (string * value) :=
  [("execution_state", VStr (lc_state l));
   ("test_command_started", VBool (lc_suite_started l));
   ("test_command_completed", VBool (lc_suite_completed l));
   ("verifier_pack_started", VBool (lc_pack_started l));
   ("verifier_pack_completed", VBool (lc_pack_completed l));
   ("delivered_isolation", VStr (lc_delivered l))].

Lemma finalize_lifecycle projection r t present k x :
  In (k, x) (lifecycle_payload (trace_lifecycle t)) ->
  dlookup (u k) (vr_artifact (finalize projection r (snapshot t) present)) = Some x.
Proof.
  intros Hk. unfold finalize. cbn [vr_artifact]. rewrite dlookup_setdefault, !dlookup_dupdate.
  enough (last_binding (u k) (execution_phase_payload (snapshot t)) = Some x) as -> by done.
  unfold execution_phase_payload. destruct (ex_primary_isolation_evidence _);
    repeat (destruct Hk as [[= <- <-]|Hk]; [reflexivity|]); destruct Hk.
Qed.
End Observed.

(** ** Every step keeps the trace true to the log *)

Section Truth.
Context `{UnicodeDB} {W : Type} `{Workspace W}.
Context (python_executable : str) (judge_user : Z * Z) (et_fromstring : str -> option element).
Context (restore_package_json : option str -> str -> str).
Context (base : tree).
Context (v : RepoVerifier) (hypothesis : str) (p : RepoProblem).

Abbreviation log_t := (list (op W * reply W)).
Abbreviation P A := (M (op W) (reply W) RepoExecutionTrace VerdictResult A).
Abbreviation V A := (M (op W) (reply W) session VerdictResult A).
Abbreviation obs := (observed (vc_isolation v)).

(** The trace agrees with the log, and the phases numbered [n] and above have not
    been launched. *)
Definition rank (ph : phase) : nat := match ph with SetupPhase => 0 | SuitePhase => 1 | PackPhase => 2 end.
Definition true_to (n : nat) (h : log_t) (t : RepoExecutionTrace) : Prop :=
  trace_lifecycle t = observed_lifecycle (vc_isolation v) (pack_configured p) h
  /\ forall ph, (n <=? rank ph)%nat = true -> ran ph h = false.
Definition session_true (n : nat) (h : log_t) (s : session) : Prop := true_to n h (se_trace s).

(** What a result says; an exception has no evidence. *)
Definition result_true (h : log_t) (t : RepoExecutionTrace) (o : option VerdictResult) : Prop :=
  match o with Some _ => true_to 3 h t | None => True end.

Lemma true_to_le n m h t : (n <= m)%nat -> true_to n h t -> true_to m h t.
Proof.
  intros Hn [Ht Hr]. split; [done|]. intros ph Hm. apply Hr. apply Nat.leb_le in Hm. apply Nat.leb_le. lia.
Qed.

Lemma true_to_quiet n o r h t :
  is_launch o = false -> true_to n h t -> true_to n (h ++ [(o, r)]) t.
Proof.
  intros Ho [Ht Hr]. split.
  - unfold observed_lifecycle. by rewrite !(proj1 (quiet_step _ o r _ h Ho)).
  - intros ph Hn. rewrite (proj2 (quiet_step (vc_isolation v) o r _ h Ho)). by apply Hr.
Qed.

Lemma true_to_lifecycle n h t t' :
  trace_lifecycle t' = trace_lifecycle t -> true_to n h t -> true_to n h t'.
Proof. intros Hl [Ht Hr]. split; [by rewrite Hl|done]. Qed.

(** *** Steps that launch nothing *)

#[local] Instance true_to_stable n : StableTrace (true_to n).
Proof.
  split; [|intros h t t'; apply true_to_lifecycle]. intros o r h t Ho. apply true_to_quiet. by destruct o.
Qed.
#[local] Instance session_true_stable n : Stable (session_true n).
Proof.
  split; [intros o r h s; apply (stable_trace_op (J := true_to n))|].
  intros h s s' Ht _ _. by apply true_to_lifecycle.
Qed.

Lemma triple_on_trace {A} (m : P A) s h D N :
  triple any m (se_trace s) h (fun h' t a => D h' (set_trace s t) a) (fun h' t o => N h' (set_trace s t) o) ->
  triple any (on_trace m) s h D N.
Proof. apply triple_zoom. Qed.
(** *** Launches *)

(** What a launch adds to the log. *)
Definition launched (ph : phase) (x : option (str * bool)) (h h' : log_t) : Prop :=
  obs ph h' = x /\ forall ph', ph' <> ph -> obs ph' h' = obs ph' h /\ ran ph' h' = ran ph' h.

Lemma quiet_launched ph o r h h' x :
  is_launch o = false -> launched ph x (h ++ [(o, r)]) h' -> launched ph x h h'.
Proof.
  intros Ho [Hx Hl]. split; [done|]. intros ph' Hph. destruct (Hl ph' Hph) as [-> ->]. by apply quiet_step.
Qed.

Lemma launched_quiet ph o r h h' x :
  is_launch o = false -> launched ph x h h' -> launched ph x h (h' ++ [(o, r)]).
Proof.
  intros Ho [Hx Hl]. split; [by rewrite (proj1 (quiet_step _ o r ph h' Ho))|].
  intros ph' Hph. destruct (Hl ph' Hph) as [<- <-]. by apply quiet_step.
Qed.

Lemma launch_step ph o r h :
  (forall ph', starts ph' o = phase_eqb ph' ph) -> ran ph h = false ->
  launched ph (x ← as_process r; result_isolation (vc_isolation v) (in_docker o) x) h (h ++ [(o, r)]).
Proof.
  intros Ho Hr. assert (Hs : starts ph o = true) by (rewrite Ho; by apply phase_eqb_eq). split.
  - rewrite observed_app, Hr. cbn. by rewrite Hs.
  - intros ph' Hph. apply other_step. rewrite Ho. destruct (phase_eqb ph' ph) eqn:E; [|done].
    by apply phase_eqb_eq in E.
Qed.

Lemma quiet_none ph o r h :
  is_launch o = false -> ran ph h = false -> launched ph None h (h ++ [(o, r)]).
Proof.
  intros Ho Hr. split; [|intros; by apply quiet_step].
  rewrite (proj1 (quiet_step _ o r ph h Ho)). by apply not_ran_observed.
Qed.

(** The spec of a launch: the trace is as before, and the log tells the outcome. *)
Definition launch_spec {A} (ph : phase) (docker : bool) (out : A -> run_error + process) (m : P A) : Prop :=
  forall t h, ran ph h = false ->
  triple any m t h
    (fun h' t' a => t' = t /\ launched ph (result_isolation (vc_isolation v) docker (out a)) h h')
    (fun h' t' _ => t' = t /\ launched ph None h h').

Lemma launch_ask ph docker (o : op W) :
  (forall ph', starts ph' o = phase_eqb ph' ph) -> in_docker o = docker ->
  launch_spec ph docker id (ask o as_process : P (run_error + process)).
Proof.
  intros Ho <- t h Hr. apply triple_ask; [done|]. intros r. pose proof (launch_step ph o r h Ho Hr) as Hl.
  destruct (as_process r); by split.
Qed.

Lemma launch_after_quiet {A B} ph docker (o : op W) (read : reply W -> option A) (f : A -> P B) out :
  is_launch o = false -> (forall a, launch_spec ph docker out (f a)) ->
  launch_spec ph docker out (vbind (ask o read) f).
Proof.
  intros Ho Hf t h Hr. apply triple_vbind. apply triple_ask; [done|]. intros r.
  destruct (read r) as [a|]; [|split; [done|]; by apply quiet_none].
  eapply triple_mono; [| |apply (Hf a)].
  - intros h' t' b _ [-> Hl]. split; [done|]. by eapply quiet_launched.
  - intros h' t' b _ [-> Hl]. split; [done|]. by eapply quiet_launched.
  - rewrite (proj2 (quiet_step (vc_isolation v) o r ph h Ho)). done.
Qed.

Lemma launch_value {A} ph docker (out : A -> run_error + process) a :
  result_isolation (vc_isolation v) docker (out a) = None -> launch_spec ph docker out (vret a).
Proof.
  intros Ha t h Hr. apply triple_vret. split; [done|]. rewrite Ha. split; [by apply not_ran_observed|done].
Qed.
Lemma launch_raise {A} ph docker (out : A -> run_error + process) : launch_spec ph docker out raise.
Proof. intros t h Hr. apply triple_raise. split; [done|]. split; [by apply not_ran_observed|done]. Qed.
Lemma launch_map {A B} ph docker (out : A -> run_error + process) (out' : B -> _) (m : P A) (f : A -> B) :
  (forall a, out' (f a) = out a) -> launch_spec ph docker out m ->
  launch_spec ph docker out' (vbind m (fun a => vret (f a))).
Proof.
  intros Hf Hm t h Hr. eapply triple_seq; [by apply Hm|done|]. intros h' t' a _ [-> Hl].
  apply triple_vret. by rewrite Hf.
Qed.

Lemma launch_run_host ph cmd cwd env strict :
  launch_spec ph false id (run_host v ph cmd cwd env strict : P _).
Proof.
  apply launch_after_quiet; [done|]. intros [c|]; [|by apply launch_value].
  apply launch_ask; [|done]. by intros [].
Qed.

Lemma launch_run_docker ph image cmd copy workdir pack :
  launch_spec ph true (fun x : str * (run_error + process) * bool => snd (fst x))
    (_run_docker judge_user v ph image cmd copy workdir pack : P _).
Proof.
  unfold _run_docker. destruct (instrument_command cmd _) as [[c report_expected] report_env].
  apply launch_after_quiet; [done|]. intros [|]; [|by apply launch_value]. cbn [negb].
  apply launch_after_quiet; [done|]. intros token.
  destruct (_docker_command _ _ _ _ _ _ _ _ _ _) as [cmd'|]; [|apply launch_raise].
  apply (launch_map _ _ id); [done|]. apply launch_ask; [|done]. by intros [].
Qed.

(** *** What a launch means for the evidence *)

Definition after_launch (ph : phase) (x : option (str * bool)) (l : lifecycle) : lifecycle :=
  match x with
  | None => l
  | Some (i, c) =>
      match ph with
      | SetupPhase =>
          {| lc_state := u "started_incomplete"; lc_suite_started := lc_suite_started l;
             lc_suite_completed := lc_suite_completed l; lc_pack_started := lc_pack_started l;
             lc_pack_completed := lc_pack_completed l; lc_delivered := lc_delivered l |}
      | SuitePhase =>
          {| lc_state := if c && negb (pack_configured p) then u "completed" else u "started_incomplete";
             lc_suite_started := true; lc_suite_completed := c || lc_suite_completed l; lc_pack_started := lc_pack_started l;
             lc_pack_completed := lc_pack_completed l; lc_delivered := i |}
      | PackPhase =>
          {| lc_state := if c then u "completed" else u "started_incomplete";
             lc_suite_started := lc_suite_started l; lc_suite_completed := lc_suite_completed l;
             lc_pack_started := true; lc_pack_completed := c || lc_pack_completed l; lc_delivered := lc_delivered l |}
      end
  end.

Lemma true_after ph x h h' t t' :
  true_to (rank ph) h t -> (ph = PackPhase -> pack_configured p = true) -> launched ph x h h' ->
  trace_lifecycle t' = after_launch ph x (trace_lifecycle t) -> true_to (S (rank ph)) h' t'.
Proof.
  intros [Ht Hr] Hpk [Hx Hl] Ht'. split.
  - assert (Ho : forall ph', ran ph' h = false -> obs ph' h = None) by (intros; by apply not_ran_observed).
    rewrite Ht', Ht. unfold observed_lifecycle.
    assert (Hk : forall ph', ph' <> ph -> obs ph' h' = obs ph' h) by (intros; by apply Hl).
    destruct ph.
    + rewrite Hx, (Hk SuitePhase), (Hk PackPhase) by done.
      rewrite (Ho SetupPhase), (Ho SuitePhase), (Ho PackPhase) by by apply Hr.
      destruct x as [[i c]|]; cbn; by destruct (pack_configured p).
    + rewrite Hx, (Hk SetupPhase), (Hk PackPhase) by done.
      rewrite (Ho SuitePhase), (Ho PackPhase) by by apply Hr.
      destruct x as [[i c]|]; cbn; [|by destruct (pack_configured p)].
      by destruct (pack_configured p), c, (obs SetupPhase h).
    + rewrite Hx, (Hk SetupPhase), (Hk SuitePhase) by done.
      rewrite (Ho PackPhase) by by apply Hr. rewrite Hpk by done.
      destruct x as [[i c]|]; [|done]. cbn. by destruct c, (obs SetupPhase h), (obs SuitePhase h).
  - intros ph' Hn. apply Nat.leb_le in Hn. destruct (Hl ph') as [_ ->]; [by intros ->; lia|].
    apply Hr. apply Nat.leb_le. lia.
Qed.

(** A launch and what the phase makes of its outcome. *)
Lemma true_launch {A B} ph docker out (m : P A) (f : A -> P B) h t :
  true_to (rank ph) h t -> (ph = PackPhase -> pack_configured p = true) -> launch_spec ph docker out m ->
  (forall a h', launched ph (result_isolation (vc_isolation v) docker (out a)) h h' ->
     triple any (f a) t h' (fun h'' t' _ => true_to (S (rank ph)) h'' t') result_true) ->
  triple any (vbind m f) t h (fun h' t' _ => true_to (S (rank ph)) h' t') result_true.
Proof.
  intros Ht Hpk Hm Hf. eapply triple_seq; [apply Hm|..].
  - apply (proj2 Ht). by apply Nat.leb_le.
  - intros h' t' [r|] _ [-> Hl]; [|done]. apply (true_to_le (S (rank ph))); [destruct ph; cbn; lia|].
    by eapply true_after.
  - intros h' t' a _ [-> Hl]. by apply Hf.
Qed.

(** What follows a launch only updates the trace. *)
Ltac after_updates ph Ht Hl :=
  repeat (apply triple_vbind, triple_modify);
  first [apply triple_vret; eapply (true_after ph); [exact Ht|try done|exact Hl|reflexivity]|apply triple_raise; exact I].

Lemma true_with_phase n h t x : true_to n h t -> true_to n h (with_phase t x).
Proof. by apply true_to_lifecycle. Qed.

(** *** The three phases *)

Lemma setup_failure_true q e tokens docker h h' t :
  true_to 0 h t -> launched SetupPhase (result_isolation (vc_isolation v) docker (inl e)) h h' ->
  triple any (setup_failure v q e tokens docker : P _) t h' (fun h'' t' _ => true_to 1 h'' t')
    result_true.
Proof.
  intros Ht Hl. unfold setup_failure, _command_not_found, setup_evidence, setup_state.
  destruct e as [[]|[] []|[] []|[]| |]; try destruct docker; try destruct tokens; after_updates SetupPhase Ht Hl.
Qed.

(** A step that launches nothing, in a place where [n] is known. *)
Lemma triple_of_keeps n {A} (m : P A) t h :
  (n <= 3)%nat -> keeps (true_to n) m -> true_to n h t ->
  triple any m t h (fun h' t' _ => true_to n h' t') result_true.
Proof.
  intros Hn Hm Ht. eapply triple_mono; [| |by apply Hm]; [done|]. intros h' t' [r|] _; [by apply true_to_le|done].
Qed.

#[local] Hint Extern 1 (keeps _ (ask _ _)) =>
  first [apply keeps_trace_ask; [apply _|reflexivity]|apply keeps_session_ask; [apply _|reflexivity]] : keeps.
#[local] Hint Extern 1 (keeps _ (modify _)) =>
  first [apply keeps_trace_modify; [apply _|reflexivity]|apply keeps_update; [apply _|reflexivity|done]] : keeps.

Lemma setup_ended_true q o before docker h h' t :
  true_to 0 h t -> launched SetupPhase (result_isolation (vc_isolation v) docker (inr o)) h h' ->
  triple any (setup_ended v q o before docker : P _) t h' (fun h'' t' _ => true_to 1 h'' t')
    result_true.
Proof.
  intros Ht. unfold setup_ended, setup_evidence, setup_state, result_isolation.
  destruct (ps_target_started o); [|intros Hl; after_updates SetupPhase Ht Hl]. cbn [negb orb].
  destruct (docker && _) eqn:Ed; intros Hl; [after_updates SetupPhase Ht Hl|].
  do 2 apply triple_vbind, triple_modify. apply (triple_of_keeps 1); [lia| |].
  - keeps_auto.
  - eapply (true_after SetupPhase); [exact Ht|done|exact Hl|reflexivity].
Qed.

Definition in_container (x : prepared_setup) : bool := match x with InContainer _ _ => true | OnHost _ => false end.

Lemma prepare_setup_true q tokens docker h t :
  true_to 0 h t ->
  triple any (_prepare_setup_execution judge_user v q tokens docker : P _) t h
    (fun h' t' o => true_to 0 h' t' /\ match o with Some x => in_container x = docker | None => True end)
    result_true.
Proof.
  intros Ht. assert (Hq : forall o r, is_launch o = false -> true_to 0 (h ++ [(o, r)]) t)
    by (intros; by apply true_to_quiet).
  unfold _prepare_setup_execution. destruct docker; apply triple_vbind, triple_ask; try done; intros r.
  - destruct (as_text r) as [token|]; [|done].
    destruct (_docker_command _ _ _ _ _ _ _ _ _ _); [apply triple_vret; split; [|done]|by apply triple_raise].
    by apply Hq.
  - destruct (as_command r) as [o|]; [|done]. apply triple_vret. split; [by apply Hq|by destruct o].
Qed.

Lemma execute_repo_setup_true q strict h t :
  true_to 0 h t ->
  triple any (execute_repo_setup judge_user v q strict : P _) t h (fun h' t' _ => true_to 1 h' t')
    result_true.
Proof.
  intros Ht. assert (Hle : forall h t, true_to 0 h t -> true_to 1 h t) by (intros ??; by apply true_to_le; lia).
  unfold execute_repo_setup. destruct (sq_configured_command q) as [c|]; [|apply triple_vret; auto].
  destruct (negb (cmd_truthy c)); [apply triple_vret; auto|].
  apply triple_vbind, triple_modify. apply (true_with_phase _ _ _ (u "setup")) in Ht.
  eapply triple_seq; [by apply prepare_setup_true|done|].
  clear dependent t. intros h1 t [pr|] _ [Ht Hpr].
  2:{ apply (triple_of_keeps 1); [lia| |auto]. unfold _command_not_found, setup_evidence. keeps_auto. }
  eapply triple_seq; [apply (triple_of_keeps 0); [lia| |exact Ht]; auto with keeps|done|].
  clear dependent t. intros h2 t [exc|before] _ Ht; [apply triple_vret; auto|].
  apply (true_launch SetupPhase (in_container pr) id); [done..| |].
  - destruct pr; (apply launch_ask; [by intros []|done]).
  - intros [e|o] h3 Hl; rewrite Hpr in Hl; [by eapply setup_failure_true|by eapply setup_ended_true].
Qed.

(** *** The suite *)

Lemma suite_failure_true q cmd evidence e docker h h' t :
  true_to 1 h t -> launched SuitePhase (result_isolation (vc_isolation v) docker (inl e)) h h' ->
  triple any (suite_failure v q cmd evidence e : P _) t h' (fun h'' t' _ => true_to 2 h'' t')
    result_true.
Proof.
  intros Ht Hl. unfold suite_failure, suite_evidence, suite_started. cbv zeta.
  destruct e as [[]|[] []|[] []|[]| |]; try destruct (xq_container_mode q); try destruct cmd;
    after_updates SuitePhase Ht Hl.
Qed.

Lemma suite_ended_true q evidence path o expected elapsed h h' t :
  xq_pack_configured q = pack_configured p -> true_to 1 h t ->
  launched SuitePhase (result_isolation (vc_isolation v) (xq_container_mode q) (inr o)) h h' ->
  triple any (suite_ended v q evidence path o expected elapsed : P _) t h' (fun h'' t' _ => true_to 2 h'' t')
    result_true.
Proof.
  intros Hq Ht. unfold suite_ended, suite_evidence, result_isolation.
  destruct (ps_target_started o); [|intros Hl; after_updates SuitePhase Ht Hl]. cbn [negb orb].
  destruct (xq_container_mode q && _) eqn:Ed; intros Hl; [after_updates SuitePhase Ht Hl|].
  apply triple_vbind, triple_modify, triple_vret. eapply (true_after SuitePhase); [exact Ht|done|exact Hl|].
  rewrite Hq. cbn. by destruct (pack_configured p).
Qed.

Lemma launch_start_suite q cmd :
  launch_spec SuitePhase (xq_container_mode q) (fun x => snd (fst x)) (start_suite judge_user v q cmd : P _).
Proof.
  unfold start_suite. destruct (xq_container_mode q); [apply launch_run_docker|].
  destruct (instrument_command _ _) as [[c e] env]. apply (launch_map _ _ id); [done|apply launch_run_host].
Qed.

Lemma execute_repo_suite_true q cmd evidence h t :
  xq_pack_configured q = pack_configured p -> true_to 1 h t ->
  triple any (execute_repo_suite judge_user v q cmd evidence : P _) t h (fun h' t' _ => true_to 2 h' t')
    result_true.
Proof.
  intros Hq Ht. unfold execute_repo_suite. apply triple_vbind, triple_modify.
  apply (true_with_phase _ _ _ (u "repo_suite")) in Ht.
  eapply triple_seq; [apply (triple_of_keeps 1); [lia| |exact Ht]; auto with keeps|done|].
  clear dependent t. intros h1 t started _ Ht.
  apply (true_launch SuitePhase (xq_container_mode q) (fun x => snd (fst x))); [exact Ht|done|apply launch_start_suite|].
  intros [[path [e|o]] expected] h2 Hl; cbn [fst snd] in Hl; [exact (suite_failure_true _ _ _ _ _ _ _ _ Ht Hl)|].
  apply triple_vbind, triple_ask; [done|]. intros r.
  destruct (as_float r) as [now|]; [|done]. eapply suite_ended_true; [done|exact Ht|].
  by apply launched_quiet.
Qed.

(** *** The verifier pack *)

Lemma pack_failure_true q evidence e docker h h' t :
  pack_configured p = true -> true_to 2 h t ->
  launched PackPhase (result_isolation (vc_isolation v) docker (inl e)) h h' ->
  triple any (pack_failure v q evidence e : P _) t h' (fun h'' t' _ => true_to 3 h'' t') result_true.
Proof.
  intros Hpk Ht Hl. unfold pack_failure, pack_evidence, pack_started. cbv zeta.
  destruct e as [[]|[] []|[] []|[]| |]; try destruct (kq_container_mode q); after_updates PackPhase Ht Hl.
Qed.

Lemma pack_ended_true q evidence path o expected h h' t :
  pack_configured p = true -> true_to 2 h t ->
  launched PackPhase (result_isolation (vc_isolation v) (kq_container_mode q) (inr o)) h h' ->
  triple any (pack_ended v q evidence path o expected : P _) t h' (fun h'' t' _ => true_to 3 h'' t') result_true.
Proof.
  intros Hpk Ht. unfold pack_ended, pack_evidence, result_isolation.
  destruct (ps_target_started o); [|intros Hl; after_updates PackPhase Ht Hl]. cbn [negb orb].
  destruct (kq_container_mode q && _) eqn:Ed; intros Hl; after_updates PackPhase Ht Hl.
Qed.

Lemma launch_start_pack q dir :
  launch_spec PackPhase (kq_container_mode q) (fun x => snd (fst x))
    (start_pack python_executable judge_user v q dir : P _).
Proof.
  unfold start_pack. destruct (kq_container_mode q); [apply launch_run_docker|].
  destruct (instrument_command _ _) as [[c e] env]. apply (launch_map _ _ id); [done|apply launch_run_host].
Qed.

Lemma execute_repo_pack_true q evidence h t :
  pack_configured p = true -> true_to 2 h t ->
  triple any (execute_repo_pack python_executable judge_user v q evidence : P _) t h
    (fun h' t' _ => true_to 3 h' t') result_true.
Proof.
  intros Hpk Ht. unfold execute_repo_pack. apply triple_vbind, triple_modify.
  apply (true_with_phase _ _ _ (u "verifier_pack")) in Ht.
  eapply triple_seq; [apply (triple_of_keeps 2); [lia| |exact Ht]; auto with keeps|done|].
  clear dependent t. intros h1 t started _ Ht.
  apply (true_launch PackPhase (kq_container_mode q) (fun x => snd (fst x)));
    [exact Ht|done|apply launch_start_pack|].
  intros [[path [e|o]] expected] h2 Hl; cbn [fst snd] in Hl.
  - exact (pack_failure_true _ _ _ _ _ _ _ Hpk Ht Hl).
  - exact (pack_ended_true _ _ _ _ _ _ _ _ Hpk Ht Hl).
Qed.

(** *** The stages of the verification *)

Definition session_result (h : log_t) (s : session) (o : option VerdictResult) : Prop :=
  result_true h (se_trace s) o.

Lemma stage_of_keeps n {A} (m : V A) s h :
  (n <= 3)%nat -> keeps (session_true n) m -> session_true n h s ->
  triple any m s h (fun h' s' _ => session_true n h' s') session_result.
Proof.
  intros Hn Hm Ht. eapply triple_mono; [| |by apply Hm]; [done|]. intros h' s' [r|] _; [by apply true_to_le|done].
Qed.

Lemma stage_seq n m {A B} (x : V A) (f : A -> V B) s h :
  triple any x s h (fun h' s' _ => session_true n h' s') session_result ->
  (forall a h' s', session_true n h' s' ->
     triple any (f a) s' h' (fun h'' s'' _ => session_true m h'' s'') session_result) ->
  triple any (vbind x f) s h (fun h' s' _ => session_true m h' s') session_result.
Proof. intros Hx Hf. eapply triple_seq; [exact Hx|done|]. intros h' s' a _. apply Hf. Qed.

Lemma stage_keeps_seq n m {A B} (x : V A) (f : A -> V B) s h :
  (n <= 3)%nat -> keeps (session_true n) x -> session_true n h s ->
  (forall a h' s', session_true n h' s' ->
     triple any (f a) s' h' (fun h'' s'' _ => session_true m h'' s'') session_result) ->
  triple any (vbind x f) s h (fun h' s' _ => session_true m h' s') session_result.
Proof. intros Hn Hx Hs. apply stage_seq. by apply stage_of_keeps. Qed.

Lemma keeps_on_pack_root n {A} (m : M (op W) (reply W) (option str) VerdictResult A) :
  (forall t, keeps (fun h (_ : option str) => true_to n h t) m) -> keeps (session_true n) (on_pack_root m).
Proof. intros Hm s h Hs. apply triple_zoom. by apply (Hm (se_trace s)). Qed.

Lemma keeps_intake n copy changed : keeps (session_true n) (intake_step p copy changed : V _).
Proof.
  unfold intake_step. apply keeps_vbind; [apply keeps_on_pack_root; intros t|].
  - unfold intake_repo_pack. keeps_auto.
    all: try (apply keeps_ask; intros; by apply true_to_quiet).
    all: try (apply keeps_modify; done).
  - intros r. apply keeps_vbind; [apply keeps_update; [apply _|..]; intros s; by destruct (intake_identity r) as [[]|]|].
    intros _. keeps_auto.
Qed.
#[local] Hint Resolve keeps_intake : keeps.

Lemma keeps_removal n paths : keeps (session_true n) (remove_workspaces paths : V _).
Proof. induction paths as [|[x|] paths IH]; cbn; unfold remove_workspace; keeps_auto;
  apply keeps_ask; intros; by apply true_to_quiet. Qed.
Lemma keeps_cleanup n b : keeps (session_true n) (cleanup b : V _).
Proof. unfold cleanup. apply keeps_vbind; [auto with keeps|]. intros s. apply keeps_vbind; [apply keeps_removal|]. intros gone. keeps_auto. Qed.

Lemma setup_true workdir copy changed strict image s h :
  session_true 0 h s ->
  triple any (setup_step judge_user v p workdir copy changed strict image : V _) s h
    (fun h' s' _ => session_true 1 h' s') session_result.
Proof.
  intros Hs. unfold setup_step.
  destruct (negb (setup_configured v p)); [apply triple_vret; by apply (true_to_le 0); [lia|]|].
  apply (stage_keeps_seq 0); [lia|auto with keeps|done|]. clear dependent s. intros env h1 s Hs.
  apply (stage_seq 1); [apply triple_on_trace; by apply execute_repo_setup_true|].
  clear dependent s. intros o h2 s Hs. apply (stage_of_keeps 1); [lia| |done]. keeps_auto.
Qed.

Lemma prepare_true workdir inputs trusted c s h :
  session_true 0 h s ->
  triple any (prepare python_executable judge_user restore_package_json v p workdir inputs trusted c : V _) s h
    (fun h' s' _ => session_true 1 h' s') session_result.
Proof.
  intros Hs. unfold prepare. cbv zeta.
  apply (stage_keeps_seq 0); [lia|apply keeps_materialize; try apply _|done|]. clear dependent s. intros w h1 s Hs.
  apply (stage_keeps_seq 0); [lia|apply keeps_intake|done|]. clear dependent s. intros k h2 s Hs.
  apply (stage_keeps_seq 0); [lia|apply keeps_deletion; try apply _|done|]. clear dependent s. intros w' h3 s Hs.
  apply (stage_keeps_seq 0); [lia|apply keeps_bind_candidate; try apply _|done|]. clear dependent s. intros _ h4 s Hs.
  apply (stage_keeps_seq 0); [lia|apply keeps_image; try apply _|done|]. clear dependent s. intros image h5 s Hs.
  apply (stage_seq 1); [by apply setup_true|]. clear dependent s. intros isolation h6 s Hs.
  apply (stage_of_keeps 1); [lia| |done]. apply keeps_ready; [apply _|]. intros c'. auto with keeps.
Qed.

Lemma suite_step_true d s h :
  session_true 1 h s ->
  triple any (suite_step python_executable judge_user v p d : V _) s h
    (fun h' s' _ => session_true 2 h' s') session_result.
Proof.
  intros Hs. unfold suite_step.
  apply (stage_keeps_seq 1); [lia|auto with keeps|done|]. clear dependent s. intros env h1 s Hs.
  apply (stage_seq 2); [apply triple_on_trace; by apply execute_repo_suite_true|].
  clear dependent s. intros r h2 s Hs. apply (stage_of_keeps 2); [lia| |done].
  apply keeps_vbind; [apply keeps_checkpoint; try apply _|]. intros _. keeps_auto.
Qed.

Lemma pack_step_true d evidence phase c k s h :
  pack_configured p = true -> session_true 2 h s ->
  triple any (pack_step python_executable judge_user et_fromstring v d evidence phase c k : V _) s h
    (fun h' s' _ => session_true 3 h' s') session_result.
Proof.
  intros Hpk Hs. unfold pack_step.
  apply (stage_keeps_seq 2); [lia|apply keeps_execution_phase; try apply _|done|]. clear dependent s. intros _ h1 s Hs.
  apply (stage_keeps_seq 2); [lia|apply keeps_snapshot; try apply _|done|]. clear dependent s. intros k' h2 s Hs.
  apply (stage_keeps_seq 2); [lia|auto with keeps|done|]. clear dependent s. intros env h3 s Hs.
  apply (stage_seq 3); [apply triple_on_trace; by apply execute_repo_pack_true|].
  clear dependent s. intros r h4 s Hs. apply (stage_of_keeps 3); [lia| |done]. apply keeps_pack_ended; try apply _.
Qed.

Lemma judge_true d s h :
  session_true 1 h s ->
  triple any (judge_step python_executable judge_user et_fromstring v p d : V _) s h
    (fun h' s' _ => session_true 3 h' s') session_result.
Proof.
  intros Hs. unfold judge_step.
  apply (stage_seq 2); [by apply suite_step_true|]. clear dependent s. intros [completed evidence] h1 s Hs.
  apply (stage_keeps_seq 2); [lia|apply keeps_judge_suite; try apply _|done|]. clear dependent s. intros [phase c] h2 s Hs.
  destruct (pack_configured p) eqn:Hpk.
  - destruct (pd_pack d) as [k|]; [|by apply triple_raise].
    apply (stage_seq 3); [by apply pack_step_true|]. clear dependent s. intros [[composite pk] c'] h3 s Hs.
    apply (stage_of_keeps 3); [lia| |done]. keeps_auto.
  - apply (stage_of_keeps 3); [lia| |by apply (true_to_le 2); [lia|]].
    apply keeps_vbind; [apply keeps_execution_phase; try apply _|]. intros _. keeps_auto.
Qed.

Lemma stage_finally {A} (m : V A) final s h :
  triple any m s h (fun h' s' _ => session_true 3 h' s') session_result ->
  (forall b, keeps (session_true 3) (final b)) ->
  (forall s h, triple any (final true) s h (fun h' s' _ => True) (fun h' s' o => o = None)) ->
  triple any (finally m final) s h (fun h' s' _ => session_true 3 h' s') session_result.
Proof.
  intros Hm Hf Hraise. apply triple_finally. eapply triple_mono; [| |exact Hm].
  - intros h' s' a _ Hs. by apply (stage_of_keeps 3); [lia|apply Hf|].
  - intros h' s' [r|] _ Hs.
    + by apply (stage_of_keeps 3); [lia|apply Hf|].
    + eapply triple_mono; [| |apply Hraise]; [done|]. by intros h'' s'' o _ ->.
Qed.

(** The cleanup goes on or raises, wherever it is allowed. *)
Section Returns.
Context (allowed : log_t -> op W -> Prop) (Hallowed : forall h o, is_cleanup o = true -> allowed h o).

Lemma removal_returns_nothing paths s h :
  triple allowed (remove_workspaces paths : V _) s h (fun _ _ _ => True) (fun _ _ o => o = None).
Proof.
  revert s h. induction paths as [|[x|] paths IH]; intros s h; cbn [remove_workspaces]; [done| |apply IH].
  apply triple_vbind. apply triple_vbind, triple_ask; [by apply Hallowed|]. intros r.
  assert (Hrest : forall b s h, triple allowed (let! others := remove_workspaces paths in vret (b && others) : V _) s h
                                  (fun _ _ _ => True) (fun _ _ o => o = None)).
  { intros b s' h'. eapply triple_seq; [apply IH|done|done]. }
  destruct (match r with RUnit => Some true | RNotFound => Some false | _ => None end) as [[]|];
    [apply Hrest| |apply Hrest].
  apply triple_ask; [by apply Hallowed|]. intros r'. apply Hrest.
Qed.

Lemma cleanup_returns_nothing b s h :
  triple allowed (cleanup b : V _) s h (fun _ _ _ => True) (fun _ _ o => o = None).
Proof.
  unfold cleanup. apply triple_vbind, triple_get_state. eapply triple_seq; [apply removal_returns_nothing|done|].
  intros h' s' gone _ _. by destruct (gone || b).
Qed.
End Returns.

Lemma verify_true s h :
  session_true 0 h s ->
  triple any (_verify python_executable judge_user et_fromstring restore_package_json base v hypothesis p : V _) s h
    (fun h' s' _ => session_true 3 h' s') session_result.
Proof.
  intros Hs. unfold _verify.
  apply (stage_keeps_seq 0); [lia|apply keeps_inputs; try apply _|done|]. clear dependent s. intros inputs h1 s Hs.
  apply (stage_keeps_seq 0); [lia|apply keeps_trusted; try apply _|done|]. clear dependent s. intros trusted h2 s Hs.
  apply (stage_keeps_seq 0); [lia|apply keeps_admit; try apply _|done|]. clear dependent s. intros c h3 s Hs.
  apply (stage_keeps_seq 0); [lia|apply keeps_ask; intros; by apply true_to_quiet|done|]. clear dependent s. intros workdir h4 s Hs.
  apply (stage_keeps_seq 0); [lia|by apply keeps_modify|done|]. clear dependent s. intros _ h5 s Hs.
  apply stage_finally; [|apply keeps_cleanup|by apply cleanup_returns_nothing].
  apply (stage_seq 1); [by apply prepare_true|]. intros d h6 s' Hs'. by apply judge_true.
Qed.

(** A result ends the session with its evidence. *)
Lemma verify_session_true :
  triple any (verify_session python_executable judge_user et_fromstring restore_package_json base v hypothesis p : V _)
    new_session []
    (fun h' _ r => forall k x, In (k, x) (lifecycle_payload (observed_lifecycle (vc_isolation v) (pack_configured p) h')) ->
       dlookup (u k) (vr_artifact r) = Some x)
    (fun _ _ _ => True).
Proof.
  unfold verify_session.
  assert (Hs : session_true 0 [] new_session).
  { split; [|done]. cbn. unfold observed_lifecycle, lifecycle_of. cbn. by destruct (pack_configured p). }
  eapply triple_seq; [apply (stage_of_keeps 0); [lia| |exact Hs]; keeps_auto|done|].
  clear Hs. intros h1 s present _ Hs. apply triple_vbind.
  unfold settle, triple. apply wp_bind. eapply wp_mono; [|by apply verify_true].
  intros h2 [s' [r|r|]] _; [| |done]; cbn; intros Ht k x Hk; apply finalize_lifecycle;
    by rewrite (proj1 Ht).
Qed.

(** C12: The lifecycle evidence of a result is what happened.  For every execution of
    the verifier that returns a result, whatever the environment replied: the
    execution state, the started and completed flags of the suite and of the pack,
    and the delivered isolation in the artifact are exactly the function
    [observed_lifecycle] of the operations performed and their replies - started
    only when a launch of that phase was replied to by a process whose target
    started, completed only when it ended by itself, under the isolation it ran in. *)
Theorem lifecycle_evidence_observed log r k x :
  exec (verify python_executable judge_user et_fromstring restore_package_json base v hypothesis p) log (Some r) ->
  In (k, x) (lifecycle_payload (observed_lifecycle (vc_isolation v) (pack_configured p) log)) ->
  dlookup (u k) (vr_artifact r) = Some x.
Proof.
  intros (s & e & E & He)%verify_exec. destruct e as [r'| |]; [|done|done]. injection He as ->.
  apply (proj1 (wp_sound _ _ _ _ _ _ verify_session_true E)).
Qed.
End Truth.

(** ** The workspaces are removed *)

Section Cleanup.
Context `{UnicodeDB} {W : Type} `{Workspace W}.
Context (python_executable : str) (judge_user : Z * Z) (et_fromstring : str -> option element).
Context (restore_package_json : option str -> str -> str).
Context (base : tree) (v : RepoVerifier) (hypothesis : str) (p : RepoProblem).
Abbreviation log_t := (list (op W * reply W)).
Abbreviation P A := (M (op W) (reply W) RepoExecutionTrace VerdictResult A).
Abbreviation V A := (M (op W) (reply W) session VerdictResult A).

(** Every allocated workspace is one of the registered ones, and nothing has been
    removed. *)
Definition allocated (h : log_t) (path : str) : Prop :=
  exists prefix, (AllocateWorkspace prefix, RStr path) ∈ h.
Definition owned (h : log_t) (r1 r2 : option str) : Prop :=
  (forall path, allocated h path -> r1 = Some path \/ r2 = Some path) /\
  Forall (fun e => is_cleanup (fst e) = false) h.
Definition registered (r1 r2 : option str) (h : log_t) (s : session) : Prop :=
  se_candidate_root s = r1 /\ se_pack_root s = r2 /\ owned h r1 r2.
Definition claimed (w : str) (h : log_t) (s : session) : Prop := exists r2, registered (Some w) r2 h s.

Lemma allocated_snoc h o r path :
  allocated (h ++ [(o, r)]) path <->
  allocated h path \/ (allocates o = true /\ r = RStr path).
Proof.
  unfold allocated. setoid_rewrite elem_of_app. setoid_rewrite list_elem_of_singleton. split.
  - intros (x & [Hx|[= <- <-]]); [left; eauto|by right].
  - intros [(x & Hx)|[Ho ->]]; [eauto|]. destruct o; try done. eauto.
Qed.

Lemma owned_step h o r r1 r2 :
  allocates o = false -> is_cleanup o = false -> owned h r1 r2 -> owned (h ++ [(o, r)]) r1 r2.
Proof.
  intros Ha Hc [Ho Hf]. split.
  - intros path [Hp|[Hp _]]%allocated_snoc; [by apply Ho|congruence].
  - apply Forall_app. split; [done|]. by repeat constructor.
Qed.

#[local] Instance registered_stable r1 r2 : Stable (registered r1 r2).
Proof.
  split.
  - intros o r h s Ho (H1 & H2 & Hw). split; [done|]. split; [done|].
    by apply owned_step; [destruct o..|].
  - intros h s s' _ E1 E2 (H1 & H2 & Hw). split; [congruence|]. split; [congruence|done].
Qed.
#[local] Instance claimed_stable w : Stable (claimed w).
Proof.
  split.
  - intros o r h s Ho [r2 Hr]. exists r2. by apply stable_op.
  - intros h s s' E0 E1 E2 [r2 Hr]. exists r2. by eapply stable_update.
Qed.

(** A phase may launch but does not allocate. *)
Lemma keeps_owned_phase w {A} (m : P A) :
  (forall r2, keeps (fun h _ => owned h (Some w) r2) m) -> keeps (claimed w) (on_trace m : V A).
Proof.
  intros Hm s h (r2 & H1 & H2 & Ho). apply triple_zoom.
  eapply triple_mono; [| |by apply (Hm r2)]; intros h' t o _ Ho'; exists r2; by split_and!.
Qed.

#[local] Hint Extern 1 (keeps (fun h _ => owned h _ _) (ask _ _)) => apply keeps_ask; intros; by apply owned_step : keeps.
#[local] Hint Extern 1 (keeps (fun h _ => owned h _ _) (modify _)) => apply keeps_modify; intros; assumption : keeps.
#[local] Hint Extern 1 (keeps (claimed _) (ask _ _)) => apply keeps_session_ask; [apply _|reflexivity] : keeps.

Lemma owned_run_host r1 r2 ph cmd cwd env strict :
  keeps (fun h _ => owned h r1 r2) (run_host v ph cmd cwd env strict : P _).
Proof. unfold run_host. keeps_auto. Qed.
Lemma owned_run_docker r1 r2 ph image cmd copy workdir pack :
  keeps (fun h _ => owned h r1 r2) (_run_docker judge_user v ph image cmd copy workdir pack : P _).
Proof. unfold _run_docker. cbv zeta. keeps_auto. Qed.
#[local] Hint Resolve owned_run_host owned_run_docker : keeps.

Lemma owned_setup r1 r2 q strict : keeps (fun h _ => owned h r1 r2) (execute_repo_setup judge_user v q strict : P _).
Proof.
  unfold execute_repo_setup, _prepare_setup_execution, run_setup, setup_failure, setup_ended, _command_not_found,
    setup_evidence, setup_state. cbv zeta. keeps_auto.
Qed.
Lemma owned_suite r1 r2 q cmd evidence :
  keeps (fun h _ => owned h r1 r2) (execute_repo_suite judge_user v q cmd evidence : P _).
Proof.
  unfold execute_repo_suite, start_suite, suite_failure, suite_ended, suite_evidence, suite_started.
  cbv zeta. keeps_auto.
Qed.
Lemma owned_pack r1 r2 q evidence :
  keeps (fun h _ => owned h r1 r2) (execute_repo_pack python_executable judge_user v q evidence : P _).
Proof.
  unfold execute_repo_pack, start_pack, pack_failure, pack_ended, pack_evidence, pack_started.
  cbv zeta. keeps_auto.
Qed.

Abbreviation claims w := (fun h' s' _ => claimed w h' s') (only parsing).

Lemma claimed_of_keeps w {A} (m : V A) s h :
  keeps (claimed w) m -> claimed w h s ->
  triple any m s h (fun h' s' _ => claimed w h' s') (fun h' s' _ => claimed w h' s').
Proof. intros Hm. by apply Hm. Qed.

(** The pack workspace is registered as soon as it is allocated. *)
Lemma intake_claimed w copy changed s h :
  registered (Some w) None h s ->
  triple any (intake_step p copy changed : V _) s h (claims w) (claims w).
Proof.
  intros (H1 & H2 & Ho). unfold intake_step.
  assert (Hk : forall r2 h', owned h' (Some w) r2 -> claimed w h' (set_pack_root s r2))
    by (intros r2 h' Ho'; by exists r2).
  apply (triple_seq _ _ _ _ _ (claims w) _ _ (claims w)); [|done|].
  - apply triple_zoom. rewrite H2. unfold intake_repo_pack. cbv zeta.
    destruct (negb (is_empty _) && is_empty _); [by apply triple_vret, Hk|].
    destruct (is_empty _); [by apply triple_vret, Hk|].
    apply triple_vbind, triple_ask; [done|]. intros r.
    assert (Ho1 : owned (h ++ [(LExists (path_join copy reserved_mount_name), r)]) (Some w) None) by by apply owned_step.
    destruct (as_bool r) as [[]|]; [by apply triple_vret, Hk| |by apply Hk].
    apply triple_vbind, triple_ask; [done|]. intros r'.
    destruct (as_text r') as [dir|] eqn:Er.
    2:{ apply Hk. destruct Ho1 as [Ho1 Hf]. split.
        - intros path [Hp|[_ ->]]%allocated_snoc; [by apply Ho1|done].
        - apply Forall_app. split; [done|]. by repeat constructor. }
    apply triple_vbind, triple_modify.
    assert (Ho2 : owned ((h ++ [(LExists (path_join copy reserved_mount_name), r)])
                          ++ [(AllocateWorkspace (u "evo_pack_snapshot_"), r')]) (Some w) (Some dir)).
    { destruct Ho1 as [Ho1 Hf]. split.
      - intros path [Hp|[_ ->]]%allocated_snoc; [left; by destruct (Ho1 _ Hp)|]. right. injection Er as ->. done.
      - apply Forall_app. split; [done|]. by repeat constructor. }
    apply triple_vbind, triple_ask; [done|]. intros r''.
    destruct (as_pack r'') as [[exc|[sha manifest]]|]; [apply triple_vret| apply triple_vret|];
      apply Hk; by apply owned_step.
  - intros h' s' r _ Hc. apply claimed_of_keeps; [|exact Hc].
    apply keeps_vbind; [apply keeps_update; try apply _; intros s0; by destruct (intake_identity r) as [[]|]|].
    intros _. keeps_auto.
Qed.

Lemma prepare_claimed w workdir inputs trusted c s h :
  registered (Some w) None h s ->
  triple any (prepare python_executable judge_user restore_package_json v p workdir inputs trusted c : V _) s h
    (claims w) (claims w).
Proof.
  intros Hs. unfold prepare. cbv zeta.
  eapply triple_seq; [by apply (keeps_materialize (registered (Some w) None))|intros ? ? ? _ Hr; by exists None|].
  clear dependent s. intros h1 s w1 _ Hs. eapply triple_seq; [apply (intake_claimed w); exact Hs|done|].
  clear dependent s. intros h2 s k _ Hs. apply claimed_of_keeps; [|done].
  apply keeps_vbind; [apply keeps_deletion; try apply _|]. intros w2.
  apply keeps_vbind; [apply keeps_bind_candidate; try apply _|]. intros _.
  apply keeps_vbind; [apply keeps_image; try apply _|]. intros image.
  apply keeps_vbind.
  - unfold setup_step. destruct (negb _); [auto with keeps|]. apply keeps_vbind; [auto with keeps|]. intros env.
    apply keeps_vbind; [apply keeps_owned_phase; intros; apply owned_setup|]. intros o. keeps_auto.
  - intros isolation. apply keeps_ready; [apply _|]. intros c'. auto with keeps.
Qed.

Lemma judge_claimed w d :
  keeps (claimed w) (judge_step python_executable judge_user et_fromstring v p d : V _).
Proof.
  unfold judge_step. apply keeps_vbind.
  - unfold suite_step. apply keeps_vbind; [auto with keeps|]. intros env.
    apply keeps_vbind; [apply keeps_owned_phase; intros; apply owned_suite|]. intros r.
    apply keeps_vbind; [apply keeps_checkpoint; try apply _|]. intros _. keeps_auto.
  - intros [completed evidence]. apply keeps_vbind; [apply keeps_judge_suite; try apply _|]. intros [phase c].
    destruct (pack_configured p).
    + destruct (pd_pack d) as [k|]; [|auto with keeps]. apply keeps_vbind.
      * unfold pack_step. apply keeps_vbind; [apply keeps_execution_phase; try apply _|]. intros _.
        apply keeps_vbind; [apply keeps_snapshot; try apply _|]. intros k'.
        apply keeps_vbind; [auto with keeps|]. intros env.
        apply keeps_vbind; [apply keeps_owned_phase; intros; apply owned_pack|]. intros r.
        apply keeps_pack_ended; try apply _.
      * intros [[composite pk] c']. keeps_auto.
    + apply keeps_vbind; [apply keeps_execution_phase; try apply _|]. intros _. keeps_auto.
Qed.

(** What the removal of a workspace left in the log. *)
Definition attempted (l : log_t) (path : str) : Prop := exists r, (RemoveTree path, r) ∈ l.
Definition gone (l : log_t) (path : str) : Prop :=
  (RemoveTree path, RUnit) ∈ l \/ ((RemoveTree path, RNotFound) ∈ l /\ (PathAbsent path, RBool true) ∈ l).
Definition removed (must : bool) (l : log_t) (path : str) : Prop :=
  attempted l path /\ (must = true -> gone l path).

Lemma removed_app b l1 l l2 path : removed b l path -> removed b (l1 ++ l ++ l2) path.
Proof.
  assert (Hin : forall e : op W * reply W, e ∈ l -> e ∈ l1 ++ l ++ l2).
  { intros e He. apply elem_of_app. right. apply elem_of_app. by left. }
  intros [[r Hr] Hg]. split; [exists r; auto|]. intros Hb. destruct (Hg Hb) as [?|[? ?]]; [left|right]; auto.
Qed.

(** The paths of a list are removed, each of them, and [true] says that all are gone. *)
Definition removal (h : log_t) (s : session) (paths : list (option str)) (h' : log_t) (s' : session) (b : bool) : Prop :=
  s' = s /\ exists l, h' = h ++ l /\ Forall (fun e => is_cleanup (fst e) = true) l /\
    forall path, In (Some path) paths -> removed b l path.

Lemma remove_workspace_spec path s h :
  triple any (remove_workspace path : V _) s h (fun h' s' b => removal h s [Some path] h' s' b) (fun _ _ _ => False).
Proof.
  unfold remove_workspace. apply triple_vbind, triple_ask; [done|]. intros r.
  assert (Hone : forall l b, Forall (fun e => is_cleanup (fst e) = true) l ->
            (b = true -> gone ((RemoveTree path, r) :: l) path) -> removal h s [Some path] (h ++ (RemoveTree path, r) :: l) s b).
  { intros l b Hl Hg. split; [done|]. exists ((RemoveTree path, r) :: l). split; [done|]. split; [by constructor|].
    intros path' [[= <-]|[]]. split; [exists r; left|done]. }
  destruct r; try (apply triple_vret; by apply (Hone [] false)).
  - apply triple_vret. apply (Hone [] true); [done|]. intros _. left. left.
  - apply triple_ask; [done|]. intros r. rewrite <- app_assoc.
    apply (Hone [(PathAbsent path, r)]); [by repeat constructor|]. intros Hr. right. split; [left|right].
    destruct r; try done. destruct b; [left|done].
Qed.

Lemma remove_workspaces_spec paths s h :
  triple any (remove_workspaces paths : V _) s h (removal h s paths) (fun _ _ _ => False).
Proof.
  revert s h. induction paths as [|[path|] paths IH]; intros s h; cbn [remove_workspaces].
  - apply triple_vret. split; [done|]. exists []. by rewrite app_nil_r.
  - eapply triple_seq; [apply remove_workspace_spec|done|].
    intros h1 s1 b1 _ (-> & l1 & -> & Hf1 & Hr1). eapply triple_seq; [apply IH|done|].
    intros h2 s2 b2 _ (-> & l2 & -> & Hf2 & Hr2). apply triple_vret. split; [done|]. exists (l1 ++ l2).
    split; [by rewrite app_assoc|]. split; [by apply Forall_app|].
    intros path' [[= <-]|Hin].
    + destruct (removed_app b1 [] l1 l2 path (Hr1 _ (or_introl eq_refl))) as [Ha Hg]. split; [done|].
      intros [-> _]%andb_true_iff. by apply Hg.
    + destruct (Hr2 _ Hin) as [Ha Hg]. rewrite <- (app_nil_r l2).
      destruct (removed_app b2 l1 l2 [] path' (Hr2 _ Hin)) as [Ha' Hg']. split; [done|].
      intros [_ ->]%andb_true_iff. by apply Hg'.
  - eapply triple_mono; [| |apply IH]; [|done]. intros h' s' b _ (-> & l & -> & Hf & Hr). split; [done|].
    exists l. split; [done|]. split; [done|]. intros path' [Hn|Hin]; [done|by apply Hr].
Qed.

(** The removals end the log: nothing is removed before, nothing else is done
    after, and every allocated workspace is dealt with. *)
Definition cleaned (must : bool) (log : log_t) : Prop :=
  exists l1 l2, log = l1 ++ l2 /\ Forall (fun e => is_cleanup (fst e) = false) l1 /\
    Forall (fun e => is_cleanup (fst e) = true) l2 /\
    forall path, allocated log path -> removed must l2 path.
Definition is_result (o : option VerdictResult) : bool := match o with Some _ => true | None => false end.

Lemma allocated_app l1 l2 path :
  Forall (fun e => is_cleanup (fst e) = true) l2 -> allocated (l1 ++ l2) path -> allocated l1 path.
Proof.
  intros Hf [prefix [Hin|Hin]%elem_of_app]; [by exists prefix|]. rewrite Forall_forall in Hf.
  by apply Hf in Hin.
Qed.

Lemma cleaned_weaken log : cleaned true log -> cleaned false log.
Proof.
  intros (l1 & l2 & He & H1 & H2 & Hr). exists l1, l2. split_and!; [done..|].
  intros path Hp. split; [by apply Hr|done].
Qed.

Lemma cleanup_cleaned w primary s h :
  claimed w h s ->
  triple any (cleanup primary : V _) s h (fun h' _ _ => cleaned (negb primary) h')
    (fun h' _ o => o = None /\ cleaned false h').
Proof.
  intros (r2 & H1 & H2 & Ho & Hf). unfold cleanup. apply triple_vbind, triple_get_state.
  eapply triple_seq; [apply remove_workspaces_spec|done|].
  intros h' s' b _ (-> & l & -> & Hc & Hr).
  assert (Hd : forall must, (must = true -> b = true) -> cleaned must (h ++ l)).
  { intros must Hm. exists h, l. split; [done|]. split; [done|]. split; [done|].
    intros path Hp%allocated_app; [|done]. destruct (Hr path) as [Ha Hg].
    - rewrite H1, H2. destruct (Ho _ Hp) as [->| ->]; [by left|right; by left].
    - split; [done|]. auto. }
  destruct b, primary; cbn; try (by apply Hd). split; [done|by apply Hd].
Qed.

Lemma not_allocated_cleaned must h s : registered None None h s -> cleaned must h.
Proof.
  intros (_ & _ & Ho & Hf). exists h, []. rewrite app_nil_r. split_and!; [done..|].
  intros path Hp. by destruct (Ho _ Hp).
Qed.

Lemma verify_cleaned s h :
  registered None None h s ->
  triple any (_verify python_executable judge_user et_fromstring restore_package_json base v hypothesis p : V _) s h
    (fun h' _ _ => cleaned true h') (fun h' _ o => cleaned (is_result o) h').
Proof.
  intros Hs. unfold _verify.
  assert (Hn : forall h0 h s o, h0 `prefix_of` h -> registered None None h s -> cleaned (is_result o) h)
    by (intros; by eapply not_allocated_cleaned).
  eapply triple_seq; [by apply (keeps_inputs (registered None None))|exact (Hn _)|].
  clear dependent s. intros h1 s inputs _ Hs.
  eapply triple_seq; [by apply (keeps_trusted (registered None None))|exact (Hn _)|].
  clear dependent s. intros h2 s trusted _ Hs.
  eapply triple_seq; [by apply (keeps_admit (registered None None))|exact (Hn _)|].
  clear dependent s. intros h3 s c _ Hs.
  apply triple_vbind, triple_ask; [done|]. intros r. destruct Hs as (H1 & H2 & Ho & Hf).
  assert (Hf' : Forall (fun e => is_cleanup (fst e) = false) (h3 ++ [(AllocateWorkspace (u "evo_repo_"), r)]))
    by (apply Forall_app; split; [done|]; by repeat constructor).
  destruct (as_text r) as [w|] eqn:Er.
  2:{ apply (Hn h3 _ s); [by eexists|]. split; [done|]. split; [done|]. split; [|done].
      intros path [Hp|[_ ->]]%allocated_snoc; [by apply Ho|done]. }
  apply triple_vbind, triple_modify.
  assert (Hs : registered (Some w) None (h3 ++ [(AllocateWorkspace (u "evo_repo_"), r)]) (set_candidate_root s w)).
  { split; [done|]. split; [done|]. split; [|done].
    intros path [Hp|[_ ->]]%allocated_snoc; [by destruct (Ho _ Hp)|]. injection Er as ->. by left. }
  assert (Hfin : forall primary s h (D : log_t -> session -> unit -> Prop),
            claimed w h s -> (forall h s, cleaned (negb primary) h -> D h s tt) ->
            triple any (cleanup primary : V _) s h D (fun h' _ o => cleaned (is_result o) h')).
  { intros primary s' h' D Hc HD. eapply triple_mono; [| |by apply (cleanup_cleaned w)].
    - intros h'' s'' [] _. apply HD.
    - by intros h'' s'' o _ [-> Hc']. }
  apply triple_finally. apply (triple_mono _ _ _ _ (claims w) _ (claims w)).
  - intros h' s' a _ Hc. apply Hfin; [exact Hc|auto].
  - intros h' s' [r'|] _ Hc; (apply Hfin; [exact Hc|auto]).
  - eapply triple_seq; [by apply prepare_claimed|done|]. intros h' s' d _ Hc. by apply judge_claimed.
Qed.

(** C22: No workspace outlives a verification.  Every execution, however it ends,
    splits into the judgment, which removes nothing, and a final cleanup, after
    which nothing else is done and in which the removal of every workspace the
    judgment allocated - the candidate's and the pack's - is attempted.  When a
    result is returned each of them is proved gone: removed, or found absent after
    the removal reported it missing; otherwise the verification raised. *)
Theorem workspaces_never_outlive log o :
  exec (verify python_executable judge_user et_fromstring restore_package_json base v hypothesis p) log o ->
  cleaned (is_result o) log.
Proof.
  intros (s & e & E & ->)%verify_exec. revert E.
  assert (Hw : triple any (verify_session python_executable judge_user et_fromstring restore_package_json base v
                             hypothesis p : V _) new_session []
                 (fun h' _ _ => cleaned true h') (fun h' _ o => cleaned (is_result o) h')).
  { unfold verify_session. assert (Hs : registered None None ([] : log_t) new_session).
    { split; [done|]. split; [done|]. split; [|constructor]. intros path [x Hx]. inversion Hx. }
    apply (triple_seq _ _ _ _ _ (fun h' s' _ => registered None None h' s') _ _ (fun h' s' _ => registered None None h' s')).
    - by apply (keeps_present (registered None None)).
    - intros. by eapply not_allocated_cleaned.
    - intros h1 s1 present _ Hs1. apply triple_vbind. unfold settle, triple. apply wp_bind.
      eapply wp_mono; [|apply verify_cleaned; exact Hs1]. intros h2 [s2 [r|r|]] _ Hc; exact Hc. }
  intros E. destruct (wp_sound _ _ _ _ _ _ Hw E) as [Hc _]. destruct e; [exact Hc|by apply cleaned_weaken|exact Hc].
Qed.
End Cleanup.

(** ** Concrete executions *)

(** A parser of the one report used here. *)
Definition one_test_parser (text : str) : option element :=
  if text =s? u "<ok>" then
    Some (Elem (Some (u "testsuite")) [(u "tests", u "1")] [Elem (Some (u "testcase")) [] []])
  else None.

Definition sample_verifier : RepoVerifier :=
  {| vc_timeout := 60; vc_mem_limit_mb := 1024; vc_test_command := None; vc_setup_command := None;
     vc_protected := []; vc_allow := []; vc_allow_new_tests := false; vc_isolation := u "subprocess";
     vc_docker_image := None; vc_docker_network := u "none"; vc_docker_runtime := None;
     vc_trust_setup_on_host := false; vc_setup_output_globs := []; vc_strict_harness := false;
     vc_harness_inputs := []; vc_require_suite_continuity := false; vc_require_assert_liveness := false;
     vc_require_structured_verdict := true |}.

Definition sample_problem (pack : string) : RepoProblem :=
  {| pb_repo_path := u "/repo"; pb_test_command := None; pb_setup_command := None; pb_target_files := [];
     pb_protected := []; pb_allow := []; pb_allow_new_tests := false; pb_strict_harness := false;
     pb_harness_inputs := []; pb_deleted := []; pb_file_blocks := None; pb_verifier_pack := u pack;
     pb_expect_verifier_pack_sha256 := [] |}.

Definition sample_world : Type := gmap (list N) (list N).
Definition sample_verify (pack : string) : prog (op sample_world) (reply sample_world) (option VerdictResult) :=
  @verify ascii_unicode _ _ (u "/usr/bin/python3") (1000, 1000) one_test_parser keep_judge sample_base sample_verifier
    sample_hypothesis (sample_problem pack).

Definition clean_exit : process :=
  {| ps_returncode := 0; ps_stdout := []; ps_stderr := []; ps_target_started := true |}.
Definition sample_identity : Runtime.RuntimeIdentity :=
  {| Runtime.id_sha256 := u "s"; Runtime.id_digest_format := u "f"; Runtime.id_entries := 1;
     Runtime.id_regular_bytes := 2; Runtime.id_elapsed_ms := dec 1 0 |}.

(** A clean suite with no pack. *)
Definition suite_script : list (reply sample_world) :=
  [RSnapshot []; RStr (u "/tmp/w"); RTree sample_copy; RUnit; RUnit; RSnapshot []; RSnapshot [];
   REnvironment []; RFloat (dec 0 1); RWords (us ["py"]); RProcess clean_exit; RFloat (dec 1 0); RSnapshot [];
   RText (Some (u "<ok>")); RUnit].

(** A clean suite and a clean pack. *)
Definition pack_script : list (reply sample_world) :=
  [RBool true; RSnapshot []; RStr (u "/tmp/w"); RTree sample_copy; RUnit; RBool false; RStr (u "/tmp/p");
   RPack (u "abc", None); RUnit; RSnapshot []; RSnapshot []; RIdentity sample_identity; REnvironment [];
   RFloat (dec 0 1); RWords (us ["py"]); RProcess clean_exit; RFloat (dec 1 0); RSnapshot [];
   RCompared sample_identity []; RText (Some (u "<ok>")); RUnit; REnvironment []; RUnit; RWords (us ["py"]);
   RProcess clean_exit; RUnit; RCompared sample_identity []; RText (Some (u "<ok>")); RUnit; RUnit].

(** The suite starts and times out. *)
Definition timeout_script : list (reply sample_world) :=
  firstn 10 suite_script ++ [RRunError (TimeoutExpired true); RSnapshot []; RUnit].

Lemma lifecycle_evidence_observed_witness :
  exists log r, run (sample_verify "") timeout_script = Some (log, Some r) /\
    dlookup (u "execution_state") (vr_artifact r) = Some (VStr (u "started_incomplete")) /\
    dlookup (u "delivered_isolation") (vr_artifact r) = Some (VStr (u "subprocess")).
Proof.
  assert (Hl : match run (sample_verify "") timeout_script with
               | Some (log, Some _) =>
                   observed_lifecycle (u "subprocess") false log =
                   {| lc_state := u "started_incomplete"; lc_suite_started := true; lc_suite_completed := false;
                      lc_pack_started := false; lc_pack_completed := false; lc_delivered := u "subprocess" |}
               | _ => False
               end) by (vm_compute; reflexivity).
  destruct (run (sample_verify "") timeout_script) as [[log [r|]]|] eqn:E; [|destruct Hl..].
  exists log, r. split; [reflexivity|].
  pose proof (fun k x => lifecycle_evidence_observed _ _ _ _ _ _ _ _ log r k x (run_exec _ _ _ _ E)) as Hx.
  change (observed_lifecycle _ _ log) with (observed_lifecycle (u "subprocess") false log) in Hx. rewrite Hl in Hx.
  split; apply Hx; [left|do 5 right; left]; reflexivity.
Defined.

Lemma workspaces_never_outlive_witness :
  exists log r, run (sample_verify "/pack") pack_script = Some (log, Some r) /\ cleaned true log /\
    allocated log (u "/tmp/p").
Proof.
  assert (Hl : match run (sample_verify "/pack") pack_script with
               | Some (log, Some _) => log !! 6%nat = Some (AllocateWorkspace (u "evo_pack_snapshot_"), RStr (u "/tmp/p"))
               | _ => False
               end) by (vm_compute; reflexivity).
  destruct (run (sample_verify "/pack") pack_script) as [[log [r|]]|] eqn:E; [|destruct Hl..].
  exists log, r. split; [reflexivity|]. split.
  - exact (workspaces_never_outlive _ _ _ _ _ _ _ _ _ _ (run_exec _ _ _ _ E)).
  - eexists. exact (list_elem_of_lookup_2 _ _ _ Hl).
Defined.
