(* ===== verification/RepoVerifierSound.v ===== *)
(** What the repository verifier establishes before it judges: no process runs on
    a candidate that was not admitted, materialized and found to hold the trusted
    harness; no report is read before the tree it comes from was checked again;
    and a passing result has all of it in its log, in order. *)
From stdpp Require Import gmap.
From S2P Require Import MaterializeSound RepoVerifierEvidence.
From S2P Require Export RepoVerifierKeeps.
Local Open Scope Z_scope.

(** ** Growth of a log *)

Section Growth.
Context {W : Type}.
Abbreviation event := (op W * reply W)%type.
Abbreviation log_t := (list event).

Definition launch_event (e : event) : bool := is_launch (fst e).

(** The log grew by events that contain [es] in order; [grows]: none is a launch. *)
Definition grows_run (es h h' : log_t) : Prop := exists l, h' = h ++ l /\ es `sublist_of` l.
Definition grows (es h h' : log_t) : Prop :=
  exists l, h' = h ++ l /\ es `sublist_of` l /\ Forall (fun e => launch_event e = false) l.

Lemma grows_refl h : grows [] h h.
Proof. exists []. rewrite app_nil_r. by split_and!. Qed.
Lemma grows_one o r h : is_launch o = false -> grows [(o, r)] h (h ++ [(o, r)]).
Proof. intros Ho. exists [(o, r)]. split; [done|]. split; [done|]. by repeat constructor. Qed.
Lemma grows_trans es1 es2 h1 h2 h3 : grows es1 h1 h2 -> grows es2 h2 h3 -> grows (es1 ++ es2) h1 h3.
Proof.
  intros (l1 & -> & Hs1 & Hf1) (l2 & -> & Hs2 & Hf2). exists (l1 ++ l2). rewrite app_assoc. split; [done|].
  split; [by apply sublist_app|by apply Forall_app].
Qed.
Lemma grows_drop es h h' : grows es h h' -> grows [] h h'.
Proof. intros (l & -> & _ & Hf). exists l. split; [done|]. split; [apply sublist_nil_l|done]. Qed.
Lemma grows_snoc es o r h h' : grows es h h' -> is_launch o = false -> grows (es ++ [(o, r)]) h (h' ++ [(o, r)]).
Proof. intros Hg Ho. eapply grows_trans; [done|by apply grows_one]. Qed.
Lemma grows_skip es o r h h' : grows es h h' -> is_launch o = false -> grows es h (h' ++ [(o, r)]).
Proof.
  intros Hg Ho. rewrite <- (app_nil_r es). eapply grows_trans; [done|]. by eapply grows_drop, grows_one.
Qed.
Lemma grows_run_of es h h' : grows es h h' -> grows_run es h h'.
Proof. intros (l & -> & Hs & _). by exists l. Qed.
Lemma grows_run_trans es1 es2 h1 h2 h3 : grows_run es1 h1 h2 -> grows_run es2 h2 h3 -> grows_run (es1 ++ es2) h1 h3.
Proof.
  intros (l1 & -> & Hs1) (l2 & -> & Hs2). exists (l1 ++ l2). rewrite app_assoc. split; [done|by apply sublist_app].
Qed.
Lemma grows_run_one o r h : grows_run [(o, r)] h (h ++ [(o, r)]).
Proof. by exists [(o, r)]. Qed.

(** Events in order in a log, and in every longer one. *)
Definition trail (es h : log_t) : Prop := es `sublist_of` h.
Lemma trail_app es es' h h' : trail es h -> grows_run es' h h' -> trail (es ++ es') h'.
Proof. intros Ht (l & -> & Hs). by apply sublist_app. Qed.
Lemma trail_prefix es h h' : trail es h -> h `prefix_of` h' -> trail es h'.
Proof. intros Ht [l ->]. by apply sublist_inserts_r. Qed.

(** Nothing was launched since an event. *)
Definition since (P : event -> Prop) (h : log_t) : Prop :=
  exists l1 e l2, h = l1 ++ e :: l2 /\ P e /\ Forall (fun e => launch_event e = false) l2.
Lemma since_grows P es h h' : since P h -> grows es h h' -> since P h'.
Proof.
  intros (l1 & e & l2 & -> & He & Hf) (l & -> & _ & Hf'). exists l1, e, (l2 ++ l).
  rewrite <- app_assoc. split; [done|]. split; [done|by apply Forall_app].
Qed.
Lemma since_now (P : event -> Prop) h e : P e -> since P (h ++ [e]).
Proof. intros He. by exists h, e, []. Qed.
End Growth.

Section Protocol.
Context `{UnicodeDB} {W : Type} `{Workspace W}.
Context (python_executable : str) (judge_user : Z * Z) (et_fromstring : str -> option element).
Context (restore_package_json : option str -> str -> str).
Context (base : tree) (v : RepoVerifier) (hypothesis : str) (p : RepoProblem).
Abbreviation event := (op W * reply W)%type.
Abbreviation log_t := (list event).
Abbreviation P A := (M (op W) (reply W) RepoExecutionTrace VerdictResult A).
Abbreviation V A := (M (op W) (reply W) session VerdictResult A).

(** ** The protocol *)

Definition copy_of (workdir : str) : str := path_join workdir (u "repo").

(** The declared inputs are canonical and intact in the trusted base. *)
Definition inputs_bound (inputs : list str) : Prop :=
  normalize_harness_inputs (vc_harness_inputs v ++ pb_harness_inputs p) = Ok inputs /\
  validate_harness_input_files base (pb_repo_path p) inputs = Ok [].

Record candidate_run := {
  rn_inputs : list str;
  rn_trusted : path_states;
  rn_candidate : AdmittedRepoCandidate;
  rn_workdir : str;
  rn_copied : W;
  rn_edited : W;
  rn_final : W }.

(** An admitted candidate, applied without an error to the copy of the repository. *)
Definition applied (c : candidate_run) : Prop :=
  inputs_bound (rn_inputs c) /\
  admit_repo_candidate base hypothesis (pb_repo_path p) (admission_settings v p (rn_inputs c))
    = Ok (AdmittedCandidate (rn_candidate c)) /\
  materialize_candidate_edits (fun a b r => apply_patch a b r 1) restore_package_json (rn_copied c)
    (ac_file_blocks (rn_candidate c)) (ac_patch_blocks (rn_candidate c)) = (rn_edited c, None) /\
  apply_repo_candidate_deletions (ac_deleted_paths (rn_candidate c)) (rn_edited c) = (rn_final c, None).

Definition trusted_event (c : candidate_run) : event :=
  (CaptureHarness (pb_repo_path p) (rn_inputs c), RSnapshot (rn_trusted c)).
Definition copy_events (c : candidate_run) : log_t :=
  [(AllocateWorkspace (u "evo_repo_"), RStr (rn_workdir c));
   (CopyTree (ac_repo_path (rn_candidate c)) (copy_of (rn_workdir c)), RTree (rn_copied c));
   (TreeWritten (rn_edited c), RUnit)].
Definition final_event (c : candidate_run) : event := (TreeWritten (rn_final c), RUnit).

(** A capture of the copy's harness inputs that shows what the trusted base held. *)
Definition intact (c : candidate_run) (e : event) : Prop :=
  exists s, e = (CaptureHarness (copy_of (rn_workdir c)) (rn_inputs c), RSnapshot s) /\
    harness_input_snapshot_changes (rn_trusted c) s = [].

(** The candidate is in place, and its harness was intact after the last process. *)
Definition bound (c : candidate_run) (h : log_t) : Prop :=
  applied c /\ trail (trusted_event c :: copy_events c ++ [final_event c]) h /\ since (intact c) h.

(** The image of the containers. *)
Definition image_resolved (image : option str) (h : log_t) : Prop :=
  container_mode v = true ->
  exists i x, image = Some x /\ require_canonical_docker_image_id x = Some x /\ (ResolveImage i, RStr x) ∈ h.

(** How a process is confined: in the copy with the configured limits, on the host
    only as configured, or by a container command of the resolved image that
    mounts the copy read-only outside the setup. *)
Definition confined (c : candidate_run) (h : log_t) (o : op W) : Prop :=
  match o with
  | RunHost ph r =>
      hr_cwd r = copy_of (rn_workdir c) /\ hr_timeout r = vc_timeout v /\ hr_limits r = _limits v /\
      (container_mode v = true -> ph = SetupPhase /\ vc_trust_setup_on_host v = true)
  | RunDocker ph cmd name =>
      container_mode v = true /\
      exists image command outdir report_env pack,
        image_resolved (Some image) h /\
        _docker_command judge_user v (Some image) command (copy_of (rn_workdir c)) outdir name report_env
          (phase_eqb ph SetupPhase) pack = Some cmd
  | _ => True
  end.

(** The pack's snapshot and the candidate's tree were found unchanged after the
    last process. *)
Definition pack_checked (c : candidate_run) (h : log_t) : Prop :=
  exists h0 snapshot identity baseline i,
    grows [(VerifySnapshot snapshot identity, RUnit);
           (VerifyIdentity (copy_of (rn_workdir c)) baseline, RCompared i [])] h0 h.

(** What may be done after a log. *)
Definition may_do (h : log_t) (o : op W) : Prop :=
  match o with
  | RunHost _ _ | RunDocker _ _ _ => exists c, bound c h /\ confined c h o
  | ReadReport _ | ListReports _ =>
      exists c, applied c /\ (exists run x, starts SuitePhase run = true /\ (run, RProcess x) ∈ h) /\
        (since (intact c) h \/ pack_checked c h)
  | _ => True
  end.

(** No step that ends the verification early passes it. *)
Definition not_passed {S} (h : log_t) (s : S) (o : option VerdictResult) : Prop :=
  match o with Some r => vr_passed r = false | None => True end.

Abbreviation may := may_do.
Abbreviation fails := not_passed.

(** *** Reading replies *)

(** One request that launches nothing and reads no report. *)
Definition plain (o : op W) : bool :=
  match o with RunHost _ _ | RunDocker _ _ _ | ReadReport _ | ListReports _ => false | _ => true end.
Lemma plain_may h o : plain o = true -> may h o.
Proof. by destruct o. Qed.
Lemma plain_quiet o : plain o = true -> is_launch o = false.
Proof. by destruct o. Qed.

Lemma ask_spec {S A} (o : op W) (read : reply W -> option A) (s : S) h (D : log_t -> S -> A -> Prop) :
  plain o = true -> (forall r a, read r = Some a -> D (h ++ [(o, r)]) s a) ->
  triple may (ask o read) s h D fails.
Proof.
  intros Ho HD. apply triple_ask; [by apply plain_may|]. intros r. destruct (read r) as [a|] eqn:E; [auto|done].
Qed.

(** Sequencing, with the growth of the log. *)
Lemma seq_spec {S A B} (m : M (op W) (reply W) S VerdictResult A) (f : A -> M (op W) (reply W) S VerdictResult B)
    s h E D :
  triple may m s h E fails ->
  (forall h' s' a, h `prefix_of` h' -> E h' s' a -> triple may (f a) s' h' D fails) ->
  triple may (vbind m f) s h D fails.
Proof. intros Hm Hf. by eapply triple_seq; [exact Hm| |exact Hf]. Qed.

Lemma on_trace_spec {A} (m : P A) s h D :
  triple may m (se_trace s) h (fun h' t a => D h' (set_trace s t) a) fails ->
  triple may (on_trace m) s h D fails.
Proof. intros Hm. apply triple_zoom. revert Hm. by apply triple_mono. Qed.

Lemma bound_trail c h : bound c h -> trail (trusted_event c :: copy_events c ++ [final_event c]) h.
Proof. by intros (_ & Ht & _). Qed.
Lemma bound_grows c es h h' : bound c h -> grows es h h' -> bound c h'.
Proof.
  intros (Ha & Ht & Hi) Hg. split; [done|]. split; [|by eapply since_grows].
  destruct Hg as (l & -> & _). by apply sublist_inserts_r.
Qed.
Lemma image_prefix image h h' : image_resolved image h -> h `prefix_of` h' -> image_resolved image h'.
Proof.
  intros Hi [l ->] Hc. destruct (Hi Hc) as (i & x & Hx & Hr & Hin). exists i, x. split_and!; [done..|].
  apply elem_of_app. by left.
Qed.
Lemma grows_prefix es (h h' : log_t) : grows es h h' -> h `prefix_of` h'.
Proof. intros (l & -> & _). by exists l. Qed.

(** *** Up to the materialized candidate *)

Lemma inputs_spec s h :
  triple may (effective_harness_inputs base v p) s h (fun h' s' inputs => h' = h /\ inputs_bound inputs) fails.
Proof.
  unfold effective_harness_inputs, lift.
  destruct (normalize_harness_inputs _) as [inputs|] eqn:En; [|done].
  apply triple_vbind, triple_vret. apply (seq_spec _ _ _ _ (fun h' _ _ => h' = h)).
  - destruct inputs; [done|]. by destruct (setup_output_harness_conflicts _ _).
  - intros h' s' conflicts _ ->. destruct (negb _); [done|].
    destruct (validate_harness_input_files _ _ _) as [problems|] eqn:Ev; [|done].
    apply triple_vbind, triple_vret. destruct problems; [|done]. apply triple_vret. split; [done|]. by split.
Qed.

Lemma trusted_spec inputs s h :
  triple may (bind_trusted_harness p inputs) s h
    (fun h' s' trusted => grows [(CaptureHarness (pb_repo_path p) inputs, RSnapshot trusted)] h h') fails.
Proof.
  unfold bind_trusted_harness. apply triple_vbind. apply ask_spec; [done|].
  intros r a Hr. destruct a as [exc|trusted]; [done|]. apply triple_vret.
  destruct r; try done. injection Hr as ->. by apply grows_one.
Qed.

Lemma admit_spec inputs s h :
  triple may (admit_step base v hypothesis p inputs) s h
    (fun h' s' c => h' = h /\
       admit_repo_candidate base hypothesis (pb_repo_path p) (admission_settings v p inputs) = Ok (AdmittedCandidate c))
    fails.
Proof.
  unfold admit_step, lift. destruct (admit_repo_candidate _ _ _ _) as [[c| |r]|] eqn:E; [|done..].
  apply triple_vbind, triple_vret, triple_vret. by split.
Qed.

Lemma materialize_spec copy c s h :
  triple may (materialize_step restore_package_json copy c) s h
    (fun h' s' w1 => exists w0,
       materialize_candidate_edits (fun a b r => apply_patch a b r 1) restore_package_json w0
         (ac_file_blocks c) (ac_patch_blocks c) = (w1, None) /\
       grows [(CopyTree (ac_repo_path c) copy, RTree w0); (TreeWritten w1, RUnit)] h h') fails.
Proof.
  unfold materialize_step. apply triple_vbind. apply ask_spec; [done|]. intros r w0 Hr.
  assert (r = RTree w0) as -> by (destruct r; by try injection Hr as ->).
  destruct (materialize_candidate_edits _ _ _ _ _) as [w1 e] eqn:Em.
  apply triple_vbind. apply ask_spec; [done|]. intros r a Ha. assert (r = RUnit) as -> by by destruct r.
  destruct e as [e|]; [done|]. apply triple_vret. exists w0. split; [done|].
  by apply (grows_snoc [_]); [apply grows_one|].
Qed.

Lemma deletion_spec c w1 s h :
  triple may (deletion_step c w1) s h
    (fun h' s' w2 => apply_repo_candidate_deletions (ac_deleted_paths c) w1 = (w2, None) /\
       grows [(TreeWritten w2, RUnit)] h h') fails.
Proof.
  unfold deletion_step. destruct (apply_repo_candidate_deletions _ _) as [w2 e] eqn:Ed.
  apply triple_vbind. apply ask_spec; [done|]. intros r a Ha. assert (r = RUnit) as -> by by destruct r.
  destruct e as [[path exc]|]; [done|]. apply triple_vret. split; [done|]. by apply grows_one.
Qed.

(** *** Captures of the harness *)

Definition capture_event (copy : str) (inputs : list str) (s : path_states) : event :=
  (CaptureHarness copy inputs, RSnapshot s).

Lemma bind_candidate_spec copy inputs changed trusted s h :
  triple may (bind_candidate_harness copy inputs changed trusted) s h
    (fun h' s' _ => exists x, h' = h ++ [capture_event copy inputs x] /\ harness_input_snapshot_changes trusted x = [])
    fails.
Proof.
  unfold bind_candidate_harness. apply triple_vbind. apply ask_spec; [done|].
  intros r a Ha. destruct a as [exc|x]; [done|]. destruct (harness_input_snapshot_changes _ _) eqn:Ec; [|done].
  apply triple_vret. exists x. split; [|done]. destruct r; try done. by injection Ha as ->.
Qed.

Lemma checkpoint_spec copy inputs changed trusted checkpoint isolation s h :
  triple may (verify_harness_checkpoint copy inputs changed trusted checkpoint isolation) s h
    (fun h' s' _ => exists x, h' = h ++ [capture_event copy inputs x] /\ harness_input_snapshot_changes trusted x = [])
    fails.
Proof.
  unfold verify_harness_checkpoint. apply triple_vbind. apply ask_spec; [done|].
  intros r a Ha. destruct a as [exc|x]; [done|]. destruct (harness_input_snapshot_changes _ _) eqn:Ec; [|done].
  apply triple_vret. exists x. split; [|done]. destruct r; try done. by injection Ha as ->.
Qed.

Lemma image_spec changed s h :
  triple may (resolve_image v changed) s h
    (fun h' s' image => grows [] h h' /\ image_resolved image h') fails.
Proof.
  unfold resolve_image, image_resolved. destruct (container_mode v); cbn [negb].
  2:{ apply triple_vret. split; [apply grows_refl|done]. }
  destruct (vc_docker_image v) as [[|a image]|]; [done| |done].
  apply triple_vbind. apply ask_spec; [done|]. intros r x Hx. destruct x as [exc|x]; [done|].
  destruct (require_canonical_docker_image_id x) as [y|] eqn:Er; [|done]. apply triple_vret.
  split; [by apply grows_skip; [apply grows_refl|]|]. intros _.
  assert (y = x) as ->.
  { unfold require_canonical_docker_image_id in Er. destruct (_ && _); [congruence|done]. }
  eexists _, x. split_and!; [done..|]. apply elem_of_app. right.
  assert (r = RStr x) as -> by (destruct r; by try injection Hx as ->). apply list_elem_of_singleton. done.
Qed.

(** *** The pack's snapshot *)

(** The pack of a judgment: its snapshot and the identity that was accepted. *)
Definition snapshot_event (q : Pack.RepoPackContinuityRequest) : event :=
  (SnapshotPack (pack_dir p) (Pack.pc_pack_snapshot q), RPack (Pack.concrete (Pack.pc_identity q))).
Definition accepted_pack (q : Pack.RepoPackContinuityRequest) : Prop :=
  expected_pack_sha256 p <> [] -> py_lower (Pack.ai_sha256 (Pack.pc_identity q)) = expected_pack_sha256 p.
Definition pack_taken (k : option Pack.RepoPackContinuity) (h h' : log_t) : Prop :=
  match k with
  | None => pack_configured p = false /\ grows [] h h'
  | Some k => pack_configured p = true /\ k = Pack.new_pack_continuity (Pack.pc_request k) /\
      accepted_pack (Pack.pc_request k) /\ grows [snapshot_event (Pack.pc_request k)] h h'
  end.

(** What the intake returns, before it is turned into a result. *)
Definition intake_taken (r : RepoPackIntakeResult) (h h' : log_t) : Prop :=
  ir_failure r = None ->
  match ir_pack_sha256 r with
  | None => pack_configured p = false /\ grows [] h h'
  | Some sha => pack_configured p = true /\
      (expected_pack_sha256 p <> [] -> py_lower sha = expected_pack_sha256 p) /\
      exists snapshot, ir_pack_snapshot r = Some snapshot /\
        grows [(SnapshotPack (pack_dir p) snapshot, RPack (sha, ir_pack_manifest r))] h h'
  end.

Lemma intake_repo_pack_spec copy changed root h :
  triple may (intake_repo_pack {| iq_candidate_copy := copy; iq_files_changed := changed; iq_pack_dir := pack_dir p;
                                  iq_expected_pack_sha256 := expected_pack_sha256 p |}) root h
    (fun h' _ r => intake_taken r h h') fails.
Proof.
  unfold intake_repo_pack. cbn [iq_expected_pack_sha256 iq_pack_dir iq_candidate_copy].
  destruct (negb (is_empty (expected_pack_sha256 p)) && is_empty (pack_dir p)); [apply triple_vret; by intros ?|].
  destruct (is_empty (pack_dir p)) eqn:Ed.
  { apply triple_vret. intros _. cbn. unfold pack_configured. rewrite Ed. split; [done|apply grows_refl]. }
  assert (Hc : pack_configured p = true) by (unfold pack_configured; by rewrite Ed).
  apply triple_vbind. apply ask_spec; [done|]. intros r b _. destruct b; [apply triple_vret; by intros ?|].
  apply triple_vbind. apply ask_spec; [done|]. intros r' dir _.
  apply triple_vbind, triple_modify, triple_vbind. apply ask_spec; [done|]. intros r'' x Hx.
  destruct x as [exc|[sha manifest]]; apply triple_vret; unfold intake_taken; cbn; [done|].
  intros He. split; [done|]. split.
  - intros Hn. destruct (py_lower sha =s? expected_pack_sha256 p) eqn:El; [by apply str_eqb_eq|].
    destruct (expected_pack_sha256 p); [done|]. by cbn in He.
  - eexists. split; [done|]. destruct r''; try done. injection Hx as ->. apply (grows_snoc []); [|done].
    do 2 (apply grows_skip; [|done]). apply grows_refl.
Qed.

Lemma intake_spec copy changed s h :
  triple may (intake_step p copy changed) s h (fun h' s' k => pack_taken k h h') fails.
Proof.
  unfold intake_step. apply (seq_spec _ _ _ _ (fun h' _ r => intake_taken r h h')).
  { apply triple_zoom. eapply triple_mono; [| |apply intake_repo_pack_spec]; [|done].
    intros h' t r _ Hr. exact Hr. }
  intros h1 s1 r _ Hr. cbv beta in Hr. apply triple_vbind, triple_modify.
  destruct (ir_failure r) as [f|] eqn:Ef; [done|]. specialize (Hr Ef). unfold intake_identity in *.
  destruct (ir_pack_sha256 r) as [sha|]; [|by apply triple_vret].
  destruct Hr as (Hc & He & snapshot & -> & Hg). apply triple_vret. by split_and!.
Qed.

(** *** Processes *)

(** A launch on the bound candidate, and the processes it may report. *)
Definition ran_on (ph : phase) (h : log_t) (r : run_error + process) (h' : log_t) : Prop :=
  match r with
  | inl _ => True
  | inr x => exists run, starts ph run = true /\ grows_run [(run, RProcess x)] h h'
  end.

Lemma launch_ask_spec {S} c ph (o : op W) (t : S) h :
  starts ph o = true -> bound c h -> confined c h o ->
  triple may (ask o as_process) t h (fun h' t' r => ran_on ph h r h') fails.
Proof.
  intros Ho Hb Hc. apply triple_ask; [destruct o; try done; by exists c|]. intros r.
  destruct (as_process r) as [[e|x]|] eqn:Er; [done| |done]. exists o. split; [done|].
  assert (r = RProcess x) as -> by (destruct r; by try injection Er as ->). apply grows_run_one.
Qed.

Lemma grown_run ph (h h1 h' : log_t) r : grows [] h h1 -> ran_on ph h1 r h' -> ran_on ph h r h'.
Proof.
  intros Hg. destruct r as [e|x]; [done|]. intros (run & Hs & Hr). exists run. split; [done|].
  apply (grows_run_trans [] _ h h1 h'); [by apply grows_run_of|done].
Qed.

Lemma confined_prefix c h h' o : confined c h o -> h `prefix_of` h' -> confined c h' o.
Proof.
  intros Hc Hp. destruct o; try done. destruct Hc as (Hm & image & cmd & outdir & env & pack & Hi & Hd).
  split; [done|]. exists image, cmd, outdir, env, pack. split; [by eapply image_prefix|done].
Qed.

(** Where the report of a suite is found, and whether one was promised: whether the
    command could be wired to write it. *)
Definition suite_report (command : list str) (workdir : str) : str * bool :=
  if container_mode v
  then (path_join (path_join workdir (u "out")) (u "judge-result.xml"),
        snd (fst (instrument_command command (u "/out/judge-result.xml"))))
  else let path := path_join workdir (u "judge-result.xml") in (path, snd (fst (instrument_command command path))).

Lemma run_host_spec c ph cmd env strict (t : RepoExecutionTrace) h :
  bound c h -> (container_mode v = true -> ph = SetupPhase /\ vc_trust_setup_on_host v = true) ->
  triple may (run_host v ph cmd (copy_of (rn_workdir c)) env strict) t h
    (fun h' t' r => ran_on ph h r h') fails.
Proof.
  intros Hb Hc. unfold run_host. apply triple_vbind. apply ask_spec; [done|]. intros r x _.
  assert (Hg : grows [] h (h ++ [(ResolveHostCommand cmd (copy_of (rn_workdir c)) env, r)]))
    by (apply grows_skip; [apply grows_refl|done]).
  destruct x as [words|]; [|by apply triple_vret]. eapply triple_mono; [| |apply (launch_ask_spec c)]; [|done|..].
  - intros h' t' r' _. by apply grown_run.
  - by apply phase_eqb_eq.
  - by eapply bound_grows.
  - by split_and!.
Qed.

Lemma run_docker_spec c ph image cmd workdir pack (t : RepoExecutionTrace) h :
  bound c h -> container_mode v = true -> image_resolved image h -> ph <> SetupPhase ->
  triple may (_run_docker judge_user v ph image cmd (copy_of (rn_workdir c)) workdir pack) t h
    (fun h' t' x => ran_on ph h (snd (fst x)) h' /\ (fst (fst x), snd x) = suite_report cmd workdir) fails.
Proof.
  intros Hb Hm Hi Hph. unfold _run_docker, suite_report. rewrite Hm.
  destruct (instrument_command _ _) as [[cmd' expected] env].
  apply triple_vbind. apply ask_spec; [done|]. intros r [] _; [|by apply triple_vret]. cbn [negb].
  apply triple_vbind. apply ask_spec; [done|]. intros r' token _.
  destruct (_docker_command _ _ _ _ _ _ _ _ _ _) as [words|] eqn:Ed; [|done]. apply triple_vbind.
  match goal with |- triple _ _ _ ?h1 _ _ =>
    assert (Hg : grows [] h h1) by (do 2 (apply grows_skip; [|done]); apply grows_refl)
  end.
  eapply triple_mono; [| |apply (launch_ask_spec c)]; [|done|..].
  - intros h' t' x _ Hr. apply triple_vret. split; [exact (grown_run _ _ _ _ _ Hg Hr)|done].
  - by apply phase_eqb_eq.
  - by eapply bound_grows.
  - split; [done|]. destruct (Hi Hm) as (i & x & -> & Hx & Hin). do 5 eexists. split.
    + eapply image_prefix; [exact Hi|by eapply grows_prefix].
    + replace (phase_eqb ph SetupPhase) with false by (destruct ph; done). exact Ed.
Qed.

(** *** The setup *)

Definition setup_terminates (o : RepoSetupOutcome) : Prop :=
  match so_terminal_result o with Some r => vr_passed r = false | None => True end.

(** A step that only updates the trace, up to its value. *)
Ltac run_updates :=
  repeat (apply triple_vbind, triple_modify);
  first [apply triple_vret; reflexivity|apply triple_raise; exact I].

Lemma setup_failure_spec q e tokens docker (t : RepoExecutionTrace) h :
  triple may (setup_failure v q e tokens docker) t h (fun _ _ o => setup_terminates o) fails.
Proof.
  unfold setup_failure, _command_not_found, setup_evidence, setup_state.
  destruct e as [[]|[] []|[] []|[]| |]; try destruct docker; try destruct tokens; run_updates.
Qed.

Lemma setup_ended_spec q x before docker (t : RepoExecutionTrace) h :
  triple may (setup_ended v q x before docker) t h (fun _ _ o => setup_terminates o) fails.
Proof.
  unfold setup_ended, setup_evidence, setup_state. cbv zeta.
  destruct (negb (ps_target_started x)); [run_updates|]. destruct (docker && _); [run_updates|].
  do 2 apply triple_vbind, triple_modify. destruct (negb _); [by apply triple_vret|].
  apply triple_vbind. apply ask_spec; [done|]. intros r a _. destruct a as [exc|after]; [by apply triple_vret|].
  destruct (setup_fidelity_changes before after); by apply triple_vret.
Qed.

Lemma execute_repo_setup_spec c q strict (t : RepoExecutionTrace) h :
  bound c h -> sq_candidate_copy q = copy_of (rn_workdir c) -> sq_container_mode q = container_mode v ->
  image_resolved (sq_resolved_image q) h ->
  triple may (execute_repo_setup judge_user v q strict) t h (fun _ _ o => setup_terminates o) fails.
Proof.
  intros Hb Hcopy Hmode Hi. unfold execute_repo_setup.
  destruct (sq_configured_command q) as [command|]; [|by apply triple_vret].
  destruct (negb (cmd_truthy command)); [by apply triple_vret|]. apply triple_vbind, triple_modify. cbv zeta.
  set (docker := sq_container_mode q && negb (vc_trust_setup_on_host v)).
  apply (seq_spec _ _ _ _ (fun h' _ o => bound c h' /\
    match o with
    | Some (InContainer cmd name) => forall h'', h' `prefix_of` h'' -> confined c h'' (RunDocker SetupPhase cmd name)
    | Some (OnHost _) => container_mode v = true -> vc_trust_setup_on_host v = true
    | None => True
    end)).
  - unfold _prepare_setup_execution. subst docker. rewrite Hmode in *. destruct (_ && _) eqn:Em.
    + apply andb_true_iff in Em as [Em _]. apply triple_vbind. apply ask_spec; [done|]. intros r token _.
      destruct (_docker_command _ _ _ _ _ _ _ _ _ _) as [words|] eqn:Ed; [|done]. apply triple_vret.
      assert (Hg : grows [] h (h ++ [(ContainerToken, r)])) by (apply grows_skip; [apply grows_refl|done]).
      split; [by eapply bound_grows|]. intros h'' Hp. split; [done|].
      destruct (Hi Em) as (i & x & Hx & Hr & Hin). rewrite Hx, Hcopy in Ed.
      exists x, (setup_words command), None, [], None. split; [|exact Ed].
      eapply image_prefix; [rewrite <- Hx; exact Hi|]. etrans; [by eapply grows_prefix|done].
    + apply triple_vbind. apply ask_spec; [done|]. intros r o _. apply triple_vret. split.
      * eapply bound_grows; [done|]. apply grows_skip; [apply grows_refl|done].
      * destruct o; [|done]. intros Hm. rewrite Hm in Em. by apply negb_false_iff.
  - clear dependent t. intros h1 t [pr|] _ [Hb1 Hpr].
    2:{ unfold _command_not_found, setup_evidence. destruct docker; [run_updates|].
        destruct (setup_words command); run_updates. }
    apply triple_vbind. apply ask_spec; [done|]. intros r before _.
    destruct before as [exc|before]; [by apply triple_vret|].
    match goal with |- triple _ _ _ ?h2 _ _ =>
      assert (Hg : grows [] h1 h2) by (apply grows_skip; [apply grows_refl|done])
    end.
    apply (seq_spec _ _ _ _ (fun _ _ _ => True)).
    + unfold run_setup. destruct pr as [cmd name|cmd];
        (eapply triple_mono; [| |apply (launch_ask_spec c SetupPhase)]; [done|done|done|by eapply bound_grows|]).
      * apply Hpr. by eapply grows_prefix.
      * rewrite Hcopy. split_and!; [done..|]. intros Hm. split; [done|auto].
    + intros h2 t2 [e|x] _ _; [apply setup_failure_spec|apply setup_ended_spec].
Qed.

Lemma setup_spec c workdir changed strict image s h :
  bound c h -> image_resolved image h ->
  triple may (setup_step judge_user v p workdir (copy_of (rn_workdir c)) changed strict image) s h
    (fun _ _ _ => True) fails.
Proof.
  intros Hb Hi. unfold setup_step. destruct (negb _); [by apply triple_vret|].
  apply triple_vbind. apply ask_spec; [done|]. intros r env _.
  match goal with |- triple _ _ _ ?h1 _ _ =>
    assert (Hg : grows [] h h1) by (apply grows_skip; [apply grows_refl|done])
  end.
  apply (seq_spec _ _ _ _ (fun _ _ o => setup_terminates o)).
  - apply on_trace_spec. eapply execute_repo_setup_spec; [by eapply bound_grows|done|done|].
    eapply image_prefix; [exact Hi|by eapply grows_prefix].
  - intros h' s' o _ Ho. unfold setup_terminates in Ho. by destruct (so_terminal_result o).
Qed.

(** *** The suite *)

Lemma suite_failure_spec q cmd evidence e (t : RepoExecutionTrace) h (D : log_t -> RepoExecutionTrace -> _ -> Prop) :
  (forall h' t' r, vr_passed r = false -> D h' t' (inl r)) ->
  triple may (suite_failure v q cmd evidence e) t h D fails.
Proof.
  intros HD. unfold suite_failure, suite_evidence, suite_started. cbv zeta.
  destruct e as [[]|[] []|[] []|[]| |]; try destruct (xq_container_mode q); try destruct cmd;
    repeat (apply triple_vbind, triple_modify); first [apply triple_vret, HD; reflexivity|apply triple_raise; exact I].
Qed.

(** The completed suite is the process the log shows. *)
Definition completes (ph : phase) (h : log_t) (x : process) (h' : log_t) : Prop :=
  ps_target_started x = true /\ exists run, starts ph run = true /\ grows_run [(run, RProcess x)] h h'.

Definition suite_outcome (command : list str) (workdir : str) (h : log_t) (r : VerdictResult + RepoSuiteCompleted)
    (h' : log_t) : Prop :=
  match r with
  | inl r => vr_passed r = false
  | inr o => exists x, completes SuitePhase h x h' /\ sc_returncode o = ps_returncode x /\
               (sc_report_path o, sc_report_expected o) = suite_report command workdir
  end.

Lemma start_suite_spec c q cmd (t : RepoExecutionTrace) h :
  bound c h -> xq_candidate_copy q = copy_of (rn_workdir c) -> xq_container_mode q = container_mode v ->
  image_resolved (xq_resolved_image q) h ->
  triple may (start_suite judge_user v q cmd) t h
    (fun h' _ x => ran_on SuitePhase h (snd (fst x)) h' /\ (fst (fst x), snd x) = suite_report cmd (xq_workdir q)) fails.
Proof.
  intros Hb Hcopy Hmode Hi. unfold start_suite. rewrite Hcopy. destruct (xq_container_mode q).
  - by apply run_docker_spec.
  - unfold suite_report. rewrite <- Hmode. destruct (instrument_command _ _) as [[c' expected] env].
    eapply seq_spec; [apply (run_host_spec c); [done|congruence]|]. intros h' t' r _ Hr. by apply triple_vret.
Qed.

Lemma execute_repo_suite_spec c q cmd evidence (t : RepoExecutionTrace) h :
  bound c h -> xq_candidate_copy q = copy_of (rn_workdir c) -> xq_container_mode q = container_mode v ->
  image_resolved (xq_resolved_image q) h ->
  triple may (execute_repo_suite judge_user v q cmd evidence) t h
    (fun h' _ r => suite_outcome cmd (xq_workdir q) h r h') fails.
Proof.
  intros Hb Hcopy Hmode Hi. unfold execute_repo_suite. apply triple_vbind, triple_modify, triple_vbind.
  apply ask_spec; [done|]. intros r0 started _.
  match goal with |- triple _ _ _ ?h1 _ _ =>
    assert (Hg : grows [] h h1) by (apply grows_skip; [apply grows_refl|done])
  end.
  eapply seq_spec; [apply (start_suite_spec c); [by eapply bound_grows|done|done|]|].
  { eapply image_prefix; [exact Hi|by eapply grows_prefix]. }
  intros h2 t2 [[path [e|x]] expected] _ [Hr Hpath]; [by apply suite_failure_spec|]. cbv beta in Hr. cbn [fst snd] in Hr, Hpath.
  apply (grown_run _ _ _ _ _ Hg) in Hr as (run & Hs & Hr).
  apply triple_vbind. apply ask_spec; [done|]. intros r1 now _. unfold suite_ended, suite_evidence. cbv zeta.
  destruct (ps_target_started x) eqn:Est; [|by apply triple_vbind, triple_modify, triple_vret].
  destruct (_ && _); [by apply triple_vbind, triple_modify, triple_vret|].
  apply triple_vbind, triple_modify, triple_vret. exists x. split; [|done]. split; [done|]. exists run. split; [done|].
  eapply (grows_run_trans [_] []); [exact Hr|]. apply grows_run_of, grows_skip; [apply grows_refl|done].
Qed.

(** *** Runtime continuity *)

Definition baseline_events (copy : str) (b : option Runtime.RuntimeIdentity) : log_t :=
  match b with Some b => [(CaptureIdentity copy, RIdentity b)] | None => [] end.
Definition at_phase (q : Runtime.RepoRuntimeContinuityRequest) (b : option Runtime.RuntimeIdentity)
    (ph : Runtime.phase_t) (c : Runtime.RepoRuntimeContinuity) : Prop :=
  Runtime.rc_request c = q /\ Runtime.rc_baseline c = b /\
  match b with
  | None => Runtime.required q = false
  | Some _ => Runtime.rc_failure c = None /\ Runtime.rc_phase c = ph
  end.

Lemma requirements_spec copy changed isolation c b s h :
  triple may (_repo_suite_requirements_preflight python_executable v p copy changed isolation c b) s h
    (fun h' _ _ => grows [] h h') fails.
Proof.
  unfold _repo_suite_requirements_preflight, _assert_liveness_preflight. cbv zeta.
  destruct (instrument_command _ _) as [[cmd expected] env]. destruct (b && _); [done|].
  destruct (negb _); [apply triple_vret, grows_refl|]. destruct (negb _); [done|].
  apply ask_spec; [done|]. intros r a _. apply grows_skip; [apply grows_refl|done].
Qed.

Lemma continuity_spec o s h (D : log_t -> session -> _ -> Prop) :
  (forall s' f, snd o = Runtime.Returned f -> D h s' (fst o, f)) ->
  triple may (continuity_result o) s h D fails.
Proof.
  intros HD. unfold continuity_result, set_execution_phase. apply triple_vbind, triple_modify.
  destruct (snd o) as [f| |] eqn:Eo; [|done..]. by apply triple_vret, HD.
Qed.

Lemma capture_continues q trace observe :
  Runtime.required q = true ->
  snd (Runtime.capture_baseline (Runtime.new_continuity q trace) observe) = Runtime.Returned None ->
  exists i, observe = Runtime.Answer i /\
    at_phase q (Some i) Runtime.captured (fst (Runtime.capture_baseline (Runtime.new_continuity q trace) observe)).
Proof.
  intros Er. unfold Runtime.capture_baseline.
  assert (Hp : Runtime.in_phase (Runtime.new_continuity q trace) Runtime.not_captured = true)
    by (apply Runtime.in_phase_true; cbn; by rewrite Er).
  rewrite Hp. cbn [Runtime.new_continuity Runtime.rc_request Runtime.rc_failure]. rewrite Er. cbn [negb].
  destruct observe as [i|m|]; [|done..]. intros _. exists i. by split_and!.
Qed.

Lemma capture_spec copy changed isolation q trace s h :
  triple may (capture_step copy changed isolation (Runtime.new_continuity q trace)) s h
    (fun h' _ c => exists b, at_phase q b Runtime.captured c /\ grows (baseline_events copy b) h h') fails.
Proof.
  unfold capture_step. cbn [Runtime.new_continuity Runtime.rc_request].
  destruct (Runtime.required q) eqn:Er; cbn [negb].
  2:{ apply triple_vret. exists None. split; [by split_and!|apply grows_refl]. }
  apply triple_vbind. apply ask_spec; [done|]. intros r a Ha.
  apply triple_vbind. apply continuity_spec. intros s' f Hf.
  destruct f as [f|]; [done|]. destruct (capture_continues _ _ _ Er Hf) as (i & -> & Hat).
  apply triple_vret. exists (Some i). split; [done|].
  assert (r = RIdentity i) as -> by (destruct r; by try injection Ha as ->). by apply grows_one.
Qed.

Definition comparison_events (copy : str) (b : option Runtime.RuntimeIdentity) (i : Runtime.RuntimeIdentity)
    (changes : list str) : log_t :=
  match b with Some b => [(VerifyIdentity copy b, RCompared i changes)] | None => [] end.

(** A comparison that lets the judgment go on. *)
Lemma verify_continues c observe b c1 r :
  Runtime._verify c observe = (c1, r) -> Runtime.rc_baseline c = Some b ->
  match r with
  | inl changes => exists i, observe = Runtime.Answer (i, changes) /\ Runtime.rc_request c1 = Runtime.rc_request c /\
      Runtime.rc_baseline c1 = Some b /\ Runtime.rc_failure c1 = Runtime.rc_failure c
  | inr (inl _) => True
  | inr (inr o) => o = Runtime.ProviderRaised
  end.
Proof.
  unfold Runtime._verify. intros Hv Hb. rewrite Hb in Hv.
  destruct observe as [[i ch]|m|]; injection Hv as <- <-; [|done..]. by exists i.
Qed.

Lemma after_suite_continues c q b observe :
  at_phase q (Some b) Runtime.captured c -> snd (Runtime.verify_after_suite c observe) = Runtime.Returned None ->
  exists i changes, observe = Runtime.Answer (i, changes) /\ Runtime.judged_changes q changes = [] /\
    at_phase q (Some b) Runtime.suite_verified (fst (Runtime.verify_after_suite c observe)).
Proof.
  intros (Hq & Hb & Hf & Hp). unfold Runtime.verify_after_suite. rewrite Hf.
  replace (Runtime.in_phase c Runtime.captured) with true by (symmetry; by apply Runtime.in_phase_true). cbn [negb].
  destruct (Runtime._verify c observe) as [c1 r] eqn:Ev. pose proof (verify_continues _ _ _ _ _ Ev Hb) as Hr.
  destruct r as [changes|[f|o]]; [|done|by subst o]. destruct Hr as (i & -> & Hq1 & Hb1 & Hf1). rewrite Hq1, Hq.
  destruct (is_empty (Runtime.judged_changes q changes)) eqn:Ee; [|done]. intros _. exists i, changes.
  split; [done|]. split; [by apply is_empty_iff|]. split_and!; cbn; [by rewrite Hq1|done|by rewrite Hf1|done].
Qed.

Lemma after_pack_continues c q b observe :
  at_phase q (Some b) Runtime.suite_verified c -> snd (Runtime.verify_after_pack c observe) = Runtime.Returned None ->
  exists i, observe = Runtime.Answer (i, []).
Proof.
  intros (Hq & Hb & Hf & Hp). unfold Runtime.verify_after_pack. rewrite Hf.
  replace (Runtime.in_phase c Runtime.suite_verified) with true by (symmetry; by apply Runtime.in_phase_true). cbn [negb].
  destruct (Runtime._verify c observe) as [c1 r] eqn:Ev. pose proof (verify_continues _ _ _ _ _ Ev Hb) as Hr.
  destruct r as [[|x changes]|[f|o]]; [|done|done|by subst o]. destruct Hr as (i & -> & _). by exists i.
Qed.

Lemma compared_reply r i changes :
  answer_compared r = Some (Runtime.Answer (i, changes)) -> r = RCompared (W := W) i changes.
Proof. destruct r; try done. by intros [= -> ->]. Qed.

Lemma after_suite_spec copy changed isolation q b c s h :
  at_phase q b Runtime.captured c ->
  triple may (_verify_after_suite_continuity copy changed isolation c) s h
    (fun h' _ c' => exists i changes, Runtime.judged_changes q changes = [] /\
       at_phase q b Runtime.suite_verified c' /\ grows (comparison_events copy b i changes) h h') fails.
Proof.
  intros Hc. unfold _verify_after_suite_continuity. pose proof Hc as (Hq & Hb & Hrest). rewrite Hb.
  destruct b as [b|].
  2:{ apply triple_vret. exists sample_identity, []. split; [done|]. split; [by split_and!|apply grows_refl]. }
  apply triple_vbind. apply ask_spec; [done|]. intros r a Ha. apply triple_vbind. apply continuity_spec.
  intros s' f Hf. destruct f as [f|]; [apply triple_vbind, triple_get_state, triple_refuse; reflexivity|].
  destruct (after_suite_continues _ _ _ _ Hc Hf) as (i & changes & -> & Hj & Hat). apply triple_vret.
  exists i, changes. split; [done|]. split; [done|]. apply compared_reply in Ha as ->. by apply grows_one.
Qed.

Lemma finalize_at_phase q b c :
  at_phase q b Runtime.suite_verified c -> Runtime.rq_pack_configured q = true ->
  at_phase q b Runtime.suite_verified (Runtime.finalize_suite_only c).
Proof. intros Hc Hq. unfold Runtime.finalize_suite_only. pose proof Hc as (-> & _). by rewrite Hq. Qed.

(** *** Reports *)

(** The tree a report comes from was checked after the last process. *)
Definition readable (h : log_t) : Prop := may_do h (ReadReport []).

Lemma readable_grows es h h' : readable h -> grows es h h' -> readable h'.
Proof.
  intros (c & Ha & (run & x & Hs & Hin) & Hc) Hg. pose proof Hg as (l & -> & _). exists c. split; [done|]. split.
  - exists run, x. split; [done|]. apply elem_of_app. by left.
  - destruct Hc as [Hc|(h0 & snapshot & identity & b & i & Hc)]; [left; by eapply since_grows|right].
    exists h0, snapshot, identity, b, i. rewrite <- (app_nil_r [_; _]).
    eapply grows_trans; [exact Hc|by eapply grows_drop].
Qed.

Lemma read_report_spec path (t : RepoExecutionTrace) h :
  readable h ->
  triple may (read_report path) t h
    (fun h' _ text => exists x, text = default [] x /\ grows [(ReadReport path, RText x)] h h') fails.
Proof.
  intros Hr. unfold read_report. apply triple_vbind, triple_ask; [exact Hr|]. intros r.
  destruct r; try exact I. apply triple_vret. eexists. split; [done|]. by apply grows_one.
Qed.

(** The reads of a suite's report, and the counts they give. *)
Definition report_events (path : str) (text : option str) (listing : option (list dir_entry)) : log_t :=
  (ReadReport path, RText text) ::
  match parse_junit_xml et_fromstring (default [] text) with
  | Some _ => []
  | None => [(ListReports (path ++ u ".d"), RListing listing)]
  end.
Definition report_counts (text : option str) (listing : option (list dir_entry)) : option JUnitCounts :=
  match parse_junit_xml et_fromstring (default [] text) with
  | Some j => Some j
  | None => fst <$> parse_junit_dir_with_digest et_fromstring listing
  end.

(** A clean run: exit zero, and a report of at least one test without a failure or
    an error, which may be missing only where none is demanded. *)
Definition clean_counts (demanded : bool) (returncode : Z) (counts : option JUnitCounts) : Prop :=
  returncode = 0 /\
  match counts with
  | Some j => 0 < jc_total j /\ jc_failures j = 0 /\ jc_errors j = 0
  | None => demanded = false
  end.

Lemma interpret_suite_spec completed insist (t : RepoExecutionTrace) h :
  readable h ->
  triple may (interpret_repo_suite et_fromstring completed insist) t h
    (fun h' _ phase => exists text listing,
       grows (report_events (sc_report_path completed) text listing) h h' /\
       (rp_passed phase = true ->
          clean_counts (insist || sc_report_expected completed) (sc_returncode completed) (report_counts text listing))) fails.
Proof.
  intros Hr. unfold interpret_repo_suite. eapply seq_spec; [by apply read_report_spec|].
  intros h1 t1 text _ (x & -> & Hg). cbv zeta.
  assert (Hclean : forall ev, rp_passed (evaluate_repo_phase ev insist) = true ->
            clean_counts (insist || ev_report_expected ev) (ev_returncode ev) (ev_junit ev)).
  { intros ev. unfold evaluate_repo_phase. cbn [rp_passed]. destruct (insist && _) eqn:Ei; [done|].
    intros [Hrc Hj]%grade_passed_iff. split; [done|]. destruct (ev_junit ev); [done|]. rewrite Hj. by destruct insist. }
  assert (Hevent : forall listing h',
            (match parse_junit_xml et_fromstring (default [] x) with Some _ => h' = h1
             | None => h' = h1 ++ [(ListReports (sc_report_path completed ++ u ".d"), RListing listing)] end) ->
            grows (report_events (sc_report_path completed) x listing) h h').
  { intros listing h'. unfold report_events. destruct (parse_junit_xml _ _); intros ->; [done|].
    by apply (grows_snoc [_]). }
  destruct (parse_junit_xml et_fromstring (default [] x)) as [j|] eqn:Ej.
  - destruct (is_empty (default [] x)); [|unfold text_digest; destruct (utf8 _); [|done]; apply triple_vbind, triple_vret];
      (apply triple_vret; exists x, None; split; [by apply Hevent|]; unfold report_counts; rewrite Ej; by intros Hp%Hclean).
  - apply triple_vbind, triple_ask; [exact (readable_grows _ _ _ Hr Hg)|].
    intros r. destruct r; try exact I. cbn [as_listing].
    destruct (parse_junit_dir_with_digest et_fromstring _) as [[j digest]|] eqn:Ed;
      apply triple_vret; eexists x, _; (split; [by apply Hevent|]); unfold report_counts; rewrite Ej, Ed; by intros Hp%Hclean.
Qed.

Lemma interpret_pack_spec completed (t : RepoExecutionTrace) h :
  readable h ->
  triple may (interpret_repo_pack et_fromstring completed) t h
    (fun h' _ phase => exists text,
       grows [(ReadReport (kc_report_path completed), RText text)] h h' /\
       (pp_passed phase = true ->
          clean_counts true (kc_returncode completed) (parse_junit_xml et_fromstring (default [] text)))) fails.
Proof.
  intros Hr. unfold interpret_repo_pack. eapply seq_spec; [by apply read_report_spec|].
  intros h1 t1 text _ (x & -> & Hg). cbv zeta.
  assert (Hclean : forall ev, pp_passed (evaluate_pack_phase ev) = true ->
            clean_counts true (ev_returncode ev) (ev_junit ev)).
  { intros ev. unfold evaluate_pack_phase. cbv zeta.
    destruct (g_tests_total _ =? 0) eqn:Et; [by destruct (ev_junit ev)|].
    destruct (clean_verdict_source _ _ _); [|done]. cbn [pp_passed]. intros Hp.
    pose proof Hp as [Hrc Hj]%grade_passed_iff. split; [done|]. destruct (ev_junit ev) as [j|]; [done|].
    unfold grade_repo_run in Et. by rewrite Hrc, Hj in Et. }
  destruct (is_empty _); [|unfold text_digest; destruct (utf8 _); [|done]; apply triple_vbind, triple_vret];
    (apply triple_vret; exists x; split; [done|]; by intros Hp%Hclean).
Qed.

Lemma liveness_spec path changed isolation c s h :
  readable h ->
  triple may (_assert_liveness_tamper et_fromstring v path changed isolation c) s h (fun h' _ _ => grows [] h h') fails.
Proof.
  intros Hr. unfold _assert_liveness_tamper. destruct (negb _); [apply triple_vret, grows_refl|].
  apply (seq_spec _ _ _ _ (fun h' _ _ => grows [] h h')).
  - apply on_trace_spec. eapply triple_mono; [| |by apply read_report_spec]; [|done].
    intros h1 t1 text _ (x & _ & Hg). by eapply grows_drop.
  - intros h1 s1 text _ Hg. destruct (negb _); [|done]. by apply triple_vret.
Qed.

(** *** The preparation *)

Definition capture_of (c : candidate_run) (s : path_states) : event :=
  capture_event (copy_of (rn_workdir c)) (rn_inputs c) s.
Definition same_harness (c : candidate_run) (s : path_states) : Prop :=
  harness_input_snapshot_changes (rn_trusted c) s = [].
Definition snapshot_events (k : option Pack.RepoPackContinuity) : log_t :=
  match k with Some k => [snapshot_event (Pack.pc_request k)] | None => [] end.
Definition pack_bound (k : option Pack.RepoPackContinuity) : Prop :=
  match k with
  | None => pack_configured p = false
  | Some k => pack_configured p = true /\ k = Pack.new_pack_continuity (Pack.pc_request k) /\
      accepted_pack (Pack.pc_request k)
  end.

(** Everything before the suite, in order. *)
Definition preparation (c : candidate_run) (k : option Pack.RepoPackContinuity) (s0 s1 : path_states)
    (b : option Runtime.RuntimeIdentity) : log_t :=
  trusted_event c :: copy_events c ++ snapshot_events k ++ [final_event c; capture_of c s0; capture_of c s1]
  ++ baseline_events (copy_of (rn_workdir c)) b.

Definition prepared_as (c : candidate_run) (k : option Pack.RepoPackContinuity) (s0 s1 : path_states)
    (b : option Runtime.RuntimeIdentity) (d : prepared) (h : log_t) : Prop :=
  pd_workdir d = rn_workdir c /\
  pd_copy d = copy_of (rn_workdir c) /\ pd_inputs d = rn_inputs c /\ pd_trusted d = rn_trusted c /\
  pd_candidate d = rn_candidate c /\ pd_pack d = k /\ image_resolved (pd_image d) h /\
  at_phase (continuity_request v p (copy_of (rn_workdir c))) b Runtime.captured (pd_runtime d) /\
  pack_bound k /\ same_harness c s0 /\ same_harness c s1 /\ bound c h /\ trail (preparation c k s0 s1 b) h.

Lemma trail_grows es es' (h h' : log_t) : trail es h -> grows es' h h' -> trail (es ++ es') h'.
Proof. intros Ht Hg. eapply trail_app; [done|by apply grows_run_of]. Qed.
Lemma bound_here c h s :
  applied c -> trail (trusted_event c :: copy_events c ++ [final_event c]) h -> same_harness c s ->
  bound c (h ++ [capture_of c s]).
Proof.
  intros Ha Ht Hs. split; [done|]. split; [by apply sublist_inserts_r|]. apply since_now. by exists s.
Qed.

Lemma pack_taken_bound k h h' : pack_taken k h h' -> pack_bound k /\ grows (snapshot_events k) h h'.
Proof. destruct k as [k|]; [intros (? & ? & ? & ?)|intros (? & ?)]; by split_and!. Qed.

Lemma prepare_spec workdir inputs trusted cand s h :
  inputs_bound inputs ->
  admit_repo_candidate base hypothesis (pb_repo_path p) (admission_settings v p inputs) = Ok (AdmittedCandidate cand) ->
  trail [(CaptureHarness (pb_repo_path p) inputs, RSnapshot trusted); (AllocateWorkspace (u "evo_repo_"), RStr workdir)] h ->
  triple may (prepare python_executable judge_user restore_package_json v p workdir inputs trusted cand) s h
    (fun h' _ d => exists c k s0 s1 b, prepared_as c k s0 s1 b d h') fails.
Proof.
  intros Hi Ha Ht. unfold prepare. cbv zeta.
  eapply seq_spec; [apply materialize_spec|]. intros h1 t1 w1 _ (w0 & Hm & Hg1). clear s.
  eapply seq_spec; [apply intake_spec|]. intros h2 t2 k _ Hk. apply pack_taken_bound in Hk as [Hk Hg2]. clear t1.
  eapply seq_spec; [apply deletion_spec|]. intros h3 t3 w2 _ [Hd Hg3]. clear t2.
  set (c := {| rn_inputs := inputs; rn_trusted := trusted; rn_candidate := cand; rn_workdir := workdir;
               rn_copied := w0; rn_edited := w1; rn_final := w2 |}).
  assert (Happ : applied c) by by split_and!.
  pose proof (trail_grows _ _ _ _ Ht Hg1) as T1. pose proof (trail_grows _ _ _ _ T1 Hg2) as T2.
  pose proof (trail_grows _ _ _ _ T2 Hg3) as T3.
  assert (Hbase : trail (trusted_event c :: copy_events c ++ [final_event c]) h3).
  { pose proof (trail_grows _ _ _ _ (trail_grows _ _ _ _ T1 (grows_drop _ _ _ Hg2)) Hg3) as T. exact T. }
  clear Hg1 Hg2 Hg3 Ht T1 T2.
  eapply seq_spec; [apply bind_candidate_spec|]. intros h4 t4 _ _ (s0 & -> & Hs0). clear t3.
  pose proof (bound_here c h3 s0 Happ Hbase Hs0) as Hb4.
  pose proof (trail_app _ _ _ _ T3 (grows_run_one (CaptureHarness (copy_of workdir) inputs) (RSnapshot s0) _)) as T4.
  eapply seq_spec; [apply image_spec|]. intros h5 t5 image _ [Hg5 Himg]. clear t4.
  eapply seq_spec; [apply (setup_spec c); [by eapply bound_grows|done]|]. intros h6 t6 isolation Hp6 _. clear t5.
  eapply seq_spec; [apply checkpoint_spec|]. intros h7 t7 _ _ (s1 & -> & Hs1).
  assert (Hp36 : (h3 ++ [capture_of c s0]) `prefix_of` h6) by (etrans; [by eapply grows_prefix|done]).
  assert (Hb7 : bound c (h6 ++ [capture_of c s1])).
  { apply bound_here; [done| |done]. eapply trail_prefix; [exact Hbase|]. etrans; [by eexists|done]. }
  apply triple_vbind, triple_get_state.
  eapply seq_spec; [apply requirements_spec|]. intros h8 t8 a8 _ Hg8. cbv beta in Hg8. clear a8.
  eapply seq_spec; [apply capture_spec|]. intros h9 t9 r _ (b & Hat & Hg9).
  apply triple_vret. exists c, k, s0, s1, b. split_and!; try done.
  - eapply image_prefix; [exact Himg|]. etrans; [exact Hp6|]. etrans; [by eexists|].
    etrans; [by eapply grows_prefix|by eapply grows_prefix].
  - eapply bound_grows; [by eapply bound_grows|done].
  - pose proof (trail_app _ _ _ _ (trail_prefix _ _ _ T4 Hp36) (grows_run_one (CaptureHarness (copy_of workdir) inputs) (RSnapshot s1) h6)) as T7.
    pose proof (trail_grows _ _ _ _ (trail_grows _ _ _ _ T7 Hg8) Hg9) as T9.
    rewrite app_nil_r in T9. unfold preparation. rewrite <- !app_assoc in T9. exact T9.
Qed.

(** *** The suite and its judgment *)

Record suite_run := {
  sr_launch : op W;
  sr_process : process;
  sr_harness : path_states;
  sr_identity : Runtime.RuntimeIdentity;
  sr_changes : list str;
  sr_path : str;
  sr_text : option str;
  sr_listing : option (list dir_entry) }.

Definition launch_events (c : candidate_run) (r : suite_run) : log_t :=
  [(sr_launch r, RProcess (sr_process r)); capture_of c (sr_harness r)].
Definition judged_events (c : candidate_run) (b : option Runtime.RuntimeIdentity) (r : suite_run) : log_t :=
  comparison_events (copy_of (rn_workdir c)) b (sr_identity r) (sr_changes r)
  ++ report_events (sr_path r) (sr_text r) (sr_listing r).

(** The report of the configured command in the workspace of a run. *)
Definition report_of (c : candidate_run) : str * bool := suite_report (_command python_executable v p) (rn_workdir c).

(** The suite started, ended, left the harness alone, and changed no judged file; what
    was read as its report is what it was told to write. *)
Definition suite_sound (c : candidate_run) (r : suite_run) : Prop :=
  sr_path r = fst (report_of c) /\ starts SuitePhase (sr_launch r) = true /\ ps_target_started (sr_process r) = true /\
  same_harness c (sr_harness r) /\
  Runtime.judged_changes (continuity_request v p (copy_of (rn_workdir c))) (sr_changes r) = [].

Definition insists (c : candidate_run) : bool :=
  ac_strict_harness (rn_candidate c) || vc_require_structured_verdict v.

(** A report is demanded where it was promised, and where the judge insists on one. *)
Definition suite_clean (c : candidate_run) (r : suite_run) : Prop :=
  clean_counts (insists c || snd (report_of c)) (ps_returncode (sr_process r)) (report_counts (sr_text r) (sr_listing r)).

Lemma suite_step_spec c k s0 s1 b d s h :
  prepared_as c k s0 s1 b d h ->
  triple may (suite_step python_executable judge_user v p d) s h
    (fun h' _ x => exists run o s2,
       (sc_report_path (fst x), sc_report_expected (fst x)) = report_of c /\
       starts SuitePhase run = true /\ ps_target_started o = true /\ same_harness c s2 /\
       sc_returncode (fst x) = ps_returncode o /\ bound c h' /\ readable h' /\
       grows_run [(run, RProcess o); capture_of c s2] h h') fails.
Proof.
  intros (Hwd & Hcopy & Hin & Htr & Hcand & _ & Hi & _ & _ & _ & _ & Hb & Ht). unfold suite_step.
  apply triple_vbind. apply ask_spec; [done|]. intros r env _.
  match goal with |- triple _ _ _ ?h1 _ _ =>
    assert (Hg1 : grows [] h h1) by (apply grows_skip; [apply grows_refl|done])
  end.
  rewrite Hcopy, Hin, Htr. apply (seq_spec _ _ _ _ (fun h' _ r => suite_outcome (_command python_executable v p) (rn_workdir c) h r h')).
  { apply on_trace_spec. eapply triple_mono; [| |apply (execute_repo_suite_spec c)]; [|done|..]; try done.
    - cbn [xq_workdir]. rewrite <- Hwd. intros h2 t2 [x|x] _; [done|]. intros (o & (Hst & run & Hrun & Hgr) & Hrc).
      exists o. split; [|done]. split; [done|]. exists run. split; [done|]. eapply (grows_run_trans [] [(run, RProcess o)]); [apply grows_run_of; exact Hg1|exact Hgr].
    - by eapply bound_grows.
    - eapply image_prefix; [exact Hi|by eapply grows_prefix]. }
  intros h2 t2 x Hp2 Hx. apply (seq_spec _ _ _ _ (fun h' _ _ => exists s2, h' = h2 ++ [capture_of c s2] /\ same_harness c s2)).
  { apply checkpoint_spec. }
  intros h3 t3 _ _ (s2 & -> & Hs2). destruct x as [x|completed]; [exact Hx|].
  destruct Hx as (o & (Hst & run & Hrun & Hgr) & Hrc & Hrep). apply triple_vbind, triple_get_state.
  destruct (tr_repo_suite_isolation_evidence _) as [evidence|]; [|done]. apply triple_vret.
  assert (Hbound : bound c (h2 ++ [capture_of c s2])).
  { apply bound_here; [by destruct Hb| |done]. destruct Hgr as (l & -> & _).
    eapply trail_prefix; [by eapply bound_trail|by eexists]. }
  exists run, o, s2. split_and!; try done.
  - exists c. split; [by destruct Hb|]. split; [|left; apply Hbound]. exists run, o. split; [done|].
    destruct Hgr as (l & -> & Hl). apply elem_of_app. left. apply elem_of_app. right.
    apply sublist_cons_l in Hl as (l1 & l2 & -> & _). apply elem_of_app. right. left.
  - apply (grows_run_trans [_] [_] h h2); [done|]. apply grows_run_one.
Qed.

Lemma judge_suite_spec c k s0 s1 b d completed s h0 h :
  prepared_as c k s0 s1 b d h0 -> readable h ->
  triple may (judge_suite et_fromstring v p d completed) s h
    (fun h' _ x => exists i changes text listing,
       Runtime.judged_changes (continuity_request v p (copy_of (rn_workdir c))) changes = [] /\
       grows (comparison_events (copy_of (rn_workdir c)) b i changes
              ++ report_events (sc_report_path completed) text listing) h h' /\
       (rp_passed (fst x) = true ->
          clean_counts (insists c || sc_report_expected completed) (sc_returncode completed) (report_counts text listing)) /\
       (pack_configured p = true ->
          at_phase (continuity_request v p (copy_of (rn_workdir c))) b Runtime.suite_verified (snd x))) fails.
Proof.
  intros (_ & Hcopy & _ & _ & Hcand & _ & _ & Hat & _) Hr. unfold judge_suite, changed. rewrite Hcopy.
  eapply seq_spec; [by apply after_suite_spec|]. intros h1 t1 c1 _ (i & changes & Hj & Hat1 & Hg1). clear s.
  pose proof (readable_grows _ _ _ Hr Hg1) as Hr1. cbv zeta.
  eapply seq_spec; [by apply liveness_spec|]. intros h2 t2 a2 _ Hg2. cbv beta in Hg2. clear a2 t1.
  pose proof (readable_grows _ _ _ Hr1 Hg2) as Hr2.
  apply (seq_spec _ _ _ _ (fun h' _ phase => exists text listing,
       grows (report_events (sc_report_path completed) text listing) h2 h' /\
       (rp_passed phase = true ->
          clean_counts (insists c || sc_report_expected completed) (sc_returncode completed) (report_counts text listing)))).
  { apply on_trace_spec. unfold strict_harness, insists. rewrite <- Hcand. by apply interpret_suite_spec. }
  intros h3 t3 phase _ (text & listing & Hg3 & Hc). apply triple_vbind, triple_modify, triple_vret.
  exists i, changes, text, listing. split; [done|]. split.
  - eapply grows_trans; [exact Hg1|]. exact (grows_trans [] _ _ _ _ Hg2 Hg3).
  - split; [exact Hc|]. intros Hpk. by apply finalize_at_phase.
Qed.

(** *** The pack *)

Definition check_event (q : Pack.RepoPackContinuityRequest) : event :=
  (VerifySnapshot (Pack.pc_pack_snapshot q) (Pack.concrete (Pack.pc_identity q)), RUnit).

Lemma pack_check_continues k cp e d prefix a :
  snd (Pack._verify k cp e d prefix (fun _ _ => a)) = Pack.Returned None ->
  a = Runtime.Answer tt /\ Pack.pc_request (fst (Pack._verify k cp e d prefix (fun _ _ => a))) = Pack.pc_request k.
Proof.
  unfold Pack._verify. destruct (Pack.pc_failure k); [done|]. destruct (Pack.pc_provider_failed k); [done|].
  destruct (negb _); [done|]. by destruct a as [[]|m|].
Qed.

Lemma check_snapshot_spec d c k check s h :
  (forall a, snd (check k (fun _ _ => a)) = Pack.Returned None ->
     a = Runtime.Answer tt /\ Pack.pc_request (fst (check k (fun _ _ => a))) = Pack.pc_request k) ->
  triple may (check_snapshot d c k check) s h
    (fun h' _ k' => Pack.pc_request k' = Pack.pc_request k /\ grows [check_event (Pack.pc_request k)] h h') fails.
Proof.
  intros Hcheck. unfold check_snapshot. cbv zeta. apply triple_vbind. apply ask_spec; [done|]. intros r a Ha.
  destruct (check k (fun _ _ => a)) as [k' o] eqn:Ek. specialize (Hcheck a). rewrite Ek in Hcheck.
  destruct o as [[f|]| |]; [apply triple_vbind, triple_get_state, triple_refuse; reflexivity| |done..].
  destruct (Hcheck eq_refl) as [-> Hq]. apply triple_vret. split; [done|].
  assert (r = RUnit) as -> by by destruct r. by apply grows_one.
Qed.

(** A completed execution of the pack. *)
Record pack_run := {
  pr_launch : op W;
  pr_process : process;
  pr_identity : Runtime.RuntimeIdentity;
  pr_path : str;
  pr_text : option str }.

Definition pack_events (c : candidate_run) (q : Pack.RepoPackContinuityRequest) (b : Runtime.RuntimeIdentity)
    (r : pack_run) : log_t :=
  [check_event q; (pr_launch r, RProcess (pr_process r)); check_event q;
   (VerifyIdentity (copy_of (rn_workdir c)) b, RCompared (pr_identity r) []);
   (ReadReport (pr_path r), RText (pr_text r))].
Definition pack_sound (r : pack_run) : Prop :=
  starts PackPhase (pr_launch r) = true /\ ps_target_started (pr_process r) = true.
Definition pack_clean (r : pack_run) : Prop :=
  clean_counts true (ps_returncode (pr_process r)) (parse_junit_xml et_fromstring (default [] (pr_text r))).

Lemma pack_failure_spec q evidence e (t : RepoExecutionTrace) h (D : log_t -> RepoExecutionTrace -> _ -> Prop) :
  (forall h' t' r, vr_passed r = false -> D h' t' (inl r)) ->
  triple may (pack_failure v q evidence e) t h D fails.
Proof.
  intros HD. unfold pack_failure, pack_evidence, pack_started. cbv zeta.
  destruct e as [[]|[] []|[] []|[]| |]; try destruct (kq_container_mode q);
    repeat (apply triple_vbind, triple_modify); apply triple_vret, HD; reflexivity.
Qed.

Lemma execute_repo_pack_spec c q evidence (t : RepoExecutionTrace) h :
  bound c h -> kq_candidate_copy q = copy_of (rn_workdir c) -> kq_container_mode q = container_mode v ->
  image_resolved (kq_resolved_image q) h ->
  triple may (execute_repo_pack python_executable judge_user v q evidence) t h
    (fun h' _ r => match r with
                   | inl r => vr_passed r = false
                   | inr o => exists x, completes PackPhase h x h' /\ kc_returncode o = ps_returncode x
                   end) fails.
Proof.
  intros Hb Hcopy Hmode Hi. unfold execute_repo_pack. apply triple_vbind, triple_modify, triple_vbind.
  apply ask_spec; [done|]. intros r0 a0 _.
  match goal with |- triple _ _ _ ?h1 _ _ =>
    assert (Hg : grows [] h h1) by (apply grows_skip; [apply grows_refl|done])
  end.
  apply (seq_spec _ _ _ _ (fun h' _ x => ran_on PackPhase h (snd (fst x)) h')).
  - unfold start_pack. rewrite Hcopy. destruct (kq_container_mode q).
    + eapply triple_mono; [| |apply (run_docker_spec c); [by eapply bound_grows|done| |done]]; [|done|].
      * intros h1 t1 x _ [Hr _]. exact (grown_run _ _ _ _ _ Hg Hr).
      * eapply image_prefix; [exact Hi|by eapply grows_prefix].
    + destruct (instrument_command _ _) as [[cmd expected] env].
      eapply seq_spec; [apply (run_host_spec c); [by eapply bound_grows|congruence]|].
      intros h' t' r _ Hr. apply triple_vret. exact (grown_run _ _ _ _ _ Hg Hr).
  - intros h2 t2 [[path [e|x]] expected] _ Hr; [by apply pack_failure_spec|]. destruct Hr as (run & Hs & Hr).
    unfold pack_ended, pack_evidence. cbv zeta.
    destruct (ps_target_started x) eqn:Est; [|by apply triple_vbind, triple_modify, triple_vret].
    destruct (_ && _); [by apply triple_vbind, triple_modify, triple_vret|].
    apply triple_vbind, triple_modify, triple_vret. exists x. split; [|done]. split; [done|]. by exists run.
Qed.

Lemma after_pack_spec d q b c s h :
  at_phase q (Some b) Runtime.suite_verified c ->
  triple may (verify_after_pack_step d c) s h
    (fun h' _ _ => exists i, grows [(VerifyIdentity (pd_copy d) b, RCompared i [])] h h') fails.
Proof.
  intros Hc. unfold verify_after_pack_step. pose proof Hc as (_ & Hb & _). rewrite Hb.
  apply triple_vbind. apply ask_spec; [done|]. intros r a Ha. apply triple_vbind. apply continuity_spec.
  intros s' f Hf. destruct f as [f|]; [apply triple_vbind, triple_get_state, triple_refuse; reflexivity|].
  destruct (after_pack_continues _ _ _ _ Hc Hf) as (i & ->). apply triple_vret. exists i.
  apply compared_reply in Ha as ->. by apply grows_one.
Qed.

Lemma pack_step_spec c k s0 s1 b d evidence phase rc s h0 h :
  prepared_as c (Some k) s0 s1 (Some b) d h0 -> h0 `prefix_of` h -> bound c h ->
  at_phase (continuity_request v p (copy_of (rn_workdir c))) (Some b) Runtime.suite_verified rc ->
  (exists run x, starts SuitePhase run = true /\ (run, RProcess x) ∈ h) ->
  triple may (pack_step python_executable judge_user et_fromstring v d evidence phase rc k) s h
    (fun h' _ x => exists r, pack_sound r /\ grows_run (pack_events c (Pack.pc_request k) b r) h h' /\
       (cp_passed (fst (fst x)) = true -> rp_passed phase = true /\ pack_clean r)) fails.
Proof.
  intros (_ & Hcopy & _ & _ & Hcand & _ & Hi & _) Hp Hb Hat Hrun. unfold pack_step, set_execution_phase.
  apply triple_vbind, triple_modify.
  eapply seq_spec; [apply check_snapshot_spec; intros a; apply pack_check_continues|].
  intros h1 t1 k1 _ [Hq1 Hg1]. rewrite Hq1. apply triple_vbind. apply ask_spec; [done|]. intros r1 env _.
  match goal with |- triple _ _ _ ?h2 _ _ => assert (Hg2 : grows [check_event (Pack.pc_request k)] h h2)
    by (by apply grows_skip) end.
  rewrite Hcopy. apply (seq_spec _ _ _ _ (fun h' _ r => match r with
                   | inl r => vr_passed r = false
                   | inr o => exists x run, starts PackPhase run = true /\ ps_target_started x = true /\
                       kc_returncode o = ps_returncode x /\
                       grows_run [check_event (Pack.pc_request k); (run, RProcess x)] h h'
                   end)).
  { apply on_trace_spec. eapply triple_mono; [| |apply (execute_repo_pack_spec c)]; [|done|..]; try done.
    - intros h3 t3 [r|o] _; [done|]. intros (x & (Hst & run & Hs & Hgr) & Hrc). exists x, run. split_and!; try done.
      eapply (grows_run_trans [_] [_]); [by apply grows_run_of|exact Hgr].
    - by eapply bound_grows.
    - eapply image_prefix; [exact Hi|]. etrans; [exact Hp|]. by eapply grows_prefix. }
  intros h3 t3 [r|completed] _; [by intros Hr|]. intros (x & run & Hs & Hst & Hrc & Hg3).
  apply triple_vbind, triple_modify.
  eapply seq_spec; [apply check_snapshot_spec; intros a; apply pack_check_continues|].
  intros h4 t4 k2 _ [_ Hg4]. rewrite Hq1 in Hg4. clear t1 t3.
  eapply seq_spec; [eapply after_pack_spec; exact Hat|]. intros h5 t5 rc' _ (i & Hg5). rewrite Hcopy in Hg5.
  pose proof (grows_trans _ _ _ _ _ Hg4 Hg5) as Hg45.
  assert (Hr : readable h5).
  { exists c. split; [by destruct Hb|]. split.
    - destruct Hrun as (run' & x' & Hs' & Hin). exists run', x'. split; [done|].
      destruct Hg3 as (l3 & -> & _). destruct Hg45 as (l & -> & _). apply elem_of_app. left. apply elem_of_app. by left.
    - right. by exists h3, (Pack.pc_pack_snapshot (Pack.pc_request k)), (Pack.concrete (Pack.pc_identity (Pack.pc_request k))), b, i. }
  apply (seq_spec _ _ _ _ (fun h' _ ph => exists text,
       grows [(ReadReport (kc_report_path completed), RText text)] h5 h' /\
       (pp_passed ph = true ->
          clean_counts true (kc_returncode completed) (parse_junit_xml et_fromstring (default [] text))))).
  { apply on_trace_spec. by apply interpret_pack_spec. }
  intros h6 t6 ph _ (text & Hg6 & Hc). destruct (compose_repo_and_pack phase ph) as [composite|] eqn:Ec; [|done].
  apply triple_vbind, triple_modify, triple_vret.
  exists {| pr_launch := run; pr_process := x; pr_identity := i; pr_path := kc_report_path completed; pr_text := text |}.
  split; [done|]. split.
  - pose proof (grows_run_trans _ _ _ _ _ Hg3 (grows_run_of _ _ _ (grows_trans _ _ _ _ _ Hg45 Hg6))) as Hg. exact Hg.
  - cbn. intros Hpass. unfold compose_repo_and_pack in Ec. destruct (composite_digest _ _) as [[? ?]|]; [|done].
    injection Ec as <-. cbn in Hpass. apply andb_true_iff in Hpass as [Hp1 Hp2]. split; [done|].
    unfold pack_clean. cbn. rewrite <- Hrc. by apply Hc.
Qed.

(** *** The whole judgment *)

Definition judgment_events (c : candidate_run) (k : option Pack.RepoPackContinuity) (s0 s1 : path_states)
    (b : option Runtime.RuntimeIdentity) (r : suite_run) (pk : option pack_run) : log_t :=
  preparation c k s0 s1 b ++ launch_events c r ++ judged_events c b r ++
  match k, b, pk with
  | Some k, Some b, Some pk => pack_events c (Pack.pc_request k) b pk
  | _, _, _ => []
  end.

(** A judgment that may pass: everything it stands on is in the log, in order. *)
Definition judged_clean (log : log_t) : Prop :=
  exists c k s0 s1 b r pk,
    applied c /\ pack_bound k /\ same_harness c s0 /\ same_harness c s1 /\
    (b = None -> pack_configured p = false /\ vc_require_suite_continuity v = false) /\
    suite_sound c r /\ suite_clean c r /\
    match pk with Some pk => pack_sound pk /\ pack_clean pk | None => pack_configured p = false end /\
    trail (judgment_events c k s0 s1 b r pk) log.

Lemma judged_clean_prefix h h' : judged_clean h -> h `prefix_of` h' -> judged_clean h'.
Proof.
  intros (c & k & s0 & s1 & b & r & pk & H1 & H2 & H3 & H4 & H5 & H6 & H7 & H8 & Ht) Hp.
  exists c, k, s0, s1, b, r, pk. split_and!; try done. by eapply trail_prefix.
Qed.

Lemma judge_step_spec d s h :
  (exists c k s0 s1 b, prepared_as c k s0 s1 b d h) ->
  triple may (judge_step python_executable judge_user et_fromstring v p d) s h
    (fun h' _ r => vr_passed r = true -> judged_clean h') fails.
Proof.
  intros (c & k & s0 & s1 & b & Hd). unfold judge_step.
  eapply seq_spec; [by eapply suite_step_spec|].
  intros h1 t1 [completed evidence] Hp1 (run & o & s2 & Hrep & Hs & Hst & Hs2 & Hrc & Hb1 & Hr1 & Hg1). cbn [fst] in Hrc, Hrep.
  eapply seq_spec; [by eapply judge_suite_spec|].
  intros h2 t2 [phase rc] Hp2 (i & changes & text & listing & Hj & Hg2 & Hclean & Hat). cbn [fst snd] in *.
  pose proof (f_equal fst Hrep) as Hpath. pose proof (f_equal snd Hrep) as Hexp. cbn [fst snd] in Hpath, Hexp.
  rewrite Hpath in Hg2. rewrite Hexp in Hclean.
  pose proof Hd as (_ & _ & _ & _ & _ & Hk & _ & Hat0 & Hpk & Hs0 & Hs1 & Hb & Ht).
  set (r := {| sr_launch := run; sr_process := o; sr_harness := s2; sr_identity := i; sr_changes := changes;
               sr_path := fst (report_of c); sr_text := text; sr_listing := listing |}).
  assert (T2 : trail ((preparation c k s0 s1 b ++ launch_events c r) ++ judged_events c b r) h2).
  { eapply trail_grows; [|exact Hg2]. by eapply trail_app. }
  assert (Hnone : b = None -> pack_configured p = false /\ vc_require_suite_continuity v = false).
  { intros ->. destruct Hat0 as (_ & _ & Hreq). by apply orb_false_iff in Hreq. }
  assert (Hsound : suite_sound c r) by by split_and!.
  destruct (pack_configured p) eqn:Ep.
  - rewrite Hk. destruct k as [k|]; [|by apply triple_raise]. destruct b as [b|]; [|by destruct (Hnone eq_refl)].
    eapply seq_spec; [eapply (pack_step_spec c k s0 s1 b); [exact Hd|by etrans|exact (bound_grows _ _ _ _ Hb1 Hg2)|by apply Hat|]|].
    { exists run, o. split; [done|]. destruct Hg1 as (l & -> & Hl), Hg2 as (l2 & -> & _).
      apply elem_of_app. left. apply elem_of_app. right. apply sublist_cons_l in Hl as (l3 & l4 & -> & _).
      apply elem_of_app. right. left. }
    intros h3 t3 [[composite pk] rc'] _ (pr & Hpr & Hg3 & Hpass). cbn [fst] in Hpass.
    apply triple_vbind, triple_get_state, triple_vret. intros [Hph Hpc]%Hpass.
    exists c, (Some k), s0, s1, (Some b), r, (Some pr). split_and!; try done; try by destruct Hb.
    + change (clean_counts (insists c || snd (report_of c)) (ps_returncode o) (report_counts text listing)). rewrite <- Hrc. by apply Hclean.
    + pose proof (trail_app _ _ _ _ T2 Hg3) as T3. unfold judgment_events. rewrite <- !app_assoc in T3. exact T3.
  - unfold set_execution_phase. apply triple_vbind, triple_modify, triple_vbind, triple_get_state, triple_vret.
    intros Hph. exists c, k, s0, s1, b, r, None. split_and!; try done; try by destruct Hb.
    + intros Hn. split; [done|by apply Hnone].
    + change (clean_counts (insists c || snd (report_of c)) (ps_returncode o) (report_counts text listing)). rewrite <- Hrc. by apply Hclean.
    + unfold judgment_events. destruct k, b; rewrite ?app_nil_r, <- ?app_assoc in *; exact T2.
Qed.

Lemma verify_spec s h :
  triple may (_verify python_executable judge_user et_fromstring restore_package_json base v hypothesis p) s h
    (fun h' _ r => vr_passed r = true -> judged_clean h') fails.
Proof.
  unfold _verify. eapply seq_spec; [apply inputs_spec|]. intros h1 t1 inputs _ [-> Hin].
  eapply seq_spec; [apply trusted_spec|]. intros h2 t2 trusted _ Hg2.
  eapply seq_spec; [apply admit_spec|]. intros h3 t3 c _ [-> Ha].
  apply triple_vbind. apply ask_spec; [done|]. intros r workdir Hr. apply triple_vbind, triple_modify.
  assert (r = RStr workdir) as -> by (destruct r; by try injection Hr as ->).
  apply triple_finally.
  assert (Hclean : forall h o, is_cleanup o = true -> may h o) by by intros ? [].
  apply (triple_mono _ _ _ _ (fun h' _ r => vr_passed r = true -> judged_clean h') _ fails).
  - intros h' s' d Hp Hd. eapply triple_mono; [| |by apply cleanup_returns_nothing].
    + intros h'' s'' [] Hp' _ Hpass. eapply judged_clean_prefix; [|exact Hp']. by apply Hd.
    + by intros h'' s'' o _ ->.
  - intros h' s' o Hp Ho. eapply triple_mono; [| |by apply cleanup_returns_nothing]; [|by intros h'' s'' o' _ ->].
    intros h'' s'' [] _ _. exact Ho.
  - apply (seq_spec _ _ _ _ (fun h' _ d => exists c k s0 s1 b, prepared_as c k s0 s1 b d h')).
    + apply prepare_spec; [done|done|]. destruct Hg2 as (l & -> & Hl & _).
      apply (sublist_app [_] _ [_] [_]); [by apply sublist_inserts_l|done].
    + intros h' s' d _ Hd. by apply judge_step_spec.
Qed.

Lemma session_spec :
  triple may (verify_session python_executable judge_user et_fromstring restore_package_json base v hypothesis p)
    new_session [] (fun h' _ r => vr_passed r = true -> judged_clean h') fails.
Proof.
  unfold verify_session. apply (seq_spec _ _ _ _ (fun _ _ _ => True)).
  - destruct (is_empty (pack_dir p)); [by apply triple_vret|by apply ask_spec].
  - intros h1 s1 present _ _. apply triple_vbind. unfold settle, triple. apply wp_bind.
    eapply wp_mono; [|apply verify_spec]. intros h2 [s2 [r|r|]] _ Hc; [exact Hc| |exact Hc].
    cbn. intros Hpass. unfold not_passed in Hc. cbn in Hc. congruence.
Qed.

Lemma verify_allows log o l1 a r l2 :
  exec (verify python_executable judge_user et_fromstring restore_package_json base v hypothesis p) log o ->
  log = l1 ++ (a, r) :: l2 -> may_do l1 a.
Proof.
  intros (s & e & E & _)%verify_exec Hl. exact (proj2 (wp_sound _ _ _ _ _ _ session_spec E) _ _ _ _ Hl).
Qed.

(** C2: A passing verdict was earned, step by step.  If an execution of the verifier
    returns a passing result, its log contains, in this order: the capture of the
    declared harness inputs of the trusted base, the copy of the repository, the
    edits and deletions of an admitted candidate, the accepted snapshot of the pack
    under its pinned identity, two captures of the copy's harness equal to the
    trusted one, the identity of the tree where continuity is required, a suite
    that started and exited with code zero, a third equal capture, a comparison of
    the tree with no judged change, and the read of the report at the command's path:
    at least one test and no failure, or no report at all where the command could not be
    wired to one and neither a strict harness nor a structured verdict insists on one;
    and with a pack, a verified snapshot, a pack run that exited zero, the snapshot
    verified again, an unchanged tree, and always a clean report of a test. *)
Theorem passing_verdict_earned log r :
  exec (verify python_executable judge_user et_fromstring restore_package_json base v hypothesis p) log (Some r) ->
  vr_passed r = true -> judged_clean log.
Proof.
  intros (s & e & E & He)%verify_exec Hp. destruct e as [r'| |]; [|done|done]. injection He as ->.
  exact (proj1 (wp_sound _ _ _ _ _ _ session_spec E) Hp).
Qed.

(** C11: No process ever runs on an unbound or unconfined candidate.  In every
    execution, whatever is replied and however it ends, when a setup, suite or pack
    process is launched the candidate has been admitted, applied to the copy and
    deleted from it without error, and the copy's declared harness inputs were
    found equal to the trusted ones after the last earlier process.  The process
    runs in that copy under the configured limits; in container mode only a setup
    trusted to the host runs outside a container, and every container runs the
    canonical image that was resolved, with the copy mounted read-only outside the
    setup. *)
Theorem processes_bound_and_confined log o l1 a r l2 :
  exec (verify python_executable judge_user et_fromstring restore_package_json base v hypothesis p) log o ->
  log = l1 ++ (a, r) :: l2 -> is_launch a = true -> exists c, bound c l1 /\ confined c l1 a.
Proof. intros E Hl Ha. pose proof (verify_allows _ _ _ _ _ _ E Hl) as Hm. destruct a; done. Qed.

(** No report is read from a tree that was not checked.  In every execution, a
    report is read only after a suite process ended, and only when the candidate's
    harness was found equal to the trusted one after the last process - or, for the
    pack's report, the pack's snapshot was verified and the candidate's tree found
    without any change after it. *)
Theorem reports_read_after_checks log o l1 a r l2 :
  exec (verify python_executable judge_user et_fromstring restore_package_json base v hypothesis p) log o ->
  log = l1 ++ (a, r) :: l2 -> (exists path, a = ReadReport path \/ a = ListReports path) ->
  exists c, applied c /\ (exists run x, starts SuitePhase run = true /\ (run, RProcess x) ∈ l1) /\
    (since (intact c) l1 \/ pack_checked c l1).
Proof. intros E Hl [path [-> | ->]]; exact (verify_allows _ _ _ _ _ _ E Hl). Qed.
End Protocol.

(** ** Concrete executions *)

Lemma passing_verdict_earned_witness :
  exists log r, run (sample_verify "/pack") pack_script = Some (log, Some r) /\
    @judged_clean ascii_unicode _ _ (u "/usr/bin/python3") one_test_parser keep_judge sample_base sample_verifier sample_hypothesis
      (sample_problem "/pack") log.
Proof.
  assert (Hl : match run (sample_verify "/pack") pack_script with
               | Some (_, Some r) => vr_passed r = true
               | _ => False
               end) by (vm_compute; reflexivity).
  destruct (run (sample_verify "/pack") pack_script) as [[log [r|]]|] eqn:E; [|destruct Hl..].
  exists log, r. split; [reflexivity|].
  exact (passing_verdict_earned _ _ _ _ _ _ _ _ _ _ (run_exec _ _ _ _ E) Hl).
Defined.

Lemma event_split {A} (log : list A) n x : log !! n = Some x -> log = take n log ++ x :: drop (S n) log.
Proof. intros Hx. symmetry. by apply take_drop_middle. Qed.

(** The suite that times out was launched on a bound candidate. *)
Lemma processes_bound_and_confined_witness :
  exists log a l1 c, option_map fst (run (sample_verify "") timeout_script) = Some log /\
    starts SuitePhase a = true /\
    @bound ascii_unicode _ _ keep_judge sample_base sample_verifier sample_hypothesis (sample_problem "") c l1 /\
    @confined _ (1000, 1000) sample_verifier c l1 a.
Proof.
  assert (Hl : match run (sample_verify "") timeout_script with
               | Some (log, _) => exists a r, log !! 10%nat = Some (a, r) /\ starts SuitePhase a = true
               | _ => False
               end) by (vm_compute; eexists _, _; split; reflexivity).
  destruct (run (sample_verify "") timeout_script) as [[log o]|] eqn:E; [|destruct Hl].
  destruct Hl as (a & r & Ha & Hs).
  assert (Hlaunch : is_launch a = true) by (destruct a; done).
  destruct (processes_bound_and_confined _ _ _ _ _ _ _ _ _ _ _ _ _ _ (run_exec _ _ _ _ E) (event_split _ _ _ Ha) Hlaunch)
    as (c & Hb & Hc).
  exists log, a, (take 10 log), c. split_and!; [reflexivity|exact Hs|exact Hb|exact Hc].
Defined.

Lemma reports_read_after_checks_witness :
  exists log l1 c, option_map fst (run (sample_verify "/pack") pack_script) = Some log /\ length l1 = 27%nat /\
    @applied ascii_unicode _ _ keep_judge sample_base sample_verifier sample_hypothesis (sample_problem "/pack") c /\
    (since (intact c) l1 \/ pack_checked c l1).
Proof.
  assert (Hl : match run (sample_verify "/pack") pack_script with
               | Some (log, _) => exists path r, log !! 27%nat = Some (ReadReport path, r) /\ length (take 27 log) = 27%nat
               | _ => False
               end) by (vm_compute; eexists _, _; split; reflexivity).
  destruct (run (sample_verify "/pack") pack_script) as [[log o]|] eqn:E; [|destruct Hl].
  destruct Hl as (path & r & Ha & Hn).
  destruct (reports_read_after_checks _ _ _ _ _ _ _ _ _ _ _ _ _ _ (run_exec _ _ _ _ E) (event_split _ _ _ Ha)
              (ex_intro _ path (or_introl eq_refl))) as (c & Happ & _ & Hc).
  exists log, (take 27 log), c. split_and!; [reflexivity|exact Hn|exact Happ|exact Hc].
Defined.
