(* ===== verification/BlackboxFinalization.v ===== *)
(** Finalization of a black-box verification
    (application/blackbox_finalization.py): the decision over the external judge's
    result and the composed repository suite, the delivered assurance and the
    attested facts.

    The compatibility providers of the source resolve Guard's vocabulary and
    tables; they are those constants here.  The repository verifier, the
    assurance builder and the attestation builder are injected effects. *)
From S2P Require Export Finalization.
From S2P Require Import PyStr Json.
From Stdlib Require Import SpecFloat.
Local Open Scope Z_scope.

(** ** Inputs *)

(** The judge's result; [None] stands for an attribute that a historical result
    object does not have. *)
Record BlackboxRuntimeResult := {
  br_passed : bool;
  br_tests_passed : Z;
  br_tests_total : Z;
  br_diagnostics : str;
  br_ran : bool;
  br_error : option str;
  br_pack_sha256 : option str;
  br_pack_manifest : option dict;
  br_junit_sha256 : option str;
  br_isolation : option dict;
  br_deleted_applied : option (list str);
  br_started : option bool;
  br_completed : option bool;
  br_execution_state : option str;
  br_execution_phase : option str;
  br_pack_present : option (option bool);
  br_candidate_invocations : option Z;
  br_candidate_launcher_invocation_observed : option bool
}.

Record RepoVerdictResult := {
  rv_passed : bool;
  rv_score : float;
  rv_diagnostics : str;
  rv_artifact : dict
}.

Record BlackboxFinalizationInput := {
  bi_runtime_result : BlackboxRuntimeResult;
  bi_blackbox_only : bool;
  bi_verifier_pack_path : str;
  bi_candidate_text : str;
  bi_safe_deleted_paths : list str;
  bi_test_command : option (list str);
  bi_effective_policy : dict;
  bi_collect_baseline_evidence : bool;
  bi_collect_diff_coverage : bool;
  bi_require_report_integrity : option str;
  bi_require_candidate_isolation : option str;
  bi_base_sha : option str;
  bi_head_sha : option str;
  bi_base_tree_sha : option str;
  bi_head_tree_sha : option str;
  bi_policy_id : option str;
  bi_policy_version : option str
}.

Record BlackboxFinalizationServices := {
  bs_risk_assessor : result gate_exn (str * float);
  bs_composed_repo_verifier : result gate_exn RepoVerdictResult;
  bs_assurance_builder : str -> str -> bool -> bool -> str -> str -> option str -> option str ->
                         str -> str -> bool -> dict -> result gate_exn dict;
  bs_assurance_shortfall : shortfall_evaluator_t;
  bs_attestation_builder :
    str -> list str -> option (list str) -> dict -> dict -> str -> result gate_exn dict
}.

Record BlackboxFinalizationOutcome := {
  bo_decision : GuardDecision;
  bo_passed : bool;
  bo_risk_level : str;
  bo_risk_score : float;
  bo_tests_passed : option Z;
  bo_tests_total : option Z;
  bo_test_command_started : bool;
  bo_execution_state : str;
  bo_execution_phase : str;
  bo_verdict_source : option str;
  bo_diagnostics : str;
  bo_effective_candidate_isolation : str;
  bo_baseline : option dict;
  bo_diff_coverage : option dict;
  bo_attestation : dict;
  bo_assurance : dict
}.

(** ** Facts of the run *)

Section Blackbox.
Context `{UnicodeDB}.

Definition is_some {A} (x : option A) : bool := match x with Some _ => true | None => false end.

(** [repr(value)] and [str(value)] *)
Definition py_float_repr (f : float) : str :=
  match f with
  | S754_infinity s => if s then u "-inf" else u "inf"
  | S754_nan => u "nan"
  | _ => float_repr f
  end.

Fixpoint value_repr (v : value) : str :=
  match v with
  | VNone => u "None"
  | VBool b => if b then u "True" else u "False"
  | VInt z => str_of_Z z
  | VFloat f => py_float_repr f
  | VStr s => py_repr s
  | VList l => u "[" ++ py_join (u ", ") (map value_repr l) ++ u "]"
  | VDict d => u "{" ++ py_join (u ", ") (map (fun kv => value_repr (fst kv) ++ u ": " ++ value_repr (snd kv)) d)
               ++ u "}"
  end.
Definition py_str (v : value) : str := match v with VStr s => s | _ => value_repr v end.

(** [cast(str | None, value)] of an artifact field that is a string or absent. *)
Definition as_opt_str (v : value) : option str := match v with VStr s => Some s | _ => None end.

Definition flag (x : option bool) (default : bool) : bool := match x with Some b => b | None => default end.
Definition text_or (x : option str) (default : str) : str := match x with Some s => s | None => default end.

Variable request : BlackboxFinalizationInput.
Variable services : BlackboxFinalizationServices.
Let result_ := bi_runtime_result request.

Definition judge_started : bool := flag (br_started result_) (br_ran result_).
Definition judge_completed : bool := flag (br_completed result_) (br_ran result_).
Definition judge_state : str :=
  text_or (br_execution_state result_)
    (state_wire (if br_ran result_ then EXECUTION_COMPLETED else EXECUTION_NOT_STARTED)).
Definition judge_phase : str := text_or (br_execution_phase result_) (u "blackbox_pack").
Definition isolation_or_empty : dict := match br_isolation result_ with Some d => d | None => [] end.
Definition delivered_isolation : value :=
  if judge_started then get_or isolation_or_empty "delivered" (VStr (u "subprocess")) else VStr (u "not_run").
Definition invocation_observed : bool := flag (br_candidate_launcher_invocation_observed result_) false.
Definition candidate_invocations : Z := match br_candidate_invocations result_ with Some n => n | None => 0 end.
Definition candidate_isolation : str :=
  if invocation_observed then py_str delivered_isolation else u "not_run".
Definition gradeable : bool := br_ran result_ && invocation_observed.

(** The isolation evidence that is attested. *)
Definition isolation_evidence : option dict :=
  match br_isolation result_ with
  | Some (kv :: d) =>
      let ev := kv :: d in
      let prepared := get_or ev "prepared" (dget ev (u "delivered")) in
      let withheld note := dset (u "note") (VStr note) (dset (u "prepared") prepared
                             (dset (u "delivered") (VStr (u "not_run")) ev)) in
      if py_eq (dget ev (u "delivered")) (VStr (u "unavailable")) then Some ev
      else if negb judge_started then
        Some (withheld (u "the launcher/boundary was prepared but the black-box judge did not start, so candidate isolation was not exercised"))
      else if negb invocation_observed then
        Some (withheld (u "the judge ran, but no candidate launcher invocation was observed; the prepared boundary is not delivery evidence"))
      else Some ev
  | other => other
  end.

(** The repository suite is composed only after a gradeable, passing pack. *)
Definition composed_repo : result gate_exn (option RepoVerdictResult) :=
  if negb (bi_blackbox_only request) && gradeable && br_passed result_
  then let* v := bs_composed_repo_verifier services in Ok (Some v)
  else Ok None.

Section Composed.
Variable repo_verdict : option RepoVerdictResult.

Definition repo_art : dict := match repo_verdict with Some v => rv_artifact v | None => [] end.
Definition repo_get (k : string) : value := dget repo_art (u k).
Definition repo_started : bool := truthy (repo_get "test_command_started").
Definition repo_completed : bool :=
  repo_started && py_eq (repo_get "execution_state") (VStr (state_wire EXECUTION_COMPLETED)).
Definition repo_clean_source : bool := truthy (repo_get "verdict_source").
Definition repo_suite_state : str :=
  if bi_blackbox_only request then u "not_required_blackbox_only"
  else if negb (is_some repo_verdict) then u "required_not_run_short_circuit"
  else if negb repo_started then u "required_not_started"
  else if negb repo_completed then u "required_started_incomplete"
  else u "composed_completed".

(** ** The decision *)

Definition error_is (e : string) : bool :=
  match br_error result_ with Some x => x =s? u e | None => false end.

(** The table of judge errors, in order. *)
Definition error_reason : verdict * reason_code :=
  if error_is "timeout" then (ERROR, REASON_TEST_TIMEOUT)
  else if error_is "verifier pack identity mismatch" then (ERROR, REASON_VERIFIER_PACK_IDENTITY_MISMATCH)
  else if error_is "verifier pack invalid" then (ERROR, REASON_VERIFIER_PACK_INVALID)
  else if starts_with (u "verifier pack not found:") (text_or (br_error result_) [])
       then (ERROR, REASON_VERIFIER_PACK_NOT_FOUND)
  else if error_is "patch did not apply" then (ERROR, REASON_PATCH_APPLY_FAILED)
  else if error_is "unsafe deletion path" then (ERROR, REASON_UNSAFE_PATH)
  else if error_is "isolation unavailable" then (ERROR, REASON_ASSURANCE_REQUIREMENT_NOT_MET)
  else if error_is "verifier pack snapshot changed" || error_is "verifier pack changed while executing"
       then (TAMPERED, REASON_VERIFIER_PACK_SNAPSHOT_CHANGED)
  else if error_is "candidate harness input changed" then (TAMPERED, REASON_CANDIDATE_TREE_CHANGED)
  else if error_is "trusted harness input binding failed" then (ERROR, REASON_ASSURANCE_REQUIREMENT_NOT_MET)
  else if error_is "black-box JUnit/exit mismatch" then (TAMPERED, REASON_JUNIT_EXIT_MISMATCH)
  else if error_is "candidate container cleanup failed" || error_is "judge process cleanup failed"
          || error_is "black-box workspace cleanup failed" then (ERROR, REASON_RUNTIME_CLEANUP_FAILED)
  else (ERROR, REASON_NO_TEST_VERDICT).

(** [key in table]: an unhashable key raises. *)
Definition table_lookup {A} (table : list (string * A)) (key : value) : result gate_exn (option A) :=
  match key with
  | VStr s => Ok (Decision.assoc s table)
  | VList _ | VDict _ => Err TypeError
  | _ => Ok None
  end.

Definition or_text (s : str) (default : str) : str := match s with [] => default | _ => s end.

(** A pack that passed, and a repository suite that did not. *)
Definition repo_failure (v : RepoVerdictResult) : result gate_exn (verdict * reason_code * list part) :=
  let outcome := repo_get "outcome" in
  let* tamper := table_lookup TAMPER_OUTCOME_REASON_POLICY outcome in
  match tamper with
  | Some (r, summary) => Ok (TAMPERED, r, [txt summary])
  | None =>
      if truthy (repo_get "tamper") then
        Ok (TAMPERED, REASON_JUNIT_EXIT_MISMATCH, [txt "the repo suite's exit code and JUnit report disagree"])
      else
        let* tabulated := table_lookup OUTCOME_REASON_POLICY outcome in
        Ok match tabulated with
           | Some (vd, r) => (vd, r, [Txt (or_text (rv_diagnostics v) (py_str outcome))])
           | None =>
               if negb (is_none (repo_get "tests_total")) then
                 (FAIL, REASON_TESTS_FAILED,
                  [txt "the repo suite failed ("; Fmt (get_or repo_art "tests_passed" (VInt 0)); txt "/";
                   Fmt (repo_get "tests_total"); txt " passed)"])
               else if fleb (rv_score v) (dec 8 2) then
                 (ERROR, REASON_PATCH_APPLY_FAILED, [Txt (or_text (rv_diagnostics v) (u "the patch did not apply"))])
               else (FAIL, REASON_NO_TEST_VERDICT, [Txt (or_text (rv_diagnostics v) (u "no clean repo-suite verdict"))])
           end
  end.

Definition blackbox_decision : result gate_exn GuardDecision :=
  let counts := [Fmt (VInt (br_tests_passed result_)); txt "/"; Fmt (VInt (br_tests_total result_))] in
  if br_ran result_ && negb invocation_observed then
    decide_as ERROR REASON_CANDIDATE_NOT_EXERCISED
      [txt "the black-box pack completed without an observed $EVOGUARD_EXEC invocation, so it did not prove that it exercised the candidate; direct EVOGUARD_TARGET access and constant tests cannot produce a gradeable black-box verdict"]
  else if negb (br_ran result_) then
    let '(v, r) := error_reason in
    decide_as v r [Txt (or_text (br_diagnostics result_)
                          (or_text (text_or (br_error result_) []) (u "the black-box pack produced no verdict")))]
  else if negb (br_passed result_) then
    decide_as FAIL REASON_TESTS_FAILED (txt "the black-box pack failed (" :: counts ++ [txt ")"])
  else
    let passed_ :=
      decide_as PASS REASON_TESTS_PASSED
        (txt "the black-box pack passed (" :: counts
         ++ [txt (if is_some repo_verdict then ") and the repo's own suite passed" else ")");
             txt " — the candidate satisfied the judge-owned protocol tests, judged from outside its own process"]) in
    match repo_verdict with
    | Some v =>
        if negb (rv_passed v) then
          let* (vd, r, cause) := repo_failure v in
          decide_as vd r (txt "the black-box pack passed, but the repo's own test suite (the required repo-native phase) did not: "
                          :: cause ++ [txt " — a green pack must not mask a repo failure"])
        else passed_
    | None => passed_
    end.

(** ** Lifecycle, source and counts *)

Definition final_execution_state : str :=
  if is_some repo_verdict then
    state_wire (if py_eq (repo_get "execution_state") (VStr (state_wire EXECUTION_COMPLETED))
                   && (judge_state =s? state_wire EXECUTION_COMPLETED)
                then EXECUTION_COMPLETED else EXECUTION_STARTED_INCOMPLETE)
  else judge_state.
Definition final_execution_phase : str :=
  if is_some repo_verdict then py_str (get_or repo_art "execution_phase" (VStr (u "repo_suite"))) else judge_phase.
Definition final_command_started : bool := judge_started || repo_started.
Definition final_verdict_source : option str :=
  if is_some repo_verdict then
    if repo_clean_source && gradeable then Some (u "composite:blackbox+repo") else None
  else if gradeable then Some (u "blackbox") else None.

Definition final_counts : result gate_exn (option Z * option Z) :=
  if is_some repo_verdict then
    if final_execution_state =s? state_wire EXECUTION_COMPLETED then
      let p := repo_get "tests_passed" in
      let t := repo_get "tests_total" in
      if negb (is_none p) && negb (is_none t) then
        let* p := py_int p in
        let* t := py_int t in
        Ok (Some (br_tests_passed result_ + p), Some (br_tests_total result_ + t))
      else Ok (None, None)
    else Ok (None, None)
  else Ok (if judge_completed then (Some (br_tests_passed result_), Some (br_tests_total result_)) else (None, None)).

Definition pack_outcome : option str :=
  if error_is "verifier pack invalid" then Some (u "pack_invalid")
  else if error_is "verifier pack identity mismatch" then Some (u "pack_identity_mismatch")
  else if error_is "verifier pack snapshot changed" || error_is "verifier pack changed while executing"
       then Some (u "pack_snapshot_changed")
  else None.

Definition pack_present : option bool :=
  match br_pack_present result_ with
  | Some p => p
  | None => if given (br_pack_sha256 result_) then Some true
            else if contains (u "not found") (text_or (br_error result_) []) then Some false
            else None
  end.

Definition blackbox_pack_evidence : dict := dict_of
  [("present", vopt_bool pack_present); ("snapshot_sha256", vopt_str (br_pack_sha256 result_));
   ("started", VBool judge_started); ("completed", VBool judge_completed);
   ("outcome", vopt_str pack_outcome);
   ("candidate_launcher_invocation_observed", VBool invocation_observed)].

Definition vopt_dict (d : option dict) : value := match d with Some d => VDict d | None => VNone end.
Definition if_completed (n : Z) : value := if judge_completed then VInt n else VNone.
Definition junit_format : value :=
  if given (br_junit_sha256 result_) then VStr (u "JUNIT_XML_SHA256") else VNone.

Definition blackbox_artifacts : dict := dict_of
  [("verifier_pack_sha256", vopt_str (br_pack_sha256 result_));
   ("verifier_pack_manifest", vopt_dict (br_pack_manifest result_));
   ("verifier_pack_present", vopt_bool pack_present);
   ("verifier_pack_started", VBool judge_started);
   ("verifier_pack_completed", VBool judge_completed);
   ("verifier_pack_tests_passed", if_completed (br_tests_passed result_));
   ("verifier_pack_tests_total", if_completed (br_tests_total result_));
   ("verifier_pack_junit_sha256", vopt_str (br_junit_sha256 result_));
   ("verifier_pack_junit_digest_format", junit_format);
   ("junit_sha256", vopt_str (br_junit_sha256 result_));
   ("junit_digest_format", junit_format);
   ("isolation_evidence", vopt_dict isolation_evidence);
   ("blackbox_pack_isolation_evidence", vopt_dict isolation_evidence);
   ("setup_isolation_evidence", repo_get "setup_isolation_evidence");
   ("repo_suite_isolation_evidence", repo_get "repo_suite_isolation_evidence");
   ("verifier_pack_isolation_evidence", repo_get "verifier_pack_isolation_evidence");
   ("deleted_paths_applied", match br_deleted_applied result_ with Some l => str_list l | None => VNone end);
   ("repo_suite_junit_sha256", repo_get "junit_sha256");
   ("repo_suite_junit_digest_format", repo_get "junit_digest_format");
   ("repo_suite_passed", match repo_verdict with
                         | Some v => if repo_clean_source then VBool (rv_passed v) else VNone
                         | None => VNone
                         end);
   ("repo_suite_started", VBool repo_started);
   ("repo_suite_completed", VBool repo_completed);
   ("repo_suite_state", VStr repo_suite_state);
   ("repo_suite_image_digest", repo_get "image_digest");
   ("base_sha", vopt_str (bi_base_sha request));
   ("head_sha", vopt_str (bi_head_sha request));
   ("base_tree_sha", vopt_str (bi_base_tree_sha request));
   ("head_tree_sha", vopt_str (bi_head_tree_sha request));
   ("policy_id", vopt_str (bi_policy_id request));
   ("policy_version", vopt_str (bi_policy_version request));
   ("setup_isolation", repo_get "setup_isolation");
   ("execution_state", VStr final_execution_state);
   ("execution_phase", VStr final_execution_phase);
   ("test_command_started", VBool final_command_started);
   ("candidate_invocations", VInt candidate_invocations);
   ("candidate_launcher_invocation_observed", VBool invocation_observed);
   ("delivered_isolation", VStr candidate_isolation);
   ("effective_candidate_isolation", VStr candidate_isolation)].

Definition unsupported_blackbox_baseline : dict := dict_of
  [("verdict", VNone); ("tests_passed", VNone); ("tests_total", VNone);
   ("repair_effect", VStr (u "unmeasured")); ("scope", VStr (u "unsupported_mode"));
   ("note", VStr (u "baseline differential evidence runs under the subprocess repo judge only; the black-box judge did not measure it"))].
Definition unsupported_blackbox_coverage : dict := dict_of
  [("measured", VBool false);
   ("note", VStr (u "changed-line coverage runs under the subprocess repo judge only; the black-box judge did not measure it"))].
End Composed.

Definition finalize_blackbox_verification : result gate_exn BlackboxFinalizationOutcome :=
  let* risk := bs_risk_assessor services in
  let* repo_verdict := composed_repo in
  let* core := blackbox_decision repo_verdict in
  let* (tests_passed, tests_total) := final_counts repo_verdict in
  let* assurance := bs_assurance_builder services candidate_isolation (bi_verifier_pack_path request)
    (repo_started repo_verdict) (negb (bi_blackbox_only request)) (repo_suite_state repo_verdict)
    candidate_isolation (as_opt_str (repo_get repo_verdict "setup_isolation"))
    (as_opt_str (repo_get repo_verdict "runtime_continuity"))
    (final_execution_state repo_verdict) (final_execution_phase repo_verdict)
    (final_command_started repo_verdict) blackbox_pack_evidence in
  let* p := apply_assurance (from_decision core) assurance (final_execution_state repo_verdict) true
    (bi_require_report_integrity request) (bi_require_candidate_isolation request)
    (bs_assurance_shortfall services) true in
  let* attestation := bs_attestation_builder services (bi_candidate_text request)
    (bi_safe_deleted_paths request) (bi_test_command request) (bi_effective_policy request)
    (blackbox_artifacts repo_verdict) (u "blackbox") in
  Ok {| bo_decision := decision p;
        bo_passed := passed (decision p);
        bo_risk_level := fst risk;
        bo_risk_score := snd risk;
        bo_tests_passed := tests_passed;
        bo_tests_total := tests_total;
        bo_test_command_started := final_command_started repo_verdict;
        bo_execution_state := final_execution_state repo_verdict;
        bo_execution_phase := final_execution_phase repo_verdict;
        bo_verdict_source := final_verdict_source repo_verdict;
        bo_diagnostics := br_diagnostics result_;
        bo_effective_candidate_isolation := candidate_isolation;
        bo_baseline := if bi_collect_baseline_evidence request then Some unsupported_blackbox_baseline else None;
        bo_diff_coverage := if bi_collect_diff_coverage request then Some unsupported_blackbox_coverage else None;
        bo_attestation := attestation;
        bo_assurance := assurance |}.
End Blackbox.
