(* ===== verification/BlackboxSound.v ===== *)
(** Properties of the black-box finalization: when it passes, that a green pack
    never masks a repository failure, and that the assurance it delivers is one
    the record verifier accepts. *)
From S2P Require Import PyStr Bytes Verdict RecordReport RecordPolicy RecordTypes RecordVerifier.
From S2P Require Import Decision Assurance ProducerAgree Finalization FinalizationSound BlackboxFinalization.
Local Open Scope Z_scope.

Section Sound.
Context `{UnicodeDB}.

(** ** The decision *)

Lemma error_reason_contract request v r :
  error_reason request = (v, r) -> contract_verdict r v = true /\ v <> PASS.
Proof. unfold error_reason. repeat case_if; intros [= <- <-]; done. Qed.

Lemma table_lookup_ok {A} (table : list (string * A)) key x :
  table_lookup table key = Ok x -> x = None \/ exists s, key = VStr s /\ x = Decision.assoc s table.
Proof. destruct key; simpl; try done; intros <-%Ok_inj; eauto. Qed.

Lemma repo_failure_contract repo_verdict v vd r cause :
  repo_failure repo_verdict v = Ok (vd, r, cause) -> contract_verdict r vd = true /\ vd <> PASS.
Proof.
  unfold repo_failure. cbv zeta. intros (tamper & Ht & Hr)%rbind_ok.
  destruct tamper as [[r' s]|].
  - apply table_lookup_ok in Ht as [Ht|(k & _ & Ht)]; [done|]. symmetry in Ht.
    apply tamper_table_contract in Ht. apply Ok_inj in Hr. by injection Hr as <- <- _.
  - destruct (truthy _); [apply Ok_inj in Hr; by injection Hr as <- <- _|].
    apply rbind_ok in Hr as (tab & Htab & Hr). apply Ok_inj in Hr. destruct tab as [[v' r']|].
    + apply table_lookup_ok in Htab as [Htab|(k & _ & Htab)]; [done|]. symmetry in Htab.
      apply outcome_table_contract in Htab. by injection Hr as <- <- _.
    + destruct (negb _); [by injection Hr as <- <- _|]. destruct (fleb _ _); by injection Hr as <- <- _.
Qed.

(** The composed repository suite, when there is one, passed. *)
Definition repo_ok (repo_verdict : option RepoVerdictResult) : bool :=
  match repo_verdict with Some v => rv_passed v | None => true end.

Lemma blackbox_decision_spec request repo_verdict d :
  blackbox_decision request repo_verdict = Ok d ->
  decided d /\
  (gd_verdict d = PASS <->
     br_ran (bi_runtime_result request) = true /\ invocation_observed request = true /\
     br_passed (bi_runtime_result request) = true /\ repo_ok repo_verdict = true).
Proof.
  unfold blackbox_decision. cbv zeta. set (result := bi_runtime_result request).
  assert (Hno : forall v r t (P : Prop), ~ P -> v <> PASS -> contract_verdict r v = true ->
                decide_as v r t = Ok d -> decided d /\ (gd_verdict d = PASS <-> P)).
  { intros v r t P HP Hv Hc Hd. split; [by eapply decide_as_decided in Hd|].
    apply decide_as_ok in Hd as [-> _]. tauto. }
  assert (Hyes : forall t (P : Prop), P -> decide_as PASS REASON_TESTS_PASSED t = Ok d ->
                 decided d /\ (gd_verdict d = PASS <-> P)).
  { intros t P HP Hd. split; [by eapply decide_as_decided in Hd|]. by apply decide_as_ok in Hd as [-> _]. }
  destruct (br_ran result), (invocation_observed request); cbn [andb negb]; cbv match;
    try (by apply Hno; [naive_solver|..]).
  - destruct (br_passed result); cbn [negb]; cbv match; [|by apply Hno; [naive_solver|..]].
    destruct repo_verdict as [v|]; [|by apply Hyes]. destruct (rv_passed v) eqn:Ep; cbn [negb]; cbv match.
    + by apply Hyes; simpl; rewrite Ep.
    + intros ([[vd r] cause] & Hf%repo_failure_contract & Hd)%rbind_ok. destruct Hf as [Hc Hv].
      revert Hd. apply Hno; [|done|done]. simpl. rewrite Ep. naive_solver.
  - destruct (error_reason request) as [v r] eqn:Ee. apply error_reason_contract in Ee as [Hc Hv].
    apply Hno; [naive_solver|done|done].
  - destruct (error_reason request) as [v r] eqn:Ee. apply error_reason_contract in Ee as [Hc Hv].
    apply Hno; [naive_solver|done|done].
Qed.

Lemma composed_repo_ok request services repo_verdict :
  composed_repo request services = Ok repo_verdict ->
  match repo_verdict with
  | Some v => bi_blackbox_only request = false /\ gradeable request = true /\
              br_passed (bi_runtime_result request) = true /\ bs_composed_repo_verifier services = Ok v
  | None => bi_blackbox_only request = true \/ gradeable request = false \/
            br_passed (bi_runtime_result request) = false
  end.
Proof.
  unfold composed_repo. destruct (bi_blackbox_only request), (gradeable request), (br_passed _); cbn [negb andb];
    try (intros <-%Ok_inj; tauto).
  intros (v & Hv & <-%Ok_inj)%rbind_ok. by rewrite Hv.
Qed.

Lemma blackbox_ok request services out :
  finalize_blackbox_verification request services = Ok out ->
  exists repo_verdict core,
    composed_repo request services = Ok repo_verdict /\
    blackbox_decision request repo_verdict = Ok core /\
    final_counts request repo_verdict = Ok (bo_tests_passed out, bo_tests_total out) /\
    bs_assurance_builder services (candidate_isolation request) (bi_verifier_pack_path request)
      (repo_started repo_verdict) (negb (bi_blackbox_only request)) (repo_suite_state request repo_verdict)
      (candidate_isolation request) (as_opt_str (repo_get repo_verdict "setup_isolation"))
      (as_opt_str (repo_get repo_verdict "runtime_continuity"))
      (final_execution_state request repo_verdict) (final_execution_phase request repo_verdict)
      (final_command_started request repo_verdict) (blackbox_pack_evidence request) = Ok (bo_assurance out) /\
    apply_assurance_gate core (bo_assurance out) (final_execution_state request repo_verdict) true
      (bi_require_report_integrity request) (bi_require_candidate_isolation request)
      (bs_assurance_shortfall services) true = Ok (bo_decision out) /\
    bo_passed out = passed (bo_decision out) /\
    bs_attestation_builder services (bi_candidate_text request) (bi_safe_deleted_paths request)
      (bi_test_command request) (bi_effective_policy request) (blackbox_artifacts request repo_verdict)
      (u "blackbox") = Ok (bo_attestation out) /\
    bo_effective_candidate_isolation out = candidate_isolation request /\
    bo_execution_state out = final_execution_state request repo_verdict /\
    bo_execution_phase out = final_execution_phase request repo_verdict /\
    bo_test_command_started out = final_command_started request repo_verdict /\
    bo_verdict_source out = final_verdict_source request repo_verdict.
Proof.
  unfold finalize_blackbox_verification. intros (risk & _ & Hr)%rbind_ok.
  apply rbind_ok in Hr as (rv & Hrv & Hr). apply rbind_ok in Hr as (core & Hcore & Hr).
  apply rbind_ok in Hr as ([tp tt] & Hcounts & Hr). apply rbind_ok in Hr as (a & Ha & Hr).
  apply rbind_ok in Hr as (p & Hp & Hr). apply rbind_ok in Hr as (att & Hatt & <-%Ok_inj).
  apply rbind_ok in Hp as (d & Hd & <-%Ok_inj). exists rv, core. split_and!; done.
Qed.

(** a final black-box PASS is earned, and a green pack never masks the
    repository.  The finalization returns decisions of the reason contract and
    [passed] follows the verdict; a PASS means the judge ran, observed the
    candidate's launcher and its pack passed, that the repository suite was
    composed and passed unless the caller asked for the pack alone, that a
    completed execution has no assurance shortfall, and that the reported totals
    are the sums of both channels. *)
Theorem blackbox_final_pass_sound request services out :
  finalize_blackbox_verification request services = Ok out ->
  let result := bi_runtime_result request in
  decided (bo_decision out) /\ bo_passed out = verdict_eqb (gd_verdict (bo_decision out)) PASS /\
  (gd_verdict (bo_decision out) = PASS ->
     br_ran result = true /\ invocation_observed request = true /\ br_passed result = true /\
     (bo_execution_state out = state_wire EXECUTION_COMPLETED ->
        bs_assurance_shortfall services (bo_assurance out) (bi_require_report_integrity request)
          (bi_require_candidate_isolation request) = Ok None) /\
     (if bi_blackbox_only request then bo_verdict_source out = Some (u "blackbox")
      else exists v, bs_composed_repo_verifier services = Ok v /\ rv_passed v = true /\
        (truthy (dget (rv_artifact v) (u "verdict_source")) = true ->
           bo_verdict_source out = Some (u "composite:blackbox+repo")) /\
        forall p t, dget (rv_artifact v) (u "tests_passed") = VInt p -> dget (rv_artifact v) (u "tests_total") = VInt t ->
          bo_execution_state out = state_wire EXECUTION_COMPLETED ->
          bo_tests_passed out = Some (br_tests_passed result + p) /\
          bo_tests_total out = Some (br_tests_total result + t))).
Proof.
  intros (rv & core & Hrv & Hcore & Hcounts & _ & Hgate & Hpassed & _ & _ & Hst & _ & _ & Hsrc)%blackbox_ok. cbv zeta.
  apply blackbox_decision_spec in Hcore as [Hdec Hpass]. apply assurance_gate_step in Hgate as [Hs Hg].
  split; [by eapply gate_step_decided|]. split; [exact Hpassed|]. intros Hp.
  assert (E : bo_decision out = core) by (destruct Hs as [|(_ & ? & _)]; done). rewrite E in Hp.
  apply Hpass in Hp as (Hran & Hinv & Hok & Hrepo). split; [done|]. split; [done|]. split; [done|].
  split. { intros Hc. apply Hg; [rewrite E; by apply Hpass|congruence|by left]. }
  apply composed_repo_ok in Hrv. assert (Hgr : gradeable request = true) by (unfold gradeable; by rewrite Hran, Hinv).
  unfold final_verdict_source in Hsrc. rewrite Hgr in Hsrc.
  destruct rv as [v|].
  - destruct Hrv as (Hbo & _ & _ & Hv). rewrite Hbo. exists v. split; [done|]. split; [done|]. split.
    + intros Htr. unfold repo_clean_source, repo_get, repo_art in Hsrc. rewrite Htr in Hsrc. exact Hsrc.
    + intros p t Hpp Htt Hc. rewrite Hst in Hc. unfold final_counts in Hcounts. cbn [is_some] in Hcounts.
      rewrite Hc, str_eqb_refl in Hcounts. unfold repo_get, repo_art in Hcounts. rewrite Hpp, Htt in Hcounts.
      apply Ok_inj in Hcounts. by injection Hcounts as <- <-.
  - destruct Hrv as [Hbo|[|]]; [|congruence|congruence]. rewrite Hbo. exact Hsrc.
Qed.

(** ** The delivered profile *)

(** The repository channel of a black-box run, by lifecycle. *)
Definition channel_consistent (state : execution_state) (blackbox_only composed : bool) (repo_state : str) : bool :=
  match state with
  | EXECUTION_STARTED_INCOMPLETE =>
      eqb composed (str_in repo_state (us ["required_started_incomplete"; "composed_completed"]))
  | EXECUTION_COMPLETED =>
      if blackbox_only then negb composed && (repo_state =s? u "not_required_blackbox_only")
      else if composed then repo_state =s? u "composed_completed"
      else str_in repo_state (us ["required_not_run_short_circuit"; "required_not_started"])
  | _ => false
  end.

Lemma v_in_str s l : v_in (VStr s) l = str_in s l.
Proof. unfold v_in, str_in. induction l as [|x l IH]; [done|]. cbn [existsb]. by rewrite IH, py_eq_str. Qed.

(** A black-box profile of a started run is accepted. *)
Lemma blackbox_profile_accepted record policy pack blackbox_only composed repo_state candidate setup
    continuity state phase evidence :
  judged_record record state true ->
  dget policy (u "mode") = VStr (u "blackbox") -> dget policy (u "blackbox_only") = VBool blackbox_only ->
  channel_consistent state blackbox_only composed repo_state = true ->
  str_in repo_state Nested._REPO_SUITE_STATES = true ->
  str_in candidate Nested._ISOLATIONS = true -> known_setup setup = true -> phase <> [] ->
  typed_evidence (Some evidence) ->
  let a := assurance_profile candidate pack true composed (negb blackbox_only) (Some repo_state)
             (Some candidate) setup continuity (state_wire state) phase true (Some evidence) in
  well_shaped a /\ semantics_accepted record a (Some policy).
Proof.
  intros Hrec Hm Hbo Hch Hrs Hcand Hset Hph He. cbv zeta. unfold assurance_profile. cbv zeta.
  pose proof (pack_parts_ok pack candidate true _ He) as Hpk.
  replace ((state_wire state =s? state_wire EXECUTION_NOT_STARTED) || negb true) with false
    by (destruct state; done). cbv match.
  assert (Hne : str_or (Some repo_state) (if composed then u "composed_completed"
             else if negb blackbox_only then u "required_not_run_short_circuit"
             else u "not_required_blackbox_only") = repo_state).
  { destruct repo_state as [|c s]; [by vm_compute in Hrs|done]. }
  rewrite Hne. split.
  - apply profile_shape; [reflexivity|exact Hpk|]. constructor; cbn -[str_in us]; try done.
    + apply state_known.
    + case_if; reflexivity.
    + by destruct setup.
    + repeat case_if; reflexivity.
  - destruct Hrec as [Hs Hr]. unfold semantics_accepted, _check_assurance_semantics. cbv zeta.
    rewrite Hs, Hr, Hm, get_harness_integrity. unfold started_profile_valid. cbv zeta.
    rewrite Hm, Hbo, get_overall_profile, get_report_integrity, get_repo_native_suite.
    cbn [ap_overall_profile ap_report_integrity ap_repo_native_suite_present ap_repo_native_suite vopt_str].
    rewrite !v_in_str, !(py_eq_str (VStr repo_state)). cbn [eq_str].
    unfold channel_consistent in Hch. destruct state; try done.
    + apply eqb_prop in Hch. rewrite <- Hch. by destruct composed.
    + destruct blackbox_only; [|destruct composed].
      * apply andb_true_iff in Hch as [Hc Hn]. rewrite Hn. by destruct composed.
      * rewrite Hch. reflexivity.
      * apply str_in_In in Hch. destruct Hch as [<-|[<-|[]]]; reflexivity.
Qed.

(** ** The finalized record *)

(** The services are the ones of the application layer. *)
Definition blackbox_application_services (services : BlackboxFinalizationServices) (now version : str)
    (candidate_digest : str -> str) (policy_digest : dict -> str) (format : str) : Prop :=
  (forall iso pack composed required repo_state cand setup cont state phase started ev,
     bs_assurance_builder services iso pack composed required repo_state cand setup cont state phase started ev =
     Ok (assurance_profile iso (Some pack) true composed required (Some repo_state) (Some cand) setup cont
           state phase started (Some ev))) /\
  (forall c d t p a m, bs_attestation_builder services c d t p a m =
     Ok (build_attestation c d t p a m now version candidate_digest policy_digest format)).

(** A coherent result of the judge: its lifecycle words agree, a gradeable run
    was started, the delivered boundary is a known one, the pack is identified
    by a digest or not at all. *)
Record coherent_result (request : BlackboxFinalizationInput) (s : execution_state) : Prop := {
  cr_state : judge_state request = state_wire s;
  cr_lifecycle : lifecycle s (judge_started request) = true;
  cr_started : br_ran (bi_runtime_result request) = true -> judge_started request = true;
  cr_isolation : str_in (candidate_isolation request) Nested._ISOLATIONS = true;
  cr_pack : match br_pack_sha256 (bi_runtime_result request) with Some h => hex64_lower h = true | None => True end }.

Lemma blackbox_evidence_typed request s : coherent_result request s -> typed_evidence (Some (blackbox_pack_evidence request)).
Proof.
  intros Hc. split.
  - change (dget (blackbox_pack_evidence request) (u "present")) with (vopt_bool (pack_present request)).
    destruct (pack_present request); [right; by eexists|by left].
  - change (dget (blackbox_pack_evidence request) (u "snapshot_sha256"))
      with (vopt_str (br_pack_sha256 (bi_runtime_result request))).
    pose proof (cr_pack _ _ Hc) as Hp. destruct (br_pack_sha256 _); [right; by eexists|by left].
Qed.

Lemma suite_state_known request repo_verdict :
  str_in (repo_suite_state request repo_verdict) Nested._REPO_SUITE_STATES = true.
Proof. unfold repo_suite_state. repeat case_if; reflexivity. Qed.

(** The final lifecycle is a lifecycle, and its repository channel is consistent. *)
Lemma final_lifecycle request services repo_verdict s :
  composed_repo request services = Ok repo_verdict -> coherent_result request s ->
  exists s', final_execution_state request repo_verdict = state_wire s' /\
    lifecycle s' (final_command_started request repo_verdict) = true /\
    (final_command_started request repo_verdict = false -> judge_started request = false) /\
    (final_command_started request repo_verdict = true ->
     channel_consistent s' (bi_blackbox_only request) (repo_started repo_verdict)
       (repo_suite_state request repo_verdict) = true).
Proof.
  intros Hrv [Hst Hl Hran _ _]. apply composed_repo_ok in Hrv.
  unfold final_execution_state, final_command_started, repo_suite_state.
  destruct repo_verdict as [v|]; cbn [is_some negb].
  - destruct Hrv as (Hbo & Hgr & _). unfold gradeable in Hgr. apply andb_true_iff in Hgr as [Hr _].
    rewrite (Hran Hr), Hbo. cbn [orb]. unfold repo_completed.
    destruct (py_eq (repo_get (Some v) "execution_state") (VStr (state_wire EXECUTION_COMPLETED))) eqn:Ec;
      destruct (judge_state request =s? state_wire EXECUTION_COMPLETED) eqn:Ej; cbn [andb];
      destruct (repo_started (Some v)) eqn:Er; cbn [andb negb];
      first [ exists EXECUTION_COMPLETED; split; [reflexivity|]; split; [reflexivity|]; split; [done|]; done
            | exists EXECUTION_STARTED_INCOMPLETE; split; [reflexivity|]; split; [reflexivity|]; split; [done|]; done ].
  - exists s. rewrite Hst. change (repo_started None) with false. rewrite orb_false_r.
    split; [done|]. split; [done|]. split; [done|]. intros Hs. rewrite Hs in Hl.
    destruct s; try done; destruct (bi_blackbox_only request); done.
Qed.

(** Fields of a black-box profile. *)
Lemma blackbox_assurance_fields pack composed required repo_state candidate setup continuity state phase started evidence :
  let a := assurance_profile candidate pack true composed required repo_state (Some candidate) setup continuity
             (state_wire state) phase started evidence in
  lifecycle state started = true -> (started = false -> candidate = u "not_run") ->
  dget a (u "execution_state") = VStr (state_wire state) /\ dget a (u "execution_phase") = VStr phase /\
  dget a (u "candidate_isolation") = VStr candidate /\ dget a (u "suite_isolation") = VStr candidate.
Proof.
  cbv zeta. intros Hl Hc. unfold assurance_profile, preflight_assurance_profile. cbv zeta.
  destruct started; [|rewrite Hc by done; rewrite orb_true_r; cbv match].
  - replace (_ || negb true) with false by (destruct state; done). cbv match.
    rewrite get_execution_state, get_execution_phase, get_candidate_isolation, get_suite_isolation. done.
  - rewrite get_execution_state, get_execution_phase, get_candidate_isolation, get_suite_isolation. done.
Qed.

(** Fields of the attestation built from the black-box artifacts. *)
Lemma blackbox_attestation_fields request repo_verdict candidate deleted cmd policy mode now version cd pd format :
  let att := build_attestation candidate deleted cmd policy (blackbox_artifacts request repo_verdict)
               mode now version cd pd format in
  dget att (u "execution_state") = VStr (final_execution_state request repo_verdict) /\
  dget att (u "execution_phase") = VStr (final_execution_phase request repo_verdict) /\
  dget att (u "test_command_started") = VBool (final_command_started request repo_verdict) /\
  dget att (u "delivered_isolation") = VStr (candidate_isolation request) /\
  dget att (u "effective_candidate_isolation") = VStr (candidate_isolation request).
Proof. cbv zeta. repeat split; reflexivity. Qed.

(** A record that reports the outcome. *)
Definition blackbox_reports (record : dict) (out : BlackboxFinalizationOutcome) : Prop :=
  dget record (u "execution_state") = VStr (bo_execution_state out) /\
  dget record (u "execution_phase") = VStr (bo_execution_phase out) /\
  dget record (u "test_command_ran") = VBool (bo_test_command_started out) /\
  dget record (u "isolation") = VStr (bo_effective_candidate_isolation out).

(** C38: a finalized black-box record is internally consistent.  With the
    application's services and a coherent result of the judge, a record that
    reports the outcome carries an assurance of the required shape, passes the
    verifier's lifecycle semantics for the black-box policy, both lifecycle
    parity checks and both isolation parity checks - on every lifecycle, started
    or not, and whatever the composed repository suite did. *)
Theorem blackbox_record_accepted request services out now version cd pd format s record policy :
  finalize_blackbox_verification request services = Ok out ->
  blackbox_application_services services now version cd pd format ->
  coherent_result request s ->
  (forall v, bs_composed_repo_verifier services = Ok v ->
     known_setup (as_opt_str (dget (rv_artifact v) (u "setup_isolation"))) = true) ->
  bo_execution_phase out <> [] -> blackbox_reports record out ->
  dget policy (u "mode") = VStr (u "blackbox") ->
  dget policy (u "blackbox_only") = VBool (bi_blackbox_only request) ->
  well_shaped (bo_assurance out) /\
  semantics_accepted record (bo_assurance out) (Some policy) /\
  (exists rest, _check_lifecycle record (Some (bo_assurance out)) (Some (bo_attestation out)) =
     c_pass "lifecycle.assurance_parity" ++ c_pass "lifecycle.attestation_parity" ++ rest) /\
  _check_isolation record (Some (bo_assurance out)) (Some (bo_attestation out)) =
     c_pass "isolation.assurance_parity" ++ c_pass "isolation.attestation_parity".
Proof.
  intros (rv & core & Hrv & _ & _ & Ha & _ & _ & Hatt & Eiso & Est & Eph & Ecmd & _)%blackbox_ok
    [Sa St] Hc Hsetup Hph (R1 & R2 & R3 & R4) Hm Hbo.
  rewrite Sa in Ha. rewrite St in Hatt. apply Ok_inj in Ha. apply Ok_inj in Hatt.
  destruct (final_lifecycle _ _ _ _ Hrv Hc) as (s' & Es & Hl & Hns & Hch).
  rewrite Est, Es in R1. rewrite Ecmd in R3. rewrite Eiso in R4. rewrite Eph in R2, Hph. rewrite Es in Ha.
  assert (Hset : known_setup (as_opt_str (repo_get rv "setup_isolation")) = true).
  { apply composed_repo_ok in Hrv. destruct rv as [v|]; [|done]. apply Hsetup. by destruct Hrv as (_ & _ & _ & ?). }
  assert (Hnr : final_command_started request rv = false -> candidate_isolation request = u "not_run").
  { intros Hn. apply Hns in Hn. unfold candidate_isolation, delivered_isolation. rewrite Hn. by destruct (invocation_observed request). }
  destruct (blackbox_attestation_fields request rv (bi_candidate_text request) (bi_safe_deleted_paths request)
    (bi_test_command request) (bi_effective_policy request) (u "blackbox") now version cd pd format)
    as (T1 & T2 & T3 & T4 & T5). rewrite Hatt in T1, T2, T3, T4, T5. rewrite Es in T1.
  match type of Ha with assurance_profile ?i ?p _ ?c ?q ?r _ ?st ?cont _ ?ph ?b ?ev = _ =>
    destruct (blackbox_assurance_fields p c q r i st cont s' ph b ev Hl Hnr) as (A1 & A2 & A3 & A4) end.
  rewrite Ha in A1, A2, A3, A4.
  assert (Hprofile : well_shaped (bo_assurance out) /\ semantics_accepted record (bo_assurance out) (Some policy)).
  { rewrite <- Ha. destruct (final_command_started request rv) eqn:Ecs.
    - apply blackbox_profile_accepted; try done.
      + by apply Hch.
      + apply suite_state_known.
      + apply (cr_isolation _ _ Hc).
      + by eapply blackbox_evidence_typed.
    - unfold assurance_profile. rewrite orb_true_r. split.
      + apply preflight_shape; [done|done|]. by eapply blackbox_evidence_typed.
      + by apply preflight_semantics. }
  destruct Hprofile as [Hw Hsem]. split; [done|]. split; [done|]. split.
  - unfold _check_lifecycle. cbv zeta. rewrite A1, A2, T1, T2, T3, R1, R2, R3, !py_eq_str.
    cbn [eq_str]. rewrite !str_eqb_refl, py_eq_bool, eqb_reflx. cbn [andb c_expect app]. eexists. reflexivity.
  - unfold _check_isolation. cbv zeta. rewrite A3, A4, T4, T5, R1, R3, R4.
    rewrite !py_eq_str. cbn [eq_str is_none is_false_v]. rewrite !str_eqb_refl, !andb_false_r. reflexivity.
Qed.
End Sound.

(** ** A concrete composed run *)

(** The judge ran in a container, saw the launcher and passed three tests. *)
Definition sample_judge : BlackboxRuntimeResult :=
  {| br_passed := true; br_tests_passed := 3; br_tests_total := 3; br_diagnostics := [];
     br_ran := true; br_error := None; br_pack_sha256 := None; br_pack_manifest := None;
     br_junit_sha256 := None; br_isolation := Some (dict_of [("delivered", VStr (u "docker"))]);
     br_deleted_applied := None; br_started := Some true; br_completed := Some true;
     br_execution_state := Some (state_wire EXECUTION_COMPLETED);
     br_execution_phase := Some (u "blackbox_pack"); br_pack_present := Some (Some true);
     br_candidate_invocations := Some 2; br_candidate_launcher_invocation_observed := Some true |}.

Definition sample_blackbox_request : BlackboxFinalizationInput :=
  {| bi_runtime_result := sample_judge; bi_blackbox_only := false; bi_verifier_pack_path := u "packs/p";
     bi_candidate_text := u "patch"; bi_safe_deleted_paths := []; bi_test_command := None;
     bi_effective_policy := []; bi_collect_baseline_evidence := false; bi_collect_diff_coverage := false;
     bi_require_report_integrity := None; bi_require_candidate_isolation := Some (u "docker");
     bi_base_sha := None; bi_head_sha := None; bi_base_tree_sha := None; bi_head_tree_sha := None;
     bi_policy_id := None; bi_policy_version := None |}.

(** The repository suite passed four tests. *)
Definition sample_repo_suite : RepoVerdictResult :=
  {| rv_passed := true; rv_score := SpecFloat.S754_zero false; rv_diagnostics := [];
     rv_artifact := dict_of
       [("test_command_started", VBool true); ("execution_state", VStr (state_wire EXECUTION_COMPLETED));
        ("execution_phase", VStr (u "complete")); ("verdict_source", VStr (u "junit+exit"));
        ("tests_passed", VInt 4); ("tests_total", VInt 4)] |}.

Definition sample_blackbox_services : BlackboxFinalizationServices :=
  {| bs_risk_assessor := Ok (u "low", SpecFloat.S754_zero false);
     bs_composed_repo_verifier := Ok sample_repo_suite;
     bs_assurance_builder := fun iso pack composed required repo_state cand setup cont state phase started ev =>
       Ok (assurance_profile iso (Some pack) true composed required (Some repo_state) (Some cand) setup cont
             state phase started (Some ev));
     bs_assurance_shortfall := assurance_shortfall;
     bs_attestation_builder := fun c d t p a m =>
       Ok (build_attestation c d t p a m (u "now") (u "4.1.0") (fun s => s) (fun _ => u "digest") (u "V2")) |}.

Definition finalize_blackbox : result gate_exn BlackboxFinalizationOutcome :=
  @finalize_blackbox_verification ascii_unicode sample_blackbox_request sample_blackbox_services.

Definition blackbox_reported (out : BlackboxFinalizationOutcome) : dict :=
  dict_of [("execution_state", VStr (bo_execution_state out)); ("execution_phase", VStr (bo_execution_phase out));
           ("test_command_ran", VBool (bo_test_command_started out));
           ("isolation", VStr (bo_effective_candidate_isolation out))].

Lemma blackbox_final_pass_sound_witness :
  exists out, finalize_blackbox = Ok out /\ bo_passed out = true /\
              bo_tests_passed out = Some 7 /\ bo_tests_total out = Some 7.
Proof.
  destruct finalize_blackbox as [out|] eqn:E; [|vm_compute in E; discriminate E].
  assert (Hp : gd_verdict (bo_decision out) = PASS) by (vm_compute in E; injection E as <-; reflexivity).
  assert (Hc : bo_execution_state out = state_wire EXECUTION_COMPLETED)
    by (vm_compute in E; injection E as <-; reflexivity).
  destruct (@blackbox_final_pass_sound ascii_unicode sample_blackbox_request sample_blackbox_services out E)
    as (_ & Hpassed & H).
  exists out. split; [reflexivity|]. split; [rewrite Hpassed, Hp; reflexivity|].
  destruct (H Hp) as (_ & _ & _ & _ & v & Hv & _ & _ & Hcounts).
  apply Ok_inj in Hv. subst v. exact (Hcounts 4 4 eq_refl eq_refl Hc).
Defined.

Lemma blackbox_record_accepted_witness :
  exists out, finalize_blackbox = Ok out /\ well_shaped (bo_assurance out).
Proof.
  destruct finalize_blackbox as [out|] eqn:E; [|vm_compute in E; discriminate E].
  assert (Hph : bo_execution_phase out <> []) by (vm_compute in E; injection E as <-; discriminate).
  exists out. split; [reflexivity|].
  refine (proj1 (@blackbox_record_accepted ascii_unicode sample_blackbox_request sample_blackbox_services out
            (u "now") (u "4.1.0") (fun s => s) (fun _ => u "digest") (u "V2") EXECUTION_COMPLETED
            (blackbox_reported out) (dict_of [("mode", VStr (u "blackbox")); ("blackbox_only", VBool false)])
            E _ _ _ Hph _ eq_refl eq_refl)).
  - split; reflexivity.
  - constructor; reflexivity.
  - intros v Hv. apply Ok_inj in Hv. subst v. reflexivity.
  - repeat split; reflexivity.
Defined.
