(* ===== verification/Derivation.v ===== *)
(** Raw-Git bindings (finalizer_derivation.py): the candidate, the policy and the
    verifier-pack identity are derived from the objects of two repositories, never
    from what a candidate run reports. *)
From S2P Require Export EvidencePrimitives.
Local Open Scope Z_scope.

Definition FINALIZER_DERIVATION_FORMAT : str := u "EVOGUARD_FINALIZER_GIT_BINDINGS_V1".
Definition AGENT_CHANGE_GIT_BINDINGS_FORMAT_V1 : str := u "EVOGUARD_AGENT_CHANGE_GIT_BINDINGS_V1".
Definition AGENT_CHANGE_GIT_BINDINGS_FORMAT_V2 : str := u "EVOGUARD_AGENT_CHANGE_GIT_BINDINGS_V2".
Definition AGENT_CHANGE_CANDIDATE_SELECTION_PROFILE : str := u "EVOGUARD_AGENT_CHANGE_CANDIDATE_SELECTION_V1".
Definition COPY_IGNORE : list str := us
  [".git"; "__pycache__"; ".venv"; "venv"; "node_modules"; ".evo_runs"; ".pytest_cache"; ".mypy_cache";
   "dist"; "build"].

Definition _BINDING_KEYS : list str := us [
  "format"; "source"; "repository"; "repository_id"; "guard_artifact_sha256"; "base_tree_sha"; "head_tree_sha";
  "candidate_sha256"; "deleted_paths"; "policy_sha256"; "verifier_pack_sha256"; "verifier_pack_manifest";
  "effective_policy"].
Definition _SOURCE_KEYS : list str := us
  ["pull_request_number"; "workflow_run_id"; "workflow_run_attempt"; "base_sha"; "head_sha"].

(** ** The candidate *)

(** [ignored_basenames=None] selects what the copy of a repository ignores. *)
Definition _ignored_path (path : str) (ignored_basenames : option (list str)) : bool :=
  let ignored := match ignored_basenames with None => u ".git" :: COPY_IGNORE | Some l => l end in
  existsb (fun part => str_in part ignored) (split_char ch_slash path).

Definition visible (ignored_basenames : option (list str)) (entries : tree_entries) : tree_entries :=
  List.filter (fun item => negb (_ignored_path (fst item) ignored_basenames)) entries.

(** [sorted(paths, key=candidate_path_order_key)] *)
Definition keyed_leb {A} (a b : bytes * A) : bool := bytes_leb (fst a) (fst b).

Definition path_order {A} (items : list (str * A)) : result CandidateIdentityError (list (str * A)) :=
  let* keyed := rmap (fun item => let* k := candidate_path_order_key (fst item) in Ok (k, item)) items in
  Ok (map snd (py_sort keyed_leb keyed)).

(** The blocks, problems and counters of the loop over the changed paths. *)
Record block_state := {
  bs_blocks : list (str * str);
  bs_problems : list (str * block_problem);
  bs_changed : Z;
  bs_bytes : Z }.

Definition exceeds (n : Z) (maximum : option Z) : bool :=
  match maximum with Some m => m <? n | None => false end.

Section Derivation.
Context `{UnicodeDB}.

Definition with_problem (st : block_state) (path : str) (problem : block_problem) : block_state :=
  {| bs_blocks := bs_blocks st; bs_problems := bs_problems st ++ [(path, problem)];
     bs_changed := bs_changed st; bs_bytes := bs_bytes st |}.

(** Reading the new content of one path. *)
Definition read_block (head : git_reader) (maximum_total_bytes : option Z) (st : block_state) (path : str)
    (candidate : _GitEntry) : block_state :=
  match blob head (ge_id candidate) MAX_CANDIDATE_FILE_BYTES with
  | Err e => with_problem st path (Refused e)
  | Ok data =>
      let total := bs_bytes st + Z.of_nat (length data) in
      let st := {| bs_blocks := bs_blocks st; bs_problems := bs_problems st; bs_changed := bs_changed st;
                   bs_bytes := total |} in
      if exceeds total maximum_total_bytes then with_problem st path (Refused TooManyChangedBytes)
      else match utf8_decode data with
           | None => with_problem st path NotText
           | Some text => {| bs_blocks := bs_blocks st ++ [(path, text)]; bs_problems := bs_problems st;
                             bs_changed := bs_changed st; bs_bytes := total |}
           end
  end.

Definition candidate_block (head : git_reader) (base_tree : tree_entries) (maximum_paths maximum_total_bytes : option Z)
    (item : str * _GitEntry) (st : block_state) : derived block_state :=
  let '(path, candidate) := item in
  let original := entry_at path base_tree in
  if bool_decide (original = Some candidate) then Ok st
  else
    let st := {| bs_blocks := bs_blocks st; bs_problems := bs_problems st; bs_changed := bs_changed st + 1;
                 bs_bytes := bs_bytes st |} in
    if exceeds (bs_changed st) maximum_paths then Err TooManyChangedPaths
    else
      let mode_changed := match original with Some o => negb (ge_mode o =s? ge_mode candidate) | None => false end in
      let type_changed := match original with Some o => negb (ge_type o =s? ge_type candidate)
                                            | None => false end in
      if mode_changed then Ok (with_problem st path ModeChanged)
      else if type_changed then Ok (with_problem st path TypeChanged)
      else if negb (regular candidate) then Ok (with_problem st path NotRegular)
      else Ok (read_block head maximum_total_bytes st path candidate).

Fixpoint block_loop (head : git_reader) (base_tree : tree_entries) (maximum_paths maximum_total_bytes : option Z)
    (items : tree_entries) (st : block_state) : derived block_state :=
  match items with
  | [] => Ok st
  | item :: items' =>
      let* st := candidate_block head base_tree maximum_paths maximum_total_bytes item st in
      block_loop head base_tree maximum_paths maximum_total_bytes items' st
  end.

Definition _candidate_blocks (base head : git_reader) (base_sha head_sha : str)
    (maximum_paths maximum_total_bytes : option Z) (ignored_basenames : option (list str))
  : derived (list (str * str)) :=
  let* base_entries := tree base base_sha in
  let* head_entries := tree head head_sha in
  let base_tree := visible ignored_basenames base_entries in
  match path_order (visible ignored_basenames head_entries) with
  | Err e => Err (PathOrder e)
  | Ok items =>
      let* st := block_loop head base_tree maximum_paths maximum_total_bytes items
                   {| bs_blocks := []; bs_problems := []; bs_changed := 0; bs_bytes := 0 |} in
      if is_empty (bs_problems st) then Ok (bs_blocks st) else Err (Unrepresentable (bs_problems st))
  end.

(** The leaf and every directory above it. *)
Definition parent_paths (path : str) : list str :=
  let pieces := split_char ch_slash path in
  map (fun index => py_join [ch_slash] (take index pieces)) (seq 1 (length pieces - 1)).

Definition _tree_paths_with_directories (entries : tree_entries) : list str :=
  flat_map (fun item => fst item :: parent_paths (fst item)) (visible None entries).

Definition _deleted_paths (base_entries head_entries : tree_entries) : list str :=
  sorted_set (List.filter (fun p => negb (str_in p (_tree_paths_with_directories head_entries)))
                (_tree_paths_with_directories base_entries)).

(** ** The verifier pack *)

Definition _parse_pack_manifest (data : bytes) : derived (option dict) :=
  if MAX_PACK_MANIFEST_BYTES <? Z.of_nat (length data) then Err PackManifestTooLarge
  else
    match utf8_decode data with
    | None => Err PackManifestInvalid
    | Some text =>
        match strict_json_loads text with
        | Err _ => Err PackManifestInvalid
        | Ok decoded =>
            match manifest_problems decoded, decoded with
            | [], VDict m => Ok (Some (extract_manifest m))
            | problems, _ => Err (PackManifestProblems problems)
            end
        end
    end.

(** The frame the runner writes too. *)
Definition raw_framed_path (kind : Z) (path : str) : derived bytes :=
  match PackManifest._framed_path kind path with Ok b => Ok b | Err _ => Err UnencodablePath end.

Definition _require_raw_pack_entry_count (file_count directory_count : nat) : derived unit :=
  if MAX_PACK_ENTRIES <? Z.of_nat (file_count + directory_count) then Err RawPackTooManyEntries else Ok tt.

(** The files of the pack in order: their frames, whether one is a test, and the
    manifest. *)
Fixpoint raw_pack_files (reader : git_reader) (members : tree_entries) (total : Z)
  : derived (bytes * bool * option dict) :=
  match members with
  | [] => Ok ([], false, None)
  | (rel, e) :: members' =>
      let* data := blob reader (ge_id e) MAX_PACK_FILE_BYTES in
      let total := total + Z.of_nat (length data) in
      if MAX_PACK_BYTES <? total then Err RawPackTooLarge
      else
        let* frame := raw_framed_path 70 rel in
        let* own := (if rel =s? u "pack.json" then _parse_pack_manifest data else Ok None) in
        let* (rest, has_test, manifest) := raw_pack_files reader members' total in
        Ok (frame ++ pack_u64 (Z.of_nat (length data)) ++ data ++ rest, is_pack_test rel || has_test,
            match own with Some m => Some m | None => manifest end)
  end.

(** The entries below a directory, named relative to it. *)
Definition members_below (prefix : str) (entries : tree_entries) : tree_entries :=
  flat_map (fun item => if starts_with prefix (fst item) then [(skipn (length prefix) (fst item), snd item)] else [])
    entries.

Definition _raw_pack_identity (reader : git_reader) (tree_sha pack_path : str) : derived (str * option dict) :=
  if negb (is_safe_relpath pack_path) then Err UnsafePackPath
  else
    let* entries := tree reader tree_sha in
    let members := members_below (rstrip_by (N.eqb ch_slash) pack_path ++ [ch_slash]) entries in
    if is_empty members then Err PackAbsent
    else if existsb (fun item => is_empty (fst item) || negb (is_safe_relpath (fst item))) members
    then Err UnsafePackMember
    else if existsb (fun item => negb (regular (snd item))) members then Err PackMemberNotRegular
    else
      let directories := sorted_set (flat_map (fun item => parent_paths (fst item)) members) in
      let* _ := _require_raw_pack_entry_count (length members) (length directories) in
      let* dirs := rmap (raw_framed_path 68) directories in
      let* (files, has_test, manifest) := raw_pack_files reader (py_sort name_leb members) 0 in
      if negb has_test then Err RawPackNoTests
      else Ok (sha256_hex (pack_header ++ concat dirs ++ files), manifest).

(** ** The policy *)

(** Reading a text file translates its line ends. *)
Fixpoint universal_newlines (s : str) : str :=
  match s with
  | [] => []
  | 13%N :: s' => ch_nl :: universal_newlines (match s' with 10%N :: s'' => s'' | _ => s' end)
  | c :: s' => c :: universal_newlines s'
  end.

Definition policy_bool (cfg : dict) (key : str) : bool := is_true_v (dget cfg key).
Definition policy_int (cfg : dict) (key : str) : option Z := match dget cfg key with VInt n => Some n | _ => None end.
Definition policy_float (cfg : dict) (key : str) : option float :=
  match dget cfg key with VFloat f => Some f | _ => None end.
Definition policy_str (cfg : dict) (key : str) : option str := as_str (dget cfg key).

(** [[str(item) for item in value]]: the loader accepts strings only. *)
Definition string_items (v : value) : option (list str) := match v with VList l => Some (str_items l) | _ => None end.
Definition tuple_of (cfg : dict) (key : str) : list str :=
  match string_items (dget cfg key) with Some l => l | None => [] end.

Definition shell_operators : list str := us ["&&"; "||"; ";"; "|"; ">"; "<"; "$("; "`"].

Definition config_test_command (cfg : dict) : option (list str) :=
  match dget cfg (u "test_command") with
  | VStr raw_command =>
      Some (if existsb (fun operator => contains operator raw_command) shell_operators
            then us ["sh"; "-c"] ++ [raw_command] else py_split raw_command)
  | v => string_items v
  end.

(** [value or default] of a string *)
Definition str_or (v : option str) (default : string) : str :=
  match v with Some (c :: s) => c :: s | _ => u default end.

(** [_effective_policy_from_raw_config]: the policy of the record, the path and the
    pin of the pack. *)
Definition _effective_policy_from_raw_config (policy_bytes : bytes) (head_has_package_json : bool)
  : derived (dict * option str * option str) :=
  if MAX_POLICY_BYTES <? Z.of_nat (length policy_bytes) then Err PolicyTooLarge
  else
    match utf8_decode policy_bytes with
    | None => Err PolicyNotText
    | Some text =>
        match load_config (Contents (universal_newlines text)) true with
        | Err e => Err (PolicyInvalid e)
        | Ok cfg =>
            let timeout := match policy_int cfg (u "timeout") with Some 0 | None => 120 | Some n => n end in
            let mem_limit := match policy_int cfg (u "mem_limit") with Some n => n | None => 1024 end in
            if (mem_limit =? 1024) && head_has_package_json && negb (dmem (u "mem_limit") cfg) then Err MemLimitRequired
            else
              let isolation := str_or (policy_str cfg (u "isolation")) "subprocess" in
              let docker_image := policy_str cfg (u "docker_image") in
              if str_in isolation (us ["docker"; "gvisor"]) && negb (present docker_image) then Err ImageRequired
              else
                let pack := policy_str cfg (u "verifier_pack") in
                let pack_pin := policy_str cfg (u "expect_verifier_pack_sha256") in
                match build_effective_policy
                        (if policy_bool cfg (u "blackbox") then u "blackbox" else u "repo") isolation docker_image
                        (str_or (policy_str cfg (u "docker_network")) "none")
                        (config_test_command cfg) (string_items (dget cfg (u "setup_command")))
                        (policy_bool cfg (u "trust_setup_on_host")) (tuple_of cfg (u "setup_output_globs"))
                        (tuple_of cfg (u "protected")) (tuple_of cfg (u "allow")) (policy_bool cfg (u "allow_new_tests"))
                        timeout mem_limit pack pack_pin
                        (policy_bool cfg (u "blackbox")) (policy_bool cfg (u "blackbox_only"))
                        (policy_str cfg (u "require_report_integrity"))
                        (policy_str cfg (u "require_candidate_isolation"))
                        (policy_float cfg (u "min_diff_coverage")) (policy_bool cfg (u "baseline_evidence"))
                        (policy_bool cfg (u "require_demonstrated_fix")) (policy_bool cfg (u "strict_harness"))
                        (policy_str cfg (u "policy_id")) (policy_str cfg (u "policy_version"))
                        (policy_str cfg (u "operating_profile")) (tuple_of cfg (u "harness_inputs")) with
                | Err e => Err (PolicyHarness e)
                | Ok policy => Ok (effective_policy_payload policy, pack, pack_pin)
                end
        end
    end.

(** ** The evaluation *)

Record raw_evaluation := {
  re_candidate_sha256 : str;
  re_deleted_paths : list str;
  re_policy_sha256 : str;
  re_verifier_pack_sha256 : option str;
  re_verifier_pack_manifest : option dict;
  re_effective_policy : dict }.

(** Every declared harness input is a regular file of the base that the head keeps. *)
Fixpoint harness_inputs_kept (base_entries head_entries : tree_entries) (paths : list str) : derived unit :=
  match paths with
  | [] => Ok tt
  | path :: paths' =>
      match entry_at path base_entries with
      | Some e =>
          if negb (regular e) then Err (HarnessInputMissing path)
          else if bool_decide (entry_at path head_entries = Some e)
               then harness_inputs_kept base_entries head_entries paths'
               else Err (HarnessInputChanged path)
      | None => Err (HarnessInputMissing path)
      end
  end.

Definition pinned_pack (base : git_reader) (base_sha : str) (pack_path pack_pin : option str)
  : derived (option str * option dict) :=
  match pack_path, pack_pin with
  | Some path, _ =>
      let* (digest, manifest) := _raw_pack_identity base base_sha path in
      match pack_pin with
      | None => Err PackPinMissing
      | Some pin => if digest =s? pin then Ok (Some digest, manifest) else Err PackPinMismatch
      end
  | None, Some _ => Err PackPinUnused
  | None, None => Ok (None, None)
  end.

(** [hashlib.sha256(serialize_candidate_blocks(blocks).encode("utf-8"))] *)
Definition candidate_bytes (blocks : list (str * str)) : derived bytes :=
  match utf8 (serialize_candidate_blocks blocks) with Some b => Ok b | None => Err UnencodableCandidate end.

Definition policy_digest (policy : dict) : derived str :=
  match effective_policy_sha256 policy with Some d => Ok d | None => Err PolicyDigest end.

Definition _derive_raw_evaluation_from_readers (base head : git_reader) (base_sha head_sha base_tree_sha head_tree_sha : str)
    (maximum_candidate_paths maximum_candidate_bytes : option Z) (candidate_ignored_basenames : option (list str))
  : derived raw_evaluation :=
  let* base_commit_tree := commit_tree base base_sha in
  if negb (base_commit_tree =s? base_tree_sha) then Err TreeMismatch
  else
    let* head_commit_tree := commit_tree head head_sha in
    if negb (head_commit_tree =s? head_tree_sha) then Err TreeMismatch
    else
      let* base_entries := tree base base_sha in
      let* head_entries := tree head head_sha in
      match entry_at (u ".evoguard.json") base_entries with
      | None => Err NoBasePolicy
      | Some policy_entry =>
          if negb (regular policy_entry) then Err NoBasePolicy
          else
            let* policy_bytes := blob base (ge_id policy_entry) MAX_POLICY_BYTES in
            let head_package := match entry_at (u "package.json") head_entries with
                                | Some e => regular e | None => false end in
            let* (policy, pack_path, pack_pin) := _effective_policy_from_raw_config policy_bytes head_package in
            let* _ := harness_inputs_kept base_entries head_entries (tuple_of policy (u "harness_inputs")) in
            let* (pack_digest, pack_manifest) := pinned_pack base base_sha pack_path pack_pin in
            let* blocks := _candidate_blocks base head base_sha head_sha maximum_candidate_paths
                             maximum_candidate_bytes candidate_ignored_basenames in
            let* candidate := candidate_bytes blocks in
            let* policy_sha256 := policy_digest policy in
            Ok {| re_candidate_sha256 := sha256_hex candidate;
                  re_deleted_paths := _deleted_paths base_entries head_entries;
                  re_policy_sha256 := policy_sha256;
                  re_verifier_pack_sha256 := pack_digest;
                  re_verifier_pack_manifest := pack_manifest;
                  re_effective_policy := policy |}
      end.

Definition revision_shas (base_sha head_sha base_tree_sha head_tree_sha : str) : derived unit :=
  let* _ := _valid_git_sha base_sha "base_sha" in
  let* _ := _valid_git_sha head_sha "head_sha" in
  let* _ := _valid_git_sha base_tree_sha "base_tree_sha" in
  let* _ := _valid_git_sha head_tree_sha "head_tree_sha" in Ok tt.

Definition derive_raw_evaluation_bindings (base head : git_reader) (base_sha head_sha base_tree_sha head_tree_sha : str)
  : derived raw_evaluation :=
  let* _ := revision_shas base_sha head_sha base_tree_sha head_tree_sha in
  _derive_raw_evaluation_from_readers base head base_sha head_sha base_tree_sha head_tree_sha None None None.

(** ** The bindings of the finalizer *)

Definition source_checks (source : dict) : list (string * bool) :=
  [("pull_request_number", int_between (dget source (u "pull_request_number")) 1 2147483647);
   ("workflow_run_id", bounded_string (dget source (u "workflow_run_id")) 256);
   ("workflow_run_attempt", int_between (dget source (u "workflow_run_attempt")) 1 2147483647);
   ("source.base_sha", v_git_sha (dget source (u "base_sha")));
   ("source.head_sha", v_git_sha (dget source (u "head_sha")))].

Definition _validate_source (source : dict) : derived dict :=
  if negb (keys_eq source _SOURCE_KEYS) then Err (InvalidBindings "source")
  else let* _ := require_all (source_checks source) InvalidBindings in Ok source.

(** [isinstance(value, list) and all(is_safe_relpath(path))] *)
Definition safe_paths (v : value) : bool := v_is_string_list v && forallb is_safe_relpath (v_strings v).

Definition sorted_and_unique (v : value) : bool := bool_decide (v_strings v = sorted_set (v_strings v)).

Definition manifest_ok (manifest : value) : bool :=
  match manifest with
  | VNone => true
  | VDict m => is_empty (manifest_problems manifest) && py_eq (VDict (extract_manifest m)) manifest
  | _ => false
  end.

Definition policy_bound (payload : dict) : bool :=
  match dget payload (u "effective_policy") with
  | VDict policy => match effective_policy_sha256 policy with
                    | Some d => eq_str (dget payload (u "policy_sha256")) d
                    | None => false
                    end
  | _ => false
  end.

Definition binding_field_checks (payload : dict) : list (string * bool) :=
  let get key := dget payload (u key) in
  [("repository", bounded_string (get "repository"%string) 512);
   ("repository_id", bounded_string (get "repository_id"%string) 256);
   ("guard_artifact_sha256", v_sha256 (get "guard_artifact_sha256"%string));
   ("base_tree_sha", v_git_sha (get "base_tree_sha"%string));
   ("head_tree_sha", v_git_sha (get "head_tree_sha"%string));
   ("candidate_sha256", v_sha256 (get "candidate_sha256"%string));
   ("deleted_paths", safe_paths (get "deleted_paths"%string));
   ("deleted_paths order", sorted_and_unique (get "deleted_paths"%string));
   ("policy_sha256", v_sha256 (get "policy_sha256"%string));
   ("verifier_pack_sha256", is_none (get "verifier_pack_sha256"%string) || v_sha256 (get "verifier_pack_sha256"%string));
   ("effective_policy", policy_bound payload);
   ("verifier_pack_manifest", manifest_ok (get "verifier_pack_manifest"%string));
   ("verifier_pack_manifest without digest",
      negb (is_none (get "verifier_pack_sha256"%string) && negb (is_none (get "verifier_pack_manifest"%string))))].

Definition _validate_derived_bindings (payload : dict) : derived dict :=
  if negb (keys_eq payload _BINDING_KEYS) then Err (InvalidBindings "keys")
  else if negb (eq_str (dget payload (u "format")) FINALIZER_DERIVATION_FORMAT) then Err (InvalidBindings "format")
  else
    match dget payload (u "source") with
    | VDict source =>
        let* _ := _validate_source source in
        let* _ := require_all (binding_field_checks payload) InvalidBindings in
        Ok payload
    | _ => Err (InvalidBindings "source")
    end.

Definition v_opt_dict (d : option dict) : value := match d with Some d => VDict d | None => VNone end.

Definition derive_finalizer_bindings (base head : git_reader) (base_sha head_sha base_tree_sha head_tree_sha : str)
    (source : dict) (repository repository_id guard_artifact_sha256 : value) : derived dict :=
  let* verified_source := _validate_source source in
  let* _ := revision_shas base_sha head_sha base_tree_sha head_tree_sha in
  if negb (eq_str (dget verified_source (u "base_sha")) base_sha && eq_str (dget verified_source (u "head_sha")) head_sha)
  then Err (InvalidBindings "source revision")
  else
    let* _ := require_all [("repository", bounded_string repository 512);
                           ("repository_id", bounded_string repository_id 256);
                           ("guard_artifact_sha256", v_sha256 guard_artifact_sha256)] InvalidBindings in
    let* raw := derive_raw_evaluation_bindings base head base_sha head_sha base_tree_sha head_tree_sha in
    _validate_derived_bindings (dict_of [
      ("format", VStr FINALIZER_DERIVATION_FORMAT);
      ("source", VDict verified_source);
      ("repository", repository);
      ("repository_id", repository_id);
      ("guard_artifact_sha256", guard_artifact_sha256);
      ("base_tree_sha", VStr base_tree_sha);
      ("head_tree_sha", VStr head_tree_sha);
      ("candidate_sha256", VStr (re_candidate_sha256 raw));
      ("deleted_paths", v_str_list (re_deleted_paths raw));
      ("policy_sha256", VStr (re_policy_sha256 raw));
      ("verifier_pack_sha256", v_opt_str (re_verifier_pack_sha256 raw));
      ("verifier_pack_manifest", v_opt_dict (re_verifier_pack_manifest raw));
      ("effective_policy", VDict (re_effective_policy raw))]).

(** The canonical bytes of bindings, and their inspection. *)
Definition finalizer_bindings_bytes (payload : dict) : derived bytes :=
  let* checked := _validate_derived_bindings payload in
  match _canonical_json checked with
  | Err _ => Err (InvalidBindings "canonical")
  | Ok data => if MAX_BINDINGS_BYTES <? Z.of_nat (length data) then Err (InvalidBindings "size") else Ok data
  end.

Definition inspect_finalizer_bindings_bytes (data : bytes) : derived dict :=
  if MAX_BINDINGS_BYTES <? Z.of_nat (length data) then Err (InvalidBindings "size")
  else
    match _load_json_object data "finalizer bindings" with
    | Err _ => Err (InvalidBindings "json")
    | Ok payload =>
        match _canonical_json payload with
        | Err _ => Err (InvalidBindings "json")
        | Ok canonical => if bytes_eqb canonical data then _validate_derived_bindings payload
                          else Err (InvalidBindings "canonical")
        end
    end.

(** ** The record against the bindings *)

Definition bindings_record_checks (bindings attestation : dict) : list (string * bool) :=
  let bound key := dget bindings (u key) in
  let claimed key := dget attestation (u key) in
  let record_pack := claimed "verifier_pack_sha256"%string in
  [("candidate_sha256", py_eq (claimed "candidate_sha256"%string) (bound "candidate_sha256"%string));
   ("deleted_paths", py_eq (claimed "deleted_paths"%string) (bound "deleted_paths"%string));
   ("policy_sha256", py_eq (claimed "policy_sha256"%string) (bound "policy_sha256"%string));
   ("effective_policy", py_eq (claimed "effective_policy"%string) (bound "effective_policy"%string));
   ("verifier_pack_sha256", is_none record_pack || py_eq record_pack (bound "verifier_pack_sha256"%string));
   ("verifier_pack_manifest",
      py_eq (claimed "verifier_pack_manifest"%string)
            (if is_none record_pack then VNone else bound "verifier_pack_manifest"%string))]
  ++ map (fun field =>
            let expected := if str_in (u field) (us ["base_sha"; "head_sha"])
                            then match bound "source"%string with VDict source => dget source (u field) | _ => VNone end
                            else bound field in
            (field, is_none (claimed field) || py_eq (claimed field) expected)) REVISION_FIELDS.

(** The source and context of validated bindings. *)
Definition context_of_bindings (bindings : dict) (record_pack : value) : dict * dict :=
  let bound key := dget bindings (u key) in
  let source := match bound "source"%string with VDict source => source | _ => [] end in
  (source,
   dict_of [
    ("repository", bound "repository"%string);
    ("repository_id", bound "repository_id"%string);
    ("run_id", dget source (u "workflow_run_id"));
    ("run_attempt", dget source (u "workflow_run_attempt"));
    ("base_sha", dget source (u "base_sha"));
    ("head_sha", dget source (u "head_sha"));
    ("base_tree_sha", bound "base_tree_sha"%string);
    ("head_tree_sha", bound "head_tree_sha"%string);
    ("candidate_sha256", bound "candidate_sha256"%string);
    ("policy_sha256", bound "policy_sha256"%string);
    ("verifier_pack_sha256", record_pack);
    ("guard_artifact_sha256", bound "guard_artifact_sha256"%string)]).

(** The bindings are a validated payload: what their properties convert with [str]
    and [dict] has those types already. *)
Definition context_from_verified_bindings (bindings record : dict) : derived (dict * dict) :=
  match dget record (u "attestation") with
  | VDict attestation =>
      let* _ := require_all (bindings_record_checks bindings attestation) InvalidBindings in
      let '(source, context) := context_of_bindings bindings (dget attestation (u "verifier_pack_sha256")) in
      match validate_evidence_context context (Some record) with
      | Ok context => Ok (source, context)
      | Err _ => Err (InvalidBindings "context")
      end
  | _ => Err (InvalidBindings "attestation")
  end.
End Derivation.
