(* ===== verification/AgentChange.v ===== *)
(** Agent Change bindings (finalizer_derivation.py): the revision, candidate, changed
    paths, policy and pack of a proposal, derived from raw Git and validated as a
    closed payload in its two formats. *)
From S2P Require Export Derivation.
Local Open Scope Z_scope.

Definition _AGENT_CHANGE_BINDING_KEYS_V1 : list str := us [
  "format"; "base_sha"; "head_sha"; "base_tree_sha"; "head_tree_sha"; "candidate_sha256"; "candidate_size";
  "changed_paths"; "deleted_paths"; "touched_paths"; "policy_sha256"; "verifier_pack_sha256"].
Definition _AGENT_CHANGE_BINDING_KEYS_V2 : list str := us [
  "format"; "git_object_format"; "base_sha"; "head_sha"; "base_tree_sha"; "head_tree_sha"; "candidate_identity";
  "candidate_selection_profile"; "legacy_guard_candidate_sha256"; "legacy_guard_candidate_size"; "changed_paths";
  "deleted_paths"; "touched_paths"; "policy_sha256"; "verifier_pack_sha256"].
Definition _CANDIDATE_IDENTITY_KEYS : list str := us ["format"; "sha256"; "size"; "file_count"].

Inductive binding_format := FormatV1 | FormatV2.

(** [sorted(set(paths))], in code-point order or in the order of the UTF-8 bytes. *)
Definition sort_paths (utf8_order : bool) (paths : list str) : result CandidateIdentityError (list str) :=
  if utf8_order then
    let* l := path_order (map (fun p => (p, tt)) (dedup_str paths)) in Ok (map fst l)
  else Ok (sorted_set paths).

Section AgentChange.
Context `{UnicodeDB}.

Definition _validate_agent_change_paths (v : value) (utf8_order : bool) : derived (list str) :=
  if negb (safe_paths v) then Err (InvalidBindings "unsafe path")
  else
    match sort_paths utf8_order (v_strings v) with
    | Err _ => Err (InvalidBindings "path encoding")
    | Ok canonical =>
        if negb (bool_decide (v_strings v = canonical)) then Err (InvalidBindings "path order")
        else if MAX_AGENT_CHANGE_PATHS <? Z.of_nat (length (v_strings v)) then Err (InvalidBindings "path count")
        else Ok (v_strings v)
    end.

Definition v1_candidate_checks (payload : dict) : list (string * bool) :=
  [("candidate_sha256", v_sha256 (dget payload (u "candidate_sha256")));
   ("candidate_size", int_between (dget payload (u "candidate_size")) 1 MAX_AGENT_CHANGE_CANDIDATE_BYTES)].

Definition str_length (v : value) : Z := match v with VStr s => Z.of_nat (length s) | _ => 0 end.

(** A [git_object_format] that cannot be an element of a set is refused like any other
    value that is not one of the two names. *)
Definition v2_candidate_checks (payload : dict) : list (string * bool) :=
  let object_format := dget payload (u "git_object_format") in
  let expected := if eq_str object_format (u "sha1") then 40 else 64 in
  let declared := match dget payload (u "candidate_identity") with VDict d => Some d | _ => None end in
  let field key := match declared with Some d => dget d (u key) | None => VNone end in
  [("candidate_selection_profile",
      eq_str (dget payload (u "candidate_selection_profile")) AGENT_CHANGE_CANDIDATE_SELECTION_PROFILE);
   ("git_object_format", eq_str object_format (u "sha1") || eq_str object_format (u "sha256"));
   ("git digests", forallb (fun f => str_length (dget payload (u f)) =? expected) REVISION_FIELDS);
   ("candidate_identity", match declared with Some d => keys_eq d _CANDIDATE_IDENTITY_KEYS | None => false end);
   ("candidate_identity.format", eq_str (field "format"%string) CANDIDATE_TEXT_MAP_IDENTITY_FORMAT);
   ("candidate_identity.sha256", v_sha256 (field "sha256"%string));
   ("candidate_identity.size", int_between (field "size"%string) 1 MAX_AGENT_CHANGE_CANDIDATE_BYTES);
   ("candidate_identity.file_count", int_between (field "file_count"%string) 0 MAX_AGENT_CHANGE_PATHS);
   ("legacy_guard_candidate_sha256", v_sha256 (dget payload (u "legacy_guard_candidate_sha256")));
   ("legacy_guard_candidate_size",
      int_between (dget payload (u "legacy_guard_candidate_size")) 0 MAX_AGENT_CHANGE_CANDIDATE_BYTES)].

Definition declared_file_count (payload : dict) : value :=
  match dget payload (u "candidate_identity") with VDict d => dget d (u "file_count") | _ => VNone end.

Definition _validate_agent_change_path_relations (payload : dict) (format : binding_format) : derived unit :=
  let utf8_order := match format with FormatV1 => false | FormatV2 => true end in
  let* changed := _validate_agent_change_paths (dget payload (u "changed_paths")) utf8_order in
  let* deleted := _validate_agent_change_paths (dget payload (u "deleted_paths")) utf8_order in
  let* touched := _validate_agent_change_paths (dget payload (u "touched_paths")) utf8_order in
  let expected_file_count :=
    Z.of_nat (length (List.filter (fun p => negb (_ignored_path p (Some AGENT_CHANGE_CANDIDATE_IGNORED_BASENAMES))) changed)) in
  if utf8_order && negb (py_eq (declared_file_count payload) (VInt expected_file_count))
  then Err (InvalidBindings "file_count")
  else if existsb (fun p => str_in p deleted) changed then Err (InvalidBindings "changed and deleted")
  else
    match sort_paths utf8_order (changed ++ deleted) with
    | Err e => Err (PathOrder e)
    | Ok expected_touched =>
        if negb (bool_decide (touched = expected_touched)) then Err (InvalidBindings "touched_paths")
        else if is_empty touched then Err (InvalidBindings "no touched path")
        else Ok tt
    end.

Definition format_of (payload : dict) : option binding_format :=
  let v := dget payload (u "format") in
  if eq_str v AGENT_CHANGE_GIT_BINDINGS_FORMAT_V1 then Some FormatV1
  else if eq_str v AGENT_CHANGE_GIT_BINDINGS_FORMAT_V2 then Some FormatV2 else None.

Definition binding_keys (format : binding_format) : list str :=
  match format with FormatV1 => _AGENT_CHANGE_BINDING_KEYS_V1 | FormatV2 => _AGENT_CHANGE_BINDING_KEYS_V2 end.

Definition validate_agent_change_bindings (payload : dict) : derived dict :=
  match format_of payload with
  | None => Err (InvalidBindings "format")
  | Some format =>
      if negb (keys_eq payload (binding_keys format)) then Err (InvalidBindings "keys")
      else
        let* _ := require_all (map (fun f => (f, v_git_sha (dget payload (u f)))) REVISION_FIELDS) InvalidBindings in
        let* _ := require_all (match format with FormatV1 => v1_candidate_checks payload
                                               | FormatV2 => v2_candidate_checks payload end) InvalidBindings in
        let* _ := _validate_agent_change_path_relations payload format in
        let pack := dget payload (u "verifier_pack_sha256") in
        let* _ := require_all [("policy_sha256", v_sha256 (dget payload (u "policy_sha256")));
                               ("verifier_pack_sha256", is_none pack || v_sha256 pack)] InvalidBindings in
        Ok payload
  end.

Definition agent_change_bindings_bytes (payload : dict) : derived bytes :=
  let* checked := validate_agent_change_bindings payload in
  match _canonical_json checked with
  | Err _ => Err (InvalidBindings "canonical")
  | Ok data => if MAX_BINDINGS_BYTES <? Z.of_nat (length data) then Err (InvalidBindings "size") else Ok data
  end.

(** The tracked changes, ignored paths included. *)
Definition changed_entries (base_entries head_entries : tree_entries) : list str :=
  map fst (List.filter (fun item => negb (bool_decide (entry_at (fst item) base_entries = Some (snd item))))
             head_entries).

Definition removed_entries (base_entries head_entries : tree_entries) : list str :=
  List.filter (fun p => negb (str_in p (map fst head_entries))) (map fst base_entries).

Definition ordered (utf8_order : bool) (paths : list str) : derived (list str) :=
  match sort_paths utf8_order paths with Ok l => Ok l | Err e => Err (PathOrder e) end.

Definition _derive_agent_change_bindings (format : binding_format) (base head : git_reader)
    (base_sha head_sha base_tree_sha head_tree_sha : str) : derived dict :=
  let utf8_order := match format with FormatV1 => false | FormatV2 => true end in
  let ignored := match format with FormatV1 => None | FormatV2 => Some AGENT_CHANGE_CANDIDATE_IGNORED_BASENAMES end in
  let* _ := revision_shas base_sha head_sha base_tree_sha head_tree_sha in
  let* raw := _derive_raw_evaluation_from_readers base head base_sha head_sha base_tree_sha head_tree_sha
                (Some MAX_AGENT_CHANGE_PATHS) (Some MAX_AGENT_CHANGE_CANDIDATE_BYTES) ignored in
  let* blocks := _candidate_blocks base head base_sha head_sha (Some MAX_AGENT_CHANGE_PATHS)
                   (Some MAX_AGENT_CHANGE_CANDIDATE_BYTES) ignored in
  let* legacy_candidate := candidate_bytes blocks in
  let legacy_sha256 := sha256_hex legacy_candidate in
  if negb (legacy_sha256 =s? re_candidate_sha256 raw) then Err CandidateDiverged
  else
    let* base_entries := tree base base_sha in
    let* head_entries := tree head head_sha in
    let* changed := ordered utf8_order (changed_entries base_entries head_entries) in
    let* deleted := ordered utf8_order (removed_entries base_entries head_entries) in
    if MAX_AGENT_CHANGE_PATHS <? Z.of_nat (length changed + length deleted) then Err TooManyChangedPaths
    else
      let* touched := ordered utf8_order (changed ++ deleted) in
      let common_payload := [
        ("base_sha", VStr base_sha); ("head_sha", VStr head_sha);
        ("base_tree_sha", VStr base_tree_sha); ("head_tree_sha", VStr head_tree_sha);
        ("changed_paths", v_str_list changed); ("deleted_paths", v_str_list deleted);
        ("touched_paths", v_str_list touched);
        ("policy_sha256", VStr (re_policy_sha256 raw));
        ("verifier_pack_sha256", v_opt_str (re_verifier_pack_sha256 raw))] in
      let legacy_size := VInt (Z.of_nat (length legacy_candidate)) in
      let* payload :=
        match format with
        | FormatV1 =>
            Ok (dict_of ([("format", VStr AGENT_CHANGE_GIT_BINDINGS_FORMAT_V1)] ++ common_payload
                         ++ [("candidate_sha256", VStr legacy_sha256); ("candidate_size", legacy_size)]))
        | FormatV2 =>
            match candidate_text_map_identity blocks with
            | Err e => Err (IdentityError e)
            | Ok framed =>
                if MAX_AGENT_CHANGE_CANDIDATE_BYTES <? ci_size framed then Err IdentityTooLarge
                else
                  Ok (dict_of ([("format", VStr AGENT_CHANGE_GIT_BINDINGS_FORMAT_V2);
                                ("git_object_format",
                                   VStr (if Nat.eqb (length base_sha) 40 then u "sha1" else u "sha256"));
                                ("candidate_selection_profile", VStr AGENT_CHANGE_CANDIDATE_SELECTION_PROFILE)]
                               ++ common_payload
                               ++ [("candidate_identity", VDict (dict_of [
                                      ("format", VStr CANDIDATE_TEXT_MAP_IDENTITY_FORMAT);
                                      ("sha256", VStr (ci_sha256 framed)); ("size", VInt (ci_size framed));
                                      ("file_count", VInt (ci_file_count framed))]));
                                   ("legacy_guard_candidate_sha256", VStr legacy_sha256);
                                   ("legacy_guard_candidate_size", legacy_size)]))
            end
        end in
      let* bindings := validate_agent_change_bindings payload in
      let* _ := agent_change_bindings_bytes bindings in
      Ok bindings.

Definition derive_agent_change_bindings : git_reader -> git_reader -> str -> str -> str -> str -> derived dict :=
  _derive_agent_change_bindings FormatV1.
Definition derive_agent_change_bindings_v2 : git_reader -> git_reader -> str -> str -> str -> str -> derived dict :=
  _derive_agent_change_bindings FormatV2.

(** Canonical bytes of untrusted bindings. *)
Definition read_agent_change_bindings (data : bytes) : derived dict :=
  match _load_json_object data "agent-change bindings" with
  | Err _ => Err (InvalidBindings "json")
  | Ok payload =>
      match _canonical_json payload with
      | Err _ => Err (InvalidBindings "json")
      | Ok canonical => if bytes_eqb canonical data then validate_agent_change_bindings payload
                        else Err (InvalidBindings "canonical")
      end
  end.
End AgentChange.
