(* ===== verification/DerivationSound.v ===== *)
(** What a raw-Git derivation guarantees: the candidate it serializes turns the base
    into the head, the harness of the policy is untouched, and the pack it identifies
    is the pack a runner executed. *)
From S2P Require Export AgentChange.
Local Open Scope Z_scope.

Section Sound.
Context `{UnicodeDB}.

(** ** Orders and filters *)

Lemma path_order_perm {A} (items l : list (str * A)) : path_order items = Ok l -> Permutation items l.
Proof.
  unfold path_order. intros (keyed & Hk%rmap_ok & <-%Ok_inj)%rbind_ok. rewrite <- py_sort_perm.
  assert (items = map snd keyed) as ->; [|done].
  induction Hk as [|x y items keyed Hxy _ IH]; [done|]. apply rbind_ok in Hxy as (k & _ & <-%Ok_inj). cbn. by rewrite IH.
Qed.

Lemma visible_NoDup ignored entries : NoDup (map fst entries) -> NoDup (map fst (visible ignored entries)).
Proof.
  unfold visible. induction entries as [|[p e] entries IH]; [done|]. cbn [map List.filter fst].
  intros [Hp Hd]%NoDup_cons. case_if; [|by apply IH]. cbn [map fst]. apply NoDup_cons. split; [|by apply IH].
  rewrite list_elem_of_In in *. intros Hin. apply Hp. apply in_map_iff in Hin as ([q x] & Heq & [Hin _]%filter_In).
  apply in_map_iff. exists (q, x). split; [exact Heq|exact Hin].
Qed.

Lemma entry_at_visible ignored path entries :
  entry_at path (visible ignored entries) = if _ignored_path path ignored then None else entry_at path entries.
Proof.
  unfold visible. induction entries as [|[p e] entries IH]; cbn [List.filter fst entry_at]; [by case_if|].
  destruct (_ignored_path p ignored) eqn:Ep; cbn [negb].
  - rewrite IH. destruct (p =s? path) eqn:E; [|done]. apply str_eqb_eq in E as ->. by rewrite Ep.
  - cbn [entry_at]. destruct (p =s? path) eqn:E; [|exact IH]. apply str_eqb_eq in E as ->. by rewrite Ep.
Qed.

(** ** The loop over the changed paths *)

Section Blocks.
Context (head : git_reader) (base_tree : tree_entries) (maximum_paths maximum_total_bytes : option Z).

(** What one path of the head contributes. *)
Inductive represents : str * _GitEntry -> list (str * str) -> Prop :=
| unchanged path e : entry_at path base_tree = Some e -> represents (path, e) []
| written path e data text :
    entry_at path base_tree <> Some e -> regular e = true ->
    (forall o, entry_at path base_tree = Some o -> ge_mode o = ge_mode e) ->
    blob head (ge_id e) MAX_CANDIDATE_FILE_BYTES = Ok data -> utf8_decode data = Some text ->
    represents (path, e) [(path, text)].

Lemma candidate_block_ok item st st' :
  candidate_block head base_tree maximum_paths maximum_total_bytes item st = Ok st' ->
  (exists own, represents item own /\ bs_blocks st' = bs_blocks st ++ own /\ bs_problems st' = bs_problems st)
  \/ exists problem, bs_problems st' = bs_problems st ++ [problem].
Proof.
  destruct item as [path e]. unfold candidate_block. case_bool_decide as Hsame.
  { intros <-%Ok_inj. left. exists []. split; [by constructor|]. by rewrite app_nil_r. }
  case_if; [done|].
  destruct (match entry_at path base_tree with Some o => negb (ge_mode o =s? ge_mode e) | None => _ end) eqn:Em;
    [intros <-%Ok_inj; right; by eexists|].
  case_if; [intros <-%Ok_inj; right; by eexists|].
  destruct (regular e) eqn:Er; cbn [negb]; [|intros <-%Ok_inj; right; by eexists].
  intros <-%Ok_inj. unfold read_block.
  destruct (blob head (ge_id e) MAX_CANDIDATE_FILE_BYTES) as [data|err] eqn:Eb; [|right; by eexists].
  case_if; [right; by eexists|]. destruct (utf8_decode data) as [text|] eqn:Et; [|right; by eexists].
  left. exists [(path, text)]. split; [|done]. apply (written path e data text); try done.
  intros o Ho. rewrite Ho in Em. by brefl.
Qed.

Lemma block_loop_ok items st st' :
  block_loop head base_tree maximum_paths maximum_total_bytes items st = Ok st' -> bs_problems st' = [] ->
  exists owns, Forall2 represents items owns /\ bs_blocks st' = bs_blocks st ++ concat owns.
Proof.
  revert st. induction items as [|item items IH]; intros st; cbn [block_loop].
  - intros <-%Ok_inj _. exists []. split; [constructor|]. by rewrite app_nil_r.
  - intros (st1 & H1 & H2)%rbind_ok Hp. destruct (IH _ H2 Hp) as (owns & Ho & Hb).
    assert (Hmono : forall items s s', block_loop head base_tree maximum_paths maximum_total_bytes items s = Ok s' ->
              bs_problems s' = [] -> bs_problems s = []).
    { clear. induction items as [|x items IH]; intros s s'; cbn [block_loop]; [by intros <-%Ok_inj|].
      intros (s1 & Hx & Hs)%rbind_ok Hp. specialize (IH _ _ Hs Hp).
      apply candidate_block_ok in Hx as [(own & _ & _ & Heq)|(pr & Heq)]; rewrite Heq in IH; [done|by destruct (bs_problems s)]. }
    pose proof (Hmono _ _ _ H2 Hp) as Hp1.
    apply candidate_block_ok in H1 as [(own & Hown & Hb1 & _)|(pr & Heq)]; [|rewrite Heq in Hp1; by destruct (bs_problems st)].
    exists (own :: owns). split; [by constructor|]. by rewrite Hb, Hb1, <- app_assoc.
Qed.

Lemma represents_keys item own path text : represents item own -> In (path, text) own -> fst item = path.
Proof. intros [] Hin; [done|]. by destruct Hin as [[= -> ->]|[]]. Qed.

(** The blocks of a list of distinct paths. *)
Lemma blocks_spec items owns :
  NoDup (map fst items) -> Forall2 represents items owns ->
  NoDup (map fst (concat owns)) /\
  (forall path text, In (path, text) (concat owns) -> exists e, In (path, e) items /\ represents (path, e) [(path, text)]) /\
  (forall path e, In (path, e) items -> represents (path, e) [] \/
     exists text, represents (path, e) [(path, text)] /\ In (path, text) (concat owns)).
Proof.
  intros Hd Hf. induction Hf as [|item own items owns Hr Hf IH]; [by split; [constructor|]|].
  cbn [map concat] in *. apply NoDup_cons in Hd as [Hn Hd]. destruct (IH Hd) as (I1 & I2 & I3).
  assert (Hown : own = [] \/ exists path e text, item = (path, e) /\ own = [(path, text)]) by (destruct Hr; eauto 6).
  split_and!.
  - rewrite map_app. apply NoDup_app. split; [|split; [|done]].
    + destruct Hown as [->|(? & ? & ? & _ & ->)]; [constructor|apply NoDup_singleton].
    + intros p Hp Hq. rewrite list_elem_of_In in Hp, Hq, Hn. apply in_map_iff in Hp as ([p' t] & <- & Hp), Hq as ([q t'] & Hq' & Hq).
      cbn [fst] in Hq'. subst q. apply (represents_keys _ _ _ _ Hr) in Hp. apply I2 in Hq as (e & Hq & _). apply Hn.
      rewrite Hp. cbn [fst]. apply in_map_iff. by exists (p', e).
  - intros path text [Hin|Hin]%in_app_iff; [|destruct (I2 _ _ Hin) as (e & ? & ?); exists e; split; [by right|done]].
    destruct Hown as [->|(p & e & t & -> & ->)]; [done|]. destruct Hin as [[= -> ->]|[]].
    exists e. split; [by left|done].
  - intros path e [->|Hin].
    + destruct Hown as [->|(p & x & t & [= -> ->] & ->)]; [by left|]. right. exists t. split; [done|]. by left.
    + destruct (I3 _ _ Hin) as [?|(t & ? & ?)]; [by left|]. right. exists t. split; [done|]. apply in_app_iff. by right.
Qed.
End Blocks.

(** The blocks of a derivation, in terms of the visible entries of both trees. *)
Lemma candidate_blocks_spec base head base_sha head_sha mp mb ignored blocks base_entries head_entries :
  _candidate_blocks base head base_sha head_sha mp mb ignored = Ok blocks ->
  tree base base_sha = Ok base_entries -> tree head head_sha = Ok head_entries ->
  let base_tree := visible ignored base_entries in
  NoDup (map fst blocks) /\
  (forall path text, In (path, text) blocks ->
     exists e, In (path, e) (visible ignored head_entries) /\ represents head base_tree (path, e) [(path, text)]) /\
  (forall path e, In (path, e) (visible ignored head_entries) -> represents head base_tree (path, e) [] \/
     exists text, represents head base_tree (path, e) [(path, text)] /\ In (path, text) blocks).
Proof.
  unfold _candidate_blocks. intros Hc Hb Hh. rewrite Hb, Hh in Hc. cbn [rbind] in Hc.
  destruct (path_order (visible ignored head_entries)) as [items|] eqn:Eo; [|done].
  apply rbind_ok in Hc as (st & Hl & Hst). destruct (is_empty (bs_problems st)) eqn:Ep; [|done]. apply Ok_inj in Hst as <-.
  apply path_order_perm in Eo.
  destruct (block_loop_ok _ _ _ _ _ _ _ Hl) as (owns & Ho & Hbs); [by destruct (bs_problems st)|].
  cbn [bs_blocks app] in Hbs. rewrite Hbs.
  assert (Hd : NoDup (map fst items)).
  { rewrite <- Eo. apply visible_NoDup. by apply tree_wf in Hh as [? _ _]. }
  destruct (blocks_spec _ _ _ _ Hd Ho) as (I1 & I2 & I3). split_and!; [done| |].
  - intros path text Hin. destruct (I2 _ _ Hin) as (e & He & Hr). exists e. split; [|done].
    eapply Permutation_in; [symmetry; exact Eo|done].
  - intros path e Hin. apply I3. by eapply Permutation_in.
Qed.

(** ** Deleted paths *)

(** A directory of the tree, as a clean checkout creates it. *)
Definition above (path : str) (entries : tree_entries) : Prop :=
  exists q, In q (map fst (visible None entries)) /\ In path (parent_paths q).

Lemma tree_paths_In path entries :
  In path (_tree_paths_with_directories entries) <->
  In path (map fst (visible None entries)) \/ above path entries.
Proof.
  unfold _tree_paths_with_directories, above. rewrite in_flat_map. split.
  - intros ([q e] & Hin & [<-|Hp]); [left|right]; [by apply in_map_iff; exists (q, e)|].
    exists q. split; [|done]. apply in_map_iff. by exists (q, e).
  - intros [Hin|(q & Hin & Hp)]; apply in_map_iff in Hin as ([q' e] & <- & Hin); exists (q', e); split; [done|by left|done|by right].
Qed.

Lemma deleted_paths_In path base_entries head_entries :
  In path (_deleted_paths base_entries head_entries) <->
  In path (_tree_paths_with_directories base_entries) /\ ~ In path (_tree_paths_with_directories head_entries).
Proof.
  unfold _deleted_paths. rewrite sorted_set_In, filter_In, negb_true_iff, str_in_not_In. done.
Qed.

Lemma visible_leaf path e entries :
  entry_at path entries = Some e -> _ignored_path path None = false -> In (path, e) (visible None entries).
Proof. intros He Hi. apply entry_at_In. by rewrite entry_at_visible, Hi. Qed.

Lemma leaf_of_entry path (e : _GitEntry) entries : In (path, e) entries -> In path (map (@fst str _GitEntry) entries).
Proof. intros Hin. apply in_map_iff. by exists (path, e). Qed.

(** C15: The candidate that is serialized, with the deleted paths, turns the base into the
    head: for every path that a copy of the repository does not ignore, what the head
    has there is either the text of exactly one block - the bytes of a regular blob
    whose mode is the base's - or the very entry of the base with no block; and a
    path the head lacks has no block and is absent from the base, is deleted, or has
    become a directory of the head. *)
Theorem candidate_reconstructs_head base head base_sha head_sha mp mb blocks base_entries head_entries :
  _candidate_blocks base head base_sha head_sha mp mb None = Ok blocks ->
  tree base base_sha = Ok base_entries -> tree head head_sha = Ok head_entries ->
  let deleted := _deleted_paths base_entries head_entries in
  NoDup (map fst blocks) /\
  forall path, _ignored_path path None = false ->
    match entry_at path head_entries with
    | Some e =>
        ~ In path deleted /\
        ((exists data text, In (path, text) blocks /\ blob head (ge_id e) MAX_CANDIDATE_FILE_BYTES = Ok data /\
            utf8 text = Some data /\ regular e = true /\
            forall o, entry_at path base_entries = Some o -> ge_mode o = ge_mode e)
         \/ (entry_at path base_entries = Some e /\ ~ In path (map fst blocks)))
    | None => ~ In path (map fst blocks) /\
              (entry_at path base_entries = None \/ In path deleted \/ above path head_entries)
    end.
Proof.
  intros Hc Hb Hh deleted. destruct (candidate_blocks_spec _ _ _ _ _ _ _ _ _ _ Hc Hb Hh) as (I1 & I2 & I3).
  split; [done|]. intros path Hi.
  assert (Hbase : entry_at path (visible None base_entries) = entry_at path base_entries) by by rewrite entry_at_visible, Hi.
  assert (Hkeys : forall x, In x (map fst blocks) -> exists e, In (x, e) (visible None head_entries) /\
      entry_at x (visible None base_entries) <> Some e).
  { intros x Hx. apply in_map_iff in Hx as ([y t] & <- & Hx). destruct (I2 _ _ Hx) as (e & He & Hr).
    exists e. split; [done|]. by inversion Hr. }
  pose proof (tree_wf _ _ _ Hh) as [Hd _ _].
  assert (Hu : forall x e, In (x, e) (visible None head_entries) -> entry_at x head_entries = Some e).
  { intros x e Hin. apply entry_at_unique; [done|]. by apply filter_In in Hin as [? _]. }
  destruct (entry_at path head_entries) as [e|] eqn:Ee.
  - pose proof (visible_leaf _ _ _ Ee Hi) as Hin. split.
    { unfold deleted. rewrite deleted_paths_In, !tree_paths_In. intros [_ Hn]. apply Hn. left. by eapply leaf_of_entry. }
    destruct (I3 _ _ Hin) as [Hr|(text & Hr & Hblk)]; inversion Hr; subst.
    + right. rewrite <- Hbase. split; [done|]. intros Hx. destruct (Hkeys _ Hx) as (e' & He' & Hne). apply Hu in He'. congruence.
    + left. exists data, text. rewrite <- Hbase. split_and!; try done. by apply utf8_decode_iff.
  - split.
    { intros Hx. destruct (Hkeys _ Hx) as (e' & He' & _). apply Hu in He'. congruence. }
    destruct (entry_at path base_entries) as [o|] eqn:Eb; [|by left]. right.
    destruct (str_in path (_tree_paths_with_directories head_entries)) eqn:Es.
    + apply str_in_In, tree_paths_In in Es as [Hx|Ha]; [|by right]. apply in_map_iff in Hx as ([y x] & <- & Hx).
      apply Hu in Hx. cbn [fst] in *. congruence.
    + left. unfold deleted. apply deleted_paths_In. split; [|by apply str_in_not_In].
      apply tree_paths_In. left. by eapply leaf_of_entry, visible_leaf.
Qed.

(** ** Equality of recorded values *)

Lemma py_eq_list_items l m : py_eq (VList l) (VList m) = true -> str_items l = str_items m.
Proof.
  revert m. induction l as [|x l IH]; intros [|y m]; try done. intros Heq. cbn in Heq.
  apply andb_true_iff in Heq as [Hxy Hlm]. cbn [str_items]. rewrite (IH m Hlm).
  destruct x, y; try done. simpl in Hxy. by apply str_eqb_eq in Hxy as ->.
Qed.

Lemma py_eq_str_list v l : py_eq v (v_str_list l) = true -> v = v_str_list l.
Proof.
  unfold v_str_list. destruct v as [| | | | |m|]; try done. intros Heq.
  assert (Hs : forallb is_str m = true).
  { revert l Heq. induction m as [|x m IH]; intros [|y l]; try done. cbn. intros [Hx Hm]%andb_true_iff.
    rewrite (IH l Hm). destruct x; try done. }
  apply py_eq_list_items in Heq. by rewrite (str_items_map _ Hs), Heq, str_items_VStr.
Qed.

Lemma py_eq_dict_lookup d e k v :
  py_eq (VDict d) (VDict e) = true -> dlookup k d = Some v ->
  exists w, dlookup k e = Some w /\ py_eq v w = true.
Proof.
  cbn [py_eq as_num]. intros [_ Hd]%andb_true_iff. induction d as [|[k' v'] d IH]; [done|].
  apply andb_true_iff in Hd as [Hl Hd]. cbn [dlookup]. destruct (is_key k k') eqn:Ek; [|by apply IH].
  intros [= <-]. destruct k' as [| | | |k'| |]; try done. apply str_eqb_eq in Ek as ->. clear IH Hd.
  induction e as [|[k2 v2] e IH]; [done|]. rewrite py_eq_str_r in Hl. cbn [dlookup].
  replace (is_key k k2) with (eq_str k2 k) by done. destruct (eq_str k2 k); [by exists v2|by apply IH].
Qed.

(** ** The bindings of a finalizer *)

Lemma keys_kept_ok base_entries head_entries paths x :
  harness_inputs_kept base_entries head_entries paths = Ok x ->
  forall path, In path paths -> exists e, regular e = true /\
    entry_at path base_entries = Some e /\ entry_at path head_entries = Some e.
Proof.
  induction paths as [|p paths IH]; [done|]. cbn [harness_inputs_kept].
  destruct (entry_at p base_entries) as [e|] eqn:Eb; [|done]. destruct (regular e) eqn:Er; cbn [negb]; [|done].
  case_bool_decide as Eh; [|done]. intros Hk path [<-|Hin]; [by exists e|by apply IH].
Qed.

(** What a successful evaluation read. *)
Record evaluated (base head : git_reader) (base_sha head_sha base_tree_sha head_tree_sha : str)
    (mp mb : option Z) (ignored : option (list str)) (raw : raw_evaluation) : Prop := {
  ev_base_tree : commit_tree base base_sha = Ok base_tree_sha;
  ev_head_tree : commit_tree head head_sha = Ok head_tree_sha;
  ev_entries : exists base_entries head_entries, tree base base_sha = Ok base_entries /\ tree head head_sha = Ok head_entries /\
    re_deleted_paths raw = _deleted_paths base_entries head_entries /\
    forall path, In path (tuple_of (re_effective_policy raw) (u "harness_inputs")) ->
      exists e, regular e = true /\ entry_at path base_entries = Some e /\ entry_at path head_entries = Some e;
  ev_blocks : exists blocks data, _candidate_blocks base head base_sha head_sha mp mb ignored = Ok blocks /\
    utf8 (serialize_candidate_blocks blocks) = Some data /\ re_candidate_sha256 raw = sha256_hex data;
  ev_pack : match re_verifier_pack_sha256 raw with
            | Some digest => exists path, _raw_pack_identity base base_sha path = Ok (digest, re_verifier_pack_manifest raw)
            | None => re_verifier_pack_manifest raw = None
            end }.

Lemma evaluation_ok base head bs hs bts hts mp mb ignored raw :
  _derive_raw_evaluation_from_readers base head bs hs bts hts mp mb ignored = Ok raw ->
  evaluated base head bs hs bts hts mp mb ignored raw.
Proof.
  unfold _derive_raw_evaluation_from_readers. intros (bt & Hbt & Hd)%rbind_ok.
  destruct (bt =s? bts) eqn:E1; cbn [negb] in Hd; [|done]. apply str_eqb_eq in E1 as ->.
  apply rbind_ok in Hd as (ht & Hht & Hd). destruct (ht =s? hts) eqn:E2; cbn [negb] in Hd; [|done]. apply str_eqb_eq in E2 as ->.
  apply rbind_ok in Hd as (be & Hbe & (he & Hhe & Hd)%rbind_ok).
  destruct (entry_at (u ".evoguard.json") be) as [pe|]; [|done]. destruct (regular pe); cbn [negb] in Hd; [|done].
  apply rbind_ok in Hd as (pb & _ & ([[policy path] pin] & _ & (? & Hkept & ([digest manifest] & Hpack & Hd)%rbind_ok)%rbind_ok)%rbind_ok).
  apply rbind_ok in Hd as (blocks & Hblocks & (data & Hdata & (ps & _ & <-%Ok_inj)%rbind_ok)%rbind_ok).
  split; [done|done| | |].
  - exists be, he. split_and!; [done..|]. by eapply keys_kept_ok.
  - exists blocks, data. split; [done|]. split; [|done]. revert Hdata. unfold candidate_bytes. by destruct (utf8 _); [intros [= ->]|].
  - cbn [re_verifier_pack_sha256 re_verifier_pack_manifest]. revert Hpack. unfold pinned_pack. destruct path as [path|].
    + intros ([d m] & Hraw & Hp)%rbind_ok. destruct pin as [pin|]; [|done]. destruct (d =s? pin); [|done].
      apply Ok_pair_inj in Hp as [<- <-]. by exists path.
    + destruct pin; [done|]. by intros [= <- <-].
Qed.

Lemma derived_bindings_ok base head bs hs bts hts source repository repository_id guard bindings :
  derive_finalizer_bindings base head bs hs bts hts source repository repository_id guard = Ok bindings ->
  exists raw, evaluated base head bs hs bts hts None None None raw /\
    dget source (u "base_sha") = VStr bs /\ dget source (u "head_sha") = VStr hs /\
    dget bindings (u "source") = VDict source /\
    dget bindings (u "base_tree_sha") = VStr bts /\ dget bindings (u "head_tree_sha") = VStr hts /\
    dget bindings (u "candidate_sha256") = VStr (re_candidate_sha256 raw) /\
    dget bindings (u "deleted_paths") = v_str_list (re_deleted_paths raw) /\
    dget bindings (u "verifier_pack_sha256") = v_opt_str (re_verifier_pack_sha256 raw) /\
    dget bindings (u "effective_policy") = VDict (re_effective_policy raw).
Proof.
  unfold derive_finalizer_bindings. intros (src & Hs & (? & _ & Hd)%rbind_ok)%rbind_ok.
  assert (src = source) as ->.
  { revert Hs. unfold _validate_source. case_if; [done|]. by intros (? & _ & <-%Ok_inj)%rbind_ok. }
  destruct (eq_str _ bs && eq_str _ hs) eqn:Er; cbn [negb] in Hd; [|done].
  apply andb_true_iff in Er as [Hb%eq_str_eq Hh%eq_str_eq].
  apply rbind_ok in Hd as (? & _ & (raw & Hraw & Hv)%rbind_ok).
  unfold derive_raw_evaluation_bindings in Hraw. apply rbind_ok in Hraw as (? & _ & Hraw%evaluation_ok).
  exists raw. split; [done|]. split; [done|]. split; [done|].
  assert (Hpayload : forall payload, _validate_derived_bindings payload = Ok bindings -> bindings = payload).
  { intros payload. unfold _validate_derived_bindings. repeat (case_if; [done|]). destruct (dget payload (u "source")); try done.
    by intros (? & _ & (? & _ & <-%Ok_inj)%rbind_ok)%rbind_ok. }
  apply Hpayload in Hv as ->. repeat split; reflexivity.
Qed.

Lemma record_checks_bind bindings record source context :
  context_from_verified_bindings bindings record = Ok (source, context) ->
  exists attestation, dget record (u "attestation") = VDict attestation /\
    (forall c, In c (bindings_record_checks bindings attestation) -> snd c = true) /\
    (source, context) = context_of_bindings bindings (dget attestation (u "verifier_pack_sha256")) /\
    exists c, validate_evidence_context context (Some record) = Ok c.
Proof.
  unfold context_from_verified_bindings. destruct (dget record (u "attestation")) as [| | | | | |attestation]; try done.
  intros (? & Hc & Hd)%rbind_ok. rewrite require_all_ok in Hc. exists attestation. split; [done|]. split; [done|].
  cbn [context_of_bindings] in Hd. destruct (validate_evidence_context _ _) as [c|] eqn:Ev; [|done].
  pose proof Ev as Ev'. apply evidence_context_ok in Ev' as (-> & _). apply Ok_pair_inj in Hd as [<- <-].
  split; [done|]. by eexists.
Qed.

(** C16: A record that the finalizer accepts is bound to the two revisions it names, and not
    to what its producer reports: with bindings derived from raw Git, acceptance
    implies that the commits have the stated trees, that the attested candidate digest
    is the digest of the text derived from those trees, that the attested deletions are
    the derived ones, that every harness input the attested policy declares is the very
    same regular entry in both trees, and that an attested pack digest is the one
    derived from the base tree. *)
Theorem accepted_record_bound base head bs hs bts hts source repository repository_id guard bindings record source' context :
  derive_finalizer_bindings base head bs hs bts hts source repository repository_id guard = Ok bindings ->
  context_from_verified_bindings bindings record = Ok (source', context) ->
  commit_tree base bs = Ok bts /\ commit_tree head hs = Ok hts /\ source' = source /\
  dget context (u "base_sha") = VStr bs /\ dget context (u "head_sha") = VStr hs /\
  exists attestation base_entries head_entries blocks data,
    dget record (u "attestation") = VDict attestation /\
    tree base bs = Ok base_entries /\ tree head hs = Ok head_entries /\
    _candidate_blocks base head bs hs None None None = Ok blocks /\ utf8 (serialize_candidate_blocks blocks) = Some data /\
    dget attestation (u "candidate_sha256") = VStr (sha256_hex data) /\
    dget attestation (u "deleted_paths") = v_str_list (_deleted_paths base_entries head_entries) /\
    (forall policy path, dget attestation (u "effective_policy") = VDict policy ->
       In path (tuple_of policy (u "harness_inputs")) ->
       exists e, regular e = true /\ entry_at path base_entries = Some e /\ entry_at path head_entries = Some e) /\
    (forall digest, dget attestation (u "verifier_pack_sha256") = VStr digest ->
       exists path manifest, _raw_pack_identity base bs path = Ok (digest, manifest)).
Proof.
  intros (raw & [E1 E2 (be & he & Hbe & Hhe & Hdel & Hkept) (blocks & data & Hblocks & Hdata & Hsha) Epack] & B1 & B2 & B3 & B4 & B5 &
          B6 & B7 & B8 & B9)%derived_bindings_ok.
  intros (att & Hatt & Hc & Hctx & _)%record_checks_bind. unfold context_of_bindings in Hctx. rewrite B3 in Hctx.
  injection Hctx as -> ->. split_and!; [done|done|done|by cbn; rewrite B1|by cbn; rewrite B2|].
  exists att, be, he, blocks, data. unfold bindings_record_checks in Hc.
  assert (Hcheck : forall label v w, In (label, py_eq v w) (bindings_record_checks bindings att) -> py_eq v w = true)
    by (intros label v w Hin; exact (Hc _ Hin)).
  split_and!; try done.
  - apply eq_str_eq. rewrite <- py_eq_str. rewrite <- Hsha, <- B6. apply (Hcheck "candidate_sha256"%string). by left.
  - apply py_eq_str_list. rewrite <- Hdel, <- B7. apply (Hcheck "deleted_paths"%string). right. by left.
  - intros policy path Hp Hin. apply Hkept. revert Hin. unfold tuple_of, dget.
    assert (Heq : py_eq (VDict policy) (VDict (re_effective_policy raw)) = true).
    { rewrite <- Hp, <- B9. apply (Hcheck "effective_policy"%string). do 3 right. by left. }
    destruct (dlookup (u "harness_inputs") policy) as [v|] eqn:Ev; [|done].
    destruct (py_eq_dict_lookup _ _ _ _ Heq Ev) as (w & -> & Hvw). unfold string_items.
    destruct v as [| | | | |l|]; try done. destruct w as [| | | | |m|]; try done. by rewrite (py_eq_list_items _ _ Hvw).
  - intros digest Hd. specialize (Hc ("verifier_pack_sha256"%string,
      is_none (dget att (u "verifier_pack_sha256")) || py_eq (dget att (u "verifier_pack_sha256")) (dget bindings (u "verifier_pack_sha256")))).
    cbn [snd] in Hc. rewrite Hd, B8 in Hc. destruct (re_verifier_pack_sha256 raw) as [d|].
    + destruct Epack as (path & Hpath). exists path, (re_verifier_pack_manifest raw).
      assert (He : py_eq (VStr digest) (VStr d) = true); [|by apply str_eqb_eq in He as ->].
      apply Hc. do 4 right. left. cbn zeta. by rewrite ?Hd, ?B8.
    + assert (He : py_eq (VStr digest) VNone = true); [|done]. apply Hc. do 4 right. left. cbn zeta. by rewrite ?Hd, ?B8.
Qed.

(** ** The two identities of a pack *)

(** A file as a runner finds it, with the content of a blob. *)
Definition checked_out (f : str * bytes) : str * entry :=
  (fst f, Entry false (Some (RegularFile, zlen (snd f))) (Some (zlen (snd f))) [Some (snd f)] None).

Lemma checked_out_content fs : map file_content (map checked_out fs) = fs.
Proof.
  rewrite map_map. induction fs as [|[rel data] fs IH]; [done|]. cbn [map]. rewrite IH.
  unfold file_content, checked_out. cbn. destruct data as [|x data]; [done|]. by rewrite app_nil_r.
Qed.

Lemma hash_checked_out rel data total frame :
  PackManifest._framed_path 70 rel = Ok frame -> zlen data <= MAX_PACK_FILE_BYTES -> total + zlen data <= MAX_PACK_BYTES ->
  _hash_pack_file rel (snd (checked_out (rel, data))) total = Ok (frame ++ pack_u64 (zlen data) ++ data, total + zlen data).
Proof.
  intros Hf Hs Ht. unfold _hash_pack_file. rewrite Hf. cbn [rbind checked_out snd en_getsize en_reads].
  rewrite (proj2 (require_size_ok (zlen data) rel tt) Hs), (proj2 (require_total_ok (total + zlen data) tt) Ht).
  cbn [rbind]. destruct data as [|x data].
  - cbn [hash_chunks rbind]. change (zlen (@nil Z)) with 0. by rewrite Z.add_0_r.
  - cbn [hash_chunks]. rewrite Z.add_0_l. fold (zlen (x :: data)).
    rewrite (proj2 (require_size_ok _ rel tt) Hs), (proj2 (require_total_ok _ tt) Ht).
    cbn [rbind]. by rewrite Z.eqb_refl, app_nil_r.
Qed.

Lemma raw_framed_path_ok kind rel b : raw_framed_path kind rel = Ok b <-> PackManifest._framed_path kind rel = Ok b.
Proof. unfold raw_framed_path. destruct (PackManifest._framed_path kind rel); split; congruence. Qed.

(** A member of the pack, and its content. *)
Definition stored (reader : git_reader) (item : str * _GitEntry) (f : str * bytes) : Prop :=
  fst f = fst item /\ blob reader (ge_id (snd item)) MAX_PACK_FILE_BYTES = Ok (snd f).

Lemma raw_pack_files_ok reader members total b t m :
  raw_pack_files reader members total = Ok (b, t, m) ->
  exists fs, Forall2 (stored reader) members fs /\ hash_files (map checked_out fs) total = Ok b.
Proof.
  revert total b t m. induction members as [|[rel e] members IH]; intros total b t m; cbn [raw_pack_files].
  - intros [= <- _ _]. exists []. by split; [constructor|].
  - intros (data & Hb & Hr)%rbind_ok. cbn zeta in Hr. fold (zlen data) in Hr. destruct (_ <? _) eqn:E; [done|]. brefl.
    apply rbind_ok in Hr as (frame & Hf%raw_framed_path_ok & (own & _ & ([[rest t'] m'] & Hr & Heq)%rbind_ok)%rbind_ok).
    injection Heq as <- _ _. destruct (IH _ _ _ _ Hr) as (fs & Hfs & Hh). exists ((rel, data) :: fs).
    split; [by constructor|]. cbn [map]. rewrite (surjective_pairing (checked_out (rel, data))). cbn [hash_files fst checked_out].
    rewrite (hash_checked_out rel data total frame Hf); [|by eapply blob_bounded|done]. cbn [rbind]. rewrite Hh.
    cbn [rbind]. by rewrite <- !app_assoc.
Qed.

(** The inventory a checkout of the base tree has, in the order of the finalizer. *)
Lemma raw_identity_ok reader sha path d m :
  _raw_pack_identity reader sha path = Ok (d, m) ->
  exists entries fs, tree reader sha = Ok entries /\
    let members := members_below (rstrip_by (N.eqb ch_slash) path ++ [ch_slash]) entries in
    let directories := sorted_set (flat_map (fun item => parent_paths (fst item)) members) in
    Forall2 (stored reader) (py_sort name_leb members) fs /\
    _digest_inventory {| iv_directories := directories; iv_files := map checked_out fs; iv_total := 0 |} = Ok d.
Proof.
  unfold _raw_pack_identity. case_if; [done|]. intros (entries & Ht & Hr)%rbind_ok.
  destruct (is_empty _); [done|]. destruct (existsb _ _); [done|]. destruct (existsb _ _); [done|].
  apply rbind_ok in Hr as (? & _ & (dirs & Hdirs & ([[files t] m'] & Hf & Hd)%rbind_ok)%rbind_ok).
  destruct t; cbn [negb] in Hd; [|done]. apply Ok_pair_inj in Hd as [<- <-].
  destruct (raw_pack_files_ok _ _ _ _ _ _ Hf) as (fs & Hfs & Hh). exists entries, fs. split; [done|]. split; [done|].
  unfold _digest_inventory, inventory_bytes. cbn [iv_directories iv_files].
  assert (Hd : rmap (PackManifest._framed_path 68)
    (sorted_set (flat_map (fun item => parent_paths (fst item)) (members_below (rstrip_by (N.eqb ch_slash) path ++ [ch_slash]) entries)))
    = Ok dirs).
  { apply rmap_ok. apply rmap_ok in Hdirs. eapply Forall2_impl; [exact Hdirs|]. intros a b. apply raw_framed_path_ok. }
  rewrite Hd. cbn [rbind]. by rewrite Hh.
Qed.

(** C26: When the digest a runner computed over the pack directory it executed is the digest
    the finalizer derives from the base tree, both are the digest of a byte string: of the
    hashed inventory of the directory, and of the hashed directories, paths and blobs below
    the pack's path in that tree.  When SHA-256 tells these two byte strings apart, the
    directory held exactly the pack of that tree: the same directories, paths and bytes. *)
Theorem executed_pack_is_base_pack p d m reader sha path m' :
  digest_and_manifest p = Ok (d, m) -> _raw_pack_identity reader sha path = Ok (d, m') ->
  exists v entries blobs b b', _pack_inventory p = Ok v /\ tree reader sha = Ok entries /\
    let members := members_below (rstrip_by (N.eqb ch_slash) path ++ [ch_slash]) entries in
    let directories := sorted_set (flat_map (fun item => parent_paths (fst item)) members) in
    Forall2 (stored reader) (py_sort name_leb members) blobs /\
    hashed_as v b /\ inventory_bytes directories (map checked_out blobs) = Ok b' /\
    sha256_hex b = d /\ sha256_hex b' = d /\
    (collision_free [b; b'] -> iv_directories v = directories /\ map file_content (iv_files v) = blobs).
Proof.
  intros (v & b & Hv & Hb & Hd)%identity_hashed (entries & fs & Ht & Hfs & (b' & Hb' & Hd')%digest_hashed)%raw_identity_ok.
  cbn [fst] in Hd. exists v, entries, fs, b, b'. split; [done|]. split; [done|]. intros members directories.
  split; [done|]. split; [done|]. split; [done|]. split; [done|]. split; [done|]. intros Hc.
  pose proof (hashed_content _ _ _ _ Hb Hb' (eq_trans Hd (eq_sym Hd')) Hc) as Hp.
  unfold pack_content in Hp. cbn [iv_directories iv_files] in Hp. rewrite checked_out_content in Hp. by injection Hp as -> ->.
Qed.

(** ** The scope of a proposal *)

Lemma sort_paths_In utf8_order paths l x : sort_paths utf8_order paths = Ok l -> In x l <-> In x paths.
Proof.
  unfold sort_paths. destruct utf8_order; [|intros <-%Ok_inj; by rewrite sorted_set_In].
  intros (items & Hp%path_order_perm & <-%Ok_inj)%rbind_ok. rewrite <- Hp, map_map. cbn [fst].
  rewrite map_id. by rewrite dedup_str_In.
Qed.

Lemma ordered_In utf8_order paths l x : ordered utf8_order paths = Ok l -> In x l <-> In x paths.
Proof. unfold ordered. destruct (sort_paths utf8_order paths) eqn:E; [|done]. intros [= <-]. by eapply sort_paths_In. Qed.

Lemma changed_entries_In base_entries head_entries path :
  NoDup (map fst head_entries) ->
  In path (changed_entries base_entries head_entries) <->
  exists e, entry_at path head_entries = Some e /\ entry_at path base_entries <> Some e.
Proof.
  intros Hd. unfold changed_entries. rewrite in_map_iff. split.
  - intros ([p e] & <- & [Hin Hne]%filter_In). exists e. split; [by apply entry_at_unique|].
    cbn [fst snd] in Hne. case_bool_decide; done.
  - intros (e & He & Hne). exists (path, e). split; [done|]. apply filter_In. split; [by apply entry_at_In|].
    cbn [fst snd]. case_bool_decide; done.
Qed.

Lemma removed_entries_In base_entries head_entries path :
  In path (removed_entries base_entries head_entries) <->
  entry_at path base_entries <> None /\ entry_at path head_entries = None.
Proof.
  unfold removed_entries. rewrite filter_In, negb_true_iff, str_in_not_In, (entry_at_None path head_entries).
  rewrite (entry_at_None path base_entries). split; intros [H1 H2]; (split; [|done]).
  - intros Hn. by apply Hn.
  - destruct (str_in path (map fst base_entries)) eqn:E; [by apply str_in_In|]. apply str_in_not_In in E. done.
Qed.

(** Validation returns what it was given. *)
Lemma agent_bindings_same payload checked : validate_agent_change_bindings payload = Ok checked -> checked = payload.
Proof.
  unfold validate_agent_change_bindings. destruct (format_of payload); [|done]. case_if; [done|].
  by intros (? & _ & (? & _ & (? & _ & (? & _ & <-%Ok_inj)%rbind_ok)%rbind_ok)%rbind_ok)%rbind_ok.
Qed.

(** The path lists of derived bindings, in terms of the two trees. *)
Lemma derived_change_paths format base head bs hs bts hts payload base_entries head_entries :
  _derive_agent_change_bindings format base head bs hs bts hts = Ok payload ->
  tree base bs = Ok base_entries -> tree head hs = Ok head_entries ->
  forall path,
    (In path (v_strings (dget payload (u "touched_paths"))) <-> entry_at path base_entries <> entry_at path head_entries) /\
    (In path (v_strings (dget payload (u "deleted_paths"))) <->
       entry_at path base_entries <> None /\ entry_at path head_entries = None).
Proof.
  unfold _derive_agent_change_bindings. cbn zeta. intros Hd Hb Hh path.
  apply rbind_ok in Hd as (? & _ & (raw & _ & (blocks & _ & (legacy & _ & Hd)%rbind_ok)%rbind_ok)%rbind_ok).
  case_if; [done|]. rewrite Hb, Hh in Hd. cbn [rbind] in Hd.
  apply rbind_ok in Hd as (changed & Hc & (deleted & Hr & Hd)%rbind_ok).
  destruct (MAX_AGENT_CHANGE_PATHS <? _); [done|]. apply rbind_ok in Hd as (touched & Ht & (pl & Hpl & Hd)%rbind_ok).
  assert (Hpayload : payload = pl) by (apply rbind_ok in Hd as (checked & Hv%agent_bindings_same & (? & _ & <-%Ok_inj)%rbind_ok); done).
  assert (Hfields : dget pl (u "touched_paths") = v_str_list touched /\ dget pl (u "deleted_paths") = v_str_list deleted).
  { destruct format; [by apply Ok_inj in Hpl as <-|]. destruct (candidate_text_map_identity blocks); [|done].
    case_if; [done|]. by apply Ok_inj in Hpl as <-. }
  destruct Hfields as [Htouched Hdeleted]. rewrite Hpayload, Htouched, Hdeleted. unfold v_str_list. cbn [v_strings].
  rewrite !str_items_VStr, (ordered_In _ _ _ _ Ht), in_app_iff, (ordered_In _ _ _ _ Hc), (ordered_In _ _ _ _ Hr).
  pose proof (tree_wf _ _ _ Hh) as [Hdist _ _]. rewrite changed_entries_In, removed_entries_In by done. split; [|done].
  destruct (entry_at path head_entries) as [e|]; [|naive_solver]. split; [naive_solver|].
  intros Hne. left. by exists e.
Qed.

(** C27: The scope an agent change is authorized for is the whole tracked change: in both
    formats the derived touched paths are exactly the paths at which the entries of
    the base tree and of the head tree differ, ignored directories included. *)
Theorem touched_paths_exact format base head bs hs bts hts payload base_entries head_entries :
  _derive_agent_change_bindings format base head bs hs bts hts = Ok payload ->
  tree base bs = Ok base_entries -> tree head hs = Ok head_entries ->
  forall path, In path (v_strings (dget payload (u "touched_paths"))) <->
               entry_at path base_entries <> entry_at path head_entries.
Proof. intros Hd Hb Hh path. exact (proj1 (derived_change_paths _ _ _ _ _ _ _ _ _ _ Hd Hb Hh path)). Qed.
End Sound.
