(* ===== verification/DerivationSamples.v ===== *)
(** A base and a head in two repositories, the derivation of their bindings, and the
    pack whose two identities differ. *)
From S2P Require Export DerivationSound.
Local Open Scope Z_scope.

(** A repository that answers the queries it is asked. *)
Definition answers (l : list (str * bytes)) : git_reader := fun args limit =>
  match List.find (fun a => fst a =s? py_join (u " ") args) l with
  | Some (_, output) => if Z.of_nat (length output) <=? limit then Ok output else Err (GitFailed (u "limit"))
  | None => Err (GitFailed (u "not found"))
  end.

(** The value of a result that is known to have one. *)
Definition outcome {E A} (r : result E A) (default : A) : A := match r with Ok a => a | Err _ => default end.

Definition empty_inventory : inventory := {| iv_directories := []; iv_files := []; iv_total := 0 |}.

(** A digest of one repeated hexadecimal digit. *)
Definition sha_of (c : string) : str := concat (repeat (u c) 40).

Definition row (id path : string) : bytes :=
  ascii_bytes (u "100644 blob " ++ sha_of id) ++ [9] ++ ascii_bytes (u path) ++ [0].

Definition commit_answer (commit tree : string) : str * bytes :=
  (u "rev-parse --verify " ++ sha_of commit ++ u "^{tree}", ascii_bytes (sha_of tree) ++ [10]).
Definition tree_answer (commit : string) (rows : list bytes) : str * bytes :=
  (u "ls-tree -rz --full-tree " ++ sha_of commit, concat rows).
Definition blob_answers (id : string) (content : bytes) : list (str * bytes) :=
  [(u "cat-file -s " ++ sha_of id, ascii_bytes (str_of_Z (zlen content)) ++ [10]);
   (u "cat-file blob " ++ sha_of id, content)].

Section Samples.
#[local] Existing Instance ascii_unicode.

(** ** A pack with a package *)

Definition nested_git : git_reader := answers (
  [commit_answer "a" "b";
   tree_answer "a" [row "1" "pack/d/test_b.py"; row "2" "pack/z.py"]]
  ++ blob_answers "1" [98] ++ blob_answers "2" [122]).

Definition nested_tree : entry :=
  Entry true (Some (Directory, 0)) None [] (Some [
    (u "d", Entry true (Some (Directory, 0)) None [] (Some [(u "test_b.py", sample_file [98])]));
    (u "z.py", sample_file [122])]).
Definition nested_pack : pack_observation :=
  {| po_root := Some Directory; po_tree := nested_tree;
     po_manifest := {| mo_exists := false; mo_link := false; mo_file := false; mo_size := None; mo_data := None |} |}.

(** The two identities of one pack can differ: for a pack with one package and one file
    beside it, the runner lists the files of a directory before those of its
    subdirectories and the finalizer sorts all paths, so that the same files have two
    digests and the accepted pack cannot be finalized. *)
Theorem nested_pack_has_two_digests :
  exists v fs d d',
    _pack_inventory nested_pack = Ok v /\ digest_and_manifest nested_pack = Ok (d, None) /\
    _raw_pack_identity nested_git (sha_of "a") (u "pack") = Ok (d', None) /\
    tree nested_git (sha_of "a") = Ok (map (fun f => (u "pack/" ++ fst f, snd f)) fs) /\
    Forall2 (stored nested_git) fs (rev (map file_content (iv_files v))) /\ d <> d'.
Proof.
  exists (outcome (_pack_inventory nested_pack) empty_inventory),
         [(u "d/test_b.py", {| ge_mode := u "100644"; ge_type := u "blob"; ge_id := sha_of "1" |});
          (u "z.py", {| ge_mode := u "100644"; ge_type := u "blob"; ge_id := sha_of "2" |})],
         (fst (outcome (digest_and_manifest nested_pack) ([], None))),
         (fst (outcome (_raw_pack_identity nested_git (sha_of "a") (u "pack")) ([], None))).
  split; [vm_compute; reflexivity|]. split; [vm_compute; reflexivity|]. split; [vm_compute; reflexivity|].
  split; [vm_compute; reflexivity|]. split; [|vm_compute; discriminate].
  assert (Hf : rev (map file_content (iv_files (outcome (_pack_inventory nested_pack) empty_inventory)))
               = [(u "d/test_b.py", [98]); (u "z.py", [122])]) by (vm_compute; reflexivity).
  rewrite Hf. repeat apply Forall2_cons_2; [split; vm_compute; reflexivity..|constructor].
Qed.

(** ** A proposal *)

Definition pack_objects : list (str * bytes) := blob_answers "1" [116].

(** The pin of the pack in the base tree. *)
Definition pack_pin : str :=
  Eval vm_compute in
  fst (outcome (_raw_pack_identity (answers (tree_answer "a" [row "1" "pack/test_p.py"] :: pack_objects)) (sha_of "a") (u "pack"))
         ([], None)).

Definition base_policy : bytes := ascii_bytes (quote_ticks (
  u "{'harness_inputs':['conftest.py'],'verifier_pack':'pack','expect_verifier_pack_sha256':'" ++ pack_pin ++ u "'}")).

Definition base_rows : list bytes :=
  [row "2" ".evoguard.json"; row "3" "app.py"; row "4" "conftest.py"; row "5" "dist/app.js"; row "6" "old/gone.py";
   row "1" "pack/test_p.py"].
Definition head_rows : list bytes :=
  [row "2" ".evoguard.json"; row "7" "app.py"; row "4" "conftest.py"; row "8" "dist/app.js"; row "9" "new.py";
   row "1" "pack/test_p.py"].

Definition base_git : git_reader := answers (
  [commit_answer "a" "b"; tree_answer "a" base_rows] ++ pack_objects ++ blob_answers "2" base_policy).
Definition head_git : git_reader := answers (
  [commit_answer "c" "d"; tree_answer "c" head_rows]
  ++ blob_answers "7" (ascii_bytes (u "app = 2")) ++ blob_answers "9" [195; 169]).

Definition sample_source : dict := dict_of [
  ("pull_request_number", VInt 7); ("workflow_run_id", VStr (u "run-1")); ("workflow_run_attempt", VInt 1);
  ("base_sha", VStr (sha_of "a")); ("head_sha", VStr (sha_of "c"))].

Definition sample_derivation : derived dict :=
  derive_finalizer_bindings base_git head_git (sha_of "a") (sha_of "c") (sha_of "b") (sha_of "d") sample_source
    (VStr (u "owner/name")) (VStr (u "42")) (VStr (sha256_hex [])).
Definition sample_bindings : dict := outcome sample_derivation [].
Definition base_entries : tree_entries := outcome (tree base_git (sha_of "a")) [].
Definition head_entries : tree_entries := outcome (tree head_git (sha_of "c")) [].
Definition sample_blocks : list (str * str) :=
  outcome (_candidate_blocks base_git head_git (sha_of "a") (sha_of "c") None None None) [].

Example sample_blocks_are : sample_blocks = [(u "app.py", u "app = 2"); (u "new.py", [233%N])].
Proof. vm_compute. reflexivity. Qed.

Example sample_deleted : _deleted_paths base_entries head_entries = us ["old"; "old/gone.py"].
Proof. vm_compute. reflexivity. Qed.

(** The part of a record that a finalizer compares. *)
Definition sample_attested : dict := dict_of [
  ("candidate_sha256", dget sample_bindings (u "candidate_sha256"));
  ("deleted_paths", dget sample_bindings (u "deleted_paths"));
  ("policy_sha256", dget sample_bindings (u "policy_sha256"));
  ("effective_policy", dget sample_bindings (u "effective_policy"));
  ("verifier_pack_sha256", VStr pack_pin); ("head_sha", VStr (sha_of "c"))].
Definition sample_record : dict := dict_of [("attestation", VDict sample_attested)].
Definition sample_pair : dict * dict := outcome (context_from_verified_bindings sample_bindings sample_record) ([], []).

Lemma candidate_reconstructs_head_witness :
  NoDup (map fst sample_blocks) /\ ~ In (u "app.py") (_deleted_paths base_entries head_entries).
Proof.
  assert (Hc : _candidate_blocks base_git head_git (sha_of "a") (sha_of "c") None None None = Ok sample_blocks)
    by (vm_compute; reflexivity).
  assert (Hb : tree base_git (sha_of "a") = Ok base_entries) by (vm_compute; reflexivity).
  assert (Hh : tree head_git (sha_of "c") = Ok head_entries) by (vm_compute; reflexivity).
  destruct (candidate_reconstructs_head base_git head_git (sha_of "a") (sha_of "c") None None
    sample_blocks base_entries head_entries Hc Hb Hh) as [Hd Hp]. split; [exact Hd|].
  assert (Hi : _ignored_path (u "app.py") None = false) by (vm_compute; reflexivity).
  assert (He : entry_at (u "app.py") head_entries
               = Some {| ge_mode := u "100644"; ge_type := u "blob"; ge_id := sha_of "7" |}) by (vm_compute; reflexivity).
  specialize (Hp _ Hi). rewrite He in Hp. exact (proj1 Hp).
Defined.

Lemma accepted_record_bound_witness :
  commit_tree head_git (sha_of "c") = Ok (sha_of "d") /\ fst sample_pair = sample_source.
Proof.
  assert (Hd : derive_finalizer_bindings base_git head_git (sha_of "a") (sha_of "c") (sha_of "b") (sha_of "d")
                 sample_source (VStr (u "owner/name")) (VStr (u "42")) (VStr (sha256_hex [])) = Ok sample_bindings)
    by (vm_compute; reflexivity).
  assert (Hr : context_from_verified_bindings sample_bindings sample_record = Ok (fst sample_pair, snd sample_pair))
    by (vm_compute; reflexivity).
  destruct (accepted_record_bound base_git head_git (sha_of "a") (sha_of "c") (sha_of "b") (sha_of "d") sample_source
    (VStr (u "owner/name")) (VStr (u "42")) (VStr (sha256_hex [])) sample_bindings sample_record
    (fst sample_pair) (snd sample_pair) Hd Hr) as (_ & Hh & Hs & _).
  split; [exact Hh|exact Hs].
Defined.

Definition sample_change : derived dict :=
  _derive_agent_change_bindings FormatV2 base_git head_git (sha_of "a") (sha_of "c") (sha_of "b") (sha_of "d").
Definition sample_change_payload : dict := outcome sample_change [].

Lemma touched_paths_exact_witness :
  _derive_agent_change_bindings FormatV2 base_git head_git (sha_of "a") (sha_of "c") (sha_of "b") (sha_of "d")
    = Ok sample_change_payload /\
  In (u "dist/app.js") (v_strings (dget sample_change_payload (u "touched_paths"))).
Proof.
  assert (Hd : _derive_agent_change_bindings FormatV2 base_git head_git (sha_of "a") (sha_of "c") (sha_of "b") (sha_of "d")
                 = Ok sample_change_payload) by (vm_compute; reflexivity).
  assert (Hb : tree base_git (sha_of "a") = Ok base_entries) by (vm_compute; reflexivity).
  assert (Hh : tree head_git (sha_of "c") = Ok head_entries) by (vm_compute; reflexivity).
  assert (Hne : entry_at (u "dist/app.js") base_entries <> entry_at (u "dist/app.js") head_entries)
    by (vm_compute; discriminate).
  split; [exact Hd|].
  exact (proj2 (touched_paths_exact FormatV2 base_git head_git (sha_of "a") (sha_of "c") (sha_of "b") (sha_of "d")
    sample_change_payload base_entries head_entries Hd Hb Hh (u "dist/app.js")) Hne).
Defined.

(** The pack of the base tree, as a runner finds it. *)
Definition flat_pack : pack_observation :=
  {| po_root := Some Directory;
     po_tree := Entry true (Some (Directory, 0)) None [] (Some [(u "test_p.py", sample_file [116])]);
     po_manifest := po_manifest nested_pack |}.

Lemma executed_pack_is_base_pack_witness :
  exists v, _pack_inventory flat_pack = Ok v /\ iv_directories v = [] /\
    map file_content (iv_files v) = [(u "test_p.py", [116])].
Proof.
  assert (Hp : digest_and_manifest flat_pack = Ok (pack_pin, None)) by (vm_compute; reflexivity).
  assert (Hr : _raw_pack_identity base_git (sha_of "a") (u "pack") = Ok (pack_pin, None)) by (vm_compute; reflexivity).
  destruct (executed_pack_is_base_pack flat_pack pack_pin None base_git (sha_of "a") (u "pack") None Hp Hr)
    as (v & entries & blobs & b & b' & Hv & Ht & Hs & Hb & Hb' & _ & _ & Hc).
  assert (He : tree base_git (sha_of "a") = Ok base_entries) by (vm_compute; reflexivity).
  rewrite He in Ht. apply Ok_inj in Ht. subst entries.
  match type of Hs with Forall2 _ ?l _ => assert (Hl : l = [(u "test_p.py", snd (default (u "", {| ge_mode := []; ge_type := []; ge_id := [] |}) (head l)))]) by (vm_compute; reflexivity);
    rewrite Hl in Hs end.
  apply Forall2_cons_inv_l in Hs as ([name data] & rest & [Hname Hdata] & Hrest & ->). apply Forall2_nil_inv_l in Hrest as ->.
  cbn [fst snd] in Hname, Hdata. subst name. vm_compute in Hdata. apply Ok_inj in Hdata as <-.
  exists v. split; [exact Hv|]. destruct Hc as [Hdirs Hfiles].
  - vm_compute in Hv. apply Ok_inj in Hv as <-. vm_compute in Hb, Hb'. apply Ok_inj in Hb as <-. apply Ok_inj in Hb' as <-.
    intros x y [<-|[<-|[]]] [<-|[<-|[]]] _; reflexivity.
  - split; [|exact Hfiles]. etransitivity; [exact Hdirs|]. vm_compute. reflexivity.
Defined.
End Samples.
