(* ===== verification/ZipArchive.v ===== *)
(** Stored ZIP archives as the evidence layer writes and checks them
    (evidence_bundle.py), and the base64 text of a signature: the bytes of the
    canonical archive of a list of members, the bounds checked before an archive is
    parsed, and the metadata a member may have.  Parsing an archive is the standard
    library's; it appears in EvidenceBundle.v as an argument. *)
From S2P Require Export EvidencePrimitives.
Local Open Scope Z_scope.

(** ** CRC-32 *)

Definition crc_step (crc : Z) : Z :=
  if Z.testbit crc 0 then Z.lxor (Z.shiftr crc 1) 3988292384 else Z.shiftr crc 1.

Definition crc_byte (crc byte : Z) : Z := Nat.iter 8 crc_step (Z.lxor crc byte).

Definition crc32 (data : bytes) : Z := Z.lxor (fold_left crc_byte data 4294967295) 4294967295.

Example crc32_check : crc32 (ascii_bytes (u "123456789")) = 3421780262.
Proof. vm_compute. reflexivity. Qed.

(** ** Writing *)

Definition le_bytes (n : nat) (z : Z) : bytes := rev (be_bytes n z).
Definition u16 : Z -> bytes := le_bytes 2.
Definition u32 : Z -> bytes := le_bytes 4.

Definition S_IFREG : Z := 32768.
Definition EXTERNAL_ATTR : Z := Z.shiftl (Z.lor S_IFREG 420) 16.

(** 1 January 1980 *)
Definition dos_date : Z := 33.
Definition dos_time : Z := 0.

(** The name in a header, and the flag that announces UTF-8. *)
Definition name_bytes (name : str) : option (bytes * Z) :=
  if forallb is_ascii name then Some (ascii_bytes name, 0)
  else match utf8 name with Some b => Some (b, 2048) | None => None end.

(** The fields shared by both headers of a member. *)
Definition member_fields (flags : Z) (name payload : bytes) : bytes :=
  u16 flags ++ u16 0 ++ u16 dos_time ++ u16 dos_date ++ u32 (crc32 payload)
  ++ u32 (Z.of_nat (length payload)) ++ u32 (Z.of_nat (length payload)) ++ u16 (Z.of_nat (length name)).

Definition local_header (flags : Z) (name payload : bytes) : bytes :=
  [80; 75; 3; 4] ++ [20; 0] ++ member_fields flags name payload ++ u16 0 ++ name.

Definition central_header (flags : Z) (name payload : bytes) (offset : Z) : bytes :=
  [80; 75; 1; 2] ++ [20; 3; 20; 0] ++ member_fields flags name payload
  ++ u16 0 ++ u16 0 ++ u16 0 ++ u16 0 ++ u32 EXTERNAL_ATTR ++ u32 offset ++ name.

(** The members of an archive from an offset on, and its central directory. *)
Fixpoint archive_parts (members : list (str * bytes)) (offset : Z) : option (bytes * bytes) :=
  match members with
  | [] => Some ([], [])
  | (name, payload) :: members' =>
      match name_bytes name with
      | None => None
      | Some (b, flags) =>
          let entry := local_header flags b payload ++ payload in
          match archive_parts members' (offset + Z.of_nat (length entry)) with
          | None => None
          | Some (entries, directory) =>
              Some (entry ++ entries, central_header flags b payload offset ++ directory)
          end
      end
  end.

Definition ZIP64_LIMIT : Z := 2 ^ 31 - 1.

(** [_archive_bytes]: [None] where a name has no encoding or ZIP64 would be needed. *)
Definition _archive_bytes (members : list (str * bytes)) : option bytes :=
  match archive_parts members 0 with
  | None => None
  | Some (entries, directory) =>
      let count := Z.of_nat (length members) in
      let size := Z.of_nat (length directory) in
      let offset := Z.of_nat (length entries) in
      if (65535 <? count) || (ZIP64_LIMIT <? offset) || (ZIP64_LIMIT <? size) then None
      else Some (entries ++ directory ++ [80; 75; 5; 6] ++ u16 0 ++ u16 0 ++ u16 count ++ u16 count
                 ++ u32 size ++ u32 offset ++ u16 0)
  end.

(** ** Checking *)

Definition le_value (b : bytes) : Z := be_value (rev b).

(** [data[start : start + n]] *)
Definition slice (data : bytes) (start n : Z) : bytes := firstn (Z.to_nat n) (skipn (Z.to_nat start) data).

(** [_preflight_zip]: the declared number of entries. *)
Definition _preflight_zip (snapshot : bytes) : evidence Z :=
  let size := Z.of_nat (length snapshot) in
  if (size <? 22) || negb (bytes_eqb (firstn 4 snapshot) [80; 75; 3; 4]) then Err (BadArchive "not canonical")
  else
    let eocd_offset := size - 22 in
    let field start n := le_value (slice snapshot (eocd_offset + start) n) in
    if negb (bytes_eqb (slice snapshot eocd_offset 4) [80; 75; 5; 6]) || negb (field 20 2 =? 0)
    then Err (BadArchive "end record")
    else if negb (field 4 2 =? 0) || negb (field 6 2 =? 0) || negb (field 8 2 =? field 10 2)
    then Err (BadArchive "multi-disk")
    else if (field 10 2 =? 0) || (MAX_ARCHIVE_MEMBERS <? field 10 2) then Err (BadArchive "members")
    else if negb (field 16 4 + field 12 4 =? eocd_offset) then Err (BadArchive "directory position")
    else if MAX_CENTRAL_DIRECTORY_BYTES <? field 12 4 then Err (BadArchive "directory size")
    else if negb (bytes_eqb (slice snapshot (field 16 4) 4) [80; 75; 1; 2]) then Err (BadArchive "directory")
    else Ok (field 10 2).

(** What the parser reports of a member. *)
Record zip_info := {
  zi_filename : str;
  zi_flag_bits : Z;
  zi_compress_type : Z;
  zi_extra : bytes;
  zi_comment : bytes;
  zi_create_system : Z;
  zi_external_attr : Z;
  zi_date_time : list Z;
  zi_file_size : Z }.

(** [_safe_member_name]: the path of one dot is its own normal form and has no parts. *)
Definition _safe_member_name (name : str) : bool :=
  negb (is_empty name) && negb (char_in ch_bslash name) && negb (char_in 0 name) && negb (char_in ch_colon name)
  && ((name =s? u ".") || forallb (fun part => negb (str_in part (us [""; "."; ".."]))) (split_char ch_slash name)).

Definition _validate_member_metadata (info : zip_info) : evidence unit :=
  let mode := Z.shiftr (zi_external_attr info) 16 in
  require_all [
    ("unsafe member path", _safe_member_name (zi_filename info));
    ("member flags", zi_flag_bits info =? 0);
    ("compressed member", zi_compress_type info =? 0);
    ("member extra", is_empty (zi_extra info) && is_empty (zi_comment info));
    ("member type", (zi_create_system info =? 3) && (Z.land mode 61440 =? S_IFREG));
    ("member mode", (Z.land mode 4095 =? 420)
                    && bool_decide (zi_date_time info = [1980; 1; 1; 0; 0; 0]))] BadArchive.

(** What the parser can deliver of a member: [None] where it raises. *)
Definition _read_archive_member (content : option bytes) (info : zip_info) (limit : Z) : evidence bytes :=
  if limit <? zi_file_size info then Err (BadArchive "member limit")
  else
    match content with
    | None => Err (BadArchive "member unreadable")
    | Some content =>
        let data := first_bytes (limit + 1) content in
        if (limit <? Z.of_nat (length data)) || negb (Z.of_nat (length data) =? zi_file_size info)
        then Err (BadArchive "member size") else Ok data
    end.

(** ** Base64 *)

Definition b64_char (n : Z) : Z :=
  if n <? 26 then 65 + n else if n <? 52 then 71 + n else if n <? 62 then n - 4 else if n =? 62 then 43 else 47.

Definition b64_value (c : Z) : option Z :=
  if (65 <=? c) && (c <=? 90) then Some (c - 65)
  else if (97 <=? c) && (c <=? 122) then Some (c - 71)
  else if (48 <=? c) && (c <=? 57) then Some (c + 4)
  else if c =? 43 then Some 62 else if c =? 47 then Some 63 else None.

Fixpoint b64encode (data : bytes) : bytes :=
  match data with
  | [] => []
  | [a] => [b64_char (a / 4); b64_char (a mod 4 * 16); 61; 61]
  | [a; b] => [b64_char (a / 4); b64_char (a mod 4 * 16 + b / 16); b64_char (b mod 16 * 4); 61]
  | a :: b :: c :: data' =>
      b64_char (a / 4) :: b64_char (a mod 4 * 16 + b / 16) :: b64_char (b mod 16 * 4 + c / 64)
      :: b64_char (c mod 64) :: b64encode data'
  end.

(** [b64decode(text, validate=True)]; padding only in the last group. *)
Fixpoint b64decode (text : bytes) : option bytes :=
  match text with
  | [] => Some []
  | [x; y; 61; 61] =>
      match b64_value x, b64_value y with
      | Some p, Some q => Some [p * 4 + q / 16]
      | _, _ => None
      end
  | [x; y; z; 61] =>
      match b64_value x, b64_value y, b64_value z with
      | Some p, Some q, Some r => Some [p * 4 + q / 16; q mod 16 * 16 + r / 4]
      | _, _, _ => None
      end
  | x :: y :: z :: w :: text' =>
      match b64_value x, b64_value y, b64_value z, b64_value w, b64decode text' with
      | Some p, Some q, Some r, Some s, Some rest =>
          Some (p * 4 + q / 16 :: q mod 16 * 16 + r / 4 :: r mod 4 * 64 + s :: rest)
      | _, _, _, _, _ => None
      end
  | _ => None
  end.

Example b64_check : b64decode (b64encode [0; 16; 131; 255; 7]) = Some [0; 16; 131; 255; 7].
Proof. vm_compute. reflexivity. Qed.

(** The signature of an archive: 88 characters, canonical, 64 bytes. *)
Definition decode_signature (encoded : bytes) : evidence bytes :=
  if negb (Nat.eqb (length encoded) 88) || existsb (fun b => 127 <? b) encoded then Err (BadSignature "length")
  else
    match b64decode encoded with
    | None => Err (BadSignature "base64")
    | Some signature =>
        if negb (Nat.eqb (length signature) 64) || negb (bytes_eqb (b64encode signature) encoded)
        then Err (BadSignature "canonical") else Ok signature
    end.
