(* ===== verification/EvidenceBundle.v ===== *)
(** Evidence bundles (evidence_bundle.py, and the key identities of signing.py): a
    canonical archive of a manifest, a signature, a verdict record and materials; its
    creation, its inspection, its authentication against an external key and context,
    and the verification of the record it carries.

    The Ed25519 primitives and the parser of archives are arguments. *)
From S2P Require Export RecordVerifier ZipArchive.
Local Open Scope Z_scope.

Definition BUNDLE_FORMAT : str := u "EVOGUARD_EVIDENCE_BUNDLE_V1".
Definition MANIFEST_PATH : str := u "bundle.json".
Definition SIGNATURE_PATH : str := u "bundle.sig".
Definition VERDICT_PATH : str := u "record/verdict.json".
Definition SIGNING_DOMAIN : bytes := ascii_bytes BUNDLE_FORMAT ++ [0].
Definition SIGNATURE_PURPOSE : str := u "evoguard-evidence-envelope".

Definition _MANIFEST_KEYS : list str := us ["format"; "context"; "authentication"; "record"; "materials"].
Definition _AUTHENTICATION_KEYS : list str := us ["algorithm"; "key_id"; "purpose"; "signature_path"].
Definition _RECORD_KEYS : list str := us ["path"; "sha256"; "size"; "schema_version"; "tool"; "tool_version"].
Definition _MATERIAL_KEYS : list str := us ["role"; "path"; "sha256"; "size"].

(** ** Keys *)

(** A public key: its DER encoding and its verification of a signature of a payload. *)
Record public_key := { pk_der : bytes; pk_verify : bytes -> bytes -> bool }.

(** A private key: its public part and its signatures. *)
Record private_key := { sk_public_der : bytes; sk_sign : bytes -> bytes }.

(** [_key_id] *)
Definition key_id_of (der : bytes) : str := u "sha256:" ++ sha256_hex der.

Definition verify_bytes_with_key_id (payload signature : bytes) (key : public_key) : bool * str :=
  if negb (Nat.eqb (length signature) 64) then (false, key_id_of (pk_der key))
  else (pk_verify key signature payload, key_id_of (pk_der key)).

(** ** The parts of a manifest *)

(** [[a-z][a-z0-9_.-]{0,63}] *)
Definition role_char (c : N) : bool :=
  ((97 <=? c) && (c <=? 122) || (48 <=? c) && (c <=? 57) || (c =? 95) || (c =? 46) || (c =? 45))%N.
Definition valid_role (role : str) : bool :=
  match role with
  | c :: rest => ((97 <=? c) && (c <=? 122))%N && forallb role_char rest && Nat.leb (length rest) 63
  | [] => false
  end.
Definition _validate_role (role : str) : evidence unit :=
  if valid_role role then Ok tt else Err (BadMaterial "role").

Definition key_id_text (s : str) : bool := starts_with (u "sha256:") s && sha256_text (skipn 7 s).

Definition _validate_authentication (v : value) : evidence dict :=
  match v with
  | VDict d =>
      let* _ := _require_exact_keys d _AUTHENTICATION_KEYS "bundle authentication" in
      let* _ := require_all [
        ("algorithm", eq_str (dget d (u "algorithm")) (u "Ed25519"));
        ("purpose", eq_str (dget d (u "purpose")) SIGNATURE_PURPOSE);
        ("signature_path", eq_str (dget d (u "signature_path")) SIGNATURE_PATH);
        ("key_id", match dget d (u "key_id") with VStr s => key_id_text s | _ => false end)] BadField in
      Ok d
  | _ => Err (BadField "authentication")
  end.

Definition nonempty_str (v : value) : bool := match v with VStr (_ :: _) => true | _ => false end.

Definition _record_manifest (verdict : dict) (payload : bytes) : evidence dict :=
  let get key := dget verdict (u key) in
  if negb (nonempty_str (get "schema_version"%string) && nonempty_str (get "tool"%string)
           && nonempty_str (get "tool_version"%string)) then Err (BadField "verdict tool")
  else Ok (dict_of [
    ("path", VStr VERDICT_PATH); ("sha256", VStr (sha256_hex payload)); ("size", VInt (zlen payload));
    ("schema_version", get "schema_version"%string); ("tool", get "tool"%string);
    ("tool_version", get "tool_version"%string)]).

Definition digest_row_checks (d : dict) : list (string * bool) :=
  [("path", match dget d (u "path") with VStr p => _safe_member_name p | _ => false end);
   ("sha256", v_sha256 (dget d (u "sha256")));
   ("size", match dget d (u "size") with VInt n => 0 <=? n | _ => false end)].

Definition row_size (d : dict) : Z := match dget d (u "size") with VInt n => n | _ => 0 end.

(** [f"materials/{index:03d}-{role}"] *)
Definition material_path (index : nat) (role : str) : str :=
  let n := str_of_Z (Z.of_nat index) in
  u "materials/" ++ zeros (3 - Z.of_nat (length n)) ++ n ++ u "-" ++ role.

(** A material: its role, digest, size, path and bytes. *)
Record VerifiedMaterial := {
  vm_role : str;
  vm_archive_path : str;
  vm_sha256 : str;
  vm_size : Z;
  vm_data : bytes }.

(** What the manifest declares of a material. *)
Record material_row := { mr_role : str; mr_path : str; mr_sha256 : str; mr_size : Z }.

(** The order of [(role, sha256, size)]. *)
Definition row_leb (a b : material_row) : bool :=
  if mr_role a =s? mr_role b then
    if mr_sha256 a =s? mr_sha256 b then mr_size a <=? mr_size b else str_leb (mr_sha256 a) (mr_sha256 b)
  else str_leb (mr_role a) (mr_role b).

Definition declared_material (index : nat) (item : value) : evidence material_row :=
  match item with
  | VDict d =>
      let* _ := _require_exact_keys d _MATERIAL_KEYS "bundle material" in
      let* _ := require_all (digest_row_checks d) BadMaterial in
      match dget d (u "role"), dget d (u "path"), dget d (u "sha256"), dget d (u "size") with
      | VStr role, VStr path, VStr digest, VInt size =>
          let* _ := _validate_role role in
          if negb (path =s? material_path index role) then Err (BadMaterial "path")
          else if MAX_MATERIAL_BYTES <? size then Err (BadMaterial "size limit")
          else Ok {| mr_role := role; mr_path := path; mr_sha256 := digest; mr_size := size |}
      | _, _, _, _ => Err (BadMaterial "role")
      end
  | _ => Err (BadMaterial "object")
  end.

(** The rows in order; a path that is declared already is refused. *)
Fixpoint declared_materials (index : nat) (items : list value) (declared : list str) : evidence (list material_row) :=
  match items with
  | [] => Ok []
  | item :: items' =>
      let* row := declared_material index item in
      if str_in (mr_path row) declared then Err (BadMaterial "duplicate path")
      else let* rows := declared_materials (S index) items' (declared ++ [mr_path row]) in Ok (row :: rows)
  end.

(** ** Inspection *)

(** Canonical bundle bytes, after structural checks only. *)
Record InspectedBundle := {
  ib_manifest_bytes : bytes;
  ib_signature : bytes;
  ib_verdict_bytes : bytes;
  ib_materials : list VerifiedMaterial }.

(** The properties of an inspection load its bytes again. *)
Definition ib_manifest (b : InspectedBundle) : evidence dict := _load_json_object (ib_manifest_bytes b) "bundle manifest".
Definition ib_verdict (b : InspectedBundle) : evidence dict := _load_json_object (ib_verdict_bytes b) "bundled verdict".
Definition materials_for (b : InspectedBundle) (role : str) : list VerifiedMaterial :=
  List.filter (fun m => vm_role m =s? role) (ib_materials b).

(** A parsed archive: its comment, and its members with what can be read of them;
    [None] where the parser raises. *)
Definition zip_parser : Type := bytes -> option (bytes * list (zip_info * option bytes)).

Fixpoint member_content (name : str) (members : list (zip_info * option bytes)) : option (zip_info * option bytes) :=
  match members with
  | [] => None
  | (info, content) :: members' => if zi_filename info =s? name then Some (info, content) else member_content name members'
  end.

Definition read_member (members : list (zip_info * option bytes)) (name : str) (limit : Z) : evidence bytes :=
  match member_content name members with
  | Some (info, content) => _read_archive_member content info limit
  | None => Err (BadArchive "member missing")
  end.

Definition set_eq (a b : list str) : bool := forallb (fun x => str_in x b) a && forallb (fun x => str_in x a) b.

Definition record_field_checks (record : dict) : list (string * bool) :=
  digest_row_checks record
  ++ [("record path", eq_str (dget record (u "path")) VERDICT_PATH);
      ("schema_version", nonempty_str (dget record (u "schema_version")));
      ("tool", nonempty_str (dget record (u "tool")));
      ("tool_version", nonempty_str (dget record (u "tool_version")));
      ("record size", row_size record <=? MAX_VERDICT_BYTES)].

(** The bytes of the materials, each as declared. *)
Fixpoint read_materials (members : list (zip_info * option bytes)) (rows : list material_row)
  : evidence (list VerifiedMaterial) :=
  match rows with
  | [] => Ok []
  | row :: rows' =>
      let* data := read_member members (mr_path row) MAX_MATERIAL_BYTES in
      if negb (zlen data =? mr_size row) || negb (sha256_hex data =s? mr_sha256 row) then Err (BadMaterial "bytes")
      else
        let* rest := read_materials members rows' in
        Ok ({| vm_role := mr_role row; vm_archive_path := mr_path row; vm_sha256 := mr_sha256 row;
               vm_size := mr_size row; vm_data := data |} :: rest)
  end.

Definition manifest_checks (rows : list material_row) (names : list str) (record : dict) : list (string * bool) :=
  let expected_names := [MANIFEST_PATH; SIGNATURE_PATH; VERDICT_PATH] ++ map mr_path rows in
  [("too many materials", Z.of_nat (length rows) <=? MAX_MATERIALS);
   ("material order", sortedb row_leb rows);
   ("material roles", nodupb str_eqb (map mr_role rows));
   ("members differ from the manifest", set_eq names expected_names);
   ("member order", bool_decide (names = expected_names));
   ("payload size", row_size record + fold_right Z.add 0 (map mr_size rows) <=? MAX_TOTAL_BYTES)].

Section Bundle.
Context `{UnicodeDB} (parse_zip : zip_parser).

(** The checks of a manifest, in order: its context, its record and its materials. *)
Definition inspect_manifest (manifest_bytes : bytes) (names : list str)
  : evidence (dict * dict * list material_row) :=
  let* manifest := _load_json_object manifest_bytes "bundle manifest" in
  let* canonical := _canonical_json manifest in
  if negb (bytes_eqb canonical manifest_bytes) then Err (BadManifest "canonical")
  else
    let* _ := _require_exact_keys manifest _MANIFEST_KEYS "bundle manifest" in
    if negb (eq_str (dget manifest (u "format")) BUNDLE_FORMAT) then Err (BadManifest "format")
    else
      match dget manifest (u "context") with
      | VDict context =>
          let* _ := validate_evidence_context context None in
          let* _ := _validate_authentication (dget manifest (u "authentication")) in
          match dget manifest (u "record"), dget manifest (u "materials") with
          | VDict record, VList materials =>
              let* _ := _require_exact_keys record _RECORD_KEYS "bundle record" in
              let* _ := require_all (record_field_checks record) BadManifest in
              let* rows := declared_materials 0 materials [MANIFEST_PATH; SIGNATURE_PATH; VERDICT_PATH] in
              let* _ := require_all (manifest_checks rows names record) BadManifest in
              Ok (context, record, rows)
          | _, _ => Err (BadManifest "record")
          end
      | _ => Err (BadManifest "context")
      end.

Definition inspect_evidence_bundle (file : file_view) : evidence InspectedBundle :=
  let* snapshot := _read_regular_file file MAX_ARCHIVE_BYTES "evidence bundle" in
  let* declared_entry_count := _preflight_zip snapshot in
  match parse_zip snapshot with
  | None => Err (BadArchive "parse")
  | Some (comment, members) =>
      let names := map (fun m => zi_filename (fst m)) members in
      let* _ := require_all [
        ("archive comment", is_empty comment);
        ("entry count", Z.of_nat (length members) =? declared_entry_count);
        ("first member", match names with name :: _ => name =s? MANIFEST_PATH | [] => false end);
        ("too many members", Z.of_nat (length members) <=? MAX_ARCHIVE_MEMBERS);
        ("duplicate members", nodupb str_eqb names)] BadArchive in
      let* _ := rmap (fun m => _validate_member_metadata (fst m)) members in
      let* manifest_bytes := read_member members MANIFEST_PATH MAX_MANIFEST_BYTES in
      let* (context, record, rows) := inspect_manifest manifest_bytes names in
      let* verdict_bytes := read_member members VERDICT_PATH MAX_VERDICT_BYTES in
      if negb (zlen verdict_bytes =? row_size record)
         || negb (eq_str (dget record (u "sha256")) (sha256_hex verdict_bytes)) then Err (BadManifest "verdict bytes")
      else
        let* verdict := _load_json_object verdict_bytes "bundled verdict" in
        let* described := _record_manifest verdict verdict_bytes in
        if negb (py_eq (VDict described) (VDict record)) then Err (BadManifest "verdict metadata")
        else
          let* _ := validate_evidence_context context (Some verdict) in
          let* encoded := read_member members SIGNATURE_PATH 88 in
          let* signature := decode_signature encoded in
          let* materials := read_materials members rows in
          let canonical_members :=
            [(MANIFEST_PATH, manifest_bytes); (SIGNATURE_PATH, encoded); (VERDICT_PATH, verdict_bytes)]
            ++ map (fun m => (vm_archive_path m, vm_data m)) materials in
          match _archive_bytes canonical_members with
          | Some archive =>
              if bytes_eqb archive snapshot
              then Ok {| ib_manifest_bytes := manifest_bytes; ib_signature := signature;
                         ib_verdict_bytes := verdict_bytes; ib_materials := materials |}
              else Err (BadArchive "container")
          | None => Err (BadArchive "container")
          end
  end.

(** ** Authentication *)

Definition verify_bundle_context (b : InspectedBundle) (expected_context : dict) : evidence unit :=
  let* verdict := ib_verdict b in
  let* expected := validate_evidence_context expected_context (Some verdict) in
  let* manifest := ib_manifest b in
  if py_eq (dget manifest (u "context")) (VDict expected) then Ok tt else Err (NotBound "context").

Definition verify_bundle_signature (b : InspectedBundle) (trusted_key : public_key) : evidence unit :=
  let '(verified, trusted_key_id) :=
    verify_bytes_with_key_id (SIGNING_DOMAIN ++ ib_manifest_bytes b) (ib_signature b) trusted_key in
  let* manifest := ib_manifest b in
  let claimed := match dget manifest (u "authentication") with VDict d => dget d (u "key_id") | _ => VNone end in
  if negb (eq_str claimed trusted_key_id) then Err (BadSignature "key_id")
  else if negb verified then Err (BadSignature "invalid") else Ok tt.

Definition authenticate_evidence_bundle (b : InspectedBundle) (trusted_key : public_key) (expected_context : dict)
  : evidence InspectedBundle :=
  let* _ := verify_bundle_signature b trusted_key in
  let* _ := verify_bundle_context b expected_context in Ok b.

(** A verified bundle, with the report of its record. *)
Definition verify_evidence_bundle (file : file_view) (trusted_key : public_key) (expected_context : dict)
  : evidence (InspectedBundle * report) :=
  let* b := inspect_evidence_bundle file in
  let* b := authenticate_evidence_bundle b trusted_key expected_context in
  let* verdict := ib_verdict b in
  let semantic_report := verify_record (VDict verdict) in
  if r_ok semantic_report then Ok (b, semantic_report) else Err InvalidRecord.

(** ** Creation *)

(** One supplied material: its role and the file that is read. *)
Record EvidenceMaterial := { em_role : str; em_file : file_view }.

(** The rows, digests and bytes of the supplied materials, within the total. *)
Fixpoint read_supplied (materials : list EvidenceMaterial) (read : nat) (logical_total : Z)
  : evidence (list (material_row * bytes)) :=
  match materials with
  | [] => Ok []
  | m :: materials' =>
      if MAX_MATERIALS <=? Z.of_nat read then Err (BadMaterial "too many")
      else
        let* _ := _validate_role (em_role m) in
        let* data := _read_regular_file (em_file m) (Z.min MAX_MATERIAL_BYTES (MAX_TOTAL_BYTES - logical_total)) "material" in
        let* rest := read_supplied materials' (S read) (logical_total + zlen data) in
        Ok (({| mr_role := em_role m; mr_path := []; mr_sha256 := sha256_hex data; mr_size := zlen data |}, data) :: rest)
  end.

(** The rows with the paths their position gives them. *)
Definition place_rows (rows : list (material_row * bytes)) : list (material_row * bytes) :=
  map (fun ir => let '(index, (row, data)) := ir in
                 ({| mr_role := mr_role row; mr_path := material_path index (mr_role row);
                     mr_sha256 := mr_sha256 row; mr_size := mr_size row |}, data))
    (combine (seq 0 (length rows)) rows).

Definition row_manifest (row : material_row) : value :=
  VDict (dict_of [("role", VStr (mr_role row)); ("path", VStr (mr_path row)); ("sha256", VStr (mr_sha256 row));
                  ("size", VInt (mr_size row))]).

Definition authentication_of (key : private_key) : dict := dict_of [
  ("algorithm", VStr (u "Ed25519")); ("key_id", VStr (key_id_of (sk_public_der key)));
  ("purpose", VStr SIGNATURE_PURPOSE); ("signature_path", VStr SIGNATURE_PATH)].

(** The manifest and the bytes of the archive that is published. *)
Definition bundle_contents (verdict_file : file_view) (context : dict) (key : private_key)
    (materials : list EvidenceMaterial) (require_valid_record : bool) : evidence (dict * bytes) :=
  let* verdict_bytes := _read_regular_file verdict_file MAX_VERDICT_BYTES "verdict" in
  let* verdict := _load_json_object verdict_bytes "verdict" in
  if require_valid_record && negb (r_ok (verify_record (VDict verdict))) then Err InvalidRecord
  else
    let* verified_context := validate_evidence_context context (Some verdict) in
    if MAX_TOTAL_BYTES <? zlen verdict_bytes then Err (BadMaterial "total")
    else
      let* supplied := read_supplied materials 0 (zlen verdict_bytes) in
      let rows := py_sort (fun a b => row_leb (fst a) (fst b)) supplied in
      if negb (nodupb str_eqb (map (fun r => mr_role (fst r)) rows)) then Err (BadMaterial "role twice")
      else
        let rows := place_rows rows in
        let* record := _record_manifest verdict verdict_bytes in
        let manifest := dict_of [
          ("format", VStr BUNDLE_FORMAT); ("context", VDict verified_context);
          ("authentication", VDict (authentication_of key)); ("record", VDict record);
          ("materials", VList (map (fun r => row_manifest (fst r)) rows))] in
        let* manifest_bytes := _canonical_json manifest in
        if MAX_MANIFEST_BYTES <? zlen manifest_bytes then Err (BadManifest "size")
        else
          let signature := sk_sign key (SIGNING_DOMAIN ++ manifest_bytes) in
          if negb (Nat.eqb (length signature) 64) then Err (BadSignature "length")
          else
            let signature_bytes := b64encode signature in
            if negb (Nat.eqb (length signature_bytes) 88) then Err (BadSignature "base64")
            else
              match _archive_bytes ([(MANIFEST_PATH, manifest_bytes); (SIGNATURE_PATH, signature_bytes);
                                     (VERDICT_PATH, verdict_bytes)] ++ map (fun r => (mr_path (fst r), snd r)) rows) with
              | None => Err (BadArchive "container")
              | Some archive => if MAX_ARCHIVE_BYTES <? zlen archive then Err (BadArchive "limit")
                                else Ok (manifest, archive)
              end.

(** What stands at the output path, and whether a hard link can be made there. *)
Inductive output_state := OutputFree | OutputExists | OutputDirectory | NoHardLinks.

(** The bytes published at the output path. *)
Definition create_evidence_bundle (verdict_file : file_view) (output : output_state) (context : dict)
    (key : private_key) (materials : list EvidenceMaterial) (force require_valid_record : bool)
  : evidence (dict * bytes) :=
  match output with
  | OutputDirectory =>
      let* _ := bundle_contents verdict_file context key materials require_valid_record in
      Err (OutputRefused "directory")
  | _ =>
      let* contents := bundle_contents verdict_file context key materials require_valid_record in
      if force then Ok contents
      else match output with
           | OutputExists => Err (OutputRefused "exists")
           | NoHardLinks => Err (OutputRefused "links")
           | _ => Ok contents
           end
  end.

Definition admission_decision (verdict : dict) : str :=
  if eq_str (dget verdict (u "verdict")) (u "PASS") && is_true_v (dget verdict (u "passed")) then u "ALLOW" else u "DENY".

Record FinalizedEvidence := { fe_manifest : dict; fe_record_report : report; fe_decision : str }.

(** [published] is what is read back from the output path. *)
Definition finalize_evidence_bundle (verdict_file : file_view) (output : output_state) (expected_context : dict)
    (key : private_key) (materials : list EvidenceMaterial) (force : bool) (published : bytes -> file_view)
  : evidence FinalizedEvidence :=
  let* (_, archive) := create_evidence_bundle verdict_file output expected_context key materials force true in
  let* inspected := inspect_evidence_bundle (published archive) in
  let* _ := verify_bundle_context inspected expected_context in
  let* verdict := ib_verdict inspected in
  let record_report := verify_record (VDict verdict) in
  if negb (r_ok record_report) then Err InvalidRecord
  else
    let* manifest := ib_manifest inspected in
    Ok {| fe_manifest := manifest; fe_record_report := record_report; fe_decision := admission_decision verdict |}.
End Bundle.
