(* ===== verification/TrustedFinalizer.v ===== *)
(** The trusted finalizer (trusted_finalizer.py): the handoff that binds a record to
    external source and context, the sealing of verified inputs in a signed bundle, and
    the verification of a finalized bundle with the raw-Git derivation it carries. *)
From S2P Require Export EvidenceBundle AgentChange.
Local Open Scope Z_scope.

Definition FINALIZER_HANDOFF_FORMAT : str := u "EVOGUARD_TRUSTED_FINALIZER_HANDOFF_V1".
Definition FINALIZER_HANDOFF_ROLE : str := u "trusted-finalizer-handoff".
Definition FINALIZER_DERIVATION_ROLE : str := u "trusted-finalizer-git-bindings".
Definition MAX_FINALIZER_HANDOFF_BYTES : Z := 512 * 1024.
Definition _HANDOFF_KEYS : list str := us ["format"; "source"; "context"; "record"].
Definition _DESCRIPTOR_KEYS : list str := us ["sha256"; "size"].

(** The messages of [FinalizerHandoffError]; [Evidence] is an [EvidenceBundleError] that
    is not converted. *)
Inductive handoff_error :=
| BadSource (what : string)
| BadHandoff (what : string)
| BadRecord
| BadContext (e : bundle_error)
| Evidence (e : bundle_error)
| BadBundle (e : bundle_error)
| HandoffMismatch (what : string)
| DerivationMismatch (e : option derivation_error)
| ReservedRole (roles : list str)
| NotPreserved (what : string)
| DerivationRequired.

Definition handoff_result (A : Type) : Type := result handoff_error A.

(** [raise ... from exc] of an error of the evidence layer. *)
Definition converted {A} (wrap : bundle_error -> handoff_error) (r : evidence A) : handoff_result A :=
  match r with Ok a => Ok a | Err e => Err (wrap e) end.

Section Finalizer.
Context `{UnicodeDB} (parse_zip : zip_parser).

Definition validate_finalizer_source (source : dict) : handoff_result dict :=
  if negb (keys_eq source _SOURCE_KEYS) then Err (BadSource "keys")
  else let* _ := require_all (source_checks source) BadSource in Ok source.

Definition _validate_record_descriptor (record : dict) : handoff_result dict :=
  if negb (keys_eq record _DESCRIPTOR_KEYS) then Err (BadHandoff "record keys")
  else
    let* _ := require_all [("record.sha256", v_sha256 (dget record (u "sha256")));
                           ("record.size", int_between (dget record (u "size")) 1 MAX_VERDICT_BYTES)] BadHandoff in
    Ok record.

Definition validate_finalizer_source_context (source context : dict) : handoff_result unit :=
  require_all (map (fun field => (field, py_eq (dget context (u field)) (dget source (u field)))) ["base_sha"; "head_sha"])
    BadSource.

(** The bytes of a record with its value and its report. *)
Definition _record_snapshot (file : file_view) : handoff_result (bytes * dict * report) :=
  let* verdict_bytes := converted Evidence (_read_regular_file file MAX_VERDICT_BYTES "verdict") in
  let* verdict := converted Evidence (_load_json_object verdict_bytes "verdict") in
  let record_report := verify_record (VDict verdict) in
  if r_ok record_report then Ok (verdict_bytes, verdict, record_report) else Err BadRecord.

(** The payload and the bytes that are written. *)
Definition create_finalizer_handoff (verdict_file : file_view) (source context : dict) : handoff_result (dict * bytes) :=
  let* (verdict_bytes, verdict, _) := _record_snapshot verdict_file in
  let* verified_context := converted Evidence (validate_evidence_context context (Some verdict)) in
  let* verified_source := validate_finalizer_source source in
  let* _ := validate_finalizer_source_context verified_source verified_context in
  let payload := dict_of [
    ("format", VStr FINALIZER_HANDOFF_FORMAT); ("source", VDict verified_source); ("context", VDict verified_context);
    ("record", VDict (dict_of [("sha256", VStr (sha256_hex verdict_bytes)); ("size", VInt (zlen verdict_bytes))]))] in
  let* data := converted Evidence (_canonical_json payload) in
  if MAX_FINALIZER_HANDOFF_BYTES <? zlen data then Err (BadHandoff "size") else Ok (payload, data).

(** A canonical handoff: its bytes and the three objects of its payload. *)
Record InspectedFinalizerHandoff := {
  ih_bytes : bytes;
  ih_source : dict;
  ih_context : dict;
  ih_record : dict }.

Definition inspect_finalizer_handoff (file : file_view) : handoff_result InspectedFinalizerHandoff :=
  let* handoff_bytes := converted Evidence (_read_regular_file file MAX_FINALIZER_HANDOFF_BYTES "finalizer handoff") in
  let* payload := converted Evidence (_load_json_object handoff_bytes "finalizer handoff") in
  let* canonical := converted Evidence (_canonical_json payload) in
  if negb (bytes_eqb canonical handoff_bytes) then Err (BadHandoff "canonical")
  else if negb (keys_eq payload _HANDOFF_KEYS) then Err (BadHandoff "keys")
  else if negb (eq_str (dget payload (u "format")) FINALIZER_HANDOFF_FORMAT) then Err (BadHandoff "format")
  else
    match dget payload (u "source"), dget payload (u "context"), dget payload (u "record") with
    | VDict source, VDict context, VDict record =>
        let* verified_source := validate_finalizer_source source in
        let* verified_context := converted BadContext (validate_evidence_context context None) in
        let* _ := _validate_record_descriptor record in
        let* _ := validate_finalizer_source_context verified_source verified_context in
        Ok {| ih_bytes := handoff_bytes; ih_source := source; ih_context := context; ih_record := record |}
    | _, _, _ => Err (BadHandoff "objects")
    end.

(** A handoff matched to external source and context and to exact record bytes. *)
Record VerifiedFinalizerHandoff := {
  vh_inspection : InspectedFinalizerHandoff;
  vh_verdict_bytes : bytes;
  vh_verdict : dict;
  vh_record_report : report }.

Definition verify_finalizer_handoff (inspected : InspectedFinalizerHandoff) (verdict_file : file_view)
    (expected_source expected_context : dict) : handoff_result VerifiedFinalizerHandoff :=
  let* verified_source := validate_finalizer_source expected_source in
  let* preliminary_context := converted BadContext (validate_evidence_context expected_context None) in
  let* _ := validate_finalizer_source_context verified_source preliminary_context in
  if negb (py_eq (VDict (ih_source inspected)) (VDict verified_source)) then Err (HandoffMismatch "source")
  else if negb (py_eq (VDict (ih_context inspected)) (VDict preliminary_context)) then Err (HandoffMismatch "context")
  else
    let* (verdict_bytes, verdict, record_report) := _record_snapshot verdict_file in
    if negb (eq_str (dget (ih_record inspected) (u "sha256")) (sha256_hex verdict_bytes)
             && py_eq (dget (ih_record inspected) (u "size")) (VInt (zlen verdict_bytes)))
    then Err (HandoffMismatch "record")
    else
      let* verified_context := converted BadContext (validate_evidence_context preliminary_context (Some verdict)) in
      let* handoff_context := converted BadContext (validate_evidence_context (ih_context inspected) (Some verdict)) in
      if negb (py_eq (VDict handoff_context) (VDict verified_context)) then Err (HandoffMismatch "context changed")
      else Ok {| vh_inspection := inspected; vh_verdict_bytes := verdict_bytes; vh_verdict := verdict;
                 vh_record_report := record_report |}.

Definition finalizer_decision (record : dict) : str :=
  if eq_str (dget record (u "verdict")) (u "PASS") && is_true_v (dget record (u "passed")) then u "ALLOW" else u "DENY".

(** A private snapshot: a regular file that holds [data] and does not change. *)
Definition snapshot_stat (data : bytes) : file_stat :=
  {| fs_regular := true; fs_link_like := false; fs_identity := (0, 0); fs_size := zlen data; fs_times := (0, 0) |}.
Definition sealed_snapshot (data : bytes) : file_view :=
  {| fv_before := Some (snapshot_stat data); fv_opened := Some (snapshot_stat data); fv_content := Some data;
     fv_after := Some (snapshot_stat data) |}.

(** ** Sealing *)

Definition derivation_result {A} (r : derived A) : handoff_result A :=
  match r with Ok a => Ok a | Err e => Err (DerivationMismatch (Some e)) end.

Definition _verified_derivation_bytes (expected_derivation : option dict) (verdict expected_source expected_context : dict)
  : handoff_result (option bytes) :=
  match expected_derivation with
  | None => Ok None
  | Some expected =>
      let* validated := derivation_result (_validate_derived_bindings expected) in
      let* derivation_bytes := derivation_result (finalizer_bindings_bytes validated) in
      let* derivation := derivation_result (inspect_finalizer_bindings_bytes derivation_bytes) in
      let* (derived_source, derived_context) := derivation_result (context_from_verified_bindings derivation verdict) in
      if py_eq (VDict derived_source) (VDict expected_source) && py_eq (VDict derived_context) (VDict expected_context)
      then Ok (Some derivation_bytes) else Err (DerivationMismatch None)
  end.

Definition reserved_roles : list str := [FINALIZER_HANDOFF_ROLE; FINALIZER_DERIVATION_ROLE].

Definition _trusted_finalizer_materials (handoff_bytes : bytes) (derivation_bytes : option bytes)
    (materials : list EvidenceMaterial) : handoff_result (list EvidenceMaterial) :=
  let supplied_reserved_roles := sorted_set (List.filter (fun r => str_in r reserved_roles) (map em_role materials)) in
  if negb (is_empty supplied_reserved_roles) then Err (ReservedRole supplied_reserved_roles)
  else
    Ok ({| em_role := FINALIZER_HANDOFF_ROLE; em_file := sealed_snapshot handoff_bytes |}
        :: match derivation_bytes with
           | Some data => [{| em_role := FINALIZER_DERIVATION_ROLE; em_file := sealed_snapshot data |}]
           | None => []
           end ++ materials).

(** [len(found) == 1 and found[0].data == data] *)
Definition exactly_one (found : list VerifiedMaterial) (data : bytes) : bool :=
  match found with [m] => bytes_eqb (vm_data m) data | _ => false end.

Definition _verify_sealed_finalizer_inputs (sealed : InspectedBundle) (handoff : VerifiedFinalizerHandoff)
    (inspected_handoff_bytes : bytes) (derivation_bytes : option bytes) (expected_context : dict) (decision : str)
  : handoff_result unit :=
  let* _ := converted BadBundle (verify_bundle_context sealed expected_context) in
  let derivation_materials := materials_for sealed FINALIZER_DERIVATION_ROLE in
  require_all [
    ("handoff", exactly_one (materials_for sealed FINALIZER_HANDOFF_ROLE) inspected_handoff_bytes);
    ("unexpected derivation", match derivation_bytes with None => is_empty derivation_materials | Some _ => true end);
    ("derivation", match derivation_bytes with None => true | Some data => exactly_one derivation_materials data end);
    ("verdict", bytes_eqb (ib_verdict_bytes sealed) (vh_verdict_bytes handoff));
    ("decision", decision =s? finalizer_decision (vh_verdict handoff))] NotPreserved.

(** [published] is what is read back from the output path, twice: by the writer of the
    bundle and by the finalizer. *)
Definition _seal_finalizer_bundle (handoff_file verdict_file : file_view) (output : output_state)
    (expected_source expected_context : dict) (key : private_key) (expected_derivation : option dict)
    (materials : list EvidenceMaterial) (force : bool) (published reread : bytes -> file_view)
  : handoff_result (FinalizedEvidence * VerifiedFinalizerHandoff) :=
  let* inspected := inspect_finalizer_handoff handoff_file in
  let* handoff := verify_finalizer_handoff inspected verdict_file expected_source expected_context in
  let* derivation_bytes := _verified_derivation_bytes expected_derivation (vh_verdict handoff) expected_source expected_context in
  let* trusted_materials := _trusted_finalizer_materials (ih_bytes inspected) derivation_bytes materials in
  let record := sealed_snapshot (vh_verdict_bytes handoff) in
  let* finalized := converted BadBundle (finalize_evidence_bundle parse_zip record output expected_context key
                                           trusted_materials force published) in
  let* (_, archive) := converted BadBundle (create_evidence_bundle record output expected_context key
                                              trusted_materials force true) in
  let* sealed := converted Evidence (inspect_evidence_bundle parse_zip (reread archive)) in
  let* _ := _verify_sealed_finalizer_inputs sealed handoff (ih_bytes inspected) derivation_bytes expected_context
              (fe_decision finalized) in
  Ok (finalized, handoff).

Definition seal_finalizer_bundle (handoff_file verdict_file : file_view) (output : output_state)
    (expected_source expected_context : dict) (key : private_key) (expected_derivation : option dict)
    (materials : list EvidenceMaterial) (force : bool) (published reread : bytes -> file_view)
  : handoff_result (FinalizedEvidence * VerifiedFinalizerHandoff) :=
  match expected_derivation with
  | None => Err DerivationRequired
  | Some _ => _seal_finalizer_bundle handoff_file verdict_file output expected_source expected_context key
                expected_derivation materials force published reread
  end.

Definition seal_finalizer_bundle_without_derivation (handoff_file verdict_file : file_view) (output : output_state)
    (expected_source expected_context : dict) (key : private_key) (materials : list EvidenceMaterial) (force : bool)
    (published reread : bytes -> file_view) : handoff_result (FinalizedEvidence * VerifiedFinalizerHandoff) :=
  _seal_finalizer_bundle handoff_file verdict_file output expected_source expected_context key None materials force
    published reread.

(** ** Verification *)

Record VerifiedFinalizedBundle := {
  vb_bundle : InspectedBundle;
  vb_record_report : report;
  vb_handoff : VerifiedFinalizerHandoff;
  vb_derivation : option dict;
  vb_decision : str }.

Definition verify_finalized_bundle_without_derivation (file : file_view) (trusted_key : public_key)
    (expected_source expected_context : dict) : handoff_result VerifiedFinalizedBundle :=
  let* b := converted BadBundle (inspect_evidence_bundle parse_zip file) in
  let* _ := converted BadBundle (verify_bundle_signature b trusted_key) in
  let* _ := converted BadBundle (verify_bundle_context b expected_context) in
  let* verdict := converted Evidence (ib_verdict b) in
  let record_report := verify_record (VDict verdict) in
  if negb (r_ok record_report) then Err BadRecord
  else
    match materials_for b FINALIZER_HANDOFF_ROLE with
    | [m] =>
        let* inspected := inspect_finalizer_handoff (sealed_snapshot (vm_data m)) in
        let* handoff := verify_finalizer_handoff inspected (sealed_snapshot (ib_verdict_bytes b)) expected_source
                          expected_context in
        Ok {| vb_bundle := b; vb_record_report := record_report; vb_handoff := handoff; vb_derivation := None;
              vb_decision := finalizer_decision verdict |}
    | _ => Err (NotPreserved "handoff")
    end.

Definition verify_finalized_bundle (file : file_view) (trusted_key : public_key) (expected_source expected_context : dict)
  : handoff_result VerifiedFinalizedBundle :=
  let* verified := verify_finalized_bundle_without_derivation file trusted_key expected_source expected_context in
  match materials_for (vb_bundle verified) FINALIZER_DERIVATION_ROLE with
  | [m] =>
      let* derivation := derivation_result (inspect_finalizer_bindings_bytes (vm_data m)) in
      let* (derived_source, derived_context) :=
        derivation_result (context_from_verified_bindings derivation (vh_verdict (vb_handoff verified))) in
      let inspection := vh_inspection (vb_handoff verified) in
      if py_eq (VDict derived_source) (VDict (ih_source inspection))
         && py_eq (VDict derived_context) (VDict (ih_context inspection))
      then Ok {| vb_bundle := vb_bundle verified; vb_record_report := vb_record_report verified;
                 vb_handoff := vb_handoff verified; vb_derivation := Some derivation; vb_decision := vb_decision verified |}
      else Err (DerivationMismatch None)
  | _ => Err (NotPreserved "derivation")
  end.
End Finalizer.
