(* ===== verification/FinalizerSound.v ===== *)
(** What an accepted bundle proves: the manifest that is signed commits to the record
    and to every material, and a finalized bundle that allows carries a verified pass
    that the raw-Git derivation binds to the expected revisions. *)
From S2P Require Export TrustedFinalizer DerivationSound.
Local Open Scope Z_scope.

Section Sound.
Context `{UnicodeDB} (parse_zip : zip_parser).

(** ** Inspection *)

Lemma member_ok members name limit data : read_member members name limit = Ok data -> zlen data <= limit.
Proof.
  unfold read_member. destruct (member_content name members) as [[info content]|]; [|done].
  unfold _read_archive_member. case_if; [done|]. destruct content as [content|]; [|done]. cbn zeta. case_if; [done|].
  intros <-%Ok_inj. unfold zlen. brefl. lia.
Qed.

(** The material that a row declares. *)
Definition as_declared (row : material_row) (m : VerifiedMaterial) : Prop :=
  vm_role m = mr_role row /\ vm_archive_path m = mr_path row /\ vm_sha256 m = mr_sha256 row /\ vm_size m = mr_size row /\
  sha256_hex (vm_data m) = mr_sha256 row /\ zlen (vm_data m) = mr_size row.

Lemma read_materials_ok members rows ms :
  read_materials members rows = Ok ms -> Forall2 as_declared rows ms.
Proof.
  revert ms. induction rows as [|row rows IH]; intros ms; cbn [read_materials]; [by intros <-%Ok_inj; constructor|].
  intros (data & _ & Hd)%rbind_ok. case_if; [done|]. brefl.
  apply rbind_ok in Hd as (rest & Hr & <-%Ok_inj). constructor; [|by apply IH]. done.
Qed.

(** What an inspection found, in terms of the manifest bytes alone: the manifest, its
    context, record and rows, and the bytes they describe. *)
Record inspected (b : InspectedBundle) : Prop := {
  in_manifest : exists names context record rows,
    inspect_manifest (ib_manifest_bytes b) names = Ok (context, record, rows) /\
    zlen (ib_verdict_bytes b) = row_size record /\
    dget record (u "sha256") = VStr (sha256_hex (ib_verdict_bytes b)) /\ Forall2 as_declared rows (ib_materials b);
  in_signature : length (ib_signature b) = 64%nat;
  in_verdict : exists verdict, ib_verdict b = Ok verdict }.

Lemma decode_signature_ok encoded signature : decode_signature encoded = Ok signature -> length signature = 64%nat.
Proof.
  unfold decode_signature. case_if; [done|]. destruct (b64decode encoded) as [s|]; [|done]. case_if; [done|].
  intros <-%Ok_inj. by brefl.
Qed.

Lemma inspection_ok file b :
  inspect_evidence_bundle parse_zip file = Ok b ->
  inspected b /\ exists snapshot encoded, _read_regular_file file MAX_ARCHIVE_BYTES "evidence bundle" = Ok snapshot /\
    _archive_bytes ([(MANIFEST_PATH, ib_manifest_bytes b); (SIGNATURE_PATH, encoded); (VERDICT_PATH, ib_verdict_bytes b)]
                    ++ map (fun m => (vm_archive_path m, vm_data m)) (ib_materials b)) = Some snapshot.
Proof.
  unfold inspect_evidence_bundle. intros (snapshot & Hf & (count & _ & Hi)%rbind_ok)%rbind_ok.
  destruct (parse_zip snapshot) as [[comment members]|]; [|done]. cbn zeta in Hi.
  apply rbind_ok in Hi as (? & _ & (? & _ & (mb & Hmb & ([[context record] rows] & Hm & (vb & Hvb & Hi)%rbind_ok)%rbind_ok)%rbind_ok)%rbind_ok).
  destruct (negb (zlen vb =? row_size record) || _) eqn:E1; [done|].
  apply rbind_ok in Hi as (verdict & Hv & (described & _ & Hi)%rbind_ok).
  destruct (py_eq (VDict described) (VDict record)); cbn [negb] in Hi; [|done].
  apply rbind_ok in Hi as (? & _ & (encoded & _ & (signature & Hs & (ms & Hms & Hi)%rbind_ok)%rbind_ok)%rbind_ok).
  destruct (_archive_bytes _) as [archive|] eqn:Ea; [|done]. destruct (bytes_eqb archive snapshot) eqn:Eb; [|done].
  apply bytes_eqb_eq in Eb as ->. apply Ok_inj in Hi as <-. cbn [ib_manifest_bytes ib_verdict_bytes ib_materials ib_signature].
  apply orb_false_iff in E1 as [E1 E2]. apply negb_false_iff in E1, E2. apply Z.eqb_eq in E1. apply eq_str_eq in E2.
  split; [|by exists snapshot, encoded]. split; cbn.
  - eexists _, context, record, rows. split; [exact Hm|]. split_and!; [done|done|by eapply read_materials_ok].
  - by eapply decode_signature_ok.
  - by exists verdict.
Qed.

(** The rows of a manifest do not depend on the names the archive lists. *)
Lemma manifest_names_irrelevant manifest_bytes names names' c r rows c' r' rows' :
  inspect_manifest manifest_bytes names = Ok (c, r, rows) ->
  inspect_manifest manifest_bytes names' = Ok (c', r', rows') -> c = c' /\ r = r' /\ rows = rows'.
Proof.
  unfold inspect_manifest. intros (m & Hm & H1)%rbind_ok (m' & Hm' & H2)%rbind_ok. rewrite Hm in Hm'. apply Ok_inj in Hm' as <-.
  apply rbind_ok in H1 as (cn & Hc & H1), H2 as (cn' & Hc' & H2). rewrite Hc in Hc'. apply Ok_inj in Hc' as <-.
  destruct (negb (bytes_eqb cn manifest_bytes)); [done|].
  apply rbind_ok in H1 as (? & _ & H1), H2 as (? & _ & H2). destruct (negb (eq_str _ _)); [done|].
  destruct (dget m (u "context")) as [| | | | | |context]; try done.
  apply rbind_ok in H1 as (? & _ & (? & _ & H1)%rbind_ok), H2 as (? & _ & (? & _ & H2)%rbind_ok).
  destruct (dget m (u "record")) as [| | | | | |record]; try done. destruct (dget m (u "materials")) as [| | | | |items|]; try done.
  apply rbind_ok in H1 as (? & _ & (? & _ & (rs & Hr & (? & _ & H1)%rbind_ok)%rbind_ok)%rbind_ok).
  apply rbind_ok in H2 as (? & _ & (? & _ & (rs' & Hr' & (? & _ & H2)%rbind_ok)%rbind_ok)%rbind_ok).
  rewrite Hr in Hr'. apply Ok_inj in Hr' as <-. injection H1 as <- <- <-. by injection H2 as <- <- <-.
Qed.

(** Two byte strings that one declared size and digest describe. *)
Definition committed (x y : bytes) : Prop := zlen x = zlen y /\ sha256_hex x = sha256_hex y.

(** Two materials that one row describes. *)
Definition committed_material (m m' : VerifiedMaterial) : Prop :=
  vm_role m = vm_role m' /\ vm_archive_path m = vm_archive_path m' /\ vm_sha256 m = vm_sha256 m' /\ vm_size m = vm_size m' /\
  committed (vm_data m) (vm_data m').

Lemma declared_same rows ms ms' :
  Forall2 as_declared rows ms -> Forall2 as_declared rows ms' -> Forall2 committed_material ms ms'.
Proof.
  intros Hf. revert ms'. induction Hf as [|row m rows ms Hm Hf IH]; intros ms' Hf'; inversion Hf' as [|? m' ? ms2 Hm' Hf2]; subst;
    constructor; [|by apply IH].
  destruct Hm as (? & ? & ? & ? & ? & ?), Hm' as (? & ? & ? & ? & ? & ?). repeat split; congruence.
Qed.

(** What the manifest of a bundle describes. *)
Definition contents (b : InspectedBundle) : list bytes := ib_verdict_bytes b :: map vm_data (ib_materials b).

Lemma committed_equal (x y : bytes) hashed : committed x y -> In x hashed -> In y hashed -> collision_free hashed -> x = y.
Proof. intros [_ Hd] Hx Hy Hf. by apply Hf. Qed.

Lemma materials_equal ms ms' hashed :
  Forall2 committed_material ms ms' -> (forall m, In m ms -> In (vm_data m) hashed) ->
  (forall m, In m ms' -> In (vm_data m) hashed) -> collision_free hashed -> ms = ms'.
Proof.
  induction 1 as [|[r p d s x] [r' p' d' s' x'] ms ms' (H1 & H2 & H3 & H4 & Hx) _ IH]; intros Hm Hm' Hf; [done|].
  cbn [vm_role vm_archive_path vm_sha256 vm_size vm_data] in *. subst. f_equal.
  - f_equal. apply (committed_equal _ _ hashed); [done|apply (Hm _ (or_introl eq_refl))|apply (Hm' _ (or_introl eq_refl))|done].
  - apply IH; [intros m Hin; apply Hm; by right|intros m Hin; apply Hm'; by right|done].
Qed.

(** C24: The manifest bytes, which are what is signed, commit to the whole bundle: when two
    bundles pass inspection with the same manifest bytes, whatever else the two archives
    hold, their verdict bytes have one length and one SHA-256 digest, their materials
    agree one by one in role, path, declared size and digest, and the bytes of each pair
    have that one length and digest; and when SHA-256 tells the contents of these two
    bundles apart, the verdict bytes and the materials are the same. *)
Theorem signed_manifest_commits file file' b b' :
  inspect_evidence_bundle parse_zip file = Ok b -> inspect_evidence_bundle parse_zip file' = Ok b' ->
  ib_manifest_bytes b = ib_manifest_bytes b' ->
  committed (ib_verdict_bytes b) (ib_verdict_bytes b') /\
  Forall2 committed_material (ib_materials b) (ib_materials b') /\
  (collision_free (contents b ++ contents b') ->
     ib_verdict_bytes b = ib_verdict_bytes b' /\ ib_materials b = ib_materials b').
Proof.
  intros [[(n & c & r & rows & Hm & Hl & Hd & Hf) _ _] _]%inspection_ok.
  intros [[(n' & c' & r' & rows' & Hm' & Hl' & Hd' & Hf') _ _] _]%inspection_ok Heq. rewrite Heq in Hm.
  destruct (manifest_names_irrelevant _ _ _ _ _ _ _ _ _ Hm Hm') as (_ & <- & <-). rewrite Hd in Hd'. injection Hd' as Hd'.
  pose proof (declared_same _ _ _ Hf Hf') as Hms.
  assert (Hv : committed (ib_verdict_bytes b) (ib_verdict_bytes b')) by (split; congruence).
  split; [done|]. split; [done|]. intros Hc. unfold contents in Hc. split.
  - apply (committed_equal _ _ _ Hv) in Hc; [done|apply in_or_app; left; by left|apply in_or_app; right; by left].
  - apply (materials_equal _ _ _ Hms) in Hc; [done|intros m Hin..]; apply in_or_app;
      [left|right]; right; by apply in_map.
Qed.

(** ** Verification of a finalized bundle *)

Lemma manifest_parts manifest_bytes names c r rows :
  inspect_manifest manifest_bytes names = Ok (c, r, rows) ->
  exists m, _load_json_object manifest_bytes "bundle manifest" = Ok m /\ dget m (u "record") = VDict r.
Proof.
  unfold inspect_manifest. intros (m & Hm & (cn & _ & Hi)%rbind_ok)%rbind_ok. exists m. split; [done|].
  destruct (negb _); [done|]. apply rbind_ok in Hi as (? & _ & Hi). destruct (negb _); [done|].
  destruct (dget m (u "context")) as [| | | | | |context]; try done.
  apply rbind_ok in Hi as (? & _ & (? & _ & Hi)%rbind_ok).
  destruct (dget m (u "record")) as [| | | | | |record]; try done. destruct (dget m (u "materials")) as [| | | | |items|]; try done.
  apply rbind_ok in Hi as (? & _ & (? & _ & (rs & _ & (? & _ & Hi)%rbind_ok)%rbind_ok)%rbind_ok). by injection Hi as <- <- <-.
Qed.

(** A private snapshot is read as the bytes it was given. *)
Lemma sealed_read data limit label d : _read_regular_file (sealed_snapshot data) limit label = Ok d -> d = data.
Proof.
  unfold _read_regular_file, sealed_snapshot. cbn [fv_before fv_opened fv_content fv_after].
  repeat (case_if; [done|]). cbn zeta. repeat (case_if; [done|]). intros <-%Ok_inj. brefl. cbn [fs_size snapshot_stat] in *.
  rewrite first_bytes_take in *. unfold zlen in *. apply take_ge. rewrite length_take in *. lia.
Qed.

Lemma converted_ok {A} wrap (r : evidence A) a : converted wrap r = Ok a -> r = Ok a.
Proof. unfold converted. destruct r; congruence. Qed.

Lemma derivation_result_ok {A} (r : derived A) a : derivation_result r = Ok a -> r = Ok a.
Proof. unfold derivation_result. destruct r; congruence. Qed.

Lemma verify_context_ok b context x :
  verify_bundle_context b context = Ok x ->
  exists manifest, ib_manifest b = Ok manifest /\ py_eq (dget manifest (u "context")) (VDict context) = true.
Proof.
  unfold verify_bundle_context. intros (v & _ & (e & He%evidence_context_ok & (m & Hm & Hc)%rbind_ok)%rbind_ok)%rbind_ok.
  destruct He as [-> _]. exists m. split; [done|]. by destruct (py_eq _ _).
Qed.

Lemma verify_signature_ok b key x :
  verify_bundle_signature b key = Ok x -> pk_verify key (ib_signature b) (SIGNING_DOMAIN ++ ib_manifest_bytes b) = true.
Proof.
  unfold verify_bundle_signature, verify_bytes_with_key_id. case_if; intros (m & _ & Hv)%rbind_ok; destruct (negb (eq_str _ _)); try done.
  by destruct (pk_verify _ _ _).
Qed.

Lemma handoff_ok i file source context h :
  verify_finalizer_handoff i file source context = Ok h ->
  vh_inspection h = i /\ py_eq (VDict (ih_source i)) (VDict source) = true /\
  _read_regular_file file MAX_VERDICT_BYTES "verdict" = Ok (vh_verdict_bytes h) /\
  _load_json_object (vh_verdict_bytes h) "verdict" = Ok (vh_verdict h).
Proof.
  unfold verify_finalizer_handoff. intros (s & Hs & (c & _ & (? & _ & Hv)%rbind_ok)%rbind_ok)%rbind_ok.
  assert (s = source) as ->.
  { revert Hs. unfold validate_finalizer_source. case_if; [done|]. by intros (? & _ & <-%Ok_inj)%rbind_ok. }
  destruct (py_eq (VDict (ih_source i)) (VDict source)) eqn:Es; cbn [negb] in Hv; [|done].
  destruct (negb (py_eq _ _)); [done|]. apply rbind_ok in Hv as ([[vb v] rep] & Hr & Hv).
  destruct (negb _); [done|]. apply rbind_ok in Hv as (? & _ & (? & _ & Hv)%rbind_ok). destruct (negb _); [done|].
  apply Ok_inj in Hv as <-. cbn [vh_inspection vh_verdict_bytes vh_verdict]. split; [done|]. split; [done|].
  unfold _record_snapshot in Hr. apply rbind_ok in Hr as (vb' & Hb%converted_ok & (v' & Hl%converted_ok & Hr)%rbind_ok).
  cbn zeta in Hr. destruct (r_ok _); [|done]. by injection Hr as <- <- _.
Qed.

(** Values that agree in turn, with a digest in the end, are that digest. *)
Lemma agreed_digest a b c key digest :
  py_eq (VDict a) (VDict b) = true -> py_eq (VDict b) (VDict c) = true ->
  dget a key = VStr digest -> dget c key = VStr digest.
Proof.
  unfold dget. intros Hab Hbc Ha. destruct (dlookup key a) as [v|] eqn:E; [|done]. subst v.
  destruct (py_eq_dict_lookup _ _ _ _ Hab E) as (w & Hw & Hvw). rewrite py_eq_str_r in Hvw. apply eq_str_eq in Hvw as ->.
  destruct (py_eq_dict_lookup _ _ _ _ Hbc Hw) as (x & -> & Hwx). rewrite py_eq_str_r in Hwx. by apply eq_str_eq in Hwx.
Qed.

Lemma inspected_bindings_ok data derivation :
  inspect_finalizer_bindings_bytes data = Ok derivation -> _validate_derived_bindings derivation = Ok derivation.
Proof.
  unfold inspect_finalizer_bindings_bytes. case_if; [done|]. destruct (_load_json_object _ _) as [p|]; [|done].
  destruct (_canonical_json p); [|done]. destruct (bytes_eqb _ _); [|done].
  intros Hv. assert (derivation = p) as ->; [|done]. revert Hv. unfold _validate_derived_bindings.
  repeat (case_if; [done|]). destruct (dget p (u "source")); try done. by intros (? & _ & (? & _ & <-%Ok_inj)%rbind_ok)%rbind_ok.
Qed.

Lemma validated_fields d x :
  _validate_derived_bindings d = Ok x ->
  v_sha256 (dget d (u "candidate_sha256")) = true /\
  exists source, dget d (u "source") = VDict source /\ v_git_sha (dget source (u "base_sha")) = true /\
    v_git_sha (dget source (u "head_sha")) = true.
Proof.
  unfold _validate_derived_bindings. repeat (case_if; [done|]). destruct (dget d (u "source")) as [| | | | | |source]; try done.
  intros (? & Hs & (? & Hc & _)%rbind_ok)%rbind_ok. rewrite require_all_ok in Hc.
  split; [apply (Hc ("candidate_sha256"%string, _)); do 5 right; by left|]. exists source. split; [done|].
  revert Hs. unfold _validate_source. case_if; [done|]. intros (? & Hq & _)%rbind_ok. rewrite require_all_ok in Hq.
  split; [apply (Hq ("source.base_sha"%string, _)); do 3 right; by left|apply (Hq ("source.head_sha"%string, _)); do 4 right; by left].
Qed.

(** The verdict of the handoff is the verdict of the bundle. *)
Lemma without_derivation_ok file key source context vb :
  verify_finalized_bundle_without_derivation parse_zip file key source context = Ok vb ->
  let b := vb_bundle vb in
  inspected b /\ pk_verify key (ib_signature b) (SIGNING_DOMAIN ++ ib_manifest_bytes b) = true /\
  (exists manifest, ib_manifest b = Ok manifest /\ py_eq (dget manifest (u "context")) (VDict context) = true) /\
  ib_verdict b = Ok (vh_verdict (vb_handoff vb)) /\
  r_ok (verify_record (VDict (vh_verdict (vb_handoff vb)))) = true /\
  py_eq (VDict (ih_source (vh_inspection (vb_handoff vb)))) (VDict source) = true /\
  vb_decision vb = finalizer_decision (vh_verdict (vb_handoff vb)).
Proof.
  unfold verify_finalized_bundle_without_derivation.
  intros (b & Hb%converted_ok & (? & Hs%converted_ok & (? & Hc%converted_ok & (v & Hv%converted_ok & Hd)%rbind_ok)%rbind_ok)%rbind_ok)%rbind_ok.
  cbn zeta in Hd. destruct (r_ok (verify_record (VDict v))) eqn:Er; cbn [negb] in Hd; [|done].
  destruct (materials_for b FINALIZER_HANDOFF_ROLE) as [|m [|]]; try done.
  apply rbind_ok in Hd as (i & _ & (h & Hh & <-%Ok_inj)%rbind_ok). cbn [vb_bundle vb_handoff vb_decision].
  apply handoff_ok in Hh as (<- & Hsrc & Hread & Hload). apply sealed_read in Hread. rewrite Hread in Hload.
  assert (vh_verdict h = v) as ->.
  { unfold ib_verdict in Hv. revert Hv Hload. unfold _load_json_object. destruct (utf8_decode _); [|done].
    destruct (strict_json_loads _) as [[]|]; congruence. }
  split_and!; [by apply inspection_ok in Hb as [? _]|by eapply verify_signature_ok|by eapply verify_context_ok|done..].
Qed.

(** C14: What an admission rests on: when a finalized bundle verifies and allows, the
    trusted key verified a signature over the exact manifest bytes, the manifest names
    the expected context and the digest of the verdict bytes, those bytes hold a
    semantically valid record that passed, and the raw-Git derivation inside the bundle
    binds that record: its revisions are the expected ones and the record attests the
    candidate digest that was derived. *)
Theorem finalized_allow_sound file key source context vb :
  verify_finalized_bundle parse_zip file key source context = Ok vb -> vb_decision vb = u "ALLOW" ->
  exists manifest record verdict attestation derivation derived_source derived_context base_sha head_sha candidate,
    let b := vb_bundle vb in
    pk_verify key (ib_signature b) (SIGNING_DOMAIN ++ ib_manifest_bytes b) = true /\
    ib_manifest b = Ok manifest /\ py_eq (dget manifest (u "context")) (VDict context) = true /\
    dget manifest (u "record") = VDict record /\ dget record (u "sha256") = VStr (sha256_hex (ib_verdict_bytes b)) /\
    ib_verdict b = Ok verdict /\ r_ok (verify_record (VDict verdict)) = true /\
    dget verdict (u "verdict") = VStr (u "PASS") /\ dget verdict (u "passed") = VBool true /\
    vb_derivation vb = Some derivation /\ dget verdict (u "attestation") = VDict attestation /\
    context_from_verified_bindings derivation verdict = Ok (derived_source, derived_context) /\
    dget derived_source (u "base_sha") = VStr base_sha /\ dget source (u "base_sha") = VStr base_sha /\
    dget derived_source (u "head_sha") = VStr head_sha /\ dget source (u "head_sha") = VStr head_sha /\
    dget derivation (u "candidate_sha256") = VStr candidate /\ dget attestation (u "candidate_sha256") = VStr candidate.
Proof.
  unfold verify_finalized_bundle. intros (w & Hw & Hd)%rbind_ok Hdec.
  destruct (without_derivation_ok _ _ _ _ _ Hw) as ([(n & c & r & rows & Hm & _ & Hsha & _) _ _] & Hsig & (manifest & Hman & Hctx) & Hv & Hr & Hsrc & Hdw).
  destruct (materials_for (vb_bundle w) FINALIZER_DERIVATION_ROLE) as [|m [|]]; try done.
  apply rbind_ok in Hd as (d & Hd%derivation_result_ok & ([ds dc] & Hctx'%derivation_result_ok & Heq)%rbind_ok).
  destruct (py_eq (VDict ds) _) eqn:Eds; [|done]. cbn [andb] in Heq. destruct (py_eq (VDict dc) _); [|done].
  apply Ok_inj in Heq as <-. cbn [vb_bundle vb_derivation vb_decision] in *.
  destruct (manifest_parts _ _ _ _ _ Hm) as (m' & Hm' & Hrec). unfold ib_manifest in Hman. rewrite Hm' in Hman. apply Ok_inj in Hman as ->.
  pose proof Hctx' as Hbind. apply record_checks_bind in Hbind as (att & Hatt & Hchecks & Hcb & _).
  apply inspected_bindings_ok, validated_fields in Hd as (Hcand & src & Hs & Hb & Hh).
  unfold context_of_bindings in Hcb. rewrite Hs in Hcb. injection Hcb as -> _.
  assert (Hstr : forall v, v_git_sha v = true -> exists s, v = VStr s) by (intros [] ?; naive_solver).
  destruct (Hstr _ Hb) as [bs Hbs], (Hstr _ Hh) as [hs Hhs].
  destruct (dget d (u "candidate_sha256")) as [| | | |cand| |] eqn:Ec; try done.
  rewrite Hdw in Hdec. unfold finalizer_decision in Hdec. destruct (eq_str _ _) eqn:Ev; [|done]. cbn [andb] in Hdec.
  destruct (dget (vh_verdict (vb_handoff w)) (u "passed")) as [|[]| | | | |] eqn:Ep; try done.
  exists manifest, r, (vh_verdict (vb_handoff w)), att, d, src, dc, bs, hs, cand. cbn zeta.
  split_and!; try done.
  - by apply eq_str_eq.
  - exact (agreed_digest _ _ _ _ _ Eds Hsrc Hbs).
  - exact (agreed_digest _ _ _ _ _ Eds Hsrc Hhs).
  - apply eq_str_eq. rewrite <- py_eq_str. rewrite <- Ec. apply (Hchecks ("candidate_sha256"%string, _)). by left.
Qed.
End Sound.
