(* ===== verification/FinalizerSamples.v ===== *)
(** A finalized bundle of a passing record: a parser of canonical archives, a key pair,
    and the bundle that the trusted finalizer seals with them. *)
From S2P Require Export FinalizerSound RecordSamples DerivationSamples.
Local Open Scope Z_scope.

Section Samples.
#[local] Existing Instance ascii_unicode.

(** A parser of stored archives: the central directory from its end record, and the
    payload that follows each local header. *)
Fixpoint directory_entries (fuel : nat) (data : bytes) (offset : Z) : list (zip_info * option bytes) :=
  match fuel with
  | O => []
  | S fuel =>
      let field start n := le_value (slice data (offset + start) n) in
      let name := map Z.to_N (slice data (offset + 46) (field 28 2)) in
      let payload := slice data (field 42 4 + 30 + field 28 2) (field 24 4) in
      ({| zi_filename := name; zi_flag_bits := field 8 2; zi_compress_type := field 10 2; zi_extra := [];
          zi_comment := []; zi_create_system := le_value (slice data (offset + 5) 1);
          zi_external_attr := field 38 4; zi_date_time := [1980; 1; 1; 0; 0; 0]; zi_file_size := field 24 4 |},
       if crc32 payload =? field 16 4 then Some payload else None)
      :: directory_entries fuel data (offset + 46 + field 28 2)
  end.

Definition stored_zip : zip_parser := fun data =>
  let end_record := zlen data - 22 in
  Some ([], directory_entries (Z.to_nat (le_value (slice data (end_record + 10) 2))) data
              (le_value (slice data (end_record + 16) 4))).

(** A signature of 64 bytes that depends on the payload. *)
Definition sample_signature (payload : bytes) : bytes := ascii_bytes (sha256_hex payload).
Definition sample_key : private_key := {| sk_public_der := [1; 2; 3]; sk_sign := sample_signature |}.
Definition trusted_key : public_key :=
  {| pk_der := [1; 2; 3]; pk_verify := fun signature payload => bytes_eqb signature (sample_signature payload) |}.

Definition record_bytes : bytes := Eval vm_compute in outcome (_canonical_json repo_pass_record) [].

(** Bindings that agree with the record. *)
Definition final_bindings : dict := dict_of [
  ("format", VStr FINALIZER_DERIVATION_FORMAT); ("source", VDict sample_source);
  ("repository", VStr (u "owner/name")); ("repository_id", VStr (u "42"));
  ("guard_artifact_sha256", VStr (hex 101)); ("base_tree_sha", VStr (sha_of "b")); ("head_tree_sha", VStr (sha_of "d"));
  ("candidate_sha256", VStr (hex 98)); ("deleted_paths", strs ["src/old.py"]);
  ("policy_sha256", VStr (digest_of repo_policy)); ("verifier_pack_sha256", VStr (hex 97));
  ("verifier_pack_manifest", VNone); ("effective_policy", VDict repo_policy)].

Definition final_context : dict :=
  Eval vm_compute in snd (outcome (context_from_verified_bindings final_bindings repo_pass_record) ([], [])).

Definition handoff_bytes : bytes :=
  Eval vm_compute in snd (outcome (create_finalizer_handoff (sealed_snapshot record_bytes) sample_source final_context) ([], [])).

Definition derivation_bytes : bytes := Eval vm_compute in outcome (finalizer_bindings_bytes final_bindings) [].

Definition final_materials : list EvidenceMaterial :=
  outcome (_trusted_finalizer_materials handoff_bytes (Some derivation_bytes) []) [].

Definition final_archive : bytes :=
  Eval vm_compute in
  snd (outcome (create_evidence_bundle (sealed_snapshot record_bytes) OutputFree final_context sample_key final_materials
                  false true) ([], [])).

Definition final_inspection : InspectedBundle :=
  Eval vm_compute in outcome (inspect_evidence_bundle stored_zip (sealed_snapshot final_archive))
    {| ib_manifest_bytes := []; ib_signature := []; ib_verdict_bytes := []; ib_materials := [] |}.

(** The bundle with its signature replaced: another archive with the same manifest. *)
Definition resigned_archive : bytes :=
  Eval vm_compute in
  default [] (_archive_bytes ([(MANIFEST_PATH, ib_manifest_bytes final_inspection);
                               (SIGNATURE_PATH, b64encode (repeat 7 64));
                               (VERDICT_PATH, ib_verdict_bytes final_inspection)]
                              ++ map (fun m => (vm_archive_path m, vm_data m)) (ib_materials final_inspection))).

Definition resigned_inspection : InspectedBundle :=
  Eval vm_compute in outcome (inspect_evidence_bundle stored_zip (sealed_snapshot resigned_archive))
    {| ib_manifest_bytes := []; ib_signature := []; ib_verdict_bytes := []; ib_materials := [] |}.

(** Byte strings are told apart when any two of them are equal or have two digests. *)
Definition apart (hashed : list (bytes * str)) : bool :=
  forallb (fun x => forallb (fun y => if bytes_eqb (fst x) (fst y) then true else negb (snd x =s? snd y)) hashed) hashed.

Lemma told_apart hashed : apart (map (fun x => (x, sha256_hex x)) hashed) = true -> collision_free hashed.
Proof.
  unfold apart. intros Ha a b Hina Hinb Heq. rewrite forallb_forall in Ha.
  specialize (Ha _ (in_map (fun x => (x, sha256_hex x)) _ _ Hina)). rewrite forallb_forall in Ha.
  specialize (Ha _ (in_map (fun x => (x, sha256_hex x)) _ _ Hinb)). cbn [fst snd] in Ha.
  destruct (bytes_eqb a b) eqn:E; [by apply bytes_eqb_eq|]. by rewrite Heq, str_eqb_refl in Ha.
Qed.

Lemma signed_manifest_commits_witness :
  resigned_archive <> final_archive /\
  ib_verdict_bytes final_inspection = ib_verdict_bytes resigned_inspection /\
  ib_materials final_inspection = ib_materials resigned_inspection.
Proof.
  assert (Hi : inspect_evidence_bundle stored_zip (sealed_snapshot final_archive) = Ok final_inspection)
    by (vm_compute; reflexivity).
  assert (Hi' : inspect_evidence_bundle stored_zip (sealed_snapshot resigned_archive) = Ok resigned_inspection)
    by (vm_compute; reflexivity).
  assert (Hne : bytes_eqb resigned_archive final_archive = false) by (vm_compute; reflexivity).
  split; [intros Heq; rewrite Heq in Hne; vm_compute in Hne; discriminate Hne|].
  apply (signed_manifest_commits stored_zip _ _ _ _ Hi Hi'); [vm_compute; reflexivity|].
  apply told_apart. vm_compute. reflexivity.
Defined.

Definition final_result : handoff_result VerifiedFinalizedBundle :=
  verify_finalized_bundle stored_zip (sealed_snapshot final_archive) trusted_key sample_source final_context.

Definition final_verified : VerifiedFinalizedBundle :=
  Eval vm_compute in outcome final_result
    {| vb_bundle := final_inspection; vb_record_report := verify_record VNone;
       vb_handoff := {| vh_inspection := {| ih_bytes := []; ih_source := []; ih_context := []; ih_record := [] |};
                        vh_verdict_bytes := []; vh_verdict := []; vh_record_report := verify_record VNone |};
       vb_derivation := None; vb_decision := [] |}.

Lemma finalized_allow_sound_witness :
  exists verdict, ib_verdict (vb_bundle final_verified) = Ok verdict /\ r_ok (verify_record (VDict verdict)) = true.
Proof.
  assert (Hv : verify_finalized_bundle stored_zip (sealed_snapshot final_archive) trusted_key sample_source final_context
               = Ok final_verified) by (vm_compute; reflexivity).
  assert (Hd : vb_decision final_verified = u "ALLOW") by (vm_compute; reflexivity).
  destruct (finalized_allow_sound stored_zip (sealed_snapshot final_archive) trusted_key sample_source final_context
              final_verified Hv Hd) as (m & r & v & a & d & ds & dc & bs & hs & c & H).
  exists v. exact (conj (proj1 (proj2 (proj2 (proj2 (proj2 (proj2 H))))))
                        (proj1 (proj2 (proj2 (proj2 (proj2 (proj2 (proj2 H)))))))).
Defined.

(** Another key, another context and a changed byte are refused. *)
Example altered_bundles :
  map (fun r => match r with Ok vb => Some (vb_decision vb) | Err _ => None end)
    [final_result;
     verify_finalized_bundle stored_zip (sealed_snapshot final_archive) {| pk_der := [1]; pk_verify := pk_verify trusted_key |}
       sample_source final_context;
     verify_finalized_bundle stored_zip (sealed_snapshot final_archive) trusted_key sample_source
       (dset (u "run_attempt") (VInt 2) final_context);
     verify_finalized_bundle stored_zip (sealed_snapshot (<[300%nat := 0]> final_archive)) trusted_key sample_source
       final_context]
  = [Some (u "ALLOW"); None; None; None].
Proof. vm_compute. reflexivity. Qed.
End Samples.
