(* ===== verification/AgentAdmission.v ===== *)
(** Admission of changes proposed by automated agents (admission/agent_change.py): the
    proposal and the signed authorization as canonical documents, the contract between
    their claims and the facts derived from raw Git, and the sealing and offline
    verification of an admission in a finalized bundle. *)
From S2P Require Export TrustedFinalizer HarnessPolicy.
Local Open Scope Z_scope.

Definition AGENT_CHANGE_PROPOSAL_FORMAT_V1 : str := u "EVOGUARD_AGENT_CHANGE_PROPOSAL_V1".
Definition AGENT_CHANGE_PROPOSAL_FORMAT_V2 : str := u "EVOGUARD_AGENT_CHANGE_PROPOSAL_V2".
Definition AGENT_CHANGE_AUTHORIZATION_FORMAT : str := u "EVOGUARD_AGENT_CHANGE_AUTHORIZATION_V1".
Definition AGENT_CHANGE_AUTHORIZATION_PURPOSE : str := u "evoguard-agent-change-authorization-v1".
Definition AGENT_CHANGE_AUTHORIZATION_KEY_DOMAIN : str := u "agent-change-authorization-v1".
Definition AGENT_CHANGE_AUTHORIZATION_SIGNATURE_DOMAIN : bytes :=
  ascii_bytes AGENT_CHANGE_AUTHORIZATION_FORMAT ++ [0].
Definition AGENT_CHANGE_PROPOSAL_ROLE : str := u "agent-change-proposal".
Definition AGENT_CHANGE_AUTHORIZATION_ROLE : str := u "agent-change-authorization".
Definition AGENT_CHANGE_GIT_BINDINGS_ROLE : str := u "agent-change-git-bindings".
Definition AUTHORIZATION_MANIFEST_PATH : str := u "authorization.json".
Definition AUTHORIZATION_SIGNATURE_PATH : str := u "authorization.sig".

Definition MAX_PROPOSAL_BYTES : Z := 1024 * 1024.
Definition MAX_AUTHORIZATION_BYTES : Z := 1024 * 1024.
Definition MAX_AUTHORIZATION_ARCHIVE_BYTES : Z := 2 * 1024 * 1024.
Definition MAX_AGENT_ID_LENGTH : Z := 256.
Definition MAX_SUMMARY_LENGTH : Z := 4096.
Definition MAX_PATHS : Z := 10000.
Definition MAX_SCOPE_PATTERNS : Z := 256.
Definition MAX_CLAIMS : Z := 128.

Definition _PROPOSAL_KEYS : list str :=
  us ["format"; "producer"; "source"; "intent"; "change"; "observed_policy"; "claims"].
Definition _PRODUCER_KEYS : list str := us ["id"; "kind"; "version"].
Definition _PROPOSAL_SOURCE_KEYS : list str := us ["repository"; "pull_request_number"; "base_sha"; "head_sha"].
Definition _INTENT_KEYS : list str := us ["summary"; "declared_paths"].
Definition _CHANGE_KEYS_V1 : list str :=
  us ["candidate_sha256"; "candidate_size"; "changed_paths"; "deleted_paths"; "touched_paths"].
Definition _CHANGE_KEYS_V2 : list str :=
  us ["candidate_identity"; "candidate_selection_profile"; "changed_paths"; "deleted_paths"; "touched_paths"].
Definition _POLICY_KEYS : list str := us ["policy_sha256"; "verifier_pack_sha256"].
Definition _CLAIM_KEYS : list str := us ["id"; "outcome"; "evidence_sha256"].
Definition _AUTHORIZATION_KEYS : list str := us ["format"; "source"; "scope"; "required"; "authentication"].
Definition _AUTHORIZATION_SOURCE_KEYS : list str := us [
  "repository"; "repository_id"; "pull_request_number"; "authorization_run_id"; "authorization_run_attempt";
  "base_sha"; "head_sha"; "base_tree_sha"; "head_tree_sha"].
Definition _SCOPE_KEYS : list str :=
  us ["allowed_patterns"; "maximum_touched_paths"; "maximum_candidate_bytes"; "allow_deletions"].
Definition _REQUIRED_KEYS : list str := us ["policy_sha256"; "verifier_pack_sha256"].
Definition _AUTHENTICATION_KEYS : list str := us ["algorithm"; "key_id"; "purpose"; "key_domain"; "signature_path"].

(** The messages of [AgentChangeAdmissionError] by what they name, and the errors of the
    lower layers with the point at which they arrive. *)
Inductive admission_error :=
| Rejected (what : string)
| ForbiddenPath (path : str)
| OutsideScope (path : str)
| BundleRefused (e : bundle_error)
| DerivationRefused (e : derivation_error)
| FinalizerRefused (e : handoff_error).

Definition admission_of (A : Type) : Type := result admission_error A.
Definition of_bundle {A} (r : evidence A) : admission_of A := match r with Ok a => Ok a | Err e => Err (BundleRefused e) end.
Definition of_derivation {A} (r : derived A) : admission_of A :=
  match r with Ok a => Ok a | Err e => Err (DerivationRefused e) end.
Definition of_finalizer {A} (r : handoff_result A) : admission_of A :=
  match r with Ok a => Ok a | Err e => Err (FinalizerRefused e) end.
Definition demand (checks : list (string * bool)) : admission_of unit := require_all checks Rejected.

(** [dict(value)] of an object with exactly the expected keys. *)
Definition exact_object (v : value) (keys : list str) (label : string) : admission_of dict :=
  match v with
  | VDict d => if keys_eq d keys then Ok d else Err (Rejected label)
  | _ => Err (Rejected label)
  end.

Section Admission.
Context `{UnicodeDB} (parse_zip : zip_parser).

(** ** The proposal *)

Definition _path_list (v : value) (label : string) (allow_empty utf8_order : bool) : admission_of (list str) :=
  if negb (safe_paths v) then Err (Rejected label)
  else if negb allow_empty && is_empty (v_strings v) then Err (Rejected label)
  else if MAX_PATHS <? Z.of_nat (length (v_strings v)) then Err (Rejected label)
  else
    match sort_paths utf8_order (v_strings v) with
    | Err _ => Err (Rejected label)
    | Ok canonical => if bool_decide (v_strings v = canonical) then Ok canonical else Err (Rejected label)
    end.

Definition _validate_proposal_source (v : value) : admission_of dict :=
  let* source := exact_object v _PROPOSAL_SOURCE_KEYS "proposal source" in
  let get key := dget source (u key) in
  let* _ := demand [
    ("proposal source.repository", bounded_string (get "repository"%string) 512);
    ("proposal source.pull_request_number", int_between (get "pull_request_number"%string) 1 2147483647);
    ("proposal source.base_sha", v_git_sha (get "base_sha"%string));
    ("proposal source.head_sha", v_git_sha (get "head_sha"%string))] in
  Ok (dict_of [("repository", get "repository"%string); ("pull_request_number", get "pull_request_number"%string);
               ("base_sha", get "base_sha"%string); ("head_sha", get "head_sha"%string)]).

Definition _validate_candidate_identity (v : value) : admission_of dict :=
  let* identity := exact_object v _CANDIDATE_IDENTITY_KEYS "candidate_identity" in
  let get key := dget identity (u key) in
  let* _ := demand [
    ("candidate_identity.format", eq_str (get "format"%string) CANDIDATE_TEXT_MAP_IDENTITY_FORMAT);
    ("candidate_identity.size", int_between (get "size"%string) 1 (64 * 1024 * 1024));
    ("candidate_identity.file_count", int_between (get "file_count"%string) 0 MAX_PATHS);
    ("candidate_identity.sha256", v_sha256 (get "sha256"%string))] in
  Ok (dict_of [("format", VStr CANDIDATE_TEXT_MAP_IDENTITY_FORMAT); ("sha256", get "sha256"%string);
               ("size", get "size"%string); ("file_count", get "file_count"%string)]).

(** The paths that the selection profile keeps. *)
Definition selected_count (changed : list str) : Z :=
  Z.of_nat (length (List.filter (fun p => negb (_ignored_path p (Some AGENT_CHANGE_CANDIDATE_IGNORED_BASENAMES))) changed)).

Definition is_v2 (format : binding_format) : bool := match format with FormatV1 => false | FormatV2 => true end.

(** The order of V2 encodes every path, so that the selection profile can. *)
Definition _validate_change (v : value) (format : binding_format) : admission_of dict :=
  let* change := exact_object v (match format with FormatV1 => _CHANGE_KEYS_V1 | FormatV2 => _CHANGE_KEYS_V2 end)
                   "proposal change" in
  let get key := dget change (u key) in
  let* changed := _path_list (get "changed_paths"%string) "changed_paths" true (is_v2 format) in
  let* deleted := _path_list (get "deleted_paths"%string) "deleted_paths" true (is_v2 format) in
  let* touched := _path_list (get "touched_paths"%string) "touched_paths" false (is_v2 format) in
  let* expected_touched :=
    match sort_paths (is_v2 format) (changed ++ deleted) with Ok l => Ok l | Err _ => Err (Rejected "touched_paths") end in
  let* _ := demand [
    ("disjoint union", negb (existsb (fun p => str_in p deleted) changed));
    ("touched union", bool_decide (touched = expected_touched))] in
  let common := [("changed_paths", v_str_list changed); ("deleted_paths", v_str_list deleted);
                 ("touched_paths", v_str_list touched)] in
  match format with
  | FormatV1 =>
      let* _ := demand [
        ("candidate_size", int_between (get "candidate_size"%string) 1 (64 * 1024 * 1024));
        ("candidate_sha256", v_sha256 (get "candidate_sha256"%string))] in
      Ok (dict_of ([("candidate_sha256", get "candidate_sha256"%string);
                    ("candidate_size", get "candidate_size"%string)] ++ common))
  | FormatV2 =>
      let* _ := demand [
        ("candidate_selection_profile",
           eq_str (get "candidate_selection_profile"%string) AGENT_CHANGE_CANDIDATE_SELECTION_PROFILE)] in
      let* identity := _validate_candidate_identity (get "candidate_identity"%string) in
      let* _ := demand [("file_count", py_eq (dget identity (u "file_count")) (VInt (selected_count changed)))] in
      Ok (dict_of ([("candidate_selection_profile", VStr AGENT_CHANGE_CANDIDATE_SELECTION_PROFILE);
                    ("candidate_identity", VDict identity)] ++ common))
  end.

(** [_validate_policy] and [_validate_required], which differ in their labels. *)
Definition _validate_policy (v : value) (label : string) : admission_of dict :=
  let* policy := exact_object v _POLICY_KEYS label in
  let pack := dget policy (u "verifier_pack_sha256") in
  let* _ := demand [("policy_sha256", v_sha256 (dget policy (u "policy_sha256")));
                    ("verifier_pack_sha256", is_none pack || v_sha256 pack)] in
  Ok (dict_of [("policy_sha256", dget policy (u "policy_sha256")); ("verifier_pack_sha256", pack)]).

(** [[a-z][a-z0-9_.-]{0,127}] *)
Definition claim_id_text (s : str) : bool :=
  match s with
  | c :: rest => ((97 <=? c) && (c <=? 122))%N && forallb role_char rest && Nat.leb (length rest) 127
  | [] => false
  end.

Definition claim_checks (claim : dict) : list (string * bool) :=
  let outcome := dget claim (u "outcome") in
  let evidence := dget claim (u "evidence_sha256") in
  [("claim id", match dget claim (u "id") with VStr s => claim_id_text s | _ => false end);
   ("claim outcome", existsb (eq_str outcome) (us ["PASS"; "FAIL"; "NOT_RUN"; "UNKNOWN"]));
   ("claim evidence", is_none evidence || v_sha256 evidence);
   ("claim binding", eqb (existsb (eq_str outcome) (us ["PASS"; "FAIL"])) (negb (is_none evidence)))].

Definition validate_claim (v : value) : admission_of dict :=
  let* claim := exact_object v _CLAIM_KEYS "claim" in
  let* _ := demand (claim_checks claim) in
  Ok (dict_of [("id", dget claim (u "id")); ("outcome", dget claim (u "outcome"));
               ("evidence_sha256", dget claim (u "evidence_sha256"))]).

Definition claim_id (claim : dict) : str := str_or_empty (dget claim (u "id")).

(** Sorted by distinct identifiers. *)
Definition claims_ordered (claims : list dict) : bool :=
  sortedb (fun a b => str_leb (claim_id a) (claim_id b)) claims && nodupb str_eqb (map claim_id claims).

(** The two formats; a value that cannot be an element of a set is refused like any
    other. *)
Definition proposal_format (v : value) : option binding_format :=
  if eq_str v AGENT_CHANGE_PROPOSAL_FORMAT_V1 then Some FormatV1
  else if eq_str v AGENT_CHANGE_PROPOSAL_FORMAT_V2 then Some FormatV2 else None.

Definition validate_agent_change_proposal (proposal : dict) : admission_of dict :=
  let get key := dget proposal (u key) in
  if negb (keys_eq proposal _PROPOSAL_KEYS) then Err (Rejected "proposal keys")
  else
    match proposal_format (get "format"%string) with
    | None => Err (Rejected "proposal format")
    | Some format =>
        let* producer := exact_object (get "producer"%string) _PRODUCER_KEYS "proposal producer" in
        let* _ := demand (map (fun f => (f, bounded_string (dget producer (u f)) MAX_AGENT_ID_LENGTH))
                            ["id"; "kind"; "version"]) in
        let* intent := exact_object (get "intent"%string) _INTENT_KEYS "proposal intent" in
        let* declared := _path_list (dget intent (u "declared_paths")) "declared_paths" false (is_v2 format) in
        let* change := _validate_change (get "change"%string) format in
        let* _ := demand [("declared_paths", py_eq (v_str_list declared) (dget change (u "touched_paths")))] in
        match get "claims"%string with
        | VList items =>
            let* _ := demand [("claim count", (1 <=? Z.of_nat (length items)) && (Z.of_nat (length items) <=? MAX_CLAIMS))] in
            let* claims := rmap validate_claim items in
            let* _ := demand [("claim order", claims_ordered claims)] in
            let* source := _validate_proposal_source (get "source"%string) in
            let* _ := demand [("summary", bounded_string (dget intent (u "summary")) MAX_SUMMARY_LENGTH)] in
            let* policy := _validate_policy (get "observed_policy"%string) "proposal observed_policy" in
            Ok (dict_of [
              ("format", get "format"%string);
              ("producer", VDict (dict_of (map (fun f => (f, dget producer (u f))) ["id"; "kind"; "version"])));
              ("source", VDict source);
              ("intent", VDict (dict_of [("summary", dget intent (u "summary")); ("declared_paths", v_str_list declared)]));
              ("change", VDict change);
              ("observed_policy", VDict policy);
              ("claims", VList (map VDict claims))])
        | _ => Err (Rejected "claims")
        end
    end.

Record InspectedAgentChangeProposal := { ip_bytes : bytes; ip_payload : dict }.

Definition inspect_agent_change_proposal_bytes (data : bytes) : admission_of InspectedAgentChangeProposal :=
  if negb ((1 <=? zlen data) && (zlen data <=? MAX_PROPOSAL_BYTES)) then Err (Rejected "proposal size")
  else
    let* v := of_bundle (_load_json_object data "agent-change proposal") in
    let* checked := validate_agent_change_proposal v in
    let* canonical := of_bundle (_canonical_json checked) in
    if bytes_eqb canonical data then Ok {| ip_bytes := data; ip_payload := checked |} else Err (Rejected "proposal canonical").

Definition inspect_agent_change_proposal (file : file_view) : admission_of InspectedAgentChangeProposal :=
  let* data := of_bundle (_read_regular_file file MAX_PROPOSAL_BYTES "agent-change proposal") in
  inspect_agent_change_proposal_bytes data.

(** What stands at the path decides whether the bytes are published. *)
Definition _publish_bytes (output : output_state) (force : bool) : admission_of unit :=
  match output with
  | OutputDirectory => Err (Rejected "output directory")
  | OutputFree => Ok tt
  | OutputExists => if force then Ok tt else Err (Rejected "output exists")
  | NoHardLinks => if force then Ok tt else Err (Rejected "output links")
  end.

Definition write_agent_change_proposal (proposal : dict) (output : output_state) (force : bool)
    (published : bytes -> file_view) : admission_of InspectedAgentChangeProposal :=
  let* checked := validate_agent_change_proposal proposal in
  let* data := of_bundle (_canonical_json checked) in
  if MAX_PROPOSAL_BYTES <? zlen data then Err (Rejected "proposal size")
  else
    let* _ := _publish_bytes output force in
    inspect_agent_change_proposal (published data).

(** ** The authorization *)

Definition _validate_authorization_source (v : value) : admission_of dict :=
  let* source := exact_object v _AUTHORIZATION_SOURCE_KEYS "authorization source" in
  let get key := dget source (u key) in
  let* _ := demand [
    ("pull_request_number", int_between (get "pull_request_number"%string) 1 2147483647);
    ("authorization_run_attempt", int_between (get "authorization_run_attempt"%string) 1 2147483647);
    ("repository", bounded_string (get "repository"%string) 512);
    ("repository_id", bounded_string (get "repository_id"%string) 256);
    ("authorization_run_id", bounded_string (get "authorization_run_id"%string) 256);
    ("base_sha", v_git_sha (get "base_sha"%string)); ("head_sha", v_git_sha (get "head_sha"%string));
    ("base_tree_sha", v_git_sha (get "base_tree_sha"%string)); ("head_tree_sha", v_git_sha (get "head_tree_sha"%string))] in
  Ok (dict_of (map (fun f => (f, get f))
    ["repository"; "repository_id"; "pull_request_number"; "authorization_run_id"; "authorization_run_attempt";
     "base_sha"; "head_sha"; "base_tree_sha"; "head_tree_sha"])).

(** A pattern of a directory, and its root. *)
Definition is_tree_pattern (pattern : str) : bool := ends_with (u "/**") pattern.
Definition pattern_root (pattern : str) : str := firstn (length pattern - 3) pattern.

Definition _scope_pattern (v : value) : bool :=
  match v with
  | VStr (c :: s) =>
      let pattern := c :: s in
      if is_tree_pattern pattern then is_safe_relpath (pattern_root pattern)
      else negb (char_in 42 pattern || char_in 63 pattern || char_in 91 pattern) && is_safe_relpath pattern
  | _ => false
  end.

Definition scope_checks (scope : dict) : list (string * bool) :=
  let patterns := dget scope (u "allowed_patterns") in
  let items := match patterns with VList l => l | _ => [] end in
  [("allowed_patterns", (1 <=? Z.of_nat (length items)) && (Z.of_nat (length items) <=? MAX_SCOPE_PATTERNS));
   ("pattern", forallb _scope_pattern items);
   ("pattern order", sorted_and_unique patterns);
   ("maximum_touched_paths", int_between (dget scope (u "maximum_touched_paths")) 1 MAX_PATHS);
   ("maximum_candidate_bytes", int_between (dget scope (u "maximum_candidate_bytes")) 1 (64 * 1024 * 1024));
   ("allow_deletions", match dget scope (u "allow_deletions") with VBool _ => true | _ => false end)].

Definition _validate_scope (v : value) : admission_of dict :=
  let* scope := exact_object v _SCOPE_KEYS "authorization scope" in
  let* _ := demand (scope_checks scope) in
  Ok (dict_of (map (fun f => (f, dget scope (u f)))
    ["allowed_patterns"; "maximum_touched_paths"; "maximum_candidate_bytes"; "allow_deletions"])).

Definition _validate_required (v : value) : admission_of dict := _validate_policy v "authorization required".

Definition expected_authentication : list (string * value) :=
  [("algorithm", VStr (u "Ed25519")); ("purpose", VStr AGENT_CHANGE_AUTHORIZATION_PURPOSE);
   ("key_domain", VStr AGENT_CHANGE_AUTHORIZATION_KEY_DOMAIN); ("signature_path", VStr AUTHORIZATION_SIGNATURE_PATH)].

Definition _validate_authentication (v : value) : admission_of dict :=
  let* authentication := exact_object v _AUTHENTICATION_KEYS "authorization authentication" in
  let key_id := dget authentication (u "key_id") in
  let* _ := demand (map (fun e => (fst e, py_eq (dget authentication (u (fst e))) (snd e))) expected_authentication
                    ++ [("key_id", match key_id with VStr s => key_id_text s | _ => false end)]) in
  Ok (dict_of (expected_authentication ++ [("key_id", key_id)])).

Definition validate_agent_change_authorization (authorization : dict) : admission_of dict :=
  let get key := dget authorization (u key) in
  if negb (keys_eq authorization _AUTHORIZATION_KEYS) then Err (Rejected "authorization keys")
  else if negb (eq_str (get "format"%string) AGENT_CHANGE_AUTHORIZATION_FORMAT) then Err (Rejected "authorization format")
  else
    let* source := _validate_authorization_source (get "source"%string) in
    let* scope := _validate_scope (get "scope"%string) in
    let* required := _validate_required (get "required"%string) in
    let* authentication := _validate_authentication (get "authentication"%string) in
    Ok (dict_of [("format", VStr AGENT_CHANGE_AUTHORIZATION_FORMAT); ("source", VDict source); ("scope", VDict scope);
                 ("required", VDict required); ("authentication", VDict authentication)]).

Definition _decode_signature (data : bytes) : admission_of bytes :=
  if negb (Nat.eqb (length data) 88) || existsb (fun b => existsb (Z.eqb b) [32; 9; 13; 10]) data
  then Err (Rejected "signature length")
  else
    match b64decode data with
    | None => Err (Rejected "signature base64")
    | Some signature =>
        if negb (Nat.eqb (length signature) 64) || negb (bytes_eqb (b64encode signature) data)
        then Err (Rejected "signature canonical") else Ok signature
    end.

(** Canonical archive bytes whose key is not trusted yet. *)
Record InspectedAgentChangeAuthorization := {
  ia_archive_bytes : bytes;
  ia_manifest_bytes : bytes;
  ia_signature : bytes;
  ia_payload : dict }.

Definition authorization_members (manifest_bytes signature_bytes : bytes) : list (str * bytes) :=
  [(AUTHORIZATION_MANIFEST_PATH, manifest_bytes); (AUTHORIZATION_SIGNATURE_PATH, signature_bytes)].

Definition inspect_agent_change_authorization_bytes (snapshot : bytes) : admission_of InspectedAgentChangeAuthorization :=
  if negb ((1 <=? zlen snapshot) && (zlen snapshot <=? MAX_AUTHORIZATION_ARCHIVE_BYTES))
  then Err (Rejected "authorization size")
  else
    let* _ := of_bundle (_preflight_zip snapshot) in
    match parse_zip snapshot with
    | Some (_, [m1; m2]) =>
        let* _ := of_bundle (_validate_member_metadata (fst m1)) in
        let* _ := of_bundle (_validate_member_metadata (fst m2)) in
        let* _ := demand [
          ("authorization members", bool_decide ([zi_filename (fst m1); zi_filename (fst m2)]
                                                 = [AUTHORIZATION_MANIFEST_PATH; AUTHORIZATION_SIGNATURE_PATH]))] in
        let* manifest_bytes := of_bundle (_read_archive_member (snd m1) (fst m1) MAX_AUTHORIZATION_BYTES) in
        let* signature_bytes := of_bundle (_read_archive_member (snd m2) (fst m2) 88) in
        let* v := of_bundle (_load_json_object manifest_bytes "authorization manifest") in
        let* payload := validate_agent_change_authorization v in
        let* canonical_manifest := of_bundle (_canonical_json payload) in
        if negb (bytes_eqb canonical_manifest manifest_bytes) then Err (Rejected "authorization canonical")
        else
          let* signature := _decode_signature signature_bytes in
          match _archive_bytes (authorization_members manifest_bytes signature_bytes) with
          | Some canonical =>
              if bytes_eqb canonical snapshot
              then Ok {| ia_archive_bytes := snapshot; ia_manifest_bytes := manifest_bytes; ia_signature := signature;
                         ia_payload := payload |}
              else Err (Rejected "authorization archive")
          | None => Err (Rejected "authorization archive")
          end
    | Some _ => Err (Rejected "authorization members")
    | None => Err (BundleRefused (BadArchive "parse"))
    end.

Definition inspect_agent_change_authorization (file : file_view) : admission_of InspectedAgentChangeAuthorization :=
  let* snapshot := of_bundle (_read_regular_file file MAX_AUTHORIZATION_ARCHIVE_BYTES "agent-change authorization") in
  inspect_agent_change_authorization_bytes snapshot.

Definition seal_agent_change_authorization (source scope required : dict) (key : private_key) (output : output_state)
    (force : bool) (published : bytes -> file_view) : admission_of InspectedAgentChangeAuthorization :=
  let* checked_source := _validate_authorization_source (VDict source) in
  let* checked_scope := _validate_scope (VDict scope) in
  let* checked_required := _validate_required (VDict required) in
  let* payload := validate_agent_change_authorization (dict_of [
    ("format", VStr AGENT_CHANGE_AUTHORIZATION_FORMAT); ("source", VDict checked_source); ("scope", VDict checked_scope);
    ("required", VDict checked_required);
    ("authentication", VDict (dict_of (expected_authentication ++ [("key_id", VStr (key_id_of (sk_public_der key)))])))]) in
  let* manifest_bytes := of_bundle (_canonical_json payload) in
  if MAX_AUTHORIZATION_BYTES <? zlen manifest_bytes then Err (Rejected "authorization size")
  else
    let signature := sk_sign key (AGENT_CHANGE_AUTHORIZATION_SIGNATURE_DOMAIN ++ manifest_bytes) in
    if negb (Nat.eqb (length signature) 64) then Err (Rejected "signature length")
    else
      match _archive_bytes (authorization_members manifest_bytes (b64encode signature)) with
      | None => Err (Rejected "authorization archive")
      | Some archive =>
          if MAX_AUTHORIZATION_ARCHIVE_BYTES <? zlen archive then Err (Rejected "authorization size")
          else
            let* _ := _publish_bytes output force in
            inspect_agent_change_authorization (published archive)
      end.

(** An authorization that an externally trusted key authenticates. *)
Record VerifiedAgentChangeAuthorization := { va_inspection : InspectedAgentChangeAuthorization; va_key_id : str }.

Definition sub_object (d : dict) (key : string) : dict := match dget d (u key) with VDict x => x | _ => [] end.

Definition verify_agent_change_authorization (inspected : InspectedAgentChangeAuthorization) (trusted_key : public_key)
    (expected_source : dict) : admission_of VerifiedAgentChangeAuthorization :=
  let* expected := _validate_authorization_source (VDict expected_source) in
  if negb (py_eq (dget (ia_payload inspected) (u "source")) (VDict expected)) then Err (Rejected "authorization source")
  else
    let '(verified, key_id) :=
      verify_bytes_with_key_id (AGENT_CHANGE_AUTHORIZATION_SIGNATURE_DOMAIN ++ ia_manifest_bytes inspected)
        (ia_signature inspected) trusted_key in
    if negb verified then Err (Rejected "authorization signature")
    else if negb (eq_str (dget (sub_object (ia_payload inspected) "authentication") (u "key_id")) key_id)
    then Err (Rejected "authorization key_id")
    else Ok {| va_inspection := inspected; va_key_id := key_id |}.

(** ** The contract *)

Definition pattern_matches (path pattern : str) : bool :=
  if is_tree_pattern pattern then (path =s? pattern_root pattern) || starts_with (pattern_root pattern ++ [ch_slash]) path
  else path =s? pattern.

Definition _matches_scope (path : str) (patterns : list str) : bool := existsb (pattern_matches path) patterns.

Definition _is_forbidden_control_path (path : str) : bool :=
  is_protected path [] || is_protected_config path true || is_protected_ci path [] || is_judge_autoexec path.

Definition _validated_bindings (bindings : dict) : admission_of dict :=
  let* checked := of_derivation (validate_agent_change_bindings bindings) in
  let* _ := of_derivation (agent_change_bindings_bytes checked) in Ok checked.

Definition inspect_agent_change_bindings_bytes (data : bytes) : admission_of dict :=
  if negb ((1 <=? zlen data) && (zlen data <=? MAX_BINDINGS_BYTES)) then Err (Rejected "bindings size")
  else
    let* v := of_bundle (_load_json_object data "agent-change bindings") in
    let* bindings := of_derivation (validate_agent_change_bindings v) in
    let* canonical := of_derivation (agent_change_bindings_bytes bindings) in
    if bytes_eqb canonical data then Ok bindings else Err (Rejected "bindings canonical").

Definition _require_matching_agent_change_generations (proposal_format binding_format : option binding_format) : bool :=
  match proposal_format, binding_format with
  | Some FormatV1, Some FormatV1 | Some FormatV2, Some FormatV2 => true
  | _, _ => false
  end.

(** The properties of validated bindings. *)
Definition candidate_size (bindings : dict) : Z :=
  let v := match format_of bindings with
           | Some FormatV2 => dget bindings (u "legacy_guard_candidate_size")
           | _ => dget bindings (u "candidate_size")
           end in
  match v with VInt n => n | _ => 0 end.
Definition legacy_guard_candidate_sha256 (bindings : dict) : value :=
  match format_of bindings with
  | Some FormatV2 => dget bindings (u "legacy_guard_candidate_sha256")
  | _ => dget bindings (u "candidate_sha256")
  end.

Definition authorization_source_checks (auth_source source context : dict) : list (string * bool) :=
  let same field (d : dict) := (field, py_eq (dget auth_source (u field)) (dget d (u field))) in
  [same "repository"%string context; same "repository_id"%string context; same "pull_request_number"%string source;
   same "base_sha"%string source; same "head_sha"%string source; same "base_tree_sha"%string context;
   same "head_tree_sha"%string context].

Definition expected_proposal_source (source context : dict) : dict := dict_of [
  ("repository", dget context (u "repository")); ("pull_request_number", dget source (u "pull_request_number"));
  ("base_sha", dget source (u "base_sha")); ("head_sha", dget source (u "head_sha"))].

Definition revision_checks (binding source context : dict) : list (string * bool) :=
  let same field (d : dict) := (field, py_eq (dget binding (u field)) (dget d (u field))) in
  [same "base_sha"%string source; same "head_sha"%string source; same "base_tree_sha"%string context;
   same "head_tree_sha"%string context].

Definition change_fields (format : option binding_format) : list string :=
  (match format with Some FormatV1 => ["candidate_sha256"; "candidate_size"]
                   | _ => ["candidate_identity"; "candidate_selection_profile"] end)
  ++ ["changed_paths"; "deleted_paths"; "touched_paths"].

Definition policy_checks (policy required context binding : dict) : list (string * bool) :=
  map (fun field => let bound := dget binding (u field) in
         (field, py_eq (dget policy (u field)) bound && py_eq (dget required (u field)) bound
                 && py_eq (dget context (u field)) bound)) ["policy_sha256"; "verifier_pack_sha256"].

(** The touched paths in order: judge-owned ones first, then the scope. *)
Fixpoint scope_of_paths (paths patterns : list str) : admission_of unit :=
  match paths with
  | [] => Ok tt
  | path :: paths' =>
      if _is_forbidden_control_path path then Err (ForbiddenPath path)
      else if negb (_matches_scope path patterns) then Err (OutsideScope path)
      else scope_of_paths paths' patterns
  end.

Definition at_most (n : Z) (limit : value) : bool := match limit with VInt m => n <=? m | _ => false end.

(** Proposal, authorization and raw-Git facts that agree. *)
Record VerifiedAgentChangeContract := {
  ct_proposal : InspectedAgentChangeProposal;
  ct_authorization : VerifiedAgentChangeAuthorization;
  ct_bindings : dict }.

Definition verify_agent_change_contract (proposal : InspectedAgentChangeProposal)
    (authorization : VerifiedAgentChangeAuthorization) (bindings source context : dict)
  : admission_of VerifiedAgentChangeContract :=
  let* binding := _validated_bindings bindings in
  let auth := ia_payload (va_inspection authorization) in
  let format := proposal_format (dget (ip_payload proposal) (u "format")) in
  let change := sub_object (ip_payload proposal) "change" in
  let scope := sub_object auth "scope" in
  let touched := v_strings (dget binding (u "touched_paths")) in
  let* _ := demand [
    ("generations", _require_matching_agent_change_generations format (format_of binding));
    ("source keys", keys_eq source _SOURCE_KEYS);
    ("context keys", keys_eq context _CONTEXT_KEYS);
    ("authorization source", forallb snd (authorization_source_checks (sub_object auth "source") source context));
    ("proposal source", py_eq (dget (ip_payload proposal) (u "source")) (VDict (expected_proposal_source source context)))] in
  let* _ := demand (revision_checks binding source context) in
  let* _ := demand (map (fun f => (f, py_eq (dget change (u f)) (dget binding (u f)))) (change_fields format)) in
  let* _ := demand [("candidate digest", py_eq (dget context (u "candidate_sha256")) (legacy_guard_candidate_sha256 binding))] in
  let* _ := demand (policy_checks (sub_object (ip_payload proposal) "observed_policy") (sub_object auth "required")
                      context binding) in
  let* _ := demand [
    ("path count", at_most (Z.of_nat (length touched)) (dget scope (u "maximum_touched_paths")));
    ("candidate size", at_most (candidate_size binding) (dget scope (u "maximum_candidate_bytes")));
    ("deletions", is_empty (v_strings (dget binding (u "deleted_paths"))) || truthy (dget scope (u "allow_deletions")))] in
  let* _ := scope_of_paths touched (v_strings (dget scope (u "allowed_patterns"))) in
  Ok {| ct_proposal := proposal; ct_authorization := authorization; ct_bindings := binding |}.

(** ** Admission *)

Definition _material_bytes (finalized : VerifiedFinalizedBundle) (role : str) : admission_of bytes :=
  match materials_for (vb_bundle finalized) role with
  | [m] => Ok (vm_data m)
  | _ => Err (Rejected "material")
  end.

Record VerifiedAgentChangeAdmission := {
  ad_finalized : VerifiedFinalizedBundle;
  ad_contract : VerifiedAgentChangeContract }.

(** The generation that the caller requires: one of the two formats by its type. *)
Definition format_is (format : binding_format) (proposal : InspectedAgentChangeProposal) : bool :=
  match proposal_format (dget (ip_payload proposal) (u "format")), format with
  | Some FormatV1, FormatV1 | Some FormatV2, FormatV2 => true
  | _, _ => false
  end.

Definition verify_agent_change_finalized_bundle (bundle : file_view) (finalizer_key authorization_key : public_key)
    (expected_authorization_source expected_finalizer_source expected_context expected_bindings : dict)
    (required : binding_format) : admission_of VerifiedAgentChangeAdmission :=
  let* finalized := of_finalizer (verify_finalized_bundle parse_zip bundle finalizer_key expected_finalizer_source
                                    expected_context) in
  if negb (vb_decision finalized =s? u "ALLOW") then Err (Rejected "decision")
  else
    let* proposal_bytes := _material_bytes finalized AGENT_CHANGE_PROPOSAL_ROLE in
    let* proposal := inspect_agent_change_proposal_bytes proposal_bytes in
    if negb (format_is required proposal) then Err (Rejected "required generation")
    else
      let* archive := _material_bytes finalized AGENT_CHANGE_AUTHORIZATION_ROLE in
      let* inspected := inspect_agent_change_authorization_bytes archive in
      let* authorization := verify_agent_change_authorization inspected authorization_key expected_authorization_source in
      let* bindings_bytes := _material_bytes finalized AGENT_CHANGE_GIT_BINDINGS_ROLE in
      let* embedded := inspect_agent_change_bindings_bytes bindings_bytes in
      let* expected := _validated_bindings expected_bindings in
      if negb (py_eq (VDict embedded) (VDict expected)) then Err (Rejected "bindings")
      else
        let* manifest := of_bundle (ib_manifest (vb_bundle finalized)) in
        if eq_str (dget (sub_object manifest "authentication") (u "key_id")) (va_key_id authorization)
        then Err (Rejected "one key")
        else
          let* contract := verify_agent_change_contract proposal authorization expected expected_finalizer_source
                             expected_context in
          Ok {| ad_finalized := finalized; ad_contract := contract |}.

(** The materials of an admission, as private snapshots. *)
Definition _material_snapshots (contract : VerifiedAgentChangeContract) : admission_of (list EvidenceMaterial) :=
  let* bindings_bytes := of_derivation (agent_change_bindings_bytes (ct_bindings contract)) in
  Ok [{| em_role := AGENT_CHANGE_PROPOSAL_ROLE; em_file := sealed_snapshot (ip_bytes (ct_proposal contract)) |};
      {| em_role := AGENT_CHANGE_AUTHORIZATION_ROLE;
         em_file := sealed_snapshot (ia_archive_bytes (va_inspection (ct_authorization contract))) |};
      {| em_role := AGENT_CHANGE_GIT_BINDINGS_ROLE; em_file := sealed_snapshot bindings_bytes |}].

Record FinalizedAgentChangeAdmission := {
  fa_finalized : FinalizedEvidence;
  fa_handoff : VerifiedFinalizerHandoff;
  fa_contract : VerifiedAgentChangeContract }.

Definition proposal_for_generation (file : file_view) (required : binding_format) : admission_of InspectedAgentChangeProposal :=
  let* proposal := inspect_agent_change_proposal file in
  if format_is required proposal then Ok proposal else Err (Rejected "required generation").

Definition git_sha_of (d : dict) (field : string) : admission_of str :=
  match dget d (u field) with
  | VStr s => if git_sha_text s then Ok s else Err (Rejected field)
  | _ => Err (Rejected field)
  end.

(** [published] and [reread] are what the finalizer reads back of its staged output,
    [staged] what the verification reads of it. *)
Definition seal_agent_change_finalizer_bundle (proposal_file authorization_file handoff_file verdict_file : file_view)
    (output : output_state) (base head : git_reader) (expected_authorization_source : dict)
    (authorization_key : public_key) (source context : dict) (finalizer_private : private_key)
    (finalizer_public : public_key) (expected_derivation : dict) (required : binding_format) (force : bool)
    (published reread : bytes -> file_view) (staged : file_view) : admission_of FinalizedAgentChangeAdmission :=
  let* base_sha := git_sha_of source "base_sha" in
  let* head_sha := git_sha_of source "head_sha" in
  let* base_tree_sha := git_sha_of context "base_tree_sha" in
  let* head_tree_sha := git_sha_of context "head_tree_sha" in
  let* proposal := proposal_for_generation proposal_file required in
  let* bindings := of_derivation (_derive_agent_change_bindings required base head base_sha head_sha base_tree_sha
                                    head_tree_sha) in
  let* inspected := inspect_agent_change_authorization authorization_file in
  let* authorization := verify_agent_change_authorization inspected authorization_key expected_authorization_source in
  let* contract := verify_agent_change_contract proposal authorization bindings source context in
  if key_id_of (pk_der finalizer_public) =s? va_key_id authorization then Err (Rejected "one key")
  else
    let* inspected_handoff := of_finalizer (inspect_finalizer_handoff handoff_file) in
    let* handoff := of_finalizer (verify_finalizer_handoff inspected_handoff verdict_file source context) in
    if negb (finalizer_decision (vh_verdict handoff) =s? u "ALLOW") then Err (Rejected "decision")
    else
      match output with
      | OutputDirectory => Err (Rejected "output directory")
      | _ =>
          let* materials := _material_snapshots contract in
          let* (finalized, sealed_handoff) :=
            of_finalizer (seal_finalizer_bundle parse_zip handoff_file verdict_file OutputFree source context
                            finalizer_private (Some expected_derivation) materials false published reread) in
          if negb (fe_decision finalized =s? u "ALLOW") then Err (Rejected "decision")
          else
            let* verified := verify_agent_change_finalized_bundle staged finalizer_public authorization_key
                               expected_authorization_source source context bindings required in
            let* _ := _publish_bytes output force in
            Ok {| fa_finalized := finalized; fa_handoff := sealed_handoff; fa_contract := ad_contract verified |}
      end.
End Admission.
