(* ===== verification/AgentAdmissionSound.v ===== *)
(** What an admission of an agent's change guarantees: two keys with separate roles
    signed it, and every path at which the two trees differ is one that the signed
    authorization covers and that no judge owns. *)
From S2P Require Export AgentAdmission FinalizerSound.
Local Open Scope Z_scope.

Section Sound.
Context `{UnicodeDB} (parse_zip : zip_parser).

Lemma of_bundle_ok {A} (r : evidence A) a : of_bundle r = Ok a -> r = Ok a.
Proof. destruct r; cbn; congruence. Qed.
Lemma of_derivation_ok {A} (r : derived A) a : of_derivation r = Ok a -> r = Ok a.
Proof. destruct r; cbn; congruence. Qed.
Lemma of_finalizer_ok {A} (r : handoff_result A) a : of_finalizer r = Ok a -> r = Ok a.
Proof. destruct r; cbn; congruence. Qed.

(** ** The scope of an authorization *)

(** A pattern is a literal path or a directory with all that is below it. *)
Definition covers (pattern path : str) : Prop :=
  pattern = path \/
  exists root, pattern = root ++ u "/**" /\ (path = root \/ exists rest, path = root ++ ch_slash :: rest).

Lemma pattern_matches_covers path pattern : pattern_matches path pattern = true -> covers pattern path.
Proof.
  unfold pattern_matches, is_tree_pattern, pattern_root. destruct (ends_with _ pattern) eqn:E.
  - apply ends_with_spec in E as [root ->]. rewrite length_app. assert (length (u "/**") = 3%nat) as -> by done.
    rewrite Nat.add_sub, take_app_length. intros Hm. right. exists root. split; [done|]. apply orb_true_iff in Hm as [Hm|Hm].
    + left. by apply str_eqb_eq.
    + right. apply starts_with_spec in Hm as [rest ->]. exists rest. by rewrite <- app_assoc.
  - intros Hm. left. symmetry. by apply str_eqb_eq.
Qed.

(** What an authorization permits of a touched path. *)
Definition permitted (patterns : list str) (path : str) : Prop :=
  is_protected path [] = false /\ is_protected_config path true = false /\ is_protected_ci path [] = false /\
  is_judge_autoexec path = false /\ exists pattern, In pattern patterns /\ covers pattern path.

Lemma scope_of_paths_ok paths patterns x :
  scope_of_paths paths patterns = Ok x -> forall path, In path paths -> permitted patterns path.
Proof.
  induction paths as [|p paths IH]; [by intros _ ? []|]. cbn [scope_of_paths].
  destruct (_is_forbidden_control_path p) eqn:Ef; [done|]. destruct (_matches_scope p patterns) eqn:Em; cbn [negb]; [|done].
  intros Hs path [<-|Hin]; [|by apply IH]. unfold _is_forbidden_control_path in Ef. brefl.
  apply existsb_exists in Em as (pattern & Hin & Hm%pattern_matches_covers). split_and!; [tauto..|by exists pattern].
Qed.

(** ** The authorization *)

Lemma authorization_ok inspected key source va :
  verify_agent_change_authorization inspected key source = Ok va ->
  va_inspection va = inspected /\ va_key_id va = key_id_of (pk_der key) /\
  pk_verify key (ia_signature inspected) (AGENT_CHANGE_AUTHORIZATION_SIGNATURE_DOMAIN ++ ia_manifest_bytes inspected) = true.
Proof.
  unfold verify_agent_change_authorization, verify_bytes_with_key_id. intros (e & _ & Hv)%rbind_ok.
  destruct (negb (py_eq _ _)); [done|]. destruct (negb (Nat.eqb _ 64)); [done|].
  destruct (pk_verify _ _ _); [|done]. cbn [negb] in Hv. destruct (negb (eq_str _ _)); [done|]. by apply Ok_inj in Hv as <-.
Qed.

Lemma inspected_authorization_ok snapshot inspected :
  inspect_agent_change_authorization_bytes parse_zip snapshot = Ok inspected ->
  ia_archive_bytes inspected = snapshot /\
  exists v, _load_json_object (ia_manifest_bytes inspected) "authorization manifest" = Ok v /\
            validate_agent_change_authorization v = Ok (ia_payload inspected).
Proof.
  unfold inspect_agent_change_authorization_bytes. case_if; [done|]. intros (? & _ & Hi)%rbind_ok.
  destruct (parse_zip snapshot) as [[c [|m1 [|m2 [|]]]]|]; try done.
  apply rbind_ok in Hi as (? & _ & (? & _ & (? & _ & (mb & _ & (sb & _ & (v & Hv%of_bundle_ok & (p & Hp & (cm & _ & Hi)%rbind_ok)%rbind_ok)%rbind_ok)%rbind_ok)%rbind_ok)%rbind_ok)%rbind_ok).
  destruct (negb (bytes_eqb cm mb)); [done|]. apply rbind_ok in Hi as (s & _ & Hi). destruct (_archive_bytes _); [|done].
  destruct (bytes_eqb _ _); [|done]. apply Ok_inj in Hi as <-. cbn. split; [done|]. by exists v.
Qed.

(** The scope of a validated authorization. *)
Lemma authorized_scope_ok v payload :
  validate_agent_change_authorization v = Ok payload ->
  (exists b, dget (sub_object payload "scope") (u "allow_deletions") = VBool b).
Proof.
  unfold validate_agent_change_authorization. case_if; [done|]. case_if; [done|].
  intros (source & _ & (scope & Hs & (required & _ & (auth & _ & <-%Ok_inj)%rbind_ok)%rbind_ok)%rbind_ok)%rbind_ok.
  change (sub_object _ "scope") with scope. revert Hs. unfold _validate_scope.
  intros (s & _ & (? & Hd & <-%Ok_inj)%rbind_ok)%rbind_ok. unfold demand in Hd. rewrite require_all_ok in Hd.
  specialize (Hd _ (or_intror (or_intror (or_intror (or_intror (or_intror (or_introl eq_refl))))))). cbn [snd] in Hd.
  change (dget (dict_of _) (u "allow_deletions")) with (dget s (u "allow_deletions")).
  destruct (dget s (u "allow_deletions")); try done. by eexists.
Qed.

(** ** The contract *)

Lemma validated_bindings_ok bindings checked : _validated_bindings bindings = Ok checked -> checked = bindings.
Proof.
  unfold _validated_bindings. by intros (c & Hc%of_derivation_ok%agent_bindings_same & (? & _ & <-%Ok_inj)%rbind_ok)%rbind_ok.
Qed.

Lemma demand_ok checks x : demand checks = Ok x -> forall c, In c checks -> snd c = true.
Proof. apply require_all_ok. Qed.

Lemma contract_ok proposal authorization bindings source context ct :
  verify_agent_change_contract proposal authorization bindings source context = Ok ct ->
  let scope := sub_object (ia_payload (va_inspection authorization)) "scope" in
  let touched := v_strings (dget bindings (u "touched_paths")) in
  ct_authorization ct = authorization /\ ct_bindings ct = bindings /\ ct_proposal ct = proposal /\
  (forall path, In path touched -> permitted (v_strings (dget scope (u "allowed_patterns"))) path) /\
  (exists n, dget scope (u "maximum_touched_paths") = VInt n /\ Z.of_nat (length touched) <= n) /\
  (v_strings (dget bindings (u "deleted_paths")) <> [] -> truthy (dget scope (u "allow_deletions")) = true).
Proof.
  unfold verify_agent_change_contract. intros (b & ->%validated_bindings_ok & Hc)%rbind_ok. cbn zeta in Hc |- *.
  apply rbind_ok in Hc as (? & _ & (? & _ & (? & _ & (? & _ & (? & _ & (? & Hl & (? & Hs & <-%Ok_inj)%rbind_ok)%rbind_ok)%rbind_ok)%rbind_ok)%rbind_ok)%rbind_ok).
  pose proof (demand_ok _ _ Hl) as Hd. cbn [ct_authorization ct_bindings ct_proposal]. split_and!; try done.
  - intros path Hin. by eapply scope_of_paths_ok.
  - specialize (Hd _ (or_introl eq_refl)). cbn [snd] in Hd. revert Hd. unfold at_most.
    destruct (dget _ (u "maximum_touched_paths")) as [| |m| | | |]; try done. intros Hle. exists m. split; [done|]. brefl. lia.
  - intros Hne. specialize (Hd _ (or_intror (or_intror (or_introl eq_refl)))). cbn [snd] in Hd.
    apply orb_true_iff in Hd as [He|He]; [|done]. by apply is_empty_iff in He.
Qed.

(** ** The admission *)

Lemma finalized_key_ok bundle key source context vb :
  verify_finalized_bundle parse_zip bundle key source context = Ok vb ->
  pk_verify key (ib_signature (vb_bundle vb)) (SIGNING_DOMAIN ++ ib_manifest_bytes (vb_bundle vb)) = true /\
  exists manifest, ib_manifest (vb_bundle vb) = Ok manifest /\
    dget (sub_object manifest "authentication") (u "key_id") = VStr (key_id_of (pk_der key)).
Proof.
  unfold verify_finalized_bundle. intros (w & Hw & Hd)%rbind_ok.
  assert (Hb : vb_bundle vb = vb_bundle w).
  { destruct (materials_for (vb_bundle w) FINALIZER_DERIVATION_ROLE) as [|m [|]]; try done.
    apply rbind_ok in Hd as (d & _ & ([ds dc] & _ & Hd)%rbind_ok). case_if; [|done]. by apply Ok_inj in Hd as <-. }
  rewrite Hb. destruct (without_derivation_ok _ _ _ _ _ _ Hw) as (_ & Hsig & _). split; [done|].
  revert Hw. unfold verify_finalized_bundle_without_derivation.
  intros (b & _ & (? & Hs%converted_ok & Hw)%rbind_ok)%rbind_ok.
  assert (Hwb : vb_bundle w = b).
  { apply rbind_ok in Hw as (? & _ & (v & _ & Hw)%rbind_ok). cbn zeta in Hw. case_if; [done|].
    destruct (materials_for b FINALIZER_HANDOFF_ROLE) as [|m [|]]; try done.
    by apply rbind_ok in Hw as (i & _ & (h & _ & <-%Ok_inj)%rbind_ok). }
  rewrite Hwb. revert Hs. unfold verify_bundle_signature, verify_bytes_with_key_id.
  assert (Hid : forall (r : bool * str), snd r = key_id_of (pk_der key) ->
    (let '(verified, trusted_key_id) := r in
     let* manifest := ib_manifest b in
     let claimed := match dget manifest (u "authentication") with VDict d => dget d (u "key_id") | _ => VNone end in
     if negb (eq_str claimed trusted_key_id) then Err (BadSignature "key_id")
     else if negb verified then Err (BadSignature "invalid") else Ok tt) = Ok tt ->
    exists manifest, ib_manifest b = Ok manifest /\
      dget (sub_object manifest "authentication") (u "key_id") = VStr (key_id_of (pk_der key))).
  { intros [verified id] Hid. cbn [snd] in Hid. subst id. intros (m & Hm & Hv)%rbind_ok. exists m. split; [done|]. cbn zeta in Hv.
    unfold sub_object. destruct (dget m (u "authentication")) as [| | | | | |d]; try done.
    destruct (eq_str _ _) eqn:E; [by apply eq_str_eq|done]. }
  destruct x. apply Hid. by case_if.
Qed.

(** What a verified admission rests on. *)
Lemma admission_ok bundle fk ak asource source context bindings required adm :
  verify_agent_change_finalized_bundle parse_zip bundle fk ak asource source context bindings required = Ok adm ->
  verify_finalized_bundle parse_zip bundle fk source context = Ok (ad_finalized adm) /\
  vb_decision (ad_finalized adm) = u "ALLOW" /\ key_id_of (pk_der fk) <> key_id_of (pk_der ak) /\
  exists m inspected authorization proposal,
    materials_for (vb_bundle (ad_finalized adm)) AGENT_CHANGE_AUTHORIZATION_ROLE = [m] /\
    inspect_agent_change_authorization_bytes parse_zip (vm_data m) = Ok inspected /\
    verify_agent_change_authorization inspected ak asource = Ok authorization /\
    verify_agent_change_contract proposal authorization bindings source context = Ok (ad_contract adm).
Proof.
  unfold verify_agent_change_finalized_bundle. intros (f & Hf%of_finalizer_ok & Ha)%rbind_ok.
  destruct (vb_decision f =s? u "ALLOW") eqn:Ed; [|done]. cbn [negb] in Ha. apply str_eqb_eq in Ed.
  apply rbind_ok in Ha as (pb & _ & (p & _ & Ha)%rbind_ok). destruct (format_is required p); [|done]. cbn [negb] in Ha.
  apply rbind_ok in Ha as (archive & Harch & (i & Hi & (a & Hva & (bb & _ & (e & _ & (x & ->%validated_bindings_ok & Ha)%rbind_ok)%rbind_ok)%rbind_ok)%rbind_ok)%rbind_ok).
  destruct (py_eq (VDict e) (VDict bindings)); [|done]. cbn [negb] in Ha.
  apply rbind_ok in Ha as (m & Hm%of_bundle_ok & Ha).
  destruct (eq_str _ (va_key_id a)) eqn:Ek; [done|]. apply rbind_ok in Ha as (c & Hc & <-%Ok_inj).
  destruct (finalized_key_ok _ _ _ _ _ Hf) as (_ & m' & Hm' & Hid). rewrite Hm in Hm'. apply Ok_inj in Hm' as <-.
  destruct (authorization_ok _ _ _ _ Hva) as (_ & Hkid & _). cbn [ad_finalized ad_contract].
  split; [done|]. split; [done|]. split.
  { intros Heq. rewrite Hid, Hkid, <- Heq in Ek. cbn [eq_str] in Ek. by rewrite str_eqb_refl in Ek. }
  unfold _material_bytes in Harch. destruct (materials_for _ _) as [|mat [|]] eqn:Em; try done.
  apply Ok_inj in Harch as <-. by exists mat, i, a, p.
Qed.

(** C23: An agent's change is admitted offline only on the word of two keys with separate
    roles: the bundle is a finalized bundle that allows under the finalizer's key, and
    the one authorization it carries is signed by the other, authorization key under
    its own domain. Every touched path of the external raw-Git bindings is covered by
    a pattern of that authorization, is not a path that a judge owns, their number is
    within the authorized limit, and paths are deleted only where it allows that. *)
Theorem verified_admission_sound bundle fk ak asource source context bindings required adm :
  verify_agent_change_finalized_bundle parse_zip bundle fk ak asource source context bindings required = Ok adm ->
  exists m auth,
    let b := vb_bundle (ad_finalized adm) in
    let scope := sub_object (ia_payload auth) "scope" in
    let touched := v_strings (dget bindings (u "touched_paths")) in
    vb_decision (ad_finalized adm) = u "ALLOW" /\ key_id_of (pk_der fk) <> key_id_of (pk_der ak) /\
    pk_verify fk (ib_signature b) (SIGNING_DOMAIN ++ ib_manifest_bytes b) = true /\
    materials_for b AGENT_CHANGE_AUTHORIZATION_ROLE = [m] /\
    inspect_agent_change_authorization_bytes parse_zip (vm_data m) = Ok auth /\
    pk_verify ak (ia_signature auth) (AGENT_CHANGE_AUTHORIZATION_SIGNATURE_DOMAIN ++ ia_manifest_bytes auth) = true /\
    (forall path, In path touched -> permitted (v_strings (dget scope (u "allowed_patterns"))) path) /\
    (exists n, dget scope (u "maximum_touched_paths") = VInt n /\ Z.of_nat (length touched) <= n) /\
    (v_strings (dget bindings (u "deleted_paths")) <> [] -> dget scope (u "allow_deletions") = VBool true).
Proof.
  intros (Hf & Hd & Hk & m & i & a & p & Hm & Hi & Ha & Hc)%admission_ok. exists m, i. cbn zeta.
  destruct (finalized_key_ok _ _ _ _ _ Hf) as [Hsig _]. destruct (authorization_ok _ _ _ _ Ha) as (<- & _ & Hasig).
  destruct (contract_ok _ _ _ _ _ _ Hc) as (_ & _ & _ & Hp & Hn & Hdel).
  destruct (inspected_authorization_ok _ _ Hi) as (_ & v & _ & [b Hb]%authorized_scope_ok).
  split_and!; try done. intros Hne%Hdel. rewrite Hb in *. destruct b; done.
Qed.

(** C18: Sealing an agent's change confines the whole change: when a bundle is sealed, every
    path at which the base tree and the head tree of the finalizer's own object stores
    differ - ignored directories included - is covered by a pattern of an authorization
    that the authorization key signed, is not a path that a judge owns, and is missing
    from the head only where that authorization allows deletions; the finalizer's
    decision is ALLOW and its key is not the authorization key. *)
Theorem sealed_change_confined pf af hf vf output base head asource ak source context sk fk derivation required force
    published reread staged adm base_sha head_sha base_entries head_entries :
  seal_agent_change_finalizer_bundle parse_zip pf af hf vf output base head asource ak source context sk fk derivation
    required force published reread staged = Ok adm ->
  dget source (u "base_sha") = VStr base_sha -> dget source (u "head_sha") = VStr head_sha ->
  tree base base_sha = Ok base_entries -> tree head head_sha = Ok head_entries ->
  exists auth,
    let scope := sub_object (ia_payload auth) "scope" in
    pk_verify ak (ia_signature auth) (AGENT_CHANGE_AUTHORIZATION_SIGNATURE_DOMAIN ++ ia_manifest_bytes auth) = true /\
    key_id_of (pk_der fk) <> key_id_of (pk_der ak) /\ fe_decision (fa_finalized adm) = u "ALLOW" /\
    forall path, entry_at path base_entries <> entry_at path head_entries ->
      permitted (v_strings (dget scope (u "allowed_patterns"))) path /\
      (entry_at path head_entries = None -> dget scope (u "allow_deletions") = VBool true).
Proof.
  unfold seal_agent_change_finalizer_bundle, git_sha_of. intros Hseal Hbs Hhs Hb Hh. rewrite Hbs, Hhs in Hseal.
  destruct (git_sha_text base_sha); [|done]. destruct (git_sha_text head_sha); [|done]. cbn [rbind] in Hseal.
  apply rbind_ok in Hseal as (bts & _ & (hts & _ & (p & _ & (bindings & Hbind%of_derivation_ok & (i & _ & (a & _ & (c & _ & Hseal)%rbind_ok)%rbind_ok)%rbind_ok)%rbind_ok)%rbind_ok)%rbind_ok).
  case_if; [done|]. apply rbind_ok in Hseal as (ih & _ & (h & _ & Hseal)%rbind_ok). case_if; [done|].
  assert (Hpub : exists fin sh v, fe_decision fin = u "ALLOW" /\
     verify_agent_change_finalized_bundle parse_zip staged fk ak asource source context bindings required = Ok v /\
     adm = {| fa_finalized := fin; fa_handoff := sh; fa_contract := ad_contract v |}).
  { destruct output; try done; apply rbind_ok in Hseal as (ms & _ & ([fin sh] & _ & Hseal)%rbind_ok);
      destruct (fe_decision fin =s? u "ALLOW") eqn:Ed; try done; apply str_eqb_eq in Ed; cbn [negb] in Hseal;
      apply rbind_ok in Hseal as (v & Hv & (? & _ & <-%Ok_inj)%rbind_ok); by exists fin, sh, v. }
  destruct Hpub as (fin & sh & v & Hdec & (_ & _ & Hk & m & inspected & va & pr & _ & Hi & Hva & Hc)%admission_ok & ->).
  destruct (authorization_ok _ _ _ _ Hva) as (<- & _ & Hasig). exists (va_inspection va). cbn zeta.
  destruct (contract_ok _ _ _ _ _ _ Hc) as (_ & Hcb & _ & Hp & _ & Hdel). cbn [fa_finalized fa_contract].
  destruct (inspected_authorization_ok _ _ Hi) as (_ & w & _ & [b Hallow]%authorized_scope_ok).
  split_and!; try done.
  intros path Hne. destruct (derived_change_paths _ _ _ _ _ _ _ _ _ _ Hbind Hb Hh path) as [Ht Hr].
  split; [by apply Hp, Ht|]. intros Hnone. assert (Hin : In path (v_strings (dget bindings (u "deleted_paths")))).
  { apply Hr. split; [|done]. by rewrite Hnone in Hne. }
  destruct b; [done|]. rewrite Hallow in Hdel.
  assert (Htrue : truthy (VBool false) = true) by (apply Hdel; intros Hnil; by rewrite Hnil in Hin). discriminate Htrue.
Qed.
End Sound.
