(* ===== verification/AgentAdmissionSamples.v ===== *)
(** An agent's change that is admitted: a passing record of the sample proposal, an
    authorization of its scope, and the bundle that seals both. *)
From S2P Require Export AgentAdmissionSound FinalizerSamples.
Local Open Scope Z_scope.

Section Samples.
#[local] Existing Instance ascii_unicode.

Definition set_all (fields : list (string * value)) (d : dict) : dict :=
  fold_left (fun d f => dset (u (fst f)) (snd f) d) fields d.

(** ** The record of the proposal *)

Definition derived_policy : dict := sub_object sample_bindings "effective_policy".

Definition admitted_attestation : dict :=
  set_all [("candidate_sha256", dget sample_bindings (u "candidate_sha256"));
           ("deleted_paths", dget sample_bindings (u "deleted_paths"));
           ("policy_id", VNone); ("verifier_pack_sha256", VStr pack_pin);
           ("effective_policy", VDict derived_policy); ("policy_sha256", VStr (digest_of derived_policy))]
    repo_attestation.

Definition admitted_assurance : dict :=
  match dget repo_assurance (u "verifier_pack") with
  | VDict pack => dset (u "verifier_pack") (VDict (dset (u "snapshot_sha256") (VStr pack_pin) pack)) repo_assurance
  | _ => []
  end.

Definition admitted_record : dict :=
  set_all [("files_changed", strs ["app.py"; "new.py"]); ("diff_coverage", VNone); ("baseline", VNone);
           ("assurance", VDict admitted_assurance); ("attestation", VDict admitted_attestation)] repo_pass_record.

Lemma admitted_record_accepted : r_ok (verify_record (VDict admitted_record)) = true.
Proof. vm_compute. reflexivity. Qed.

Definition admitted_record_bytes : bytes := Eval vm_compute in outcome (_canonical_json admitted_record) [].

Definition admitted_context : dict :=
  Eval vm_compute in snd (outcome (context_from_verified_bindings sample_bindings admitted_record) ([], [])).

Definition admitted_handoff : bytes :=
  Eval vm_compute in
  snd (outcome (create_finalizer_handoff (sealed_snapshot admitted_record_bytes) sample_source admitted_context) ([], [])).

(** ** The proposal and the authorization *)

Definition change_bindings : dict := Eval vm_compute in sample_change_payload.
Definition pick (d : dict) (fields : list string) : dict := dict_of (map (fun f => (f, dget d (u f))) fields).

Definition agent_proposal : dict := dict_of [
  ("format", VStr AGENT_CHANGE_PROPOSAL_FORMAT_V2);
  ("producer", VDict (dict_of [("id", VStr (u "agent-1")); ("kind", VStr (u "coding-agent")); ("version", VStr (u "1"))]));
  ("source", VDict (expected_proposal_source sample_source admitted_context));
  ("intent", VDict (dict_of [("summary", VStr (u "update the application"));
                             ("declared_paths", dget change_bindings (u "touched_paths"))]));
  ("change", VDict (pick change_bindings (change_fields (Some FormatV2))));
  ("observed_policy", VDict (pick change_bindings ["policy_sha256"; "verifier_pack_sha256"]));
  ("claims", VList [VDict (dict_of [("id", VStr (u "unit-tests")); ("outcome", VStr (u "NOT_RUN"));
                                    ("evidence_sha256", VNone)])])].

Definition agent_proposal_bytes : bytes := Eval vm_compute in outcome (_canonical_json agent_proposal) [].

Definition authorization_source : dict :=
  set_all [("pull_request_number", VInt 7); ("authorization_run_id", VStr (u "auth-1"));
           ("authorization_run_attempt", VInt 1)]
    (pick admitted_context ["repository"; "repository_id"; "base_sha"; "head_sha"; "base_tree_sha"; "head_tree_sha"]).

Definition authorization_scope : dict := dict_of [
  ("allowed_patterns", strs ["app.py"; "dist/**"; "new.py"; "old/**"]); ("maximum_touched_paths", VInt 8);
  ("maximum_candidate_bytes", VInt 1000); ("allow_deletions", VBool true)].

(** The control plane has a key of its own. *)
Definition control_key : private_key := {| sk_public_der := [9]; sk_sign := sample_signature |}.
Definition control_public : public_key :=
  {| pk_der := [9]; pk_verify := fun signature payload => bytes_eqb signature (sample_signature payload) |}.

Definition no_authorization : InspectedAgentChangeAuthorization :=
  {| ia_archive_bytes := []; ia_manifest_bytes := []; ia_signature := []; ia_payload := [] |}.

Definition agent_authorization : bytes :=
  Eval vm_compute in
  ia_archive_bytes (outcome (seal_agent_change_authorization stored_zip authorization_source authorization_scope
    (pick change_bindings ["policy_sha256"; "verifier_pack_sha256"]) control_key OutputFree false sealed_snapshot)
    no_authorization).

(** ** The bundle *)

Definition admission_materials : list EvidenceMaterial := [
  {| em_role := AGENT_CHANGE_PROPOSAL_ROLE; em_file := sealed_snapshot agent_proposal_bytes |};
  {| em_role := AGENT_CHANGE_AUTHORIZATION_ROLE; em_file := sealed_snapshot agent_authorization |};
  {| em_role := AGENT_CHANGE_GIT_BINDINGS_ROLE;
     em_file := sealed_snapshot (outcome (agent_change_bindings_bytes change_bindings) []) |}].

Definition admission_bundle : bytes :=
  Eval vm_compute in
  snd (outcome (create_evidence_bundle (sealed_snapshot admitted_record_bytes) OutputFree admitted_context sample_key
    (outcome (_trusted_finalizer_materials admitted_handoff (Some (outcome (finalizer_bindings_bytes sample_bindings) []))
                admission_materials) []) false true) ([], [])).

Definition admission_result : admission_of VerifiedAgentChangeAdmission :=
  verify_agent_change_finalized_bundle stored_zip (sealed_snapshot admission_bundle) trusted_key control_public
    authorization_source sample_source admitted_context change_bindings FormatV2.

(** The proposal as it is inspected, and the contract of the sample. *)
Definition inspected_proposal : InspectedAgentChangeProposal :=
  outcome (inspect_agent_change_proposal_bytes agent_proposal_bytes) {| ip_bytes := []; ip_payload := [] |}.
Definition verified_authorization : VerifiedAgentChangeAuthorization :=
  outcome (let* i := inspect_agent_change_authorization_bytes stored_zip agent_authorization in
           verify_agent_change_authorization i control_public authorization_source)
    {| va_inspection := no_authorization; va_key_id := [] |}.
Definition sample_contract : VerifiedAgentChangeContract :=
  {| ct_proposal := inspected_proposal; ct_authorization := verified_authorization; ct_bindings := change_bindings |}.

Definition sample_admission : VerifiedAgentChangeAdmission :=
  Eval vm_compute in outcome admission_result {| ad_finalized := final_verified; ad_contract := sample_contract |}.

Lemma verified_admission_sound_witness :
  vb_decision (ad_finalized sample_admission) = u "ALLOW" /\
  exists auth, permitted (v_strings (dget (sub_object (ia_payload auth) "scope") (u "allowed_patterns"))) (u "dist/app.js").
Proof.
  assert (Ha : verify_agent_change_finalized_bundle stored_zip (sealed_snapshot admission_bundle) trusted_key control_public
                 authorization_source sample_source admitted_context change_bindings FormatV2 = Ok sample_admission)
    by (vm_compute; reflexivity).
  destruct (verified_admission_sound stored_zip (sealed_snapshot admission_bundle) trusted_key control_public
              authorization_source sample_source admitted_context change_bindings FormatV2 sample_admission Ha)
    as (m & auth & Hd & _ & _ & _ & _ & _ & Hp & _).
  split; [exact Hd|]. exists auth. apply Hp.
  assert (Hin : str_in (u "dist/app.js") (v_strings (dget change_bindings (u "touched_paths"))) = true)
    by (vm_compute; reflexivity).
  exact (proj1 (str_in_In _ _) Hin).
Defined.

Definition sealing_result : admission_of FinalizedAgentChangeAdmission :=
  seal_agent_change_finalizer_bundle stored_zip (sealed_snapshot agent_proposal_bytes) (sealed_snapshot agent_authorization)
    (sealed_snapshot admitted_handoff) (sealed_snapshot admitted_record_bytes) OutputFree base_git head_git
    authorization_source control_public sample_source admitted_context sample_key trusted_key sample_bindings FormatV2
    false sealed_snapshot sealed_snapshot (sealed_snapshot admission_bundle).
Definition sample_sealing : FinalizedAgentChangeAdmission :=
  Eval vm_compute in outcome sealing_result
    {| fa_finalized := {| fe_manifest := []; fe_record_report := verify_record VNone; fe_decision := [] |};
       fa_handoff := vb_handoff final_verified; fa_contract := sample_contract |}.

Lemma sealed_change_confined_witness :
  exists auth, permitted (v_strings (dget (sub_object (ia_payload auth) "scope") (u "allowed_patterns"))) (u "dist/app.js").
Proof.
  assert (Hs : seal_agent_change_finalizer_bundle stored_zip (sealed_snapshot agent_proposal_bytes)
                 (sealed_snapshot agent_authorization) (sealed_snapshot admitted_handoff)
                 (sealed_snapshot admitted_record_bytes) OutputFree base_git head_git authorization_source control_public
                 sample_source admitted_context sample_key trusted_key sample_bindings FormatV2 false sealed_snapshot
                 sealed_snapshot (sealed_snapshot admission_bundle) = Ok sample_sealing) by (vm_compute; reflexivity).
  assert (Hb : tree base_git (sha_of "a") = Ok base_entries) by (vm_compute; reflexivity).
  assert (Hh : tree head_git (sha_of "c") = Ok head_entries) by (vm_compute; reflexivity).
  assert (Hbs : dget sample_source (u "base_sha") = VStr (sha_of "a")) by (vm_compute; reflexivity).
  assert (Hhs : dget sample_source (u "head_sha") = VStr (sha_of "c")) by (vm_compute; reflexivity).
  assert (Hne : entry_at (u "dist/app.js") base_entries <> entry_at (u "dist/app.js") head_entries)
    by (vm_compute; discriminate).
  destruct (sealed_change_confined stored_zip (sealed_snapshot agent_proposal_bytes)
              (sealed_snapshot agent_authorization) (sealed_snapshot admitted_handoff)
              (sealed_snapshot admitted_record_bytes) OutputFree base_git head_git authorization_source control_public
              sample_source admitted_context sample_key trusted_key sample_bindings FormatV2 false sealed_snapshot
              sealed_snapshot (sealed_snapshot admission_bundle) sample_sealing (sha_of "a") (sha_of "c") base_entries
              head_entries Hs Hbs Hhs Hb Hh) as (auth & _ & _ & _ & Hp).
  exists auth. exact (proj1 (Hp (u "dist/app.js") Hne)).
Defined.
End Samples.
