(* ===== verification/CandidateTree.v ===== *)
(** Candidates from two directory trees (workspace/candidate_tree.py, as guard.py wires
    it): what the file system shows of each path, the comparison of two trees without
    following links, and the blocks and deletions a runner evaluates.

    The platform is POSIX; what the calls of the operating system observe is part of a
    tree. *)
From S2P Require Export Derivation.
Local Open Scope Z_scope.

(** ** Observations *)

Inductive entry_kind := KRegular | KDirectory | KSymlink | KSpecial | KUnreadable.

Inductive entry_problem_text := NoStat | NoReadlink | NotRegularFile | NoWalk.

(** [os.stat_result]: whether the file is regular, [_stat_identity] and
    [_stat_path_times]. *)
Record stat_result := { st_regular : bool; st_identity : list Z; st_path_times : Z * Z }.

(** One opened file: [lstat] before, [fstat] and [lstat] after the descriptor is open
    ([None] when [open] fails), what can be read of it, and [fstat] and [lstat] again;
    [None] is an [OSError]. *)
Record session := {
  se_before : option stat_result;
  se_opened : option (option stat_result);
  se_current : option stat_result;
  se_content : option bytes;
  se_opened_after : option stat_result;
  se_current_after : option stat_result }.

(** [TreeEntry]; the path of an entry stands for the sessions in which it is compared
    and read. *)
Record TreeEntry := {
  te_kind : entry_kind;
  te_mode : option Z;
  te_size : option Z;
  te_link_target : option str;
  te_problem : option entry_problem_text;
  te_identity : option (list Z);
  te_path_times : option (Z * Z);
  te_compared : session;
  te_read : session }.

#[export] Instance entry_kind_eq_dec : EqDecision entry_kind.
Proof. solve_decision. Defined.

(** What [lstat] and [readlink] show of a path. *)
Inductive path_type := LRegular | LDirectory | LSymlink | LOther.
Record lstat_result := { ls_type : path_type; ls_mode : Z; ls_size : Z; ls_stat : stat_result }.
Record path_observation := {
  ob_lstat : option lstat_result;
  ob_readlink : option str;
  ob_compared : session;
  ob_read : session }.

Definition entry_of_kind (o : path_observation) (kind : entry_kind) (mode : option Z) (problem : option entry_problem_text)
  : TreeEntry :=
  {| te_kind := kind; te_mode := mode; te_size := None; te_link_target := None; te_problem := problem;
     te_identity := None; te_path_times := None; te_compared := ob_compared o; te_read := ob_read o |}.

Definition tree_entry (o : path_observation) : TreeEntry :=
  match ob_lstat o with
  | None => entry_of_kind o KUnreadable None (Some NoStat)
  | Some info =>
      let mode := Some (ls_mode info) in
      match ls_type info with
      | LSymlink =>
          match ob_readlink o with
          | Some target =>
              {| te_kind := KSymlink; te_mode := mode; te_size := None; te_link_target := Some target; te_problem := None;
                 te_identity := None; te_path_times := None; te_compared := ob_compared o; te_read := ob_read o |}
          | None => entry_of_kind o KUnreadable mode (Some NoReadlink)
          end
      | LRegular =>
          {| te_kind := KRegular; te_mode := mode; te_size := Some (ls_size info); te_link_target := None;
             te_problem := None; te_identity := Some (st_identity (ls_stat info));
             te_path_times := Some (st_path_times (ls_stat info));
             te_compared := ob_compared o; te_read := ob_read o |}
      | LDirectory => entry_of_kind o KDirectory mode None
      | LOther => entry_of_kind o KSpecial mode (Some NotRegularFile)
      end
  end.

(** ** The walk *)

(** A name of a directory: whether the walk lists it with the directories, what its
    path shows, and its own listing ([None] when it cannot be read). *)
Inductive node := Node (listed_as_directory : bool) (shown : path_observation) (listing : option (list (str * node))).

Definition nd_directory (n : node) : bool := let '(Node d _ _) := n in d.
Definition nd_shown (n : node) : path_observation := let '(Node _ o _) := n in o.
Definition nd_listing (n : node) : option (list (str * node)) := let '(Node _ _ l) := n in l.

Section CandidateTree.
Context `{UnicodeDB}.

(** [tuple(sorted(set(copy_ignore) | {".git"}))] *)
Definition ignore_patterns : list str := sorted_set (u ".git" :: COPY_IGNORE).

Definition _ignored_copy_name (name : str) : bool := existsb (fnmatch name) ignore_patterns.

Definition path_below (rel name : str) : str := if is_empty rel then name else rel ++ ch_slash :: name.

Definition traversable (o : path_observation) : bool := bool_decide (te_kind (tree_entry o) = KDirectory).

(** The mapping [out] as its assignments: directories of a directory, its files, then
    what is below the directories that are followed. The listing of one that cannot be
    read replaces its entry by an unreadable one. *)
Fixpoint walk_below (n : node) (rel : str) {struct n} : list (str * TreeEntry) :=
  let '(Node _ o listing) := n in
  match listing with
  | None => if is_empty rel then [] else [(rel, entry_of_kind o KUnreadable None (Some NoWalk))]
  | Some l =>
      let kept := List.filter (fun c => negb (_ignored_copy_name (fst c)))
                    (map (fun c => (fst c, (snd c, walk_below (snd c)))) l) in
      let dirs := List.filter (fun c => nd_directory (fst (snd c))) kept in
      let files := List.filter (fun c => negb (nd_directory (fst (snd c)))) kept in
      map (fun c => (path_below rel (fst c), tree_entry (nd_shown (fst (snd c))))) (dirs ++ files)
      ++ flat_map (fun c => if traversable (nd_shown (fst (snd c))) then snd (snd c) (path_below rel (fst c)) else []) dirs
  end.

(** The last assignment of a key is its value. *)
Fixpoint last_entry (rel : str) (out : list (str * TreeEntry)) : option TreeEntry :=
  match out with
  | [] => None
  | (key, e) :: out' =>
      match last_entry rel out' with
      | Some found => Some found
      | None => if key =s? rel then Some e else None
      end
  end.

Definition walk_tree_entries (root : node) : list (str * TreeEntry) := walk_below root [].

(** ** Stable reads *)

Definition verify_regular_snapshot (entry : TreeEntry) (observed : stat_result) (path_observation : bool) : bool :=
  match te_identity entry with
  | None => false
  | Some identity =>
      st_regular observed && bool_decide (st_identity observed = identity)
      && (negb path_observation || bool_decide (te_path_times entry = Some (st_path_times observed)))
  end.

Definition verified (entry : TreeEntry) (observed : option stat_result) (path_observation : bool) : bool :=
  match observed with Some s => verify_regular_snapshot entry s path_observation | None => false end.

(** Whether the file opens as what was classified; otherwise an [OSError]. *)
Definition open_regular_snapshot (entry : TreeEntry) (s : session) : bool :=
  verified entry (se_before s) true
  && match se_opened s with
     | None => false
     | Some opened => verified entry opened false && verified entry (se_current s) true
     end.

Definition verify_open_regular_snapshot (entry : TreeEntry) (s : session) : bool :=
  verified entry (se_opened_after s) false && verified entry (se_current_after s) true.

(** Why a changed path has no block. *)
Inductive tree_problem :=
| EmptyDirectory
| TypeChangedTo (base head : entry_kind)
| ModeDiffers
| CompareFailed
| ReadFailed
| NotUtf8
| NoStableSize
| AboveLimit
| GrewAboveLimit
| Unrepresentable (kind : entry_kind) (problem : option entry_problem_text).

Definition entry_problem (entry : TreeEntry) : tree_problem := Unrepresentable (te_kind entry) (te_problem entry).

(** [None] is an [OSError]. *)
Definition regular_files_equal (base head : TreeEntry) : option bool :=
  if negb (bool_decide (te_kind base = KRegular)) || negb (bool_decide (te_kind head = KRegular)) then None
  else if negb (open_regular_snapshot base (te_compared base)) || negb (open_regular_snapshot head (te_compared head)) then None
  else
    let equal :=
      if negb (bool_decide (te_size base = te_size head)) then Some false
      else match se_content (te_compared base), se_content (te_compared head) with
           | Some base_content, Some head_content => Some (bytes_eqb base_content head_content)
           | _, _ => None
           end in
    match equal with
    | None => None
    | Some equal =>
        if verify_open_regular_snapshot base (te_compared base) && verify_open_regular_snapshot head (te_compared head)
        then Some equal else None
    end.

(** Whether a path changed, or why that cannot be told. *)
Definition entries_changed (base : option TreeEntry) (head : TreeEntry) : result tree_problem bool :=
  match base with
  | None => Ok true
  | Some base =>
      if bool_decide (te_kind base = KUnreadable) then Err (entry_problem base)
      else if bool_decide (te_kind head = KUnreadable) then Err (entry_problem head)
      else if negb (bool_decide (te_kind base = te_kind head)) then Err (TypeChangedTo (te_kind base) (te_kind head))
      else if negb (bool_decide (te_mode base = te_mode head)) then Err ModeDiffers
      else
        match te_kind head with
        | KRegular => match regular_files_equal base head with Some equal => Ok (negb equal) | None => Err CompareFailed end
        | KSymlink => Ok (negb (bool_decide (te_link_target base = te_link_target head)))
        | KDirectory => Ok false
        | _ => Err (entry_problem head)
        end
  end.

(** [read_fd_bounded] *)
Definition read_fd_bounded (s : session) (maximum : Z) : option bytes :=
  match se_content s with Some content => Some (first_bytes maximum content) | None => None end.

Definition read_changed_text (entry : TreeEntry) (max_bytes : Z) : result tree_problem str :=
  match te_size entry with
  | None => Err NoStableSize
  | Some size =>
      if max_bytes <? size then Err AboveLimit
      else if negb (open_regular_snapshot entry (te_read entry)) then Err ReadFailed
      else
        match read_fd_bounded (te_read entry) (max_bytes + 1) with
        | None => Err ReadFailed
        | Some data =>
            if max_bytes <? Z.of_nat (length data) then Err GrewAboveLimit
            else if negb (verify_open_regular_snapshot entry (te_read entry)) then Err ReadFailed
            else match utf8_decode data with Some text => Ok text | None => Err NotUtf8 end
        end
  end.

(** ** The candidate *)

Definition directory_has_regular_descendant (entries : list (str * TreeEntry)) (directory : str) : bool :=
  let prefix := rstrip_by (N.eqb ch_slash) directory ++ [ch_slash] in
  existsb (fun rel => starts_with prefix rel
                      && match last_entry rel entries with Some e => bool_decide (te_kind e = KRegular) | None => false end)
    (map fst entries).

(** What one path of the head contributes: a block, nothing, or a problem. *)
Definition head_path (base_entries head_entries : list (str * TreeEntry)) (max_bytes : Z) (rel : str) (head : TreeEntry)
  : result tree_problem (option str) :=
  let base := last_entry rel base_entries in
  if bool_decide (te_kind head = KDirectory) && negb (match base with Some _ => true | None => false end) then
    if directory_has_regular_descendant head_entries rel then Ok None else Err EmptyDirectory
  else
    let* changed := entries_changed base head in
    if negb changed then Ok None
    else if negb (bool_decide (te_kind head = KRegular)) then Err (entry_problem head)
    else let* text := read_changed_text head max_bytes in Ok (Some text).

(** The loop over the paths of the head: its blocks and problems. *)
Fixpoint head_paths (base_entries head_entries : list (str * TreeEntry)) (max_bytes : Z) (paths : list str)
  : list (str * str) * list (str * tree_problem) :=
  match paths with
  | [] => ([], [])
  | rel :: paths' =>
      let '(blocks, problems) := head_paths base_entries head_entries max_bytes paths' in
      match last_entry rel head_entries with
      | None => (blocks, problems)
      | Some head =>
          match head_path base_entries head_entries max_bytes rel head with
          | Ok (Some text) => ((rel, text) :: blocks, problems)
          | Ok None => (blocks, problems)
          | Err problem => (blocks, (rel, problem) :: problems)
          end
      end
  end.

Inductive tree_error :=
| NegativeLimit
| BadRoots (base head : option tree_problem)
| UnverifiableChangedPathsError (problems : list (str * tree_problem)).

Definition root_problem (root : node) : option tree_problem :=
  let entry := tree_entry (nd_shown root) in
  if bool_decide (te_kind entry = KDirectory) then None else Some (entry_problem entry).

Definition blocks_from_dirs (base_dir head_dir : node) (max_bytes : Z) : result tree_error (list (str * str) * list str) :=
  if max_bytes <? 0 then Err NegativeLimit
  else
    match root_problem base_dir, root_problem head_dir with
    | None, None =>
        let base_entries := walk_tree_entries base_dir in
        let head_entries := walk_tree_entries head_dir in
        let deleted := sorted_set (List.filter (fun p => negb (str_in p (map fst head_entries))) (map fst base_entries)) in
        let '(blocks, problems) := head_paths base_entries head_entries max_bytes (sorted_set (map fst head_entries)) in
        if is_empty problems then Ok (blocks, deleted) else Err (UnverifiableChangedPathsError problems)
    | base, head => Err (BadRoots base head)
    end.

Definition candidate_from_dirs (base_dir head_dir : node) (max_bytes : Z) : result tree_error (str * list str) :=
  let* (blocks, deleted) := blocks_from_dirs base_dir head_dir max_bytes in
  Ok (serialize_candidate_blocks blocks, deleted).
End CandidateTree.
