(* ===== verification/CandidateAgree.v ===== *)
(** The two derivations of a candidate agree: what a runner reads from clean checkouts
    of the base and the head (workspace/candidate_tree.py) is what the finalizer reads
    from the raw objects of the same trees (finalizer_derivation.py). *)
From S2P Require Export DerivationSound CandidateTree.
Local Open Scope Z_scope.

(** ** Generic facts *)

Lemma split_py_join c names : names <> [] -> Forall (fun w => ~ In c w) names -> split_char c (py_join [c] names) = names.
Proof.
  intros Hne Hf. induction Hf as [|w names Hw Hf IH]; [done|]. destruct names as [|w' names]; [by apply split_char_single|].
  change (py_join [c] (w :: w' :: names)) with (w ++ c :: py_join [c] (w' :: names)). by rewrite split_char_app, IH.
Qed.

Lemma sorted_set_ext l l' : (forall x, In x l <-> In x l') -> sorted_set l = sorted_set l'.
Proof.
  intros He. unfold sorted_set, sort_str. apply (Sorted_perm_eq str_leb str_leb_trans str_leb_antisym); [apply sort_str_Sorted..|].
  rewrite <- !py_sort_perm. apply NoDup_Permutation; [apply dedup_str_NoDup..|].
  intros x. by rewrite !list_elem_of_In, !dedup_str_In.
Qed.

Lemma flat_map_NoDup_keys {A} (own : str -> list (str * A)) l :
  NoDup l -> (forall x p, In p (own x) -> fst p = x) -> (forall x, NoDup (map fst (own x))) ->
  NoDup (map fst (flat_map own l)).
Proof.
  intros Hd Hk Ho. induction Hd as [|x l Hx Hd IH]; [constructor|]. cbn [flat_map]. rewrite map_app. apply NoDup_app.
  split; [apply Ho|]. split; [|done]. intros p Hp Hq. rewrite list_elem_of_In in Hp, Hq, Hx. apply Hx.
  apply in_map_iff in Hp as (a & <- & Ha), Hq as (b & Hab & Hb). apply in_flat_map in Hb as (y & Hy & Hb).
  apply Hk in Ha, Hb. congruence.
Qed.

Lemma serialize_perm blocks blocks' :
  NoDup (map fst blocks) -> Permutation blocks blocks' ->
  serialize_candidate_blocks blocks = serialize_candidate_blocks blocks'.
Proof.
  intros Hd Hp. unfold serialize_candidate_blocks.
  assert (Hk : sort_str (map fst blocks) = sort_str (map fst blocks')).
  { apply (Sorted_perm_eq str_leb str_leb_trans str_leb_antisym); [apply sort_str_Sorted..|].
    unfold sort_str. rewrite <- !py_sort_perm. by apply Permutation_map. }
  rewrite <- Hk. f_equal. apply map_ext_in. intros rel Hrel. f_equal. unfold sort_str in Hrel. rewrite py_sort_In in Hrel.
  apply in_map_iff in Hrel as ([p t] & <- & Hin). cbn [fst]. rewrite (item_lookup p t blocks Hd Hin). symmetry.
  apply item_lookup; [by rewrite <- Hp|]. by eapply Permutation_in.
Qed.

Section Agree.
Context `{UnicodeDB}.

(** ** Ignored names *)

Lemma ignored_names_literal : Forall (fun p => forallb (fun c => negb (glob_special c)) p = true) (u ".git" :: COPY_IGNORE).
Proof. by repeat constructor. Qed.

Lemma ignored_copy_name_spec name : _ignored_copy_name name = str_in name (u ".git" :: COPY_IGNORE).
Proof.
  pose proof ignored_names_literal as Hl. rewrite List.Forall_forall in Hl.
  apply eq_true_iff_eq. unfold _ignored_copy_name. rewrite existsb_exists, str_in_In. split.
  - intros (p & Hp & Hm). unfold ignore_patterns in Hp. rewrite sorted_set_In in Hp.
    apply fnmatch_literal in Hm as ->; [done|by apply Hl].
  - intros Hin. exists name. split; [by apply sorted_set_In|]. by apply fnmatch_literal; [apply Hl|].
Qed.

Definition unignored (names : list str) : Prop := Forall (fun name => _ignored_copy_name name = false) names.

Lemma ignored_path_unignored path : _ignored_path path None = false <-> unignored (path_parts path).
Proof.
  unfold _ignored_path, unignored, path_parts. rewrite existsb_false, List.Forall_forall.
  by setoid_rewrite ignored_copy_name_spec.
Qed.

(** ** The walk of a readable tree *)

Fixpoint child (name : str) (l : list (str * node)) : option node :=
  match l with
  | [] => None
  | (n, c) :: l' => if n =s? name then Some c else child name l'
  end.

(** The node below the names of a path, through directories. *)
Fixpoint node_at (n : node) (names : list str) : option node :=
  match names with
  | [] => Some n
  | name :: names' =>
      if traversable (nd_shown n) then
        match nd_listing n with
        | Some l => match child name l with Some c => node_at c names' | None => None end
        | None => None
        end
      else None
  end.

(** Every directory that is not ignored can be listed, with distinct names. *)
Inductive clean : node -> Prop :=
| clean_leaf d o l : traversable o = false -> clean (Node d o l)
| clean_directory o l :
    traversable o = true -> NoDup (map fst l) ->
    (forall name c, In (name, c) l -> name <> [] /\ ~ In ch_slash name) ->
    (forall name c, In (name, c) l -> _ignored_copy_name name = false -> clean c) ->
    clean (Node true o (Some l)).

Lemma child_In name l c : NoDup (map fst l) -> child name l = Some c <-> In (name, c) l.
Proof.
  intros Hd. split.
  - clear Hd. induction l as [|[n x] l IH]; cbn; [done|]. case_if; brefl; [intros [= ->]; subst; by left|by right; auto].
  - induction l as [|[n x] l IH]; [done|]. cbn [map fst] in Hd. apply NoDup_cons in Hd as [Hn Hd]. intros [[= -> ->]|Hin]; cbn.
    + by rewrite str_eqb_refl.
    + case_if; brefl; [|by apply IH]. subst. destruct Hn. apply list_elem_of_In, in_map_iff. by exists (name, c).
Qed.

Lemma clean_traversable n : clean n -> traversable (nd_shown n) = true -> nd_directory n = true /\ exists l, nd_listing n = Some l.
Proof. intros Hc Ht. destruct Hc as [d o l Hf|o l ? ? ? ?]; cbn in *; [congruence|]. split; [done|by exists l]. Qed.

Definition plain (pre : list str) : Prop := Forall (fun w => w <> [] /\ ~ In ch_slash w) pre.

Lemma path_below_join pre name : plain pre -> path_below (py_join [ch_slash] pre) name = py_join [ch_slash] (pre ++ [name]).
Proof.
  intros Hp. destruct Hp as [|w pre [Hw _] Hp]; [done|]. unfold path_below.
  rewrite py_join_app by done. cbn [app]. destruct pre as [|w' pre]; cbn [py_join]; (destruct w; [done|done]).
Qed.

(** The paths the walk lists below a directory, and what it records of each. *)
Lemma walk_below_In n : clean n -> traversable (nd_shown n) = true -> forall pre rel te, plain pre ->
  In (rel, te) (walk_below n (py_join [ch_slash] pre)) <->
  exists names m, names <> [] /\ plain names /\ unignored names /\ node_at n names = Some m /\
    rel = py_join [ch_slash] (pre ++ names) /\ te = tree_entry (nd_shown m).
Proof.
  intros Hc. induction Hc as [d o l Hf|o l Ht Hd Hn Hcl IH]; cbn [nd_shown]; [congruence|]. intros _ pre rel te Hp.
  cbn [walk_below]. rewrite in_app_iff.
  set (kept := List.filter (fun c => negb (_ignored_copy_name (fst c))) (map (fun c => (fst c, (snd c, walk_below (snd c)))) l)).
  set (dirs := List.filter (fun c => nd_directory (fst (snd c))) kept).
  set (files := List.filter (fun c => negb (nd_directory (fst (snd c)))) kept).
  assert (Hk : forall name c w, In (name, (c, w)) kept <-> In (name, c) l /\ _ignored_copy_name name = false /\ w = walk_below c).
  { intros name c w. unfold kept. rewrite filter_In, in_map_iff, negb_true_iff. cbn [fst]. split.
    - intros [([n x] & [= -> -> <-] & Hin) Hi]. done.
    - intros (Hin & Hi & ->). split; [|done]. by exists (name, c). }
  assert (Hdf : forall x, In x (dirs ++ files) <-> In x kept).
  { intros x. unfold dirs, files. rewrite in_app_iff, !filter_In, negb_true_iff. destruct (nd_directory _); naive_solver. }
  split.
  - intros [Hin|Hin].
    + apply in_map_iff in Hin as ([name [c w]] & [= <- <-] & Hin). cbn [fst snd]. apply Hdf, Hk in Hin as (Hin & Hi & ->).
      exists [name], c. cbn [node_at nd_shown nd_listing]. rewrite Ht, (proj2 (child_In name l c Hd) Hin).
      split_and!; [done|constructor; [by eapply Hn|constructor]|by constructor|done|by apply path_below_join|done].
    + apply in_flat_map in Hin as ([name [c w]] & Hin & Hb). cbn [fst snd] in Hb.
      destruct (traversable (nd_shown c)) eqn:Etc; [|done].
      apply filter_In in Hin as [(Hin & Hi & ->)%Hk _]. destruct (Hn _ _ Hin) as [Hn1 Hn2].
      rewrite path_below_join in Hb by done.
      apply (IH name c Hin Hi Etc) in Hb as (names & m & Hne & Hpl & Hu & Hm & -> & ->);
        [|apply Forall_app; split; [done|by repeat constructor]].
      exists (name :: names), m. cbn [node_at nd_shown nd_listing]. rewrite Ht, (proj2 (child_In name l c Hd) Hin).
      split_and!; [done|by constructor|by constructor|done|by rewrite <- app_assoc|done].
  - intros (names & m & Hne & Hpl & Hu & Hm & -> & ->). destruct names as [|name names]; [done|].
    cbn [node_at nd_shown nd_listing] in Hm. rewrite Ht in Hm. destruct (child name l) as [c|] eqn:Ec; [|done].
    apply child_In in Ec; [|done]. apply Forall_cons in Hu as [Hi Hu], Hpl as [[Hw1 Hw2] Hpl].
    assert (Hin : In (name, (c, walk_below c)) kept) by by apply Hk.
    destruct names as [|name' names].
    + left. injection Hm as ->. apply in_map_iff. exists (name, (m, walk_below m)). cbn [fst snd].
      rewrite path_below_join by done. split; [done|by apply Hdf].
    + right. apply in_flat_map. exists (name, (c, walk_below c)).
      assert (Htc : traversable (nd_shown c) = true) by (cbn [node_at] in Hm; by destruct (traversable (nd_shown c))).
      cbn [fst snd]. rewrite Htc. split.
      * apply filter_In. split; [done|]. cbn [fst snd]. by apply clean_traversable; [apply (Hcl name)|].
      * rewrite path_below_join by done. apply (IH name c); [done..|apply Forall_app; split; [done|by repeat constructor]|].
        exists (name' :: names), m. split_and!; [done..|by rewrite <- app_assoc|done].
Qed.

(** ** Entries by path *)

Lemma last_entry_In rel out te : last_entry rel out = Some te -> In (rel, te) out.
Proof.
  revert te. induction out as [|[key e] out IH]; intros te; cbn; [done|].
  destruct (last_entry rel out) as [found|] eqn:E; [intros [= ->]; right; by apply IH|].
  case_if; brefl; [|done]. subst. intros [= ->]. by left.
Qed.

Lemma last_entry_keys rel out : In rel (map fst out) <-> exists te, last_entry rel out = Some te.
Proof.
  induction out as [|[key e] out IH]; cbn [map fst last_entry]; [split; [done|by intros (? & ?)]|].
  destruct (last_entry rel out) as [found|] eqn:E.
  - split; [intros _; by exists found|]. intros _. right. apply IH. by exists found.
  - case_if; brefl; subst; split; try (intros _; by exists e); try (by intros (? & ?)).
    + intros _. by left.
    + intros [->|Hin]; [done|]. by apply IH in Hin as (? & ?).
Qed.

Lemma node_at_plain n names m : clean n -> unignored names -> node_at n names = Some m -> plain names.
Proof.
  revert n. induction names as [|name names IH]; intros n Hc Hu Hm; [constructor|]. cbn [node_at] in Hm.
  destruct (traversable (nd_shown n)) eqn:Et; [|done]. destruct Hc as [d o l Hf|o l Ht Hd Hn Hcl]; [cbn in Et; congruence|].
  cbn [nd_listing] in Hm. destruct (child name l) as [c|] eqn:Ec; [|done]. apply child_In in Ec; [|done].
  apply Forall_cons in Hu as [Hi Hu]. constructor; [by eapply Hn|]. apply (IH c); [by apply (Hcl name)|done..].
Qed.

(** What the walk records of a path: what its node shows. *)
Lemma walk_lookup root rel te :
  clean root -> traversable (nd_shown root) = true ->
  last_entry rel (walk_tree_entries root) = Some te <->
  _ignored_path rel None = false /\ exists m, node_at root (path_parts rel) = Some m /\ te = tree_entry (nd_shown m).
Proof.
  intros Hc Ht.
  assert (Hw : forall te', In (rel, te') (walk_tree_entries root) <->
            _ignored_path rel None = false /\ exists m, node_at root (path_parts rel) = Some m /\ te' = tree_entry (nd_shown m)).
  { intros te'. unfold walk_tree_entries. change (@nil N) with (py_join [ch_slash] []). rewrite (walk_below_In root Hc Ht) by constructor.
    rewrite ignored_path_unignored. split.
    - intros (names & m & Hne & Hp & Hu & Hm & -> & ->). cbn [app]. unfold path_parts.
      rewrite split_py_join; [|done|eapply Forall_impl; [exact Hp|naive_solver]]. split; [done|by exists m].
    - intros (Hu & m & Hm & ->). exists (path_parts rel), m.
      split_and!; [apply split_char_nonempty|by eapply node_at_plain|done..| |done].
      cbn [app]. unfold path_parts. by rewrite split_join. }
  split; [intros Hl%last_entry_In; by apply Hw|]. intros Hr. pose proof (proj2 (Hw te) Hr) as Hin.
  destruct (proj1 (last_entry_keys rel (walk_tree_entries root))) as (te' & He); [apply in_map_iff; by exists (rel, te)|].
  rewrite He. f_equal. apply last_entry_In, Hw in He as (_ & m & Hm & ->). destruct Hr as (_ & m' & Hm' & ->). congruence.
Qed.

(** ** Clean checkouts

    [content] is the content of an object, [file_mode] and [directory_mode] what the
    process that checks out gives to files and directories, [link_target] how the
    platform decodes the text of a symbolic link. *)
Section Checkout.
Context (content : str -> bytes) (file_mode : str -> Z) (directory_mode link_mode : Z) (link_target : bytes -> str).

(** A regular file that nobody touches: every session opens what was classified and reads
    its content. *)
Definition regular_view (data : bytes) (mode : Z) (te : TreeEntry) : Prop :=
  te_kind te = KRegular /\ te_mode te = Some mode /\ te_size te = Some (zlen data) /\
  forall s, s = te_compared te \/ s = te_read te ->
    open_regular_snapshot te s = true /\ se_content s = Some data /\ verify_open_regular_snapshot te s = true.

Definition link_view (target : str) (te : TreeEntry) : Prop :=
  te_kind te = KSymlink /\ te_mode te = Some link_mode /\ te_link_target te = Some target.

Definition directory_view (te : TreeEntry) : Prop := te_kind te = KDirectory /\ te_mode te = Some directory_mode.

Definition stored_as (e : _GitEntry) (te : TreeEntry) : Prop :=
  (regular e = true /\ regular_view (content (ge_id e)) (file_mode (ge_mode e)) te)
  \/ (ge_mode e = u "120000" /\ ge_type e = u "blob" /\ link_view (link_target (content (ge_id e))) te).

(** A directory above an entry, hidden or not. *)
Definition above_any (path : str) (entries : tree_entries) : Prop :=
  exists q, In q (map fst entries) /\ In path (parent_paths q).

(** What Git's checkout of a tree without submodules leaves, apart from names that a copy
    ignores: every entry, the directories above entries, and nothing else. *)
Record checked_out (entries : tree_entries) (root : node) : Prop := {
  co_clean : clean root;
  co_entry : forall path e, In (path, e) (visible None entries) ->
    exists m, node_at root (path_parts path) = Some m /\ stored_as e (tree_entry (nd_shown m));
  co_nothing_else : forall path m, _ignored_path path None = false -> node_at root (path_parts path) = Some m ->
    In path (map fst entries) \/ (above_any path entries /\ directory_view (tree_entry (nd_shown m))) }.

(** No directory holds ignored entries only. *)
Definition exposed (entries : tree_entries) : Prop :=
  forall path, _ignored_path path None = false -> above_any path entries -> above path entries.

Lemma visible_In path e entries : In (path, e) (visible None entries) <-> In (path, e) entries /\ _ignored_path path None = false.
Proof. unfold visible. rewrite filter_In, negb_true_iff. done. Qed.

Lemma parent_paths_In path q :
  In path (parent_paths q) -> exists rest, rest <> [] /\ path_parts q = path_parts path ++ rest.
Proof.
  unfold parent_paths. rewrite in_map_iff. intros (i & <- & Hi%in_seq). fold (path_parts q) in *.
  exists (drop i (path_parts q)). split.
  { intros Hn%(f_equal length). rewrite length_drop in Hn. cbn [length] in Hn. lia. }
  unfold path_parts at 2. rewrite split_py_join; [by rewrite take_drop| |].
  - intros Hn%(f_equal length). rewrite length_take in Hn. cbn [length] in Hn. unfold str in *. lia.
  - apply List.Forall_forall. intros w Hw. apply (split_char_no_sep ch_slash q w). fold (path_parts q).
    rewrite <- (take_drop i (path_parts q)). apply in_app_iff. by left.
Qed.

Lemma above_visible path entries : above path entries -> _ignored_path path None = false.
Proof.
  intros (q & Hq & (rest & _ & Hr)%parent_paths_In). apply in_map_iff in Hq as ([q' e] & <- & Hq). apply visible_In in Hq as [_ Hq].
  rewrite ignored_path_unignored in *. cbn [fst] in Hr. rewrite Hr in Hq. by apply Forall_app in Hq as [? _].
Qed.

Lemma node_at_prefix n names rest m :
  rest <> [] -> node_at n (names ++ rest) = Some m -> exists d, node_at n names = Some d /\ traversable (nd_shown d) = true.
Proof.
  intros Hr. revert n. induction names as [|name names IH]; intros n; cbn [app node_at].
  - destruct rest as [|name rest]; [done|]. cbn [node_at]. intros Hm. exists n. split; [done|]. by destruct (traversable _).
  - destruct (traversable _); [|done]. destruct (nd_listing n) as [l|]; [|done]. destruct (child name l); [|done]. apply IH.
Qed.

Section OneTree.
Context (entries : tree_entries) (root : node) (Hco : checked_out entries root)
  (Hroot : traversable (nd_shown root) = true) (Hwf : NoDup (map fst entries)).

(** What the walk records of a path. *)
Lemma view_of_walk rel te :
  last_entry rel (walk_tree_entries root) = Some te ->
  _ignored_path rel None = false /\
  ((exists e, In (rel, e) (visible None entries) /\ stored_as e te) \/ (above_any rel entries /\ directory_view te)).
Proof.
  intros (Hi & m & Hm & ->)%walk_lookup; [|apply Hco|done]. split; [done|].
  destruct (co_nothing_else _ _ Hco rel m Hi Hm) as [Hin|Hd]; [left|by right].
  apply in_map_iff in Hin as ([q e] & <- & Hin). exists e. assert (Hv : In (q, e) (visible None entries)) by by apply visible_In.
  split; [done|]. destruct (co_entry _ _ Hco q e Hv) as (m' & Hm' & Hs). cbn [fst] in Hm. congruence.
Qed.

Lemma walk_of_entry rel e :
  In (rel, e) (visible None entries) -> exists te, last_entry rel (walk_tree_entries root) = Some te /\ stored_as e te.
Proof.
  intros Hv. destruct (co_entry _ _ Hco rel e Hv) as (m & Hm & Hs). exists (tree_entry (nd_shown m)). split; [|done].
  apply walk_lookup; [apply Hco|done|]. apply visible_In in Hv as [_ Hi]. split; [done|by exists m].
Qed.

Lemma walk_of_directory rel :
  above rel entries -> exists te, last_entry rel (walk_tree_entries root) = Some te /\ te_kind te = KDirectory.
Proof.
  intros Ha. pose proof (above_visible _ _ Ha) as Hi. destruct Ha as (q & Hq & (rest & Hr & Hqs)%parent_paths_In).
  apply in_map_iff in Hq as ([q' e] & <- & Hq). destruct (co_entry _ _ Hco q' e Hq) as (m & Hm & _). cbn [fst] in Hqs.
  rewrite Hqs in Hm. destruct (node_at_prefix _ _ _ _ Hr Hm) as (d & Hd & Ht). exists (tree_entry (nd_shown d)).
  split; [|unfold traversable in Ht; by case_bool_decide]. apply walk_lookup; [apply Hco|done|]. split; [done|by exists d].
Qed.

(** Without hidden directories, the walked paths are those a derivation expects. *)
Lemma walked_paths rel :
  exposed entries -> In rel (map fst (walk_tree_entries root)) <-> In rel (_tree_paths_with_directories entries).
Proof.
  intros He. rewrite last_entry_keys, tree_paths_In. split.
  - intros (te & (Hi & [(e & Hv & _)|[Ha _]])%view_of_walk); [left|right; by apply He]. apply in_map_iff. by exists (rel, e).
  - intros [Hin|Ha].
    + apply in_map_iff in Hin as ([q e] & <- & Hin). destruct (walk_of_entry _ _ Hin) as (te & Ht & _). by exists te.
    + destruct (walk_of_directory _ Ha) as (te & Ht & _). by exists te.
Qed.
End OneTree.

(** ** One path *)

(** The modes of the two kinds of regular files stay apart, links decode injectively, and
    an object is known by its content. *)
Definition modes_apart : Prop := file_mode (u "100644") <> file_mode (u "100755").

Definition content_addressed (base_entries head_entries : tree_entries) : Prop :=
  forall e e', In e (map snd base_entries) -> In e' (map snd head_entries) ->
    content (ge_id e) = content (ge_id e') -> ge_id e = ge_id e'.

Definition links_apart (base_entries head_entries : tree_entries) : Prop :=
  forall e e', In e (map snd base_entries) -> In e' (map snd head_entries) ->
    link_target (content (ge_id e)) = link_target (content (ge_id e')) -> content (ge_id e) = content (ge_id e').

Lemma regular_fields e : regular e = true -> (ge_mode e = u "100644" \/ ge_mode e = u "100755") /\ ge_type e = u "blob".
Proof.
  unfold regular. intros [Hm Ht]%andb_true_iff. brefl. destruct Hm as [<-|[<-|[]]]; auto.
Qed.

Lemma entry_eq e e' : ge_mode e = ge_mode e' -> ge_type e = ge_type e' -> ge_id e = ge_id e' -> e = e'.
Proof. destruct e, e'; cbn. congruence. Qed.

Lemma read_changed_text_ok data mode te max_bytes text :
  regular_view data mode te -> read_changed_text te max_bytes = Ok text -> zlen data <= max_bytes /\ utf8_decode data = Some text.
Proof.
  intros (_ & _ & Hs & Hse). destruct (Hse (te_read te)) as (Ho & Hc & Hv); [by right|].
  unfold read_changed_text, read_fd_bounded. rewrite Hs, Ho, Hc, Hv. cbn [negb].
  destruct (max_bytes <? zlen data) eqn:El; [done|]. rewrite first_bytes_take. brefl.
  rewrite take_ge; [|unfold zlen in El; lia]. fold (zlen data). destruct (max_bytes <? zlen data) eqn:El'; [done|].
  destruct (utf8_decode data) as [t|]; [|done]. intros <-%Ok_inj. done.
Qed.

Lemma regular_files_equal_view data mode data' mode' tb te :
  regular_view data mode tb -> regular_view data' mode' te ->
  regular_files_equal tb te = Some (bytes_eqb data data').
Proof.
  intros (Kb & _ & Sb & Vb) (Kh & _ & Sh & Vh). destruct (Vb (te_compared tb)) as (Ob & Cb & Wb); [by left|].
  destruct (Vh (te_compared te)) as (Oh & Ch & Wh); [by left|].
  unfold regular_files_equal. rewrite Kb, Kh, Ob, Oh, Cb, Ch, Wb, Wh, Sb, Sh. cbn [negb orb andb].
  rewrite !bool_decide_true by done. cbn [negb orb]. case_bool_decide as Hz; cbn [negb]; [done|].
  f_equal. symmetry. destruct (bytes_eqb data data') eqn:E; [|done]. apply bytes_eqb_eq in E as ->. done.
Qed.

Section Path.
Context (head : git_reader) (base_entries head_entries : tree_entries) (base_root head_root : node).
Context (Hbase : checked_out base_entries base_root) (Hhead : checked_out head_entries head_root).
Context (Htb : traversable (nd_shown base_root) = true) (Hth : traversable (nd_shown head_root) = true).
Context (Hmodes : modes_apart) (Hlinks : links_apart base_entries head_entries).
Context (Haddr : content_addressed base_entries head_entries) (Hdistinct : NoDup (map fst base_entries)).
Context (max_bytes : Z) (Hmax : max_bytes <= MAX_CANDIDATE_FILE_BYTES).
Context (Hblob : forall e, In e (map snd head_entries) -> zlen (content (ge_id e)) <= MAX_CANDIDATE_FILE_BYTES ->
           blob head (ge_id e) MAX_CANDIDATE_FILE_BYTES = Ok (content (ge_id e))).

Let base_tree : tree_entries := visible None base_entries.
Let base_walk : list (str * TreeEntry) := walk_tree_entries base_root.
Let head_walk : list (str * TreeEntry) := walk_tree_entries head_root.

(** What a path gives when nothing is wrong with it. *)
Definition block_of (rel : str) (text : option str) : list (str * str) :=
  match text with Some text => [(rel, text)] | None => [] end.

Lemma base_entry_at rel : _ignored_path rel None = false -> entry_at rel base_tree = entry_at rel base_entries.
Proof. intros Hi. unfold base_tree. by rewrite entry_at_visible, Hi. Qed.

Lemma base_entry_In rel e : In (rel, e) (visible None base_entries) -> entry_at rel base_tree = Some e.
Proof. intros Hv. apply entry_at_unique; [by apply visible_NoDup|done]. Qed.

Lemma snd_In rel (e : _GitEntry) entries : In (rel, e) (visible None entries) -> In e (map snd entries).
Proof. intros [Hin _]%visible_In. apply in_map_iff. by exists (rel, e). Qed.

Lemma written_block rel e te text :
  In (rel, e) (visible None head_entries) -> regular e = true -> regular_view (content (ge_id e)) (file_mode (ge_mode e)) te ->
  entry_at rel base_tree <> Some e -> (forall o, entry_at rel base_tree = Some o -> ge_mode o = ge_mode e) ->
  read_changed_text te max_bytes = Ok text -> represents head base_tree (rel, e) [(rel, text)].
Proof.
  intros Hv Hr Hvw Hne Hm (Hl & Hd)%(read_changed_text_ok _ _ _ _ _ Hvw).
  eapply written; [done..| |done]. apply Hblob; [by eapply snd_In|lia].
Qed.

(** A path of the head tree contributes what its node does. *)
Lemma entry_contribution rel e te text :
  In (rel, e) (visible None head_entries) -> stored_as e te ->
  head_path base_walk head_walk max_bytes rel te = Ok text -> represents head base_tree (rel, e) (block_of rel text).
Proof.
  intros Hv Hs. unfold head_path.
  assert (Hnd : bool_decide (te_kind te = KDirectory) = false).
  { destruct Hs as [(_ & Hk & _)|(_ & _ & Hk & _)]; rewrite Hk; done. }
  rewrite Hnd. cbn [andb].
  destruct (last_entry rel base_walk) as [tb|] eqn:Eb; cbn [entries_changed rbind negb].
  2:{ assert (Hn : entry_at rel base_tree = None).
      { apply entry_at_None. intros Hin. apply in_map_iff in Hin as ([q o] & <- & Hin).
        destruct (walk_of_entry _ _ Hbase Htb _ _ Hin) as (tb & Ht & _). cbn [fst] in Eb. unfold base_walk in Eb. congruence. }
      destruct Hs as [(Hr & Hvw)|(_ & _ & Hk & _)]; [|by rewrite Hk].
      pose proof Hvw as (Hk & _). rewrite Hk, bool_decide_true by done. cbn [negb]. intros (t & Ht & <-%Ok_inj)%rbind_ok.
      eapply written_block; [done..| | |done]; rewrite Hn; done. }
  destruct (view_of_walk _ _ Hbase Htb rel tb Eb) as (Hi & [(o & Ho & Hso)|[_ [Hk _]]]).
  2:{ unfold entries_changed. rewrite Hk. destruct Hs as [(_ & Hk' & _)|(_ & _ & Hk' & _)]; rewrite Hk'; done. }
  pose proof (base_entry_In _ _ Ho) as Hat.
  destruct Hso as [(Hro & Hvo)|(Hmo & Hto & Hko & Hwo & Hlo)], Hs as [(Hr & Hvw)|(Hm & Ht & Hk & Hw & Hl)].
  - pose proof Hvo as (Kb & Mb & _). pose proof Hvw as (Kh & Mh & _). unfold entries_changed.
    rewrite (regular_files_equal_view _ _ _ _ _ _ Hvo Hvw), Kb, Kh, Mb, Mh.
    destruct (regular_fields _ Hro) as [Hmo Hto], (regular_fields _ Hr) as [Hm Ht].
    rewrite (bool_decide_false (KRegular = KUnreadable)), (bool_decide_true (KRegular = KRegular)) by done. cbn [negb].
    destruct (bool_decide (Some (file_mode (ge_mode o)) = Some (file_mode (ge_mode e)))) eqn:Emode; cbn [negb rbind]; [|done].
    assert (Hme : ge_mode o = ge_mode e).
    { apply bool_decide_eq_true in Emode. injection Emode as Emode. unfold modes_apart in Hmodes.
      destruct Hmo as [Hmo|Hmo], Hm as [Hm|Hm]; rewrite Hmo, Hm in *; congruence. }
    rewrite negb_involutive. destruct (bytes_eqb (content (ge_id o)) (content (ge_id e))) eqn:Ec.
    + intros <-%Ok_inj. apply unchanged. rewrite Hat. f_equal. apply bytes_eqb_eq in Ec.
      apply entry_eq; [done|congruence|apply Haddr; [by eapply snd_In..|done]].
    + intros (t & Ht' & <-%Ok_inj)%rbind_ok. eapply written_block; [done..| | |done]; rewrite Hat.
      * intros [= ->]. by rewrite (proj2 (bytes_eqb_eq _ _) eq_refl) in Ec.
      * by intros ? [= <-].
  - destruct Hvo as (Kb & _). unfold entries_changed. by rewrite Kb, Hk.
  - destruct Hvw as (Kh & _). unfold entries_changed. by rewrite Hko, Kh.
  - unfold entries_changed. rewrite Hko, Hk, Hwo, Hw, Hlo, Hl. rewrite (bool_decide_false (KSymlink = KUnreadable)) by done.
    rewrite (bool_decide_false (KSymlink = KRegular)), (bool_decide_true (KSymlink = KSymlink)) by done.
    rewrite (bool_decide_true (Some link_mode = Some link_mode)) by done. cbn [negb rbind]. rewrite negb_involutive.
    destruct (bool_decide (Some (link_target (content (ge_id o))) = Some (link_target (content (ge_id e))))) eqn:El; [|done].
    intros <-%Ok_inj. apply unchanged. rewrite Hat. f_equal. apply bool_decide_eq_true in El. injection El as El.
    apply entry_eq; [congruence|congruence|apply Haddr; [by eapply snd_In..|apply Hlinks; [by eapply snd_In..|done]]].
Qed.

(** A directory of the head contributes nothing. *)
Lemma directory_contribution rel te text :
  te_kind te = KDirectory -> head_path base_walk head_walk max_bytes rel te = Ok text -> text = None.
Proof.
  intros Hk. unfold head_path. rewrite Hk. cbn [bool_decide]. rewrite (bool_decide_true _ eq_refl). cbn [andb].
  destruct (last_entry rel base_walk) as [tb|]; cbn [negb]; [|destruct (directory_has_regular_descendant _ _); [by intros <-%Ok_inj|done]].
  intros (c & Hc & Ht)%rbind_ok. unfold entries_changed in Hc. rewrite Hk in Hc.
  repeat (destruct (bool_decide _) in Hc; cbn [negb] in Hc; try done); apply Ok_inj in Hc as <-; cbn [negb] in Ht; by apply Ok_inj in Ht.
Qed.

(** ** All paths *)

Definition contribution (rel : str) : list (str * str) :=
  match last_entry rel head_walk with
  | Some te => match head_path base_walk head_walk max_bytes rel te with Ok text => block_of rel text | Err _ => [] end
  | None => []
  end.

Lemma head_paths_spec paths blocks :
  head_paths base_walk head_walk max_bytes paths = (blocks, []) ->
  blocks = flat_map contribution paths /\
  forall rel te, In rel paths -> last_entry rel head_walk = Some te ->
    exists text, head_path base_walk head_walk max_bytes rel te = Ok text.
Proof.
  revert blocks. induction paths as [|rel paths IH]; intros blocks; cbn [head_paths flat_map]; [by intros [= <-]|].
  destruct (head_paths base_walk head_walk max_bytes paths) as [bs ps] eqn:Ep. unfold contribution at 1.
  destruct (last_entry rel head_walk) as [te|] eqn:El.
  - destruct (head_path base_walk head_walk max_bytes rel te) as [text|problem] eqn:Eh; [|by intros [= <-]].
    intros Heq. assert (Hb : blocks = block_of rel text ++ bs /\ ps = []) by (destruct text; by injection Heq as <- ->).
    destruct Hb as [-> ->]. destruct (IH bs eq_refl) as [-> Hall]. split; [done|].
    intros rel' te' [<-|Hin] Hl; [|by eapply Hall]. exists text. congruence.
  - intros [= <- ->]. destruct (IH bs eq_refl) as [-> Hall]. split; [done|].
    intros rel' te' [<-|Hin] Hl; [congruence|by eapply Hall].
Qed.

Lemma contribution_keys rel p : In p (contribution rel) -> fst p = rel.
Proof.
  unfold contribution. destruct (last_entry rel head_walk) as [te|]; [|done].
  destruct (head_path _ _ _ _ _) as [[text|]|]; [|done..]. by intros [<-|[]].
Qed.

Lemma contribution_NoDup rel : NoDup (map fst (contribution rel)).
Proof.
  unfold contribution. destruct (last_entry rel head_walk) as [te|]; [|constructor].
  destruct (head_path _ _ _ _ _) as [[text|]|]; [apply NoDup_singleton|constructor..].
Qed.

(** Only entries of the head contribute. *)
Lemma contribution_visible rel p : In p (contribution rel) -> In rel (map fst (visible None head_entries)).
Proof.
  unfold contribution. destruct (last_entry rel head_walk) as [te|] eqn:El; [|done].
  destruct (head_path _ _ _ _ _) as [text|] eqn:Eh; [|done]. intros Hin.
  destruct (view_of_walk _ _ Hhead Hth rel te El) as (_ & [(e & He & _)|[_ [Hk _]]]).
  - apply in_map_iff. by exists (rel, e).
  - by rewrite (directory_contribution _ _ _ Hk Eh) in Hin.
Qed.

(** The loop of the derivation meets no problem where every entry is represented. *)
Lemma block_loop_complete items st :
  (forall rel e, In (rel, e) items -> represents head base_tree (rel, e) (contribution rel) /\
     forall o, entry_at rel base_tree = Some o -> ge_mode o = ge_mode e -> ge_type o = ge_type e) ->
  exists st', block_loop head base_tree None None items st = Ok st' /\ bs_problems st' = bs_problems st /\
    bs_blocks st' = bs_blocks st ++ flat_map contribution (map fst items).
Proof.
  revert st. induction items as [|[rel e] items IH]; intros st Hr; cbn [block_loop map flat_map fst].
  { exists st. by rewrite app_nil_r. }
  assert (Hstep : exists st1, candidate_block head base_tree None None (rel, e) st = Ok st1 /\
            bs_problems st1 = bs_problems st /\ bs_blocks st1 = bs_blocks st ++ contribution rel).
  { destruct (Hr rel e) as [Hrep Hty]; [by left|]. unfold candidate_block. cbn [exceeds].
    inversion Hrep as [? ? He Hp Hc|? ? data text Hne Hreg Hm Hb Ht Hp Hc]; subst.
    - rewrite bool_decide_true by done. exists st. by rewrite app_nil_r.
    - rewrite bool_decide_false by done.
      assert (Hmode : match entry_at rel base_tree with Some o => negb (ge_mode o =s? ge_mode e) | None => false end = false).
      { destruct (entry_at rel base_tree) as [o|]; [|done]. rewrite (Hm o eq_refl). by rewrite str_eqb_refl. }
      assert (Htype : match entry_at rel base_tree with Some o => negb (ge_type o =s? ge_type e) | None => false end = false).
      { destruct (entry_at rel base_tree) as [o|]; [|done]. rewrite (Hty o eq_refl (Hm o eq_refl)). by rewrite str_eqb_refl. }
      rewrite Hmode, Htype, Hreg. cbn [negb]. eexists. split; [done|]. unfold read_block. rewrite Hb. cbn [exceeds]. rewrite Ht.
      by cbn. }
  destruct Hstep as (st1 & -> & Hp1 & Hb1). cbn [rbind].
  destruct (IH st1) as (st' & -> & Hp' & Hb'); [intros rel' e' Hin; apply Hr; by right|].
  exists st'. rewrite Hp', Hb', Hb1, Hp1, <- app_assoc. done.
Qed.

(** Every entry of the head is represented by what its path contributes. *)
Lemma entry_represented rel e :
  (forall rel te, In rel (sorted_set (map fst head_walk)) -> last_entry rel head_walk = Some te ->
     exists text, head_path base_walk head_walk max_bytes rel te = Ok text) ->
  In (rel, e) (visible None head_entries) ->
  represents head base_tree (rel, e) (contribution rel) /\ In rel (map fst head_walk) /\
  forall o, entry_at rel base_tree = Some o -> ge_mode o = ge_mode e -> ge_type o = ge_type e.
Proof.
  intros Hall Hin. destruct (walk_of_entry _ _ Hhead Hth _ _ Hin) as (te & Ht & Hst).
  assert (Hk : In rel (map fst head_walk)) by (apply last_entry_keys; by exists te). split_and!; [|done|].
  - destruct (Hall rel te) as (text & Hx); [by apply sorted_set_In|done|]. unfold contribution.
    unfold head_walk in *. rewrite Ht, Hx. by apply (entry_contribution rel e te text).
  - intros o Ho' Hm. apply entry_at_In in Ho'. destruct (walk_of_entry _ _ Hbase Htb _ _ Ho') as (tb & _ & Hsb).
    assert (Hblobs : forall x tx, stored_as x tx -> ge_type x = u "blob").
    { intros x tx [(Hr & _)|(_ & Ht' & _)]; [by apply regular_fields in Hr as [_ ?]|done]. }
    by rewrite (Hblobs _ _ Hst), (Hblobs _ _ Hsb).
Qed.
End Path.

(** ** The order of paths *)

(** What Git's commands promise: output within the limit that is asked for, and the
    content of every object of a tree that is small enough. *)
Record serves (reader : git_reader) (entries : tree_entries) : Prop := {
  sv_bounded : forall args limit data, reader args limit = Ok data -> zlen data <= limit;
  sv_blob : forall e, In e (map snd entries) -> zlen (content (ge_id e)) <= MAX_CANDIDATE_FILE_BYTES ->
    blob reader (ge_id e) MAX_CANDIDATE_FILE_BYTES = Ok (content (ge_id e)) }.

Lemma split_byte_length sep data row : In row (split_byte sep data) -> (length row <= length data)%nat.
Proof.
  revert row. induction data as [|x data IH]; intros row; cbn [split_byte length]; [by intros [<-|[]]|].
  case_if; [intros [<-|Hin]; [cbn; lia|apply IH in Hin; lia]|].
  destruct (split_byte sep data) as [|w ws]; [intros [<-|[]]; cbn; lia|].
  intros [<-|Hin]; [specialize (IH w (or_introl eq_refl)); cbn; lia|]. specialize (IH row (or_intror Hin)). lia.
Qed.

Lemma cut_length {A} (is_sep : A -> bool) l a b : cut is_sep l = Some (a, b) -> (length b <= length l)%nat.
Proof.
  revert a b. induction l as [|x l IH]; intros a b; cbn [cut length]; [done|].
  case_if; [intros [= <- <-]; lia|]. destruct (cut is_sep l) as [[a' b']|]; [|done]. intros [= <- <-]. specialize (IH _ _ eq_refl). lia.
Qed.

Lemma tree_row_path row path e :
  tree_row row = Some (path, e) -> exists raw, utf8 path = Some raw /\ (length raw <= length row)%nat.
Proof.
  unfold tree_row. destruct (cut (Z.eqb 9) row) as [[metadata raw]|] eqn:Ec; [|done]. apply cut_length in Ec.
  destruct (ascii_decode metadata) as [m|]; [|done]. destruct (cut (N.eqb 32) m) as [[mode rest]|]; [|done].
  destruct (cut (N.eqb 32) rest) as [[t i]|]; [|done]. destruct (utf8_decode raw) as [p|] eqn:Eu; [|done].
  intros [= <- _]. exists raw. split; [by apply utf8_decode_iff|done].
Qed.

Lemma tree_rows_paths rows entries entries' path e n :
  tree_rows rows entries = Ok entries' -> Forall (fun row => (length row <= n)%nat) rows -> In (path, e) entries' ->
  In (path, e) entries \/ exists raw, utf8 path = Some raw /\ (length raw <= n)%nat.
Proof.
  intros Ht Hf. revert entries Ht. induction Hf as [|row rows Hrow Hf IH]; intros entries; cbn [tree_rows].
  - intros <-%Ok_inj. by left.
  - destruct row as [|b row]; [by apply IH|]. destruct (tree_row (b :: row)) as [[p x]|] eqn:Er; [|done].
    repeat (case_if; [done|]). intros Ht Hin. destruct (IH _ Ht Hin) as [[Hi|[[= -> ->]|[]]]%in_app_iff|Hraw]; [by left| |by right].
    right. apply tree_row_path in Er as (raw & Hu & Hl). exists raw. split; [done|]. lia.
Qed.

(** Every path of a tree has its place in the order of paths. *)
Lemma path_order_total reader entries sha ignored :
  tree reader sha = Ok entries -> serves reader entries ->
  exists items, path_order (visible ignored entries) = Ok items /\ Permutation (visible ignored entries) items.
Proof.
  unfold tree. intros (? & _ & (raw & Hraw & Ht)%rbind_ok)%rbind_ok Hs. apply (sv_bounded _ _ Hs) in Hraw.
  assert (Hk : forall item, In item (visible ignored entries) -> exists k, candidate_path_order_key (fst item) = Ok k).
  { intros [path e] [Hin _]%filter_In. destruct (tree_rows_paths _ _ _ path e (length raw) Ht) as [[]|(k & Hk & Hl)]; [|done|].
    - apply List.Forall_forall. intros row. apply split_byte_length.
    - exists k. apply _utf8_ok. split; [done|]. unfold sized. unfold zlen, MAX_GIT_TREE_BYTES in Hraw. lia. }
  assert (Hm : exists keyed, rmap (fun item => let* k := candidate_path_order_key (fst item) in Ok (k, item)) (visible ignored entries)
                 = Ok keyed).
  { clear -Hk. induction (visible ignored entries) as [|item items IH]; [by eexists|]. cbn [rmap].
    destruct (Hk item) as (k & ->); [by left|]. destruct IH as (keyed & ->); [intros x Hx; apply Hk; by right|]. by eexists. }
  destruct Hm as (keyed & Hm).
  assert (Ho : path_order (visible ignored entries) = Ok (map snd (py_sort keyed_leb keyed))) by (unfold path_order; by rewrite Hm).
  eexists. split; [exact Ho|]. by apply path_order_perm.
Qed.

(** A checkout that its walk shows to be one. *)
Lemma checked_out_walk entries root :
  clean root -> traversable (nd_shown root) = true ->
  Forall (fun item => exists m, node_at root (path_parts (fst item)) = Some m /\ stored_as (snd item) (tree_entry (nd_shown m)))
    (visible None entries) ->
  Forall (fun item => In (fst item) (map fst entries) \/ (above_any (fst item) entries /\ directory_view (snd item)))
    (walk_tree_entries root) ->
  checked_out entries root.
Proof.
  intros Hc Ht He Hw. rewrite !List.Forall_forall in *. split; [done|by intros path e Hin; apply (He (path, e))|].
  intros path m Hi Hm.
  assert (Hl : last_entry path (walk_tree_entries root) = Some (tree_entry (nd_shown m))).
  { apply walk_lookup; [done..|]. split; [done|by exists m]. }
  apply last_entry_In in Hl. exact (Hw _ Hl).
Qed.

(** C17: A runner and the finalizer derive the same candidate. Let the runner diff clean
    checkouts of a base tree and a head tree, and let it succeed. Then the derivation
    from raw objects succeeds on the same two trees with the same blocks, so both have
    one serialization and digest; and when no directory of the two trees is left with
    ignored entries only, both have the same list of deleted paths. *)
Theorem runner_candidate_is_derived base head bs hs base_entries head_entries base_root head_root max_bytes blocks deleted :
  modes_apart -> links_apart base_entries head_entries ->
  tree base bs = Ok base_entries -> tree head hs = Ok head_entries ->
  serves head head_entries -> content_addressed base_entries head_entries ->
  checked_out base_entries base_root -> checked_out head_entries head_root ->
  max_bytes <= MAX_CANDIDATE_FILE_BYTES ->
  blocks_from_dirs base_root head_root max_bytes = Ok (blocks, deleted) ->
  exists blocks', _candidate_blocks base head bs hs None None None = Ok blocks' /\
    Permutation blocks blocks' /\ serialize_candidate_blocks blocks = serialize_candidate_blocks blocks' /\
    (exposed base_entries -> exposed head_entries -> deleted = _deleted_paths base_entries head_entries).
Proof.
  intros Hmodes Hlinks Hb Hh Hs Haddr Hcb Hch Hmax. unfold blocks_from_dirs. case_if; [done|].
  assert (Hroot : forall root, root_problem root = None -> traversable (nd_shown root) = true).
  { intros root. unfold root_problem, traversable. by case_bool_decide. }
  destruct (root_problem base_root) eqn:Eb; [done|]. destruct (root_problem head_root) eqn:Eh; [done|].
  apply Hroot in Eb, Eh. destruct (head_paths _ _ _ _) as [bs' ps] eqn:Ep. destruct ps as [|p ps]; [|done]. cbn [is_empty].
  intros [= -> <-]. pose proof (wt_distinct _ (tree_wf _ _ _ Hb)) as Hdb.
  apply head_paths_spec in Ep as [-> Hall].
  set (own := contribution base_root head_root max_bytes) in *.
  destruct (path_order_total head head_entries hs None Hh Hs) as (items & Ho & Hp).
  assert (Hent : forall rel e, In (rel, e) items ->
            represents head (visible None base_entries) (rel, e) (own rel) /\ In rel (map fst (walk_tree_entries head_root)) /\
            forall o, entry_at rel (visible None base_entries) = Some o -> ge_mode o = ge_mode e -> ge_type o = ge_type e).
  { intros rel e Hin. apply (Permutation_in _ (Permutation_sym Hp)) in Hin. eapply entry_represented; try done.
    intros e' He'. by apply (sv_blob _ _ Hs). }
  destruct (block_loop_complete head base_entries base_root head_root max_bytes items
              {| bs_blocks := []; bs_problems := []; bs_changed := 0; bs_bytes := 0 |}) as (st & Hl & Hpr & Hbl).
  { intros rel e Hin. destruct (Hent rel e Hin) as (? & _ & ?). done. }
  cbn [bs_blocks bs_problems app] in Hpr, Hbl. exists (bs_blocks st).
  assert (Hd : NoDup (map fst (flat_map own (sorted_set (map fst (walk_tree_entries head_root)))))).
  { apply flat_map_NoDup_keys; [apply sort_str_NoDup, dedup_str_NoDup|apply contribution_keys|apply contribution_NoDup]. }
  assert (Hperm : Permutation (flat_map own (sorted_set (map fst (walk_tree_entries head_root)))) (bs_blocks st)).
  { rewrite Hbl. apply NoDup_Permutation; [by eapply NoDup_fmap_1| |].
    - apply (NoDup_fmap_1 fst). apply flat_map_NoDup_keys; [|apply contribution_keys|apply contribution_NoDup].
      rewrite <- Hp. apply visible_NoDup, (wt_distinct _ (tree_wf _ _ _ Hh)).
    - intros p. rewrite !list_elem_of_In, !in_flat_map. fold own. split; intros (rel & Hin & Hc); exists rel; (split; [|done]).
      + eapply contribution_visible in Hc; [|done..]. by rewrite <- Hp.
      + apply in_map_iff in Hin as ([q e] & <- & Hin). apply sorted_set_In. by apply (Hent q e Hin). }
  split_and!; [|done|by apply serialize_perm|].
  - unfold _candidate_blocks. rewrite Hb, Hh. cbn [rbind]. rewrite Ho, Hl. cbn [rbind]. by rewrite Hpr.
  - intros Hxb Hxh. apply sorted_set_ext. intros rel. rewrite !filter_In, !negb_true_iff, !str_in_not_In.
    by rewrite (walked_paths _ _ Hcb Eb rel Hxb), (walked_paths _ _ Hch Eh rel Hxh).
Qed.
End Checkout.
End Agree.
