(* ===== verification/CandidateSamples.v ===== *)
(** Clean checkouts of two commits, what a runner and the finalizer derive from them, and
    a directory that keeps ignored files only. *)
From S2P Require Import DerivationSamples CandidateAgree.
Local Open Scope Z_scope.

Section Samples.
#[local] Existing Instance ascii_unicode.

(** ** Files that stay as they are *)

Definition stat_of (mode : Z) (data : bytes) : stat_result :=
  {| st_regular := true; st_identity := [mode; zlen data]; st_path_times := (0, 0) |}.

Definition still (mode : Z) (data : bytes) : session :=
  let s := Some (stat_of mode data) in
  {| se_before := s; se_opened := Some s; se_current := s; se_content := Some data; se_opened_after := s;
     se_current_after := s |}.

Definition shown_file (mode : Z) (data : bytes) : path_observation :=
  {| ob_lstat := Some {| ls_type := LRegular; ls_mode := mode; ls_size := zlen data; ls_stat := stat_of mode data |};
     ob_readlink := None; ob_compared := still mode data; ob_read := still mode data |}.

Definition shown_directory : path_observation :=
  {| ob_lstat := Some {| ls_type := LDirectory; ls_mode := 493; ls_size := 0; ls_stat := stat_of 493 [] |};
     ob_readlink := None; ob_compared := still 0 []; ob_read := still 0 [] |}.

Definition file_node (mode : Z) (data : bytes) : node := Node false (shown_file mode data) None.
Definition directory_node (l : list (str * node)) : node := Node true shown_directory (Some l).

Lemma shown_file_view mode data : regular_view data mode (tree_entry (shown_file mode data)).
Proof.
  split_and!; [done..|]. intros s Hs. assert (s = still mode data) as -> by (by destruct Hs). unfold open_regular_snapshot,
    verify_open_regular_snapshot, verified, verify_regular_snapshot. cbn. by rewrite !bool_decide_true by done.
Qed.

Lemma file_clean mode data : clean (file_node mode data).
Proof. by constructor. Qed.

Lemma directory_clean l :
  NoDup (map fst l) -> Forall (fun c => fst c <> [] /\ ~ In ch_slash (fst c) /\ clean (snd c)) l -> clean (directory_node l).
Proof.
  rewrite List.Forall_forall. intros Hd Hf. constructor; [by vm_compute|done| |].
  - intros name c Hin. by destruct (Hf _ Hin) as (? & ? & _).
  - intros name c Hin _. by destruct (Hf _ Hin) as (_ & _ & ?).
Qed.

(** ** Two commits *)

Definition contents (l : list (str * bytes)) (id : str) : bytes :=
  match List.find (fun a => fst a =s? id) l with Some (_, data) => data | None => [] end.

Definition objects : list (str * bytes) :=
  [(sha_of "1", [49]); (sha_of "2", [50]); (sha_of "3", [51]); (sha_of "4", [52])].
Definition content_of : str -> bytes := contents objects.
Definition mode_of (mode : str) : Z := if mode =s? u "100755" then 493 else 420.
Definition same_text (data : bytes) : bytes := data.

Definition commit_git (commit : string) (rows : list bytes) : git_reader := answers (
  tree_answer commit rows :: blob_answers "1" [49] ++ blob_answers "2" [50] ++ blob_answers "3" [51] ++ blob_answers "4" [52]).

Definition old_git : git_reader := commit_git "a" [row "1" "app.py"; row "2" "dist/app.js"; row "3" "old/gone.py"].
Definition new_git : git_reader := commit_git "c" [row "4" "app.py"; row "2" "dist/app.js"; row "3" "new.py"].
Definition old_entries : tree_entries := Eval vm_compute in outcome (tree old_git (sha_of "a")) [].
Definition new_entries : tree_entries := Eval vm_compute in outcome (tree new_git (sha_of "c")) [].

Definition file (data : Z) : node := file_node 420 [data].
Definition git_directory : str * node := (u ".git", directory_node [(u "HEAD", file 0)]).

Definition old_checkout : node := directory_node
  [git_directory; (u "app.py", file 49); (u "dist", directory_node [(u "app.js", file 50)]);
   (u "old", directory_node [(u "gone.py", file 51)])].
Definition new_checkout : node := directory_node
  [git_directory; (u "app.py", file 52); (u "dist", directory_node [(u "app.js", file 50)]); (u "new.py", file 51)].

Definition clean_copy : tree_entries -> node -> Prop :=
  checked_out content_of mode_of 493 511 (fun data => map Z.to_N data).

Example runner_blocks :
  blocks_from_dirs old_checkout new_checkout 1000000
  = Ok ([(u "app.py", u "4"); (u "new.py", u "3")], us ["old"; "old/gone.py"]).
Proof. vm_compute. reflexivity. Qed.

(** ** The checkouts are clean *)

Lemma file_stored e data :
  regular e = true -> content_of (ge_id e) = data ->
  stored_as content_of mode_of 511 (fun data => map Z.to_N data) e (tree_entry (shown_file (mode_of (ge_mode e)) data)).
Proof. intros Hr <-. left. split; [done|]. apply shown_file_view. Qed.

(** Names and cleanliness of the children of a directory. *)
Ltac clean_tree :=
  repeat first
    [ apply file_clean
    | apply directory_clean; [by apply (bool_decide_unpack _)|]
    | apply List.Forall_nil
    | apply List.Forall_cons; [split; [done|split; [by apply (bool_decide_unpack _)|]]|] ].

(** A listing of the walk: entries, and directories above entries. *)
Definition expected (entries : tree_entries) (item : str * TreeEntry) : bool :=
  str_in (fst item) (map fst entries)
  || (existsb (fun q => str_in (fst item) (parent_paths q)) (map fst entries)
      && bool_decide (te_kind (snd item) = KDirectory) && bool_decide (te_mode (snd item) = Some 493)).

(** Whether the node of an entry is its file. *)
Definition found (root : node) (item : str * _GitEntry) : Prop :=
  regular (snd item) = true /\
  exists d l, node_at root (path_parts (fst item)) = Some (Node d (shown_file (mode_of (ge_mode (snd item))) (content_of (ge_id (snd item)))) l).

Lemma clean_copy_intro entries root :
  clean root -> traversable (nd_shown root) = true -> Forall (found root) (visible None entries) ->
  forallb (expected entries) (walk_tree_entries root) = true -> clean_copy entries root.
Proof.
  intros Hc Ht Hf He. apply checked_out_walk; [done|done| |].
  - eapply Forall_impl; [exact Hf|]. intros [path e] (Hr & d & l & Hn). eexists. split; [exact Hn|]. by apply file_stored.
  - rewrite forallb_forall in He. apply List.Forall_forall. intros [path te] Hin. specialize (He _ Hin).
    unfold expected in He. apply orb_true_iff in He as [He|He]; [left; by apply str_in_In|right].
    apply andb_true_iff in He as [[(q & Hq & Hp)%existsb_exists Hk]%andb_true_iff Hm]. split.
    + exists q. split; [done|by apply str_in_In].
    + split; by eapply bool_decide_eq_true_1.
Qed.

Ltac find_entries := repeat (apply List.Forall_cons; [split; [done|by do 2 eexists]|]); apply List.Forall_nil.

Lemma old_checkout_copies : clean_copy old_entries old_checkout.
Proof.
  apply clean_copy_intro; [unfold old_checkout, git_directory, file; clean_tree|done| |by vm_compute].
  find_entries.
Qed.

Lemma new_checkout_copies : clean_copy new_entries new_checkout.
Proof.
  apply clean_copy_intro; [unfold new_checkout, git_directory, file; clean_tree|done| |by vm_compute].
  find_entries.
Qed.

Lemma answers_bounded l args limit data : answers l args limit = Ok data -> zlen data <= limit.
Proof.
  unfold answers. destruct (List.find _ l) as [[q output]|]; [|done]. destruct (_ <=? _) eqn:E; [|done].
  intros <-%Ok_inj. unfold zlen. brefl. lia.
Qed.

(** [exposed], on a listing. *)
Definition exposedb (entries : tree_entries) : bool :=
  forallb (fun q => forallb (fun p => _ignored_path p None
      || existsb (fun q' => str_in p (parent_paths q')) (map fst (visible None entries))) (parent_paths q))
    (map fst entries).

Lemma exposedb_exposed entries : exposedb entries = true -> exposed entries.
Proof.
  unfold exposedb. rewrite forallb_forall. intros He path Hi (q & Hq & Hp). specialize (He q Hq).
  rewrite forallb_forall in He. specialize (He path Hp). rewrite Hi in He. apply existsb_exists in He as (q' & Hq' & Hp').
  exists q'. split; [done|by apply str_in_In].
Qed.

Lemma runner_candidate_is_derived_witness :
  exists blocks', _candidate_blocks old_git new_git (sha_of "a") (sha_of "c") None None None = Ok blocks' /\
    us ["old"; "old/gone.py"] = _deleted_paths old_entries new_entries.
Proof.
  assert (Hm : modes_apart mode_of) by (vm_compute; discriminate).
  assert (Hl : links_apart content_of (fun data => map Z.to_N data) old_entries new_entries).
  { intros e e' He He'. repeat (destruct He as [<-|He]; [repeat (destruct He' as [<-|He']; [vm_compute; congruence|]); destruct He'|]).
    destruct He. }
  assert (Ha : content_addressed content_of old_entries new_entries).
  { intros e e' He He'. repeat (destruct He as [<-|He]; [repeat (destruct He' as [<-|He']; [vm_compute; congruence|]); destruct He'|]).
    destruct He. }
  assert (Hs : serves content_of new_git new_entries).
  { split; [apply answers_bounded|]. intros e He _.
    repeat (destruct He as [<-|He]; [vm_compute; reflexivity|]). destruct He. }
  assert (Ho : tree old_git (sha_of "a") = Ok old_entries) by (vm_compute; reflexivity).
  assert (Hn : tree new_git (sha_of "c") = Ok new_entries) by (vm_compute; reflexivity).
  destruct (runner_candidate_is_derived content_of mode_of 493 511 (fun data => map Z.to_N data) old_git new_git (sha_of "a") (sha_of "c")
    old_entries new_entries old_checkout new_checkout 1000000 _ _ Hm Hl Ho Hn Hs Ha old_checkout_copies new_checkout_copies
    ltac:(vm_compute; discriminate) runner_blocks) as (blocks' & Hc & _ & _ & Hd).
  exists blocks'. split; [exact Hc|]. apply Hd; apply exposedb_exposed; vm_compute; reflexivity.
Defined.

(** ** A directory with ignored files only *)

Definition hiding_git : git_reader := commit_git "a" [row "1" "app.py"; row "2" "pkg/dist/app.js"; row "3" "pkg/gone.py"].
Definition hidden_git : git_reader := commit_git "c" [row "1" "app.py"; row "2" "pkg/dist/app.js"].
Definition hiding_entries : tree_entries := Eval vm_compute in outcome (tree hiding_git (sha_of "a")) [].
Definition hidden_entries : tree_entries := Eval vm_compute in outcome (tree hidden_git (sha_of "c")) [].
Definition pkg (l : list (str * node)) : str * node := (u "pkg", directory_node ((u "dist", directory_node [(u "app.js", file 50)]) :: l)).
Definition hiding_checkout : node := directory_node [git_directory; (u "app.py", file 49); pkg [(u "gone.py", file 51)]].
Definition hidden_checkout : node := directory_node [git_directory; (u "app.py", file 49); pkg []].

(** Where the last visible file of a directory is deleted and ignored files remain below
    it, the directory stays in a checkout: the runner does not list it as deleted, and
    the finalizer does, so that the record of an honest run is refused. *)
Theorem hidden_directory_deletions_differ :
  clean_copy hiding_entries hiding_checkout /\ clean_copy hidden_entries hidden_checkout /\
  tree hiding_git (sha_of "a") = Ok hiding_entries /\ tree hidden_git (sha_of "c") = Ok hidden_entries /\
  blocks_from_dirs hiding_checkout hidden_checkout 1000000 = Ok ([], us ["pkg/gone.py"]) /\
  _deleted_paths hiding_entries hidden_entries = us ["pkg"; "pkg/gone.py"].
Proof.
  split; [apply clean_copy_intro; [unfold hiding_checkout, pkg, git_directory, file; clean_tree|done|find_entries|by vm_compute]|].
  split; [apply clean_copy_intro; [unfold hidden_checkout, pkg, git_directory, file; clean_tree|done|find_entries|by vm_compute]|].
  by split_and!; vm_compute.
Qed.
End Samples.
