(* ===== verification/PatchRisk.v ===== *)
(** The blast radius of a candidate: line counts of unified diffs (patchmin.py, and
    [difflib] as guard.py uses it) and the bounded score and level that a verdict
    reports (patchmin.py, guard.py).  The score is advisory: no verdict reads it. *)
From S2P Require Export HarnessPolicy Candidate Edits Derivation.
From Stdlib Require Import SpecFloat.
Local Open Scope Z_scope.

(** ** Matching blocks

    [difflib.SequenceMatcher(None, a, b, autojunk)]: the longest match of two ranges, found over
    the lines of [b] that are not popular and then extended, and the recursion on both
    sides of it.  The blocks come in order, so the sort of [get_matching_blocks] is the
    identity; merging adjacent blocks changes no line of a diff. *)
Section Difflib.
Context (autojunk : bool) (a b : list str).

(** [b2j]: where a line stands in [b]; popular lines of a long [b] are left out. *)
Definition occurrences_of (line : str) : list nat :=
  List.filter (fun j => nth j b [] =s? line) (seq 0 (length b)).

Definition popular (line : str) : bool :=
  autojunk && (200 <=? length b)%nat && (length b / 100 + 1 <? length (occurrences_of line))%nat.

Definition b2j (line : str) : list nat := if popular line then [] else occurrences_of line.

Record match_block := { mt_a : nat; mt_b : nat; mt_size : nat }.

(** [j2len]: the length of the match that ends at a line of [a] and at [j]. *)
Definition match_lengths : Type := list (nat * nat).
Definition length_at (j : nat) (l : match_lengths) : nat :=
  match List.find (fun e => Nat.eqb (fst e) j) l with Some (_, k) => k | None => 0%nat end.

Fixpoint scan_row (i blo bhi : nat) (js : list nat) (j2len newj2len : match_lengths) (best : match_block)
  : match_lengths * match_block :=
  match js with
  | [] => (newj2len, best)
  | j :: js' =>
      if (j <? blo)%nat then scan_row i blo bhi js' j2len newj2len best
      else if (bhi <=? j)%nat then (newj2len, best)
      else
        let k := S (match j with O => 0%nat | S j' => length_at j' j2len end) in
        scan_row i blo bhi js' j2len ((j, k) :: newj2len)
          (if (mt_size best <? k)%nat then {| mt_a := S i - k; mt_b := S j - k; mt_size := k |} else best)
  end.

Fixpoint scan_rows (rows : list nat) (blo bhi : nat) (j2len : match_lengths) (best : match_block) : match_block :=
  match rows with
  | [] => best
  | i :: rows' =>
      let '(newj2len, best) := scan_row i blo bhi (b2j (nth i a [])) j2len [] best in
      scan_rows rows' blo bhi newj2len best
  end.

Fixpoint extend_left (fuel alo blo : nat) (m : match_block) : match_block :=
  match fuel, mt_a m, mt_b m with
  | S fuel', S i, S j =>
      if (alo <=? i)%nat && (blo <=? j)%nat && (nth i a [] =s? nth j b [])
      then extend_left fuel' alo blo {| mt_a := i; mt_b := j; mt_size := S (mt_size m) |} else m
  | _, _, _ => m
  end.

Fixpoint extend_right (fuel ahi bhi : nat) (m : match_block) : match_block :=
  match fuel with
  | O => m
  | S fuel' =>
      let i := (mt_a m + mt_size m)%nat in
      let j := (mt_b m + mt_size m)%nat in
      if (i <? ahi)%nat && (j <? bhi)%nat && (nth i a [] =s? nth j b [])
      then extend_right fuel' ahi bhi {| mt_a := mt_a m; mt_b := mt_b m; mt_size := S (mt_size m) |} else m
  end.

Definition find_longest_match (alo ahi blo bhi : nat) : match_block :=
  let best := scan_rows (seq alo (ahi - alo)) blo bhi [] {| mt_a := alo; mt_b := blo; mt_size := 0 |} in
  extend_right (length a) ahi bhi (extend_left (length a) alo blo best).

Fixpoint matching_blocks (fuel alo ahi blo bhi : nat) : list match_block :=
  match fuel with
  | O => []
  | S fuel' =>
      let m := find_longest_match alo ahi blo bhi in
      if Nat.eqb (mt_size m) 0 then []
      else
        (if (alo <? mt_a m)%nat && (blo <? mt_b m)%nat then matching_blocks fuel' alo (mt_a m) blo (mt_b m) else [])
        ++ m ::
        (if (mt_a m + mt_size m <? ahi)%nat && (mt_b m + mt_size m <? bhi)%nat
         then matching_blocks fuel' (mt_a m + mt_size m) ahi (mt_b m + mt_size m) bhi else [])
  end.

Definition get_matching_blocks : list match_block :=
  matching_blocks (S (length a)) 0 (length a) 0 (length b) ++ [{| mt_a := length a; mt_b := length b; mt_size := 0 |}].

(** The lines of [unified_diff(a, b, n=0)] that carry content: what is replaced or deleted
    and what replaces it or is inserted, between the blocks. *)
Fixpoint diff_lines (i j : nat) (blocks : list match_block) : list str :=
  match blocks with
  | [] => []
  | m :: blocks' =>
      map (fun line => u "-" ++ line) (take (mt_a m - i) (drop i a))
      ++ map (fun line => u "+" ++ line) (take (mt_b m - j) (drop j b))
      ++ diff_lines (mt_a m + mt_size m) (mt_b m + mt_size m) blocks'
  end.

Definition unified_diff_content : list str := diff_lines 0 0 get_matching_blocks.
End Difflib.

(** ** Counting *)

Definition line_counts (lines : list str) : Z * Z :=
  fold_left (fun c line =>
    if starts_with (u "+") line && negb (starts_with (u "+++") line) then (fst c + 1, snd c)
    else if starts_with (u "-") line && negb (starts_with (u "---") line) then (fst c, snd c + 1)
    else c) lines (0, 0).

(** The headers of a diff begin with [---], [+++] and [@@] and count for nothing. *)
Definition _diff_counts (old new : str) : Z * Z :=
  line_counts (unified_diff_content true (splitlines old) (splitlines new)).

(** Counts by path, in the order of insertion. *)
Abbreviation risk_map := (list (str * (Z * Z))).

Fixpoint counts_at (path : str) (m : risk_map) : option (Z * Z) :=
  match m with
  | [] => None
  | (p, c) :: m' => if p =s? path then Some c else counts_at path m'
  end.

Fixpoint set_counts (path : str) (c : Z * Z) (m : risk_map) : risk_map :=
  match m with
  | [] => [(path, c)]
  | (p, x) :: m' => if p =s? path then (p, c) :: m' else (p, x) :: set_counts path c m'
  end.

(** ** The base file *)

(** [open(path, encoding="utf-8")] and [read()]: an [OSError], a [ValueError] of [open]
    (a null byte in the path), or bytes to decode. *)
Inductive opened := NoFile | Unopenable | Opened (data : bytes).

Inductive risk_error := UnopenablePath | UndecodableBaseFile (path : str).

Definition _read_repo_file (open_path : str -> opened) (repo_path rel : str) : result risk_error str :=
  match open_path (path_join_all repo_path (path_parts rel)) with
  | NoFile => Ok []
  | Unopenable => Err UnopenablePath
  | Opened data => match utf8_decode data with Some text => Ok (universal_newlines text) | None => Err (UndecodableBaseFile rel) end
  end.

Section Score.
Context `{UnicodeDB}.
Context (open_path : str -> opened) (repo_path : str).

(** The file blocks of a candidate: the structured ones, else those of its text. *)
Definition structured (file_blocks : option (list (str * str))) : bool :=
  match file_blocks with Some (_ :: _) => true | _ => false end.

Fixpoint block_counts (blocks : list (str * str)) (out : risk_map) : result risk_error risk_map :=
  match blocks with
  | [] => Ok out
  | (path, new) :: blocks' =>
      let* old := _read_repo_file open_path repo_path path in
      block_counts blocks' (set_counts path (_diff_counts old new) out)
  end.

Definition patch_counts (out : risk_map) (pb : PatchBlock) : risk_map :=
  let added := Z.of_nat (length (splitlines (pb_replace pb))) in
  let removed := Z.of_nat (length (splitlines (pb_search pb))) in
  let '(prev_a, prev_r) := match counts_at (pb_path pb) out with Some c => c | None => (0, 0) end in
  set_counts (pb_path pb) (prev_a + added, prev_r + removed) out.

Definition _risk_map (candidate : str) (file_blocks : option (list (str * str))) : result risk_error risk_map :=
  let blocks := match file_blocks with Some (b :: l) => b :: l | _ => parse_file_blocks candidate end in
  let* out := block_counts blocks [] in
  Ok (fold_left patch_counts (if structured file_blocks then [] else parse_patch_blocks candidate) out).

(** Deleted files have no block: their lines are counted from the base. *)
Fixpoint count_deletions (touched deleted : list str) (m : risk_map) : result risk_error risk_map :=
  match touched with
  | [] => Ok m
  | path :: touched' =>
      if str_in path deleted && negb (match counts_at path m with Some _ => true | None => false end) then
        let* base := _read_repo_file open_path repo_path path in
        count_deletions touched' deleted (m ++ [(path, (0, Z.of_nat (length (splitlines base))))])
      else count_deletions touched' deleted m
  end.

Record RiskScore := {
  rk_files_touched : Z;
  rk_lines_added : Z;
  rk_lines_removed : Z;
  rk_protected_hits : list str;
  rk_score : float;
  rk_level : str }.

Definition risk_term (n high : Z) : float :=
  if high <=? 0 then dec 1 0 else fmin (dec 1 0) (int_truediv n high).

Definition risk_score (m : risk_map) (protected : list str) (medium_files high_files medium_lines high_lines : Z) : RiskScore :=
  let touched := map fst m in
  let files_touched := Z.of_nat (length touched) in
  let lines_added := sumZ (fun e => fst (snd e)) m in
  let lines_removed := sumZ (fun e => snd (snd e)) m in
  let total_lines := lines_added + lines_removed in
  let protected_hits := sorted_set (List.filter (fun path =>
    existsb (fun glob => fnmatch (py_lower path) (py_lower glob)) protected) touched) in
  let files_term := risk_term files_touched high_files in
  let lines_term := risk_term total_lines high_lines in
  let protected_term := if is_empty protected_hits then dec 0 0 else dec 25 2 in
  let score := fmin (dec 1 0) (fadd (fadd (fmul (dec 5 1) files_term) (fmul (dec 5 1) lines_term)) protected_term) in
  {| rk_files_touched := files_touched; rk_lines_added := lines_added; rk_lines_removed := lines_removed;
     rk_protected_hits := protected_hits; rk_score := score;
     rk_level :=
       if negb (is_empty protected_hits) || (high_files <=? files_touched) || (high_lines <=? total_lines) then u "high"
       else if (medium_files <=? files_touched) || (medium_lines <=? total_lines) then u "medium"
       else u "low" |}.

(** [risk_score] with the defaults of its thresholds. *)
Definition default_risk_score (m : risk_map) (protected : list str) : RiskScore := risk_score m protected 3 8 40 200.

Definition _PROTECTED_GLOBS : list str := us [
  "*tests/*"; "*test/*"; "test_*.py"; "*_test.py"; "conftest.py";
  "pyproject.toml"; "*pytest.ini"; "tox.ini"; "setup.cfg";
  "*.pth"; "sitecustomize.py"; "usercustomize.py"; "Makefile"; "GNUmakefile"; "noxfile.py";
  ".evoguard.json"; "*.github/workflows/*"; "*.github/actions/*"].

(** The score of a candidate with its deletions, as both judgments report it. *)
Definition _risk_score_with_deletions (candidate : str) (file_blocks : option (list (str * str)))
    (all_touched_paths deleted_paths protected : list str) : result risk_error RiskScore :=
  let* m := _risk_map candidate file_blocks in
  let* m := count_deletions all_touched_paths deleted_paths m in
  Ok (default_risk_score m protected).

(** ** Unified diffs *)

Definition _strip_diff_path (token : str) : str :=
  if token =s? u "/dev/null" then token
  else if starts_with (u "a/") token || starts_with (u "b/") token then drop 2 token
  else token.

Definition diff_line (st : option str * risk_map) (line : str) : option str * risk_map :=
  let '(current, counts) := st in
  if starts_with (u "+++") line then
    let path := _strip_diff_path (strip (drop 3 line)) in
    if (path =s? u "/dev/null") || is_empty path then (None, counts)
    else (Some path, match counts_at path counts with Some _ => counts | None => counts ++ [(path, (0, 0))] end)
  else if starts_with (u "---") line then st
  else if starts_with (u "@@") line then st
  else
    match current with
    | None => st
    | Some path =>
        let '(added, removed) := match counts_at path counts with Some c => c | None => (0, 0) end in
        if starts_with (u "+") line then (current, set_counts path (added + 1, removed) counts)
        else if starts_with (u "-") line then (current, set_counts path (added, removed + 1) counts)
        else st
    end.

Definition parse_unified_diff (diff : str) : risk_map := snd (fold_left diff_line (splitlines diff) (None, [])).

(** ** Bounds *)

Definition counts_nonneg (m : risk_map) : Prop := Forall (fun e => 0 <= fst (snd e) /\ 0 <= snd (snd e)) m.

Lemma line_counts_nonneg lines : 0 <= fst (line_counts lines) /\ 0 <= snd (line_counts lines).
Proof.
  unfold line_counts.
  assert (Hg : forall c, 0 <= fst c /\ 0 <= snd c ->
            let c' := fold_left (fun c line =>
              if starts_with (u "+") line && negb (starts_with (u "+++") line) then (fst c + 1, snd c)
              else if starts_with (u "-") line && negb (starts_with (u "---") line) then (fst c, snd c + 1)
              else c) lines c in 0 <= fst c' /\ 0 <= snd c').
  { induction lines as [|line lines IH]; intros c Hc; [done|]. cbn [fold_left]. apply IH.
    repeat case_if; cbn [fst snd]; lia. }
  by apply Hg.
Qed.

Lemma set_counts_nonneg path c m : 0 <= fst c /\ 0 <= snd c -> counts_nonneg m -> counts_nonneg (set_counts path c m).
Proof.
  intros Hc. unfold counts_nonneg. induction 1 as [|[p x] m Hx Hm IH]; cbn [set_counts]; [by apply Forall_cons_2; [|constructor]|].
  case_if; by apply Forall_cons_2.
Qed.

Lemma counts_at_nonneg path m c : counts_nonneg m -> counts_at path m = Some c -> 0 <= fst c /\ 0 <= snd c.
Proof.
  intros Hm. induction Hm as [|[p x] m Hx Hm IH]; cbn [counts_at]; [done|]. case_if; [by intros [= <-]|done].
Qed.

Lemma risk_map_nonneg candidate file_blocks m : _risk_map candidate file_blocks = Ok m -> counts_nonneg m.
Proof.
  unfold _risk_map. cbn zeta. intros (out & Ho & <-%Ok_inj)%rbind_ok.
  assert (Hb : counts_nonneg out).
  { revert Ho. assert (Hn : counts_nonneg []) by constructor. revert Hn.
    generalize ([] : risk_map). generalize (match file_blocks with Some (b :: l) => b :: l | _ => parse_file_blocks candidate end).
    intros blocks. induction blocks as [|[path new] blocks IH]; intros m Hm; cbn [block_counts]; [by intros <-%Ok_inj|].
    intros (old & _ & Hr)%rbind_ok. eapply IH; [|exact Hr]. apply set_counts_nonneg; [apply line_counts_nonneg|done]. }
  clear Ho. revert out Hb. generalize (if structured file_blocks then [] else parse_patch_blocks candidate) as pbs.
  induction pbs as [|pb pbs IH]; intros out Hb; [done|]. cbn [fold_left]. apply IH.
  unfold patch_counts. destruct (counts_at (pb_path pb) out) as [[pa pr]|] eqn:E.
  - apply counts_at_nonneg in E; [|done]. apply set_counts_nonneg; [|done]. cbn [fst snd] in *. lia.
  - apply set_counts_nonneg; [cbn [fst snd]; lia|done].
Qed.

Lemma count_deletions_nonneg touched deleted m m' :
  counts_nonneg m -> count_deletions touched deleted m = Ok m' -> counts_nonneg m'.
Proof.
  revert m. induction touched as [|path touched IH]; intros m Hm; cbn [count_deletions]; [by intros <-%Ok_inj|].
  case_if; [|by apply IH]. intros (base & _ & Hr)%rbind_ok. eapply IH; [|exact Hr]. apply Forall_app. split; [done|].
  apply Forall_cons_2; [cbn [fst snd]; lia|constructor].
Qed.

Lemma sum_nonneg (f : str * (Z * Z) -> Z) m : Forall (fun e => 0 <= f e) m -> 0 <= sumZ f m.
Proof. unfold sumZ. induction 1; cbn [fold_right]; lia. Qed.

Lemma half_term_nonneg n high : 0 <= n -> fnonneg (fmul (dec 5 1) (risk_term n high)) = true.
Proof.
  intros Hn. assert (Ht : high <= 0 \/ fnonneg (int_truediv n high) = true).
  { destruct (Z.le_gt_cases high 0); [by left|right]. apply int_truediv_nonneg; lia. }
  unfold risk_term. destruct (high <=? 0) eqn:E; [done|]. brefl. destruct Ht as [Ht|Ht]; [lia|].
  apply fmul_nonneg; [done|by apply fmin_finite|done|by apply fmin_nonneg].
Qed.

(** The blast-radius score of a candidate lies between zero and one, whatever the
    candidate, the base and the protected patterns, and a protected path or a change at
    a threshold is never reported below the high level. *)
Theorem risk_score_bounded candidate file_blocks touched deleted protected r :
  _risk_score_with_deletions candidate file_blocks touched deleted protected = Ok r ->
  fleb (dec 0 0) (rk_score r) = true /\ fleb (rk_score r) (dec 1 0) = true /\
  (rk_protected_hits r <> [] \/ 8 <= rk_files_touched r \/ 200 <= rk_lines_added r + rk_lines_removed r -> rk_level r = u "high").
Proof.
  unfold _risk_score_with_deletions. intros (m & Hm%risk_map_nonneg & (m' & Hd & <-%Ok_inj)%rbind_ok)%rbind_ok.
  apply count_deletions_nonneg in Hd; [|done]. unfold default_risk_score, risk_score. cbn [rk_score rk_protected_hits rk_files_touched
    rk_lines_added rk_lines_removed rk_level].
  assert (Ht : 0 <= sumZ (fun e => fst (snd e)) m' + sumZ (fun e => snd (snd e)) m').
  { apply Z.add_nonneg_nonneg; apply sum_nonneg; eapply Forall_impl; try exact Hd; intros e; cbn; lia. }
  split; [|split; [by apply fmin_le_l|]].
  - apply fnonneg_leb, fmin_nonneg; [done|].
    apply fadd_nonneg; [apply fadd_nonneg; apply half_term_nonneg; lia|by destruct (is_empty _)].
  - intros Hh. match goal with |- (if ?b then _ else _) = _ => destruct b eqn:Hc end; [done|]. apply orb_false_iff in Hc as [[H1 H2]%orb_false_iff H3]. brefl.
    destruct Hh as [Hh|Hh]; [|lia]. destruct Hh. by destruct (sorted_set _).
Qed.
End Score.

