(* ===== verification/CandidateRunner.v ===== *)
(** The candidate boundary of the black-box judge (isolation/candidate.py): whether the
    requested isolation can be delivered, the launcher through which the pack reaches
    the candidate, and the command that the launcher executes. *)
From S2P Require Export RepoRun.
Local Open Scope Z_scope.

(** ** Programs that fail with an exception *)

(** What ends a step early: a message that the caller reports, or an exception. *)
Inductive stop (A : Type) := Refused (a : A) | Threw (e : failure).
Arguments Refused {A} a.
Arguments Threw {A} e.

(** A reply of a form that an operation does not have. *)
Definition unexpected : failure := {| fl_kind := OtherFailure; fl_type := u "RuntimeError"; fl_text := [] |}.
Definition failure_of {W} (r : reply W) : failure := match r with RFailed e => e | _ => unexpected end.

Section Ask.
Context {W S X : Type}.

(** A request whose reply has the expected form, or is an exception. *)
Definition request {A} (a : op W) (read : reply W -> option A) : M (op W) (reply W) S (stop X) A := fun s =>
  Op a (fun r => Ret (s, match read r with Some x => Done x | None => Returned (Threw (failure_of r)) end)).

(** A request whose exceptions are handled. *)
Definition attempt {A} (a : op W) (read : reply W -> option A) : M (op W) (reply W) S (stop X) (failure + A) := fun s =>
  Op a (fun r => Ret (s, Done match read r with Some x => inr x | None => inl (failure_of r) end)).

Definition throw {A} (e : failure) : M (op W) (reply W) S (stop X) A := refuse (Threw e).
End Ask.

(** ** Evidence and launcher *)

Record IsolationEvidence := {
  ie_requested : str;
  ie_delivered : str;
  ie_image : option str;
  ie_image_digest : option str;
  ie_network : option str;
  ie_runtime : option str;
  ie_note : str }.

Definition as_dict (e : IsolationEvidence) : dict := dict_of [
  ("requested", VStr (ie_requested e)); ("delivered", VStr (ie_delivered e)); ("image", w_str (ie_image e));
  ("image_digest", w_str (ie_image_digest e)); ("network", w_str (ie_network e)); ("runtime", w_str (ie_runtime e));
  ("note", VStr (ie_note e))].

Record CandidateRunner := {
  cr_isolation : str;
  cr_docker_image : option str;
  cr_docker_network : str;
  cr_docker_runtime : option str;
  cr_mem_limit_mb : Z;
  cr_python : str;
  cr_invocation_socket : option str;
  cr_invocation_token : option str }.

(** The receipt that a launcher sends before it starts the candidate. *)
Record receipt := { rc_path : str; rc_token : str }.

(** The configuration beside the launcher. *)
Inductive launch_mode :=
| HostLaunch (target : str) (mem_limit_bytes : option Z)
| ContainerLaunch (prefix : list str) (cidfile_dir : str).
Record launcher := { la_mode : launch_mode; la_receipt : option receipt }.

(** The JSON document that is written. *)
Definition launcher_value (l : launcher) : value := VDict (dict_of (
  match la_mode l with
  | HostLaunch target limit =>
      [("mode", VStr (u "subprocess")); ("target", VStr target)]
      ++ match limit with Some n => [("mem_limit_bytes", VInt n)] | None => [] end
  | ContainerLaunch prefix dir =>
      [("mode", VStr (u "docker")); ("prefix", w_strs prefix); ("cidfile_dir", VStr dir)]
  end
  ++ match la_receipt l with
     | Some r => [("invocation_socket", VStr (rc_path r)); ("invocation_token", VStr (rc_token r))]
     | None => []
     end)).

(** The launcher script: what it does with the arguments of the pack. *)
Record launch := {
  ln_receipt : option receipt;
  ln_address_space : option Z;
  ln_cwd : option str;
  ln_command : list str }.

(** [None] exits without a command; [unique] is the process identity and the random
    token in the name of the cidfile. *)
Definition launched (l : launcher) (unique : str) (argv : list str) : option launch :=
  match argv with
  | [] => None
  | _ => Some
      {| ln_receipt := la_receipt l;
         ln_address_space := match la_mode l with HostLaunch _ limit => limit | _ => None end;
         ln_cwd := match la_mode l with HostLaunch target _ => Some target | _ => None end;
         ln_command :=
           match la_mode l with
           | HostLaunch _ _ => argv
           | ContainerLaunch prefix dir =>
               removelast prefix ++ [u "--cidfile"; path_join dir (unique ++ u ".cid"); List.last prefix []] ++ argv
           end |}
  end.

Definition CANDIDATE_CID_DIRNAME : str := "candidate-container-cids".
Definition DOCKER_CONTROL_TIMEOUT_SECONDS : Z := 30.
Definition DOCKER_PULL_TIMEOUT_SECONDS : Z := 600.

Section Prepare.
Context `{UnicodeDB} {W : Type}.
Context (judge_user : Z * Z) (abspath : str -> str).
Context (c : CandidateRunner).

(** The state is not used; a refusal is the message of [IsolationUnavailable]. *)
Abbreviation P A := (M (op W) (reply W) unit (stop str) A).

Definition unavailable {A} (message : str) : P A := refuse (Refused message).

(** [except (DockerImageIdentityError, OSError, SubprocessError)] *)
Definition preflight_failure (e : failure) : bool :=
  match fl_kind e with OSFailure | SubprocessFailure | TimeoutFailure => true | _ => false end.
Definition preflight_failed (text : str) : str := cr_isolation c ++ u " isolation preflight failed: " ++ text.
Definition environmental {A} (e : failure) : P A :=
  if preflight_failure e then unavailable (preflight_failed (fl_text e)) else throw e.

(** An operation whose environmental failures are refusals. *)
Definition deliver {A} (a : op W) (read : reply W -> option A) : P A :=
  let! r := attempt a read in
  match r with inr x => vret x | inl e => environmental e end.

Definition as_control (r : reply W) : option process := match r with RProcess p => Some p | _ => None end.

(** [_run_docker_control] of the facade. *)
Definition _docker_control (command : list str) (timeout : Z) : P process :=
  let! r := attempt (DockerControl command timeout) as_control in
  match r with
  | inr p => vret p
  | inl e =>
      match fl_kind e with
      | ProcessFailure => unavailable (u "Docker control command could not be safely captured: " ++ fl_text e)
      | _ => environmental e
      end
  end.

(** [(stderr or stdout).strip()[:200]] *)
Definition control_detail (p : process) : str := take 200 (strip (if is_empty (ps_stderr p) then ps_stdout p else ps_stderr p)).

Definition NON_CANONICAL_IMAGE_ID : str :=
  u "Docker image inspection returned a non-canonical image ID; expected sha256 followed by 64 lowercase hexadecimal characters".

Definition canonical_image (image : str) : P str :=
  match require_canonical_docker_image_id image with
  | Some id => vret id
  | None => unavailable (preflight_failed NON_CANONICAL_IMAGE_ID)
  end.

Definition _image_digest (image : str) : P (option str) :=
  let! inspected := _docker_control (us ["docker"; "image"; "inspect"; "--format"; "{{.Id}}"] ++ [image]) DOCKER_CONTROL_TIMEOUT_SECONDS in
  if negb (ps_returncode inspected =? 0) then vret None
  else
    let image_id := strip (ps_stdout inspected) in
    if is_empty image_id then vret None
    else let! id := canonical_image image_id in vret (Some id).

Definition _ensure_image (image : str) : P str :=
  let! digest := _image_digest image in
  match digest with
  | Some d => vret d
  | None =>
      let! pull := _docker_control [u "docker"; u "pull"; image] DOCKER_PULL_TIMEOUT_SECONDS in
      if negb (ps_returncode pull =? 0) then
        unavailable (u "container image " ++ py_repr image ++ u " is not available and could not be pulled: " ++ control_detail pull)
      else
        let! digest := _image_digest image in
        match digest with
        | Some d => vret d
        | None => unavailable (u "container image " ++ py_repr image ++ u " was pulled but has no resolvable image ID")
        end
  end.

(** The receipt is configured only when both of its values are there. *)
Definition launcher_receipt : option receipt :=
  match cr_invocation_socket c, cr_invocation_token c with
  | Some (a :: path), Some (b :: token) => Some {| rc_path := a :: path; rc_token := b :: token |}
  | _, _ => None
  end.

Definition _launcher_config (mode : launch_mode) : launcher := {| la_mode := mode; la_receipt := launcher_receipt |}.

Definition _write_launcher (workdir : str) (l : launcher) : P str :=
  deliver (WriteLauncher workdir (launcher_value l)) as_text.

(** What [getrlimit] and the effective user show. *)
Definition as_limit (r : reply W) : option (str + option (option Z * bool)) :=
  match r with RLimit o => Some (inr o) | RRefused m => Some (inl m) | _ => None end.

Definition _require_rlimit_deliverable (limit : Z) : P unit :=
  let! r := deliver AddressSpaceLimit as_limit in
  match r with
  | inl m => unavailable (u "subprocess isolation cannot observe RLIMIT_AS: " ++ m)
  | inr (Some (Some hard, privileged)) =>
      if (hard <? limit) && negb privileged then
        unavailable (u "subprocess isolation cannot deliver the configured " ++ str_of_Z limit
          ++ u "-byte memory cap: the process hard RLIMIT_AS is " ++ str_of_Z hard ++ u " and raising it requires privilege")
      else vret tt
  | inr _ => vret tt
  end.

Definition memory_cap : option Z :=
  if 0 <? cr_mem_limit_mb c then Some (cr_mem_limit_mb c * 1024 * 1024) else None.

Definition _prepare_subprocess (workdir target : str) : P (str * list (str * str) * IsolationEvidence) :=
  match memory_cap with Some limit => _require_rlimit_deliverable limit | None => vret tt end ;!
  let! path := _write_launcher workdir (_launcher_config (HostLaunch target memory_cap)) in
  vret (path,
    [(u "EVOGUARD_EXEC", path); (u "EVOGUARD_TARGET", target);
     (u "EVOGUARD_PYTHON", if is_empty (cr_python c) then u "python3" else cr_python c)],
    {| ie_requested := cr_isolation c; ie_delivered := u "subprocess"; ie_image := None; ie_image_digest := None;
       ie_network := None; ie_runtime := None;
       ie_note := u "candidate launcher prepared for a host subprocess: same machine, filesystem and user as the judge. A launcher receipt is required before assurance can claim this boundary was invoked."
         ++ match memory_cap with
            | Some _ => u " An RLIMIT_AS cap of " ++ str_of_Z (cr_mem_limit_mb c)
                ++ u " MiB is applied by the launcher before exec; an unappliable cap aborts the launch (fail-closed)."
            | None => []
            end |}).

(** The arguments of the container before the pack's own. *)
Definition container_prefix (target image_digest : str) (runtime : option str) : list str :=
  us ["docker"; "run"; "--rm"; "--network"] ++ [cr_docker_network c]
  ++ us ["--read-only"; "--tmpfs"; "/tmp:rw,exec"; "--pids-limit"; "256"; "--cpus"; "1"; "--cap-drop"; "ALL";
         "--security-opt"; "no-new-privileges"; "--ulimit"; "nofile=1024:1024";
         "-e"; "HOME=/tmp"; "-e"; "PYTHONDONTWRITEBYTECODE=1"; "-e"; "LANG=C.UTF-8"]
  ++ [u "-v"; target ++ u ":/candidate:ro"; u "-w"; u "/candidate"]
  ++ [u "--user"; str_of_Z (fst judge_user) ++ u ":" ++ str_of_Z (snd judge_user)]
  ++ match runtime with Some (a :: r) => [u "--runtime"; a :: r] | _ => [] end
  ++ (if 0 <? cr_mem_limit_mb c then [u "--memory"; str_of_Z (cr_mem_limit_mb c) ++ u "m"] else [])
  ++ [image_digest].

Definition container_runtime : option str :=
  match cr_docker_runtime c with
  | Some (a :: r) => Some (a :: r)
  | _ => if cr_isolation c =s? u "gvisor" then Some (u "runsc") else None
  end.

Definition _prepare_container (workdir target : str) : P (str * list (str * str) * IsolationEvidence) :=
  match cr_docker_image c with
  | Some (a :: image) =>
      let image := a :: image in
      let! found := deliver DockerOnPath as_bool in
      if negb found then
        unavailable (cr_isolation c ++ u " isolation requested but the docker CLI was not found")
      else
        let! probe := _docker_control (us ["docker"; "version"; "--format"; "{{.Server.Version}}"]) DOCKER_CONTROL_TIMEOUT_SECONDS in
        if negb (ps_returncode probe =? 0) then
          unavailable (cr_isolation c ++ u " isolation requested but the Docker daemon is not reachable: " ++ control_detail probe)
        else
          let! resolved := _ensure_image image in
          let! image_digest := canonical_image resolved in
          let cidfile_dir := path_join (abspath workdir) CANDIDATE_CID_DIRNAME in
          deliver (MakeOwnedDir cidfile_dir) as_unit ;!
          let! path := _write_launcher workdir
            (_launcher_config (ContainerLaunch (container_prefix target image_digest container_runtime) cidfile_dir)) in
          vret (path,
            [(u "EVOGUARD_EXEC", path); (u "EVOGUARD_TARGET", target); (u "EVOGUARD_PYTHON", u "python3")],
            {| ie_requested := cr_isolation c; ie_delivered := cr_isolation c; ie_image := Some image;
               ie_image_digest := Some image_digest; ie_network := Some (cr_docker_network c);
               ie_runtime := container_runtime;
               ie_note := u "candidate launcher prepared a network-less, read-only container; the repo copy is mounted read-only and the judge-owned pack is not mounted. A launcher receipt plus runtime-written CID is required before assurance can claim the container boundary was invoked." |})
  | _ => unavailable (cr_isolation c ++ u " isolation requires a container image (--docker-image)")
  end.

(** [prepare] on a POSIX host: launcher, environment and evidence. *)
Definition prepare (workdir target : str) : P (str * list (str * str) * IsolationEvidence) :=
  if container_isolation (cr_isolation c) then _prepare_container workdir target else _prepare_subprocess workdir target.
End Prepare.
