(* ===== verification/BlackboxCandidate.v ===== *)
(** What the external judge observes of the candidate's containers and launcher
    (verifiers/blackbox_candidate_runtime.py, and the identity scan and the cleanup of
    isolation/docker.py). *)
From S2P Require Export CandidateRunner BlackboxFinalization.
Local Open Scope Z_scope.

(** ** Container identities *)

Record DockerCidScanResult := { sn_container_ids : list str; sn_failures : list str }.

(** The rows of a directory, in the order of their names. *)
Fixpoint scan_entries (dir : str) (entries : list (str * cid_content)) (ids failures : list str) : DockerCidScanResult :=
  match entries with
  | [] => {| sn_container_ids := ids; sn_failures := failures |}
  | (name, content) :: entries' =>
      if negb (ends_with (u ".cid") name) then scan_entries dir entries' ids failures
      else
        match content with
        | NotRegular => scan_entries dir entries' ids failures
        | Unreadable text =>
            scan_entries dir entries' ids
              (failures ++ [u "could not read candidate cidfile " ++ path_join dir name ++ u ": " ++ text])
        | CidText raw =>
            let container_id := strip raw in
            if (128 <? Z.of_nat (length raw)) || negb (hex64_lower container_id) || str_in container_id ids
            then scan_entries dir entries' ids failures
            else scan_entries dir entries' (ids ++ [container_id]) failures
        end
  end.

Section Candidate.
Context `{UnicodeDB} {W : Type}.

(** Nothing here refuses: a step ends with a value or an exception. *)
Abbreviation C S A := (M (op W) (reply W) S (stop Empty_set) A).

Definition as_cids (r : reply W) : option (str + list (str * cid_content)) :=
  match r with RCids l => Some (inr l) | RRefused m => Some (inl m) | _ => None end.

Definition scan_candidate_container_ids {S} (dir : str) : C S DockerCidScanResult :=
  let! listed := request (ListCids dir) as_cids in
  match listed with
  | inl exc => vret {| sn_container_ids := [];
                       sn_failures := [u "could not scan candidate cidfile directory " ++ dir ++ u ": " ++ exc] |}
  | inr entries => vret (scan_entries dir (py_sort (fun a b => str_leb (fst a) (fst b)) entries) [] [])
  end.

(** [_candidate_container_ids]; the message is the one of the strict mode. *)
Definition _candidate_container_ids {S} (dir : str) (strict : bool) : C S (str + list str) :=
  let! scanned := scan_candidate_container_ids dir in
  match strict, sn_failures scanned with
  | true, failure :: _ => vret (inl failure)
  | _, _ => vret (inr (sn_container_ids scanned))
  end.

(** ** Evidence of an invocation *)

Definition as_count (r : reply W) : option Z := match r with RCount n => Some n | _ => None end.

(** [recorder.drain()], zero without a recorder *)
Definition drain {S} (recorder : option (str * str)) : C S Z :=
  match recorder with
  | Some (path, _) => request (DrainReceipts path) as_count
  | None => vret 0
  end.

Definition candidate_invocations (delivered : str) (launcher_events : Z) (container_ids : list str) : Z :=
  if delivered =s? u "subprocess" then launcher_events
  else if container_isolation delivered then Z.min launcher_events (Z.of_nat (length container_ids))
  else 0.

Record observation := { ob_launcher_events : Z; ob_container_ids : list str; ob_invocations : Z }.

(** One attempt and, while nothing was observed, [n] more; the state is the set of the
    identities that were observed so far. *)
Fixpoint observe (n : nat) (recorder : option (str * str)) (dir delivered : str) : C (list str) observation :=
  let! launcher_events := drain recorder in
  let! scanned := _candidate_container_ids dir false in
  let ids := match scanned with inr ids => ids | inl _ => [] end in
  modify (fun observed => dedup_str (observed ++ ids)) ;!
  let! observed := get_state in
  let container_ids := sorted_set observed in
  let invocations := candidate_invocations delivered launcher_events container_ids in
  let o := {| ob_launcher_events := launcher_events; ob_container_ids := container_ids; ob_invocations := invocations |} in
  match n with
  | O => vret o
  | S n =>
      if 0 <? invocations then vret o
      else request (Sleep 50) as_unit ;! observe n recorder dir delivered
  end.

Record CandidateExecutionEvidence := {
  ee_isolation : dict;
  ee_candidate_invocations : Z;
  ee_candidate_launcher_invocation_observed : bool }.

Definition INVOCATION_NOTE : str :=
  u "proves the trusted pack invoked EVOGUARD_EXEC; it does not by itself prove that the pack-supplied argv exercised candidate code. Only the zero/nonzero fact is security-relevant; same-host code could discover the sidecar after its first invocation, so the raw receipt count is not an audited exact call count".
Definition UNOBSERVED_NOTE : str :=
  u "the boundary was prepared, but the required launcher/runtime invocation evidence was not observed; no candidate isolation is claimed".

(** [str(x or "")] *)
Definition str_or_empty (v : value) : str := if truthy v then py_str v else [].

(** The evidence with what was observed. *)
Definition projected_evidence (isolation : dict) (o : observation) : CandidateExecutionEvidence :=
  let delivered := str_or_empty (dget isolation (u "delivered")) in
  let observed := 0 <? ob_invocations o in
  let isolation :=
    if negb observed && negb (str_in delivered (us [""; "not_run"; "unavailable"])) then
      let note := dget isolation (u "note") in
      dset (u "note") (VStr UNOBSERVED_NOTE)
        ((if truthy note then dset (u "preparation_note") note else fun d => d)
           (dset (u "delivered") (VStr (u "not_run")) (dset (u "prepared") (VStr delivered) isolation)))
    else isolation in
  {| ee_isolation := dupdate isolation
       [(u "candidate_launcher_events", VInt (ob_launcher_events o));
        (u "candidate_container_ids_observed", VInt (Z.of_nat (length (ob_container_ids o))));
        (u "candidate_invocations", VInt (ob_invocations o));
        (u "candidate_launcher_invocation_observed", VBool observed);
        (u "candidate_invocation_evidence_note", VStr INVOCATION_NOTE)];
     ee_candidate_invocations := ob_invocations o;
     ee_candidate_launcher_invocation_observed := observed |}.

Definition attach_candidate_execution_evidence (isolation : dict) (recorder : option (str * str)) (dir : str)
    (wait_for_late_container_evidence : bool) : C (list str) CandidateExecutionEvidence :=
  let delivered := str_or_empty (dget isolation (u "delivered")) in
  let more := if wait_for_late_container_evidence && container_isolation delivered then 9%nat else 0%nat in
  let! o := observe more recorder dir delivered in
  vret (projected_evidence isolation o).

(** ** Removal of the containers *)

(** The exceptions that the cleanup records instead of passing on. *)
Definition control_failure (e : failure) : bool :=
  match fl_kind e with OSFailure | SubprocessFailure | TimeoutFailure | ProcessFailure => true | _ => false end.

(** A control command: a recorded failure, or the process. *)
Definition control {S} (command : list str) : C S (str + process) :=
  let! r := attempt (DockerControl command DOCKER_CONTROL_TIMEOUT_SECONDS) as_control in
  match r with
  | inr p => vret (inr p)
  | inl e => if control_failure e then vret (inl (fl_text e)) else throw e
  end.

Definition probe_command (id : str) : list str :=
  us ["docker"; "ps"; "-aq"; "--no-trunc"; "--filter"] ++ [u "id=" ++ id].
Definition remove_command (id : str) : list str := us ["docker"; "rm"; "-f"] ++ [id].

(** What a listing of containers says of one of them. *)
Definition listed (id : str) (p : process) : bool := str_in id (map strip (splitlines (ps_stdout p))).

Definition or_else (a b : str) : str := if is_empty a then b else a.

Definition container_present {S} (id : str) : C S (str + bool) :=
  let! r := control (probe_command id) in
  match r with
  | inl text => vret (inl text)
  | inr probe =>
      if negb (ps_returncode probe =? 0) then
        vret (inl (u "could not inspect candidate container " ++ id ++ u ": "
                   ++ or_else (control_detail probe) (u "docker ps failed")))
      else vret (inr (listed id probe))
  end.

(** The failure that keeps the absence of one container from being proved. *)
Definition remove_container {S} (id : str) : C S (option str) :=
  let! present := container_present id in
  match present with
  | inl text => vret (Some text)
  | inr false => vret None
  | inr true =>
      let! r := control (remove_command id) in
      match r with
      | inl text => vret (Some text)
      | inr removal =>
          if negb (ps_returncode removal =? 0) then
            vret (Some (u "docker rm -f failed for candidate container " ++ id ++ u ": "
                        ++ or_else (control_detail removal) (u "exit " ++ str_of_Z (ps_returncode removal))))
          else
            let! present := container_present id in
            match present with
            | inl text => vret (Some text)
            | inr false => vret None
            | inr true => vret (Some (u "candidate container " ++ id ++ u " remained after docker rm -f"))
            end
      end
  end.

Fixpoint remove_containers {S} (ids attempted failures : list str) : C S (list str * list str) :=
  match ids with
  | [] => vret (attempted, failures)
  | id :: ids' =>
      if str_in id attempted then remove_containers ids' attempted failures
      else
        let! failed := remove_container id in
        remove_containers ids' (attempted ++ [id])
          (failures ++ match failed with Some text => [id ++ u ": " ++ text] | None => [] end)
  end.

(** One scan and [n] more. *)
Fixpoint cleanup_attempts {S} (n : nat) (dir : str) (strict : bool) (known attempted failures : list str)
  : C S (list str * list str) :=
  let! scanned := _candidate_container_ids dir strict in
  let ids := match scanned with inr ids => ids | inl _ => [] end in
  let failures := failures ++ match scanned with inl text => [u "cidfile scan: " ++ text] | inr _ => [] end in
  let! ' (attempted, failures) := remove_containers (sorted_set (known ++ ids)) attempted failures in
  match n with
  | O => vret (attempted, failures)
  | Datatypes.S n => request (Sleep 50) as_unit ;! cleanup_attempts n dir strict known attempted failures
  end.

(** The cleanup of isolation/docker.py: the identities it attempted, and what failed. *)
Definition cleanup_kernel {S} (dir : str) (wait_for_late_cidfiles strict : bool) (known : list str)
  : C S (list str * list str) :=
  let! exists_ := request (LExists dir) as_bool in
  if negb exists_ && is_empty known then vret ([], [])
  else
    let! r := cleanup_attempts (if wait_for_late_cidfiles then 9%nat else 0%nat) dir strict known [] [] in
    vret (sorted_set (fst r), snd r).

(** The message of [CandidateContainerCleanupError] in strict mode. *)
Definition cleanup_candidate_containers {S} (dir : str) (wait_for_late_cidfiles strict : bool) (known : list str)
  : C S (option str) :=
  let! r := cleanup_kernel dir wait_for_late_cidfiles strict known in
  match strict, snd r with
  | true, _ :: _ => vret (Some (u "candidate container cleanup could not prove absence: " ++ py_join (u "; ") (snd r)))
  | _, _ => vret None
  end.
End Candidate.
