(* ===== verification/BlackboxPack.v ===== *)
(** Execution and interpretation of one accepted black-box pack
    (verifiers/blackbox_pack.py), and the command of the judge (blackbox.py). *)
From S2P Require Export BlackboxCandidate.
Local Open Scope Z_scope.

(** The cleanup state that the pack phase shares with the owner of its resources. *)
Record BlackboxPackLifecycle := { bl_active : bool; bl_started : bool }.

Record BlackboxPackExecutionRequest := {
  xr_pack_snapshot : str;
  xr_pack_identity : str * option dict;
  xr_xml_path : str;
  xr_environment : list (str * str);
  xr_timeout : Z }.

Record BlackboxPackVerdictFacts := {
  vf_passed : bool;
  vf_tests_passed : Z;
  vf_tests_total : Z;
  vf_diagnostics : str;
  vf_ran : bool;
  vf_error : option str;
  vf_junit_sha256 : option str;
  vf_started : bool;
  vf_completed : bool;
  vf_execution_state : str;
  vf_execution_phase : str;
  vf_attach_candidate_evidence : bool;
  vf_wait_for_late_container_evidence : bool }.

Record BlackboxPackCompleted := { bc_process : process; bc_xml_path : str; bc_started_at : float }.

(** The judge's own pytest over the pack. *)
Definition _judge_command (python_executable pack_dir xml_path : str) : list str :=
  python_executable :: us ["-m"; "pytest"; "-q"; "--color=no"; "-p"; "no:cacheprovider"]
  ++ [pack_dir; u "--junitxml=" ++ xml_path; u "-o"; u "junit_family=xunit2"].

(** A judge that was started and did not end. *)
Definition _incomplete (diagnostics error : str) : BlackboxPackVerdictFacts :=
  {| vf_passed := false; vf_tests_passed := 0; vf_tests_total := 0; vf_diagnostics := diagnostics; vf_ran := false;
     vf_error := Some error; vf_junit_sha256 := None; vf_started := true; vf_completed := false;
     vf_execution_state := u "started_incomplete"; vf_execution_phase := u "blackbox_pack";
     vf_attach_candidate_evidence := true; vf_wait_for_late_container_evidence := true |}.

(** A snapshot that changed before the judge was started. *)
Definition snapshot_changed (text : str) : BlackboxPackVerdictFacts :=
  {| vf_passed := false; vf_tests_passed := 0; vf_tests_total := 0; vf_diagnostics := text; vf_ran := false;
     vf_error := Some (u "verifier pack snapshot changed"); vf_junit_sha256 := None; vf_started := false; vf_completed := false;
     vf_execution_state := u "not_started"; vf_execution_phase := u "preflight"; vf_attach_candidate_evidence := false;
     vf_wait_for_late_container_evidence := false |}.

(** A judge that ended. *)
Definition completed_facts (passed : bool) (tests_passed tests_total : Z) (diagnostics : str) (ran : bool) (error : option str)
    (junit_sha256 : option str) : BlackboxPackVerdictFacts :=
  {| vf_passed := passed; vf_tests_passed := tests_passed; vf_tests_total := tests_total; vf_diagnostics := diagnostics;
     vf_ran := ran; vf_error := error; vf_junit_sha256 := junit_sha256; vf_started := true; vf_completed := true;
     vf_execution_state := u "completed"; vf_execution_phase := u "blackbox_pack"; vf_attach_candidate_evidence := true;
     vf_wait_for_late_container_evidence := false |}.

Section Pack.
Context `{UnicodeDB} {W S X : Type}.
Context (python_executable : str) (et_fromstring : str -> option element).
(** The owner keeps the lifecycle in its own state. *)
Context (set_lifecycle : BlackboxPackLifecycle -> S -> S).

Abbreviation K A := (M (op W) (reply W) S (stop X) A).

(** The verification of the snapshot: the message of a [PackManifestError]. *)
Definition as_verified (r : reply W) : option (str + unit) :=
  match r with RUnit => Some (inr tt) | RRefused m => Some (inl m) | _ => None end.

(** The exceptions of the judge's process that are reported. *)
Definition judge_failure (timeout : Z) (e : failure) : option BlackboxPackVerdictFacts :=
  match fl_kind e with
  | TimeoutFailure => Some (_incomplete (u "black-box pack timed out after " ++ str_of_Z timeout ++ u "s") (u "timeout"))
  | JudgeOutputFailure => Some (_incomplete (fl_text e) (u "black-box output limit"))
  | JudgeCleanupFailure => Some (_incomplete (fl_text e) (u "judge process cleanup failed"))
  | _ => None
  end.

Definition execute_blackbox_pack (q : BlackboxPackExecutionRequest) : K (BlackboxPackVerdictFacts + BlackboxPackCompleted) :=
  let! started_at := request PerfCounter as_float in
  let! verified := request (VerifySnapshot (xr_pack_snapshot q) (xr_pack_identity q)) as_verified in
  match verified with
  | inl text => vret (inl (snapshot_changed text))
  | inr _ =>
      modify (set_lifecycle {| bl_active := true; bl_started := true |}) ;!
      let! ran := attempt (RunJudge (_judge_command python_executable (xr_pack_snapshot q) (xr_xml_path q))
                             (xr_pack_snapshot q) (xr_environment q) (xr_timeout q)) as_control in
      match ran with
      | inl e => match judge_failure (xr_timeout q) e with Some facts => vret (inl facts) | None => throw e end
      | inr p =>
          modify (set_lifecycle {| bl_active := false; bl_started := true |}) ;!
          let! verified := request (VerifySnapshot (xr_pack_snapshot q) (xr_pack_identity q)) as_verified in
          match verified with
          | inl text => vret (inl (completed_facts false 0 0 text false (Some (u "verifier pack changed while executing")) None))
          | inr _ => vret (inr {| bc_process := p; bc_xml_path := xr_xml_path q; bc_started_at := started_at |})
          end
      end
  end.

(** [junit_all_passed] *)
Definition all_passed (j : JUnitCounts) : bool :=
  (jc_failures j =? 0) && (jc_errors j =? 0) && (jc_passed j =? jc_total j).

(** The classification of a completed judge by its exit code and its report. *)
Definition classified (returncode : Z) (junit : option JUnitCounts) (junit_sha256 : option str) (diagnostics : str)
  : BlackboxPackVerdictFacts :=
  let nothing := completed_facts false 0 0 diagnostics false (Some (u "black-box pack produced no judge-owned test results")) junit_sha256 in
  match junit with
  | None => nothing
  | Some j =>
      if jc_total j <=? 0 then nothing
      else
        let facts passed ran error := completed_facts passed (jc_passed j) (jc_total j) diagnostics ran error junit_sha256 in
        if (returncode =? 0) && negb (all_passed j) || (returncode =? 1) && all_passed j
        then facts false false (Some (u "black-box JUnit/exit mismatch"))
        else if returncode =? 0 then facts true true None
        else if returncode =? 1 then facts false true None
        else facts false false (Some (u "black-box pack did not run cleanly (pytest exit " ++ str_of_Z returncode ++ u ")"))
  end.

(** A report whose text has no UTF-8 form has no digest. *)
Definition report_text_digest (text : str) : K str :=
  match utf8 text with
  | Some data => vret (sha256_hex data)
  | None => throw {| fl_kind := OtherFailure; fl_type := u "UnicodeEncodeError"; fl_text := [] |}
  end.

Definition interpret_blackbox_pack (c : BlackboxPackCompleted) : K BlackboxPackVerdictFacts :=
  let! xml_text := request (ReadReport (bc_xml_path c)) as_report in
  let! ' (junit, junit_sha256) :=
    match xml_text with
    | None => vret (None, None)
    | Some text => let! digest := report_text_digest text in vret (parse_junit_xml et_fromstring text, Some digest)
    end in
  request PerfCounter as_float ;!
  vret (classified (ps_returncode (bc_process c)) junit junit_sha256
          (distill_diagnostics (ps_stdout (bc_process c) ++ [ch_nl] ++ ps_stderr (bc_process c)))).
End Pack.
