(* ===== verification/BlackboxRun.v ===== *)
(** The external black-box judge (blackbox.py): one run from the allocation of its
    workspaces to their removal, with the precedence of cleanup failures. *)
From S2P Require Import Policy.
From S2P Require Export BlackboxPack RepoVerifier.
Local Open Scope Z_scope.

(** What [run_blackbox] is given. *)
Record blackbox_run_request := {
  bq_repo_path : str;
  bq_candidate : str;
  bq_verifier_pack : str;
  bq_timeout : Z;
  bq_isolation : str;
  bq_docker_image : option str;
  bq_docker_network : str;
  bq_docker_runtime : option str;
  bq_mem_limit_mb : Z;
  bq_deleted_paths : list str;
  bq_file_blocks : option (list (str * str));
  bq_expect_verifier_pack_sha256 : option str;
  bq_harness_inputs : list str }.

(** ** Bounded diagnostics of a cleanup *)

Definition _MAX_BLACKBOX_CLEANUP_DIAGNOSTICS_CHARS : Z := 2000.
Definition _MAX_BLACKBOX_CLEANUP_NOTES : nat := 16.

Definition _truncate_blackbox_cleanup_text (value : str) (limit : Z) : str :=
  if Z.of_nat (length value) <=? limit then value
  else if limit <=? 3 then take (Z.to_nat limit) value
  else take (Z.to_nat (limit - 3)) value ++ u "...".

Definition cleanup_text (value : str) : str :=
  _truncate_blackbox_cleanup_text value _MAX_BLACKBOX_CLEANUP_DIAGNOSTICS_CHARS.

Definition _blackbox_cleanup_exception_summary (e : failure) : str :=
  cleanup_text (fl_type e ++ u ": " ++ cleanup_text (fl_text e)).

Definition _blackbox_cleanup_note_details (notes : list str) : list str :=
  map cleanup_text (take _MAX_BLACKBOX_CLEANUP_NOTES notes)
  ++ if Nat.ltb _MAX_BLACKBOX_CLEANUP_NOTES (length notes)
     then [str_of_Z (Z.of_nat (length notes - _MAX_BLACKBOX_CLEANUP_NOTES)) ++ u " additional cleanup notes omitted"] else [].

Definition _bounded_blackbox_cleanup_details (prefix : str) (details : list str) : str :=
  match details with
  | [] => cleanup_text prefix
  | _ =>
      let header := prefix ++ u ": " in
      let n := Z.of_nat (length details) in
      let detail_budget := Z.max 0 (_MAX_BLACKBOX_CLEANUP_DIAGNOSTICS_CHARS - Z.of_nat (length header) - (n - 1) * 2) in
      let per_detail := detail_budget / n in
      header ++ py_join (u "; ") (map (fun d => _truncate_blackbox_cleanup_text d per_detail) details)
  end.

Definition _bounded_blackbox_cleanup_diagnostics (prefix : str) (e : failure) (notes : list str) : str :=
  _bounded_blackbox_cleanup_details prefix (_blackbox_cleanup_exception_summary e :: _blackbox_cleanup_note_details notes).

(** [cleanup], and what is left of the earlier diagnostics. *)
Definition with_prior_diagnostics (cleanup prior : str) : str :=
  let separator := ch_nl :: u "prior diagnostics: " in
  let remaining := _MAX_BLACKBOX_CLEANUP_DIAGNOSTICS_CHARS - Z.of_nat (length cleanup) - Z.of_nat (length separator) in
  if negb (is_empty prior) && (0 <? remaining)
  then cleanup ++ separator ++ _truncate_blackbox_cleanup_text prior remaining
  else cleanup.

(** The text of the note for a failure beside an earlier exception. *)
Definition secondary_note (label : str) (e : failure) : str :=
  cleanup_text (u "Blackbox " ++ label ++ u " cleanup failed while preserving the primary exception: "
                ++ _blackbox_cleanup_exception_summary e).

(** ** Results *)

Definition replace_verdict (r : BlackboxRuntimeResult) (passed ran : bool) (error : option str) (diagnostics : str)
  : BlackboxRuntimeResult :=
  {| br_passed := passed; br_tests_passed := br_tests_passed r; br_tests_total := br_tests_total r;
     br_diagnostics := diagnostics; br_ran := ran; br_error := error; br_pack_sha256 := br_pack_sha256 r;
     br_pack_manifest := br_pack_manifest r; br_junit_sha256 := br_junit_sha256 r; br_isolation := br_isolation r;
     br_deleted_applied := br_deleted_applied r; br_started := br_started r; br_completed := br_completed r;
     br_execution_state := br_execution_state r; br_execution_phase := br_execution_phase r;
     br_pack_present := br_pack_present r; br_candidate_invocations := br_candidate_invocations r;
     br_candidate_launcher_invocation_observed := br_candidate_launcher_invocation_observed r |}.

Definition replace_diagnostics (r : BlackboxRuntimeResult) (diagnostics : str) : BlackboxRuntimeResult :=
  replace_verdict r (br_passed r) (br_ran r) (br_error r) diagnostics.

Definition replace_evidence (r : BlackboxRuntimeResult) (isolation : option dict) (invocations : option Z) (observed : option bool)
  : BlackboxRuntimeResult :=
  {| br_passed := br_passed r; br_tests_passed := br_tests_passed r; br_tests_total := br_tests_total r;
     br_diagnostics := br_diagnostics r; br_ran := br_ran r; br_error := br_error r; br_pack_sha256 := br_pack_sha256 r;
     br_pack_manifest := br_pack_manifest r; br_junit_sha256 := br_junit_sha256 r; br_isolation := isolation;
     br_deleted_applied := br_deleted_applied r; br_started := br_started r; br_completed := br_completed r;
     br_execution_state := br_execution_state r; br_execution_phase := br_execution_phase r;
     br_pack_present := br_pack_present r; br_candidate_invocations := invocations;
     br_candidate_launcher_invocation_observed := observed |}.

(** A result without a verdict. *)
Definition ungraded (diagnostics error : str) (pack : option (str * option dict)) (isolation : option dict)
    (deleted_applied : option (list str)) (started : bool) (pack_present : option bool) : BlackboxRuntimeResult :=
  {| br_passed := false; br_tests_passed := 0; br_tests_total := 0; br_diagnostics := diagnostics; br_ran := false;
     br_error := Some error; br_pack_sha256 := fst <$> pack; br_pack_manifest := p ← pack; snd p; br_junit_sha256 := None;
     br_isolation := isolation; br_deleted_applied := deleted_applied; br_started := Some started; br_completed := Some false;
     br_execution_state := Some (if started then u "started_incomplete" else u "not_started");
     br_execution_phase := Some (if started then u "blackbox_pack" else u "preflight");
     br_pack_present := Some pack_present; br_candidate_invocations := Some 0;
     br_candidate_launcher_invocation_observed := Some false |}.

Definition _HARNESS_INPUT_CHANGED : str := "candidate harness input changed".
Definition _TRUSTED_HARNESS_BINDING_FAILED : str := "trusted harness input binding failed".
Definition _BLACKBOX_WORKSPACE_CLEANUP_FAILED : str := "black-box workspace cleanup failed".

(** [harness_failure_diagnostics] *)
Definition harness_failure_diagnostics (prefix detail : str) : str :=
  let message := prefix ++ u ": " ++ detail in
  if Z.of_nat (length message) <=? 2000 then message else take 1997 message ++ u "...".

(** ** One run *)

Record blackbox_session := {
  bs_pack_workdir : option str;
  bs_pack : option (str * option dict);
  bs_lifecycle : BlackboxPackLifecycle;
  bs_recorder : option (str * str);
  bs_deleted_applied : list str;
  bs_iso : option dict;
  bs_observed_container_ids : list str;
  bs_pending : option BlackboxRuntimeResult }.

Definition initial_session : blackbox_session :=
  {| bs_pack_workdir := None; bs_pack := None; bs_lifecycle := {| bl_active := false; bl_started := false |};
     bs_recorder := None; bs_deleted_applied := []; bs_iso := None; bs_observed_container_ids := []; bs_pending := None |}.

Definition set_bs (s : blackbox_session) pack_workdir pack lifecycle recorder deleted iso observed pending : blackbox_session :=
  {| bs_pack_workdir := pack_workdir; bs_pack := pack; bs_lifecycle := lifecycle; bs_recorder := recorder;
     bs_deleted_applied := deleted; bs_iso := iso; bs_observed_container_ids := observed; bs_pending := pending |}.
Definition set_pack_workdir (x : str) s := set_bs s (Some x) (bs_pack s) (bs_lifecycle s) (bs_recorder s) (bs_deleted_applied s) (bs_iso s) (bs_observed_container_ids s) (bs_pending s).
Definition set_pack (x : str * option dict) s := set_bs s (bs_pack_workdir s) (Some x) (bs_lifecycle s) (bs_recorder s) (bs_deleted_applied s) (bs_iso s) (bs_observed_container_ids s) (bs_pending s).
Definition set_lifecycle (x : BlackboxPackLifecycle) s := set_bs s (bs_pack_workdir s) (bs_pack s) x (bs_recorder s) (bs_deleted_applied s) (bs_iso s) (bs_observed_container_ids s) (bs_pending s).
Definition set_recorder (x : option (str * str)) s := set_bs s (bs_pack_workdir s) (bs_pack s) (bs_lifecycle s) x (bs_deleted_applied s) (bs_iso s) (bs_observed_container_ids s) (bs_pending s).
Definition set_deleted (x : list str) s := set_bs s (bs_pack_workdir s) (bs_pack s) (bs_lifecycle s) (bs_recorder s) x (bs_iso s) (bs_observed_container_ids s) (bs_pending s).
Definition set_iso (x : dict) s := set_bs s (bs_pack_workdir s) (bs_pack s) (bs_lifecycle s) (bs_recorder s) (bs_deleted_applied s) (Some x) (bs_observed_container_ids s) (bs_pending s).
Definition set_observed (x : list str) s := set_bs s (bs_pack_workdir s) (bs_pack s) (bs_lifecycle s) (bs_recorder s) (bs_deleted_applied s) (bs_iso s) x (bs_pending s).
Definition set_pending (x : BlackboxRuntimeResult) s := set_bs s (bs_pack_workdir s) (bs_pack s) (bs_lifecycle s) (bs_recorder s) (bs_deleted_applied s) (bs_iso s) (bs_observed_container_ids s) (Some x).

(** A failure on the way out: an exception, or a cleanup failure that is reported as a
    result, with the notes attached to it. *)
Inductive thrown := Exception (e : failure) | CleanupFailure (r : BlackboxRuntimeResult) (notes : list str).

Definition note (t : thrown) (text : str) : thrown :=
  match t with Exception e => Exception e | CleanupFailure r notes => CleanupFailure r (notes ++ [text]) end.

Section Run.
Context `{UnicodeDB} {W : Type} `{Workspace W}.
Context (python_executable : str) (judge_user : Z * Z) (et_fromstring : str -> option element).
Context (restore_package_json : option str -> str -> str) (abspath : str -> str).
(** Whether a deletion finds an entry. *)
Context (entry_present : W -> str -> bool).
Context (q : blackbox_run_request).

Abbreviation B A := (M (op W) (reply W) blackbox_session (stop BlackboxRuntimeResult) A).
Abbreviation P A := (prog (op W) (reply W) A).

(** An early return. *)
Definition give {A} (r : BlackboxRuntimeResult) : B A := refuse (Refused r).

(** A result before the pack is executed. *)
Definition give_ungraded {A} (diagnostics error : str) (isolation : option dict) (deleted_applied : option (list str)) : B A :=
  let! s := get_state in
  give (ungraded diagnostics error (bs_pack s) isolation deleted_applied false (Some true)).

(** *** The pack *)

Definition expected_pack : str := py_lower (match bq_expect_verifier_pack_sha256 q with Some s => s | None => [] end).

Definition intake_pack : B (str * (str * option dict)) :=
  let! pack_workdir := request (AllocateWorkspace (u "evo_blackbox_pack_")) as_text in
  modify (set_pack_workdir pack_workdir) ;!
  let snapshot := path_join pack_workdir (u "pack") in
  let! taken := request (SnapshotPack (bq_verifier_pack q) snapshot) as_pack in
  match taken with
  | inl exc => give_ungraded exc (u "verifier pack invalid") None None
  | inr identity =>
      modify (set_pack identity) ;!
      if negb (is_empty expected_pack) && negb (py_lower (fst identity) =s? expected_pack) then
        give_ungraded (u "verifier-pack identity mismatch: expected " ++ expected_pack ++ u ", observed " ++ fst identity)
          (u "verifier pack identity mismatch") None None
      else vret (snapshot, identity)
  end.

(** *** The candidate *)

(** The trusted inputs, when any is declared. *)
Definition trusted_harness : B (option path_states) :=
  if is_empty (bq_harness_inputs q) then vret None
  else
    let! taken := request (CaptureHarness (bq_repo_path q) (bq_harness_inputs q)) as_snapshot in
    match taken with
    | inl exc =>
        give_ungraded (harness_failure_diagnostics
          (u "declared harness input integrity could not be bound in the trusted black-box base") exc)
          _TRUSTED_HARNESS_BINDING_FAILED None None
    | inr s => vret (Some s)
    end.

Definition structured_blocks : option (list (str * str)) :=
  match bq_file_blocks q with Some (b :: l) => Some (b :: l) | _ => None end.
Definition file_edits : list (str * str) :=
  match structured_blocks with Some l => l | None => parse_file_blocks (bq_candidate q) end.
Definition patch_edits : list PatchBlock :=
  match structured_blocks with Some _ => [] | None => parse_patch_blocks (bq_candidate q) end.

Definition apply_candidate (copy : str) : B W :=
  let! w := request (CopyTree (bq_repo_path q) copy) as_tree in
  let '(w, error) := materialize_candidate_edits (fun a b r => apply_patch a b r 1) restore_package_json w
                       file_edits patch_edits in
  request (TreeWritten w) as_unit ;!
  match error with
  | Some e => give_ungraded (apply_error_text e) (u "patch did not apply") None None
  | None => vret w
  end.

(** The deletions, those that removed an entry, and the error that stopped them. *)
Fixpoint delete_all (paths : list str) (w : W) (deleted : list str) : W * list str * option str :=
  match paths with
  | [] => (w, deleted, None)
  | rel :: paths' =>
      if negb (is_safe_relpath rel) then delete_all paths' w deleted
      else match delete_path w rel with
           | Ok w' => delete_all paths' w' (if entry_present w rel then deleted ++ [rel] else deleted)
           | Err why => (w, deleted, Some why)
           end
  end.

Definition apply_deletions (w : W) : B unit :=
  let '(w, deleted, error) := delete_all (bq_deleted_paths q) w [] in
  request (TreeWritten w) as_unit ;!
  modify (set_deleted deleted) ;!
  match error with
  | Some why => give_ungraded (u "candidate deletion could not be applied safely: " ++ why) (u "unsafe deletion path") None None
  | None => vret tt
  end.

Definition bind_candidate (copy : str) (trusted : option path_states) : B unit :=
  match trusted with
  | None => vret tt
  | Some baseline =>
      let! taken := request (CaptureHarness copy (bq_harness_inputs q)) as_snapshot in
      let! s := get_state in
      match taken with
      | inl exc =>
          give_ungraded (harness_failure_diagnostics
            (u "declared harness input integrity could not be bound after black-box candidate materialization") exc)
            _HARNESS_INPUT_CHANGED None (Some (bs_deleted_applied s))
      | inr observed =>
          match harness_input_snapshot_changes baseline observed with
          | [] => vret tt
          | changes =>
              give_ungraded (harness_failure_diagnostics
                (u "black-box candidate materialization changed declared harness inputs") (py_join (u ", ") changes))
                _HARNESS_INPUT_CHANGED None (Some (bs_deleted_applied s))
          end
      end
  end.

(** *** The boundary *)

Definition as_recorder (r : reply W) : option (option (str * str)) := match r with RRecorder c => Some c | _ => None end.

Definition candidate_runner (recorder : option (str * str)) : CandidateRunner :=
  {| cr_isolation := bq_isolation q; cr_docker_image := bq_docker_image q; cr_docker_network := bq_docker_network q;
     cr_docker_runtime := bq_docker_runtime q; cr_mem_limit_mb := bq_mem_limit_mb q; cr_python := python_executable;
     cr_invocation_socket := fst <$> recorder; cr_invocation_token := snd <$> recorder |}.

Definition unavailable_isolation (text : str) : dict := dict_of [
  ("requested", VStr (bq_isolation q)); ("delivered", VStr (u "unavailable")); ("note", VStr text)].

(** The environment through which the pack reaches the candidate. *)
Definition deliver_boundary (workdir copy : str) : B (list (str * str)) :=
  let! recorder := request (CreateRecorder workdir) as_recorder in
  modify (set_recorder recorder) ;!
  fun s => bind (CandidateRunner.prepare judge_user abspath (candidate_runner recorder) workdir copy tt) (fun r =>
    match snd r with
    | Done (_, environment, evidence) => Ret (set_iso (as_dict evidence) s, Done environment)
    | Returned (Refused text) =>
        give_ungraded text (u "isolation unavailable") (Some (unavailable_isolation text)) (Some (bs_deleted_applied s)) s
    | Returned (Threw e) => throw e s
    | Raised => raise s
    end).

(** *** The verdict of the pack *)

Definition result_of (s : blackbox_session) (f : BlackboxPackVerdictFacts) : BlackboxRuntimeResult :=
  {| br_passed := vf_passed f; br_tests_passed := vf_tests_passed f; br_tests_total := vf_tests_total f;
     br_diagnostics := vf_diagnostics f; br_ran := vf_ran f; br_error := vf_error f; br_pack_sha256 := fst <$> bs_pack s;
     br_pack_manifest := p ← bs_pack s; snd p; br_junit_sha256 := vf_junit_sha256 f; br_isolation := bs_iso s;
     br_deleted_applied := Some (bs_deleted_applied s); br_started := Some (vf_started f);
     br_completed := Some (vf_completed f); br_execution_state := Some (vf_execution_state f);
     br_execution_phase := Some (vf_execution_phase f); br_pack_present := Some (Some true);
     br_candidate_invocations := Some 0; br_candidate_launcher_invocation_observed := Some false |}.

Definition on_observed {A} (m : M (op W) (reply W) (list str) (stop Empty_set) A) : B A := fun s =>
  bind (m (bs_observed_container_ids s)) (fun r =>
    Ret (set_observed (fst r) s,
         match snd r with
         | Done a => Done a
         | Returned (Threw e) => Returned (Threw e)
         | Returned (Refused x) => match x with end
         | Raised => Raised
         end)).

Definition cidfile_dir (workdir : str) : str := path_join workdir CANDIDATE_CID_DIRNAME.

Definition with_candidate_evidence (workdir : str) (r : BlackboxRuntimeResult) (wait_ : bool) : B BlackboxRuntimeResult :=
  let! s := get_state in
  let! e := on_observed (attach_candidate_execution_evidence
              (match br_isolation r with Some d => d | None => [] end) (bs_recorder s) (cidfile_dir workdir) wait_) in
  vret (replace_evidence r (Some (ee_isolation e)) (Some (ee_candidate_invocations e))
          (Some (ee_candidate_launcher_invocation_observed e))).

Definition enforce_harness_postcondition (copy : str) (trusted : option path_states) (r : BlackboxRuntimeResult)
  : B BlackboxRuntimeResult :=
  match trusted with
  | None => vret r
  | Some baseline =>
      let! taken := request (CaptureHarness copy (bq_harness_inputs q)) as_snapshot in
      match taken with
      | inl exc =>
          vret (replace_verdict r false false (Some _HARNESS_INPUT_CHANGED)
            (harness_failure_diagnostics (u "declared harness input integrity could not be proven after black-box execution") exc))
      | inr observed =>
          match harness_input_snapshot_changes baseline observed with
          | [] => vret r
          | changes =>
              vret (replace_verdict r false false (Some _HARNESS_INPUT_CHANGED)
                (harness_failure_diagnostics
                  (u "black-box candidate/pack execution changed declared harness inputs") (py_join (u ", ") changes)))
          end
      end
  end.

Definition project_pack_verdict (workdir copy : str) (trusted : option path_states) (f : BlackboxPackVerdictFacts)
  : B BlackboxRuntimeResult :=
  let! s := get_state in
  let result := result_of s f in
  let! attached := if vf_attach_candidate_evidence f
                   then with_candidate_evidence workdir result (vf_wait_for_late_container_evidence f) else vret result in
  let! r := enforce_harness_postcondition copy trusted attached in
  modify (set_pending r) ;!
  vret r.

(** The body of [_run_blackbox_impl], in the workspace [workdir]. *)
Definition judge_pack (workdir : str) : B BlackboxRuntimeResult :=
  let copy := path_join workdir (u "repo") in
  let! ' (snapshot, identity) := intake_pack in
  let! trusted := trusted_harness in
  let! w := apply_candidate copy in
  apply_deletions w ;!
  bind_candidate copy trusted ;!
  let! run_env := deliver_boundary workdir copy in
  let! env := request (JudgeEnvironment workdir) as_environment in
  let! r := execute_blackbox_pack python_executable set_lifecycle
    {| xr_pack_snapshot := snapshot; xr_pack_identity := identity;
       xr_xml_path := path_join workdir (u "judge-blackbox.xml"); xr_environment := env_merge env run_env;
       xr_timeout := bq_timeout q |} in
  match r with
  | inl facts => project_pack_verdict workdir copy trusted facts
  | inr completed =>
      let! facts := interpret_blackbox_pack et_fromstring completed in
      project_pack_verdict workdir copy trusted facts
  end.

(** *** The way out *)

(** The evidence that a pending result already has. *)
Definition _retain_pending_candidate_evidence (r : BlackboxRuntimeResult) (pending : option BlackboxRuntimeResult)
  : BlackboxRuntimeResult :=
  match pending with
  | None => r
  | Some p => replace_evidence r (br_isolation p) (br_candidate_invocations p) (br_candidate_launcher_invocation_observed p)
  end.

Definition cleanup_failure_result (s : blackbox_session) (diagnostics error : str) : BlackboxRuntimeResult :=
  _retain_pending_candidate_evidence
    (ungraded diagnostics error (bs_pack s) (bs_iso s) (Some (bs_deleted_applied s)) (bl_started (bs_lifecycle s))
       (if bs_pack s then Some true else None))
    (bs_pending s).

Definition _cleanup_failure_result_from_pending (pending : BlackboxRuntimeResult) (prefix : str) (e : failure) : BlackboxRuntimeResult :=
  replace_diagnostics pending
    (with_prior_diagnostics (_bounded_blackbox_cleanup_diagnostics prefix e []) (br_diagnostics pending)).

Definition container_error (text : str) : failure :=
  {| fl_kind := OtherFailure; fl_type := u "CandidateContainerCleanupError"; fl_text := text |}.

(** A failure of one cleanup phase: it passes, or is noted on what is under way. *)
Definition after_failure (primary : option thrown) (label : str) (e : failure) : option thrown :=
  Some match primary with None => Exception e | Some t => note t (secondary_note label e) end.

Definition containers_proved (s : blackbox_session) (primary : option thrown)
    (e : ending (stop Empty_set) (option str)) : option thrown :=
  match e with
  | Done None => primary
  | Done (Some text) =>
      match primary with
      | Some t => Some (note t (secondary_note (u "candidate container") (container_error text)))
      | None =>
          Some (CleanupFailure
            (match bl_active (bs_lifecycle s), bs_pending s with
             | true, Some pending =>
                 _cleanup_failure_result_from_pending pending
                   (u "candidate container cleanup failed while preserving the incomplete black-box result") (container_error text)
             | _, _ => cleanup_failure_result s (cleanup_text text) (u "candidate container cleanup failed")
             end) [])
      end
  | Returned (Threw e) => after_failure primary (u "candidate container") e
  | Returned (Refused x) => match x with end
  | Raised => after_failure primary (u "candidate container") unexpected
  end.

(** The containers are removed before the identities are deleted; only a judge that
    ended must have every one proved absent. *)
Definition cleanup_containers (workdir : str) (s : blackbox_session) (primary : option thrown) : P (option thrown) :=
  let active := bl_active (bs_lifecycle s) in
  bind (cleanup_candidate_containers (cidfile_dir workdir) active (negb active) (bs_observed_container_ids s) tt)
    (fun r => Ret (containers_proved s primary (snd r))).

Definition close_recorder (s : blackbox_session) (primary : option thrown) : P (option thrown) :=
  match bs_recorder s with
  | None => Ret primary
  | Some (path, _) =>
      Op (CloseRecorder path) (fun r => Ret
        match r with RUnit => primary | _ => after_failure primary (u "invocation recorder") (failure_of r) end)
  end.

(** What the removal of a tree raised. *)
Definition removal_failure (r : reply W) : option failure :=
  match r with
  | RUnit => None
  | RNotFound => Some {| fl_kind := OSFailure; fl_type := u "FileNotFoundError"; fl_text := [] |}
  | _ => Some (failure_of r)
  end.

(** A tree that was not found counts as removed only when its root is seen absent. *)
Definition remove_root (path : str) : P (option failure) :=
  Op (RemoveTree path) (fun r =>
    match removal_failure r with
    | None => Ret None
    | Some e =>
        if fl_type e =s? u "FileNotFoundError" then
          Op (PathAbsent path) (fun r => Ret
            match r with RBool true => None | RBool false => Some e | _ => Some (failure_of r) end)
        else Ret (Some e)
    end).

Fixpoint remove_roots (roots : list (str * option str)) : P (list (str * failure)) :=
  match roots with
  | [] => Ret []
  | (_, None) :: roots' => remove_roots roots'
  | (label, Some path) :: roots' =>
      bind (remove_root path) (fun failed =>
      bind (remove_roots roots') (fun others =>
        Ret (match failed with Some e => (label, e) :: others | None => others end)))
  end.

Definition workspaces_proved (s : blackbox_session) (primary : option thrown) (failures : list (str * failure)) : option thrown :=
  match primary, failures with
  | _, [] => primary
  | Some t, _ => Some (fold_left (fun t x => note t (secondary_note (fst x) (snd x))) failures t)
  | None, (label, e) :: others =>
      match fl_kind e with
      | Interrupt => Some (Exception e)
      | _ =>
          let notes := cleanup_text (u "Blackbox " ++ label ++ u " cleanup failed")
                       :: map (fun x => secondary_note (fst x) (snd x)) others in
          Some (CleanupFailure
            (cleanup_failure_result s
               (_bounded_blackbox_cleanup_diagnostics (u "black-box workspace absence could not be proven") e notes)
               _BLACKBOX_WORKSPACE_CLEANUP_FAILED) [])
      end
  end.

Definition cleanup_workspaces (workdir : str) (s : blackbox_session) (primary : option thrown) : P (option thrown) :=
  bind (remove_roots [(u "candidate workspace", Some workdir);
                      (u "verifier-pack snapshot workspace", bs_pack_workdir s)])
    (fun failures => Ret (workspaces_proved s primary failures)).

(** The notes of a reported cleanup failure. *)
Definition _cleanup_failure_result_with_notes (r : BlackboxRuntimeResult) (notes : list str) : BlackboxRuntimeResult :=
  match notes with
  | [] => r
  | _ => replace_diagnostics r
           (with_prior_diagnostics
              (_bounded_blackbox_cleanup_details (u "secondary cleanup") (_blackbox_cleanup_note_details notes))
              (br_diagnostics r))
  end.

Definition settled (r : failure + BlackboxRuntimeResult) (primary : option thrown) : failure + BlackboxRuntimeResult :=
  match primary with
  | None => r
  | Some (Exception e) => inl e
  | Some (CleanupFailure r notes) => inr (_cleanup_failure_result_with_notes r notes)
  end.

(** How the body ended. *)
Definition body_outcome (e : ending (stop BlackboxRuntimeResult) BlackboxRuntimeResult) : failure + BlackboxRuntimeResult :=
  match e with
  | Done r | Returned (Refused r) => inr r
  | Returned (Threw e) => inl e
  | Raised => inl unexpected
  end.
Definition body_failure (r : failure + BlackboxRuntimeResult) : option thrown :=
  match r with inl e => Some (Exception e) | inr _ => None end.

(** The [finally] part: containers, recorder, workspaces. *)
Definition leave (workdir : str) (s : blackbox_session) (r : failure + BlackboxRuntimeResult) : P (failure + BlackboxRuntimeResult) :=
  bind (cleanup_containers workdir s (body_failure r)) (fun primary =>
  bind (close_recorder s primary) (fun primary =>
  bind (cleanup_workspaces workdir s primary) (fun primary => Ret (settled r primary)))).

Definition in_workspace (workdir : str) : P (failure + BlackboxRuntimeResult) :=
  bind (judge_pack workdir initial_session) (fun so => leave workdir (fst so) (body_outcome (snd so))).

Definition pack_not_found : BlackboxRuntimeResult :=
  ungraded [] (u "verifier pack not found: " ++ py_repr (bq_verifier_pack q)) None None None false (Some false).

Definition unsupported_isolation : failure :=
  {| fl_kind := OtherFailure; fl_type := u "ValueError";
     fl_text := u "unsupported isolation mode " ++ py_repr (bq_isolation q) ++ u "; expected one of: subprocess, docker, gvisor" |}.

Definition run_blackbox : P (failure + BlackboxRuntimeResult) :=
  if negb (str_in (bq_isolation q) SUPPORTED_ISOLATION_MODES) then Ret (inl unsupported_isolation)
  else if is_empty (bq_verifier_pack q) then Ret (inr pack_not_found)
  else
    Op (LExists (bq_verifier_pack q)) (fun r =>
      match r with
      | RBool true =>
          Op (AllocateWorkspace (u "evo_blackbox_")) (fun r =>
            match r with RStr workdir => in_workspace workdir | _ => Ret (inl (failure_of r)) end)
      | RBool false => Ret (inr pack_not_found)
      | _ => Ret (inl (failure_of r))
      end).
End Run.
