(* ===== verification/BlackboxRunSound.v ===== *)
(** What a verdict of the external judge rests on (blackbox.py): when the judge's process
    is started, what a graded result has passed, and what every cleanup leaves. *)
From S2P Require Import Effects.
From S2P Require Export BlackboxRun.
Local Open Scope Z_scope.

(** ** Requests *)

Section Requests.
Context {W S X : Type}.
Context (allowed : list (op W * reply W) -> op W -> Prop).

Lemma triple_request {A} (a : op W) (read : reply W -> option A) (s : S) h D (N : _ -> _ -> option (stop X) -> Prop) :
  allowed h a ->
  (forall r, match read r with
             | Some x => D (h ++ [(a, r)]) s x
             | None => N (h ++ [(a, r)]) s (Some (Threw (failure_of r)))
             end) ->
  triple allowed (request a read) s h D N.
Proof. intros Ha Hr. split; [done|]. intros r. specialize (Hr r). cbn. by destruct (read r). Qed.

Lemma triple_attempt {A} (a : op W) (read : reply W -> option A) (s : S) h D (N : _ -> _ -> option (stop X) -> Prop) :
  allowed h a ->
  (forall r, D (h ++ [(a, r)]) s match read r with Some x => inr x | None => inl (failure_of r) end) ->
  triple allowed (attempt a read) s h D N.
Proof. intros Ha Hr. split; [done|]. intros r. apply Hr. Qed.

Lemma triple_throw {A} e (s : S) h (D : _ -> _ -> A -> Prop) (N : _ -> _ -> option (stop X) -> Prop) :
  N h s (Some (Threw e)) -> triple allowed (throw e) s h D N.
Proof. done. Qed.
End Requests.

Lemma wp_conj {Act Rep A} (allowed allowed' : list (Act * Rep) -> Act -> Prop) (p : prog Act Rep A) h Q Q' :
  wp allowed p h Q -> wp allowed' p h Q' -> wp allowed p h (fun h a => Q h a /\ Q' h a).
Proof.
  revert h. induction p as [a|a k IH]; intros h; cbn [wp]; [done|]. intros [Ha Hk] [_ Hk']. split; [done|].
  intros r. apply IH; [apply Hk|apply Hk'].
Qed.

Lemma elem_prefix {A} (x : A) h h' : h `prefix_of` h' -> x ∈ h -> x ∈ h'.
Proof. intros [l ->] Hx. apply elem_of_app. by left. Qed.

(** A set of steps that run only operations of a class keeps the others of the log. *)
Section Sound.
Context `{UnicodeDB} {W : Type} `{Workspace W}.
Context (python_executable : str) (judge_user : Z * Z) (et_fromstring : str -> option element).
Context (restore_package_json : option str -> str -> str) (abspath : str -> str).
Context (entry_present : W -> str -> bool).
Context (q : blackbox_run_request).

Abbreviation history := (list (op W * reply W)).
Abbreviation B A := (M (op W) (reply W) blackbox_session (stop BlackboxRuntimeResult) A).

Definition is_judge (a : op W) : bool := match a with RunJudge _ _ _ _ => true | _ => false end.
Definition judges (h : history) : list (op W) := List.filter is_judge (map fst h).

Lemma judges_snoc h a r : is_judge a = false -> judges (h ++ [(a, r)]) = judges h.
Proof. intros Ha. unfold judges. rewrite map_app, List.filter_app. cbn. rewrite Ha. apply app_nil_r. Qed.

(** ** The candidate boundary *)

(** The launcher that the delivered isolation stands for. *)
Definition confining (c : CandidateRunner) (target workdir : str) (l : launcher) (e : IsolationEvidence) : Prop :=
  la_receipt l = launcher_receipt c /\
  if container_isolation (cr_isolation c) then
    exists image, require_canonical_docker_image_id image = Some image /\ ie_image_digest e = Some image /\
      ie_delivered e = cr_isolation c /\
      la_mode l = ContainerLaunch (container_prefix judge_user c target image (container_runtime c))
                    (path_join (abspath workdir) CANDIDATE_CID_DIRNAME)
  else ie_delivered e = u "subprocess" /\ la_mode l = HostLaunch target (memory_cap c).

(** What a prepared boundary leaves in the history. *)
Definition delivered (c : CandidateRunner) (workdir target : str) (h : history) (env : list (str * str)) (e : IsolationEvidence) : Prop :=
  exists l path, (WriteLauncher workdir (launcher_value l), RStr path) ∈ h /\ confining c target workdir l e /\
    env_get (u "EVOGUARD_EXEC") env = Some path /\ env_get (u "EVOGUARD_TARGET") env = Some target.

(** What a step leaves, with an invariant that it keeps. *)
Lemma triple_keeps {S R A} allowed (I : history -> S -> Prop) (m : M (op W) (reply W) S R A) s h D N :
  triple allowed m s h D N -> keeps I m -> I h s ->
  triple allowed m s h (fun h' s' a => D h' s' a /\ I h' s') (fun h' s' o => N h' s' o /\ I h' s').
Proof.
  intros Hm Hk Hi. eapply wp_mono; [|apply (wp_conj _ _ _ _ _ _ Hm (Hk s h Hi))].
  intros h' [s' [a|r|]] _; exact id.
Qed.

(** ** Operations that neither start the judge nor allocate a workspace *)

Definition is_marked (a : op W) : bool := match a with RunJudge _ _ _ _ | AllocateWorkspace _ => true | _ => false end.

(** A property of histories that every other operation keeps. *)
Definition ignores (I : history -> Prop) : Prop := forall h a r, is_marked a = false -> I h -> I (h ++ [(a, r)]).

Lemma ignores_judges J : ignores (fun h => judges h = J).
Proof. intros h a r Ha Hj. rewrite judges_snoc; [done|]. by destruct a. Qed.

(** A stretch of such operations. *)
Definition quiet (h h' : history) : Prop := forall I, ignores I -> I h -> I h'.

Lemma quiet_refl h : quiet h h.
Proof. by intros I HI. Qed.
Lemma quiet_snoc h a r : is_marked a = false -> quiet h (h ++ [(a, r)]).
Proof. intros Ha I HI Hh. by apply HI. Qed.
Lemma quiet_trans h h1 h2 : quiet h h1 -> quiet h1 h2 -> quiet h h2.
Proof. intros H1 H2 I HI Hh. by apply H2, H1. Qed.
Lemma ignores_quiet h : ignores (quiet h).
Proof. intros h' a r Ha Hq. eapply quiet_trans; [exact Hq|by apply quiet_snoc]. Qed.
Lemma quiet_judges h h' : quiet h h' -> judges h' = judges h.
Proof. intros Hq. by apply (Hq (fun x => judges x = judges h)); [apply ignores_judges|]. Qed.

Section Calm.
Context (I : history -> Prop) (HI : ignores I).
Abbreviation calm m := (keeps (fun h _ => I h) m).

Lemma calm_request {S X A} a (read : reply W -> option A) : is_marked a = false -> calm (request (S := S) (X := X) a read).
Proof. intros Ha s h Hj. apply triple_request; [done|]. intros r. destruct (read r); by apply HI. Qed.
Lemma calm_attempt {S X A} a (read : reply W -> option A) : is_marked a = false -> calm (attempt (S := S) (X := X) a read).
Proof. intros Ha s h Hj. apply triple_attempt; [done|]. intros r. by apply HI. Qed.
Lemma calm_modify {S R} (f : S -> S) : calm (modify (R := R) f).
Proof. by apply keeps_modify. Qed.
Lemma calm_throw {S X A} e : calm (throw (S := S) (X := X) (A := A) e).
Proof. apply keeps_refuse. Qed.

#[local] Hint Extern 1 (keeps _ (request _ _)) => apply calm_request; reflexivity : keeps.
#[local] Hint Extern 1 (keeps _ (attempt _ _)) => apply calm_attempt; reflexivity : keeps.
#[local] Hint Extern 1 (keeps _ (modify _)) => apply calm_modify : keeps.
#[local] Hint Resolve calm_throw : keeps.

Ltac calm_auto := repeat first [ progress keeps_auto | progress autounfold with calm ].

Lemma calm_docker_control c command timeout : calm (_docker_control c command timeout).
Proof. unfold _docker_control, environmental, unavailable. keeps_auto. Qed.
#[local] Hint Resolve calm_docker_control : keeps.
Lemma calm_deliver {A} c a (read : reply W -> option A) : is_marked a = false -> calm (deliver c a read).
Proof. intros Ha. unfold deliver, environmental, unavailable. apply keeps_vbind; [by apply calm_attempt|]. intros ?. keeps_auto. Qed.
#[local] Hint Extern 1 (keeps _ (deliver _ _ _)) => apply calm_deliver; reflexivity : keeps.
Lemma calm_image_digest c image : calm (_image_digest c image).
Proof. unfold _image_digest, canonical_image, unavailable. keeps_auto. Qed.
#[local] Hint Resolve calm_image_digest : keeps.
Lemma calm_prepare c workdir target : calm (CandidateRunner.prepare judge_user abspath c workdir target).
Proof.
  unfold CandidateRunner.prepare, _prepare_container, _prepare_subprocess, _require_rlimit_deliverable, _ensure_image,
    canonical_image, _write_launcher, unavailable.
  keeps_auto.
Qed.

Lemma calm_intake : (forall h prefix r, I h -> I (h ++ [(AllocateWorkspace prefix, r)])) -> calm (intake_pack q : B _).
Proof.
  intros Ha. unfold intake_pack, give_ungraded, give. apply keeps_vbind; [|intros ?; keeps_auto].
  intros s h Hj. apply triple_request; [done|]. intros r. destruct (as_text r); by apply Ha.
Qed.
Lemma calm_trusted : calm (trusted_harness q : B _).
Proof. unfold trusted_harness, give_ungraded, give. keeps_auto. Qed.
Lemma calm_apply copy : calm (apply_candidate restore_package_json q copy : B _).
Proof. unfold apply_candidate, give_ungraded, give. keeps_auto. Qed.
Lemma calm_deletions w : calm (apply_deletions entry_present q w : B _).
Proof. unfold apply_deletions, give_ungraded, give. keeps_auto. Qed.
Lemma calm_bind copy trusted : calm (bind_candidate q copy trusted : B _).
Proof. unfold bind_candidate, give_ungraded, give. keeps_auto. Qed.
Lemma calm_interpret c : calm (interpret_blackbox_pack et_fromstring c : B _).
Proof. unfold interpret_blackbox_pack, report_text_digest. keeps_auto. Qed.

Lemma calm_deliver_boundary workdir copy : calm (deliver_boundary python_executable judge_user abspath q workdir copy : B _).
Proof.
  unfold deliver_boundary. apply keeps_vbind; [by apply calm_request|]. intros recorder.
  apply keeps_vbind; [apply calm_modify|]. intros [] s h Hj. apply wp_bind.
  eapply wp_mono; [|by apply calm_prepare]. intros h' [t [[[? ?] ?]|[?|?]|]] _; exact id.
Qed.

Lemma calm_scan {S} dir strict : calm (_candidate_container_ids (S := S) dir strict).
Proof. unfold _candidate_container_ids, scan_candidate_container_ids. keeps_auto. Qed.
#[local] Hint Resolve calm_scan : keeps.
Lemma calm_drain {S} recorder : calm (drain (S := S) recorder).
Proof. unfold drain. keeps_auto. Qed.
#[local] Hint Resolve calm_drain : keeps.
Lemma calm_observe n recorder dir d : calm (observe n recorder dir d).
Proof. induction n as [|n IH]; cbn [observe]; keeps_auto. Qed.
#[local] Hint Resolve calm_observe : keeps.

Lemma calm_on_observed {A} (m : M (op W) (reply W) (list str) (stop Empty_set) A) : calm m -> calm (on_observed m).
Proof.
  intros Hm s h Hj. unfold on_observed. apply wp_bind. eapply wp_mono; [|by apply Hm].
  intros h' [t [a|[[]|e]|]] _; exact id.
Qed.

Lemma calm_project workdir copy trusted f : calm (project_pack_verdict q workdir copy trusted f : B _).
Proof.
  unfold project_pack_verdict, with_candidate_evidence, enforce_harness_postcondition. apply keeps_vbind; [apply keeps_get_state|].
  intros s. apply keeps_vbind; [|intros ?; keeps_auto]. destruct (vf_attach_candidate_evidence f); [|apply keeps_vret].
  apply keeps_vbind; [apply keeps_get_state|]. intros s'. apply keeps_vbind; [|intros ?; apply keeps_vret].
  apply calm_on_observed. unfold attach_candidate_execution_evidence. keeps_auto.
Qed.

(** *** The removal of the containers *)

Lemma calm_control {S} command : calm (control (S := S) command).
Proof. unfold control. keeps_auto. Qed.
#[local] Hint Resolve calm_control : keeps.
Lemma calm_present {S} id : calm (container_present (S := S) id).
Proof. unfold container_present. keeps_auto. Qed.
#[local] Hint Resolve calm_present : keeps.
Lemma calm_remove_container {S} id : calm (remove_container (S := S) id).
Proof. unfold remove_container. keeps_auto. Qed.
#[local] Hint Resolve calm_remove_container : keeps.
Lemma calm_remove_containers {S} ids attempted failures : calm (remove_containers (S := S) ids attempted failures).
Proof. revert attempted failures. induction ids as [|id ids IH]; intros; cbn [remove_containers]; keeps_auto. Qed.
#[local] Hint Resolve calm_remove_containers : keeps.
Lemma calm_attempts {S} n dir strict known attempted failures :
  calm (cleanup_attempts (S := S) n dir strict known attempted failures).
Proof. revert attempted failures. induction n as [|n IH]; intros; cbn [cleanup_attempts]; keeps_auto. Qed.
#[local] Hint Resolve calm_attempts : keeps.
Lemma calm_cleanup {S} dir wait_ strict known : calm (cleanup_candidate_containers (S := S) dir wait_ strict known).
Proof. unfold cleanup_candidate_containers, cleanup_kernel. keeps_auto. Qed.
End Calm.

(** ** The state in which the judge is started *)

(** The accepted snapshot, the trusted inputs and the candidate that was applied. *)
Record bound (h : history) (copy snapshot : str) (identity : str * option dict) (trusted : option path_states) : Prop := {
  bd_pack : (SnapshotPack (bq_verifier_pack q) snapshot, RPack identity) ∈ h;
  bd_pin : expected_pack q = [] \/ py_lower (fst identity) = expected_pack q;
  bd_applied : exists w0 w1 w2 ds, (CopyTree (bq_repo_path q) copy, RTree w0) ∈ h /\
    materialize_candidate_edits (fun a b r => apply_patch a b r 1) restore_package_json w0 (file_edits q) (patch_edits q) = (w1, None) /\
    (TreeWritten w1, RUnit) ∈ h /\
    delete_all entry_present (bq_deleted_paths q) w1 [] = (w2, ds, None) /\ (TreeWritten w2, RUnit) ∈ h;
  bd_harness : match trusted with
               | Some baseline => exists observed,
                   (CaptureHarness (bq_repo_path q) (bq_harness_inputs q), RSnapshot baseline) ∈ h /\
                   (CaptureHarness copy (bq_harness_inputs q), RSnapshot observed) ∈ h /\
                   harness_input_snapshot_changes baseline observed = []
               | None => bq_harness_inputs q = []
               end }.

(** The judge's process may be started once, directly after the snapshot was found
    unchanged, with the environment of the delivered boundary. *)
Definition startable (workdir : str) (h : history) (command : list str) (cwd : str) (environment : list (str * str)) (timeout : Z) : Prop :=
  let copy := path_join workdir (u "repo") in
  exists h0 snapshot identity trusted recorder env run_env e,
    h = h0 ++ [(VerifySnapshot snapshot identity, RUnit)] /\ judges h0 = [] /\
    bound h0 copy snapshot identity trusted /\
    (CreateRecorder workdir, RRecorder recorder) ∈ h0 /\
    delivered (candidate_runner python_executable q recorder) workdir copy h0 run_env e /\
    (JudgeEnvironment workdir, REnvironment env) ∈ h0 /\ environment = env_merge env run_env /\
    command = _judge_command python_executable snapshot (path_join workdir (u "judge-blackbox.xml")) /\
    cwd = snapshot /\ timeout = bq_timeout q.

Definition allowed_in (workdir : str) (h : history) (a : op W) : Prop :=
  match a with RunJudge command cwd environment timeout => startable workdir h command cwd environment timeout | _ => True end.

(** An early return carries no verdict. *)
Definition unjudged (h : history) (s : blackbox_session) (o : option (stop BlackboxRuntimeResult)) : Prop :=
  forall r, o = Some (Refused r) -> br_ran r = false.

Section Steps.
Context (workdir : str).
Abbreviation copy := (path_join workdir (u "repo")).
Abbreviation allowed := (allowed_in workdir).

Ltac threw := intros ? [=].
Ltac listed := rewrite ?elem_of_app, ?list_elem_of_singleton; tauto.

Lemma judge_intake_spec s h :
  triple allowed (intake_pack q : B _) s h
    (fun h' s' x => exists pack_workdir, s' = set_pack (snd x) (set_pack_workdir pack_workdir s) /\
       fst x = path_join pack_workdir (u "pack") /\ (AllocateWorkspace (u "evo_blackbox_pack_"), RStr pack_workdir) ∈ h' /\
       (SnapshotPack (bq_verifier_pack q) (fst x), RPack (snd x)) ∈ h' /\
       (expected_pack q = [] \/ py_lower (fst (snd x)) = expected_pack q)) unjudged.
Proof.
  unfold intake_pack. apply triple_vbind, triple_request; [done|]. intros r. destruct (as_text r) as [pw|] eqn:Ep; [|threw].
  apply triple_vbind, triple_modify, triple_vbind, triple_request; [done|]. intros r'.
  destruct (as_pack r') as [[exc|identity]|] eqn:Er; [|apply triple_vbind, triple_modify|threw].
  - apply triple_vbind, triple_get_state. by intros ? [= <-].
  - destruct (negb _ && negb _) eqn:Ec; [apply triple_vbind, triple_get_state; by intros ? [= <-]|].
    apply triple_vret. exists pw. cbn [fst snd]. repeat split.
    + destruct r; try done. injection Ep as ->. listed.
    + destruct r'; try done. injection Er as ->. listed.
    + apply andb_false_iff in Ec as [Ec|Ec]; apply negb_false_iff in Ec.
      * left. by destruct (expected_pack q).
      * right. by apply str_eqb_eq.
Qed.

Lemma judge_trusted_spec s h :
  triple allowed (trusted_harness q : B _) s h
    (fun h' s' t => s' = s /\ match t with
       | Some baseline => (CaptureHarness (bq_repo_path q) (bq_harness_inputs q), RSnapshot baseline) ∈ h'
       | None => bq_harness_inputs q = []
       end) unjudged.
Proof.
  unfold trusted_harness. destruct (is_empty (bq_harness_inputs q)) eqn:Ee.
  - apply triple_vret. split; [done|]. by destruct (bq_harness_inputs q).
  - apply triple_vbind, triple_request; [done|]. intros r. destruct (as_snapshot r) as [[exc|b]|] eqn:Er; [| |threw].
    + apply triple_vbind, triple_get_state. by intros ? [= <-].
    + apply triple_vret. split; [done|]. destruct r; try done. injection Er as ->. listed.
Qed.

Lemma apply_spec s h :
  triple allowed (apply_candidate restore_package_json q copy : B _) s h
    (fun h' s' w => s' = s /\ exists w0, (CopyTree (bq_repo_path q) copy, RTree w0) ∈ h' /\
       materialize_candidate_edits (fun a b r => apply_patch a b r 1) restore_package_json w0 (file_edits q) (patch_edits q) = (w, None) /\
       (TreeWritten w, RUnit) ∈ h') unjudged.
Proof.
  unfold apply_candidate. apply triple_vbind, triple_request; [done|]. intros r. destruct (as_tree r) as [w0|] eqn:Er; [|threw].
  destruct (materialize_candidate_edits _ _ w0 _ _) as [w error] eqn:Em.
  apply triple_vbind, triple_request; [done|]. intros r'. destruct (as_unit r') as [[]|] eqn:Eu; [|threw].
  destruct error as [e|]; [apply triple_vbind, triple_get_state; by intros ? [= <-]|].
  apply triple_vret. split; [done|]. exists w0. destruct r; try done. injection Er as ->. destruct r'; try done.
  split; [listed|]. split; [done|listed].
Qed.

Lemma deletions_spec w s h :
  triple allowed (apply_deletions entry_present q w : B _) s h
    (fun h' s' _ => exists w2 ds, s' = set_deleted ds s /\
       delete_all entry_present (bq_deleted_paths q) w [] = (w2, ds, None) /\ (TreeWritten w2, RUnit) ∈ h') unjudged.
Proof.
  unfold apply_deletions. destruct (delete_all _ _ w []) as [[w2 ds] error] eqn:Ed.
  apply triple_vbind, triple_request; [done|]. intros r. destruct (as_unit r) as [[]|] eqn:Eu; [|threw].
  apply triple_vbind, triple_modify. destruct error as [why|]; [apply triple_vbind, triple_get_state; by intros ? [= <-]|].
  apply triple_vret. exists w2, ds. destruct r; try done. split; [done|]. split; [done|listed].
Qed.

Lemma bind_spec trusted s h :
  triple allowed (bind_candidate q copy trusted : B _) s h
    (fun h' s' _ => s' = s /\ forall baseline, trusted = Some baseline -> exists observed,
       (CaptureHarness copy (bq_harness_inputs q), RSnapshot observed) ∈ h' /\
       harness_input_snapshot_changes baseline observed = []) unjudged.
Proof.
  unfold bind_candidate. destruct trusted as [baseline|]; [|by apply triple_vret].
  apply triple_vbind, triple_request; [done|]. intros r. destruct (as_snapshot r) as [[exc|observed]|] eqn:Er; [| |threw];
    apply triple_vbind, triple_get_state.
  - apply triple_vbind, triple_get_state. by intros ? [= <-].
  - destruct (harness_input_snapshot_changes baseline observed) eqn:Ec; [|apply triple_vbind, triple_get_state; by intros ? [= <-]].
    apply triple_vret. split; [done|]. intros ? [= <-]. exists observed. destruct r; try done. injection Er as ->. split; [listed|done].
Qed.

(** *** Steps without the judge need no permission *)

Lemma judges_app h l : judges (h ++ l) = judges h ++ judges l.
Proof. unfold judges. by rewrite map_app, List.filter_app. Qed.

Lemma wp_reaches {A} (p : prog (op W) (reply W) A) h Q :
  wp (fun _ _ => True) p h Q -> exists h' a, h `prefix_of` h' /\ Q h' a.
Proof.
  revert h. induction p as [a|a k IH]; intros h; cbn [wp]; [by exists h, a|]. intros [_ Hk].
  destruct (IH RUnit _ (Hk RUnit)) as (h' & x & Hp & HQ). exists h', x. split; [by eapply prefix_app_l|done].
Qed.

Lemma calm_allowed {A} (p : prog (op W) (reply W) A) h J :
  judges h = J -> wp (fun _ _ => True) p h (fun h' _ => judges h' = J) -> wp allowed p h (fun _ _ => True).
Proof.
  revert h. induction p as [a|a k IH]; intros h Hj; cbn [wp]; [done|]. intros [_ Hk].
  assert (Ha : is_judge a = false).
  { destruct (is_judge a) eqn:Ea; [|done]. destruct (wp_reaches _ _ _ (Hk RUnit)) as (h' & x & [l ->] & HQ).
    rewrite !judges_app, Hj in HQ. apply (f_equal (@List.length _)) in HQ. rewrite !List.length_app in HQ.
    unfold judges in HQ at 1. cbn in HQ. rewrite Ea in HQ. cbn in HQ. lia. }
  split; [by destruct a|]. intros r. apply IH; [by rewrite judges_snoc|apply Hk].
Qed.

Abbreviation calm m := (forall J, keeps (fun h _ => judges h = J) m).

(** A specification of a calm step, with what it leaves of the judge's runs. *)
Lemma calm_triple {S R A} (m : M (op W) (reply W) S R A) s h D N :
  calm m -> triple (fun _ _ => True) m s h D N ->
  triple allowed m s h (fun h' s' a => D h' s' a /\ judges h' = judges h) (fun h' s' o => N h' s' o /\ judges h' = judges h).
Proof.
  intros Hc Hm. pose proof (triple_keeps _ _ m s h D N Hm (Hc (judges h)) eq_refl) as Ht.
  assert (Ha : wp allowed (m s) h (fun _ _ => True)).
  { eapply calm_allowed; [reflexivity|]. eapply wp_mono; [|apply (Hc (judges h) s h eq_refl)].
    intros h' [s' [a|r|]] _; exact id. }
  eapply wp_mono; [|apply (wp_conj _ _ _ _ _ _ Ha Ht)]. intros h' so _ [_ Hx]. exact Hx.
Qed.

(** *** The boundary *)

Lemma triple_any {S X A} (m : M (op W) (reply W) S X A) s h :
  triple (fun _ _ => True) m s h (fun _ _ _ => True) (fun _ _ _ => True).
Proof.
  unfold triple. generalize (m s). intros p. revert h.
  induction p as [[s' [a|r|]]|a k IH]; intros h; cbn [wp]; done.
Qed.

(** A step whose value is all that matters. *)
Lemma triple_then {S X A C} (m : M (op W) (reply W) S X A) (f : A -> M (op W) (reply W) S X C) s h D :
  (forall h' s' a, triple (fun _ _ => True) (f a) s' h' D (fun _ _ _ => True)) ->
  triple (fun _ _ => True) (vbind m f) s h D (fun _ _ _ => True).
Proof. intros Hf. eapply triple_seq; [apply triple_any|done|]. intros h' s' a _ _. apply Hf. Qed.

Lemma triple_deliver {A} c a (read : reply W -> option A) s h D :
  (forall r x, read r = Some x -> D (h ++ [(a, r)]) s x) ->
  triple (fun _ _ => True) (deliver c a read) s h D (fun _ _ _ => True).
Proof.
  intros Hr. unfold deliver. apply triple_vbind, triple_attempt; [done|]. intros r. specialize (Hr r).
  destruct (read r); [by apply triple_vret, Hr|]. unfold environmental, unavailable. by case_match.
Qed.

Lemma canonical_spec c image s h D :
  (forall id, require_canonical_docker_image_id id = Some id -> D h s id) ->
  triple (fun _ _ => True) (canonical_image c image : M (op W) (reply W) unit (stop str) _) s h D (fun _ _ _ => True).
Proof.
  intros HD. unfold canonical_image. destruct (require_canonical_docker_image_id image) as [id|] eqn:Ei; [|done].
  apply triple_vret, HD. unfold require_canonical_docker_image_id in *. case_match eqn:Ec; [|done]. injection Ei as <-. by rewrite Ec.
Qed.

Lemma runner_prepare_spec c target s h :
  triple (fun _ _ => True) (CandidateRunner.prepare judge_user abspath c workdir target) s h
    (fun h' _ x => delivered c workdir target h' (snd (fst x)) (snd x)) (fun _ _ _ => True).
Proof.
  unfold CandidateRunner.prepare, delivered, confining. destruct (container_isolation (cr_isolation c)) eqn:Ei.
  - unfold _prepare_container. destruct (cr_docker_image c) as [[|a image]|]; try done.
    apply triple_then. intros h1 s1 found. destruct (negb found); [done|].
    apply triple_then. intros h2 s2 probe. destruct (negb _); [done|].
    apply triple_then. intros h3 s3 resolved.
    apply triple_vbind, canonical_spec. intros id Hid. apply triple_then. intros h4 s4 _.
    apply triple_vbind, triple_deliver. intros r path Hr. apply triple_vret.
    destruct r; try done. injection Hr as ->. eexists _, path. cbn [fst snd].
    split; [listed|]. split; [|by split]. split; [done|]. by exists id.
  - unfold _prepare_subprocess. apply triple_then. intros h1 s1 _.
    apply triple_vbind, triple_deliver. intros r path Hr. apply triple_vret.
    destruct r; try done. injection Hr as ->. eexists _, path. cbn [fst snd]. split; [listed|]. by split.
Qed.

Lemma boundary_spec s h :
  triple (fun _ _ => True) (deliver_boundary python_executable judge_user abspath q workdir copy : B _) s h
    (fun h' s' env => exists recorder e, s' = set_iso (as_dict e) (set_recorder recorder s) /\
       (CreateRecorder workdir, RRecorder recorder) ∈ h' /\
       delivered (candidate_runner python_executable q recorder) workdir copy h' env e) unjudged.
Proof.
  unfold deliver_boundary. apply triple_vbind, triple_request; [done|]. intros r.
  destruct (as_recorder r) as [recorder|] eqn:Er; [|threw]. apply triple_vbind, triple_modify.
  unfold triple at 1. apply wp_bind. eapply wp_mono; [|apply runner_prepare_spec].
  intros h' [t [[[path env] e]|[text|f]|]] Hp Hx; cbn in Hx |- *; [|by intros ? [= <-]|threw|threw].
  exists recorder, e. split; [done|]. split; [|exact Hx]. destruct r; try done. injection Er as ->. apply (elem_prefix _ _ _ Hp). listed.
Qed.

(** *** The run of the judge *)

(** The judge ran between two verifications of the snapshot. *)
Definition executed (h : history) (snapshot : str) (identity : str * option dict) (c : BlackboxPackCompleted) : Prop :=
  exists h0 command environment,
    h = h0 ++ [(VerifySnapshot snapshot identity, RUnit);
               (RunJudge command snapshot environment (bq_timeout q), RProcess (bc_process c));
               (VerifySnapshot snapshot identity, RUnit)] /\
    startable workdir (h0 ++ [(VerifySnapshot snapshot identity, RUnit)]) command snapshot environment (bq_timeout q).

Lemma bound_prefix h h' snapshot identity trusted :
  h `prefix_of` h' -> bound h copy snapshot identity trusted -> bound h' copy snapshot identity trusted.
Proof.
  intros Hp [H1 H2 (w0 & w1 & w2 & ds & A & B & C & D & E) H4]. split; [by eapply elem_prefix|done| |].
  - exists w0, w1, w2, ds. repeat split; eauto using elem_prefix.
  - destruct trusted; [|done]. destruct H4 as (o & F & G & I). exists o. eauto using elem_prefix.
Qed.

Lemma delivered_prefix c target h h' env e :
  h `prefix_of` h' -> delivered c workdir target h env e -> delivered c workdir target h' env e.
Proof. intros Hp (l & path & Hl & Hr). exists l, path. eauto using elem_prefix. Qed.

Lemma execute_spec s h snapshot identity trusted recorder env run_env e :
  bound h copy snapshot identity trusted -> (CreateRecorder workdir, RRecorder recorder) ∈ h ->
  delivered (candidate_runner python_executable q recorder) workdir copy h run_env e ->
  (JudgeEnvironment workdir, REnvironment env) ∈ h -> judges h = [] ->
  triple allowed (execute_blackbox_pack python_executable set_lifecycle
      {| xr_pack_snapshot := snapshot; xr_pack_identity := identity; xr_xml_path := path_join workdir (u "judge-blackbox.xml");
         xr_environment := env_merge env run_env; xr_timeout := bq_timeout q |} : B _) s h
    (fun h' s' r => match r with
       | inl facts => vf_ran facts = false /\ (exists l, s' = set_lifecycle l s \/ s' = s)
       | inr c => s' = set_lifecycle {| bl_active := false; bl_started := true |} s /\
                  bc_xml_path c = path_join workdir (u "judge-blackbox.xml") /\ executed h' snapshot identity c
       end) unjudged.
Proof.
  intros Hb Hr Hd He Hj. unfold execute_blackbox_pack. cbn [xr_pack_snapshot xr_pack_identity xr_xml_path xr_environment xr_timeout].
  apply triple_vbind, triple_request; [done|]. intros rt. destruct (as_float rt) as [started|]; [|threw].
  set (h1 := h ++ [(PerfCounter, rt)]). assert (Hp : h `prefix_of` h1) by by eexists.
  apply triple_vbind, triple_request; [done|]. intros rv. destruct (as_verified rv) as [[text|[]]|] eqn:Ev; [| |threw].
  { apply triple_vret. split; [done|]. exists (bs_lifecycle s). by right. }
  assert (rv = RUnit) as -> by (by destruct rv).
  assert (Hs : startable workdir (h1 ++ [(VerifySnapshot snapshot identity, RUnit)])
                 (_judge_command python_executable snapshot (path_join workdir (u "judge-blackbox.xml"))) snapshot
                 (env_merge env run_env) (bq_timeout q)).
  { exists h1, snapshot, identity, trusted, recorder, env, run_env, e. split; [done|]. split; [unfold h1; by rewrite judges_snoc|].
    split; [by eapply bound_prefix|]. split; [by eapply elem_prefix|]. split; [by eapply delivered_prefix|].
    split; [by eapply elem_prefix|done]. }
  apply triple_vbind, triple_modify, triple_vbind, triple_attempt; [exact Hs|]. intros rp.
  destruct (as_control rp) as [p|] eqn:Ep.
  - apply triple_vbind, triple_modify, triple_vbind, triple_request; [done|]. intros rv'.
    destruct (as_verified rv') as [[text|[]]|] eqn:Ev'; [| |threw]; apply triple_vret.
    + split; [done|]. eexists. by left.
    + split; [done|]. split; [done|]. exists h1, (_judge_command python_executable snapshot (path_join workdir (u "judge-blackbox.xml"))), (env_merge env run_env).
      split; [|exact Hs]. destruct rp; try done. injection Ep as ->. destruct rv'; try done. by rewrite <- !app_assoc.
  - destruct (judge_failure _ _) as [facts|] eqn:Ef; [|threw]. apply triple_vret. split; [|eexists; by left].
    unfold judge_failure in Ef. by destruct (fl_kind _); try done; injection Ef as <-.
Qed.

(** *** The report *)

(** An event after the history [h]. *)
Definition since (h h' : history) (x : op W * reply W) : Prop := exists l, h' = h ++ l /\ x ∈ l.

Lemma since_prefix h h' h'' x : h' `prefix_of` h'' -> since h h' x -> since h h'' x.
Proof. intros [l ->] (l' & -> & Hx). exists (l' ++ l). rewrite app_assoc. split; [done|]. apply elem_of_app. by left. Qed.
Lemma since_later h h1 h' x : h `prefix_of` h1 -> since h1 h' x -> since h h' x.
Proof. intros [l ->] (l' & -> & Hx). exists (l ++ l'). rewrite app_assoc. split; [done|]. apply elem_of_app. by right. Qed.
Lemma since_last h x : since h (h ++ [x]) x.
Proof. exists [x]. split; [done|]. by apply list_elem_of_singleton. Qed.
Lemma since_in h h' x : since h h' x -> x ∈ h'.
Proof. intros (l & -> & Hx). apply elem_of_app. by right. Qed.

(** A graded report agrees with the exit code of the judge. *)
Definition report_agrees (p : process) (j : JUnitCounts) (f : BlackboxPackVerdictFacts) : Prop :=
  0 < jc_total j /\ vf_tests_passed f = jc_passed j /\ vf_tests_total f = jc_total j /\
  (if vf_passed f then ps_returncode p = 0 /\ all_passed j = true else ps_returncode p = 1 /\ all_passed j = false).

Lemma classified_ran p junit digest text :
  let f := classified (ps_returncode p) junit digest text in
  vf_ran f = true -> exists j, junit = Some j /\ report_agrees p j f.
Proof.
  unfold classified. cbn zeta. destruct junit as [j|]; [|done]. destruct (jc_total j <=? 0) eqn:Et; [done|].
  destruct (_ || _) eqn:Em; [done|]. destruct (ps_returncode p =? 0) eqn:E0; [|destruct (ps_returncode p =? 1) eqn:E1; [|done]]; intros _;
    exists j; (split; [done|]); unfold report_agrees; cbn in *; brefl; repeat split; try done; try lia.
Qed.

(** *** The evidence of an invocation *)

(** The container identities of one listing. *)
Definition ids_of (dir : str) (entries : list (str * cid_content)) : list str :=
  sn_container_ids (scan_entries dir (py_sort (fun a b => str_leb (fst a) (fst b)) entries) [] []).

(** The identities come from listings, and those listed after [h] are among them. *)
Definition seen (dir : str) (h : history) (ids : list str) : Prop :=
  forall id, In id ids -> exists entries, (ListCids dir, RCids entries) ∈ h /\ In id (ids_of dir entries).
Definition covers (h h' : history) (ids : list str) : Prop :=
  forall dir entries id, since h h' (ListCids dir, RCids entries) -> In id (ids_of dir entries) -> In id ids.

(** What an observed invocation rests on. *)
Definition invoked (recorder : option (str * str)) (dir delivered : str) (h : history) : Prop :=
  exists path token n, recorder = Some (path, token) /\ 0 < n /\ (DrainReceipts path, RCount n) ∈ h /\
    (delivered = u "subprocess" \/
     container_isolation delivered = true /\ exists entries id, (ListCids dir, RCids entries) ∈ h /\ In id (ids_of dir entries)).

Lemma covers_snoc h h' x ids : covers h h' ids -> (forall dir entries, x <> (ListCids dir, RCids entries)) ->
  h `prefix_of` h' -> covers h (h' ++ [x]) ids.
Proof.
  intros Hc Hx [l0 ->] dir entries id (l & Hl & He) Hi. rewrite <- app_assoc in Hl. apply app_inv_head in Hl as <-.
  apply elem_of_app in He as [He|He%list_elem_of_singleton]; [|by destruct (Hx dir entries)].
  eapply Hc; [|exact Hi]. by exists l0.
Qed.

Lemma seen_prefix dir h h' ids : h `prefix_of` h' -> seen dir h ids -> seen dir h' ids.
Proof. intros Hp Hs id Hi. destruct (Hs id Hi) as (es & He & Hx). eauto using elem_prefix. Qed.

(** The identities of one reply. *)
Definition ids_reply (dir : str) (r : reply W) : list str := match r with RCids l => ids_of dir l | _ => [] end.

Lemma covers_scan h h' dir r ids : h `prefix_of` h' -> covers h h' ids -> covers h (h' ++ [(ListCids dir, r)]) (ids ++ ids_reply dir r).
Proof.
  intros [l0 ->] Hc dir' entries id (l & Hl & He) Hi. rewrite <- app_assoc in Hl. apply app_inv_head in Hl as <-.
  apply in_app_iff. apply elem_of_app in He as [He|He%list_elem_of_singleton].
  - left. eapply Hc; [|exact Hi]. by exists l0.
  - injection He as -> <-. by right.
Qed.

Lemma covers_same h h' ids ids' : (forall x, In x ids -> In x ids') -> covers h h' ids -> covers h h' ids'.
Proof. intros Hi Hc dir entries id Hs Hx. eapply Hi, Hc; eauto. Qed.

Lemma covers_nil h ids : covers h h ids.
Proof. intros dir entries id (l & Hl & He) _. rewrite <- (app_nil_r h) in Hl at 1. apply app_inv_head in Hl as <-. by apply not_elem_of_nil in He. Qed.

Lemma seen_scan dir h ids r : seen dir h ids -> seen dir (h ++ [(ListCids dir, r)]) (ids ++ ids_reply dir r).
Proof.
  intros Hs id [Hi|Hi]%in_app_iff; [by eapply seen_prefix; [eexists|exact Hs|]|].
  destruct r; try done. eexists. split; [listed|exact Hi].
Qed.

Lemma scan_spec {S} dir strict (s : S) h (D : _ -> _ -> _ -> Prop) :
  (forall r x, (strict = false -> x = inr (ids_reply dir r)) -> (forall ids, x = inr ids -> ids = ids_reply dir r) ->
     D (h ++ [(ListCids dir, r)]) s x) ->
  triple (fun _ _ => True) (_candidate_container_ids dir strict) s h D (fun _ _ _ => True).
Proof.
  intros HD. unfold _candidate_container_ids, scan_candidate_container_ids.
  apply triple_vbind, triple_vbind, triple_request; [done|]. intros r.
  destruct (as_cids r) as [[exc|entries]|] eqn:Er; [| |done]; apply triple_vret.
  - destruct r; try done. cbn [sn_failures sn_container_ids]. destruct strict; apply triple_vret, HD; try done. by intros ? [= <-].
  - destruct r as [| | | | | | | | | | | | | | | | | | | | |l |]; try done. injection Er as ->. cbn zeta.
    destruct strict; [destruct (sn_failures _)|]; apply triple_vret, HD; try done; by intros ? [= <-].
Qed.

Lemma drain_spec {S} recorder (s : S) h (D : _ -> _ -> _ -> Prop) :
  (forall h' n, h `prefix_of` h' -> (forall ids, covers h h' ids) ->
     (0 < n -> exists path token, recorder = Some (path, token) /\ (DrainReceipts path, RCount n) ∈ h') -> D h' s n) ->
  triple (fun _ _ => True) (drain recorder) s h D (fun _ _ _ => True).
Proof.
  intros HD. unfold drain. destruct recorder as [[path token]|].
  - apply triple_request; [done|]. intros r. destruct (as_count r) as [n|] eqn:Er; [|done]. apply HD; [by eexists| |].
    + intros ids. by apply covers_snoc; [apply covers_nil| |].
    + intros _. exists path, token. split; [done|]. destruct r; try done. injection Er as ->. listed.
  - apply triple_vret, HD; [done|apply covers_nil|lia].
Qed.

Lemma covers_trans h0 h h1 ids : h0 `prefix_of` h -> h `prefix_of` h1 -> covers h0 h ids -> covers h h1 ids -> covers h0 h1 ids.
Proof.
  intros [l0 ->] [l1 ->] Hc Hn dir entries id (l & Hl & Hin) Hi. rewrite <- app_assoc in Hl. apply app_inv_head in Hl as <-.
  apply elem_of_app in Hin as [Hin|Hin]; [eapply Hc|eapply Hn]; [by exists l0|exact Hi|by exists l1|exact Hi].
Qed.

(** One observation: every identity that was listed is kept, and none is made up. *)
Lemma observed_once recorder dir d ids h0 h h1 events r :
  h0 `prefix_of` h -> h `prefix_of` h1 -> seen dir h ids -> covers h0 h ids -> (forall ids, covers h h1 ids) ->
  (0 < events -> exists path token, recorder = Some (path, token) /\ (DrainReceipts path, RCount events) ∈ h1) ->
  let h2 := h1 ++ [(ListCids dir, r)] in
  let ids' := dedup_str (ids ++ ids_reply dir r) in
  h0 `prefix_of` h2 /\ seen dir h2 ids' /\ covers h0 h2 ids' /\
  (0 < candidate_invocations d events (sorted_set ids') -> invoked recorder dir d h2).
Proof.
  intros Hp Hp1 Hs Hc Hn He h2 ids'.
  assert (Hs2 : seen dir h2 ids').
  { intros id Hi. apply (seen_scan dir h1 ids r); [by eapply seen_prefix|exact (proj1 (dedup_str_In _ _) Hi)]. }
  split; [do 2 (etrans; [eassumption|]); by eexists|]. split; [done|]. split.
  { apply (covers_same _ _ (ids ++ ids_reply dir r)); [intros y Hy; by apply dedup_str_In|].
    apply covers_scan; [by etrans|]. by eapply covers_trans. }
  unfold candidate_invocations. intros Hpos. destruct (d =s? u "subprocess") eqn:Ed.
  - destruct (He Hpos) as (path & token & -> & Hin). exists path, token, events. apply str_eqb_eq in Ed.
    split; [done|]. split; [done|]. split; [apply elem_of_app; by left|by left].
  - destruct (container_isolation d) eqn:Ec; [|lia]. assert (Hpos' : 0 < events) by lia.
    destruct (He Hpos') as (path & token & -> & Hin). exists path, token, events. split; [done|]. split; [done|].
    split; [apply elem_of_app; by left|]. right. split; [done|].
    destruct (sorted_set ids') as [|id l] eqn:El; [cbn in Hpos; lia|].
    assert (Hid : In id ids') by (apply sorted_set_In; rewrite El; by left).
    destruct (Hs2 id Hid) as (es & Hes & Hid'). by exists es, id.
Qed.

Lemma observe_spec n recorder dir d ids h0 h :
  h0 `prefix_of` h -> seen dir h ids -> covers h0 h ids ->
  triple (fun _ _ => True) (observe n recorder dir d) ids h
    (fun h' ids' o => seen dir h' ids' /\ covers h0 h' ids' /\ (0 < ob_invocations o -> invoked recorder dir d h'))
    (fun _ _ _ => True).
Proof.
  revert ids h. induction n as [|n IH]; intros ids h Hp Hs Hc; cbn [observe].
  all: apply triple_vbind, drain_spec; intros h1 events Hp1 Hn1 He; apply triple_vbind, scan_spec; intros r x Hx _; rewrite (Hx eq_refl).
  all: destruct (observed_once recorder dir d ids h0 h h1 events r Hp Hp1 Hs Hc Hn1 He) as (Hp2 & Hs2 & Hc2 & Hi).
  all: apply triple_vbind, triple_modify, triple_vbind, triple_get_state; cbn zeta.
  - by apply triple_vret.
  - destruct (0 <? _) eqn:E0; [by apply triple_vret|]. apply triple_vbind, triple_request; [done|]. intros rs.
    destruct (as_unit rs); [|done]. apply IH; [etrans; [exact Hp2|by eexists]|by eapply seen_prefix; [eexists|]|by apply covers_snoc].
Qed.

Lemma interpret_spec c s h :
  triple (fun _ _ => True) (interpret_blackbox_pack et_fromstring c : B _) s h
    (fun h' s' f => s' = s /\ (forall ids, covers h h' ids) /\ (vf_ran f = true -> exists text j,
       since h h' (ReadReport (bc_xml_path c), RText (Some text)) /\ parse_junit_xml et_fromstring text = Some j /\
       report_agrees (bc_process c) j f)) unjudged.
Proof.
  unfold interpret_blackbox_pack. apply triple_vbind, triple_request; [done|]. intros r. destruct (as_report r) as [[text|]|] eqn:Er; [| |threw].
  - apply triple_vbind, triple_vbind. unfold report_text_digest. destruct (utf8 text) as [data|]; [|threw]. apply triple_vret, triple_vret.
    apply triple_vbind, triple_request; [done|]. intros rt. destruct (as_float rt); [|threw]. apply triple_vret. split; [done|].
    split; [intros ids; apply covers_snoc; [apply covers_snoc; [apply covers_nil|done|done]|done|by eexists]|].
    intros (j & Hj & Ha)%classified_ran. exists text, j. split; [|done]. destruct r; try done. injection Er as ->.
    eapply since_prefix; [by eexists|apply since_last].
  - apply triple_vbind, triple_vret, triple_vbind, triple_request; [done|]. intros rt. destruct (as_float rt); [|threw]. apply triple_vret.
    split; [done|]. split; [|by intros (j & Hj & _)%classified_ran].
    intros ids; apply covers_snoc; [apply covers_snoc; [apply covers_nil|done|done]|done|by eexists].
Qed.

(** *** The result of the pack *)

Definition delivered_name (iso : option dict) : str :=
  str_or_empty (dget (match iso with Some d => d | None => [] end) (u "delivered")).

Definition no_result {R} (h : history) (s : blackbox_session) (o : option (stop R)) : Prop := forall r, o <> Some (Refused r).

Lemma evidence_spec r w s h :
  bs_observed_container_ids s = [] ->
  triple (fun _ _ => True) (with_candidate_evidence workdir r w) s h
    (fun h' s' r' => exists ids e, s' = set_observed ids s /\ covers h h' ids /\
       r' = replace_evidence r (Some (ee_isolation e)) (Some (ee_candidate_invocations e)) (Some (ee_candidate_launcher_invocation_observed e)) /\
       (ee_candidate_launcher_invocation_observed e = true ->
          invoked (bs_recorder s) (cidfile_dir workdir) (delivered_name (br_isolation r)) h')) no_result.
Proof.
  intros Ho. unfold with_candidate_evidence. apply triple_vbind, triple_get_state, triple_vbind.
  unfold on_observed, triple at 1. apply wp_bind. rewrite Ho. unfold attach_candidate_execution_evidence.
  eapply wp_mono; [|eapply (triple_seq _ _ _ _ _ _ _ (fun _ _ _ => True)); [eapply (observe_spec _ _ _ _ [] h h); [done|by intros ? []|apply covers_nil]|done|]].
  2:{ intros h' ids o Hp (Hs & Hc & Hi). apply triple_vret.
      instantiate (1 := fun h' ids e => covers h h' ids /\ (ee_candidate_launcher_invocation_observed e = true ->
        invoked (bs_recorder s) (cidfile_dir workdir) (delivered_name (br_isolation r)) h')).
      split; [exact Hc|]. cbn. intros Hpos. apply Hi. lia. }
  intros h' [ids [e|[[]|e]|]] _; cbn; [|done..]. intros [Hc Hi]. by exists ids, e.
Qed.

Lemma project_spec trusted f s h :
  bs_observed_container_ids s = [] ->
  triple (fun _ _ => True) (project_pack_verdict q workdir copy trusted f) s h
    (fun h' s' r => (exists ids, s' = set_pending r (set_observed ids s) /\ covers h h' ids) /\
       (br_ran r = true -> vf_ran f = true /\ br_passed r = vf_passed f /\ br_tests_passed r = vf_tests_passed f /\
          br_tests_total r = vf_tests_total f /\ br_pack_sha256 r = fst <$> bs_pack s /\
          forall baseline, trusted = Some baseline -> exists observed,
            since h h' (CaptureHarness copy (bq_harness_inputs q), RSnapshot observed) /\
            harness_input_snapshot_changes baseline observed = []) /\
       (br_candidate_launcher_invocation_observed r = Some true ->
          invoked (bs_recorder s) (cidfile_dir workdir) (delivered_name (bs_iso s)) h'))
    (fun _ _ o => forall r, o <> Some (Refused r)).
Proof.
  intros Ho. unfold project_pack_verdict. apply triple_vbind, triple_get_state. cbn zeta.
  eapply (triple_seq _ _ _ _ _
    (fun h' s' r' => exists ids, s' = set_observed ids s /\ covers h h' ids /\ br_ran r' = vf_ran f /\ br_passed r' = vf_passed f /\
       br_tests_passed r' = vf_tests_passed f /\ br_tests_total r' = vf_tests_total f /\ br_pack_sha256 r' = fst <$> bs_pack s /\
       (br_candidate_launcher_invocation_observed r' = Some true ->
          invoked (bs_recorder s) (cidfile_dir workdir) (delivered_name (bs_iso s)) h')) _ no_result).
  - destruct (vf_attach_candidate_evidence f).
    + eapply triple_mono; [| |by apply evidence_spec]; [|done]. intros h' s' r' _ (ids & e & -> & Hc & -> & Hi).
      exists ids. repeat split; try done. intros [= He]. by apply Hi.
    + apply triple_vret. exists []. split; [|by split; [apply covers_nil|]]. destruct s; cbn in Ho. by rewrite Ho.
  - done.
  - intros h' s' r' Hp (ids & -> & Hc & H1 & H2 & H3 & H4 & H5 & H6). apply triple_vbind. unfold enforce_harness_postcondition.
    destruct trusted as [baseline|].
    + apply triple_vbind, triple_request; [done|]. intros rr.
      assert (Hc' : covers h (h' ++ [(CaptureHarness copy (bq_harness_inputs q), rr)]) ids) by by apply covers_snoc.
      assert (Hp' : h' `prefix_of` h' ++ [(CaptureHarness copy (bq_harness_inputs q), rr)]) by by eexists.
      assert (H6' : br_candidate_launcher_invocation_observed r' = Some true ->
                invoked (bs_recorder s) (cidfile_dir workdir) (delivered_name (bs_iso s)) (h' ++ [(CaptureHarness copy (bq_harness_inputs q), rr)])).
      { intros Hx. destruct (H6 Hx) as (path & token & n & A & B & C & D). exists path, token, n. split; [done|]. split; [done|].
        split; [by eapply elem_prefix|]. destruct D as [D|(D & es & id & E & F)]; [by left|right]. split; [done|]. exists es, id. eauto using elem_prefix. }
      destruct (as_snapshot rr) as [[exc|observed]|] eqn:Er; [| |done].
      * apply triple_vret, triple_vbind, triple_modify, triple_vret. split; [by exists ids|]. by split.
      * destruct (harness_input_snapshot_changes baseline observed) eqn:Eh; apply triple_vret, triple_vbind, triple_modify, triple_vret.
        -- split; [by exists ids|]. split; [|exact H6']. intros Hr. rewrite H1 in Hr. repeat split; try done.
           intros ? [= <-]. exists observed. split; [|done]. destruct rr; try done. injection Er as ->.
           eapply since_later; [exact Hp|apply since_last].
        -- split; [by exists ids|]. by split.
    + apply triple_vret, triple_vbind, triple_modify, triple_vret. split; [by exists ids|]. split; [|exact H6].
      intros Hr. rewrite H1 in Hr. by repeat split.
Qed.

(** *** The removal of containers and workspaces *)

(** A listing after [h] that does not name the container. *)
Definition absent (h h' : history) (id : str) : Prop :=
  exists p, since h h' (DockerControl (probe_command id) DOCKER_CONTROL_TIMEOUT_SECONDS, RProcess p) /\
    ps_returncode p = 0 /\ listed id p = false.

Lemma absent_prefix h h' h'' id : h' `prefix_of` h'' -> absent h h' id -> absent h h'' id.
Proof. intros Hp (p & Hs & Hr). exists p. split; [by eapply since_prefix|done]. Qed.
Lemma absent_later h h1 h' id : h `prefix_of` h1 -> absent h1 h' id -> absent h h' id.
Proof. intros Hp (p & Hs & Hr). exists p. split; [by eapply since_later|done]. Qed.

(** The rules of a step without results: its exceptions need nothing. *)
Abbreviation free m s h D := (triple (Act := op W) (Rep := reply W) (R := stop Empty_set) (fun _ _ => True) m s h D (fun _ _ _ => True)).

Lemma control_spec {S} command (s : S) h (D : _ -> _ -> _ -> Prop) :
  (forall text, D (h ++ [(DockerControl command DOCKER_CONTROL_TIMEOUT_SECONDS, text)]) s (inl (fl_text (failure_of text)))) ->
  (forall p, D (h ++ [(DockerControl command DOCKER_CONTROL_TIMEOUT_SECONDS, RProcess p)]) s (inr p)) ->
  free (control command) s h D.
Proof.
  intros Hl Hr. unfold control. apply triple_vbind, triple_attempt; [done|]. intros r.
  destruct (as_control r) as [p|] eqn:Er; [destruct r; try done; injection Er as ->; apply triple_vret, Hr|].
  destruct (control_failure _); [apply triple_vret, Hl|done].
Qed.

Lemma present_spec {S} id (s : S) h (D : _ -> _ -> _ -> Prop) :
  (forall h' x, h `prefix_of` h' -> (forall ids, covers h h' ids) -> (x = inr false -> absent h h' id) -> D h' s x) ->
  free (container_present id) s h D.
Proof.
  intros HD. unfold container_present. apply triple_vbind, control_spec.
  - intros r. apply triple_vret, HD; [by eexists| |done]. intros ids. by apply covers_snoc; [apply covers_nil| |].
  - intros p. destruct (negb _) eqn:E0; apply triple_vret, HD; [by eexists| |done|by eexists| |].
    1,2: intros ids; by apply covers_snoc; [apply covers_nil| |].
    intros [= Hl]. exists p. split; [apply since_last|]. by brefl.
Qed.

Lemma remove_container_spec {S} id (s : S) h (D : _ -> _ -> _ -> Prop) :
  (forall h' o, h `prefix_of` h' -> (forall ids, covers h h' ids) -> (o = None -> absent h h' id) -> D h' s o) ->
  free (remove_container id) s h D.
Proof.
  intros HD. unfold remove_container. apply triple_vbind, present_spec. intros h1 x Hp1 Hc1 Hx.
  destruct x as [text|[|]]; [by apply triple_vret, HD| |by apply triple_vret, HD; auto].
  apply triple_vbind, control_spec.
  - intros r. apply triple_vret, HD; [etrans; [exact Hp1|by eexists]| |done]. intros ids. by apply covers_snoc.
  - intros p. assert (Hp2 : h `prefix_of` h1 ++ [(DockerControl (remove_command id) DOCKER_CONTROL_TIMEOUT_SECONDS, RProcess p : reply W)])
      by (etrans; [exact Hp1|by eexists]).
    destruct (negb _); [apply triple_vret, HD; [done| |done]; intros ids; by apply covers_snoc|].
    apply triple_vbind, present_spec. intros h3 y Hp3 Hc3 Hy.
    assert (Hall : h `prefix_of` h3) by by etrans.
    assert (Hcov : forall ids, covers h h3 ids).
    { intros ids. eapply covers_trans; [exact Hp2|exact Hp3|by apply covers_snoc|done]. }
    destruct y as [text|[|]]; apply triple_vret, HD; try done. intros _. eapply absent_later; [exact Hp2|by apply Hy].
Qed.

(** What a sequence of removals has proved, when nothing failed. *)
Lemma remove_containers_spec {S} ids attempted failures (s : S) h0 h (D : _ -> _ -> _ -> Prop) :
  h0 `prefix_of` h -> (failures = [] -> forall id, In id attempted -> absent h0 h id) ->
  (forall h' attempted' failures', h `prefix_of` h' -> (forall l, covers h h' l) ->
     (failures' = [] -> failures = [] /\ forall id, In id attempted' -> absent h0 h' id) ->
     (forall id, In id attempted \/ In id ids -> In id attempted') -> D h' s (attempted', failures')) ->
  free (remove_containers ids attempted failures) s h D.
Proof.
  revert attempted failures h. induction ids as [|id ids IH]; intros attempted failures h Hp Ha HD; cbn [remove_containers].
  - apply triple_vret, HD; [done|apply covers_nil|auto|]. by intros id [|[]].
  - destruct (str_in id attempted) eqn:Ei.
    { apply IH; [done|done|]. intros h' at' fa' Hp' Hc' Hf Hi. apply HD; [done..|]. intros x [Hx|[<-|Hx]]; [by apply Hi; left| |by apply Hi; right].
      apply Hi. left. by apply str_in_In. }
    apply triple_vbind, remove_container_spec. intros h1 o Hp1 Hc1 Ho. apply IH; [by etrans| |].
    + intros Hf id' Hid. apply app_nil in Hf as [-> Hf]. destruct o; [done|]. apply in_app_iff in Hid as [Hid|[<-|[]]].
      * eapply absent_prefix; [exact Hp1|by apply Ha].
      * eapply absent_later; [exact Hp|by apply Ho].
    + intros h' at' fa' Hp' Hc' Hf Hi. apply HD; [by etrans| | |].
      * intros l. eapply covers_trans; [exact Hp1|exact Hp'|done|done].
      * intros Hn. destruct (Hf Hn) as [Hfa Hab]. split; [|done]. by apply app_nil in Hfa as [? _].
      * intros x [Hx|[<-|Hx]]; apply Hi; [left; apply in_app_iff; by left|left; apply in_app_iff; right; by left|by right].
Qed.

Lemma attempts_spec {S} n dir known attempted failures (s : S) h0 h (D : _ -> _ -> _ -> Prop) :
  h0 `prefix_of` h -> (failures = [] -> forall id, In id attempted -> absent h0 h id) ->
  (forall h' r, h `prefix_of` h' ->
     (snd r = [] -> failures = [] /\ (forall id, In id (fst r) -> absent h0 h' id) /\ (forall id, In id known -> In id (fst r)) /\
        (forall id, In id attempted -> In id (fst r)) /\ covers h h' (fst r)) -> D h' s r) ->
  free (cleanup_attempts n dir true known attempted failures) s h D.
Proof.
  revert attempted failures h. induction n as [|n IH]; intros attempted failures h Hp Ha HD; cbn [cleanup_attempts].
  all: apply triple_vbind, scan_spec; intros r x _ Hx; cbn zeta.
  all: set (ids := match x with inr ids => ids | inl _ => [] end); set (extra := match x with inl _ => _ | inr _ => [] end).
  all: set (h1 := h ++ [(ListCids dir, r)]).
  all: assert (Hp1 : h0 `prefix_of` h1) by (etrans; [exact Hp|by eexists]).
  all: assert (Hids : extra = [] -> ids = ids_reply dir r) by (subst ids extra; destruct x as [|l]; [done|]; intros _; by apply Hx).
  all: apply triple_vbind, (remove_containers_spec _ _ _ _ h0 h1); [done|
         intros Hf id Hid; apply app_nil in Hf as [Hf _]; eapply absent_prefix; [by eexists|by apply Ha]|].
  all: intros h2 at2 fa2 Hp2 Hc2 Hf2 Hi2; cbn [fst snd].
  all: assert (H02 : h `prefix_of` h2) by (etrans; [|exact Hp2]; by eexists).
  all: assert (Hcov : fa2 = [] -> covers h h2 at2).
  1,3: intros Hn; destruct (Hf2 Hn) as [Hf _]; apply app_nil in Hf as [_ He];
       eapply covers_trans; [by eexists|exact Hp2| |done];
       apply (covers_same _ _ ([] ++ ids_reply dir r)); [|apply covers_scan; [done|apply covers_nil]];
       intros y Hy; apply Hi2; right; apply sorted_set_In, in_app_iff; right; by rewrite (Hids He).
  - apply triple_vret, HD; [done|]. cbn [fst snd]. intros Hn. destruct (Hf2 Hn) as [Hf Hab]. apply app_nil in Hf as [Hf _].
    split; [done|]. split; [done|]. split; [intros id Hid; apply Hi2; right; apply sorted_set_In, in_app_iff; by left|].
    split; [intros id Hid; apply Hi2; by left|by apply Hcov].
  - apply triple_vbind, triple_request; [done|]. intros rs. destruct (as_unit rs); [|done].
    set (h3 := h2 ++ [(Sleep 50, rs)]). assert (H23 : h2 `prefix_of` h3) by by eexists.
    apply IH; [do 2 (etrans; [eassumption|]); done| |].
    + intros Hn id Hid. destruct (Hf2 Hn) as [_ Hab]. eapply absent_prefix; [exact H23|by apply Hab].
    + intros h' r' Hp' Hr'. apply HD; [do 2 (etrans; [eassumption|]); done|]. intros Hn. destruct (Hr' Hn) as (Hfa & Hab & Hk & Hat & Hcv).
      destruct (Hf2 Hfa) as [Hf _]. apply app_nil in Hf as [Hf _]. split; [done|]. split; [done|]. split; [done|].
      split; [intros id Hid; apply Hat, Hi2; by left|].
      eapply (covers_trans _ h3); [by etrans|exact Hp'| |exact Hcv]. apply (covers_same _ _ at2); [exact Hat|].
      apply covers_snoc; [by apply Hcov|done|done].
Qed.

(** A strict cleanup without an error has proved every container absent. *)
Definition all_absent (h h' : history) (known : list str) : Prop :=
  (forall id, In id known -> absent h h' id) /\
  (forall dir entries id, since h h' (ListCids dir, RCids entries) -> In id (ids_of dir entries) -> absent h h' id).

Lemma cleanup_spec {S} dir w known (s : S) h :
  free (cleanup_candidate_containers dir w true known) s h (fun h' _ o => o = None -> all_absent h h' known).
Proof.
  unfold cleanup_candidate_containers, cleanup_kernel. apply triple_vbind, triple_vbind, triple_request; [done|]. intros r.
  destruct (as_bool r) as [present|]; [|done]. set (h1 := h ++ [(LExists dir, r)]).
  assert (Hp1 : h `prefix_of` h1) by by eexists.
  destruct (negb present && is_empty known) eqn:E0.
  - apply triple_vret. cbn [snd]. apply triple_vret. intros _. apply andb_true_iff in E0 as [_ E0]. destruct known; [|done].
    split; [done|]. intros dir' es id Hs Hi. exfalso. assert (Hc : covers h h1 []) by by apply covers_snoc; [apply covers_nil| |].
    exact (Hc _ _ _ Hs Hi).
  - apply triple_vbind, (attempts_spec _ _ _ _ _ _ h h1); [done|done|]. intros h' r' Hp' Hr'. apply triple_vret. cbn [snd].
    destruct (snd r') as [|f l] eqn:Ef; [|by apply triple_vret]. apply triple_vret. intros _.
    destruct (Hr' eq_refl) as (_ & Hab & Hk & _ & Hc). split; [intros id Hid; by apply Hab, Hk|].
    intros dir' es id Hs Hi. apply Hab. eapply (covers_trans h h1 h' (fst r')); [done|done| |exact Hc|exact Hs|exact Hi].
    apply covers_snoc; [apply covers_nil|done|done].
Qed.

Lemma lenient_spec {S} dir w known (s : S) h :
  free (cleanup_candidate_containers dir w false known) s h (fun _ _ o => o = None).
Proof. unfold cleanup_candidate_containers. apply triple_then. intros h' s' r. by apply triple_vret. Qed.

(** A root that was removed, or seen absent after it was not found. *)
Definition gone (h h' : history) (path : str) : Prop :=
  since h h' (RemoveTree path, RUnit) \/ since h h' (PathAbsent path, RBool true).

Lemma gone_prefix h h' h'' path : h' `prefix_of` h'' -> gone h h' path -> gone h h'' path.
Proof. intros Hp [Hg|Hg]; [left|right]; by eapply since_prefix. Qed.
Lemma gone_later h h1 h' path : h `prefix_of` h1 -> gone h1 h' path -> gone h h' path.
Proof. intros Hp [Hg|Hg]; [left|right]; by eapply since_later. Qed.

Abbreviation any := (fun (_ : history) (_ : op W) => True).

(** A stretch of the history without a listing of containers. *)
Definition unlisted (h h' : history) : Prop := forall ids, covers h h' ids.

Lemma unlisted_refl h : unlisted h h.
Proof. intros ids. apply covers_nil. Qed.
Lemma unlisted_snoc h a r : (forall dir, a <> ListCids dir) -> unlisted h (h ++ [(a, r)]).
Proof. intros Ha ids. apply covers_snoc; [apply covers_nil|by intros dir es [= -> _]; destruct (Ha dir)|done]. Qed.
Lemma unlisted_trans h h1 h2 : h `prefix_of` h1 -> h1 `prefix_of` h2 -> unlisted h h1 -> unlisted h1 h2 -> unlisted h h2.
Proof. intros H1 H2 Hc Hc' ids. by eapply covers_trans. Qed.
Lemma all_absent_unlisted h h1 h2 known :
  h `prefix_of` h1 -> h1 `prefix_of` h2 -> unlisted h1 h2 -> all_absent h h1 known -> all_absent h h2 known.
Proof.
  intros H1 H2 Hu [A1 A2]. split; [intros id Hid; by eapply absent_prefix, A1|].
  intros dir es id Hs Hid. eapply absent_prefix; [exact H2|]. destruct H1 as [l1 ->], H2 as [l2 ->].
  destruct Hs as (l & Hl & Hin). rewrite <- app_assoc in Hl. apply app_inv_head in Hl as <-.
  apply elem_of_app in Hin as [Hin|Hin]; [eapply A2; [by exists l1|exact Hid]|].
  exfalso. eapply (Hu [] dir es id); [by exists l2|exact Hid].
Qed.

Lemma remove_root_spec path h Q :
  (forall h' o, h `prefix_of` h' -> quiet h h' /\ unlisted h h' -> (exists r, since h h' (RemoveTree path, r)) ->
     (o = None -> gone h h' path) -> Q h' o) ->
  wp any (remove_root path) h Q.
Proof.
  intros HQ. unfold remove_root. split; [done|]. intros r.
  assert (Hp : h `prefix_of` h ++ [(RemoveTree path, r)]) by by eexists.
  assert (Ht : exists r, since h (h ++ [(RemoveTree path, r)]) (RemoveTree path, r)) by (exists r; apply since_last).
  destruct (removal_failure r) as [e|] eqn:Er.
  - destruct (fl_type e =s? u "FileNotFoundError"); [|by apply HQ; [|split; [by apply quiet_snoc|by apply unlisted_snoc]|exists r; apply since_last|]].
    split; [done|]. intros r'. set (h1 := h ++ [(RemoveTree path, r)]).
    assert (Hp1 : h1 `prefix_of` h1 ++ [(PathAbsent path, r')]) by by eexists.
    apply HQ; [by etrans|split; [eapply (quiet_trans _ h1); by apply quiet_snoc|eapply (unlisted_trans _ h1); [done|done| |]; by apply unlisted_snoc]|exists r; eapply since_prefix; [exact Hp1|apply since_last]|].
    intros Hn. right. destruct r' as [|[]| | | | | | | | | | | | | | | | | | | | |]; try done. eapply since_later; [exact Hp|apply since_last].
  - apply HQ; [done|split; [by apply quiet_snoc|by apply unlisted_snoc]|exists r; apply since_last|]. intros _. left. destruct r; try done. apply since_last.
Qed.

Lemma remove_roots_spec roots h Q :
  (forall h' failures, h `prefix_of` h' -> quiet h h' /\ unlisted h h' ->
     (forall label path, In (label, Some path) roots -> exists r, since h h' (RemoveTree path, r)) ->
     (failures = [] -> forall label path, In (label, Some path) roots -> gone h h' path) -> Q h' failures) ->
  wp any (remove_roots roots) h Q.
Proof.
  revert h Q. induction roots as [|[label [path|]] roots IH]; intros h Q HQ; cbn [remove_roots].
  - apply HQ; [done|split; [apply quiet_refl|apply unlisted_refl]|by intros ? ? []|by intros _ ? ? []].
  - apply wp_bind, remove_root_spec. intros h1 o Hp1 [Hj1 Hu1] Ht1 Hg1. apply wp_bind, IH. intros h2 others Hp2 [Hj2 Hu2] Ht2 Hg2.
    cbn [wp]. apply HQ; [by etrans|split; [by eapply quiet_trans|by eapply unlisted_trans]| |].
    + intros l p [[= <- <-]|Hin]; [destruct Ht1 as [r Hr]; exists r; by eapply since_prefix|].
      destruct (Ht2 l p Hin) as [r Hr]. exists r. by eapply since_later.
    + intros Hf l p Hin. destruct o; [done|]. destruct Hin as [[= <- <-]|Hin]; [eapply gone_prefix; [exact Hp2|by apply Hg1]|].
      eapply gone_later; [exact Hp1|by eapply Hg2].
  - apply IH. intros h' f Hp Hj Ht Hg. apply HQ; try done; [intros l p [[=]|Hin]; by eapply Ht|intros Hf l p [[=]|Hin]; by eapply Hg].
Qed.

(** *** The body *)

(** What the body of a graded run has seen. *)
Record judged (h : history) (s : blackbox_session) (r : BlackboxRuntimeResult) (h1 : history) : Prop := {
  jd_run : exists pack_workdir identity trusted env e c text j f,
    bs_pack_workdir s = Some pack_workdir /\
    executed h1 (path_join pack_workdir (u "pack")) identity c /\
    bound h1 copy (path_join pack_workdir (u "pack")) identity trusted /\ br_pack_sha256 r = Some (fst identity) /\
    (CreateRecorder workdir, RRecorder (bs_recorder s)) ∈ h1 /\
    delivered (candidate_runner python_executable q (bs_recorder s)) workdir copy h1 env e /\ bs_iso s = Some (as_dict e) /\
    since h1 h (ReadReport (path_join workdir (u "judge-blackbox.xml")), RText (Some text)) /\
    parse_junit_xml et_fromstring text = Some j /\ report_agrees (bc_process c) j f /\
    br_passed r = vf_passed f /\ br_tests_passed r = vf_tests_passed f /\ br_tests_total r = vf_tests_total f /\
    forall baseline, trusted = Some baseline -> exists observed,
      since h1 h (CaptureHarness copy (bq_harness_inputs q), RSnapshot observed) /\
      harness_input_snapshot_changes baseline observed = [];
  jd_prefix : h1 `prefix_of` h;
  jd_once : judges h = judges h1;
  jd_ended : bl_active (bs_lifecycle s) = false;
  jd_covers : covers h1 h (bs_observed_container_ids s);
  jd_invoked : br_candidate_launcher_invocation_observed r = Some true ->
    invoked (bs_recorder s) (cidfile_dir workdir) (delivered_name (bs_iso s)) h }.

(** The early returns of a step, with the judge's runs unchanged. *)
Lemma spec_calm {A} (m : B A) s h D :
  (forall J, keeps (fun h _ => judges h = J) m) -> triple allowed m s h D unjudged ->
  triple allowed m s h (fun h' s' a => D h' s' a /\ judges h' = judges h) unjudged.
Proof.
  intros Hc Hm. eapply triple_mono; [| |apply (triple_keeps _ _ m s h D unjudged Hm (Hc (judges h)) eq_refl)]; [done|].
  by intros h' s' o _ [Hn _].
Qed.

Lemma any_calm {A} (m : B A) s h D N :
  (forall J, keeps (fun h _ => judges h = J) m) -> triple any m s h D N ->
  (forall h s o, N h s o -> unjudged h s o) ->
  triple allowed m s h (fun h' s' a => D h' s' a /\ judges h' = judges h) unjudged.
Proof.
  intros Hc Hm HN. eapply triple_mono; [| |by apply calm_triple]; [done|]. intros h' s' o _ [Hn _]. by apply HN in Hn.
Qed.

(** A member of an earlier history. *)
Ltac later := first [assumption | eapply elem_prefix; [eassumption|later]].

Lemma judge_pack_spec h :
  judges h = [] ->
  triple allowed (judge_pack python_executable judge_user et_fromstring restore_package_json abspath entry_present q workdir) initial_session h
    (fun h' s r => br_ran r = true -> exists h1, h `prefix_of` h1 /\ judged h' s r h1) unjudged.
Proof.
  intros Hj. unfold judge_pack. cbn zeta.
  eapply triple_seq; [apply spec_calm; [intros J; apply calm_intake; [apply ignores_judges|intros; by rewrite judges_snoc]|apply judge_intake_spec]|done|].
  intros h1 s1 [snapshot identity] Hp1 [(pw & -> & Hsn & Hal & Hpk & Hpin) Hj1]. cbn [fst snd] in *.
  eapply triple_seq; [apply spec_calm; [intros J; apply calm_trusted, ignores_judges|apply judge_trusted_spec]|done|].
  intros h2 s2 trusted Hp2 [[-> Htr] Hj2].
  eapply triple_seq; [apply spec_calm; [intros J; apply calm_apply, ignores_judges|apply apply_spec]|done|].
  intros h3 s3 w1 Hp3 [[-> (w0 & Hcp & Hmat & Hw1)] Hj3].
  eapply triple_seq; [apply spec_calm; [intros J; apply calm_deletions, ignores_judges|apply deletions_spec]|done|].
  intros h4 s4 [] Hp4 [(w2 & ds & -> & Hdel & Hw2) Hj4].
  eapply triple_seq; [apply spec_calm; [intros J; apply calm_bind, ignores_judges|apply bind_spec]|done|].
  intros h5 s5 [] Hp5 [[-> Hbd] Hj5].
  eapply triple_seq; [eapply any_calm; [intros J; apply calm_deliver_boundary, ignores_judges|apply boundary_spec|done]|done|].
  intros h6 s6 run_env Hp6 [(recorder & e & -> & Hrec & Hdl) Hj6].
  apply triple_vbind, triple_request; [done|]. intros re. destruct (as_environment re) as [env|] eqn:Ee; [|by intros ? [=]].
  set (h7 := h6 ++ [(JudgeEnvironment workdir, re)]).
  assert (Hp7 : h6 `prefix_of` h7) by by eexists.
  assert (Hb : bound h7 copy snapshot identity trusted).
  { split; [later|done| |].
    - exists w0, w1, w2, ds. split; [later|]. split; [done|]. split; [later|]. split; [done|]. later.
    - destruct trusted as [b|]; [|done]. destruct (Hbd b eq_refl) as (o & Ho & Hc). exists o. split; [later|].
      split; [later|done]. }
  assert (Hj7 : judges h7 = []) by (unfold h7; rewrite judges_snoc; [congruence|done]).
  eapply triple_seq; [eapply (execute_spec _ h7 snapshot identity trusted recorder env run_env e); [done|by eapply elem_prefix|by eapply delivered_prefix| |done]|done|].
  { destruct re; try done. injection Ee as ->. apply elem_of_app. right. by apply list_elem_of_singleton. }
  intros h8 s8 [facts|c] Hp8 Hx.
  - destruct Hx as [Hran [l Hs8]]. eapply triple_mono; [| |eapply any_calm; [intros J; apply calm_project, ignores_judges|eapply project_spec|]].
    + intros h' s' r _ [(_ & Hr & _) _] Hrr. destruct (Hr Hrr) as [Hf _]. congruence.
    + done.
    + by destruct Hs8 as [-> | ->].
    + intros ? ? ? Hn r ->. by destruct (Hn r).
  - destruct Hx as (-> & Hxml & Hex).
    eapply triple_seq; [eapply any_calm; [intros J; apply calm_interpret, ignores_judges|apply interpret_spec|done]|done|].
    intros h9 s9 f Hp9 [(-> & Hc9 & Hf) Hj9].
    eapply triple_mono; [| |eapply any_calm; [intros J; apply calm_project, ignores_judges|eapply project_spec; done|]].
    2: done. 2: { intros ? ? ? Hn r ->. by destruct (Hn r). }
    intros h' s' r Hp' [((ids & -> & Hc) & Hr & Hi) Hj'] Hrr. destruct (Hr Hrr) as (Hvr & R1 & R2 & R3 & R4 & R5).
    destruct (Hf Hvr) as (text & j & Hrep & Hparse & Hag). rewrite Hxml in Hrep.
    exists h8. split; [do 7 (etrans; [eassumption|]); done|]. split.
    + subst snapshot. exists pw, identity, trusted, run_env, e, c, text, j, f. cbn in *. split; [done|]. split; [done|]. split; [by eapply bound_prefix|].
      split; [done|]. split; [later|]. split; [eauto using delivered_prefix|]. split; [done|].
      split; [by eapply since_prefix|]. do 5 (split; [done|]). intros b Hb'. destruct (R5 b Hb') as (o & Ho & Hch). exists o. split; [|done].
      by eapply since_later.
    + by etrans.
    + congruence.
    + done.
    + eapply covers_trans; [exact Hp9|exact Hp'|apply Hc9|exact Hc].
    + exact Hi.
Qed.

(** *** The way out *)

(** A failure that is reported as a result carries no verdict. *)
Definition unreported (p : option thrown) : Prop := forall r notes, p = Some (CleanupFailure r notes) -> br_ran r = false.

Lemma unreported_note p text : unreported (Some p) -> unreported (Some (note p text)).
Proof. intros Hu r notes. destruct p; cbn; [done|]. intros [= <- _]. by eapply Hu. Qed.

Lemma unreported_failure p label e : unreported p -> unreported (after_failure p label e).
Proof. intros Hu. destruct p; cbn; [by apply unreported_note|done]. Qed.

Lemma cleanup_result_unjudged s d e : br_ran (cleanup_failure_result s d e) = false.
Proof. unfold cleanup_failure_result, _retain_pending_candidate_evidence. by destruct (bs_pending s). Qed.

Lemma containers_spec s p h Q :
  (forall h' p', h `prefix_of` h' -> quiet h h' -> (unreported p -> unreported p') ->
     (p' = None -> p = None /\ (bl_active (bs_lifecycle s) = false -> all_absent h h' (bs_observed_container_ids s))) -> Q h' p') ->
  wp any (cleanup_containers workdir s p) h Q.
Proof.
  intros HQ. unfold cleanup_containers. apply wp_bind. destruct (bl_active (bs_lifecycle s)) eqn:Ea; cbn [negb].
  - eapply wp_mono; [|apply (triple_keeps any (fun h' _ => quiet h h') _ tt h _ _ (lenient_spec _ _ _ _ _)); [by apply calm_cleanup, ignores_quiet|apply quiet_refl]].
    intros h' [[] [o|[[]|e]|]] Hp; cbn; intros [Ho Hj]; apply HQ; try done; subst; cbn; auto using unreported_failure; by destruct p.
  - eapply wp_mono; [|apply (triple_keeps any (fun h' _ => quiet h h') _ tt h _ _ (cleanup_spec _ _ _ _ _)); [by apply calm_cleanup, ignores_quiet|apply quiet_refl]].
    intros h' [[] [[text|]|[[]|e]|]] Hp; cbn; intros [Ho Hj]; apply HQ; try done; cbn; auto using unreported_failure; try (by destruct p).
    rewrite Ea. destruct p as [t|]; [by apply unreported_note|]. intros _ r notes [= <- _]. apply cleanup_result_unjudged.
Qed.

Lemma close_spec s p h Q :
  (forall h' p', h `prefix_of` h' -> quiet h h' /\ unlisted h h' -> (unreported p -> unreported p') ->
     (p' = None -> p = None /\ forall path token, bs_recorder s = Some (path, token) -> since h h' (CloseRecorder path, RUnit)) -> Q h' p') ->
  wp any (close_recorder s p) h Q.
Proof.
  intros HQ. unfold close_recorder. destruct (bs_recorder s) as [[path token]|] eqn:Er; [|apply HQ; [done|split; [apply quiet_refl|apply unlisted_refl]|done|done]].
  split; [done|]. intros r.
  assert (Hp : h `prefix_of` h ++ [(CloseRecorder path, r)]) by by eexists.
  destruct r; (apply HQ; [exact Hp|split; [by apply quiet_snoc|by apply unlisted_snoc]| |]); try (by apply unreported_failure); try done.
  intros ->. split; [done|]. intros ? ? [= <- <-]. apply since_last.
Qed.

Lemma workspaces_spec s p h Q :
  (forall h' p', h `prefix_of` h' -> quiet h h' /\ unlisted h h' -> (unreported p -> unreported p') ->
     (forall path, path = workdir \/ bs_pack_workdir s = Some path -> exists r, since h h' (RemoveTree path, r)) ->
     (p' = None -> p = None /\ forall path, path = workdir \/ bs_pack_workdir s = Some path -> gone h h' path) -> Q h' p') ->
  wp any (cleanup_workspaces workdir s p) h Q.
Proof.
  intros HQ. unfold cleanup_workspaces. apply wp_bind, remove_roots_spec. intros h' failures Hp Hj Ht Hg. cbn [wp].
  assert (Hin : forall path, path = workdir \/ bs_pack_workdir s = Some path ->
    exists label, In (label, Some path) [(u "candidate workspace", Some workdir); (u "verifier-pack snapshot workspace", bs_pack_workdir s)]).
  { intros path [-> | ->]; eexists; [by left|right; by left]. }
  apply HQ; [done|done| | |].
  - intros Hu. unfold workspaces_proved. destruct p as [t|], failures as [|[l e] fs]; try done.
    + generalize ((l, e) :: fs). intros l0. clear - Hu. revert t Hu. induction l0; intros t Hu; cbn [fold_left]; [done|].
      by apply IHl0, unreported_note.
    + destruct (fl_kind e); try done; intros r notes [= <- _]; apply cleanup_result_unjudged.
  - intros path (label & Hl)%Hin. by eapply Ht.
  - unfold workspaces_proved. destruct p as [t|], failures as [|[l e] fs]; try done.
    + intros _. split; [done|]. intros path (label & Hl)%Hin. by eapply Hg.
    + by destruct (fl_kind e).
Qed.

(** What the way out leaves behind. *)
Definition left_behind (s : blackbox_session) (r : failure + BlackboxRuntimeResult) (h h' : history)
    (o : failure + BlackboxRuntimeResult) : Prop :=
  quiet h h' /\
  (forall path, path = workdir \/ bs_pack_workdir s = Some path -> exists r, since h h' (RemoveTree path, r)) /\
  (forall res, o = inr res -> br_ran res = true -> r = inr res /\
     (bl_active (bs_lifecycle s) = false -> all_absent h h' (bs_observed_container_ids s)) /\
     (forall path token, bs_recorder s = Some (path, token) -> since h h' (CloseRecorder path, RUnit)) /\
     (forall path, path = workdir \/ bs_pack_workdir s = Some path -> gone h h' path)).

Lemma leave_spec s r h : wp any (leave workdir s r) h (left_behind s r h).
Proof.
  unfold leave. apply wp_bind, containers_spec. intros h1 p1 Hp1 Hj1 Hu1 Hn1.
  apply wp_bind, close_spec. intros h2 p2 Hp2 [Hj2 Hl2] Hu2 Hn2. apply wp_bind, workspaces_spec. intros h3 p3 Hp3 [Hj3 Hl3] Hu3 Ht3 Hn3.
  assert (Hp02 : h `prefix_of` h2) by by etrans.
  cbn [wp]. split; [by do 2 (eapply quiet_trans; [eassumption|])|]. split.
  - intros path Hpath. destruct (Ht3 path Hpath) as [x Hx]. exists x. by eapply since_later.
  - intros res Hs Hr.
    assert (H3 : p3 = None).
    { destruct p3 as [[e|r' notes]|]; [done| |done]. exfalso. cbn in Hs. injection Hs as <-.
      assert (Hu : br_ran r' = false) by (eapply Hu3, eq_refl; apply Hu2, Hu1; by destruct r).
      unfold _cleanup_failure_result_with_notes in Hr. destruct notes; cbn in Hr; congruence. }
    rewrite H3 in Hs. destruct (Hn3 H3) as [H2 Hg]. destruct (Hn2 H2) as [H1 Hc]. destruct (Hn1 H1) as [_ Ha].
    split; [done|]. split; [|split].
    + intros Hact. apply (all_absent_unlisted h h1 h3); [done|by etrans|by eapply unlisted_trans|by apply Ha].
    + intros path token Hrec. eapply since_later; [exact Hp1|]. eapply since_prefix; [exact Hp3|by eapply Hc].
    + intros path Hpath. eapply gone_later; [exact Hp02|by apply Hg].
Qed.

(** *** The allocated workspaces *)

(** Only the pack's workspace is allocated by the body, and the session holds it. *)
Definition holds (pw : option str) (h : history) : Prop :=
  forall prefix path, (AllocateWorkspace prefix, RStr path) ∈ h -> path = workdir \/ pw = Some path.
Definition accounted (h : history) (s : blackbox_session) : Prop := holds (bs_pack_workdir s) h.

Lemma ignores_holds pw : ignores (holds pw).
Proof.
  intros h a r Ha Hh prefix path Hin. apply elem_of_app in Hin as [Hin|Hin%list_elem_of_singleton]; [by eapply Hh|].
  by injection Hin as <- <-.
Qed.

Lemma keeps_conj {S R A} (I J : history -> S -> Prop) (m : M (op W) (reply W) S R A) :
  keeps I m -> keeps J m -> keeps (fun h s => I h s /\ J h s) m.
Proof. intros HI HJ s h [Hi Hj]. eapply triple_keeps; [by apply HI|done|done]. Qed.

Lemma accounted_calm {A} (m : B A) :
  (forall pw, keeps (fun h _ => holds pw h) m) -> (forall pw, keeps (fun _ s => bs_pack_workdir s = pw) m) -> keeps accounted m.
Proof.
  intros Hh Hs s h Ha. eapply triple_mono; [| |apply (keeps_conj _ _ m (Hh (bs_pack_workdir s)) (Hs (bs_pack_workdir s)) s h); by split].
  all: intros h' s' a _ [H1 H2]; unfold accounted; by rewrite H2.
Qed.

(** Steps that leave the session's workspace as it is. *)
Section Steady.
Context (pw : option str).
Abbreviation steady m := (keeps (fun (_ : history) s => bs_pack_workdir s = pw) m).

Lemma steady_request {X A} a (read : reply W -> option A) : steady (request (X := X) a read).
Proof. intros s h Hs. apply triple_request; [done|]. intros r. by destruct (read r). Qed.
Lemma steady_attempt {X A} a (read : reply W -> option A) : steady (attempt (X := X) a read).
Proof. intros s h Hs. apply triple_attempt; [done|]. intros r. done. Qed.
Lemma steady_modify {R} f : (forall s, bs_pack_workdir (f s) = bs_pack_workdir s) -> steady (modify (R := R) f).
Proof. intros Hf. apply keeps_modify. intros _ s <-. apply Hf. Qed.
Lemma steady_throw {X A} e : steady (throw (X := X) (A := A) e).
Proof. apply keeps_refuse. Qed.
#[local] Hint Resolve steady_request steady_attempt steady_throw : keeps.
#[local] Hint Extern 1 (keeps _ (modify _)) => apply steady_modify; by intros [] : keeps.

Lemma steady_on_observed {A} (m : M (op W) (reply W) (list str) (stop Empty_set) A) : steady (on_observed m).
Proof.
  intros s h Hs. unfold on_observed. apply wp_bind. eapply wp_mono; [|apply (triple_any m)].
  intros h' [t [a|[[]|e]|]] _ _; by destruct s.
Qed.
#[local] Hint Resolve steady_on_observed : keeps.

Lemma steady_trusted : steady (trusted_harness q).
Proof. unfold trusted_harness, give_ungraded, give. keeps_auto. Qed.
Lemma steady_apply : steady (apply_candidate restore_package_json q copy).
Proof. unfold apply_candidate, give_ungraded, give. keeps_auto. Qed.
Lemma steady_deletions w : steady (apply_deletions entry_present q w).
Proof. unfold apply_deletions, give_ungraded, give. keeps_auto. Qed.
Lemma steady_bind trusted : steady (bind_candidate q copy trusted).
Proof. unfold bind_candidate, give_ungraded, give. keeps_auto. Qed.
Lemma steady_boundary : steady (deliver_boundary python_executable judge_user abspath q workdir copy).
Proof.
  unfold deliver_boundary. apply keeps_vbind; [apply steady_request|]. intros recorder.
  apply keeps_vbind; [by apply steady_modify|]. intros [] s h Hs. apply wp_bind.
  eapply wp_mono; [|apply (triple_any (CandidateRunner.prepare judge_user abspath (candidate_runner python_executable q recorder) workdir copy))].
  intros h' [t [[[? ?] ?]|[?|?]|]] _ _; by destruct s.
Qed.
Lemma steady_execute x : steady (execute_blackbox_pack (X := BlackboxRuntimeResult) python_executable set_lifecycle x).
Proof. unfold execute_blackbox_pack. keeps_auto. Qed.
Lemma steady_interpret c : steady (interpret_blackbox_pack (X := BlackboxRuntimeResult) et_fromstring c).
Proof. unfold interpret_blackbox_pack, report_text_digest. keeps_auto. Qed.
Lemma steady_project trusted f : steady (project_pack_verdict q workdir copy trusted f).
Proof. unfold project_pack_verdict, with_candidate_evidence, enforce_harness_postcondition. keeps_auto. Qed.
End Steady.

Lemma holds_execute pw x : keeps (fun h _ => holds pw h) (execute_blackbox_pack python_executable set_lifecycle x : B _).
Proof.
  assert (Hr : forall h a r, (forall prefix, a <> AllocateWorkspace prefix) -> holds pw h -> holds pw (h ++ [(a, r)])).
  { intros h a r Ha Hh prefix path Hin. apply elem_of_app in Hin as [Hin|Hin%list_elem_of_singleton]; [by eapply Hh|].
    injection Hin as <- _. by destruct (Ha prefix). }
  assert (Hreq : forall (A : Type) a (read : reply W -> option A), (forall prefix, a <> AllocateWorkspace prefix) ->
    keeps (fun h _ => holds pw h) (request a read : B A)).
  { intros A a read Ha s h Hh. apply triple_request; [done|]. intros r. destruct (read r); by apply Hr. }
  assert (Hatt : forall (A : Type) a (read : reply W -> option A), (forall prefix, a <> AllocateWorkspace prefix) ->
    keeps (fun h _ => holds pw h) (attempt a read : B _)).
  { intros A a read Ha s h Hh. apply triple_attempt; [done|]. intros r. by apply Hr. }
  unfold execute_blackbox_pack.
  repeat first [ solve [apply Hreq; done | apply Hatt; done | by apply keeps_modify | apply keeps_refuse] | keeps_step ].
Qed.

Lemma accounted_intake s h : holds None h -> bs_pack_workdir s = None ->
  triple any (intake_pack q : B _) s h (fun h' s' _ => accounted h' s') (fun h' s' _ => accounted h' s').
Proof.
  intros Hh Hs. unfold intake_pack.
  assert (Hal : forall r, (forall path, r <> RStr path) -> holds None (h ++ [(AllocateWorkspace (u "evo_blackbox_pack_"), r)])).
  { intros r Hr prefix path Hin. apply elem_of_app in Hin as [Hin|Hin%list_elem_of_singleton]; [by eapply Hh|].
    injection Hin as _ <-. by destruct (Hr path). }
  apply triple_vbind, triple_request; [done|]. intros r. destruct (as_text r) as [pw|] eqn:Ep.
  2: { unfold accounted. rewrite Hs. apply Hal. by destruct r. }
  destruct r; try done. injection Ep as ->. apply triple_vbind, triple_modify.
  assert (Hk : accounted (h ++ [(AllocateWorkspace (u "evo_blackbox_pack_"), RStr pw)]) (set_pack_workdir pw s)).
  { intros prefix path Hin. apply elem_of_app in Hin as [Hin|Hin%list_elem_of_singleton].
    - destruct (Hh _ _ Hin) as [->|]; [by left|done].
    - injection Hin as _ ->. by right. }
  revert Hk. generalize (h ++ [(AllocateWorkspace (u "evo_blackbox_pack_"), RStr pw : reply W)]), (set_pack_workdir pw s).
  intros h1 s1 Hk. eapply (accounted_calm (vbind _ _)); [| |exact Hk]; intros w.
  - apply keeps_vbind; [apply calm_request; [apply ignores_holds|done]|]. intros ?. unfold give_ungraded, give.
    repeat first [ solve [by apply keeps_modify] | keeps_step ].
  - apply keeps_vbind; [apply steady_request|]. intros ?. unfold give_ungraded, give.
    repeat first [ solve [apply steady_modify; by intros []] | keeps_step ].
Qed.

Lemma accounted_judge_pack h : holds None h ->
  triple any (judge_pack python_executable judge_user et_fromstring restore_package_json abspath entry_present q workdir) initial_session h
    (fun h' s' _ => accounted h' s') (fun h' s' _ => accounted h' s').
Proof.
  intros Hh. unfold judge_pack. cbn zeta. eapply triple_seq; [by apply accounted_intake|done|]. intros h1 s1 [snapshot identity] _ Ha.
  lazymatch goal with |- triple _ ?m _ _ _ _ => enough (Hk : keeps accounted m) by by apply Hk end. clear s1 h1 Ha.
  apply keeps_vbind; [apply accounted_calm; intros pw; [apply calm_trusted, ignores_holds|apply steady_trusted]|intros trusted].
  apply keeps_vbind; [apply accounted_calm; intros pw; [apply calm_apply, ignores_holds|apply steady_apply]|intros w].
  apply keeps_vbind; [apply accounted_calm; intros pw; [apply calm_deletions, ignores_holds|apply steady_deletions]|intros _].
  apply keeps_vbind; [apply accounted_calm; intros pw; [apply calm_bind, ignores_holds|apply steady_bind]|intros _].
  apply keeps_vbind; [apply accounted_calm; intros pw; [apply calm_deliver_boundary, ignores_holds|apply steady_boundary]|intros env].
  apply keeps_vbind; [apply accounted_calm; intros pw; [apply calm_request; [apply ignores_holds|done]|apply steady_request]|intros run_env].
  apply keeps_vbind; [apply accounted_calm; intros pw; [apply holds_execute|apply steady_execute]|intros [facts|c]].
  2: apply keeps_vbind; [apply accounted_calm; intros pw; [apply calm_interpret, ignores_holds|apply steady_interpret]|intros facts].
  all: apply accounted_calm; intros pw; [apply calm_project, ignores_holds|apply steady_project].
Qed.

(** *** The whole run in its workspace *)

(** What a graded result of the external judge rests on. *)
Record external_verdict (log : history) (r : BlackboxRuntimeResult) (pack_workdir : str)
    (identity : str * option dict) (recorder : option (str * str)) (e : IsolationEvidence) (c : BlackboxPackCompleted)
    (h1 h2 : history) : Prop := {
  ev_order : h1 `prefix_of` h2 /\ h2 `prefix_of` log;
  ev_judge : executed h1 (path_join pack_workdir (u "pack")) identity c;
  ev_once : exists command environment, judges log = [RunJudge command (path_join pack_workdir (u "pack")) environment (bq_timeout q)];
  ev_pack : br_pack_sha256 r = Some (fst identity);
  ev_candidate : exists trusted, bound h1 copy (path_join pack_workdir (u "pack")) identity trusted /\
    forall baseline, trusted = Some baseline -> exists observed,
      since h1 h2 (CaptureHarness copy (bq_harness_inputs q), RSnapshot observed) /\
      harness_input_snapshot_changes baseline observed = [];
  ev_boundary : (CreateRecorder workdir, RRecorder recorder) ∈ h1 /\
    exists environment, delivered (candidate_runner python_executable q recorder) workdir copy h1 environment e;
  ev_report : exists text j,
    since h1 h2 (ReadReport (path_join workdir (u "judge-blackbox.xml")), RText (Some text)) /\
    parse_junit_xml et_fromstring text = Some j /\ 0 < jc_total j /\
    br_tests_passed r = jc_passed j /\ br_tests_total r = jc_total j /\
    (if br_passed r then ps_returncode (bc_process c) = 0 /\ all_passed j = true
     else ps_returncode (bc_process c) = 1 /\ all_passed j = false);
  ev_invoked : br_candidate_launcher_invocation_observed r = Some true ->
    invoked recorder (cidfile_dir workdir) (ie_delivered e) h2;
  ev_containers : forall dir entries id,
    since h1 log (ListCids dir, RCids entries) -> In id (ids_of dir entries) -> absent h2 log id;
  ev_recorder : forall path token, recorder = Some (path, token) -> since h2 log (CloseRecorder path, RUnit);
  ev_workspaces : gone h2 log workdir /\ gone h2 log pack_workdir }.

Lemma delivered_name_as_dict e : delivered_name (Some (as_dict e)) = ie_delivered e.
Proof. unfold delivered_name. cbn. by destruct (ie_delivered e). Qed.

Lemma executed_once h snapshot identity c :
  executed h snapshot identity c -> exists command environment, judges h = [RunJudge command snapshot environment (bq_timeout q)].
Proof.
  intros (h0 & command & environment & -> & h0' & ? & ? & ? & ? & ? & ? & ? & Hh & Hj & _).
  apply app_inj_tail in Hh as [<- _]. exists command, environment. by rewrite judges_app, Hj.
Qed.

(** What the way out adds to a graded body. *)
Lemma judged_external h s r h1 log :
  h `prefix_of` log -> judges log = judges h -> judged h s r h1 ->
  (bl_active (bs_lifecycle s) = false -> all_absent h log (bs_observed_container_ids s)) ->
  (forall path token, bs_recorder s = Some (path, token) -> since h log (CloseRecorder path, RUnit)) ->
  (forall path, path = workdir \/ bs_pack_workdir s = Some path -> gone h log path) ->
  exists pack_workdir identity e c, external_verdict log r pack_workdir identity (bs_recorder s) e c h1 h.
Proof.
  intros Hp Hj [(pw & identity & trusted & env & e & c & text & j & f & Hpw & Hex & Hb & Hid & Hrec & Hdl & Hiso & Hrep & Hparse & Hag &
    P1 & P2 & P3 & Hpost) Hp1 Hj1 Hend Hcov Hinv] Ha Hc Hg.
  exists pw, identity, e, c. split; try done.
  - destruct (executed_once _ _ _ _ Hex) as (cmd & en & Hcm). exists cmd, en. congruence.
  - by exists trusted.
  - split; [done|]. by exists env.
  - destruct Hag as (Ht & A1 & A2 & A3). exists text, j. rewrite P1, P2, P3. by repeat split.
  - intros Hi. rewrite <- delivered_name_as_dict, <- Hiso. by apply Hinv.
  - destruct (Ha Hend) as [A1 A2]. intros dir es id (l & Hl & Hin) Hid'. destruct Hp as [l2 ->], Hp1 as [l1 ->].
    rewrite <- app_assoc in Hl. apply app_inv_head in Hl as <-. apply elem_of_app in Hin as [Hin|Hin].
    + apply A1. eapply Hcov; [by exists l1|exact Hid'].
    + eapply A2; [by exists l2|exact Hid'].
  - split; apply Hg; [by left|by right].
Qed.

(** A quiet stretch allocates nothing. *)
Lemma quiet_allocated h h' prefix path :
  quiet h h' -> (AllocateWorkspace prefix, RStr path) ∈ h' -> (AllocateWorkspace prefix, RStr path) ∈ h.
Proof.
  intros Hq. apply (Hq (fun x => (AllocateWorkspace prefix, RStr path) ∈ x -> (AllocateWorkspace prefix, RStr path) ∈ h)); [|done].
  intros x a r Ha Hx [Hin|Hin%list_elem_of_singleton]%elem_of_app; [by apply Hx|]. by injection Hin as <- _.
Qed.

Lemma in_workspace_spec h :
  judges h = [] -> holds None h ->
  wp allowed (in_workspace python_executable judge_user et_fromstring restore_package_json abspath entry_present q workdir) h
    (fun log o => (forall prefix path, (AllocateWorkspace prefix, RStr path) ∈ log ->
         exists h2 r, (AllocateWorkspace prefix, RStr path) ∈ h2 /\ since h2 log (RemoveTree path, r)) /\
       forall r, o = inr r -> br_ran r = true ->
         exists pack_workdir identity recorder e c h1 h2, external_verdict log r pack_workdir identity recorder e c h1 h2).
Proof.
  intros Hj Hh. unfold in_workspace. apply wp_bind.
  eapply wp_mono; [|apply (wp_conj _ _ _ _ _ _ (judge_pack_spec h Hj) (accounted_judge_pack h Hh))].
  intros h' [s en] Hp [He Ha]. cbn [fst snd].
  assert (Hacc : accounted h' s) by by destruct en.
  set (o := body_outcome en).
  assert (Hv : forall r, o = inr r -> br_ran r = true -> exists h1, judged h' s r h1).
  { intros r Ho Hr. destruct en as [r'|[r'|e]|]; try done; injection Ho as ->; cbn in He.
    - destruct (He Hr) as (h1 & _ & Hjd). by exists h1.
    - exfalso. specialize (He _ eq_refl). congruence. }
  eapply wp_mono; [|apply (wp_conj _ any _ _ (fun _ _ => True))].
  3: apply (leave_spec s o h').
  2: { apply (calm_allowed _ h' (judges h')); [done|]. eapply wp_mono; [|apply leave_spec]. intros log o' _ [H2 _]. by apply quiet_judges. }
  intros log o' Hpl [_ (H2 & H3 & H4)]. split.
  - intros prefix path Hin%(quiet_allocated h' log); [|done]. exists h'.
    destruct (H3 path) as [r Hr]; [destruct (Hacc _ _ Hin) as [->|]; [by left|by right]|]. by exists r.
  - intros r -> Hr. destruct (H4 r eq_refl Hr) as (Ho & G1 & G2 & G3). destruct (Hv r Ho Hr) as [h1 Hjd].
    destruct (judged_external h' s r h1 log Hpl (quiet_judges _ _ H2) Hjd G1 G2 G3) as (pw & identity & e & c & Hx).
    by exists pw, identity, (bs_recorder s), e, c, h1, h'.
Qed.
End Steps.

(** ** The run *)

Lemma wp_weaken {A} (allowed allowed' : history -> op W -> Prop) (p : prog (op W) (reply W) A) h Q :
  (forall h a, allowed h a -> allowed' h a) -> wp allowed p h Q -> wp allowed' p h Q.
Proof.
  intros Ha. revert h. induction p as [a|a k IH]; intros h; cbn [wp]; [done|]. intros [H1 H2]. split; [by apply Ha|].
  intros r. by apply IH.
Qed.

(** The judge is started only in the state that its workspace's steps have prepared. *)
Definition prepared_start (h : history) (a : op W) : Prop := exists workdir, allowed_in workdir h a.

Lemma run_blackbox_spec :
  wp prepared_start (run_blackbox python_executable judge_user et_fromstring restore_package_json abspath entry_present q) []
    (fun log o => (forall prefix path, (AllocateWorkspace prefix, RStr path) ∈ log ->
         exists h2 r, (AllocateWorkspace prefix, RStr path) ∈ h2 /\ since h2 log (RemoveTree path, r)) /\
       forall r, o = inr r -> br_ran r = true -> exists workdir pack_workdir identity recorder e c h1 h2,
         external_verdict workdir log r pack_workdir identity recorder e c h1 h2).
Proof.
  assert (Hn : forall log, (forall prefix path, (AllocateWorkspace prefix, RStr path) ∉ log) ->
    forall prefix path, (AllocateWorkspace prefix, RStr path) ∈ log ->
         exists h2 r, (AllocateWorkspace prefix, RStr path) ∈ h2 /\ since h2 log (RemoveTree path, r)).
  { intros log Hl prefix path Hin. by destruct (Hl prefix path). }
  unfold run_blackbox. destruct (negb _); [split; [apply Hn; by intros ? ? ?%elem_of_nil|by intros r [=]]|].
  destruct (is_empty (bq_verifier_pack q)).
  { split; [apply Hn; by intros ? ? ?%elem_of_nil|by intros r [= <-]]. }
  split; [by exists []|]. intros r.
  assert (Hl : forall prefix path, ((AllocateWorkspace prefix, RStr path) : op W * reply W) ∉ [(LExists (bq_verifier_pack q), r)]).
  { intros prefix path Hx%list_elem_of_singleton. congruence. }
  destruct r as [|[|]| | | | | | | | | | | | | | | | | | | | |]; cbn [wp app].
  2: { split; [by exists []|]. intros r. destruct r as [| |workdir| | | | | | | | | | | | | | | | | | | |]; cbn [app].
    all: try (split; [apply Hn; intros ? ? [Hx|Hx%list_elem_of_singleton]%elem_of_cons; congruence|by intros ? [=]]).
    eapply wp_mono; [|eapply wp_weaken; [|apply (in_workspace_spec workdir)]].
    - intros log o _ [H1 H2]. split; [done|]. intros r Ho Hr. destruct (H2 r Ho Hr) as (pw & Hx). by exists workdir, pw.
    - intros h a Ha. by exists workdir.
    - done.
    - intros prefix path [Hx|Hx%list_elem_of_singleton]%elem_of_cons; [congruence|]. left. congruence. }
  all: split; [by apply Hn|]; by intros ? [= <-].
Qed.

(** ** The bounded diagnostics *)

Definition short (text : str) : Prop := Z.of_nat (length text) <= _MAX_BLACKBOX_CLEANUP_DIAGNOSTICS_CHARS.

Lemma truncate_length value limit : 0 <= limit -> Z.of_nat (length (_truncate_blackbox_cleanup_text value limit)) <= limit.
Proof.
  intros Hl. unfold _truncate_blackbox_cleanup_text. destruct (_ <=? limit) eqn:E1; [lia|]. destruct (limit <=? 3) eqn:E2.
  - rewrite length_take. lia.
  - rewrite length_app, length_take. change (length (u "...")) with 3%nat. lia.
Qed.
Lemma cleanup_text_short value : short (cleanup_text value).
Proof. by apply truncate_length. Qed.

Lemma join_length sep parts limit :
  0 <= limit -> (forall x, In x parts -> Z.of_nat (length x) <= limit) ->
  Z.of_nat (length (py_join sep parts)) <=
    Z.of_nat (length parts) * limit + Z.max 0 (Z.of_nat (length parts) - 1) * Z.of_nat (length sep).
Proof.
  intros Hl. induction parts as [|x [|y parts] IH]; intros Hp; [cbn; lia|specialize (Hp x (or_introl eq_refl)); cbn [py_join length]; lia|].
  change (py_join sep (x :: y :: parts)) with (x ++ sep ++ py_join sep (y :: parts)). rewrite !length_app.
  specialize (IH (fun z Hz => Hp z (or_intror Hz))). specialize (Hp x (or_introl eq_refl)).
  cbn [length] in *. nia.
Qed.

(** The details of a cleanup share what the limit leaves to them. *)
Lemma details_short prefix details :
  Z.of_nat (length prefix) <= 100 -> (length details <= 18)%nat -> short (_bounded_blackbox_cleanup_details prefix details).
Proof.
  intros Hp Hd. unfold _bounded_blackbox_cleanup_details. destruct details as [|d details]; [apply cleanup_text_short|].
  revert Hd. generalize (d :: details), (eq_refl : (0 <? length (d :: details))%nat = true). clear d details. intros details Hne Hd. 
  cbn zeta. unfold short. rewrite !length_app. change (length (u ": ")) with 2%nat. set (n := Z.of_nat (length details)).
  assert (Hn : 0 < n <= 18) by (apply Nat.ltb_lt in Hne; lia).
  set (budget := Z.max 0 _). assert (Hb : budget = 2000 - Z.of_nat (length prefix + 2) - (n - 1) * 2).
  { unfold budget, _MAX_BLACKBOX_CLEANUP_DIAGNOSTICS_CHARS. lia. }
  assert (Hq0 : 0 <= budget / n) by (apply Z.div_pos; lia).
  assert (Hq1 : n * (budget / n) <= budget) by (apply Z.mul_div_le; lia).
  pose proof (join_length (u "; ") (map (fun d => _truncate_blackbox_cleanup_text d (budget / n)) details) (budget / n) Hq0) as Hj.
  rewrite length_map in Hj. fold n in Hj. change (length (u "; ")) with 2%nat in Hj. unfold _MAX_BLACKBOX_CLEANUP_DIAGNOSTICS_CHARS.
  assert (Hin : forall x, In x (map (fun d => _truncate_blackbox_cleanup_text d (budget / n)) details) -> Z.of_nat (length x) <= budget / n).
  { intros x (d & <- & _)%in_map_iff. by apply truncate_length. }
  specialize (Hj Hin). lia.
Qed.

Lemma note_details_length notes : (length (_blackbox_cleanup_note_details notes) <= 17)%nat.
Proof.
  unfold _blackbox_cleanup_note_details. rewrite length_app, length_map, length_take. unfold _MAX_BLACKBOX_CLEANUP_NOTES.
  destruct (Nat.ltb _ _); cbn [length]; lia.
Qed.

Lemma diagnostics_short prefix e notes :
  Z.of_nat (length prefix) <= 100 -> short (_bounded_blackbox_cleanup_diagnostics prefix e notes).
Proof.
  intros Hp. apply details_short; [done|]. pose proof (note_details_length notes). cbn [length]. lia.
Qed.

Lemma prior_short cleanup prior : short cleanup -> short (with_prior_diagnostics cleanup prior).
Proof.
  intros Hc. unfold with_prior_diagnostics. cbn zeta. destruct (negb _ && _) eqn:E; [|done]. apply andb_true_iff in E as [_ E].
  apply Z.ltb_lt in E. unfold short. rewrite !length_app. pose proof (truncate_length prior _ (Z.lt_le_incl _ _ E)). lia.
Qed.

(** A reported cleanup failure has short diagnostics, whatever was noted on it. *)
Definition brief (p : option thrown) : Prop := forall r notes, p = Some (CleanupFailure r notes) -> short (br_diagnostics r).

Lemma brief_note t text : brief (Some t) -> brief (Some (note t text)).
Proof. intros Hb r notes. destruct t; cbn; [done|]. intros [= <- _]. by eapply Hb. Qed.
Lemma brief_failure p label e : brief p -> brief (after_failure p label e).
Proof. intros Hb. destruct p; cbn; [by apply brief_note|done]. Qed.

Lemma brief_containers s p en : brief p -> brief (containers_proved s p en).
Proof.
  intros Hb. destruct en as [[text|]|[[]|e]|]; cbn; try by apply brief_failure. 2: done.
  destruct p as [t|]; [by apply brief_note|]. intros r notes [= <- _].
  assert (Hc : short (br_diagnostics (cleanup_failure_result s (cleanup_text text) (u "candidate container cleanup failed")))).
  { unfold cleanup_failure_result, _retain_pending_candidate_evidence. destruct (bs_pending s); apply cleanup_text_short. }
  destruct (bl_active _); [|done]. destruct (bs_pending s) eqn:Ep; [|done].
  unfold _cleanup_failure_result_from_pending. cbn [br_diagnostics replace_diagnostics replace_verdict].
  by apply prior_short, diagnostics_short.
Qed.

Lemma brief_workspaces s p failures : brief p -> brief (workspaces_proved s p failures).
Proof.
  intros Hb. unfold workspaces_proved. destruct p as [t|], failures as [|[l e] fs]; try done.
  - generalize ((l, e) :: fs). intros l0. clear -Hb. revert t Hb. induction l0; intros t Hb; cbn [fold_left]; [done|].
    by apply IHl0, brief_note.
  - destruct (fl_kind e); try done; intros r notes [= <- _]; unfold cleanup_failure_result, _retain_pending_candidate_evidence;
      destruct (bs_pending s); by apply diagnostics_short.
Qed.

Lemma brief_settled r p : brief p ->
  settled r p = r \/ (exists e, settled r p = inl e) \/ exists r', settled r p = inr r' /\ short (br_diagnostics r').
Proof.
  intros Hb. destruct p as [[e|r' notes]|]; cbn; [right; left; by exists e|right; right; eexists; split; [reflexivity|]|by left].
  specialize (Hb _ _ eq_refl). unfold _cleanup_failure_result_with_notes. destruct notes; [done|].
  cbn [br_diagnostics replace_diagnostics replace_verdict]. apply prior_short, details_short; [done|]. apply (Nat.le_trans _ 17); [apply note_details_length|lia].
Qed.

Lemma leave_brief workdir s r h : wp (fun (_ : history) _ => True) (leave workdir s r) h (fun _ o =>
  o = r \/ (exists e, o = inl e) \/ exists r', o = inr r' /\ short (br_diagnostics r')).
Proof.
  assert (Hany : forall A (p : prog (op W) (reply W) A) h, wp (fun _ _ => True) p h (fun _ _ => True)).
  { intros A p. induction p as [a|a k IH]; intros h'; cbn [wp]; [done|]. split; [done|]. intros x. apply IH. }
  assert (Hb : brief (body_failure r)) by by destruct r.
  unfold leave. apply wp_bind. unfold cleanup_containers. apply wp_bind. eapply wp_mono; [|apply Hany]. intros h1 x _ _.
  cbn [wp]. apply (brief_containers s _ (snd x)) in Hb. revert Hb. generalize (containers_proved s (body_failure r) (snd x)). intros p1 Hb1.
  apply wp_bind. eapply (wp_mono _ _ _ (fun _ p => brief p)).
  - intros h2 p2 _ Hb2. apply wp_bind. unfold cleanup_workspaces. apply wp_bind. eapply wp_mono; [|apply Hany]. intros h3 fs _ _.
    cbn [wp]. by apply brief_settled, brief_workspaces.
  - unfold close_recorder. destruct (bs_recorder s) as [[path token]|]; [|done]. split; [done|]. intros y.
    destruct y; cbn [wp]; try by apply brief_failure. done.
Qed.

(** ** The properties *)

(** C4: A graded result of the external judge (its [ran] flag) has been earned.  The
    judge's process ran exactly once, with the pack's verification by the launcher-side
    snapshot directly before and directly after it, on the pack whose digest the result
    carries (the expected digest, when one was given), after the candidate's edits and
    deletions were applied without an error to a copy of the repository whose declared
    harness inputs are those of the base, and after the requested boundary was delivered
    by a launcher; the harness inputs were still the same afterwards.  The counts are those
    of the report read after the run, and the report agrees with the exit code.  An
    observed invocation rests on a receipt of the recorder and, in a container, on a
    listed container identity; every container that was listed has been proved absent, the
    recorder was closed, and both workspaces were removed or seen absent. *)
Theorem external_verdict_earned log r :
  exec (run_blackbox python_executable judge_user et_fromstring restore_package_json abspath entry_present q) log (inr r) ->
  br_ran r = true ->
  exists workdir pack_workdir identity recorder e c h1 h2,
    external_verdict workdir log r pack_workdir identity recorder e c h1 h2.
Proof. intros E Hr. destruct (wp_sound _ _ _ _ _ _ run_blackbox_spec E) as [[_ H2] _]. by apply H2. Qed.

(** C5: In every execution, also one that ends in an exception or in a refusal, the
    process of the external judge is started at most in the prepared state: the accepted
    pack was verified by the operation directly before, no judge ran earlier, the
    candidate is bound, the boundary was delivered, and the command, the directory and
    the timeout are those of the request. *)
Theorem external_judge_prepared log o l1 command cwd environment timeout rp l2 :
  exec (run_blackbox python_executable judge_user et_fromstring restore_package_json abspath entry_present q) log o ->
  log = l1 ++ (RunJudge command cwd environment timeout, rp) :: l2 ->
  exists workdir, startable workdir l1 command cwd environment timeout.
Proof.
  intros E Hl. destruct (wp_sound _ _ _ _ _ _ run_blackbox_spec E) as [_ Ha].
  destruct (Ha _ _ _ _ Hl) as [workdir Hs]. by exists workdir.
Qed.

(** C10: In every execution each workspace that was allocated is given to a removal
    later, however the run ends. *)
Theorem external_workspaces_released log o prefix path :
  exec (run_blackbox python_executable judge_user et_fromstring restore_package_json abspath entry_present q) log o ->
  (AllocateWorkspace prefix, RStr path) ∈ log ->
  exists l1 l2 r, log = l1 ++ l2 /\ (AllocateWorkspace prefix, RStr path) ∈ l1 /\ (RemoveTree path, r) ∈ l2.
Proof.
  intros E Hin. destruct (wp_sound _ _ _ _ _ _ run_blackbox_spec E) as [[H1 _] _].
  destruct (H1 _ _ Hin) as (h2 & r & Hin2 & (l & Hl & Hr)). by exists h2, l, r.
Qed.

(** The way out changes the body's outcome only to an exception or to a result whose
    diagnostics are at most 2000 characters, however many failures were noted and however
    long their texts are. *)
Theorem cleanup_diagnostics_bounded workdir s r log r' :
  exec (leave workdir s r : prog (op W) (reply W) _) log (inr r') ->
  r = inr r' \/ Z.of_nat (length (br_diagnostics r')) <= 2000.
Proof.
  intros E. destruct (wp_sound _ _ [] _ _ _ (leave_brief workdir s r []) E) as [[H1|[[e H1]|(x & [= <-] & H1)]] _]; [by left|done|by right].
Qed.

(** ** The launch *)

(** The options of a container launch beside its identity file and its image. *)
Definition launch_options (c : CandidateRunner) (target : str) : list str :=
  us ["docker"; "run"; "--rm"; "--network"] ++ [cr_docker_network c]
  ++ us ["--read-only"; "--tmpfs"; "/tmp:rw,exec"; "--pids-limit"; "256"; "--cpus"; "1"; "--cap-drop"; "ALL";
         "--security-opt"; "no-new-privileges"; "--ulimit"; "nofile=1024:1024";
         "-e"; "HOME=/tmp"; "-e"; "PYTHONDONTWRITEBYTECODE=1"; "-e"; "LANG=C.UTF-8"]
  ++ [u "-v"; target ++ u ":/candidate:ro"; u "-w"; u "/candidate"]
  ++ [u "--user"; str_of_Z (fst judge_user) ++ u ":" ++ str_of_Z (snd judge_user)]
  ++ match container_runtime c with Some (a :: r) => [u "--runtime"; a :: r] | _ => [] end
  ++ (if 0 <? cr_mem_limit_mb c then [u "--memory"; str_of_Z (cr_mem_limit_mb c) ++ u "m"] else []).

Lemma container_prefix_image c target image :
  container_prefix judge_user c target image (container_runtime c) = launch_options c target ++ [image].
Proof. unfold container_prefix, launch_options. by rewrite <- !app_assoc. Qed.

(** What the launcher of a delivered container executes: the arguments of the pack
    come after the image, which is the canonical identity that the evidence names, so that
    none of them is an option of the container; the options are those of the request,
    with the candidate's tree, mounted read-only, as the only mount; the identity of the
    container is written to a file of the directory that is listed afterwards, and the
    receipt is the one of the recorder. *)
Theorem container_launch_confined c target workdir l e unique argv x :
  confining c target workdir l e -> container_isolation (cr_isolation c) = true ->
  CandidateRunner.launched l unique argv = Some x ->
  exists image, require_canonical_docker_image_id image = Some image /\ ie_image_digest e = Some image /\
    argv <> [] /\ ln_receipt x = launcher_receipt c /\
    ln_command x = launch_options c target
      ++ [u "--cidfile"; path_join (path_join (abspath workdir) CANDIDATE_CID_DIRNAME) (unique ++ u ".cid"); image] ++ argv.
Proof.
  intros [Hr Hm] Hc Hl. rewrite Hc in Hm. destruct Hm as (image & Hi & Hd & _ & Hmode). exists image.
  destruct argv as [|a argv]; [done|]. injection Hl as <-. do 2 (split; [done|]). split; [done|]. split; [exact Hr|].
  cbn [ln_command]. rewrite Hmode, container_prefix_image, removelast_last, List.last_last. reflexivity.
Qed.
End Sound.
