(* ===== verification/BlackboxRunSamples.v ===== *)
(** Concrete runs of the external judge (blackbox.py): a container candidate that is
    graded and whose container is removed, a pack that changes while it executes, and a
    workspace that cannot be removed. *)
From S2P Require Import BlackboxRunSound RepoVerifierEvidence MaterializeSound.
Local Open Scope Z_scope.

Definition sample_image : str := u "sha256:" ++ repeat 97%N 64.
Definition sample_container : str := repeat 99%N 64.

Definition sample_request (isolation : string) : blackbox_run_request := {|
  bq_repo_path := u "/repo"; bq_candidate := sample_hypothesis; bq_verifier_pack := u "/pack"; bq_timeout := 60;
  bq_isolation := u isolation; bq_docker_image := Some (u "img"); bq_docker_network := u "none"; bq_docker_runtime := None;
  bq_mem_limit_mb := 1024; bq_deleted_paths := []; bq_file_blocks := None;
  bq_expect_verifier_pack_sha256 := Some (u "ABC"); bq_harness_inputs := [] |}.

Definition sample_run (isolation : string) : prog (op sample_world) (reply sample_world) (failure + BlackboxRuntimeResult) :=
  @run_blackbox ascii_unicode _ _ (u "/usr/bin/python3") (1000, 1000) one_test_parser (fun _ s => s) (fun p => p)
    (fun _ _ => true) (sample_request isolation).

Definition says (code : Z) (text : str) : reply sample_world :=
  RProcess {| ps_returncode := code; ps_stdout := text; ps_stderr := []; ps_target_started := true |}.

(** From the workspaces to the delivered container boundary. *)
Definition boundary_script : list (reply sample_world) :=
  [RBool true; RStr (u "/tmp/w"); RStr (u "/tmp/p"); RPack (u "abc", None); RTree sample_copy; RUnit; RUnit;
   RRecorder (Some (u "/tmp/w/s.sock", u "tok")); RBool true; says 0 (u "27"); says 0 sample_image; RUnit; RStr (u "/tmp/w/exec");
   REnvironment []].

(** The judge ends, its report is read, the recorder and the container are observed;
    the container is found and removed, and nine more listings find nothing. *)
Definition graded_script : list (reply sample_world) :=
  boundary_script ++
  [RFloat (dec 0 1); RUnit; says 0 []; RUnit; RText (Some (u "<ok>")); RFloat (dec 1 0); RCount 1;
   RCids [(u "a.cid", CidText sample_container)];
   RBool true; RCids [(u "a.cid", CidText sample_container)]; says 0 sample_container; says 0 []; says 0 []; RUnit; RUnit; RUnit].

Definition outcome {A} (o : option (list (op sample_world * reply sample_world) * A)) : option A := option_map snd o.

(** The container candidate is graded, observed and removed. *)
Lemma external_verdict_earned_witness :
  exists log r workdir pack_workdir identity recorder e c h1 h2,
    run (sample_run "docker") graded_script = Some (log, inr r) /\
    br_passed r = true /\ br_candidate_invocations r = Some 1 /\
    @external_verdict ascii_unicode _ _ (u "/usr/bin/python3") (1000, 1000) one_test_parser (fun _ s => s) (fun p => p)
      (fun _ _ => true) (sample_request "docker") workdir log r pack_workdir identity recorder e c h1 h2.
Proof.
  assert (Hl : match outcome (run (sample_run "docker") graded_script) with
               | Some (inr r) => br_ran r = true /\ br_passed r = true /\ br_candidate_invocations r = Some 1
               | _ => False
               end) by (vm_compute; auto).
  destruct (run (sample_run "docker") graded_script) as [[log [e|r]]|] eqn:E; [destruct Hl| |destruct Hl].
  destruct Hl as (Hr & Hp & Hi).
  destruct (external_verdict_earned _ _ _ _ _ _ _ _ _ (run_exec _ _ _ _ E) Hr) as (wd & pw & id & rc & e & c & h1 & h2 & Hv).
  exists log, r, wd, pw, id, rc, e, c, h1, h2. split; [reflexivity|]. split; [exact Hp|]. split; [exact Hi|exact Hv].
Defined.

(** The pack changes while it executes: the process was started in the prepared state,
    and no verdict is given. *)
Definition changed_script : list (reply sample_world) :=
  boundary_script ++
  [RFloat (dec 0 1); RUnit; says 0 []; RRefused (u "changed"); RCount 0; RCids [];
   RBool true; RCids []; RUnit; RUnit; RUnit].

Lemma external_judge_prepared_witness :
  exists l1 command cwd environment timeout rp l2 r workdir,
    run (sample_run "docker") changed_script = Some (l1 ++ (RunJudge command cwd environment timeout, rp) :: l2, inr r) /\
    br_ran r = false /\ br_error r = Some (u "verifier pack changed while executing") /\
    @startable ascii_unicode _ _ (u "/usr/bin/python3") (1000, 1000) (fun _ s => s) (fun p => p)
      (fun _ _ => true) (sample_request "docker") workdir l1 command cwd environment timeout.
Proof.
  assert (Hl : match run (sample_run "docker") changed_script with
               | Some (log, inr r) => br_ran r = false /\ br_error r = Some (u "verifier pack changed while executing") /\
                   match skipn 16 log with (RunJudge _ _ _ _, _) :: _ => True | _ => False end
               | _ => False
               end) by (vm_compute; auto).
  destruct (run (sample_run "docker") changed_script) as [[log [e|r]]|] eqn:E; [destruct Hl| |destruct Hl].
  destruct Hl as (H1 & H2 & Hs).
  destruct (skipn 16 log) as [|[[] rp] l2] eqn:El; try destruct Hs.
  assert (Hlog : log = firstn 16 log ++ (RunJudge command cwd environment timeout, rp) :: l2) by (rewrite <- El; symmetry; apply firstn_skipn).
  destruct (external_judge_prepared _ _ _ _ _ _ _ _ _ _ _ _ _ _ _ _ (run_exec _ _ _ _ E) Hlog) as (wd & Hw).
  exists (firstn 16 log), command, cwd, environment, timeout, rp, l2, r, wd.
  split; [rewrite <- Hlog; reflexivity|]. split; [exact H1|]. split; [exact H2|exact Hw].
Defined.

(** The daemon fails during the removal of the containers: both workspaces are removed
    all the same, and the run is reported without a verdict. *)
Definition stuck_script : list (reply sample_world) :=
  boundary_script ++
  [RFloat (dec 0 1); RUnit; says 0 []; RUnit; RText (Some (u "<ok>")); RFloat (dec 1 0); RCount 1;
   RCids [(u "a.cid", CidText sample_container)];
   RBool true; RCids [(u "a.cid", CidText sample_container)]; says 1 []; RUnit; RUnit; RUnit].

Lemma external_workspaces_released_witness :
  exists log r l1 l2 rp, run (sample_run "docker") stuck_script = Some (log, inr r) /\
    br_ran r = false /\ br_error r = Some (u "candidate container cleanup failed") /\
    log = l1 ++ l2 /\ (AllocateWorkspace (u "evo_blackbox_pack_"), RStr (u "/tmp/p")) ∈ l1 /\ (RemoveTree (u "/tmp/p"), rp) ∈ l2.
Proof.
  assert (Hl : match run (sample_run "docker") stuck_script with
               | Some (log, inr r) => br_ran r = false /\ br_error r = Some (u "candidate container cleanup failed") /\
                   nth_error log 2 = Some (AllocateWorkspace (u "evo_blackbox_pack_"), RStr (u "/tmp/p"))
               | _ => False
               end) by (vm_compute; auto).
  destruct (run (sample_run "docker") stuck_script) as [[log [e|r]]|] eqn:E; [destruct Hl| |destruct Hl].
  destruct Hl as (H1 & H2 & Hin%nth_error_In%list_elem_of_In).
  destruct (external_workspaces_released _ _ _ _ _ _ _ _ _ _ _ (run_exec _ _ _ _ E) Hin) as (l1 & l2 & rp & Hl & Ha & Hr).
  exists log, r, l1, l2, rp. split; [reflexivity|]. split; [exact H1|]. split; [exact H2|]. split; [exact Hl|]. split; [exact Ha|exact Hr].
Defined.

(** A removal that fails with a long text. *)
Definition long_failure : reply sample_world :=
  RFailed {| fl_kind := OSFailure; fl_type := u "OSError"; fl_text := repeat 120%N 5000 |}.

Lemma cleanup_diagnostics_bounded_witness :
  exists log r', run (leave (u "/tmp/w") initial_session (inr (@pack_not_found ascii_unicode (sample_request "docker")))
                      : prog (op sample_world) (reply sample_world) _) [RBool false; long_failure] = Some (log, inr r') /\
    br_error r' = Some _BLACKBOX_WORKSPACE_CLEANUP_FAILED /\ Z.of_nat (length (br_diagnostics r')) <= 2000.
Proof.
  set (p := leave _ _ _).
  assert (Hl : match outcome (run p [RBool false; long_failure]) with
               | Some (inr r') => br_error r' = Some _BLACKBOX_WORKSPACE_CLEANUP_FAILED
               | _ => False
               end) by (vm_compute; reflexivity).
  destruct (run p [RBool false; long_failure]) as [[log [e|r']]|] eqn:E; [destruct Hl| |destruct Hl].
  exists log, r'. split; [reflexivity|]. split; [exact Hl|].
  destruct (cleanup_diagnostics_bounded _ _ _ _ _ (run_exec _ _ _ _ E)) as [[= <-]|Hb]; [|exact Hb].
  exfalso. vm_compute in Hl. discriminate Hl.
Defined.

Definition sample_runner : CandidateRunner :=
  candidate_runner (u "/usr/bin/python3") (sample_request "docker") (Some (u "/tmp/w/s.sock", u "tok")).
Definition sample_launcher : launcher :=
  _launcher_config sample_runner (ContainerLaunch (container_prefix (1000, 1000) sample_runner (u "/tmp/w/repo") sample_image None)
    (u "/tmp/w/candidate-container-cids")).
Definition sample_evidence : IsolationEvidence :=
  {| ie_requested := u "docker"; ie_delivered := u "docker"; ie_image := Some (u "img"); ie_image_digest := Some sample_image;
     ie_network := Some (u "none"); ie_runtime := None; ie_note := [] |}.

(** An argument that looks like an option of the container reaches the candidate. *)
Lemma container_launch_confined_witness :
  exists x image, CandidateRunner.launched sample_launcher (u "7-f") (us ["--privileged"; "main.py"]) = Some x /\
    require_canonical_docker_image_id image = Some image /\
    ln_command x = launch_options (1000, 1000) sample_runner (u "/tmp/w/repo")
      ++ [u "--cidfile"; u "/tmp/w/candidate-container-cids/7-f.cid"; image] ++ us ["--privileged"; "main.py"].
Proof.
  assert (Hc : confining (1000, 1000) (fun p => p) sample_runner (u "/tmp/w/repo") (u "/tmp/w") sample_launcher sample_evidence).
  { split; [reflexivity|]. exists sample_image. split; [vm_compute; reflexivity|]. split; [reflexivity|]. split; reflexivity. }
  destruct (container_launch_confined _ _ _ _ _ _ _ (u "7-f") (us ["--privileged"; "main.py"]) _ Hc eq_refl eq_refl)
    as (image & Hi & _ & _ & _ & Hx).
  eexists _, image. split; [reflexivity|]. split; [exact Hi|exact Hx].
Defined.
