(* ===== verification/Baseline.v ===== *)
(** The run of the repository's own suite on the pristine base
    (verifiers/repo_baseline.py), from its workspace to its removal, and what a verdict
    on the base rests on. *)
From S2P Require Import Effects BlackboxRunSound.
From S2P Require Export BlackboxRun.
Local Open Scope Z_scope.

Record RepoBaselineRequest := {
  rb_repository_path : str;
  rb_test_command : option (list str);
  rb_setup_command : option (list str);
  rb_setup_output_globs : list str;
  rb_timeout : Z;
  rb_mem_limit_mb : Z;
  rb_strict_harness : bool;
  rb_harness_inputs : list str }.

(** The evidence of a run without a verdict. *)
Definition _empty_evidence (extra : list (string * value)) : dict :=
  dict_of ([("verdict", VStr (u "NO_CLEAN_VERDICT")); ("tests_passed", VNone); ("tests_total", VNone)] ++ extra).

Definition setup_unverified : dict := _empty_evidence [("setup_fidelity", VStr (u "unverified"))].
Definition setup_failed : dict := _empty_evidence [("setup_fidelity", VStr (u "setup_failed"))].
Definition setup_changed (changes : list str) : dict :=
  _empty_evidence [("setup_fidelity", VStr (u "changed_judged_tree")); ("setup_fidelity_changes", w_strs changes)].

(** The evidence of a graded run: the report is judge-owned, its contents are not. *)
Definition baseline_evidence (returncode : Z) (junit : option JUnitCounts) (report_expected strict_harness : bool) : dict :=
  let g := grade_repo_run returncode junit report_expected in
  let unclean :=
    detect_tamper returncode junit report_expected
    || match junit with None => report_expected | Some _ => false end
    || strict_harness && (negb report_expected || match junit with None => true | Some j => jc_total j <=? 0 end) in
  dict_of [("verdict", VStr (if unclean then u "NO_CLEAN_VERDICT" else if g_passed g then u "PASS" else u "FAIL"));
           ("tests_passed", VInt (g_tests_passed g)); ("tests_total", VInt (g_tests_total g))].

(** [RepoVerifier(timeout=..., mem_limit_mb=..., strict_harness=...)]: the other defaults. *)
Definition plain_verifier (timeout mem_limit_mb : Z) (strict_harness : bool) : RepoVerifier :=
  {| vc_timeout := timeout; vc_mem_limit_mb := mem_limit_mb; vc_test_command := None; vc_setup_command := None;
     vc_protected := []; vc_allow := []; vc_allow_new_tests := false; vc_isolation := u "subprocess";
     vc_docker_image := None; vc_docker_network := u "none"; vc_docker_runtime := None; vc_trust_setup_on_host := false;
     vc_setup_output_globs := []; vc_strict_harness := strict_harness; vc_harness_inputs := [];
     vc_require_suite_continuity := false; vc_require_assert_liveness := false; vc_require_structured_verdict := false |}.

Section Baseline.
Context `{UnicodeDB} {W : Type}.
Context (python_executable : str) (et_fromstring : str -> option element).
Context (q : RepoBaselineRequest).

(** A refusal is the evidence that is returned early. *)
Abbreviation B A := (M (op W) (reply W) unit (stop dict) A).

Definition unclean {A} (evidence : dict) : B A := refuse (Refused evidence).

(** The verifier whose limits and default command the run uses. *)
Definition baseline_verifier : RepoVerifier := plain_verifier (rb_timeout q) (rb_mem_limit_mb q) (rb_strict_harness q).

(** The problem of [{"repo_path": repository_path}]. *)
Definition baseline_problem : RepoProblem :=
  {| pb_repo_path := rb_repository_path q; pb_test_command := None; pb_setup_command := None; pb_target_files := [];
     pb_protected := []; pb_allow := []; pb_allow_new_tests := false; pb_strict_harness := false; pb_harness_inputs := [];
     pb_deleted := []; pb_file_blocks := None; pb_verifier_pack := []; pb_expect_verifier_pack_sha256 := [] |}.

(** The exceptions of a process or of the file system that make the run unclean. *)
Definition caught (r : reply W) : bool :=
  match r with
  | RNotFound | RRunError _ => true
  | RFailed e => match fl_kind e with OSFailure | ProcessFailure | TimeoutFailure => true | _ => false end
  | _ => false
  end.

Definition guarded {A} (evidence : dict) (a : op W) (read : reply W -> option A) : B A := fun s =>
  Op a (fun r => Ret (s, match read r with
                         | Some x => Done x
                         | None => if caught r then Returned (Refused evidence) else Returned (Threw (failure_of r))
                         end)).

(** A snapshot, or the refusal of its capture. *)
Definition snapshot_or {A} (evidence : dict) (taken : str + A) : B A :=
  match taken with inl _ => unclean evidence | inr s => vret s end.

Definition as_words (r : reply W) : option (list str) := match r with RWords l => Some l | _ => None end.

(** The copy of the base, with the declared inputs of the base. *)
Definition copy_base (copy : str) : B path_states :=
  let! taken := request (CaptureHarness (rb_repository_path q) (rb_harness_inputs q)) as_snapshot in
  let! trusted := snapshot_or (_empty_evidence []) taken in
  request (CopyTree (rb_repository_path q) copy) as_tree ;!
  let! taken := request (CaptureHarness copy (rb_harness_inputs q)) as_snapshot in
  let! copied := snapshot_or (_empty_evidence []) taken in
  match harness_input_snapshot_changes trusted copied with
  | [] => vret trusted
  | _ => unclean (_empty_evidence [])
  end.

Definition baseline_setup (copy : str) (trusted : path_states) (environment : list (str * str)) (words : list str) : B unit :=
  let capture a := let! taken := guarded setup_unverified a as_snapshot in snapshot_or setup_unverified taken in
  let! before := capture (CaptureFidelity copy (rb_setup_output_globs q) None) in
  let! command := guarded setup_unverified (ResolveHostCommand words copy environment) as_words in
  let! p := guarded setup_unverified
    (RunHost SetupPhase (host_process baseline_verifier command copy environment (rb_strict_harness q))) as_control in
  let! after := capture (CaptureFidelity copy (rb_setup_output_globs q) (Some before)) in
  let! observed := capture (CaptureHarness copy (rb_harness_inputs q)) in
  if negb (ps_target_started p) then unclean setup_unverified
  else if negb (ps_returncode p =? 0) then unclean setup_failed
  else
    match sorted_set (setup_fidelity_changes before after ++ harness_input_snapshot_changes trusted observed) with
    | [] => vret tt
    | changes => unclean (setup_changed changes)
    end.

Definition baseline_command : list str :=
  match rb_test_command q with
  | Some (w :: l) => w :: l
  | _ => _command python_executable baseline_verifier baseline_problem
  end.

Definition baseline_suite (copy report_path : str) (trusted : path_states) (environment : list (str * str)) : B (process * bool) :=
  let '(command, report_expected, report_environment) := instrument_command baseline_command report_path in
  let run_environment := env_merge environment report_environment in
  let! command := guarded (_empty_evidence []) (ResolveHostCommand command copy run_environment) as_words in
  let! p := guarded (_empty_evidence [])
    (RunHost SuitePhase (host_process baseline_verifier command copy run_environment (rb_strict_harness q))) as_control in
  if negb (ps_target_started p) then unclean (_empty_evidence [])
  else
    let! taken := request (CaptureHarness copy (rb_harness_inputs q)) as_snapshot in
    let! observed := snapshot_or (_empty_evidence []) taken in
    match harness_input_snapshot_changes trusted observed with
    | [] => vret (p, report_expected)
    | _ => unclean (_empty_evidence [])
    end.

Definition baseline_report (report_path : str) : B (option JUnitCounts) :=
  let! text := request (ReadReport report_path) as_report in
  match parse_junit_xml et_fromstring (default [] text) with
  | Some junit => vret (Some junit)
  | None =>
      let! listing := request (ListReports (report_path ++ u ".d")) as_listing in
      vret (parse_junit_dir et_fromstring listing)
  end.

Definition judge_base (workdir : str) : B dict :=
  let copy := path_join workdir (u "repo") in
  let! trusted := copy_base copy in
  let! environment := request (JudgeEnvironment workdir) as_environment in
  match rb_setup_command q with
  | Some (w :: l) => baseline_setup copy trusted environment (w :: l)
  | _ => vret tt
  end ;!
  let report_path := path_join workdir (u "judge-result.xml") in
  let! ' (p, report_expected) := baseline_suite copy report_path trusted environment in
  let! junit := baseline_report report_path in
  vret (baseline_evidence (ps_returncode p) junit report_expected (rb_strict_harness q)).

(** How the body ended. *)
Definition base_outcome (e : ending (stop dict) dict) : failure + dict :=
  match e with
  | Done d | Returned (Refused d) => inr d
  | Returned (Threw e) => inl e
  | Raised => inl unexpected
  end.

(** The workspace is removed; an exception of the body stays the primary one. *)
Definition leave_base (workdir : str) (r : failure + dict) : prog (op W) (reply W) (failure + dict) :=
  bind (remove_root workdir) (fun failed =>
    Ret (match r, failed with inr _, Some e => inl e | _, _ => r end)).

Definition run_repo_baseline : prog (op W) (reply W) (failure + dict) :=
  Op (AllocateWorkspace (u "evo_baseline_")) (fun r =>
    match r with
    | RStr workdir => bind (judge_base workdir tt) (fun so => leave_base workdir (base_outcome (snd so)))
    | _ => Ret (inl (failure_of r))
    end).
End Baseline.

(** ** What a verdict rests on *)

(** An unclean verdict. *)
Definition no_clean (d : dict) : Prop := dget d (u "verdict") = VStr (u "NO_CLEAN_VERDICT").

Lemma empty_evidence_unclean extra : no_clean (_empty_evidence extra).
Proof. reflexivity. Qed.

Section Sound.
Context `{UnicodeDB} {W : Type}.
Context (python_executable : str) (et_fromstring : str -> option element).
Context (q : RepoBaselineRequest).

Abbreviation history := (list (op W * reply W)).
Abbreviation B A := (M (op W) (reply W) unit (stop dict) A).
Abbreviation any := (fun (_ : history) (_ : op W) => True).

(** An early return has no clean verdict. *)
Definition early (h : history) (s : unit) (o : option (stop dict)) : Prop := forall d, o = Some (Refused d) -> no_clean d.

Ltac threw := intros ? [=].

Lemma triple_guarded {A} evidence a (read : reply W -> option A) s h (D : _ -> _ -> A -> Prop) :
  no_clean evidence -> (forall r x, read r = Some x -> D (h ++ [(a, r)]) s x) ->
  triple any (guarded evidence a read) s h D early.
Proof.
  intros Hn Hr. split; [done|]. intros r. specialize (Hr r). cbn. destruct (read r); [by apply Hr|].
  destruct (caught r); cbn; [by intros ? [= <-]|threw].
Qed.

Lemma triple_snapshot_or {A} evidence (taken : str + A) s h (D : _ -> _ -> A -> Prop) :
  no_clean evidence -> (forall x, taken = inr x -> D h s x) -> triple any (snapshot_or evidence taken : B A) s h D early.
Proof. intros Hn HD. destruct taken; [by intros ? [= <-]|by apply triple_vret, HD]. Qed.

(** A snapshot that was taken. *)
Lemma triple_capture a s h (D : _ -> _ -> _ -> Prop) :
  (forall o, D (h ++ [(a, RSnapshot o)]) s o) ->
  triple any (let! taken := guarded setup_unverified a as_snapshot in snapshot_or setup_unverified taken) s h D early.
Proof.
  intros HD. apply triple_vbind, triple_guarded; [done|]. intros r x Hr. apply triple_snapshot_or; [done|]. intros o ->.
  destruct r; try done. injection Hr as ->. apply HD.
Qed.

Lemma triple_harness root s h (D : _ -> _ -> _ -> Prop) :
  (forall o, D (h ++ [(CaptureHarness root (rb_harness_inputs q), RSnapshot o)]) s o) ->
  triple any (let! taken := request (CaptureHarness root (rb_harness_inputs q)) as_snapshot in snapshot_or (_empty_evidence []) taken) s h D early.
Proof.
  intros HD. apply triple_vbind, triple_request; [done|]. intros r. destruct (as_snapshot r) as [x|] eqn:Hr; [|threw].
  apply triple_snapshot_or; [done|]. intros o ->. destruct r; try done. injection Hr as ->. apply HD.
Qed.

Section Steps.
Context (workdir : str).
Abbreviation copy := (path_join workdir (u "repo")).
Abbreviation report_path := (path_join workdir (u "judge-result.xml")).

(** The copy has the declared inputs of the base at a point of the history. *)
Definition base_copied (h : history) (trusted : path_states) : Prop :=
  (CaptureHarness (rb_repository_path q) (rb_harness_inputs q), RSnapshot trusted) ∈ h /\
  (exists w, (CopyTree (rb_repository_path q) copy, RTree w) ∈ h) /\
  exists copied, (CaptureHarness copy (rb_harness_inputs q), RSnapshot copied) ∈ h /\
    harness_input_snapshot_changes trusted copied = [].

(** A configured setup ended with success and left the judged tree as it was. *)
Definition setup_proven (h : history) (trusted : path_states) : Prop :=
  forall w l, rb_setup_command q = Some (w :: l) -> exists before after observed run p,
    (CaptureFidelity copy (rb_setup_output_globs q) None, RSnapshot before) ∈ h /\
    (RunHost SetupPhase run, RProcess p) ∈ h /\ hr_cwd run = copy /\ ps_target_started p = true /\ ps_returncode p = 0 /\
    (CaptureFidelity copy (rb_setup_output_globs q) (Some before), RSnapshot after) ∈ h /\
    setup_fidelity_changes before after = [] /\
    (CaptureHarness copy (rb_harness_inputs q), RSnapshot observed) ∈ h /\ harness_input_snapshot_changes trusted observed = [].

Ltac listed := rewrite ?elem_of_app, ?list_elem_of_singleton; tauto.
Ltac later := first [assumption | eapply elem_prefix; [eassumption|later]].

Lemma base_copied_prefix h h' trusted : h `prefix_of` h' -> base_copied h trusted -> base_copied h' trusted.
Proof. intros Hp (A & (w & B) & (c & C & D)). split; [later|]. split; [exists w; later|]. exists c. split; [later|done]. Qed.

Lemma copy_base_spec s h :
  triple any (copy_base q copy : B _) s h (fun h' _ trusted => base_copied h' trusted) early.
Proof.
  unfold copy_base. apply triple_vbind, triple_request; [done|]. intros r. destruct (as_snapshot r) as [x|] eqn:Er; [|threw].
  apply triple_vbind, triple_snapshot_or; [done|]. intros trusted ->. destruct r; try done. injection Er as ->.
  apply triple_vbind, triple_request; [done|]. intros r. destruct (as_tree r) as [w|] eqn:Et; [|threw].
  apply triple_vbind, triple_request; [done|]. intros r'. destruct (as_snapshot r') as [y|] eqn:Er; [|threw].
  apply triple_vbind, triple_snapshot_or; [done|]. intros copied ->. destruct r'; try done. injection Er as ->.
  destruct (harness_input_snapshot_changes trusted copied) eqn:Ec; [|by intros ? [= <-]]. apply triple_vret.
  destruct r; try done. split; [listed|]. split; [eexists; listed|]. exists copied. split; [listed|done].
Qed.

Lemma base_setup_spec trusted environment words s h :
  triple any (baseline_setup q copy trusted environment words : B _) s h
    (fun h' _ _ => exists before after observed run p,
       (CaptureFidelity copy (rb_setup_output_globs q) None, RSnapshot before) ∈ h' /\
       (RunHost SetupPhase run, RProcess p) ∈ h' /\ hr_cwd run = copy /\ ps_target_started p = true /\ ps_returncode p = 0 /\
       (CaptureFidelity copy (rb_setup_output_globs q) (Some before), RSnapshot after) ∈ h' /\
       setup_fidelity_changes before after = [] /\
       (CaptureHarness copy (rb_harness_inputs q), RSnapshot observed) ∈ h' /\ harness_input_snapshot_changes trusted observed = [])
    early.
Proof.
  unfold baseline_setup. cbn zeta. apply triple_vbind, triple_capture. intros before.
  apply triple_vbind, triple_guarded; [done|]. intros r command _.
  apply triple_vbind, triple_guarded; [done|]. intros rp p Hp.
  apply triple_vbind, triple_capture. intros after. apply triple_vbind, triple_capture. intros observed.
  destruct (ps_target_started p) eqn:Es; cbn [negb]; [|by intros ? [= <-]].
  destruct (ps_returncode p =? 0) eqn:E0; cbn [negb]; [|by intros ? [= <-]].
  destruct (sorted_set _) as [|x l] eqn:Ec; [|by intros ? [= <-]]. apply triple_vret.
  assert (Hnil : setup_fidelity_changes before after ++ harness_input_snapshot_changes trusted observed = []).
  { destruct (_ ++ _) as [|y ys] eqn:Ey; [done|]. assert (Hin : In y (sorted_set (y :: ys))) by (apply sorted_set_In; by left).
    by rewrite Ec in Hin. }
  apply app_nil in Hnil as [N1 N2]. destruct rp; try done. injection Hp as ->.
  eexists before, after, observed, _, p. split; [listed|]. split; [rewrite !elem_of_app, !list_elem_of_singleton; do 2 left; right; reflexivity|].
  split; [done|]. split; [done|]. split; [by apply Z.eqb_eq|]. split; [listed|]. split; [done|]. split; [listed|done].
Qed.

(** The suite of the base ran on the unchanged copy. *)
Record base_ran (h : history) (trusted : path_states) (environment : list (str * str)) (p : process) (report_expected : bool)
    (h1 : history) (words : list str) : Prop := {
  br_run : exists l command report_environment,
    instrument_command (baseline_command python_executable q) report_path = (command, report_expected, report_environment) /\
    (ResolveHostCommand command copy (env_merge environment report_environment), RWords words) ∈ h1 /\
    h = h1 ++ (RunHost SuitePhase (host_process (baseline_verifier q) words copy (env_merge environment report_environment)
                                     (rb_strict_harness q)), RProcess p) :: l;
  br_started : ps_target_started p = true;
  br_harness : exists observed, (CaptureHarness copy (rb_harness_inputs q), RSnapshot observed) ∈ h /\
    since h1 h (CaptureHarness copy (rb_harness_inputs q), RSnapshot observed) /\
    harness_input_snapshot_changes trusted observed = [] }.

Lemma suite_spec trusted environment s h :
  triple any (baseline_suite python_executable q copy report_path trusted environment : B _) s h
    (fun h' _ x => exists h1 words, h `prefix_of` h1 /\ base_ran h' trusted environment (fst x) (snd x) h1 words) early.
Proof.
  unfold baseline_suite. destruct (instrument_command _ _) as [[command expected] report_environment] eqn:Ei.
  apply triple_vbind, triple_guarded; [done|]. intros r words Hw.
  apply triple_vbind, triple_guarded; [done|]. intros rp p Hp.
  destruct (ps_target_started p) eqn:Es; cbn [negb]; [|by intros ? [= <-]].
  apply triple_vbind, triple_request; [done|]. intros rh. destruct (as_snapshot rh) as [x|] eqn:Er; [|threw].
  apply triple_vbind, triple_snapshot_or; [done|]. intros observed ->.
  destruct (harness_input_snapshot_changes trusted observed) eqn:Ec; [|by intros ? [= <-]]. apply triple_vret.
  destruct r; try done. injection Hw as ->. destruct rp; try done. injection Hp as ->. destruct rh; try done. injection Er as ->.
  eexists (h ++ [(ResolveHostCommand command copy (env_merge environment report_environment), RWords words)]), words.
  split; [by eexists|]. split; [|done|].
  - eexists _, command, report_environment. split; [exact Ei|]. split; [listed|]. rewrite <- !app_assoc. reflexivity.
  - exists observed. split; [listed|]. split; [|done]. eapply since_later; [by eexists|apply since_last].
Qed.

(** The counts of the report that was read since the run. *)
Definition base_report (h h' : history) (junit : option JUnitCounts) : Prop :=
  exists t, since h h' (ReadReport report_path, RText t) /\
    match parse_junit_xml et_fromstring (default [] t) with
    | Some j => junit = Some j
    | None => exists listing, since h h' (ListReports (report_path ++ u ".d"), RListing listing) /\ junit = parse_junit_dir et_fromstring listing
    end.

Lemma report_spec s h :
  triple any (baseline_report et_fromstring report_path : B _) s h (fun h' _ junit => base_report h h' junit) early.
Proof.
  unfold baseline_report. apply triple_vbind, triple_request; [done|]. intros r. destruct (as_report r) as [t|] eqn:Er; [|threw].
  destruct r as [| | | | | | | | | | |t'| | | | | | | | | | |]; try done. injection Er as ->.
  destruct (parse_junit_xml et_fromstring (default [] t)) as [j|] eqn:Ep.
  - apply triple_vret. exists t. split; [apply since_last|]. by rewrite Ep.
  - apply triple_vbind, triple_request; [done|]. intros rl. destruct (as_listing rl) as [listing|] eqn:El; [|threw].
    destruct rl; try done. injection El as ->. apply triple_vret. exists t. split; [eapply since_prefix; [by eexists|apply since_last]|].
    rewrite Ep. exists listing. split; [|done]. eapply since_later; [by eexists|apply since_last].
Qed.

(** A clean verdict of the body. *)
Definition base_judged (h : history) (d : dict) : Prop :=
  exists trusted environment p report_expected h1 h2 words junit,
    base_copied h1 trusted /\ setup_proven h1 trusted /\ (JudgeEnvironment workdir, REnvironment environment) ∈ h1 /\
    h2 `prefix_of` h /\ base_ran h2 trusted environment p report_expected h1 words /\ base_report h2 h junit /\
    d = baseline_evidence (ps_returncode p) junit report_expected (rb_strict_harness q).

Lemma judge_base_spec h :
  triple any (judge_base python_executable et_fromstring q workdir) tt h (fun h' _ d => base_judged h' d) early.
Proof.
  unfold judge_base. eapply triple_seq; [apply copy_base_spec|done|]. intros h1 s1 trusted _ Hc.
  apply triple_vbind, triple_request; [done|]. intros re. destruct (as_environment re) as [environment|] eqn:Ee; [|threw].
  destruct re; try done. injection Ee as ->. set (h2 := h1 ++ _).
  assert (Hp2 : h1 `prefix_of` h2) by by eexists. assert (He : (JudgeEnvironment workdir, REnvironment environment) ∈ h2) by (unfold h2; listed).
  eapply triple_seq with (E := fun h' _ _ => setup_proven h' trusted) (N' := early).
  - destruct (rb_setup_command q) as [[|w l]|] eqn:Es; [by apply triple_vret; intros ? ?; rewrite Es| |by apply triple_vret; intros ? ?; rewrite Es].
    eapply triple_mono; [|done|apply base_setup_spec]. intros h' s' a _ Hx w' l' Hw. rewrite Es in Hw. injection Hw as <- <-. exact Hx.
  - done.
  - intros h3 s3 [] Hp3 Hs. eapply triple_seq; [apply suite_spec|done|]. intros h4 s4 [p expected] Hp4 (h5 & words & Hp5 & Hr).
    eapply triple_seq; [apply report_spec|done|]. intros h6 s6 junit Hp6 Hj. apply triple_vret.
    exists trusted, environment, p, expected, h5, h4, words, junit. split; [by do 3 (eapply base_copied_prefix; [eassumption|])|]. cbn [fst snd] in Hr.
    split; [|split; [later|by split]]. intros w l Hw. destruct (Hs w l Hw) as (b & a & o & r & sp & A1 & A2 & A3 & A4 & A5 & A6 & A7 & A8 & A9).
    exists b, a, o, r, sp. split; [later|]. split; [later|]. do 3 (split; [done|]). split; [later|]. split; [done|]. split; [later|done].
Qed.
End Steps.

(** ** The run *)

Lemma run_repo_baseline_spec :
  wp any (run_repo_baseline python_executable et_fromstring q) [] (fun log o =>
    forall d, o = inr d -> exists workdir, (AllocateWorkspace (u "evo_baseline_"), RStr workdir) ∈ log /\ gone [] log workdir /\
      (no_clean d \/ exists h, h `prefix_of` log /\ base_judged workdir h d)).
Proof.
  split; [done|]. intros r. destruct r as [| |workdir| | | | | | | | | | | | | | | | | | | |]; try by intros ? [=].
  apply wp_bind. eapply wp_mono; [|apply (judge_base_spec workdir)]. intros h [s en] Hp He. cbn [fst snd].
  unfold leave_base. apply wp_bind, remove_root_spec. intros h' o Hp' _ _ Hg. cbn [wp].
  intros d Hd. assert (Ho : o = None /\ base_outcome en = inr d) by (destruct (base_outcome en), o; try done; by injection Hd as <-).
  destruct Ho as [Ho Hb]. exists workdir. assert (Hin : (AllocateWorkspace (u "evo_baseline_"), RStr workdir) ∈ h') by
    (eapply elem_prefix; [exact Hp'|]; eapply elem_prefix; [exact Hp|]; by left).
  split; [done|]. split; [eapply gone_later; [|by apply Hg]; apply prefix_nil|].
  destruct en as [d'|[d'|e]|]; try done; cbn in Hb; injection Hb as ->.
  - right. exists h. by split.
  - left. by apply (He d).
Qed.

(** ** The properties *)

(** A run that can be graded: exit code and report agree, and a strict harness has a report
    with tests. *)
Definition gradeable_run (returncode : Z) (junit : option JUnitCounts) (report_expected strict_harness : bool) : Prop :=
  detect_tamper returncode junit report_expected = false /\
  (report_expected = true -> junit <> None) /\
  (strict_harness = true -> report_expected = true /\ exists j, junit = Some j /\ 0 < jc_total j).

Lemma evidence_clean returncode junit report_expected strict_harness :
  ~ no_clean (baseline_evidence returncode junit report_expected strict_harness) ->
  gradeable_run returncode junit report_expected strict_harness /\
  dget (baseline_evidence returncode junit report_expected strict_harness) (u "verdict") =
    VStr (if g_passed (grade_repo_run returncode junit report_expected) then u "PASS" else u "FAIL").
Proof.
  unfold no_clean, baseline_evidence. cbn zeta.
  assert (Hd : forall v a b, dget (dict_of [("verdict", v); ("tests_passed", a); ("tests_total", b)]) (u "verdict") = v) by reflexivity.
  rewrite !Hd. destruct (_ || _) eqn:Ec; [by intros []|]. intros _. split; [|by destruct (g_passed _)].
  apply orb_false_iff in Ec as [[E1 E2]%orb_false_iff E3]. split; [done|]. split; [by intros -> ->|]. intros ->. cbn in E3.
  apply orb_false_iff in E3 as [E3 E4]. split; [by destruct report_expected|]. destruct junit as [j|]; [|done]. exists j. split; [done|]. lia.
Qed.

(** What a clean verdict on the base rests on. *)
Record base_earned (log : history) (d : dict) (workdir : str) : Prop := {
  bn_workdir : (AllocateWorkspace (u "evo_baseline_"), RStr workdir) ∈ log /\ gone [] log workdir;
  bn_run : exists trusted environment p report_expected h1 h2 h words junit,
    base_copied workdir h1 trusted /\ setup_proven workdir h1 trusted /\ (JudgeEnvironment workdir, REnvironment environment) ∈ h1 /\
    base_ran workdir h2 trusted environment p report_expected h1 words /\
    h2 `prefix_of` h /\ h `prefix_of` log /\ base_report workdir h2 h junit /\
    gradeable_run (ps_returncode p) junit report_expected (rb_strict_harness q) /\
    dget d (u "verdict") = VStr (if g_passed (grade_repo_run (ps_returncode p) junit report_expected) then u "PASS" else u "FAIL") }.

Lemma baseline_run_earned log d :
  exec (run_repo_baseline python_executable et_fromstring q) log (inr d) -> ~ no_clean d -> exists workdir, base_earned log d workdir.
Proof.
  intros E Hn. destruct (wp_sound _ _ _ _ _ _ run_repo_baseline_spec E) as [Hs _]. cbn [app] in Hs.
  destruct (Hs d eq_refl) as (workdir & Ha & Hg & [Hc|(h & Hp & Hj)]); [done|]. exists workdir. split; [done|].
  destruct Hj as (trusted & environment & p & expected & h1 & h2 & words & junit & H1 & H2 & H3 & H4 & H5 & H6 & ->).
  destruct (evidence_clean _ _ _ _ Hn) as [Hg' Hv].
  exists trusted, environment, p, expected, h1, h2, h, words, junit. tauto.
Qed.

(** C6: A verdict on the pristine base has been earned.  When the run reports PASS or FAIL,
    a copy of the repository had the declared harness inputs of the base before the suite
    and after it; a configured setup ended with success and changed no judged path; the
    suite's process is the configured command with the judge's report wired in, under the
    limits and the timeout of the request, and it started; the report was read after the
    run and agrees with the exit code, a promised report is there, and a strict harness has
    at least one test; the verdict is the grade of that exit code and report; and the
    workspace was removed or seen absent. *)
Theorem baseline_verdict_earned log d :
  exec (run_repo_baseline python_executable et_fromstring q) log (inr d) ->
  dget d (u "verdict") <> VStr (u "NO_CLEAN_VERDICT") -> exists workdir, base_earned log d workdir.
Proof. apply baseline_run_earned. Qed.
End Sound.

(** ** Concrete runs *)

Definition base_script {W} (w : W) (p : process) (report : str) : list (reply W) :=
  [RStr (u "/tmp/b"); RSnapshot []; RTree w; RSnapshot []; REnvironment []; RWords (us ["py"]); RProcess p; RSnapshot [];
   RText (Some report); RUnit].
Definition sample_baseline : RepoBaselineRequest :=
  {| rb_repository_path := u "/repo"; rb_test_command := None; rb_setup_command := None; rb_setup_output_globs := [];
     rb_timeout := 60; rb_mem_limit_mb := 1024; rb_strict_harness := false; rb_harness_inputs := [] |}.
Definition base_parser (text : str) : option element :=
  if text =s? u "<fail>" then
    Some (Elem (Some (u "testsuite")) [(u "tests", u "1"); (u "failures", u "1")]
            [Elem (Some (u "testcase")) [] [Elem (Some (u "failure")) [] []]])
  else if text =s? u "<none>" then Some (Elem (Some (u "testsuite")) [(u "tests", u "0")] [])
  else None.
Definition base_exit (code : Z) : process :=
  {| ps_returncode := code; ps_stdout := []; ps_stderr := []; ps_target_started := true |}.
Definition base_run (code : Z) (report : string) : option (list (op unit * reply unit) * (failure + dict)) :=
  run (@run_repo_baseline ascii_unicode unit (u "/usr/bin/python3") base_parser sample_baseline)
    (base_script tt (base_exit code) (u report)).

Lemma baseline_verdict_earned_witness :
  exists log d workdir, base_run 1 "<fail>" = Some (log, inr d) /\ dget d (u "verdict") = VStr (u "FAIL") /\
    @base_earned ascii_unicode unit (u "/usr/bin/python3") base_parser sample_baseline log d workdir.
Proof.
  assert (Hl : match option_map snd (base_run 1 "<fail>") with
               | Some (inr d) => dget d (u "verdict") = VStr (u "FAIL")
               | _ => False
               end) by (vm_compute; reflexivity).
  destruct (base_run 1 "<fail>") as [[log [e|d]]|] eqn:E; [destruct Hl| |destruct Hl]. cbn in Hl.
  destruct (baseline_verdict_earned _ _ _ _ _ (run_exec _ _ _ _ E)) as (wd & Hb); [rewrite Hl; discriminate|].
  exists log, d, wd. split; [reflexivity|]. split; [exact Hl|exact Hb].
Defined.

(** A base on which no test is collected (exit code 5 of pytest, a report without tests)
    has no verdict source, yet it is reported as failed, not as unclean: the repair by a
    candidate that adds the first test counts as demonstrated. *)
Lemma base_without_tests_fails :
  clean_verdict_source 5 (parse_junit_xml base_parser (u "<none>")) true = None /\
  match option_map snd (base_run 5 "<none>") with
  | Some (inr d) => dget d (u "verdict") = VStr (u "FAIL") /\ repair_effect d true = u "demonstrated"
  | _ => False
  end.
Proof. split; vm_compute; auto. Qed.
