(* ===== verification/DiffCoverage.v ===== *)
(** Changed-line coverage evidence (evidence.py): the lines a candidate changes, which
    of them are code, and the one additional run of the suite that shows which of these
    it executed.  The tokenizer and the parser of the language are arguments. *)
From Stdlib Require Import Floats.SpecFloat.
From S2P Require Import Effects BlackboxRunSound RecordTypes.
From S2P Require Export PatchRisk PackageJson EvidencePrimitives Decision Baseline.
Local Open Scope Z_scope.

Definition EXECUTED_IS_NOT_ASSERTED : str :=
  u "executed is not asserted, and same-process coverage data is candidate-writable: candidate code can stop or mutate the collector. This is a quality/scrutiny signal for non-hostile code, not adversarial integrity evidence or proof of correctness".
Definition _MAX_COVERAGE_REPORT_BYTES : Z := 16 * 1024 * 1024.
Definition _MAX_COVERAGE_CLEANUP_NOTE_CHARS : Z := 2000.

(** An exception that nothing on the way catches; its message is not modelled. *)
Definition uncaught (type_name : string) : failure :=
  {| fl_kind := OtherFailure; fl_type := u type_name; fl_text := [] |}.

(** ** Dictionaries by path, in the order of insertion *)

Fixpoint path_get {A} (path : str) (m : list (str * A)) : option A :=
  match m with
  | [] => None
  | (p, x) :: m' => if p =s? path then Some x else path_get path m'
  end.

Fixpoint path_set {A} (path : str) (x : A) (m : list (str * A)) : list (str * A) :=
  match m with
  | [] => [(path, x)]
  | (p, y) :: m' => if p =s? path then (p, x) :: m' else (p, y) :: path_set path x m'
  end.

(** ** The lines a candidate changes *)

(** [SequenceMatcher.get_opcodes]. *)
Inductive opcode_tag := OpReplace | OpDelete | OpInsert | OpEqual.
Record opcode := { oc_tag : opcode_tag; oc_i1 : nat; oc_i2 : nat; oc_j1 : nat; oc_j2 : nat }.

Definition gap_tag (i ai j bj : nat) : option opcode_tag :=
  if (i <? ai)%nat && (j <? bj)%nat then Some OpReplace
  else if (i <? ai)%nat then Some OpDelete
  else if (j <? bj)%nat then Some OpInsert
  else None.

Fixpoint opcodes_from (i j : nat) (blocks : list match_block) : list opcode :=
  match blocks with
  | [] => []
  | m :: blocks' =>
      let ai := mt_a m in
      let bj := mt_b m in
      match gap_tag i ai j bj with
      | Some tag => [{| oc_tag := tag; oc_i1 := i; oc_i2 := ai; oc_j1 := j; oc_j2 := bj |}]
      | None => []
      end
      ++ (if Nat.eqb (mt_size m) 0 then []
          else [{| oc_tag := OpEqual; oc_i1 := ai; oc_i2 := ai + mt_size m; oc_j1 := bj; oc_j2 := bj + mt_size m |}])
      ++ opcodes_from (ai + mt_size m) (bj + mt_size m) blocks'
  end.

Definition get_opcodes (a b : list str) : list opcode := opcodes_from 0 0 (get_matching_blocks false a b).

(** The lines [j1 + 1 .. j2] of what is replaced or inserted: numbers of the new file. *)
Definition opcode_lines (o : opcode) : list Z :=
  match oc_tag o with
  | OpReplace | OpInsert => map (fun j => Z.of_nat j + 1) (seq (oc_j1 o) (oc_j2 o - oc_j1 o))
  | OpDelete | OpEqual => []
  end.

Definition touched_lines (old new : str) : list Z :=
  flat_map opcode_lines (get_opcodes (splitlines old) (splitlines new)).

Section Changed.
Context `{UnicodeDB}.
Context (open_path : str -> opened) (repo_path : str).

(** The text of a base file; [None] for an [OSError]. *)
Definition base_text (rel : str) : result failure (option str) :=
  match open_path (path_join_all repo_path (path_parts rel)) with
  | NoFile => Ok None
  | Unopenable => Err (uncaught "ValueError")
  | Opened data =>
      match utf8_decode data with
      | Some text => Ok (Some (universal_newlines text))
      | None => Err (uncaught "UnicodeDecodeError")
      end
  end.

(** The content of a path after the candidate is applied, [None] when a patch fails. *)
Abbreviation contents := (list (str * option str)).

Fixpoint patched_contents (patches : list PatchBlock) (out : contents) : result failure contents :=
  match patches with
  | [] => Ok out
  | pb :: patches' =>
      let* base :=
        match path_get (pb_path pb) out with
        | Some (Some text) => Ok (Some text)
        | _ => base_text (pb_path pb)
        end in
      let new :=
        match base with
        | None => None
        | Some text =>
            match apply_patch text (pb_search pb) (pb_replace pb) 1 with Ok new => Some new | Err _ => None end
        end in
      patched_contents patches' (path_set (pb_path pb) new out)
  end.

Definition of_blocks (blocks : list (str * str)) : contents := map (fun '(path, text) => (path, Some text)) blocks.

Definition _new_content_map (candidate : str) : result failure contents :=
  patched_contents (parse_patch_blocks candidate) (of_blocks (parse_file_blocks candidate)).

Definition content_map (candidate : str) (file_blocks : option (list (str * str))) : result failure contents :=
  match file_blocks with
  | Some blocks => Ok (of_blocks blocks)
  | None => _new_content_map candidate
  end.

Fixpoint changed_lines_of (m : contents) : result failure (list (str * list Z)) :=
  match m with
  | [] => Ok []
  | (path, new) :: m' =>
      match new with
      | Some text =>
          if is_safe_relpath path then
            let* old := base_text path in
            let touched := touched_lines (match old with Some old => old | None => [] end) text in
            let* rest := changed_lines_of m' in
            Ok (match touched with [] => rest | _ => (path, touched) :: rest end)
          else changed_lines_of m'
      | None => changed_lines_of m'
      end
  end.

Definition changed_lines (candidate : str) (file_blocks : option (list (str * str)))
  : result failure (list (str * list Z)) :=
  let* m := content_map candidate file_blocks in
  changed_lines_of m.
End Changed.

(** ** Code lines *)

(** What the source reads of a syntax tree: the position of an expression statement that
    is a string constant, a [body] that is a list, and the child nodes. *)
Record span := { sp_lineno : Z; sp_col_offset : Z; sp_end_lineno : Z; sp_end_col_offset : Z }.
Inductive pynode := PyNode (string_statement : option span) (body : option (list pynode)) (children : list pynode).

(** [ast.walk]; the order of the nodes does not matter here. *)
Fixpoint walk_nodes (n : pynode) : list pynode :=
  match n with PyNode _ _ children => n :: flat_map walk_nodes children end.

(** The docstring of a node. *)
Definition docstring_of (n : pynode) : option span :=
  match n with PyNode _ (Some (PyNode statement _ _ :: _)) _ => statement | _ => None end.

Inductive token_kind := TkComment | TkDedent | TkEndmarker | TkIndent | TkNewline | TkNl | TkOp | TkOther.
Record token := { tk_kind : token_kind; tk_string : str; tk_start : Z * Z; tk_end : Z * Z }.

(** The order of tuples. *)
Definition pos_leb (p q : Z * Z) : bool := (fst p <? fst q) || (fst p =? fst q) && (snd p <=? snd q).

(** The characters of a line whose bytes lie in its first [n] bytes. *)
Fixpoint chars_within (n : Z) (line : str) : Z :=
  match line with
  | [] => 0
  | c :: line' =>
      match utf8_char c with
      | Some b => let k := Z.of_nat (length b) in if k <=? n then 1 + chars_within (n - k) line' else 0
      | None => 0
      end
  end.

Section CodeLines.
(** [ast.parse] ([None] for a [SyntaxError] or [ValueError]) and the tokens of
    [tokenize.generate_tokens] ([None] for an [IndentationError] or [TokenError]). *)
Context (py_parse : str -> option pynode) (py_tokens : str -> option (list token)).

Definition character_column (source_lines : list str) (line_number byte_column : Z) : result failure Z :=
  match nth_error source_lines (Z.to_nat (line_number - 1)) with
  | None => Err (uncaught "IndexError")
  | Some line =>
      match utf8 line with
      | Some _ => Ok (chars_within byte_column line)
      | None => Err (uncaught "UnicodeEncodeError")
      end
  end.

Definition docstring_span (source_lines : list str) (s : span) : result failure ((Z * Z) * (Z * Z)) :=
  let* start := character_column source_lines (sp_lineno s) (sp_col_offset s) in
  let* finish := character_column source_lines (sp_end_lineno s) (sp_end_col_offset s) in
  Ok ((sp_lineno s, start), (sp_end_lineno s, finish)).

Fixpoint docstring_spans (source_lines : list str) (owners : list pynode) : result failure (list ((Z * Z) * (Z * Z))) :=
  match owners with
  | [] => Ok []
  | n :: owners' =>
      match docstring_of n with
      | None => docstring_spans source_lines owners'
      | Some s =>
          let* x := docstring_span source_lines s in
          let* l := docstring_spans source_lines owners' in
          Ok (x :: l)
      end
  end.

Definition ignored_token (spans : list ((Z * Z) * (Z * Z))) (t : token) : bool :=
  match tk_kind t with
  | TkComment | TkDedent | TkEndmarker | TkIndent | TkNewline | TkNl => true
  | TkOp => tk_string t =s? u ";"
  | TkOther => false
  end
  || existsb (fun '(start, finish) => pos_leb start (tk_start t) && pos_leb (tk_end t) finish) spans.

Definition token_lines (t : token) : list Z :=
  map (fun k => fst (tk_start t) + Z.of_nat k) (seq 0 (Z.to_nat (fst (tk_end t) + 1 - fst (tk_start t)))).

Definition _source_code_lines (source : str) : result failure (list Z) :=
  let source_lines := splitlines source in
  let* spans :=
    match py_parse source with
    | None => Ok []
    | Some tree => docstring_spans source_lines (tree :: walk_nodes tree)
    end in
  Ok (match py_tokens source with
      | None => map (fun k => Z.of_nat k + 1) (seq 0 (length source_lines))
      | Some tokens => flat_map token_lines (List.filter (fun t => negb (ignored_token spans t)) tokens)
      end).

(** ** The classification of changed lines *)

(** [set(v)] of a decoded value: its elements, all hashable. *)
Definition hashable (v : value) : bool := match v with VList _ | VDict _ => false | _ => true end.
Definition set_of (v : value) : result failure (list value) :=
  match v with
  | VList l => if forallb hashable l then Ok l else Err (uncaught "TypeError")
  | VDict d => Ok (map fst d)
  | VStr s => Ok (map (fun c => VStr [c]) s)
  | _ => Err (uncaught "TypeError")
  end.

Definition entry_lines (entry : dict) (key : string) : result failure (list value) :=
  set_of (match dlookup (u key) entry with Some v => v | None => VList [] end).

Definition line_in (line : Z) (l : list value) : bool := existsb (py_eq (VInt line)) l.

(** The fate of a line: excluded by a pragma, executed, or neither. *)
Definition classify (executed_known excluded_known : list value) (lines : list Z) : list Z * list Z * bool :=
  (List.filter (fun line => negb (line_in line excluded_known) && line_in line executed_known) lines,
   List.filter (fun line => line_in line excluded_known || negb (line_in line executed_known)) lines,
   existsb (fun line => line_in line excluded_known) lines).

Definition _classify_touched_lines (source : option str) (touched : list Z) (entry : dict)
  : result failure (list Z * list Z * bool) :=
  let* executed_known := entry_lines entry "executed_lines" in
  let* excluded_known := entry_lines entry "excluded_lines" in
  let* code_lines := match source with None => Ok touched | Some text => _source_code_lines text end in
  Ok (classify executed_known excluded_known (List.filter (fun line => existsb (Z.eqb line) code_lines) touched)).
End CodeLines.

(** ** Commands *)

Definition _TRUSTED_COVERAGE_LAUNCHER : str :=
  u "import os, sys; from coverage.cmdline import main as coverage_main; sys.path.insert(0, os.getcwd()); raise SystemExit(coverage_main())".

Definition pytest_names : list str := us ["pytest"; "pytest.exe"; "py.test"; "py.test.exe"].

(** [os.path.dirname] on POSIX. *)
Definition dirname (path : str) : str :=
  let head := take (length path - length (basename path)) path in
  if forallb (N.eqb ch_slash) head then head else rstrip_by (N.eqb ch_slash) head.

Section Commands.
Context `{UnicodeDB}.
Context (python_executable : str).

Definition is_pytest_word (token : str) : bool := str_in (py_lower (basename token)) pytest_names.

Definition interpreter_token (token : str) : bool :=
  let name := py_lower (basename token) in
  starts_with (u "python") name || starts_with (u "pypy") name || str_in name (us ["py"; "py.exe"]).

(** The last index below [n] of an interpreter. *)
Fixpoint interpreter_before (cmd : list str) (n : nat) : option nat :=
  match n with
  | O => None
  | S k => if interpreter_token (nth k cmd []) then Some k else interpreter_before cmd k
  end.

Abbreviation command_parts := (list str * str * list str * list str)%type.

Definition slice (lo hi : nat) (l : list str) : list str := take (hi - lo) (drop lo l).

(** The first [-m pytest] behind an interpreter. *)
Fixpoint module_command (cmd : list str) (indices : list nat) : option (nat * command_parts) :=
  match indices with
  | [] => None
  | i :: indices' =>
      if (nth i cmd [] =s? u "-m") && is_pytest_word (nth (S i) cmd []) then
        match interpreter_before cmd i with
        | Some k => Some (k, (take k cmd, nth k cmd [], slice (S k) i cmd, drop (i + 2) cmd))
        | None => module_command cmd indices'
        end
      else module_command cmd indices'
  end.

(** The first word that names pytest and is no module of an interpreter. *)
Definition executable_index (cmd : list str) : option nat :=
  List.find (fun i => is_pytest_word (nth i cmd []) && (Nat.eqb i 0 || negb (nth (i - 1) cmd [] =s? u "-m")))
    (seq 0 (length cmd)).

Definition shell_switches : list str := us ["-c"; "-lc"; "/c"; "-command"; "-encodedcommand"].

Definition executable_command (cmd : list str) (i : nat) : option command_parts :=
  let prefix := take i cmd in
  if existsb (fun token => str_in (py_lower token) shell_switches) prefix then None
  else
    let explicit_pytest := nth i cmd [] in
    let interpreter :=
      if Nat.eqb i 0 then
        if is_empty (dirname explicit_pytest) then python_executable
        else path_join (dirname explicit_pytest) (u "python")
      else u "python" in
    Some (prefix, interpreter, [], drop (S i) cmd).

Definition _pytest_command_parts (cmd : list str) : option command_parts :=
  match module_command cmd (seq 0 (length cmd - 1)), executable_index cmd with
  | Some (_, parts), None => Some parts
  | Some (k, parts), Some i => if Nat.leb k i then Some parts else executable_command cmd i
  | None, Some i => executable_command cmd i
  | None, None => None
  end.

(** The launcher under the interpreter of the suite. *)
Definition launched_coverage (parts : command_parts) : list str :=
  let '(prefix, interpreter, interpreter_options, _) := parts in
  prefix ++ [interpreter] ++ interpreter_options ++ [u "-I"; u "-c"; _TRUSTED_COVERAGE_LAUNCHER].

Definition _coverage_wrap (cmd : list str) (data_file : str) : option (list str) :=
  match _pytest_command_parts cmd with
  | None => None
  | Some parts =>
      Some (launched_coverage parts
            ++ [u "run"; u "--rcfile=/dev/null"; u "--data-file=" ++ data_file; u "-m"; u "pytest"] ++ snd parts)
  end.

Definition _coverage_report_command (data_file output_file : str) (test_command : option (list str)) : option (list str) :=
  match match test_command with
        | None => Some ([], python_executable, [], [])
        | Some cmd => _pytest_command_parts cmd
        end with
  | None => None
  | Some parts =>
      Some (launched_coverage parts
            ++ [u "json"; u "--rcfile=/dev/null"; u "--data-file=" ++ data_file; u "-o"; output_file; u "-q"])
  end.

Definition default_pytest : list str := python_executable :: us ["-m"; "pytest"; "-q"; "--color=no"; "-p"; "no:cacheprovider"].
End Commands.

(** ** The report *)

(** [json.loads]: a text that is not JSON, or an integer of too many digits. *)
Inductive report_error := JSONDecodeError | IntegerTooLong.

Definition report_hooks : hooks report_error :=
  {| object_pairs_hook := fun pairs => Ok (VDict (dupdate [] pairs));
     parse_constant := fun t => match plain_constant t with Ok v => Ok v | Err _ => Err JSONDecodeError end;
     parse_float := fun t => Ok (VFloat (py_float t));
     parse_int := fun t => match plain_int t with Ok v => Ok v | Err _ => Err IntegerTooLong end;
     decode_error := JSONDecodeError |}.

(** The bounded bytes of a regular file that did not change while it was read. *)
Definition read_bounded (f : file_view) : option bytes :=
  match fv_before f, fv_opened f, fv_content f, fv_after f with
  | Some info, Some before, Some content, Some after =>
      let raw := first_bytes (_MAX_COVERAGE_REPORT_BYTES + 1) content in
      if negb (fs_regular info) || (_MAX_COVERAGE_REPORT_BYTES <? fs_size info) then None
      else if negb (fs_regular before) || (_MAX_COVERAGE_REPORT_BYTES <? fs_size before) then None
      else if (_MAX_COVERAGE_REPORT_BYTES <? Z.of_nat (length raw))
              || negb (same_descriptor before after && bool_decide (fs_regular before = fs_regular after)) then None
      else Some raw
  | _, _, _, _ => None
  end.

Definition _read_coverage_files (f : file_view) : result failure (option dict) :=
  match read_bounded f with
  | None => Ok None
  | Some raw =>
      match utf8_decode raw with
      | None => Ok None
      | Some text =>
          match json_loads report_hooks text with
          | Err IntegerTooLong => Err (uncaught "ValueError")
          | Ok (VDict d) => Ok (match dlookup (u "files") d with None => Some [] | Some (VDict files) => Some files | _ => None end)
          | _ => Ok None
          end
      end
  end.

Section Paths.
Context `{UnicodeDB}.
Context (abspath : str -> str).

Definition path_words (path : str) : list str := List.filter (fun w => negb (is_empty w)) (path_parts (abspath path)).

Fixpoint common_prefix (a b : list str) : nat :=
  match a, b with
  | x :: a', y :: b' => if x =s? y then S (common_prefix a' b') else 0%nat
  | _, _ => 0%nat
  end.

(** [os.path.relpath] on POSIX. *)
Definition relpath (path start : str) : str :=
  let start_list := path_words start in
  let path_list := path_words path in
  let i := common_prefix start_list path_list in
  match repeat (u "..") (length start_list - i) ++ drop i path_list with
  | [] => u "."
  | l => py_join [ch_slash] l
  end.

Definition _normalize_coverage_report_path (measured_path repo_root : str) : option str :=
  let normalized := if starts_with [ch_slash] measured_path then relpath measured_path repo_root else measured_path in
  let normalized := map (fun c => if N.eqb c ch_bslash then ch_slash else c) normalized in
  if is_safe_relpath normalized then Some normalized else None.

(** The entries of the report by normalized path; a later entry replaces an earlier one. *)
Definition normalized_files (raw_files : dict) (repo_root : str) : list (str * dict) :=
  fold_left (fun files '(k, entry) =>
    match entry with
    | VDict d =>
        match k with
        | VStr measured_path =>
            match _normalize_coverage_report_path measured_path repo_root with
            | Some path => path_set path d files
            | None => files
            end
        | _ => files
        end
    | _ => files
    end) raw_files [].
End Paths.

(** ** The evidence *)

(** Evidence that names why nothing was measured. *)
Definition unmeasured (unmeasured_files : list str) (note : str) : dict := dict_of [
  ("measured", VBool false); ("note", VStr note); ("unmeasured_files", w_strs unmeasured_files);
  ("caveat", VStr EXECUTED_IS_NOT_ASSERTED)].

Definition int_list (l : list Z) : value := VList (map VInt l).

(** The line counts come from lists, so their floats are finite. *)
Definition percent_of (executed total : Z) : float :=
  if total =? 0 then dec 1000 1
  else round1 (fdiv (fmul (dec 1000 1) (float_of_Z executed)) (float_of_Z total)).

Definition NEVER_IMPORTED : str := "file never imported by the suite (executable changed lines shown)".
Definition SOURCE_EXCLUDED : str := "changed statements excluded by source pragmas are counted as missed".

Section Evidence.
Context (py_parse : str -> option pynode) (py_tokens : str -> option (list token)).

(** The detail of one file, and its executed and missed lines. *)
Definition file_detail (new : option str) (touched : list Z) (entry : option dict) : result failure (dict * list Z * list Z) :=
  let* c := _classify_touched_lines py_parse py_tokens new touched (match entry with Some d => d | None => [] end) in
  let '(executed, missed, source_exclusion_seen) := c in
  let note :=
    match entry with
    | None => [("note", VStr NEVER_IMPORTED)]
    | Some _ => if source_exclusion_seen then [("note", VStr SOURCE_EXCLUDED)] else []
    end in
  Ok (dict_of ([("executed", int_list executed); ("missed", int_list missed)] ++ note), executed, missed).

Fixpoint per_file (new_contents : list (str * option str)) (files : list (str * dict)) (items : list (str * list Z))
  : result failure (dict * Z * Z) :=
  match items with
  | [] => Ok ([], 0, 0)
  | (path, touched) :: items' =>
      let new := match path_get path new_contents with Some new => new | None => None end in
      let* x := file_detail new touched (path_get path files) in
      let '(detail, executed, missed) := x in
      let* rest := per_file new_contents files items' in
      let '(details, executed_total, measurable_total) := rest in
      Ok ((VStr path, VDict detail) :: details,
          Z.of_nat (length executed) + executed_total,
          Z.of_nat (length executed) + Z.of_nat (length missed) + measurable_total)
  end.

(** [sorted(lines_map.items())]: the paths are distinct. *)
Definition sorted_items {A} (m : list (str * A)) : list (str * A) :=
  flat_map (fun path => match path_get path m with Some x => [(path, x)] | None => [] end) (sort_str (map fst m)).

Definition measured_evidence (lines_map : list (str * list Z)) (non_py : list str) (new_contents : list (str * option str))
    (files : list (str * dict)) : result failure dict :=
  let* x := per_file new_contents files (sorted_items lines_map) in
  let '(details, executed_total, measurable_total) := x in
  Ok (dict_of [
    ("measured", VBool true); ("percent", VFloat (percent_of executed_total measurable_total));
    ("executed", VInt executed_total); ("total", VInt measurable_total); ("files", VDict details);
    ("unmeasured_files", w_strs non_py); ("caveat", VStr EXECUTED_IS_NOT_ASSERTED)]).
End Evidence.

(** ** One collection *)

Record coverage_request := {
  cq_repo_path : str;
  cq_candidate : str;
  cq_deleted : list str;
  cq_test_command : option (list str);
  cq_setup_command : option (list str);
  cq_setup_output_globs : list str;
  cq_timeout : Z;
  cq_mem_limit_mb : Z;
  cq_file_blocks : option (list (str * str));
  cq_require_passing_suite : bool;
  cq_harness_inputs : list str }.

(** How a bounded process did not end. *)
Inductive run_fault := OutputExceeded | CleanupUnproven | Incomplete.

Definition run_fault_of {W} (r : reply W) : option run_fault :=
  match r with
  | RRunError (ProcessOutputLimitExceeded _ _ _) => Some OutputExceeded
  | RRunError (ProcessContainmentError _ _ _) => Some CleanupUnproven
  | RRunError _ | RNotFound => Some Incomplete
  | RFailed e =>
      match fl_kind e with
      | OSFailure | TimeoutFailure => Some Incomplete
      | ProcessFailure => Some (if fl_type e =s? u "ProcessOutputLimitExceeded" then OutputExceeded else CleanupUnproven)
      | _ => None
      end
  | _ => None
  end.

Definition setup_note (f : run_fault) : str :=
  match f with
  | OutputExceeded => u "the coverage setup command output exceeded the judge capture limit"
  | CleanupUnproven => u "the coverage setup command cleanup could not be proven"
  | Incomplete => u "the coverage setup command did not complete"
  end.
Definition suite_note (f : run_fault) : str :=
  match f with
  | OutputExceeded => u "the coverage-wrapped suite output exceeded the judge capture limit"
  | CleanupUnproven => u "the coverage-wrapped suite cleanup could not be proven"
  | Incomplete => u "the coverage-wrapped suite run did not complete"
  end.
Definition report_note (f : run_fault) : str :=
  match f with
  | OutputExceeded => u "the coverage report command output exceeded the judge capture limit"
  | CleanupUnproven => u "the coverage report command cleanup could not be proven"
  | Incomplete => u "the coverage report command did not complete"
  end.

Definition _coverage_cleanup_exception_summary (e : failure) : str := fl_type e ++ u ": " ++ fl_text e.

Definition _coverage_cleanup_failure_note (e : failure) : str :=
  let message := u "the coverage workspace cleanup could not be proven: " ++ _coverage_cleanup_exception_summary e in
  if Z.of_nat (length message) <=? _MAX_COVERAGE_CLEANUP_NOTE_CHARS then message
  else take (Z.to_nat (_MAX_COVERAGE_CLEANUP_NOTE_CHARS - 3)) message ++ u "...".

Section Collect.
Context `{UnicodeDB} {W : Type} `{Workspace W}.
Context (python_executable : str) (restore_package_json : option str -> str -> str) (abspath : str -> str).
Context (open_path : str -> opened).
Context (py_parse : str -> option pynode) (py_tokens : str -> option (list token)).
Context (q : coverage_request).

(** An early return carries its note. *)
Abbreviation B A := (M (op W) (reply W) unit (stop str) A).
Abbreviation P A := (prog (op W) (reply W) A).

Definition unmeasurable {A} (note : str) : B A := refuse (Refused note).

(** A request whose faults are notes. *)
Definition watched {A} (notes : run_fault -> str) (a : op W) (read : reply W -> option A) : B A := fun s =>
  Op a (fun r => Ret (s, match read r with
                         | Some x => Done x
                         | None => match run_fault_of r with
                                   | Some f => Returned (Refused (notes f))
                                   | None => Returned (Threw (failure_of r))
                                   end
                         end)).

Definition as_finished (r : reply W) : option process := match r with RProcess p => Some p | _ => None end.
Definition as_found (r : reply W) : option bool := match r with RBool b => Some b | _ => None end.
Definition as_view (r : reply W) : option file_view := match r with RView f => Some f | _ => None end.

Definition or_note {A} (prefix : string) (taken : str + A) : B A :=
  match taken with inl exc => unmeasurable (u prefix ++ exc) | inr x => vret x end.

(** The harness inputs below [root] are captured. *)
Definition captured_harness (root : str) (unverifiable : string) : B path_states :=
  let! taken := request (CaptureHarness root (cq_harness_inputs q)) as_snapshot in
  or_note unverifiable taken.

Definition harness_kept (copy : str) (trusted : path_states) (unverifiable changed : string) : B unit :=
  let! observed := captured_harness copy unverifiable in
  match harness_input_snapshot_changes trusted observed with
  | [] => vret tt
  | changes => unmeasurable (u changed ++ py_join (u ", ") changes)
  end.

(** The edits and the deletions, which skip unsafe paths. *)
Definition structured_edits : option (list (str * str)) := match cq_file_blocks q with Some (b :: l) => Some (b :: l) | _ => None end.

Fixpoint deleted_tree (paths : list str) (w : W) : W * option str :=
  match paths with
  | [] => (w, None)
  | rel :: paths' =>
      if is_safe_relpath rel then
        match delete_path w rel with Ok w' => deleted_tree paths' w' | Err why => (w, Some why) end
      else deleted_tree paths' w
  end.

Definition apply_to_copy (copy : str) : B unit :=
  let! w := request (CopyTree (cq_repo_path q) copy) as_tree in
  let '(w, error) := materialize_candidate_edits (fun a b r => apply_patch a b r 1) restore_package_json w
    (match structured_edits with Some l => l | None => parse_file_blocks (cq_candidate q) end)
    (match structured_edits with Some _ => [] | None => parse_patch_blocks (cq_candidate q) end) in
  request (TreeWritten w) as_unit ;!
  match error with
  | Some _ => unmeasurable (u "candidate did not apply for the coverage run")
  | None =>
      let '(w, error) := deleted_tree (cq_deleted q) w in
      request (TreeWritten w) as_unit ;!
      match error with
      | Some exc => unmeasurable (u "candidate deletion could not be applied safely: " ++ exc)
      | None => vret tt
      end
  end.

Definition bounded_run (command : list str) (cwd : str) (environment : list (str * str)) (timeout : Z) : host_run :=
  {| hr_command := command; hr_cwd := cwd; hr_environment := environment; hr_timeout := timeout;
     hr_limits := _limits (plain_verifier (cq_timeout q) (cq_mem_limit_mb q) false); hr_require_cleanup_proof := false |}.

Definition _run_setup_for_coverage (copy : str) (environment : list (str * str)) (setup_command : list str) : B unit :=
  let capture a :=
    let! taken := watched setup_note a as_snapshot in
    or_note "the coverage setup fidelity check failed: " taken in
  let! before := capture (CaptureFidelity copy (cq_setup_output_globs q) None) in
  let! command := watched setup_note (ResolveHostCommand setup_command copy environment) as_words in
  let! completed := watched setup_note (RunHost SetupPhase (bounded_run command copy environment (cq_timeout q))) as_finished in
  let! after := capture (CaptureFidelity copy (cq_setup_output_globs q) (Some before)) in
  if negb (ps_returncode completed =? 0) then
    unmeasurable (u "the coverage setup command failed with exit " ++ str_of_Z (ps_returncode completed))
  else
    match setup_fidelity_changes before after with
    | [] => vret tt
    | changes =>
        unmeasurable (u "the coverage setup command changed judged paths outside declared outputs: "
                 ++ py_join (u ", ") (take 20 changes))
    end.

Definition suite_command : list str :=
  match cq_test_command q with Some (w :: l) => w :: l | _ => default_pytest python_executable end.

(** The wrapped suite, on the bound copy. *)
Definition covered_suite (wrapped : list str) (copy : str) (trusted : path_states) (environment : list (str * str)) : B unit :=
  let! coverage_run := watched suite_note (RunHost SuitePhase (bounded_run wrapped copy environment (cq_timeout q))) as_finished in
  harness_kept copy trusted "coverage run left declared harness inputs unverifiable: "
    "coverage run changed declared harness inputs: " ;!
  if negb (ps_returncode coverage_run =? 0) && cq_require_passing_suite q then
    unmeasurable (decode_literal (u "the required isolated coverage-wrapped pytest run did not pass — install the 'cov' extra in the judge interpreter and verify the suite under coverage"))
  else vret tt.

Definition covered_files (data_file cov_json copy : str) (environment : list (str * str)) : B (list (str * dict)) :=
  match _coverage_report_command python_executable data_file cov_json (Some suite_command) with
  | None => unmeasurable (u "the pytest environment could not generate a coverage report")
  | Some report_command =>
      let! r := watched report_note (RunHost SuitePhase (bounded_run report_command copy environment 60)) as_finished in
      let! found := if ps_returncode r =? 0 then request (PathExists cov_json) as_found else vret false in
      if negb found then unmeasurable (u "coverage produced no report (suite may not have started)")
      else
        let! view := request (ReadCoverageReport cov_json) as_view in
        match _read_coverage_files view with
        | Err e => refuse (Threw e)
        | Ok None => unmeasurable (u "coverage report was unavailable or exceeded the judge size limit")
        | Ok (Some raw_files) => vret (normalized_files abspath raw_files copy)
        end
  end.

Definition measure (workdir : str) : B (list (str * dict)) :=
  let data_file := path_join workdir (u "judge-coverage.db") in
  match _coverage_wrap python_executable suite_command data_file with
  | None => unmeasurable (u "changed-line coverage currently supports pytest commands only")
  | Some wrapped =>
      let! trusted := captured_harness (cq_repo_path q) "declared harness inputs could not be bound in the trusted coverage base: " in
      let copy := path_join workdir (u "repo") in
      apply_to_copy copy ;!
      harness_kept copy trusted "declared harness inputs could not be bound for coverage: "
        "coverage candidate materialization changed declared harness inputs: " ;!
      let! environment := request (JudgeEnvironment workdir) as_environment in
      match cq_setup_command q with
      | Some (w :: l) =>
          _run_setup_for_coverage copy environment (w :: l) ;!
          harness_kept copy trusted "coverage setup left declared harness inputs unverifiable: "
            "coverage setup changed declared harness inputs: "
      | _ => vret tt
      end ;!
      covered_suite wrapped copy trusted environment ;!
      covered_files data_file (path_join workdir (u "judge-coverage.json")) copy environment
  end.

(** The workspace is removed; an exception of the body stays the primary one, and an
    ordinary failure of the removal makes the evidence unavailable. *)
Definition leave_coverage (workdir : str) (e : ending (stop str) (list (str * dict))) (non_py : list str)
    (finish : list (str * dict) -> failure + dict) : P (failure + dict) :=
  bind (remove_root workdir) (fun failed => Ret (
    match e, failed with
    | Returned (Threw e), _ => inl e
    | Raised, _ => inl unexpected
    | _, Some e =>
        if match fl_kind e with Interrupt => true | _ => false end then inl e
        else inr (unmeasured non_py (_coverage_cleanup_failure_note e))
    | Returned (Refused note), None => inr (unmeasured non_py note)
    | Done files, None => finish files
    end)).

Definition as_sum {E A} (r : result E A) : E + A := match r with Ok a => inr a | Err e => inl e end.

Definition is_python_path (path : str) : bool := ends_with (u ".py") path.

Definition collect_diff_coverage : P (failure + dict) :=
  match changed_lines open_path (cq_repo_path q) (cq_candidate q) (cq_file_blocks q),
        content_map open_path (cq_repo_path q) (cq_candidate q) (cq_file_blocks q) with
  | Ok all_changed_lines, Ok new_contents =>
      let lines_map := List.filter (fun e => is_python_path (fst e)) all_changed_lines in
      let non_py := sort_str (map fst (List.filter (fun e => negb (is_python_path (fst e))) all_changed_lines)) in
      match lines_map with
      | [] => Ret (inr (unmeasured non_py (u "no changed Python lines to measure")))
      | _ =>
          Op (AllocateWorkspace (u "evo_guard_cov_")) (fun r =>
            match r with
            | RStr workdir =>
                bind (measure workdir tt) (fun so =>
                  leave_coverage workdir (snd so) non_py
                    (fun files => as_sum (measured_evidence py_parse py_tokens lines_map non_py new_contents files)))
            | _ => Ret (inl (failure_of r))
            end)
      end
  | Err e, _ | _, Err e => Ret (inl e)
  end.
End Collect.

(** ** What the matching blocks of a diff are *)

Section Blocks.
Context (autojunk : bool) (a b : list str).

(** A block holds the same lines on both sides. *)
Definition same_lines (m : match_block) : Prop :=
  forall t, (t < mt_size m)%nat -> nth (mt_a m + t) a [] = nth (mt_b m + t) b [].

Definition block_within (alo ahi blo bhi : nat) (m : match_block) : Prop :=
  (alo <= mt_a m /\ mt_a m + mt_size m <= ahi /\ blo <= mt_b m /\ mt_b m + mt_size m <= bhi)%nat.

(** The lengths of a row: matches that end at it. *)
Definition row_lengths (alo i blo bhi : nat) (l : match_lengths) : Prop :=
  forall j k, In (j, k) l ->
    (blo <= j < bhi /\ 1 <= k /\ alo + k <= i /\ blo + k <= S j)%nat /\
    forall t, (t < k)%nat -> nth (i - S t) a [] = nth (j - t) b [].

Lemma length_at_in j l : length_at j l <> 0%nat -> In (j, length_at j l) l.
Proof.
  unfold length_at. destruct (List.find _ l) as [[j' k]|] eqn:E; [|done]. intros _.
  apply find_some in E as [Hin Hj]. apply Nat.eqb_eq in Hj. cbn in Hj. by subst.
Qed.

Lemma b2j_line line j : In j (b2j autojunk b line) -> nth j b [] = line.
Proof.
  unfold b2j. destruct (popular _ _ _); [done|]. unfold occurrences_of. intros [_ Hj]%filter_In. by apply str_eqb_eq.
Qed.

Lemma scan_row_sound alo ahi i blo bhi js j2len newj2len best l' best' :
  (alo <= i < ahi)%nat -> (forall j, In j js -> nth j b [] = nth i a []) -> row_lengths alo i blo bhi j2len ->
  row_lengths alo (S i) blo bhi newj2len -> same_lines best -> block_within alo ahi blo bhi best ->
  scan_row i blo bhi js j2len newj2len best = (l', best') ->
  row_lengths alo (S i) blo bhi l' /\ same_lines best' /\ block_within alo ahi blo bhi best'.
Proof.
  intros Hi. revert newj2len best. induction js as [|j js IH]; intros newj2len best Hjs Hold Hnew Hb Hw; cbn [scan_row].
  { intros [= <- <-]. done. }
  destruct (Nat.ltb_spec j blo); [apply IH; auto with datatypes|].
  destruct (Nat.leb_spec bhi j); [by intros [= <- <-]|].
  set (k := S (match j with O => 0%nat | S j' => length_at j' j2len end)).
  assert (Hk : (1 <= k /\ alo + k <= S i /\ blo + k <= S j)%nat /\ forall t, (t < k)%nat -> nth (i - t) a [] = nth (j - t) b []).
  { assert (Hj : nth j b [] = nth i a []) by (apply Hjs; by left). unfold k. destruct j as [|j'].
    { split; [lia|]. intros t Ht. assert (t = 0%nat) as -> by lia. by rewrite !Nat.sub_0_r. }
    destruct (Nat.eq_dec (length_at j' j2len) 0%nat) as [E|E].
    { rewrite E. split; [lia|]. intros t Ht. assert (t = 0%nat) as -> by lia. by rewrite !Nat.sub_0_r. }
    apply length_at_in, Hold in E as (E1 & E2). split; [lia|]. intros [|t] Ht; [by rewrite !Nat.sub_0_r|].
    rewrite (E2 t) by lia. f_equal; lia. }
  destruct Hk as [Hk1 Hk2]. apply IH; auto with datatypes.
  - intros j0 k0 [[= <- <-]|Hin]; [|by apply Hnew]. split; [lia|]. intros t Ht. rewrite <- (Hk2 t Ht). f_equal; lia.
  - destruct (Nat.ltb_spec (mt_size best) k); [|done]. intros t Ht. cbn [mt_a mt_b mt_size] in *.
    replace (S i - k + t)%nat with (i - (k - S t))%nat by lia. replace (S j - k + t)%nat with (j - (k - S t))%nat by lia.
    apply Hk2. lia.
  - destruct (Nat.ltb_spec (mt_size best) k); [|done]. unfold block_within. cbn [mt_a mt_b mt_size]. lia.
Qed.

Lemma scan_rows_sound alo ahi blo bhi n i j2len best :
  (alo <= i)%nat -> (i + n <= ahi)%nat -> row_lengths alo i blo bhi j2len -> same_lines best -> block_within alo ahi blo bhi best ->
  let m := scan_rows autojunk a b (seq i n) blo bhi j2len best in same_lines m /\ block_within alo ahi blo bhi m.
Proof.
  revert i j2len best. induction n as [|n IH]; intros i j2len best Hi Hn Hl Hb Hw; cbn [seq scan_rows]; [done|].
  destruct (scan_row _ _ _ _ _ _ _) as [l' best'] eqn:E.
  apply (scan_row_sound alo ahi) in E as (E1 & E2 & E3); try done; [by apply IH; [lia|lia|..]|lia|].
  intros j Hj. by apply b2j_line in Hj.
Qed.

Lemma extend_left_sound fuel alo ahi blo bhi m :
  same_lines m -> block_within alo ahi blo bhi m ->
  same_lines (extend_left a b fuel alo blo m) /\ block_within alo ahi blo bhi (extend_left a b fuel alo blo m).
Proof.
  revert m. induction fuel as [|fuel IH]; intros [i j k] Hm Hw; cbn [extend_left mt_a mt_b]; [done|].
  destruct i as [|i]; [done|]. destruct j as [|j]; [done|].
  destruct (_ && _) eqn:E; [|done]. apply andb_true_iff in E as [[E1 E2]%andb_true_iff E3%str_eqb_eq].
  apply Nat.leb_le in E1, E2. unfold block_within in Hw. cbn in Hw. apply IH; [|unfold block_within; cbn; lia].
  intros [|t] Ht; cbn [mt_a mt_b mt_size] in *; [by rewrite !Nat.add_0_r|]. specialize (Hm t). cbn in Hm.
  replace (i + S t)%nat with (S (i + t)) by lia. replace (j + S t)%nat with (S (j + t)) by lia. apply Hm. lia.
Qed.

Lemma extend_right_sound fuel alo ahi blo bhi m :
  same_lines m -> block_within alo ahi blo bhi m ->
  same_lines (extend_right a b fuel ahi bhi m) /\ block_within alo ahi blo bhi (extend_right a b fuel ahi bhi m).
Proof.
  revert m. induction fuel as [|fuel IH]; intros [i j k] Hm Hw; cbn [extend_right mt_a mt_b mt_size]; [done|].
  destruct (_ && _) eqn:E; [|done]. apply andb_true_iff in E as [[E1 E2]%andb_true_iff E3%str_eqb_eq].
  apply Nat.ltb_lt in E1, E2. unfold block_within in Hw. cbn in Hw. apply IH; [|unfold block_within; cbn; lia].
  intros t Ht. cbn [mt_a mt_b mt_size] in *. destruct (Nat.eq_dec t k) as [->|]; [done|]. apply Hm. cbn. lia.
Qed.

Lemma longest_match_sound alo ahi blo bhi :
  (alo <= ahi)%nat -> (blo <= bhi)%nat ->
  let m := find_longest_match autojunk a b alo ahi blo bhi in same_lines m /\ block_within alo ahi blo bhi m.
Proof.
  intros Ha Hb. unfold find_longest_match. cbn zeta.
  assert (H0 : let m := scan_rows autojunk a b (seq alo (ahi - alo)) blo bhi [] {| mt_a := alo; mt_b := blo; mt_size := 0 |} in
               same_lines m /\ block_within alo ahi blo bhi m).
  { apply scan_rows_sound; [lia|lia|by intros ? ?| |]; [intros t Ht; cbn in Ht; lia|unfold block_within; cbn; lia]. }
  destruct H0 as [H1 H2]. apply (extend_left_sound (length a)) in H2 as [H3 H4]; [|done]. by apply extend_right_sound.
Qed.

(** Blocks in order, from one point of both sides to another. *)
Fixpoint blocks_between (i j : nat) (l : list match_block) (ahi bhi : nat) : Prop :=
  match l with
  | [] => (i <= ahi /\ j <= bhi)%nat
  | m :: l' => (i <= mt_a m /\ j <= mt_b m)%nat /\ same_lines m /\ blocks_between (mt_a m + mt_size m) (mt_b m + mt_size m) l' ahi bhi
  end.

Lemma blocks_between_earlier i j i' j' l ahi bhi :
  (i' <= i)%nat -> (j' <= j)%nat -> blocks_between i j l ahi bhi -> blocks_between i' j' l ahi bhi.
Proof. intros Hi Hj. destruct l as [|m l]; cbn; [lia|]. intros (? & ? & ?). split; [lia|done]. Qed.

Lemma blocks_between_app i j l ai bj l' ahi bhi :
  blocks_between i j l ai bj -> blocks_between ai bj l' ahi bhi -> blocks_between i j (l ++ l') ahi bhi.
Proof.
  revert i j. induction l as [|m l IH]; intros i j; cbn; [intros [? ?]; by apply blocks_between_earlier|].
  intros (? & ? & ?) ?. split; [done|]. split; [done|]. by apply IH.
Qed.

Lemma matching_blocks_between fuel alo ahi blo bhi :
  (alo <= ahi)%nat -> (blo <= bhi)%nat -> blocks_between alo blo (matching_blocks autojunk a b fuel alo ahi blo bhi) ahi bhi.
Proof.
  revert alo ahi blo bhi. induction fuel as [|fuel IH]; intros alo ahi blo bhi Ha Hb; cbn [matching_blocks]; [done|].
  destruct (longest_match_sound alo ahi blo bhi Ha Hb) as [Hs Hw]. cbn zeta in Hs, Hw.
  set (m := find_longest_match autojunk a b alo ahi blo bhi) in *. unfold block_within in Hw.
  destruct (Nat.eqb _ _); [by split|].
  apply (blocks_between_app _ _ _ (mt_a m) (mt_b m)).
  - destruct (_ && _); [apply IH; lia|cbn; lia].
  - cbn [blocks_between]. split; [lia|]. split; [done|]. destruct (_ && _); [apply IH; lia|cbn; lia].
Qed.

Lemma all_blocks_between :
  blocks_between 0 0 (get_matching_blocks autojunk a b) (length a) (length b).
Proof.
  unfold get_matching_blocks. apply (blocks_between_app _ _ _ (length a) (length b)); [apply matching_blocks_between; lia|].
  cbn. split; [lia|]. split; [|lia]. intros t Ht. cbn in Ht. lia.
Qed.
End Blocks.

(** ** What the touched lines are *)

Section Touched.
Context (a b : list str).

Lemma blocks_end i j blocks ahi bhi : blocks_between a b i j blocks ahi bhi -> (i <= ahi /\ j <= bhi)%nat.
Proof. revert i j. induction blocks as [|m l IH]; cbn; [done|]. intros i j ((? & ?) & _ & Hr). apply IH in Hr. lia. Qed.

Lemma opcodes_step i j m blocks :
  flat_map opcode_lines (opcodes_from i j (m :: blocks)) =
  map (fun k => Z.of_nat k + 1) (if (j <? mt_b m)%nat then seq j (mt_b m - j) else [])
  ++ flat_map opcode_lines (opcodes_from (mt_a m + mt_size m) (mt_b m + mt_size m) blocks).
Proof.
  cbn [opcodes_from]. rewrite !flat_map_app. f_equal; [|by destruct (Nat.eqb _ _)].
  unfold gap_tag. destruct (i <? mt_a m)%nat, (j <? mt_b m)%nat; cbn; by rewrite ?app_nil_r.
Qed.

(** Touched lines lie behind the point they start from, in order, and inside the file. *)
Lemma opcode_lines_bounds i j blocks bhi ahi :
  blocks_between a b i j blocks ahi bhi ->
  Forall (fun z => Z.of_nat j < z <= Z.of_nat bhi) (flat_map opcode_lines (opcodes_from i j blocks)) /\
  StronglySorted Z.lt (flat_map opcode_lines (opcodes_from i j blocks)).
Proof.
  revert i j. induction blocks as [|m blocks IH]; intros i j; [by repeat constructor|].
  cbn [blocks_between]. intros ((Hi & Hj) & _ & Hb). specialize (IH _ _ Hb) as [IH1 IH2]. rewrite opcodes_step.
  destruct (blocks_end _ _ _ _ _ Hb) as [_ Hm].
  set (gap := map _ _). assert (Hgap : Forall (fun z => Z.of_nat j < z <= Z.of_nat (mt_b m)) gap /\ StronglySorted Z.lt gap).
  { unfold gap. destruct (Nat.ltb_spec j (mt_b m)) as [Hlt|]; [|by repeat constructor]. split.
    - apply Forall_forall. intros z Hz. apply list_elem_of_In, in_map_iff in Hz as (k & <- & Hk%in_seq). lia.
    - generalize j (mt_b m - j)%nat. intros s n. revert s. induction n as [|n IHn]; intros s; cbn; constructor; [apply IHn|].
      apply Forall_forall. intros z Hz. apply list_elem_of_In, in_map_iff in Hz as (k & <- & Hk%in_seq). lia. }
  destruct Hgap as [G1 G2]. split.
  - apply Forall_app. split; eapply Forall_impl; try eassumption; cbn; intros; lia.
  - clear Hb. induction G2 as [|z l Hl IHl Hz]; cbn; [done|]. apply Forall_cons in G1 as [? ?]. constructor; [by apply IHl|].
    apply Forall_app. split; [done|]. eapply Forall_impl; [exact IH1|]. cbn. lia.
Qed.

Lemma touched_mem z l : existsb (Z.eqb z) l = true <-> In z l.
Proof. rewrite existsb_exists. split; [intros (x & Hx & <-%Z.eqb_eq); done|]. intros Hz. exists z. by rewrite Z.eqb_refl. Qed.

(** The lines of [b] from [j] on that no opcode touches. *)
Definition left_alone (touched : list Z) (ks : list nat) : list str :=
  flat_map (fun k => if existsb (Z.eqb (Z.of_nat k + 1)) touched then [] else [nth k b []]) ks.

Lemma left_alone_cons touched k ks :
  left_alone touched (k :: ks) = (if existsb (Z.eqb (Z.of_nat k + 1)) touched then [] else [nth k b []]) ++ left_alone touched ks.
Proof. done. Qed.

Lemma left_alone_app touched ks ks' : left_alone touched (ks ++ ks') = left_alone touched ks ++ left_alone touched ks'.
Proof. apply flat_map_app. Qed.

Lemma left_alone_ext touched touched' ks :
  (forall k, In k ks -> In (Z.of_nat k + 1) touched <-> In (Z.of_nat k + 1) touched') ->
  left_alone touched ks = left_alone touched' ks.
Proof.
  induction ks as [|k ks IH]; intros He; [done|]. rewrite ?left_alone_cons. cbn [map]. rewrite IH by (intros k' Hk; apply He; by right).
  destruct (existsb _ touched) eqn:E1, (existsb _ touched') eqn:E2; try done; exfalso.
  - apply touched_mem in E1. apply He in E1; [|by left]. apply touched_mem in E1. congruence.
  - apply touched_mem in E2. apply He in E2; [|by left]. apply touched_mem in E2. congruence.
Qed.

Lemma left_alone_none touched ks : (forall k, In k ks -> In (Z.of_nat k + 1) touched) -> left_alone touched ks = [].
Proof.
  induction ks as [|k ks IH]; intros He; [done|]. rewrite ?left_alone_cons. cbn [map]. rewrite IH by (intros k' Hk; apply He; by right).
  rewrite (proj2 (touched_mem _ _)); [done|]. apply He. by left.
Qed.

Lemma left_alone_all touched ks :
  (forall k, In k ks -> ~ In (Z.of_nat k + 1) touched) -> left_alone touched ks = map (fun k => nth k b []) ks.
Proof.
  induction ks as [|k ks IH]; intros He; [done|]. rewrite ?left_alone_cons. cbn [map]. rewrite IH by (intros k' Hk; apply He; by right).
  destruct (existsb _ _) eqn:E; [|done]. apply touched_mem in E. destruct (He k); [by left|done].
Qed.

Lemma seq_split j n k : (k <= n)%nat -> seq j n = seq j k ++ seq (j + k) (n - k).
Proof. intros Hk. rewrite <- seq_app. f_equal. lia. Qed.

Lemma map_seq_shift {A} (f : nat -> A) i n : map f (seq i n) = map (fun t => f (i + t)%nat) (seq 0 n).
Proof.
  revert f i. induction n as [|n IH]; intros f i; [done|]. cbn [seq map]. rewrite Nat.add_0_r. f_equal.
  rewrite (IH f (S i)), (IH (fun t => f (i + t)%nat) 1%nat). apply map_ext. intros t. f_equal. lia.
Qed.

Lemma block_nth (l : list str) i n : (i + n <= length l)%nat -> map (fun k => nth k l []) (seq i n) = take n (drop i l).
Proof.
  revert i. induction n as [|n IH]; intros i Hn; [by rewrite take_0|]. cbn [seq map]. rewrite IH by lia.
  destruct (lookup_lt_is_Some_2 l i) as [x Hx]; [lia|]. rewrite (drop_S _ _ _ Hx). cbn. f_equal.
  rewrite <- (nth_lookup_Some _ _ [] _ Hx). done.
Qed.

Lemma untouched_sublist i j blocks :
  blocks_between a b i j blocks (length a) (length b) ->
  (exists blocks' m, blocks = blocks' ++ [m] /\ mt_b m = length b) ->
  sublist (left_alone (flat_map opcode_lines (opcodes_from i j blocks)) (seq j (length b - j))) (drop i a).
Proof.
  revert i j. induction blocks as [|m blocks IH]; intros i j Hb (blocks' & last & Hblocks & Hlast).
  { by apply app_cons_not_nil in Hblocks. }
  cbn [blocks_between] in Hb. destruct Hb as ((Hi & Hj) & Hs & Hb).
  destruct (blocks_end _ _ _ _ _ Hb) as [Ha' Hb'].
  destruct (opcode_lines_bounds _ _ _ _ _ Hb) as [Hlow _]. rewrite Forall_forall in Hlow.
  rewrite opcodes_step. set (rest := flat_map opcode_lines (opcodes_from _ _ blocks)) in *.
  set (gap := map _ _). assert (Hgap : forall k, In (Z.of_nat k + 1) gap <-> (j <= k < mt_b m)%nat).
  { intros k. unfold gap. rewrite in_map_iff. destruct (Nat.ltb_spec j (mt_b m)).
    - split; [intros (x & Hx & Hin%in_seq); lia|]. intros Hk. exists k. split; [done|]. apply in_seq. lia.
    - split; [by intros (x & _ & [])|lia]. }
  assert (Hrest : forall k, In (Z.of_nat k + 1) rest -> (mt_b m + mt_size m <= k)%nat).
  { intros k Hk. apply list_elem_of_In, Hlow in Hk. lia. }
  rewrite (seq_split j (length b - j) (mt_b m - j)) by lia. rewrite left_alone_app, left_alone_none.
  2:{ intros k Hk%in_seq. apply in_app_iff. left. apply Hgap. lia. }
  replace (j + (mt_b m - j))%nat with (mt_b m) by lia. cbn [app].
  rewrite (seq_split (mt_b m) _ (mt_size m)) by lia. rewrite left_alone_app, left_alone_all.
  2:{ intros k Hk%in_seq [Hin|Hin]%in_app_iff; [apply Hgap in Hin|apply Hrest in Hin]; lia. }
  rewrite (left_alone_ext _ rest).
  2:{ intros k Hk%in_seq. rewrite in_app_iff. split; [|by right]. intros [Hin%Hgap|]; [lia|done]. }
  assert (Hdrop : drop i a = take (mt_a m - i) (drop i a) ++ take (mt_size m) (drop (mt_a m) a) ++ drop (mt_a m + mt_size m) a).
  { rewrite <- (drop_drop a (mt_size m) (mt_a m)), take_drop.
    replace (drop (mt_a m) a) with (drop (mt_a m - i) (drop i a)) by (rewrite drop_drop; f_equal; lia). by rewrite take_drop. }
  rewrite Hdrop. apply sublist_inserts_l, sublist_app.
  - rewrite <- block_nth by lia. match goal with |- sublist ?x ?y => replace x with y; [reflexivity|] end.
    rewrite (map_seq_shift _ (mt_a m)), (map_seq_shift _ (mt_b m)). apply map_ext_in. intros t Ht%in_seq. apply Hs. lia.
  - destruct blocks as [|m' l].
    { replace (length b - j - (mt_b m - j) - mt_size m)%nat with 0%nat; [apply sublist_nil_l|].
      destruct blocks' as [|x l]; injection Hblocks; [intros ->; lia|intros Hnil _; by apply app_cons_not_nil in Hnil]. }
    replace (length b - j - (mt_b m - j) - mt_size m)%nat with (length b - (mt_b m + mt_size m))%nat by lia.
    apply IH; [done|]. destruct blocks' as [|x blocks']; injection Hblocks; [done|]. intros -> _. by exists blocks', last.
Qed.
End Touched.

(** The lines of a text that no opcode touches. *)
Definition untouched_lines (old new : str) : list str :=
  left_alone (splitlines new) (touched_lines old new) (seq 0 (length (splitlines new))).

(** C8: The changed lines of a file cover the change.  Their numbers are strictly
    increasing and lie in the new file, and the lines that are not among them are lines of
    the old file in their old order: whatever a candidate adds or replaces is counted,
    also where lines occur many times. *)
Theorem touched_lines_cover_change old new :
  StronglySorted Z.lt (touched_lines old new) /\
  Forall (fun line => 1 <= line <= Z.of_nat (length (splitlines new))) (touched_lines old new) /\
  sublist (untouched_lines old new) (splitlines old).
Proof.
  pose proof (all_blocks_between false (splitlines old) (splitlines new)) as Hb.
  destruct (opcode_lines_bounds _ _ _ _ _ _ _ Hb) as [H1 H2]. split; [exact H2|]. split.
  - eapply Forall_impl; [exact H1|]. cbn. lia.
  - unfold untouched_lines, touched_lines, get_opcodes. rewrite <- (drop_0 (splitlines old)) at 2.
    rewrite <- (Nat.sub_0_r (length (splitlines new))). apply untouched_sublist; [exact Hb|].
    unfold get_matching_blocks. by eexists _, _.
Qed.

(** ** What the classification keeps *)

Lemma classify_spec executed_known excluded_known lines executed missed seen :
  classify executed_known excluded_known lines = (executed, missed, seen) ->
  (forall line, In line executed <-> In line lines /\ line_in line excluded_known = false /\ line_in line executed_known = true) /\
  (forall line, In line missed <-> In line lines /\ (line_in line excluded_known = true \/ line_in line executed_known = false)) /\
  Permutation (executed ++ missed) lines.
Proof.
  unfold classify. intros [= <- <- _]. split; [|split].
  - intros line. rewrite filter_In, andb_true_iff, negb_true_iff. tauto.
  - intros line. rewrite filter_In, orb_true_iff, negb_true_iff. tauto.
  - induction lines as [|x l IH]; [done|]. cbn [List.filter].
    destruct (line_in x excluded_known), (line_in x executed_known); cbn [negb andb orb app];
      try (by apply Permutation_cons); rewrite <- Permutation_middle; by apply Permutation_cons.
Qed.

Lemma filter_sorted f (l : list Z) : StronglySorted Z.lt l -> StronglySorted Z.lt (List.filter f l).
Proof.
  induction 1 as [|x l Hl IH Hx]; cbn; [constructor|]. destruct (f x); [|done]. constructor; [done|].
  apply Forall_forall. intros y Hy. apply list_elem_of_In, filter_In in Hy as [Hy _].
  rewrite Forall_forall in Hx. by apply Hx, list_elem_of_In.
Qed.

Section Accounting.
Context (py_parse : str -> option pynode) (py_tokens : str -> option (list token)).

(** One row of the evidence. *)
Record coverage_row := { cr_path : str; cr_detail : dict; cr_executed_lines : list Z; cr_missed_lines : list Z }.

(** The report names the line as executed and does not exclude it. *)
Definition executed_directly (files : list (str * dict)) (path : str) (line : Z) : Prop :=
  exists entry executed_known excluded_known, path_get path files = Some entry /\
    entry_lines entry "executed_lines" = Ok executed_known /\ line_in line executed_known = true /\
    entry_lines entry "excluded_lines" = Ok excluded_known /\ line_in line excluded_known = false.

(** Every changed code line is executed or missed, and executed only on direct evidence. *)
Record row_accounted (lines_map : list (str * list Z)) (new_contents : list (str * option str)) (files : list (str * dict))
    (row : coverage_row) : Prop := {
  ra_detail : dget (cr_detail row) (u "executed") = int_list (cr_executed_lines row) /\
              dget (cr_detail row) (u "missed") = int_list (cr_missed_lines row);
  ra_lines : exists touched code_lines, path_get (cr_path row) lines_map = Some touched /\
    match path_get (cr_path row) new_contents with
    | Some (Some text) => _source_code_lines py_parse py_tokens text = Ok code_lines
    | _ => code_lines = touched
    end /\
    Permutation (cr_executed_lines row ++ cr_missed_lines row) (List.filter (fun line => existsb (Z.eqb line) code_lines) touched) /\
    (StronglySorted Z.lt touched -> StronglySorted Z.lt (cr_executed_lines row) /\ StronglySorted Z.lt (cr_missed_lines row));
  ra_executed : forall line, In line (cr_executed_lines row) -> executed_directly files (cr_path row) line;
  ra_shape : exists note, cr_detail row = dict_of ([("executed", int_list (cr_executed_lines row)); ("missed", int_list (cr_missed_lines row))] ++ note)
               /\ (note = [] \/ exists text, note = [("note"%string, VStr text)] /\ text <> []) }.

Lemma file_detail_accounted lines_map new_contents files path touched detail executed missed :
  path_get path lines_map = Some touched ->
  file_detail py_parse py_tokens (match path_get path new_contents with Some new => new | None => None end) touched
    (path_get path files) = Ok (detail, executed, missed) ->
  row_accounted lines_map new_contents files
    {| cr_path := path; cr_detail := detail; cr_executed_lines := executed; cr_missed_lines := missed |}.
Proof.
  intros Ht (([ex ms] & seen) & Hc & [= <- <- <-])%rbind_ok. unfold _classify_touched_lines in Hc.
  apply rbind_ok in Hc as (known & Hk & Hc). apply rbind_ok in Hc as (excluded & He & Hc).
  apply rbind_ok in Hc as (code & Hcode & Hc). apply Ok_inj in Hc. pose proof Hc as Hsplit. apply classify_spec in Hc as (H1 & H2 & H3).
  split; cbn [cr_path cr_detail cr_executed_lines cr_missed_lines].
  - split; [by destruct (path_get path files), seen|by destruct (path_get path files), seen].
  - exists touched, code. split; [done|]. split; [|split; [done|]].
    + destruct (path_get path new_contents) as [[text|]|]; [done|by apply Ok_inj in Hcode..].
    + intros Hs. unfold classify in Hsplit. injection Hsplit as <- <- _. split; by repeat apply filter_sorted.
  - intros line Hl. apply H1 in Hl as (_ & Hx & Hy). destruct (path_get path files) as [entry|] eqn:Ee.
    + by exists entry, known, excluded.
    + cbn in Hk. apply Ok_inj in Hk as <-. done.
  - destruct (path_get path files); [destruct seen|]; eexists; (split; [reflexivity|]); [right|by left|right];
      eexists; (split; [reflexivity|]); discriminate.
Qed.

Lemma per_file_ok lines_map new_contents files items details executed total :
  (forall path touched, In (path, touched) items -> path_get path lines_map = Some touched) ->
  per_file py_parse py_tokens new_contents files items = Ok (details, executed, total) ->
  exists rows, details = map (fun row => (VStr (cr_path row), VDict (cr_detail row))) rows /\
    map cr_path rows = map fst items /\ Forall (row_accounted lines_map new_contents files) rows /\
    executed = sumZ (fun row => Z.of_nat (length (cr_executed_lines row))) rows /\
    total = sumZ (fun row => Z.of_nat (length (cr_executed_lines row)) + Z.of_nat (length (cr_missed_lines row))) rows.
Proof.
  revert details executed total. induction items as [|[path touched] items IH]; intros details executed total Hin; cbn [per_file].
  { intros [= <- <- <-]. exists []. by repeat split. }
  intros (([detail ex] & ms) & Hd & Hr)%rbind_ok. apply rbind_ok in Hr as (((ds & e) & t) & Hr & [= <- <- <-]).
  apply IH in Hr as (rows & -> & Hp & Hf & -> & ->); [|intros p x Hx; apply Hin; by right].
  eexists ({| cr_path := path; cr_detail := detail; cr_executed_lines := ex; cr_missed_lines := ms |} :: rows).
  split; [done|]. split; [cbn; by rewrite Hp|]. split; [|done].
  constructor; [|done]. eapply file_detail_accounted; [|exact Hd]. apply Hin. by left.
Qed.

Lemma sorted_items_in {A} (m : list (str * A)) path x : In (path, x) (sorted_items m) -> path_get path m = Some x.
Proof.
  unfold sorted_items. intros (p & _ & Hp)%in_flat_map. destruct (path_get p m) eqn:E; [|done].
  by destruct Hp as [[= <- <-]|[]].
Qed.

Lemma path_get_some {A} (m : list (str * A)) path : In path (map fst m) -> exists x, path_get path m = Some x.
Proof.
  induction m as [|[p x] m IH]; [done|]. cbn. intros Hp. destruct (str_eqb_eq p path) as [_ He].
  destruct (p =s? path); [by exists x|]. apply IH. destruct Hp as [Hp|Hp]; [|done]. specialize (He Hp). done.
Qed.

Lemma sorted_items_paths {A} (m : list (str * A)) : map fst (sorted_items m) = sort_str (map fst m).
Proof.
  unfold sorted_items.
  assert (Hall : forall l, (forall p, In p l -> In p (map fst m)) ->
    map fst (flat_map (fun path => match path_get path m with Some x => [(path, x)] | None => [] end) l) = l).
  { induction l as [|p l IH]; intros Hl; [done|]. cbn. destruct (path_get_some m p) as [x ->]; [apply Hl; by left|].
    cbn. f_equal. apply IH. intros q Hq. apply Hl. by right. }
  apply Hall. intros p Hp. unfold sort_str in Hp. by apply py_sort_In in Hp.
Qed.

(** C9: Changed-line coverage is accounted line by line.  In measured evidence the files
    are exactly those with changed lines, sorted; of each, every changed line that the
    tokens of the new text make a code line is executed or missed and no other line is
    either; a line counts as executed only when the report of its file lists it and does
    not exclude it; and the totals are the sums over the files. *)
Theorem changed_lines_accounted lines_map non_py new_contents files d :
  measured_evidence py_parse py_tokens lines_map non_py new_contents files = Ok d ->
  dget d (u "measured") = VBool true /\
  exists rows executed total,
    dget d (u "files") = VDict (map (fun row => (VStr (cr_path row), VDict (cr_detail row))) rows) /\
    map cr_path rows = sort_str (map fst lines_map) /\ Forall (row_accounted lines_map new_contents files) rows /\
    dget d (u "executed") = VInt executed /\ dget d (u "total") = VInt total /\
    dget d (u "percent") = VFloat (percent_of executed total) /\
    executed = sumZ (fun row => Z.of_nat (length (cr_executed_lines row))) rows /\
    total = sumZ (fun row => Z.of_nat (length (cr_executed_lines row)) + Z.of_nat (length (cr_missed_lines row))) rows.
Proof.
  intros (((details & e) & t) & Hp & <-%Ok_inj)%rbind_ok. split; [done|].
  eapply per_file_ok in Hp as (rows & -> & Hpaths & Hf & He & Ht); [|intros; by apply sorted_items_in].
  exists rows, e, t. rewrite <- sorted_items_paths. by repeat split.
Qed.
End Accounting.

(** ** What the record verifier reads *)

Section Conforms.
Context `{UnicodeDB}.

Lemma path_set_keys {A} path (x : A) m p : In p (map fst (path_set path x m)) <-> p = path \/ In p (map fst m).
Proof.
  induction m as [|[q y] m IH]; cbn; [naive_solver|]. destruct (q =s? path) eqn:E; cbn; [apply str_eqb_eq in E; naive_solver|].
  rewrite IH. naive_solver.
Qed.

Lemma path_set_NoDup {A} path (x : A) m : NoDup (map fst m) -> NoDup (map fst (path_set path x m)).
Proof.
  induction m as [|[q y] m IH]; cbn; [intros _; apply NoDup_singleton|].
  intros [Hq Hm]%NoDup_cons. destruct (q =s? path) eqn:E; cbn; [by apply NoDup_cons|].
  apply NoDup_cons. split; [|by apply IH]. rewrite list_elem_of_In, path_set_keys, <- list_elem_of_In.
  intros [->|Hin]; [by rewrite str_eqb_refl in E|done].
Qed.

Lemma set_item_path_set path body blocks : set_item path body blocks = path_set path body blocks.
Proof. induction blocks as [|[p b] l IH]; cbn; [done|]. by rewrite IH. Qed.

Lemma parsed_blocks_NoDup text : NoDup (map fst (parse_file_blocks text)).
Proof.
  unfold parse_file_blocks, collect_files. generalize (finditer _BLOCK_RE text). intros gs.
  assert (Hg : forall blocks, NoDup (map fst blocks) ->
    NoDup (map fst (fold_left (fun bs g => set_item (strip (group_text "path" g)) (group_text "body" g) bs) gs blocks))).
  { induction gs as [|g gs IH]; intros blocks Hb; [done|]. cbn. apply IH. rewrite set_item_path_set. by apply path_set_NoDup. }
  apply Hg. constructor.
Qed.

Lemma of_blocks_keys blocks : map fst (of_blocks blocks) = map fst blocks.
Proof. unfold of_blocks. rewrite map_map. apply map_ext. by intros []. Qed.

Lemma content_map_NoDup open_path repo candidate file_blocks m :
  (forall blocks, file_blocks = Some blocks -> NoDup (map fst blocks)) ->
  content_map open_path repo candidate file_blocks = Ok m -> NoDup (map fst m).
Proof.
  intros Hb. unfold content_map. destruct file_blocks as [blocks|]; [intros <-%Ok_inj; rewrite of_blocks_keys; by apply Hb|].
  unfold _new_content_map. assert (Hn : NoDup (map fst (of_blocks (parse_file_blocks candidate)))) by
    (rewrite of_blocks_keys; apply parsed_blocks_NoDup).
  revert Hn. generalize (of_blocks (parse_file_blocks candidate)). induction (parse_patch_blocks candidate) as [|pb l IH]; intros out Hn; cbn.
  - by intros <-%Ok_inj.
  - intros (base & _ & Hr)%rbind_ok. eapply IH; [|exact Hr]. by apply path_set_NoDup.
Qed.

Lemma changed_lines_of_ok open_path repo m l :
  changed_lines_of open_path repo m = Ok l ->
  sublist (map fst l) (map fst m) /\
  Forall (fun e => is_safe_relpath (fst e) = true /\ StronglySorted Z.lt (snd e) /\ Forall (fun z => 1 <= z) (snd e)) l.
Proof.
  revert l. induction m as [|[path new] m IH]; intros l; cbn [changed_lines_of]; [by intros <-%Ok_inj|].
  destruct new as [text|]; [|intros [? ?]%IH; by split; [apply sublist_cons|]].
  destruct (is_safe_relpath path) eqn:Es; [|intros [? ?]%IH; by split; [apply sublist_cons|]].
  intros (old & _ & (rest & Hr & Hl)%rbind_ok)%rbind_ok. apply Ok_inj in Hl. apply IH in Hr as [H1 H2].
  set (touched := touched_lines _ text) in *.
  destruct (touched_lines_cover_change (match old with Some o => o | None => [] end) text) as (T1 & T2 & _).
  fold touched in T1, T2. destruct touched as [|z zs] eqn:Et; subst l; [by split; [apply sublist_cons|]|].
  split; [by apply sublist_skip|]. constructor; [|done]. cbn. split; [done|]. split; [done|].
  eapply Forall_impl; [exact T2|]. cbn. lia.
Qed.

Lemma coverage_path_ok path : is_safe_relpath path = true -> Coverage._coverage_path (VStr path) (is_python_path path) = true.
Proof.
  intros (Hn & Hb & Hs & Hp)%portable_parts. unfold Coverage._coverage_path. rewrite Hs, orb_false_r.
  destruct path as [|c l]; [done|]. cbn [orb].
  destruct (char_in ch_bslash (c :: l)) eqn:Eb; [by apply char_in_In in Eb|].
  destruct (existsb _ (path_parts (c :: l))) eqn:Ed.
  { apply existsb_exists in Ed as (part & Hin & Hd). rewrite List.Forall_forall in Hp. destruct (Hp part Hin) as [Hq _].
    unfold dot_segment in Hq. congruence. }
  unfold is_python_path. by destruct (ends_with _ _).
Qed.

Lemma int_items_list l : Coverage.int_items (map VInt l) = Some l.
Proof. induction l as [|z l IH]; cbn; [done|]. by rewrite IH. Qed.

Lemma increasing_lines l : StronglySorted Z.lt l -> Coverage.strictly_increasing l = true.
Proof.
  induction 1 as [|x l Hl IH Hx]; [done|]. destruct l as [|y l]; [done|]. cbn -[Coverage.strictly_increasing].
  change (Coverage.strictly_increasing (x :: y :: l)) with ((x <? y) && Coverage.strictly_increasing (y :: l)).
  rewrite IH, andb_true_r. apply Z.ltb_lt. by apply Forall_cons in Hx as [? _].
Qed.

Lemma line_array_ok l : StronglySorted Z.lt l -> Forall (fun z => 1 <= z) l -> Coverage._positive_line_array (int_list l) = Some l.
Proof.
  intros Hs Hp. unfold Coverage._positive_line_array, int_list. rewrite int_items_list, (increasing_lines _ Hs), andb_true_r.
  destruct (forallb _ l) eqn:E; [done|]. apply forallb_false in E as (z & Hz & E). rewrite Forall_forall in Hp.
  apply Z.ltb_ge in E. apply list_elem_of_In, Hp in Hz. lia.
Qed.

Lemma sorted_NoDup l : StronglySorted Z.lt l -> NoDup l.
Proof.
  induction 1 as [|x l Hl IH Hx]; [constructor|]. apply NoDup_cons. split; [|done]. intros Hin.
  rewrite Forall_forall in Hx. apply Hx in Hin. lia.
Qed.

Lemma path_get_in {A} (m : list (str * A)) path x : path_get path m = Some x -> In (path, x) m.
Proof.
  induction m as [|[p y] m IH]; cbn; [done|]. destruct (p =s? path) eqn:E; [|by right; apply IH].
  apply str_eqb_eq in E as ->. intros [= <-]. by left.
Qed.

Context (py_parse : str -> option pynode) (py_tokens : str -> option (list token)).

(** A row over sorted lines of a safe Python file has no error. *)
Lemma row_projection lines_map new_contents files row :
  row_accounted py_parse py_tokens lines_map new_contents files row ->
  is_safe_relpath (cr_path row) = true -> is_python_path (cr_path row) = true ->
  (forall touched, path_get (cr_path row) lines_map = Some touched -> StronglySorted Z.lt touched /\ Forall (fun z => 1 <= z) touched) ->
  Coverage._file_detail_projection (VStr (cr_path row)) (VDict (cr_detail row)) =
    ([], Z.of_nat (length (cr_executed_lines row)),
     Z.of_nat (length (cr_executed_lines row)) + Z.of_nat (length (cr_missed_lines row))).
Proof.
  intros [Hd (touched & code & Ht & _ & Hperm & Hsorted) _ (note & Hshape & Hnote)] Hsafe Hpy Hlines.
  destruct (Hlines _ Ht) as [Hts Htp]. destruct (Hsorted Hts) as [Hes Hms].
  assert (Hpos : Forall (fun z => 1 <= z) (cr_executed_lines row ++ cr_missed_lines row)).
  { rewrite Hperm. apply Forall_forall. intros z Hz. apply list_elem_of_In, filter_In in Hz as [Hz _].
    rewrite Forall_forall in Htp. by apply Htp, list_elem_of_In. }
  apply Forall_app in Hpos as [Hpe Hpm]. unfold Coverage._file_detail_projection.
  pose proof (coverage_path_ok _ Hsafe) as Hc. rewrite Hpy in Hc. rewrite Hc. cbn [negb].
  assert (Hn : NoDup (cr_executed_lines row ++ cr_missed_lines row)).
  { rewrite Hperm. by apply sorted_NoDup, filter_sorted. }
  destruct Hd as [-> ->]. rewrite !line_array_ok by done.
  assert (Hkeys : has_non_str_key (cr_detail row) = false /\
    keys_eq (cr_detail row) Coverage._FILE_DETAIL_KEYS || keys_eq (cr_detail row) Coverage._FILE_DETAIL_KEYS_WITH_NOTE = true /\
    dmem (u "note") (cr_detail row) && negb (is_nonempty_str (dget (cr_detail row) (u "note"))) = false).
  { rewrite Hshape. destruct Hnote as [->|(text & -> & Hx)]; [by vm_compute|]. split; [done|]. split; [done|].
    change (dget _ (u "note")) with (VStr text). by destruct text. }
  destruct Hkeys as (-> & -> & ->).
  destruct (existsb _ (cr_executed_lines row)) eqn:Eo; [|done]. exfalso.
  apply existsb_exists in Eo as (z & Hz & (z' & Hz' & ->%Z.eqb_eq)%existsb_exists).
  apply NoDup_app in Hn as (_ & Hdis & _). by apply (Hdis z'); apply list_elem_of_In.
Qed.

Lemma rows_projection rows e t :
  Forall (fun row => Coverage._file_detail_projection (VStr (cr_path row)) (VDict (cr_detail row)) =
    ([], Z.of_nat (length (cr_executed_lines row)),
     Z.of_nat (length (cr_executed_lines row)) + Z.of_nat (length (cr_missed_lines row)))) rows ->
  Coverage._files_loop (map (fun row => (VStr (cr_path row), VDict (cr_detail row))) rows) [] e t =
    ([], e + sumZ (fun row => Z.of_nat (length (cr_executed_lines row))) rows,
     t + sumZ (fun row => Z.of_nat (length (cr_executed_lines row)) + Z.of_nat (length (cr_missed_lines row))) rows).
Proof.
  revert e t. induction rows as [|row rows IH]; intros e t; cbn [map Coverage._files_loop]; [by rewrite !Z.add_0_r|].
  intros [Hr Hrs]%Forall_cons. rewrite Hr. cbn [app]. rewrite IH by done. cbn [sumZ fold_right]. by rewrite !Z.add_assoc.
Qed.

(** The shape of evidence that the type projection of the verifier asks for; its range and
    consistency checks of [percent] recompute [percent_of]. *)
Definition coverage_conforms (d : dict) : Prop :=
  has_non_str_key d = false /\
  match dget d (u "measured") with
  | VBool true => exists executed total,
      keys_eq d Coverage._MEASURED_COVERAGE_KEYS = true /\ dget d (u "executed") = VInt executed /\ dget d (u "total") = VInt total /\
      0 <= executed <= total /\ Coverage._measured_file_projection (dget d (u "files")) = ([], executed, total) /\
      Coverage._measured_path_and_caveat_errors d = [] /\
      forall percent, Coverage.calculated_percent executed total = Ok percent -> dget d (u "percent") = VFloat percent
  | VBool false => Coverage._unmeasured_errors d = []
  | _ => False
  end.

Lemma sorted_paths_unique l : NoDup l -> Coverage.sorted_unique (sort_str l) = true.
Proof.
  intros Hn. unfold Coverage.sorted_unique. rewrite decide_True; [done|].
  rewrite sorted_set_id; [done|apply sort_str_Sorted|by apply sort_str_NoDup].
Qed.

Lemma strings_of_paths l : v_is_string_list (w_strs l) = true /\ v_strings (w_strs l) = l.
Proof. unfold w_strs. induction l as [|x l IH]; [done|]. cbn in *. destruct IH as [IH1 IH2]. split; [done|]. by rewrite IH2. Qed.

Lemma percent_recomputed e t percent : Coverage.calculated_percent e t = Ok percent -> percent = percent_of e t.
Proof.
  unfold Coverage.calculated_percent, percent_of. destruct (t =? 0); [by intros <-%Ok_inj|]. cbn zeta.
  destruct (is_finite (float_of_Z e)); [|done]. destruct (is_finite (float_of_Z t)); [|done]. by intros <-%Ok_inj.
Qed.

Lemma unmeasured_conforms non_py note :
  NoDup non_py -> Forall (fun p => p <> []) non_py -> note <> [] -> coverage_conforms (unmeasured (sort_str non_py) note).
Proof.
  intros Hn Hp Hnote. split; [done|]. set (d := unmeasured _ note). change (dget d (u "measured")) with (VBool false). cbv match.
  unfold Coverage._unmeasured_errors. cbn zeta.
  change (keys_eq d Coverage._UNMEASURED_COVERAGE_KEYS) with false. change (keys_eq d Coverage._UNMEASURED_COVERAGE_DETAIL_KEYS) with true.
  change (dget d (u "unmeasured_files")) with (w_strs (sort_str non_py)). change (dget d (u "note")) with (VStr note).
  change (dget d (u "caveat")) with (VStr EXECUTED_IS_NOT_ASSERTED).
  destruct (strings_of_paths (sort_str non_py)) as [-> ->]. rewrite sorted_paths_unique by done.
  assert (Hall : forallb (fun p => is_nonempty_str (VStr p)) (sort_str non_py) = true).
  { apply forallb_forall. intros p Hin. unfold sort_str in Hin. apply py_sort_In in Hin. rewrite Forall_forall in Hp.
    apply list_elem_of_In, Hp in Hin. by destruct p. }
  rewrite Hall. by destruct note.
Qed.

Lemma measured_conforms lines_map non_py new_contents files d :
  measured_evidence py_parse py_tokens lines_map (sort_str non_py) new_contents files = Ok d ->
  NoDup non_py -> Forall (fun p => is_safe_relpath p = true /\ is_python_path p = false) non_py ->
  Forall (fun e => (is_safe_relpath (fst e) = true /\ StronglySorted Z.lt (snd e) /\ Forall (fun z => 1 <= z) (snd e)) /\
                   is_python_path (fst e) = true) lines_map ->
  coverage_conforms d.
Proof.
  intros Hm Hn Hnon Hlines. pose proof Hm as (Hmeasured & rows & e & t & Hf & Hpaths & Hrows & He & Ht & Hpct & Hes & Hts)%changed_lines_accounted.
  assert (Hd : exists percent details, d = dict_of [
    ("measured", VBool true); ("percent", VFloat percent); ("executed", VInt e); ("total", VInt t); ("files", VDict details);
    ("unmeasured_files", w_strs (sort_str non_py)); ("caveat", VStr EXECUTED_IS_NOT_ASSERTED)]%string).
  { revert He Ht. apply rbind_ok in Hm as (((details & e') & t') & _ & <-%Ok_inj). intros [= <-] [= <-]. by eexists _, _. }
  destruct Hd as (percent & details & ->). split; [done|].
  assert (Hfiles : Coverage._measured_file_projection (VDict (map (fun row => (VStr (cr_path row), VDict (cr_detail row))) rows)) = ([], e, t)).
  { cbn [Coverage._measured_file_projection]. rewrite rows_projection, !Z.add_0_l, Hes, Hts; [done|].
    assert (Hin : forall row, In row rows -> exists touched, path_get (cr_path row) lines_map = Some touched /\ In (cr_path row, touched) lines_map).
    { intros row Hr. apply (in_map cr_path) in Hr. rewrite Hpaths in Hr. unfold sort_str in Hr. apply py_sort_In in Hr.
      destruct (path_get_some _ _ Hr) as [x Hx]. exists x. split; [done|]. by apply path_get_in. }
    apply Forall_forall. intros row Hr. rewrite Forall_forall in Hrows. pose proof (Hrows _ Hr) as Hacc.
    destruct (Hin row) as (touched & Hg & Hl); [by apply list_elem_of_In|]. rewrite Forall_forall in Hlines.
    apply list_elem_of_In, Hlines in Hl as ((Hs & Hsorted & Hpos) & Hpy). cbn [fst snd] in *.
    eapply row_projection; [exact Hacc|done|done|]. rewrite Hg. by intros ? [= <-]. }
  cbn [dict_of map fst snd] in Hf |- *. injection Hf as ->. injection Hpct as ->.
  exists e, t. split; [done|]. split; [done|]. split; [done|]. split; [subst e t|split; [done|split]].
  - clear. split; (induction rows as [|row rows IH]; [done|]); unfold sumZ in *; cbn [fold_right] in *; lia.
  - unfold Coverage._measured_path_and_caveat_errors. cbn zeta. match goal with |- context [dget ?x (u "unmeasured_files")] => set (d := x) end.
    change (dget d (u "unmeasured_files")) with (w_strs (sort_str non_py)).
    change (dget d (u "caveat")) with (VStr EXECUTED_IS_NOT_ASSERTED).
    destruct (strings_of_paths (sort_str non_py)) as [-> ->]. rewrite sorted_paths_unique by done.
    destruct (forallb _ (sort_str non_py)) eqn:E; [done|]. apply forallb_false in E as (p & Hin & E).
    unfold sort_str in Hin. apply py_sort_In in Hin. rewrite Forall_forall in Hnon.
    apply list_elem_of_In, Hnon in Hin as [Hs Hp]. pose proof (coverage_path_ok _ Hs) as Hc. rewrite Hp in Hc. congruence.
  - intros x ->%percent_recomputed. done.
Qed.
End Conforms.

(** ** What one collection rests on *)

Section Earned.
Context `{UnicodeDB} {W : Type} `{Workspace W}.
Context (python_executable : str) (restore_package_json : option str -> str -> str) (abspath : str -> str).
Context (open_path : str -> opened).
Context (py_parse : str -> option pynode) (py_tokens : str -> option (list token)).
Context (q : coverage_request).

Abbreviation history := (list (op W * reply W)).
Abbreviation B A := (M (op W) (reply W) unit (stop str) A).
Abbreviation any := (fun (_ : history) (_ : op W) => True).
(** An early return has a note. *)
Definition noted (h : history) (s : unit) (o : option (stop str)) : Prop := forall note, o = Some (Refused note) -> note <> [].

Ltac gives := by intros ? [= <-].

Lemma triple_watched {A} notes a (read : reply W -> option A) s h (D : _ -> _ -> A -> Prop) :
  (forall f, notes f <> []) -> (forall r x, read r = Some x -> D (h ++ [(a, r)]) s x) ->
  triple any (watched notes a read) s h D noted.
Proof.
  intros Hn Hr. split; [done|]. intros r. specialize (Hr r). cbn. destruct (read r); [by apply Hr|].
  destruct (run_fault_of r); intros ? [= <-]. apply Hn.
Qed.

Lemma notes_given : (forall f, setup_note f <> []) /\ (forall f, suite_note f <> []) /\ (forall f, report_note f <> []).
Proof. by repeat split; intros []. Qed.

Lemma triple_asked {A} a (read : reply W -> option A) s h (D : _ -> _ -> A -> Prop) :
  (forall r x, read r = Some x -> D (h ++ [(a, r)]) s x) -> triple any (request a read) s h D noted.
Proof. intros Hr. apply triple_request; [done|]. intros r. specialize (Hr r). destruct (read r); [by apply Hr|by intros ? [=]]. Qed.

Lemma triple_or_note {A} prefix (taken : str + A) s h (D : _ -> _ -> A -> Prop) :
  u prefix <> [] -> (forall x, taken = inr x -> D h s x) -> triple any (or_note prefix taken : B A) s h D noted.
Proof.
  intros Hp HD. destruct taken; [|by apply triple_vret, HD]. intros ? [= <-] Hn. by apply app_eq_nil in Hn as [? _].
Qed.

Lemma snapshot_reply (r : reply W) (o : path_states) : as_snapshot r = Some (inr o) -> r = RSnapshot o.
Proof. destruct r; by intros [= ->]. Qed.

Lemma captured_spec root unverifiable s h :
  u unverifiable <> [] -> triple any (captured_harness q root unverifiable : B _) s h
    (fun h' _ o => since h h' (CaptureHarness root (cq_harness_inputs q), RSnapshot o)) noted.
Proof.
  intros Hu. apply triple_vbind, triple_asked. intros r x Hr. apply triple_or_note; [done|]. intros o ->.
  rewrite (snapshot_reply _ _ Hr). apply since_last.
Qed.

(** The copy has the harness inputs of the base at a point since another. *)
Definition harness_seen (copy : str) (trusted : path_states) (h h' : history) : Prop :=
  exists observed, since h h' (CaptureHarness copy (cq_harness_inputs q), RSnapshot observed) /\
    harness_input_snapshot_changes trusted observed = [].

Lemma harness_seen_prefix copy trusted h h' h'' : h' `prefix_of` h'' -> harness_seen copy trusted h h' -> harness_seen copy trusted h h''.
Proof. intros Hp (o & Ho & Hc). exists o. split; [by eapply since_prefix|done]. Qed.

Lemma harness_kept_spec copy trusted unverifiable changed s h :
  u unverifiable <> [] -> u changed <> [] ->
  triple any (harness_kept q copy trusted unverifiable changed : B _) s h (fun h' _ _ => harness_seen copy trusted h h') noted.
Proof.
  intros Hu Hc. unfold harness_kept. eapply triple_seq; [by apply captured_spec|done|]. intros h' s' o _ Ho.
  destruct (harness_input_snapshot_changes trusted o) eqn:E; [|intros ? [= <-] Hn; by apply app_eq_nil in Hn as [? _]]. apply triple_vret. by exists o.
Qed.

Ltac appended := rewrite <- !app_assoc; cbn [app]; eexists; split; [reflexivity|];
  rewrite !elem_of_cons; tauto.

(** The copy of the base with the edits and the deletions of the candidate. *)
Definition candidate_applied (copy : str) (h h' : history) : Prop :=
  exists w w1 w2, since h h' (CopyTree (cq_repo_path q) copy, RTree w) /\
    materialize_candidate_edits (fun a b r => apply_patch a b r 1) restore_package_json w
      (match structured_edits q with Some l => l | None => parse_file_blocks (cq_candidate q) end)
      (match structured_edits q with Some _ => [] | None => parse_patch_blocks (cq_candidate q) end) = (w1, None) /\
    deleted_tree (cq_deleted q) w1 = (w2, None) /\ since h h' (TreeWritten w2, RUnit).

Lemma copy_applied_spec copy s h :
  triple any (apply_to_copy restore_package_json q copy : B _) s h (fun h' _ _ => candidate_applied copy h h') noted.
Proof.
  unfold apply_to_copy. apply triple_vbind, triple_asked. intros r w Hr.
  destruct (materialize_candidate_edits _ _ _ _ _) as [w1 error] eqn:Em.
  apply triple_vbind, triple_asked. intros r1 [] H1. destruct error; [gives|].
  destruct (deleted_tree _ _) as [w2 error] eqn:Ed. apply triple_vbind, triple_asked. intros r2 [] H2. destruct error; [gives|].
  apply triple_vret. destruct r; try done. injection Hr as ->. destruct r2; try done.
  exists w, w1, w2. split; [appended|]. split; [exact Em|]. split; [exact Ed|appended].
Qed.

(** A configured setup ended with success and left the judged tree and the harness. *)
Definition setup_replayed (copy : str) (trusted : path_states) (environment : list (str * str)) (h h' : history) : Prop :=
  forall w l, cq_setup_command q = Some (w :: l) -> exists before after command p,
    since h h' (CaptureFidelity copy (cq_setup_output_globs q) None, RSnapshot before) /\
    since h h' (RunHost SetupPhase (bounded_run q command copy environment (cq_timeout q)), RProcess p) /\ ps_returncode p = 0 /\
    since h h' (CaptureFidelity copy (cq_setup_output_globs q) (Some before), RSnapshot after) /\
    setup_fidelity_changes before after = [] /\ harness_seen copy trusted h h'.

Lemma triple_fidelity a s h (D : _ -> _ -> _ -> Prop) :
  (forall o, D (h ++ [(a, RSnapshot o)]) s o) ->
  triple any (let! taken := watched setup_note a as_snapshot in
              or_note "the coverage setup fidelity check failed: " taken : B _) s h D noted.
Proof.
  intros HD. apply triple_vbind, triple_watched; [apply notes_given|]. intros r x Hr. apply triple_or_note; [done|]. intros o ->.
  rewrite (snapshot_reply _ _ Hr). apply HD.
Qed.

Lemma replay_spec copy environment words s h :
  triple any (_run_setup_for_coverage q copy environment words : B _) s h (fun h' _ _ => exists before after command p,
    since h h' (CaptureFidelity copy (cq_setup_output_globs q) None, RSnapshot before) /\
    since h h' (RunHost SetupPhase (bounded_run q command copy environment (cq_timeout q)), RProcess p) /\ ps_returncode p = 0 /\
    since h h' (CaptureFidelity copy (cq_setup_output_globs q) (Some before), RSnapshot after) /\
    setup_fidelity_changes before after = []) noted.
Proof.
  unfold _run_setup_for_coverage. cbn zeta. apply triple_vbind, triple_fidelity. intros before.
  apply triple_vbind, triple_watched; [apply notes_given|]. intros rc command _.
  apply triple_vbind, triple_watched; [apply notes_given|]. intros rp p Hp.
  apply triple_vbind, triple_fidelity. intros after. destruct (ps_returncode p =? 0) eqn:E0; cbn [negb]; [|gives].
  destruct (setup_fidelity_changes before after) eqn:Ec; [|gives]. apply triple_vret.
  destruct rp; try done. injection Hp as ->. exists before, after, command, p.
  split; [appended|]. split; [appended|]. split; [by apply Z.eqb_eq|]. split; [appended|done].
Qed.

(** The wrapped suite ran since a point, and passed where it has to. *)
Definition suite_covered (wrapped : list str) (copy : str) (trusted : path_states) (environment : list (str * str)) (h h' : history) : Prop :=
  exists p, since h h' (RunHost SuitePhase (bounded_run q wrapped copy environment (cq_timeout q)), RProcess p) /\
    (cq_require_passing_suite q = true -> ps_returncode p = 0) /\ harness_seen copy trusted h h'.

Lemma covered_suite_spec wrapped copy trusted environment s h :
  triple any (covered_suite q wrapped copy trusted environment : B _) s h
    (fun h' _ _ => suite_covered wrapped copy trusted environment h h') noted.
Proof.
  unfold covered_suite. apply triple_vbind, triple_watched; [apply notes_given|]. intros rp p Hp. destruct rp; try done. injection Hp as ->.
  eapply triple_seq; [by apply harness_kept_spec|done|]. intros h' s' [] Hpre Hh.
  destruct (negb _ && _) eqn:E; [gives|]. apply triple_vret. exists p. split; [by eapply since_prefix; [|apply since_last]|].
  split; [|destruct Hh as (o & Ho & Hc); exists o; split; [eapply since_later; [|exact Ho]; by eexists|done]].
  intros Hr. rewrite Hr, andb_true_r in E. by apply Z.eqb_eq, negb_false_iff.
Qed.

(** The files of a report that a successful command wrote since a point. *)
Definition report_covered (data_file cov_json copy : str) (environment : list (str * str)) (h h' : history)
    (files : list (str * dict)) : Prop :=
  exists report_command p view raw_files,
    _coverage_report_command python_executable data_file cov_json (Some (suite_command python_executable q)) = Some report_command /\
    since h h' (RunHost SuitePhase (bounded_run q report_command copy environment 60), RProcess p) /\ ps_returncode p = 0 /\
    since h h' (ReadCoverageReport cov_json, RView view) /\ _read_coverage_files view = Ok (Some raw_files) /\
    files = normalized_files abspath raw_files copy.

Lemma covered_files_spec data_file cov_json copy environment s h :
  triple any (covered_files python_executable abspath q data_file cov_json copy environment : B _) s h
    (fun h' _ files => report_covered data_file cov_json copy environment h h' files) noted.
Proof.
  unfold covered_files. destruct (_coverage_report_command _ _ _ _) as [report_command|] eqn:Ec; [|gives].
  apply triple_vbind, triple_watched; [apply notes_given|]. intros rp p Hp. destruct rp; try done. injection Hp as ->.
  destruct (ps_returncode p =? 0) eqn:E0; [|apply triple_vbind, triple_vret; gives].
  apply triple_vbind, triple_asked. intros rf [] Hf; [|gives]. cbn [negb].
  apply triple_vbind, triple_asked. intros rv view Hv. destruct rv; try done. injection Hv as ->.
  destruct (_read_coverage_files view) as [[raw_files|]|e] eqn:Er; [|gives|by intros ? [=]]. apply triple_vret.
  exists report_command, p, view, raw_files. split; [done|]. split; [appended|]. split; [by apply Z.eqb_eq|].
  split; [appended|]. by split.
Qed.

(** What the entries of a measurement stand on. *)
Record measured_in (h : history) (workdir : str) (files : list (str * dict)) : Prop := {
  mi_measured : exists wrapped trusted environment h1 h2 h3 h4,
    let copy := path_join workdir (u "repo") in
    let data_file := path_join workdir (u "judge-coverage.db") in
    _coverage_wrap python_executable (suite_command python_executable q) data_file = Some wrapped /\
    (CaptureHarness (cq_repo_path q) (cq_harness_inputs q), RSnapshot trusted) ∈ h1 /\
    candidate_applied copy [] h1 /\ harness_seen copy trusted h1 h2 /\
    (JudgeEnvironment workdir, REnvironment environment) ∈ h2 /\
    setup_replayed copy trusted environment h2 h3 /\
    h3 `prefix_of` h4 /\ suite_covered wrapped copy trusted environment h3 h4 /\
    report_covered data_file (path_join workdir (u "judge-coverage.json")) copy environment h4 h files }.

Lemma since_start (h h' : history) x : since h h' x -> since [] h' x.
Proof. apply since_later. apply prefix_nil. Qed.

Lemma candidate_applied_start copy (h h' : history) : candidate_applied copy h h' -> candidate_applied copy [] h'.
Proof.
  intros (w & w1 & w2 & A & E1 & E2 & C). exists w, w1, w2. split; [by eapply since_start|]. split; [done|]. split; [done|].
  by eapply since_start.
Qed.

Lemma measure_spec workdir h :
  triple any (measure python_executable restore_package_json abspath q workdir : B _) tt h
    (fun h' _ files => measured_in h' workdir files) noted.
Proof.
  unfold measure. cbn zeta. destruct (_coverage_wrap _ _ _) as [wrapped|] eqn:Ew; [|gives].
  eapply triple_seq; [by apply captured_spec|done|]. intros h1 s1 trusted P1 H1.
  eapply triple_seq; [apply copy_applied_spec|done|]. intros h2 s2 [] P2 H2.
  eapply triple_seq; [by apply harness_kept_spec|done|]. intros h3 s3 [] P3 H3.
  apply triple_vbind, triple_asked. intros re environment He. destruct re; try done. injection He as ->.
  set (h4 := h3 ++ _). assert (P4 : h3 `prefix_of` h4) by by eexists.
  eapply triple_seq with (E := fun h' _ _ => setup_replayed (path_join workdir (u "repo")) trusted environment h4 h'); [|done|].
  { destruct (cq_setup_command q) as [[|w l]|] eqn:Es; [by apply triple_vret; intros ? ?; rewrite Es| |by apply triple_vret; intros ? ?; rewrite Es].
    eapply triple_seq; [apply replay_spec|done|]. intros h5 s5 [] P5 (b & a & c & p & A1 & A2 & A3 & A4 & A5).
    eapply triple_mono; [|done|by apply harness_kept_spec]. intros h6 s6 [] P6 (o & Ho & Hc) w' l' _.
    exists b, a, c, p. do 2 (split; [by eapply since_prefix|]). split; [done|]. split; [by eapply since_prefix|]. split; [done|].
    exists o. split; [by eapply since_later|done]. }
  intros h5 s5 [] P5 H5. eapply triple_seq; [apply covered_suite_spec|done|]. intros h6 s6 [] P6 H6.
  eapply triple_mono; [|done|apply covered_files_spec]. intros h7 s7 files P7 H7. split.
  exists wrapped, trusted, environment, h2, h4, h5, h6. cbn zeta. split; [done|].
  split; [eapply elem_prefix; [exact P2|exact (since_in _ _ _ H1)]|]. split; [by eapply candidate_applied_start|].
  split; [by eapply harness_seen_prefix|]. split; [unfold h4; rewrite elem_of_app, list_elem_of_singleton; tauto|]. done.
Qed.

(** ** The collection *)

(** Evidence that claims a measurement. *)
Record coverage_earned (log : history) (d : dict) (workdir : str) : Prop := {
  cv_workdir : (AllocateWorkspace (u "evo_guard_cov_"), RStr workdir) ∈ log /\ gone [] log workdir;
  cv_measured : exists all_changed_lines new_contents files h, h `prefix_of` log /\
    changed_lines open_path (cq_repo_path q) (cq_candidate q) (cq_file_blocks q) = Ok all_changed_lines /\
    content_map open_path (cq_repo_path q) (cq_candidate q) (cq_file_blocks q) = Ok new_contents /\
    measured_in h workdir files /\
    measured_evidence py_parse py_tokens (List.filter (fun e => is_python_path (fst e)) all_changed_lines)
      (sort_str (map fst (List.filter (fun e => negb (is_python_path (fst e))) all_changed_lines))) new_contents files = Ok d }.

Definition claims_measurement (d : dict) : Prop := dget d (u "measured") = VBool true.

Lemma unmeasured_claims_nothing non_py note : ~ claims_measurement (unmeasured non_py note).
Proof. discriminate. Qed.

Lemma filter_keys_NoDup {A} (f : str * A -> bool) m : NoDup (map fst m) -> NoDup (map fst (List.filter f m)).
Proof.
  intros Hn. eapply sublist_NoDup; [exact Hn|]. clear Hn. induction m as [|x m IH]; cbn; [constructor|].
  destruct (f x); [by apply sublist_skip|by apply sublist_cons].
Qed.

Lemma cleanup_note_given e : _coverage_cleanup_failure_note e <> [].
Proof. unfold _coverage_cleanup_failure_note. by destruct (_ <=? _). Qed.

Lemma collect_spec :
  wp any (collect_diff_coverage python_executable restore_package_json abspath open_path py_parse py_tokens q) [] (fun log o =>
    forall d, o = inr d ->
      (claims_measurement d -> exists workdir, coverage_earned log d workdir) /\
      ((forall blocks, cq_file_blocks q = Some blocks -> NoDup (map fst blocks)) -> coverage_conforms d)).
Proof.
  unfold collect_diff_coverage. destruct (changed_lines _ _ _ _) as [all|] eqn:Eall; [|by intros ? [=]].
  destruct (content_map _ _ _ _) as [contents|] eqn:Econt; [|by intros ? [=]]. cbn zeta.
  pose proof Eall as (m & Em & Hall)%rbind_ok. rewrite Econt in Em. apply Ok_inj in Em as <-.
  apply changed_lines_of_ok in Hall as [Hsub Hall].
  assert (Hpaths : (forall blocks, cq_file_blocks q = Some blocks -> NoDup (map fst blocks)) -> NoDup (map fst all)).
  { intros Hb. eapply sublist_NoDup; [|exact Hsub]. by eapply content_map_NoDup. }
  set (others := map fst (List.filter (fun e => negb (is_python_path (fst e))) all)).
  assert (Hothers : (forall blocks, cq_file_blocks q = Some blocks -> NoDup (map fst blocks)) ->
    NoDup others /\ Forall (fun p => is_safe_relpath p = true /\ is_python_path p = false) others).
  { intros Hb. split; [by apply filter_keys_NoDup, Hpaths|]. apply Forall_forall. intros p Hp.
    apply list_elem_of_In, in_map_iff in Hp as (e & <- & [He Hn]%filter_In). rewrite Forall_forall in Hall.
    apply list_elem_of_In, Hall in He as (Hs & _). split; [done|]. by apply negb_true_iff. }
  assert (Hnone : forall note d, inr d = inr (unmeasured (sort_str others) note) :> failure + dict -> note <> [] -> forall log,
    (claims_measurement d -> exists workdir, coverage_earned log d workdir) /\
    ((forall blocks, cq_file_blocks q = Some blocks -> NoDup (map fst blocks)) -> coverage_conforms d)).
  { intros note d [= ->] Hnote log. split; [intros Hc; by apply unmeasured_claims_nothing in Hc|]. intros [Hn Hs]%Hothers.
    apply unmeasured_conforms; [done| |done]. eapply Forall_impl; [exact Hs|]. by intros [] [? _]. }
  destruct (List.filter (fun e => is_python_path (fst e)) all) as [|line lines] eqn:El; [cbn [wp]; intros d Hd; by eapply Hnone; [symmetry; exact Hd|]|].
  split; [done|]. intros r. destruct r as [| |workdir| | | | | | | | | | | | | | | | | | | |]; try by intros ? [=].
  apply wp_bind. eapply wp_mono; [|apply (measure_spec workdir)]. intros h [s en] Hp He. cbn [fst snd].
  unfold leave_coverage. apply wp_bind, remove_root_spec. intros h' o Hp' _ _ Hg. cbn [wp]. intros d Hd.
  destruct en as [files|[note|e]|]; [| |done|done].
  2:{ destruct o as [e|]; [destruct (match fl_kind e with Interrupt => true | _ => false end); [done|]|];
      (eapply Hnone; [symmetry; exact Hd|]); [apply cleanup_note_given|by apply (He note)]. }
  destruct o as [e|].
  { destruct (match fl_kind e with Interrupt => true | _ => false end); [done|].
    eapply Hnone; [symmetry; exact Hd|apply cleanup_note_given]. }
  destruct (measured_evidence _ _ _ _ _ _) as [d'|] eqn:Ed; [|done]. injection Hd as ->. split.
  - intros _. exists workdir. split.
    + split; [|eapply gone_later; [|by apply Hg]; apply prefix_nil].
      eapply elem_prefix; [exact Hp'|]. eapply elem_prefix; [exact Hp|]. by left.
    + exists all, contents, files, h. rewrite El. split; [done|]. split; [done|]. split; [done|]. split; [done|exact Ed].
  - intros [Hn Hs]%Hothers. eapply measured_conforms; [exact Ed|done|done|]. rewrite <- El. apply Forall_forall.
    intros e Hin. apply list_elem_of_In, filter_In in Hin as [Hin Hpy]. split; [|done]. rewrite Forall_forall in Hall.
    by apply Hall, list_elem_of_In.
Qed.

Lemma coverage_run_earned log d :
  exec (collect_diff_coverage python_executable restore_package_json abspath open_path py_parse py_tokens q) log (inr d) ->
  claims_measurement d -> exists workdir, coverage_earned log d workdir.
Proof. intros E. exact (proj1 (proj1 (wp_sound _ _ _ _ _ _ collect_spec E) d eq_refl)). Qed.

(** C7: Measured coverage has been earned.  When a collection reports a measurement, a copy
    of the base was made, the candidate's edits and deletions were applied to it, and the
    declared harness inputs of the base were seen unchanged after that, after a configured
    setup and after the suite; the setup ended with success and changed no judged path;
    the configured suite ran under the launcher of the judge with the limits and the
    timeout of the call, and passed where a passing suite is required; a report command
    ended with success after it and its bounded, stable report was read; the evidence is
    the account of the changed lines of the candidate over that report; and the workspace
    was removed or seen absent. *)
Theorem measured_coverage_earned log d :
  exec (collect_diff_coverage python_executable restore_package_json abspath open_path py_parse py_tokens q) log (inr d) ->
  dget d (u "measured") = VBool true -> exists workdir, coverage_earned log d workdir.
Proof. apply coverage_run_earned. Qed.

(** What is collected has the shape the record verifier demands.  For structured files
    with distinct paths, in every execution, evidence that is returned either has the
    exact keys of a measurement, per-file details without a single error of the
    verifier's projection, totals that are the sums the projection recomputes, the
    percentage it recomputes, and sorted, safe lists of files; or it is an explicit
    non-measurement with a note that the verifier accepts. *)
Theorem collected_coverage_conforms log d :
  exec (collect_diff_coverage python_executable restore_package_json abspath open_path py_parse py_tokens q) log (inr d) ->
  (forall blocks, cq_file_blocks q = Some blocks -> NoDup (map fst blocks)) -> coverage_conforms d.
Proof. intros E. exact (proj2 (proj1 (wp_sound _ _ _ _ _ _ collect_spec E) d eq_refl)). Qed.
End Earned.

