(* ===== verification/Guard.v ===== *)
(** Guard (guard.py, application/repo_judgment.py): one judgment from the raw
    invocation to the result that is reported - preparation, the checks before any
    execution, the repository judgment or the black-box judgment, and finalization. *)
From S2P Require Export Request PatchRisk RepoVerifier Finalization BlackboxFinalization PackageJson PackManifest BlackboxRun Baseline DiffCoverage.
Local Open Scope Z_scope.

(** ** The result *)

Record GuardResult := {
  gs_verdict : verdict;
  gs_passed : bool;
  gs_reason : list part;
  gs_files_changed : list str;
  gs_protected_violations : list str;
  gs_risk_level : str;
  gs_risk_score : float;
  gs_tests_passed : option Z;
  gs_tests_total : option Z;
  gs_verdict_source : option str;
  gs_diagnostics : str;
  gs_source : option str;
  gs_base_reconstruction : option str;
  gs_reason_code : reason_code;
  gs_isolation : str;
  gs_diff_coverage : option dict;
  gs_baseline : option dict;
  gs_attestation : option dict;
  gs_assurance : option dict;
  gs_test_command_ran : option bool;
  gs_execution_state : str;
  gs_execution_phase : str }.

(** [GuardResult.__post_init__]: the facts of the execution that a constructor left out. *)
Definition post_init (r : GuardResult) : GuardResult :=
  let ran := match gs_test_command_ran r with
             | Some b => b
             | None => match gs_verdict_source r with Some _ => true | None => false end
                       || bool_decide (gs_verdict r = PASS) || bool_decide (gs_verdict r = FAIL)
                       || bool_decide (gs_verdict r = TAMPERED)
             end in
  let state := if is_empty (gs_execution_state r) then
                 if ran then state_wire EXECUTION_COMPLETED
                 else if bool_decide (gs_verdict r = REJECTED) then state_wire EXECUTION_STATIC_GATE
                 else state_wire EXECUTION_NOT_STARTED
               else gs_execution_state r in
  let phase := if is_empty (gs_execution_phase r) then
                 if state =s? state_wire EXECUTION_COMPLETED then u "complete"
                 else if state =s? state_wire EXECUTION_STATIC_GATE then u "pre_gate"
                 else u "preflight"
               else gs_execution_phase r in
  {| gs_verdict := gs_verdict r; gs_passed := gs_passed r; gs_reason := gs_reason r;
     gs_files_changed := gs_files_changed r; gs_protected_violations := gs_protected_violations r;
     gs_risk_level := gs_risk_level r; gs_risk_score := gs_risk_score r; gs_tests_passed := gs_tests_passed r;
     gs_tests_total := gs_tests_total r; gs_verdict_source := gs_verdict_source r; gs_diagnostics := gs_diagnostics r;
     gs_source := gs_source r; gs_base_reconstruction := gs_base_reconstruction r; gs_reason_code := gs_reason_code r;
     gs_isolation := gs_isolation r; gs_diff_coverage := gs_diff_coverage r; gs_baseline := gs_baseline r;
     gs_attestation := gs_attestation r; gs_assurance := gs_assurance r; gs_test_command_ran := Some ran;
     gs_execution_state := state; gs_execution_phase := phase |}.

Definition exit_code (r : GuardResult) : Z := if bool_decide (gs_verdict r = PASS) then 0 else 1.

(** [round(x, 3)] for a finite float *)
Definition round3 (x : float) : float :=
  match sf_scaled x with
  | Some (a, e) =>
      let '(n, d) := if 0 <=? e then (1000 * a * 2 ^ e, 1) else (1000 * a, 2 ^ (- e)) in
      dec (round_half_even n d) 3
  | None => x
  end.

Definition opt_dict_value (d : option dict) : value := match d with Some d => VDict d | None => VNone end.
Definition opt_z_value (z : option Z) : value := match z with Some z => VInt z | None => VNone end.

(** Records that name a profile or harness inputs have the newer schema. *)
Definition result_schema_version (attestation : option dict) : str :=
  match attestation with
  | Some a => match dget a (u "effective_policy") with
              | VDict p => if dmem (u "operating_profile") p || dmem (u "harness_inputs") p
                           then V1_12.SCHEMA_VERSION else V1_11.SCHEMA_VERSION
              | _ => V1_11.SCHEMA_VERSION
              end
  | None => V1_11.SCHEMA_VERSION
  end.

(** [render] writes the parts of a reason as text. *)
Definition to_dict (render : list part -> str) (tool_version : str) (r : GuardResult) : dict := dict_of [
  ("schema_version", VStr (result_schema_version (gs_attestation r)));
  ("tool", VStr (u "evoguard"));
  ("tool_version", VStr tool_version);
  ("verdict", VStr (verdict_wire (gs_verdict r)));
  ("passed", VBool (gs_passed r));
  ("exit_code", VInt (exit_code r));
  ("reason_code", VStr (reason_wire (gs_reason_code r)));
  ("reason", VStr (render (gs_reason r)));
  ("files_changed", v_str_list (gs_files_changed r));
  ("protected_violations", v_str_list (gs_protected_violations r));
  ("risk_level", VStr (gs_risk_level r));
  ("risk_score", VFloat (round3 (gs_risk_score r)));
  ("tests_passed", opt_z_value (gs_tests_passed r));
  ("tests_total", opt_z_value (gs_tests_total r));
  ("test_command_ran", VBool (match gs_test_command_ran r with Some b => b | None => false end));
  ("execution_state", VStr (gs_execution_state r));
  ("execution_phase", VStr (gs_execution_phase r));
  ("verdict_source", v_opt_str (gs_verdict_source r));
  ("isolation", VStr (gs_isolation r));
  ("source", v_opt_str (gs_source r));
  ("base_reconstruction", v_opt_str (gs_base_reconstruction r));
  ("assurance", opt_dict_value (gs_assurance r));
  ("diff_coverage", opt_dict_value (gs_diff_coverage r));
  ("baseline", opt_dict_value (gs_baseline r));
  ("attestation", opt_dict_value (gs_attestation r));
  ("diagnostics", VStr (take 2000 (gs_diagnostics r)))].

(** The exceptions that leave [guard]. *)
Inductive guard_error :=
| NotPrepared (e : preparation_error)
| HarnessInputsRaised (e : HarnessInputPolicyError)
| HarnessInputPolicyFailed (problems : list (str * harness_problem))
| VerifierNotBuilt (e : init_error)
| VerificationRaised
| ArtifactIllTyped
| RiskRaised (e : risk_error)
| FinalizationRaised (e : gate_exn)
| BlackboxRaised (e : failure)
| CoverageRaised (e : failure)
| BaselineRaised (e : failure).

Definition mapped {E F A} (f : E -> F) (r : result E A) : result F A := match r with Ok a => Ok a | Err e => Err (f e) end.

(** The files a candidate creates or modifies. *)
Definition changed_paths (candidate : str) (file_blocks : option (list (str * str))) : list str :=
  match file_blocks with
  | Some (b :: l) => sort_str (map fst (b :: l))
  | _ => sorted_set (map fst (parse_file_blocks candidate) ++ map pb_path (parse_patch_blocks candidate))
  end.

(** The requirements of a composed suite that come with the call, not with the policy. *)
Record suite_requirements := {
  sr_suite_continuity : bool;
  sr_assert_liveness : bool;
  sr_structured_verdict : bool }.

Definition opt_command (c : option (list str)) : option command :=
  match c with Some (w :: l) => Some (CmdList (w :: l)) | _ => None end.

(** The items of a dictionary with string keys. *)
Definition str_keyed (d : dict) : list (str * value) :=
  flat_map (fun kv => match fst kv with VStr k => [(k, snd kv)] | _ => [] end) d.

Definition opt_text (s : option str) : str := match s with Some t => t | None => [] end.

Section Guard.
Context `{UnicodeDB} {W : Type} `{Workspace W}.
Context (python_executable : str) (judge_user : Z * Z) (et_fromstring : str -> option element).
Context (set_order : list str -> list str).
(** The file system of the trusted base, [os.path.abspath], the clock and the version. *)
Context (base : tree) (open_path : str -> opened) (abspath : str -> str) (now guard_version : str).
(** Whether a deletion of the external judge's copy finds an entry. *)
Context (entry_present : W -> str -> bool).
(** The parser and the tokenizer of the language. *)
Context (py_parse : str -> option pynode) (py_tokens : str -> option (list token)).

Abbreviation P A := (prog (op W) (reply W) A).

(** [_build_attestation] *)
Definition _build_attestation (candidate : str) (safe_deleted : list str) (test_command : option (list str))
    (effective_policy art : dict) (mode : str) : result gate_exn dict :=
  match utf8 candidate, effective_policy_sha256 effective_policy with
  | Some data, Some policy_sha256 =>
      Ok (build_attestation candidate safe_deleted test_command effective_policy art mode now guard_version
            (fun _ => sha256_hex data) (fun _ => policy_sha256) PACK_DIGEST_FORMAT)
  | _, _ => Err Decision.ValueError
  end.

(** ** One prepared request *)

Section Prepared.
Context (pg : PreparedGuardRequest) (requirements : suite_requirements).
Let request : GuardRequest := pg_request pg.
Let policy : EffectivePolicy := gr_policy request.
Let candidate : str := ci_text (gr_candidate request).
Let file_blocks : option (list (str * str)) := ci_file_blocks (gr_candidate request).
Let deleted : list str := ci_deleted_paths (gr_candidate request).
Let repo_path : str := gr_repository request.
Let pack_path : option str := gr_verifier_pack_path request.

(** The artifacts of an attestation when nothing was executed. *)
Definition not_run_artifacts : dict := dict_of [
  ("base_sha", v_opt_str (si_base_sha (gr_source request))); ("head_sha", v_opt_str (si_head_sha (gr_source request)));
  ("base_tree_sha", v_opt_str (si_base_tree_sha (gr_source request)));
  ("head_tree_sha", v_opt_str (si_head_tree_sha (gr_source request)));
  ("policy_id", v_opt_str (Policy.policy_id policy)); ("policy_version", v_opt_str (Policy.policy_version policy));
  ("execution_state", VStr (state_wire EXECUTION_NOT_STARTED)); ("execution_phase", VStr (u "preflight"));
  ("test_command_started", VBool false); ("delivered_isolation", VStr (u "not_run"))].

(** An error before any execution. *)
Definition not_run_result (code : reason_code) (reason : list part) (files : list str) (risk_level : str) (risk : float)
    (pack : option str) (safe_deleted : list str) (mode : str) : result guard_error GuardResult :=
  let* attestation := mapped FinalizationRaised
    (_build_attestation candidate safe_deleted (Policy.test_command policy) (pg_effective_policy pg) not_run_artifacts mode) in
  Ok (post_init {|
    gs_verdict := ERROR; gs_passed := false; gs_reason := reason; gs_files_changed := files; gs_protected_violations := [];
    gs_risk_level := risk_level; gs_risk_score := risk; gs_tests_passed := None; gs_tests_total := None;
    gs_verdict_source := None; gs_diagnostics := []; gs_source := None; gs_base_reconstruction := None;
    gs_reason_code := code; gs_isolation := u "not_run"; gs_diff_coverage := None; gs_baseline := None;
    gs_attestation := Some attestation;
    gs_assurance := Some (preflight_assurance_profile pack (state_wire EXECUTION_NOT_STARTED) (u "preflight") None None None);
    gs_test_command_ran := None; gs_execution_state := state_wire EXECUTION_NOT_STARTED;
    gs_execution_phase := u "preflight" |}).

Definition judgment_mode : str := if Policy.blackbox policy then u "blackbox" else u "repo".

Definition unsupported : list str :=
  unsupported_policy_requirements (Policy.require_demonstrated_fix policy) (Policy.min_diff_coverage policy) (Policy.blackbox policy)
    (Policy.isolation policy) (Policy.present (Policy.setup_command policy)).

Definition unsupported_result : result guard_error GuardResult :=
  not_run_result REASON_POLICY_REQUIREMENT_UNSUPPORTED
    [Txt (u "policy requirement(s) " ++ py_join (u ", ") unsupported ++ u " cannot be enforced under "
          ++ (if Policy.blackbox policy then u "the black-box judge" else u "isolation " ++ py_repr (Policy.isolation policy))
          ++ u ". Refusing to return a verdict that silently drops or ignores a requested option; select a compatible mode/policy or remove the requirement.")]
    (changed_paths candidate file_blocks) (u "low") (dec 0 0) pack_path [] judgment_mode.

Definition preflight_request : CandidatePreflightRequest :=
  {| pr_repo_path := repo_path; pr_changed_paths := changed_paths candidate file_blocks; pr_deleted_paths := deleted;
     pr_protected := Policy.protected policy; pr_allow := Policy.allow policy; pr_allow_new_tests := Policy.allow_new_tests policy;
     pr_strict_harness := Policy.strict_harness policy; pr_harness_inputs := Policy.harness_inputs policy |}.

(** ** The judgments *)

(** The constructor arguments of the verifier; the image differs for a composed suite. *)
Definition verifier_arguments (image : option str) : RepoVerifier :=
  {| vc_timeout := Policy.timeout policy; vc_mem_limit_mb := Policy.mem_limit_mb policy; vc_test_command := None;
     vc_setup_command := None; vc_protected := []; vc_allow := []; vc_allow_new_tests := false;
     vc_isolation := Policy.isolation policy; vc_docker_image := image; vc_docker_network := Policy.docker_network policy;
     vc_docker_runtime := None; vc_trust_setup_on_host := Policy.trust_setup_on_host policy;
     vc_setup_output_globs := Policy.setup_output_globs policy; vc_strict_harness := Policy.strict_harness policy;
     vc_harness_inputs := []; vc_require_suite_continuity := sr_suite_continuity requirements;
     vc_require_assert_liveness := sr_assert_liveness requirements;
     vc_require_structured_verdict := sr_structured_verdict requirements |}.

(** The problem; the composed suite of a black-box judgment runs without the pack. *)
Definition problem_of (safe_deleted : list str) (with_pack : bool) : RepoProblem :=
  {| pb_repo_path := repo_path; pb_test_command := opt_command (Policy.test_command policy);
     pb_setup_command := opt_command (Policy.setup_command policy); pb_target_files := [];
     pb_protected := Policy.protected policy; pb_allow := Policy.allow policy; pb_allow_new_tests := Policy.allow_new_tests policy;
     pb_strict_harness := Policy.strict_harness policy; pb_harness_inputs := Policy.harness_inputs policy;
     pb_deleted := safe_deleted; pb_file_blocks := Policy.nonempty file_blocks;
     pb_verifier_pack := if with_pack && Policy.present pack_path then abspath (opt_text pack_path) else [];
     pb_expect_verifier_pack_sha256 :=
       if with_pack then py_lower (opt_text (Policy.expect_verifier_pack_sha256 policy)) else [] |}.

(** One run of the verifier. *)
Definition run_verifier (image : option str) (problem : RepoProblem) : P (result guard_error VerdictResult) :=
  match init_verifier (verifier_arguments image) with
  | Err e => Ret (Err (VerifierNotBuilt e))
  | Ok v =>
      bind (verify python_executable judge_user et_fromstring (restore_judge_package_json set_order) base v candidate problem)
        (fun r => Ret (match r with Some r => Ok r | None => Err VerificationRaised end))
  end.

Definition assess_risk (pf : CandidatePreflight) : result risk_error RiskScore :=
  _risk_score_with_deletions open_path repo_path candidate file_blocks (cf_all_touched_paths pf) deleted
    (_PROTECTED_GLOBS ++ Policy.protected policy).

(** [build_repo_judgment] *)
Record RepoJudgmentOutcome := {
  rj_raw_artifact : dict;
  rj_verification_evidence : option VerificationEvidence;
  rj_diagnostics : str;
  rj_risk : RiskScore;
  rj_pipeline : VerificationPipeline }.

Definition judgment_of (pf : CandidatePreflight) (verifier_result : option VerdictResult)
  : result guard_error RepoJudgmentOutcome :=
  let raw_artifact := match verifier_result with Some r => vr_artifact r | None => [] end in
  let diagnostics := match verifier_result with Some r => vr_diagnostics r | None => [] end in
  let* evidence :=
    match verifier_result with
    | Some _ => match repo_verification_evidence_from_artifact raw_artifact (Policy.isolation policy) with
                | Ok e => Ok (Some e)
                | Err _ => Err ArtifactIllTyped
                end
    | None => Ok None
    end in
  let* risk := mapped RiskRaised (assess_risk pf) in
  let* pipeline := mapped FinalizationRaised
    (from_repo_facts (negb (is_empty (cf_all_touched_paths pf))) (cf_unsafe_paths pf) (cf_protected_violations pf)
       (match verifier_result with Some _ => true | None => false end) (vr_passed <$> verifier_result)
       (vr_score <$> verifier_result) diagnostics evidence) in
  Ok {| rj_raw_artifact := raw_artifact; rj_verification_evidence := evidence; rj_diagnostics := diagnostics;
        rj_risk := risk; rj_pipeline := pipeline |}.

Definition build_repo_judgment (pf : CandidatePreflight) : P (result guard_error RepoJudgmentOutcome) :=
  if may_execute pf then
    bind (run_verifier (Policy.docker_image policy) (problem_of (cf_safe_deleted_paths pf) true))
      (fun r => Ret (let* r := r in judgment_of pf (Some r)))
  else Ret (judgment_of pf None).

(** *** Finalization of a repository judgment *)

Definition finalization_input (pf : CandidatePreflight) (j : RepoJudgmentOutcome) : RepoFinalizationInput :=
  {| fi_pipeline := rj_pipeline j; fi_verification_evidence := rj_verification_evidence j;
     fi_raw_artifact := rj_raw_artifact j; fi_run_suite := may_execute pf; fi_repository_path := repo_path;
     fi_candidate_text := candidate; fi_safe_deleted_paths := cf_safe_deleted_paths pf;
     fi_test_command := Policy.test_command policy; fi_setup_command := Policy.setup_command policy;
     fi_setup_output_globs := Policy.setup_output_globs policy; fi_file_blocks := file_blocks;
     fi_timeout := Policy.timeout policy; fi_mem_limit_mb := Policy.mem_limit_mb policy; fi_strict_harness := Policy.strict_harness policy;
     fi_isolation := Policy.isolation policy; fi_judgment_mode := judgment_mode; fi_verifier_pack_path := pack_path;
     fi_collect_diff_coverage := gr_collect_diff_coverage request;
     fi_min_diff_coverage := NFloat <$> Policy.min_diff_coverage policy;
     fi_collect_baseline_evidence := Policy.baseline_evidence policy;
     fi_require_demonstrated_fix := Policy.require_demonstrated_fix policy;
     fi_require_report_integrity := Policy.require_report_integrity policy;
     fi_require_candidate_isolation := Policy.require_candidate_isolation policy;
     fi_effective_policy := pg_effective_policy pg; fi_base_sha := si_base_sha (gr_source request);
     fi_head_sha := si_head_sha (gr_source request); fi_base_tree_sha := si_base_tree_sha (gr_source request);
     fi_head_tree_sha := si_head_tree_sha (gr_source request); fi_policy_id := Policy.policy_id policy;
     fi_policy_version := Policy.policy_version policy; fi_harness_inputs := Policy.harness_inputs policy |}.

(** The services, with the evidence of the coverage run and of the base. *)
Definition finalization_services (coverage baseline : result gate_exn dict) : RepoFinalizationServices :=
  {| fs_coverage_collector := fun _ _ => coverage;
     fs_baseline_runner := fun _ => baseline;
     fs_attestation_builder := _build_attestation;
     fs_runtime_assurance_builder := fun iso pack setup continuity state phase started evidence =>
       Ok (assurance_profile iso pack false false false None None setup continuity state phase started evidence);
     fs_static_assurance_builder := fun pack => Ok (static_assurance_profile pack);
     fs_assurance_shortfall := assurance_shortfall;
     fs_attestation_evidence_projector := fun e => str_keyed (repo_attestation_evidence_payload e);
     fs_pack_directory_predicate := fs_isdir base |}.

Definition repo_result (pf : CandidatePreflight) (j : RepoJudgmentOutcome) (out : RepoFinalizationOutcome) : GuardResult :=
  let evidence := rj_verification_evidence j in
  post_init {|
    gs_verdict := gd_verdict (fo_decision out); gs_passed := bool_decide (gd_verdict (fo_decision out) = PASS);
    gs_reason := gd_reason (fo_decision out); gs_files_changed := cf_changed_paths pf;
    gs_protected_violations := cf_protected_violations pf; gs_risk_level := rk_level (rj_risk j);
    gs_risk_score := rk_score (rj_risk j); gs_tests_passed := evidence ≫= ve_tests_passed;
    gs_tests_total := evidence ≫= ve_tests_total; gs_verdict_source := evidence ≫= ve_verdict_source;
    gs_diagnostics := rj_diagnostics j; gs_source := None; gs_base_reconstruction := None;
    gs_reason_code := gd_reason_code (fo_decision out); gs_isolation := fo_effective_candidate_isolation out;
    gs_diff_coverage := fo_diff_coverage out; gs_baseline := fo_baseline out;
    gs_attestation := Some (fo_attestation out); gs_assurance := Some (fo_assurance out);
    gs_test_command_ran := Some (fo_test_command_started out); gs_execution_state := fo_execution_state out;
    gs_execution_phase := fo_execution_phase out |}.

(** The coverage run. *)
Definition _repo_coverage_collector (pf : CandidatePreflight) (require_passing_suite : bool) : coverage_request :=
  {| cq_repo_path := repo_path; cq_candidate := candidate; cq_deleted := cf_safe_deleted_paths pf;
     cq_test_command := Policy.test_command policy; cq_setup_command := Policy.setup_command policy;
     cq_setup_output_globs := Policy.setup_output_globs policy; cq_timeout := Policy.timeout policy;
     cq_mem_limit_mb := Policy.mem_limit_mb policy; cq_file_blocks := file_blocks;
     cq_require_passing_suite := require_passing_suite; cq_harness_inputs := Policy.harness_inputs policy |}.

Definition measured_coverage (pf : CandidatePreflight) (input : RepoFinalizationInput) : P (failure + result gate_exn dict) :=
  if coverage_asked input then
    bind (collect_diff_coverage python_executable (restore_judge_package_json set_order) abspath open_path py_parse py_tokens
            (_repo_coverage_collector pf (require_passing_suite input)))
      (fun run => Ret (match run with inl e => inl e | inr d => inr (Ok d) end))
  else Ret (inr (Err AssertionError)).

(** The run of the suite on the base, when the coverage gate has let it begin. *)
Definition _run_baseline_suite : RepoBaselineRequest :=
  {| rb_repository_path := repo_path; rb_test_command := Policy.test_command policy;
     rb_setup_command := Policy.setup_command policy; rb_setup_output_globs := Policy.setup_output_globs policy;
     rb_timeout := Policy.timeout policy; rb_mem_limit_mb := Policy.mem_limit_mb policy;
     rb_strict_harness := Policy.strict_harness policy; rb_harness_inputs := Policy.harness_inputs policy |}.

Definition baseline_reached (input : RepoFinalizationInput) (coverage : result gate_exn dict) : bool :=
  match coverage_stage input (finalization_services coverage (Err AssertionError)) (fi_pipeline input) with
  | Ok _ => baseline_asked input
  | Err _ => false
  end.

Definition baseline_evidence_run (input : RepoFinalizationInput) (coverage : result gate_exn dict)
  : P (failure + result gate_exn dict) :=
  if baseline_reached input coverage then
    bind (run_repo_baseline python_executable et_fromstring _run_baseline_suite)
      (fun run => Ret (match run with inl e => inl e | inr d => inr (Ok d) end))
  else Ret (inr (Err AssertionError)).

Definition finish_repo (pf : CandidatePreflight) (j : RepoJudgmentOutcome) (coverage baseline : result gate_exn dict)
  : result guard_error GuardResult :=
  let* out := mapped FinalizationRaised
    (finalize_repo_verification (finalization_input pf j) (finalization_services coverage baseline)) in
  Ok (repo_result pf j out).

Definition judge_repo (pf : CandidatePreflight) : P (result guard_error GuardResult) :=
  bind (build_repo_judgment pf) (fun j =>
    match j with
    | Err e => Ret (Err e)
    | Ok j =>
        let input := finalization_input pf j in
        bind (measured_coverage pf input) (fun c =>
          match c with
          | inl e => Ret (Err (CoverageRaised e))
          | inr coverage =>
              bind (baseline_evidence_run input coverage) (fun b => Ret (
                match b with
                | inl e => Err (BaselineRaised e)
                | inr baseline => finish_repo pf j coverage baseline
                end))
          end)
    end).

(** *** The black-box judgment *)

Definition blackbox_input (pf : CandidatePreflight) (pack : str) (bx : BlackboxRuntimeResult) : BlackboxFinalizationInput :=
  {| bi_runtime_result := bx; bi_blackbox_only := Policy.blackbox_only policy; bi_verifier_pack_path := pack;
     bi_candidate_text := candidate; bi_safe_deleted_paths := cf_safe_deleted_paths pf;
     bi_test_command := Policy.test_command policy; bi_effective_policy := pg_effective_policy pg;
     bi_collect_baseline_evidence := Policy.baseline_evidence policy;
     bi_collect_diff_coverage := gr_collect_diff_coverage request;
     bi_require_report_integrity := Policy.require_report_integrity policy;
     bi_require_candidate_isolation := Policy.require_candidate_isolation policy;
     bi_base_sha := si_base_sha (gr_source request); bi_head_sha := si_head_sha (gr_source request);
     bi_base_tree_sha := si_base_tree_sha (gr_source request); bi_head_tree_sha := si_head_tree_sha (gr_source request);
     bi_policy_id := Policy.policy_id policy; bi_policy_version := Policy.policy_version policy |}.

Definition blackbox_services (risk : RiskScore) (composed : result gate_exn RepoVerdictResult) : BlackboxFinalizationServices :=
  {| bs_risk_assessor := Ok (rk_level risk, rk_score risk);
     bs_composed_repo_verifier := composed;
     bs_assurance_builder := fun iso pack composed_suite required repo_state cand setup continuity state phase started evidence =>
       Ok (assurance_profile iso (Some pack) true composed_suite required (Some repo_state) (Some cand) setup continuity
             state phase started (Some evidence));
     bs_assurance_shortfall := assurance_shortfall;
     bs_attestation_builder := _build_attestation |}.

Definition blackbox_result (pf : CandidatePreflight) (out : BlackboxFinalizationOutcome) : GuardResult :=
  post_init {|
    gs_verdict := gd_verdict (bo_decision out); gs_passed := bo_passed out; gs_reason := gd_reason (bo_decision out);
    gs_files_changed := cf_changed_paths pf; gs_protected_violations := []; gs_risk_level := bo_risk_level out;
    gs_risk_score := bo_risk_score out; gs_tests_passed := bo_tests_passed out; gs_tests_total := bo_tests_total out;
    gs_verdict_source := bo_verdict_source out; gs_diagnostics := bo_diagnostics out; gs_source := None;
    gs_base_reconstruction := None; gs_reason_code := gd_reason_code (bo_decision out);
    gs_isolation := bo_effective_candidate_isolation out; gs_diff_coverage := bo_diff_coverage out;
    gs_baseline := bo_baseline out; gs_attestation := Some (bo_attestation out); gs_assurance := Some (bo_assurance out);
    gs_test_command_ran := Some (bo_test_command_started out); gs_execution_state := bo_execution_state out;
    gs_execution_phase := bo_execution_phase out |}.

(** The image of the composed suite is the one the judge resolved. *)
Definition composed_image (bx : BlackboxRuntimeResult) : option str :=
  if container_isolation (Policy.isolation policy)
  then as_opt_str (dget (match br_isolation bx with Some d => d | None => [] end) (u "image_digest"))
  else Policy.docker_image policy.

Definition finish_blackbox (pf : CandidatePreflight) (pack : str) (bx : BlackboxRuntimeResult) (risk : RiskScore)
    (composed : result gate_exn RepoVerdictResult) : result guard_error GuardResult :=
  let* out := mapped FinalizationRaised
    (finalize_blackbox_verification (blackbox_input pf pack bx) (blackbox_services risk composed)) in
  Ok (blackbox_result pf out).

(** The call of the external judge. *)
Definition blackbox_run (pf : CandidatePreflight) (pack : str) : blackbox_run_request :=
  {| bq_repo_path := repo_path; bq_candidate := candidate; bq_verifier_pack := abspath pack;
     bq_timeout := Policy.timeout policy; bq_isolation := Policy.isolation policy;
     bq_docker_image := Policy.docker_image policy; bq_docker_network := Policy.docker_network policy;
     bq_docker_runtime := None;
     bq_mem_limit_mb := Policy.mem_limit_mb policy; bq_deleted_paths := cf_safe_deleted_paths pf;
     bq_file_blocks := file_blocks;
     bq_expect_verifier_pack_sha256 := Policy.expect_verifier_pack_sha256 policy;
     bq_harness_inputs := Policy.harness_inputs policy |}.

(** The suite is composed only after a gradeable, passing pack; its verifier runs between
    the risk score and the decision. *)
Definition judge_blackbox (pf : CandidatePreflight) : P (result guard_error GuardResult) :=
  match Policy.nonempty pack_path with
  | None =>
      Ret (let* risk := mapped RiskRaised (assess_risk pf) in
           not_run_result REASON_VERIFIER_PACK_REQUIRED
             [Txt (u "--blackbox requires --verifier-pack (the judge-owned protocol tests)")] (cf_changed_paths pf)
             (rk_level risk) (rk_score risk) None (cf_safe_deleted_paths pf) (u "blackbox"))
  | Some pack =>
      bind (run_blackbox python_executable judge_user et_fromstring (restore_judge_package_json set_order) abspath entry_present
              (blackbox_run pf pack)) (fun ran =>
      match ran with
      | inl e => Ret (Err (BlackboxRaised e))
      | inr bx =>
          match assess_risk pf with
          | Err e => Ret (Err (RiskRaised e))
          | Ok risk =>
              let input := blackbox_input pf pack bx in
              if negb (bi_blackbox_only input) && gradeable input && br_passed bx then
                bind (run_verifier (composed_image bx) (problem_of (cf_safe_deleted_paths pf) false))
                  (fun r => Ret (
                     let* r := r in
                     finish_blackbox pf pack bx risk
                       (Ok {| rv_passed := vr_passed r; rv_score := vr_score r; rv_diagnostics := vr_diagnostics r;
                              rv_artifact := vr_artifact r |})))
              else Ret (finish_blackbox pf pack bx risk (Err AssertionError))
          end
      end)
  end.

(** ** The checks before the judgments *)

Definition guard_prepared : P (result guard_error GuardResult) :=
  match validate_harness_input_files base repo_path (Policy.harness_inputs policy) with
  | Err e => Ret (Err (HarnessInputsRaised e))
  | Ok (problem :: problems) => Ret (Err (HarnessInputPolicyFailed (problem :: problems)))
  | Ok [] =>
      if negb (is_empty unsupported) then Ret unsupported_result
      else
        match evaluate_candidate_preflight base preflight_request with
        | Err e => Ret (Err (HarnessInputsRaised e))
        | Ok pf => if Policy.blackbox policy && may_execute pf then judge_blackbox pf else judge_repo pf
        end
  end.
End Prepared.

Definition guard (raw : GuardRequestPreparationInput) (requirements : suite_requirements) : P (result guard_error GuardResult) :=
  match prepare_guard_request raw with
  | Err e => Ret (Err (NotPrepared e))
  | Ok pg => guard_prepared pg requirements
  end.
End Guard.
