(* ===== verification/GuardSound.v ===== *)
(** What a verdict of Guard rests on (guard.py): a PASS passed every stage between the raw
    invocation and the reported result, and a candidate that the preflight refuses is
    refused before anything runs. *)
From S2P Require Import Guard RepoVerifierEvidence RepoVerifierSound FinalizationSound BlackboxSound Effects BlackboxRunSound Baseline.
From S2P Require Export Guard.
Local Open Scope Z_scope.

Lemma mapped_ok {E F A} (f : E -> F) (r : result E A) a : mapped f r = Ok a <-> r = Ok a.
Proof. destruct r; cbn; split; by intros [=]; subst. Qed.

Section Sound.
Context `{UnicodeDB} {W : Type} `{Workspace W}.
Context (python_executable : str) (judge_user : Z * Z) (et_fromstring : str -> option element).
Context (set_order : list str -> list str).
Context (base : tree) (open_path : str -> opened) (abspath : str -> str) (now guard_version : str).
Context (entry_present : W -> str -> bool).
Context (py_parse : str -> option pynode) (py_tokens : str -> option (list token)).

Abbreviation restored := (restore_judge_package_json set_order).
Abbreviation clean_log := (judged_clean python_executable et_fromstring restored base).

(** ** The verifier *)

Lemma passing_run_clean v hypothesis p log r :
  exec (verify python_executable judge_user et_fromstring restored base v hypothesis p) log (Some r) ->
  vr_passed r = true -> clean_log v hypothesis p log.
Proof.
  intros (s & e & E & He)%verify_exec Hp. destruct e as [r'| |]; [|done|done]. injection He as ->.
  exact (proj1 (wp_sound _ _ _ _ _ _ (session_spec python_executable judge_user et_fromstring restored base v hypothesis p) E) Hp).
Qed.

Lemma run_lifecycle v hypothesis p log r k x :
  exec (verify python_executable judge_user et_fromstring restored base v hypothesis p) log (Some r) ->
  In (k, x) (lifecycle_payload (observed_lifecycle (vc_isolation v) (pack_configured p) log)) ->
  dlookup (u k) (vr_artifact r) = Some x.
Proof.
  intros (s & e & E & He)%verify_exec. destruct e as [r'| |]; [|done|done]. injection He as ->.
  apply (proj1 (wp_sound _ _ _ _ _ _ (verify_session_true python_executable judge_user et_fromstring restored base v hypothesis p) E)).
Qed.

Lemma init_isolation a v : init_verifier a = Ok v -> vc_isolation v = vc_isolation a.
Proof.
  unfold init_verifier. destruct (str_in _ _); [|done]. destruct (normalize_harness_inputs _); [|done].
  destruct (setup_output_harness_conflicts _ _) as [[]|]; [|done|done]. by intros <-%Ok_inj.
Qed.

Lemma lifecycle_state_nonempty pack setup suite pk : lc_state (lifecycle_of pack setup suite pk) <> [].
Proof. unfold lifecycle_of. cbn [lc_state]. by repeat case_if. Qed.

Lemma run_verifier_ok pg requirements image problem log r :
  exec (run_verifier python_executable judge_user et_fromstring set_order base pg requirements image problem) log (Ok r) ->
  exists v, init_verifier (verifier_arguments pg requirements image) = Ok v /\
    exec (verify python_executable judge_user et_fromstring restored base v (ci_text (gr_candidate (pg_request pg))) problem)
      log (Some r).
Proof.
  unfold run_verifier. destruct (init_verifier _) as [v|e]; [|by intros [_ [=]]%exec_ret_inv].
  intros (l1 & l2 & [r'|] & -> & E1 & E2)%exec_bind; apply exec_ret_inv in E2 as [-> [=]]. subst.
  rewrite app_nil_r. by exists v.
Qed.

(** ** The judgment of a repository *)

Abbreviation judge := (judge_repo python_executable judge_user et_fromstring set_order base open_path abspath now guard_version
  py_parse py_tokens).
Abbreviation services := (finalization_services base now guard_version).
Abbreviation coverage_run pg pf input := (measured_coverage python_executable set_order open_path abspath py_parse py_tokens pg pf input).
Abbreviation collect pg pf passing := (collect_diff_coverage python_executable restored abspath open_path py_parse py_tokens
  (_repo_coverage_collector pg pf passing)).
Abbreviation evidence_of_base pg input coverage :=
  (baseline_evidence_run python_executable et_fromstring base now guard_version pg input coverage).
Abbreviation base_run pg := (run_repo_baseline python_executable et_fromstring (_run_baseline_suite pg)).

Lemma evidence_execution artifact isolation e state started :
  repo_verification_evidence_from_artifact artifact isolation = Ok e ->
  dlookup (u "execution_state") artifact = Some (VStr state) ->
  dlookup (u "test_command_started") artifact = Some (VBool started) ->
  ex_execution_state (ve_execution e) = state /\ ex_test_command_started (ve_execution e) = started.
Proof.
  unfold repo_verification_evidence_from_artifact. cbn zeta.
  intros (outcome & _ & (source & _ & (x & Hx & He)%rbind_ok)%rbind_ok)%rbind_ok Hs Ht.
  assert (Hve : ve_execution e = x).
  { repeat (apply rbind_ok in He as (? & _ & He)). by apply Ok_inj in He as <-. }
  rewrite Hve. unfold execution_from_artifact in Hx. cbn zeta in Hx. rewrite Hs in Hx. cbn [RepoResult.text_or rbind] in Hx.
  repeat (apply rbind_ok in Hx as (? & ? & Hx)). apply Ok_inj in Hx as <-. cbn. rewrite Ht. cbn.
  done.
Qed.

Lemma judgment_of_ok pg pf vr j :
  judgment_of open_path pg pf vr = Ok j ->
  decided (decision (rj_pipeline j)) /\
  (gd_verdict (decision (rj_pipeline j)) = PASS <->
     cf_all_touched_paths pf <> [] /\ cf_unsafe_paths pf = [] /\ cf_protected_violations pf = [] /\
     evidence_clear (rj_verification_evidence j) = true /\ (vr_passed <$> vr) = Some true) /\
  forall run, vr = Some run -> exists e,
    repo_verification_evidence_from_artifact (vr_artifact run) (Policy.isolation (gr_policy (pg_request pg))) = Ok e /\
    rj_verification_evidence j = Some e.
Proof.
  unfold judgment_of. cbn zeta. intros (e & He & (risk & _ & (p & Hp%mapped_ok & <-%Ok_inj)%rbind_ok)%rbind_ok)%rbind_ok.
  cbn [rj_pipeline rj_verification_evidence]. unfold from_repo_facts in Hp. apply rbind_ok in Hp as (d & Hd & <-%Ok_inj).
  cbn [decision]. apply compose_spec in Hd as [Hdec Hiff]. split; [exact Hdec|]. rewrite Hiff, negb_true_iff.
  assert (Hne : is_empty (cf_all_touched_paths pf) = false <-> cf_all_touched_paths pf <> []) by by destruct (cf_all_touched_paths pf).
  rewrite Hne. split; [done|]. intros run ->. destruct (repo_verification_evidence_from_artifact _ _) as [e'|]; [|done].
  apply Ok_inj in He as <-. by exists e'.
Qed.

(** The evidence runs: asked for and executed, or left out. *)
Lemma measured_coverage_ok pg pf input (log : list (op W * reply W)) c :
  exec (coverage_run pg pf input) log (inr c) ->
  if coverage_asked input then exists d, c = Ok d /\ exec (collect pg pf (require_passing_suite input)) log (inr d)
  else c = Err AssertionError /\ log = [].
Proof.
  unfold measured_coverage. destruct (coverage_asked input); [|by intros [-> [= ->]]%exec_ret_inv].
  intros (k1 & k2 & [e|d] & -> & E1 & E2)%exec_bind; apply exec_ret_inv in E2 as [-> [=]]. subst. rewrite app_nil_r. by exists d.
Qed.

Lemma baseline_run_ok pg input coverage (log : list (op W * reply W)) c :
  exec (evidence_of_base pg input coverage) log (inr c) ->
  if baseline_reached base now guard_version input coverage then exists d, c = Ok d /\ exec (base_run pg) log (inr d)
  else c = Err AssertionError /\ log = [].
Proof.
  unfold baseline_evidence_run. destruct (baseline_reached _ _ _ _ _); [|by intros [-> [= ->]]%exec_ret_inv].
  intros (k1 & k2 & [e|d] & -> & E1 & E2)%exec_bind; apply exec_ret_inv in E2 as [-> [=]]. subst. rewrite app_nil_r. by exists d.
Qed.

(** A repository judgment: its verification, its coverage run and its run on the base. *)
Record judged_repo (pg : PreparedGuardRequest) (requirements : suite_requirements) (pf : CandidatePreflight)
    (r : GuardResult) (suite_log coverage_log base_log : list (op W * reply W))
    (vr : option VerdictResult) (j : RepoJudgmentOutcome) (out : RepoFinalizationOutcome) (coverage baseline : result gate_exn dict) : Prop := {
  jr_verified : if may_execute pf then exists run, vr = Some run /\
      exec (run_verifier python_executable judge_user et_fromstring set_order base pg requirements
              (Policy.docker_image (gr_policy (pg_request pg))) (problem_of abspath pg (cf_safe_deleted_paths pf) true)) suite_log (Ok run)
    else vr = None /\ suite_log = [];
  jr_judgment : judgment_of open_path pg pf vr = Ok j;
  jr_finalized : finalize_repo_verification (finalization_input pg pf j) (services coverage baseline) = Ok out;
  jr_result : r = repo_result pf j out;
  jr_coverage : if coverage_asked (finalization_input pg pf j)
    then exists d, coverage = Ok d /\ exec (collect pg pf (require_passing_suite (finalization_input pg pf j))) coverage_log (inr d)
    else coverage = Err AssertionError /\ coverage_log = [];
  jr_baseline : if baseline_reached base now guard_version (finalization_input pg pf j) coverage
    then exists d, baseline = Ok d /\ exec (base_run pg) base_log (inr d)
    else baseline = Err AssertionError /\ base_log = [] }.

Lemma judge_repo_ok pg requirements pf log r :
  exec (judge pg requirements pf) log (Ok r) ->
  exists suite_log coverage_log base_log vr j out coverage baseline, log = suite_log ++ coverage_log ++ base_log /\
    judged_repo pg requirements pf r suite_log coverage_log base_log vr j out coverage baseline.
Proof.
  unfold judge_repo. intros (l1 & l2 & j & -> & E1 & E2)%exec_bind.
  destruct j as [j|]; [|by apply exec_ret_inv in E2 as [_ [=]]]. cbn zeta in E2.
  apply exec_bind in E2 as (lc & lb & [e|coverage] & -> & Ec & E2); [by apply exec_ret_inv in E2 as [_ [=]]|].
  apply exec_bind in E2 as (lb' & ln & [e|baseline] & -> & Eb & E2); apply exec_ret_inv in E2 as [-> Hr]; [done|].
  rewrite app_nil_r. symmetry in Hr. apply rbind_ok in Hr as (out & Ho%mapped_ok & <-%Ok_inj).
  apply measured_coverage_ok in Ec. apply baseline_run_ok in Eb. unfold build_repo_judgment in E1.
  destruct (may_execute pf) eqn:Em.
  - apply exec_bind in E1 as (k1 & k2 & run & -> & E1 & E3). apply exec_ret_inv in E3 as [-> Hr]. rewrite app_nil_r.
    symmetry in Hr. apply rbind_ok in Hr as (run' & -> & Hj). exists k1, lc, lb', (Some run'), j, out, coverage, baseline.
    split; [done|]. split; try done. rewrite Em. by exists run'.
  - apply exec_ret_inv in E1 as [-> Hj]. exists [], lc, lb', None, j, out, coverage, baseline. split; [done|].
    split; try done. by rewrite Em.
Qed.

(** What a passing repository judgment stands on. *)
Definition observed_in (pg : PreparedGuardRequest) (problem : RepoProblem) (log : list (op W * reply W)) : lifecycle :=
  observed_lifecycle (Policy.isolation (gr_policy (pg_request pg))) (pack_configured problem) log.

Record repo_earned (pg : PreparedGuardRequest) (requirements : suite_requirements) (pf : CandidatePreflight)
    (log : list (op W * reply W)) (r : GuardResult) (suite_log coverage_log base_log : list (op W * reply W)) : Prop := {
  re_log : log = suite_log ++ coverage_log ++ base_log;
  re_verified : exists v,
    init_verifier (verifier_arguments pg requirements (Policy.docker_image (gr_policy (pg_request pg)))) = Ok v /\
    clean_log v (ci_text (gr_candidate (pg_request pg))) (problem_of abspath pg (cf_safe_deleted_paths pf) true) suite_log;
  re_lifecycle : let l := observed_in pg (problem_of abspath pg (cf_safe_deleted_paths pf) true) suite_log in
    gs_execution_state r = lc_state l /\ gs_test_command_ran r = Some (lc_suite_started l);
  re_coverage : forall f, Policy.isolation (gr_policy (pg_request pg)) = u "subprocess" ->
    gr_collect_diff_coverage (pg_request pg) = true -> Policy.min_diff_coverage (gr_policy (pg_request pg)) = Some f ->
    exists c, gs_diff_coverage r = Some c /\ floor_met c (NFloat f) /\ exists workdir,
      coverage_earned python_executable restored abspath open_path py_parse py_tokens (_repo_coverage_collector pg pf true)
        coverage_log c workdir;
  re_fix : Policy.isolation (gr_policy (pg_request pg)) = u "subprocess" ->
    Policy.require_demonstrated_fix (gr_policy (pg_request pg)) = true ->
    (exists b, gs_baseline r = Some b /\ dget b (u "verdict") = VStr (u "FAIL")) /\
    exists run workdir, dget run (u "verdict") = VStr (u "FAIL") /\
      base_earned python_executable et_fromstring (_run_baseline_suite pg) base_log run workdir;
  re_unmeasured : gr_collect_diff_coverage (pg_request pg) = false -> coverage_log = [];
  re_quiet : Policy.baseline_evidence (gr_policy (pg_request pg)) = false ->
    Policy.require_demonstrated_fix (gr_policy (pg_request pg)) = false -> base_log = [];
  re_assurance : gs_execution_state r = state_wire EXECUTION_COMPLETED -> exists a, gs_assurance r = Some a /\
    assurance_shortfall a (Policy.require_report_integrity (gr_policy (pg_request pg)))
      (Policy.require_candidate_isolation (gr_policy (pg_request pg))) = Ok None }.

Lemma post_init_facts r :
  gs_verdict (post_init r) = gs_verdict r /\ gs_passed (post_init r) = gs_passed r /\
  gs_diff_coverage (post_init r) = gs_diff_coverage r /\ gs_baseline (post_init r) = gs_baseline r /\
  gs_assurance (post_init r) = gs_assurance r /\ gs_reason_code (post_init r) = gs_reason_code r /\
  (gs_execution_state r <> [] -> gs_execution_state (post_init r) = gs_execution_state r).
Proof. unfold post_init. cbn. repeat (split; [done|]). intros Hn. destruct (gs_execution_state r); [by destruct Hn|done]. Qed.

(** The lifecycle that is reported is the one the log shows. *)
Lemma judge_repo_lifecycle pg requirements pf log v run j out coverage baseline :
  init_verifier (verifier_arguments pg requirements (Policy.docker_image (gr_policy (pg_request pg)))) = Ok v ->
  exec (verify python_executable judge_user et_fromstring restored base v (ci_text (gr_candidate (pg_request pg)))
          (problem_of abspath pg (cf_safe_deleted_paths pf) true)) log (Some run) ->
  judgment_of open_path pg pf (Some run) = Ok j -> may_execute pf = true ->
  finalize_repo_verification (finalization_input pg pf j) (services coverage baseline) = Ok out ->
  let l := observed_in pg (problem_of abspath pg (cf_safe_deleted_paths pf) true) log in
  fo_execution_state out = lc_state l /\ fo_test_command_started out = lc_suite_started l.
Proof.
  intros Hv Ev Hj Hm Hf l. apply judgment_of_ok in Hj as (_ & _ & He). destruct (He run eq_refl) as (e & Hev & Hje).
  apply init_isolation in Hv. cbn [vc_isolation verifier_arguments] in Hv.
  pose proof (fun k x => run_lifecycle _ _ _ _ _ k x Ev) as Hl. rewrite Hv in Hl.
  destruct (finalize_ok _ _ _ Hf) as (_ & _ & st & ph & sta & del & _ & _ & Hfacts & _ & _ & _ & -> & _ & -> & _).
  unfold execution_facts in Hfacts. cbn [fi_run_suite fi_verification_evidence finalization_input] in Hfacts.
  rewrite Hm, Hje in Hfacts. apply Ok_inj in Hfacts. injection Hfacts as <- <- <- <-.
  eapply evidence_execution; [exact Hev|apply (Hl "execution_state"%string)|apply (Hl "test_command_started"%string)]; cbn; tauto.
Qed.

Lemma judge_repo_passes pg requirements pf log r :
  exec (judge pg requirements pf) log (Ok r) -> gs_verdict r = PASS ->
  may_execute pf = true /\ gs_passed r = true /\
  exists suite_log coverage_log base_log, repo_earned pg requirements pf log r suite_log coverage_log base_log.
Proof.
  intros (ls & lc & lb & vr & j & out & coverage & baseline & -> & [Hrun Hj Hf -> Hcoverage Hbase])%judge_repo_ok Hp. pose proof Hj as (Hdec & Hiff & _)%judgment_of_ok.
  destruct (final_pass_sound _ _ _ Hf Hdec) as (_ & _ & Hpass). unfold repo_result in *.
  match goal with |- context [post_init ?x] => destruct (post_init_facts x) as (F1 & F2 & F3 & F4 & F5 & _ & F7) end.
  cbn [gs_verdict gs_passed gs_diff_coverage gs_baseline gs_assurance gs_execution_state] in *.
  rewrite F1 in Hp. pose proof Hp as Hfd. destruct (Hpass Hp) as (Heq & Hcov & Hfix & Has). rewrite Heq in Hp.
  apply Hiff in Hp as (H1 & H2 & H3 & _ & H5).
  assert (Hm : may_execute pf = true).
  { unfold may_execute. rewrite H2, H3. by destruct (cf_all_touched_paths pf). }
  rewrite Hm in Hrun. destruct Hrun as (run & -> & (v & Hv & Ev)%run_verifier_ok). split; [done|].
  destruct (judge_repo_lifecycle _ _ _ _ _ _ _ _ _ _ Hv Ev Hj Hm Hf) as [Hst Hran].
  assert (Hne : fo_execution_state out <> []) by (rewrite Hst; apply lifecycle_state_nonempty).
  split; [rewrite F2; by case_bool_decide|]. exists ls, lc, lb. split; [done|..].
  - exists v. split; [done|]. eapply passing_run_clean; [exact Ev|]. by injection H5.
  - intros l. rewrite (F7 Hne), Hst. split; [done|]. cbn. by rewrite Hran.
  - intros f Hi Hc Hmin. rewrite F3. destruct Hcov as (c & Hc1 & Hc2 & Hc3); [unfold subprocess_judge; cbn; by rewrite Hi|done|].
    assert (Hfl : floor_met c (NFloat f)) by (apply Hc2; cbn; by rewrite Hmin).
    exists c. split; [done|]. split; [done|]. cbn [fs_coverage_collector finalization_services] in Hc3.
    destruct (coverage_asked _); [|by destruct Hcoverage as [-> _]]. destruct Hcoverage as (d & -> & Ec). injection Hc3 as ->.
    assert (Hpassing : require_passing_suite (finalization_input pg pf j) = true).
    { unfold require_passing_suite. rewrite <- Heq, Hfd. cbn [fi_min_diff_coverage finalization_input]. by rewrite Hmin. }
    rewrite Hpassing in Ec. eapply coverage_run_earned; [exact Ec|]. destruct Hfl as [Hm' _]. unfold claims_measurement.
    by destruct (dget c (u "measured")) as [|[]| | | | |].
  - intros Hi Hfx. rewrite F4.
    destruct Hfix as (_ & b & run' & Hb & Hbv & Hrun & Hrv); [unfold subprocess_judge; cbn; by rewrite Hi|done|].
    cbn [fs_baseline_runner finalization_services] in Hrun. split; [by exists b|]. exists run'.
    destruct (baseline_reached _ _ _ _ _); [|by destruct Hbase as [-> _]]. destruct Hbase as (d & -> & Eb). injection Hrun as ->.
    destruct (baseline_run_earned _ _ _ _ _ Eb) as (workdir & He); [by unfold no_clean; rewrite Hrv|]. by exists workdir.
  - intros Hn. unfold coverage_asked in Hcoverage. cbn [fi_collect_diff_coverage finalization_input] in Hcoverage.
    rewrite Hn in Hcoverage. by destruct Hcoverage.
  - intros Hb Hr. unfold baseline_reached, baseline_asked in Hbase.
    cbn [fi_collect_baseline_evidence fi_require_demonstrated_fix finalization_input] in Hbase. rewrite Hb, Hr in Hbase.
    cbn [orb andb] in Hbase. by destruct (coverage_stage _ _ _); destruct Hbase.
  - intros Hs. rewrite F5. exists (fo_assurance out). split; [done|]. apply Has; [done|]. by rewrite <- Hs, (F7 Hne).
Qed.

(** A floor that is configured is measured. *)
Lemma prepared_coverage raw pg f :
  prepare_guard_request raw = Ok pg -> Policy.min_diff_coverage (gr_policy (pg_request pg)) = Some f ->
  gr_collect_diff_coverage (pg_request pg) = true.
Proof.
  unfold prepare_guard_request. cbn zeta. intros Hp Hm.
  repeat (match type of Hp with
          | (if ?b then _ else _) = Ok _ => destruct b; [|done]
          | (let* _ := _ in _) = Ok _ => apply rbind_ok in Hp as (? & ? & Hp)
          end).
  apply Ok_inj in Hp as <-. cbn [pg_request gr_policy gr_collect_diff_coverage] in *.
  match goal with h : lift_harness (build_effective_policy _ _ _ _ _ _ _ _ _ _ _ _ _ _ _ _ _ _ _ _ _ _ _ _ _ _ _) = Ok _ |- _ =>
    rename h into Hb end.
  unfold lift_harness in Hb. destruct (build_effective_policy _ _ _ _ _ _ _ _ _ _ _ _ _ _ _ _ _ _ _ _ _ _ _ _ _ _ _) as [p|] eqn:Eb; [|done].
  apply Ok_inj in Hb as <-. unfold build_effective_policy in Eb. apply rbind_ok in Eb as (l & _ & <-%Ok_inj).
  cbn in Hm. by destruct (raw_min_diff_coverage raw); try done; rewrite orb_true_r.
Qed.

(** ** The black-box judgment *)

Abbreviation judge_external := (judge_blackbox python_executable judge_user et_fromstring set_order base open_path abspath now
  guard_version entry_present).

(** What a passing black-box judgment stands on: the log of the external judge, and the
    one of the composed suite. *)
Record blackbox_earned (pg : PreparedGuardRequest) (requirements : suite_requirements) (pf : CandidatePreflight)
    (log : list (op W * reply W)) (r : GuardResult) (pack : str) (bx : BlackboxRuntimeResult)
    (judge_log suite_log : list (op W * reply W)) : Prop := {
  be_log : log = judge_log ++ suite_log;
  be_pack : Policy.nonempty (gr_verifier_pack_path (pg_request pg)) = Some pack;
  be_judge : exists workdir pack_workdir identity recorder e c h1 h2,
    external_verdict python_executable judge_user et_fromstring restored abspath entry_present (blackbox_run abspath pg pf pack)
      workdir judge_log bx pack_workdir identity recorder e c h1 h2;
  be_ran : br_ran bx = true;
  be_exercised : br_candidate_launcher_invocation_observed bx = Some true;
  be_passed : br_passed bx = true;
  be_suite : Policy.blackbox_only (gr_policy (pg_request pg)) = false -> exists v,
    init_verifier (verifier_arguments pg requirements (composed_image pg bx)) = Ok v /\
    clean_log v (ci_text (gr_candidate (pg_request pg))) (problem_of abspath pg (cf_safe_deleted_paths pf) false) suite_log }.

Lemma finish_blackbox_ok pg pf pack bx risk composed r :
  finish_blackbox now guard_version pg pf pack bx risk composed = Ok r ->
  exists out, finalize_blackbox_verification (blackbox_input pg pf pack bx) (blackbox_services now guard_version risk composed) = Ok out /\
    gs_verdict r = gd_verdict (bo_decision out) /\ gs_passed r = bo_passed out.
Proof.
  unfold finish_blackbox. intros (out & Ho%mapped_ok & <-%Ok_inj)%rbind_ok. exists out. split; [done|].
  unfold blackbox_result. match goal with |- context [post_init ?x] => destruct (post_init_facts x) as (F1 & F2 & _) end.
  by rewrite F1, F2.
Qed.

Lemma finished_passes pg pf pack bx risk composed r :
  finish_blackbox now guard_version pg pf pack bx risk composed = Ok r -> gs_verdict r = PASS ->
  gs_passed r = true /\ br_ran bx = true /\ br_candidate_launcher_invocation_observed bx = Some true /\ br_passed bx = true /\
  (Policy.blackbox_only (gr_policy (pg_request pg)) = false -> exists v, composed = Ok v /\ rv_passed v = true).
Proof.
  intros (out & Ho & Hv & Hps)%finish_blackbox_ok Hp. rewrite Hv in Hp.
  destruct (blackbox_final_pass_sound _ _ _ Ho) as (_ & Hpass & Hall). rewrite Hps, Hpass, Hp.
  destruct (Hall Hp) as (H1 & H2 & H3 & _ & H5). cbn [bi_runtime_result blackbox_input] in *.
  split; [done|]. split; [done|]. split.
  { unfold invocation_observed in H2. cbn in H2. by destruct (br_candidate_launcher_invocation_observed bx) as [[]|]. }
  split; [done|]. intros Hb. cbn [bi_blackbox_only blackbox_input] in H5. rewrite Hb in H5.
  destruct H5 as (v & Hc & Hvp & _). by exists v.
Qed.

Lemma judge_blackbox_passes pg requirements pf log r :
  exec (judge_external pg requirements pf) log (Ok r) -> gs_verdict r = PASS ->
  gs_passed r = true /\ exists pack bx lb ls, blackbox_earned pg requirements pf log r pack bx lb ls.
Proof.
  unfold judge_blackbox. destruct (Policy.nonempty (gr_verifier_pack_path (pg_request pg))) as [pack|] eqn:Epack.
  2:{ intros [-> Hr]%exec_ret_inv Hp. symmetry in Hr. apply rbind_ok in Hr as (risk & _ & Hr).
      unfold not_run_result in Hr. apply rbind_ok in Hr as (a & _ & <-%Ok_inj). done. }
  intros (lb & ls & ran & -> & Eb & E)%exec_bind Hp.
  destruct ran as [e|bx]; [by apply exec_ret_inv in E as [_ [=]]|].
  destruct (assess_risk open_path pg pf) as [risk|] eqn:Er; [|by apply exec_ret_inv in E as [_ [=]]].
  assert (Hjudge : br_ran bx = true -> exists workdir pw id rc e c h1 h2,
    external_verdict python_executable judge_user et_fromstring restored abspath entry_present (blackbox_run abspath pg pf pack)
      workdir lb bx pw id rc e c h1 h2).
  { intros Hr. destruct (wp_sound _ _ _ _ _ _ (run_blackbox_spec _ _ _ _ _ _ _) Eb) as [[_ H2] _]. by apply H2. }
  destruct (negb _ && _ && _) eqn:Ec.
  - apply exec_bind in E as (l1 & l2 & run & -> & E1 & E2). apply exec_ret_inv in E2 as [-> Hr]. rewrite app_nil_r. symmetry in Hr.
    apply rbind_ok in Hr as (run' & -> & Hr). destruct (finished_passes _ _ _ _ _ _ _ Hr Hp) as (H1 & H2 & H3 & H4 & H5).
    split; [done|]. exists pack, bx, lb, l1. split; try done; [by apply Hjudge|]. intros Hb. destruct (H5 Hb) as (v & Hv & Hvp).
    apply run_verifier_ok in E1 as (vr & Hi & Ev). exists vr. split; [done|]. eapply passing_run_clean; [exact Ev|].
    by apply Ok_inj in Hv as <-.
  - apply exec_ret_inv in E as [-> Hr]. symmetry in Hr. destruct (finished_passes _ _ _ _ _ _ _ Hr Hp) as (H1 & H2 & H3 & H4 & H5).
    split; [done|]. exists pack, bx, lb, []. split; try done; [by apply Hjudge|]. intros Hb. by destruct (H5 Hb) as (v & Hv & _).
Qed.

(** ** Guard *)

Abbreviation guard_run := (guard python_executable judge_user et_fromstring set_order base open_path abspath now guard_version
  entry_present py_parse py_tokens).

Lemma unsupported_result_error pg r : unsupported_result now guard_version pg = Ok r -> gs_verdict r = ERROR.
Proof. unfold unsupported_result, not_run_result. by intros (a & _ & <-%Ok_inj)%rbind_ok. Qed.

(** The stages before a judgment. *)
Record cleared (raw : GuardRequestPreparationInput) (pg : PreparedGuardRequest) (pf : CandidatePreflight) : Prop := {
  cl_prepared : prepare_guard_request raw = Ok pg;
  cl_harness : validate_harness_input_files base (gr_repository (pg_request pg))
                 (Policy.harness_inputs (gr_policy (pg_request pg))) = Ok [];
  cl_supported : unsupported pg = [];
  cl_preflight : evaluate_candidate_preflight base (preflight_request pg) = Ok pf }.

Lemma guard_stages raw requirements log o :
  exec (guard_run raw requirements) log o ->
  (log = [] /\ forall r, o = Ok r -> gs_verdict r = ERROR) \/
  exists pg pf, cleared raw pg pf /\
    exec (if Policy.blackbox (gr_policy (pg_request pg)) && may_execute pf then judge_external pg requirements pf
          else judge pg requirements pf) log o.
Proof.
  unfold guard. destruct (prepare_guard_request raw) as [pg|e] eqn:Ep; [|intros [-> ->]%exec_ret_inv; by left].
  unfold guard_prepared. destruct (validate_harness_input_files _ _ _) as [[|]|] eqn:Eh; [|intros [-> ->]%exec_ret_inv; by left..].
  destruct (is_empty (unsupported pg)) eqn:Eu; cbn [negb].
  2:{ intros [-> ->]%exec_ret_inv. left. split; [done|]. apply unsupported_result_error. }
  destruct (evaluate_candidate_preflight _ _) as [pf|e] eqn:Ef; [|intros [-> ->]%exec_ret_inv; by left].
  intros E. right. exists pg, pf. split; [|done]. split; try done. by destruct (unsupported pg).
Qed.

(** With every requirement supported, a floor or a fix is judged by the suite that measures it. *)
Lemma supported_requirements pg :
  unsupported pg = [] ->
  (Policy.min_diff_coverage (gr_policy (pg_request pg)) <> None \/
   Policy.require_demonstrated_fix (gr_policy (pg_request pg)) = true) ->
  Policy.blackbox (gr_policy (pg_request pg)) = false /\ Policy.isolation (gr_policy (pg_request pg)) = u "subprocess".
Proof.
  unfold unsupported, unsupported_policy_requirements. intros (H1 & (H2 & _)%app_nil)%app_nil Hr.
  assert (Hb : Policy.blackbox (gr_policy (pg_request pg))
               || negb (Policy.isolation (gr_policy (pg_request pg)) =s? u "subprocess") = false).
  { destruct Hr as [Hr|Hr].
    - destruct (Policy.min_diff_coverage _); [|done]. cbn [andb] in H2. by destruct (_ || _).
    - rewrite Hr in H1. cbn [andb] in H1. by destruct (_ || _). }
  apply orb_false_iff in Hb as [Hb Hi]. split; [done|]. apply negb_false_iff in Hi. by apply str_eqb_eq.
Qed.

(** C1: A PASS of Guard passed every stage, end to end.  If a run of [guard] returns a PASS,
    whatever the candidate, the repository and the replies: the invocation was valid;
    the declared harness inputs were sound in the trusted base; the selected judge can
    enforce every requirement of the policy; the candidate touches at least one path and
    none that is unsafe or protected; a repository judgment has a log that earned its
    verdict step by step and the lifecycle that is reported; a black-box judgment has a
    log in which the external judge earned its verdict on the requested pack, saw the
    candidate exercised and, unless the caller asked for the pack alone, goes on with a
    suite that earned its own; a configured coverage floor is met
    exactly by a measurement that a log of its own earned, a required fix rests on a second log in which the suite of the pristine base
    earned its failure, no assurance floor is missed in a
    completed repository run, and the process exits with zero. *)
Theorem guard_pass_earned raw requirements log r :
  exec (guard_run raw requirements) log (Ok r) -> gs_verdict r = PASS ->
  exists pg pf, cleared raw pg pf /\
    cf_all_touched_paths pf <> [] /\ cf_unsafe_paths pf = [] /\ cf_protected_violations pf = [] /\
    exit_code r = 0 /\ gs_passed r = true /\
    let policy := gr_policy (pg_request pg) in
    (if Policy.blackbox policy then exists pack bx lb ls, blackbox_earned pg requirements pf log r pack bx lb ls
     else exists ls lc lb, repo_earned pg requirements pf log r ls lc lb) /\
    (forall f, Policy.min_diff_coverage policy = Some f -> exists c, gs_diff_coverage r = Some c /\ floor_met c (NFloat f)) /\
    (Policy.require_demonstrated_fix policy = true ->
       exists b, gs_baseline r = Some b /\ dget b (u "verdict") = VStr (u "FAIL")).
Proof.
  intros [[_ He]|(pg & pf & Hcl & E)]%guard_stages Hp; [specialize (He r eq_refl); congruence|].
  exists pg, pf. split; [done|]. pose proof Hcl as [Hprep _ Hsup _].
  assert (Hj : may_execute pf = true /\ gs_passed r = true /\
    if Policy.blackbox (gr_policy (pg_request pg)) then exists pack bx lb ls, blackbox_earned pg requirements pf log r pack bx lb ls
    else exists ls lc lb, repo_earned pg requirements pf log r ls lc lb).
  { destruct (Policy.blackbox _) eqn:Eb; cbn [andb] in E; [|by apply judge_repo_passes].
    destruct (may_execute pf) eqn:Em; [by destruct (judge_blackbox_passes _ _ _ _ _ E Hp)|].
    destruct (judge_repo_passes _ _ _ _ _ E Hp) as [Hm _]. congruence. }
  destruct Hj as (Hm & Hps & Hj). unfold may_execute in Hm. apply andb_true_iff in Hm as [[H1 H2]%andb_true_iff H3].
  split; [by destruct (cf_all_touched_paths pf)|]. split; [by destruct (cf_unsafe_paths pf)|].
  split; [by destruct (cf_protected_violations pf)|]. split; [unfold exit_code; by rewrite bool_decide_true|].
  split; [done|]. split; [exact Hj|]. split.
  - intros f Hf. destruct (supported_requirements pg Hsup) as [Hb Hi]; [left; congruence|]. rewrite Hb in Hj. destruct Hj as (ls & lc & lb & Hj).
    destruct (re_coverage _ _ _ _ _ _ _ _ Hj f Hi (prepared_coverage _ _ _ Hprep Hf) Hf) as (c & Hc & Hm & _). by exists c.
  - intros Hf. destruct (supported_requirements pg Hsup) as [Hb Hi]; [by right|]. rewrite Hb in Hj. destruct Hj as (ls & lc & lb & Hj). by eapply re_fix.
Qed.

(** The decision on a candidate that is not run. *)
Lemma refused_judgment pg pf j :
  judgment_of open_path pg pf None = Ok j -> may_execute pf = false ->
  let d := decision (rj_pipeline j) in
  (gd_verdict d, gd_reason_code d) =
    (if is_empty (cf_all_touched_paths pf) then (ERROR, REASON_NO_PARSEABLE_EDITS)
     else if is_empty (cf_unsafe_paths pf) then (REJECTED, REASON_PROTECTED_HARNESS_EDIT)
     else (ERROR, REASON_UNSAFE_PATH)) /\ gd_verdict d <> PASS.
Proof.
  intros Hj Hm. pose proof Hj as (_ & Hiff & _)%judgment_of_ok. cbn zeta. split.
  - unfold judgment_of in Hj. cbn zeta in Hj. cbn [rbind] in Hj.
    apply rbind_ok in Hj as (risk & _ & (p & Hp%mapped_ok & <-%Ok_inj)%rbind_ok). cbn [rj_pipeline].
    unfold from_repo_facts in Hp. apply rbind_ok in Hp as (d & Hd & <-%Ok_inj). cbn [decision].
    unfold compose_repo_decision in Hd. cbn zeta in Hd. unfold may_execute in Hm.
    destruct (is_empty (cf_all_touched_paths pf)); cbn [negb] in *; [by apply decide_as_ok in Hd as [-> ->]|].
    destruct (is_empty (cf_unsafe_paths pf)); cbn [negb andb] in *; [|by apply decide_as_ok in Hd as [-> ->]].
    rewrite Hm in Hd. cbn [negb] in Hd. by apply decide_as_ok in Hd as [-> ->].
  - intros Hp. by apply Hiff in Hp as (_ & _ & _ & _ & ?).
Qed.

(** A candidate that is not run needs neither its coverage nor the base. *)
Lemma refused_skips_runs pg pf j :
  judgment_of open_path pg pf None = Ok j -> may_execute pf = false ->
  coverage_asked (finalization_input pg pf j) = false /\
  forall coverage, baseline_reached base now guard_version (finalization_input pg pf j) coverage = false.
Proof.
  intros Hj Hm. destruct (refused_judgment _ _ _ Hj Hm) as [Hd _].
  assert (He : rj_verification_evidence j = None).
  { unfold judgment_of in Hj. cbn zeta in Hj. cbn [rbind] in Hj. by apply rbind_ok in Hj as (? & _ & (? & _ & <-%Ok_inj)%rbind_ok). }
  assert (Hf : fst (candidate_suite_facts (finalization_input pg pf j)) = false).
  { unfold candidate_suite_facts. cbn [fi_pipeline fi_verification_evidence finalization_input fst]. rewrite He. cbn [fmap option_fmap option_map orb].
    by destruct (is_empty (cf_all_touched_paths pf)), (is_empty (cf_unsafe_paths pf)); injection Hd as -> _. }
  split.
  - unfold coverage_asked, core_completed. cbn [fi_pipeline finalization_input].
    by destruct (is_empty (cf_all_touched_paths pf)), (is_empty (cf_unsafe_paths pf)); injection Hd as -> _; rewrite andb_false_r.
  - intros coverage. unfold baseline_reached, baseline_asked. rewrite Hf, andb_false_r. by destruct (coverage_stage _ _ _).
Qed.

(** C3: What the preflight refuses never runs.  When the candidate touches nothing, an
    unsafe path or a protected one, a run of [guard] performs no operation at all,
    whatever the judge, and if it returns a result, the verdict is the one of the
    refusal: an error without edits or for an unsafe path, a rejection for a protected
    one, with the offending paths listed, a static gate as its execution and a nonzero exit. *)
Theorem refused_candidate_never_runs raw requirements log o pg pf :
  exec (guard_run raw requirements) log o -> cleared raw pg pf -> may_execute pf = false ->
  log = [] /\ forall r, o = Ok r ->
    (gs_verdict r, gs_reason_code r) =
      (if is_empty (cf_all_touched_paths pf) then (ERROR, REASON_NO_PARSEABLE_EDITS)
       else if is_empty (cf_unsafe_paths pf) then (REJECTED, REASON_PROTECTED_HARNESS_EDIT)
       else (ERROR, REASON_UNSAFE_PATH)) /\
    gs_protected_violations r = cf_protected_violations pf /\
    gs_execution_state r = state_wire EXECUTION_STATIC_GATE /\ gs_test_command_ran r = Some false /\ exit_code r = 1.
Proof.
  intros Hg [Hprep Hh Hu Hf] Hm. unfold guard in Hg. rewrite Hprep in Hg. unfold guard_prepared in Hg.
  rewrite Hh, Hu, Hf, Hm, andb_false_r in Hg. cbn [is_empty negb] in Hg.
  unfold judge_repo, build_repo_judgment in Hg. rewrite Hm in Hg. cbn [bind] in Hg.
  destruct (judgment_of _ _ _ _) as [j|] eqn:Hj; [|apply exec_ret_inv in Hg as [-> ->]; by split].
  destruct (refused_skips_runs _ _ _ Hj Hm) as [Hc Hb].
  unfold measured_coverage, baseline_evidence_run in Hg. rewrite Hc in Hg. cbn [bind] in Hg. rewrite Hb in Hg.
  apply exec_ret_inv in Hg as [-> ->].
  split; [done|]. intros r (out & Ho%mapped_ok & <-%Ok_inj)%rbind_ok.
  destruct (finalize_ok _ _ _ Ho) as (_ & _ & st & ph & sta & del & _ & _ & Hfacts & _ & _ & _ & Hst & _ & Hran & _).
  unfold execution_facts in Hfacts. cbn [fi_run_suite finalization_input] in Hfacts. rewrite Hm in Hfacts.
  apply Ok_inj in Hfacts. injection Hfacts as <- <- <- <-.
  destruct (refused_judgment _ _ _ Hj Hm) as [Hd Hn]. pose proof Hj as (Hdec & _ & _)%judgment_of_ok.
  destruct (final_pass_sound _ _ _ Ho Hdec) as (_ & Hkeep & _). specialize (Hkeep Hn). unfold repo_result, exit_code.
  match goal with |- context [post_init ?x] => destruct (post_init_facts x) as (F1 & _ & _ & _ & _ & F6 & F7) end.
  cbn [gs_verdict gs_reason_code gs_execution_state] in *. rewrite F1, F6, F7, Hst, Hkeep; [|by rewrite Hst].
  split; [exact Hd|]. split; [done|]. split; [done|]. split; [cbn; by rewrite Hran|]. by rewrite bool_decide_false.
Qed.
End Sound.
