(* ===== verification/GuardSamples.v ===== *)
(** Concrete runs of Guard (guard.py): a candidate that passes with a pack, a coverage
    floor and a demonstrated fix, a candidate that edits a test and is refused, and a change that
    ends the run with an exception; and concrete coverage runs (evidence.py). *)
From S2P Require Import Baseline Guard GuardSound RepoVerifierEvidence RepoVerifierSound MaterializeSound BlackboxRunSamples.
Local Open Scope Z_scope.

(** A call with a pack that requires covered changes and a fix, for a candidate and deletions. *)
Definition sample_raw (candidate : str) (deleted : list string) : GuardRequestPreparationInput := {|
  raw_repository_path := u "/repo"; raw_candidate_text := candidate; raw_deleted_paths := us deleted;
  raw_test_command := None; raw_setup_command := None; raw_trust_setup_on_host := false;
  raw_setup_output_globs := []; raw_protected := []; raw_allow := []; raw_allow_new_tests := false;
  raw_timeout := VInt 60; raw_mem_limit_mb := VInt 1024; raw_isolation := VStr (u "subprocess");
  raw_docker_image := None; raw_docker_network := u "none"; raw_verifier_pack_path := Some (u "/pack");
  raw_expect_verifier_pack_sha256 := None; raw_collect_diff_coverage := true; raw_min_diff_coverage := VFloat (dec 80 0);
  raw_blackbox := false; raw_blackbox_only := false; raw_require_report_integrity := None;
  raw_require_candidate_isolation := None; raw_base_sha := None; raw_head_sha := None; raw_base_tree_sha := None;
  raw_head_tree_sha := None; raw_policy_id := None; raw_policy_version := None; raw_baseline_evidence := true;
  raw_require_demonstrated_fix := true; raw_strict_harness := VBool false; raw_file_blocks := None;
  raw_operating_profile := None; raw_harness_inputs := [] |}.

Definition sample_requirements : suite_requirements :=
  {| sr_suite_continuity := false; sr_assert_liveness := false; sr_structured_verdict := true |}.

(** The reports of the judged suites and of the base. *)
Definition fix_parser (text : str) : option element :=
  match base_parser text with Some e => Some e | None => one_test_parser text end.

(** A tokenizer that sees one code token in each physical line of a text. *)
Definition line_token (k : nat) : token :=
  {| tk_kind := TkOther; tk_string := u "x"; tk_start := (Z.of_nat k + 1, 0); tk_end := (Z.of_nat k + 1, 1) |}.
Definition sample_tokens (text : str) : option (list token) :=
  Some (map line_token (seq 0 (S (length (List.filter (N.eqb 10) (removelast text)))))).

(** A report file, and the replies of a coverage run that reads it. *)
Definition report_view (text : str) : file_view :=
  let data := default [] (utf8 text) in
  let s := {| fs_regular := true; fs_link_like := false; fs_identity := (0, 0);
              fs_size := Z.of_nat (length data); fs_times := (0, 0) |} in
  {| fv_before := Some s; fv_opened := Some s; fv_content := Some data; fv_after := Some s |}.
Definition coverage_script (report : str) : list (reply sample_world) :=
  [RStr (u "/tmp/c"); RSnapshot []; RTree sample_copy; RUnit; RUnit; RSnapshot []; REnvironment [];
   RProcess (base_exit 0); RSnapshot []; RProcess (base_exit 0); RBool true; RView (report_view report); RUnit].
(** JSON with a quote for each apostrophe. *)
Definition json_text (text : string) : str := map (fun c => if N.eqb c 39 then 34%N else c) (u text).
Definition covered_report : str := json_text "{'files': {'src/app.py': {'executed_lines': [1]}}}".

(** The suite and the pack of the candidate pass, its change is covered, then the suite
    of the base fails. *)
Definition fix_script : list (reply sample_world) :=
  pack_script ++ coverage_script covered_report ++ base_script sample_copy (base_exit 1) (u "<fail>").

Definition sample_guard (open_path : str -> opened) (candidate : str) (deleted : list string)
  : prog (op sample_world) (reply sample_world) (result guard_error GuardResult) :=
  @Guard.guard ascii_unicode _ _ (u "/usr/bin/python3") (1000, 1000) fix_parser (fun l => l) sample_base open_path
    (fun p => p) (u "2025-01-01T00:00:00Z") (u "1") (fun _ _ => true) (fun _ => None) sample_tokens
    (sample_raw candidate deleted) sample_requirements.

Definition no_file (path : str) : opened := NoFile.
Definition edits_test : str := serialize_candidate_blocks [(u "tests/test_app.py", u "x = 2")].

(** The pack passes and the base fails: the run is a PASS that earned all of it. *)
Lemma guard_pass_earned_witness :
  exists log r pg pf, run (sample_guard no_file sample_hypothesis []) fix_script = Some (log, Ok r) /\
    @cleared ascii_unicode sample_base (sample_raw sample_hypothesis []) pg pf /\
    (exists ls lc lb, @repo_earned ascii_unicode _ _ (u "/usr/bin/python3") fix_parser (fun l => l) sample_base no_file (fun p => p)
                     (fun _ => None) sample_tokens pg
                     sample_requirements pf log r ls lc lb) /\
    (exists c, gs_diff_coverage r = Some c /\ @floor_met ascii_unicode c (NFloat (dec 80 0))) /\
    exists b, gs_baseline r = Some b /\ dget b (u "verdict") = VStr (u "FAIL").
Proof.
  assert (Hl : match outcome (run (sample_guard no_file sample_hypothesis []) fix_script) with
               | Some (Ok r) => gs_verdict r = PASS
               | _ => False
               end) by (vm_compute; reflexivity).
  destruct (run (sample_guard no_file sample_hypothesis []) fix_script) as [[log [r|e]]|] eqn:E; [|destruct Hl..].
  destruct (guard_pass_earned _ _ _ _ _ _ _ _ _ _ _ _ _ _ _ _ (run_exec _ _ _ _ E) Hl)
    as (pg & pf & Hc & _ & _ & _ & _ & _ & Hj & Hd & Hf).
  pose proof (cl_prepared _ _ _ _ Hc) as Hp. vm_compute in Hp. injection Hp as <-.
  eexists log, r, _, pf. split; [reflexivity|]. split; [exact Hc|]. split; [exact Hj|].
  split; [exact (Hd _ eq_refl)|exact (Hf eq_refl)].
Defined.

(** A candidate that edits a test is rejected with an empty log. *)
Lemma refused_candidate_never_runs_witness :
  exists r, run (sample_guard no_file edits_test []) fix_script = Some ([], Ok r) /\
    gs_verdict r = REJECTED /\ gs_reason_code r = REASON_PROTECTED_HARNESS_EDIT /\
    gs_protected_violations r = us ["tests/test_app.py"] /\ exit_code r = 1.
Proof.
  destruct (run (sample_guard no_file edits_test []) fix_script) as [[log o]|] eqn:E; [|vm_compute in E; discriminate E].
  destruct (@prepare_guard_request ascii_unicode (sample_raw edits_test [])) as [pg|] eqn:Ep; [|vm_compute in Ep; discriminate Ep].
  destruct (@evaluate_candidate_preflight ascii_unicode sample_base (preflight_request pg)) as [pf|] eqn:Ef;
    [|vm_compute in Ep; injection Ep as <-; vm_compute in Ef; discriminate Ef].
  assert (Hpf : cf_all_touched_paths pf = us ["tests/test_app.py"] /\ cf_unsafe_paths pf = [] /\
                cf_protected_violations pf = us ["tests/test_app.py"])
    by (vm_compute in Ep; injection Ep as <-; vm_compute in Ef; injection Ef as <-; split_and!; reflexivity).
  destruct Hpf as (H1 & H2 & H3).
  assert (Hc : @cleared ascii_unicode sample_base (sample_raw edits_test []) pg pf).
  { split; [exact Ep| | |exact Ef]; vm_compute in Ep; injection Ep as <-; vm_compute; reflexivity. }
  destruct (refused_candidate_never_runs _ _ _ _ _ _ _ _ _ _ _ _ _ _ _ _ _ _ (run_exec _ _ _ _ E) Hc) as [-> Hr].
  { unfold may_execute. rewrite H1, H2, H3. reflexivity. }
  destruct o as [r|e].
  2:{ exfalso. apply (f_equal outcome) in E. vm_compute in E. discriminate E. }
  destruct (Hr r eq_refl) as (Hv & Hp & _ & _ & He). rewrite H1, H2 in Hv. injection Hv as Hv Hw. rewrite H3 in Hp.
  exists r. split_and!; [reflexivity|exact Hv|exact Hw|exact Hp|exact He].
Defined.

(** A call of the external judge alone, for a container candidate. *)
Definition external_raw : GuardRequestPreparationInput := {|
  raw_repository_path := u "/repo"; raw_candidate_text := sample_hypothesis; raw_deleted_paths := [];
  raw_test_command := None; raw_setup_command := None; raw_trust_setup_on_host := false;
  raw_setup_output_globs := []; raw_protected := []; raw_allow := []; raw_allow_new_tests := false;
  raw_timeout := VInt 60; raw_mem_limit_mb := VInt 1024; raw_isolation := VStr (u "docker");
  raw_docker_image := Some (u "img"); raw_docker_network := u "none"; raw_verifier_pack_path := Some (u "/pack");
  raw_expect_verifier_pack_sha256 := None; raw_collect_diff_coverage := false; raw_min_diff_coverage := VNone;
  raw_blackbox := true; raw_blackbox_only := true; raw_require_report_integrity := None;
  raw_require_candidate_isolation := None; raw_base_sha := None; raw_head_sha := None; raw_base_tree_sha := None;
  raw_head_tree_sha := None; raw_policy_id := None; raw_policy_version := None; raw_baseline_evidence := false;
  raw_require_demonstrated_fix := false; raw_strict_harness := VBool false; raw_file_blocks := None;
  raw_operating_profile := None; raw_harness_inputs := [] |}.

Definition external_guard : prog (op sample_world) (reply sample_world) (result guard_error GuardResult) :=
  @Guard.guard ascii_unicode _ _ (u "/usr/bin/python3") (1000, 1000) one_test_parser (fun l => l) sample_base no_file
    (fun p => p) (u "2025-01-01T00:00:00Z") (u "1") (fun _ _ => true) (fun _ => None) sample_tokens
    external_raw sample_requirements.

(** The external judge passes the candidate in a container. *)
Lemma external_pass_sample :
  match outcome (run external_guard graded_script) with
  | Some (Ok r) => gs_verdict r = PASS /\ gs_isolation r = u "docker" /\ exit_code r = 0
  | _ => False
  end.
Proof. vm_compute. auto. Qed.

(** The score of a protected edit. *)
Lemma risk_score_bounded_witness :
  exists r, @_risk_score_with_deletions ascii_unicode no_file (u "/repo") edits_test None (us ["tests/test_app.py"]) []
              _PROTECTED_GLOBS = Ok r /\
    fleb (dec 0 0) (rk_score r) = true /\ fleb (rk_score r) (dec 1 0) = true /\ rk_level r = u "high".
Proof.
  destruct (@_risk_score_with_deletions ascii_unicode no_file (u "/repo") edits_test None (us ["tests/test_app.py"]) []
              _PROTECTED_GLOBS) as [r|e] eqn:E; [|vm_compute in E; discriminate E].
  destruct (risk_score_bounded _ _ _ _ _ _ _ _ E) as (H1 & H2 & H3).
  exists r. split; [reflexivity|]. split; [exact H1|]. split; [exact H2|]. apply H3. left.
  vm_compute in E. injection E as <-. discriminate.
Defined.

(** The base file that a candidate replaces is decoded without a handler: a base file
    that is not UTF-8 ends the run with an exception and no record, after the suite
    and the pack have passed. *)
Lemma undecodable_base_file_raises :
  outcome (run (sample_guard (fun _ => Opened [255%Z]) sample_hypothesis []) fix_script)
  = Some (Err (RiskRaised (UndecodableBaseFile (u "src/app.py")))).
Proof. vm_compute. reflexivity. Qed.

(** Beside a common prefix, a removed line that begins with two dashes is not counted. *)
Lemma dashed_removal_uncounted :
  _diff_counts (u "a" ++ [10%N] ++ u "--d") (u "a" ++ [10%N] ++ u "e") = (1, 0).
Proof. vm_compute. reflexivity. Qed.

(** A base on which nothing is tested satisfies the gate on a demonstrated fix. *)
Lemma untested_base_passes_fix_gate :
  match outcome (run (sample_guard no_file sample_hypothesis [])
                   (pack_script ++ coverage_script covered_report ++ base_script sample_copy (base_exit 5) (u "<none>"))) with
  | Some (Ok r) => gs_verdict r = PASS
  | _ => False
  end.
Proof. vm_compute. reflexivity. Qed.

(** ** Coverage runs *)

Definition sample_coverage (blocks : list (str * str)) : coverage_request :=
  {| cq_repo_path := u "/repo"; cq_candidate := sample_hypothesis; cq_deleted := []; cq_test_command := None;
     cq_setup_command := None; cq_setup_output_globs := []; cq_timeout := 60; cq_mem_limit_mb := 1024;
     cq_file_blocks := Some blocks; cq_require_passing_suite := true; cq_harness_inputs := [] |}.
Definition app_blocks : list (str * str) := [(u "src/app.py", u "x = 2")].
Definition collect_sample (open_path : str -> opened) (blocks : list (str * str)) (report : str)
  : option (list (op sample_world * reply sample_world) * (failure + dict)) :=
  run (@collect_diff_coverage ascii_unicode _ _ (u "/usr/bin/python3") keep_judge (fun p => p) open_path
         (fun _ => None) sample_tokens (sample_coverage blocks)) (coverage_script report).

Lemma measured_coverage_earned_witness :
  exists log d workdir, collect_sample no_file app_blocks covered_report = Some (log, inr d) /\ dget d (u "percent") = VFloat (dec 1000 1) /\
    @coverage_earned ascii_unicode _ _ (u "/usr/bin/python3") keep_judge (fun p => p) no_file (fun _ => None) sample_tokens
      (sample_coverage app_blocks) log d workdir.
Proof.
  assert (Hl : match option_map snd (collect_sample no_file app_blocks covered_report) with
               | Some (inr d) => dget d (u "measured") = VBool true /\ dget d (u "percent") = VFloat (dec 1000 1)
               | _ => False
               end) by (vm_compute; split; reflexivity).
  destruct (collect_sample no_file app_blocks covered_report) as [[log [e|d]]|] eqn:E; [destruct Hl| |destruct Hl].
  destruct Hl as [Hm Hp]. destruct (measured_coverage_earned _ _ _ _ _ _ _ _ _ (run_exec _ _ _ _ E) Hm) as (wd & Hc).
  exists log, d, wd. split; [reflexivity|]. split; [exact Hp|exact Hc].
Defined.

(** A suite that ran the change leaves evidence that the verifier accepts. *)
Lemma collected_coverage_conforms_witness :
  exists log d, collect_sample no_file app_blocks covered_report = Some (log, inr d) /\ coverage_conforms d.
Proof.
  destruct (collect_sample no_file app_blocks covered_report) as [[log [e|d]]|] eqn:E.
  - apply (f_equal (option_map snd)) in E. vm_compute in E. discriminate E.
  - exists log, d. split; [reflexivity|]. apply (collected_coverage_conforms _ _ _ _ _ _ _ _ _ (run_exec _ _ _ _ E)).
    intros blocks [= <-]. apply NoDup_singleton.
  - apply (f_equal (option_map snd)) in E. vm_compute in E. discriminate E.
Defined.

(** Two changed lines of a file, of which the report has the first. *)
Definition half_report : list (str * dict) := [(u "src/app.py", dict_of [("executed_lines", VList [VInt 1])])].
Definition two_lines : str := u "x = 2" ++ [10%N] ++ u "y = 3".

Lemma changed_lines_accounted_witness :
  exists d row, measured_evidence (fun _ => None) sample_tokens [(u "src/app.py", [1; 2])] []
                  [(u "src/app.py", Some two_lines)] half_report = Ok d /\
    dget d (u "executed") = VInt 1 /\ dget d (u "total") = VInt 2 /\
    row_accounted (fun _ => None) sample_tokens [(u "src/app.py", [1; 2])] [(u "src/app.py", Some two_lines)] half_report row /\
    cr_path row = u "src/app.py".
Proof.
  destruct (measured_evidence (fun _ => None) sample_tokens [(u "src/app.py", [1; 2])] []
              [(u "src/app.py", Some two_lines)] half_report) as [d|e] eqn:E; [|vm_compute in E; discriminate E].
  destruct (changed_lines_accounted _ _ _ _ _ _ _ E) as (_ & rows & x & t & _ & Hpaths & Hrows & _).
  destruct rows as [|row rows]; [vm_compute in Hpaths; discriminate Hpaths|]. exists d, row.
  split; [reflexivity|]. apply Forall_cons in Hrows as [Hrow _]. vm_compute in E. injection E as <-.
  split; [reflexivity|]. split; [reflexivity|]. split; [exact Hrow|]. vm_compute in Hpaths. by injection Hpaths as Hp _.
Defined.

(** A form feed is a line boundary of [str.splitlines] and none of the tokenizer: the
    changed line has number 3 in one count and 2 in the other, so it is neither executed
    nor missed, and the percentage is that of an empty denominator. *)
Definition paged (text : string) : str := [12%N] ++ u "a = 1" ++ [10%N] ++ u text ++ [10%N].
Lemma form_feed_drops_changed_line :
  touched_lines (paged "b = 2") (paged "b = 3") = [3] /\
  match measured_evidence (fun _ => None) sample_tokens [(u "app.py", touched_lines (paged "b = 2") (paged "b = 3"))] []
          [(u "app.py", Some (paged "b = 3"))] [] with
  | Ok d => dget d (u "total") = VInt 0 /\ dget d (u "percent") = VFloat (dec 1000 1)
  | Err _ => False
  end.
Proof. vm_compute. auto. Qed.

(** A report whose executed lines are no list ends the collection with an exception. *)
Lemma malformed_report_raises :
  option_map snd (collect_sample no_file app_blocks (json_text "{'files': {'src/app.py': {'executed_lines': 5}}}"))
  = Some (inl (uncaught "TypeError")).
Proof. vm_compute. reflexivity. Qed.

(** So does an integer with more digits than the language converts. *)
Lemma long_integer_raises :
  option_map snd (collect_sample no_file app_blocks (json_text "{'n': " ++ repeat 49%N 4301 ++ json_text "}"))
  = Some (inl (uncaught "ValueError")).
Proof. vm_compute. reflexivity. Qed.
